(* ===== verification/_CoqProject ===== *)
-Q . S2P
Prelude.v
PyStr.v
PyVal.v
Rbac.v
Regex.v
Sha256.v
Cilium.v
NetworkPeers.v
KubectlRbac.v
SecurePod.v
DaemonCallers.v
OwnerCreds.v
OwnerCredsSpec.v
MetricsPolicy.v
PolicyType.v
VeleroDatapath.v
CiliumSpec.v
NetpolHooks.v
ZitadelTokens.v
RegexParse.v
EdgeRoutes.v
NamespacePolicy.v
Webhooks.v
OpenfgaAuthn.v
DnsNames.v
IpAddr.v
WalContinuity.v
UpgradePair.v
HubbleDrops.v
BumpDigest.v
NoSecretArgv.v
ValuesConsumed.v
Shlex.v
SecretReads.v
JwtPayload.v
MisdirectedAuthority.v
AccessLog.v
InstanceAdmin.v
Json.v
PyFloat.v
WorkloadRbac.v
SecretPlumbing.v
IdentityAdmission.v
PostgresLogins.v
Reloader.v
OptionalReferences.v
PipeGrepQ.v
AlertSeries.v
EnvConsumed.v
SecretContract.v
AirgapImages.v
XtraceSecrets.v
ChartDeps.v
OrphanTemplates.v
OperatorRbac.v
SeamConditions.v
OpenbaoPolicies.v
AlertRunbooks.v
SecretStores.v
HelperDocs.v
EdgeLive.v
BackupCoverage.v
FgaSeeds.v
ClaimedHost.v
LoginToken.v
InstanceHeaders.v
ReloaderNames.v
CnpgSuperuser.v
VeleroBackup.v
ConnectorCreds.v
ProbeTimeouts.v
OpenbaoTls.v
SpireFederation.v
CgRotation.v
EdgeRateLimits.v
NodeHeap.v
SmtpTlsMode.v
EmailSmtp.v
NamespaceLabels.v
SelfTests.v
