(* ===== verification/Prelude.v ===== *)
(** * Guards of the gibson charts repository: a verification development

    The repository holds Helm charts and about 130 Python scripts that guard
    them.  A guard reads golden renders (the YAML documents that [helm template]
    gives), allowlists and files of the repository, and exits 0 when a security
    property of them holds.  The scripts are the program that is modelled here:
    their functions are definitions on the values they read, and the theorems
    say what a clean exit proves about a render.

    ** How the program fits together

    Each guard is a process of its own: it loads its inputs, builds tables from
    the documents, judges them one by one, and adds a line of text for each
    finding.  Its state is local variables; an allowlist file carries the
    decisions of people.  [scripts/lib/cilium_policy.py] is a module that guards
    share: [check-daemon-netpol-admits-callers.py], [check-secure-pod.py],
    [check-zitadel-token-writers.py] and [check-netpol-before-hooks.py] ask it
    which flows the Cilium policies of a render allow, or how it names labels.
    Here those models require Cilium.v, and their theorems use the refinement
    theorem of CiliumSpec.v.

    ** The base

    - Prelude.v: exceptions and results ([result]), Python's loops with early
      exit ([anyM], [allM], [filterM], [mapR], [flatM], [foldM]) and their
      inversion lemmas, [computes] and [yields] for loops that raise nothing.
    - PyStr.v: [str] methods ([split], [strip], [partition], [sorted], ...).
    - PyVal.v: the values that YAML and JSON give ([val]), truth, [==], [get],
      [in], [repr], and each [TypeError], [KeyError] and [AttributeError].
    - Regex.v: [re] as a backtracking matcher with groups, sound and complete
      for the relation [step]; [search] is leftmost and [finditer] covers each
      match.
    - Shlex.v: [shlex.split], as the state machine of the standard library.
    - RegexParse.v: the parser of pattern text, for the guards that compile a
      pattern they read.
    - Sha256.v, IpAddr.v: [hashlib.sha256] and [ipaddress] at their widths.
    - Json.v: [json.dumps] and [json.loads]; the text of a value is unique, and
      it parses to the value.
    - Rbac.v: RBAC rules as typed records, with the meaning Kubernetes gives.

    ** The components

    A file X.v models a script, with its fixtures and its self-test at the end,
    and XSpec.v, or the last part of X.v, proves what it promises.  A definition
    has the name of the Python function it models; a helper is a part of the
    function that PROJECT.json names.

    - Cilium: scripts/lib/cilium_policy.py, selectors, rules and reachability.
      CiliumSpec refines it to typed policies ([flow_allowed]).
    - OwnerCreds: scripts/check-owner-credential-readers.py, who can read or
      take over an owner Secret.  The powers are exact against Rbac.v; a clean
      run lists each reader and fences each takeover.
    - SecurePod: scripts/check-secure-pod.py, the restricted pod profile.  A
      clean audit restricts each workload, denies by default, labels the
      namespaces, and its exceptions are exact.
    - KubectlRbac: scripts/check-kubectl-rbac.py, [allowed] refines RBAC, and
      the check is clean exactly when each recorded call is granted.
    - NetworkPeers, NamespacePolicy, MetricsPolicy, PolicyType, DnsNames,
      DaemonCallers, NetpolHooks: the network policy guards of the same names.
    - ZitadelTokens: scripts/check-zitadel-token-writers.py, the writers of a
      token and the flows that let them write it.
    - EdgeRoutes: scripts/check-edge-zitadel-routes.py, the routes of the edge
      as a decision procedure that probes are judged by.
    - JwtPayload, MisdirectedAuthority, AccessLog: the other guards of the edge.
      A clean edge strips the identity header of a client on each path, for the
      verifiers of Envoy on a typed config; it answers coalesced requests with
      421 by the matcher of EdgeRoutes; its logs hold no credential.
    - SecretReads: scripts/check-secret-reads-granted.py, a static resolver of
      shell variables; it is exact, it ends, and each read it finds is granted
      by the RBAC evaluator of OwnerCreds.
    - ValuesConsumed: scripts/check-values-consumed.py, which keys of a values
      file the templates read.
    - Webhooks, OpenfgaAuthn: admission webhooks fail closed and are proved;
      OpenFGA takes calls with its key only.
    - WalContinuity, UpgradePair, HubbleDrops: scripts of the live gates, on the
      listings and flows that their callers read from a cluster.
    - BumpDigest: scripts/bump-image-digest.py, the rewrite of image pins as a
      state of files.
    - NoSecretArgv: scripts/check-no-secret-argv.py, a scan of shell text.
    - PipeGrepQ: scripts/check-no-pipe-grep-q.py, shell text that runs with
      pipefail, with the scripts that it sources as a least fixed point.
    - InstanceAdmin: scripts/check-instance-admin-roles-scoped.py, the roles of
      the OIDC clients in the values and in the snapshots of Zitadel.
    - WorkloadRbac: scripts/check-workload-rbac.py, an allowlist with a digest
      per grant; [digest_text_same_iff] shows what the hashed text tells apart.
    - SecretPlumbing: scripts/check-secret-plumbing.py, each Secret that a
      workload names has a producer.
    - IdentityAdmission: scripts/check-identity-admission-covers.py, the names
      that an admission policy lists are the identities of the render.
    - PostgresLogins: scripts/check-postgres-logins-wave.py, sync waves of the
      database logins.
    - Reloader, OptionalReferences: which workloads Reloader may patch, and why
      a reference to a Secret may be optional.
    - AlertSeries: scripts/check-alert-series-scraped.py, a monitor of the
      render scrapes a port for each series that an alert reads.
    - EnvConsumed: scripts/check-env-consumed.py, each environment variable of
      a chart is read by the program of its container, or has a reason.
    - SecretContract: scripts/check-secret-contract.py, the register of secret
      names against the charts that produce and mount them.
    - AirgapImages: airgap/generate-image-list.py, the list of images for a
      mirror: collected from the renders, written, and checked.
    - XtraceSecrets: scripts/check-xtrace-secrets.py, shell scripts that handle a
      value turn xtrace off before; a clean scan is read as a run of the lines.
    - VeleroDatapath: scripts/check-velero-datapath-selected.py, the policy
      selects the data path pods and names the hosts of one bucket.
    - ChartDeps: scripts/check-chart-deps-fresh.py, a stamp in a tree of files
      that records a digest of the sources of a chart.
    - OrphanTemplates: scripts/check-orphan-templates.py, the named templates and
      the files of a chart; the body of a [define] is what its balanced [end]
      closes.
    - OperatorRbac: scripts/check-operator-rbac-covers.py, an operator holds at
      cluster scope what its generated role lists.
    - SeamConditions: scripts/check-seam-conditions.py, the dependency conditions
      are the named seams, and what helm does with the setec seam off.
    - OpenbaoPolicies: scripts/check-openbao-policies.py, the paths, the sudo and
      the transit key of the policies that the OpenBao sidecar writes.
    - AlertRunbooks: scripts/check-alert-runbooks.py, each alert of a render names
      a heading of a page.
    - SecretStores: scripts/check-externalsecret-store-namespace.py, the store of
      an ExternalSecret serves its namespace.
    - HelperDocs: scripts/check-helper-docs.py, a template file as a sequence of
      events; [parse] reads its top level ([top]) and the comments are judged.
    - EdgeLive: scripts/check-edge-zitadel-routes.py --live, a program over the
      effect of running curl; its runs are traces of commands and answers.
    - BackupCoverage: scripts/check-backup-coverage.py, the backup of each
      database and of each volume claim.
    - FgaSeeds: scripts/check-fga-init-seeds.py, the relations that the fga-init
      script seeds and prunes, with its variables and loops.
    - ClaimedHost: scripts/check-zitadel-claimed-host.py, the places of a render
      that claim a host of Zitadel; a port is read as a decision on the text.
    - LoginToken, InstanceHeaders: the login pod mounts the token file it reads;
      the edge removes the headers that select a Zitadel instance.
    - ReloaderNames: scripts/check-reloader-names.py, each name of a Reloader
      annotation is an object of the render or has a producer.
    - CnpgSuperuser: scripts/check-cnpg-superuser-secret.py, the writes of the
      password of the role postgres, in order.
    - ConnectorCreds: scripts/check-connector-creds-binding.py, the account that
      the tenant operator binds, and the rules that the daemon does not hold.
    - ProbeTimeouts: scripts/check-probe-timeouts.py, each probe of the printed
      render states its timeout; the exemptions are exact.
    - OpenbaoTls: scripts/check-openbao-tls.py, the listener of OpenBao and the CA
      that each container which dials it trusts, on texts and mounts.
    - SpireFederation: scripts/check-spire-federation.py, the baseline federates
      nothing, the fixture federates both ways, and helm refuses each bad value.
    - CgRotation: scripts/check-cg-rotation-window.py, the six files of the key
      set, their references and the mount that the daemon reads.
    - PyFloat: the doubles of Python on SpecFloat, float() of a text, two formats
      and the comparisons; the integers below 2^53 are exact.
    - EdgeRateLimits: scripts/check-edge-rate-limits.py, the limits of the Envoy
      configuration and the quota of a route against its fuse, as doubles.
    - NodeHeap: scripts/check-node-heap-tracks-limit.py, the heap flag of Node
      between 50% and 90% of the memory limit.
    - SmtpTlsMode, EmailSmtp: the renders of the mail settings that pass and that
      are refused; an exit with a message is an exception.
    - NamespaceLabels: scripts/check-namespace-label-admission.py, the labels that
      a Cilium rule trusts and the admission policies that fence them.
    - VeleroBackup: scripts/lib/velero-backup-from-schedule.py, a program from
      JSON to JSON; the text it prints parses to the Backup it built.
    - SelfTests: the models of the guards pass the [selftest] of their scripts,
      fixture by fixture.

    ** The theorems

    - Safety: a clean exit implies the property of the render the guard is for,
      in terms of the documents ([clean_...]).
    - Refinement and equivalence: tables and judgments agree with a meaning
      stated on typed data ([..._decides...], [..._exact], [..._iff]).
    - Errors and totality: which inputs stop a loader, and which functions
      return on each input ([loaded_...], [main_decides_continuity],
      [scan_text_reads_nested_text], [bump_changes_only_its_pins],
      [fold_parens_total], [values_ends]).
    - Round trips and bounds: [rewrite_pin_reads_back], [in_pod_cidr_decides],
      [clean_heaps_fit_their_limits], [check_accepts_what_is_written],
      [written_stamp_is_fresh].
    - Completeness of a list: [check_lists_every_image].

    ** Bounds

    Recursion that is not structural runs on fuel that is proved enough or that
    is the exact bound of the source: [str_split] and [finditer] use the length
    of the text ([splitn_enough], [finditer_covers]); a regex loop runs at most
    once per character ([rmatch_complete]); the findings of a line recurse into
    shorter text, so its length is enough ([line_findings_enough]); a role
    that a holder of OwnerCreds may bind is judged once more, at depth 1, as in
    the source; the tag pages of UpgradePair are at most the 50 of the source;
    the parser of RegexParse.v takes two steps per character, and raises
    [ReError] on the syntax it does not hold; a pass of [fold_parens] shortens
    the text or is the last ([fold_parens_total]); the resolver of SecretReads.v
    goes one level deeper than the script has assignments ([values_ends]);
    [json_loads] has twice the length of the text; the loop over sourced scripts
    of PipeGrepQ.v has one turn more than there are names to find
    ([sourced_names_are_the_closure]); the stack walk of AirgapImages.v has one
    turn per node of the document ([walk_stack_ok]).

    ** Not modelled

    - PyYAML, helm, kubectl, git and HTTP: their results are arguments.  YAML
      tags, timestamps and floats are not values of [val] (the floats that a
      guard computes are those of PyFloat.v), and dictionary keys are strings; a
      key of another type is outside the model.
    - Text is a list of bytes: [len], slices and classes of characters agree
      with Python on ASCII, which the guards read.
    - Printing, argument parsers, the walk over the files of the repository and
      exit codes beyond what [main] returns; the recursion limit of Python.
    - A line of Hubble flows or of a recorded call is its parsed value; the JSON
      that a guard writes, hashes or reads from a template is text, in Json.v.
    - The remaining guards, the generators, the vendoring scripts and the shell
      scripts; PROJECT.json lists them with the reason. *)
From stdpp Require Export base tactics option list strings sets.
From stdpp Require Export pretty.
From Stdlib Require Export ZArith Lia.

#[global] Set Default Proof Using "Type".

(** ** Exceptions and results

    A guard is a Python function over the documents of a render.  It returns
    a value or it stops with an exception; [result] is that sum, and its
    [MBind] instance is Python's evaluation order: the first exception stops
    the rest. *)
Inductive exn : Type :=
  | AttributeError
  | KeyError
  | TypeError
  | ValueError
  | IndexError
  | OverflowError
  | StopIteration
  | OSError
  | SystemExit (message : string)
  | CallError (message : string)
  | ResolveError (message : string)
  | Blind (message : string)
  | GuardBroken (message : string)
  | ReError
  | OutOfFuel.

#[global] Instance exn_eq_dec : EqDecision exn.
Proof. solve_decision. Defined.

Inductive result (A : Type) : Type :=
  | Ok (a : A)
  | Raise (e : exn).
Arguments Ok {A} a.
Arguments Raise {A} e.

#[global] Instance result_eq_dec `{EqDecision A} : EqDecision (result A).
Proof. solve_decision. Defined.

Definition rbind {A B} (m : result A) (f : A → result B) : result B :=
  match m with Ok a => f a | Raise e => Raise e end.
Definition rmap {A B} (f : A → B) (m : result A) : result B :=
  match m with Ok a => Ok (f a) | Raise e => Raise e end.

Declare Scope py_scope.
Notation "x <- m ;; k" := (rbind m (λ x, k))
  (at level 20, m at level 99, k at level 200, only parsing) : py_scope.
Notation "' p <- m ;; k" := (rbind m (λ x, match x with p => k end))
  (at level 20, p pattern, m at level 99, k at level 200, only parsing) : py_scope.
#[global] Open Scope py_scope.

(** What a process leaves: its status, its output and its errors *)
Record process := Process { returncode : Z; stdout : string; stderr : string }.

Definition is_ok {A} (m : result A) : bool :=
  match m with Ok _ => true | Raise _ => false end.

(** ** Loops

    Python's comprehensions and [for] loops over a list, with the exception
    of the body and, for [any] and [all], the early exit. *)
Section loops.
Context {A B : Type}.

(** [any(p(x) for x in l)] *)
Fixpoint anyM (p : A → result bool) (l : list A) : result bool :=
  match l with
  | [] => Ok false
  | x :: l => b <- p x ;; if (b : bool) then Ok true else anyM p l
  end.

(** [all(p(x) for x in l)] *)
Fixpoint allM (p : A → result bool) (l : list A) : result bool :=
  match l with
  | [] => Ok true
  | x :: l => b <- p x ;; if (b : bool) then allM p l else Ok false
  end.

(** [[x for x in l if p(x)]] *)
Fixpoint filterM (p : A → result bool) (l : list A) : result (list A) :=
  match l with
  | [] => Ok []
  | x :: l => b <- p x ;; k <- filterM p l ;; Ok (if (b : bool) then x :: k else k)
  end.

(** [[f(x) for x in l]] *)
Fixpoint mapR (f : A → result B) (l : list A) : result (list B) :=
  match l with
  | [] => Ok []
  | x :: l => y <- f x ;; k <- mapR f l ;; Ok (y :: k)
  end.

(** [for x in l: out += f(x)] *)
Fixpoint flatM (f : A → result (list B)) (l : list A) : result (list B) :=
  match l with
  | [] => Ok []
  | x :: l => y <- f x ;; k <- flatM f l ;; Ok (y ++ k)
  end.

(** [for x in l: if ...: return v], where [None] goes on with the loop. *)
Fixpoint firstM (f : A → result (option B)) (l : list A) : result (option B) :=
  match l with
  | [] => Ok None
  | x :: l => o <- f x ;; match o with Some v => Ok (Some v) | None => firstM f l end
  end.

(** [for x in l: s = f(s, x)] *)
Fixpoint foldM (f : B → A → result B) (s : B) (l : list A) : result B :=
  match l with
  | [] => Ok s
  | x :: l => s' <- f s x ;; foldM f s' l
  end.
End loops.

(** ** Inversion lemmas of the loops

    They carry the soundness theorems: a clean verdict of a loop is a clean
    verdict of its body at each element. *)
Section loop_lemmas.
Context {A B : Type}.
Implicit Types (l : list A).

Lemma anyM_true (p : A → result bool) l :
  anyM p l = Ok true → ∃ x, x ∈ l ∧ p x = Ok true.
Proof.
  induction l as [|x l IH]; simpl; [done|].
  destruct (p x) as [[]|] eqn:E; simpl; intros H; try done.
  - exists x. split; [left|done].
  - destruct (IH H) as (y & ? & ?). exists y. split; [by right|done].
Qed.

Lemma anyM_false (p : A → result bool) l :
  anyM p l = Ok false ↔ ∀ x, x ∈ l → p x = Ok false.
Proof.
  induction l as [|x l IH]; simpl.
  - split; [|done]. intros _ x Hx. by apply elem_of_nil in Hx.
  - destruct (p x) as [[]|] eqn:E; simpl; split; intros H; try done.
    + specialize (H x (list_elem_of_here _ _)). congruence.
    + intros y [->|?]%elem_of_cons; [done|]. by apply IH.
    + apply IH. intros y Hy. apply H. by right.
    + specialize (H x (list_elem_of_here _ _)). congruence.
Qed.

Lemma allM_true (p : A → result bool) l :
  allM p l = Ok true ↔ ∀ x, x ∈ l → p x = Ok true.
Proof.
  induction l as [|x l IH]; simpl.
  - split; [|done]. intros _ x Hx. by apply elem_of_nil in Hx.
  - destruct (p x) as [[]|] eqn:E; simpl; split; intros H; try done.
    + intros y [->|?]%elem_of_cons; [done|]. by apply IH.
    + apply IH. intros y Hy. apply H. by right.
    + specialize (H x (list_elem_of_here _ _)). congruence.
    + specialize (H x (list_elem_of_here _ _)). congruence.
Qed.

Lemma allM_false (p : A → result bool) l :
  allM p l = Ok false → ∃ x, x ∈ l ∧ p x = Ok false.
Proof.
  induction l as [|x l IH]; simpl; [done|].
  destruct (p x) as [[]|] eqn:E; simpl; intros H; try done.
  - destruct (IH H) as (y & ? & ?). exists y. split; [by right|done].
  - exists x. split; [left|done].
Qed.

Lemma filterM_Ok (p : A → result bool) l k :
  filterM p l = Ok k →
  ∀ x, x ∈ k ↔ x ∈ l ∧ p x = Ok true.
Proof.
  revert k. induction l as [|x l IH]; simpl; intros k H y.
  - injection H as <-. set_solver.
  - destruct (p x) as [b|] eqn:E; simpl in H; [|done].
    destruct (filterM p l) as [k'|] eqn:E'; simpl in H; [|done].
    injection H as <-. specialize (IH _ eq_refl y).
    rewrite (elem_of_cons l). destruct b; rewrite ?elem_of_cons, IH.
    + split; [intros [->|[??]]; auto|intros [[->|?] ?]; auto].
    + split; [intros [??]; auto|intros [[->|?] ?]; [congruence|auto]].
Qed.

Lemma filterM_sublist (p : A → result bool) l k : filterM p l = Ok k → k `sublist_of` l.
Proof.
  revert k. induction l as [|x l IH]; cbn [filterM]; intros k; [by intros [= <-]|].
  destruct (p x) as [b|]; cbn; [|done]. destruct (filterM p l) as [k'|]; cbn; [|done].
  intros [= <-]. destruct b; [by apply sublist_skip, IH|by apply sublist_cons, IH].
Qed.

Lemma mapR_Ok (f : A → result B) l k :
  mapR f l = Ok k ↔ Forall2 (λ x y, f x = Ok y) l k.
Proof.
  revert k. induction l as [|x l IH]; simpl; intros k.
  - split; [intros [= <-]; constructor|by inversion 1].
  - destruct (f x) as [y|] eqn:E; simpl.
    2: { split; [done|]. inversion 1; congruence. }
    destruct (mapR f l) as [k'|] eqn:E'; simpl; split; intros H.
    + injection H as <-. constructor; [done|]. by apply IH.
    + inversion H as [|? ? ? ? H1 H2]; subst. apply IH in H2. congruence.
    + done.
    + inversion H as [|? ? ? ? H1 H2]; subst. apply IH in H2. congruence.
Qed.

Lemma mapR_elem (f : A → result B) l k y :
  mapR f l = Ok k → y ∈ k → ∃ x, x ∈ l ∧ f x = Ok y.
Proof.
  rewrite mapR_Ok. induction 1 as [|a b l' k' Hab _ IH]; intros Hin.
  - by apply elem_of_nil in Hin.
  - apply elem_of_cons in Hin as [->|Hin].
    + exists a. split; [left|done].
    + destruct (IH Hin) as (z & Hz & ?). exists z. split; [by right|done].
Qed.

Lemma mapR_elem_2 (f : A → result B) l k x :
  mapR f l = Ok k → x ∈ l → ∃ y, y ∈ k ∧ f x = Ok y.
Proof.
  rewrite mapR_Ok. induction 1 as [|a b l' k' Hab _ IH]; intros Hin.
  - by apply elem_of_nil in Hin.
  - apply elem_of_cons in Hin as [->|Hin].
    + exists b. split; [left|done].
    + destruct (IH Hin) as (z & Hz & ?). exists z. split; [by right|done].
Qed.

Lemma flatM_nil (f : A → result (list B)) l :
  flatM f l = Ok [] ↔ ∀ x, x ∈ l → f x = Ok [].
Proof.
  induction l as [|x l IH]; simpl.
  - split; [|done]. intros _ x Hx. by apply elem_of_nil in Hx.
  - destruct (f x) as [y|] eqn:E; simpl.
    2: { split; [done|]. intros H. specialize (H x (list_elem_of_here _ _)). congruence. }
    destruct (flatM f l) as [k|] eqn:E'; simpl; split; intros H; try done.
    + injection H as H. apply app_eq_nil in H as [-> ->].
      intros z [->|Hz]%elem_of_cons; [done|]. by apply IH.
    + assert (y = []) as ->.
      { specialize (H x (list_elem_of_here _ _)). congruence. }
      assert (Ok k = Ok []) as [= ->]; [|done].
      apply IH. intros z Hz. apply H. by right.
    + assert (Raise e = @Ok (list B) []) as [=]. apply IH. intros z Hz. apply H. by right.
Qed.

Lemma flatM_elem (f : A → result (list B)) l k :
  flatM f l = Ok k →
  ∀ y, y ∈ k ↔ ∃ x r, x ∈ l ∧ f x = Ok r ∧ y ∈ r.
Proof.
  revert k. induction l as [|x l IH]; simpl; intros k H y.
  - injection H as <-. set_solver.
  - destruct (f x) as [r|] eqn:E; simpl in H; [|done].
    destruct (flatM f l) as [k'|] eqn:E'; simpl in H; [|done].
    injection H as <-. rewrite elem_of_app, (IH _ eq_refl). split.
    + intros [?|(x' & r' & ? & ? & ?)]; [by exists x, r; set_solver|].
      exists x', r'. set_solver.
    + intros (x' & r' & [->|?]%elem_of_cons & ? & ?); [left|right; eauto].
      congruence.
Qed.

Lemma flatM_Ok_elem (f : A → result (list B)) l k x :
  flatM f l = Ok k → x ∈ l → ∃ r, f x = Ok r.
Proof.
  revert k. induction l as [|z l IH]; simpl; intros k H Hin.
  - by apply elem_of_nil in Hin.
  - destruct (f z) as [r|] eqn:E; simpl in H; [|done].
    destruct (flatM f l) as [k'|] eqn:E'; simpl in H; [|done].
    apply elem_of_cons in Hin as [->|Hin]; eauto.
Qed.

Lemma firstM_Some (f : A → result (option B)) l v :
  firstM f l = Ok (Some v) → ∃ x, x ∈ l ∧ f x = Ok (Some v).
Proof.
  induction l as [|x l IH]; simpl; [done|].
  destruct (f x) as [[w|]|] eqn:E; simpl; intros H; try done.
  - injection H as <-. exists x. split; [left|done].
  - destruct (IH H) as (y & ? & ?). exists y. split; [by right|done].
Qed.

Lemma firstM_None (f : A → result (option B)) l :
  firstM f l = Ok None ↔ ∀ x, x ∈ l → f x = Ok None.
Proof.
  induction l as [|x l IH]; simpl.
  - split; [|done]. intros _ x Hx. by apply elem_of_nil in Hx.
  - destruct (f x) as [[w|]|] eqn:E; simpl; split; intros H; try done.
    + specialize (H x (list_elem_of_here _ _)). congruence.
    + intros y [->|?]%elem_of_cons; [done|]. by apply IH.
    + apply IH. intros y Hy. apply H. by right.
    + specialize (H x (list_elem_of_here _ _)). congruence.
Qed.

Lemma foldM_inv (P : B → Prop) (f : B → A → result B) s l s' :
  P s → (∀ s x t, x ∈ l → P s → f s x = Ok t → P t) →
  foldM f s l = Ok s' → P s'.
Proof.
  revert s. induction l as [|x l IH]; simpl; intros s Hs Hf H.
  - by injection H as <-.
  - destruct (f s x) as [t|] eqn:E; simpl in H; [|done].
    apply (IH t); [|intros; eapply Hf; [by right|..]; eauto|done].
    eapply Hf; [left| |]; eauto.
Qed.
End loop_lemmas.

(** ** Pure loops: a body that never raises *)
Section pure_loops.
Context {A B : Type}.

Lemma anyM_pure (p : A → result bool) (q : A → bool) l :
  (∀ x, x ∈ l → p x = Ok (q x)) → anyM p l = Ok (existsb q l).
Proof.
  induction l as [|x l IH]; simpl; intros H; [done|].
  rewrite (H x) by left. simpl. destruct (q x); [done|].
  simpl. apply IH. intros y Hy. apply H. by right.
Qed.

Lemma allM_pure (p : A → result bool) (q : A → bool) l :
  (∀ x, x ∈ l → p x = Ok (q x)) → allM p l = Ok (forallb q l).
Proof.
  induction l as [|x l IH]; simpl; intros H; [done|].
  rewrite (H x) by left. simpl. destruct (q x); [|done].
  simpl. apply IH. intros y Hy. apply H. by right.
Qed.

Lemma mapR_pure (f : A → result B) (g : A → B) l :
  (∀ x, x ∈ l → f x = Ok (g x)) → mapR f l = Ok (g <$> l).
Proof.
  induction l as [|x l IH]; simpl; intros H; [done|].
  rewrite (H x) by left. simpl. rewrite IH; [done|].
  intros y Hy. apply H. by right.
Qed.

Lemma flatM_pure (f : A → result (list B)) (g : A → list B) l :
  (∀ x, x ∈ l → f x = Ok (g x)) → flatM f l = Ok (flat_map g l).
Proof.
  induction l as [|x l IH]; simpl; intros H; [done|].
  rewrite (H x) by left. simpl. rewrite IH; [done|].
  intros y Hy. apply H. by right.
Qed.

Lemma anyM_fmap {C} (p : A → result bool) (g : C → A) l :
  anyM p (g <$> l) = anyM (λ x, p (g x)) l.
Proof.
  induction l as [|x l IH]; [done|]. cbn. destruct (p (g x)) as [[]|]; cbn; done.
Qed.

Lemma allM_fmap {C} (p : A → result bool) (g : C → A) l :
  allM p (g <$> l) = allM (λ x, p (g x)) l.
Proof.
  induction l as [|x l IH]; [done|]. cbn. destruct (p (g x)) as [[]|]; cbn; done.
Qed.

Lemma anyM_app (p : A → result bool) l k :
  anyM p (l ++ k) = b <- anyM p l ;; if (b : bool) then Ok true else anyM p k.
Proof.
  induction l as [|x l IH]; simpl; [done|].
  destruct (p x) as [[]|]; simpl; done.
Qed.

Lemma flatM_app (f : A → result (list B)) l k :
  flatM f (l ++ k) = x <- flatM f l ;; y <- flatM f k ;; Ok (x ++ y).
Proof.
  induction l as [|a l IH]; simpl.
  - by destruct (flatM f k).
  - rewrite IH. destruct (f a); simpl; [|done].
    destruct (flatM f l); simpl; [|done].
    destruct (flatM f k); simpl; [|done]. by rewrite app_assoc.
Qed.

Lemma anyM_ext (p q : A → result bool) l :
  (∀ x, x ∈ l → p x = q x) → anyM p l = anyM q l.
Proof.
  induction l as [|x l IH]; simpl; intros H; [done|].
  rewrite (H x) by left. destruct (q x) as [[]|]; simpl; try done.
  apply IH. intros y Hy. apply H. by right.
Qed.

Lemma flatM_ext (f g : A → result (list B)) l :
  (∀ x, x ∈ l → f x = g x) → flatM f l = flatM g l.
Proof.
  induction l as [|x l IH]; simpl; intros H; [done|].
  rewrite (H x) by left. rewrite IH; [done|]. intros y Hy. apply H. by right.
Qed.
End pure_loops.

(** ** Automation

    [ok_inv] takes a hypothesis [m = Ok v] apart along the binds of [m]. *)
Lemma bind_Ok {A B} (m : result A) (f : A → result B) v :
  rbind m f = Ok v ↔ ∃ a, m = Ok a ∧ f a = Ok v.
Proof. destruct m; simpl; naive_solver. Qed.

Lemma Ok_inj {A} (x y : A) : Ok x = Ok y → x = y.
Proof. congruence. Qed.
Lemma rmap_Ok {A B} (m : result A) (f : A → B) v :
  rmap f m = Ok v ↔ ∃ a, m = Ok a ∧ f a = v.
Proof. destruct m; simpl; naive_solver. Qed.

Ltac ok_inv_step :=
  match goal with
  | H : Ok _ = Ok _ |- _ => injection H as H; subst
  | H : Raise _ = Ok _ |- _ => discriminate H
  | H : Ok _ = Raise _ |- _ => discriminate H
  | H : _ :: _ = [] |- _ => discriminate H
  | H : [] = _ :: _ |- _ => discriminate H
  | H : rbind ?m _ = Ok _ |- _ =>
      let a := fresh "v" in let E := fresh "E" in
      apply bind_Ok in H as (a & E & H); simpl in H
  | H : rmap _ ?m = Ok _ |- _ =>
      let a := fresh "v" in let E := fresh "E" in
      apply rmap_Ok in H as (a & E & H); simpl in H
  end.
Ltac ok_inv := repeat ok_inv_step.

(** Splits every [if] and [match] of the hypotheses that are results. *)
Ltac ok_case :=
  repeat first
    [ ok_inv_step
    | match goal with
      | H : (if ?b then _ else _) = Ok _ |- _ => destruct b eqn:?; simpl in H
      | H : match ?m with _ => _ end = Ok _ |- _ => destruct m eqn:?; simpl in H
      end ].

Create HintDb guards.
Create Rewrite HintDb guards.

(** Booleans *)
(** A loop that ends judged each element. *)
Lemma filterM_total {A} (p : A → result bool) l k x : filterM p l = Ok k → x ∈ l → ∃ b, p x = Ok b.
Proof.
  revert k. induction l as [|y l IH]; cbn [filterM]; intros k H Hx; [by apply elem_of_nil in Hx|].
  apply bind_Ok in H as (b & Hb & H). apply bind_Ok in H as (k' & Hk & _). apply elem_of_cons in Hx as [->|Hx]; [by exists b|by apply (IH k')].
Qed.

Lemma orb_false (a b : bool) : a || b = false ↔ a = false ∧ b = false.
Proof. apply orb_false_iff. Qed.
Lemma andb_true (a b : bool) : a && b = true ↔ a = true ∧ b = true.
Proof. apply andb_true_iff. Qed.

Lemma existsb_elem_of {A} (p : A → bool) (l : list A) :
  existsb p l = true ↔ ∃ x, x ∈ l ∧ p x = true.
Proof.
  rewrite existsb_exists. setoid_rewrite list_elem_of_In. done.
Qed.

Lemma forallb_elem_of {A} (p : A → bool) (l : list A) :
  forallb p l = true ↔ ∀ x, x ∈ l → p x = true.
Proof.
  rewrite forallb_forall. setoid_rewrite list_elem_of_In. done.
Qed.

Lemma elem_of_concat {A} (x : A) (ls : list (list A)) : x ∈ concat ls ↔ ∃ l, l ∈ ls ∧ x ∈ l.
Proof.
  rewrite list_elem_of_In, in_concat. by setoid_rewrite list_elem_of_In.
Qed.

Lemma concat_nil {A} (ls : list (list A)) : concat ls = [] ↔ ∀ l, l ∈ ls → l = [].
Proof.
  induction ls as [|l ls IH]; cbn.
  - split; [|done]. intros _ l Hl. by apply elem_of_nil in Hl.
  - split.
    + intros [-> H]%app_eq_nil k [->|Hk]%elem_of_cons; [done|]. by apply IH.
    + intros H. rewrite (H l) by left. apply IH. intros k Hk. apply H. by right.
Qed.

(** A finding that is reported under a condition *)
Lemma if_cons_nil {A} (b : bool) (x : A) l : (if b then x :: l else []) = [] ↔ b = false.
Proof. by destruct b. Qed.
Lemma if_nil_cons {A} (b : bool) (x : A) l : (if b then [] else x :: l) = [] ↔ b = true.
Proof. by destruct b. Qed.

(** The first components of results that are paired with more. *)
Lemma concat_fst_nil {A B} (ls : list (list A * B)) l b : concat ls.*1 = [] → (l, b) ∈ ls → l = [].
Proof.
  intros H Hin. apply (proj1 (concat_nil _) H). apply list_elem_of_fmap. by exists (l, b).
Qed.

(** A fold keeps an invariant, and only appends when each step appends. *)
Lemma concat_map_nil {A B} (f : A → list B) l x : concat (map f l) = [] → x ∈ l → f x = [].
Proof. intros H Hx. apply (proj1 (concat_nil _) H). by apply list_elem_of_fmap_2. Qed.
Lemma filter_nil_elem {A} (f : A → bool) l x : List.filter f l = [] → x ∈ l → f x = false.
Proof.
  intros H Hx. apply not_true_is_false. intros Hf.
  assert (x ∈ List.filter f l) as Hin by (apply list_elem_of_In, filter_In; split; [by apply list_elem_of_In|done]).
  rewrite H in Hin. by apply elem_of_nil in Hin.
Qed.
Lemma foldl_inv {A B} (P : B → Prop) (f : B → A → B) l s :
  P s → (∀ s x, x ∈ l → P s → P (f s x)) → P (foldl f s l).
Proof.
  revert s. induction l as [|x l IH]; intros s Hs Hf; [done|]. apply IH; [apply Hf; [left|done]|].
  intros s' y Hy. apply Hf. by right.
Qed.
Lemma foldl_prefix {A B} (f : list B → A → list B) l s :
  (∀ s x, s `prefix_of` f s x) → s `prefix_of` foldl f s l.
Proof. intros Hf. apply (foldl_inv (prefix s)); [done|]. intros s' x _ H. by etrans. Qed.

(** ** Deciding a proposition

    [computes m P]: the check [m] returns without an exception, and it
    returns [true] exactly when [P] holds.  The lemmas follow the shape of
    the code, so a proof that a check decides its specification is a walk
    along the check. *)
Definition computes (m : result bool) (P : Prop) : Prop :=
  ∃ b, m = Ok b ∧ (b = true ↔ P).

Section computes.
Implicit Types (P Q : Prop).

Lemma computes_Ok (b : bool) P : (b = true ↔ P) → computes (Ok b) P.
Proof. intros ?. by exists b. Qed.

Lemma computes_iff m P Q : (P ↔ Q) → computes m P → computes m Q.
Proof. intros HPQ (b & -> & Hb). exists b. split; [done|]. by rewrite Hb. Qed.

Lemma computes_true m P : computes m P → m = Ok true ↔ P.
Proof.
  intros (b & -> & Hb). rewrite <- Hb. split; [by intros [= ->]|by intros ->].
Qed.

Lemma computes_not m P : computes m P → computes (b <- m ;; Ok (negb b)) (¬ P).
Proof.
  intros (b & -> & Hb). exists (negb b). split; [done|].
  rewrite <- Hb. destruct b; naive_solver.
Qed.

Lemma computes_not_bind {A} (m : result A) (f : A → result bool) P :
  computes (x <- m ;; f x) P → computes (x <- m ;; b <- f x ;; Ok (negb b)) (¬ P).
Proof. destruct m; cbn; [apply computes_not|]. intros (b & [=] & _). Qed.

Lemma computes_and m n P Q :
  computes m P → (P → computes n Q) →
  computes (b <- m ;; if b : bool then n else Ok false) (P ∧ Q).
Proof.
  intros (b & -> & Hb) Hn. destruct b; cbn.
  - eapply computes_iff; [|apply Hn; by apply Hb]. naive_solver.
  - exists false. naive_solver.
Qed.

Lemma computes_or m n P Q :
  computes m P → (¬ P → computes n Q) →
  computes (b <- m ;; if b : bool then Ok true else n) (P ∨ Q).
Proof.
  intros (b & -> & Hb) Hn. destruct b; cbn.
  - exists true. naive_solver.
  - eapply computes_iff; [|apply Hn; naive_solver]. naive_solver.
Qed.

Lemma computes_unless m n P Q :
  computes m P → (¬ P → computes n Q) →
  computes (b <- m ;; if b : bool then Ok false else n) (¬ P ∧ Q).
Proof.
  intros (b & -> & Hb) Hn. destruct b; cbn.
  - exists false. naive_solver.
  - eapply computes_iff; [|apply Hn; naive_solver]. naive_solver.
Qed.

(** [not any(p(x) for x in l)] and the like *)
Lemma computes_dec m P : computes m P → m = Ok true ∧ P ∨ m = Ok false ∧ ¬ P.
Proof. intros ([] & -> & H); [left|right]; naive_solver. Qed.

(** [if not m: return False] *)
Lemma computes_guard m n P Q :
  computes m P → (P → computes n Q) →
  computes (b <- m ;; if negb b then Ok false else n) (P ∧ Q).
Proof.
  intros (b & -> & Hb) Hn. destruct b; cbn.
  - eapply computes_iff; [|apply Hn; by apply Hb]. naive_solver.
  - exists false. naive_solver.
Qed.

Lemma computes_anyM {A} (p : A → result bool) (P : A → Prop) l :
  (∀ x, x ∈ l → computes (p x) (P x)) → computes (anyM p l) (∃ x, x ∈ l ∧ P x).
Proof.
  induction l as [|x l IH]; intros H.
  - exists false. split; [done|]. split; [done|]. intros (x & Hx & _).
    by apply elem_of_nil in Hx.
  - eapply computes_iff;
      [|apply (computes_or (p x) (anyM p l) (P x));
        [apply H; left|intros _; apply IH; intros; apply H; by right]].
    setoid_rewrite elem_of_cons. naive_solver.
Qed.

Lemma computes_allM {A} (p : A → result bool) (P : A → Prop) l :
  (∀ x, x ∈ l → computes (p x) (P x)) → computes (allM p l) (∀ x, x ∈ l → P x).
Proof.
  induction l as [|x l IH]; intros H.
  - exists true. split; [done|]. split; [|done]. intros _ x Hx.
    by apply elem_of_nil in Hx.
  - eapply computes_iff;
      [|apply (computes_and (p x) (allM p l) (P x));
        [apply H; left|intros _; apply IH; intros; apply H; by right]].
    setoid_rewrite elem_of_cons. naive_solver.
Qed.
End computes.

(** [yields m P]: the loop [m] returns without an exception, and it returns
    exactly the elements that have [P]. *)
Definition yields {A} (m : result (list A)) (P : A → Prop) : Prop :=
  ∃ l, m = Ok l ∧ ∀ x, x ∈ l ↔ P x.

Lemma yields_flatM {A B} (f : A → result (list B)) (P : A → B → Prop) l :
  (∀ x, x ∈ l → yields (f x) (P x)) → yields (flatM f l) (λ y, ∃ x, x ∈ l ∧ P x y).
Proof.
  induction l as [|x l IH]; intros Hf.
  - exists []. split; [done|]. set_solver.
  - destruct IH as (k & Hk & Hin); [intros; apply Hf; by right|].
    destruct (Hf x) as (r & Hr & Hrin); [left|]. exists (r ++ k). cbn. rewrite Hr, Hk.
    split; [done|]. intros y. rewrite elem_of_app, Hin, Hrin. setoid_rewrite elem_of_cons. naive_solver.
Qed.

Lemma yields_iff {A} (m : result (list A)) (P Q : A → Prop) :
  (∀ x, P x ↔ Q x) → yields m P → yields m Q.
Proof. intros H (l & -> & Hl). exists l. split; [done|]. intros x. by rewrite Hl. Qed.

(** [[x] if m else []], and [[x]] before a loop that runs only otherwise *)
Lemma yields_when {A} (m : result bool) (P : Prop) (x : A) :
  computes m P → yields (b <- m ;; Ok (if (b : bool) then [x] else [])) (λ y, P ∧ y = x).
Proof.
  intros (b & -> & Hb). cbn. eexists. split; [done|]. intros y.
  destruct b; [rewrite list_elem_of_singleton|]; [naive_solver|set_solver].
Qed.

Lemma yields_else {A} (m : result bool) (P : Prop) (x : A) n (Q : A → Prop) :
  computes m P → (¬ P → yields n Q) →
  yields (b <- m ;; if (b : bool) then Ok [x] else n) (λ y, P ∧ y = x ∨ ¬ P ∧ Q y).
Proof.
  intros (b & -> & Hb) Hn. cbn. destruct b.
  - eexists. split; [done|]. intros y. rewrite list_elem_of_singleton. naive_solver.
  - eapply yields_iff; [|apply Hn; naive_solver]. naive_solver.
Qed.
