(* ===== verification/PyStr.v ===== *)
(** * Python's [str] methods

    Strings are Rocq strings of bytes (UTF-8); on the text of the repository
    every method used here treats a string byte by byte, and Python's order of
    code points is the byte order of UTF-8.  Each method is a structural
    function with its specification. *)
From S2P Require Import Prelude.
From stdpp Require Import sorting.
From Stdlib Require Import Ascii.

Implicit Types (s t p : string).
#[local] Arguments String.append !_ _ /.

Definition str_eqb s t : bool := String.eqb s t.
#[global] Arguments str_eqb !s !t /.

Lemma str_eqb_eq s t : str_eqb s t = true ↔ s = t.
Proof. apply String.eqb_eq. Qed.

Lemma str_eqb_refl s : str_eqb s s = true.
Proof. by apply str_eqb_eq. Qed.

(** Membership in a list of strings, as a boolean. *)
Definition str_mem s (l : list string) : bool := existsb (str_eqb s) l.

Lemma str_mem_elem s (l : list string) : str_mem s l = true ↔ s ∈ l.
Proof.
  unfold str_mem. rewrite existsb_elem_of. split.
  - by intros (x & ? & ->%str_eqb_eq).
  - intros. exists s. by rewrite str_eqb_refl.
Qed.

Lemma str_mem_false s (l : list string) : str_mem s l = false ↔ s ∉ l.
Proof. rewrite <- not_true_iff_false, str_mem_elem. done. Qed.

(** Concatenation of the pieces of an f-string. *)
Definition cat (l : list string) : string := String.concat "" l.

(** ** Prefix, suffix, substring *)

(** [s.startswith(p)]; [drop_prefix] also gives the rest of [s]. *)
Fixpoint drop_prefix p s : option string :=
  match p, s with
  | "", _ => Some s
  | String a p, String b s => if Ascii.eqb a b then drop_prefix p s else None
  | _, "" => None
  end.

Definition startswith s p : bool :=
  match drop_prefix p s with Some _ => true | None => false end.

Lemma drop_prefix_Some p s t : drop_prefix p s = Some t ↔ s = p +:+ t.
Proof.
  revert s. induction p as [|a p IH]; intros s.
  - change ("" +:+ t) with t. cbn. destruct s; naive_solver.
  - change (String a p +:+ t) with (String a (p +:+ t)).
    destruct s as [|b s]; cbn; [naive_solver|].
    destruct (Ascii.eqb_spec a b) as [->|Hne]; [|naive_solver].
    rewrite IH. naive_solver.
Qed.

Lemma startswith_true s p : startswith s p = true ↔ ∃ t, s = p +:+ t.
Proof.
  unfold startswith. destruct (drop_prefix p s) as [t|] eqn:E.
  - apply drop_prefix_Some in E. naive_solver.
  - split; [done|]. intros [t Ht]. apply drop_prefix_Some in Ht. congruence.
Qed.

(** [p in s] *)
Fixpoint contains p s : bool :=
  startswith s p || match s with "" => false | String _ s => contains p s end.

Lemma contains_true p s : contains p s = true ↔ ∃ a b, s = a +:+ p +:+ b.
Proof.
  induction s as [|c s IH]; cbn [contains]; rewrite orb_true_iff, startswith_true.
  - split.
    + intros [[t Ht]|[=]]. by exists "", t.
    + intros (a & b & Hab). left. destruct a; [by exists b|discriminate].
  - rewrite IH. split.
    + intros [[t Ht]|(a & b & ->)]; [by exists "", t|by exists (String c a), b].
    + intros ([|c' a] & b & Hab); [left; by exists b|right].
      injection Hab as -> ->. by exists a, b.
Qed.

(** [s.endswith(p)] *)
Fixpoint endswith s p : bool :=
  str_eqb s p || match s with "" => false | String _ s => endswith s p end.

Lemma endswith_true s p : endswith s p = true ↔ ∃ t, s = t +:+ p.
Proof.
  induction s as [|c s IH]; cbn [endswith]; rewrite orb_true_iff, str_eqb_eq.
  - split; [intros [<-|[=]]; by exists ""|].
    intros ([|] & Ht); [by left|discriminate].
  - rewrite IH. split.
    + intros [->|[t ->]]; [by exists ""|by exists (String c t)].
    + intros ([|c' t] & Ht); [by left|right]. injection Ht as -> ->. by exists t.
Qed.

(** ** Splitting *)

(** [s.partition(sep)] when [sep] occurs: the text before and after its first
    occurrence. *)
Fixpoint split1 (sep s : string) : option (string * string) :=
  match drop_prefix sep s with
  | Some t => Some ("", t)
  | None =>
      match s with
      | "" => None
      | String c s => '(a, b) ← split1 sep s; Some (String c a, b)
      end
  end.

(** [s.partition(sep)] *)
Definition str_partition (s sep : string) : string * string * string :=
  match split1 sep s with
  | Some (a, b) => (a, sep, b)
  | None => (s, "", "")
  end.

(** [s.split(sep, n)] *)
Fixpoint str_splitn (n : nat) (sep s : string) : list string :=
  match n with
  | O => [s]
  | S n =>
      match split1 sep s with
      | None => [s]
      | Some (a, b) => a :: str_splitn n sep b
      end
  end.

(** [s.split(sep)]: each split shortens the string, so its length bounds the
    number of splits ([str_split_no_more]). *)
Definition str_split (s sep : string) : list string := str_splitn (String.length s) sep s.

(** [s.rsplit(sep, 1)] *)
Fixpoint rsplit1 (sep s : string) : option (string * string) :=
  match s with
  | "" => t ← drop_prefix sep ""; Some ("", t)
  | String c s' =>
      match rsplit1 sep s' with
      | Some (a, b) => Some (String c a, b)
      | None => t ← drop_prefix sep s; Some ("", t)
      end
  end.

(** [sep.join(l)] *)
Definition str_join (sep : string) (l : list string) : string := String.concat sep l.

Lemma append_nil_r s : s +:+ "" = s.
Proof. induction s as [|c s IH]; [done|]. cbn. by f_equal. Qed.

Lemma append_assoc s t p : (s +:+ t) +:+ p = s +:+ t +:+ p.
Proof. induction s as [|c s IH]; [done|]. cbn. by f_equal. Qed.

Lemma append_length s t : String.length (s +:+ t) = (String.length s + String.length t)%nat.
Proof. induction s as [|c s IH]; [done|]. cbn. by f_equal. Qed.

(** The first occurrence: the parts rebuild the string, and no occurrence of
    the separator starts inside the first part. *)
Lemma split1_Some sep s a b :
  split1 sep s = Some (a, b) → s = a +:+ sep +:+ b.
Proof.
  revert a b. induction s as [|c s IH]; cbn [split1]; intros a b H.
  - destruct (drop_prefix sep "") eqn:E; [|done]. injection H as <- <-.
    by apply drop_prefix_Some in E.
  - destruct (drop_prefix sep (String c s)) eqn:E.
    + injection H as <- <-. by apply drop_prefix_Some in E.
    + destruct (split1 sep s) as [[a' b']|]; [|done]. injection H as <- <-.
      cbn. f_equal. by apply IH.
Qed.

Lemma split1_None sep s : split1 sep s = None ↔ contains sep s = false.
Proof.
  induction s as [|c s IH]; cbn [split1 contains]; unfold startswith.
  - by destruct (drop_prefix sep "").
  - destruct (drop_prefix sep (String c s)); [done|]. cbn. rewrite <- IH.
    by destruct (split1 sep s) as [[]|].
Qed.

(** The text before the separator holds no separator, when the separator is
    one character. *)
Lemma split1_before (c : ascii) s a b :
  split1 (String c "") s = Some (a, b) → contains (String c "") a = false.
Proof.
  revert a b. induction s as [|d s IH]; intros a b; cbn [split1 drop_prefix]; [done|].
  destruct (Ascii.eqb_spec c d) as [->|Hne]; [by intros [= <- <-]|].
  destruct (split1 (String c "") s) as [[a' b']|] eqn:E; cbn; [|done].
  intros [= <- <-]. cbn [contains]. unfold startswith; cbn [drop_prefix].
  destruct (Ascii.eqb_spec c d); [done|]. cbn. by eapply IH.
Qed.

Lemma splitn_length_pos n sep s : str_splitn n sep s ≠ [].
Proof. destruct n; cbn; [done|]. by destruct (split1 sep s) as [[]|]. Qed.

(** [sep.join(s.split(sep, n)) == s] *)
Lemma str_join_splitn n sep s : str_join sep (str_splitn n sep s) = s.
Proof.
  revert s. induction n as [|n IH]; intros s; [done|]. cbn [str_splitn].
  destruct (split1 sep s) as [[a b]|] eqn:E; [|done].
  apply split1_Some in E as ->.
  specialize (IH b). pose proof (splitn_length_pos n sep b) as Hne.
  destruct (str_splitn n sep b) as [|x l]; [done|].
  unfold str_join in *. cbn. by rewrite <- IH.
Qed.

Lemma str_join_split s sep : str_join sep (str_split s sep) = s.
Proof. apply str_join_splitn. Qed.

(** The pieces of a split on one character hold no separator: [split] ran to
    the end. *)
Lemma str_split_no_more (c : ascii) s :
  ∀ x, x ∈ str_split s (String c "") → contains (String c "") x = false.
Proof.
  unfold str_split. assert (∀ n, String.length s ≤ n →
    ∀ x, x ∈ str_splitn n (String c "") s → contains (String c "") x = false) as H; [|by apply H].
  intros n. revert s. induction n as [|n IH]; intros s Hn x; cbn [str_splitn].
  - intros ->%list_elem_of_singleton. destruct s; [done|]. cbn in Hn; lia.
  - destruct (split1 (String c "") s) as [[a b]|] eqn:E.
    + intros [->|Hx]%elem_of_cons; [by eapply split1_before|].
      eapply IH; [|done]. apply split1_Some in E as ->.
      rewrite !append_length in Hn. cbn in Hn. lia.
    + intros ->%list_elem_of_singleton. by apply split1_None.
Qed.

(** ** Splitting on one character

    [split] and [join] are inverse to each other on pieces that do not hold
    the separator. *)
Section split_char.
Context (c : ascii).
Let sep : string := String c "".

Lemma split1_app a b : contains sep a = false → split1 sep (a +:+ sep +:+ b) = Some (a, b).
Proof.
  induction a as [|d a IH]; cbn [contains]; intros H.
  - unfold sep. cbn. by rewrite Ascii.eqb_refl.
  - apply orb_false_iff in H as [Hd Ha]. unfold startswith, sep in Hd. cbn in Hd.
    cbn. destruct (Ascii.eqb c d); [done|]. cbn in IH. by rewrite IH.
Qed.

(** The bound on the number of splits is enough. *)
Lemma splitn_enough n m s :
  (String.length s ≤ n)%nat → (String.length s ≤ m)%nat → str_splitn n sep s = str_splitn m sep s.
Proof.
  revert m s. induction n as [|n IH]; intros m s Hn Hm.
  - assert (s = "") as -> by (destruct s; cbn in *; [done|lia]). by destruct m.
  - destruct m as [|m]; [assert (s = "") as -> by (destruct s; cbn in *; [done|lia]); done|].
    cbn [str_splitn]. destruct (split1 sep s) as [[a b]|] eqn:E; [|done]. f_equal.
    apply split1_Some in E as ->. rewrite !append_length in Hn, Hm. cbn in Hn, Hm.
    apply IH; lia.
Qed.

Lemma str_split_cons a b :
  contains sep a = false → str_split (a +:+ sep +:+ b) sep = a :: str_split b sep.
Proof.
  intros Ha. unfold str_split at 1. pose proof (split1_app a b Ha) as H.
  assert (String.length (a +:+ sep +:+ b) = S (String.length a + String.length b)) as ->
    by (rewrite !append_length; cbn; lia).
  cbn [str_splitn]. rewrite H. f_equal. apply splitn_enough; lia.
Qed.

Lemma str_split_none a : contains sep a = false → str_split a sep = [a].
Proof.
  intros Ha%split1_None. unfold str_split. destruct (String.length a); cbn; [done|]. by rewrite Ha.
Qed.

Lemma str_join_cons a l : l ≠ [] → str_join sep (a :: l) = a +:+ sep +:+ str_join sep l.
Proof. by destruct l. Qed.

Lemma str_split_join l :
  l ≠ [] → (∀ x, x ∈ l → contains sep x = false) → str_split (str_join sep l) sep = l.
Proof.
  induction l as [|a l IH]; [done|]. intros _ Hl.
  destruct l as [|b l]; [apply str_split_none, Hl; left|].
  rewrite str_join_cons by done. rewrite str_split_cons by (apply Hl; left).
  rewrite IH; [done|done|]. intros x Hx. apply Hl. by right.
Qed.

Lemma str_split_pos s : str_split s sep ≠ [].
Proof. apply splitn_length_pos. Qed.

Lemma str_join_app l k : l ≠ [] → k ≠ [] →
  str_join sep (l ++ k) = str_join sep l +:+ sep +:+ str_join sep k.
Proof.
  intros Hl Hk. induction l as [|a l IH]; [done|]. destruct l as [|b l].
  - cbn [app]. by rewrite str_join_cons.
  - change ((a :: b :: l) ++ k) with (a :: (b :: l) ++ k).
    rewrite (str_join_cons a ((b :: l) ++ k)), (str_join_cons a (b :: l)), IH by done.
    by rewrite !append_assoc.
Qed.

Lemma str_split_app s t : str_split (s +:+ sep +:+ t) sep = str_split s sep ++ str_split t sep.
Proof.
  rewrite <- (str_join_split s sep) at 1. rewrite <- (str_join_split t sep) at 1.
  rewrite <- str_join_app by apply str_split_pos.
  apply str_split_join.
  - intros [H _]%app_eq_nil. by eapply str_split_pos.
  - intros x [H|H]%elem_of_app; by eapply str_split_no_more.
Qed.
End split_char.

(** ** White space *)

Definition is_space (c : ascii) : bool :=
  let n := nat_of_ascii c in
  ((9 <=? n) && (n <=? 13)) || ((28 <=? n) && (n <=? 32)).

(** [s.lstrip()], [s.rstrip()], [s.strip()], for a class of characters. *)
Fixpoint lstrip_of (f : ascii → bool) s : string :=
  match s with
  | "" => ""
  | String c s' => if f c then lstrip_of f s' else s
  end.
Fixpoint rstrip_of (f : ascii → bool) s : string :=
  match s with
  | "" => ""
  | String c s' =>
      match rstrip_of f s' with
      | "" => if f c then "" else String c ""
      | t => String c t
      end
  end.
Definition strip s : string := lstrip_of is_space (rstrip_of is_space s).
(** [s.rstrip(c)], [s.strip(c)] *)
Definition rstrip_char (c : ascii) s : string := rstrip_of (Ascii.eqb c) s.
Definition strip_char (c : ascii) s : string :=
  lstrip_of (Ascii.eqb c) (rstrip_of (Ascii.eqb c) s).

(** [s.splitlines()] on text whose line end is a newline. *)
Definition newline : string := String "010" "".
Definition splitlines s : list string :=
  match s with
  | "" => []
  | _ => let l := str_split s newline in
         if endswith s newline then removelast l else l
  end.

(** [s.replace(old, new)], for [old] that is not empty *)
Definition str_replace s (old new : string) : string := str_join new (str_split s old).
(** [s.count(c)] of a character *)
Fixpoint str_count (c : ascii) s : nat :=
  match s with "" => 0 | String d s => (if Ascii.eqb c d then 1 else 0) + str_count c s end.

(** [s.split()]: the words between white space. *)
Fixpoint split_ws s : list string :=
  match s with
  | "" => []
  | String c s' =>
      if is_space c then split_ws s' else
      match s' with
      | "" => [String c ""]
      | String d _ =>
          if is_space d then String c "" :: split_ws s' else
          match split_ws s' with w :: l => String c w :: l | [] => [String c ""] end
      end
  end.

(** [s[i:j]] at indices that are not negative *)
Definition str_slice (i j : nat) s : string := String.substring i (j - i) s.

(** The part of a path after its last slash, [os.path.basename(s)] *)
Definition basename s : string :=
  match rsplit1 "/" s with Some (_, b) => b | None => s end.

(** [s.lower()] on ASCII letters *)
Definition lower_char (c : ascii) : ascii :=
  let n := nat_of_ascii c in
  if (65 <=? n) && (n <=? 90) then ascii_of_nat (n + 32) else c.
Fixpoint lower s : string :=
  match s with "" => "" | String c s => String (lower_char c) (lower s) end.

Fixpoint str_forallb (f : ascii → bool) s : bool :=
  match s with "" => true | String c s => f c && str_forallb f s end.
Definition is_digit (c : ascii) : bool :=
  let n := nat_of_ascii c in (48 <=? n) && (n <=? 57).

(** ** [int(s)]: optional white space and sign, then decimal digits, with single
    underscores between them. *)
Fixpoint digits_value (acc : Z) s : option Z :=
  match s with
  | "" => Some acc
  | String c s =>
      if is_digit c then digits_value (acc * 10 + Z.of_nat (nat_of_ascii c - 48)) s
      else match s with
           | String d _ => if Ascii.eqb c "_" && is_digit d then digits_value acc s else None
           | "" => None
           end
  end.
Definition int_of_digits s : option Z :=
  match s with
  | String c _ => if is_digit c then digits_value 0 s else None
  | "" => None
  end.
Definition int_of_str s : option Z :=
  match strip s with
  | String "-" s' => Z.opp <$> int_of_digits s'
  | String "+" s' => int_of_digits s'
  | s' => int_of_digits s'
  end.

(** [str(z)] *)
Definition str_of_int (z : Z) : string := pretty z.

Lemma str_forallb_app (f : ascii → bool) s t :
  str_forallb f (s +:+ t) = str_forallb f s && str_forallb f t.
Proof. induction s as [|c s IH]; [done|]. cbn. by rewrite IH, andb_assoc. Qed.
Lemma str_forallb_impl (f g : ascii → bool) s :
  (∀ c, f c = true → g c = true) → str_forallb f s = true → str_forallb g s = true.
Proof.
  intros Hfg. induction s as [|c s IH]; [done|]. cbn. intros [Hc Hs]%andb_true_iff. by rewrite Hfg, IH.
Qed.

Lemma forallb_weaken (f g : ascii → bool) s :
  (∀ c, f c = true → g c = true) → str_forallb f s = true → str_forallb g s = true.
Proof. intros Hfg. induction s as [|c s IH]; [done|]. cbn. intros [Hc Hs]%andb_true_iff. by rewrite Hfg, IH. Qed.

(** ** Texts that are cut at a class of characters *)

Definition head_char (s : string) : option ascii :=
  match s with "" => None | String c _ => Some c end.
Definition is_none_or (f : ascii → bool) (o : option ascii) : bool :=
  match o with None => true | Some c => f c end.
Definition is_some_and (f : ascii → bool) (o : option ascii) : bool :=
  match o with None => false | Some c => f c end.

Lemma span_ex (f : ascii → bool) s : ∃ t r, s = t +:+ r ∧ str_forallb f t = true ∧ is_some_and f (head_char r) = false.
Proof.
  induction s as [|c s (t & r & -> & Ht & Hr)]; [by exists "", ""|]. destruct (f c) eqn:E.
  - exists (String c t), r. cbn. by rewrite E.
  - exists "", (String c (t +:+ r)). by cbn.
Qed.
Lemma span_unique (f : ascii → bool) t t' r r' :
  str_forallb f t = true → str_forallb f t' = true → is_some_and f (head_char r) = false → is_some_and f (head_char r') = false →
  t +:+ r = t' +:+ r' → t = t' ∧ r = r'.
Proof.
  revert t'. induction t as [|c t IH]; intros [|c' t'] Ht Ht' Hr Hr' E; simpl in *.
  - done.
  - change ("" +:+ r) with r in E. rewrite E in Hr. apply andb_true_iff in Ht' as [Hc _]. simpl in Hr. congruence.
  - change ("" +:+ r') with r' in E. rewrite <- E in Hr'. apply andb_true_iff in Ht as [Hc _]. simpl in Hr'. congruence.
  - injection E as -> E. apply andb_true_iff in Ht as [_ Ht], Ht' as [_ Ht']. by destruct (IH t' Ht Ht' Hr Hr' E) as [-> ->].
Qed.
Lemma class_within (f : ascii → bool) x b y c t :
  str_forallb f x = true → f c = false → x +:+ b = y +:+ String c t → ∃ b', y = x +:+ b' ∧ b = b' +:+ String c t.
Proof.
  intros Hx Hc. revert y. induction x as [|d x IH]; intros y E; simpl in *; [by exists y|].
  apply andb_true_iff in Hx as [Hd Hx]. destruct y as [|e y]; simpl in E; injection E as -> E; [congruence|].
  destruct (IH Hx y E) as (b' & -> & ->). by exists b'.
Qed.
Lemma cut_within (g r b w : string) c :
  g +:+ r = b +:+ String c w → (String.length r < String.length (String c w))%nat → ∃ g', g = b +:+ String c g' ∧ w = g' +:+ r.
Proof.
  revert g. induction b as [|d b IH]; intros g E Hl; destruct g as [|e g]; simpl in *.
  - change ("" +:+ r) with r in E. rewrite E in Hl. simpl in Hl. lia.
  - injection E as -> E. by exists g.
  - change ("" +:+ r) with r in E. rewrite E in Hl. simpl in Hl. rewrite append_length in Hl. simpl in Hl. lia.
  - injection E as -> E. destruct (IH g E Hl) as (g' & -> & ->). by exists g'.
Qed.

(** Text with no character of the class at its ends is not stripped. *)
Lemma rstrip_none f s : str_forallb (λ c, negb (f c)) s = true → rstrip_of f s = s.
Proof.
  induction s as [|c s IH]; [done|]. cbn. intros [Hc Hs]%andb_true_iff. rewrite (IH Hs).
  destruct s; [|done]. by destruct (f c).
Qed.
Lemma lstrip_none f s : str_forallb (λ c, negb (f c)) s = true → lstrip_of f s = s.
Proof. destruct s as [|c s]; [done|]. cbn. intros [Hc _]%andb_true_iff. by destruct (f c). Qed.

(** A word of [s.split()] holds no white space. *)
Lemma split_ws_no_space s w : w ∈ split_ws s → str_forallb (λ c, negb (is_space c)) w = true.
Proof.
  revert w. induction s as [|c s IH]; intros w; cbn [split_ws]; [by intros ?%elem_of_nil|].
  destruct (is_space c) eqn:Ec; [apply IH|].
  assert (str_forallb (λ c, negb (is_space c)) (String c "") = true) as Hc by (cbn; by rewrite Ec).
  destruct s as [|d s]; [by intros ->%list_elem_of_singleton|].
  destruct (is_space d); [intros [->|Hw]%elem_of_cons; [done|by apply IH]|].
  destruct (split_ws (String d s)) as [|v l]; [by intros ->%list_elem_of_singleton|].
  intros [->|Hw]%elem_of_cons; [|apply IH; by right].
  cbn. rewrite Ec. apply (IH v). left.
Qed.

(** ** [sorted(set(l))] *)
Definition sorted_set (l : list string) : list string :=
  merge_sort String.le (remove_dups l).

(** [sorted(l)] *)
Definition sorted_strs (l : list string) : list string := merge_sort String.le l.

Lemma sorted_set_elem (l : list string) x : x ∈ sorted_set l ↔ x ∈ l.
Proof.
  unfold sorted_set. rewrite merge_sort_Permutation.
  apply elem_of_remove_dups.
Qed.

Lemma sorted_set_NoDup (l : list string) : NoDup (sorted_set l).
Proof. unfold sorted_set. rewrite merge_sort_Permutation. apply NoDup_remove_dups. Qed.

Lemma sorted_set_sorted (l : list string) : StronglySorted String.le (sorted_set l).
Proof. apply (StronglySorted_merge_sort _). Qed.

(** The result depends only on the set of elements: [sorted(set(l))] hides
    the order and the repetitions of [l]. *)
Lemma sorted_set_ext (l k : list string) :
  (∀ x, x ∈ l ↔ x ∈ k) → sorted_set l = sorted_set k.
Proof.
  intros H. apply (StronglySorted_unique String.le);
    [apply sorted_set_sorted..|].
  apply NoDup_Permutation; [apply sorted_set_NoDup..|].
  intros x. by rewrite !sorted_set_elem.
Qed.

Lemma sorted_set_nil (l : list string) : sorted_set l = [] ↔ l = [].
Proof.
  split; [|by intros ->]. intros H. destruct l as [|x l]; [done|].
  assert (x ∈ sorted_set (x :: l)) as Hx by (apply sorted_set_elem; left).
  rewrite H in Hx. by apply elem_of_nil in Hx.
Qed.

(** The last element of a sorted list is a greatest one. *)
Lemma sorted_last {A} (R : A → A → Prop) (l : list A) x y :
  StronglySorted R l → last l = Some x → y ∈ l → y = x ∨ R y x.
Proof.
  intros Hs (k & ->)%last_Some [Hy| ->%list_elem_of_singleton]%elem_of_app; [right|by left].
  eapply StronglySorted_app_1_elem_of; [done|done|set_solver].
Qed.

Lemma sorted_strs_elem (l : list string) x : x ∈ sorted_strs l ↔ x ∈ l.
Proof. unfold sorted_strs. by rewrite merge_sort_Permutation. Qed.

Lemma sorted_strs_sorted (l : list string) : StronglySorted String.le (sorted_strs l).
Proof. apply (StronglySorted_merge_sort _). Qed.

(** [sorted(set(l))] on pairs of strings *)
Definition pair_le (a b : string * string) : Prop :=
  if str_eqb a.1 b.1 then String.le a.2 b.2 else String.le a.1 b.1.
#[global] Instance pair_le_dec : RelDecision pair_le.
Proof. intros a b. unfold pair_le. destruct (str_eqb a.1 b.1); apply _. Defined.
Definition sorted_pairs (l : list (string * string)) : list (string * string) :=
  merge_sort pair_le (remove_dups l).

Lemma sorted_pairs_elem (l : list (string * string)) x : x ∈ sorted_pairs l ↔ x ∈ l.
Proof. unfold sorted_pairs. rewrite merge_sort_Permutation. apply elem_of_remove_dups. Qed.

Example split_ws_ex : split_ws "  2024-01-01 12  a/b.gz " = ["2024-01-01"; "12"; "a/b.gz"].
Proof. reflexivity. Qed.
Example basename_ex : basename "base/wals/0001.gz" = "0001.gz".
Proof. reflexivity. Qed.
Example split_ex : str_split "a.b..c" "." = ["a"; "b"; ""; "c"].
Proof. reflexivity. Qed.
Example splitn_ex : str_splitn 2 " " "policy label a reason" = ["policy"; "label"; "a reason"].
Proof. reflexivity. Qed.
Example strip_ex : strip "  a b " = "a b".
Proof. reflexivity. Qed.
Example rsplit_ex : rsplit1 ":" "a:b:80" = Some ("a:b", "80").
Proof. reflexivity. Qed.
Example int_underscore_ex :
  map int_of_str ["1_000"; "_1"; "1__0"; "1_"; ""] = [Some 1000%Z; None; None; None; None].
Proof. reflexivity. Qed.
Example int_ex : int_of_str " -20" = Some (-20)%Z.
Proof. reflexivity. Qed.
Example sorted_ex : sorted_set ["b"; "a"; "b"] = ["a"; "b"].
Proof. vm_compute. reflexivity. Qed.

(** [s[-n:]] *)
Definition last_chars (n : nat) (s : string) : string := str_slice (String.length s - n) (String.length s) s.
