(* ===== verification/PyVal.v ===== *)
(** * Python values

    The documents of a render are what [yaml.safe_load_all] returns: nested
    dicts, lists, strings, integers, booleans and [None].  [val] is that data,
    and the functions below are the Python operations the guards apply to it,
    with the exception Python raises on a value of another type.

    A dict is the list of its items in insertion order; its keys are strings,
    as in every Kubernetes object, and distinct ([wf_val]).  A render holds no
    float and no timestamp that a guard reads, so [val] has none. *)
From stdpp Require Import sorting.
From S2P Require Import Prelude PyStr.
From Stdlib Require Import Ascii.

Inductive val : Type :=
  | VNone
  | VBool (b : bool)
  | VInt (z : Z)
  | VStr (s : string)
  | VList (l : list val)
  | VDict (d : list (string * val)).

Implicit Types (v w : val) (k : string) (d : list (string * val)).

#[global] Instance val_inhabited : Inhabited val := populate VNone.

(** Induction with the hypothesis at each element of a list or dict. *)
Section val_ind.
Variable P : val → Prop.
Hypothesis Hnone : P VNone.
Hypothesis Hbool : ∀ b, P (VBool b).
Hypothesis Hint : ∀ z, P (VInt z).
Hypothesis Hstr : ∀ s, P (VStr s).
Hypothesis Hlist : ∀ l, Forall P l → P (VList l).
Hypothesis Hdict : ∀ d, Forall (λ kv, P kv.2) d → P (VDict d).

Fixpoint val_nested_ind (v : val) : P v :=
  match v with
  | VNone => Hnone
  | VBool b => Hbool b
  | VInt z => Hint z
  | VStr s => Hstr s
  | VList l =>
      Hlist l ((fix go l : Forall P l :=
        match l with
        | [] => Forall_nil_2 _
        | x :: l => Forall_cons_2 _ _ _ (val_nested_ind x) (go l)
        end) l)
  | VDict d =>
      Hdict d ((fix go d : Forall (λ kv, P kv.2) d :=
        match d with
        | [] => Forall_nil_2 _
        | kv :: d => Forall_cons_2 _ _ _ (val_nested_ind kv.2) (go d)
        end) d)
  end.
End val_ind.

(** ** Association lists *)
Fixpoint alist_get {A} k (d : list (string * A)) : option A :=
  match d with
  | [] => None
  | (k', x) :: d => if str_eqb k k' then Some x else alist_get k d
  end.

(** [d[k] = x]: a new key goes to the end, an old key keeps its place. *)
Fixpoint alist_set {A} k (x : A) (d : list (string * A)) : list (string * A) :=
  match d with
  | [] => [(k, x)]
  | (k', y) :: d => if str_eqb k k' then (k', x) :: d else (k', y) :: alist_set k x d
  end.

(** [d.pop(k)] *)
Fixpoint alist_del {A} k (d : list (string * A)) : list (string * A) :=
  match d with
  | [] => []
  | (k', y) :: d => if str_eqb k k' then d else (k', y) :: alist_del k d
  end.

Lemma alist_elem {A} k (d : list (string * A)) x : alist_get k d = Some x → (k, x) ∈ d.
Proof.
  induction d as [|[k' y] d IH]; cbn; [done|].
  destruct (str_eqb k k') eqn:E.
  - apply str_eqb_eq in E as ->. intros [= ->]. left.
  - right. by apply IH.
Qed.

Lemma alist_None {A} k (d : list (string * A)) : alist_get k d = None ↔ k ∉ d.*1.
Proof.
  induction d as [|[k' y] d IH]; cbn; [set_solver|].
  destruct (str_eqb k k') eqn:E.
  - apply str_eqb_eq in E as ->. set_solver.
  - assert (k ≠ k') by (intros ->; by rewrite str_eqb_refl in E). set_solver.
Qed.

Lemma alist_NoDup {A} k (d : list (string * A)) x :
  NoDup d.*1 → (k, x) ∈ d → alist_get k d = Some x.
Proof.
  induction d as [|[k' y] d IH]; cbn; intros Hd Hx; [by apply elem_of_nil in Hx|].
  apply NoDup_cons in Hd as [Hk Hd]. apply elem_of_cons in Hx as [[= -> ->]|Hx].
  - by rewrite str_eqb_refl.
  - destruct (str_eqb k k') eqn:E; [|by apply IH].
    apply str_eqb_eq in E as ->. destruct Hk. apply list_elem_of_fmap.
    by exists (k', x).
Qed.

Lemma alist_set_eq {A} k (x : A) (d : list (string * A)) : alist_get k (alist_set k x d) = Some x.
Proof.
  induction d as [|[k' y] d IH]; cbn.
  - by rewrite str_eqb_refl.
  - destruct (str_eqb k k') eqn:E; cbn; rewrite E; done.
Qed.

Lemma alist_set_ne {A} k k' (x : A) (d : list (string * A)) :
  k ≠ k' → alist_get k' (alist_set k x d) = alist_get k' d.
Proof.
  intros Hne. induction d as [|[k'' y] d IH]; cbn.
  - destruct (str_eqb k' k) eqn:E; [|done]. apply str_eqb_eq in E. congruence.
  - destruct (str_eqb k k'') eqn:E; cbn.
    + apply str_eqb_eq in E as ->. destruct (str_eqb k' k'') eqn:E'; [|done].
      apply str_eqb_eq in E'. congruence.
    + by rewrite IH.
Qed.

Lemma alist_set_keys {A} k (x : A) out k' : k' ∈ (alist_set k x out).*1 ↔ k' = k ∨ k' ∈ out.*1.
Proof.
  induction out as [|[k2 y] out IH]; cbn [alist_set]; [set_solver|].
  destruct (str_eqb k k2) eqn:E; [apply str_eqb_eq in E as ->|]; set_solver.
Qed.
Lemma alist_set_elem {A} k (x : A) out k' (z : A) :
  (k', z) ∈ alist_set k x out → (k', z) = (k, x) ∨ (k', z) ∈ out.
Proof.
  induction out as [|[k2 y] out IH]; cbn [alist_set]; [set_solver|].
  destruct (str_eqb k k2) eqn:E; [apply str_eqb_eq in E as ->|]; set_solver.
Qed.
Lemma alist_set_NoDup {A} k (x : A) (out : list (string * A)) : NoDup out.*1 → NoDup (alist_set k x out).*1.
Proof.
  induction out as [|[k' y] out IH]; cbn [alist_set]; [intros _; apply NoDup_singleton|].
  intros [Hn Hd]%NoDup_cons. destruct (str_eqb k k') eqn:E.
  - apply str_eqb_eq in E as ->. by constructor.
  - constructor; [|by apply IH]. change (k' ∉ (alist_set k x out).*1). rewrite alist_set_keys.
    intros [->|]; [by rewrite str_eqb_refl in E|done].
Qed.

(** ** Truth, equality, text *)

(** [bool(v)] *)
Definition truthy v : bool :=
  match v with
  | VNone => false
  | VBool b => b
  | VInt z => negb (z =? 0)%Z
  | VStr s => negb (str_eqb s "")
  | VList l => match l with [] => false | _ => true end
  | VDict d => match d with [] => false | _ => true end
  end.

(** [v or w] *)
Definition por v w : val := if truthy v then v else w.

(** [v == w]: [True == 1], and the order of the items of a dict is free. *)
Fixpoint py_eq (v w : val) {struct v} : bool :=
  match v, w with
  | VNone, VNone => true
  | VBool a, VBool b => Bool.eqb a b
  | VBool a, VInt z => (Z.b2z a =? z)%Z
  | VInt z, VBool b => (z =? Z.b2z b)%Z
  | VInt a, VInt b => (a =? b)%Z
  | VStr a, VStr b => str_eqb a b
  | VList l, VList m =>
      (fix go l m {struct l} : bool :=
        match l, m with
        | [], [] => true
        | x :: l, y :: m => py_eq x y && go l m
        | _, _ => false
        end) l m
  | VDict d, VDict e =>
      (length d =? length e) &&
      (fix go d {struct d} : bool :=
        match d with
        | [] => true
        | (k, x) :: d =>
            match alist_get k e with Some y => py_eq x y | None => false end && go d
        end) d
  | _, _ => false
  end.

Lemma py_eq_str s v : py_eq (VStr s) v = true ↔ v = VStr s.
Proof.
  destruct v; cbn; try naive_solver. rewrite str_eqb_eq. naive_solver.
Qed.
Lemma py_eq_str_r s v : py_eq v (VStr s) = true ↔ v = VStr s.
Proof.
  destruct v; cbn; try naive_solver. rewrite str_eqb_eq. naive_solver.
Qed.
Lemma py_eq_none v : py_eq v VNone = true ↔ v = VNone.
Proof. destruct v; naive_solver. Qed.
Lemma py_eq_str_str s t : py_eq (VStr s) (VStr t) = str_eqb s t.
Proof. done. Qed.

(** [v is True], [v is False], [v is None] *)
Definition is_true v : bool := match v with VBool true => true | _ => false end.
Definition is_false v : bool := match v with VBool false => true | _ => false end.
Definition is_none v : bool := match v with VNone => true | _ => false end.
Definition is_dict v : bool := match v with VDict _ => true | _ => false end.
Definition is_str v : bool := match v with VStr _ => true | _ => false end.
Definition is_list v : bool := match v with VList _ => true | _ => false end.

(** [repr(s)] of a string: single quotes, unless it holds a single quote and
    no double quote. *)
Definition hex_digit (n : nat) : string :=
  if n <? 10 then String (ascii_of_nat (48 + n)) "" else String (ascii_of_nat (87 + n)) "".
Definition repr_char (q c : ascii) : string :=
  let n := nat_of_ascii c in
  if Ascii.eqb c "\" then "\\"
  else if Ascii.eqb c q then String "\" (String q "")
  else if n =? 10 then "\n" else if n =? 13 then "\r" else if n =? 9 then "\t"
  else if (n <? 32) || (n =? 127) then "\x" +:+ hex_digit (n / 16) +:+ hex_digit (n mod 16)
  else String c "".
Fixpoint repr_chars (q : ascii) (s : string) : string :=
  match s with "" => "" | String c s => repr_char q c +:+ repr_chars q s end.
Definition dquote : ascii := "034".
(** Text with each backquote as a double quote and each caret as a newline: the
    fixtures of the self-tests, which hold neither character, are written so. *)
Fixpoint unquoted (s : string) : string :=
  match s with
  | "" => ""
  | String c s =>
      String (if Ascii.eqb c "`" then dquote else if Ascii.eqb c "^" then "010"%char else c) (unquoted s)
  end.
Definition squote : ascii := "039".
Definition repr_str (s : string) : string :=
  let q := if contains (String squote "") s && negb (contains (String dquote "") s)
           then dquote else squote in
  String q (repr_chars q s +:+ String q "").

(** [repr(v)] *)
Fixpoint py_repr (v : val) : string :=
  match v with
  | VNone => "None"
  | VBool true => "True"
  | VBool false => "False"
  | VInt z => str_of_int z
  | VStr s => repr_str s
  | VList l => "[" +:+ str_join ", " (map py_repr l) +:+ "]"
  | VDict d => "{" +:+ str_join ", " (map (λ '(k, x), repr_str k +:+ ": " +:+ py_repr x) d) +:+ "}"
  end.

(** [str(v)], the text of [v] in an f-string *)
Definition py_str v : string := match v with VStr s => s | _ => py_repr v end.

(** The text of a Python list of strings, [str(l)]. *)
Definition str_of_strs (l : list string) : string := py_repr (VList (map VStr l)).

(** ** Access *)

(** [v.get(k)] *)
Definition get v k : result val :=
  match v with
  | VDict d => Ok (default VNone (alist_get k d))
  | _ => Raise AttributeError
  end.

(** [v.get(k, w)] *)
Definition get_default v k w : result val :=
  match v with
  | VDict d => Ok (default w (alist_get k d))
  | _ => Raise AttributeError
  end.

(** [v[k]] *)
Definition item v k : result val :=
  match v with
  | VDict d => match alist_get k d with Some x => Ok x | None => Raise KeyError end
  | _ => Raise TypeError
  end.

(** [v[i]] for a literal index [i >= 0] *)
Definition index v (i : nat) : result val :=
  match v with
  | VList l => match l !! i with Some x => Ok x | None => Raise IndexError end
  | VStr s => match String.get i s with
              | Some c => Ok (VStr (String c ""))
              | None => Raise IndexError end
  | VDict _ => Raise KeyError
  | _ => Raise TypeError
  end.

(** [v.items()] *)
Definition items v : result (list (string * val)) :=
  match v with VDict d => Ok d | _ => Raise AttributeError end.

Fixpoint chars (s : string) : list val :=
  match s with "" => [] | String c s => VStr (String c "") :: chars s end.

(** [py_iter(v)]: the elements of a list, the keys of a dict, the characters of
    a string. *)
Definition py_iter v : result (list val) :=
  match v with
  | VList l => Ok l
  | VDict d => Ok (map (λ '(k, _), VStr k) d)
  | VStr s => Ok (chars s)
  | _ => Raise TypeError
  end.

(** The elements of [v + w], for two lists or two strings, and [v.get(k) or []]
    as an operand of [+]. *)
Definition added v w : result (list val) :=
  match v, w with
  | VList a, VList b => Ok (a ++ b)
  | VStr a, VStr b => py_iter (VStr (a +:+ b))
  | _, _ => Raise TypeError
  end.
Definition or_empty v k : result val := x <- get v k ;; Ok (por x (VList [])).

(** [k in v] for a string [k] *)
Definition str_in k v : result bool :=
  match v with
  | VDict d => Ok (match alist_get k d with Some _ => true | None => false end)
  | VList l => Ok (existsb (py_eq (VStr k)) l)
  | VStr s => Ok (contains k s)
  | _ => Raise TypeError
  end.

(** Only a scalar can be a key of a dict or an element of a set. *)
Definition hashable v : bool := match v with VList _ | VDict _ => false | _ => true end.

(** [v in w] *)
Definition val_in v w : result bool :=
  match w with
  | VDict d =>
      if hashable v
      then Ok (match v with
               | VStr k => match alist_get k d with Some _ => true | None => false end
               | _ => false end)
      else Raise TypeError
  | VList l => Ok (existsb (py_eq v) l)
  | VStr s => match v with VStr k => Ok (contains k s) | _ => Raise TypeError end
  | _ => Raise TypeError
  end.

(** [v.get(k)] for a key that is itself a value of the document *)
Definition get_v (v k : val) : result val :=
  match v with
  | VDict d =>
      if hashable k
      then Ok (match k with VStr s => default VNone (alist_get s d) | _ => VNone end)
      else Raise TypeError
  | _ => Raise AttributeError
  end.

(** [v in ("a", "b")] and [v in {"a", "b"}]: a set hashes [v] first. *)
Definition in_tuple v (l : list string) : bool :=
  match v with VStr s => str_mem s l | _ => false end.
Definition in_set v (l : list string) : result bool :=
  if hashable v then Ok (in_tuple v l) else Raise TypeError.

(** [v.get(k) or {}], [v.get(k) or []]: the guards read every optional field
    this way. *)
Definition get_dict v k : result val := x <- get v k ;; Ok (por x (VDict [])).
Definition get_list v k : result (list val) := x <- get v k ;; py_iter (por x (VList [])).

(** [set(v)]: the elements must be hashable. *)
Definition set_of (l : list val) : result (list val) :=
  if forallb hashable l then Ok l else Raise TypeError.

(** [{"a", "b"} & set(v)] is not empty, for a set of strings. *)
Definition meets (s : list string) (l : list val) : bool :=
  existsb (λ v, match v with VStr x => str_mem x s | _ => false end) l.

(** A method of [str] on a value: [AttributeError] on another type. *)
Definition as_str v : result string :=
  match v with VStr s => Ok s | _ => Raise AttributeError end.

(** [int(v)] *)
Definition py_int v : result Z :=
  match v with
  | VInt z => Ok z
  | VBool b => Ok (Z.b2z b)
  | VStr s => match int_of_str s with Some z => Ok z | None => Raise ValueError end
  | _ => Raise TypeError
  end.

(** [dict(v, k=w)], [{**v, k: w}] *)
Definition dict_with v k w : val :=
  match v with VDict d => VDict (alist_set k w d) | _ => v end.
Definition dict_without v k : val :=
  match v with VDict d => VDict (alist_del k d) | _ => v end.
(** [{**v, **w}] *)
Definition dict_merge v w : result val :=
  match v, w with
  | VDict d, VDict e => Ok (VDict (foldl (λ acc '(k, x), alist_set k x acc) d e))
  | _, _ => Raise TypeError
  end.

(** ** Well-formed values: the keys of each dict are distinct. *)
Fixpoint wf_val (v : val) : Prop :=
  match v with
  | VList l => (fix go l := match l with [] => True | x :: l => wf_val x ∧ go l end) l
  | VDict d =>
      NoDup d.*1 ∧
      (fix go d := match d with [] => True | kv :: d => wf_val kv.2 ∧ go d end) d
  | _ => True
  end.

(** ** Lemmas of the accessors *)

(** The total reading of a field: what [v.get(k)] is on a dict. *)
Definition fld v k : val :=
  match v with VDict d => default VNone (alist_get k d) | _ => VNone end.

Lemma get_Ok v k w : get v k = Ok w → w = fld v k.
Proof. by destruct v; cbn; intros; simplify_eq. Qed.

Lemma item_fld v k w : item v k = Ok w → w = fld v k.
Proof.
  destruct v; cbn; try done. destruct (alist_get k d) eqn:E; [by intros [= ->]|done].
Qed.

Lemma get_dict_fld d k : get (VDict d) k = Ok (fld (VDict d) k).
Proof. done. Qed.

Lemma por_dict_fld v k w : get_dict v k = Ok w → w = por (fld v k) (VDict []).
Proof. unfold get_dict. intros H. ok_inv. by apply get_Ok in E as ->. Qed.

(** The value of [v.get(k) or {}] *)
Definition dict_fld v k : val := por (fld v k) (VDict []).
Lemma get_dict_is v k w : get_dict v k = Ok w → w = dict_fld v k.
Proof. apply por_dict_fld. Qed.

Lemma get_list_is v k l : get_list v k = Ok l → py_iter (por (fld v k) (VList [])) = Ok l.
Proof. unfold get_list. by intros (x & ->%get_Ok & H)%bind_Ok. Qed.
Lemma truthy_por v w : truthy v = true → por v w = v.
Proof. unfold por. by intros ->. Qed.
Lemma falsy_por v w : truthy v = false → por v w = w.
Proof. unfold por. by intros ->. Qed.

Lemma py_iter_list l : py_iter (VList l) = Ok l.
Proof. done. Qed.

Lemma por_list_nil l : por (VList l) (VList []) = VList l.
Proof. by destruct l. Qed.
Lemma por_dict_nil d : por (VDict d) (VDict []) = VDict d.
Proof. by destruct d. Qed.

Lemma iter_por_list l : py_iter (por (VList l) (VList [])) = Ok l.
Proof. by destruct l. Qed.
Lemma iter_por_dict d : py_iter (por (VDict d) (VList [])) = Ok (map (λ '(k, _), VStr k) d).
Proof. by destruct d. Qed.

Lemma por_dict_cons kv d w : por (VDict (kv :: d)) w = VDict (kv :: d).
Proof. done. Qed.
Lemma por_list_cons v l w : por (VList (v :: l)) w = VList (v :: l).
Proof. done. Qed.
Lemma por_none w : por VNone w = w.
Proof. done. Qed.
#[export] Hint Rewrite por_dict_cons por_list_cons por_none por_list_nil por_dict_nil
  iter_por_list iter_por_dict : guards.

Lemma py_eq_refl_str s : py_eq (VStr s) (VStr s) = true.
Proof. by apply py_eq_str. Qed.

Lemma in_tuple_true v (l : list string) : in_tuple v l = true ↔ ∃ s, v = VStr s ∧ s ∈ l.
Proof.
  destruct v; cbn; try naive_solver. rewrite str_mem_elem. naive_solver.
Qed.

Lemma existsb_py_eq_str s (l : list val) : existsb (py_eq (VStr s)) l = true ↔ VStr s ∈ l.
Proof.
  rewrite existsb_elem_of. split.
  - by intros (x & ? & ->%py_eq_str).
  - intros ?. exists (VStr s). by rewrite py_eq_refl_str.
Qed.

Lemma meets_true (s : list string) l : meets s l = true ↔ ∃ x, x ∈ s ∧ VStr x ∈ l.
Proof.
  unfold meets. rewrite existsb_elem_of. split.
  - intros ([] & Hl & Hx); try done. apply str_mem_elem in Hx. eauto.
  - intros (x & Hs & Hl). exists (VStr x). split; [done|]. by apply str_mem_elem.
Qed.

Lemma str_in_dict k d : str_in k (VDict d) = Ok (bool_decide (k ∈ d.*1)).
Proof.
  cbn. destruct (alist_get k d) as [x|] eqn:E.
  - apply alist_elem in E. rewrite bool_decide_eq_true_2; [done|].
    apply list_elem_of_fmap. by exists (k, x).
  - apply alist_None in E. by rewrite bool_decide_eq_false_2.
Qed.

#[global] Arguments por : simpl never.
#[global] Arguments py_eq : simpl never.
#[global] Arguments str_mem : simpl never.
#[global] Arguments meets : simpl never.
#[global] Arguments py_repr : simpl never.
#[global] Arguments py_str : simpl never.

(** Evaluates the accessors on a document of known shape. *)
Ltac py_simpl := repeat (progress (unfold get_list, get_dict; cbn; autorewrite with guards)).

Example repr_ex : py_repr (VDict [("a", VList [VStr "x"; VInt (-2); VNone; VBool true])])
  = "{'a': ['x', -2, None, True]}".
Proof. vm_compute. reflexivity. Qed.
Example py_eq_ex : py_eq (VDict [("a", VInt 1); ("b", VNone)]) (VDict [("b", VNone); ("a", VBool true)]) = true.
Proof. vm_compute. reflexivity. Qed.

(** ** Small helpers of the guards *)

(** [d["metadata"]["name"]] *)
Definition meta_name (d : val) : result val := m <- item d "metadata" ;; item m "name".
Lemma meta_name_fld (v n : val) : meta_name v = Ok n → n = fld (fld v "metadata") "name".
Proof. unfold meta_name. by intros (m & ->%item_fld & ->%item_fld)%bind_Ok. Qed.
(** [(d.get("metadata") or {}).get("namespace") or default] *)
Definition meta_namespace (d : val) (dflt : string) : result val :=
  m <- get_dict d "metadata" ;; n <- get m "namespace" ;; Ok (por n (VStr dflt)).

(** A condition of the source on the truth of a field. *)
Definition get_truthy (v : val) (k : string) : result bool := x <- get v k ;; Ok (truthy x).

Definition nonempty {A} (l : list A) : bool := match l with [] => false | _ => true end.

(** [x or y] and [x and y] on conditions that may raise *)
Definition orR (m n : result bool) : result bool := b <- m ;; if (b : bool) then Ok true else n.
Definition andR (m n : result bool) : result bool := b <- m ;; if (b : bool) then n else Ok false.
Definition notR (m : result bool) : result bool := b <- m ;; Ok (negb b).

Lemma orR_false m n : orR m n = Ok false ↔ m = Ok false ∧ n = Ok false.
Proof. destruct m as [[]|]; cbn; naive_solver. Qed.
Lemma andR_true m n : andR m n = Ok true ↔ m = Ok true ∧ n = Ok true.
Proof. destruct m as [[]|]; cbn; naive_solver. Qed.
Lemma notR_true m : notR m = Ok true ↔ m = Ok false.
Proof. destruct m as [[]|]; cbn; naive_solver. Qed.
Lemma notR_false m : notR m = Ok false ↔ m = Ok true.
Proof. destruct m as [[]|]; cbn; naive_solver. Qed.

(** [sorted(l)] of values from a document: strings among themselves, numbers
    among themselves; Python cannot compare the rest. *)
Definition num_of (v : val) : option Z :=
  match v with VInt z => Some z | VBool b => Some (Z.b2z b) | _ => None end.
Fixpoint insert_num (z : Z) (v : val) (l : list (Z * val)) : list (Z * val) :=
  match l with
  | [] => [(z, v)]
  | (y, w) :: l' => if (y <=? z)%Z then (y, w) :: insert_num z v l' else (z, v) :: l
  end.
Definition sort_nums (l : list val) : list val :=
  map snd (foldl (λ acc v, match num_of v with Some z => insert_num z v acc | None => acc end) [] l).
Definition sort_vals (l : list val) : result (list val) :=
  if forallb is_str l then Ok (map VStr (sorted_strs (map py_str l)))
  else if forallb (λ v, match num_of v with Some _ => true | None => false end) l
  then Ok (sort_nums l)
  else match l with [v] => Ok [v] | _ => Raise TypeError end.

(** The distinct elements of a list, as [set] keeps them. *)
Fixpoint dedup_vals (l : list val) : list val :=
  match l with
  | [] => []
  | v :: l => v :: List.filter (λ w, negb (py_eq v w)) (dedup_vals l)
  end.

Lemma dedup_str x l : VStr x ∈ l → VStr x ∈ dedup_vals l.
Proof.
  induction l as [|v l IH]; cbn; intros H; [by apply elem_of_nil in H|].
  destruct (py_eq v (VStr x)) eqn:E; [apply py_eq_str_r in E as ->; left|].
  apply elem_of_cons in H as [<-|H]; [by rewrite py_eq_refl_str in E|].
  right. apply list_elem_of_In, filter_In. rewrite E, <- list_elem_of_In. auto.
Qed.

Lemma sort_vals_str x (l l' : list val) : sort_vals l = Ok l' → VStr x ∈ l → VStr x ∈ l'.
Proof.
  unfold sort_vals. intros H Hx. destruct (forallb is_str l) eqn:Es.
  - injection H as <-. apply list_elem_of_In, in_map, list_elem_of_In, sorted_strs_elem.
    apply list_elem_of_In. change x with (py_str (VStr x)). by apply in_map, list_elem_of_In.
  - match type of H with (if ?b then _ else _) = _ => destruct b eqn:En end.
    + rewrite forallb_elem_of in En. by specialize (En _ Hx).
    + destruct l as [|v [|]]; try done. by injection H as <-.
Qed.

Lemma set_of_Ok (l l' : list val) : set_of l = Ok l' → l' = l.
Proof. unfold set_of. destruct (forallb hashable l); [by intros [= ->]|done]. Qed.

Lemma is_true_eq v : is_true v = true → v = VBool true.
Proof. by destruct v as [|[]| | | |]. Qed.
Lemma is_false_eq v : is_false v = true → v = VBool false.
Proof. by destruct v as [|[]| | | |]. Qed.

(** A dict of strings to sets of strings, [out.setdefault(k, set()).update(xs)]. *)
Definition add_items (k : string) (xs : list string) (out : list (string * list string))
    : list (string * list string) :=
  match xs with [] => out | _ => alist_set k (default [] (alist_get k out) ++ xs) out end.

(** ** Edits of a document

    The self-tests of the guards copy a fixture and change one place of it. *)
Inductive place := K (k : string) | I (i : nat).

(** [d[p1]...[pn] = f(d[p1]...[pn])]; an absent key reads as [None]. *)
Fixpoint edit (path : list place) (f : val → val) (v : val) : val :=
  match path with
  | [] => f v
  | K k :: path =>
      match v with
      | VDict d => VDict (alist_set k (edit path f (default VNone (alist_get k d))) d)
      | _ => v
      end
  | I i :: path => match v with VList l => VList (alter (edit path f) i l) | _ => v end
  end.
Definition put (path : list place) (x : val) : val → val := edit path (λ _, x).
(** [d[p1]...[pn].pop(k)] *)
Definition pop (path : list place) (k : string) : val → val := edit path (λ v, dict_without v k).
(** [d[p1]...[pn].append(x)] *)
Definition push (path : list place) (x : val) : val → val :=
  edit path (λ v, match v with VList l => VList (l ++ [x]) | _ => v end).
(** [f(next(d for d in docs if p(d)))], in place *)
Fixpoint edit_first (p : val → bool) (f : val → val) (docs : list val) : list val :=
  match docs with
  | [] => []
  | d :: docs => if p d then f d :: docs else d :: edit_first p f docs
  end.

Definition is_kind (k : string) (d : val) : bool := py_eq (fld d "kind") (VStr k).
Definition named (n : string) (d : val) : bool := py_eq (fld (fld d "metadata") "name") (VStr n).
(** [{"k": "v", ...}] with string values *)
Definition str_dict (l : list (string * string)) : val := VDict (map (prod_map id VStr) l).

(** [(v.get(k) or [])] as an operand of [+]: only a list can be added to a list. *)
Definition list_field (v : val) (k : string) : result (list val) :=
  x <- get v k ;; match por x (VList []) with VList l => Ok l | _ => Raise TypeError end.

(** ** Dicts keyed by a tuple of three values

    Their items in the order of insertion; a later item replaces an earlier
    one with an equal key, so a lookup starts at the end. *)
Definition tkey : Type := val * val * val.
Definition tkey_eqb (a b : tkey) : bool :=
  py_eq a.1.1 b.1.1 && py_eq a.1.2 b.1.2 && py_eq a.2 b.2.
(** A tuple is a key of a dict only when its parts are hashable. *)
Definition hash_tkey (k : tkey) : result tkey :=
  if hashable k.1.1 && hashable k.1.2 && hashable k.2 then Ok k else Raise TypeError.
(** [d.get(k)] *)
Definition tkey_get {A} (l : list (tkey * A)) (k : tkey) : result (option A) :=
  key <- hash_tkey k ;; Ok (snd <$> find (λ e, tkey_eqb e.1 key) (rev l)).

(** ** Dicts of sets

    A dict of non-empty sets is the list of its (key, element) pairs.  Its
    keys in order, and the elements of one key in order. *)
Definition sorted_keys {A} (l : list (string * A)) : list string := sorted_set l.*1.
Definition elements_of (k : string) (l : list (string * string)) : list string :=
  sorted_set (List.filter (λ e, str_eqb e.1 k) l).*2.

(** ** Dicts keyed by a value, in the order of insertion *)
Definition vdict_get {A} (k : val) (l : list (val * A)) : option A :=
  snd <$> find (λ e, py_eq e.1 k) (rev l).
(** [d[k] = x] on the items, when [k] can be a key *)
Definition vdict_item {A} (k : val) (x : A) : result (list (val * A)) :=
  if hashable k then Ok [(k, x)] else Raise TypeError.

(** [set(v)] of a list or dict, and [set(v) == {...}], [set(v) <= {...}] *)
Definition set_keys (v : val) : result (list val) := l <- py_iter v ;; set_of l.
Definition set_subset (l : list val) (s : list string) : bool := forallb (λ v, in_tuple v s) l.
Definition set_superset (l : list val) (s : list string) : bool :=
  forallb (λ x, existsb (py_eq (VStr x)) l) s.
Definition set_eq (l : list val) (s : list string) : bool := set_subset l s && set_superset l s.

(** ** Positions *)

(** A value inside a document, at any depth *)
Inductive inside : val → val → Prop :=
  | Inside_here v : inside v v
  | Inside_key v d k x : (k, x) ∈ d → inside x v → inside (VDict d) v
  | Inside_elem v l x : x ∈ l → inside x v → inside (VList l) v.

(** ** Sorting *)

(** [sorted(l)], of strings or of numbers.  Two elements of other types raise;
    a list of lists, which Python can put in order, is not sorted by a guard. *)
Definition number (v : val) : option Z :=
  match v with VInt z => Some z | VBool b => Some (Z.b2z b) | _ => None end.
Definition number_le (a b : Z * val) : Prop := (a.1 ≤ b.1)%Z.
#[global] Instance number_le_dec : RelDecision number_le.
Proof. intros a b. unfold number_le. apply _. Defined.
Definition py_sorted (l : list val) : result (list val) :=
  match l with
  | [] | [_] => Ok l
  | _ =>
      if forallb is_str l then s <- mapR as_str l ;; Ok (map VStr (sorted_strs s))
      else match mapM number l with
           | Some n => Ok (merge_sort number_le (zip n l)).*2
           | None => Raise TypeError
           end
  end.


(** [set(l)] as the list of its elements in the order of their first
    occurrence, and [sorted(set(l))] *)
Fixpoint distinct (l : list val) : list val :=
  match l with [] => [] | v :: l => v :: List.filter (λ w, negb (py_eq v w)) (distinct l) end.
Definition py_sorted_set (l : list val) : result (list val) := s <- set_of l ;; py_sorted (distinct s).

(** ** Lists of strings as values *)
Definition strs (l : list string) : val := VList (VStr <$> l).

Lemma py_sorted_strs (l : list string) : py_sorted (map VStr l) = Ok (map VStr (sorted_strs l)).
Proof.
  assert (mapR as_str (map VStr l) = Ok l) as Hm by (induction l as [|s l IH]; cbn; [done|]; by rewrite IH).
  assert (forallb is_str (map VStr l) = true) as Ha by (clear Hm; by induction l).
  destruct l as [|s [|t l]]; [done..|]. unfold py_sorted. cbn [map] in *. by rewrite Ha, Hm.
Qed.

(** [sorted(l)] keeps the elements. *)
Lemma py_sorted_elem (l k : list val) : py_sorted l = Ok k → l ≡ₚ k.
Proof.
  unfold py_sorted. destruct l as [|v [|w l]]; [by intros [= <-]..|].
  destruct (forallb is_str _) eqn:E.
  - intros (s & Hs & [= <-])%bind_Ok.
    assert (v :: w :: l = map VStr s) as ->; [|apply Permutation_map; symmetry; apply (merge_sort_Permutation String.le)].
    clear E. remember (v :: w :: l) as m eqn:Hm. clear Hm. revert s Hs.
    induction m as [|x m IH]; cbn; intros s Hs; [by injection Hs as <-|].
    destruct x; try done. cbn in Hs. apply bind_Ok in Hs as (t & Ht & [= <-]). cbn. f_equal. by apply IH.
  - destruct (mapM number _) as [n|] eqn:En; [|done]. intros [= <-].
    assert (length n = length (v :: w :: l)) as Hl by (symmetry; by apply length_mapM in En).
    transitivity ((zip n (v :: w :: l)).*2); [by rewrite snd_zip by lia|].
    apply fmap_Permutation. symmetry. apply merge_sort_Permutation.
Qed.

Lemma distinct_elem (l : list val) s : VStr s ∈ distinct l ↔ VStr s ∈ l.
Proof.
  induction l as [|v l IH]; cbn; [done|]. rewrite !elem_of_cons, list_elem_of_In, filter_In, <- list_elem_of_In, IH.
  destruct (py_eq v (VStr s)) eqn:E; [apply py_eq_str_r in E as ->|]; naive_solver.
Qed.

Lemma sorted_set_strs (l k : list val) s : py_sorted_set l = Ok k → VStr s ∈ k ↔ VStr s ∈ l.
Proof.
  unfold py_sorted_set, set_of. destruct (forallb hashable l); [|done]. cbn [rbind].
  intros H%py_sorted_elem. by rewrite <- H, distinct_elem.
Qed.

Lemma por_strs (l : list string) : por (strs l) (VList []) = strs l.
Proof. apply por_list_nil. Qed.
Lemma truthy_strs (l : list string) : truthy (strs l) = nonempty l.
Proof. by destruct l. Qed.
Lemma elem_strs x (l : list string) : VStr x ∈ VStr <$> l ↔ x ∈ l.
Proof.
  rewrite list_elem_of_fmap. split; [by intros (y & [= ->] & ?)|eauto].
Qed.
Lemma str_in_strs x (l : list string) : computes (str_in x (strs l)) (x ∈ l).
Proof. apply computes_Ok. by rewrite existsb_py_eq_str, elem_strs. Qed.
Lemma set_of_strs (l : list string) : set_of (VStr <$> l) = Ok (VStr <$> l).
Proof.
  unfold set_of. rewrite (proj2 (forallb_elem_of hashable (VStr <$> l))); [done|].
  by intros x (y & -> & _)%list_elem_of_fmap.
Qed.
Lemma meets_strs (s l : list string) : meets s (VStr <$> l) = true ↔ ∃ x, x ∈ s ∧ x ∈ l.
Proof. rewrite meets_true. by setoid_rewrite elem_strs. Qed.
#[export] Hint Rewrite por_strs truthy_strs set_of_strs : guards.

Lemma vdict_get_elem {A} (k : val) (l : list (val * A)) (x : A) : vdict_get k l = Some x → ∃ k' : val, (k', x) ∈ l ∧ py_eq k' k = true.
Proof.
  unfold vdict_get. intros H. apply fmap_Some in H as ([k' y] & H & ->). apply find_some in H as [H E].
  exists k'. split; [|done]. apply in_rev in H. by apply list_elem_of_In.
Qed.

(** [d.get(`kind`) == k] *)
Definition kind_is k (d : val) : result bool := x <- get d "kind" ;; Ok (py_eq x (VStr k)).
Lemma kind_is_true k (d : val) : kind_is k d = Ok true → fld d "kind" = VStr k.
Proof. unfold kind_is. by intros (x & ->%get_Ok & [= H%py_eq_str_r])%bind_Ok. Qed.
Lemma kind_is_false k (d : val) : kind_is k d = Ok false → fld d "kind" ≠ VStr k.
Proof. unfold kind_is. intros (x & ->%get_Ok & [= H])%bind_Ok E. by rewrite E, py_eq_refl_str in H. Qed.

(** Strings in order, and integers in order; no other values compare. *)
Definition val_lt (a b : val) : result bool :=
  match a, b with
  | VStr a, VStr b => Ok (negb (str_eqb a b) && bool_decide (String.le a b))
  | VInt a, VInt b => Ok (a <? b)%Z
  | _, _ => Raise TypeError
  end.
Definition pair_lt (a b : val * val) : result bool :=
  if py_eq a.1 b.1 then if py_eq a.2 b.2 then Ok false else val_lt a.2 b.2 else val_lt a.1 b.1.
Fixpoint insert_pair (x : val * val) (l : list (val * val)) : result (list (val * val)) :=
  match l with
  | [] => Ok [x]
  | y :: l => b <- pair_lt y x ;; if (b : bool) then r <- insert_pair x l ;; Ok (y :: r) else Ok (x :: y :: l)
  end.
Definition pair_eqb (a b : val * val) : bool := py_eq a.1 b.1 && py_eq a.2 b.2.
Definition show_pairs (l : list (val * val)) : result string :=
  s <- foldM (λ (s : list (val * val)) x, if existsb (pair_eqb x) s then Ok s else insert_pair x s) [] l ;;
  Ok (cat ["["; str_join ", " (map (λ p, cat ["("; py_repr p.1; ", "; py_repr p.2; ")"]) s); "]"]).

Lemma alist_get_map {A B} (f : A → B) k (d : list (string * A)) : alist_get k (map (λ kv, (kv.1, f kv.2)) d) = f <$> alist_get k d.
Proof. induction d as [|[k' x] d IH]; [done|]. cbn. by destruct (str_eqb k k'). Qed.
Lemma vdict_get_app {A} (k : val) (l m : list (val * A)) : vdict_get k (l ++ m) = match vdict_get k m with Some x => Some x | None => vdict_get k l end.
Proof.
  unfold vdict_get. rewrite rev_app_distr. generalize (rev l); intros t. induction (rev m) as [|e m' IH]; [done|]. cbn. by destruct (py_eq e.1 k).
Qed.
Lemma superset_elem (l : list val) (s : list string) x : set_superset l s = true → x ∈ s → VStr x ∈ l.
Proof. unfold set_superset. rewrite forallb_elem_of. intros H Hx. by apply existsb_py_eq_str, H. Qed.
