(* ===== verification/Rbac.v ===== *)
(** * Kubernetes RBAC rules, typed

    What a rule of a Role holds when each field has the type of the API, and
    what it grants.  The two guards that evaluate RBAC are proved against
    this meaning. *)
From S2P Require Import Prelude PyStr PyVal.

Record policy_rule := PolicyRule {
  pr_groups : list string;
  pr_resources : list string;
  pr_verbs : list string;
  pr_names : list string }.

(** The rule as its YAML reads; [resourceNames] is written also when empty. *)
Definition policy_rule_val (r : policy_rule) : val :=
  VDict [("apiGroups", strs (pr_groups r)); ("resources", strs (pr_resources r));
         ("verbs", strs (pr_verbs r)); ("resourceNames", strs (pr_names r))].

(** A list of a rule covers a value by name or with the star. *)
Definition covers (l : list string) (x : string) : Prop := x ∈ l ∨ "*" ∈ l.

(** A rule with no names covers each object of its resources; a rule with
    names covers these, and no request that names no object. *)
Definition covers_name (names : list string) (name : option string) : Prop :=
  names = [] ∨ ∃ n, name = Some n ∧ n ∈ names.

#[global] Instance covers_dec l x : Decision (covers l x).
Proof. apply _. Defined.
#[global] Instance covers_name_dec names name : Decision (covers_name names name).
Proof.
  unfold covers_name. destruct name as [n|]; [destruct (decide (n ∈ names))|];
    destruct (decide (names = [])); (left; naive_solver) || (right; naive_solver).
Defined.

Lemma covers_meets (l : list string) x : meets [x; "*"] (VStr <$> l) = true ↔ covers l x.
Proof.
  rewrite meets_strs. unfold covers. split.
  - intros (y & Hy & Hl). apply elem_of_cons in Hy as [->|Hy]; [by left|].
    apply list_elem_of_singleton in Hy as ->. by right.
  - intros [H|H]; [exists x|exists "*"]; (split; [|done]); set_solver.
Qed.
