(* ===== verification/Regex.v ===== *)
(** * Python's [re]

    The guards read text with regular expressions of [re].  A pattern is its
    syntax tree; [rmatch] is the backtracking matcher of [re] (first
    alternative first, greedy repetition, numbered groups), and [search],
    [finditer], [findall] and [sub] are its callers.  The end of the file
    proves that the matcher finds a match exactly when one exists. *)
From S2P Require Import Prelude PyStr.
From Stdlib Require Import Ascii.

Inductive regex : Type :=
  | REps
  | RChr (f : ascii → bool)
  | RCat (a b : regex)
  | RAlt (a b : regex)
  | RStar (a : regex)
  | RLazy (a : regex)
  | RGroup (n : nat) (a : regex)
  | RWordB
  | RBegin
  | RLineBegin
  | REnd
  | RLineEnd
  | RNotBehind (f : ascii → bool)
  | RNotAhead (f : ascii → bool)
  | RAhead (f : ascii → bool).

(** The rest of the text, the character before it, and the groups so far. *)
Record state := State { prev : option ascii; rest : string; groups : list (nat * string) }.

Definition is_word (c : ascii) : bool :=
  let n := nat_of_ascii c in
  is_digit c || ((65 <=? n) && (n <=? 90)) || ((97 <=? n) && (n <=? 122)) || (n =? 95).
Definition is_alpha (c : ascii) : bool :=
  let n := nat_of_ascii c in ((65 <=? n) && (n <=? 90)) || ((97 <=? n) && (n <=? 122)).
Definition is_lower (c : ascii) : bool :=
  let n := nat_of_ascii c in (97 <=? n) && (n <=? 122).
Definition is_newline (c : ascii) : bool := nat_of_ascii c =? 10.

(** The zero-width assertions, on the characters around the position. *)
Definition at_end (s : string) : bool :=
  match s with "" => true | String c "" => is_newline c | _ => false end.
Definition assertion (r : regex) (p : option ascii) (s : string) : option bool :=
  match r with
  | RWordB => Some (xorb (is_some_and is_word p) (is_some_and is_word (head_char s)))
  | RBegin => Some (match p with None => true | _ => false end)
  | RLineBegin => Some (is_none_or is_newline p)
  | REnd => Some (at_end s)
  | RLineEnd => Some (is_none_or is_newline (head_char s))
  | RNotBehind f => Some (is_none_or (λ c, negb (f c)) p)
  | RNotAhead f => Some (is_none_or (λ c, negb (f c)) (head_char s))
  | RAhead f => Some (is_some_and f (head_char s))
  | _ => None
  end.

(** The text between two states of one match. *)
Definition consumed (a b : string) : string :=
  String.substring 0 (String.length a - String.length b) a.

Definition shorter (a b : state) : bool := String.length (rest a) <? String.length (rest b).

Section matcher.
Context {X : Type}.

(** Repetition of [m] at most [n] times, then [k]: the longest first, or
    the shortest first.  An iteration that takes no text ends it. *)
Fixpoint star_loop (m : state → (state → option X) → option X) (k : state → option X)
    (n : nat) (st : state) : option X :=
  match n with
  | O => k st
  | S n =>
      match m st (λ st', if shorter st' st then star_loop m k n st' else None) with
      | Some x => Some x
      | None => k st
      end
  end.
Fixpoint lazy_loop (m : state → (state → option X) → option X) (k : state → option X)
    (n : nat) (st : state) : option X :=
  match k st with
  | Some x => Some x
  | None =>
      match n with
      | O => None
      | S n => m st (λ st', if shorter st' st then lazy_loop m k n st' else None)
      end
  end.

(** The matcher in continuation style: [k] is what must match after [r].
    A repetition runs at most once per character that is left. *)
Fixpoint rmatch (r : regex) (st : state) (k : state → option X) : option X :=
  match r with
  | REps => k st
  | RChr f =>
      match rest st with
      | "" => None
      | String c s => if f c then k (State (Some c) s (groups st)) else None
      end
  | RCat a b => rmatch a st (λ st', rmatch b st' k)
  | RAlt a b => match rmatch a st k with Some x => Some x | None => rmatch b st k end
  | RStar a => star_loop (rmatch a) k (String.length (rest st)) st
  | RLazy a => lazy_loop (rmatch a) k (String.length (rest st)) st
  | RGroup i a =>
      rmatch a st (λ st', k (State (prev st') (rest st')
                               ((i, consumed (rest st) (rest st')) :: groups st')))
  | r => match assertion r (prev st) (rest st) with Some true => k st | _ => None end
  end.
End matcher.

(** A match: its text, its groups, and the text after it. *)
Record found := Found {
  f_before : string;
  f_text : string;
  f_groups : list (nat * string);
  f_prev : option ascii;
  f_after : string }.

Definition group (m : found) (i : nat) : option string :=
  snd <$> find (λ g, g.1 =? i) (f_groups m).
Definition group_text (m : found) (i : nat) : string := default "" (group m i).

Definition match_at (r : regex) (before : string) (p : option ascii) (s : string) : option found :=
  rmatch r (State p s []) (λ st,
    Some (Found before (consumed s (rest st)) (groups st) (prev st) (rest st))).

(** [re.match] *)
Definition re_match (r : regex) (s : string) : option found := match_at r "" None s.
(** [re.fullmatch] *)
Definition re_fullmatch (r : regex) (s : string) : option found :=
  rmatch r (State None s []) (λ st,
    match rest st with
    | "" => Some (Found "" s (groups st) (prev st) "")
    | _ => None
    end).

(** [re.search] from a position *)
Fixpoint search_from (r : regex) (before : string) (p : option ascii) (s : string) : option found :=
  match match_at r before p s with
  | Some m => Some m
  | None =>
      match s with
      | "" => None
      | String c s => search_from r (before +:+ String c "") (Some c) s
      end
  end.
Definition re_search (r : regex) (s : string) : option found := search_from r "" None s.

(** [re.finditer] of a pattern that consumes a character: the text before
    each match starts at the end of the match before it. *)
Fixpoint finditer_from (n : nat) (r : regex) (p : option ascii) (s : string) : list found :=
  match n with
  | O => []
  | S n =>
      match search_from r "" p s with
      | None => []
      | Some m => m :: finditer_from n r (f_prev m) (f_after m)
      end
  end.
Definition re_finditer (r : regex) (s : string) : list found :=
  finditer_from (String.length s) r None s.

(** [re.sub], with the replacement of each match *)
Definition re_sub (r : regex) (f : found → string) (s : string) : string :=
  let ms := re_finditer r s in
  match last ms with
  | None => s
  | Some m => cat (map (λ m, f_before m +:+ f m) ms) +:+ f_after m
  end.

(** ** Notation for patterns *)
Definition RPlus (a : regex) : regex := RCat a (RStar a).
Definition ROpt (a : regex) : regex := RAlt a REps.
Fixpoint RRep (n : nat) (a : regex) : regex :=
  match n with O => REps | S n => RCat a (RRep n a) end.
Definition RLit (c : ascii) : regex := RChr (Ascii.eqb c).
Fixpoint RStr (s : string) : regex :=
  match s with "" => REps | String c s => RCat (RLit c) (RStr s) end.
Definition RAny : regex := RChr (λ c, negb (is_newline c)).
Definition RSpaces : regex := RStar (RChr is_space).
Fixpoint ROneOf (l : list regex) : regex :=
  match l with [] => RChr (λ _, false) | [a] => a | a :: l => RAlt a (ROneOf l) end.
Fixpoint RSeq (l : list regex) : regex :=
  match l with [] => REps | [a] => a | a :: l => RCat a (RSeq l) end.
(** The class [[...]] of the characters of a string, and its complement. *)
Definition in_chars (s : string) (c : ascii) : bool := contains (String c "") s.
Definition not_chars (s : string) (c : ascii) : bool := negb (in_chars s c).

(** ** What a pattern matches

    [step r a b]: the pattern [r] can take the text from position [a] to
    position [b], where a position is the character before it and the text
    after it. *)
Definition pos : Type := option ascii * string.
Definition core (st : state) : pos := (prev st, rest st).

Inductive step : regex → pos → pos → Prop :=
  | step_eps p : step REps p p
  | step_chr (f : ascii → bool) p c s : f c = true → step (RChr f) (p, String c s) (Some c, s)
  | step_cat a b p q r : step a p q → step b q r → step (RCat a b) p r
  | step_alt_l a b p q : step a p q → step (RAlt a b) p q
  | step_alt_r a b p q : step b p q → step (RAlt a b) p q
  | step_star_nil a p : step (RStar a) p p
  | step_star_cons a p q r :
      step a p q → (String.length q.2 < String.length p.2)%nat →
      step (RStar a) q r → step (RStar a) p r
  | step_lazy_nil a p : step (RLazy a) p p
  | step_lazy_cons a p q r :
      step a p q → (String.length q.2 < String.length p.2)%nat →
      step (RLazy a) q r → step (RLazy a) p r
  | step_group i a p q : step a p q → step (RGroup i a) p q
  | step_assert r p s : assertion r p s = Some true → step r (p, s) (p, s).

Lemma shorter_true a b :
  shorter a b = true ↔ (String.length (core a).2 < String.length (core b).2)%nat.
Proof. apply Nat.ltb_lt. Qed.

(** An assertion takes no text. *)
Lemma step_assertion r p q : assertion r p.1 p.2 ≠ None → step r p q → p = q.
Proof. intros H. by destruct 1. Qed.

(** A pattern without a group keeps the groups of the match. *)
Fixpoint no_group (r : regex) : bool :=
  match r with
  | RCat a b | RAlt a b => no_group a && no_group b
  | RStar a | RLazy a => no_group a
  | RGroup _ _ => false
  | _ => true
  end.

(** Soundness: the matcher only finds what the pattern matches. *)
Lemma rmatch_sound_groups {X} (r : regex) (st : state) (k : state → option X) x :
  rmatch r st k = Some x →
  ∃ st', step r (core st) (core st') ∧ (no_group r = true → groups st' = groups st) ∧ k st' = Some x.
Proof.
  revert st k x. induction r as [|f|a IHa b IHb|a IHa b IHb|a IHa|a IHa|i a IHa| | | | | | | |];
    intros st k x H;
    try (match type of H with rmatch ?r _ _ = _ =>
           change (match assertion r (prev st) (rest st) with Some true => k st | _ => None end
                   = Some x) in H;
           destruct (assertion r (prev st) (rest st)) as [[]|] eqn:E; [|done..];
           exists st; split; [by apply step_assert|done] end); cbn [rmatch no_group] in *.
  - exists st. split; [constructor|done].
  - destruct (rest st) as [|c s] eqn:Er; [done|]. destruct (f c) eqn:Ef; [|done].
    eexists. split; [|split; [|exact H]; done]. unfold core. rewrite Er. cbn. by constructor.
  - apply IHa in H as (st1 & H1 & G1 & H). apply IHb in H as (st2 & H2 & G2 & H).
    exists st2. split_and!; [by econstructor| |done]. intros [??]%andb_true_iff. rewrite G2, G1; done.
  - destruct (rmatch a st k) as [y|] eqn:E.
    + injection H as <-. apply IHa in E as (st1 & ? & ? & ?). exists st1.
      split_and!; [by constructor|intros []%andb_true_iff; auto|done].
    + apply IHb in H as (st1 & ? & ? & ?). exists st1. split_and!; [by apply step_alt_r|intros []%andb_true_iff; auto|done].
  - revert H. generalize (String.length (rest st)) as n. intros n. revert st.
    induction n as [|n IHn]; cbn [star_loop]; intros st H; [exists st; split; [constructor|done]|].
    destruct (rmatch a st _) as [y|] eqn:E; [|exists st; split; [constructor|done]].
    injection H as <-. apply IHa in E as (st1 & H1 & G1 & E).
    destruct (shorter st1 st) eqn:Es; [|done]. apply shorter_true in Es.
    apply IHn in E as (st2 & ? & G2 & ?). exists st2. split_and!; [by econstructor| |done].
    intros. rewrite G2, G1; done.
  - revert H. generalize (String.length (rest st)) as n. intros n. revert st.
    induction n as [|n IHn]; cbn [lazy_loop]; intros st H.
    + destruct (k st) as [y|] eqn:E; [|done]. exists st. split_and!; [constructor|done|congruence].
    + destruct (k st) as [y|] eqn:E; [exists st; split_and!; [constructor|done|congruence]|].
      apply IHa in H as (st1 & H1 & G1 & E').
      destruct (shorter st1 st) eqn:Es; [|done]. apply shorter_true in Es.
      apply IHn in E' as (st2 & ? & G2 & ?). exists st2. split_and!; [by econstructor| |done].
      intros. rewrite G2, G1; done.
  - apply IHa in H as (st1 & H1 & _ & H). eexists. split; [|split; [|exact H]; done]. by constructor.
Qed.
Lemma rmatch_sound {X} (r : regex) (st : state) (k : state → option X) x :
  rmatch r st k = Some x → ∃ st', step r (core st) (core st') ∧ k st' = Some x.
Proof. intros (st' & ? & _ & ?)%rmatch_sound_groups. eauto. Qed.

(** Completeness: when the pattern matches some text that [k] accepts, the
    matcher finds a match. *)
Lemma rmatch_complete {X} (r : regex) :
  ∀ (st : state) q (k : state → option X), step r (core st) q →
  (∀ st', core st' = q → k st' ≠ None) → rmatch r st k ≠ None.
Proof.
  induction r as [|f|a IHa b IHb|a IHa b IHb|a IHa|a IHa|i a IHa| | | | | | | |];
    intros st q k H Hk;
    try (match goal with |- rmatch ?r _ _ ≠ _ =>
           change (match assertion r (prev st) (rest st) with Some true => k st | _ => None end
                   ≠ None) end;
         inversion H as [ | | | | | | | | | |r' p' s' E]; subst; rewrite E; by apply Hk);
    cbn [rmatch].
  - inversion H; subst; by apply Hk.
  - remember (core st) as p eqn:Ep. remember (RChr f) as r eqn:Er.
    destruct H; simplify_eq. unfold core in Ep. injection Ep as -> <-.
    rewrite H. by apply Hk.
  - inversion H; subst; [|done]. eapply IHa; [done|]. intros st' <-. by eapply IHb.
  - destruct (rmatch a st k) eqn:E; [done|].
    inversion H; subst; [|by eapply IHb|done]. exfalso. by eapply IHa.
  - assert (String.length (rest st) ≤ String.length (rest st)) as Hn by lia.
    revert Hn. generalize (String.length (rest st)) at 2 3 as n. intros n. revert st H.
    induction n as [|n IHn]; cbn [star_loop]; intros st H Hn.
    + inversion H; subst; [by apply Hk| |done]. unfold core in *; cbn in *. lia.
    + destruct (rmatch a st _) eqn:E; [done|]. revert E.
      inversion H as [ | | | | |a' p'|a' p' q' r' Ha Hl Hs| | | |]; subst; [by intros; apply Hk| |done].
      intros E. exfalso. revert E. eapply IHa; [exact Ha|]. intros st' <-.
      rewrite (proj2 (shorter_true st' st) Hl). cbn in Hl. apply IHn; [done|lia].
  - assert (String.length (rest st) ≤ String.length (rest st)) as Hn by lia.
    revert Hn. generalize (String.length (rest st)) at 2 3 as n. intros n. revert st H.
    induction n as [|n IHn]; cbn [lazy_loop]; intros st H Hn.
    + destruct (k st) eqn:E; [done|]. revert E.
      inversion H; subst; [intros E; by destruct (Hk st eq_refl)| |done].
      exfalso. unfold core in *; cbn in *. lia.
    + destruct (k st) eqn:E; [done|]. revert E.
      inversion H as [ | | | | | | |a' p'|a' p' q' r' Ha Hl Hs| |]; subst;
        [intros E; by destruct (Hk st eq_refl)| |done].
      intros _. eapply IHa; [exact Ha|]. intros st' <-.
      rewrite (proj2 (shorter_true st' st) Hl). cbn in Hl. apply IHn; [done|lia].
  - inversion H; subst; [|done]. eapply IHa; [done|]. intros st' <-. by apply Hk.
Qed.

(** [re.search] finds a match exactly when the pattern matches somewhere in
    the text. *)
Inductive suffix_of : pos → pos → Prop :=
  | suffix_refl p : suffix_of p p
  | suffix_next p c s q : suffix_of (Some c, s) q → suffix_of (p, String c s) q.

Lemma search_from_iff r before p s :
  (∃ m, search_from r before p s = Some m) ↔ ∃ a b, suffix_of (p, s) a ∧ step r a b.
Proof.
  assert (∀ before p s, (∃ m, match_at r before p s = Some m) ↔ ∃ b, step r (p, s) b) as Hat.
  { clear. intros before p s. unfold match_at. split.
    - intros [m H]. apply rmatch_sound in H as (st' & H & _). by eexists.
    - intros [b H]. destruct (rmatch r (State p s []) _) as [m|] eqn:E; [by exists m|].
      exfalso. revert E. eapply rmatch_complete; [exact H|done]. }
  assert (∀ before p s m, match_at r before p s = Some m → ∃ a b, suffix_of (p, s) a ∧ step r a b)
    as Hhere.
  { intros before' p' s' m Hm. destruct (proj1 (Hat before' p' s')) as [b Hb]; [by eexists|].
    exists (p', s'), b. split; [constructor|exact Hb]. }
  revert before p. induction s as [|c s IH]; intros before p; cbn [search_from];
    (destruct (match_at r before p _) as [m|] eqn:E;
      [split; [intros _; by eapply Hhere|intros _; by exists m]|]).
  - split; [by intros []|]. intros (a & b & Hs & H). inversion Hs; subst.
    destruct (proj2 (Hat before p "")) as [m Hm]; [by eexists|congruence].
  - rewrite IH. split; intros (a & b & Hs & H).
    + exists a, b. split; [by constructor|done].
    + inversion Hs; subst; [|by exists a, b].
      destruct (proj2 (Hat before p (String c s))) as [m Hm]; [by eexists|congruence].
Qed.

(** ** What the common patterns match *)

Lemma step_cat_iff a b p r : step (RCat a b) p r ↔ ∃ q, step a p q ∧ step b q r.
Proof.
  split; [|intros (q & ? & ?); by econstructor]. inversion 1; subst; [by eexists|done].
Qed.

Lemma step_chr_iff (f : ascii → bool) p s q :
  step (RChr f) (p, s) q ↔ ∃ c t, s = String c t ∧ f c = true ∧ q = (Some c, t).
Proof.
  split; [|intros (c & t & -> & ? & ->); by constructor]. inversion 1; subst; [eauto|done].
Qed.

Lemma step_end_iff p s q : step REnd (p, s) q ↔ q = (p, s) ∧ at_end s = true.
Proof.
  split.
  - inversion 1; subst. cbn in *. by simplify_eq.
  - intros [-> H]. constructor. cbn. by rewrite H.
Qed.

Lemma step_eps_iff p q : step REps p q ↔ q = p.
Proof. split; [by inversion 1|intros ->; constructor]. Qed.

(** A literal takes its own text. *)
Lemma step_str_iff t p s q : step (RStr t) (p, s) q → s = t +:+ q.2.
Proof.
  revert p s. induction t as [|c t IH]; intros p s; cbn [RStr].
  - by intros ->%step_eps_iff.
  - intros ([p' s'] & (d & u & -> & E & [= -> ->])%step_chr_iff & H)%step_cat_iff.
    apply Ascii.eqb_eq in E as <-. by rewrite (IH _ _ H) at 1.
Qed.
Lemma step_str t p s : ∃ p', step (RStr t) (p, t +:+ s) (p', s).
Proof.
  revert p. induction t as [|c t IH]; intros p; [exists p; constructor|].
  destruct (IH (Some c)) as [p' H]. exists p'. econstructor; [|exact H].
  apply (step_chr (Ascii.eqb c)). apply Ascii.eqb_refl.
Qed.

(** A repeated class takes that many characters of the class. *)
Lemma step_rep_iff n (f : ascii → bool) p s q :
  step (RRep n (RChr f)) (p, s) q →
  ∃ t, s = t +:+ q.2 ∧ String.length t = n ∧ str_forallb f t = true.
Proof.
  revert p s. induction n as [|n IH]; intros p s; cbn [RRep].
  - intros ->%step_eps_iff. by exists "".
  - intros ([p' s'] & (d & u & -> & E & [= -> ->])%step_chr_iff & H)%step_cat_iff.
    destruct (IH _ _ H) as (t & -> & Hl & Hf). exists (String d t). cbn. by rewrite Hl, E, Hf.
Qed.
Lemma step_rep (f : ascii → bool) t p s :
  str_forallb f t = true → ∃ p', step (RRep (String.length t) (RChr f)) (p, t +:+ s) (p', s).
Proof.
  revert p. induction t as [|c t IH]; intros p; [exists p; constructor|].
  cbn. intros [Hc Ht]%andb_true_iff. destruct (IH (Some c) Ht) as [p' H]. exists p'.
  econstructor; [by apply step_chr|exact H].
Qed.

(** A starred class takes any text of the class; a plus takes a nonempty one. *)
Lemma step_star_iff (f : ascii → bool) p s q :
  step (RStar (RChr f)) (p, s) q → ∃ t, s = t +:+ q.2 ∧ str_forallb f t = true.
Proof.
  remember (RStar (RChr f)) as r eqn:Er. remember (p, s) as a eqn:Ea. intros H. revert p s Er Ea.
  induction H as [| | | | | |a x y z Ha _ Hl Hs IHs| | | |? ? ? E]; intros p0 s0 Er Ea; try discriminate Er.
  - subst. by exists "".
  - injection Er as ->. subst x. apply step_chr_iff in Ha as (c & t & -> & Hc & ->).
    destruct (IHs _ _ eq_refl eq_refl) as (u & -> & Hu). exists (String c u). cbn. by rewrite Hc, Hu.
  - subst. discriminate E.
Qed.
Lemma step_star (f : ascii → bool) t p s :
  str_forallb f t = true → ∃ p', step (RStar (RChr f)) (p, t +:+ s) (p', s).
Proof.
  revert p. induction t as [|c t IH]; intros p; [exists p; constructor|].
  cbn. intros [Hc Ht]%andb_true_iff. destruct (IH (Some c) Ht) as [p' H]. exists p'.
  change (String c t +:+ s) with (String c (t +:+ s)).
  eapply step_star_cons; [by apply step_chr| |exact H]. cbn [snd String.length]. lia.
Qed.

Lemma step_lazy (f : ascii → bool) t p s :
  str_forallb f t = true → ∃ p', step (RLazy (RChr f)) (p, t +:+ s) (p', s).
Proof.
  revert p. induction t as [|c t IH]; intros p; [exists p; constructor|].
  cbn. intros [Hc Ht]%andb_true_iff. destruct (IH (Some c) Ht) as [p' H]. exists p'.
  change (String c t +:+ s) with (String c (t +:+ s)).
  eapply step_lazy_cons; [by apply step_chr| |exact H]. cbn [snd String.length]. lia.
Qed.

Lemma step_plus_iff (f : ascii → bool) p s q :
  step (RPlus (RChr f)) (p, s) q → ∃ t, s = t +:+ q.2 ∧ t ≠ "" ∧ str_forallb f t = true.
Proof.
  unfold RPlus. rewrite step_cat_iff. intros (r & H1 & H2). apply step_chr_iff in H1 as (c & t & -> & Hc & ->).
  apply step_star_iff in H2 as (u & -> & Hu). exists (String c u). split_and!; [done|done|]. cbn. by rewrite Hc.
Qed.
Lemma step_opt_iff a p q : step (ROpt a) p q → step a p q ∨ q = p.
Proof. unfold ROpt. inversion 1; subst; [by left|right; by apply step_eps_iff|done]. Qed.

(** [re.fullmatch] takes the whole text. *)
Lemma fullmatch_iff r s : is_Some (re_fullmatch r s) ↔ ∃ p, step r (None, s) (p, "").
Proof.
  unfold re_fullmatch. split.
  - intros [m H]. apply rmatch_sound in H as ([p [|c t] g] & H & E); [by exists p|done].
  - intros [p H]. destruct (rmatch r _ _) eqn:E; [by eexists|]. exfalso. revert E.
    eapply rmatch_complete; [exact H|]. intros [p' s' g] [= -> ->]. done.
Qed.

(** [re.match] takes a prefix of the text. *)
Lemma re_match_iff r s : is_Some (re_match r s) ↔ ∃ q, step r (None, s) q.
Proof.
  unfold re_match, match_at. split.
  - intros [m H]. apply rmatch_sound in H as (st' & H & _). by eexists.
  - intros [q H]. destruct (rmatch r _ _) eqn:E; [by eexists|]. exfalso. revert E.
    by eapply rmatch_complete.
Qed.

(** A position of the text is a way to cut it in two. *)
Lemma suffix_of_app p s q t : suffix_of (p, s) (q, t) → ∃ u, s = u +:+ t.
Proof.
  intros H. remember (p, s) as a eqn:Ea. remember (q, t) as b eqn:Eb.
  revert p s Ea. induction H as [x|x c s' y H IH]; intros p s Ea.
  - exists "". rewrite Ea in Eb. by injection Eb as -> ->.
  - injection Ea as -> <-. destruct (IH Eb _ _ eq_refl) as [u ->]. by exists (String c u).
Qed.
Lemma app_suffix_of u p t : ∃ q, suffix_of (p, u +:+ t) (q, t).
Proof.
  revert p. induction u as [|c u IH]; intros p; [exists p; constructor|].
  destruct (IH (Some c)) as [q H]. exists q. by constructor.
Qed.

(** The character before a position is the last one of the text before it. *)
Lemma suffix_of_last p s q t : suffix_of (p, s) (q, t) →
  ∃ u, s = u +:+ t ∧ (u = "" ∧ q = p ∨ ∃ u' c, u = u' +:+ String c "" ∧ q = Some c).
Proof.
  intros H. remember (p, s) as a eqn:Ea. remember (q, t) as b eqn:Eb.
  revert p s Ea. induction H as [x|x c s' y H IH]; intros p s Ea.
  - exists "". rewrite Ea in Eb. injection Eb as -> ->. split; [done|by left].
  - injection Ea as -> <-. destruct (IH Eb _ _ eq_refl) as (u & -> & Hu). exists (String c u). split; [done|right].
    destruct Hu as [[-> ->]|(u' & d & -> & ->)]; [by exists "", c|by exists (String c u'), d].
Qed.
Lemma step_line_begin p q : step RLineBegin p q → p = q ∧ is_none_or is_newline p.1 = true.
Proof. inversion 1 as [| | | | | | | | | |r p0 s Ha]; subst. by injection Ha. Qed.
Lemma step_line_end p q : step RLineEnd p q → p = q ∧ is_none_or is_newline (head_char p.2) = true.
Proof. inversion 1 as [| | | | | | | | | |r p0 s Ha]; subst. by injection Ha. Qed.

(** ** One step of the matcher *)

Lemma rmatch_cat {X} a b st (k : state → option X) :
  rmatch (RCat a b) st k = rmatch a st (λ st', rmatch b st' k).
Proof. done. Qed.
Lemma rmatch_group {X} i a p s g (k : state → option X) :
  rmatch (RGroup i a) (State p s g) k =
  rmatch a (State p s g) (λ st', k (State (prev st') (rest st') ((i, consumed s (rest st')) :: groups st'))).
Proof. done. Qed.

Lemma rmatch_none {X} r st (k : state → option X) :
  (∀ q, ¬ step r (core st) q) → rmatch r st k = None.
Proof.
  intros H. destruct (rmatch r st k) as [x|] eqn:E; [|done]. exfalso.
  apply rmatch_sound in E as (st' & Hs & _). by eapply H.
Qed.

Lemma consumed_app a b : consumed (a +:+ b) b = a.
Proof.
  unfold consumed. rewrite append_length.
  replace (String.length a + String.length b - String.length b) with (String.length a) by lia.
  induction a as [|c a IH]; simpl; [by destruct b|]. f_equal. exact IH.
Qed.

(** ** What [re.finditer] covers *)

Lemma suffix_of_trans a b c : suffix_of a b → suffix_of b c → suffix_of a c.
Proof. induction 1; [done|]. intros. constructor. auto. Qed.

Lemma suffix_of_length a b : suffix_of a b → (String.length b.2 ≤ String.length a.2)%nat.
Proof. induction 1; simpl in *; lia. Qed.

(** Two positions of a text are ordered. *)
Lemma suffix_of_linear a b c :
  suffix_of a b → suffix_of a c → (String.length c.2 ≤ String.length b.2)%nat → suffix_of b c.
Proof.
  intros Hb. revert c. induction Hb as [b|p x s b Hb IH]; intros c Hc Hl; [done|].
  inversion Hc as [|? ? ? ? Hc']; subst; [|by apply IH].
  apply suffix_of_length in Hb. simpl in *. lia.
Qed.

Lemma step_suffix r p q : step r p q → suffix_of p q.
Proof.
  induction 1; try constructor; try done; try (by eapply suffix_of_trans); constructor.
Qed.

Lemma match_at_step r before p s m :
  match_at r before p s = Some m → step r (p, s) (f_prev m, f_after m).
Proof. intros H. apply rmatch_sound in H as ([p' s' g] & H & [= <-]). exact H. Qed.

Lemma match_at_None r before p s b : match_at r before p s = None → ¬ step r (p, s) b.
Proof. intros H Hs. revert H. eapply rmatch_complete; [exact Hs|done]. Qed.

(** [re.search] finds the leftmost match. *)
Lemma search_from_leftmost r before p s m :
  search_from r before p s = Some m →
  ∃ before' a, suffix_of (p, s) a ∧ match_at r before' a.1 a.2 = Some m ∧
    ∀ a' b, suffix_of (p, s) a' → step r a' b → (String.length a'.2 ≤ String.length a.2)%nat.
Proof.
  revert before p. induction s as [|c s IH]; intros before p; cbn [search_from];
    (destruct (match_at r before p _) as [m'|] eqn:E;
      [intros [= ->]; eexists before, (p, _); split_and!;
        [constructor|exact E|intros a' b H%suffix_of_length _; exact H]|]); [done|].
  intros H. destruct (IH _ _ H) as (before' & a & Ha & Hm & Hl).
  exists before', a. split_and!; [by constructor|done|]. intros a' b Ha' Hb.
  inversion Ha' as [|? ? ? ? Hs]; subst; [|by eapply Hl].
  by apply (match_at_None _ _ _ _ b) in E.
Qed.

(** Each position where a pattern matches lies in a match of [re.finditer],
    for a pattern that takes text. *)
Lemma finditer_covers r n p s a b :
  (∀ x y, step r x y → (String.length y.2 < String.length x.2)%nat) →
  (String.length s ≤ n)%nat → suffix_of (p, s) a → step r a b →
  ∃ m before a', m ∈ finditer_from n r p s ∧ match_at r before a'.1 a'.2 = Some m ∧
    suffix_of a' a ∧ (String.length (f_after m) < String.length a.2)%nat.
Proof.
  intros Hr. revert p s. induction n as [|n IH]; intros p s Hn Ha Hb.
  - apply suffix_of_length in Ha. apply Hr in Hb. simpl in *. lia.
  - cbn [finditer_from]. destruct (search_from r "" p s) as [m|] eqn:E.
    + destruct (search_from_leftmost _ _ _ _ _ E) as (before & a' & Ha' & Hm & Hl).
      pose proof (match_at_step _ _ _ _ _ Hm) as Hs.
      assert ((a'.1, a'.2) = a') as Ea by (by destruct a'). rewrite Ea in Hs.
      destruct (decide (String.length (f_after m) < String.length a.2)%nat) as [Hd|Hd].
      * exists m, before, a'. split_and!; [left|done| |done].
        apply (suffix_of_linear _ _ _ Ha' Ha). by eapply Hl.
      * pose proof (Hr _ _ Hs) as Hlt. pose proof (suffix_of_length _ _ Ha') as Hle. simpl in *.
        destruct (IH (f_prev m) (f_after m)) as (m' & b' & x & ? & ? & ? & ?); [lia| |done|].
        { apply (suffix_of_linear (p, s)); [|done|simpl; lia].
          eapply suffix_of_trans; [exact Ha'|by eapply step_suffix]. }
        exists m', b', x. split_and!; [by right|done..].
    + exfalso. assert (∃ m, search_from r "" p s = Some m) as [m Hm]; [|congruence].
      apply search_from_iff. eauto.
Qed.

Lemma finditer_match r n p s m : m ∈ finditer_from n r p s →
  ∃ before a, suffix_of (p, s) a ∧ match_at r before a.1 a.2 = Some m.
Proof.
  revert p s. induction n as [|n IH]; intros p s; cbn [finditer_from]; [by intros ?%elem_of_nil|].
  destruct (search_from r "" p s) as [m'|] eqn:E; [|by intros ?%elem_of_nil].
  destruct (search_from_leftmost _ _ _ _ _ E) as (before & a & Ha & Hm & _).
  intros [->|H]%elem_of_cons; [by exists before, a|]. destruct (IH _ _ H) as (before' & a' & Ha' & Hm').
  exists before', a'. split; [|done]. eapply suffix_of_trans; [exact Ha|]. eapply suffix_of_trans; [|exact Ha'].
  destruct a as [q t]. eapply step_suffix, match_at_step, Hm.
Qed.
Lemma no_group_str t : no_group (RStr t) = true.
Proof. by induction t. Qed.
Lemma rmatch_alt {X} a b st (k : state → option X) x :
  rmatch (RAlt a b) st k = Some x → rmatch a st k = Some x ∨ rmatch b st k = Some x.
Proof. cbn [rmatch]. destruct (rmatch a st k); [by left|by right]. Qed.

Lemma suffix_none a b : suffix_of a b → b.1 = None → a = b.
Proof. induction 1 as [|p c s q H IH]; [done|]. intros Hq. specialize (IH Hq). by subst q. Qed.

(** ** The longest repetition, and characters that a match needs *)

(** A class that is repeated takes the longest text of the class, when the
    match can end there. *)
Lemma rmatch_star_max {X} (f : ascii → bool) t p s g (K : state → X) :
  str_forallb f t = true → is_some_and f (head_char s) = false →
  ∃ p', rmatch (RStar (RChr f)) (State p (t +:+ s) g) (λ st, Some (K st)) = Some (K (State p' s g)).
Proof.
  intros Ht Hs. cbn [rmatch rest]. assert (String.length t ≤ String.length (t +:+ s))%nat as Hn by (rewrite append_length; lia).
  revert Hn. generalize (String.length (t +:+ s)). intros n. revert n p. induction t as [|c t IH]; intros n p Hn.
  - exists p. change ("" +:+ s) with s. destruct n as [|n]; [done|]. cbn [star_loop rest]. destruct s as [|c s]; [done|].
    cbn in Hs. by rewrite Hs.
  - cbn in Ht. apply andb_true_iff in Ht as [Hc Ht]. destruct n as [|n]; [cbn in Hn; lia|].
    destruct (IH Ht n (Some c)) as [p' H]; [cbn in Hn; lia|]. exists p'.
    change (String c t +:+ s) with (String c (t +:+ s)). cbn [star_loop rest groups]. rewrite Hc.
    unfold shorter. cbn [rest String.length]. rewrite (proj2 (Nat.ltb_lt _ _) (Nat.lt_succ_diag_r _)). by rewrite H.
Qed.

(** [needs ok r]: a match of [r] takes a character that is not [ok]. *)
Definition all_chars : list ascii := map ascii_of_nat (seq 0 256).
Fixpoint needs (ok : ascii → bool) (r : regex) : bool :=
  match r with
  | RChr f => forallb (λ c, negb (f c && ok c)) all_chars
  | RCat a b => needs ok a || needs ok b
  | RAlt a b => needs ok a && needs ok b
  | RGroup _ a => needs ok a
  | _ => false
  end.
Lemma step_needs ok r p q : step r p q → needs ok r = true → str_forallb ok p.2 = false.
Proof.
  assert (∀ p q, step r p q → str_forallb ok p.2 = true → needs ok r = false) as H.
  { clear p q. intros p q H. induction H as [|f p c s Hf|a b [p s] [p1 s1] [p2 s2] H1 IH1 H2 IH2|a b p q H IH|a b p q H IH| | | | |i a p q H IH|r p s E];
      cbn [needs]; intros Ho; try done.
    - cbn in Ho. apply andb_true_iff in Ho as [Hc _]. apply not_true_is_false. intros Hn.
      rewrite forallb_forall in Hn. assert (In c all_chars) as Hin.
      { apply in_map_iff. exists (nat_of_ascii c). rewrite ascii_nat_embedding. split; [done|].
        apply in_seq. pose proof (nat_ascii_bounded c). lia. }
      apply Hn in Hin. by rewrite Hf, Hc in Hin.
    - rewrite IH1 by done. apply IH2. apply step_suffix, suffix_of_app in H1 as [u ->]. cbn in *.
      rewrite str_forallb_app in Ho. by apply andb_true_iff in Ho as [].
    - by rewrite IH.
    - rewrite IH by done. apply andb_false_r.
    - auto.
    - destruct r; done. }
  intros Hs Hn. apply not_true_is_false. intros Ho. rewrite (H _ _ Hs Ho) in Hn. done.
Qed.

(** ** What [re.sub] does to the length of a text *)

Lemma cat_cons a l : cat (a :: l) = a +:+ cat l.
Proof. destruct l; [|done]. symmetry. apply append_nil_r. Qed.

Lemma length_consumed a b : String.length (consumed a b) = String.length a - String.length b.
Proof.
  assert (∀ n s, (n ≤ String.length s)%nat → String.length (String.substring 0 n s) = n) as H.
  { induction n as [|n IH]; intros [|c s] Hn; simpl in *; [done..|lia|]. rewrite IH; lia. }
  apply H. lia.
Qed.

Lemma search_from_text r before p s m :
  search_from r before p s = Some m → before +:+ s = f_before m +:+ f_text m +:+ f_after m.
Proof.
  assert (∀ before p s m, match_at r before p s = Some m → before +:+ s = f_before m +:+ f_text m +:+ f_after m) as Hat.
  { intros b' p' s' m' H. apply rmatch_sound in H as ([q t g] & H & [= <-]).
    change (step r (p', s') (q, t)) in H.
    destruct (suffix_of_app _ _ _ _ (step_suffix _ _ _ H)) as [u ->].
    cbn. by rewrite consumed_app. }
  revert before p. induction s as [|c s IH]; intros before p; cbn [search_from];
    (destruct (match_at r before p _) as [m'|] eqn:E; [intros [= <-]; by eapply Hat|]); [done|].
  intros H%IH. rewrite <- H, append_assoc. done.
Qed.

(** A replacement that is shorter than each match shortens a text with a
    match, and keeps a text without one. *)
Lemma re_sub_shrinks r f s :
  (∀ before p s m, match_at r before p s = Some m → (String.length (f m) < String.length (f_text m))%nat) →
  (re_sub r f s = s ∧ re_search r s = None) ∨ (String.length (re_sub r f s) < String.length s)%nat.
Proof.
  intros Hf.
  assert (∀ before p s m, search_from r before p s = Some m →
            (String.length (f_before m +:+ f m) + String.length (f_after m) < String.length before + String.length s)%nat) as Hs.
  { intros before p s' m H. pose proof (search_from_text _ _ _ _ _ H) as Ht.
    apply search_from_leftmost in H as (b' & a & _ & H%Hf & _).
    apply (f_equal String.length) in Ht. rewrite !append_length in *. lia. }
  assert (∀ n p s, finditer_from n r p s ≠ [] →
            ∃ m, last (finditer_from n r p s) = Some m ∧
              (String.length (cat (map (λ m, f_before m +:+ f m) (finditer_from n r p s))) + String.length (f_after m)
               < String.length s)%nat) as Hn.
  { induction n as [|n IH]; intros p s'; cbn [finditer_from]; [done|].
    destruct (search_from r "" p s') as [m|] eqn:E; [|done]. intros _. apply Hs in E. simpl in E.
    destruct (finditer_from n r (f_prev m) (f_after m)) as [|m' l] eqn:El.
    - exists m. split; [done|]. cbn [map]. rewrite cat_cons. change (cat []) with "". rewrite append_nil_r. lia.
    - destruct (IH (f_prev m) (f_after m)) as (m2 & Hm & Hl); [by rewrite El|]. rewrite El in Hm, Hl.
      exists m2. split; [exact Hm|]. cbn [map] in *. rewrite cat_cons, append_length. lia. }
  unfold re_sub, re_finditer. destruct (finditer_from (String.length s) r None s) as [|m l] eqn:E.
  - left. split; [done|]. unfold re_search. destruct (search_from r "" None s) as [m|] eqn:Em; [|done]. exfalso.
    destruct (String.length s) as [|n] eqn:El; [apply Hs in Em; rewrite El in Em; simpl in Em; lia|].
    cbn [finditer_from] in E. by rewrite Em in E.
  - right. destruct (Hn (String.length s) None s) as (m2 & Hm & Hl); [by rewrite E|]. rewrite E in Hm, Hl.
    rewrite Hm, append_length. lia.
Qed.

Example re_ex1 : (λ m, group_text m 1) <$> re_search
    (RSeq [RStr "v"; RGroup 1 (RPlus (RChr is_digit)); REnd]) "a v12" = Some "12".
Proof. vm_compute. reflexivity. Qed.
Example re_ex2 : map f_text (re_finditer (RPlus (RChr is_digit)) "10.0.255") = ["10"; "0"; "255"].
Proof. vm_compute. reflexivity. Qed.
Example re_ex3 : re_sub (RSeq [RStr "{"; RStar (RChr (not_chars "}")); RStr "}"]) (λ _, "") "a{b}c{d}e"
  = "ace".
Proof. vm_compute. reflexivity. Qed.

(** The next part of a sequence, when it has no group of its own: the text [s]
    after it, and [L], what it takes. *)
Ltac next_part H s L :=
  rewrite ?rmatch_cat, ?rmatch_group in H;
  let p := fresh "p" in let g := fresh "g" in let G := fresh "G" in
  apply rmatch_sound_groups in H as ([p s g] & L & G & H); specialize (G eq_refl);
  unfold core in L; cbn [prev rest groups] in L, G, H; subst g.

(** [re.search(r, s)] is a match. *)
Definition found_in (r : regex) (s : string) : bool := match re_search r s with Some _ => true | None => false end.
Lemma found_in_iff r s : found_in r s = true ↔ ∃ a b, suffix_of (None, s) a ∧ step r a b.
Proof.
  rewrite <- (search_from_iff r ""). unfold found_in. change (re_search r s) with (search_from r "" None s).
  destruct (search_from _ _ _ _) as [m|]; split; [by intros _; exists m|done|done|by intros (? & ?)].
Qed.
Lemma finditer_nil r s : s ≠ "" → re_finditer r s = [] → found_in r s = false.
Proof.
  unfold re_finditer, found_in. destruct s as [|c s]; [done|]. intros _. cbn [String.length finditer_from].
  change (re_search r (String c s)) with (search_from r "" None (String c s)). by destruct (search_from r "" None (String c s)).
Qed.
