(* ===== verification/Sha256.v ===== *)
(** * [hashlib.sha256]

    The guards pin findings and sources by a SHA-256 digest.  The hash runs on
    32-bit words, kept in [N] below [2^32]; the additions wrap around. *)
From S2P Require Import Prelude PyStr.
From Stdlib Require Import Ascii NArith.
Local Open Scope N_scope.

Definition w32 : N := 4294967296.
Definition add32 (a b : N) : N := (a + b) mod w32.
Definition rotr (n x : N) : N := N.lor (N.shiftr x n) ((N.shiftl x (32 - n)) mod w32).
Definition not32 (x : N) : N := w32 - 1 - x.

Definition K256 : list N :=
  [1116352408; 1899447441; 3049323471; 3921009573; 961987163; 1508970993; 2453635748; 2870763221;
   3624381080; 310598401; 607225278; 1426881987; 1925078388; 2162078206; 2614888103; 3248222580;
   3835390401; 4022224774; 264347078; 604807628; 770255983; 1249150122; 1555081692; 1996064986;
   2554220882; 2821834349; 2952996808; 3210313671; 3336571891; 3584528711; 113926993; 338241895;
   666307205; 773529912; 1294757372; 1396182291; 1695183700; 1986661051; 2177026350; 2456956037;
   2730485921; 2820302411; 3259730800; 3345764771; 3516065817; 3600352804; 4094571909; 275423344;
   430227734; 506948616; 659060556; 883997877; 958139571; 1322822218; 1537002063; 1747873779;
   1955562222; 2024104815; 2227730452; 2361852424; 2428436474; 2756734187; 3204031479; 3329325298].
Definition H256 : list N :=
  [1779033703; 3144134277; 1013904242; 2773480762; 1359893119; 2600822924; 528734635; 1541459225].

Fixpoint bytes_of (s : string) : list N :=
  match s with "" => [] | String c s => N_of_ascii c :: bytes_of s end.

(** [n] bytes of [x], the highest first *)
Fixpoint be_bytes (n : nat) (x : N) : list N :=
  match n with
  | O => []
  | S n => N.shiftr x (8 * N.of_nat n) mod 256 :: be_bytes n x
  end.

(** The message with a one bit, zeros up to 56 modulo 64 bytes, and its
    length in bits. *)
Definition pad (l : list N) : list N :=
  let n := length l in
  l ++ [128] ++ replicate ((119 - n mod 64) mod 64) 0 ++ be_bytes 8 (8 * N.of_nat n).

Fixpoint words (l : list N) : list N :=
  match l with
  | a :: b :: c :: d :: l => (((a * 256 + b) * 256 + c) * 256 + d) :: words l
  | _ => []
  end.
Fixpoint blocks (n : nat) (l : list N) : list (list N) :=
  match n with O => [] | S n => take 16 l :: blocks n (drop 16 l) end.

(** The message schedule, newest word first. *)
Fixpoint schedule (n : nat) (w : list N) : list N :=
  match n with
  | O => w
  | S n =>
      let g i := default 0 (w !! i) in
      let x := g 14%nat in let y := g 1%nat in
      let s0 := N.lxor (N.lxor (rotr 7 x) (rotr 18 x)) (N.shiftr x 3) in
      let s1 := N.lxor (N.lxor (rotr 17 y) (rotr 19 y)) (N.shiftr y 10) in
      schedule n (add32 (add32 (g 15%nat) s0) (add32 (g 6%nat) s1) :: w)
  end.

Definition round (h : list N) (kw : N * N) : list N :=
  match h with
  | [a; b; c; d; e; f; g; h] =>
      let s1 := N.lxor (N.lxor (rotr 6 e) (rotr 11 e)) (rotr 25 e) in
      let ch := N.lxor (N.land e f) (N.land (not32 e) g) in
      let t1 := add32 (add32 (add32 h s1) (add32 ch kw.1)) kw.2 in
      let s0 := N.lxor (N.lxor (rotr 2 a) (rotr 13 a)) (rotr 22 a) in
      let maj := N.lxor (N.lxor (N.land a b) (N.land a c)) (N.land b c) in
      [add32 t1 (add32 s0 maj); a; b; c; add32 d t1; e; f; g]
  | _ => h
  end.
Definition compress (h block : list N) : list N :=
  let w := rev (schedule 48 (rev block)) in
  zip_with add32 h (foldl round h (zip K256 w)).

Definition hex_char (n : N) : ascii :=
  if n <? 10 then ascii_of_N (48 + n) else ascii_of_N (87 + n).
Definition hex_byte (n : N) (s : string) : string :=
  String (hex_char (n / 16)) (String (hex_char (n mod 16)) s).

(** [hashlib.sha256(s.encode()).hexdigest()] *)
Definition sha256_hex (s : string) : string :=
  let w := words (pad (bytes_of s)) in
  let h := foldl compress H256 (blocks (length w / 16) w) in
  foldr hex_byte "" (flat_map (be_bytes 4) h).

Example sha256_empty :
  sha256_hex "" = "e3b0c44298fc1c149afbf4c8996fb92427ae41e4649b934ca495991b7852b855".
Proof. vm_compute. reflexivity. Qed.
Example sha256_abc :
  sha256_hex "abc" = "ba7816bf8f01cfea414140de5dae2223b00361a396177a9cb410ff61f20015ad".
Proof. vm_compute. reflexivity. Qed.
Example sha256_two_blocks :
  sha256_hex "abcdbcdecdefdefgefghfghighijhijkijkljklmklmnlmnomnopnopq"
  = "248d6a61d20638b8e5c026930c3e6039a33ce45964ff2167f6ecedd419db06c1".
Proof. vm_compute. reflexivity. Qed.
