(* ===== verification/Cilium.v ===== *)
(** * scripts/lib/cilium_policy.py: the Cilium policies of a render

    The module every network guard shares.  A pod is an endpoint, its labels
    plus its namespace; a flow is allowed when an egress rule of the source
    and an ingress rule of the destination both allow it.  The first part is
    the module; the second part is the meaning of typed policies and the
    proof that the module computes it. *)
From S2P Require Import Prelude PyStr PyVal.
From stdpp Require Import gmap.

Definition NS_KEY : string := "io.kubernetes.pod.namespace".
Definition POD_ENTITIES : list string := ["all"; "cluster"].
Definition WORLD_ENTITIES : list string := ["all"; "world"].
Definition OPEN_CIDRS : list string := ["0.0.0.0/0"; "::/0"].
Definition KINDS : list string := ["CiliumNetworkPolicy"; "CiliumClusterwideNetworkPolicy"].

(** [norm] on a string: the text after the first colon. *)
Definition norm_key (key : string) : string :=
  match split1 ":" key with Some (_, k) => k | None => key end.

(** [norm] on a value: [":" in key] raises on a value that is no container,
    and a list with the element [":"] has no [split]. *)
Definition norm (key : val) : result val :=
  match key with
  | VStr s => Ok (VStr (norm_key s))
  | _ => b <- str_in ":" key ;; if (b : bool) then Raise AttributeError else Ok key
  end.

(** One expression of [selects]: true when the loop returns [False] for it. *)
Definition expr_rejects (labels e : val) : result bool :=
  key <- get e "key" ;;
  k <- norm key ;;
  op <- get e "operator" ;;
  vs <- get e "values" ;;
  let vals := por vs (VList []) in
  if py_eq op (VStr "In") then
    x <- get_v labels k ;; b <- val_in x vals ;; Ok (negb b)
  else if py_eq op (VStr "NotIn") then
    x <- get_v labels k ;; val_in x vals
  else if py_eq op (VStr "Exists") then
    b <- val_in k labels ;; Ok (negb b)
  else if py_eq op (VStr "DoesNotExist") then
    val_in k labels
  else Ok false.

Definition selects (selector labels : val) : result bool :=
  let sel := por selector (VDict []) in
  es <- get_list sel "matchExpressions" ;;
  rejected <- anyM (expr_rejects labels) es ;;
  if (rejected : bool) then Ok false else
  ml <- get_dict sel "matchLabels" ;;
  kvs <- items ml ;;
  allM (λ '(k, v), x <- get labels (norm_key k) ;; Ok (py_eq x v)) kvs.

Definition names_namespace (selector : val) : result bool :=
  let sel := por selector (VDict []) in
  ml <- get_list sel "matchLabels" ;;
  es <- get_list sel "matchExpressions" ;;
  eks <- mapR (λ e, get e "key") es ;;
  anyM (λ k, n <- norm k ;; Ok (py_eq n (VStr NS_KEY))) (ml ++ eks).

Definition endpoint (ns labels : val) : result val :=
  dict_merge labels (VDict [(NS_KEY, ns)]).

(** The rules of one policy: its [spec] and each of its [specs]. *)
Definition rules_of (p : val) : result (list val) :=
  s <- get p "spec" ;;
  head <- (if truthy s then x <- item p "spec" ;; Ok [x] else Ok []) ;;
  tail <- get_list p "specs" ;;
  Ok (head ++ tail).

(** The namespace of a policy, [None] when it is clusterwide. *)
Definition scope_of (kind p default_ns : val) : result val :=
  if py_eq kind (VStr "CiliumClusterwideNetworkPolicy") then Ok VNone
  else m <- get_dict p "metadata" ;; n <- get m "namespace" ;; Ok (por n default_ns).

Definition rules (policies : list val) (default_ns : val) : result (list (val * val * val)) :=
  flatM (λ p,
    kind <- get p "kind" ;;
    if negb (in_tuple kind KINDS) then Ok [] else
    ns <- scope_of kind p default_ns ;;
    rs <- rules_of p ;;
    Ok ((λ r, (p, r, ns)) <$> rs)) policies.

Definition peer_selects (sel ns ep : val) : result bool :=
  outside <- (if is_none ns then Ok false else
             named <- names_namespace sel ;;
             if (named : bool) then Ok false else
             n <- get ep NS_KEY ;; Ok (negb (py_eq n ns))) ;;
  if (outside : bool) then Ok false else selects sel ep.

Definition rule_selects (rule ns ep : val) : result bool :=
  s <- get_dict rule "endpointSelector" ;; peer_selects s ns ep.

Definition port_ok (it : val) (port : option Z) : result bool :=
  match port with
  | None => Ok true
  | Some port =>
      tps <- get it "toPorts" ;;
      if negb (truthy tps) then Ok true else
      l <- py_iter tps ;;
      anyM (λ tp, ps <- get_list tp "ports" ;;
                  anyM (λ pp, x <- get pp "port" ;; Ok (str_eqb (py_str x) (str_of_int port))) ps) l
  end.

(** The common loop of [ingress_admits] and [egress_reaches]: one item of a
    direction, with the names of its entity and endpoint lists. *)
Definition item_admits (entities endpoints : string) (ns peer : val) (port : option Z)
    (it : val) : result bool :=
  ok <- port_ok it port ;;
  if negb ok then Ok false else
  es <- get_list it entities ;; es <- set_of es ;;
  if meets POD_ENTITIES es then Ok true else
  eps <- get_list it endpoints ;;
  anyM (λ s, peer_selects s ns peer) eps.

Definition ingress_admits (rule ns src : val) (port : option Z) : result bool :=
  ins <- get_list rule "ingress" ;;
  anyM (item_admits "fromEntities" "fromEndpoints" ns src port) ins.

Definition egress_reaches (rule ns dst : val) (port : option Z) : result bool :=
  es <- get_list rule "egress" ;;
  anyM (item_admits "toEntities" "toEndpoints" ns dst port) es.

Definition egress_world (rule : val) : result bool :=
  es <- get_list rule "egress" ;;
  anyM (λ e,
    ents <- get_list e "toEntities" ;; ents <- set_of ents ;;
    if meets WORLD_ENTITIES ents then Ok true else
    cidrs <- get_list e "toCIDR" ;;
    sets <- get_list e "toCIDRSet" ;;
    more <- mapR (λ c, get c "cidr") sets ;;
    all <- set_of (cidrs ++ more) ;;
    Ok (meets OPEN_CIDRS all)) es.

Definition egress_fqdn (rule : val) : result bool :=
  es <- get_list rule "egress" ;;
  anyM (λ e, f <- get e "toFQDNs" ;; Ok (truthy f)) es.

Definition egress_internet (rule : val) : result bool :=
  w <- egress_world rule ;;
  if (w : bool) then Ok true else egress_fqdn rule.

(** Both sums of [reaches] are computed before the conjunction. *)
Definition reaches (all_rules : list (val * val * val)) (src dst : val) (port : option Z)
    : result bool :=
  out <- anyM (λ '(_, r, ns),
    s <- rule_selects r ns src ;; if (s : bool) then egress_reaches r ns dst port else Ok false) all_rules ;;
  inn <- anyM (λ '(_, r, ns),
    s <- rule_selects r ns dst ;; if (s : bool) then ingress_admits r ns src port else Ok false) all_rules ;;
  Ok (out && inn).

(** ** Typed policies

    What a policy of the chart holds, when each field has the type that the
    Cilium API gives it, and the document it is written as. *)
Inductive operator := In | NotIn | Exists | DoesNotExist.
Definition operator_text (o : operator) : string :=
  match o with
  | In => "In" | NotIn => "NotIn" | Exists => "Exists" | DoesNotExist => "DoesNotExist"
  end.

Record expr := Expr { e_key : string; e_op : operator; e_values : list string }.
Record selector := Selector {
  match_labels : list (string * string);
  match_exprs : list expr }.
(** One item of [ingress] or [egress]. *)
Record peer_item := PeerItem {
  i_entities : list string;
  i_endpoints : list selector;
  i_ports : list (list string) }.
Record rule := Rule {
  r_endpoints : selector;
  r_ingress : list peer_item;
  r_egress : list peer_item }.
Record policy := Policy {
  p_clusterwide : bool;
  p_namespace : string;
  p_rules : list rule }.

Definition expr_val (e : expr) : val :=
  VDict [("key", VStr (e_key e)); ("operator", VStr (operator_text (e_op e)));
         ("values", strs (e_values e))].
Definition selector_val (s : selector) : val :=
  VDict [("matchLabels", VDict (prod_map id VStr <$> match_labels s));
         ("matchExpressions", VList (expr_val <$> match_exprs s))].
Definition ports_val (ps : list string) : val :=
  VDict [("ports", VList ((λ p, VDict [("port", VStr p)]) <$> ps))].
Definition item_val (entities endpoints : string) (i : peer_item) : val :=
  VDict [(entities, strs (i_entities i)); (endpoints, VList (selector_val <$> i_endpoints i));
         ("toPorts", VList (ports_val <$> i_ports i))].
Definition rule_val (r : rule) : val :=
  VDict [("endpointSelector", selector_val (r_endpoints r));
         ("ingress", VList (item_val "fromEntities" "fromEndpoints" <$> r_ingress r));
         ("egress", VList (item_val "toEntities" "toEndpoints" <$> r_egress r))].
Definition policy_val (p : policy) : val :=
  VDict [("kind", VStr (if p_clusterwide p then "CiliumClusterwideNetworkPolicy"
                        else "CiliumNetworkPolicy"));
         ("metadata", VDict [("namespace", VStr (p_namespace p))]);
         ("specs", VList (rule_val <$> p_rules p))].
Definition labels_val (m : gmap string string) : val :=
  VDict (prod_map id VStr <$> map_to_list m).

(** ** The meaning of a policy *)

(** A label expression, on the labels of an endpoint. *)
Definition expr_holds (m : gmap string string) (e : expr) : Prop :=
  let k := norm_key (e_key e) in
  match e_op e with
  | In => ∃ v, m !! k = Some v ∧ v ∈ e_values e
  | NotIn => ∀ v, m !! k = Some v → v ∉ e_values e
  | Exists => is_Some (m !! k)
  | DoesNotExist => m !! k = None
  end.

(** A selector is the conjunction of its labels and expressions. *)
Definition selector_matches (m : gmap string string) (s : selector) : Prop :=
  (∀ e, e ∈ match_exprs s → expr_holds m e) ∧
  (∀ k v, (k, v) ∈ match_labels s → m !! norm_key k = Some v).

Definition selector_keys (s : selector) : list string :=
  (match_labels s).*1 ++ (e_key <$> match_exprs s).

(** A selector that names no namespace means the namespace of its policy. *)
Definition scoped_matches (ns : option string) (m : gmap string string) (s : selector) : Prop :=
  selector_matches m s ∧
  ∀ n, ns = Some n → NS_KEY ∉ norm_key <$> selector_keys s → m !! NS_KEY = Some n.

Definition ports_admit (ps : list (list string)) (port : Z) : Prop :=
  ps = [] ∨ ∃ l, l ∈ ps ∧ str_of_int port ∈ l.

Definition item_allows (ns : option string) (peer : gmap string string) (port : option Z)
    (i : peer_item) : Prop :=
  (∀ p, port = Some p → ports_admit (i_ports i) p) ∧
  ((∃ e, e ∈ i_entities i ∧ e ∈ POD_ENTITIES) ∨
   ∃ s, s ∈ i_endpoints i ∧ scoped_matches ns peer s).

(** A namespaced policy with no namespace is in the namespace of the release. *)
Definition policy_ns (release : string) (p : policy) : option string :=
  if p_clusterwide p then None
  else Some (if str_eqb (p_namespace p) "" then release else p_namespace p).

(** One side of a flow: a rule that selects [self] and has an item that
    allows [peer]. *)
Definition side_allows (release : string) (dir : rule → list peer_item) (ps : list policy)
    (self peer : gmap string string) (port : option Z) : Prop :=
  ∃ p r, p ∈ ps ∧ r ∈ p_rules p ∧
    scoped_matches (policy_ns release p) self (r_endpoints r) ∧
    ∃ i, i ∈ dir r ∧ item_allows (policy_ns release p) peer port i.

Definition flow_allowed (release : string) (ps : list policy)
    (src dst : gmap string string) (port : option Z) : Prop :=
  side_allows release r_egress ps src dst port ∧
  side_allows release r_ingress ps dst src port.

#[global] Instance expr_holds_dec m e : Decision (expr_holds m e).
Proof.
  unfold expr_holds. destruct (e_op e); [| |apply _..];
    (destruct (m !! norm_key (e_key e)) as [v|];
      [destruct (decide (v ∈ e_values e))|]); first [left; naive_solver|right; naive_solver].
Defined.

(** ** The module decides the meaning *)

Lemma alist_fmap_str k (l : list (string * string)) :
  alist_get k (prod_map id VStr <$> l) = VStr <$> alist_get k l.
Proof.
  induction l as [|[k' v] l IH]; cbn; [done|]. by destruct (str_eqb k k').
Qed.

Lemma alist_map_to_list k (m : gmap string string) : alist_get k (map_to_list m) = m !! k.
Proof.
  destruct (m !! k) as [v|] eqn:E.
  - apply alist_NoDup; [apply NoDup_fst_map_to_list|]. by apply elem_of_map_to_list.
  - apply alist_None. intros ([k' v] & -> & Hin)%list_elem_of_fmap.
    apply elem_of_map_to_list in Hin. cbn in E. congruence.
Qed.

Lemma get_labels (m : gmap string string) k :
  get (labels_val m) k = Ok (default VNone (VStr <$> m !! k)).
Proof. cbn. by rewrite alist_fmap_str, alist_map_to_list. Qed.

Lemma mem_labels (m : gmap string string) k :
  computes (val_in (VStr k) (labels_val m)) (is_Some (m !! k)).
Proof.
  apply computes_Ok. rewrite alist_fmap_str, alist_map_to_list.
  destruct (m !! k); cbn; split; by (done || eexists || intros []).
Qed.

Lemma label_in_values (m : gmap string string) k (l : list string) :
  computes (x <- get_v (labels_val m) (VStr k) ;; val_in x (strs l))
           (∃ v, m !! k = Some v ∧ v ∈ l).
Proof.
  cbn. rewrite alist_fmap_str, alist_map_to_list.
  destruct (m !! k) as [v|]; cbn; apply computes_Ok.
  - rewrite existsb_py_eq_str, elem_strs. naive_solver.
  - split; [|naive_solver].
    rewrite existsb_elem_of. intros (x & (y & -> & _)%list_elem_of_fmap & ?). done.
Qed.

(** [expr_rejects] on a typed expression, by its operator. *)
Lemma expr_rejects_unfold labels k op (vs : list string) :
  expr_rejects labels (expr_val (Expr k op vs)) =
  match op with
  | In => x <- get_v labels (VStr (norm_key k)) ;; b <- val_in x (strs vs) ;; Ok (negb b)
  | NotIn => x <- get_v labels (VStr (norm_key k)) ;; val_in x (strs vs)
  | Exists => b <- val_in (VStr (norm_key k)) labels ;; Ok (negb b)
  | DoesNotExist => val_in (VStr (norm_key k)) labels
  end.
Proof. by destruct op, vs. Qed.

Lemma expr_rejects_spec (m : gmap string string) (e : expr) :
  computes (expr_rejects (labels_val m) (expr_val e)) (¬ expr_holds m e).
Proof.
  destruct e as [k op vs]. rewrite expr_rejects_unfold. unfold expr_holds; cbn [e_op e_key e_values].
  destruct op.
  - apply computes_not_bind, label_in_values.
  - eapply computes_iff; [|apply label_in_values].
    destruct (m !! norm_key k) as [v|]; [|naive_solver].
    destruct (decide (v ∈ vs)); naive_solver.
  - apply computes_not, mem_labels.
  - eapply computes_iff; [|apply mem_labels].
    destruct (m !! norm_key k); [|naive_solver]. split; [done|]. intros _. by eexists.
Qed.

Lemma selects_unfold (s : selector) labels :
  selects (selector_val s) labels =
  rejected <- anyM (expr_rejects labels) (expr_val <$> match_exprs s) ;;
  if rejected : bool then Ok false else
  allM (λ '(k, v), x <- get labels (norm_key k) ;; Ok (py_eq x v))
       (prod_map id VStr <$> match_labels s).
Proof. by destruct s as [[|] [|]]. Qed.

(** [selects] decides whether a selector matches the labels of an endpoint. *)
Lemma selects_computes (m : gmap string string) (s : selector) :
  computes (selects (selector_val s) (labels_val m)) (selector_matches m s).
Proof.
  rewrite selects_unfold, anyM_fmap, allM_fmap.
  eapply computes_iff; [|apply computes_unless;
    [apply computes_anyM; intros; apply expr_rejects_spec|intros _;
     apply (computes_allM _ (λ '(k, v), m !! norm_key k = Some v)); intros [k v] _]].
  - split; intros [H1 H2]; split.
    + intros e He. destruct (decide (expr_holds m e)) as [|]; [done|]. destruct H1; eauto.
    + intros k v Hkv. exact (H2 _ Hkv).
    + intros (e & He & Hn). by apply Hn, H1.
    + intros [k v] Hkv. by apply H2.
  - cbn [prod_map]. rewrite get_labels. cbn. apply computes_Ok.
    rewrite py_eq_str_r. destruct (m !! norm_key k); naive_solver.
Qed.

Definition ns_val (o : option string) : val := from_option VStr VNone o.

Lemma names_namespace_computes (s : selector) :
  computes (names_namespace (selector_val s)) (NS_KEY ∈ norm_key <$> selector_keys s).
Proof.
  assert (names_namespace (selector_val s) =
    anyM (λ k, n <- norm k ;; Ok (py_eq n (VStr NS_KEY))) (VStr <$> selector_keys s)) as ->.
  { unfold names_namespace, selector_val. destruct s as [ml es]; py_simpl.
    rewrite (mapR_pure _ (λ e, fld e "key")).
    2:{ intros x (e & -> & _)%list_elem_of_fmap. done. }
    cbn. unfold selector_keys; cbn. f_equal. rewrite fmap_app. f_equal.
    - induction ml as [|[k v] ml IH]; cbn; [done|]. by f_equal.
    - induction es as [|e es IH]; cbn; [done|]. by f_equal. }
  rewrite anyM_fmap.
  eapply computes_iff; [|apply (computes_anyM _ (λ k, norm_key k = NS_KEY))].
  - rewrite list_elem_of_fmap. split; intros (x & ? & ?); exists x; auto.
  - intros k _. apply computes_Ok. rewrite py_eq_str_r.
    split; [by intros [= ->]|by intros ->].
Qed.

Lemma peer_selects_computes (s : selector) ns (m : gmap string string) :
  computes (peer_selects (selector_val s) (ns_val ns) (labels_val m)) (scoped_matches ns m s).
Proof.
  unfold peer_selects, scoped_matches.
  set (named := NS_KEY ∈ norm_key <$> selector_keys s).
  eapply computes_iff;
    [|apply (computes_unless _ _ (∃ n, ns = Some n ∧ ¬ named ∧ m !! NS_KEY ≠ Some n));
      [|intros _; apply selects_computes]].
  - split; intros [H1 H2].
    + split; [done|]. intros n -> Hn.
      destruct (decide (m !! NS_KEY = Some n)); [done|]. destruct H1; eauto.
    + split; [|done]. intros (n & -> & Hn & Hne). by apply Hne, H2.
  - destruct ns as [n|]; cbn [is_none ns_val from_option]; [|apply computes_Ok; naive_solver].
    eapply computes_iff; [|apply (computes_unless _ _ named (m !! NS_KEY ≠ Some n));
      [apply names_namespace_computes|intros _]].
    + split; [intros [H1 H2]; eauto|]. by intros (n' & [= <-] & ? & ?).
    + rewrite get_labels. cbn. apply computes_Ok. rewrite negb_true_iff.
      destruct (m !! NS_KEY) as [v|]; cbn; [|done].
      rewrite <- not_true_iff_false, py_eq_str_str, str_eqb_eq. naive_solver.
Qed.

Lemma rule_selects_computes (r : rule) ns (m : gmap string string) :
  computes (rule_selects (rule_val r) (ns_val ns) (labels_val m))
           (scoped_matches ns m (r_endpoints r)).
Proof. apply peer_selects_computes. Qed.

Section items.
Context (entities endpoints : string).
Hypothesis Hfields : NoDup [entities; endpoints; "toPorts"].

Lemma item_get (i : peer_item) k v :
  (k, v) ∈ [(entities, strs (i_entities i)); (endpoints, VList (selector_val <$> i_endpoints i));
            ("toPorts", VList (ports_val <$> i_ports i))] →
  get (item_val entities endpoints i) k = Ok v.
Proof using Hfields.
  intros H. unfold item_val, get. erewrite alist_NoDup; [done|exact Hfields|exact H].
Qed.

Lemma port_ok_computes (i : peer_item) port :
  computes (port_ok (item_val entities endpoints i) port)
           (∀ p, port = Some p → ports_admit (i_ports i) p).
Proof using Hfields.
  unfold port_ok. destruct port as [p|]; [|by apply computes_Ok].
  rewrite (item_get i "toPorts" (VList (ports_val <$> i_ports i))) by set_solver.
  cbn. destruct (i_ports i) as [|l0 ls0] eqn:E.
  { apply computes_Ok. unfold ports_admit. naive_solver. }
  cbn [truthy fmap list_fmap negb]. rewrite <- (fmap_cons ports_val).
  rewrite anyM_fmap.
  eapply computes_iff; [|apply (computes_anyM _ (λ l, str_of_int p ∈ l))].
  - unfold ports_admit. naive_solver.
  - intros l _. unfold get_list; cbn. rewrite por_list_nil. cbn. rewrite anyM_fmap.
    eapply computes_iff; [|apply (computes_anyM _ (λ x, x = str_of_int p))]; [naive_solver|].
    intros x _. apply computes_Ok. apply str_eqb_eq.
Qed.

Lemma item_admits_computes (i : peer_item) ns (peer : gmap string string) port :
  computes (item_admits entities endpoints (ns_val ns) (labels_val peer) port
              (item_val entities endpoints i))
           (item_allows ns peer port i).
Proof using Hfields.
  unfold item_admits.
  destruct (port_ok_computes i port) as (ok & -> & Hok). cbn [rbind].
  destruct ok; cbn [negb]; [|apply computes_Ok; unfold item_allows; naive_solver].
  unfold get_list.
  rewrite (item_get i entities (strs (i_entities i))) by set_solver. cbn [rbind].
  rewrite por_strs. cbn [py_iter rbind strs]. unfold set_of.
  assert (forallb hashable (VStr <$> i_entities i) = true) as ->.
  { apply forallb_elem_of. by intros x (y & -> & _)%list_elem_of_fmap. }
  cbn [rbind]. destruct (meets POD_ENTITIES _) eqn:Em.
  - apply meets_true in Em as (e & ? & He%elem_strs). apply computes_Ok.
    unfold item_allows. split; [|done]. intros _. split; [by apply Hok|]. left. eauto.
  - rewrite (item_get i endpoints (VList (selector_val <$> i_endpoints i))) by set_solver.
    cbn [rbind]. rewrite por_list_nil. cbn [py_iter rbind]. rewrite anyM_fmap.
    eapply computes_iff; [|apply (computes_anyM _ (scoped_matches ns peer)); intros s _;
      apply peer_selects_computes].
    unfold item_allows. split; [intros ?; split; [by apply Hok|by right]|].
    intros [_ [(e & He & Hp)|?]]; [|done].
    assert (meets POD_ENTITIES (VStr <$> i_entities i) = true) by
      (apply meets_true; exists e; by rewrite elem_strs). congruence.
Qed.
End items.

Lemma NoDup_ingress : NoDup ["fromEntities"; "fromEndpoints"; "toPorts"].
Proof. by apply (bool_decide_unpack _). Qed.
Lemma NoDup_egress : NoDup ["toEntities"; "toEndpoints"; "toPorts"].
Proof. by apply (bool_decide_unpack _). Qed.

Lemma ingress_admits_computes (r : rule) ns (src : gmap string string) port :
  computes (ingress_admits (rule_val r) (ns_val ns) (labels_val src) port)
           (∃ i, i ∈ r_ingress r ∧ item_allows ns src port i).
Proof.
  unfold ingress_admits, get_list; cbn. rewrite por_list_nil. cbn. rewrite anyM_fmap.
  apply computes_anyM. intros i _. apply item_admits_computes, NoDup_ingress.
Qed.

Lemma egress_reaches_computes (r : rule) ns (dst : gmap string string) port :
  computes (egress_reaches (rule_val r) (ns_val ns) (labels_val dst) port)
           (∃ i, i ∈ r_egress r ∧ item_allows ns dst port i).
Proof.
  unfold egress_reaches, get_list; cbn. rewrite por_list_nil. cbn. rewrite anyM_fmap.
  apply computes_anyM. intros i _. apply item_admits_computes, NoDup_egress.
Qed.

(** The rules of typed policies, each with its policy. *)
Definition typed_rules (ps : list policy) : list (policy * rule) :=
  flat_map (λ p, pair p <$> p_rules p) ps.
Definition triple (release : string) (pr : policy * rule) : val * val * val :=
  (policy_val pr.1, rule_val pr.2, ns_val (policy_ns release pr.1)).

Lemma rules_of_typed (p : policy) : rules_of (policy_val p) = Ok (rule_val <$> p_rules p).
Proof. unfold rules_of, policy_val. by py_simpl. Qed.

Lemma scope_of_typed release (p : policy) kind :
  get (policy_val p) "kind" = Ok kind →
  in_tuple kind KINDS = true ∧
  scope_of kind (policy_val p) (VStr release) = Ok (ns_val (policy_ns release p)).
Proof.
  destruct p as [[] ns rs]; cbn; intros [= <-]; (split; [done|]); [done|].
  unfold scope_of, policy_val, policy_ns. py_simpl.
  unfold por. cbn. by destruct (str_eqb ns "").
Qed.

Lemma rules_typed release (ps : list policy) :
  rules (policy_val <$> ps) (VStr release) = Ok (triple release <$> typed_rules ps).
Proof.
  unfold rules, typed_rules. induction ps as [|p ps IH]; [done|].
  rewrite fmap_cons. cbn [flatM]. rewrite IH. cbn [flat_map]. rewrite fmap_app.
  destruct (get (policy_val p) "kind") as [kind|] eqn:E; [|by destruct p].
  destruct (scope_of_typed release p kind E) as [Hk Hs].
  cbn [rbind]. rewrite Hk. cbn [negb]. rewrite Hs, rules_of_typed. cbn [rbind].
  by rewrite <- !list_fmap_compose.
Qed.

Lemma typed_rules_elem (ps : list policy) p r :
  (p, r) ∈ typed_rules ps ↔ p ∈ ps ∧ r ∈ p_rules p.
Proof.
  unfold typed_rules. rewrite list_elem_of_In, in_flat_map. split.
  - intros (p' & Hp%list_elem_of_In & (r' & [= -> ->] & ?)%list_elem_of_In%list_elem_of_fmap). eauto.
  - intros (? & ?). exists p. split; [by apply list_elem_of_In|].
    apply list_elem_of_In, list_elem_of_fmap. eauto.
Qed.

(** One side of [reaches], for either direction. *)
Lemma side_computes release (dir : rule → list peer_item)
    (f : val → val → val → option Z → result bool) (ps : list policy)
    (self peer : gmap string string) port :
  (∀ r ns, computes (f (rule_val r) (ns_val ns) (labels_val peer) port)
                    (∃ i, i ∈ dir r ∧ item_allows ns peer port i)) →
  computes (anyM (λ '(_, r, ns),
              s <- rule_selects r ns (labels_val self) ;;
              if s : bool then f r ns (labels_val peer) port else Ok false)
              (triple release <$> typed_rules ps))
           (side_allows release dir ps self peer port).
Proof.
  intros Hf. rewrite anyM_fmap.
  eapply computes_iff; [|apply (computes_anyM _ (λ '(p, r),
    scoped_matches (policy_ns release p) self (r_endpoints r) ∧
    ∃ i, i ∈ dir r ∧ item_allows (policy_ns release p) peer port i))].
  - unfold side_allows. split.
    + intros ([p r] & ?%typed_rules_elem & ?). exists p, r. tauto.
    + intros (p & r & ? & ? & ?). exists (p, r). by rewrite typed_rules_elem.
  - intros [p r] _. apply computes_and; [apply rule_selects_computes|auto].
Qed.

Lemma reaches_computes release (ps : list policy) (src dst : gmap string string) port :
  computes (rs <- rules (policy_val <$> ps) (VStr release) ;;
            reaches rs (labels_val src) (labels_val dst) port)
           (flow_allowed release ps src dst port).
Proof.
  rewrite rules_typed. cbn. unfold reaches.
  destruct (side_computes release r_egress egress_reaches ps src dst port) as (out & -> & Ho).
  { intros. apply egress_reaches_computes. }
  destruct (side_computes release r_ingress ingress_admits ps dst src port) as (inn & -> & Hi).
  { intros. apply ingress_admits_computes. }
  apply computes_Ok. rewrite andb_true_iff. unfold flow_allowed. tauto.
Qed.
