(* ===== verification/NetworkPeers.v ===== *)
(** * scripts/check-network-peers.py: each peer and each outside host is narrow

    The guard reads the Cilium policies of each golden render and reports an
    ingress peer that selects pods in any namespace, an egress rule with no
    fixed port, and a host that reaches each bucket of S3. *)
From stdpp Require Import gmap sorting.
From S2P Require Import Prelude PyStr PyVal.
From S2P Require Cilium.
From Stdlib Require Import Ascii.

Definition KINDS : list string := ["CiliumNetworkPolicy"; "CiliumClusterwideNetworkPolicy"].
Definition NS_KEY : string := "io.kubernetes.pod.namespace".
Definition NS_LABELS : string := "io.cilium.k8s.namespace.labels.".
Definition S3_ANY : list string :=
  ["s3.amazonaws.com"; "*.s3.amazonaws.com"; "s3.*.amazonaws.com"; "*.s3.*.amazonaws.com"].

Definition norm_key (key : string) : string :=
  match split1 ":" key with Some (_, k) => k | None => key end.

(** [norm] on a value that the code passes from a document. *)
Definition norm (key : val) : result val :=
  match key with
  | VStr s => Ok (VStr (norm_key s))
  | _ => b <- str_in ":" key ;; if (b : bool) then Raise AttributeError else Ok key
  end.

Definition rules (doc : val) : result (list val) :=
  s <- get doc "spec" ;;
  head <- (if truthy s then x <- item doc "spec" ;; Ok [x] else Ok []) ;;
  tail <- get_list doc "specs" ;;
  Ok (head ++ tail).

(** [k.startswith(NS_LABELS)] *)
Definition is_ns_label (k : val) : result bool :=
  s <- as_str k ;; Ok (startswith s NS_LABELS).

Definition any_namespace (peer : val) (clusterwide : bool) : result bool :=
  ml <- get_list peer "matchLabels" ;;
  keys <- mapR norm ml ;;
  es <- get_list peer "matchExpressions" ;;
  exprs <- mapR (λ e, k <- get_default e "key" (VStr "") ;; norm k) es ;;
  exists_ <- anyM (λ e,
    k <- get_default e "key" (VStr "") ;; n <- norm k ;;
    if py_eq n (VStr NS_KEY) then o <- get e "operator" ;; Ok (py_eq o (VStr "Exists"))
    else Ok false) es ;;
  let has_key := existsb (py_eq (VStr NS_KEY)) keys in
  names_ns <- orR (Ok has_key) (anyM is_ns_label (keys ++ exprs)) ;;
  let fixed_free := andR (Ok (exists_ && negb has_key)) (notR (anyM is_ns_label keys)) in
  if clusterwide then orR (Ok (negb names_ns)) fixed_free else fixed_free.

Definition last2 (l : list string) : list string := drop (length l - 2) l.

Definition any_bucket (host : val) : result bool :=
  known <- in_set host S3_ANY ;;
  if known || py_eq host (VStr "*") then Ok true else
  h <- as_str host ;;
  if bool_decide (last2 (str_split h ".") ≠ ["amazonaws"; "com"]) then Ok false else
  let first := default "" (head (str_splitn 1 "." h)) in
  Ok (contains "*" first || str_eqb first "s3").

(** An exemption: the policy name and a label of the peer, with the reason. *)
Definition exemption : Type := (string * string) * string.

(** [out[key] = reason] *)
Fixpoint set_exempt (key : string * string) (reason : string) (l : list exemption)
    : list exemption :=
  match l with
  | [] => [(key, reason)]
  | (k, r) :: l => if bool_decide (k = key) then (k, reason) :: l else (k, r) :: set_exempt key reason l
  end.

(** The lines of the exemption file; [None] when the file does not exist. *)
Definition load_exempt (file : option (list string)) : list exemption :=
  foldl (λ out line,
    let line := strip (default "" (head (str_split line "#"))) in
    if str_eqb line "" then out else
    match str_splitn 2 " " line ++ [""; ""] with
    | policy :: label :: reason :: _ => set_exempt (policy, label) reason out
    | _ => out
    end) [] (default [] file).

(** The exemptions of the policy [name] that a label of [peer] uses. *)
Definition hits (exempt : list exemption) (name peer : val) : result (list (string * string)) :=
  filterM (λ k,
    if py_eq (VStr k.1) name then
      ml <- get_dict peer "matchLabels" ;;
      kvs <- items ml ;;
      Ok (str_mem k.2 (map (λ '(kk, vv), cat [kk; "="; py_str vv]) kvs))
    else Ok false) exempt.*1.

(** Findings and the exemptions they used, in the order of the loops. *)
Definition verdict : Type := list string * list (string * string).
Definition vcat (a b : verdict) : verdict := (a.1 ++ b.1, a.2 ++ b.2).
Definition flatV {A} (f : A → result verdict) (l : list A) : result verdict :=
  vs <- mapR f l ;; Ok (foldr vcat ([], []) vs).

Definition judge_peer (exempt : list exemption) (clusterwide : bool) (name peer : val)
    : result verdict :=
  wide <- any_namespace peer clusterwide ;;
  if negb wide then Ok ([], []) else
  hit <- hits exempt name peer ;;
  if nonempty hit then Ok ([], hit) else
  ml <- get peer "matchLabels" ;;
  Ok ([cat [py_str name; ": an ingress peer selects pod labels "; py_str ml; " in any namespace"]], []).

(** A port with no number, the number 0, or a range. *)
Definition port_open (p : val) : result bool :=
  port <- get p "port" ;;
  if negb (truthy port) || str_eqb (py_str port) "0" then Ok true else get_truthy p "endPort".

Definition judge_host (name f : val) : result (list string) :=
  n <- get f "matchName" ;;
  host <- (if truthy n then Ok n else p <- get f "matchPattern" ;; Ok (por p (VStr ""))) ;;
  if negb (truthy host) then Ok [cat [py_str name; ": a toFQDNs entry names no host: "; py_str f]] else
  wide <- any_bucket host ;;
  if (wide : bool) then
    Ok [cat [py_str name; ": "; py_str host; " reaches each bucket of S3, not the buckets of the install"]]
  else Ok [].

Definition judge_egress (name e : val) : result (list string) :=
  fqdns <- get e "toFQDNs" ;; cidr <- get e "toCIDR" ;; sets <- get e "toCIDRSet" ;;
  let outside := por (por fqdns cidr) sets in
  if negb (truthy outside) then Ok [] else
  tps <- get_list e "toPorts" ;;
  ports <- flatM (λ tp, get_list tp "ports") tps ;;
  open <- orR (Ok (negb (nonempty ports))) (anyM port_open ports) ;;
  fs <- get_list e "toFQDNs" ;;
  hosts <- flatM (judge_host name) fs ;;
  Ok ((if open : bool then
         [cat [py_str name; ": an egress rule to "; py_str outside; " opens no fixed port"]]
       else []) ++ hosts).

Definition judge_rule (exempt : list exemption) (clusterwide : bool) (name r : val)
    : result verdict :=
  ins <- get_list r "ingress" ;;
  a <- flatV (λ i, peers <- get_list i "fromEndpoints" ;;
                   flatV (judge_peer exempt clusterwide name) peers) ins ;;
  es <- get_list r "egress" ;;
  b <- flatM (judge_egress name) es ;;
  Ok (vcat a (b, [])).

(** [d] is a Cilium policy: a dict with one of the two kinds. *)
Definition is_policy (d : val) : bool := is_dict d && in_tuple (fld d "kind") KINDS.

Definition judge_doc (exempt : list exemption) (d : val) : result verdict :=
  if negb (is_policy d) then Ok ([], []) else
  name <- meta_name d ;;
  rs <- rules d ;;
  flatV (judge_rule exempt (py_eq (fld d "kind") (VStr "CiliumClusterwideNetworkPolicy")) name) rs.

Definition judge (docs : list val) (exempt : list exemption) : result verdict :=
  flatV (judge_doc exempt) docs.

(** The golden renders: the base name of each file and its documents. *)
Definition audit (goldens : list (string * list val)) (file : option (list string))
    : result (list string * nat) :=
  let exempt := load_exempt file in
  let renders := filter (λ g, existsb is_policy g.2 = true) goldens in
  found <- mapR (λ g,
    v <- judge (List.filter is_dict g.2) exempt ;;
    Ok (map (λ x, cat [g.1; ": "; x]) v.1, v.2)) renders ;;
  let used := concat (map snd found) in
  let stale := sorted_pairs (filter (λ k, k ∉ used) exempt.*1) in
  let reasons k := default "" (snd <$> find (λ e, bool_decide (e.1 = k)) exempt) in
  sees <- anyM (λ g, anyM (λ d,
    if is_policy d then rs <- rules d ;;
      anyM (λ r, es <- get_list r "egress" ;; anyM (λ e, get_truthy e "toFQDNs") es) rs
    else Ok false) g.2) goldens ;;
  Ok (concat (map fst found)
      ++ map (λ k, cat ["stale exemption, delete the line: "; k.1; " "; k.2; " ("; reasons k; ")"]) stale
      ++ (if sees : bool then [] else ["no golden render holds a toFQDNs rule: this check is blind"]),
      length renders).

(** ** The self-test of the script

    Its fixtures and its verdicts, with exit code 0 or 1. *)
Definition cnp (ingress egress : list val) : val :=
  VDict [("kind", VStr "CiliumNetworkPolicy"); ("metadata", VDict [("name", VStr "p")]);
         ("spec", VDict [("endpointSelector", VDict []); ("ingress", VList ingress);
                         ("egress", VList egress)])].
Definition https : val :=
  VList [VDict [("ports", VList [VDict [("port", VStr "443"); ("protocol", VStr "TCP")]])]].
(** [{"toFQDNs": [entry], "toPorts": https}] *)
Definition fqdn (entry : list (string * val)) : val :=
  VDict [("toFQDNs", VList [VDict entry]); ("toPorts", https)].
Definition exists_expr : val :=
  VList [VDict [("key", VStr (cat ["k8s:"; NS_KEY])); ("operator", VStr "Exists")]].
Definition good : list val :=
  [cnp [VDict [("fromEndpoints", VList [VDict [("matchLabels",
      VDict [("k8s:io.kubernetes.pod.namespace", VStr "cnpg-system");
             ("app.kubernetes.io/name", VStr "cloudnative-pg")])]])]] [];
   cnp [VDict [("fromEndpoints", VList [VDict [
      ("matchLabels", VDict [(cat ["k8s:"; NS_LABELS; "team"], VStr "a"); ("app", VStr "x")]);
      ("matchExpressions", exists_expr)]])]] [];
   cnp [] [fqdn [("matchName", VStr "bucket.s3.amazonaws.com")]]].
Definition wide : val :=
  cnp [VDict [("fromEndpoints", VList [VDict [
    ("matchLabels", VDict [("app.kubernetes.io/name", VStr "cloudnative-pg")]);
    ("matchExpressions", exists_expr)]])]] [].
Definition failing : list val :=
  [wide;
   cnp [] [VDict [("toFQDNs", VList [VDict [("matchName", VStr "api.example.com")]])]];
   cnp [] [VDict [("toFQDNs", VList [VDict [("matchName", VStr "api.example.com")]]);
                  ("toPorts", VList [VDict [("ports", VList [VDict [("port", VStr "1");
                      ("endPort", VInt 65535); ("protocol", VStr "TCP")]])]])]];
   cnp [] [VDict [("toCIDR", VList [VStr "10.0.0.1/32"])]];
   cnp [] [fqdn [("matchPattern", VStr "*.s3.amazonaws.com")]];
   cnp [] [fqdn [("matchPattern", VStr "*.s3.us-east-1.amazonaws.com")]];
   cnp [] [fqdn [("matchName", VStr "s3.us-east-1.amazonaws.com")]];
   cnp [] [fqdn [("matchPattern", VStr "*")]];
   cnp [] [fqdn []];
   dict_with (cnp [VDict [("fromEndpoints", VList [VDict [("matchLabels",
     VDict [("app", VStr "x")])]])]] []) "kind" (VStr "CiliumClusterwideNetworkPolicy")].

Definition selftest : result Z :=
  g <- judge good [] ;;
  if nonempty g.1 then Ok 1%Z else
  w <- judge [wide] [(("p", "app.kubernetes.io/name=cloudnative-pg"), "r")] ;;
  if nonempty w.1 then Ok 1%Z else
  u <- judge (take 1 good) [(("p", "app=gone"), "r")] ;;
  if nonempty u.2 then Ok 1%Z else
  bad <- anyM (λ doc, v <- judge [doc] [] ;; Ok (negb (length v.1 =? 1))) failing ;;
  Ok (if bad : bool then 1 else 0)%Z.

(** The self-test of the guard *)
Lemma networkpeers_selftest : selftest = Ok 0%Z.
Proof. vm_compute. reflexivity. Qed.

(** ** What the guard promises *)

(** *** Hosts of S3 *)

Lemma last2_Some (l : list string) a b : last2 l = [a; b] ↔ ∃ k, l = k ++ [a; b].
Proof.
  unfold last2. split.
  - intros H. exists (take (length l - 2) l). by rewrite <- H, take_drop.
  - intros [k ->]. rewrite length_app. cbn.
    replace (length k + 2 - 2)%nat with (length k) by lia. apply drop_app_length.
Qed.

(** The host is amazonaws.com or a name under it. *)
Definition under_amazonaws (h : string) : Prop :=
  h = "amazonaws.com" ∨ ∃ t, h = t +:+ ".amazonaws.com".

Lemma last2_amazonaws h : last2 (str_split h ".") = ["amazonaws"; "com"] ↔ under_amazonaws h.
Proof.
  rewrite last2_Some. split.
  - intros [k Hk]. assert (h = str_join "." (k ++ ["amazonaws"; "com"])) as ->.
    { by rewrite <- Hk, str_join_split. }
    destruct k as [|x k]; [by left|right]. exists (str_join "." (x :: k)).
    by apply (str_join_app "."%char).
  - intros [->|[t ->]]; [by exists []|]. exists (str_split t ".").
    exact (str_split_app "."%char t "amazonaws.com").
Qed.

(** The text before the first dot. *)
Definition first_label (h : string) : string := (str_partition h ".").1.1.

Lemma first_label_splitn h : default "" (head (str_splitn 1 "." h)) = first_label h.
Proof. unfold first_label, str_partition. cbn. by destruct (split1 "." h) as [[]|]. Qed.

(** The host reaches each bucket of S3. *)
Definition reaches_each_bucket (h : string) : Prop :=
  h ∈ S3_ANY ∨ h = "*" ∨
  under_amazonaws h ∧ (contains "*" (first_label h) = true ∨ first_label h = "s3").

Lemma any_bucket_computes h : computes (any_bucket (VStr h)) (reaches_each_bucket h).
Proof.
  unfold any_bucket, in_set, reaches_each_bucket. cbn [hashable rbind in_tuple as_str].
  destruct (str_mem h S3_ANY || py_eq (VStr h) (VStr "*")) eqn:E.
  - apply computes_Ok. rewrite orb_true_iff, str_mem_elem, py_eq_str in E. naive_solver.
  - rewrite orb_false_iff, str_mem_false, <- not_true_iff_false, py_eq_str in E. destruct E as [E1 E2].
    rewrite first_label_splitn. case_bool_decide as Hl.
    + apply computes_Ok. rewrite <- last2_amazonaws. naive_solver.
    + apply computes_Ok. rewrite orb_true_iff, str_eqb_eq, <- last2_amazonaws.
      split; [|naive_solver]. intros H. right; right. by split.
Qed.

(** *** Peers of any namespace, on typed selectors *)

Section peers.
Implicit Types (s : Cilium.selector).

Definition label_keys s : list string := Cilium.norm_key <$> (Cilium.match_labels s).*1.
Definition expr_keys s : list string := (λ e, Cilium.norm_key (Cilium.e_key e)) <$> Cilium.match_exprs s.
Definition is_ns_key (k : string) : Prop := ∃ t, k = NS_LABELS +:+ t.

(** The selector asks for the namespace with [Exists], and no label of it
    fixes the namespace or a label of the namespace. *)
Definition namespace_free s : Prop :=
  (∃ e, e ∈ Cilium.match_exprs s ∧ Cilium.norm_key (Cilium.e_key e) = NS_KEY ∧ Cilium.e_op e = Cilium.Exists) ∧
  (NS_KEY ∉ label_keys s) ∧ ¬ (∃ k, k ∈ label_keys s ∧ is_ns_key k).
(** The selector names the namespace, or a label of it. *)
Definition names_ns s : Prop :=
  NS_KEY ∈ label_keys s ∨ ∃ k, k ∈ label_keys s ++ expr_keys s ∧ is_ns_key k.

Definition wide_peer s (clusterwide : bool) : Prop :=
  if clusterwide then ¬ names_ns s ∨ namespace_free s else namespace_free s.

Lemma computes_orR m n P Q : computes m P → computes n Q → computes (orR m n) (P ∨ Q).
Proof. intros. by apply computes_or. Qed.
Lemma computes_andR m n P Q : computes m P → computes n Q → computes (andR m n) (P ∧ Q).
Proof. intros. by apply computes_and. Qed.
Lemma computes_notR m P : computes m P → computes (notR m) (¬ P).
Proof. apply computes_not. Qed.

Lemma is_ns_label_computes (l : list string) :
  computes (anyM is_ns_label (VStr <$> l)) (∃ k, k ∈ l ∧ is_ns_key k).
Proof.
  rewrite anyM_fmap. apply computes_anyM. intros k _. apply computes_Ok, startswith_true.
Qed.

(** The test of [exists] on a typed expression. *)
Definition asks_exists (e : Cilium.expr) : bool :=
  str_eqb (norm_key (Cilium.e_key e)) NS_KEY
  && match Cilium.e_op e with Cilium.Exists => true | _ => false end.

Lemma any_namespace_unfold s (clusterwide : bool) :
  any_namespace (Cilium.selector_val s) clusterwide =
  let has_key := existsb (py_eq (VStr NS_KEY)) (VStr <$> label_keys s) in
  named <- orR (Ok has_key) (anyM is_ns_label (VStr <$> (label_keys s ++ expr_keys s))) ;;
  let free := andR (Ok (existsb asks_exists (Cilium.match_exprs s) && negb has_key))
                   (notR (anyM is_ns_label (VStr <$> label_keys s))) in
  if clusterwide then orR (Ok (negb named)) free else free.
Proof.
  destruct s as [ml es]. unfold any_namespace, Cilium.selector_val. py_simpl.
  rewrite (mapR_pure _ (λ k, match k with VStr k => VStr (norm_key k) | _ => k end)).
  2:{ by intros k ([k' v] & <- & _)%list_elem_of_In%in_map_iff. }
  cbn [rbind].
  rewrite (mapR_pure _ (λ e, VStr (norm_key (py_str (fld e "key"))))).
  2:{ by intros k (e & -> & _)%list_elem_of_fmap. }
  cbn [rbind]. rewrite anyM_fmap, (anyM_pure _ asks_exists).
  2:{ intros e _. unfold asks_exists. cbn.
      change (py_eq (VStr (norm_key (Cilium.e_key e))) (VStr NS_KEY))
        with (str_eqb (norm_key (Cilium.e_key e)) NS_KEY).
      destruct (str_eqb _ _); [|done]. by destruct (Cilium.e_op e). }
  cbn [rbind]. rewrite fmap_app. set (s := Cilium.Selector ml es).
  assert ((λ k, match k with VStr k => VStr (norm_key k) | _ => k end)
            <$> map (λ '(k, _), VStr k) (prod_map id VStr <$> ml) = VStr <$> label_keys s) as ->.
  { unfold label_keys, s. cbn [Cilium.match_labels]. induction ml as [|[k v] ml IH]; [done|].
    cbn. f_equal. exact IH. }
  assert ((λ e, VStr (norm_key (py_str (fld e "key")))) <$> (Cilium.expr_val <$> es) = VStr <$> expr_keys s) as ->.
  { unfold expr_keys, s. cbn [Cilium.match_exprs]. by rewrite <- !list_fmap_compose. }
  done.
Qed.

Lemma any_namespace_computes s (clusterwide : bool) :
  computes (any_namespace (Cilium.selector_val s) clusterwide) (wide_peer s clusterwide).
Proof.
  rewrite any_namespace_unfold. cbv zeta. set (has_key := existsb _ _).
  assert (has_key = true ↔ NS_KEY ∈ label_keys s) as Hk.
  { unfold has_key. by rewrite existsb_py_eq_str, elem_strs. }
  assert (existsb asks_exists (Cilium.match_exprs s) = true ↔
    ∃ e, e ∈ Cilium.match_exprs s ∧ Cilium.norm_key (Cilium.e_key e) = NS_KEY ∧ Cilium.e_op e = Cilium.Exists) as He.
  { rewrite existsb_elem_of. f_equiv. intros e. unfold asks_exists.
    rewrite andb_true_iff, str_eqb_eq. destruct (Cilium.e_op e); naive_solver. }
  assert (computes (andR (Ok (existsb asks_exists (Cilium.match_exprs s) && negb has_key))
                         (notR (anyM is_ns_label (VStr <$> label_keys s)))) (namespace_free s)) as Hfree.
  { eapply computes_iff; [|apply computes_andR;
      [apply computes_Ok, iff_refl|apply computes_notR, is_ns_label_computes]].
    unfold namespace_free. rewrite andb_true_iff, negb_true_iff, <- not_true_iff_false, Hk, He. tauto. }
  destruct (computes_orR (Ok has_key) (anyM is_ns_label (VStr <$> (label_keys s ++ expr_keys s))) _ _
    (computes_Ok _ _ Hk) (is_ns_label_computes _)) as (b & -> & Hb). cbn [rbind].
  destruct clusterwide; [|exact Hfree].
  apply computes_orR; [|exact Hfree]. apply computes_Ok. by rewrite negb_true_iff, <- not_true_iff_false, Hb.
Qed.
End peers.

(** *** A clean verdict *)

Lemma foldr_vcat (vs : list verdict) :
  foldr vcat ([], []) vs = (concat vs.*1, concat vs.*2).
Proof. induction vs as [|[a b] vs IH]; [done|]. cbn. by rewrite IH. Qed.

Lemma flatV_clean {A} (f : A → result verdict) l used :
  flatV f l = Ok ([], used) → ∀ x, x ∈ l → ∃ u, f x = Ok ([], u) ∧ u ⊆ used.
Proof.
  unfold flatV. intros H x Hx. ok_inv. rewrite foldr_vcat in H. injection H as Hb Hu.
  destruct (mapR_elem_2 _ _ _ _ E Hx) as ([bad u] & Hv & Hf). exists u.
  assert (bad = []) as -> by by eapply concat_fst_nil.
  split; [done|]. rewrite <- Hu. intros k Hk. apply elem_of_concat. exists u. split; [|done].
  apply list_elem_of_fmap. by exists ([], u).
Qed.

(** What a clean verdict says of one peer, one egress rule, one policy. *)
Definition peer_ok (exempt used : list (string * string)) (clusterwide : bool) (name peer : val) : Prop :=
  any_namespace peer clusterwide = Ok false ∨
  ∃ k, k ∈ exempt ∧ k ∈ used ∧ py_eq (VStr k.1) name = true.

Lemma judge_peer_clean exempt clusterwide name peer used :
  judge_peer exempt clusterwide name peer = Ok ([], used) → peer_ok exempt.*1 used clusterwide name peer.
Proof.
  unfold judge_peer. intros H. ok_inv. destruct v; cbn [negb] in H; [|by left]. ok_inv.
  destruct v as [|k hit]; cbn [nonempty] in H; [by ok_inv|]. ok_inv. right. exists k.
  unfold hits in E0. pose proof (filterM_Ok _ _ _ E0 k) as Hk.
  destruct (proj1 Hk (list_elem_of_here _ _)) as [Hin Hp].
  split; [done|]. split; [left|]. by destruct (py_eq (VStr k.1) name).
Qed.

(** The destinations of an egress rule outside the cluster. *)
Definition outside (e : val) : val := por (por (fld e "toFQDNs") (fld e "toCIDR")) (fld e "toCIDRSet").
(** The rule opens ports, and each of them is one fixed port. *)
Definition fixed_ports (e : val) : Prop :=
  ∃ tps ports, get_list e "toPorts" = Ok tps ∧ flatM (λ tp, get_list tp "ports") tps = Ok ports ∧
    ports ≠ [] ∧ ∀ p, p ∈ ports → port_open p = Ok false.
Definition host_ok (f : val) : Prop :=
  ∃ h, (fld f "matchName" = VStr h ∨ fld f "matchPattern" = VStr h) ∧ h ≠ "" ∧ ¬ reaches_each_bucket h.
Definition egress_ok (e : val) : Prop :=
  truthy (outside e) = true →
  fixed_ports e ∧ ∃ fs, get_list e "toFQDNs" = Ok fs ∧ ∀ f, f ∈ fs → host_ok f.

Lemma any_bucket_str host b : any_bucket host = Ok b → truthy host = true → ∃ h, host = VStr h ∧ h ≠ "".
Proof.
  unfold any_bucket, in_set. destruct host as [|x|z|s|l|d]; cbn; intros H Ht; try discriminate.
  exists s. split; [done|]. by intros ->.
Qed.

Lemma judge_host_clean name f : judge_host name f = Ok [] → host_ok f.
Proof.
  unfold judge_host. intros H. ok_inv. apply get_Ok in E as ->.
  destruct (truthy v0) eqn:Ht; cbn [negb] in H; [|done]. ok_inv. destruct v; [done|].
  destruct (any_bucket_str _ _ E Ht) as (h & -> & Hne).
  exists h. split; [|split; [done|]].
  - destruct (truthy (fld f "matchName")); ok_inv; [by left|right].
    apply get_Ok in E1 as ->. unfold por in E0. destruct (truthy (fld f "matchPattern")); [done|].
    by injection E0 as <-.
  - destruct (any_bucket_computes h) as (b & Hb & Hiff). rewrite Hb in E. injection E as ->.
    intros Hr. by apply Hiff in Hr.
Qed.

Lemma judge_egress_clean name e : judge_egress name e = Ok [] → egress_ok e.
Proof.
  unfold judge_egress, egress_ok, outside. intros H Ht. ok_inv.
  apply get_Ok in E as ->. apply get_Ok in E0 as ->. apply get_Ok in E1 as ->.
  rewrite Ht in H. cbn [negb] in H. ok_inv. apply app_eq_nil in H as [H ->].
  destruct v1; [done|]. destruct v0 as [|p ports]; [done|]. cbn [nonempty negb] in E1.
  split.
  - exists v, (p :: ports). split_and!; [done..|]. by apply anyM_false.
  - exists v2. split; [done|]. intros f Hf. rewrite flatM_nil in E3.
    eapply judge_host_clean. by apply E3.
Qed.

Definition rule_ok (exempt used : list (string * string)) (clusterwide : bool) (name r : val) : Prop :=
  ∃ ins es, get_list r "ingress" = Ok ins ∧ get_list r "egress" = Ok es ∧
    (∀ i, i ∈ ins → ∃ peers, get_list i "fromEndpoints" = Ok peers ∧
       ∀ peer, peer ∈ peers → peer_ok exempt used clusterwide name peer) ∧
    ∀ e, e ∈ es → egress_ok e.

Lemma peer_ok_mono exempt u used clusterwide name peer :
  u ⊆ used → peer_ok exempt u clusterwide name peer → peer_ok exempt used clusterwide name peer.
Proof. unfold peer_ok. intros Hu [?|(k & ? & ? & ?)]; [by left|right]. exists k. auto. Qed.

Lemma judge_rule_clean exempt clusterwide name r used :
  judge_rule exempt clusterwide name r = Ok ([], used) → rule_ok exempt.*1 used clusterwide name r.
Proof.
  unfold judge_rule, vcat. intros H. ok_inv. cbn [fst snd] in *.
  apply app_eq_nil in H as [Hbad ->]. rewrite app_nil_r in *.
  destruct v0 as [bad u]; cbn [fst snd] in *; subst bad.
  exists v, v1. split_and!; [done..| |].
  - intros i Hi. destruct (flatV_clean _ _ _ E0 i Hi) as (u' & Hj & Hu'). ok_inv.
    exists v0. split; [done|]. intros peer Hp.
    destruct (flatV_clean _ _ _ Hj peer Hp) as (u2 & Hk & Hu2).
    eapply peer_ok_mono; [|by eapply judge_peer_clean]. set_solver.
  - intros e He. rewrite flatM_nil in E2. by eapply judge_egress_clean, E2.
Qed.

Definition policy_ok (exempt used : list (string * string)) (d : val) : Prop :=
  ∃ name rs, meta_name d = Ok name ∧ rules d = Ok rs ∧
    ∀ r, r ∈ rs → rule_ok exempt used (py_eq (fld d "kind") (VStr "CiliumClusterwideNetworkPolicy")) name r.

Lemma rule_ok_mono exempt u used clusterwide name r :
  u ⊆ used → rule_ok exempt u clusterwide name r → rule_ok exempt used clusterwide name r.
Proof.
  intros Hu (ins & es & ? & ? & Hi & He). exists ins, es. split_and!; [done..| |done].
  intros i Hin. destruct (Hi i Hin) as (peers & ? & Hp). exists peers. split; [done|].
  intros peer ?. eapply peer_ok_mono; eauto.
Qed.

Lemma judge_clean docs exempt used d :
  judge docs exempt = Ok ([], used) → d ∈ docs → is_policy d = true → policy_ok exempt.*1 used d.
Proof.
  unfold judge. intros H Hd Hp. destruct (flatV_clean _ _ _ H d Hd) as (u & Hj & Hu).
  unfold judge_doc in Hj. rewrite Hp in Hj. cbn [negb] in Hj. ok_inv.
  exists v, v0. split_and!; [done..|]. intros r Hr.
  destruct (flatV_clean _ _ _ Hj r Hr) as (u2 & Hk & Hu2).
  eapply rule_ok_mono; [|by eapply judge_rule_clean]. set_solver.
Qed.

(** *** Properties *)

(** [any_bucket] never raises on a host name, and it holds exactly for
    the hosts of [S3_ANY], for the star, and for amazonaws.com and each name
    under it whose first label has a star or is s3. *)
Theorem any_bucket_decides (h : string) :
  ∃ b, any_bucket (VStr h) = Ok b ∧ (b = true ↔ reaches_each_bucket h).
Proof. apply any_bucket_computes. Qed.

(** On a typed selector [any_namespace] decides whether the peer is
    wide: in a namespaced policy, when it asks for the namespace with Exists
    and no label fixes the namespace or a label of it; in a clusterwide
    policy also when it names no namespace at all. *)
Theorem any_namespace_decides (s : Cilium.selector) (clusterwide : bool) :
  ∃ b, any_namespace (Cilium.selector_val s) clusterwide = Ok b ∧ (b = true ↔ wide_peer s clusterwide).
Proof. apply any_namespace_computes. Qed.

(** What a clean verdict proves of each Cilium policy: each ingress peer
    is narrow or an exemption of the file names its policy and was used, each
    egress rule to a host name or an address opens fixed ports only, and each
    of its hosts has a name that does not reach each bucket of S3. *)
Theorem clean_judge_is_narrow (docs : list val) (exempt : list exemption) (used : list (string * string)) (d : val) :
  judge docs exempt = Ok ([], used) → d ∈ docs → is_policy d = true →
  ∃ name rs, meta_name d = Ok name ∧ rules d = Ok rs ∧
    ∀ r, r ∈ rs → ∃ ins es, get_list r "ingress" = Ok ins ∧ get_list r "egress" = Ok es ∧
      (∀ i, i ∈ ins → ∃ peers, get_list i "fromEndpoints" = Ok peers ∧ ∀ peer, peer ∈ peers →
         any_namespace peer (py_eq (fld d "kind") (VStr "CiliumClusterwideNetworkPolicy")) = Ok false ∨
         ∃ k, k ∈ exempt.*1 ∧ k ∈ used ∧ py_eq (VStr k.1) name = true) ∧
      ∀ e, e ∈ es → egress_ok e.
Proof. apply judge_clean. Qed.

Lemma clean_judge_is_narrow_witness :
  ∃ name rs, meta_name wide = Ok name ∧ rules wide = Ok rs ∧
    ∀ r, r ∈ rs → ∃ ins es, get_list r "ingress" = Ok ins ∧ get_list r "egress" = Ok es ∧
      (∀ i, i ∈ ins → ∃ peers, get_list i "fromEndpoints" = Ok peers ∧ ∀ peer, peer ∈ peers →
         any_namespace peer false = Ok false ∨
         ∃ k, k ∈ [("p", "app.kubernetes.io/name=cloudnative-pg")] ∧
              k ∈ [("p", "app.kubernetes.io/name=cloudnative-pg")] ∧ py_eq (VStr k.1) name = true) ∧
      ∀ e, e ∈ es → egress_ok e.
Proof.
  apply (clean_judge_is_narrow [wide] [(("p", "app.kubernetes.io/name=cloudnative-pg"), "r")]);
    [vm_compute; reflexivity|left|vm_compute; reflexivity].
Defined.

(** A clean audit leaves no exemption stale and is not blind: each
    exemption of the file is used by a policy of a golden render. *)
Theorem clean_audit_uses_exemptions (goldens : list (string * list val)) (file : option (list string))
    (n : nat) (k : string * string) :
  audit goldens file = Ok ([], n) → k ∈ (load_exempt file).*1 →
  ∃ g v, g ∈ goldens ∧ judge (List.filter is_dict g.2) (load_exempt file) = Ok v ∧ k ∈ v.2.
Proof.
  unfold audit. intros H Hk. ok_inv.
  apply app_eq_nil in H as [_ [Hstale%map_eq_nil _]%app_eq_nil].
  set (used := concat (map snd v)) in *.
  assert (k ∈ used) as Hu.
  { destruct (decide (k ∈ used)) as [|Hn]; [done|]. exfalso.
    assert (k ∈ @nil (string * string)) as Hin; [|by apply elem_of_nil in Hin].
    rewrite <- Hstale. apply sorted_pairs_elem, list_elem_of_filter. done. }
  apply elem_of_concat in Hu as (u & (x & <- & Hx%list_elem_of_In)%list_elem_of_In%in_map_iff & Hku).
  destruct (mapR_elem _ _ _ _ E Hx) as (g & Hg & Hf). ok_inv.
  exists g, v1. split; [by apply list_elem_of_filter in Hg as [_ ?]|done].
Qed.

Lemma clean_audit_uses_exemptions_witness :
  let goldens := [("a.yaml", wide :: good)] in
  let file := Some ["# exemptions"; "p app.kubernetes.io/name=cloudnative-pg another chart narrows it"] in
  ∃ g v, g ∈ goldens ∧ judge (List.filter is_dict g.2) (load_exempt file) = Ok v ∧
         ("p", "app.kubernetes.io/name=cloudnative-pg") ∈ v.2.
Proof.
  apply (clean_audit_uses_exemptions _ _ 1); [vm_compute; reflexivity|left].
Defined.
