(* ===== verification/KubectlRbac.v ===== *)
(** * scripts/check-kubectl-rbac.py: each kubectl call is granted by RBAC

    A recorded kubectl argv becomes the API requests that kubectl makes; each
    request must be allowed by a rule of a Role or ClusterRole that the render
    binds to the ServiceAccount. *)
From S2P Require Import Prelude PyStr PyVal Rbac.

(** kubectl resource names and short names -> (API group, plural resource). *)
Definition KINDS : list (string * (string * string)) :=
  [("pod", ("", "pods")); ("pods", ("", "pods")); ("po", ("", "pods"));
   ("secret", ("", "secrets")); ("secrets", ("", "secrets"));
   ("configmap", ("", "configmaps")); ("configmaps", ("", "configmaps")); ("cm", ("", "configmaps"));
   ("serviceaccount", ("", "serviceaccounts")); ("serviceaccounts", ("", "serviceaccounts"));
   ("sa", ("", "serviceaccounts"));
   ("service", ("", "services")); ("services", ("", "services")); ("svc", ("", "services"));
   ("statefulset", ("apps", "statefulsets")); ("statefulsets", ("apps", "statefulsets"));
   ("sts", ("apps", "statefulsets"));
   ("deployment", ("apps", "deployments")); ("deployments", ("apps", "deployments"));
   ("deploy", ("apps", "deployments"));
   ("daemonset", ("apps", "daemonsets")); ("daemonsets", ("apps", "daemonsets"));
   ("ds", ("apps", "daemonsets"));
   ("job", ("batch", "jobs")); ("jobs", ("batch", "jobs"));
   ("externalsecret", ("external-secrets.io", "externalsecrets"));
   ("externalsecrets", ("external-secrets.io", "externalsecrets"));
   ("es", ("external-secrets.io", "externalsecrets"))].

(** Flags that take the next argv as their value. *)
Definition VALUE_FLAGS : list string :=
  ["-n"; "--namespace"; "-c"; "--container"; "-l"; "--selector"; "-o"; "--output";
   "-f"; "--filename"; "--field-selector"; "--from-literal"; "--from-file"; "--type";
   "--timeout"; "--request-timeout"; "--grace-period"; "--context"; "--kubeconfig";
   "--cluster"; "--user"; "--server"; "-s"; "--token"; "-p"; "--patch";
   "--chunk-size"; "--sort-by"; "--template"; "--pod-running-timeout"].
(** Flags that take no value in the space form. *)
Definition BOOL_FLAGS : list string :=
  ["-i"; "--stdin"; "-t"; "--tty"; "-it"; "-ti"; "-q"; "--quiet";
   "--ignore-not-found"; "--wait"; "--dry-run"; "--save-config"; "--overwrite";
   "--all"; "-A"; "--all-namespaces"; "-w"; "--watch"; "--watch-only";
   "--show-managed-fields"; "--no-headers"; "--show-labels"; "--force"; "--now";
   "--local"; "--cascade"].
Definition CREATE_SHORTCUTS : list string := ["secret"; "configmap"; "serviceaccount"].

Definition known_flag (f : string) : bool := str_mem f VALUE_FLAGS || str_mem f BOOL_FLAGS.

(** A positional of [parse]: a word, or the argv after [--]. *)
Inductive positional := Word (s : string) | Rest (l : list string).
Definition flag_map : Type := list (string * list string).

(** [flags.setdefault(k, []).append(v)] *)
Definition add_flag (k v : string) (flags : flag_map) : flag_map :=
  alist_set k (default [] (alist_get k flags) ++ [v]) flags.

Definition unknown_flag (f : string) : exn :=
  CallError (cat ["kubectl flag "; repr_str f; " is not modelled: add it to scripts/check-kubectl-rbac.py"]).

Fixpoint parse_loop (argv : list string) (pos : list positional) (flags : flag_map)
    : result (list positional * flag_map) :=
  match argv with
  | [] => Ok (pos, flags)
  | a :: argv' =>
      if str_eqb a "--" then Ok (pos ++ [Rest argv'], flags)
      else if startswith a "-" then
        if contains "=" a && startswith a "--" then
          let '(k, _, v) := str_partition a "=" in
          if known_flag k then parse_loop argv' pos (add_flag k v flags)
          else Raise (unknown_flag k)
        else
          match str_mem a VALUE_FLAGS, argv' with
          | true, v :: argv'' => parse_loop argv'' pos (add_flag a v flags)
          | _, _ =>
              if str_mem a BOOL_FLAGS then parse_loop argv' pos (add_flag a "" flags)
              else Raise (unknown_flag a)
          end
      else parse_loop argv' (pos ++ [Word a]) flags
  end.

(** Split a kubectl argv into positional arguments and flags. *)
Definition parse (argv : list string) : result (list positional * flag_map) :=
  parse_loop argv [] [].

Fixpoint flag (flags : flag_map) (names : list string) : option string :=
  match names with
  | [] => None
  | n :: names =>
      match alist_get n flags with
      | Some vs => last vs
      | None => flag flags names
      end
  end.
Definition flag_is (flags : flag_map) (names : list string) (v : string) : bool :=
  bool_decide (flag flags names = Some v).

Definition kind_of (word : string) : result (string * string) :=
  match alist_get (lower word) KINDS with
  | Some k => Ok k
  | None => Raise (CallError (cat ["unknown resource "; repr_str word;
                                   ": add it to KINDS in scripts/check-kubectl-rbac.py"]))
  end.

(** kubectl's resource arguments -> (group, resource, name or None). *)
Definition target : Type := string * string * option string.
Definition targets (args : list string) : result (list target) :=
  match args with
  | [] => Raise (CallError "no resource named")
  | a :: names =>
      if contains "/" a then
        mapR (λ a,
          let '(k, _, n) := str_partition a "/" in
          '(g, r) <- kind_of k ;; Ok (g, r, Some n)) args
      else
        '(g, r) <- kind_of a ;;
        Ok (match names with [] => [(g, r, None)] | _ => map (λ n, (g, r, Some n)) names end)
  end.

Definition is_word (p : option positional) (w : string) : bool :=
  match p with Some (Word s) => str_eqb s w | _ => false end.

Definition is_dry_create (argv : list string) : result bool :=
  '(pos, flags) <- parse argv ;;
  Ok (is_word (head pos) "create" && flag_is flags ["--dry-run"] "client").
Definition is_apply_stdin (argv : list string) : result bool :=
  '(pos, flags) <- parse argv ;;
  Ok (is_word (head pos) "apply" && flag_is flags ["-f"; "--filename"] "-").

(** Puts each dry-run create before the apply right next to it.  The loop
    over [i] compares places [i] and [i+1] of the list as it is by then, so
    [a] is the call at place [i] after the swaps before it. *)
Fixpoint pipe_from (a : list string) (calls : list (list string)) : result (list (list string)) :=
  match calls with
  | [] => Ok [a]
  | b :: calls =>
      apply <- is_apply_stdin a ;;
      swap <- (if apply : bool then is_dry_create b else Ok false) ;;
      if swap : bool then k <- pipe_from a calls ;; Ok (b :: k)
      else k <- pipe_from b calls ;; Ok (a :: k)
  end.
Definition pipe_order (calls : list (list string)) : result (list (list string)) :=
  match calls with [] => Ok [] | a :: calls => pipe_from a calls end.

(** An API request of kubectl. *)
Record request := Request {
  verb : string; group : string; resource : string; sub : string;
  ns : option string; name : option string }.
#[global] Instance request_eq_dec : EqDecision request.
Proof. solve_decision. Defined.

(** The object of the last [create --dry-run=client], with its namespace. *)
Definition pending : Type := option (string * string * option string * option string).

Section call_requests.
Context (flags : flag_map) (rest : list string) (p : pending).
Let ns := flag flags ["-n"; "--namespace"].
Let req (v g r : string) (n : option string) : request := Request v g r "" ns n.

Definition get_requests : result (list request * pending) :=
  let selector := negb (bool_decide (flag flags ["-l"; "--selector"] = None)) in
  ts <- targets rest ;;
  let reads := map (λ '(g, r, n),
    if bool_decide (n = None) || selector then req "list" g r None else req "get" g r n) ts in
  if existsb (λ f, bool_decide (is_Some (alist_get f flags))) ["--watch"; "-w"; "--watch-only"] then
    Ok (reads ++ map (λ '(g, r, _), req "watch" g r None) ts, p)
  else Ok (reads, p).

Definition delete_requests : result (list request * pending) :=
  ts <- targets rest ;;
  let dels := map (λ '(g, r, n),
    match n with None => req "deletecollection" g r None | Some _ => req "delete" g r n end) ts in
  if flag_is flags ["--wait"] "false" then Ok (dels, p)
  else Ok (dels ++ map (λ '(g, r, _), req "watch" g r None) ts, p).

Definition exec_requests : result (list request * pending) :=
  match rest with
  | [] => Raise (CallError "exec names no pod")
  | pod :: _ =>
      let pod := default pod (last (str_splitn 1 "/" pod)) in
      Ok ([req "get" "" "pods" (Some pod); Request "create" "" "pods" "exec" ns (Some pod)], p)
  end.

Definition create_requests : result (list request * pending) :=
  let dry := flag_is flags ["--dry-run"] "client" in
  match rest with
  | kind :: args =>
      if str_mem kind CREATE_SHORTCUTS then
        let name := if str_eqb kind "secret" && (2 <? length rest) then rest !! 2
                    else if 1 <? length rest then rest !! 1 else None in
        '(g, r) <- kind_of kind ;;
        if dry then Ok ([], Some (g, r, name, ns)) else Ok ([req "create" g r None], p)
      else Raise (CallError "create of a manifest: the check cannot tell its object")
  | [] => Raise (CallError "create of a manifest: the check cannot tell its object")
  end.

Definition apply_requests : result (list request * pending) :=
  match flag_is flags ["-f"; "--filename"] "-", p with
  | true, Some (g, r, n, obj_ns) =>
      (* The object carries the namespace of its create, unless apply names one. *)
      let at_ := match ns with Some _ => ns | None => obj_ns end in
      (* A request with no namespace of its own takes the one of the call. *)
      let in_ns := match at_ with Some _ => at_ | None => ns end in
      Ok ([Request "get" g r "" in_ns n; Request "create" g r "" in_ns None;
           Request "patch" g r "" in_ns n], None)
  | _, _ => Raise (CallError "apply of an object the check cannot tell (only `create ... --dry-run=client -o yaml | apply -f -`)")
  end.

Definition edit_requests : result (list request * pending) :=
  ts <- targets rest ;;
  Ok (concat (map (λ '(g, r, n), [req "get" g r n; req "patch" g r n]) ts), p).

Definition rollout_requests : result (list request * pending) :=
  let '(action, args) := match rest with a :: l => (a, l) | [] => ("", []) end in
  ts <- targets args ;;
  rs <- flatM (λ '(g, r, n),
    if str_eqb action "restart" then Ok [req "get" g r n; req "patch" g r n]
    else if str_eqb action "status" then Ok [req "get" g r n; req "watch" g r None]
    else Raise (CallError (cat ["rollout "; repr_str action; " is not modelled"]))) ts ;;
  Ok (rs, p).
End call_requests.

(** [repr] of the first positional, which can be the tuple of [--]. *)
Definition repr_positional (o : option positional) : string :=
  match o with
  | None => "''"
  | Some (Word s) => repr_str s
  | Some (Rest l) => cat ["('--', "; str_of_strs l; ")"]
  end.

(** The requests of one call, and the object pending after it. *)
Definition call_requests (argv : list string) (p : pending) : result (list request * pending) :=
  '(pos, flags) <- parse argv ;;
  let sub := match head pos with Some (Word s) => Some s | None => Some "" | Some (Rest _) => None end in
  let rest := omap (λ x, match x with Word s => Some s | Rest _ => None end) (tail pos) in
  let unknown := Raise (CallError (cat ["kubectl "; repr_positional (head pos);
                   " is not modelled: add it to scripts/check-kubectl-rbac.py"])) in
  match sub with
  | None => unknown
  | Some sub =>
      if str_eqb sub "get" then get_requests flags rest p
      else if str_eqb sub "delete" then delete_requests flags rest p
      else if str_eqb sub "exec" then exec_requests flags rest p
      else if str_eqb sub "create" then create_requests flags rest p
      else if str_eqb sub "apply" then apply_requests flags p
      else if str_mem sub ["annotate"; "label"; "patch"] then edit_requests flags rest p
      else if str_eqb sub "rollout" then rollout_requests flags rest p
      else if str_mem sub ["version"; "config"; "auth"] then Ok ([], p)
      else unknown
  end.

(** The generator [requests]: what it yields before it ends, and the
    exception that ends it, if one does. *)
Fixpoint requests_from (calls : list (list string)) (p : pending)
    : list (list string * list request) * option exn :=
  match calls with
  | [] => ([], None)
  | argv :: calls =>
      match call_requests argv p with
      | Raise e => ([], Some e)
      | Ok (reqs, p) =>
          let '(out, e) := requests_from calls p in ((argv, reqs) :: out, e)
      end
  end.
Definition requests (calls : list (list string)) : list (list string * list request) * option exn :=
  match pipe_order calls with
  | Raise e => ([], Some e)
  | Ok calls => requests_from calls None
  end.

(** The dict [roles] of the render: (kind, namespace, name) -> rules.  A later
    document with the same key replaces an earlier one. *)
Definition role_entry (d : val) : result (list (tkey * val)) :=
  kind <- get d "kind" ;;
  if negb (in_tuple kind ["Role"; "ClusterRole"]) then Ok [] else
  m <- item d "metadata" ;;
  n <- (if py_eq kind (VStr "Role") then get m "namespace" else Ok VNone) ;;
  nm <- item m "name" ;;
  rs <- get d "rules" ;;
  key <- hash_tkey (kind, n, nm) ;;
  Ok [(key, por rs (VList []))].
(** [roles.get(key, [])], as the list that the loop reads. *)
Definition find_role (roles : list (tkey * val)) (k : tkey) : result (list val) :=
  o <- tkey_get roles k ;; match o with Some rules => py_iter rules | None => Ok [] end.

(** A subject of a binding that is the ServiceAccount. *)
Definition is_subject (sa_ns sa_name : string) (d s : val) : result bool :=
  kind <- get s "kind" ;;
  if negb (py_eq kind (VStr "ServiceAccount")) then Ok false else
  n <- get s "name" ;;
  if negb (py_eq n (VStr sa_name)) then Ok false else
  m <- item d "metadata" ;;
  dflt <- get m "namespace" ;;
  ns <- get_default s "namespace" dflt ;;
  Ok (py_eq ns (VStr sa_ns)).

(** The rules a binding grants to the ServiceAccount, each with the namespace
    it grants in: its own for a RoleBinding, everywhere for the other. *)
Definition binding_rules (roles : list (tkey * val)) (sa_ns sa_name : string) (d : val)
    : result (list (val * val)) :=
  kind <- get d "kind" ;;
  if negb (in_tuple kind ["RoleBinding"; "ClusterRoleBinding"]) then Ok [] else
  subjects <- get_list d "subjects" ;;
  subj <- filterM (is_subject sa_ns sa_name d) subjects ;;
  if negb (nonempty subj) then Ok [] else
  ref <- item d "roleRef" ;;
  bns <- (if py_eq kind (VStr "RoleBinding") then m <- item d "metadata" ;; get m "namespace"
          else Ok VNone) ;;
  rkind <- item ref "kind" ;;
  rname <- item ref "name" ;;
  rs <- find_role roles (rkind, if py_eq rkind (VStr "Role") then bns else VNone, rname) ;;
  Ok (map (λ r, (bns, r)) rs).

(** The rules of each Role and ClusterRole bound to the ServiceAccount. *)
Definition bound_rules (docs : list val) (sa_ns sa_name : string) : result (list (val * val)) :=
  roles <- flatM role_entry docs ;;
  flatM (binding_rules roles sa_ns sa_name) docs.

Definition opt_val (o : option string) : val := from_option VStr VNone o.

(** [rq["resource"] + ("/" + rq["sub"] if rq["sub"] else "")] *)
Definition full_resource (rq : request) : string :=
  if str_eqb (sub rq) "" then resource rq else cat [resource rq; "/"; sub rq].

(** Kubernetes checks [resourceNames] only for a request that names an
    object. *)
Definition unnamed (rq : request) : bool :=
  bool_decide (name rq = None) || str_mem (verb rq) ["list"; "watch"; "deletecollection"]
  || (str_eqb (verb rq) "create" && str_eqb (sub rq) "").

Definition field_admits (rule : val) (field : string) (x : string) : result bool :=
  l <- get_list rule field ;; l <- set_of l ;; Ok (meets [x; "*"] l).

Definition rule_grants (rq : request) (nr : val * val) : result bool :=
  let '(n, rule) := nr in
  if negb (is_none n) && negb (py_eq (opt_val (ns rq)) n) then Ok false else
  andR (field_admits rule "apiGroups" (group rq))
 (andR (field_admits rule "resources" (full_resource rq))
 (andR (field_admits rule "verbs" (verb rq))
 (names <- get rule "resourceNames" ;;
  let names := por names (VList []) in
  if negb (truthy names) then Ok true
  else if unnamed rq then Ok false
  else val_in (opt_val (name rq)) names))).

Definition allowed (rq : request) (rules : list (val * val)) : result bool :=
  anyM (rule_grants rq) rules.

Definition finding (sa : string) (argv : list string) (rq : request) : string :=
  cat ["`kubectl "; str_join " " argv; "` needs "; verb rq; " "; full_resource rq;
       match name rq with Some n => if str_eqb n "" then "" else cat [" "; n] | None => "" end;
       " ("; if str_eqb (group rq) "" then "core" else group rq;
       ", namespace "; py_str (opt_val (ns rq)); "), and no rule bound to "; sa; " allows it"].

Definition check_call (sa : string) (rules : list (val * val)) (c : list string * list request)
    : result (list string) :=
  flatM (λ rq, ok <- allowed rq rules ;;
               Ok (if ok : bool then [] else [finding sa c.1 rq])) c.2.

(** The findings, and the number of API requests checked. *)
Definition check (docs : list val) (sa : string) (calls : list (list string))
    : result (list string * nat) :=
  let '(sa_ns, _, sa_name) := str_partition sa "/" in
  rules <- bound_rules docs sa_ns sa_name ;;
  if negb (nonempty rules) then
    Ok ([cat ["no Role or ClusterRole in the render is bound to ServiceAccount "; sa]], 0)
  else if negb (nonempty calls) then
    Ok (["the call log is empty: the test recorded no kubectl call, so the check looked at nothing"], 0)
  else
    let '(yields, stop) := requests calls in
    found <- flatM (check_call sa rules) yields ;;
    let checked := length (concat (map snd yields)) in
    stopped <- match stop with
               | None => Ok []
               | Some (CallError m) => Ok [m]
               | Some e => Raise e
               end ;;
    let findings := found ++ stopped in
    let findings :=
      if (checked =? 0) && negb (nonempty findings)
      then ["the calls make no API request, so the check looked at nothing"] else findings in
    Ok (sorted_set findings, checked).

(** ** The self-test of the script

    The documents of [SELFTEST_RENDER], as its YAML reads, and each case with
    the finding it must give; [None] is a case that must be clean. *)
Definition rule_doc (groups resources names verbs : list string) : val :=
  VDict ([("apiGroups", VList (map VStr groups)); ("resources", VList (map VStr resources))]
         ++ (if nonempty names then [("resourceNames", VList (map VStr names))] else [])
         ++ [("verbs", VList (map VStr verbs))]).
Definition SELFTEST_RULES : list val :=
  [rule_doc [""] ["secrets"] ["gibson-redis-stack"] ["get"];
   rule_doc [""] ["secrets"] [] ["create"];
   rule_doc [""] ["secrets"] ["gibson-redis-rotation-state"] ["get"; "update"; "patch"; "delete"];
   rule_doc ["apps"] ["statefulsets"] ["gibson-gibson-workloads"] ["get"];
   rule_doc [""] ["pods"] [] ["get"; "list"; "delete"];
   rule_doc [""] ["pods/exec"] ["gibson-redis-stack-0"] ["create"]].
Definition selftest_meta : val :=
  VDict [("name", VStr "gibson-redis-rotation"); ("namespace", VStr "gibson")].
Definition selftest_role (rules : list val) : val :=
  VDict [("apiVersion", VStr "rbac.authorization.k8s.io/v1"); ("kind", VStr "Role");
         ("metadata", selftest_meta); ("rules", VList rules)].
Definition selftest_binding : val :=
  VDict [("apiVersion", VStr "rbac.authorization.k8s.io/v1"); ("kind", VStr "RoleBinding");
         ("metadata", selftest_meta);
         ("roleRef", VDict [("apiGroup", VStr "rbac.authorization.k8s.io"); ("kind", VStr "Role");
                            ("name", VStr "gibson-redis-rotation")]);
         ("subjects", VList [VDict [("kind", VStr "ServiceAccount");
            ("name", VStr "gibson-redis-rotation"); ("namespace", VStr "gibson")]])].
Definition SELFTEST_RENDER : list val := [selftest_role SELFTEST_RULES; selftest_binding].

Definition SELFTEST_CALLS : list (list string) :=
  [["get"; "secret"; "-n"; "gibson"; "gibson-redis-stack"; "-o"; "jsonpath={.metadata.resourceVersion}"];
   ["get"; "secret"; "-n"; "gibson"; "gibson-redis-rotation-state"; "-o"; "name"];
   ["exec"; "-i"; "-n"; "gibson"; "gibson-redis-stack-0"; "-c"; "redis-stack"; "--"; "sh"; "-c"; "x"];
   ["-n"; "gibson"; "get"; "statefulset/gibson-gibson-workloads"; "-o"; "json"];
   ["-n"; "gibson"; "get"; "pods"; "-l"; "app=x"; "-o"; "json"];
   ["-n"; "gibson"; "delete"; "pod"; "x-0"; "--ignore-not-found"; "--wait=false"];
   ["create"; "secret"; "generic"; "gibson-redis-rotation-state"; "-n"; "gibson";
    "--from-literal=lastProcessedVersion=2"; "--save-config"; "--dry-run=client"; "-o"; "yaml"];
   ["apply"; "-f"; "-"]].

Definition set_names (from to : list string) (verbs : option (list string)) (r : val) : val :=
  if py_eq (fld r "resourceNames") (VList (map VStr from)) then
    let r := dict_with r "resourceNames" (VList (map VStr to)) in
    match verbs with Some vs => dict_with r "verbs" (VList (map VStr vs)) | None => r end
  else r.

Definition selftest_cases : list (list val * list (list string) * option string) :=
  let good := SELFTEST_RENDER in
  let state := ["gibson-redis-rotation-state"] in
  [(good, SELFTEST_CALLS, None);
   ([selftest_role (List.filter (λ r, negb (py_eq (fld r "resources") (VList [VStr "pods"]))) SELFTEST_RULES);
     selftest_binding], SELFTEST_CALLS, Some "needs get pods gibson-redis-stack-0");
   (good, [["exec"; "-i"; "-n"; "gibson"; "gibson-openbao-0"; "--"; "sh"]],
    Some "needs create pods/exec gibson-openbao-0");
   (good, [["-n"; "gibson"; "delete"; "pod"; "x-0"]], Some "needs watch pods");
   ([selftest_role (map (set_names state ["some-other-secret"] None) SELFTEST_RULES); selftest_binding],
    SELFTEST_CALLS, Some "needs patch secrets gibson-redis-rotation-state");
   ([selftest_role (map (set_names state state (Some ["get"; "create"; "patch"]))
       (List.filter (λ r, negb (py_eq (fld r "verbs") (VList [VStr "create"]))) SELFTEST_RULES));
     selftest_binding], SELFTEST_CALLS, Some "needs create secrets");
   (good, [["get"; "secret"; "-n"; "kube-system"; "gibson-redis-stack"]], Some "namespace kube-system");
   (good, take 6 SELFTEST_CALLS ++ rev (drop 6 SELFTEST_CALLS), None);
   (good, [["apply"; "-f"; "-"]], Some "apply of an object the check cannot tell");
   (good, [["version"]; ["config"; "view"]], Some "make no API request");
   (good, [["-n"; "gibson"; "get"; "pods"; "--watch-only"]], Some "needs watch pods");
   (good, [["-n"; "gibson"; "get"; "pods"; "--frobnicate"; "x"]], Some "flag '--frobnicate' is not modelled");
   (good, [["-n"; "gibson"; "get"; "pods"; "--frobnicate=x"]], Some "flag '--frobnicate' is not modelled");
   (good, [], Some "the call log is empty");
   (take 1 good, SELFTEST_CALLS, Some "no Role or ClusterRole");
   (good, [["cp"; "a"; "b"]], Some "is not modelled")].

(** One case: the findings are empty, or one of them holds the text. *)
Definition expect (c : list val * list (list string) * option string) : result bool :=
  let '(docs, calls, want) := c in
  got <- check docs "gibson/gibson-redis-rotation" calls ;;
  Ok (match want with
      | None => negb (nonempty got.1)
      | Some w => existsb (contains w) got.1
      end).
Definition selftest : result Z :=
  ok <- mapR expect selftest_cases ;;
  Ok (if forallb id ok then 0 else 1)%Z.

(** ** What the guard promises

    The RBAC evaluation of the guard against the meaning of typed rules, the
    shape of a parsed call, and what a clean check says of the recorded
    calls. *)

(** *** The meaning of a request *)

(** Kubernetes matches [resourceNames] against this request. *)
Definition names_object (rq : request) : Prop :=
  (verb rq ∉ ["list"; "watch"; "deletecollection"]) ∧ ¬ (verb rq = "create" ∧ sub rq = "").

(** A rule granted in the namespace [ns], everywhere when it is [None]. *)
Definition grants (rq : request) (nr : option string * policy_rule) : Prop :=
  let '(n, r) := nr in
  (∀ m, n = Some m → ns rq = Some m) ∧
  covers (pr_groups r) (group rq) ∧
  covers (pr_resources r) (full_resource rq) ∧
  covers (pr_verbs r) (verb rq) ∧
  (pr_names r = [] ∨ names_object rq ∧ ∃ n, name rq = Some n ∧ n ∈ pr_names r).

Definition bound_val (nr : option string * policy_rule) : val * val :=
  (opt_val nr.1, policy_rule_val nr.2).

Lemma field_admits_computes (r : policy_rule) field (l : list string) x :
  get (policy_rule_val r) field = Ok (strs l) →
  computes (field_admits (policy_rule_val r) field x) (covers l x).
Proof.
  intros H. unfold field_admits, get_list. rewrite H. cbn. rewrite por_strs. cbn.
  rewrite set_of_strs. cbn. apply computes_Ok, covers_meets.
Qed.

Lemma opt_val_eq (a b : option string) : py_eq (opt_val a) (opt_val b) = true ↔ a = b.
Proof.
  destruct a as [a|], b as [b|]; cbn; try (split; done).
  rewrite py_eq_str. split; [by intros [= ->]|by intros [= ->]].
Qed.

Lemma unnamed_spec rq : unnamed rq = false ↔ name rq ≠ None ∧ names_object rq.
Proof.
  unfold unnamed, names_object.
  rewrite !orb_false_iff, bool_decide_eq_false, str_mem_false, andb_false_iff.
  rewrite <- !not_true_iff_false, !str_eqb_eq. split; [tauto|].
  intros (? & ? & H). split; [tauto|].
  destruct (decide (verb rq = "create")) as [E|]; [right|by left]. intros ?. apply H. done.
Qed.

Lemma name_check_computes (rq : request) (l : list string) :
  computes (if negb (truthy (strs l)) then Ok true
            else if unnamed rq then Ok false else val_in (opt_val (name rq)) (strs l))
           (l = [] ∨ names_object rq ∧ ∃ n, name rq = Some n ∧ n ∈ l).
Proof.
  rewrite truthy_strs. destruct l as [|x l]; cbn [nonempty negb].
  { apply computes_Ok. naive_solver. }
  destruct (unnamed rq) eqn:E.
  - apply computes_Ok. split; [done|]. intros [[=]|(Ho & n & Hn & _)].
    exfalso. assert (unnamed rq = false); [|congruence]. apply unnamed_spec.
    split; [congruence|done].
  - apply unnamed_spec in E as [Hn Ho]. destruct (name rq) as [n|]; [|done].
    apply (computes_iff _ (n ∈ x :: l)); [|apply (str_in_strs n (x :: l))]. naive_solver.
Qed.

Lemma rule_grants_computes (rq : request) nr :
  computes (rule_grants rq (bound_val nr)) (grants rq nr).
Proof.
  destruct nr as [n r]. unfold rule_grants, bound_val, grants; cbn [fst snd].
  destruct (negb (is_none (opt_val n)) && negb (py_eq (opt_val (ns rq)) (opt_val n))) eqn:E.
  - apply andb_true_iff in E as [E1 E2]. destruct n as [m|]; [|done].
    apply computes_Ok. split; [done|]. intros (H & _). exfalso.
    apply negb_true_iff, not_true_iff_false in E2. apply E2, opt_val_eq. by apply H.
  - assert (∀ m, n = Some m → ns rq = Some m) as Hns.
    { intros m ->. cbn [is_none opt_val from_option negb andb] in E.
      apply negb_false_iff in E. change (VStr m) with (opt_val (Some m)) in E. by apply opt_val_eq in E. }
    eapply computes_iff; [split; [intros H; split; [exact Hns|exact H]|intros [_ H]; exact H]|].
    apply computes_and; [by apply field_admits_computes|intros _].
    apply computes_and; [by apply field_admits_computes|intros _].
    apply computes_and; [by apply field_admits_computes|intros _].
    cbn. rewrite por_strs. apply name_check_computes.
Qed.

Lemma allowed_computes (rq : request) rules :
  computes (allowed rq (bound_val <$> rules)) (∃ nr, nr ∈ rules ∧ grants rq nr).
Proof. unfold allowed. rewrite anyM_fmap. apply computes_anyM. intros. apply rule_grants_computes. Qed.

(** *** Parsing *)

Lemma parse_loop_spec argv : ∀ pos flags,
  (∀ k, k ∈ flags.*1 → known_flag k = true) →
  match parse_loop argv pos flags with
  | Ok (_, flags') => ∀ k, k ∈ flags'.*1 → known_flag k = true
  | Raise e => ∃ m, e = CallError m
  end.
Proof.
  assert (∀ k v (flags : flag_map) k', k' ∈ (add_flag k v flags).*1 → k' = k ∨ k' ∈ flags.*1) as Hadd.
  { intros k v flags k'. unfold add_flag. generalize (default [] (alist_get k flags) ++ [v]). intros x.
    induction flags as [|[y l] flags IH]; cbn; [set_solver|].
    destruct (str_eqb k y) eqn:E; cbn; set_solver. }
  assert (∀ k v (flags : flag_map), (∀ k, k ∈ flags.*1 → known_flag k = true) → known_flag k = true →
    ∀ k', k' ∈ (add_flag k v flags).*1 → known_flag k' = true) as Hknown.
  { intros k v flags Hf Hk k' [->|?]%Hadd; auto. }
  induction argv as [argv IH] using (induction_ltof1 _ (@length string)). unfold ltof in IH.
  destruct argv as [|a argv]; intros pos flags Hf; [exact Hf|]. cbn [parse_loop].
  destruct (str_eqb a "--"); [exact Hf|].
  destruct (startswith a "-"); [|apply IH; [cbn; lia|done]].
  destruct (contains "=" a && startswith a "--").
  { destruct (str_partition a "=") as [[k sep] v].
    destruct (known_flag k) eqn:Ek; [apply IH; [cbn; lia|by apply Hknown]|by eexists]. }
  assert (match (if str_mem a BOOL_FLAGS then parse_loop argv pos (add_flag a "" flags)
                 else Raise (unknown_flag a)) with
          | Ok (_, flags') => ∀ k, k ∈ flags'.*1 → known_flag k = true
          | Raise e => ∃ m, e = CallError m end) as Hbool.
  { destruct (str_mem a BOOL_FLAGS) eqn:Eb; [|by eexists].
    apply IH; [cbn; lia|apply Hknown; [done|]]. unfold known_flag. by rewrite Eb, orb_true_r. }
  destruct (str_mem a VALUE_FLAGS) eqn:Ev; [|exact Hbool].
  destruct argv as [|v argv]; [exact Hbool|].
  apply IH; [cbn; lia|apply Hknown; [done|]]. unfold known_flag. by rewrite Ev.
Qed.

(** *** The order of a pipe *)

Lemma pipe_from_perm a calls k : pipe_from a calls = Ok k → k ≡ₚ a :: calls.
Proof.
  revert a k. induction calls as [|b calls IH]; cbn; intros a k H; [by injection H as <-|].
  ok_inv. destruct v0; ok_inv; apply IH in E1 as ->; [apply Permutation_swap|done].
Qed.

Lemma pipe_order_perm calls k : pipe_order calls = Ok k → k ≡ₚ calls.
Proof. destruct calls as [|a calls]; cbn; [by intros [= <-]|apply pipe_from_perm]. Qed.

(** A generator that ends without an exception yields each call. *)
Lemma requests_from_calls calls : ∀ p out, requests_from calls p = (out, None) →
  out.*1 = calls ∧ ∀ c, c ∈ out → ∃ p p', call_requests c.1 p = Ok (c.2, p').
Proof.
  induction calls as [|argv calls IH]; cbn; intros p out H.
  { injection H as <-. split; [done|]. intros c Hc. by apply elem_of_nil in Hc. }
  destruct (call_requests argv p) as [[reqs p']|] eqn:E; [|done].
  destruct (requests_from calls p') as [out' e] eqn:E'. injection H as <- ->.
  destruct (IH _ _ E') as [<- Hc]. split; [done|].
  intros c [->|Hin]%elem_of_cons; [by exists p, p'|by apply Hc].
Qed.

Lemma requests_calls calls out argv :
  requests calls = (out, None) → argv ∈ calls →
  ∃ reqs p p', (argv, reqs) ∈ out ∧ call_requests argv p = Ok (reqs, p').
Proof.
  unfold requests. destruct (pipe_order calls) as [k|] eqn:E; [|done]. intros H Hin.
  destruct (requests_from_calls _ _ _ H) as [Hk Hc].
  apply pipe_order_perm in E. rewrite <- E, <- Hk in Hin.
  apply list_elem_of_fmap in Hin as ([argv' reqs] & -> & Hin).
  destruct (Hc _ Hin) as (p & p' & ?). by exists reqs, p, p'.
Qed.

(** *** A clean check *)

Lemma check_call_clean sa rules c :
  check_call sa rules c = Ok [] ↔ ∀ rq, rq ∈ c.2 → allowed rq rules = Ok true.
Proof.
  unfold check_call. rewrite flatM_nil. apply forall_proper. intros rq.
  destruct (allowed rq rules) as [[]|]; cbn; naive_solver.
Qed.

Lemma check_clean_inv docs sa calls n :
  check docs sa calls = Ok ([], n) ↔
  ∃ rules yields,
    bound_rules docs (str_partition sa "/").1.1 (str_partition sa "/").2 = Ok rules ∧
    rules ≠ [] ∧ calls ≠ [] ∧ requests calls = (yields, None) ∧
    n = length (concat (snd <$> yields)) ∧ 0 < n ∧
    ∀ argv reqs rq, (argv, reqs) ∈ yields → rq ∈ reqs → allowed rq rules = Ok true.
Proof.
  unfold check. destruct (str_partition sa "/") as [[sa_ns sep] sa_name]; cbn [fst snd].
  destruct (bound_rules docs sa_ns sa_name) as [rules|]; cbn [rbind];
    [|split; [done|intros (? & ? & ? & _); done]].
  destruct rules as [|r rules]; [split; [done|intros (? & ? & [= <-] & ? & _); done]|].
  destruct calls as [|call calls]; [split; [done|intros (? & ? & ? & ? & ? & _); done]|].
  cbn [nonempty negb]. destruct (requests (call :: calls)) as [yields stop] eqn:Er.
  split.
  - intros H. ok_inv.
    destruct stop as [[]|]; ok_inv; rewrite sorted_set_nil in H.
    + exfalso. revert H. destruct (_ =? 0), v; discriminate.
    + rewrite app_nil_r in H. destruct v as [|x l]; [|by rewrite andb_false_r in H].
      destruct (length (concat (map snd yields)) =? 0) eqn:Ez; [done|].
      apply Nat.eqb_neq in Ez. change (map snd yields) with (snd <$> yields) in *.
      exists (r :: rules), yields. rewrite flatM_nil in E.
      repeat split; try done; [lia|].
      intros argv reqs rq Hin Hrq. specialize (E _ Hin). rewrite check_call_clean in E. by apply E.
  - intros (rules' & yields' & [= <-] & _ & _ & [= <- ->] & -> & Hn & Hall).
    rewrite (proj2 (flatM_nil _ _)).
    + cbn [rbind app]. change (map snd yields) with (snd <$> yields).
      rewrite (proj2 (Nat.eqb_neq _ _)) by lia. done.
    + intros [argv reqs] Hin. apply check_call_clean. intros rq. by apply (Hall argv reqs).
Qed.

Lemma exec_requests_in flags rest p reqs p' :
  exec_requests flags rest p = Ok (reqs, p') →
  ∃ pod, let ns := flag flags ["-n"; "--namespace"] in
    Request "get" "" "pods" "" ns (Some pod) ∈ reqs ∧
    Request "create" "" "pods" "exec" ns (Some pod) ∈ reqs.
Proof.
  unfold exec_requests. destruct rest as [|pod rest]; [done|]. intros [= <- _].
  exists (default pod (last (str_splitn 1 "/" pod))). split; [left|right; left].
Qed.

(** *** Properties *)

(** C21: [allowed] never raises on typed rules, and it allows a request
    exactly when one bound rule grants it: in the namespace of the rule, on
    the group, the resource with its subresource and the verb, and, for a rule
    with resourceNames, only when the request names one of these objects. *)
Theorem allowed_decides_rbac (rq : request) (rules : list (option string * policy_rule)) :
  ∃ b, allowed rq (bound_val <$> rules) = Ok b ∧ (b = true ↔ ∃ nr, nr ∈ rules ∧ grants rq nr).
Proof. apply allowed_computes. Qed.

(** The check is clean exactly when the ServiceAccount has bound rules,
    the log has calls, each call is modelled, at least one API request was
    checked, and the rules allow every request of every call. *)
Theorem check_clean_iff (docs : list val) (sa : string) (calls : list (list string)) (n : nat) :
  check docs sa calls = Ok ([], n) ↔
  ∃ rules yields,
    bound_rules docs (str_partition sa "/").1.1 (str_partition sa "/").2 = Ok rules ∧
    rules ≠ [] ∧ calls ≠ [] ∧ requests calls = (yields, None) ∧
    n = length (concat (snd <$> yields)) ∧ 0 < n ∧
    ∀ argv reqs rq, (argv, reqs) ∈ yields → rq ∈ reqs → allowed rq rules = Ok true.
Proof. apply check_clean_inv. Qed.

(** After a clean check, a recorded [kubectl exec] is backed by two
    grants on its pod: [get] on pods, which kubectl reads first, and [create]
    on pods/exec (the grant that charts 0.150.0 missed). *)
Theorem exec_needs_pod_get (docs : list val) (sa : string) (calls : list (list string)) (n : nat)
    (argv : list string) (pos : list positional) (flags : flag_map) :
  check docs sa calls = Ok ([], n) → argv ∈ calls → parse argv = Ok (Word "exec" :: pos, flags) →
  ∃ rules pod, let ns := flag flags ["-n"; "--namespace"] in
    bound_rules docs (str_partition sa "/").1.1 (str_partition sa "/").2 = Ok rules ∧
    allowed (Request "get" "" "pods" "" ns (Some pod)) rules = Ok true ∧
    allowed (Request "create" "" "pods" "exec" ns (Some pod)) rules = Ok true.
Proof.
  intros (rules & yields & Hb & _ & _ & Hr & _ & _ & Hall)%check_clean_inv Hin Hp.
  destruct (requests_calls _ _ _ Hr Hin) as (reqs & p & p' & Hy & Hc).
  unfold call_requests in Hc. rewrite Hp in Hc. cbn in Hc.
  apply exec_requests_in in Hc as (pod & H1 & H2).
  exists rules, pod. split; [done|]. split; eapply Hall; eauto.
Qed.

Lemma exec_needs_pod_get_witness :
  ∃ rules pod,
    bound_rules SELFTEST_RENDER "gibson" "gibson-redis-rotation" = Ok rules ∧
    allowed (Request "get" "" "pods" "" (Some "gibson") (Some pod)) rules = Ok true ∧
    allowed (Request "create" "" "pods" "exec" (Some "gibson") (Some pod)) rules = Ok true.
Proof.
  apply (exec_needs_pod_get SELFTEST_RENDER "gibson/gibson-redis-rotation" SELFTEST_CALLS 10
    ["exec"; "-i"; "-n"; "gibson"; "gibson-redis-stack-0"; "-c"; "redis-stack"; "--"; "sh"; "-c"; "x"]
    [Word "gibson-redis-stack-0"; Rest ["sh"; "-c"; "x"]]
    [("-i", [""]); ("-n", ["gibson"]); ("-c", ["redis-stack"])]);
    [vm_compute; reflexivity|right; right; left|vm_compute; reflexivity].
Defined.


(** [pipe_order] only reorders the recorded calls: no call is lost and
    none is made up. *)
Theorem pipe_order_reorders (calls k : list (list string)) :
  pipe_order calls = Ok k → k ≡ₚ calls.
Proof. apply pipe_order_perm. Qed.

Lemma pipe_order_reorders_witness :
  [["create"; "secret"; "generic"; "x"; "--dry-run=client"]; ["apply"; "-f"; "-"]]
  ≡ₚ [["apply"; "-f"; "-"]; ["create"; "secret"; "generic"; "x"; "--dry-run=client"]].
Proof. apply pipe_order_reorders. vm_compute. reflexivity. Defined.

(** The self-test of the script: sixteen cases, of which thirteen are failing
    fixtures. *)
Lemma kubectl_rbac_selftest : selftest = Ok 0%Z.
Proof. vm_compute. reflexivity. Qed.
