(* ===== verification/SecurePod.v ===== *)
(** * scripts/check-secure-pod.py: each rendered pod is a secure pod (ADR-0165)

    Six rules on each pod template of each render, the Pod Security label of
    each namespace that holds a pod, and the list of exceptions, each pinned to
    the findings it covers by their digest. *)
From S2P Require Import Prelude PyStr PyVal Regex Sha256.
From S2P Require Cilium.

Definition NAMESPACE : string := "gibson".
Definition WORKLOADS : list string :=
  ["Deployment"; "StatefulSet"; "DaemonSet"; "Job"; "CronJob"; "Pod"].
Definition NET : string := "gibson.zeroroot.ai/".
Definition NET_ROLES : list string := ["platform"; "datastore"; "system"].
Definition REGISTRY : string := "ghcr.io/zeroroot-ai/".
Definition is_hex (c : Ascii.ascii) : bool := in_chars "0123456789abcdef" c.
(** [@sha256:[0-9a-f]{64}$] *)
Definition DIGEST : regex := RSeq [RStr "@sha256:"; RRep 64 (RChr is_hex); REnd].
Definition ENFORCE : string := "pod-security.kubernetes.io/enforce".
Definition SPIRE_NODE : list (string * string) :=
  [("DaemonSet", "agent"); ("DaemonSet", "spiffe-csi-driver")].
Definition RULES : list string :=
  ["restricted"; "read-only"; "token"; "network"; "image"; "namespace-label"].
Definition VOLUMES : list string :=
  ["configMap"; "csi"; "downwardAPI"; "emptyDir"; "ephemeral"; "persistentVolumeClaim";
   "projected"; "secret"].
Definition SAFE_SYSCTLS : list string :=
  ["kernel.shm_rmid_forced"; "net.ipv4.ip_local_port_range"; "net.ipv4.ip_unprivileged_port_start";
   "net.ipv4.tcp_syncookies"; "net.ipv4.ping_group_range"; "net.ipv4.ip_local_reserved_ports";
   "net.ipv4.tcp_keepalive_time"; "net.ipv4.tcp_fin_timeout"; "net.ipv4.tcp_keepalive_intvl";
   "net.ipv4.tcp_keepalive_probes"].
(** [SELINUX_TYPES] without its [None], which [selinux_type] adds. *)
Definition SELINUX_TYPES : list string :=
  [""; "container_t"; "container_init_t"; "container_kvm_t"; "container_engine_t"].

(** ** The parts of a workload *)

Definition ns_of (d : val) : result val := meta_namespace d NAMESPACE.

(** (pod labels, pod spec) of a workload. *)
Definition pod_of (d : val) : result (val * val) :=
  kind <- item d "kind" ;;
  if py_eq kind (VStr "Pod") then
    m <- item d "metadata" ;; labels <- get_dict m "labels" ;; spec <- get_dict d "spec" ;;
    Ok (labels, spec)
  else
    s <- item d "spec" ;;
    tmpl <- (if py_eq kind (VStr "CronJob")
             then jt <- item s "jobTemplate" ;; js <- item jt "spec" ;; item js "template"
             else item s "template") ;;
    m <- get_dict tmpl "metadata" ;; labels <- get_dict m "labels" ;;
    spec <- get_dict tmpl "spec" ;; Ok (labels, spec).

Definition containers (spec : val) : result (list val) :=
  flatM (get_list spec) ["initContainers"; "containers"; "ephemeralContainers"].

(** ** Rule 1: the Pod Security Standard "restricted" *)

Definition volume_findings (v : val) : result (list string) :=
  ks <- py_iter v ;; ks <- set_of ks ;;
  let extra := List.filter (λ k, negb (in_tuple k ("name" :: VOLUMES))) ks in
  if negb (nonempty extra) then Ok [] else
  n <- get v "name" ;;
  Ok [cat ["volume "; py_str n; ": type "; str_join ", " (sorted_set (map py_str extra))]].

Definition sysctl_findings (s : val) : result (list string) :=
  n <- get s "name" ;; safe <- in_set n SAFE_SYSCTLS ;;
  if (safe : bool) then Ok [] else Ok [cat ["sysctl "; py_str n]].

Definition apparmor_findings (kv : string * val) : list string :=
  if startswith kv.1 "container.apparmor.security.beta.kubernetes.io/" && py_eq kv.2 (VStr "unconfined")
  then ["AppArmor profile is unconfined"] else [].

(** [sorted(set(v) - {allowed})] as strings, for a message that joins them. *)
Definition extra_names (v : val) (allowed : string) : result (list string) :=
  l <- py_iter v ;; l <- set_of l ;;
  let extra := List.filter (λ x, negb (py_eq x (VStr allowed))) l in
  if forallb is_str extra then Ok (sorted_set (map py_str extra)) else Raise TypeError.

Definition selinux_type (v : val) : result bool :=
  if is_none v then Ok true else in_set v SELINUX_TYPES.

(** The security contexts of the container and of the pod, in turn. *)
Definition holder_findings (c : string) (holder : val) : result (list string) :=
  se <- get_dict holder "seLinuxOptions" ;;
  t <- get se "type" ;; known <- selinux_type t ;;
  user <- get se "user" ;; role <- get se "role" ;;
  aa <- get_dict holder "appArmorProfile" ;; at_ <- get aa "type" ;;
  Ok ((if negb known || truthy user || truthy role then [cat [c; ": seLinuxOptions"]] else [])
      ++ (if py_eq at_ (VStr "Unconfined") then [cat [c; ": AppArmor profile is unconfined"]] else [])).

Definition container_findings (psc c : val) : result (list string) :=
  n <- get c "name" ;;
  let who := cat ["container "; py_str n] in
  let bad (b : bool) (what : string) : list string := if b then [cat [who; what]] else [] in
  sc <- get_dict c "securityContext" ;;
  privileged <- get sc "privileged" ;;
  escalation <- get sc "allowPrivilegeEscalation" ;;
  caps <- get_dict sc "capabilities" ;;
  drop_ <- get caps "drop" ;;
  drops_all <- str_in "ALL" (por drop_ (VList [])) ;;
  add_ <- get caps "add" ;;
  extra <- extra_names (por add_ (VList [])) "NET_BIND_SERVICE" ;;
  pod_non_root <- get psc "runAsNonRoot" ;;
  non_root <- get_default sc "runAsNonRoot" pod_non_root ;;
  pod_user <- get psc "runAsUser" ;;
  user <- get_default sc "runAsUser" pod_user ;;
  sp <- get sc "seccompProfile" ;;
  psp <- get psc "seccompProfile" ;;
  seccomp <- get (por (por sp psp) (VDict [])) "type" ;;
  mount <- get sc "procMount" ;;
  held <- flatM (holder_findings who) [sc; psc] ;;
  ports <- get_list c "ports" ;;
  host_ports <- flatM (λ p, h <- get p "hostPort" ;; Ok (bad (truthy h) ": hostPort")) ports ;;
  Ok (bad (truthy privileged) ": privileged"
      ++ bad (negb (is_false escalation)) ": allowPrivilegeEscalation is not false"
      ++ bad (negb drops_all) ": capabilities do not drop ALL"
      ++ bad (nonempty extra) (cat [": capabilities add "; str_join ", " extra])
      ++ bad (negb (is_true non_root)) ": runAsNonRoot is not true"
      ++ bad (py_eq user (VInt 0)) ": runAsUser is 0"
      ++ bad (negb (in_tuple seccomp ["RuntimeDefault"; "Localhost"]))
           ": seccompProfile is not RuntimeDefault or Localhost"
      ++ bad (negb (is_none mount || py_eq mount (VStr "Default"))) (cat [": procMount "; py_str mount])
      ++ held ++ host_ports).

Definition rule_restricted (spec : val) : result (list string) :=
  psc <- get_dict spec "securityContext" ;;
  host <- flatM (λ field, x <- get spec field ;;
            Ok (if truthy x then [cat [field; " is true"]] else []))
            ["hostNetwork"; "hostPID"; "hostIPC"] ;;
  vs <- get_list spec "volumes" ;;
  volumes <- flatM volume_findings vs ;;
  ss <- get_list psc "sysctls" ;;
  sysctls <- flatM sysctl_findings ss ;;
  wo <- get_dict psc "windowsOptions" ;; hp <- get wo "hostProcess" ;;
  m <- get_dict spec "metadata" ;; an <- get_dict m "annotations" ;; kvs <- items an ;;
  cs <- containers spec ;;
  each <- flatM (container_findings psc) cs ;;
  Ok (sorted_set (host ++ volumes ++ sysctls
    ++ (if truthy hp then ["hostProcess is true"] else [])
    ++ flat_map apparmor_findings kvs ++ each)).

(** ** Rules 2, 3 and 5 *)

Definition rule_read_only (spec : val) : result (list string) :=
  cs <- containers spec ;;
  flatM (λ c,
    sc <- get_dict c "securityContext" ;; ro <- get sc "readOnlyRootFilesystem" ;;
    if is_true ro then Ok [] else
    n <- get c "name" ;;
    Ok [cat ["container "; py_str n; ": readOnlyRootFilesystem is not true"]]) cs.

(** The ServiceAccounts of a render, (namespace, name) -> document; a later
    document with the same key replaces an earlier one. *)
Definition account_map : Type := list (val * val * val).
Definition find_account (accounts : account_map) (ns sa : val) : result val :=
  if hashable ns && hashable sa then
    Ok (match find (λ a, py_eq a.1.1 ns && py_eq a.1.2 sa) (rev accounts) with
        | Some a => a.2 | None => VNone end)
  else Raise TypeError.

Definition rule_token (ns spec : val) (accounts : account_map) (granted : list string)
    : result (list string) :=
  name <- get spec "serviceAccountName" ;;
  let sa := por name (VStr "default") in
  own <- get spec "automountServiceAccountToken" ;;
  of_account <- (if is_none own
                 then a <- find_account accounts ns sa ;;
                      get (por a (VDict [])) "automountServiceAccountToken"
                 else Ok own) ;;
  let mounts := if is_none of_account then VBool true else of_account in
  vs <- get_list spec "volumes" ;;
  projected <- anyM (λ v,
    p <- get_dict v "projected" ;; srcs <- get_list p "sources" ;;
    anyM (str_in "serviceAccountToken") srcs) vs ;;
  let who := cat [py_str ns; "/"; py_str sa] in
  Ok (if (truthy mounts || projected) && negb (str_mem who granted)
      then [cat ["mounts a ServiceAccount token, and "; who; " has no grant on the RBAC allowlist"]]
      else []).

Definition rule_image (spec : val) : result (list string) :=
  cs <- containers spec ;;
  flatM (λ c,
    i <- get c "image" ;;
    let image := py_str (por i (VStr "")) in
    n <- get c "name" ;;
    Ok ((if startswith image REGISTRY then []
         else [cat ["container "; py_str n; ": the image is not from "; REGISTRY]])
        ++ (match re_search DIGEST image with
            | Some _ => []
            | None => [cat ["container "; py_str n; ": the image has no digest"]]
            end))) cs.

(** ** Rule 4: the network *)

(** [{cp.norm(k): v for k, v in d.items()}.get(key)] *)
Definition normed_get (d : list (string * val)) (key : string) : val :=
  foldl (λ acc '(k, v), if str_eqb (Cilium.norm_key k) key then v else acc) VNone d.

(** A rule that denies all traffic in both directions and allows DNS only. *)
Definition deny_ingress_item (r : val) : result bool :=
  ks <- py_iter r ;; ks <- set_of ks ;;
  Ok (meets ["fromEndpoints"; "fromEntities"; "fromCIDR"; "fromCIDRSet"] ks).
Definition dns_egress_item (r : val) : result bool :=
  ks <- py_iter r ;; ks <- set_of ks ;;
  if existsb (λ k, negb (in_tuple k ["toEndpoints"; "toPorts"])) ks then Ok false else
  eps <- get r "toEndpoints" ;;
  peers <- py_iter (por eps (VList [VDict []])) ;;
  dns <- allM (λ pe, ml <- get_dict pe "matchLabels" ;; kvs <- items ml ;;
                     Ok (py_eq (normed_get kvs "k8s-app") (VStr "kube-dns"))) peers ;;
  if negb dns then Ok false else
  tps <- get_list r "toPorts" ;;
  ports <- flatM (λ tp, ps <- get_list tp "ports" ;; mapR (λ pp, get pp "port") ps) tps ;;
  ports <- set_of ports ;;
  Ok (nonempty ports && forallb (py_eq (VStr "53")) ports).
Definition is_default_deny (rule : val) : result bool :=
  dd <- get_dict rule "enableDefaultDeny" ;;
  i <- get dd "ingress" ;;
  e <- get dd "egress" ;;
  if is_false i || is_false e then Ok false else
  ins <- get_list rule "ingress" ;;
  opens <- anyM deny_ingress_item ins ;;
  if (opens : bool) then Ok false else
  eg <- get rule "egress" ;;
  if negb (truthy eg) then Ok false else
  es <- py_iter eg ;;
  dns <- allM dns_egress_item es ;;
  if negb dns then Ok false else
  has <- str_in "ingress" rule ;;
  Ok (has || is_true i).

(** "<Kind>/<namespace>/<name>" *)
Definition pod_key (d : val) : result string :=
  kind <- item d "kind" ;; ns <- ns_of d ;; n <- meta_name d ;;
  Ok (cat [py_str kind; "/"; py_str ns; "/"; py_str n]).
Definition policy_key (p : val) : result string :=
  kind <- item p "kind" ;; n <- meta_name p ;; Ok (cat [py_str kind; "/"; py_str n]).

Definition is_workload (d : val) : result bool := k <- get d "kind" ;; Ok (in_tuple k WORKLOADS).

(** The pods a policy applies to: (key, namespace, labels). *)
Definition pod_entry : Type := string * val * val.
Definition pods_of (d : val) : result (list pod_entry) :=
  w <- is_workload d ;;
  if negb w then Ok [] else
  '(labels, spec) <- pod_of d ;;
  host <- get_truthy spec "hostNetwork" ;;
  if (host : bool) then Ok [] else
  key <- pod_key d ;; ns <- ns_of d ;; Ok [(key, ns, labels)].

(** The data stores: (endpoint, store), from the pods and the CNPG Clusters. *)
Definition pod_stores (p : pod_entry) : result (list (val * val)) :=
  let '(_, ns, labels) := p in
  has <- str_in (cat [NET; "datastore"]) labels ;;
  if negb has then Ok [] else
  ep <- Cilium.endpoint ns labels ;; s <- item labels (cat [NET; "datastore"]) ;; Ok [(ep, s)].
Definition cluster_stores (d : val) : result (list (val * val)) :=
  kind <- get d "kind" ;;
  if negb (py_eq kind (VStr "Cluster")) then Ok [] else
  av <- get_default d "apiVersion" (VStr "") ;;
  if negb (str_eqb (default "" (head (str_splitn 1 "/" (py_str av)))) "postgresql.cnpg.io") then Ok [] else
  spec <- get_dict d "spec" ;; im <- get_dict spec "inheritedMetadata" ;; labels <- get_dict im "labels" ;;
  ns <- ns_of d ;;
  pod_stores ("", ns, labels).

Definition rule_triple : Type := val * val * val.

(** The findings of one pod, in the order of the code. *)
Section pod_network.
Context (kube : list val) (rules : list rule_triple) (stores : list (val * val)).

Definition kube_findings (ns labels p : val) : result (list string) :=
  n <- ns_of p ;;
  if negb (py_eq n ns) then Ok [] else
  spec <- get_dict p "spec" ;; sel <- get_dict spec "podSelector" ;;
  s <- Cilium.selects sel labels ;;
  if (s : bool) then
    name <- meta_name p ;;
    Ok [cat ["NetworkPolicy/"; py_str name; " selects the pod; the release uses Cilium policies only"]]
  else Ok [].

Definition role_findings (labels : val) : result (list string) :=
  role <- get labels (cat [NET; "net-role"]) ;;
  known <- in_set role NET_ROLES ;;
  store <- str_in (cat [NET; "datastore"]) labels ;;
  Ok ((if known : bool then []
       else [cat ["the pod has no "; NET; "net-role label ("; str_join ", " (sorted_set NET_ROLES); ")"]])
      ++ (if py_eq role (VStr "datastore") && negb store
          then [cat ["a data store pod has no "; NET; "datastore label"]] else [])).

Definition cover_findings (ns labels ep : val) : result (list string) :=
  covered <- anyM (λ '(_, r, rns),
    deny <- is_default_deny r ;;
    if (deny : bool) then Cilium.rule_selects r rns ep else Ok false) rules ;;
  if negb covered then
    Ok [cat ["no CiliumClusterwideNetworkPolicy denies all traffic of the namespace "; py_str ns; " by default"]]
  else a <- flatM (kube_findings ns labels) kube ;; b <- role_findings labels ;; Ok (a ++ b).

Definition egress_findings (labels : val) (x : rule_triple) : result (list string) :=
  let '(p, r, _) := x in
  l <- get labels (cat [NET; "egress-internet"]) ;;
  let internet := py_eq l (VStr "true") in
  world <- Cilium.egress_world r ;;
  key <- policy_key p ;;
  if world && negb internet then
    Ok [cat [key; " opens egress to the internet, and the pod has no "; NET; "egress-internet label"]]
  else
    fqdn <- Cilium.egress_fqdn r ;;
    named <- str_in (cat [NET; "egress-fqdn"]) labels ;;
    if fqdn && negb internet && negb named then
      Ok [cat [key; " opens egress to host names, and the pod has no "; NET; "egress-fqdn label"]]
    else Ok [].

Definition store_findings (labels ep : val) (mine : list rule_triple) (s : val * val)
    : result (list string) :=
  let '(sep, store) := s in
  own <- get labels (cat [NET; "datastore"]) ;;
  client <- get labels (cat [NET; "client-"; py_str store]) ;;
  if py_eq own store || py_eq client (VStr "true") then Ok [] else
  out <- flatM (λ '(p, r, rns),
    hit <- Cilium.egress_reaches r rns sep None ;;
    if (hit : bool) then key <- policy_key p ;;
      Ok [cat [key; " lets the pod reach the "; py_str store; " data store, and the pod has no ";
               NET; "client-"; py_str store; " label"]]
    else Ok []) mine ;;
  inn <- flatM (λ '(p, r, rns),
    sel <- Cilium.rule_selects r rns sep ;;
    hit <- (if sel : bool then Cilium.ingress_admits r rns ep None else Ok false) ;;
    if (hit : bool) then key <- policy_key p ;;
      Ok [cat [key; " admits the pod to the "; py_str store; " data store, and the pod has no ";
               NET; "client-"; py_str store; " label"]]
    else Ok []) rules ;;
  Ok (out ++ inn).

Definition pod_network (x : pod_entry) : result (list string) :=
  let '(_, ns, labels) := x in
  ep <- Cilium.endpoint ns labels ;;
  cover <- cover_findings ns labels ep ;;
  mine <- filterM (λ '(_, r, rns), Cilium.rule_selects r rns ep) rules ;;
  egress <- flatM (egress_findings labels) mine ;;
  reach <- flatM (store_findings labels ep mine) stores ;;
  Ok (cover ++ egress ++ reach).
End pod_network.

(** The rule 4 findings of one render, by pod. *)
Definition network_findings (docs : list val) : result (list (string * list string)) :=
  pods <- flatM pods_of docs ;;
  kube <- filterM (λ p, k <- get p "kind" ;; Ok (py_eq k (VStr "NetworkPolicy"))) docs ;;
  rules <- Cilium.rules docs (VStr NAMESPACE) ;;
  of_pods <- flatM pod_stores pods ;;
  of_clusters <- flatM cluster_stores docs ;;
  foldM (λ out (x : pod_entry),
    bad <- pod_network kube rules (of_pods ++ of_clusters) x ;;
    Ok (if nonempty bad then alist_set x.1.1 (sorted_set bad) out else out)) [] pods.

(** ** The audit *)

(** The accounts of the RBAC allowlist, from its parsed file. *)
Definition granted_accounts (data : val) : result (list string) :=
  gs <- get_list (por data (VDict [])) "grants" ;;
  mapR (λ k, s <- as_str k ;; Ok (default "" (head (str_split s " -> ")))) gs.

Definition LEVELS : list string := ["privileged"; "baseline"; "restricted"].

(** [LEVELS.index(lv) if lv in LEVELS else -1] *)
Fixpoint index_of (x : string) (l : list string) : option nat :=
  match l with
  | [] => None
  | y :: l => if str_eqb x y then Some O else S <$> index_of x l
  end.
Definition level_rank (lv : string) : Z :=
  match index_of lv LEVELS with Some i => Z.of_nat i | None => (-1)%Z end.
(** [min(l, key=level_rank)]: the first of the weakest. *)
Definition weakest (l : list string) : option string :=
  foldl (λ best lv, match best with
                    | None => Some lv
                    | Some b => if (level_rank lv <? level_rank b)%Z then Some lv else Some b
                    end) None l.
Definition ENFORCE_RE : regex := RSeq [RStr ENFORCE; RStr "="; RGroup 1 (RPlus (RChr is_lower))].
(** The Pod Security level that the install script sets, from its text. *)
Definition install_enforce_label (text : string) : option string :=
  weakest (map (λ m, Regex.group_text m 1) (re_finditer ENFORCE_RE text)).

(** The namespace of the SPIRE node components, from the chart values. *)
Definition spire_namespace (path : string) (data : val) : result val :=
  g <- get_dict (por data (VDict [])) "global" ;;
  s <- get_dict g "spire" ;;
  n <- get_dict s "namespaces" ;;
  sys <- get_default n "system" (VDict []) ;;
  name <- get sys "name" ;;
  if truthy name then Ok name
  else Raise (SystemExit (cat [path; ": global.spire.namespaces.system.name is empty"])).

Definition finding_map : Type := list (string * list string).
Definition RELEASE_KEY : string := cat ["Namespace/"; NAMESPACE; " namespace-label"].

(** The namespace rules that an entry cannot cover (charts#762). *)
Definition spire_key (spire_ns d : val) : result (list string) :=
  w <- is_workload d ;;
  if negb w then Ok [] else
  ns <- ns_of d ;;
  if negb (py_eq ns spire_ns) then Ok [] else
  kind <- item d "kind" ;;
  m <- item d "metadata" ;; labels <- get_dict m "labels" ;;
  app <- get labels "app.kubernetes.io/name" ;;
  if negb (hashable app) then Raise TypeError else
  if existsb (λ '(k, a), py_eq kind (VStr k) && py_eq app (VStr a)) SPIRE_NODE then Ok [] else
  n <- item m "name" ;;
  Ok [cat [py_str kind; "/"; py_str spire_ns; "/"; py_str n]].

Definition no_entry_findings (renders : list (list val)) (found : finding_map) (listed spire_ns : val)
    : result (list string) :=
  in_listed <- str_in RELEASE_KEY listed ;;
  let in_found := bool_decide (is_Some (alist_get RELEASE_KEY found)) in
  let release :=
    if in_found || in_listed
    then [cat [RELEASE_KEY; ": the release namespace enforces restricted, and no entry can cover it (charts#762): ";
               str_join "; " (sorted_set (default ["an entry names it"] (alist_get RELEASE_KEY found)))]]
    else [] in
  if negb (truthy spire_ns) then Ok release else
  keys <- flatM (flatM (spire_key spire_ns)) renders ;;
  Ok (release ++ map (λ key, cat [key; ": only the SPIRE agent and the SPIFFE CSI driver run in the privileged namespace ";
                                  py_str spire_ns; " (charts#762)"]) (sorted_set keys)).

(** The findings of the workload [d]: its key with each rule. *)
Definition workload_findings (network : finding_map) (accounts : account_map) (granted : list string)
    (d : val) : result (list (string * list string)) :=
  w <- is_workload d ;;
  if negb w then Ok [] else
  ns <- ns_of d ;;
  key <- pod_key d ;;
  '(_, spec) <- pod_of d ;;
  restricted <- rule_restricted spec ;;
  read_only <- rule_read_only spec ;;
  token <- rule_token ns spec accounts granted ;;
  image <- rule_image spec ;;
  Ok [(cat [key; " restricted"], restricted); (cat [key; " read-only"], read_only);
      (cat [key; " token"], token); (cat [key; " network"], default [] (alist_get key network));
      (cat [key; " image"], image)].

(** The Pod Security label of one namespace that holds a pod. *)
Definition namespace_findings (labels_of_ns : list (val * val)) (release_label ns : val)
    : result (list (string * list string)) :=
  let key := cat ["Namespace/"; py_str ns; " namespace-label"] in
  let judge level :=
    Ok (if py_eq level (VStr "restricted") then []
        else [(key, [cat ["the label "; ENFORCE; " is not restricted"]])]) in
  match find (λ e, py_eq e.1 ns) (rev labels_of_ns) with
  | Some e => level <- get e.2 ENFORCE ;; judge level
  | None =>
      if py_eq ns (VStr NAMESPACE) then judge release_label
      else Ok [(key, ["the chart renders a pod in a namespace that it does not render"])]
  end.

Definition account_entry (d : val) : result account_map :=
  kind <- get d "kind" ;;
  if negb (py_eq kind (VStr "ServiceAccount")) then Ok [] else
  ns <- ns_of d ;; n <- meta_name d ;;
  if hashable ns && hashable n then Ok [(ns, n, d)] else Raise TypeError.
Definition namespace_entry (d : val) : result (list (val * val)) :=
  kind <- get d "kind" ;;
  if negb (py_eq kind (VStr "Namespace")) then Ok [] else
  m <- item d "metadata" ;; n <- item m "name" ;; labels <- get_dict m "labels" ;;
  if hashable n then Ok [(n, labels)] else Raise TypeError.
Definition used_namespace (d : val) : result (list val) :=
  w <- is_workload d ;;
  if negb w then Ok [] else ns <- ns_of d ;; set_of [ns].

(** The findings of one render. *)
Definition render_findings (granted : list string) (release_label : val) (docs : list val)
    : result (list (string * list string)) :=
  accounts <- flatM account_entry docs ;;
  labels_of_ns <- flatM namespace_entry docs ;;
  network <- network_findings docs ;;
  pods <- flatM (workload_findings network accounts granted) docs ;;
  used <- flatM used_namespace docs ;;
  sorted <- sort_vals (dedup_vals used) ;;
  spaces <- flatM (namespace_findings labels_of_ns release_label) sorted ;;
  Ok (pods ++ spaces).

(** "<Kind>/<namespace>/<name> <rule>" -> the findings, over each render. *)
Definition findings (renders : list (list val)) (granted : list string) (release_label : val)
    : result finding_map :=
  all <- flatM (render_findings granted release_label) renders ;;
  Ok (foldl (λ out '(k, xs), add_items k xs out) [] all).

Definition digest (xs : list string) : string :=
  String.substring 0 16 (sha256_hex (str_join newline (sorted_set xs))).

(** [load_exceptions] on the parsed file. *)
Definition load_exceptions (path : string) (data : val) : result val :=
  let data := por data (VDict []) in
  _ <- flatM (λ group,
    g <- get_dict data group ;; kvs <- items g ;;
    flatM (λ '(key, entry),
      let bad := Raise (SystemExit (cat [path; ": entry "; repr_str key; " must give a reason (reason:)"])) in
      if negb (is_dict entry) then bad else
      r <- get entry "reason" ;;
      if str_eqb (strip (py_str (por r (VStr "")))) "" then bad else Ok ([] : list unit)) kvs)
    ["pods"; "runtime"] ;;
  g <- get_dict data "runtime" ;; kvs <- items g ;;
  _ <- flatM (λ '(key, entry),
    rule <- get entry "rule" ;; by_ <- get entry "created_by" ;;
    if negb (in_tuple rule RULES) || negb (truthy by_)
    then Raise (SystemExit (cat [path; ": runtime entry "; repr_str key;
           " must name a rule and the workload that creates the pod (created_by:)"]))
    else Ok ([] : list unit)) kvs ;;
  Ok data.

Definition EXCEPTIONS : string := "helm/gibson/secure-pod-exceptions.yaml".

(** The verdict on one key of the findings. *)
Definition judge_key (found : finding_map) (listed : val) (key : string) : result (list string) :=
  if str_eqb key RELEASE_KEY then Ok [] else
  let xs := default [] (alist_get key found) in
  let want := digest xs in
  let text := str_join "; " (sorted_set xs) in
  entry <- get listed key ;;
  if is_none entry then
    Ok [cat [key; ": "; text; newline; "      fix the pod, or add an entry with a reason: '"; key;
             "': {digest: "; want; ", reason: ...}"]]
  else
    d <- get entry "digest" ;;
    Ok (if py_eq d (VStr want) then []
        else [cat [key; ": the findings changed (digest "; want; ", the entry has "; py_str d; "): "; text]]).

Definition stale_entry (found : finding_map) (key : string) : list string :=
  if bool_decide (is_Some (alist_get key found)) || str_eqb key RELEASE_KEY then []
  else [cat ["stale entry in "; EXCEPTIONS; " (no render has this finding): "; repr_str key]].

Definition stale_runtime (rendered : list string) (key : string) (entry : val) : result (list string) :=
  by_ <- item entry "created_by" ;;
  known <- in_set by_ rendered ;;
  Ok (if known : bool then []
      else [cat ["stale runtime entry in "; EXCEPTIONS; ": "; repr_str key; " names "; py_str by_;
                 ", and no render has that workload"]]).

Definition rendered_keys (renders : list (list val)) : result (list string) :=
  flatM (flatM (λ d, w <- is_workload d ;; if negb w then Ok [] else k <- pod_key d ;; Ok [k])) renders.

Definition audit (renders : list (list val)) (exceptions : val) (granted : list string)
    (release_label spire_ns : val) : result (list string) :=
  sees <- anyM (anyM is_workload) renders ;;
  if negb sees then Ok ["no pod in the render: this guard is blind"] else
  found <- findings renders granted release_label ;;
  listed <- get_dict exceptions "pods" ;;
  no_entry <- no_entry_findings renders found listed spire_ns ;;
  judged <- flatM (judge_key found listed) (sorted_set found.*1) ;;
  keys <- py_iter listed ;;
  let stale := flat_map (stale_entry found) (sorted_set (map py_str keys)) in
  rendered <- rendered_keys renders ;;
  rt <- get_dict exceptions "runtime" ;;
  entries <- items rt ;;
  runtime <- flatM (λ key, stale_runtime rendered key (default VNone (alist_get key entries)))
               (sorted_set entries.*1) ;;
  Ok (no_entry ++ judged ++ stale ++ runtime).

(** ** The self-test

    The secure fixture, the eighteen changes that must each give a finding,
    and the other cases of [selftest], evaluated on the model. *)

Definition zeros (n : nat) : string := cat (replicate n "0").

(** The pod of every fixture workload ([POD]). *)
Definition POD : val :=
  VDict [("serviceAccountName", VStr "app");
         ("securityContext", VDict [("runAsNonRoot", VBool true);
            ("seccompProfile", str_dict [("type", "RuntimeDefault")])]);
         ("containers", VList [VDict [("name", VStr "app");
            ("image", VStr (cat ["ghcr.io/zeroroot-ai/app@sha256:"; zeros 64]));
            ("securityContext", VDict [("allowPrivilegeEscalation", VBool false);
               ("readOnlyRootFilesystem", VBool true);
               ("capabilities", VDict [("drop", VList [VStr "ALL"])])])]])].

Definition fixture_meta (name : string) : val := str_dict [("name", name); ("namespace", "fixture")].
Definition policy_doc (name : string) (rest : list (string * val)) : val :=
  VDict ([("apiVersion", VStr "cilium.io/v2"); ("kind", VStr "CiliumNetworkPolicy");
          ("metadata", fixture_meta name)] ++ rest).
Definition sel (labels : list (string * string)) : val := VDict [("matchLabels", str_dict labels)].
Definition peers (field : string) (l : list val) : val := VDict [(field, VList l)].
Definition deployment (name : string) (labels : list (string * string)) : val :=
  VDict [("apiVersion", VStr "apps/v1"); ("kind", VStr "Deployment"); ("metadata", fixture_meta name);
         ("spec", VDict [("template", VDict [("metadata", VDict [("labels", str_dict labels)]);
                                             ("spec", POD)])])].
Definition net (s : string) : string := cat [NET; s].

(** The documents of [SECURE]. *)
Definition SECURE : list val :=
  [VDict [("apiVersion", VStr "v1"); ("kind", VStr "Namespace");
          ("metadata", VDict [("name", VStr "fixture"); ("labels", str_dict [(ENFORCE, "restricted")])])];
   VDict [("apiVersion", VStr "v1"); ("kind", VStr "ServiceAccount"); ("metadata", fixture_meta "app");
          ("automountServiceAccountToken", VBool false)];
   VDict [("apiVersion", VStr "cilium.io/v2"); ("kind", VStr "CiliumClusterwideNetworkPolicy");
          ("metadata", str_dict [("name", "fixture-default-deny")]);
          ("spec", VDict [("endpointSelector", sel [("k8s:io.kubernetes.pod.namespace", "fixture")]);
             ("enableDefaultDeny", VDict [("ingress", VBool true); ("egress", VBool true)]);
             ("ingress", VList [VDict []]);
             ("egress", VList [VDict [
                ("toEndpoints", VList [sel [("k8s:io.kubernetes.pod.namespace", "kube-system");
                                            ("k8s:k8s-app", "kube-dns")]]);
                ("toPorts", VList [VDict [("ports", VList [
                    str_dict [("port", "53"); ("protocol", "UDP")];
                    str_dict [("port", "53"); ("protocol", "TCP")]]);
                  ("rules", VDict [("dns", VList [str_dict [("matchPattern", "*")]])])]])]])])];
   policy_doc "platform" [("spec", VDict [("endpointSelector", sel [(net "net-role", "platform")]);
      ("ingress", VList [peers "fromEndpoints" [sel [(net "net-role", "platform")]]]);
      ("egress", VList [peers "toEndpoints" [sel [(net "net-role", "platform")]]])])];
   policy_doc "datastore-redis" [("specs", VList [
      VDict [("endpointSelector", sel [(net "datastore", "redis")]);
             ("ingress", VList [peers "fromEndpoints" [sel [(net "client-redis", "true")]]])];
      VDict [("endpointSelector", sel [(net "client-redis", "true")]);
             ("egress", VList [peers "toEndpoints" [sel [(net "datastore", "redis")]]])]])];
   policy_doc "egress-internet" [("spec", VDict [("endpointSelector", sel [(net "egress-internet", "true")]);
      ("egress", VList [peers "toEntities" [VStr "world"]])])];
   policy_doc "egress-fqdn-mail" [("spec", VDict [("endpointSelector", sel [(net "egress-fqdn", "mail")]);
      ("egress", VList [peers "toFQDNs" [str_dict [("matchName", "smtp.example.com")]]])])];
   deployment "mailer" [("app", "mailer"); (net "net-role", "platform"); (net "egress-fqdn", "mail")];
   deployment "app" [("app", "app"); (net "net-role", "platform"); (net "client-redis", "true")];
   deployment "web" [("app", "web"); (net "net-role", "platform")];
   deployment "redis" [("app", "redis"); (net "net-role", "datastore"); (net "datastore", "redis")]].

(** *** The changes *)
Definition workload (f : val → val) : list val → list val :=
  edit_first (λ d, is_kind "Deployment" d && named "app" d) f.
Definition web_labels (f : val → val) : list val → list val :=
  edit_first (λ d, is_kind "Deployment" d && named "web" d)
    (edit [K "spec"; K "template"; K "metadata"; K "labels"] f).
Definition cilium (name : string) (f : val → val) : list val → list val :=
  edit_first (λ d, match fld d "kind" with VStr k => startswith k "Cilium" | _ => false end && named name d) f.
Definition pod_spec_at : list place := [K "spec"; K "template"; K "spec"].
Definition container_at : list place := pod_spec_at ++ [K "containers"; I 0].

Definition privileged := workload (put (container_at ++ [K "securityContext"; K "privileged"]) (VBool true)).
Definition host_path := workload (put (pod_spec_at ++ [K "volumes"])
  (VList [VDict [("name", VStr "host"); ("hostPath", str_dict [("path", "/")])]])).
Definition root := workload (pop (pod_spec_at ++ [K "securityContext"]) "runAsNonRoot").
Definition writable := workload (pop (container_at ++ [K "securityContext"]) "readOnlyRootFilesystem").
Definition token := edit_first (is_kind "ServiceAccount") (pop [] "automountServiceAccountToken").
Definition projected_token := workload (put (pod_spec_at ++ [K "volumes"])
  (VList [VDict [("name", VStr "t"); ("projected", VDict [("sources",
     VList [VDict [("serviceAccountToken", str_dict [("path", "t")])]])])]])).
Definition no_default_deny : list val → list val :=
  List.filter (λ d, negb (named "fixture-default-deny" d)).
Definition open_default_deny :=
  cilium "fixture-default-deny" (push [K "spec"; K "egress"] (peers "toEntities" [VStr "world"])).
Definition no_role := web_labels (pop [] (net "net-role")).
Definition kubernetes_policy (docs : list val) : list val :=
  docs ++ [VDict [("apiVersion", VStr "networking.k8s.io/v1"); ("kind", VStr "NetworkPolicy");
    ("metadata", fixture_meta "web");
    ("spec", VDict [("podSelector", sel [("app", "web")]);
                    ("policyTypes", VList [VStr "Ingress"; VStr "Egress"]); ("egress", VList [VDict []])])]].
Definition store_admits_each_pod :=
  cilium "datastore-redis" (put [K "specs"; I 0; K "ingress"] (VList [peers "fromEndpoints" [VDict []]])).
Definition egress_to_store :=
  cilium "platform" (push [K "spec"; K "egress"] (peers "toEndpoints" [sel [(net "datastore", "redis")]])).
Definition internet_with_no_label :=
  cilium "platform" (push [K "spec"; K "egress"] (peers "toEntities" [VStr "world"])).
Definition fqdn_with_no_label := cilium "platform" (push [K "spec"; K "egress"]
  (peers "toFQDNs" [str_dict [("matchName", "api.example.com")]])).
Definition world_with_fqdn_label :=
  cilium "egress-fqdn-mail" (push [K "spec"; K "egress"] (peers "toEntities" [VStr "world"])).
Definition tag_only := workload (put (container_at ++ [K "image"]) (VStr "ghcr.io/zeroroot-ai/app:v1.0.0")).
Definition other_registry := workload (put (container_at ++ [K "image"])
  (VStr (cat ["docker.io/library/app@sha256:"; zeros 64]))).
Definition no_label := edit_first (is_kind "Namespace") (put [K "metadata"; K "labels"] (VDict [])).

Definition FIXTURES_THAT_MUST_FAIL : list (string * (list val → list val)) :=
  [("restricted", privileged); ("restricted", host_path); ("restricted", root);
   ("read-only", writable); ("token", token); ("token", projected_token);
   ("network", no_default_deny); ("network", open_default_deny); ("network", no_role);
   ("network", kubernetes_policy); ("network", store_admits_each_pod); ("network", egress_to_store);
   ("network", internet_with_no_label); ("network", fqdn_with_no_label);
   ("network", world_with_fqdn_label); ("image", tag_only); ("image", other_registry);
   ("namespace-label", no_label)].

(** *** The cases *)
Definition none : val := VDict [("pods", VDict []); ("runtime", VDict [])].
Definition pods_entry (key digest : string) : val :=
  VDict [("pods", VDict [(key, str_dict [("digest", digest); ("reason", "fixture")])]); ("runtime", VDict [])].
Definition clean (l : list string) : bool := negb (nonempty l).
Definition names (text : string) (l : list string) : bool := existsb (contains text) l.
Definition first_line (s : string) : string := default "" (head (str_split s newline)).

(** The release namespace is the fixture namespace, which no render holds. *)
Definition in_release (docs : list val) : list val :=
  map (λ d, if py_eq (fld (fld d "metadata") "namespace") (VStr "fixture")
            then put [K "metadata"; K "namespace"] (VStr NAMESPACE) d else d)
      (List.filter (λ d, negb (is_kind "Namespace" d)) docs).
Definition spire (docs : list val) : list val :=
  workload (put [K "metadata"; K "namespace"] (VStr "spire-fixture")) docs.
Definition spire_agent (docs : list val) : list val :=
  workload (λ d, put [K "metadata"; K "labels"] (str_dict [("app.kubernetes.io/name", "agent")])
                     (put [K "kind"] (VStr "DaemonSet") d)) (spire docs).

Definition release_want (level : val) : result string :=
  f <- findings [in_release SECURE] [] level ;;
  match alist_get RELEASE_KEY f with Some xs => Ok (digest xs) | None => Raise KeyError end.

(** Each case of [selftest], in its order: true when it holds. *)
Definition selftest_cases : list (result bool) :=
  let key := "Deployment/fixture/app read-only" in
  let run docs ex granted level := audit [docs] ex granted level VNone in
  [(got <- run SECURE none [] VNone ;; Ok (clean got))]
  ++ map (λ '(rule, fn), got <- run (fn SECURE) none [] VNone ;;
          Ok (existsb (λ line, contains (cat [" "; rule; ": "]) (first_line line)) got))
       FIXTURES_THAT_MUST_FAIL
  ++ [(got <- run (token SECURE) none ["fixture/app"] VNone ;; Ok (clean got));
      (f <- findings [writable SECURE] [] VNone ;;
       let want := digest (default [] (alist_get key f)) in
       got <- run (writable SECURE) (pods_entry key want) [] VNone ;;
       gone <- run SECURE (pods_entry key want) [] VNone ;;
       Ok (clean got && names "stale entry" gone));
      (got <- run (writable SECURE) (pods_entry key (zeros 16)) [] VNone ;; Ok (negb (clean got)));
      (got <- run SECURE (VDict [("runtime", VDict [("connector", str_dict [("rule", "image");
               ("created_by", "Deployment/fixture/gone"); ("reason", "fixture")])])]) [] VNone ;;
       Ok (names "stale runtime entry" got));
      (got <- run [] none [] VNone ;; Ok (negb (clean got)))]
  ++ map (λ level, got <- run (in_release SECURE) none [] level ;; Ok (names " namespace-label: " got))
       [VStr "baseline"; VStr "privileged"; VNone]
  ++ [(got <- run (in_release SECURE) none [] (VStr "restricted") ;; Ok (negb (names " namespace-label: " got)));
      Ok (bool_decide (install_enforce_label (cat ["kubectl label ns gibson "; ENFORCE; "=restricted"; newline])
                       = Some "restricted"));
      Ok (bool_decide (install_enforce_label (cat ["kubectl label ns gibson "; ENFORCE; "=restricted"; newline;
                                                   "kubectl label ns gibson "; ENFORCE; "=baseline"; newline])
                       = Some "baseline"));
      Ok (bool_decide (install_enforce_label (cat ["kubectl create namespace gibson"; newline]) = None))]
  ++ map (λ level, want <- release_want (VStr "privileged") ;;
          got <- run (in_release SECURE) (pods_entry RELEASE_KEY want) [] level ;;
          Ok (names "no entry can cover it" got)) [VStr "privileged"; VStr "restricted"]
  ++ [(got <- audit [SECURE] none [] VNone (VStr "spire-fixture") ;; Ok (negb (names "privileged namespace" got)));
      (got <- audit [spire SECURE] none [] VNone (VStr "spire-fixture") ;;
       Ok (names "Deployment/spire-fixture/app: only the SPIRE agent" got));
      (got <- audit [spire_agent SECURE] none [] VNone (VStr "spire-fixture") ;;
       Ok (negb (names "privileged namespace" got)))].

Definition selftest : result Z :=
  oks <- mapR id selftest_cases ;; Ok (if forallb id oks then 0 else 1)%Z.

Lemma securepod_selftest_passes : selftest = Ok 0%Z.
Proof. vm_compute. reflexivity. Qed.

(** ** What the guard promises *)

(** *** Rule 5: the digest of an image *)

(** The image ends with a sha256 digest.  Python's [$] also matches before a
    newline at the end. *)
Definition pinned (image : string) : Prop :=
  ∃ name hex tail, image = name +:+ "@sha256:" +:+ hex +:+ tail ∧
    String.length hex = 64 ∧ str_forallb is_hex hex = true ∧ (tail = "" ∨ tail = newline).

Lemma at_end_iff s : at_end s = true ↔ s = "" ∨ s = newline.
Proof.
  split; [|by intros [->| ->]]. destruct s as [|c [|]]; cbn; [by left| |done].
  unfold is_newline. intros H%Nat.eqb_eq. right.
  unfold newline. f_equal. by rewrite <- (Ascii.ascii_nat_embedding c), H.
Qed.

Lemma digest_iff image : is_Some (re_search DIGEST image) ↔ pinned image.
Proof.
  unfold re_search. transitivity (∃ m, search_from DIGEST "" None image = Some m);
    [by unfold is_Some|]. rewrite search_from_iff. unfold DIGEST, RSeq. split.
  - intros ([q t] & b & [name ->]%suffix_of_app & H).
    apply step_cat_iff in H as ([p1 s1] & H1%step_str_iff & H).
    apply step_cat_iff in H as ([p2 s2] & H2 & [-> H3]%step_end_iff).
    apply step_rep_iff in H2 as (hex & -> & Hl & Hf). cbn [snd] in *. subst t.
    exists name, hex, s2. split_and!; [done..|]. by apply at_end_iff.
  - intros (name & hex & tail & -> & Hl & Hf & Ht%at_end_iff).
    destruct (app_suffix_of name None ("@sha256:" +:+ hex +:+ tail)) as [q Hq].
    destruct (step_str "@sha256:" q (hex +:+ tail)) as [p1 H1].
    destruct (step_rep is_hex hex p1 tail Hf) as [p2 H2]. rewrite Hl in H2.
    exists (q, "@sha256:" +:+ hex +:+ tail), (p2, tail). split; [done|].
    apply step_cat_iff. exists (p1, hex +:+ tail). split; [exact H1|].
    apply step_cat_iff. exists (p2, tail). split; [exact H2|]. by apply step_end_iff.
Qed.

Definition image_of (c : val) : string := py_str (por (fld c "image") (VStr "")).

Lemma rule_image_clean spec cs :
  containers spec = Ok cs → (∀ c, c ∈ cs → is_dict c = true) →
  rule_image spec = Ok [] ↔
  ∀ c, c ∈ cs → startswith (image_of c) REGISTRY = true ∧ pinned (image_of c).
Proof.
  intros Hcs Hd. unfold rule_image. rewrite Hcs. cbn [rbind]. rewrite flatM_nil.
  apply forall_proper. intros c. split; intros H Hc; specialize (H Hc); specialize (Hd c Hc);
    destruct c; try done.
  - cbn -[DIGEST REGISTRY] in H. fold (fld (VDict d) "image") in H.
    change (default VNone (alist_get "image" d)) with (fld (VDict d) "image") in H.
    change (py_str (por (fld (VDict d) "image") (VStr ""))) with (image_of (VDict d)) in H.
    rewrite <- digest_iff. destruct (startswith (image_of _) REGISTRY); [|done].
    split; [done|]. destruct (re_search DIGEST _); [by eexists|done].
  - destruct H as [H1 [m H2]%digest_iff]. cbn -[DIGEST REGISTRY].
    change (py_str (por (default VNone (alist_get "image" d)) (VStr ""))) with (image_of (VDict d)).
    by rewrite H1, H2.
Qed.

(** *** Rule 1: a container of the restricted standard *)

(** [sc.get(k, psc.get(k))]: the field of the container, else of the pod. *)
Definition field_or (sc psc : val) (k : string) : val :=
  match sc with VDict d => default (fld psc k) (alist_get k d) | _ => fld psc k end.

Lemma get_default_or sc psc k v w :
  get psc k = Ok v → get_default sc k v = Ok w → w = field_or sc psc k.
Proof. intros ->%get_Ok. by destruct sc; cbn; intros; simplify_eq. Qed.

Definition restricted_container (psc c : val) : Prop :=
  let sc := por (fld c "securityContext") (VDict []) in
  let caps := por (fld sc "capabilities") (VDict []) in
  truthy (fld sc "privileged") = false ∧
  fld sc "allowPrivilegeEscalation" = VBool false ∧
  str_in "ALL" (por (fld caps "drop") (VList [])) = Ok true ∧
  (∃ l, py_iter (por (fld caps "add") (VList [])) = Ok l ∧ ∀ x, x ∈ l → x = VStr "NET_BIND_SERVICE") ∧
  field_or sc psc "runAsNonRoot" = VBool true ∧
  py_eq (field_or sc psc "runAsUser") (VInt 0) = false ∧
  in_tuple (fld (por (por (fld sc "seccompProfile") (fld psc "seccompProfile")) (VDict [])) "type")
    ["RuntimeDefault"; "Localhost"] = true ∧
  ∃ ports, get_list c "ports" = Ok ports ∧ ∀ p, p ∈ ports → truthy (fld p "hostPort") = false.


Lemma extra_names_nil v allowed :
  extra_names v allowed = Ok [] → ∃ l, py_iter v = Ok l ∧ ∀ x, x ∈ l → x = VStr allowed.
Proof.
  unfold extra_names. intros H. ok_inv. unfold set_of in E0.
  destruct (forallb hashable v0); ok_inv. exists v1. split; [done|]. intros x Hx.
  destruct (forallb is_str _); ok_inv. rewrite sorted_set_nil in H. apply map_eq_nil in H.
  apply (py_eq_str_r allowed). destruct (py_eq x (VStr allowed)) eqn:Ex; [done|]. exfalso.
  assert (x ∈ @nil val) as Hn; [|by apply elem_of_nil in Hn].
  rewrite <- H. apply list_elem_of_In, filter_In. rewrite Ex. by rewrite <- list_elem_of_In.
Qed.

Lemma container_findings_clean psc c : container_findings psc c = Ok [] → restricted_container psc c.
Proof.
  unfold container_findings, restricted_container, get_dict. intros H. ok_inv.
  repeat match goal with
  | E : get (por _ _) _ = Ok _ |- _ => apply get_Ok in E as ->
  | E : get c _ = Ok _ |- _ => apply get_Ok in E as ->
  end.
  repeat match goal with H : _ ++ _ = [] |- _ => apply app_eq_nil in H as [? H] end.
  rewrite ?if_cons_nil in *. subst.
  rewrite ?negb_false_iff in *. split_and!; try done.
  - by apply is_false_eq.
  - by destruct v5.
  - destruct v7; [|done]. by apply extra_names_nil.
  - apply is_true_eq. by rewrite <- (get_default_or _ _ _ _ _ E8 E9).
  - by rewrite <- (get_default_or _ _ _ _ _ E10 E11).
  - by apply get_Ok in E13 as ->.
  - exists v17. split; [done|]. rewrite flatM_nil in E18. intros p Hp. specialize (E18 p Hp).
    ok_inv. apply get_Ok in E as ->. by apply if_cons_nil in E18.
Qed.

Lemma flatM_elem_nil {A B} (f : A → result (list B)) l k x :
  flatM f l = Ok k → k = [] → x ∈ l → f x = Ok [].
Proof. intros H ->. rewrite flatM_nil in H. by apply H. Qed.

(** What a clean rule 1 says of a pod: no namespace of the host, and each
    container, init and ephemeral ones included, is restricted. *)
Lemma rule_restricted_clean spec :
  rule_restricted spec = Ok [] →
  (∀ field, field ∈ ["hostNetwork"; "hostPID"; "hostIPC"] → truthy (fld spec field) = false) ∧
  ∃ cs, containers spec = Ok cs ∧
    ∀ c, c ∈ cs → restricted_container (por (fld spec "securityContext") (VDict [])) c.
Proof.
  unfold rule_restricted. intros H. cbn [rbind] in H. apply bind_Ok in H as (psc & Hpsc & H).
  apply por_dict_fld in Hpsc as ->. apply bind_Ok in H as (host & Hhost & H). ok_inv.
  rewrite sorted_set_nil in H.
  repeat match goal with H : _ ++ _ = [] |- _ => apply app_eq_nil in H as [? H] end. subst.
  rewrite flatM_nil in Hhost. split.
  - intros field Hf. specialize (Hhost field Hf). apply bind_Ok in Hhost as (x & Hx & Hhost).
    apply get_Ok in Hx as ->. injection Hhost. by rewrite if_cons_nil.
  - eexists. split; [eassumption|]. intros c Hc. apply container_findings_clean.
    by eapply flatM_elem_nil.
Qed.

(** *** The findings of all renders, by key *)

Lemma add_items_elem k xs k' x (out : finding_map) :
  x ∈ default [] (alist_get k' (add_items k xs out)) ↔
  x ∈ default [] (alist_get k' out) ∨ k = k' ∧ x ∈ xs.
Proof.
  unfold add_items. destruct xs as [|y xs]; [set_solver|].
  destruct (decide (k = k')) as [->|Hne].
  - rewrite alist_set_eq. cbn [from_option id]. rewrite elem_of_app. naive_solver.
  - rewrite alist_set_ne by done. naive_solver.
Qed.

Lemma found_elem (all : list (string * list string)) k x (out : finding_map) :
  x ∈ default [] (alist_get k (foldl (λ out '(k, xs), add_items k xs out) out all)) ↔
  x ∈ default [] (alist_get k out) ∨ ∃ xs, (k, xs) ∈ all ∧ x ∈ xs.
Proof.
  revert out. induction all as [|[k' ys] all IH]; intros out; cbn [foldl]; [set_solver|].
  rewrite IH, add_items_elem. setoid_rewrite elem_of_cons. naive_solver.
Qed.

(** No exception names this key. *)
Definition unlisted (exceptions : val) (key : string) : Prop :=
  fld (por (fld exceptions "pods") (VDict [])) key = VNone.

Lemma judged_listed found listed key :
  judge_key found listed key = Ok [] →
  key = RELEASE_KEY ∨
  fld listed key ≠ VNone ∧ fld (fld listed key) "digest" = VStr (digest (default [] (alist_get key found))).
Proof.
  unfold judge_key. destruct (str_eqb key RELEASE_KEY) eqn:E; [by left; apply str_eqb_eq|].
  intros H. apply bind_Ok in H as (entry & He & H). apply get_Ok in He as ->. right.
  destruct (is_none (fld listed key)) eqn:En; [done|]. split; [by destruct (fld listed key)|].
  apply bind_Ok in H as (d & Hd & H). apply get_Ok in Hd as <-. injection H as H.
  by apply if_nil_cons, py_eq_str_r in H.
Qed.

Lemma no_entry_clean renders found listed spire_ns :
  no_entry_findings renders found listed spire_ns = Ok [] →
  alist_get RELEASE_KEY found = None ∧ str_in RELEASE_KEY listed = Ok false.
Proof.
  unfold no_entry_findings. intros (b & Hb & H)%bind_Ok. rewrite Hb.
  destruct (bool_decide _ || b) eqn:E.
  { exfalso. destruct (negb (truthy spire_ns)); ok_inv. }
  apply orb_false_iff in E as [E ->]. split; [|done]. apply bool_decide_eq_false in E.
  by destruct (alist_get RELEASE_KEY found); [destruct E|].
Qed.

(** A text of two characters or more that is not in a value is not among what a
    loop over the value sees. *)
Lemma str_in_iter k v l :
  str_in k v = Ok false → py_iter v = Ok l → (1 < String.length k)%nat → VStr k ∉ l.
Proof.
  destruct v as [| | |s|m|d]; try done; cbn [py_iter]; intros H [= <-] Hk Hin.
  - clear H. induction s as [|c s IH]; cbn in Hin; [by apply elem_of_nil in Hin|].
    apply elem_of_cons in Hin as [[= ->]|Hin]; [cbn in Hk; lia|by apply IH].
  - injection H as H. apply existsb_py_eq_str in Hin. congruence.
  - rewrite str_in_dict in H. injection H as H. apply bool_decide_eq_false in H. apply H.
    apply list_elem_of_In, in_map_iff in Hin as ([k' x] & [= ->] & Hin).
    apply list_elem_of_fmap. exists (k, x). by rewrite list_elem_of_In.
Qed.

Section clean_audit.
Context (renders : list (list val)) (exceptions : val) (granted : list string).
Context (release_label spire_ns : val).
Hypothesis Hclean : audit renders exceptions granted release_label spire_ns = Ok [].
Let listed := por (fld exceptions "pods") (VDict []).

Lemma clean_found :
  ∃ found, findings renders granted release_label = Ok found ∧
    alist_get RELEASE_KEY found = None ∧ str_in RELEASE_KEY listed = Ok false ∧
    (∀ key, is_Some (alist_get key found) → judge_key found listed key = Ok []) ∧
    ∃ keys, py_iter listed = Ok keys ∧ ∀ k, k ∈ keys → stale_entry found (py_str k) = [].
Proof using Hclean.
  unfold audit in Hclean. apply bind_Ok in Hclean as (sees & _ & H).
  destruct sees; [|done]. cbn [negb] in H.
  apply bind_Ok in H as (found & Hf & H). apply bind_Ok in H as (lst & Hl & H).
  apply por_dict_fld in Hl as ->. fold listed in H.
  apply bind_Ok in H as (ne & Hne & H). apply bind_Ok in H as (jd & Hj & H).
  apply bind_Ok in H as (keys & Hk & H). ok_inv.
  apply app_eq_nil in H as [-> H]. apply app_eq_nil in H as [-> H]. apply app_eq_nil in H as [Hs _].
  exists found. split_and!; [done|..].
  - by apply no_entry_clean in Hne as [? _].
  - by apply no_entry_clean in Hne as [_ ?].
  - intros key Hkey. rewrite flatM_nil in Hj. apply Hj. apply sorted_set_elem.
    destruct (decide (key ∈ found.*1)) as [|Hn]; [done|].
    apply alist_None in Hn. by destruct Hkey; simplify_eq.
  - exists keys. split; [done|]. intros k Hin. rewrite flat_map_concat_map in Hs.
    apply (proj1 (concat_nil _) Hs). apply list_elem_of_In, in_map, list_elem_of_In.
    apply sorted_set_elem, list_elem_of_In, in_map, list_elem_of_In. exact Hin.
Qed.

(** A clean audit: each row of each render without an entry is empty, and no
    entry can cover the release namespace. *)
Lemma clean_rows docs :
  docs ∈ renders →
  ∃ rows, render_findings granted release_label docs = Ok rows ∧
    ∀ key xs, (key, xs) ∈ rows → key = RELEASE_KEY ∨ unlisted exceptions key → xs = [].
Proof using Hclean.
  intros Hdocs. destruct clean_found as (found & Hf & Hrel & _ & Hj & _).
  unfold findings in Hf. apply bind_Ok in Hf as (all & Hall & Hf). injection Hf as Hf.
  destruct (flatM_Ok_elem _ _ _ _ Hall Hdocs) as [rows Hrows]. exists rows. split; [done|].
  intros key xs Hin Hkey. destruct xs as [|x xs]; [done|]. exfalso.
  assert (x ∈ default [] (alist_get key found)) as Hx.
  { rewrite <- Hf. apply found_elem. right. exists (x :: xs). split; [|left].
    apply (flatM_elem _ _ _ Hall). by exists docs, rows. }
  destruct (alist_get key found) as [ys|] eqn:Eys; [|by apply elem_of_nil in Hx].
  assert (key ≠ RELEASE_KEY) as Hne by (intros ->; congruence).
  destruct Hkey as [|Hkey]; [done|].
  destruct (judged_listed _ _ _ (Hj key ltac:(by eexists))) as [|[Hn _]]; [done|].
  by apply Hn.
Qed.
End clean_audit.

(** The rows of one workload are rows of its render. *)
Lemma workload_rows granted release_label docs rows d :
  render_findings granted release_label docs = Ok rows → d ∈ docs → is_workload d = Ok true →
  ∃ network accounts ns key labels spec restricted read_only token image,
    network_findings docs = Ok network ∧ flatM account_entry docs = Ok accounts ∧
    ns_of d = Ok ns ∧ pod_key d = Ok key ∧ pod_of d = Ok (labels, spec) ∧
    rule_restricted spec = Ok restricted ∧ rule_read_only spec = Ok read_only ∧
    rule_token ns spec accounts granted = Ok token ∧ rule_image spec = Ok image ∧
    ∀ row, row ∈ [(cat [key; " restricted"], restricted); (cat [key; " read-only"], read_only);
                  (cat [key; " token"], token);
                  (cat [key; " network"], default [] (alist_get key network));
                  (cat [key; " image"], image)] → row ∈ rows.
Proof.
  unfold render_findings. intros H Hd Hw.
  apply bind_Ok in H as (accounts & Ha & H). apply bind_Ok in H as (labels_of_ns & _ & H).
  apply bind_Ok in H as (network & Hn & H). apply bind_Ok in H as (pods & Hp & H).
  destruct (flatM_Ok_elem _ _ _ _ Hp Hd) as [mine Hmine].
  assert (∀ row, row ∈ mine → row ∈ rows) as Hin.
  { intros row Hrow. ok_inv. apply elem_of_app. left.
    apply (flatM_elem _ _ _ Hp). by exists d, mine. }
  unfold workload_findings in Hmine. rewrite Hw in Hmine. cbn [rbind negb] in Hmine.
  apply bind_Ok in Hmine as (ns & Hns & H1). apply bind_Ok in H1 as (key & Hkey & H1).
  apply bind_Ok in H1 as ([labels spec] & Hpod & H1). apply bind_Ok in H1 as (r1 & Hr1 & H1).
  apply bind_Ok in H1 as (r2 & Hr2 & H1). apply bind_Ok in H1 as (r3 & Hr3 & H1).
  apply bind_Ok in H1 as (r5 & Hr5 & H1). injection H1 as <-.
  by exists network, accounts, ns, key, labels, spec, r1, r2, r3, r5.
Qed.

Lemma rule_read_only_clean spec :
  rule_read_only spec = Ok [] →
  ∃ cs, containers spec = Ok cs ∧
    ∀ c, c ∈ cs → fld (por (fld c "securityContext") (VDict [])) "readOnlyRootFilesystem" = VBool true.
Proof.
  unfold rule_read_only. intros (cs & Hcs & H)%bind_Ok. exists cs. split; [done|].
  rewrite flatM_nil in H. intros c Hc. specialize (H c Hc).
  apply bind_Ok in H as (sc & ->%por_dict_fld & H). apply bind_Ok in H as (ro & ->%get_Ok & H).
  destruct (is_true _) eqn:E; [by apply is_true_eq|]. ok_inv.
Qed.

Lemma rule_image_sound spec :
  rule_image spec = Ok [] →
  ∃ cs, containers spec = Ok cs ∧
    ∀ c, c ∈ cs → startswith (image_of c) REGISTRY = true ∧ pinned (image_of c).
Proof.
  intros H. pose proof H as H0. unfold rule_image in H0. apply bind_Ok in H0 as (cs & Hcs & H0).
  exists cs. split; [done|]. rewrite flatM_nil in H0. apply (rule_image_clean spec cs Hcs); [|done].
  intros c Hc. specialize (H0 c Hc). by destruct c.
Qed.

(** The account of a pod holds a grant, or the pod mounts no token. *)
Definition token_of (ns spec : val) (accounts : account_map) : val :=
  let sa := por (fld spec "serviceAccountName") (VStr "default") in
  let own := fld spec "automountServiceAccountToken" in
  match find (λ a, py_eq a.1.1 ns && py_eq a.1.2 sa) (rev accounts) with
  | Some a => if is_none own then fld (por a.2 (VDict [])) "automountServiceAccountToken" else own
  | None => own
  end.

Lemma rule_token_clean ns spec accounts granted :
  rule_token ns spec accounts granted = Ok [] →
  cat [py_str ns; "/"; py_str (por (fld spec "serviceAccountName") (VStr "default"))] ∈ granted ∨
  token_of ns spec accounts ≠ VNone ∧ truthy (token_of ns spec accounts) = false.
Proof.
  unfold rule_token. intros H. apply bind_Ok in H as (name & ->%get_Ok & H).
  apply bind_Ok in H as (own & ->%get_Ok & H). apply bind_Ok in H as (acc & Hacc & H).
  apply bind_Ok in H as (vs & _ & H). apply bind_Ok in H as (prj & _ & H). injection H as H.
  apply if_cons_nil, andb_false_iff in H as [H|H].
  2: { left. apply negb_false_iff in H. by apply str_mem_elem. }
  right. apply orb_false_iff in H as [H _].
  assert (acc = token_of ns spec accounts) as ->.
  { unfold token_of. destruct (is_none (fld spec _)) eqn:En.
    - unfold find_account in Hacc. destruct (_ && _); [|done]. cbn [rbind] in Hacc.
      destruct (find _ _); apply get_Ok in Hacc as ->; [done|]. cbn.
      by destruct (fld spec "automountServiceAccountToken").
    - injection Hacc as <-. by destruct (find _ _). }
  destruct (is_none (token_of _ _ _)) eqn:En; [done|]. split; [by intros Hn; rewrite Hn in En|done].
Qed.

(** The row that [Hu] leaves without an exception is empty. *)
Ltac listed_row Hall Hin Hu :=
  refine (Hall _ _ _ (or_intror Hu)); apply Hin; repeat first [by left | right].

(** The workload [d] of a render keeps the rules that no exception covers. *)
Definition keeps_rules (docs : list val) (exceptions : val) (granted : list string) (d : val) : Prop :=
  ∃ ns key labels spec cs accounts,
    ns_of d = Ok ns ∧ pod_key d = Ok key ∧ pod_of d = Ok (labels, spec) ∧ containers spec = Ok cs ∧
    flatM account_entry docs = Ok accounts ∧
    (unlisted exceptions (cat [key; " restricted"]) →
      (∀ field, field ∈ ["hostNetwork"; "hostPID"; "hostIPC"] → truthy (fld spec field) = false) ∧
      ∀ c, c ∈ cs → restricted_container (por (fld spec "securityContext") (VDict [])) c) ∧
    (unlisted exceptions (cat [key; " read-only"]) →
      ∀ c, c ∈ cs → fld (por (fld c "securityContext") (VDict [])) "readOnlyRootFilesystem" = VBool true) ∧
    (unlisted exceptions (cat [key; " token"]) →
      cat [py_str ns; "/"; py_str (por (fld spec "serviceAccountName") (VStr "default"))] ∈ granted ∨
      token_of ns spec accounts ≠ VNone ∧ truthy (token_of ns spec accounts) = false) ∧
    (unlisted exceptions (cat [key; " image"]) →
      ∀ c, c ∈ cs → startswith (image_of c) REGISTRY = true ∧ pinned (image_of c)).



(** *** Rule 4: traffic is denied by default *)

Lemma pod_network_clean kube rules stores key ns labels :
  pod_network kube rules stores (key, ns, labels) = Ok [] →
  ∃ ep, Cilium.endpoint ns labels = Ok ep ∧ cover_findings kube rules ns labels ep = Ok [].
Proof.
  unfold pod_network. intros (ep & Hep & H)%bind_Ok. exists ep. split; [done|].
  apply bind_Ok in H as (cover & Hc & H). rewrite Hc. ok_inv.
  by apply app_eq_nil in H as [-> _].
Qed.

Lemma set_keeps {A} key key' (x : A) out : alist_get key (alist_set key' x out) = None → alist_get key out = None ∧ key ≠ key'.
Proof.
  destruct (decide (key' = key)) as [->|Hne]; [by rewrite alist_set_eq|].
  rewrite alist_set_ne by done. by intros ->.
Qed.

(** A key of the result keeps its findings, which are not empty, and a pod with
    findings leaves a key. *)
Section network_loop.
Context (kube : list val) (rules : list rule_triple) (stores : list (val * val)).
Let step (out : finding_map) (x : pod_entry) : result finding_map :=
  bad <- pod_network kube rules stores x ;;
  Ok (if nonempty bad then alist_set x.1.1 (sorted_set bad) out else out).
Let quiet (out : finding_map) : Prop := ∀ k, alist_get k out ≠ Some [].

Lemma network_step out out' x key :
  step out x = Ok out' → quiet out →
  quiet out' ∧ (alist_get key out' = None → alist_get key out = None ∧
    (x.1.1 = key → pod_network kube rules stores x = Ok [])).
Proof.
  unfold step, quiet. intros (bad & Hbad & H)%bind_Ok Hq. injection H as <-.
  destruct bad as [|y bad]; cbn [nonempty]; [naive_solver|]. split.
  - intros k. destruct (decide (x.1.1 = k)) as [<-|Hne].
    + rewrite alist_set_eq. intros H%(inj Some). by rewrite sorted_set_nil in H.
    + by rewrite alist_set_ne.
  - intros [Hn Hne]%set_keeps. split; [done|]. intros Heq. by destruct Hne.
Qed.

Lemma network_loop_clean pods out out' key :
  foldM step out pods = Ok out' → quiet out → default [] (alist_get key out') = [] →
  alist_get key out = None ∧
  ∀ x, x ∈ pods → x.1.1 = key → pod_network kube rules stores x = Ok [].
Proof.
  revert out. induction pods as [|p pods IH]; intros out H Hq Hd; cbn [foldM] in H.
  - injection H as ->. split; [|by intros x Hx%elem_of_nil].
    specialize (Hq key). destruct (alist_get key out') as [[]|]; cbn in Hd; congruence.
  - apply bind_Ok in H as (s & Hs & H). destruct (network_step _ _ _ key Hs Hq) as [Hqs Hk].
    destruct (IH s H Hqs Hd) as [Hn Hall]. destruct (Hk Hn) as [Ho Hp]. split; [done|].
    intros x [->|Hx]%elem_of_cons; auto.
Qed.
End network_loop.

Lemma cover_clean kube rules ns labels ep :
  cover_findings kube rules ns labels ep = Ok [] →
  ∃ p r rns, (p, r, rns) ∈ rules ∧ is_default_deny r = Ok true ∧ Cilium.rule_selects r rns ep = Ok true.
Proof.
  unfold cover_findings. intros (cov & Hc & H)%bind_Ok. destruct cov; [|done].
  apply anyM_true in Hc as ([[p r] rns] & Hin & H1). exists p, r, rns. split; [done|].
  apply bind_Ok in H1 as (deny & Hd & H1). by destruct deny.
Qed.

(** The workload has a policy that denies its traffic by default. *)
Definition denied_by_default (docs : list val) (labels ns : val) : Prop :=
  ∃ rules ep p r rns, Cilium.rules docs (VStr NAMESPACE) = Ok rules ∧
    Cilium.endpoint ns labels = Ok ep ∧ (p, r, rns) ∈ rules ∧
    is_default_deny r = Ok true ∧ Cilium.rule_selects r rns ep = Ok true.

(** A clean audit means that no pod has open traffic.  A workload of a
    render that is not on the network of the host, and whose network rule no
    exception covers, is selected by a rule of a policy of the same render that
    denies all traffic by default. *)
Theorem clean_audit_denies_by_default (renders : list (list val)) (exceptions : val)
    (granted : list string) (release_label spire_ns : val) (docs : list val) (d ns labels spec : val) (key : string)
    (Hclean : audit renders exceptions granted release_label spire_ns = Ok [])
    (Hdocs : docs ∈ renders) (Hd : d ∈ docs) (Hw : is_workload d = Ok true)
    (Hns : ns_of d = Ok ns) (Hkey : pod_key d = Ok key) (Hpod : pod_of d = Ok (labels, spec))
    (Hhost : get_truthy spec "hostNetwork" = Ok false)
    (Hu : unlisted exceptions (cat [key; " network"])) :
  denied_by_default docs labels ns.
Proof.
  destruct (clean_rows _ _ _ _ _ Hclean docs Hdocs) as (rows & Hrows & Hall).
  destruct (workload_rows _ _ _ _ _ Hrows Hd Hw)
    as (network & accounts & ns' & key' & labels' & spec' & r1 & r2 & r3 & r5
        & Hnet & _ & Hns' & Hkey' & Hpod' & _ & _ & _ & _ & Hin).
  rewrite Hkey in Hkey'. injection Hkey' as <-.
  assert (default [] (alist_get key network) = []) as Hn by listed_row Hall Hin Hu.
  unfold network_findings in Hnet. apply bind_Ok in Hnet as (pods & Hpods & H).
  apply bind_Ok in H as (kube & _ & H). apply bind_Ok in H as (rules & Hr & H).
  apply bind_Ok in H as (s1 & _ & H). apply bind_Ok in H as (s2 & _ & H).
  destruct (network_loop_clean _ _ _ _ _ _ key H ltac:(done) Hn) as [_ Hp].
  specialize (Hp (key, ns, labels)). destruct (pod_network_clean kube rules (s1 ++ s2) key ns labels)
    as (ep & Hep & Hc).
  { apply Hp; [|done]. apply (flatM_elem _ _ _ Hpods). exists d, [(key, ns, labels)].
    split; [done|]. split; [|left]. unfold pods_of.
    rewrite Hw, Hpod, Hkey, Hns. cbn [rbind negb]. by rewrite Hhost. }
  apply cover_clean in Hc as (p & r & rns & Hpr & Hdd & Hsel).
  by exists rules, ep, p, r, rns.
Qed.

Lemma clean_audit_denies_by_default_witness :
  denied_by_default SECURE (str_dict [("app", "web"); (net "net-role", "platform")]) (VStr "fixture").
Proof.
  apply (clean_audit_denies_by_default [SECURE] none [] VNone VNone SECURE
    (deployment "web" [("app", "web"); (net "net-role", "platform")])
    (VStr "fixture") _ POD "Deployment/fixture/web"); try (vm_compute; reflexivity).
  - left.
  - unfold SECURE; repeat first [by left | right].
Defined.

(** An item of the egress side that reaches the DNS server only. *)
Definition dns_only (e : val) : Prop :=
  (∃ ks, py_iter e = Ok ks ∧ ∀ k, k ∈ ks → in_tuple k ["toEndpoints"; "toPorts"] = true) ∧
  (∃ peers, py_iter (por (fld e "toEndpoints") (VList [VDict []])) = Ok peers ∧
    ∀ pe, pe ∈ peers → ∃ kvs, items (por (fld pe "matchLabels") (VDict [])) = Ok kvs ∧
      normed_get kvs "k8s-app" = VStr "kube-dns") ∧
  ∃ tps, py_iter (por (fld e "toPorts") (VList [])) = Ok tps ∧
    (∀ tp pp, tp ∈ tps → pp ∈ default [] (match get_list tp "ports" with Ok ps => Some ps | _ => None end) →
      fld pp "port" = VStr "53") ∧
    ∃ tp pp ps, tp ∈ tps ∧ get_list tp "ports" = Ok ps ∧ pp ∈ ps.

Lemma dns_egress_only e : dns_egress_item e = Ok true → dns_only e.
Proof.
  unfold dns_egress_item. intros (ks & Hks & H)%bind_Ok. apply bind_Ok in H as (ks' & Hs & H).
  unfold set_of in Hs. destruct (forallb hashable ks); [injection Hs as ->|done].
  destruct (existsb _ ks') eqn:Ek; [done|].
  apply bind_Ok in H as (eps & ->%get_Ok & H). apply bind_Ok in H as (peers & Hp & H).
  apply bind_Ok in H as (dns & Hd & H). destruct dns; [|done]. cbn [negb] in H.
  apply bind_Ok in H as (tps & Ht & H). unfold get_list in Ht. apply bind_Ok in Ht as (tv & ->%get_Ok & Ht).
  apply bind_Ok in H as (ports & Hps & H). apply bind_Ok in H as (ports' & Hs & H).
  unfold set_of in Hs. destruct (forallb hashable ports); [injection Hs as ->|done].
  injection H as [Hne Hall]%andb_true. split_and!.
  - exists ks'. split; [done|]. intros k Hk. destruct (in_tuple k _) eqn:Et; [done|].
    rewrite <- not_true_iff_false in Ek. destruct Ek. apply existsb_elem_of. exists k. by rewrite Et.
  - exists peers. split; [done|]. rewrite allM_true in Hd. intros pe Hpe. specialize (Hd pe Hpe).
    apply bind_Ok in Hd as (ml & ->%por_dict_fld & Hd). apply bind_Ok in Hd as (kvs & Hkvs & Hd).
    exists kvs. split; [done|]. injection Hd as Hd. by apply py_eq_str_r.
  - exists tps. split; [done|]. split.
    + intros tp pp Htp Hpp. destruct (flatM_Ok_elem _ _ _ _ Hps Htp) as [ps Hps'].
      pose proof Hps' as Hmap. apply bind_Ok in Hmap as (l & Hl & Hmap). rewrite Hl in Hpp. cbn in Hpp.
      destruct (mapR_elem_2 _ _ _ _ Hmap Hpp) as (y & Hy & Hyp). apply get_Ok in Hyp as <-.
      rewrite forallb_elem_of in Hall. apply py_eq_str, Hall. apply (flatM_elem _ _ _ Hps).
      by exists tp, ps.
    + destruct ports' as [|y ports]; [done|].
      destruct (proj1 (flatM_elem _ _ _ Hps y) ltac:(left)) as (tp & r & Htp & Hr & Hy).
      apply bind_Ok in Hr as (ps & Hl & Hmap). destruct (mapR_elem _ _ _ _ Hmap Hy) as (pp & Hpp & _).
      by exists tp, pp, ps.
Qed.

(** A rule that the guard accepts as the default deny is closed.  Neither
    direction is switched off, no item of the ingress side names a peer, and
    each item of the egress side, of which there is one, reaches only the DNS
    server, on port 53. *)
Theorem default_deny_is_closed (r : val) (H : is_default_deny r = Ok true) :
  let dd := por (fld r "enableDefaultDeny") (VDict []) in
  fld dd "ingress" ≠ VBool false ∧ fld dd "egress" ≠ VBool false ∧
  (∃ ins, py_iter (por (fld r "ingress") (VList [])) = Ok ins ∧
    ∀ i, i ∈ ins → ∃ ks, py_iter i = Ok ks ∧
      ∀ k, k ∈ ["fromEndpoints"; "fromEntities"; "fromCIDR"; "fromCIDRSet"] → VStr k ∉ ks) ∧
  truthy (fld r "egress") = true ∧
  ∃ es, py_iter (fld r "egress") = Ok es ∧ ∀ e, e ∈ es → dns_only e.
Proof.
  revert H. unfold is_default_deny. intros (dd & ->%por_dict_fld & H)%bind_Ok.
  apply bind_Ok in H as (i & ->%get_Ok & H). apply bind_Ok in H as (e & ->%get_Ok & H).
  destruct (is_false _ || is_false _) eqn:Ef; [done|]. apply orb_false_iff in Ef as [Ei Ee].
  apply bind_Ok in H as (ins & Hins & H). unfold get_list in Hins.
  apply bind_Ok in Hins as (iv & ->%get_Ok & Hins).
  apply bind_Ok in H as (opens & Ho & H). destruct opens; [done|].
  apply bind_Ok in H as (eg & ->%get_Ok & H). destruct (truthy (fld r "egress")) eqn:Et; [|done].
  cbn [negb] in H. apply bind_Ok in H as (es & Hes & H). apply bind_Ok in H as (dns & Hdns & H).
  destruct dns; [|done].
  split_and!; [by intros E; rewrite E in Ei|by intros E; rewrite E in Ee| |done|].
  - exists ins. split; [done|]. rewrite anyM_false in Ho. intros i Hi. specialize (Ho i Hi).
    apply bind_Ok in Ho as (ks & Hks & Ho). exists ks. split; [done|].
    unfold set_of in Ho. destruct (forallb hashable ks); [|done]. injection Ho as Ho.
    intros k Hk Hin. rewrite <- not_true_iff_false in Ho. destruct Ho. apply meets_true. by exists k.
  - exists es. split; [done|]. rewrite allM_true in Hdns. intros e He. by apply dns_egress_only, Hdns.
Qed.

Definition default_deny_spec : val := fld (nth 2 SECURE VNone) "spec".

Lemma default_deny_is_closed_witness :
  is_default_deny default_deny_spec = Ok true ∧
  ∃ es, py_iter (fld default_deny_spec "egress") = Ok es ∧ ∀ e, e ∈ es → dns_only e.
Proof.
  assert (is_default_deny default_deny_spec = Ok true) as H by (vm_compute; reflexivity).
  split; [exact H|]. apply (default_deny_is_closed default_deny_spec H).
Defined.

(** *** The exceptions *)

(** The exceptions of a clean audit are exact.  Each key with findings has
    an entry with the digest of exactly these findings, each entry names a key
    with findings, and neither is the release namespace. *)
Theorem clean_audit_entries_exact (renders : list (list val)) (exceptions : val)
    (granted : list string) (release_label spire_ns : val)
    (Hclean : audit renders exceptions granted release_label spire_ns = Ok []) :
  let listed := por (fld exceptions "pods") (VDict []) in
  ∃ found, findings renders granted release_label = Ok found ∧
    (∀ key xs, alist_get key found = Some xs →
      key ≠ RELEASE_KEY ∧ fld listed key ≠ VNone ∧ fld (fld listed key) "digest" = VStr (digest xs)) ∧
    ∃ keys, py_iter listed = Ok keys ∧
      ∀ k, VStr k ∈ keys → k ≠ RELEASE_KEY ∧ is_Some (alist_get k found).
Proof.
  destruct (clean_found _ _ _ _ _ Hclean) as (found & Hf & Hrel & Hno & Hj & keys & Hk & Hs).
  exists found. split; [done|]. split.
  - intros key xs Hx. destruct (judged_listed _ _ _ (Hj key ltac:(by eexists))) as [->|[Hn Hd]].
    + congruence.
    + rewrite Hx in Hd. split; [|done]. intros ->. congruence.
  - exists keys. split; [done|]. intros k Hin. specialize (Hs (VStr k) Hin).
    assert (k ≠ RELEASE_KEY) as Hne.
    { intros ->. by apply (str_in_iter _ _ _ Hno Hk); [by apply Nat.ltb_lt; vm_compute|]. }
    split; [done|]. unfold stale_entry in Hs. apply if_nil_cons, orb_true_iff in Hs as [Hs|Hs].
    + by apply bool_decide_eq_true in Hs.
    + by apply str_eqb_eq in Hs.
Qed.

(** The digest of the findings of [writable SECURE]. *)
Definition writable_key : string := "Deployment/fixture/app read-only".
Definition writable_entry : val :=
  pods_entry writable_key
    (digest (match findings [writable SECURE] [] VNone with
             | Ok f => default [] (alist_get writable_key f) | Raise _ => [] end)).

Lemma clean_audit_entries_exact_witness :
  audit [writable SECURE] writable_entry [] VNone VNone = Ok [] ∧
  ∃ found, findings [writable SECURE] [] VNone = Ok found ∧
    ∀ key xs, alist_get key found = Some xs → key ≠ RELEASE_KEY.
Proof.
  assert (audit [writable SECURE] writable_entry [] VNone VNone = Ok []) as H
    by (vm_compute; reflexivity).
  split; [exact H|].
  destruct (clean_audit_entries_exact [writable SECURE] writable_entry [] VNone VNone H)
    as (found & Hf & Hx & _).
  exists found. split; [exact Hf|]. intros key xs Hk. apply (Hx key xs Hk).
Defined.

(** *** Rule 6: the Pod Security label of the namespace *)

(** The namespace [ns] of a render enforces the restricted standard. *)
Definition enforces_restricted (docs : list val) (release_label : val) (ns : string) : Prop :=
  ∃ spaces, flatM namespace_entry docs = Ok spaces ∧
    match find (λ e, py_eq e.1 (VStr ns)) (rev spaces) with
    | Some e => fld e.2 ENFORCE = VStr "restricted"
    | None => ns = NAMESPACE ∧ release_label = VStr "restricted"
    end.

Lemma namespace_findings_clean spaces release_label ns rows :
  namespace_findings spaces release_label (VStr ns) = Ok rows →
  (∀ xs, (cat ["Namespace/"; ns; " namespace-label"], xs) ∈ rows → xs = []) →
  match find (λ e, py_eq e.1 (VStr ns)) (rev spaces) with
  | Some e => fld e.2 ENFORCE = VStr "restricted"
  | None => ns = NAMESPACE ∧ release_label = VStr "restricted"
  end.
Proof.
  unfold namespace_findings. change (py_str (VStr ns)) with ns.
  assert (∀ level r, Ok (if py_eq level (VStr "restricted") then []
    else [(cat ["Namespace/"; ns; " namespace-label"],
           [cat ["the label "; ENFORCE; " is not restricted"]])]) = Ok r →
    (∀ xs, (cat ["Namespace/"; ns; " namespace-label"], xs) ∈ r → xs = []) →
    level = VStr "restricted") as Hj.
  { intros level r [= <-] Hr. destruct (py_eq level _) eqn:E; [by apply py_eq_str_r in E|].
    specialize (Hr _ ltac:(left)). discriminate Hr. }
  destruct (find _ _) as [e|].
  - intros (level & ->%get_Ok & H)%bind_Ok Hr. by eapply Hj.
  - destruct (py_eq (VStr ns) (VStr NAMESPACE)) eqn:E; intros H Hr.
    + apply py_eq_str_r in E as [= ->]. split; [done|]. by eapply Hj.
    + injection H as <-. specialize (Hr _ ltac:(left)). discriminate Hr.
Qed.

(** A clean audit means that each namespace that holds a pod enforces the
    restricted standard, unless an exception names it; for the release
    namespace there is no exception. *)
Theorem clean_audit_labels_namespaces (renders : list (list val)) (exceptions : val)
    (granted : list string) (release_label spire_ns : val) (docs : list val) (d : val) (ns : string)
    (Hclean : audit renders exceptions granted release_label spire_ns = Ok [])
    (Hdocs : docs ∈ renders) (Hd : d ∈ docs) (Hw : is_workload d = Ok true)
    (Hns : ns_of d = Ok (VStr ns))
    (Hu : ns = NAMESPACE ∨ unlisted exceptions (cat ["Namespace/"; ns; " namespace-label"])) :
  enforces_restricted docs release_label ns.
Proof.
  destruct (clean_rows _ _ _ _ _ Hclean docs Hdocs) as (rows & Hrows & Hall).
  unfold render_findings in Hrows. apply bind_Ok in Hrows as (acc & _ & H).
  apply bind_Ok in H as (spaces & Hsp & H). apply bind_Ok in H as (net & _ & H).
  apply bind_Ok in H as (pods & _ & H). apply bind_Ok in H as (used & Hused & H).
  apply bind_Ok in H as (srt & Hsrt & H). apply bind_Ok in H as (rws & Hrws & H).
  injection H as <-. exists spaces. split; [done|].
  assert (VStr ns ∈ srt) as Hin.
  { eapply sort_vals_str; [done|]. apply dedup_str, (flatM_elem _ _ _ Hused).
    exists d, [VStr ns]. split; [done|]. split; [|left]. unfold used_namespace. rewrite Hw, Hns. done. }
  destruct (flatM_Ok_elem _ _ _ _ Hrws Hin) as [r Hr].
  apply (namespace_findings_clean _ _ _ _ Hr). intros xs Hxs.
  refine (Hall (cat ["Namespace/"; ns; " namespace-label"]) _ _ _).
  - apply elem_of_app. right. apply (flatM_elem _ _ _ Hrws). by exists (VStr ns), r.
  - destruct Hu as [->|Hu]; [by left|by right].
Qed.

Lemma clean_audit_labels_namespaces_witness :
  audit [SECURE] none [] VNone VNone = Ok [] ∧ enforces_restricted SECURE VNone "fixture".
Proof.
  assert (audit [SECURE] none [] VNone VNone = Ok []) as H by (vm_compute; reflexivity).
  split; [exact H|].
  apply (clean_audit_labels_namespaces [SECURE] none [] VNone VNone SECURE
    (deployment "web" [("app", "web"); (net "net-role", "platform")]) "fixture" H);
    [left | unfold SECURE; repeat first [by left | right] | reflexivity | reflexivity | right; reflexivity].
Defined.

(** *** The list of exceptions and the install script *)

(** A list of exceptions that loads gives a reason for each entry, and each
    runtime entry names a rule of this guard and the workload that creates the
    pod. *)
Theorem loaded_exceptions_give_reasons (path : string) (data loaded : val)
    (H : load_exceptions path data = Ok loaded) :
  loaded = por data (VDict []) ∧
  (∀ group, group ∈ ["pods"; "runtime"] →
    ∃ kvs, items (por (fld loaded group) (VDict [])) = Ok kvs ∧
      ∀ key entry, (key, entry) ∈ kvs →
        is_dict entry = true ∧ strip (py_str (por (fld entry "reason") (VStr ""))) ≠ "" ∧
        (group = "runtime" → in_tuple (fld entry "rule") RULES = true ∧
                             truthy (fld entry "created_by") = true)).
Proof.
  revert H. unfold load_exceptions. intros (u & H1 & H)%bind_Ok.
  apply bind_Ok in H as (g & ->%por_dict_fld & H). apply bind_Ok in H as (kvs & Hkvs & H).
  apply bind_Ok in H as (u' & H2 & H). injection H as <-. split; [done|]. intros group Hg.
  destruct (flatM_Ok_elem _ _ _ _ H1 Hg) as [u1 Hu].
  apply bind_Ok in Hu as (g & ->%por_dict_fld & Hu). apply bind_Ok in Hu as (kvs1 & Hkvs1 & Hu).
  exists kvs1. split; [done|]. intros key entry Hin.
  destruct (flatM_Ok_elem _ _ _ _ Hu Hin) as [u2 He]. cbn in He.
  destruct (is_dict entry) eqn:Ed; [|done]. cbn in He.
  apply bind_Ok in He as (r & ->%get_Ok & He).
  destruct (str_eqb _ "") eqn:Er in He; [done|]. split_and!; [done| |].
  - intros Hr. by rewrite Hr in Er.
  - intros ->. rewrite Hkvs in Hkvs1. injection Hkvs1 as <-.
    destruct (flatM_Ok_elem _ _ _ _ H2 Hin) as [u3 Hr]. cbn in Hr.
    apply bind_Ok in Hr as (rule & ->%get_Ok & Hr). apply bind_Ok in Hr as (by_ & ->%get_Ok & Hr).
    destruct (in_tuple _ RULES); [|done]. by destruct (truthy _).
Qed.

Definition some_exceptions : val :=
  VDict [("pods", VDict [("Deployment/gibson/app image", str_dict [("digest", "0123456789abcdef"); ("reason", "mirror")])]);
         ("runtime", VDict [("connector", str_dict [("rule", "image"); ("created_by", "Deployment/gibson/app");
                                                    ("reason", "the operator creates it")])])].

Lemma loaded_exceptions_give_reasons_witness :
  load_exceptions EXCEPTIONS some_exceptions = Ok some_exceptions ∧
  ∃ kvs, items (fld some_exceptions "runtime") = Ok kvs.
Proof.
  assert (load_exceptions EXCEPTIONS some_exceptions = Ok some_exceptions) as H by (vm_compute; reflexivity).
  split; [exact H|].
  destruct (loaded_exceptions_give_reasons EXCEPTIONS some_exceptions some_exceptions H) as [_ Hg].
  destruct (Hg "runtime" ltac:(right; left)) as (kvs & Hk & _). exists kvs. exact Hk.
Defined.

Lemma weakest_from l b :
  ∃ lv, foldl (λ best lv, match best with
                    | None => Some lv
                    | Some b => if (level_rank lv <? level_rank b)%Z then Some lv else Some b
                    end) (Some b) l = Some lv ∧
    (lv = b ∨ lv ∈ l) ∧ (level_rank lv ≤ level_rank b)%Z ∧ ∀ x, x ∈ l → (level_rank lv ≤ level_rank x)%Z.
Proof.
  revert b. induction l as [|x l IH]; intros b; cbn.
  - exists b. split_and!; [done|by left|lia|]. by intros x Hx%elem_of_nil.
  - destruct (Z.ltb_spec (level_rank x) (level_rank b)) as [Hlt|Hge];
      [destruct (IH x) as (lv & -> & Hin & Hle & Hall)|destruct (IH b) as (lv & -> & Hin & Hle & Hall)];
      exists lv; (split; [done|]); setoid_rewrite elem_of_cons; split_and!; try lia; try naive_solver lia.
Qed.

(** The level that the guard reads from the install script is one that the
    script sets, and none that the script sets is weaker; without a level in the
    script there is none. *)
Theorem install_label_is_the_weakest (text : string) :
  let levels := map (λ m, Regex.group_text m 1) (re_finditer ENFORCE_RE text) in
  match install_enforce_label text with
  | Some lv => lv ∈ levels ∧ ∀ x, x ∈ levels → (level_rank lv ≤ level_rank x)%Z
  | None => levels = []
  end.
Proof.
  cbn zeta. unfold install_enforce_label. generalize (map (λ m, Regex.group_text m 1) (re_finditer ENFORCE_RE text)).
  intros [|b l]; [done|]. unfold weakest. cbn [foldl].
  destruct (weakest_from l b) as (lv & -> & Hin & Hle & Hall). setoid_rewrite elem_of_cons.
  split; [tauto|]. naive_solver.
Qed.

(** The image rule, exactly.  On containers that are objects the rule has no
    finding when each image is from the registry and ends with a digest of 64
    hexadecimal digits (a newline may follow), and a finding otherwise. *)
Theorem rule_image_exact (spec : val) (cs : list val)
    (Hcs : containers spec = Ok cs) (Hd : ∀ c, c ∈ cs → is_dict c = true) :
  rule_image spec = Ok [] ↔
  ∀ c, c ∈ cs → startswith (image_of c) REGISTRY = true ∧ pinned (image_of c).
Proof. by apply rule_image_clean. Qed.

Lemma rule_image_exact_witness :
  ∃ cs, containers POD = Ok cs ∧
    ∀ c, c ∈ cs → startswith (image_of c) REGISTRY = true ∧ pinned (image_of c).
Proof.
  eexists. split; [vm_compute; reflexivity|].
  apply (rule_image_exact POD).
  - vm_compute; reflexivity.
  - intros c [->|Hc]%elem_of_cons; [reflexivity|by apply elem_of_nil in Hc].
  - vm_compute. reflexivity.
Defined.
