(* ===== verification/DaemonCallers.v ===== *)
(** * scripts/check-daemon-netpol-admits-callers.py

    Every in-cluster caller of the daemon is admitted by the network policy:
    the egress rules of the caller and the ingress rules of the daemon both
    allow the flow on the port that the caller names. *)
From S2P Require Import Prelude PyStr PyVal Regex.
From S2P Require Cilium.

Definition WORKLOADS : list string := ["Deployment"; "StatefulSet"; "DaemonSet"; "Job"; "CronJob"].
Definition NAMESPACE : string := "gibson".
Definition DAEMON_COMPONENT : string := "daemon".
Definition TENANT_NS : string := "tenant-example".
Definition COMPONENT : string := "app.kubernetes.io/component".
Definition TENANT_NS_LABELS : list (string * string) :=
  [("io.cilium.k8s.namespace.labels.gibson.zeroroot.ai/managed-by", "tenant-operator")].
Definition TRAINER_LABELS : list (string * string) :=
  [("app.kubernetes.io/component", "belief-trainer"); ("gibson.zeroroot.ai/managed-by", "tenant-operator")].

Definition pod_template (d : val) : result val :=
  kind <- item d "kind" ;;
  s <- item d "spec" ;;
  if py_eq kind (VStr "CronJob")
  then j <- item s "jobTemplate" ;; js <- item j "spec" ;; item js "template"
  else item s "template".

Definition pod_labels (d : val) : result val :=
  t <- pod_template d ;; m <- get_dict t "metadata" ;; get_dict m "labels".

Definition is_workload (d : val) : result bool := k <- get d "kind" ;; Ok (in_tuple k WORKLOADS).
(** The workload [d] has the component label [component]. *)
Definition has_component (component : string) (d : val) : result bool :=
  w <- is_workload d ;;
  if negb w then Ok false else
  labels <- pod_labels d ;; c <- get labels COMPONENT ;; Ok (py_eq c (VStr component)).

Definition daemon_service_names (docs : list val) : result (list val) :=
  flatM (λ d,
    kind <- get d "kind" ;;
    if negb (py_eq kind (VStr "Service")) then Ok [] else
    s <- item d "spec" ;; sel <- get_dict s "selector" ;; c <- get sel COMPONENT ;;
    if py_eq c (VStr DAEMON_COMPONENT) then n <- meta_name d ;; set_of [n] else Ok []) docs.

Definition daemon_pod (docs : list val) : result (option val) :=
  firstM (λ d,
    is_daemon <- has_component DAEMON_COMPONENT d ;;
    if negb is_daemon then Ok None else
    m <- item d "metadata" ;; ns <- get m "namespace" ;; labels <- pod_labels d ;;
    ep <- Cilium.endpoint (por ns (VStr NAMESPACE)) labels ;; Ok (Some ep)) docs.

(** A caller: its name, its pod labels and the daemon port it names. *)
Definition caller : Type := val * val * Z.

(** [\b(name1|name2|...)\b:(\d+)] *)
Definition caller_re (names : list string) : regex :=
  RSeq [RWordB; RGroup 1 (ROneOf (map RStr names)); RWordB; RStr ":"; RGroup 2 (RPlus (RChr is_digit))].

Definition ports_in (pattern : regex) (text : string) : list Z :=
  omap (λ m, int_of_str (Regex.group_text m 2)) (re_finditer pattern text).

(** The ports in the env values of one container. *)
Definition container_ports (pattern : regex) (c : val) : result (list Z) :=
  es <- get_list c "env" ;;
  flatM (λ e, v <- get e "value" ;;
              Ok (match v with VStr s => ports_in pattern s | _ => [] end)) es.

Fixpoint insert_port (p : Z) (l : list Z) : list Z :=
  match l with
  | [] => [p]
  | q :: l' => if (p <? q)%Z then p :: l else if (p =? q)%Z then l else q :: insert_port p l'
  end.
(** [sorted(set(ports))] *)
Definition sorted_ports (l : list Z) : list Z := foldr insert_port [] l.

Definition callers_of (pattern : regex) (d : val) : result (list caller) :=
  w <- is_workload d ;;
  if negb w then Ok [] else
  t <- pod_template d ;; spec <- item t "spec" ;; labels <- pod_labels d ;;
  c <- get labels COMPONENT ;;
  if py_eq c (VStr DAEMON_COMPONENT) then Ok [] else
  cs <- list_field spec "containers" ;; ics <- list_field spec "initContainers" ;;
  ports <- flatM (container_ports pattern) (cs ++ ics) ;;
  mapR (λ port, n <- meta_name d ;; Ok (n, labels, port)) (sorted_ports ports).

(** [re.escape] and the sort need the names of the Services as strings. *)
Definition callers (docs : list val) (svc_names : list val) : result (list caller) :=
  if forallb is_str svc_names
  then flatM (callers_of (caller_re (sorted_set (map py_str svc_names)))) docs
  else Raise TypeError.

Definition operator_env_port (docs : list val) (component env : string) : result (option Z) :=
  firstM (λ d,
    hit <- has_component component d ;;
    if negb hit then Ok None else
    t <- pod_template d ;; spec <- item t "spec" ;; cs <- get_list spec "containers" ;;
    firstM (λ c, es <- get_list c "env" ;;
      firstM (λ e, n <- get e "name" ;;
        if negb (py_eq n (VStr env)) then Ok None else
        v <- get e "value" ;;
        match v with
        | VStr s => match rsplit1 ":" s with
                    | Some (_, p) => z <- py_int (VStr p) ;; Ok (Some z)
                    | None => Ok None
                    end
        | _ => Ok None
        end) es) cs) docs.

(** The modeled trainer that the tenant operator starts in a tenant namespace. *)
Definition tenant_callers (docs : list val) : result (list (string * list (string * string) * Z) * list string) :=
  grpc <- operator_env_port docs "tenant-operator" "GIBSON_DAEMON_GRPC_ADDRESS" ;;
  Ok (match grpc with
      | None => ([], ["no tenant-operator GIBSON_DAEMON_GRPC_ADDRESS in the render: the trainer port is unknown"])
      | Some p => ([("belief trainer (tenant namespace)", TENANT_NS_LABELS ++ TRAINER_LABELS, p)], [])
      end).

Definition rule_triple : Type := val * val * val.

(** An ingress rule of the daemon admits [src] on [port]. *)
Definition daemon_admits (rules : list rule_triple) (daemon src : val) (port : Z) : result bool :=
  anyM (λ '(_, r, ns),
    s <- Cilium.rule_selects r ns daemon ;;
    if (s : bool) then Cilium.ingress_admits r ns src (Some port) else Ok false) rules.

(** A pod of a tenant namespace without the trainer labels reaches the daemon. *)
Definition tenant_bystander_admitted (rules : list rule_triple) (daemon : val) (port : Z) : result bool :=
  src <- Cilium.endpoint (VStr TENANT_NS) (str_dict (TENANT_NS_LABELS ++ [("toolhive-name", "example")])) ;;
  daemon_admits rules daemon src port.

Definition shown_label (kv : string * val) : bool :=
  startswith kv.1 "app.kubernetes.io/component" || startswith kv.1 "gibson.zeroroot.ai/".

Definition judge_caller (rules : list rule_triple) (daemon : val) (c : caller) : result (list string) :=
  let '(name, labels, port) := c in
  src <- Cilium.endpoint (VStr NAMESPACE) labels ;;
  ok <- Cilium.reaches rules src daemon (Some port) ;;
  if (ok : bool) then Ok [] else
  kvs <- items labels ;;
  Ok [cat [py_str name; " dials the daemon on :"; str_of_int port; " but the network policy does not allow ";
           py_str (VDict (List.filter shown_label kvs))]].

Definition judge_tenant (rules : list rule_triple) (daemon : val)
    (c : string * list (string * string) * Z) : result (list string) :=
  let '(name, labels, port) := c in
  src <- Cilium.endpoint (VStr TENANT_NS) (str_dict labels) ;;
  ok <- daemon_admits rules daemon src port ;;
  wide <- tenant_bystander_admitted rules daemon port ;;
  Ok ((if ok : bool then [] else
         [cat [name; " dials the daemon on :"; str_of_int port;
               " but no ingress rule of the daemon admits a tenant namespace"]])
      ++ (if wide : bool then
         [cat ["a pod of a tenant namespace that is not the trainer reaches the daemon on :"; str_of_int port]]
         else [])).

Definition audit (docs : list val) : result (list string) :=
  svc <- daemon_service_names docs ;;
  if negb (nonempty svc) then Ok ["no daemon Service in the render: this guard cannot see its callers"] else
  pod <- daemon_pod docs ;;
  match pod with
  | None => Ok ["no daemon pod in the render: this guard is blind"]
  | Some daemon =>
      rules <- Cilium.rules docs (VStr NAMESPACE) ;;
      selected <- anyM (λ '(_, r, ns), Cilium.rule_selects r ns daemon) rules ;;
      if negb selected then
        Ok ["no Cilium policy selects the daemon: it is unprotected, or this guard is blind"]
      else
        cs <- callers docs svc ;;
        bad <- flatM (judge_caller rules daemon) cs ;;
        '(modeled, missing) <- tenant_callers docs ;;
        tenants <- flatM (judge_tenant rules daemon) modeled ;;
        Ok (bad ++ missing ++ tenants)
  end.

(** ** The self-test of the script *)
Definition role_label (role : string) : list (string * string) :=
  if str_eqb role "" then [] else [("gibson.zeroroot.ai/net-role", role)].
Definition sel (labels : list (string * string)) : val := VDict [("matchLabels", str_dict labels)].
Definition platform : val :=
  VDict [("apiVersion", VStr "cilium.io/v2"); ("kind", VStr "CiliumNetworkPolicy");
         ("metadata", str_dict [("name", "platform"); ("namespace", NAMESPACE)]);
         ("spec", VDict [("endpointSelector", sel (role_label "platform"));
            ("ingress", VList [VDict [("fromEndpoints", VList [sel (role_label "platform")])]]);
            ("egress", VList [VDict [("toEndpoints", VList [sel (role_label "platform")])]])])].
Definition service : val :=
  VDict [("kind", VStr "Service"); ("metadata", str_dict [("name", "gibson-daemon")]);
         ("spec", VDict [("selector", str_dict [(COMPONENT, "daemon")])])].
Definition workload (component role : string) (env : bool) : val :=
  VDict [("kind", VStr "Deployment");
         ("metadata", str_dict [("name", cat ["gibson-"; component]); ("namespace", NAMESPACE)]);
         ("spec", VDict [("template", VDict [
            ("metadata", VDict [("labels", str_dict ((COMPONENT, component) :: role_label role))]);
            ("spec", VDict [("containers", VList [VDict (("name", VStr "manager") ::
               (if env then [("env", VList [str_dict [("name", "GIBSON_DAEMON_GRPC_ADDRESS");
                                                      ("value", "gibson-daemon:50051")]])] else []))])])])])].
Definition ns_exists : val :=
  VList [str_dict [("key", "k8s:io.kubernetes.pod.namespace"); ("operator", "Exists")]].
Definition tenant_peer (extra : list (string * string)) : val :=
  VDict [("matchLabels", str_dict (map (λ kv, (cat ["k8s:"; kv.1], kv.2)) TENANT_NS_LABELS ++ extra));
         ("matchExpressions", ns_exists)].
Definition tenant_policy (peer : val) : val :=
  VDict [("apiVersion", VStr "cilium.io/v2"); ("kind", VStr "CiliumNetworkPolicy");
         ("metadata", str_dict [("name", "daemon-tenant-callers"); ("namespace", NAMESPACE)]);
         ("spec", VDict [("endpointSelector", sel [(COMPONENT, "daemon")]);
            ("ingress", VList [VDict [("fromEndpoints", VList [peer]);
               ("toPorts", VList [VDict [("ports", VList [str_dict [("port", "50051"); ("protocol", "TCP")]])]])]])])].

Definition selftest : result Z :=
  let daemon := workload "daemon" "platform" false in
  let operator role := workload "tenant-operator" role true in
  let tenant := tenant_policy (tenant_peer TRAINER_LABELS) in
  let wide := tenant_policy (tenant_peer []) in
  let one text l := (length l =? 1) && contains text (default "" (head l)) in
  unadmitted <- audit [service; platform; daemon; operator "platform"] ;;
  if negb (one "tenant namespace" unadmitted) then Ok 1%Z else
  found <- audit [service; platform; wide; daemon; operator "platform"] ;;
  if negb (one "not the trainer" found) then Ok 1%Z else
  system <- audit [service; platform; tenant; daemon; operator "system"] ;;
  if negb (nonempty system) then Ok 1%Z else
  unselected <- audit [service; daemon; operator "platform"] ;;
  if negb (nonempty unselected) then Ok 1%Z else
  admitted <- audit [service; platform; tenant; daemon; operator "platform"] ;;
  Ok (if nonempty admitted then 1 else 0)%Z.

Lemma daemoncallers_selftest : selftest = Ok 0%Z.
Proof. vm_compute. reflexivity. Qed.

(** ** What the guard promises *)

Lemma judge_caller_clean rules daemon name labels port :
  judge_caller rules daemon (name, labels, port) = Ok [] →
  ∃ src, Cilium.endpoint (VStr NAMESPACE) labels = Ok src ∧
         Cilium.reaches rules src daemon (Some port) = Ok true.
Proof. unfold judge_caller. intros H. ok_inv. destruct v0; ok_inv; eauto. Qed.

Lemma judge_tenant_clean rules daemon name labels port :
  judge_tenant rules daemon (name, labels, port) = Ok [] →
  (∃ src, Cilium.endpoint (VStr TENANT_NS) (str_dict labels) = Ok src ∧
          daemon_admits rules daemon src port = Ok true) ∧
  tenant_bystander_admitted rules daemon port = Ok false.
Proof. unfold judge_tenant. intros H. ok_inv. destruct v0, v1; try done. eauto. Qed.

Lemma tenant_callers_clean docs modeled :
  tenant_callers docs = Ok (modeled, []) →
  ∃ p, operator_env_port docs "tenant-operator" "GIBSON_DAEMON_GRPC_ADDRESS" = Ok (Some p) ∧
       modeled = [("belief trainer (tenant namespace)", TENANT_NS_LABELS ++ TRAINER_LABELS, p)].
Proof. unfold tenant_callers. intros H. ok_inv. destruct v as [p|]; simplify_eq. eauto. Qed.

(** A clean audit proves the traffic it is about.  The render has a
    daemon Service and a daemon pod; for each caller the render declares, the
    egress rules of its pod and the ingress rules of the daemon both allow the
    flow on the port that it dials; the modeled trainer of a tenant namespace
    is admitted on the gRPC port; and a pod of a tenant namespace without the
    trainer labels is not. *)
Theorem clean_audit_admits_callers (docs : list val) :
  audit docs = Ok [] →
  ∃ svc daemon rules cs p,
    daemon_service_names docs = Ok svc ∧ svc ≠ [] ∧
    daemon_pod docs = Ok (Some daemon) ∧
    Cilium.rules docs (VStr NAMESPACE) = Ok rules ∧
    callers docs svc = Ok cs ∧
    (∀ name labels port, (name, labels, port) ∈ cs →
       ∃ src, Cilium.endpoint (VStr NAMESPACE) labels = Ok src ∧
              Cilium.reaches rules src daemon (Some port) = Ok true) ∧
    operator_env_port docs "tenant-operator" "GIBSON_DAEMON_GRPC_ADDRESS" = Ok (Some p) ∧
    (∃ src, Cilium.endpoint (VStr TENANT_NS) (str_dict (TENANT_NS_LABELS ++ TRAINER_LABELS)) = Ok src ∧
            daemon_admits rules daemon src p = Ok true) ∧
    tenant_bystander_admitted rules daemon p = Ok false.
Proof.
  unfold audit. intros H. ok_inv. destruct v as [|x svc]; cbn [nonempty negb] in H; [done|]. ok_inv.
  destruct v as [daemon|]; [|done]. ok_inv. destruct v0; cbn [negb] in H; [|done]. ok_inv.
  destruct v2 as [modeled missing]. ok_inv.
  apply app_eq_nil in H as [-> [-> ->]%app_eq_nil].
  apply tenant_callers_clean in E5 as (p & Hp & ->).
  rewrite flatM_nil in E4. rewrite flatM_nil in E6.
  specialize (E6 _ (list_elem_of_here _ _)). apply judge_tenant_clean in E6 as [Ht Hb].
  exists (x :: svc), daemon, v, v0, p. repeat split; try done.
  intros name labels port Hin. by apply (judge_caller_clean _ _ name), E4.
Qed.

Definition admitted_render : list val :=
  [service; platform; tenant_policy (tenant_peer TRAINER_LABELS); workload "daemon" "platform" false;
   workload "tenant-operator" "platform" true].
Lemma clean_audit_admits_callers_witness :
  ∃ svc daemon rules cs p,
    daemon_service_names admitted_render = Ok svc ∧ svc ≠ [] ∧
    daemon_pod admitted_render = Ok (Some daemon) ∧
    Cilium.rules admitted_render (VStr NAMESPACE) = Ok rules ∧
    callers admitted_render svc = Ok cs ∧
    (∀ name labels port, (name, labels, port) ∈ cs →
       ∃ src, Cilium.endpoint (VStr NAMESPACE) labels = Ok src ∧
              Cilium.reaches rules src daemon (Some port) = Ok true) ∧
    operator_env_port admitted_render "tenant-operator" "GIBSON_DAEMON_GRPC_ADDRESS" = Ok (Some p) ∧
    (∃ src, Cilium.endpoint (VStr TENANT_NS) (str_dict (TENANT_NS_LABELS ++ TRAINER_LABELS)) = Ok src ∧
            daemon_admits rules daemon src p = Ok true) ∧
    tenant_bystander_admitted rules daemon p = Ok false.
Proof. apply clean_audit_admits_callers. vm_compute. reflexivity. Defined.
