(* ===== verification/OwnerCreds.v ===== *)
(** * scripts/check-owner-credential-readers.py: who reads an owner credential

    The guard finds each workload that mounts an owner Secret, each
    ServiceAccount that RBAC lets read one, and each ServiceAccount that can
    become such a workload (a takeover), and compares the three with the
    allowlist of the repository. *)
From S2P Require Import Prelude PyStr PyVal Regex.

Definition NS : string := "gibson".
Definition READ_VERBS : list string := ["get"; "list"; "watch"].
Definition ALL_SA_GROUPS : list string := ["system:serviceaccounts"; "system:authenticated"].

(** ** Pod specs *)

(** The pod spec of a workload, [VNone] for another document. *)
Definition pod_spec (d : val) : result val :=
  kind <- get d "kind" ;; spec <- get_dict d "spec" ;;
  if py_eq kind (VStr "Pod") then Ok spec
  else if py_eq kind (VStr "CronJob") then
    jt <- get_dict spec "jobTemplate" ;; js <- get_dict jt "spec" ;; t <- get_dict js "template" ;;
    get t "spec"
  else if in_tuple kind ["Deployment"; "StatefulSet"; "DaemonSet"; "ReplicaSet"; "Job"] then
    t <- get_dict spec "template" ;; get t "spec"
  else Ok VNone.

(** The use of an owner Secret: its name and its keys. *)
Definition use : Type := string * val.

Definition keys_of (items : val) : result val :=
  l <- py_iter (por items (VList [])) ;;
  ks <- mapR (λ i, get_default i "key" (VStr "")) l ;;
  if forallb is_str ks then Ok (por (VStr (str_join "," (sorted_strs (map py_str ks)))) (VStr "*"))
  else Raise TypeError.

Section secret_uses.
Context (owner : list string).

(** A [secret] of a volume or of a projected source. *)
Definition secret_source (field : string) (s : val) : result (list use) :=
  if negb (truthy s) then Ok [] else
  n <- get s field ;; hit <- in_set n owner ;;
  if negb hit then Ok [] else
  its <- get s "items" ;; ks <- keys_of its ;; Ok [(py_str n, ks)].

Definition volume_uses (v : val) : result (list use) :=
  s <- get v "secret" ;; a <- secret_source "secretName" s ;;
  p <- get_dict v "projected" ;; srcs <- get_list p "sources" ;;
  b <- flatM (λ src, s <- get src "secret" ;; secret_source "name" s) srcs ;;
  Ok (a ++ b).

Definition env_use (e : val) : result (list use) :=
  vf <- get_dict e "valueFrom" ;; ref <- get_dict vf "secretKeyRef" ;;
  n <- get ref "name" ;; hit <- in_set n owner ;;
  if negb hit then Ok [] else
  k <- get ref "key" ;; ks <- set_of [por k (VStr "*")] ;; Ok (map (λ x, (py_str n, x)) ks).

Definition env_from_use (e : val) : result (list use) :=
  ref <- get_dict e "secretRef" ;; n <- get ref "name" ;; hit <- in_set n owner ;;
  Ok (if hit : bool then [(py_str n, VStr "*")] else []).

Definition container_uses (c : val) : result (list use) :=
  es <- get_list c "env" ;; a <- flatM env_use es ;;
  fs <- get_list c "envFrom" ;; b <- flatM env_from_use fs ;;
  Ok (a ++ b).

(** Each owner Secret that the pod spec hands to a container. *)
Definition secret_uses (ps : val) : result (list use) :=
  vs <- get_list ps "volumes" ;; a <- flatM volume_uses vs ;;
  i <- list_field ps "initContainers" ;; c <- list_field ps "containers" ;;
  e <- list_field ps "ephemeralContainers" ;;
  b <- flatM container_uses (i ++ c ++ e) ;;
  Ok (a ++ b).

Definition mount_readers (docs : list val) (ns : string) : result (list string) :=
  flatM (λ d,
    ps <- pod_spec d ;;
    if is_none ps then Ok [] else
    m <- item d "metadata" ;; n <- get m "namespace" ;;
    if negb (py_eq (por n (VStr ns)) (VStr ns)) then Ok [] else
    uses <- secret_uses ps ;;
    mapR (λ '(secret, keys), kind <- item d "kind" ;; name <- meta_name d ;;
      Ok (cat [py_str kind; "/"; py_str name; " "; secret; "["; py_str keys; "]"])) uses) docs.
End secret_uses.

(** ** RBAC *)

(** [x in (rule.get(field) or []) or "*" in (rule.get(field) or [])] *)
Definition lists (rule : val) (field x : string) : result bool :=
  l <- get rule field ;;
  let l := por l (VList []) in orR (str_in x l) (str_in "*" l).

Definition rule_allows (rule : val) (verb : string) (name : option string) : result bool :=
  g <- lists rule "apiGroups" "" ;; if negb g then Ok false else
  r <- lists rule "resources" "secrets" ;; if negb r then Ok false else
  v <- lists rule "verbs" verb ;; if negb v then Ok false else
  names <- get rule "resourceNames" ;;
  if negb (truthy names) then Ok true else
  match name with Some n => str_in n names | None => Ok false end.

(** One expression of [matches_selector]: true when it returns [False]. *)
Definition expr_rejects (labels e : val) : result bool :=
  key <- item e "key" ;; x <- get_v labels key ;; op <- item e "operator" ;; vs <- get e "values" ;;
  let vals := por vs (VList []) in
  r1 <- (if py_eq op (VStr "In") then notR (val_in x vals) else Ok false) ;;
  if r1 : bool then Ok true else
  r2 <- (if py_eq op (VStr "NotIn") then val_in x vals else Ok false) ;;
  if r2 : bool then Ok true else
  r3 <- (if py_eq op (VStr "Exists") then notR (val_in key labels) else Ok false) ;;
  if r3 : bool then Ok true else
  if py_eq op (VStr "DoesNotExist") then val_in key labels else Ok false.
Definition matches_selector (labels sel : val) : result bool :=
  ml <- get_dict sel "matchLabels" ;; kvs <- items ml ;;
  ok <- allM (λ '(k, v), x <- get labels k ;; Ok (py_eq x v)) kvs ;;
  if negb ok then Ok false else
  es <- get_list sel "matchExpressions" ;;
  notR (anyM (expr_rejects labels) es).

(** A rule of the tables below: its groups, resources and verbs. *)
Definition rule_of (groups resources verbs : list string) : val :=
  VDict [("apiGroups", VList (map VStr groups)); ("resources", VList (map VStr resources));
         ("verbs", VList (map VStr verbs))].
(** Built-in ClusterRoles a chart may bind. *)
Definition BUILTIN_ROLES : list (string * list val) :=
  [("cluster-admin", [rule_of ["*"] ["*"] ["*"]]);
   ("admin", [rule_of [""] ["secrets"] READ_VERBS]);
   ("edit", [rule_of [""] ["secrets"] READ_VERBS]);
   ("view", []);
   ("system:auth-delegator", [])].

Definition roles : Type := list (tkey * val).

Definition is_kind_of (k : string) (d : val) : result bool := x <- get d "kind" ;; Ok (py_eq x (VStr k)).

Definition role_entry (default_ns : val) (d : val) : result roles :=
  r <- is_kind_of "Role" d ;;
  if negb r then Ok [] else
  m <- item d "metadata" ;; n <- get m "namespace" ;; nm <- item m "name" ;; rs <- get d "rules" ;;
  key <- hash_tkey (VStr "Role", por n default_ns, nm) ;;
  Ok [(key, por rs (VList []))].

(** A ClusterRole with the rules that its aggregation selects from the other
    ClusterRoles; a ClusterRole is its place in the list. *)
Definition cluster_role_entry (crs : list val) (id : nat * val) : result roles :=
  let '(i, d) := id in
  own <- get_list d "rules" ;;
  ag <- get_dict d "aggregationRule" ;; sels <- get_list ag "clusterRoleSelectors" ;;
  more <- flatM (λ sel, flatM (λ '(j, other),
    if (i =? j) then Ok [] else
    m <- item other "metadata" ;; labels <- get_dict m "labels" ;;
    hit <- matches_selector labels sel ;;
    if hit : bool then get_list other "rules" else Ok []) (imap pair crs)) sels ;;
  nm <- meta_name d ;;
  key <- hash_tkey (VStr "ClusterRole", VStr "", nm) ;;
  Ok [(key, VList (own ++ more))].

Definition role_rules (docs : list val) (default_ns : val) : result roles :=
  rs <- flatM (role_entry default_ns) docs ;;
  crs <- filterM (is_kind_of "ClusterRole") docs ;;
  cs <- flatM (cluster_role_entry crs) (imap pair crs) ;;
  Ok (rs ++ cs).

(** The namespace of a binding: [VNone] for a ClusterRoleBinding. *)
Definition binding_ns (kind d default_ns : val) : result val :=
  if py_eq kind (VStr "RoleBinding")
  then m <- item d "metadata" ;; n <- get m "namespace" ;; Ok (por n default_ns)
  else Ok VNone.

(** The rules of the role that a binding in [bns] names, when they are known. *)
Definition find_rules (rs : roles) (ref bns : val) : result (option val) :=
  kind <- get ref "kind" ;; name <- get ref "name" ;;
  o <- tkey_get rs (kind, if py_eq kind (VStr "Role") then bns else VStr "", name) ;;
  match o with
  | Some r => Ok (Some r)
  | None =>
      Ok (if py_eq kind (VStr "ClusterRole")
          then match name with VStr n => VList <$> alist_get n BUILTIN_ROLES | _ => None end
          else None)
  end.

Definition any_rule (rules : val) (p : val → result bool) : result bool :=
  rs <- py_iter rules ;; anyM p rs.

(** The reads of an owner Secret that the rules hold. *)
Definition held_reads (owner : list string) (rules : val) : result (list string) :=
  flatM (λ verb,
    wide <- any_rule rules (λ r, rule_allows r verb None) ;;
    if wide : bool then Ok [cat [verb; " secrets"]] else
    flatM (λ name, hit <- any_rule rules (λ r, rule_allows r verb (Some name)) ;;
                   Ok (if hit : bool then [cat [verb; " "; name]] else [])) owner) READ_VERBS.

(** A group that holds every ServiceAccount. *)
Definition all_sa_group (g : val) : result bool :=
  if in_tuple g ALL_SA_GROUPS then Ok true
  else s <- as_str g ;; Ok (startswith s "system:serviceaccounts:").

(** The ServiceAccount of a subject: its namespace, or the binding's. *)
Definition subject_account (s bns default_ns : val) : result string :=
  n <- get s "namespace" ;; name <- item s "name" ;;
  Ok (cat [py_str (por (por n bns) default_ns); "/"; py_str name]).

(** Reads as (ServiceAccount, read) pairs, and errors. *)
Definition subject_reads (default_ns kind d bns : val) (held : list string) (s : val)
    : result (list (string * string) * list string) :=
  skind <- get s "kind" ;;
  if py_eq skind (VStr "Group") then
    g <- get_default s "name" (VStr "") ;;
    all <- all_sa_group g ;;
    if negb all then Ok ([], []) else
    n <- meta_name d ;;
    Ok ([], [cat [py_str kind; " "; py_str n; " grants "; str_of_strs (sorted_set held); " to group ";
                  py_str g; ", which holds every ServiceAccount"]])
  else if negb (py_eq skind (VStr "ServiceAccount")) then Ok ([], [])
  else subj <- subject_account s bns default_ns ;; Ok (map (pair subj) held, []).

Definition concat2 {A B} (l : list (list A * list B)) : list A * list B :=
  (concat l.*1, concat l.*2).

Definition binding_reads (owner : list string) (default_ns : val) (rs : roles) (d : val)
    : result (list (string * string) * list string) :=
  kind <- get d "kind" ;;
  if negb (in_tuple kind ["RoleBinding"; "ClusterRoleBinding"]) then Ok ([], []) else
  bns <- binding_ns kind d default_ns ;;
  (* A RoleBinding elsewhere cannot reach namespace gibson. *)
  if negb (is_none bns) && negb (py_eq bns (VStr NS)) then Ok ([], []) else
  ref <- get_dict d "roleRef" ;;
  o <- find_rules rs ref bns ;;
  match o with
  | None =>
      n <- meta_name d ;; rkind <- get ref "kind" ;; rname <- get ref "name" ;;
      Ok ([], [cat [py_str kind; " "; py_str n; " binds "; py_str rkind; "/"; py_str rname;
                    ", which the render does not contain, so its Secret reach is unknown"]])
  | Some rules =>
      held <- held_reads owner rules ;;
      if negb (nonempty held) then Ok ([], []) else
      ss <- get_list d "subjects" ;;
      l <- mapR (subject_reads default_ns kind d bns held) ss ;;
      Ok (concat2 l)
  end.

Definition can_read (docs : list val) (owner : list string) (default_ns : val)
    : result (list (string * string) * list string) :=
  rs <- role_rules docs default_ns ;;
  l <- mapR (binding_reads owner default_ns rs) docs ;;
  Ok (concat2 l).

(** ** Takeover *)

Definition POWERS : list string := ["exec"; "patch"; "create-pod"; "token"; "impersonate"; "bind"].
Definition RBAC_GROUP : string := "rbac.authorization.k8s.io".
Definition KIND_RESOURCE : list (string * (string * string)) :=
  [("Deployment", ("apps", "deployments")); ("StatefulSet", ("apps", "statefulsets"));
   ("DaemonSet", ("apps", "daemonsets")); ("ReplicaSet", ("apps", "replicasets"));
   ("CronJob", ("batch", "cronjobs")); ("Pod", ("", "pods"))].
(** Every resource whose create makes a Pod run. *)
Definition POD_MAKERS : list (string * string) :=
  [("", "pods"); ("", "replicationcontrollers"); ("apps", "deployments"); ("apps", "statefulsets");
   ("apps", "daemonsets"); ("apps", "replicasets"); ("batch", "jobs"); ("batch", "cronjobs")].
Definition EXEC_SUBRESOURCES : list (string * list string) :=
  [("pods/exec", ["create"; "get"]); ("pods/attach", ["create"; "get"]);
   ("pods/ephemeralcontainers", ["patch"; "update"])].

(** The entries of a rule that match a resource. *)
Definition resource_patterns (resource : string) : list string :=
  ["*"; resource]
  ++ match split1 "/" resource with
     | Some (base, sub) => [cat [base; "/*"]; cat ["*/"; sub]]
     | None => []
     end.
Definition resource_matches (listed : val) (resource : string) : result bool :=
  l <- py_iter listed ;; Ok (existsb (λ r, in_tuple r (resource_patterns resource)) l).

(** (granted, for every name, the names) for any of the verbs. *)
Record granted := Granted { hit : bool; every : bool; names : list val }.

Definition grant_rule (group resource : string) (verbs : list string) (acc : granted) (r : val)
    : result granted :=
  g <- lists r "apiGroups" group ;; if negb g then Ok acc else
  rl <- get r "resources" ;; m <- resource_matches (por rl (VList [])) resource ;;
  if negb m then Ok acc else
  v <- anyM (lists r "verbs") verbs ;; if negb v then Ok acc else
  rn <- get r "resourceNames" ;;
  let rn := por rn (VList []) in
  if truthy rn then l <- py_iter rn ;; l <- set_of l ;; Ok (Granted true (every acc) (names acc ++ l))
  else Ok (Granted true true (names acc)).
Definition grant (rules : val) (group resource : string) (verbs : list string) : result granted :=
  rs <- py_iter rules ;; foldM (grant_rule group resource verbs) (Granted false false []) rs.

(** [name + r"-\d+"] *)
Definition ordinal_re (name : string) : regex := RSeq [RStr name; RStr "-"; RPlus (RChr is_digit)].

Definition pod_named (kind name : val) (ns : list val) : result bool :=
  if py_eq kind (VStr "Pod") then
    if hashable name then Ok (existsb (py_eq name) ns) else Raise TypeError
  else if py_eq kind (VStr "StatefulSet") then
    anyM (λ n, match name, n with
               | VStr name, VStr n => Ok (bool_decide (is_Some (re_fullmatch (ordinal_re name) n)))
               | _, _ => Raise TypeError
               end) ns
  else Ok false.

Record workload := Workload { w_kind : val; w_name : val; w_ns : val; w_sa : val; w_spec : val }.
(** "<namespace>/<serviceaccount>" *)
Definition w_account (w : workload) : string := cat [py_str (w_ns w); "/"; py_str (w_sa w)].
Definition w_id (w : workload) : string := cat [py_str (w_kind w); "/"; py_str (w_name w)].

Definition workloads (docs : list val) (default_ns : val) : result (list workload) :=
  flatM (λ d,
    ps <- pod_spec d ;;
    if is_none ps then Ok [] else
    kind <- item d "kind" ;; m <- item d "metadata" ;; name <- item m "name" ;; n <- get m "namespace" ;;
    a <- get ps "serviceAccountName" ;;
    b <- (if truthy a then Ok a else get ps "serviceAccount") ;;
    Ok [Workload kind name (por n default_ns) (por b (VStr "default")) ps]) docs.

(** [w] is in the release namespace and its pod uses an owner Secret. *)
Definition mounts_owner (owner : list string) (w : workload) : result bool :=
  if negb (py_eq (w_ns w) (VStr NS)) then Ok false else
  uses <- secret_uses owner (w_spec w) ;; Ok (nonempty uses).

(** The reader workloads and the reader ServiceAccounts. *)
Definition reader_targets (wls : list workload) (owner reader_sas : list string)
    : result (list workload * list string) :=
  more <- filterM (mounts_owner owner) wls ;;
  let sas := reader_sas ++ map w_account more in
  targets <- filterM (λ w, if str_mem (w_account w) sas then Ok true else mounts_owner owner w) wls ;;
  Ok (targets, sas).

Definition role_is_reader (rules : val) (owner : list string) : result bool :=
  anyM (λ verb,
    orR (any_rule rules (λ r, rule_allows r verb None))
        (any_rule rules (λ r, anyM (λ n, rule_allows r verb (Some n)) owner))) READ_VERBS.

(** The powers of the rules of one binding: (power, target) pairs.  The
    binding is effective in [bns], [VNone] for every namespace.  A holder
    never counts against itself. *)
Section powers.
Context (rules bns : val) (holder : string) (targets : list workload) (sas : list string).

Definition in_scope (ns : val) : bool := is_none bns || py_eq bns ns.

Definition grants (group resource : string) (verbs : list string) : result bool :=
  g <- grant rules group resource verbs ;; Ok (hit g).
(** A grant on pods that reaches the pods of [w]. *)
Definition reaches_pods (w : workload) (resource : string) (verbs : list string) : result bool :=
  g <- grant rules "" resource verbs ;;
  andR (Ok (hit g)) (orR (Ok (every g)) (pod_named (w_kind w) (w_name w) (names g))).
(** A grant that reaches the object [name]. *)
Definition reaches_object (group resource : string) (verbs : list string) (name : val) : result bool :=
  g <- grant rules group resource verbs ;;
  andR (Ok (hit g)) (orR (Ok (every g))
    (if hashable name then Ok (existsb (py_eq name) (names g)) else Raise TypeError)).

Definition when (b : bool) (power target : string) : list (string * string) :=
  if b then [(power, target)] else [].

Definition workload_powers (node_exec : bool) (w : workload) : result (list (string * string)) :=
  if negb (in_scope (w_ns w)) || str_eqb (w_account w) holder then Ok [] else
  execs <- flatM (λ '(sub, verbs), b <- reaches_pods w sub verbs ;; Ok (when b "exec" (w_id w)))
             EXEC_SUBRESOURCES ;;
  pods <- reaches_pods w "pods" ["patch"; "update"] ;;
  _ <- set_of [w_kind w] ;;
  object <- match alist_get (py_str (w_kind w)) KIND_RESOURCE with
            | Some (g, r) =>
                if py_eq (w_kind w) (VStr "Pod") then Ok false
                else reaches_object g r ["patch"; "update"] (w_name w)
            | None => Ok false
            end ;;
  Ok (when node_exec "exec" (w_id w) ++ execs ++ when pods "patch" (w_id w)
      ++ when object "patch" (w_id w)).

Definition account_powers (sa : string) : result (list (string * string)) :=
  if str_eqb sa holder then Ok [] else
  match split1 "/" sa with
  | None => Raise ValueError
  | Some (ns, name) =>
      let target := cat ["ServiceAccount/"; sa] in
      scoped <- (if in_scope (VStr ns) then
        t <- reaches_object "" "serviceaccounts/token" ["create"] (VStr name) ;;
        i <- reaches_object "" "serviceaccounts" ["impersonate"] (VStr name) ;;
        Ok (when t "token" target ++ when i "impersonate" target)
      else Ok []) ;;
      user <- (if is_none bns then
        reaches_object "" "users" ["impersonate"] (VStr (cat ["system:serviceaccount:"; ns; ":"; name]))
      else Ok false) ;;
      Ok (scoped ++ when user "impersonate" target)
  end.

(** The powers at [depth] 1: all of them but [bind]. *)
Definition direct_powers : result (list (string * string)) :=
  node_exec <- (if is_none bns then grants "" "nodes/proxy" ["get"; "create"] else Ok false) ;;
  ws <- flatM (workload_powers node_exec) targets ;;
  makes <- (if in_scope (VStr NS)
            then anyM (λ '(g, r), grants g r ["create"]) POD_MAKERS else Ok false) ;;
  accounts <- flatM account_powers (sorted_set sas) ;;
  Ok (ws ++ when makes "create-pod" (cat ["Namespace/"; NS]) ++ accounts).
End powers.

(** The [bind] power, and all powers of a binding ([depth] 0).  A role that
    the holder may bind is judged at depth 1, where no role is bound again. *)
Section bind.
Context (rules bns : val) (holder : string) (targets : list workload) (sas : list string).
Context (roles_by_ref : string → val → result (option val)) (owner : list string).

Definition bound_is_power (kind : string) (n : val) : result bool :=
  o <- roles_by_ref kind n ;;
  match o with
  | None => Ok true
  | Some bound =>
      orR (role_is_reader bound owner)
          (ps <- direct_powers bound (VStr NS) holder targets sas ;; Ok (nonempty ps))
  end.
Definition bind_kind (kr : string * string) : result (list (string * string)) :=
  let '(kind, res) := kr in
  g <- grant rules RBAC_GROUP res ["bind"] ;;
  ns <- sort_vals (dedup_vals (names g)) ;;
  named <- flatM (λ n, b <- bound_is_power kind n ;;
                       Ok (when b "bind" (cat [kind; "/"; py_str n]))) ns ;;
  Ok (when (hit g && every g) "bind" (cat [kind; "/*"]) ++ named).
Definition writes : list string := ["create"; "update"; "patch"].
(** Writes a role of this resource with any rule. *)
Definition escalates (res : string) : result bool :=
  andR (grants rules RBAC_GROUP res ["escalate"]) (grants rules RBAC_GROUP res writes).
Definition bind_powers : result (list (string * string)) :=
  binds <- orR (grants rules RBAC_GROUP "rolebindings" writes)
               (andR (Ok (is_none bns)) (grants rules RBAC_GROUP "clusterrolebindings" writes)) ;;
  named <- (if binds : bool then flatM bind_kind [("ClusterRole", "clusterroles"); ("Role", "roles")]
            else Ok []) ;;
  role <- escalates "roles" ;;
  cluster <- andR (Ok (is_none bns)) (escalates "clusterroles") ;;
  Ok (named ++ when role "bind" "Role/*" ++ when cluster "bind" "ClusterRole/*").
Definition powers : result (list (string * string)) :=
  direct <- direct_powers rules bns holder targets sas ;;
  bind <- (if in_scope bns (VStr NS) then bind_powers else Ok []) ;;
  Ok (direct ++ bind).
End bind.

(** ((holder, power), target), over every render *)
Definition takeover : Type := (string * string) * string.

Section takeovers.
Context (owner : list string) (targets : list workload) (sas : list string).

Definition by_ref (rs : roles) (kind : string) (name : val) : result (option val) :=
  find_rules rs (VDict [("kind", VStr kind); ("name", name)]) (VStr NS).

Definition subject_takeovers (rs : roles) (kind d bns rules s : val)
    : result (list takeover * list string) :=
  skind <- get s "kind" ;;
  if py_eq skind (VStr "Group") then
    g <- get_default s "name" (VStr "") ;;
    all <- all_sa_group g ;;
    if negb all then Ok ([], []) else
    ps <- powers rules bns "" targets sas (by_ref rs) owner ;;
    if negb (nonempty ps) then Ok ([], []) else
    n <- meta_name d ;;
    Ok ([], [cat [py_str kind; " "; py_str n; " lets group "; py_str g;
                  ", which holds every ServiceAccount, take over an owner-credential reader"]])
  else if negb (py_eq skind (VStr "ServiceAccount")) then Ok ([], [])
  else
    holder <- subject_account s bns (VStr NS) ;;
    ps <- powers rules bns holder targets sas (by_ref rs) owner ;;
    Ok (map (λ '(p, t), ((holder, p), t)) ps, []).

Definition binding_takeovers (rs : roles) (d : val) : result (list takeover * list string) :=
  kind <- get d "kind" ;;
  if negb (in_tuple kind ["RoleBinding"; "ClusterRoleBinding"]) then Ok ([], []) else
  bns <- binding_ns kind d (VStr NS) ;;
  ref <- get_dict d "roleRef" ;;
  o <- find_rules rs ref bns ;;
  match o with
  | None => Ok ([], [])
  | Some rules =>
      ss <- get_list d "subjects" ;;
      l <- mapR (subject_takeovers rs kind d bns rules) ss ;;
      Ok (concat2 l)
  end.
End takeovers.

(** The namespace of the first document that has one. *)
Definition first_namespace (docs : list val) : result val :=
  o <- firstM (λ d, m <- get_dict d "metadata" ;; n <- get m "namespace" ;;
                    Ok (if truthy n then Some n else None)) docs ;;
  Ok (default (VStr NS) o).

Definition rendered_takeovers (docsets : list (list val)) (owner reader_sas : list string)
    : result (list takeover * list string) :=
  wls <- flatM (λ docs, ns <- first_namespace docs ;; workloads docs ns) docsets ;;
  '(targets, sas) <- reader_targets wls owner reader_sas ;;
  l <- mapR (λ docs, rs <- role_rules docs (VStr NS) ;;
                     k <- mapR (binding_takeovers owner targets sas rs) docs ;; Ok (concat2 k)) docsets ;;
  Ok (concat2 l).

(** The ValidatingAdmissionPolicies of a render with a Deny binding. *)
Definition admission_guards (docsets : list (list val)) : result (list string) :=
  flatM (λ docs,
    vs <- filterM (is_kind_of "ValidatingAdmissionPolicy") docs ;;
    vaps <- mapR meta_name vs ;; vaps <- set_of vaps ;;
    flatM (λ d,
      b <- is_kind_of "ValidatingAdmissionPolicyBinding" d ;;
      if negb b then Ok [] else
      spec <- get_dict d "spec" ;; p <- get spec "policyName" ;;
      if negb (hashable p) then Raise TypeError else
      if negb (existsb (py_eq p) vaps) then Ok [] else
      acts <- get spec "validationActions" ;; deny <- str_in "Deny" (por acts (VList [])) ;;
      Ok (if deny : bool then [cat ["ValidatingAdmissionPolicy/"; py_str p]] else [])) docs) docsets.

(** ** The allowlist and the verdict *)

Definition CLASSES : list string :=
  ["bootstrap"; "identity-provider"; "infrastructure"; "secret-store"; "admission-fenced"; "pending"].

(** One entry of a section of [load_allowlist]: [SystemExit] when it is malformed. *)
Definition check_entry (path section k : string) (v : val) : result unit :=
  let where_ := cat [path; ": "; section; " "; repr_str k; ": "] in
  known <- (if negb (is_dict v) then Ok false else c <- get v "class" ;; in_set c CLASSES) ;;
  if negb known then
    Raise (SystemExit (cat [where_; "class must be one of "; str_of_strs (sorted_set CLASSES)])) else
  class <- item v "class" ;; rb <- get v "removed-by" ;;
  if py_eq class (VStr "pending") && negb (truthy rb) then
    Raise (SystemExit (cat [where_; "a pending reader must say what removes it (removed-by)"])) else
  if negb (str_eqb section "takeovers") then Ok () else
  let parts := str_split k " " in
  if negb (length parts =? 2) || negb (str_mem (default "" (parts !! 1)) POWERS) then
    Raise (SystemExit (cat [where_; "the key is '<namespace>/<serviceaccount> <power>', power one of ";
                            str_of_strs POWERS])) else
  gb <- get v "guarded-by" ;;
  if py_eq class (VStr "admission-fenced") && negb (truthy gb) then
    Raise (SystemExit (cat [where_; "an admission-fenced grant must name its policy (guarded-by)"])) else
  t <- get v "targets" ;;
  if negb (py_eq t (VStr "all")) && negb (is_list t && truthy t) then
    Raise (SystemExit (cat [where_; "targets must be `all` or a list of targets"]))
  else Ok ().

(** [load_allowlist] on the parsed file. *)
Definition load_allowlist (path : string) (data : val) : result val :=
  let data := por data (VDict []) in
  _ <- mapR (λ section, g <- get_dict data section ;; kvs <- items g ;;
               mapR (λ '(k, v), check_entry path section k v) kvs) ["mounts"; "readers"; "takeovers"] ;;
  Ok data.

Section judge.
Context (mounts : list string) (reads : list (string * string)) (allow : val) (takeovers : list takeover).

(** The targets of one (holder, power). *)
Definition targets_of (key : string * string) : list string :=
  sorted_set (List.filter (λ t, bool_decide (t.1 = key)) takeovers).*2.

Definition judge_takeover (guards : option (list string)) (allowed_t : val) (hp : string * string)
    : result (list string) :=
  let key := cat [hp.1; " "; hp.2] in
  entry <- get allowed_t key ;;
  if is_none entry then
    Ok [cat ["unlisted takeover of an owner-credential reader: "; repr_str key; " reaches ";
             str_of_strs (targets_of hp)]]
  else
    ts <- item entry "targets" ;;
    extra <- (if py_eq ts (VStr "all") then Ok [] else
      l <- py_iter ts ;; l <- set_of l ;;
      Ok (List.filter (λ t, negb (existsb (py_eq (VStr t)) l)) (targets_of hp))) ;;
    g <- get entry "guarded-by" ;;
    unguarded <- (if truthy g then
                    match guards with Some gs => notR (in_set g gs) | None => Ok false end
                  else Ok false) ;;
    Ok ((if nonempty extra then
           [cat ["takeover "; repr_str key; " reaches targets its entry does not name: "; str_of_strs extra]]
         else [])
        ++ (if unguarded : bool then
           [cat ["takeover "; repr_str key; " is allowed only while "; py_str g;
                 " denies it, and there is no such policy with a Deny binding"]] else [])).

Definition stale_reader (allowed_r sa : val) : result (list string) :=
  read <- in_set sa reads.*1 ;;
  if read : bool then Ok [] else
  e <- item allowed_r (py_str sa) ;; lo <- get e "live-only" ;;
  Ok (if truthy lo then [] else [cat ["stale readers entry (no render grants it): "; py_repr sa]]).

Definition stale_takeover (key : string) (entry : val) : result (list string) :=
  match str_split key " " with
  | [holder; power] =>
      let got := targets_of (holder, power) in
      if negb (nonempty got) then
        lo <- get entry "live-only" ;;
        Ok (if truthy lo then [] else [cat ["stale takeovers entry (no render grants it): "; repr_str key]])
      else
        ts <- item entry "targets" ;;
        if py_eq ts (VStr "all") then Ok [] else
        l <- py_iter ts ;; l <- set_of l ;;
        gone <- sort_vals (dedup_vals (List.filter (λ x, negb (in_tuple x got)) l)) ;;
        Ok (if nonempty gone then
              [cat ["stale targets in takeovers entry "; repr_str key; " (no render reaches them): ";
                    py_repr (VList gone)]]
            else [])
  | _ => Raise ValueError
  end.

(** [sorted(v)] of an allowlist section *)
Definition sorted_section (v : val) : result (list val) := l <- py_iter v ;; sort_vals l.

Definition stale_entries (allowed_m allowed_r allowed_t : val) : result (list string) :=
  ms <- sorted_section allowed_m ;;
  a <- flatM (λ m, known <- in_set m mounts ;;
               Ok (if known : bool then []
                   else [cat ["stale mounts entry (no render produces it): "; py_repr m]])) ms ;;
  rs <- sorted_section allowed_r ;;
  b <- flatM (stale_reader allowed_r) rs ;;
  kvs <- items allowed_t ;;
  c <- flatM (λ key, stale_takeover key (default VNone (alist_get key kvs))) (sorted_keys kvs) ;;
  Ok (a ++ b ++ c).

Definition judge (errors : list string) (stale : bool) (guards : option (list string))
    : result (list string) :=
  allowed_m <- get_dict allow "mounts" ;;
  allowed_r <- get_dict allow "readers" ;;
  allowed_t <- get_dict allow "takeovers" ;;
  ms <- flatM (λ m, known <- str_in m allowed_m ;;
          Ok (if known : bool then [] else [cat ["unlisted mount of an owner credential: "; repr_str m]]))
          (sorted_set mounts) ;;
  rs <- flatM (λ sa, known <- str_in sa allowed_r ;;
          Ok (if known : bool then []
              else [cat ["unlisted reader of an owner credential: "; repr_str sa; " can ";
                         str_of_strs (elements_of sa reads)]])) (sorted_keys reads) ;;
  ts <- flatM (judge_takeover guards allowed_t) (sorted_pairs takeovers.*1) ;;
  st <- (if stale then stale_entries allowed_m allowed_r allowed_t else Ok []) ;;
  Ok (errors ++ ms ++ rs ++ ts ++ st).
End judge.

(** [errors += [x for x in e if x not in errors]] *)
Definition add_errors (errors e : list string) : list string :=
  errors ++ List.filter (λ x, negb (str_mem x errors)) e.

Record found := Found {
  f_mounts : list string; f_reads : list (string * string);
  f_errors : list string; f_takeovers : list takeover }.
Definition rendered_findings (docsets : list (list val)) (owner : list string) : result found :=
  l <- mapR (λ docs, m <- mount_readers owner docs NS ;; r <- can_read docs owner (VStr NS) ;;
                     Ok (m, r)) docsets ;;
  let reads := concat (map (λ x, x.2.1) l) in
  let errors := foldl (λ acc x, add_errors acc x.2.2) [] l in
  '(ts, terr) <- rendered_takeovers docsets owner (sorted_keys reads) ;;
  Ok (Found (concat l.*1) reads (add_errors errors terr) ts).

(** [run] of the self-test and the verdict of [main]. *)
Definition run (docsets : list (list val)) (allow : val) (owner : list string) : result (list string) :=
  f <- rendered_findings docsets owner ;;
  gs <- admission_guards docsets ;;
  judge (f_mounts f) (f_reads f) allow (f_takeovers f) (f_errors f) true (Some gs).

(** ** The live cluster

    The answers of kubectl are arguments: the JSON of a list, the text of
    [kubectl auth can-i], the rules of a review and the rules of a role. *)
Section live.
Context (kubectl_json : list string → result val).
Context (can_i_output : string → string → string → string * string).
Context (review : string → string → result val).
Context (get_role : string → val → result (option val)).

Definition split_account (sa : string) : result (string * string) :=
  match split1 "/" sa with Some p => Ok p | None => Raise ValueError end.

Definition can_i (sa verb target : string) : result bool :=
  _ <- split_account sa ;;
  let '(out, err) := can_i_output sa verb target in
  let ans := strip out in
  if str_mem ans ["yes"; "no"] then Ok (str_eqb ans "yes")
  else Raise (SystemExit (cat ["kubectl auth can-i "; verb; " "; target; " --as "; sa; ": ";
                               if str_eqb (strip err) "" then ans else strip err])).

Definition accounts : result (list (val * string)) :=
  j <- kubectl_json ["get"; "serviceaccounts"; "-A"] ;; its <- item j "items" ;; l <- py_iter its ;;
  mapR (λ i, m <- item i "metadata" ;; ns <- item m "namespace" ;; n <- item m "name" ;;
             Ok (ns, cat [py_str ns; "/"; py_str n])) l.

Definition live_checks (owner : list string) : list (string * string) :=
  [("list", "secrets"); ("watch", "secrets")]
  ++ concat (map (λ verb, map (λ n, (verb, cat ["secret/"; n])) (sorted_set owner)) READ_VERBS).
Definition removeprefix (p s : string) : string := default s (drop_prefix p s).
Definition live_reads (owner : list string) : result (list (string * string)) :=
  sas <- accounts ;;
  flatM (λ sa, flatM (λ '(v, t), yes <- can_i sa v t ;;
      Ok (if yes : bool then [(sa, cat [v; " "; removeprefix "secret/" t])] else []))
    (live_checks owner)) sas.*2.

(** The owners of the objects of a list, by name; [first] keeps the first
    owner of each, else a later owner replaces an earlier one. *)
Definition owner_ref (o : val) : result string :=
  k <- item o "kind" ;; n <- item o "name" ;; Ok (cat [py_str k; "/"; py_str n]).
Definition replicaset_owners (rss : val) : result (list (string * string)) :=
  its <- item rss "items" ;; l <- py_iter its ;;
  flatM (λ rs, m <- item rs "metadata" ;; os <- get_list m "ownerReferences" ;;
    mapR (λ o, n <- item m "name" ;; r <- owner_ref o ;; Ok (py_str n, r)) os) l.
Definition job_owners (jobs : val) : result (list (string * string)) :=
  its <- item jobs "items" ;; l <- py_iter its ;;
  mapR (λ j, m <- item j "metadata" ;; os <- get_list m "ownerReferences" ;; n <- item m "name" ;;
    r <- match os with o :: _ => owner_ref o | [] => Ok (cat ["Job/"; py_str n]) end ;;
    Ok (py_str n, r)) l.
(** [d.get(k, dflt)] of a dict that was filled in this order *)
Definition last_of (k dflt : string) (d : list (string * string)) : string :=
  default dflt (alist_get k (rev d)).

Definition pod_owner (rs_owner job_owner : list (string * string)) (m : val) : result string :=
  refs <- get_list m "ownerReferences" ;; name <- item m "name" ;;
  match refs with
  | [] => Ok (cat ["Pod/"; py_str name])
  | o :: _ =>
      kind <- item o "kind" ;; n <- item o "name" ;;
      Ok (if py_eq kind (VStr "ReplicaSet") then last_of (py_str n) (cat ["ReplicaSet/"; py_str n]) rs_owner
          else if py_eq kind (VStr "Job") then last_of (py_str n) (cat ["Job/"; py_str n]) job_owner
          else cat [py_str kind; "/"; py_str n])
  end.
Definition live_pods : result (list workload) :=
  rss <- kubectl_json ["get"; "replicasets"; "-n"; NS] ;; rs_owner <- replicaset_owners rss ;;
  jobs <- kubectl_json ["get"; "jobs"; "-n"; NS] ;; job_owner <- job_owners jobs ;;
  pods <- kubectl_json ["get"; "pods"; "-n"; NS] ;; its <- item pods "items" ;; l <- py_iter its ;;
  mapR (λ p,
    m <- item p "metadata" ;; who <- pod_owner rs_owner job_owner m ;;
    '(kind, name) <- split_account who ;;
    spec <- item p "spec" ;; sa <- get spec "serviceAccountName" ;;
    Ok (Workload (VStr kind) (VStr name) (VStr NS) (por sa (VStr "default")) spec)) l.

Definition live_mounts (owner : list string) (pods : list workload) : result (list string) :=
  flatM (λ w, uses <- secret_uses owner (w_spec w) ;;
    Ok (map (λ '(secret, keys), cat [w_id w; " "; secret; "["; py_str keys; "]"]) uses)) pods.

Definition same_ns (ns sa : string) : result bool := '(n, _) <- split_account sa ;; Ok (str_eqb n ns).

(** The powers of one holder from its review in one namespace. *)
Definition review_powers (owner : list string) (targets : list workload) (sas : list string) (h ns : string)
    : result (list takeover) :=
  rules <- review h ns ;;
  let scoped_targets := List.filter (λ w, py_eq (w_ns w) (VStr ns)) targets in
  scoped_sas <- filterM (same_ns ns) sas ;;
  ps <- powers rules (VStr ns) h scoped_targets scoped_sas get_role owner ;;
  wide <- (if str_eqb ns NS then
    rs <- py_iter rules ;;
    cluster <- filterM (λ r, l <- get_list r "resources" ;; l <- set_of l ;;
                             Ok (meets ["users"; "nodes/proxy"; "*"] l)) rs ;;
    powers (VList cluster) VNone h targets sas get_role owner else Ok []) ;;
  Ok (map (λ '(p, t), ((h, p), t))
        (ps ++ List.filter (λ e, str_mem e.1 ["impersonate"; "exec"]) wide)).
Definition live_takeovers (owner holders : list string) (targets : list workload) (sas : list string)
    : result (list takeover) :=
  spaces <- mapR (λ s, '(n, _) <- split_account s ;; Ok n) sas ;;
  flatM (λ h, flatM (review_powers owner targets sas h) (sorted_set (NS :: spaces))) holders.

(** The policies that the allowlist depends on and the cluster enforces;
    [has_policy] asks for one by name. *)
Definition live_guards (has_policy : string → bool) (allow : val) : result (list string) :=
  t <- get_dict allow "takeovers" ;; kvs <- items t ;;
  wanted <- flatM (λ kv, g <- get kv.2 "guarded-by" ;; if truthy g then set_of [g] else Ok []) kvs ;;
  j <- kubectl_json ["get"; "validatingadmissionpolicybindings"] ;; its <- item j "items" ;;
  flatM (λ g,
    s <- as_str g ;;
    match split1 "/" s with
    | None => Raise IndexError
    | Some (_, name) =>
        if negb (has_policy name) then Ok [] else
        l <- py_iter its ;;
        deny <- anyM (λ b, spec <- get_dict b "spec" ;; p <- get spec "policyName" ;;
          if negb (py_eq p (VStr name)) then Ok false else
          acts <- get spec "validationActions" ;; str_in "Deny" (por acts (VList []))) l ;;
        Ok (if deny : bool then [s] else [])
    end) wanted.

(** [live]: the verdict on the current cluster. *)
Definition live (has_policy : string → bool) (allow : val) : result (list string) :=
  os <- item allow "owner_secrets" ;; os <- py_iter os ;; os <- set_of os ;;
  let owner := map py_str os in
  reads <- live_reads owner ;;
  allowed <- get_dict allow "live_namespaces" ;; kvs <- items allowed ;;
  kept <- filterM (λ r, '(n, _) <- split_account r.1 ;; Ok (negb (str_mem n kvs.*1))) reads ;;
  pods <- live_pods ;;
  mounts <- live_mounts owner pods ;;
  '(targets, sas) <- reader_targets pods owner (sorted_keys reads) ;;
  all <- accounts ;;
  let holders := map snd (List.filter (λ a, negb (in_tuple a.1 kvs.*1)) all) in
  takeovers <- live_takeovers owner holders targets sas ;;
  guards <- live_guards has_policy allow ;;
  judge mounts kept allow takeovers [] false (Some guards).
End live.

(** ** The self-test

    The fixtures of the script as the documents that their YAML reads, and
    each verdict of [selftest] but the last one, which renders the chart. *)

(** *** The shapes of the fixtures *)
Definition meta (name ns : string) : val :=
  str_dict ([("name", name)] ++ if str_eqb ns "" then [] else [("namespace", ns)]).
Definition doc (api kind name ns : string) (rest : list (string * val)) : val :=
  VDict ([("apiVersion", VStr api); ("kind", VStr kind); ("metadata", meta name ns)] ++ rest).
Definition rbac : string -> string -> string -> list (string * val) -> val := doc "rbac.authorization.k8s.io/v1".
(** [{apiGroups, resources, resourceNames?, verbs}] *)
Definition named_rule (groups resources names verbs : list string) : val :=
  VDict [("apiGroups", strs groups); ("resources", strs resources); ("resourceNames", strs names);
         ("verbs", strs verbs)].
Definition role (name ns : string) (rules : list val) : val := rbac "Role" name ns [("rules", VList rules)].
Definition cluster_role (name : string) (rules : list val) : val :=
  rbac "ClusterRole" name "" [("rules", VList rules)].
Definition account (name ns : string) : val :=
  str_dict [("kind", "ServiceAccount"); ("name", name); ("namespace", ns)].
Definition bind_doc (kind name ns ref_kind ref : string) (subject : val) : val :=
  rbac kind name ns [("roleRef", str_dict [("kind", ref_kind); ("name", ref)]); ("subjects", VList [subject])].
Definition app_account : val := account "app" "gibson".
(** A Role and its RoleBinding, both named [name], bound to gibson/app. *)
Definition bound_role (name ns : string) (rules : list val) : list val :=
  [role name ns rules; bind_doc "RoleBinding" name ns "Role" name app_account].
Definition container : val := str_dict [("name", "c"); ("image", "x")].
(** [spec: {template: {spec: ...}}] *)
Definition templated (spec : list (string * val)) : list (string * val) :=
  [("spec", VDict [("template", VDict [("spec", VDict spec)])])].

Definition FIXTURE_BASE : list val :=
  [role "boot" "gibson" [named_rule [""] ["secrets"] ["iam-admin-pat"] ["get"]];
   bind_doc "RoleBinding" "boot" "gibson" "Role" "boot" (account "boot" "gibson");
   doc "batch/v1" "Job" "boot" "gibson"
     (templated [("serviceAccountName", VStr "boot"); ("containers", VList [container])])].

(** Each fixture is one new reader. *)
Definition FIXTURES_THAT_MUST_FAIL : list (string * list val) :=
  [("a Deployment mounts the owner PAT as a volume",
    [doc "apps/v1" "Deployment" "app" "gibson" (templated [("containers", VList [container]);
       ("volumes", VList [VDict [("name", VStr "v");
          ("secret", str_dict [("secretName", "iam-admin-pat")])]])])]);
   ("a CronJob reads the machine key through env",
    [doc "batch/v1" "CronJob" "app" "gibson" [("spec", VDict [("jobTemplate", VDict (templated
       [("containers", VList [VDict [("name", VStr "c"); ("image", VStr "x");
          ("env", VList [VDict [("name", VStr "K"); ("valueFrom", VDict [("secretKeyRef",
             str_dict [("name", "iam-admin"); ("key", "iam-admin.json")])])]])]])]))])]]);
   ("an init container reads the System API key through envFrom",
    [doc "apps/v1" "StatefulSet" "app" "gibson" (templated
       [("initContainers", VList [VDict [("name", VStr "i"); ("image", VStr "x");
          ("envFrom", VList [VDict [("secretRef", str_dict [("name", "gibson-zitadel-system-key")])]])]]);
        ("containers", VList [container])])]);
   ("a Pod mounts the owner PAT through a projected volume",
    [doc "v1" "Pod" "app" "gibson" [("spec", VDict [("containers", VList [container]);
       ("volumes", VList [VDict [("name", VStr "v"); ("projected", VDict [("sources",
          VList [VDict [("secret", str_dict [("name", "iam-admin-pat")])]])])]])])]]);
   ("a Role reads every Secret in the namespace",
    bound_role "wide" "gibson" [rule_of [""] ["secrets"] ["get"; "list"]]);
   ("a ClusterRole with resources '*' is bound cluster-wide",
    [cluster_role "star" [rule_of ["*"] ["*"] ["watch"]];
     bind_doc "ClusterRoleBinding" "star" "" "ClusterRole" "star" (account "app" "other")]);
   ("a Role names the machine key",
    bound_role "named" "gibson" [named_rule [""] ["secrets"] ["iam-admin"] ["get"]]);
   ("a RoleBinding in gibson grants the built-in edit ClusterRole",
    [bind_doc "RoleBinding" "editor" "gibson" "ClusterRole" "edit" app_account]);
   ("an aggregated ClusterRole picks up a Secret read",
    [rbac "ClusterRole" "agg" "" [("aggregationRule", VDict [("clusterRoleSelectors",
       VList [VDict [("matchLabels", str_dict [("agg", "true")])]])])];
     VDict [("apiVersion", VStr "rbac.authorization.k8s.io/v1"); ("kind", VStr "ClusterRole");
       ("metadata", VDict [("name", VStr "part"); ("labels", str_dict [("agg", "true")])]);
       ("rules", VList [rule_of [""] ["secrets"] ["list"]])];
     bind_doc "ClusterRoleBinding" "agg" "" "ClusterRole" "agg" app_account]);
   ("a Secret read is granted to every ServiceAccount through a group",
    [role "grp" "gibson" [rule_of [""] ["secrets"] ["get"]];
     bind_doc "RoleBinding" "grp" "gibson" "Role" "grp"
       (str_dict [("kind", "Group"); ("name", "system:serviceaccounts:gibson")])]);
   ("a binding names a ClusterRole the render does not contain",
    [bind_doc "RoleBinding" "ext" "gibson" "ClusterRole" "somebody-elses-role" app_account])].

(** Grants that look close but cannot read an owner Secret. *)
Definition FIXTURES_THAT_MUST_PASS : list (string * list val) :=
  [("a Role that names another Secret",
    bound_role "other" "gibson" [named_rule [""] ["secrets"] ["gibson-redis-stack"] ["get"]]);
   ("a wide Secret read bound in another namespace",
    bound_role "wide" "tenant-a" [rule_of [""] ["secrets"] ["get"; "list"; "watch"]]);
   ("create on Secrets, which reads nothing",
    bound_role "create" "gibson" [rule_of [""] ["secrets"] ["create"]]);
   ("a pod that mounts only another Secret",
    [doc "v1" "Pod" "app" "gibson" [("spec", VDict [("containers", VList [VDict
       [("name", VStr "c"); ("image", VStr "x"); ("env", VList [VDict [("name", VStr "P");
          ("valueFrom", VDict [("secretKeyRef",
             str_dict [("name", "gibson-redis-stack"); ("key", "p")])])]])]])])]])].

Definition TAKEOVER_BASE : list val :=
  [doc "apps/v1" "Deployment" "reader" "gibson"
     (templated [("serviceAccountName", VStr "boot"); ("containers", VList [container])]);
   doc "apps/v1" "StatefulSet" "cache" "gibson"
     (templated [("serviceAccountName", VStr "cache"); ("containers", VList [container])])].

(** One Role or ClusterRole with [rules], bound to gibson/app. *)
Definition grant_fixture (rules : list val) (cluster : bool) (ns : string) (extra : list val) : list val :=
  (if cluster
   then [cluster_role "t" rules; bind_doc "ClusterRoleBinding" "t" "" "ClusterRole" "t" app_account]
   else bound_role "t" ns rules) ++ extra.
Definition in_gibson (rules : list val) : list val := grant_fixture rules false "gibson" [].
Definition cluster_wide (rules : list val) : list val := grant_fixture rules true "gibson" [].

Definition READS_SECRETS_ROLE : list val :=
  [cluster_role "secret-reader" [rule_of [""] ["secrets"] ["list"]];
   cluster_role "config-reader" [rule_of [""] ["configmaps"] ["list"]]].
Definition bind_rules (role : string) : list val :=
  [rule_of [RBAC_GROUP] ["rolebindings"] ["create"];
   named_rule [RBAC_GROUP] ["clusterroles"] [role] ["bind"]].

(** One fixture per takeover path. *)
Definition TAKEOVERS_THAT_MUST_FAIL : list (string * list val) :=
  [("exec into any pod in the namespace (the postgres-exec shape)",
    in_gibson [rule_of [""] ["pods/exec"] ["create"]]);
   ("exec by the websocket verb get", in_gibson [rule_of [""] ["pods/exec"] ["get"]]);
   ("attach to any pod", in_gibson [rule_of [""] ["pods/attach"] ["create"]]);
   ("add an ephemeral container to any pod", in_gibson [rule_of [""] ["pods/ephemeralcontainers"] ["patch"]]);
   ("patch every Deployment (the Reloader shape)",
    in_gibson [rule_of ["apps"] ["deployments"; "statefulsets"] ["patch"]]);
   ("patch the reader Deployment by name (the openbao auto-init shape)",
    in_gibson [named_rule ["apps"] ["deployments"] ["reader"] ["patch"]]);
   ("update every pod", in_gibson [rule_of [""] ["pods"] ["update"]]);
   ("create a pod in the namespace", in_gibson [rule_of [""] ["pods"] ["create"]]);
   ("create a Job in the namespace", in_gibson [rule_of ["batch"] ["jobs"] ["create"]]);
   ("create a token for any ServiceAccount, cluster-wide (the External Secrets shape)",
    cluster_wide [rule_of [""] ["serviceaccounts/token"] ["create"]]);
   ("create a token for the reader's ServiceAccount by name",
    in_gibson [named_rule [""] ["serviceaccounts/token"] ["boot"] ["create"]]);
   ("impersonate the reader's ServiceAccount", in_gibson [rule_of [""] ["serviceaccounts"] ["impersonate"]]);
   ("impersonate the reader's user name",
    cluster_wide [named_rule [""] ["users"] ["system:serviceaccount:gibson:boot"] ["impersonate"]]);
   ("bind a Secret-reading ClusterRole anywhere (the tenant-operator shape)",
    grant_fixture (bind_rules "secret-reader") true "gibson" READS_SECRETS_ROLE);
   ("escalate: write a Role with any rule", in_gibson [rule_of [RBAC_GROUP] ["roles"] ["create"; "escalate"]]);
   ("a wildcard ClusterRole", cluster_wide [rule_of ["*"] ["*"] ["*"]]);
   ("reach the kubelet through nodes/proxy", cluster_wide [rule_of [""] ["nodes/proxy"] ["get"]])].

(** Grants that look close but reach no reader. *)
Definition TAKEOVERS_THAT_MUST_PASS : list (string * list val) :=
  [("exec into one named StatefulSet pod that reads nothing (the redis-rotation shape)",
    in_gibson [named_rule [""] ["pods/exec"] ["cache-0"] ["create"]]);
   ("patch a Deployment that reads nothing, by name",
    in_gibson [named_rule ["apps"] ["deployments"] ["other"] ["patch"]]);
   ("create a token for its own ServiceAccount only",
    in_gibson [named_rule [""] ["serviceaccounts/token"] ["app"] ["create"]]);
   ("create pods in another namespace", grant_fixture [rule_of [""] ["pods"] ["create"]] false "tenant-a" []);
   ("bind a ClusterRole that reads no Secret",
    grant_fixture (bind_rules "config-reader") true "gibson" READS_SECRETS_ROLE);
   ("read pods and Deployments",
    in_gibson [rule_of [""; "apps"] ["pods"; "deployments"] ["get"; "list"; "watch"]])].

Definition VAP_FIXTURE : list val :=
  [doc "admissionregistration.k8s.io/v1" "ValidatingAdmissionPolicy" "fence" "" [("spec", VDict [])];
   doc "admissionregistration.k8s.io/v1" "ValidatingAdmissionPolicyBinding" "fence" ""
     [("spec", VDict [("policyName", VStr "fence"); ("validationActions", strs ["Deny"])])]].

Definition boot_entry : val := str_dict [("class", "bootstrap"); ("why", "fixture")].
Definition SELFTEST_ALLOW : val :=
  VDict [("owner_secrets", strs ["iam-admin-pat"; "iam-admin"; "gibson-zitadel-system-key"]);
         ("mounts", VDict []); ("readers", VDict [("gibson/boot", boot_entry)]); ("takeovers", VDict [])].

(** *** The cases of the self-test *)
Definition owner : list string := ["iam-admin-pat"; "iam-admin"; "gibson-zitadel-system-key"].
Definition base : list val := FIXTURE_BASE ++ TAKEOVER_BASE.
Definition run1 (docs : list val) (allow : val) : result (list string) := run [base ++ docs] allow owner.
Definition fails (docs : list val) : result bool := got <- run1 docs SELFTEST_ALLOW ;; Ok (nonempty got).
Definition passes (docs : list val) (allow : val) : result bool := got <- run1 docs allow ;; Ok (negb (nonempty got)).
Definition reports (p : string → bool) (docs : list val) (allow : val) : result bool :=
  got <- run1 docs allow ;; Ok (existsb p got).

Definition named : list val := in_gibson [named_rule ["apps"] ["deployments"] ["reader"] ["patch"]].
Definition wide : list val := in_gibson [rule_of ["apps"] ["deployments"; "statefulsets"] ["patch"]].
Definition extra_reader : val :=
  doc "apps/v1" "StatefulSet" "reader2" "gibson"
    (templated [("serviceAccountName", VStr "boot"); ("containers", VList [container])]).
Definition with_takeover (targets : list string) (more : list (string * val)) : val :=
  dict_with SELFTEST_ALLOW "takeovers" (VDict [("gibson/app patch",
    VDict ([("class", VStr "infrastructure"); ("why", VStr "fixture"); ("targets", strs targets)] ++ more))]).
Definition stale : val :=
  dict_with SELFTEST_ALLOW "readers" (VDict [("gibson/boot", boot_entry); ("gibson/gone", boot_entry)]).
Definition listed : val := with_takeover ["Deployment/reader"] [].
Definition fenced : val :=
  with_takeover ["Deployment/reader"] [("guarded-by", VStr "ValidatingAdmissionPolicy/fence")].

Definition selftest_cases : list (result bool) :=
  [passes [] SELFTEST_ALLOW]
  ++ map (λ f, fails f.2) (FIXTURES_THAT_MUST_FAIL ++ TAKEOVERS_THAT_MUST_FAIL)
  ++ map (λ f, passes f.2 SELFTEST_ALLOW) (FIXTURES_THAT_MUST_PASS ++ TAKEOVERS_THAT_MUST_PASS)
  ++ [reports (λ x, startswith x "stale readers entry") [] stale;
      passes named listed;
      reports (contains "does not name") (wide ++ [extra_reader]) listed;
      reports (λ x, startswith x "stale targets") named
        (with_takeover ["Deployment/reader"; "Deployment/gone"] []);
      passes (named ++ VAP_FIXTURE) fenced;
      reports (λ x, contains "guarded" x || contains "denies it" x) named fenced].
Definition selftest : result Z :=
  oks <- mapR id selftest_cases ;; Ok (if forallb id oks then 0 else 1)%Z.

Lemma ownercreds_selftest : selftest = Ok 0%Z.
Proof. vm_compute. reflexivity. Qed.
