(* ===== verification/OwnerCredsSpec.v ===== *)
(** * What scripts/check-owner-credential-readers.py promises

    The reads and the powers that the guard finds, against the meaning of typed
    RBAC rules, and what a clean run says of the allowlist. *)
From S2P Require Import Prelude PyStr PyVal Rbac Regex OwnerCreds.
From Stdlib Require Import Ascii.

Definition rules_val (rules : list policy_rule) : val := VList (policy_rule_val <$> rules).

(** ** Reads *)

Lemma lists_computes (r : policy_rule) field (l : list string) x :
  get (policy_rule_val r) field = Ok (strs l) →
  computes (lists (policy_rule_val r) field x) (covers l x).
Proof.
  intros H. unfold lists. rewrite H. cbn [rbind]. rewrite por_strs. unfold orR.
  apply computes_or; intros; apply str_in_strs.
Qed.

(** The rule lets its holder use [verb] on the Secret, or on each Secret. *)
Definition reads_secret (r : policy_rule) (verb : string) (name : option string) : Prop :=
  covers (pr_groups r) "" ∧ covers (pr_resources r) "secrets" ∧ covers (pr_verbs r) verb ∧
  covers_name (pr_names r) name.

Lemma rule_allows_computes (r : policy_rule) verb name :
  computes (rule_allows (policy_rule_val r) verb name) (reads_secret r verb name).
Proof.
  unfold rule_allows, reads_secret.
  apply computes_guard; [by apply lists_computes|intros _].
  apply computes_guard; [by apply lists_computes|intros _].
  apply computes_guard; [by apply lists_computes|intros _].
  change (get (policy_rule_val r) "resourceNames") with (Ok (strs (pr_names r))).
  cbn [rbind]. rewrite truthy_strs.
  destruct (pr_names r) as [|n ns]; cbn [nonempty negb].
  { apply computes_Ok. unfold covers_name. tauto. }
  destruct name as [m|].
  - eapply computes_iff; [|apply str_in_strs]. unfold covers_name. naive_solver.
  - apply computes_Ok. unfold covers_name. naive_solver.
Qed.

Lemma any_rule_computes (rules : list policy_rule) verb name :
  computes (any_rule (rules_val rules) (λ r, rule_allows r verb name))
           (∃ r, r ∈ rules ∧ reads_secret r verb name).
Proof.
  unfold any_rule. cbn [py_iter rules_val rbind]. rewrite anyM_fmap. apply computes_anyM.
  intros. apply rule_allows_computes.
Qed.

(** A rule without names reads each Secret: [None] covers no less. *)
Lemma reads_each (r : policy_rule) verb name : reads_secret r verb None → reads_secret r verb (Some name).
Proof. unfold reads_secret, covers_name. naive_solver. Qed.

(** [held_reads] finds each read, and returns without an exception. *)
Lemma held_reads_yields owner (rules : list policy_rule) :
  yields (held_reads owner (rules_val rules)) (λ x, ∃ verb, verb ∈ READ_VERBS ∧
    ((∃ r, r ∈ rules ∧ reads_secret r verb None) ∧ x = cat [verb; " secrets"] ∨
     ¬ (∃ r, r ∈ rules ∧ reads_secret r verb None) ∧
     ∃ name, name ∈ owner ∧ (∃ r, r ∈ rules ∧ reads_secret r verb (Some name)) ∧ x = cat [verb; " "; name])).
Proof.
  apply yields_flatM. intros verb _. apply yields_else; [apply any_rule_computes|intros _].
  apply yields_flatM. intros name _. apply yields_when, any_rule_computes.
Qed.

(** ** The readers of a render *)

Lemma concat2_fst {A B} (l : list (list A * list B)) x :
  x ∈ (concat2 l).1 ↔ ∃ p, p ∈ l ∧ x ∈ p.1.
Proof.
  cbn. rewrite elem_of_concat. split.
  - intros (k & (p & -> & Hp)%list_elem_of_fmap & Hx). by exists p.
  - intros (p & Hp & Hx). exists p.1. split; [|done]. apply list_elem_of_fmap. by exists p.
Qed.
Lemma concat2_snd {A B} (l : list (list A * list B)) x :
  x ∈ (concat2 l).2 ↔ ∃ p, p ∈ l ∧ x ∈ p.2.
Proof.
  cbn. rewrite elem_of_concat. split.
  - intros (k & (p & -> & Hp)%list_elem_of_fmap & Hx). by exists p.
  - intros (p & Hp & Hx). exists p.2. split; [|done]. apply list_elem_of_fmap. by exists p.
Qed.

(** The elements of the first list of a loop of pairs of lists *)
Lemma mapR_concat2 {A B C} (f : A → result (list B * list C)) l k x :
  mapR f l = Ok k → x ∈ (concat2 k).1 ↔ ∃ a r, a ∈ l ∧ f a = Ok r ∧ x ∈ r.1.
Proof.
  intros H. rewrite concat2_fst. split.
  - intros (r & Hr & Hx). destruct (mapR_elem _ _ _ _ H Hr) as (a & Ha & Hf). by exists a, r.
  - intros (a & r & Ha & Hf & Hx). destruct (mapR_elem_2 _ _ _ _ H Ha) as (r' & Hr & Hf').
    exists r'. split; [done|]. congruence.
Qed.

(** The binding [d] gives the rules of its role to the ServiceAccount [sa],
    in the namespace [bns], or in each one when it is [VNone]. *)
Inductive binds (default_ns : val) (rs : roles) (d : val) : val → val → string → Prop :=
  | Binds bns rules ss s sa :
      in_tuple (fld d "kind") ["RoleBinding"; "ClusterRoleBinding"] = true →
      binding_ns (fld d "kind") d default_ns = Ok bns →
      find_rules rs (por (fld d "roleRef") (VDict [])) bns = Ok (Some rules) →
      get_list d "subjects" = Ok ss → s ∈ ss → fld s "kind" = VStr "ServiceAccount" →
      subject_account s bns default_ns = Ok sa →
      binds default_ns rs d bns rules sa.

Definition in_release (bns : val) : Prop := bns = VNone ∨ bns = VStr NS.

Lemma in_release_spec bns : negb (is_none bns) && negb (py_eq bns (VStr NS)) = false ↔ in_release bns.
Proof.
  unfold in_release. rewrite andb_false_iff, !negb_false_iff, py_eq_str_r.
  by destruct bns; naive_solver.
Qed.

Lemma subject_reads_elem dns kind d bns held s res sa x :
  subject_reads dns kind d bns held s = Ok res →
  (sa, x) ∈ res.1 ↔
  fld s "kind" = VStr "ServiceAccount" ∧ subject_account s bns dns = Ok sa ∧ x ∈ held.
Proof.
  unfold subject_reads. intros (sk & ->%get_Ok & H)%bind_Ok.
  destruct (py_eq (fld s "kind") (VStr "Group")) eqn:Eg.
  { apply py_eq_str_r in Eg as ->. ok_case; cbn; set_solver. }
  destruct (py_eq (fld s "kind") (VStr "ServiceAccount")) eqn:Es.
  - apply py_eq_str_r in Es as ->. cbn in H. apply bind_Ok in H as (subj & -> & H). injection H as <-.
    cbn. rewrite list_elem_of_fmap. split.
    + by intros (y & [= -> ->] & Hy).
    + intros (_ & [= ->] & Hx). by exists x.
  - injection H as <-. cbn. split; [by intros ?%elem_of_nil|]. intros (E & _).
    by rewrite E in Es.
Qed.

Lemma binding_reads_elem owner dns rs d res sa x :
  binding_reads owner dns rs d = Ok res →
  (sa, x) ∈ res.1 ↔
  ∃ bns rules held, binds dns rs d bns rules sa ∧ in_release bns ∧
    held_reads owner rules = Ok held ∧ x ∈ held.
Proof.
  unfold binding_reads. intros (k & ->%get_Ok & H)%bind_Ok.
  destruct (in_tuple (fld d "kind") _) eqn:Ek; cbn [negb] in H.
  2: { injection H as <-. split; [by intros ?%elem_of_nil|].
       intros (? & ? & ? & [] & _). congruence. }
  apply bind_Ok in H as (bns & Hbns & H).
  destruct (negb (is_none bns) && _) eqn:Er.
  { injection H as <-. split; [by intros ?%elem_of_nil|].
    intros (? & ? & ? & [] & Hr%in_release_spec & _). congruence. }
  apply in_release_spec in Er. apply bind_Ok in H as (ref & ->%por_dict_fld & H).
  apply bind_Ok in H as (o & Ho & H). destruct o as [rules|].
  2: { ok_inv. split; [by intros ?%elem_of_nil|]. intros (? & ? & ? & [] & _). congruence. }
  apply bind_Ok in H as (held & Hheld & H).
  assert (∀ bns' rules' held', binds dns rs d bns' rules' sa → held_reads owner rules' = Ok held' →
    bns' = bns ∧ held' = held) as Hsame by (intros ? ? ? [] ?; split; congruence).
  destruct held as [|y held].
  { injection H as <-. split; [by intros ?%elem_of_nil|].
    intros (b & r & h & Hb & _ & Hh & Hx). destruct (Hsame _ _ _ Hb Hh) as [-> ->].
    by apply elem_of_nil in Hx. }
  cbn [nonempty negb] in H. apply bind_Ok in H as (ss & Hss & H).
  apply bind_Ok in H as (l & Hl & H). injection H as <-. rewrite (mapR_concat2 _ _ _ _ Hl). split.
  - intros (s & r & Hs & Hr & Hx). apply (subject_reads_elem _ _ _ _ _ _ _ _ _ Hr) in Hx as (? & ? & ?).
    exists bns, rules, (y :: held). split_and!; [by econstructor|done..].
  - intros (b & r & h & Hb & _ & Hh & Hx). destruct (Hsame _ _ _ Hb Hh) as [-> ->].
    destruct Hb as [b r ss' s sa Hk Hn Hf Hss' Hs Hsk Hsa]. replace ss' with ss in Hs by congruence.
    destruct (mapR_elem_2 _ _ _ _ Hl Hs) as (p & _ & Hp). exists s, p. split_and!; [done..|].
    by apply (subject_reads_elem _ _ _ _ _ _ _ _ _ Hp).
Qed.

(** [can_read] of a render, exactly *)
Lemma can_read_elem docs owner dns rs res sa x :
  can_read docs owner dns = Ok res → role_rules docs dns = Ok rs →
  (sa, x) ∈ res.1 ↔
  ∃ d bns rules held, d ∈ docs ∧ binds dns rs d bns rules sa ∧ in_release bns ∧
    held_reads owner rules = Ok held ∧ x ∈ held.
Proof.
  unfold can_read. intros H Hrs. rewrite Hrs in H. cbn [rbind] in H.
  apply bind_Ok in H as (l & Hl & H). injection H as <-. rewrite (mapR_concat2 _ _ _ _ Hl). split.
  - intros (d & r & Hd & Hr & Hx). apply (binding_reads_elem _ _ _ _ _ _ _ Hr) in Hx. naive_solver.
  - intros (d & b & ru & h & Hd & Hx). destruct (mapR_elem_2 _ _ _ _ Hl Hd) as (p & _ & Hp).
    exists d, p. split_and!; [done..|]. apply (binding_reads_elem _ _ _ _ _ _ _ Hp). naive_solver.
Qed.

(** ** The takeovers of a render *)

Lemma subject_takeovers_elem owner targets sas rs kind d bns rules s res h p t :
  subject_takeovers owner targets sas rs kind d bns rules s = Ok res →
  ((h, p), t) ∈ res.1 ↔
  fld s "kind" = VStr "ServiceAccount" ∧ subject_account s bns (VStr NS) = Ok h ∧
  ∃ ps, powers rules bns h targets sas (by_ref rs) owner = Ok ps ∧ (p, t) ∈ ps.
Proof.
  unfold subject_takeovers. intros (sk & ->%get_Ok & H)%bind_Ok.
  destruct (py_eq (fld s "kind") (VStr "Group")) eqn:Eg.
  { apply py_eq_str_r in Eg as ->. ok_case; cbn; set_solver. }
  destruct (py_eq (fld s "kind") (VStr "ServiceAccount")) eqn:Es.
  - apply py_eq_str_r in Es as ->. cbn [negb] in H. apply bind_Ok in H as (holder & Hh & H).
    apply bind_Ok in H as (ps & Hps & H). injection H as <-. cbn. rewrite list_elem_of_fmap. split.
    + intros ([p' t'] & [= -> -> ->] & Hy). split_and!; [done..|]. by exists ps.
    + intros (_ & Hh' & ps' & Hps' & Hin). replace holder with h in * by congruence.
      exists (p, t). split; [done|]. congruence.
  - injection H as <-. cbn. split; [by intros ?%elem_of_nil|]. intros (E & _).
    by rewrite E in Es.
Qed.

Lemma binding_takeovers_elem owner targets sas rs d res h p t :
  binding_takeovers owner targets sas rs d = Ok res →
  ((h, p), t) ∈ res.1 ↔
  ∃ bns rules ps, binds (VStr NS) rs d bns rules h ∧
    powers rules bns h targets sas (by_ref rs) owner = Ok ps ∧ (p, t) ∈ ps.
Proof.
  unfold binding_takeovers. intros (k & ->%get_Ok & H)%bind_Ok.
  destruct (in_tuple (fld d "kind") _) eqn:Ek; cbn [negb] in H.
  2: { injection H as <-. split; [by intros ?%elem_of_nil|].
       intros (? & ? & ? & [] & _). congruence. }
  apply bind_Ok in H as (bns & Hbns & H). apply bind_Ok in H as (ref & ->%por_dict_fld & H).
  apply bind_Ok in H as (o & Ho & H). destruct o as [rules|].
  2: { ok_inv. split; [by intros ?%elem_of_nil|]. intros (? & ? & ? & [] & _). congruence. }
  apply bind_Ok in H as (ss & Hss & H). apply bind_Ok in H as (l & Hl & H). injection H as <-.
  rewrite (mapR_concat2 _ _ _ _ Hl). split.
  - intros (s & r & Hs & Hr & Hx).
    apply (subject_takeovers_elem _ _ _ _ _ _ _ _ _ _ _ _ _ Hr) in Hx as (Hk & Ha & ps & Hps & Hin).
    exists bns, rules, ps. split_and!; [by econstructor|done..].
  - intros (b & r & ps & [b' r' ss' s sa Hk Hn Hf Hss' Hs Hsk Hsa] & Hps & Hin).
    assert (b' = bns ∧ r' = rules ∧ ss' = ss) as (-> & -> & ->) by (split_and!; congruence).
    destruct (mapR_elem_2 _ _ _ _ Hl Hs) as (q & _ & Hq). exists s, q. split_and!; [done..|].
    apply (subject_takeovers_elem _ _ _ _ _ _ _ _ _ _ _ _ _ Hq). by eauto.
Qed.

(** A bound ServiceAccount has its powers computed. *)
Lemma binding_takeovers_powers owner targets sas rs d res bns rules h :
  binding_takeovers owner targets sas rs d = Ok res → binds (VStr NS) rs d bns rules h →
  ∃ ps, powers rules bns h targets sas (by_ref rs) owner = Ok ps.
Proof.
  unfold binding_takeovers. intros (k & ->%get_Ok & H)%bind_Ok [b r ss s sa Hk Hn Hf Hss Hs Hsk Hsa].
  rewrite Hk, Hn in H. cbn [negb rbind] in H. apply bind_Ok in H as (ref & ->%por_dict_fld & H).
  rewrite Hf, Hss in H. cbn [rbind] in H. apply bind_Ok in H as (l & Hl & _).
  destruct (mapR_elem_2 _ _ _ _ Hl Hs) as (q & _ & Hq). unfold subject_takeovers in Hq.
  apply bind_Ok in Hq as (sk & ->%get_Ok & Hq). rewrite Hsk, Hsa in Hq.
  cbn -[powers] in Hq. apply bind_Ok in Hq as (ps & Hps & _). by exists ps.
Qed.

(** ** The verdict *)

Lemma reads_key sa x (reads : list (string * string)) : (sa, x) ∈ reads → sa ∈ sorted_keys reads.
Proof. intros H. unfold sorted_keys. apply sorted_set_elem, list_elem_of_fmap. by exists (sa, x). Qed.

Lemma targets_of_elem (ts : list takeover) hp t : t ∈ targets_of ts hp ↔ (hp, t) ∈ ts.
Proof.
  unfold targets_of. rewrite sorted_set_elem, list_elem_of_fmap. split.
  - intros ([hp' t'] & -> & H). apply list_elem_of_In, filter_In in H as [H E].
    apply bool_decide_eq_true in E as <-. by apply list_elem_of_In.
  - intros H. exists (hp, t). split; [done|]. apply list_elem_of_In, filter_In.
    rewrite <- list_elem_of_In. split; [done|]. by apply bool_decide_eq_true.
Qed.

(** The entry of the allowlist covers the takeover. *)
Definition takeover_allowed (allow : val) (guards : option (list string)) (hpt : takeover) : Prop :=
  let '((holder, power), target) := hpt in
  let entry := fld (por (fld allow "takeovers") (VDict [])) (cat [holder; " "; power]) in
  entry ≠ VNone ∧
  (fld entry "targets" = VStr "all" ∨
   ∃ l, py_iter (fld entry "targets") = Ok l ∧ VStr target ∈ l) ∧
  (truthy (fld entry "guarded-by") = true → ∀ gs, guards = Some gs → in_tuple (fld entry "guarded-by") gs = true).

Lemma judge_takeover_clean allow ts guards hp t :
  judge_takeover ts guards (por (fld allow "takeovers") (VDict [])) hp = Ok [] →
  (hp, t) ∈ ts → takeover_allowed allow guards (hp, t).
Proof.
  unfold judge_takeover, takeover_allowed. destruct hp as [h p]. cbn [fst snd].
  intros (entry & ->%get_Ok & H)%bind_Ok Hin. set (entry := fld _ (cat _)) in *.
  destruct (is_none entry) eqn:En; [done|]. split; [by intros E; rewrite E in En|].
  apply bind_Ok in H as (tg & ->%item_fld & H). apply bind_Ok in H as (extra & Hx & H).
  apply bind_Ok in H as (g & ->%get_Ok & H). apply bind_Ok in H as (ung & Hg & H).
  injection H as H. apply app_eq_nil in H as [H1 H2].
  apply if_cons_nil in H1, H2. subst ung. destruct extra; [|done]. split.
  - destruct (py_eq _ (VStr "all")) eqn:Ea in Hx; [left; by apply py_eq_str_r in Ea|]. right.
    apply bind_Ok in Hx as (l & Hl & Hx). exists l. split; [done|].
    apply bind_Ok in Hx as (l' & Hs & Hx). unfold set_of in Hs.
    destruct (forallb hashable l); [injection Hs as <-|done]. injection Hx as Hx.
    destruct (existsb (py_eq (VStr t)) l) eqn:E; [by apply existsb_py_eq_str|]. exfalso.
    assert (t ∈ @nil string) as Hnil; [|by apply elem_of_nil in Hnil].
    rewrite <- Hx. apply list_elem_of_In, filter_In. rewrite E, <- list_elem_of_In.
    split; [by apply targets_of_elem|done].
  - intros Ht gs ->. rewrite Ht in Hg. apply notR_false in Hg. unfold in_set in Hg.
    by destruct (hashable _); [injection Hg as ->|].
Qed.

Lemma verdict_clean mounts reads allow ts errors stale guards :
  judge mounts reads allow ts errors stale guards = Ok [] →
  errors = [] ∧
  (∀ m, m ∈ mounts → str_in m (por (fld allow "mounts") (VDict [])) = Ok true) ∧
  (∀ sa x, (sa, x) ∈ reads → str_in sa (por (fld allow "readers") (VDict [])) = Ok true) ∧
  (∀ hpt, hpt ∈ ts → takeover_allowed allow guards hpt) ∧
  (stale = true → stale_entries mounts reads ts (por (fld allow "mounts") (VDict []))
    (por (fld allow "readers") (VDict [])) (por (fld allow "takeovers") (VDict [])) = Ok []).
Proof.
  unfold judge. intros (am & ->%por_dict_fld & H)%bind_Ok.
  apply bind_Ok in H as (ar & ->%por_dict_fld & H). apply bind_Ok in H as (at_ & ->%por_dict_fld & H).
  apply bind_Ok in H as (ms & Hm & H). apply bind_Ok in H as (rs & Hr & H).
  apply bind_Ok in H as (tk & Ht & H). apply bind_Ok in H as (st & Hst & H). injection H as H.
  apply app_eq_nil in H as [-> H]. apply app_eq_nil in H as [-> H]. apply app_eq_nil in H as [-> H].
  apply app_eq_nil in H as [-> ->]. rewrite flatM_nil in Hm. rewrite flatM_nil in Hr. rewrite flatM_nil in Ht.
  split_and!; [done| | | |by intros ->].
  - intros m Hin. specialize (Hm m). rewrite sorted_set_elem in Hm. specialize (Hm Hin).
    apply bind_Ok in Hm as ([] & ? & ?); [done|ok_inv].
  - intros sa x Hin. specialize (Hr sa (reads_key _ _ _ Hin)).
    apply bind_Ok in Hr as ([] & ? & ?); [done|ok_inv].
  - intros [hp t] Hin. apply judge_takeover_clean with (ts := ts); [|done]. apply Ht.
    apply sorted_pairs_elem, list_elem_of_fmap. by exists (hp, t).
Qed.

(** ** A clean run *)

Section clean_run.
Context (docsets : list (list val)) (allow : val) (owner : list string).
Hypothesis Hclean : run docsets allow owner = Ok [].

Lemma clean_run_judged :
  ∃ f gs, rendered_findings docsets owner = Ok f ∧ admission_guards docsets = Ok gs ∧
    judge (f_mounts f) (f_reads f) allow (f_takeovers f) (f_errors f) true (Some gs) = Ok [].
Proof using Hclean.
  pose proof Hclean as H. unfold run in H. apply bind_Ok in H as (f & Hf & H).
  apply bind_Ok in H as (gs & Hgs & H). by exists f, gs.
Qed.

Lemma clean_run_findings docs :
  docs ∈ docsets →
  ∃ f gs ms reads, rendered_findings docsets owner = Ok f ∧ admission_guards docsets = Ok gs ∧
    mount_readers owner docs NS = Ok ms ∧ can_read docs owner (VStr NS) = Ok reads ∧
    (∀ m, m ∈ ms → str_in m (por (fld allow "mounts") (VDict [])) = Ok true) ∧
    (∀ sa x, (sa, x) ∈ reads.1 → str_in sa (por (fld allow "readers") (VDict [])) = Ok true) ∧
    (∀ hpt, hpt ∈ f_takeovers f → takeover_allowed allow (Some gs) hpt).
Proof using Hclean.
  intros Hdocs. destruct clean_run_judged as (f & gs & Hf & Hgs & Hj).
  apply verdict_clean in Hj as (_ & Hm & Hr & Ht & _). pose proof Hf as Hf'.
  unfold rendered_findings in Hf. apply bind_Ok in Hf as (l & Hl & Hf).
  destruct (mapR_elem_2 _ _ _ _ Hl Hdocs) as ([ms reads] & Hin & He).
  apply bind_Ok in He as (ms' & Hms & He). apply bind_Ok in He as (reads' & Hreads & He).
  injection He as -> ->. apply bind_Ok in Hf as ([ts terr] & _ & Hf). injection Hf as <-.
  cbn [f_mounts f_reads f_takeovers] in *.
  eexists _, gs, ms, reads. split_and!; [done..| | |exact Ht].
  - intros m Hx. apply Hm. apply elem_of_concat. exists ms. split; [|done].
    apply list_elem_of_fmap. by exists (ms, reads).
  - intros sa x Hx. apply (Hr sa x). apply elem_of_concat. exists reads.1. split; [|done].
    apply list_elem_of_In, in_map_iff. exists (ms, reads). split; [done|]. by apply list_elem_of_In.
Qed.

(** The workloads that the guard protects, and their ServiceAccounts *)
Definition protected (targets : list workload) (sas : list string) : Prop :=
  ∃ f wls, rendered_findings docsets owner = Ok f ∧
    flatM (λ docs, ns <- first_namespace docs ;; workloads docs ns) docsets = Ok wls ∧
    reader_targets wls owner (sorted_keys (f_reads f)) = Ok (targets, sas).

Lemma clean_run_takeovers docs rs targets sas d bns rules holder :
  docs ∈ docsets → role_rules docs (VStr NS) = Ok rs → protected targets sas →
  d ∈ docs → binds (VStr NS) rs d bns rules holder →
  ∃ ps gs, powers rules bns holder targets sas (by_ref rs) owner = Ok ps ∧
    admission_guards docsets = Ok gs ∧
    ∀ power target, (power, target) ∈ ps → takeover_allowed allow (Some gs) ((holder, power), target).
Proof using Hclean.
  intros Hdocs Hrs (f & wls & Hf & Hwls & Htg) Hd Hb.
  destruct (clean_run_findings docs Hdocs) as (f' & gs & ms & reads & Hf' & Hgs & _ & _ & _ & _ & Ht).
  replace f' with f in * by congruence. clear Hf'.
  pose proof Hf as Hf'. unfold rendered_findings in Hf'. apply bind_Ok in Hf' as (l & Hl & H).
  apply bind_Ok in H as ([ts terr] & H & He). injection He as <-. cbn [f_reads f_takeovers] in *.
  unfold rendered_takeovers in H. rewrite Hwls in H. cbn [rbind] in H. rewrite Htg in H. cbn [rbind] in H.
  apply bind_Ok in H as (k & Hk & H).
  assert (ts = (concat2 k).1) as -> by (by injection H as <- <-).
  destruct (mapR_elem_2 _ _ _ _ Hk Hdocs) as (r & Hr & Hdr). pose proof Hdr as Hdr'.
  cbn in Hdr. rewrite Hrs in Hdr. cbn [rbind] in Hdr. apply bind_Ok in Hdr as (q & Hq & Hdr).
  injection Hdr as <-. destruct (mapR_elem_2 _ _ _ _ Hq Hd) as (y & _ & Hy).
  destruct (binding_takeovers_powers _ _ _ _ _ _ _ _ _ Hy Hb) as [ps Hps]. exists ps, gs.
  split_and!; [done..|]. intros power target Hin. apply Ht, (mapR_concat2 _ _ _ _ Hk).
  exists docs, (concat2 q). split_and!; [done..|]. apply (mapR_concat2 _ _ _ _ Hq).
  exists d, y. split_and!; [done..|].
  apply (binding_takeovers_elem _ _ _ _ _ _ _ _ _ Hy). by exists bns, rules, ps.
Qed.
End clean_run.

(** ** Powers

    What a rule lets its holder do to the protected workloads and accounts. *)

(** The rule grants one of the verbs on the resource of the group. *)
Definition on_resource (r : policy_rule) (group resource : string) (verbs : list string) : Prop :=
  covers (pr_groups r) group ∧
  (∃ p, p ∈ resource_patterns resource ∧ p ∈ pr_resources r) ∧
  ∃ v, v ∈ verbs ∧ covers (pr_verbs r) v.

Lemma resource_matches_computes (l : list string) resource :
  computes (resource_matches (por (strs l) (VList [])) resource)
           (∃ p, p ∈ resource_patterns resource ∧ p ∈ l).
Proof.
  unfold resource_matches. rewrite por_strs. cbn [py_iter strs rbind]. apply computes_Ok.
  rewrite existsb_elem_of. split.
  - intros (x & (p & -> & Hp)%list_elem_of_fmap & Hx). apply in_tuple_true in Hx as (s & [= ->] & Hs).
    by exists s.
  - intros (p & Hp & Hl). exists (VStr p). rewrite list_elem_of_fmap. split; [by exists p|].
    apply in_tuple_true. by exists p.
Qed.

Lemma grant_rule_spec group resource verbs acc (r : policy_rule) :
  ∃ b : bool, (b = true ↔ on_resource r group resource verbs) ∧
    grant_rule group resource verbs acc (policy_rule_val r) =
    Ok (if b then Granted true (every acc || negb (nonempty (pr_names r))) (names acc ++ (VStr <$> pr_names r))
        else acc).
Proof.
  unfold grant_rule, on_resource.
  destruct (lists_computes r "apiGroups" (pr_groups r) group eq_refl) as (g & -> & Hg). cbn [rbind].
  destruct g; cbn [negb]; [|exists false; split; [naive_solver|done]].
  change (get (policy_rule_val r) "resources") with (Ok (strs (pr_resources r))). cbn [rbind].
  destruct (resource_matches_computes (pr_resources r) resource) as (m & -> & Hm). cbn [rbind].
  destruct m; cbn [negb]; [|exists false; split; [naive_solver|done]].
  assert (computes (anyM (lists (policy_rule_val r) "verbs") verbs) (∃ v, v ∈ verbs ∧ covers (pr_verbs r) v))
    as (v & -> & Hv) by (apply computes_anyM; intros; by apply lists_computes). cbn [rbind].
  destruct v; cbn [negb]; [|exists false; split; [naive_solver|done]].
  exists true. split; [naive_solver|].
  change (get (policy_rule_val r) "resourceNames") with (Ok (strs (pr_names r))). cbn [rbind].
  rewrite por_strs, truthy_strs. destruct (pr_names r) as [|n l]; cbn [nonempty negb].
  - by rewrite orb_true_r, app_nil_r.
  - rewrite orb_false_r. cbn [py_iter strs rbind]. by rewrite set_of_strs.
Qed.

(** What [grant] finds in the rules *)
Lemma grant_spec (rules : list policy_rule) group resource verbs :
  ∃ acc ns, grant (rules_val rules) group resource verbs = Ok acc ∧ names acc = VStr <$> ns ∧
    (hit acc = true ↔ ∃ r, r ∈ rules ∧ on_resource r group resource verbs) ∧
    (every acc = true ↔ ∃ r, r ∈ rules ∧ on_resource r group resource verbs ∧ pr_names r = []) ∧
    (∀ n, n ∈ ns ↔ ∃ r, r ∈ rules ∧ on_resource r group resource verbs ∧ n ∈ pr_names r).
Proof.
  unfold grant. cbn [py_iter rules_val rbind].
  assert (∀ acc0 ns0, names acc0 = VStr <$> ns0 →
    ∃ acc ns, foldM (grant_rule group resource verbs) acc0 (policy_rule_val <$> rules) = Ok acc ∧
      names acc = VStr <$> ns ∧
      (hit acc = true ↔ hit acc0 = true ∨ ∃ r, r ∈ rules ∧ on_resource r group resource verbs) ∧
      (every acc = true ↔ every acc0 = true ∨
         ∃ r, r ∈ rules ∧ on_resource r group resource verbs ∧ pr_names r = []) ∧
      (∀ n, n ∈ ns ↔ n ∈ ns0 ∨ ∃ r, r ∈ rules ∧ on_resource r group resource verbs ∧ n ∈ pr_names r))
    as H.
  2: { destruct (H (Granted false false []) [] eq_refl) as (acc & ns & ? & ? & Hh & He & Hn).
       exists acc, ns. rewrite Hh, He. setoid_rewrite Hn. cbn. setoid_rewrite elem_of_nil.
       split_and!; [done|done|..]; naive_solver. }
  induction rules as [|r rules IH]; intros acc0 ns0 H0.
  { exists acc0, ns0. split_and!; [done|done|..]; set_solver. }
  cbn. destruct (grant_rule_spec group resource verbs acc0 r) as (b & Hb & ->). cbn [rbind].
  destruct b.
  - destruct (IH (Granted true (every acc0 || negb (nonempty (pr_names r))) (names acc0 ++ (VStr <$> pr_names r)))
      (ns0 ++ pr_names r)) as (acc & ns & ? & ? & Hh & He & Hn).
    { cbn. by rewrite H0, fmap_app. }
    exists acc, ns. rewrite Hh, He. setoid_rewrite Hn. cbn [hit every].
    setoid_rewrite elem_of_cons. setoid_rewrite elem_of_app.
    assert (every acc0 || negb (nonempty (pr_names r)) = true ↔ every acc0 = true ∨ pr_names r = []) as ->
      by (rewrite orb_true_iff; destruct (pr_names r); naive_solver).
    assert (on_resource r group resource verbs) as Hr by by apply Hb.
    split_and!; [done|done|..]; clear -Hr; naive_solver.
  - destruct (IH acc0 ns0 H0) as (acc & ns & ? & ? & Hh & He & Hn).
    exists acc, ns. rewrite Hh, He. setoid_rewrite Hn. setoid_rewrite elem_of_cons.
    assert (¬ on_resource r group resource verbs) as Hr by (rewrite <- Hb; done).
    split_and!; [done|done|..]; clear -Hr; naive_solver.
Qed.

(** A workload with the types of the API *)
Record pod_source := PodSource { ps_kind : string; ps_name : string; ps_ns : string; ps_sa : string; ps_spec : val }.
Definition source_val (w : pod_source) : workload :=
  Workload (VStr (ps_kind w)) (VStr (ps_name w)) (VStr (ps_ns w)) (VStr (ps_sa w)) (ps_spec w).

Lemma source_inj u w : source_val u = source_val w → u = w.
Proof. destruct u, w. unfold source_val. cbn. by intros [= -> -> -> -> ->]. Qed.

(** [pod] is the name of a pod of the workload, as far as its name tells: the
    workload is the pod, or a StatefulSet whose pods are numbered. *)
Definition pod_name (w : pod_source) (pod : string) : Prop :=
  ps_kind w = "Pod" ∧ pod = ps_name w ∨
  ps_kind w = "StatefulSet" ∧
  ∃ digits, pod = ps_name w +:+ "-" +:+ digits ∧ digits ≠ "" ∧ str_forallb is_digit digits = true.

Lemma ordinal_iff name pod :
  is_Some (re_fullmatch (ordinal_re name) pod) ↔
  ∃ digits, pod = name +:+ "-" +:+ digits ∧ digits ≠ "" ∧ str_forallb is_digit digits = true.
Proof.
  rewrite fullmatch_iff. unfold ordinal_re, RSeq, RPlus. split.
  - intros (p & ([q1 s1] & H1%step_str_iff & H)%step_cat_iff).
    apply step_cat_iff in H as ([q2 s2] & H2%step_str_iff & H).
    apply step_cat_iff in H as ([q3 s3] & (c & t & Hc & Hd & [= -> ->])%step_chr_iff & H).
    apply step_star_iff in H as (u & -> & Hu). cbn [snd] in *. subst. rewrite append_nil_r.
    exists (String c u). split; [done|]. split; [done|]. cbn. by rewrite Hd, Hu.
  - intros ([|c u] & -> & Hne & Hd); [done|]. cbn [str_forallb] in Hd.
    apply andb_true_iff in Hd as [Hc Hu].
    destruct (step_str name None ("-" +:+ String c u)) as [p1 H1].
    destruct (step_str "-" p1 (String c u)) as [p2 H2].
    destruct (step_star is_digit u (Some c) "" Hu) as [p3 H3]. rewrite append_nil_r in H3.
    exists p3. econstructor; [exact H1|]. econstructor; [exact H2|].
    econstructor; [by apply step_chr|exact H3].
Qed.

Lemma existsb_strs n (l : list string) : existsb (py_eq (VStr n)) (VStr <$> l) = true ↔ n ∈ l.
Proof. by rewrite existsb_py_eq_str, elem_strs. Qed.

Lemma pod_named_computes w (l : list string) :
  computes (pod_named (VStr (ps_kind w)) (VStr (ps_name w)) (VStr <$> l)) (∃ n, n ∈ l ∧ pod_name w n).
Proof.
  unfold pod_named, pod_name. destruct (py_eq (VStr (ps_kind w)) (VStr "Pod")) eqn:Ep.
  { apply py_eq_str_r in Ep as [= ->]. cbn [hashable]. apply computes_Ok. rewrite existsb_strs.
    split; [intros H; exists (ps_name w); naive_solver|]. intros (n & Hn & [[_ ->]|[? _]]); done. }
  assert (ps_kind w ≠ "Pod") as Hp by (intros E; by rewrite E in Ep).
  destruct (py_eq (VStr (ps_kind w)) (VStr "StatefulSet")) eqn:Es.
  - apply py_eq_str_r in Es as [= Ek]. rewrite Ek in *. rewrite anyM_fmap.
    eapply computes_iff; [|apply computes_anyM; intros n _; apply computes_Ok, bool_decide_eq_true].
    setoid_rewrite ordinal_iff. naive_solver.
  - apply computes_Ok. split; [done|]. intros (n & _ & [[? _]|[E _]]); [done|by rewrite E in Es].
Qed.

Lemma reaches_pods_computes rules w sub verbs :
  computes (reaches_pods (rules_val rules) (source_val w) sub verbs)
    (∃ r, r ∈ rules ∧ on_resource r "" sub verbs ∧
      (pr_names r = [] ∨ ∃ n, n ∈ pr_names r ∧ pod_name w n)).
Proof.
  unfold reaches_pods. destruct (grant_spec rules "" sub verbs) as (acc & ns & -> & Hns & Hh & He & Hn).
  cbn [rbind]. unfold andR. cbn [w_kind w_name source_val]. rewrite Hns.
  eapply computes_iff; [|apply computes_and; [apply computes_Ok, Hh|intros _];
    apply computes_or; [apply computes_Ok, He|intros _; apply pod_named_computes]].
  setoid_rewrite Hn. clear. naive_solver.
Qed.

Lemma reaches_object_computes rules group resource verbs name :
  computes (reaches_object (rules_val rules) group resource verbs (VStr name))
    (∃ r, r ∈ rules ∧ on_resource r group resource verbs ∧ covers_name (pr_names r) (Some name)).
Proof.
  unfold reaches_object. destruct (grant_spec rules group resource verbs) as (acc & ns & -> & Hns & Hh & He & Hn).
  cbn [rbind hashable]. unfold andR. rewrite Hns.
  eapply computes_iff; [|apply computes_and; [apply computes_Ok, Hh|intros _];
    apply computes_or; [apply computes_Ok, He|intros _; apply computes_Ok, existsb_strs]].
  setoid_rewrite Hn. unfold covers_name. clear. naive_solver.
Qed.

Lemma grants_computes rules group resource verbs :
  computes (grants (rules_val rules) group resource verbs) (∃ r, r ∈ rules ∧ on_resource r group resource verbs).
Proof.
  unfold grants. destruct (grant_spec rules group resource verbs) as (acc & ns & -> & _ & Hh & _).
  by apply computes_Ok.
Qed.

(** ** The powers of a holder, as RBAC grants them

    [bns] is the namespace of the binding, [None] for a ClusterRoleBinding. *)
Section holds.
Context (rules : list policy_rule) (bns : option string) (holder : string).
Context (targets : list pod_source) (sas : list string).

Definition scope (ns : string) : Prop := bns = None ∨ bns = Some ns.
Definition account (w : pod_source) : string := cat [ps_ns w; "/"; ps_sa w].
Definition id_of (w : pod_source) : string := cat [ps_kind w; "/"; ps_name w].
(** Another workload in the scope of the binding *)
Definition victim (w : pod_source) : Prop := w ∈ targets ∧ scope (ps_ns w) ∧ account w ≠ holder.
(** Another account, by its namespace and name *)
Definition victim_account (sa ns name : string) : Prop :=
  sa ∈ sas ∧ sa ≠ holder ∧ split1 "/" sa = Some (ns, name).

Inductive holds : string * string → Prop :=
  | holds_node w r : victim w → bns = None → r ∈ rules → on_resource r "" "nodes/proxy" ["get"; "create"] →
      holds ("exec", id_of w)
  | holds_exec w r sub verbs : victim w → (sub, verbs) ∈ EXEC_SUBRESOURCES →
      r ∈ rules → on_resource r "" sub verbs →
      (pr_names r = [] ∨ ∃ n, n ∈ pr_names r ∧ pod_name w n) → holds ("exec", id_of w)
  | holds_pods w r : victim w → r ∈ rules → on_resource r "" "pods" ["patch"; "update"] →
      (pr_names r = [] ∨ ∃ n, n ∈ pr_names r ∧ pod_name w n) → holds ("patch", id_of w)
  | holds_object w r g res : victim w → alist_get (ps_kind w) KIND_RESOURCE = Some (g, res) →
      ps_kind w ≠ "Pod" → r ∈ rules → on_resource r g res ["patch"; "update"] →
      covers_name (pr_names r) (Some (ps_name w)) → holds ("patch", id_of w)
  | holds_create r g res : scope NS → (g, res) ∈ POD_MAKERS → r ∈ rules → on_resource r g res ["create"] →
      holds ("create-pod", cat ["Namespace/"; NS])
  | holds_token sa ns name r : victim_account sa ns name → scope ns → r ∈ rules →
      on_resource r "" "serviceaccounts/token" ["create"] → covers_name (pr_names r) (Some name) →
      holds ("token", cat ["ServiceAccount/"; sa])
  | holds_impersonate sa ns name r : victim_account sa ns name → scope ns → r ∈ rules →
      on_resource r "" "serviceaccounts" ["impersonate"] → covers_name (pr_names r) (Some name) →
      holds ("impersonate", cat ["ServiceAccount/"; sa])
  | holds_user sa ns name r : victim_account sa ns name → bns = None → r ∈ rules →
      on_resource r "" "users" ["impersonate"] →
      covers_name (pr_names r) (Some (cat ["system:serviceaccount:"; ns; ":"; name])) →
      holds ("impersonate", cat ["ServiceAccount/"; sa]).

Let bns_val : val := match bns with Some n => VStr n | None => VNone end.

Lemma in_scope_spec ns : in_scope bns_val (VStr ns) = true ↔ scope ns.
Proof.
  unfold in_scope, scope, bns_val. destruct bns as [b|]; [|naive_solver].
  cbn [is_none orb]. rewrite py_eq_str_str, str_eqb_eq. naive_solver.
Qed.

Lemma when_elem (b : bool) p t x : x ∈ when b p t ↔ b = true ∧ x = (p, t).
Proof. unfold when. destruct b; [rewrite list_elem_of_singleton|]; [naive_solver|set_solver]. Qed.

(** The rules reach the pods of [w] with one of the verbs. *)
Let pods_of (w : pod_source) (sub : string) (verbs : list string) : Prop :=
  ∃ r, r ∈ rules ∧ on_resource r "" sub verbs ∧ (pr_names r = [] ∨ ∃ n, n ∈ pr_names r ∧ pod_name w n).
Let object (group resource : string) (verbs : list string) (name : string) : Prop :=
  ∃ r, r ∈ rules ∧ on_resource r group resource verbs ∧ covers_name (pr_names r) (Some name).

Lemma workload_object_computes w :
  computes (match alist_get (py_str (VStr (ps_kind w))) KIND_RESOURCE with
            | Some (g, r) =>
                if py_eq (VStr (ps_kind w)) (VStr "Pod") then Ok false
                else reaches_object (rules_val rules) g r ["patch"; "update"] (VStr (ps_name w))
            | None => Ok false
            end)
    (∃ g res, alist_get (ps_kind w) KIND_RESOURCE = Some (g, res) ∧ ps_kind w ≠ "Pod" ∧
      object g res ["patch"; "update"] (ps_name w)).
Proof using All.
  change (py_str (VStr (ps_kind w))) with (ps_kind w).
  destruct (alist_get _ _) as [[g res]|]; [|apply computes_Ok; naive_solver].
  destruct (py_eq _ _) eqn:E.
  - apply py_eq_str_r in E as [= ->]. apply computes_Ok. naive_solver.
  - assert (ps_kind w ≠ "Pod") by (intros H; by rewrite H in E).
    eapply computes_iff; [|apply reaches_object_computes]. unfold object. naive_solver.
Qed.

Lemma workload_powers_yields ne w :
  yields (workload_powers (rules_val rules) bns_val holder ne (source_val w))
    (λ x, scope (ps_ns w) ∧ account w ≠ holder ∧
      (x = ("exec", id_of w) ∧ (ne = true ∨ ∃ sv, sv ∈ EXEC_SUBRESOURCES ∧ pods_of w sv.1 sv.2) ∨
       x = ("patch", id_of w) ∧
         (pods_of w "pods" ["patch"; "update"] ∨
          ∃ g res, alist_get (ps_kind w) KIND_RESOURCE = Some (g, res) ∧ ps_kind w ≠ "Pod" ∧
            object g res ["patch"; "update"] (ps_name w)))).
Proof using All.
  unfold workload_powers. cbn [w_ns w_kind w_name source_val].
  change (w_account (source_val w)) with (account w). change (w_id (source_val w)) with (id_of w).
  destruct (negb (in_scope bns_val (VStr (ps_ns w))) || str_eqb (account w) holder) eqn:E.
  { exists []. split; [done|]. intros x. split; [by intros ?%elem_of_nil|]. intros (Hs%in_scope_spec & Hh & _).
    rewrite Hs in E. cbn in E. by apply str_eqb_eq in E. }
  apply orb_false_iff in E as [Hs Hh]. apply negb_false_iff, in_scope_spec in Hs.
  assert (account w ≠ holder) as Hne by (intros Ha; by rewrite Ha, str_eqb_refl in Hh). clear Hh.
  assert (yields (flatM (λ '(sub, verbs), b <- reaches_pods (rules_val rules) (source_val w) sub verbs ;;
      Ok (when b "exec" (id_of w))) EXEC_SUBRESOURCES)
    (λ x, ∃ sv, sv ∈ EXEC_SUBRESOURCES ∧ pods_of w sv.1 sv.2 ∧ x = ("exec", id_of w))) as (ex & -> & Hex).
  { apply yields_flatM. intros [sub verbs] _. apply yields_when, reaches_pods_computes. }
  destruct (reaches_pods_computes rules w "pods" ["patch"; "update"]) as (pb & -> & Hpb).
  cbn [rbind set_of forallb hashable andb].
  destruct (workload_object_computes w) as (ob & -> & Hob). cbn [rbind].
  eexists. split; [done|]. intros x. rewrite !elem_of_app, !when_elem, Hex, Hpb, Hob. fold (pods_of w "pods" ["patch"; "update"]).
  clear -Hs Hne. naive_solver.
Qed.
Lemma account_powers_yields sa ns name :
  split1 "/" sa = Some (ns, name) →
  yields (account_powers (rules_val rules) bns_val holder sa)
    (λ x, sa ≠ holder ∧
      (x = ("token", cat ["ServiceAccount/"; sa]) ∧ scope ns ∧
         object "" "serviceaccounts/token" ["create"] name ∨
       x = ("impersonate", cat ["ServiceAccount/"; sa]) ∧
         (scope ns ∧ object "" "serviceaccounts" ["impersonate"] name ∨
          bns = None ∧ object "" "users" ["impersonate"] (cat ["system:serviceaccount:"; ns; ":"; name])))).
Proof using All.
  intros Hsa. unfold account_powers. destruct (str_eqb sa holder) eqn:E.
  { exists []. split; [done|]. apply str_eqb_eq in E. clear -E. set_solver. }
  assert (sa ≠ holder) as Hne by (intros Ha; by rewrite Ha, str_eqb_refl in E). clear E.
  rewrite Hsa. destruct (in_scope bns_val (VStr ns)) eqn:Es.
  - apply in_scope_spec in Es.
    destruct (reaches_object_computes rules "" "serviceaccounts/token" ["create"] name) as (tb & -> & Ht).
    destruct (reaches_object_computes rules "" "serviceaccounts" ["impersonate"] name) as (ib & -> & Hi).
    cbn [rbind]. destruct bns as [b|]; cbn [bns_val is_none].
    + eexists. split; [done|]. intros x. rewrite !elem_of_app, !when_elem, Ht, Hi.
      fold (object "" "serviceaccounts/token" ["create"] name) (object "" "serviceaccounts" ["impersonate"] name).
      clear -Es Hne. naive_solver.
    + destruct (reaches_object_computes rules "" "users" ["impersonate"]
        (cat ["system:serviceaccount:"; ns; ":"; name])) as (ub & -> & Hu). cbn [rbind].
      eexists. split; [done|]. intros x. rewrite !elem_of_app, !when_elem, Ht, Hi, Hu.
      fold (object "" "serviceaccounts/token" ["create"] name) (object "" "serviceaccounts" ["impersonate"] name).
      fold (object "" "users" ["impersonate"] (cat ["system:serviceaccount:"; ns; ":"; name])).
      clear -Es Hne. naive_solver.
  - assert (¬ scope ns) as Hs by (rewrite <- in_scope_spec, Es; done). clear Es. cbn [rbind].
    destruct bns as [b|] eqn:Eb; cbn [bns_val is_none].
    + exists []. split; [done|]. intros x. split; [by intros ?%elem_of_nil|]. clear -Hs. naive_solver.
    + by destruct Hs; left; rewrite Eb.
Qed.

(** What the loop over the workloads finds *)
Let on_workload (ne : bool) (u : pod_source) (x : string * string) : Prop :=
  scope (ps_ns u) ∧ account u ≠ holder ∧
  (x = ("exec", id_of u) ∧ (ne = true ∨ ∃ sv, sv ∈ EXEC_SUBRESOURCES ∧ pods_of u sv.1 sv.2) ∨
   x = ("patch", id_of u) ∧
     (pods_of u "pods" ["patch"; "update"] ∨
      ∃ g res, alist_get (ps_kind u) KIND_RESOURCE = Some (g, res) ∧ ps_kind u ≠ "Pod" ∧
        object g res ["patch"; "update"] (ps_name u))).

Lemma workloads_yields ne :
  yields (flatM (workload_powers (rules_val rules) bns_val holder ne) (source_val <$> targets))
    (λ x, ∃ u, u ∈ targets ∧ on_workload ne u x).
Proof using All.
  eapply yields_iff; [|apply (yields_flatM _ (λ w x, ∃ u, w = source_val u ∧ on_workload ne u x))].
  - intros x. split.
    + intros (w & (u' & -> & Hu)%list_elem_of_fmap & u & <-%source_inj & H). by exists u'.
    + intros (u & Hu & H). exists (source_val u). split; [|by exists u]. apply list_elem_of_fmap. by exists u.
  - intros w (u & -> & _)%list_elem_of_fmap. eapply yields_iff; [|apply workload_powers_yields].
    intros y. split; [intros H; by exists u|]. by intros (u' & <-%source_inj & H).
Qed.

(** What the loop over the accounts finds *)
Let on_account (sa : string) (x : string * string) : Prop :=
  ∃ ns name, split1 "/" sa = Some (ns, name) ∧ sa ≠ holder ∧
    (x = ("token", cat ["ServiceAccount/"; sa]) ∧ scope ns ∧
       object "" "serviceaccounts/token" ["create"] name ∨
     x = ("impersonate", cat ["ServiceAccount/"; sa]) ∧
       (scope ns ∧ object "" "serviceaccounts" ["impersonate"] name ∨
        bns = None ∧ object "" "users" ["impersonate"] (cat ["system:serviceaccount:"; ns; ":"; name]))).

Lemma accounts_yields :
  (∀ sa, sa ∈ sas → is_Some (split1 "/" sa)) →
  yields (flatM (account_powers (rules_val rules) bns_val holder) (sorted_set sas))
    (λ x, ∃ sa, sa ∈ sas ∧ on_account sa x).
Proof using All.
  intros Hsas. eapply yields_iff; [|apply (yields_flatM _ on_account)].
  - intros x. by setoid_rewrite sorted_set_elem.
  - intros sa Hsa. rewrite sorted_set_elem in Hsa. destruct (Hsas sa Hsa) as [[ns name] Hs].
    eapply yields_iff; [|by apply account_powers_yields]. intros x. split.
    + intros H. by exists ns, name.
    + intros (n & m & Hs' & H). rewrite Hs in Hs'. by injection Hs' as <- <-.
Qed.

(** [holds], by the part of the code that finds the power *)
Lemma holds_cases x :
  ((∃ u, u ∈ targets ∧ scope (ps_ns u) ∧ account u ≠ holder ∧
    (x = ("exec", id_of u) ∧
       ((bns = None ∧ ∃ r, r ∈ rules ∧ on_resource r "" "nodes/proxy" ["get"; "create"]) ∨
        ∃ sv, sv ∈ EXEC_SUBRESOURCES ∧ pods_of u sv.1 sv.2) ∨
     x = ("patch", id_of u) ∧
       (pods_of u "pods" ["patch"; "update"] ∨
        ∃ g res, alist_get (ps_kind u) KIND_RESOURCE = Some (g, res) ∧ ps_kind u ≠ "Pod" ∧
          object g res ["patch"; "update"] (ps_name u)))) ∨
   (((scope NS ∧ ∃ gr, gr ∈ POD_MAKERS ∧ ∃ r, r ∈ rules ∧ on_resource r gr.1 gr.2 ["create"]) ∧
     x = ("create-pod", cat ["Namespace/"; NS])) ∨
    ∃ sa, sa ∈ sas ∧ on_account sa x)) ↔ holds x.
Proof using All.
  split.
  - intros [(u & Hu & Hs & Ha & H)|[[[Hs ([g res] & Hgr & r & Hr & Hon)] ->]|
      (sa & Hsa & ns & name & Hsp & Hsh & H)]].
    + assert (victim u) as Hv by done.
      destruct H as [[-> [[Hb (r & Hr & Hon)]|([sub verbs] & Hsv & r & Hr & Hon & Hn)]]
        |[-> [(r & Hr & Hon & Hn)|(g & res & Hg & Hp & r & Hr & Hon & Hn)]]].
      * by apply (holds_node u r).
      * by apply (holds_exec u r sub verbs).
      * by apply (holds_pods u r).
      * by apply (holds_object u r g res).
    + by apply (holds_create r g res).
    + assert (victim_account sa ns name) as Hv by done.
      destruct H as [(-> & Hs & r & Hr & Hon & Hn)|(-> & [(Hs & r & Hr & Hon & Hn)|(Hb & r & Hr & Hon & Hn)])].
      * by apply (holds_token sa ns name r).
      * by apply (holds_impersonate sa ns name r).
      * by apply (holds_user sa ns name r).
  - intros H.
    destruct H as [w r (Hw & Hs & Ha) Hb Hr Hon|w r sub verbs (Hw & Hs & Ha) Hsv Hr Hon Hn
      |w r (Hw & Hs & Ha) Hr Hon Hn|w r g res (Hw & Hs & Ha) Hg Hp Hr Hon Hn|r g res Hs Hgr Hr Hon
      |sa ns name r (Hsa & Hsh & Hsp) Hs Hr Hon Hn|sa ns name r (Hsa & Hsh & Hsp) Hs Hr Hon Hn
      |sa ns name r (Hsa & Hsh & Hsp) Hb Hr Hon Hn].
    1-4: left; exists w; (split_and!; [done..|]).
    + left. split; [done|]. left. split; [done|]. by exists r.
    + left. split; [done|]. right. exists (sub, verbs). split; [done|]. by exists r.
    + right. split; [done|]. left. by exists r.
    + right. split; [done|]. right. exists g, res. split_and!; [done..|]. by exists r.
    + right. left. split; [|done]. split; [done|]. exists (g, res). split; [done|]. by exists r.
    + right. right. exists sa. split; [done|]. exists ns, name. split_and!; [done..|]. left.
      split_and!; [done..|]. by exists r.
    + right. right. exists sa. split; [done|]. exists ns, name. split_and!; [done..|]. right.
      split; [done|]. left. split; [done|]. by exists r.
    + right. right. exists sa. split; [done|]. exists ns, name. split_and!; [done..|]. right.
      split; [done|]. right. split; [done|]. by exists r.
Qed.

(** [direct_powers] is [holds]: the guard finds each power that RBAC gives,
    and no other. *)
Lemma direct_powers_yields :
  (∀ sa, sa ∈ sas → is_Some (split1 "/" sa)) →
  yields (direct_powers (rules_val rules) bns_val holder (source_val <$> targets) sas) holds.
Proof using All.
  intros Hsas. unfold direct_powers.
  assert (computes (if is_none bns_val then grants (rules_val rules) "" "nodes/proxy" ["get"; "create"] else Ok false)
    (bns = None ∧ ∃ r, r ∈ rules ∧ on_resource r "" "nodes/proxy" ["get"; "create"])) as (ne & -> & Hne).
  { unfold bns_val. destruct bns as [b|]; cbn [is_none].
    - apply computes_Ok. clear. naive_solver.
    - eapply computes_iff; [|apply grants_computes]. clear. naive_solver. }
  cbn [rbind]. destruct (workloads_yields ne) as (ws & -> & Hws). cbn [rbind].
  assert (computes (if in_scope bns_val (VStr NS) then anyM (λ '(g, r), grants (rules_val rules) g r ["create"]) POD_MAKERS
      else Ok false)
    (scope NS ∧ ∃ gr, gr ∈ POD_MAKERS ∧ ∃ r, r ∈ rules ∧ on_resource r gr.1 gr.2 ["create"])) as (mb & -> & Hmb).
  { destruct (in_scope bns_val (VStr NS)) eqn:Es.
    - apply in_scope_spec in Es.
      eapply (computes_iff _ (∃ gr, gr ∈ POD_MAKERS ∧ ∃ r, r ∈ rules ∧ on_resource r gr.1 gr.2 ["create"]));
        [clear -Es; naive_solver|]. apply computes_anyM. intros [g res] _. apply grants_computes.
    - apply computes_Ok. rewrite <- in_scope_spec, Es. clear. naive_solver. }
  cbn [rbind]. destruct (accounts_yields Hsas) as (ac & -> & Hac).
  cbn [rbind]. eexists. split; [done|]. intros x. rewrite <- holds_cases. unfold on_workload.
  rewrite !elem_of_app, when_elem, Hws, Hac, Hmb. unfold on_workload. by setoid_rewrite Hne.
Qed.
End holds.

(** ** The theorems *)

Definition opt_ns (bns : option string) : val := match bns with Some n => VStr n | None => VNone end.


Definition exec_rule : policy_rule := PolicyRule [""] ["pods/*"] ["create"] ["cache-0"].
Definition cache : pod_source := PodSource "StatefulSet" "cache" "gibson" "cache" VNone.


(** A render with one reader and one account that can exec into it, and the
    allowlist that names both. *)
Definition read_rule : policy_rule := PolicyRule [""] ["secrets"] ["get"] ["iam-admin"].
Definition exec_all : policy_rule := PolicyRule [""] ["pods/exec"] ["create"] [].
Definition listed_render : list val :=
  [role "boot" "gibson" [policy_rule_val read_rule];
   bind_doc "RoleBinding" "boot" "gibson" "Role" "boot" (OwnerCreds.account "boot" "gibson");
   doc "apps/v1" "Deployment" "reader" "gibson"
     (templated [("serviceAccountName", VStr "boot"); ("containers", VList [container])]);
   role "exec" "gibson" [policy_rule_val exec_all];
   bind_doc "RoleBinding" "exec" "gibson" "Role" "exec" app_account].
Definition listed_allow : val :=
  VDict [("mounts", VDict []); ("readers", VDict [("gibson/boot", boot_entry)]);
         ("takeovers", VDict [("gibson/app exec", VDict [("class", VStr "infrastructure");
            ("targets", strs ["Deployment/reader"])])])].
Definition reader : pod_source :=
  PodSource "Deployment" "reader" "gibson" "boot"
    (VDict [("serviceAccountName", VStr "boot"); ("containers", VList [container])]).

Lemma listed_run : run [listed_render] listed_allow ["iam-admin"] = Ok [].
Proof. vm_compute. reflexivity. Qed.

(** A clean run means that the allowlist names each ServiceAccount that can
    read an owner Secret.  A binding of a render that is effective in the
    release namespace, whose role the render holds, gives a typed rule that
    covers get, list or watch of an owner Secret to a ServiceAccount: this
    account is an entry of [readers]. *)
Theorem clean_run_lists_readers (docsets : list (list val)) (allow : val) (owner : list string)
    (docs : list val) (rs : roles) (d bns : val) (rules : list policy_rule) (r : policy_rule)
    (sa verb name : string)
    (Hclean : run docsets allow owner = Ok []) (Hdocs : docs ∈ docsets)
    (Hrs : role_rules docs (VStr NS) = Ok rs) (Hd : d ∈ docs)
    (Hb : binds (VStr NS) rs d bns (rules_val rules) sa) (Hin : in_release bns)
    (Hverb : verb ∈ READ_VERBS) (Hname : name ∈ owner) (Hr : r ∈ rules)
    (Hread : reads_secret r verb (Some name)) :
  str_in sa (por (fld allow "readers") (VDict [])) = Ok true.
Proof.
  destruct (clean_run_findings _ _ _ Hclean docs Hdocs) as (f & gs & ms & reads & _ & _ & _ & Hreads & _ & Hl & _).
  destruct (held_reads_yields owner rules) as (held & Hheld & Hx).
  assert (∃ x, x ∈ held) as [x Hxin].
  { destruct (any_rule_computes rules verb None) as ([] & _ & Hw).
    - exists (cat [verb; " secrets"]). apply Hx. exists verb. split; [done|]. left. by split; [apply Hw|].
    - exists (cat [verb; " "; name]). apply Hx. exists verb. split; [done|]. right.
      split; [by rewrite <- Hw|]. exists name. split; [done|]. split; [by exists r|done]. }
  apply (Hl sa x), (can_read_elem _ _ _ _ _ _ _ Hreads Hrs). by exists d, bns, (rules_val rules), held.
Qed.

Lemma clean_run_lists_readers_witness :
  str_in "gibson/boot" (por (fld listed_allow "readers") (VDict [])) = Ok true.
Proof.
  apply (clean_run_lists_readers [listed_render] listed_allow ["iam-admin"] listed_render
    (match role_rules listed_render (VStr NS) with Ok rs => rs | Raise _ => [] end)
    (nth 1 listed_render VNone) (VStr NS) [read_rule] read_rule "gibson/boot" "get" "iam-admin").
  - exact listed_run.
  - left.
  - vm_compute. reflexivity.
  - right. left.
  - apply (Binds _ _ _ _ _ [OwnerCreds.account "boot" "gibson"] (OwnerCreds.account "boot" "gibson"));
      try (vm_compute; reflexivity). left.
  - right. reflexivity.
  - left.
  - left.
  - left.
  - unfold reads_secret, covers, covers_name. cbn. split_and!; try (left; left); [].
    right. exists "iam-admin". split; [reflexivity|left].
Defined.

(** C2: a clean run means that each takeover of a reader is on the allowlist.
    When RBAC gives the holder of a binding a power over a protected workload
    or account (see [holds]), the allowlist has the entry of this holder and
    power, the entry names the target or all targets, and the admission policy
    that fences the entry, when it names one, is in the renders with a Deny
    binding. *)
Theorem clean_run_fences_takeovers (docsets : list (list val)) (allow : val) (owner : list string)
    (docs : list val) (rs : roles) (d : val) (bns : option string) (rules : list policy_rule)
    (holder : string) (targets : list pod_source) (sas : list string) (power target : string)
    (Hclean : run docsets allow owner = Ok []) (Hdocs : docs ∈ docsets)
    (Hrs : role_rules docs (VStr NS) = Ok rs)
    (Hprot : protected docsets owner (source_val <$> targets) sas)
    (Hsas : ∀ sa, sa ∈ sas → is_Some (split1 "/" sa)) (Hd : d ∈ docs)
    (Hb : binds (VStr NS) rs d (opt_ns bns) (rules_val rules) holder)
    (Hp : holds rules bns holder targets sas (power, target)) :
  ∃ gs, admission_guards docsets = Ok gs ∧ takeover_allowed allow (Some gs) ((holder, power), target).
Proof.
  destruct (clean_run_takeovers _ _ _ Hclean _ _ _ _ _ _ _ _ Hdocs Hrs Hprot Hd Hb)
    as (ps & gs & Hps & Hgs & Hall).
  exists gs. split; [exact Hgs|]. apply Hall. unfold powers in Hps.
  destruct (direct_powers_yields rules bns holder targets sas Hsas) as (dp & Hdp & H).
  apply bind_Ok in Hps as (dp' & Hdp' & Hps). apply bind_Ok in Hps as (bp & _ & Hps).
  injection Hps as <-. apply elem_of_app. left.
  assert (Ok dp' = Ok dp) as [= ->] by (rewrite <- Hdp, <- Hdp'; done). by apply H.
Qed.

Lemma clean_run_fences_takeovers_witness :
  ∃ gs, admission_guards [listed_render] = Ok gs ∧
    takeover_allowed listed_allow (Some gs) (("gibson/app", "exec"), "Deployment/reader").
Proof.
  apply (clean_run_fences_takeovers [listed_render] listed_allow ["iam-admin"] listed_render
    (match role_rules listed_render (VStr NS) with Ok rs => rs | Raise _ => [] end)
    (nth 4 listed_render VNone) (Some NS) [exec_all] "gibson/app" [reader] ["gibson/boot"]).
  - exact listed_run.
  - left.
  - vm_compute. reflexivity.
  - exists (match rendered_findings [listed_render] ["iam-admin"] with
            | Ok f => f | Raise _ => Found [] [] [] [] end), [source_val reader].
    split_and!; vm_compute; reflexivity.
  - intros sa ->%list_elem_of_singleton. by eexists.
  - unfold listed_render. repeat first [by left | right].
  - apply (Binds _ _ _ _ _ [app_account] app_account); try (vm_compute; reflexivity). left.
  - apply (holds_exec _ _ _ _ _ reader exec_all "pods/exec" ["create"; "get"]).
    + split_and!; [left|by right|done].
    + left.
    + left.
    + unfold on_resource, covers. split_and!; [left; left|exists "pods/exec"|exists "create"].
      * split; [right; left|left].
      * split; [left|left; left].
    + by left.
Defined.

(** ** Mounts *)

(** The pod spec hands the Secret [n] to a container: by a volume, a projected
    volume, an environment variable or all the variables of the Secret. *)
Inductive hands_over (ps : val) (n : string) : Prop :=
  | ho_volume vs v : get_list ps "volumes" = Ok vs → v ∈ vs →
      fld (fld v "secret") "secretName" = VStr n → hands_over ps n
  | ho_projected vs v srcs s : get_list ps "volumes" = Ok vs → v ∈ vs →
      get_list (por (fld v "projected") (VDict [])) "sources" = Ok srcs → s ∈ srcs →
      fld (fld s "secret") "name" = VStr n → hands_over ps n
  | ho_env field cs c es e : field ∈ ["initContainers"; "containers"; "ephemeralContainers"] →
      list_field ps field = Ok cs → c ∈ cs → get_list c "env" = Ok es → e ∈ es →
      fld (por (fld (por (fld e "valueFrom") (VDict [])) "secretKeyRef") (VDict [])) "name" = VStr n →
      hands_over ps n
  | ho_env_from field cs c es e : field ∈ ["initContainers"; "containers"; "ephemeralContainers"] →
      list_field ps field = Ok cs → c ∈ cs → get_list c "envFrom" = Ok es → e ∈ es →
      fld (por (fld e "secretRef") (VDict [])) "name" = VStr n → hands_over ps n.

Lemma in_set_str n (owner : list string) b : n ∈ owner → in_set (VStr n) owner = Ok b → b = true.
Proof. intros H [= <-]. by apply str_mem_elem. Qed.

Lemma secret_source_finds owner field s uses n :
  secret_source owner field s = Ok uses → n ∈ owner → fld s field = VStr n → ∃ k, (n, k) ∈ uses.
Proof.
  intros H Hn Hs. unfold secret_source in H.
  assert (truthy s = true) as Ht by by destruct s as [| | | | |[]].
  rewrite Ht in H. cbn [negb] in H. apply bind_Ok in H as (v & ->%get_Ok & H).
  apply bind_Ok in H as (hit & Hhit & H). rewrite Hs in Hhit, H. apply in_set_str in Hhit as ->; [|done].
  cbn [negb] in H. apply bind_Ok in H as (its & _ & H). apply bind_Ok in H as (ks & _ & H).
  injection H as <-. exists ks. left.
Qed.

Lemma env_use_finds owner e uses n :
  env_use owner e = Ok uses → n ∈ owner →
  fld (por (fld (por (fld e "valueFrom") (VDict [])) "secretKeyRef") (VDict [])) "name" = VStr n →
  ∃ k, (n, k) ∈ uses.
Proof.
  unfold env_use. intros (vf & ->%por_dict_fld & H)%bind_Ok Hn He.
  apply bind_Ok in H as (ref & ->%por_dict_fld & H). apply bind_Ok in H as (v & ->%get_Ok & H).
  apply bind_Ok in H as (hit & Hhit & H). rewrite He in Hhit, H. apply in_set_str in Hhit as ->; [|done].
  cbn [negb] in H. apply bind_Ok in H as (k & _ & H). apply bind_Ok in H as (ks & Hk & H).
  unfold set_of in Hk. destruct (forallb hashable _); [|done]. injection Hk as <-. injection H as <-.
  eexists. left.
Qed.

Lemma env_from_finds owner e uses n :
  env_from_use owner e = Ok uses → n ∈ owner →
  fld (por (fld e "secretRef") (VDict [])) "name" = VStr n → ∃ k, (n, k) ∈ uses.
Proof.
  unfold env_from_use. intros (ref & ->%por_dict_fld & H)%bind_Ok Hn He.
  apply bind_Ok in H as (v & ->%get_Ok & H). apply bind_Ok in H as (hit & Hhit & H).
  rewrite He in Hhit, H. apply in_set_str in Hhit as ->; [|done]. injection H as <-.
  eexists. left.
Qed.

(** A part of a loop's result is part of the result. *)
Lemma flatM_found {A B} (f : A → result (list B)) l k x (P : B → Prop) :
  flatM f l = Ok k → x ∈ l → (∀ r, f x = Ok r → ∃ y, y ∈ r ∧ P y) → ∃ y, y ∈ k ∧ P y.
Proof.
  intros H Hx Hf. destruct (flatM_Ok_elem _ _ _ _ H Hx) as [r Hr]. destruct (Hf r Hr) as (y & Hy & Py).
  exists y. split; [|done]. apply (flatM_elem _ _ _ H). by exists x, r.
Qed.

Lemma secret_uses_finds owner ps uses n :
  secret_uses owner ps = Ok uses → n ∈ owner → hands_over ps n → ∃ u, u ∈ uses ∧ u.1 = n.
Proof.
  unfold secret_uses. intros (vs & Hvs & H)%bind_Ok Hn Ho.
  apply bind_Ok in H as (a & Ha & H). apply bind_Ok in H as (i & Hi & H).
  apply bind_Ok in H as (cs & Hc & H). apply bind_Ok in H as (e & He & H).
  apply bind_Ok in H as (b & Hb & H). injection H as <-.
  assert (∀ field ks c, field ∈ ["initContainers"; "containers"; "ephemeralContainers"] →
    list_field ps field = Ok ks → c ∈ ks → c ∈ i ++ cs ++ e) as Hin.
  { intros field ks c Hf Hks Hck. rewrite !elem_of_app. rewrite !elem_of_cons, elem_of_nil in Hf.
    destruct Hf as [->|[->|[->|[]]]]; [left|right; left|right; right]; congruence. }
  setoid_rewrite elem_of_app. destruct Ho as [vs' v Hv Hvin Hs|vs' v srcs s Hv Hvin Hsr Hsin Hs
    |field ks c es x Hf Hks Hck Hes Hx Hs|field ks c es x Hf Hks Hck Hes Hx Hs].
  - replace vs' with vs in * by congruence.
    destruct (flatM_found _ _ _ v (λ u, u.1 = n) Ha Hvin) as (u & ? & ?); [|by exists u; auto].
    unfold volume_uses. intros r (s0 & ->%get_Ok & Hr)%bind_Ok. apply bind_Ok in Hr as (a1 & Ha1 & Hr).
    ok_inv. destruct (secret_source_finds _ _ _ _ _ Ha1 Hn Hs) as [k Hk].
    exists (n, k). rewrite elem_of_app. auto.
  - replace vs' with vs in * by congruence.
    destruct (flatM_found _ _ _ v (λ u, u.1 = n) Ha Hvin) as (u & ? & ?); [|by exists u; auto].
    unfold volume_uses. intros r (s0 & _ & Hr)%bind_Ok. apply bind_Ok in Hr as (a1 & _ & Hr).
    apply bind_Ok in Hr as (p & ->%por_dict_fld & Hr). rewrite Hsr in Hr. cbn [rbind] in Hr.
    apply bind_Ok in Hr as (b1 & Hb1 & Hr). injection Hr as <-. setoid_rewrite elem_of_app.
    destruct (flatM_found _ _ _ s (λ u, u.1 = n) Hb1 Hsin) as (u & ? & ?); [|by exists u; auto].
    intros r (sv & ->%get_Ok & Hr)%bind_Ok. destruct (secret_source_finds _ _ _ _ _ Hr Hn Hs) as [k Hk].
    by exists (n, k).
  - destruct (flatM_found _ _ _ c (λ u, u.1 = n) Hb (Hin _ _ _ Hf Hks Hck)) as (u & ? & ?); [|by exists u; auto].
    unfold container_uses. intros r Hr. rewrite Hes in Hr. cbn [rbind] in Hr.
    apply bind_Ok in Hr as (a1 & Ha1 & Hr). ok_inv. setoid_rewrite elem_of_app.
    destruct (flatM_found _ _ _ x (λ u, u.1 = n) Ha1 Hx) as (u & ? & ?); [|by exists u; auto].
    intros r Hr. destruct (env_use_finds _ _ _ _ Hr Hn Hs) as [k Hk]. by exists (n, k).
  - destruct (flatM_found _ _ _ c (λ u, u.1 = n) Hb (Hin _ _ _ Hf Hks Hck)) as (u & ? & ?); [|by exists u; auto].
    unfold container_uses. intros r (es0 & _ & Hr)%bind_Ok. apply bind_Ok in Hr as (a1 & _ & Hr).
    rewrite Hes in Hr. cbn [rbind] in Hr. apply bind_Ok in Hr as (b1 & Hb1 & Hr). injection Hr as <-.
    setoid_rewrite elem_of_app.
    destruct (flatM_found _ _ _ x (λ u, u.1 = n) Hb1 Hx) as (u & ? & ?); [|by exists u; auto].
    intros r Hr. destruct (env_from_finds _ _ _ _ Hr Hn Hs) as [k Hk]. by exists (n, k).
Qed.

(** A clean run means that the allowlist names each workload that mounts
    an owner Secret.  Whichever way the pod of a workload of the release
    namespace gets the Secret (volume, projected volume, variable or all
    variables, in any kind of container), [mounts] has the entry of this
    workload and Secret. *)
Theorem clean_run_lists_mounts (docsets : list (list val)) (allow : val) (owner : list string)
    (docs : list val) (d ps : val) (n : string)
    (Hclean : run docsets allow owner = Ok []) (Hdocs : docs ∈ docsets) (Hd : d ∈ docs)
    (Hps : pod_spec d = Ok ps) (Hpod : ps ≠ VNone)
    (Hns : por (fld (fld d "metadata") "namespace") (VStr NS) = VStr NS)
    (Hn : n ∈ owner) (Hover : hands_over ps n) :
  ∃ keys, str_in (cat [py_str (fld d "kind"); "/"; py_str (fld (fld d "metadata") "name"); " "; n;
                       "["; py_str keys; "]"])
            (por (fld allow "mounts") (VDict [])) = Ok true.
Proof.
  destruct (clean_run_findings _ _ _ Hclean docs Hdocs) as (f & gs & ms & reads & _ & _ & Hms & _ & Hl & _).
  unfold mount_readers in Hms. destruct (flatM_Ok_elem _ _ _ _ Hms Hd) as [r Hr]. pose proof Hr as Hr'.
  rewrite Hps in Hr. cbn [rbind] in Hr. destruct (is_none ps) eqn:En; [by destruct ps|].
  apply bind_Ok in Hr as (m & ->%item_fld & Hr). apply bind_Ok in Hr as (ns & ->%get_Ok & Hr).
  rewrite Hns, py_eq_refl_str in Hr. cbn [negb] in Hr. apply bind_Ok in Hr as (uses & Hu & Hr).
  destruct (secret_uses_finds _ _ _ _ Hu Hn Hover) as ([n' keys] & Hin & <-). exists keys. apply Hl.
  destruct (mapR_elem_2 _ _ _ _ Hr Hin) as (x & Hx & He).
  apply bind_Ok in He as (kind & ->%item_fld & He). apply bind_Ok in He as (name & Hname & He).
  injection He as <-. unfold meta_name in Hname. apply bind_Ok in Hname as (md & ->%item_fld & ->%item_fld).
  apply (flatM_elem _ _ _ Hms). by exists d, r.
Qed.

Definition mounting : val :=
  doc "apps/v1" "Deployment" "app" "gibson" (templated [("containers", VList [VDict [("name", VStr "c");
    ("envFrom", VList [VDict [("secretRef", str_dict [("name", "iam-admin")])]])]])]).
Definition mounting_allow : val :=
  VDict [("mounts", VDict [("Deployment/app iam-admin[*]", boot_entry)])].

Lemma clean_run_lists_mounts_witness :
  ∃ keys, str_in (cat ["Deployment"; "/"; "app"; " "; "iam-admin"; "["; py_str keys; "]"])
            (por (fld mounting_allow "mounts") (VDict [])) = Ok true.
Proof.
  apply (clean_run_lists_mounts [[mounting]] mounting_allow ["iam-admin"] [mounting] mounting
    (match pod_spec mounting with Ok ps => ps | Raise _ => VNone end) "iam-admin");
    try (vm_compute; reflexivity); try left; [discriminate|].
  apply (ho_env_from _ _ "containers" [VDict [("name", VStr "c");
    ("envFrom", VList [VDict [("secretRef", str_dict [("name", "iam-admin")])]])]]
    (VDict [("name", VStr "c"); ("envFrom", VList [VDict [("secretRef", str_dict [("name", "iam-admin")])]])])
    [VDict [("secretRef", str_dict [("name", "iam-admin")])]]
    (VDict [("secretRef", str_dict [("name", "iam-admin")])])); try (vm_compute; reflexivity);
    [right; left|left|left].
Defined.

(** ** The allowlist *)

(** One entry of the allowlist, as the README asks for it. *)
Definition well_formed_entry (section key : string) (v : val) : Prop :=
  is_dict v = true ∧ in_tuple (fld v "class") CLASSES = true ∧
  (fld v "class" = VStr "pending" → truthy (fld v "removed-by") = true) ∧
  (section = "takeovers" →
    (∃ holder power, key = holder +:+ " " +:+ power ∧ power ∈ POWERS ∧ contains " " holder = false) ∧
    (fld v "class" = VStr "admission-fenced" → truthy (fld v "guarded-by") = true) ∧
    (fld v "targets" = VStr "all" ∨ is_list (fld v "targets") = true ∧ truthy (fld v "targets") = true)).

Lemma split_pair k a b : str_split k " " = [a; b] → k = a +:+ " " +:+ b ∧ contains " " a = false.
Proof.
  intros H. split.
  - rewrite <- (str_join_split k " "), H. done.
  - apply (str_split_no_more " "%char k). change (String " " "") with " ". rewrite H. left.
Qed.

Lemma check_entry_ok path section k v : check_entry path section k v = Ok () → well_formed_entry section k v.
Proof.
  unfold check_entry. intros (known & Hk & H)%bind_Ok. destruct known; [|done]. cbn [negb] in H.
  destruct (is_dict v) eqn:Ed; [|done]. cbn [negb] in Hk. apply bind_Ok in Hk as (c & ->%get_Ok & Hc).
  unfold in_set in Hc. destruct (hashable _); [|done]. injection Hc as Hc.
  apply bind_Ok in H as (class & ->%item_fld & H). apply bind_Ok in H as (rb & ->%get_Ok & H).
  destruct (py_eq (fld v "class") (VStr "pending") && _) eqn:Ep; [done|].
  split_and!; [done|done| |].
  { intros E. rewrite E in Ep. cbn in Ep. by apply negb_false_iff in Ep. }
  intros ->. cbn [str_eqb negb] in H. change (negb (String.eqb "takeovers" "takeovers")) with false in H.
  destruct (str_split k " ") as [|a [|b [|]]] eqn:Es; cbn -[str_mem] in H; try done.
  destruct (str_mem b POWERS) eqn:Eb; [|done]. cbn [negb] in H.
  apply bind_Ok in H as (gb & ->%get_Ok & H).
  destruct (py_eq (fld v "class") (VStr "admission-fenced") && _) eqn:Ef; [done|].
  apply bind_Ok in H as (t & ->%get_Ok & H). split_and!.
  - destruct (split_pair _ _ _ Es) as [-> Ha]. exists a, b. split_and!; [done| |done]. by apply str_mem_elem.
  - intros E. rewrite E in Ef. cbn in Ef. by apply negb_false_iff in Ef.
  - destruct (py_eq (fld v "targets") (VStr "all")) eqn:Ea; [left; by apply py_eq_str_r|]. right.
    destruct (is_list _), (truthy (fld v "targets")); done.
Qed.

(** C38: an allowlist that loads is well formed.  Each entry has a known class,
    a pending one says what removes it, and the key of a takeover is a holder
    and one of the powers, with a fence where its class needs one and with the
    targets it may reach. *)
Theorem loaded_allowlist_is_well_formed (path : string) (data allow : val)
    (H : load_allowlist path data = Ok allow) :
  allow = por data (VDict []) ∧
  ∀ section, section ∈ ["mounts"; "readers"; "takeovers"] →
    ∃ kvs, items (por (fld allow section) (VDict [])) = Ok kvs ∧
      ∀ k v, (k, v) ∈ kvs → well_formed_entry section k v.
Proof.
  revert H. unfold load_allowlist. intros (u & Hu & H)%bind_Ok. injection H as <-. split; [done|].
  intros section Hs. destruct (mapR_elem_2 _ _ _ _ Hu Hs) as (us & _ & H).
  apply bind_Ok in H as (g & ->%por_dict_fld & H). apply bind_Ok in H as (kvs & Hkvs & H).
  exists kvs. split; [done|]. intros k v Hin. destruct (mapR_elem_2 _ _ _ _ H Hin) as ([] & _ & He).
  by eapply check_entry_ok.
Qed.

Lemma loaded_allowlist_is_well_formed_witness :
  load_allowlist "owner-credential-readers.yaml" listed_allow = Ok listed_allow ∧
  ∃ holder power, "gibson/app exec" = holder +:+ " " +:+ power ∧ power ∈ POWERS.
Proof.
  assert (load_allowlist "owner-credential-readers.yaml" listed_allow = Ok listed_allow) as H
    by (vm_compute; reflexivity).
  split; [exact H|].
  destruct (loaded_allowlist_is_well_formed _ _ _ H) as [_ Hs].
  destruct (Hs "takeovers" ltac:(right; right; left)) as (kvs & Hk & He). vm_compute in Hk.
  injection Hk as <-. destruct (He _ _ ltac:(left)) as (_ & _ & _ & Ht).
  destruct (Ht eq_refl) as ((holder & power & Hkey & Hp & _) & _). exists holder, power. by split.
Defined.
