(* ===== verification/MetricsPolicy.v ===== *)
(** * scripts/check-metrics-policy.py: the scraper reaches only metrics ports

    The guard reads the metrics policy of each golden render: each of its
    rules opens one port, the port of the label it selects, to one scraper in
    one namespace, and no pod puts the label on a port of its API. *)
From S2P Require Import Prelude PyStr PyVal.

Definition RELEASE_NS : string := "gibson".
Definition LABEL : string := "gibson.zeroroot.ai/metrics-port".
Definition NS_LABEL : string := "k8s:io.kubernetes.pod.namespace".
Definition POD_KINDS : list string := ["Deployment"; "StatefulSet"; "DaemonSet"; "Job"].
Definition METRICS_NAMES : list string := ["metrics"; "prometheus"].

Definition ns_of (doc : val) : result val := meta_namespace doc RELEASE_NS.

(** A pod template: (name, namespace, labels, containers). *)
Record pod := Pod { p_name : string; p_ns : val; p_labels : val; p_containers : list val }.

(** [str(d.get("apiVersion", "")).split("/")[0]] *)
Definition api_group (d : val) : result string :=
  av <- get_default d "apiVersion" (VStr "") ;; Ok (default "" (head (str_split (py_str av) "/"))).

(** The pod templates of one document. *)
Definition pods (d : val) : result (list pod) :=
  kind <- get d "kind" ;; spec <- get_dict d "spec" ;;
  spec <- (if py_eq kind (VStr "CronJob")
           then jt <- get_dict spec "jobTemplate" ;; get_dict jt "spec" else Ok spec) ;;
  known <- in_set kind POD_KINDS ;;
  if known || py_eq kind (VStr "CronJob") then
    t <- get_dict spec "template" ;;
    name <- meta_name d ;; ns <- ns_of d ;;
    m <- get_dict t "metadata" ;; labels <- get_dict m "labels" ;;
    ts <- get_dict t "spec" ;; cs <- get_list ts "containers" ;;
    Ok [Pod (cat [py_str kind; " "; py_str name]) ns labels cs]
  else if py_eq kind (VStr "Cluster") then
    g <- api_group d ;;
    if negb (str_eqb g "postgresql.cnpg.io") then Ok [] else
    name <- meta_name d ;; ns <- ns_of d ;;
    im <- get_dict spec "inheritedMetadata" ;; labels <- get_dict im "labels" ;;
    Ok [Pod (cat ["Cluster "; py_str name]) ns labels []]
  else Ok [].

(** ** The metrics policy *)

Definition component (d : val) : result val :=
  m <- get_dict d "metadata" ;; ls <- get_dict m "labels" ;; get ls "app.kubernetes.io/component".
Definition is_metrics_policy (d : val) : result bool :=
  k <- get d "kind" ;;
  if negb (py_eq k (VStr "CiliumNetworkPolicy")) then Ok false else
  c <- component d ;; Ok (py_eq c (VStr "network-metrics")).

Definition judge_peer (who : string) (peer : val) : result (list string) :=
  pml <- get_dict peer "matchLabels" ;;
  ns <- get pml NS_LABEL ;;
  any_ns <- orR (Ok (negb (truthy ns)))
    (es <- get_list peer "matchExpressions" ;;
     anyM (λ e, k <- get e "key" ;; Ok (py_eq k (VStr NS_LABEL))) es) ;;
  keys <- set_keys pml ;;
  Ok ((if any_ns : bool then [cat [who; " admits a scraper from any namespace"]] else [])
      ++ (if set_subset keys [NS_LABEL]
          then [cat [who; " admits each pod of a namespace, not one scraper"]] else [])).

(** [rule.get(k) or [{}]] *)
Definition list_or_empty_dict (v : val) (k : string) : result (list val) :=
  x <- get v k ;; py_iter (por x (VList [VDict []])).

Definition opened_ports (rule : val) : result (list string) :=
  tps <- list_or_empty_dict rule "toPorts" ;;
  flatM (λ tp, ps <- list_or_empty_dict tp "ports" ;;
               mapR (λ p, x <- get p "port" ;; Ok (py_str x)) ps) tps.

Definition judge_rule (name port : string) (rule : val) : result (list string) :=
  let who := cat [name; ": the rule for port "; port] in
  wide <- anyM (get_truthy rule) ["fromEntities"; "fromCIDR"; "fromCIDRSet"] ;;
  peers <- list_or_empty_dict rule "fromEndpoints" ;;
  bad <- flatM (judge_peer who) peers ;;
  opened <- opened_ports rule ;;
  Ok ((if wide : bool then [cat [who; " admits an entity or a CIDR"]] else []) ++ bad
      ++ (if bool_decide (opened = [port]) then []
          else [cat [who; " opens "; str_of_strs opened; ", not only "; port]])).

(** The findings of one spec, and the port it opens. *)
Definition judge_spec (name : string) (s : val) : result (list string * list string) :=
  sel <- get_dict s "endpointSelector" ;;
  ml <- get_dict sel "matchLabels" ;;
  other <- orR (get_truthy sel "matchExpressions")
               (keys <- set_keys ml ;; Ok (negb (set_eq keys [LABEL]))) ;;
  if other : bool then
    Ok ([cat [name; ": a spec selects "; py_str sel; ", not one value of "; LABEL]], [])
  else
    p <- item ml LABEL ;;
    let port := py_str p in
    rs <- get_list s "ingress" ;;
    bad <- flatM (judge_rule name port) rs ;;
    Ok (bad, [port]).

Definition policy_specs (d : val) : result (list val) :=
  specs <- get d "specs" ;;
  if truthy specs then py_iter specs else
  s <- get d "spec" ;; Ok (if truthy s then [s] else []).

Definition judge_policy_doc (d : val) : result (list string * list string) :=
  m <- is_metrics_policy d ;;
  if negb m then Ok ([], []) else
  n <- meta_name d ;;
  let name := py_str n in
  specs <- policy_specs d ;;
  l <- mapR (judge_spec name) specs ;;
  Ok ((if nonempty specs then [] else [cat [name; ": the metrics policy has no spec"]]) ++ concat l.*1,
      concat l.*2).

(** The findings of the policies, and the ports they open. *)
Definition judge_policy (docs : list val) : result (list string * list string) :=
  l <- mapR judge_policy_doc docs ;; Ok (concat l.*1, concat l.*2).

(** ** The ports of the Services *)

(** The container ports by name. *)
Definition named_ports (containers : list val) : result (list (val * string)) :=
  flatM (λ c, ps <- get_list c "ports" ;;
    flatM (λ p, n <- get p "name" ;; cp <- get p "containerPort" ;; vdict_item n (py_str cp)) ps) containers.

(** The port that one Service port publishes under an API name. *)
Definition api_port (named : list (val * string)) (d p : val) : result (list (string * string)) :=
  dflt <- get p "port" ;; target <- get_default p "targetPort" dflt ;;
  if negb (hashable target) then Raise TypeError else
  n <- get p "name" ;;
  let pname := py_str (por n (VStr "")) in
  if existsb (λ m, contains m pname) METRICS_NAMES then Ok [] else
  dn <- meta_name d ;;
  Ok [(default (py_str target) (vdict_get target named),
       cat ["Service "; py_str dn; " port "; py_str (por (VStr pname) dflt)])].

Definition service_ports (named : list (val * string)) (ns labels d : val) : result (list (string * string)) :=
  k <- get d "kind" ;;
  if negb (py_eq k (VStr "Service")) then Ok [] else
  n <- ns_of d ;;
  if negb (py_eq n ns) then Ok [] else
  spec <- get_dict d "spec" ;; sel <- get_dict spec "selector" ;;
  if negb (truthy sel) then Ok [] else
  kvs <- items sel ;;
  other <- anyM (λ '(k, v), x <- get labels k ;; Ok (negb (py_eq x v))) kvs ;;
  if other : bool then Ok [] else
  ps <- get_list spec "ports" ;; flatM (api_port named d) ps.

(** Port -> the Service port that publishes it under a name that is not a
    metrics name; a later Service replaces an earlier one. *)
Definition api_ports (docs : list val) (ns labels : val) (containers : list val)
    : result (list (string * string)) :=
  named <- named_ports containers ;;
  l <- flatM (service_ports named ns labels) docs ;;
  Ok (foldl (λ out '(k, x), alist_set k x out) [] l).

Definition judge_pod (docs : list val) (ports : list string) (p : pod) : result (list string) :=
  x <- get (p_labels p) LABEL ;;
  if is_none x then Ok [] else
  let port := py_str x in
  api <- api_ports docs (p_ns p) (p_labels p) (p_containers p) ;;
  Ok ((if str_mem port ports then []
       else [cat [p_name p; ": has "; LABEL; "="; port; ", and no metrics rule opens that port"]])
      ++ match alist_get port api with
         | Some a => [cat [p_name p; ": "; LABEL; "="; port; " is an API port ("; a;
                           "), never open it to the scraper"]]
         | None => []
         end).

Definition judge (docs : list val) : result (list string) :=
  let docs := List.filter is_dict docs in
  '(bad, ports) <- judge_policy docs ;;
  more <- flatM (λ d, ps <- pods d ;; flatM (judge_pod docs ports) ps) docs ;;
  Ok (bad ++ more).

(** The golden renders: the base name of each file and its documents. *)
Definition audit (goldens : list (string * list val)) : result (list string * nat) :=
  seen <- filterM (λ g, anyM is_metrics_policy (List.filter is_dict g.2)) goldens ;;
  bad <- flatM (λ g,
    let docs := List.filter is_dict g.2 in
    found <- judge docs ;;
    sees <- anyM (λ d, ps <- pods d ;; anyM (λ p, str_in LABEL (p_labels p)) ps) docs ;;
    Ok (map (λ x, cat [g.1; ": "; x])
          (found ++ if sees : bool then [] else [cat ["no pod carries "; LABEL; ": this check is blind"]]))) seen ;;
  Ok (bad ++ (if nonempty seen then []
              else ["no golden render holds the metrics policy: this check is blind"]), length seen).

(** ** The self-test of the script *)
Definition scraper : val := str_dict [(NS_LABEL, "monitoring"); ("app.kubernetes.io/name", "prometheus")].
Definition spec (port : string) (peer : val) (opened : list string) (sel : val) : val :=
  VDict [("endpointSelector", por sel (VDict [("matchLabels", str_dict [(LABEL, port)])]));
         ("ingress", VList [VDict [("fromEndpoints", VList [por peer (VDict [("matchLabels", scraper)])]);
            ("toPorts", VList [VDict [("ports", VList (map (λ p, str_dict [("port", p); ("protocol", "TCP")])
               (if nonempty opened then opened else [port])))]])]])].
Definition open_spec (port : string) : val := spec port VNone [] VNone.
Definition policy (specs : list val) : val :=
  VDict [("kind", VStr "CiliumNetworkPolicy");
         ("metadata", VDict [("name", VStr "m"); ("labels", str_dict [("app.kubernetes.io/component", "network-metrics")])]);
         ("specs", VList specs)].
Definition pod_doc (name port cname : string) : val :=
  VDict [("kind", VStr "Deployment"); ("metadata", str_dict [("name", name); ("namespace", "gibson")]);
         ("spec", VDict [("template", VDict [
            ("metadata", VDict [("labels", str_dict [("app", name); (LABEL, port)])]);
            ("spec", VDict [("containers", VList [VDict [("name", VStr "c"); ("ports", VList [VDict
               [("name", VStr cname); ("containerPort", VInt (default 0%Z (int_of_str port)))]])]])])])])].
Definition svc (app pname : string) (port : Z) : val :=
  VDict [("kind", VStr "Service"); ("metadata", str_dict [("name", app); ("namespace", "gibson")]);
         ("spec", VDict [("selector", str_dict [("app", app)]);
            ("ports", VList [VDict [("name", VStr pname); ("port", VInt port); ("targetPort", VStr pname)]])])].
Definition good : list val :=
  [policy [open_spec "9090"; open_spec "8080"]; pod_doc "daemon" "9090" "metrics"; svc "daemon" "metrics" 9090;
   pod_doc "op" "8080" "metrics"].
Definition exists_expr (key : string) : val :=
  VList [str_dict [("key", key); ("operator", "Exists")]].
Definition failing : list (list val) :=
  let d port := pod_doc "d" port "metrics" in
  [[policy [open_spec "8080"]; pod_doc "api" "8080" "http"; svc "api" "http" 8080];
   [policy [spec "9090" VNone ["9090"; "8080"] VNone]; d "9090"];
   [policy [spec "9090" (VDict [("matchLabels", str_dict [("app.kubernetes.io/name", "prometheus")]);
                                ("matchExpressions", exists_expr NS_LABEL)]) [] VNone]; d "9090"];
   [policy [spec "9090" (VDict [("matchLabels", str_dict [(NS_LABEL, "monitoring")])]) [] VNone]; d "9090"];
   [policy [spec "9090" VNone [] (VDict [("matchExpressions", exists_expr "gibson.zeroroot.ai/net-role")])];
    policy [open_spec "9091"]; d "9091"];
   [policy [open_spec "9090"]; d "9091"]].
Definition selftest : result Z :=
  g <- judge good ;;
  if nonempty g then Ok 1%Z else
  bad <- anyM (λ docs, found <- judge docs ;; Ok (negb (length found =? 1))) failing ;;
  Ok (if bad : bool then 1 else 0)%Z.

Lemma metricspolicy_selftest : selftest = Ok 0%Z.
Proof. vm_compute. reflexivity. Qed.

(** ** What the guard promises *)

(** A peer that is one scraper of one namespace. *)
Definition one_scraper (peer : val) : Prop :=
  let ml := por (fld peer "matchLabels") (VDict []) in
  truthy (fld ml NS_LABEL) = true ∧
  (∃ es, get_list peer "matchExpressions" = Ok es ∧ ∀ e, e ∈ es → fld e "key" ≠ VStr NS_LABEL) ∧
  ∃ keys k, set_keys ml = Ok keys ∧ k ∈ keys ∧ k ≠ VStr NS_LABEL.

(** A rule that opens one port to scrapers only. *)
Definition narrow_rule (port : string) (rule : val) : Prop :=
  (∀ field, field ∈ ["fromEntities"; "fromCIDR"; "fromCIDRSet"] → truthy (fld rule field) = false) ∧
  (∃ peers, list_or_empty_dict rule "fromEndpoints" = Ok peers ∧ ∀ p, p ∈ peers → one_scraper p) ∧
  opened_ports rule = Ok [port].

(** A spec that selects the pods with one value of the label. *)
Definition selects_port (s : val) (port : string) : Prop :=
  let sel := por (fld s "endpointSelector") (VDict []) in
  let ml := por (fld sel "matchLabels") (VDict []) in
  truthy (fld sel "matchExpressions") = false ∧
  (∃ keys, set_keys ml = Ok keys ∧ set_eq keys [LABEL] = true) ∧ py_str (fld ml LABEL) = port.

Definition narrow_spec (s : val) : Prop :=
  ∃ port rules, selects_port s port ∧ get_list s "ingress" = Ok rules ∧ ∀ r, r ∈ rules → narrow_rule port r.

Lemma scraper_clean who peer : judge_peer who peer = Ok [] → one_scraper peer.
Proof.
  unfold judge_peer. intros (ml & ->%por_dict_fld & H)%bind_Ok.
  apply bind_Ok in H as (ns & ->%get_Ok & H). apply bind_Ok in H as (any & Hany & H).
  apply bind_Ok in H as (keys & Hkeys & H). injection H as H. apply app_eq_nil in H as [H1 H2].
  apply if_cons_nil in H1 as ->. apply if_cons_nil in H2.
  apply orR_false in Hany as [Ht He]. injection Ht as Ht. apply negb_false_iff in Ht.
  apply bind_Ok in He as (es & Hes & He). rewrite anyM_false in He. split_and!; [done| |].
  - exists es. split; [done|]. intros e Hin Hk. specialize (He e Hin).
    apply bind_Ok in He as (k & ->%get_Ok & He). rewrite Hk in He. by injection He.
  - unfold set_subset in H2. apply not_true_iff_false in H2. rewrite forallb_elem_of in H2.
    destruct (forallb (λ k, py_eq k (VStr NS_LABEL)) keys) eqn:E.
    + exfalso. apply H2. intros k Hk. rewrite forallb_elem_of in E. specialize (E k Hk).
      apply py_eq_str_r in E as ->. reflexivity.
    + apply not_true_iff_false in E. assert (∃ k, k ∈ keys ∧ py_eq k (VStr NS_LABEL) = false) as (k & Hk & Ek).
      { clear -E. induction keys as [|k keys IH]; [done|]. cbn in E.
        destruct (py_eq k (VStr NS_LABEL)) eqn:Ek; [|exists k; split; [left|done]].
        destruct (IH E) as (x & ? & ?). exists x. split; [by right|done]. }
      exists keys, k. split_and!; [done..|]. intros ->. by rewrite py_eq_refl_str in Ek.
Qed.

Lemma port_rule_clean name port rule : judge_rule name port rule = Ok [] → narrow_rule port rule.
Proof.
  unfold judge_rule. intros (wide & Hw & H)%bind_Ok. apply bind_Ok in H as (peers & Hp & H).
  apply bind_Ok in H as (bad & Hb & H). apply bind_Ok in H as (opened & Ho & H). injection H as H.
  apply app_eq_nil in H as [H1 H]. apply app_eq_nil in H as [-> H2]. apply if_cons_nil in H1 as ->.
  apply if_nil_cons, bool_decide_eq_true in H2 as ->. split_and!; [| |done].
  - intros field Hf. rewrite anyM_false in Hw. specialize (Hw field Hf).
    apply bind_Ok in Hw as (x & ->%get_Ok & Hw). by injection Hw.
  - exists peers. split; [done|]. rewrite flatM_nil in Hb. intros p Hin. by eapply scraper_clean, Hb.
Qed.

(** A spec without findings gives its port; a spec that gives a port selects it. *)
Lemma judge_spec_port name s bad ports port :
  judge_spec name s = Ok (bad, ports) → port ∈ ports → selects_port s port.
Proof.
  unfold judge_spec. intros (sel & ->%por_dict_fld & H)%bind_Ok Hin.
  apply bind_Ok in H as (ml & ->%por_dict_fld & H). apply bind_Ok in H as (other & Ho & H).
  destruct other; [injection H as <- <-; by apply elem_of_nil in Hin|].
  apply bind_Ok in H as (p & ->%item_fld & H). apply bind_Ok in H as (rs & _ & H).
  apply bind_Ok in H as (b & _ & H). injection H as <- <-. apply list_elem_of_singleton in Hin as ->.
  apply orR_false in Ho as [Hx Hk]. apply bind_Ok in Hx as (x & ->%get_Ok & Hx). injection Hx as Hx.
  apply bind_Ok in Hk as (keys & Hkeys & Hk). injection Hk as Hk. apply negb_false_iff in Hk.
  split_and!; [done|by exists keys|done].
Qed.

Lemma judge_spec_clean name s ports : judge_spec name s = Ok ([], ports) → narrow_spec s.
Proof.
  intros H. pose proof H as H'. unfold judge_spec in H. apply bind_Ok in H as (sel & ->%por_dict_fld & H).
  apply bind_Ok in H as (ml & ->%por_dict_fld & H). apply bind_Ok in H as (other & Ho & H).
  destruct other; [done|]. apply bind_Ok in H as (p & ->%item_fld & H).
  apply bind_Ok in H as (rs & Hrs & H). apply bind_Ok in H as (b & Hb & H). injection H as -> <-.
  eexists _, rs. split_and!; [by eapply judge_spec_port; [|left]|done|].
  intros r Hr. rewrite flatM_nil in Hb. by eapply port_rule_clean, Hb.
Qed.

Section clean_judge.
Context (docs : list val).
Hypothesis Hclean : judge docs = Ok [].
Let ds := List.filter is_dict docs.

Lemma dicts_elem d : d ∈ ds ↔ d ∈ docs ∧ is_dict d = true.
Proof. rewrite list_elem_of_In. unfold ds. rewrite filter_In. by rewrite <- list_elem_of_In. Qed.

Lemma clean_judge_parts :
  ∃ l, mapR judge_policy_doc ds = Ok l ∧ concat l.*1 = [] ∧
    ∀ d, d ∈ ds → ∃ ps, pods d = Ok ps ∧ ∀ p, p ∈ ps → judge_pod ds (concat l.*2) p = Ok [].
Proof using Hclean.
  pose proof Hclean as H. unfold judge in H. fold ds in H. apply bind_Ok in H as ([bad ports] & Hp & H).
  unfold judge_policy in Hp. apply bind_Ok in Hp as (l & Hl & Hp). injection Hp as <- <-.
  apply bind_Ok in H as (more & Hm & H). injection H as H. apply app_eq_nil in H as [H ->].
  exists l. split_and!; [done..|]. rewrite flatM_nil in Hm. intros d Hd. specialize (Hm d Hd).
  apply bind_Ok in Hm as (ps & Hps & Hm). exists ps. split; [done|]. by apply flatM_nil.
Qed.
End clean_judge.

(** A clean verdict means that the metrics policy opens metrics ports to
    scrapers only.  The policy has a spec, each spec selects the pods with one
    value of the metrics label, and each of its rules admits no entity and no
    CIDR, admits peers that name one namespace and more than the namespace, and
    opens exactly the port of the label. *)
Theorem clean_metrics_policy_is_narrow (docs : list val) (d : val)
    (Hclean : judge docs = Ok []) (Hd : d ∈ docs) (Hdict : is_dict d = true)
    (Hm : is_metrics_policy d = Ok true) :
  ∃ specs, policy_specs d = Ok specs ∧ specs ≠ [] ∧ ∀ s, s ∈ specs → narrow_spec s.
Proof.
  destruct (clean_judge_parts _ Hclean) as (l & Hl & Hnil & _).
  destruct (mapR_elem_2 _ _ _ d Hl) as ([bad ports] & Hin & Hj); [by apply dicts_elem|].
  assert (bad = []) as -> by by eapply concat_fst_nil.
  unfold judge_policy_doc in Hj. rewrite Hm in Hj. cbn [rbind negb] in Hj.
  apply bind_Ok in Hj as (n & _ & Hj). apply bind_Ok in Hj as (specs & Hs & Hj).
  apply bind_Ok in Hj as (k & Hk & Hj). injection Hj as Hb _. apply app_eq_nil in Hb as [Hne Hb].
  exists specs. split_and!; [done|by intros ->|]. intros s Hin'.
  destruct (mapR_elem_2 _ _ _ _ Hk Hin') as ([b p] & Hbp & Hjs).
  assert (b = []) as -> by by eapply concat_fst_nil. by eapply judge_spec_clean.
Qed.

(** A clean verdict means that each metrics label is on a metrics port that
    a rule opens.  The value of the label of a pod of the render is the port of
    a spec of a metrics policy of the render, and no Service publishes that port
    under a name that is not a metrics name. *)
Theorem clean_metrics_labels_are_metrics (docs : list val) (d : val) (ps : list pod) (p : pod)
    (Hclean : judge docs = Ok []) (Hd : d ∈ docs) (Hdict : is_dict d = true)
    (Hps : pods d = Ok ps) (Hp : p ∈ ps) (Hlabel : fld (p_labels p) LABEL ≠ VNone) :
  (∃ m specs s, m ∈ docs ∧ is_metrics_policy m = Ok true ∧ policy_specs m = Ok specs ∧ s ∈ specs ∧
    selects_port s (py_str (fld (p_labels p) LABEL))) ∧
  ∃ api, api_ports (List.filter is_dict docs) (p_ns p) (p_labels p) (p_containers p) = Ok api ∧
    alist_get (py_str (fld (p_labels p) LABEL)) api = None.
Proof.
  destruct (clean_judge_parts _ Hclean) as (l & Hl & _ & Hpods).
  destruct (Hpods d) as (ps' & Hps' & Hj); [by apply dicts_elem|]. replace ps' with ps in * by congruence.
  specialize (Hj p Hp). unfold judge_pod in Hj. apply bind_Ok in Hj as (x & ->%get_Ok & Hj).
  destruct (is_none _) eqn:En; [by destruct (fld (p_labels p) LABEL)|].
  apply bind_Ok in Hj as (api & Hapi & Hj). injection Hj as Hj. apply app_eq_nil in Hj as [H1 H2].
  apply if_nil_cons, str_mem_elem in H1. split.
  - apply elem_of_concat in H1 as (ports & Hports & Hx).
    apply list_elem_of_fmap in Hports as ([bad ports'] & -> & Hbp).
    destruct (mapR_elem _ _ _ _ Hl Hbp) as (m & Hm & Hjm). apply dicts_elem in Hm as [Hm _].
    unfold judge_policy_doc in Hjm. apply bind_Ok in Hjm as (ism & Hism & Hjm).
    destruct ism; cbn [negb] in Hjm; [|injection Hjm as _ <-; by apply elem_of_nil in Hx].
    apply bind_Ok in Hjm as (n & _ & Hjm). apply bind_Ok in Hjm as (specs & Hs & Hjm).
    apply bind_Ok in Hjm as (k & Hk & Hjm). injection Hjm as _ <-. cbn [snd] in Hx.
    apply elem_of_concat in Hx as (q & Hq & Hx). apply list_elem_of_fmap in Hq as ([b q'] & -> & Hbq).
    destruct (mapR_elem _ _ _ _ Hk Hbq) as (s & Hs' & Hjs). exists m, specs, s. split_and!; [done..|].
    by eapply judge_spec_port.
  - exists api. split; [done|]. by destruct (alist_get _ api).
Qed.

Lemma clean_metrics_policy_is_narrow_witness :
  judge good = Ok [] ∧
  ∃ specs, policy_specs (policy [open_spec "9090"; open_spec "8080"]) = Ok specs ∧ specs ≠ [] ∧
    ∀ s, s ∈ specs → narrow_spec s.
Proof.
  assert (judge good = Ok []) as H by (vm_compute; reflexivity). split; [exact H|].
  apply (clean_metrics_policy_is_narrow good (policy [open_spec "9090"; open_spec "8080"]) H);
    [left|reflexivity|reflexivity].
Defined.

Definition daemon_pod : pod :=
  match pods (pod_doc "daemon" "9090" "metrics") with Ok (p :: _) => p | _ => Pod "" VNone VNone [] end.

Lemma clean_metrics_labels_are_metrics_witness :
  ∃ m specs s, m ∈ good ∧ is_metrics_policy m = Ok true ∧ policy_specs m = Ok specs ∧ s ∈ specs ∧
    selects_port s "9090".
Proof.
  apply (clean_metrics_labels_are_metrics good (pod_doc "daemon" "9090" "metrics") [daemon_pod] daemon_pod);
    try (vm_compute; reflexivity); [right; left|left|discriminate].
Defined.
