(* ===== verification/PolicyType.v ===== *)
(** * scripts/check-egress-policy-type.py: one policy type, and no idle rule

    Over the golden renders: no object of a second policy type, and no rule of
    a Cilium policy that selects no rendered pod. *)
From S2P Require Import Prelude PyStr PyVal.
From S2P Require Cilium.

Definition NAMESPACE : string := "gibson".
Definition NS_KEY : string := "io.kubernetes.pod.namespace".
Definition OTHER_TYPES : list (string * string) :=
  [("crd.projectcalico.org", "NetworkPolicy"); ("crd.projectcalico.org", "GlobalNetworkPolicy");
   ("projectcalico.org", "NetworkPolicy"); ("projectcalico.org", "GlobalNetworkPolicy");
   ("networking.istio.io", "ServiceEntry"); ("networking.istio.io", "Sidecar");
   ("networking.gke.io", "FQDNNetworkPolicy");
   ("policy.networking.k8s.io", "AdminNetworkPolicy")].
Definition CILIUM : list string := ["CiliumNetworkPolicy"; "CiliumClusterwideNetworkPolicy"].
Definition WORKLOADS : list string := ["Deployment"; "StatefulSet"; "DaemonSet"; "Job"; "Pod"].

Definition group (d : val) : result string :=
  x <- get_default d "apiVersion" (VStr "") ;;
  let av := py_str x in
  Ok (if contains "/" av then default "" (head (str_split av "/")) else "").

(** The inner [norm] of [selects]: the key without its source prefix. *)
Definition norm (key : val) : result val := Cilium.norm key.

(** One expression of [selects]: true when the loop returns [False] for it. *)
Definition expr_rejects (labels e : val) : result bool :=
  key <- get e "key" ;; k <- norm key ;; op <- get e "operator" ;; vs <- get e "values" ;;
  let vals := por vs (VList []) in
  if py_eq op (VStr "In") then x <- get_v labels k ;; notR (val_in x vals)
  else if py_eq op (VStr "NotIn") then
    has <- val_in k labels ;;
    if has : bool then x <- get_v labels k ;; val_in x vals else Ok false
  else if py_eq op (VStr "Exists") then notR (val_in k labels)
  else if py_eq op (VStr "DoesNotExist") then val_in k labels
  else Ok false.

(** A label selector against the labels of one pod. *)
Definition selects (selector labels : val) : result bool :=
  ml <- get_dict selector "matchLabels" ;; kvs <- items ml ;;
  ok <- allM (λ '(k, v), n <- norm (VStr k) ;; x <- get_v labels n ;; Ok (py_eq x v)) kvs ;;
  if negb ok then Ok false else
  es <- get_list selector "matchExpressions" ;;
  notR (anyM (expr_rejects labels) es).

(** ** The pods *)

(** The pod template of a document, [VNone] when it makes no pod.  A CNPG
    Cluster counts as the pods that its operator creates. *)
Definition pod_template (d : val) : result val :=
  kind <- get d "kind" ;;
  if py_eq kind (VStr "CronJob") then
    s <- get_dict d "spec" ;; jt <- get_dict s "jobTemplate" ;; js <- get_dict jt "spec" ;; get_dict js "template"
  else if py_eq kind (VStr "Pod") then Ok d
  else if in_tuple kind WORKLOADS then s <- get_dict d "spec" ;; get_dict s "template"
  else if py_eq kind (VStr "Cluster") then
    g <- group d ;;
    if negb (str_eqb g "postgresql.cnpg.io") then Ok VNone else
    s <- get_dict d "spec" ;; im <- get_dict s "inheritedMetadata" ;; Ok (VDict [("metadata", im)])
  else Ok VNone.

Definition runtime_pod (ns : val) (labels : list (string * string)) : val :=
  dict_with (str_dict labels) NS_KEY ns.

(** The pods that the Velero server and the setec operator create at run time. *)
Definition velero_pods (kind labels ns : val) : result (list val) :=
  if negb (py_eq kind (VStr "Deployment")) then Ok [] else
  n <- get labels "app.kubernetes.io/name" ;;
  Ok (if py_eq n (VStr "velero") then
        map (λ k, runtime_pod ns [(k, "runtime")])
          ["velero.io/repo-name"; "velero.io/pod-volume-backup"; "velero.io/pod-volume-restore"]
      else []).
Definition setec_pods (kind labels ns : val) : result (list val) :=
  if negb (py_eq kind (VStr "Deployment")) then Ok [] else
  n <- get labels "app.kubernetes.io/name" ;;
  if negb (py_eq n (VStr "setec")) then Ok [] else
  c <- get labels "app.kubernetes.io/component" ;;
  Ok (if py_eq c (VStr "operator") then
        map (λ job, runtime_pod ns [("app.kubernetes.io/name", "setec"); ("app.kubernetes.io/component", job)])
          ["disk-builder"; "image-verify"]
      else []).

Definition pods_of (d : val) : result (list val) :=
  t <- pod_template d ;;
  if is_none t then Ok [] else
  m <- get_dict t "metadata" ;; labels <- get_dict m "labels" ;;
  dm <- item d "metadata" ;; n <- get dm "namespace" ;;
  let ns := por n (VStr NAMESPACE) in
  ep <- dict_merge labels (VDict [(NS_KEY, ns)]) ;;
  kind <- get d "kind" ;;
  velero <- velero_pods kind labels ns ;;
  setec <- setec_pods kind labels ns ;;
  Ok (ep :: velero ++ setec).

(** The labels of each rendered pod, with its namespace. *)
Definition pods (docs : list val) : result (list val) := flatM pods_of docs.

(** ** The verdict *)

Definition type_findings (d : val) : result (list string) :=
  g <- group d ;; kind <- get d "kind" ;;
  if negb (hashable kind) then Raise TypeError else
  other <- (if existsb (λ t, str_eqb g t.1 && py_eq kind (VStr t.2)) OTHER_TYPES then
    n <- meta_name d ;;
    Ok [cat [py_str kind; "/"; py_str n; ": a second policy type ("; g; "); ";
             "the chart renders Cilium policies only"]]
  else Ok []) ;;
  if negb (py_eq kind (VStr "NetworkPolicy")) then Ok other else
  m <- item d "metadata" ;; ns <- get m "namespace" ;;
  if negb (py_eq (por ns (VStr NAMESPACE)) (VStr NAMESPACE)) then Ok other else
  n <- item m "name" ;;
  Ok (other ++ [cat ["NetworkPolicy/"; py_str n; ": a Kubernetes NetworkPolicy in the release namespace; ";
                     "the chart renders Cilium policies only"]]).

(** The selector of a policy in [ns] selects the pod [ep]. *)
Definition in_ns_selects (ns sel ep : val) : result bool :=
  here <- (if is_none ns then Ok true else n <- item ep NS_KEY ;; Ok (py_eq n ns)) ;;
  if here : bool then selects sel ep else Ok false.

Definition rule_findings (rendered : list val) (c ns : val) (ir : nat * val) : result (list string) :=
  let '(i, r) := ir in
  sel <- get_dict r "endpointSelector" ;;
  used <- anyM (in_ns_selects ns sel) rendered ;;
  if used : bool then Ok [] else
  kind <- item c "kind" ;; n <- meta_name c ;;
  Ok [cat [py_str kind; "/"; py_str n; " rule "; str_of_int (Z.of_nat (S i)); ": the selector "; py_str sel;
           " selects no rendered pod"]].

Definition policy_ns (c : val) : result val :=
  kind <- item c "kind" ;;
  if py_eq kind (VStr "CiliumClusterwideNetworkPolicy") then Ok VNone
  else m <- item c "metadata" ;; n <- get m "namespace" ;; Ok (por n (VStr NAMESPACE)).

Definition policy_findings (rendered : list val) (c : val) : result (list string) :=
  kind <- get c "kind" ;;
  if negb (in_tuple kind CILIUM) then Ok [] else
  ns <- policy_ns c ;;
  rules <- Cilium.rules_of c ;;
  flatM (rule_findings rendered c ns) (imap pair rules).

Definition judge (docs : list val) : result (list string) :=
  let docs := List.filter is_dict docs in
  types <- flatM type_findings docs ;;
  rendered <- pods docs ;;
  idle <- flatM (policy_findings rendered) docs ;;
  Ok (sorted_set (types ++ idle)).

(** ** The self-test of the script *)
Definition obj (api kind name ns : string) (rest : list (string * val)) : val :=
  VDict ([("apiVersion", VStr api); ("kind", VStr kind);
          ("metadata", str_dict ([("name", name)] ++ if str_eqb ns "" then [] else [("namespace", ns)]))] ++ rest).
Definition deployment (name ns : string) (labels : list (string * string)) : val :=
  obj "apps/v1" "Deployment" name ns
    [("spec", VDict [("template", VDict [("metadata", VDict [("labels", str_dict labels)])])])].
Definition match_labels (labels : list (string * string)) : val :=
  VDict [("endpointSelector", VDict [("matchLabels", str_dict labels)])].
Definition match_exists (key : string) : val :=
  VDict [("endpointSelector", VDict [("matchExpressions",
    VList [str_dict [("key", key); ("operator", "Exists")]])])].
Definition ccnp_of (name ns : string) : val :=
  obj "cilium.io/v2" "CiliumClusterwideNetworkPolicy" name ""
    [("spec", match_labels [(cat ["k8s:"; NS_KEY], ns)])].
Definition cnp_of (name : string) (rule : val) : val :=
  obj "cilium.io/v2" "CiliumNetworkPolicy" name NAMESPACE [("specs", VList [rule])].
Definition np_of (ns : string) : val :=
  obj "networking.k8s.io/v1" "NetworkPolicy" "np" ns [("spec", VDict [("podSelector", VDict [])])].

Definition pod : val := deployment "a" NAMESPACE [("app", "a"); ("gibson.zeroroot.ai/net-role", "platform")].
Definition ccnp : val := ccnp_of "deny" NAMESPACE.
Definition cnp : val := cnp_of "platform" (match_labels [("gibson.zeroroot.ai/net-role", "platform")]).
Definition pg : val := cnp_of "datastore-postgres" (match_labels [("gibson.zeroroot.ai/datastore", "postgres")]).
Definition cluster : val :=
  obj "postgresql.cnpg.io/v1" "Cluster" "pg" NAMESPACE
    [("spec", VDict [("inheritedMetadata", VDict [("labels", str_dict [("gibson.zeroroot.ai/datastore", "postgres")])])])].
Definition velero : val := deployment "velero" NAMESPACE [("app.kubernetes.io/name", "velero")].
Definition repo : val := cnp_of "velero" (match_exists "velero.io/repo-name").
Definition setec_op : val :=
  deployment "setec" "setec-system" [("app.kubernetes.io/name", "setec"); ("app.kubernetes.io/component", "operator")].
Definition builder : val :=
  obj "cilium.io/v2" "CiliumNetworkPolicy" "setec-disk-builder" "setec-system"
    [("spec", match_labels [("app.kubernetes.io/component", "disk-builder")])].
Definition data_path (key : string) : val := cnp_of "velero" (match_exists key).
Definition se : val := obj "networking.istio.io/v1" "ServiceEntry" "se" "" [].
Definition typo : val := cnp_of "typo" (match_labels [("gibson.zeroroot.ai/net-role", "platfrom")]).
Definition other_ns : val := ccnp_of "elsewhere" "nowhere".

Definition count (docs : list val) : result nat := l <- judge docs ;; Ok (length l).
(** Each case of [selftest]: the documents and the number of findings. *)
Definition selftest_cases : list (list val * nat) :=
  [([pod; ccnp; cnp], 0); ([pod; ccnp; cnp; np_of "setec-sandboxes"], 0); ([pod; cluster; pg], 0);
   ([setec_op; builder], 0); ([builder], 1)]
  ++ concat (map (λ key, [([velero; data_path key], 0); ([data_path key], 1)])
       ["velero.io/pod-volume-backup"; "velero.io/pod-volume-restore"])
  ++ [([velero; repo], 0);
      ([pod; se], 1); ([pod; np_of NAMESPACE], 1); ([pod; typo], 1); ([pod; other_ns], 1); ([pod; repo], 1)].
Definition selftest : result Z :=
  ok <- allM (λ '(docs, n), k <- count docs ;; Ok (k =? n)) selftest_cases ;;
  Ok (if ok : bool then 0 else 1)%Z.

Lemma policytype_selftest : selftest = Ok 0%Z.
Proof. vm_compute. reflexivity. Qed.

(** ** What the guard promises *)

(** A clean verdict means one policy type and no idle rule.  No object of
    the render is of a second policy type, no Kubernetes NetworkPolicy is in
    the release namespace, and each rule of each Cilium policy selects a pod of
    the render in the namespaces that the policy covers. *)
Theorem clean_policies_are_used (docs : list val) (d : val)
    (Hclean : judge docs = Ok []) (Hd : d ∈ docs) (Hdict : is_dict d = true) :
  (∀ g k, (g, k) ∈ OTHER_TYPES → ¬ (group d = Ok g ∧ fld d "kind" = VStr k)) ∧
  (fld d "kind" = VStr "NetworkPolicy" →
    por (fld (fld d "metadata") "namespace") (VStr NAMESPACE) ≠ VStr NAMESPACE) ∧
  (in_tuple (fld d "kind") CILIUM = true →
    ∃ ns rules rendered, policy_ns d = Ok ns ∧ Cilium.rules_of d = Ok rules ∧
      pods (List.filter is_dict docs) = Ok rendered ∧
      ∀ r, r ∈ rules → ∃ ep, ep ∈ rendered ∧
        in_ns_selects ns (por (fld r "endpointSelector") (VDict [])) ep = Ok true).
Proof.
  unfold judge in Hclean. set (ds := List.filter is_dict docs) in *.
  assert (d ∈ ds) as Hin by (apply list_elem_of_In, filter_In; by rewrite <- list_elem_of_In).
  apply bind_Ok in Hclean as (types & Ht & H). apply bind_Ok in H as (rendered & Hr & H).
  apply bind_Ok in H as (idle & Hi & H). injection H as H. rewrite sorted_set_nil in H.
  apply app_eq_nil in H as [-> ->]. rewrite flatM_nil in Ht. rewrite flatM_nil in Hi.
  specialize (Ht d Hin). specialize (Hi d Hin). split_and!.
  - intros g k Hgk [Hg Hk]. unfold type_findings in Ht. rewrite Hg in Ht. cbn [rbind] in Ht.
    apply bind_Ok in Ht as (kv & ->%get_Ok & Ht). rewrite Hk in Ht. cbn [hashable negb] in Ht.
    assert (existsb (λ t, str_eqb g t.1 && py_eq (VStr k) (VStr t.2)) OTHER_TYPES = true) as E.
    { apply existsb_elem_of. exists (g, k). split; [done|]. cbn. by rewrite py_eq_refl_str, str_eqb_refl. }
    rewrite E in Ht. ok_case.
  - intros Hk Hns. unfold type_findings in Ht. apply bind_Ok in Ht as (g & _ & Ht).
    apply bind_Ok in Ht as (kv & ->%get_Ok & Ht). rewrite Hk in Ht. cbn [hashable negb] in Ht.
    apply bind_Ok in Ht as (other & _ & Ht). rewrite py_eq_refl_str in Ht. cbn [negb] in Ht.
    apply bind_Ok in Ht as (m & ->%item_fld & Ht). apply bind_Ok in Ht as (ns & ->%get_Ok & Ht).
    rewrite Hns, py_eq_refl_str in Ht. cbn [negb] in Ht. apply bind_Ok in Ht as (n & _ & Ht).
    injection Ht as Ht. by apply app_eq_nil in Ht as [_ ?].
  - intros Hk. unfold policy_findings in Hi. apply bind_Ok in Hi as (kv & ->%get_Ok & Hi).
    rewrite Hk in Hi. cbn [negb] in Hi. apply bind_Ok in Hi as (ns & Hns & Hi).
    apply bind_Ok in Hi as (rules & Hrules & Hi). exists ns, rules, rendered. split_and!; [done..|].
    intros r Hr'. rewrite flatM_nil in Hi. apply list_elem_of_lookup in Hr' as [i Hi'].
    assert ((i, r) ∈ imap pair rules) as Hir.
    { apply list_elem_of_lookup. exists i. by rewrite list_lookup_imap, Hi'. }
    specialize (Hi _ Hir). unfold rule_findings in Hi. apply bind_Ok in Hi as (sel & ->%por_dict_fld & Hi).
    apply bind_Ok in Hi as (used & Hu & Hi). destruct used; [by apply anyM_true in Hu|]. ok_inv.
Qed.

Lemma clean_policies_are_used_witness :
  judge [pod; ccnp; cnp] = Ok [] ∧
  ∃ ns rules rendered, policy_ns cnp = Ok ns ∧ Cilium.rules_of cnp = Ok rules ∧
    pods [pod; ccnp; cnp] = Ok rendered ∧
    ∀ r, r ∈ rules → ∃ ep, ep ∈ rendered ∧
      in_ns_selects ns (por (fld r "endpointSelector") (VDict [])) ep = Ok true.
Proof.
  assert (judge [pod; ccnp; cnp] = Ok []) as H by (vm_compute; reflexivity).
  split; [exact H|].
  apply (clean_policies_are_used [pod; ccnp; cnp] cnp H); [right; right; left|reflexivity|reflexivity].
Defined.
