(* ===== verification/VeleroDatapath.v ===== *)
(** * scripts/check-velero-datapath-selected.py: the Velero policy and its pods

    Each data path pod of Velero is selected by a spec of the policy, which
    lets it reach the API server and the bucket; on AWS S3 the specs name the
    hosts of one bucket only. *)
From S2P Require Import Prelude PyStr PyVal Regex.
From S2P Require Cilium.
From Stdlib Require Import Ascii.

Definition NS_KEY : string := "io.kubernetes.pod.namespace".

(** [norm] is the function of cilium_policy.py. *)
Definition norm (key : val) : result val := Cilium.norm key.

(** One expression of [selects]: true when the loop returns [False] for it. *)
Definition expr_rejects (labels e : val) : result bool :=
  key <- item e "key" ;; k <- norm key ;; op <- item e "operator" ;;
  vs <- get e "values" ;;
  let vals := por vs (VList []) in
  let is_op o := py_eq op (VStr o) in
  orR (if is_op "Exists" then notR (val_in k labels) else Ok false) (
  orR (if is_op "DoesNotExist" then val_in k labels else Ok false) (
  orR (if is_op "In" then x <- get_v labels k ;; notR (val_in x vals) else Ok false) (
      if is_op "NotIn" then x <- get_v labels k ;; val_in x vals else Ok false))).
Definition pod_labels (pod : val) : result val :=
  m <- item pod "metadata" ;; ls <- get_dict m "labels" ;; ns <- item m "namespace" ;;
  dict_merge ls (VDict [(NS_KEY, ns)]).
(** [selects] on the labels of the pod *)
Definition select_labels (selector labels : val) : result bool :=
  ml <- get_dict selector "matchLabels" ;; kvs <- items ml ;;
  same <- allM (λ '(k, v), x <- get labels (Cilium.norm_key k) ;; Ok (py_eq x v)) kvs ;;
  if negb same then Ok false else
  es <- get_list selector "matchExpressions" ;;
  rejected <- anyM (expr_rejects labels) es ;; Ok (negb rejected).
Definition selects (selector pod : val) : result bool :=
  labels <- pod_labels pod ;; select_labels selector labels.

Definition num (n : nat) : string := str_of_int (Z.of_nat n).
Definition is_bucket_rule (r : val) : result bool := orR (get_truthy r "toFQDNs") (get_truthy r "toCIDR").
(** The entries of [toPorts] of a rule *)
Definition rule_ports (r : val) : result (list val) :=
  tps <- get_list r "toPorts" ;; flatM (λ tp, get_list tp "ports") tps.
Definition egress_problems (spec : val) : result (list string) :=
  rules <- get_list spec "egress" ;;
  api <- anyM (λ r, es <- get r "toEntities" ;; str_in "kube-apiserver" (por es (VList []))) rules ;;
  if negb api then Ok ["no egress to the kube-apiserver entity"] else
  bucket <- filterM is_bucket_rule rules ;;
  match bucket with
  | [b] =>
      ports <- rule_ports b ;;
      Ok (if length ports =? 1 then []
          else [cat ["the bucket rule names "; num (length ports); " ports, want one"]])
  | _ => Ok [cat [num (length bucket); " bucket rules (toFQDNs or toCIDR), want one"]]
  end.

Definition host_class (c : ascii) : bool := is_lower c || is_digit c || in_chars ".-" c.
Definition region_class (c : ascii) : bool := is_lower c || is_digit c || Ascii.eqb c "-".
(** The groups [bucket] and [region] are 1 and 2. *)
Definition S3_BUCKET_HOST : regex :=
  RSeq [RBegin; RGroup 1 (RCat (RChr (λ c, is_lower c || is_digit c)) (RStar (RChr host_class))); RStr ".s3."; ROpt (RStr "dualstack.");
        RGroup 2 (RPlus (RChr region_class)); RStr ".amazonaws.com"; REnd].
(** The bucket and the region of a bucket host *)
Definition bucket_of (n : string) : option (string * string) :=
  match re_match S3_BUCKET_HOST n with
  | Some m => if startswith n "s3." then None else Some (group_text m 1, group_text m 2)
  | None => None
  end.
Definition regional (p : string * string) : string := cat [p.1; ".s3."; p.2; ".amazonaws.com"].
Definition dualstack (p : string * string) : string := cat [p.1; ".s3.dualstack."; p.2; ".amazonaws.com"].
Definition want (p : string * string) : list string := [regional p; dualstack p].
Definition without (l k : list string) : list string := sorted_set (List.filter (λ x, negb (str_mem x k)) l).
Definition str_of_pairs (ps : list (string * string)) : string :=
  cat ["["; str_join ", " (map (λ p, cat ["("; repr_str p.1; ", "; repr_str p.2; ")"]) ps); "]"].

(** The [matchName] of each entry that has one, and the [matchPattern]s *)
Definition match_names (fqdns : list val) : result (list val) :=
  flatM (λ f, t <- get_truthy f "matchName" ;; if (t : bool) then n <- item f "matchName" ;; Ok [n] else Ok []) fqdns.
Definition match_patterns (fqdns : list val) : result (list val) :=
  flatM (λ f, t <- str_in "matchPattern" f ;; if (t : bool) then p <- item f "matchPattern" ;; Ok [p] else Ok []) fqdns.
Definition is_aws (n : string) : bool := endswith n ".amazonaws.com".

(** The findings on the names of a rule *)
Definition name_problems (names : list string) : list string :=
  let shared := List.filter (λ n, startswith n "s3.") names in
  let pairs := sorted_pairs (omap bucket_of names) in
  (if nonempty shared then [cat ["the bucket rule names "; str_of_strs shared; ", the shared host, which reaches each bucket"]] else []) ++
  (if 1 <? length pairs then [cat ["the bucket rule names the hosts of "; num (length pairs); " buckets "; str_of_pairs pairs;
                                   ", want the release bucket only"]] else []) ++
  concat (map (λ p, let missing := without (want p) names in
    if nonempty missing then [cat ["the bucket rule does not name "; str_of_strs missing;
      ": the AWS plugin in the server pod reads the bucket by the regional bucket host, and the kopia client by the dual-stack bucket host (charts#726)"]]
    else []) pairs) ++
  (if negb (nonempty pairs) && existsb is_aws names
   then [cat ["the bucket rule names "; str_of_strs names;
              " and no bucket host: an amazonaws.com host that is not a bucket host, such as s3-<region>.amazonaws.com, reaches each bucket"]] else []) ++
  (let other := without names (concat (map want pairs)) in
   if nonempty pairs && nonempty other then [cat ["the bucket rule also names "; str_of_strs other]] else []).
Definition s3_host_problems (fqdns : list val) : result (list string) :=
  names <- match_names fqdns ;;
  patterns <- match_patterns fqdns ;;
  aws <- anyM (λ n, s <- as_str n ;; Ok (is_aws s)) names ;;
  if negb aws && negb (nonempty patterns) then Ok [] else
  names <- mapR as_str names ;;
  Ok ((if nonempty patterns then [cat ["the bucket rule names the pattern "; py_repr (VList patterns); ", which can reach another bucket"]] else []) ++
      name_problems names).

(** (policy name, namespace, spec) for each CiliumNetworkPolicy spec *)
Definition doc_specs (d : val) : result (list (val * val * val)) :=
  if negb (is_dict d) then Ok [] else
  k <- get d "kind" ;;
  if negb (py_eq k (VStr "CiliumNetworkPolicy")) then Ok [] else
  m <- item d "metadata" ;; name <- item m "name" ;; ns <- get_default m "namespace" (VStr "") ;;
  ss <- get d "specs" ;;
  specs <- (if truthy ss then py_iter ss
            else s <- get_truthy d "spec" ;; if (s : bool) then x <- item d "spec" ;; Ok [x] else Ok []) ;;
  Ok (map (λ s, (name, ns, s)) specs).
Definition policy_specs (docs : list val) : result (list (val * val * val)) := flatM doc_specs docs.

Definition VELERO_POLICY_SUFFIX : string := "-velero".
Definition spec_problems (spec3 : val * val * val) : result (list string) :=
  let '(name, ns, spec) := spec3 in
  sel <- get_dict spec "endpointSelector" ;;
  let who := cat ["policy "; py_str ns; "/"; py_str name; ", spec "; py_str sel; ": "] in
  rs <- get_list spec "egress" ;; rules <- filterM is_bucket_rule rs ;;
  ps <- flatM (λ r, f <- get r "toFQDNs" ;;
                    if truthy f then l <- py_iter f ;; ps <- s3_host_problems l ;; Ok (map (String.append who) ps) else Ok []) rules ;;
  Ok ((if nonempty rules then [] else [who +:+ "no bucket rule (toFQDNs or toCIDR)"]) ++ ps).
Definition velero_specs (docs : list val) : result (list (val * val * val)) :=
  specs <- policy_specs docs ;;
  filterM (λ s, n <- as_str s.1.1 ;; Ok (endswith n VELERO_POLICY_SUFFIX)) specs.
Definition bucket_rule_problems (docs : list val) : result (list string) :=
  velero <- velero_specs docs ;;
  if nonempty velero then flatM spec_problems velero
  else Ok [cat ["the render holds no CiliumNetworkPolicy named *"; VELERO_POLICY_SUFFIX; ": the bucket check is blind"]].

Definition rule_names (r : val) : result (list val) := get_list r "toFQDNs".
Definition has_aws_bucket_rule (docs : list val) : result bool :=
  specs <- policy_specs docs ;;
  anyM (λ s, rs <- get_list s.2 "egress" ;;
             anyM (λ r, fs <- rule_names r ;;
                        anyM (λ f, n <- get_default f "matchName" (VStr "") ;; s <- as_str n ;; Ok (is_aws s)) fs) rs) specs.

(** The specs of the namespace of a pod that select it *)
Definition hits (specs : list (val * val * val)) (pns pod : val) : result (list (val * val * val)) :=
  filterM (λ s, if py_eq s.1.2 pns then sel <- get_dict s.2 "endpointSelector" ;; selects sel pod else Ok false) specs.
Definition check_pod (specs : list (val * val * val)) (pod : val) : result (list string) :=
  m <- item pod "metadata" ;; pname <- item m "name" ;; pns <- item m "namespace" ;;
  let who := cat ["pod "; py_str pns; "/"; py_str pname] in
  hs <- hits specs pns pod ;;
  match hs with
  | [] => ls <- get m "labels" ;;
          Ok [cat [who; " (labels "; py_str ls;
                   "): no CiliumNetworkPolicy spec of the namespace selects it, so the default deny closes the API server and the bucket"]]
  | _ => flatM (λ s, ps <- egress_problems s.2 ;;
                     Ok (map (λ p, cat [who; ": policy "; py_str s.1.1; " selects it, and the spec has "; p]) ps)) hs
  end.
Definition check (docs pods : list val) : result (list string) :=
  specs <- policy_specs docs ;;
  if negb (nonempty specs) then Ok ["the render holds no CiliumNetworkPolicy spec: the check is blind"] else
  if negb (nonempty pods) then Ok ["no pod fixture under tests/fixtures/velero-datapath: the check is blind"] else
  bucket <- bucket_rule_problems docs ;;
  found <- flatM (check_pod specs) pods ;;
  Ok (bucket ++ found).

(** [fixtures]: the files of the fixture directory in order, parsed *)
Definition load_pods (fixtures : list (string * val)) : result (list val) :=
  let no_pod f := Raise (SystemExit (f +:+ " is not a Pod")) in
  mapR (λ f, if negb (is_dict f.2) then no_pod f.1 else
             k <- get f.2 "kind" ;; if py_eq k (VStr "Pod") then Ok f.2 else no_pod f.1) fixtures.
Definition load_docs (golden : list val) : list val := List.filter truthy golden.

Definition main (golden : list val) (fixtures : list (string * val)) : result Z :=
  let docs := load_docs golden in
  pods <- load_pods fixtures ;; findings <- check docs pods ;;
  if nonempty findings then Ok 1%Z else _ <- has_aws_bucket_rule docs ;; Ok 0%Z.

(** ** The self-test

    [docs] is the CiliumNetworkPolicy of the golden render with another
    document, and [pods] the two fixtures, without their containers. *)
Definition spec_fixture (selector : val) : val :=
  VDict [("description", VStr "Velero reaches the API server and the backup bucket only."); ("endpointSelector", selector);
         ("egress", VList [VDict [("toEntities", strs ["kube-apiserver"])];
           VDict [("toFQDNs", VList [str_dict [("matchName", "example-durable-bucket.s3.us-east-1.amazonaws.com")];
                                     str_dict [("matchName", "example-durable-bucket.s3.dualstack.us-east-1.amazonaws.com")]]);
                  ("toPorts", VList [VDict [("ports", VList [str_dict [("port", "443"); ("protocol", "TCP")]])]])]])].
Definition with_label (k : string) : val := VDict [("matchExpressions", VList [str_dict [("key", k); ("operator", "Exists")]])].
Definition metadata (name ns : string) : val := str_dict [("name", name); ("namespace", ns)].
Definition docs : list val :=
  [VDict [("kind", VStr "CiliumNetworkPolicy"); ("metadata", metadata "gibson-velero-velero" "gibson");
          ("specs", VList [spec_fixture (VDict [("matchLabels", str_dict [("app.kubernetes.io/name", "velero")])]);
                           spec_fixture (with_label "velero.io/repo-name"); spec_fixture (with_label "velero.io/pod-volume-backup");
                           spec_fixture (with_label "velero.io/pod-volume-restore")])];
   VDict [("kind", VStr "Schedule"); ("metadata", metadata "platform-hourly" "gibson")]].
Definition pod_fixture (name ns label value : string) : val :=
  VDict [("apiVersion", VStr "v1"); ("kind", VStr "Pod");
         ("metadata", VDict [("name", VStr name); ("namespace", VStr ns); ("labels", str_dict [(label, value)])])].
Definition pods : list val :=
  [pod_fixture "platform-hourly-20261012103634-q7x2k" "gibson" "velero.io/pod-volume-backup" "platform-hourly-20261012103634-q7x2k";
   pod_fixture "platform-hourly-20261012103634-restore-m4n8p" "gibson" "velero.io/pod-volume-restore" "platform-hourly-20261012103634-restore-m4n8p"].

Definition elements (v : val) : list val := match v with VList l => l | _ => [] end.
Definition on_list (k : string) (f : list val → list val) (v : val) : val := dict_with v k (VList (f (elements (fld v k)))).
Definition on_specs (f : list val → list val) : list val → list val :=
  map (λ d, if is_kind "CiliumNetworkPolicy" d then on_list "specs" f d else d).
Definition is_server (sp : val) : bool :=
  py_eq (fld (fld (fld sp "endpointSelector") "matchLabels") "app.kubernetes.io/name") (VStr "velero").

Definition strip (ds : list val) (key : string) : list val :=
  on_specs (List.filter (λ s, negb (existsb (λ e, py_eq (fld e "key") (VStr key))
                                      (elements (fld (fld s "endpointSelector") "matchExpressions"))))) ds.
Definition without_api (ds : list val) : list val :=
  on_specs (map (on_list "egress" (List.filter (λ r, is_none (fld r "toEntities"))))) ds.
Definition edit_names (f : list val → list val) (r : val) : val := if truthy (fld r "toFQDNs") then on_list "toFQDNs" f r else r.
Definition fqdns (ds : list val) (f : list val → list val) : list val := on_specs (map (on_list "egress" (map (edit_names f)))) ds.
Definition server_only (ds : list val) (f : list val → list val) : list val :=
  on_specs (map (λ sp, if is_server sp then on_list "egress" (map (edit_names f)) sp else sp)) ds.
Definition legacy_only (names : list val) : list val := [str_dict [("matchName", "s3-us-east-1.amazonaws.com")]].
Definition no_bucket_rule (ds : list val) : list val :=
  on_specs (map (λ sp, if is_server sp then on_list "egress" (List.filter (λ r, negb (truthy (fld r "toFQDNs")))) sp else sp)) ds.
Definition pattern_only (names : list val) : list val := [str_dict [("matchPattern", "*.s3.us-east-1.amazonaws.com")]].
Definition with_other_policy (ds : list val) : list val :=
  ds ++ [VDict [("kind", VStr "CiliumNetworkPolicy"); ("metadata", metadata "gibson-velero-metrics" "gibson");
                ("specs", VList [VDict [("endpointSelector", VDict [("matchLabels", str_dict [("x", "y")])]);
                                        ("egress", VList [VDict [("toEntities", strs ["kube-apiserver"])]])]])]].
Definition with_pattern (names : list val) : list val := names ++ [str_dict [("matchPattern", "*.amazonaws.com")]].
Definition with_other_bucket (names : list val) : list val :=
  names ++ [str_dict [("matchName", "other-bucket.s3.us-east-1.amazonaws.com")];
            str_dict [("matchName", "other-bucket.s3.dualstack.us-east-1.amazonaws.com")]].
Definition is_dualstack (f : val) : bool := match fld f "matchName" with VStr n => contains ".s3.dualstack." n | _ => false end.
Definition no_dualstack : list val → list val := List.filter (λ f, negb (is_dualstack f)).
Definition no_regional : list val → list val := List.filter is_dualstack.
Definition with_shared (names : list val) : list val := names ++ [str_dict [("matchName", "s3.us-east-1.amazonaws.com")]].
Definition renamed (ds : list val) : list val :=
  map (λ d, if is_kind "CiliumNetworkPolicy" d then put [K "metadata"; K "name"] (VStr "renamed") d else d) ds.

Definition cases : list (list val * list val) :=
  [(strip docs "velero.io/pod-volume-backup", pods); (strip docs "velero.io/pod-volume-restore", pods);
   (docs, [pod_fixture "du" "gibson" "velero.io/data-upload" "du"]); (docs, [pod_fixture "pvb" "other" "velero.io/pod-volume-backup" "pvb"]);
   (without_api docs, pods); (fqdns docs no_dualstack, pods); (fqdns docs no_regional, pods); (fqdns docs with_shared, pods);
   (server_only docs no_dualstack, pods); (fqdns docs with_pattern, pods); (server_only docs legacy_only, pods);
   (no_bucket_rule docs, pods); (fqdns docs with_other_bucket, pods); ([VDict [("kind", VStr "ConfigMap")]], pods);
   (renamed docs, pods); (docs, [])].
(** Whether the render names a dual-stack bucket host *)
Definition names_dualstack (ds : list val) : result bool :=
  specs <- policy_specs ds ;;
  anyM (λ s, rs <- get_list s.2 "egress" ;; anyM (λ r, fs <- rule_names r ;; Ok (existsb is_dualstack fs)) rs) specs.
Definition selftest : result Z :=
  clean <- check docs pods ;;
  if nonempty clean then Ok 1%Z else
  pattern_findings <- bucket_rule_problems (fqdns docs pattern_only) ;;
  if negb (nonempty pattern_findings) || negb (forallb (contains "names the pattern") pattern_findings) then Ok 1%Z else
  other <- bucket_rule_problems (with_other_policy docs) ;;
  if nonempty other then Ok 1%Z else
  dual <- names_dualstack docs ;;
  if negb dual then Ok 1%Z else
  bad <- filterM (λ '(d, p), l <- check d p ;; Ok (negb (nonempty l))) cases ;;
  Ok (if nonempty bad then 1%Z else 0%Z).

Lemma velero_selftest : selftest = Ok 0%Z.
Proof. vm_compute. reflexivity. Qed.

(** ** What a clean run proves *)

(** A spec of a CiliumNetworkPolicy of the render, with its name and namespace *)
Inductive declares (ds : list val) (name ns spec : val) : Prop :=
  | Declares d specs :
      d ∈ ds → fld d "kind" = VStr "CiliumNetworkPolicy" → fld (fld d "metadata") "name" = name →
      get_default (fld d "metadata") "namespace" (VStr "") = Ok ns →
      (if truthy (fld d "specs") then py_iter (fld d "specs") = Ok specs else specs = [fld d "spec"] ∧ truthy (fld d "spec") = true) →
      spec ∈ specs → declares ds name ns spec.

Definition reaches_api (spec : val) : Prop :=
  ∃ rules r, get_list spec "egress" = Ok rules ∧ r ∈ rules ∧
    str_in "kube-apiserver" (por (fld r "toEntities") (VList [])) = Ok true.
Definition one_bucket_port (spec : val) : Prop :=
  ∃ rules r p, get_list spec "egress" = Ok rules ∧ r ∈ rules ∧ is_bucket_rule r = Ok true ∧ rule_ports r = Ok [p] ∧
    ∀ r', r' ∈ rules → is_bucket_rule r' = Ok true → r' = r.

(** The names of a rule are the two hosts of one bucket, or no host of AWS. *)
Definition only_bucket (p : string * string) (l : list val) : Prop :=
  (∀ f, f ∈ l → truthy (fld f "matchName") = true → ∃ n, fld f "matchName" = VStr n ∧ n ∈ want p) ∧
  (∀ n, n ∈ want p → ∃ f, f ∈ l ∧ fld f "matchName" = VStr n).
Definition no_aws (l : list val) : Prop :=
  ∀ f, f ∈ l → truthy (fld f "matchName") = true → ∃ n, fld f "matchName" = VStr n ∧ is_aws n = false.
Definition bucket_names (l : list val) : Prop :=
  (∀ f, f ∈ l → str_in "matchPattern" f = Ok false) ∧ (no_aws l ∨ ∃ p, only_bucket p l).

Lemma without_nil l k : without l k = [] → ∀ x, x ∈ l → x ∈ k.
Proof.
  unfold without. intros H x Hx. rewrite sorted_set_nil in H. destruct (str_mem x k) eqn:E; [by apply str_mem_elem|]. exfalso.
  assert (x ∈ List.filter (λ x, negb (str_mem x k)) l) as Hf.
  { apply list_elem_of_In, filter_In. split; [by apply list_elem_of_In|by rewrite E]. }
  rewrite H in Hf. by apply elem_of_nil in Hf.
Qed.

Lemma name_problems_nil names : name_problems names = [] → existsb is_aws names = true →
  ∃ p, (∀ n, n ∈ names → n ∈ want p) ∧ (∀ n, n ∈ want p → n ∈ names).
Proof.
  unfold name_problems. intros H Ha. apply app_nil in H as [_ H]. apply app_nil in H as [H1 H]. apply app_nil in H as [H2 H].
  apply app_nil in H as [H3 H4]. rewrite Ha, andb_true_r in H3. destruct (sorted_pairs _) as [|p [|q l]]; [done| |done].
  exists p. cbn [map concat nonempty andb] in H2, H4. rewrite app_nil_r in H2, H4. split.
  - apply without_nil. by destruct (without names (want p)).
  - apply without_nil. by destruct (without (want p) names).
Qed.

Lemma match_names_elem l names n : match_names l = Ok names →
  n ∈ names ↔ ∃ f, f ∈ l ∧ truthy (fld f "matchName") = true ∧ fld f "matchName" = n.
Proof.
  intros H. rewrite (flatM_elem _ _ _ H).
  assert (∀ f r, (t <- get_truthy f "matchName" ;; if (t : bool) then n <- item f "matchName" ;; Ok [n] else Ok []) = Ok r →
            r = if truthy (fld f "matchName") then [fld f "matchName"] else []) as Hr.
  { intros f r (t & Ht & Hr)%bind_Ok. unfold get_truthy in Ht. apply bind_Ok in Ht as (x & ->%get_Ok & [= <-]).
    destruct (truthy (fld f "matchName")); [|by injection Hr as <-]. apply bind_Ok in Hr as (y & ->%item_fld & [= <-]). done. }
  split.
  - intros (f & r & Hf & ->%Hr & Hn). exists f. destruct (truthy (fld f "matchName")); [|by apply elem_of_nil in Hn].
    apply list_elem_of_singleton in Hn as ->. done.
  - intros (f & Hf & Ht & <-). destruct (flatM_Ok_elem _ _ _ _ H Hf) as [r E]. exists f, r. split; [done|]. split; [done|].
    apply Hr in E as ->. rewrite Ht. left.
Qed.

Lemma s3_host_problems_nil l : s3_host_problems l = Ok [] → bucket_names l.
Proof.
  unfold s3_host_problems. intros (names & Hn & H)%bind_Ok. apply bind_Ok in H as (ps & Hp & H). apply bind_Ok in H as (aws & Ha & H).
  assert (∀ ss, mapR as_str names = Ok ss → names = VStr <$> ss) as Hstr.
  { intros ss. clear. revert ss. induction names as [|n names IH]; intros ss; cbn [mapR]; [by intros [= <-]|].
    intros (s & Hs & H)%bind_Ok. apply bind_Ok in H as (t & Ht & [= <-]). destruct n; try done. injection Hs as <-. cbn. by rewrite <- (IH _ Ht). }
  assert (ps = [] ∧ (aws = true → ∃ p, only_bucket p l)) as [-> Hb].
  { destruct ps as [|q ps]; cbn [nonempty negb] in H.
    - split; [done|]. intros ->. cbn [negb andb] in H. apply bind_Ok in H as (ss & Hs & H). injection H as H.
      pose proof (Hstr _ Hs) as ->. assert (existsb is_aws ss = true) as Hex.
      { apply anyM_true in Ha as (x & Hx & Ha). apply list_elem_of_fmap in Hx as (n & -> & Hx). apply existsb_exists. exists n.
        split; [by apply list_elem_of_In|]. by injection Ha. }
      destruct (name_problems_nil ss H Hex) as (p & H1 & H2). exists p. split.
      + intros f Hf Ht. assert (fld f "matchName" ∈ VStr <$> ss) as Hin by (apply (match_names_elem _ _ _ Hn); eauto).
        apply list_elem_of_fmap in Hin as (n & -> & Hin). exists n. auto.
      + intros n Hin%H2. apply (list_elem_of_fmap_2 VStr) in Hin. apply (match_names_elem _ _ _ Hn) in Hin as (f & ? & _ & ?). eauto.
    - exfalso. rewrite andb_false_r in H. apply bind_Ok in H as (ss & Hs & H). done. }
  split.
  - intros f Hf. apply (proj1 (flatM_nil _ _) Hp) in Hf. apply bind_Ok in Hf as ([] & Hf & E); [|done].
    apply bind_Ok in E as (p & _ & [=]).
  - destruct aws; [right; auto|left]. intros f Hf Ht.
    assert (fld f "matchName" ∈ names) as Hin by (apply (match_names_elem _ _ _ Hn); eauto).
    apply (proj1 (anyM_false _ _) Ha) in Hin. destruct (fld f "matchName"); try done. injection Hin as Hin. by eexists.
Qed.

Lemma get_truthy_fld v k b : get_truthy v k = Ok b → b = truthy (fld v k).
Proof. unfold get_truthy. by intros (x & ->%get_Ok & [= <-])%bind_Ok. Qed.

Lemma policy_specs_declares golden specs name ns spec :
  policy_specs (load_docs golden) = Ok specs → (name, ns, spec) ∈ specs ↔ declares golden name ns spec.
Proof.
  intros H. rewrite (flatM_elem _ _ _ H).
  assert (∀ d, d ∈ load_docs golden ↔ d ∈ golden ∧ truthy d = true) as Hdocs.
  { intros d. unfold load_docs. rewrite list_elem_of_In, filter_In, <- list_elem_of_In. done. }
  assert (∀ d l, doc_specs d = Ok l → is_dict d = true → fld d "kind" = VStr "CiliumNetworkPolicy" →
    ∃ ns specs, get_default (fld d "metadata") "namespace" (VStr "") = Ok ns ∧
      (if truthy (fld d "specs") then py_iter (fld d "specs") = Ok specs
       else specs = (if truthy (fld d "spec") then [fld d "spec"] else [])) ∧
      l = map (λ s, (fld (fld d "metadata") "name", ns, s)) specs) as Hdoc.
  { intros d l Hd Hdict Hk. unfold doc_specs in Hd. rewrite Hdict in Hd. cbn [negb] in Hd. apply bind_Ok in Hd as (k & ->%get_Ok & Hd).
    rewrite Hk in Hd. cbn [py_eq negb] in Hd. change (str_eqb _ _) with true in Hd. cbn [negb] in Hd.
    apply bind_Ok in Hd as (m & ->%item_fld & Hd). apply bind_Ok in Hd as (n & ->%item_fld & Hd).
    apply bind_Ok in Hd as (ns' & Hns & Hd). apply bind_Ok in Hd as (ss & ->%get_Ok & Hd).
    apply bind_Ok in Hd as (sp & Hsp & [= <-]). exists ns', sp. split_and!; [done| |done].
    destruct (truthy (fld d "specs")); [done|]. apply bind_Ok in Hsp as (b & ->%get_truthy_fld & Hsp).
    destruct (truthy (fld d "spec")); [|by injection Hsp]. by apply bind_Ok in Hsp as (x & ->%item_fld & [= <-]). }
  split.
  - intros (d & l & [Hd Ht]%Hdocs & Hl & Hin). destruct (is_dict d) eqn:Edict.
    2:{ unfold doc_specs in Hl. rewrite Edict in Hl. injection Hl as <-. by apply elem_of_nil in Hin. }
    destruct (py_eq (fld d "kind") (VStr "CiliumNetworkPolicy")) eqn:Ek.
    2:{ unfold doc_specs in Hl. rewrite Edict in Hl. cbn [negb] in Hl. apply bind_Ok in Hl as (k & ->%get_Ok & Hl).
        rewrite Ek in Hl. injection Hl as <-. by apply elem_of_nil in Hin. }
    apply py_eq_str_r in Ek. destruct (Hdoc d l Hl Edict Ek) as (ns' & sp & Hns & Hsp & ->).
    apply list_elem_of_In, in_map_iff in Hin as (s & [= <- <- <-] & Hs). apply list_elem_of_In in Hs.
    apply (Declares _ _ _ _ d sp); try done. destruct (truthy (fld d "specs")); [done|]. subst sp.
    destruct (truthy (fld d "spec")); [done|by apply elem_of_nil in Hs].
  - intros [d sp Hd Hk Hn Hns Hsp Hin]. assert (is_dict d = true ∧ truthy d = true) as [Edict Ht] by (by destruct d as [| | | | |[|]]).
    destruct (flatM_Ok_elem _ _ _ d H) as [l Hl]; [by apply Hdocs|]. exists d, l. split; [by apply Hdocs|]. split; [done|].
    destruct (Hdoc d l Hl Edict Hk) as (ns' & sp' & Hns' & Hsp' & ->). rewrite Hns in Hns'. injection Hns' as <-. rewrite Hn.
    apply list_elem_of_In, in_map_iff. exists spec. split; [done|]. apply list_elem_of_In.
    destruct (truthy (fld d "specs")); [congruence|]. destruct Hsp as [-> Hs]. rewrite Hs in Hsp'. by subst sp'.
Qed.

Lemma egress_problems_nil spec : egress_problems spec = Ok [] → reaches_api spec ∧ one_bucket_port spec.
Proof.
  unfold egress_problems. intros (rules & Hr & H)%bind_Ok. apply bind_Ok in H as (api & Ha & H).
  destruct api; [|done]. cbn [negb] in H. apply bind_Ok in H as (bucket & Hb & H).
  destruct bucket as [|b [|c l]]; [done| |done]. apply bind_Ok in H as (ports & Hp & H).
  destruct ports as [|p [|q ports]]; [done| |done]. split.
  - apply anyM_true in Ha as (r & Hin & Ha). apply bind_Ok in Ha as (es & ->%get_Ok & Ha). by exists rules, r.
  - pose proof (filterM_Ok _ _ _ Hb) as Hf. exists rules, b, p. split; [done|].
    destruct (proj1 (Hf b) (list_elem_of_here _ _)) as [H1 H2]. split_and!; try done.
    intros r' H3 H4. by apply list_elem_of_singleton, Hf.
Qed.

Lemma spec_problems_nil name ns spec : spec_problems (name, ns, spec) = Ok [] →
  (∃ rules r, get_list spec "egress" = Ok rules ∧ r ∈ rules ∧ is_bucket_rule r = Ok true) ∧
  ∀ rules r l, get_list spec "egress" = Ok rules → r ∈ rules → truthy (fld r "toFQDNs") = true → py_iter (fld r "toFQDNs") = Ok l → bucket_names l.
Proof.
  unfold spec_problems. intros (sel & _ & H)%bind_Ok. apply bind_Ok in H as (rs & Hrs & H). apply bind_Ok in H as (rules & Hr & H).
  apply bind_Ok in H as (ps & Hps & H). injection H as H. apply app_nil in H as [H1 ->]. pose proof (filterM_Ok _ _ _ Hr) as Hf.
  destruct rules as [|b rules]; [done|]. split.
  - exists rs, b. split; [done|]. apply Hf. left.
  - intros rs' r l Hrs' Hin Ht Hl. rewrite Hrs in Hrs'. injection Hrs' as <-.
    assert (∃ d, r = VDict d) as [d ->] by (destruct r; try done; by eexists).
    assert (VDict d ∈ b :: rules) as Hin' by (apply Hf; split; [done|]; unfold is_bucket_rule, get_truthy; cbn in *; by rewrite Ht).
    apply (proj1 (flatM_nil _ _) Hps) in Hin'. apply bind_Ok in Hin' as (f & ->%get_Ok & Hin'). rewrite Ht, Hl in Hin'. cbn [rbind] in Hin'.
    apply bind_Ok in Hin' as (p & Hp & Hin'). apply s3_host_problems_nil. rewrite Hp. f_equal. destruct p; [done|by injection Hin'].
Qed.

Lemma filterM_each {A} (p : A → result bool) l k x : filterM p l = Ok k → x ∈ l → ∃ b, p x = Ok b.
Proof.
  revert k. induction l as [|y l IH]; intros k; [by intros _ ?%elem_of_nil|]. cbn [filterM].
  destruct (p y) as [b|] eqn:E; [|done]. intros H Hin.
  assert (∃ k', filterM p l = Ok k') as [k' Hk] by (destruct (filterM p l); [by eexists|by destruct b]).
  apply elem_of_cons in Hin as [->|Hin]; [by exists b|by apply (IH k')].
Qed.

(** A spec of the namespace of a pod that selects it *)
Definition covers (ns spec pod : val) : Prop :=
  py_eq ns (fld (fld pod "metadata") "namespace") = true ∧ selects (dict_fld spec "endpointSelector") pod = Ok true.

Lemma check_pod_nil specs pod : check_pod specs pod = Ok [] →
  (∃ name ns spec, (name, ns, spec) ∈ specs ∧ covers ns spec pod) ∧
  ∀ name ns spec, (name, ns, spec) ∈ specs → covers ns spec pod → reaches_api spec ∧ one_bucket_port spec.
Proof.
  unfold check_pod. intros (m & ->%item_fld & H)%bind_Ok. apply bind_Ok in H as (pn & _ & H). apply bind_Ok in H as (pns & ->%item_fld & H).
  apply bind_Ok in H as (hs & Hh & H). pose proof (filterM_Ok _ _ _ Hh) as Hf.
  assert (∀ name ns spec, (name, ns, spec) ∈ hs → covers ns spec pod) as Hcov.
  { intros name ns spec [_ Hc]%Hf. cbn [fst snd] in Hc. destruct (py_eq ns _) eqn:E; [|done].
    apply bind_Ok in Hc as (sel & ->%por_dict_fld & Hc). by split. }
  destruct hs as [|[[name ns] spec] hs]; [by apply bind_Ok in H as (ls & _ & [=])|]. split.
  - exists name, ns, spec. split; [apply Hf; left|apply (Hcov name); left].
  - intros name' ns' spec' Hin [H1 H2]. assert ((name', ns', spec') ∈ (name, ns, spec) :: hs) as Hin'.
    { apply Hf. split; [done|]. destruct (filterM_each _ _ _ _ Hh Hin) as [b Hb]. cbn [fst snd] in *. rewrite H1 in *.
      apply bind_Ok in Hb as (sel & Hsel & Hb). rewrite Hsel. apply por_dict_fld in Hsel as ->. exact H2. }
    apply (proj1 (flatM_nil _ _) H) in Hin'. apply bind_Ok in Hin' as (ps & Hp & Hin'). cbn [snd] in Hp. apply egress_problems_nil.
    rewrite Hp. f_equal. destruct ps; [done|by injection Hin'].
Qed.


Definition w_fixtures : list (string * val) := imap (λ i p, ("pod", p)) pods.
