(* ===== verification/CiliumSpec.v ===== *)
(** * What scripts/lib/cilium_policy.py promises

    The interface of a label selector, which three guards implement, and the
    properties of the module. *)
From stdpp Require Import gmap.
From S2P Require Import Prelude PyStr PyVal Cilium.
From S2P Require PolicyType VeleroDatapath.

(** ** The interface of a selector

    [f selector labels] decides, without an exception, whether a typed
    selector matches the labels of a pod. *)
Class SelectorMatcher (f : val → val → result bool) : Prop :=
  matcher_computes (m : gmap string string) (s : selector) :
    computes (f (selector_val s) (labels_val m)) (selector_matches m s).

#[export] Instance cilium_matcher : SelectorMatcher Cilium.selects.
Proof. intros m s. apply selects_computes. Qed.

(** Two matchers give the same answer on each typed selector. *)
Lemma matchers_agree (f g : val → val → result bool) `{!SelectorMatcher f, !SelectorMatcher g} m s :
  f (selector_val s) (labels_val m) = g (selector_val s) (labels_val m).
Proof.
  destruct (matcher_computes (f := f) m s) as (b & -> & Hb).
  destruct (matcher_computes (f := g) m s) as (c & -> & Hc).
  f_equal. apply eq_bool_prop_intro. rewrite !Is_true_true. by rewrite Hb, Hc.
Qed.

(** ** A selector that reads its labels before its expressions *)

Definition labels_then_exprs (rejects : val → val → result bool) (s : selector) (labels : val) : result bool :=
  ok <- allM (λ '(k, v), x <- get labels (norm_key k) ;; Ok (py_eq x v)) (prod_map id VStr <$> match_labels s) ;;
  if negb ok then Ok false else
  b <- anyM (rejects labels) (expr_val <$> match_exprs s) ;; Ok (negb b).

Lemma labels_then_exprs_computes rejects (m : gmap string string) (s : selector) :
  (∀ e, computes (rejects (labels_val m) (expr_val e)) (¬ expr_holds m e)) →
  computes (labels_then_exprs rejects s (labels_val m)) (selector_matches m s).
Proof.
  intros Hrej. unfold labels_then_exprs. rewrite anyM_fmap, allM_fmap.
  eapply computes_iff; [|apply (computes_guard _ _ (∀ kv, kv ∈ match_labels s → m !! norm_key kv.1 = Some kv.2))].
  - unfold selector_matches. split.
    + intros [H1 H2]. split; [exact H2|]. intros k v Hkv. by apply (H1 (k, v)).
    + intros [H1 H2]. split; [intros [k v] Hkv; by apply H2|exact H1].
  - apply computes_allM. intros [k v] _. cbn [prod_map]. rewrite get_labels. cbn. apply computes_Ok.
    rewrite py_eq_str_r. destruct (m !! norm_key k); naive_solver.
  - intros _. eapply computes_iff; [|apply computes_not, computes_anyM; intros; apply Hrej].
    split.
    + intros H e He. destruct (decide (expr_holds m e)) as [|Hn]; [done|]. destruct H. eauto.
    + intros H (e & He & Hn). by apply Hn, H.
Qed.

(** ** The selector of check-egress-policy-type.py *)

(** [PolicyType.expr_rejects] on a typed expression, by its operator. *)
Lemma policy_type_expr_unfold labels k op (vs : list string) :
  PolicyType.expr_rejects labels (expr_val (Expr k op vs)) =
  match op with
  | In => x <- get_v labels (VStr (norm_key k)) ;; b <- val_in x (strs vs) ;; Ok (negb b)
  | NotIn => has <- val_in (VStr (norm_key k)) labels ;;
             if has : bool then x <- get_v labels (VStr (norm_key k)) ;; val_in x (strs vs) else Ok false
  | Exists => b <- val_in (VStr (norm_key k)) labels ;; Ok (negb b)
  | DoesNotExist => val_in (VStr (norm_key k)) labels
  end.
Proof. by destruct op, vs. Qed.

Lemma policy_type_expr (m : gmap string string) (e : expr) :
  computes (PolicyType.expr_rejects (labels_val m) (expr_val e)) (¬ expr_holds m e).
Proof.
  destruct e as [k op vs]. rewrite policy_type_expr_unfold. unfold expr_holds; cbn [e_op e_key e_values].
  destruct op.
  - apply computes_not_bind, label_in_values.
  - destruct (mem_labels m (norm_key k)) as (b & -> & Hin). destruct b; cbn [rbind].
    + eapply computes_iff; [|apply (label_in_values m (norm_key k) vs)].
      destruct (m !! norm_key k) as [v|]; [|naive_solver].
      destruct (decide (v ∈ vs)); naive_solver.
    + apply computes_Ok. split; [done|]. intros H. exfalso. apply H.
      intros v Hv. exfalso. rewrite Hv in Hin. by assert (false = true) by (apply Hin; eauto).
  - apply computes_not, mem_labels.
  - eapply computes_iff; [|apply mem_labels].
    destruct (m !! norm_key k); [|naive_solver]. split; [done|]. intros _. by eexists.
Qed.

#[export] Instance policy_type_matcher : SelectorMatcher PolicyType.selects.
Proof.
  intros m s.
  assert (PolicyType.selects (selector_val s) (labels_val m) =
          labels_then_exprs PolicyType.expr_rejects s (labels_val m)) as -> by (by destruct s as [[|] [|]]).
  apply labels_then_exprs_computes, policy_type_expr.
Qed.

(** ** The selector of check-velero-datapath-selected.py *)

Lemma orR_end m : orR m (Ok false) = m.
Proof. by destruct m as [[]|]. Qed.
(** Its four tests in a row give what the cases of the module give. *)
Lemma velero_expr labels e : VeleroDatapath.expr_rejects labels (expr_val e) = expr_rejects labels (expr_val e).
Proof.
  destruct e as [k op vs]. rewrite expr_rejects_unfold. unfold VeleroDatapath.expr_rejects.
  destruct op, vs; cbn -[val_in get_v labels_val]; rewrite ?orR_end; done.
Qed.

#[export] Instance velero_matcher : SelectorMatcher VeleroDatapath.select_labels.
Proof.
  intros m s.
  assert (VeleroDatapath.select_labels (selector_val s) (labels_val m) =
          labels_then_exprs VeleroDatapath.expr_rejects s (labels_val m)) as -> by (by destruct s as [[|] [|]]).
  apply labels_then_exprs_computes. intros e. rewrite velero_expr. apply expr_rejects_spec.
Qed.

(** ** Properties *)

(** C28: on typed policies the module decides reachability: [rules] and
    [reaches] never raise, and a flow is reported as allowed exactly when an
    egress rule of a policy that selects the source and an ingress rule of a
    policy that selects the destination both allow it, each selector scoped
    to the namespace of its policy. *)
Theorem reaches_decides_flow (release : string) (ps : list policy)
    (src dst : gmap string string) (port : option Z) :
  ∃ b, (rs <- rules (policy_val <$> ps) (VStr release) ;;
        reaches rs (labels_val src) (labels_val dst) port) = Ok b ∧
       (b = true ↔ flow_allowed release ps src dst port).
Proof. apply reaches_computes. Qed.

(** The selector of the shared module and the selectors that
    check-egress-policy-type.py and check-velero-datapath-selected.py write
    again, with another order of their loops and other tests of the operators,
    agree on each typed selector, and all are the meaning of the selector. *)
Theorem selectors_agree (m : gmap string string) (s : selector) :
  PolicyType.selects (selector_val s) (labels_val m) = Cilium.selects (selector_val s) (labels_val m) ∧
  VeleroDatapath.select_labels (selector_val s) (labels_val m) = Cilium.selects (selector_val s) (labels_val m) ∧
  (Cilium.selects (selector_val s) (labels_val m) = Ok true ↔ selector_matches m s).
Proof.
  split_and!; [apply (matchers_agree PolicyType.selects Cilium.selects)|
               apply (matchers_agree VeleroDatapath.select_labels Cilium.selects)|].
  apply computes_true, selects_computes.
Qed.

(** Policies only add: a flow that the rules allow stays allowed when
    more policies are appended, whatever they hold.  An allow list has no
    rule that takes a permission away. *)
Theorem reaches_monotone (rs more : list (val * val * val)) (src dst : val) (port : option Z) :
  reaches rs src dst port = Ok true → reaches (rs ++ more) src dst port = Ok true.
Proof.
  unfold reaches. rewrite !anyM_app. intros H. ok_inv.
  apply andb_true_iff in H as [-> ->]. by rewrite E, E0.
Qed.

Definition allow_all : rule :=
  Rule (Selector [] []) [PeerItem ["all"] [] []] [PeerItem ["all"] [] []].
Lemma reaches_monotone_witness :
  reaches ([(VNone, rule_val allow_all, VNone)] ++ [(VNone, VNone, VNone)])
    (str_dict [("app", "a")]) (str_dict [("app", "b")]) (Some 443%Z) = Ok true.
Proof. apply reaches_monotone. vm_compute. reflexivity. Defined.

(** An expression with no key is an error, never a match: [selects]
    raises [TypeError] on a selector whose first expression names no key. *)
Theorem selects_needs_a_key (d e : list (string * val)) (es : list val) (labels : val) :
  alist_get "matchExpressions" d = Some (VList (VDict e :: es)) → alist_get "key" e = None →
  selects (VDict d) labels = Raise TypeError.
Proof.
  intros Hd He. unfold selects. destruct d as [|kv d]; [done|]. rewrite por_dict_cons.
  assert (get_list (VDict (kv :: d)) "matchExpressions" = Ok (VDict e :: es)) as ->.
  { unfold get_list, get. by rewrite Hd. }
  cbn [rbind anyM]. unfold expr_rejects at 1, get at 1. by rewrite He.
Qed.

Lemma selects_needs_a_key_witness :
  selects (VDict [("matchExpressions", VList [VDict [("operator", VStr "Exists")]])]) (VDict []) = Raise TypeError.
Proof. eapply selects_needs_a_key; reflexivity. Defined.
