(* ===== verification/NetpolHooks.v ===== *)
(** * scripts/check-netpol-before-hooks.py: a policy applies before the hook Job it selects

    Argo applies the objects of a render wave by wave.  A hook Job runs under
    the network policies of the waves before its own, so each policy with a
    rule that selects its pod has a lower wave. *)
From stdpp Require Import gmap.
From S2P Require Import Prelude PyStr PyVal CiliumSpec.
From S2P Require Cilium.

Definition WAVE : string := "argocd.argoproj.io/sync-wave".
Definition HOOK : string := "argocd.argoproj.io/hook".

Definition annotations (obj : val) : result val := m <- get_dict obj "metadata" ;; get_dict m "annotations".

(** The sync wave of an object: 0 when it has none, or one that is no number. *)
Definition wave (obj : val) : result Z :=
  ann <- annotations obj ;;
  w <- get_default ann WAVE (VStr "0") ;;
  match py_int (VStr (strip_char dquote (py_str w))) with
  | Ok z => Ok z
  | Raise ValueError => Ok 0%Z
  | Raise e => Raise e
  end.

(** The inner [norm] of [selects]: the key without its source prefix. *)
Definition norm (key : val) : result val := Cilium.norm key.

(** One expression of [selects]: true when the loop returns [False] for it. *)
Definition expr_rejects (labels e : val) : result bool :=
  key <- get e "key" ;; k <- norm key ;; op <- get e "operator" ;; vs <- get e "values" ;;
  let vals := por vs (VList []) in
  if py_eq op (VStr "In") then x <- get_v labels k ;; b <- val_in x vals ;; Ok (negb b)
  else if py_eq op (VStr "NotIn") then x <- get_v labels k ;; val_in x vals
  else if py_eq op (VStr "Exists") then b <- val_in k labels ;; Ok (negb b)
  else if py_eq op (VStr "DoesNotExist") then val_in k labels
  else Ok false.

(** The empty selector is the default deny of a namespace: its order does not
    matter. *)
Definition selects (selector labels : val) : result bool :=
  if negb (truthy selector) then Ok false else
  ml <- get_dict selector "matchLabels" ;; kvs <- items ml ;;
  ok <- allM (λ '(k, v), x <- get labels (Cilium.norm_key k) ;; Ok (py_eq x v)) kvs ;;
  if negb ok then Ok false else
  es <- get_list selector "matchExpressions" ;;
  notR (anyM (expr_rejects labels) es).

(** The pod selector of each rule of a policy. *)
Definition selectors (p : val) : result (list val) :=
  kind <- get p "kind" ;;
  if py_eq kind (VStr "NetworkPolicy") then
    s <- get_dict p "spec" ;; sel <- get_dict s "podSelector" ;; Ok [sel]
  else
    s <- get p "spec" ;;
    more <- get_list p "specs" ;;
    mapR (λ r, get_dict r "endpointSelector") ((if truthy s then [s] else []) ++ more).

(** One hook Job, from its namespace, the labels of its pod and its wave,
    against one policy. *)
Definition judge_policy (base : string) (job ns labels : val) (jw : Z) (p : val) : result (list string) :=
  m <- get_dict p "metadata" ;;
  pns <- get m "namespace" ;;
  if negb (py_eq pns ns) then Ok [] else
  sels <- selectors p ;;
  hit <- anyM (λ sel, selects sel labels) sels ;;
  if negb hit then Ok [] else
  pw <- wave p ;;
  if (pw <? jw)%Z then Ok [] else
  kind <- item p "kind" ;; pname <- meta_name p ;; jname <- meta_name job ;;
  Ok [cat [base; ": "; py_str kind; "/"; py_str pname; " (wave "; str_of_int pw; ") selects hook Job/";
           py_str jname; " (wave "; str_of_int jw; "); the policy must apply first"]].

Definition pod_labels (job : val) : result val :=
  s <- get_dict job "spec" ;; t <- get_dict s "template" ;; m <- get_dict t "metadata" ;; get_dict m "labels".

Definition judge_job (base : string) (pols : list val) (job : val) : result (list string) :=
  ann <- annotations job ;;
  hook <- str_in HOOK ann ;;
  if negb hook then Ok [] else
  m <- get_dict job "metadata" ;;
  ns <- get m "namespace" ;;
  labels <- pod_labels job ;;
  jw <- wave job ;;
  flatM (judge_policy base job ns labels jw) pols.

Definition is_policy (d : val) : bool :=
  in_tuple (fld d "kind") ["NetworkPolicy"; "CiliumNetworkPolicy"].
Definition is_job (d : val) : bool := py_eq (fld d "kind") (VStr "Job").

(** One render: its path and its documents. *)
Definition judge_render (render : string * list val) : result (list string) :=
  let docs := List.filter is_dict render.2 in
  flatM (judge_job (basename render.1) (List.filter is_policy docs)) (List.filter is_job docs).

Definition check (renders : list (string * list val)) : result (list string) :=
  problems <- flatM judge_render renders ;; Ok (sorted_set problems).

Definition main (renders : list (string * list val)) : result Z :=
  problems <- check renders ;; Ok (if nonempty problems then 1%Z else 0%Z).

(** ** The fixtures *)

Definition _doc (kind name : string) (wave_ : option Z) (extra : list (string * val)) (more : list (string * string)) : val :=
  VDict ([("kind", VStr kind);
          ("metadata", VDict [("name", VStr name); ("namespace", VStr "gibson");
             ("annotations", str_dict (match wave_ with Some w => [(WAVE, str_of_int w)] | None => [] end ++ more))])]
         ++ extra).
Definition job : val :=
  _doc "Job" "zitadel-postgres-setup" (Some (-6)%Z)
    [("spec", VDict [("template", VDict [("metadata", VDict [("labels",
       str_dict [("app.kubernetes.io/component", "postgres-setup")])])])])] [(HOOK, "Sync")].
Definition pol (w : option Z) (comp : string) : val :=
  _doc "NetworkPolicy" "gibson-bringup-jobs" w
    [("spec", VDict [("podSelector", VDict [("matchExpressions", VList [VDict
       [("key", VStr "app.kubernetes.io/component"); ("operator", VStr "In"); ("values", strs [comp])]])])])] [].
Definition deny : val :=
  _doc "NetworkPolicy" "default-deny" None [("spec", VDict [("podSelector", VDict [])])] [].
Definition endpoints (k v : string) : val := VDict [("endpointSelector", VDict [("matchLabels", str_dict [(k, v)])])].
Definition cilium (w : option Z) : val :=
  _doc "CiliumNetworkPolicy" "gibson-datastore-postgres" w
    [("specs", VList [endpoints "gibson.zeroroot.ai/datastore" "postgres";
                      endpoints "k8s:app.kubernetes.io/component" "postgres-setup"])] [].
Definition cases : list (string * list val * bool) :=
  [("early_policy", [job; pol (Some (-20)%Z) "postgres-setup"; deny], true);
   ("policy_without_wave", [job; pol None "postgres-setup"], false);
   ("policy_same_wave", [job; pol (Some (-6)%Z) "postgres-setup"], false);
   ("unrelated_policy", [job; pol None "other"], true);
   ("early_cilium_policy", [job; cilium (Some (-20)%Z)], true);
   ("late_cilium_policy", [job; cilium None], false)].
Definition selftest : result Z :=
  ok <- allM (λ '(name, docs, want), r <- check [(cat [name; ".yaml"], docs)] ;;
                                     Ok (Bool.eqb (negb (nonempty r)) want)) cases ;;
  Ok (if ok then 0%Z else 2%Z).

Lemma netpolhooks_selftest : selftest = Ok 0%Z.
Proof. vm_compute. reflexivity. Qed.

(** ** What the guard promises *)

Import Cilium (expr, Expr, selector, Selector, selector_matches, selector_val, labels_val, expr_val, expr_holds).

(** *** The third copy of the selector *)

Lemma expr_rejects_computes (m : gmap string string) (e : expr) :
  computes (expr_rejects (labels_val m) (expr_val e)) (¬ expr_holds m e).
Proof. exact (Cilium.expr_rejects_spec m e). Qed.

#[export] Instance netpol_hooks_matcher : SelectorMatcher selects.
Proof.
  intros m s.
  assert (selects (selector_val s) (labels_val m) = labels_then_exprs expr_rejects s (labels_val m)) as ->
    by (by destruct s as [[|] [|]]).
  apply labels_then_exprs_computes, expr_rejects_computes.
Qed.

(** *** The order of the waves *)

(** A Job that Argo runs as a hook, its namespace and the labels of its pod. *)
Definition hook_job (job : val) (ns : option string) (m : gmap string string) : Prop :=
  is_dict job = true ∧ is_job job = true ∧
  (∃ ann, annotations job = Ok ann ∧ str_in HOOK ann = Ok true) ∧
  (∃ md, get_dict job "metadata" = Ok md ∧ get md "namespace" = Ok (Cilium.ns_val ns)) ∧
  pod_labels job = Ok (labels_val m).

(** A network policy of the namespace, with a rule whose selector means the pod. *)
Definition policy_selects (p : val) (ns : option string) (m : gmap string string) : Prop :=
  is_dict p = true ∧ is_policy p = true ∧
  (∃ md, get_dict p "metadata" = Ok md ∧ get md "namespace" = Ok (Cilium.ns_val ns)) ∧
  ∃ sels s, selectors p = Ok sels ∧ selector_val s ∈ sels ∧ selector_matches m s.

Lemma ns_val_eq (ns : option string) : py_eq (Cilium.ns_val ns) (Cilium.ns_val ns) = true.
Proof. destruct ns; [apply py_eq_refl_str|done]. Qed.

Lemma judge_policy_nil base job ns m jw p :
  judge_policy base job (Cilium.ns_val ns) (labels_val m) jw p = Ok [] → policy_selects p ns m →
  ∃ pw, wave p = Ok pw ∧ (pw < jw)%Z.
Proof.
  unfold judge_policy. intros H (_ & _ & (md & Hmd & Hget) & sels & s & Hsels & Hs & Hm).
  rewrite Hmd in H. cbn in H. rewrite Hget in H. cbn in H. rewrite ns_val_eq in H. cbn in H.
  rewrite Hsels in H. cbn in H. apply bind_Ok in H as (hit & Hhit & H).
  assert (hit = true) as ->.
  { destruct hit; [done|]. exfalso. rewrite anyM_false in Hhit. specialize (Hhit _ Hs).
    destruct (matcher_computes (f := selects) m s) as (b & Hb & Hiff). rewrite Hb in Hhit.
    injection Hhit as ->. by assert (false = true) by (by apply Hiff). }
  cbn in H. apply bind_Ok in H as (pw & Hpw & H). exists pw. split; [done|].
  destruct (pw <? jw)%Z eqn:E; [by apply Z.ltb_lt|]. by ok_inv.
Qed.

Lemma judge_job_nil base pols job ns m :
  judge_job base pols job = Ok [] → hook_job job ns m →
  ∃ jw, wave job = Ok jw ∧
    ∀ p, p ∈ pols → policy_selects p ns m → ∃ pw, wave p = Ok pw ∧ (pw < jw)%Z.
Proof.
  unfold judge_job. intros H (_ & _ & (ann & Hann & Hhook) & (md & Hmd & Hget) & Hl).
  rewrite Hann in H. cbn [rbind] in H. rewrite Hhook in H. cbn [rbind negb] in H.
  rewrite Hmd in H. cbn [rbind] in H. rewrite Hget in H. cbn [rbind] in H. rewrite Hl in H. cbn [rbind] in H.
  apply bind_Ok in H as (jw & Hjw & H). exists jw. split; [done|]. intros p Hp Hs.
  rewrite flatM_nil in H. by eapply judge_policy_nil; [apply H|].
Qed.

Lemma filter_elem (f : val → bool) x l : f x = true → x ∈ l → x ∈ List.filter f l.
Proof. rewrite !list_elem_of_In, filter_In. auto. Qed.

(** When the check is clean, each network policy of a render with a rule
    that selects the pod of a hook Job of its namespace is in a lower sync wave
    than the Job, so the Job never runs before the policy that lets it reach
    its peers.  Both waves are read without an error. *)
Theorem clean_check_orders_hooks renders path docs job p ns m :
  check renders = Ok [] → (path, docs) ∈ renders → job ∈ docs → p ∈ docs →
  hook_job job ns m → policy_selects p ns m →
  ∃ pw jw, wave p = Ok pw ∧ wave job = Ok jw ∧ (pw < jw)%Z.
Proof.
  unfold check. intros H Hr Hj Hp Hjob Hsel. apply bind_Ok in H as (l & H & Hl).
  injection Hl as Hl. apply sorted_set_nil in Hl as ->. rewrite flatM_nil in H. specialize (H _ Hr).
  unfold judge_render in H. rewrite flatM_nil in H. cbn [snd fst] in H.
  destruct (judge_job_nil _ _ _ ns m (H job ltac:(apply filter_elem, filter_elem; [apply Hjob..|done])) Hjob) as (jw & Hjw & Hall).
  destruct (Hall p) as (pw & ? & ?); [apply filter_elem, filter_elem; [apply Hsel..|done]|done|].
  by exists pw, jw.
Qed.

Definition pod_map : gmap string string := {["app.kubernetes.io/component" := "postgres-setup"]}.
Definition typed_policy : val :=
  _doc "CiliumNetworkPolicy" "p" (Some (-20)%Z)
    [("specs", VList [VDict [("endpointSelector",
        selector_val (Selector [("k8s:app.kubernetes.io/component", "postgres-setup")] []))]])] [].

Lemma clean_check_orders_hooks_witness :
  check [("r.yaml", [job; typed_policy])] = Ok [] ∧
  ∃ pw jw, wave typed_policy = Ok pw ∧ wave job = Ok jw ∧ (pw < jw)%Z.
Proof.
  assert (check [("r.yaml", [job; typed_policy])] = Ok []) as E by (vm_compute; reflexivity).
  split; [exact E|].
  apply (clean_check_orders_hooks [("r.yaml", [job; typed_policy])] "r.yaml" [job; typed_policy] job typed_policy
           (Some "gibson") pod_map E); [left|left|right; left| |].
  - split_and!; [reflexivity|reflexivity| | |vm_compute; reflexivity].
    + eexists. split; [reflexivity|vm_compute; reflexivity].
    + eexists. split; [reflexivity|vm_compute; reflexivity].
  - split_and!; [reflexivity|reflexivity| |].
    + eexists. split; [reflexivity|vm_compute; reflexivity].
    + exists [selector_val (Selector [("k8s:app.kubernetes.io/component", "postgres-setup")] [])],
        (Selector [("k8s:app.kubernetes.io/component", "postgres-setup")] []).
      split_and!; [vm_compute; reflexivity|left|]. split; [intros e He; by apply elem_of_nil in He|].
      intros k v [[= -> ->]|He]%elem_of_cons; [vm_compute; reflexivity|by apply elem_of_nil in He].
Defined.
