(* ===== verification/ZitadelTokens.v ===== *)
(** * scripts/check-zitadel-token-writers.py: each Zitadel token Secret has one writer

    The render of the baseline profile: the ExternalSecrets of the two tokens,
    the setup Job with its store sidecar, the OpenBao policy that the sidecar
    works under, and the network policy between them.  The YAML that a
    ConfigMap holds as text is parsed by [yaml_load], an argument. *)
From stdpp Require Import sorting.
From S2P Require Import Prelude PyStr PyVal.
From S2P Require Cilium.

Definition NS : string := "gibson".
(** Secret, data key, store key, and the properties that its ExternalSecret
    reads.  The order of the properties is that of the source text. *)
Record entry := Entry { e_target : string; e_data_key : string; e_store_key : string; e_props : list string }.
Definition ZITADEL_ENTRIES : list entry :=
  [Entry "iam-admin-pat" "pat" "gibson-zitadel-iam-admin-pat" ["pat"; "userId"];
   Entry "login-client" "pat" "gibson-zitadel-login-client-pat" ["pat"]].
Definition LOGIN_KEY : string := "gibson-zitadel-login-client-pat".
Definition SETUP_JOB : string := "gibson-zitadel-setup".
Definition SETUP_CONTAINER : string := "zitadel-setup".
Definition STORE_CONTAINER : string := "login-client-pat-store".
Definition STEPS_CONFIGMAP : string := "gibson-zitadel-first-instance".
Definition STORE_AUTH_HOLDER : string := "gibson-openbao-zitadel-setup".
Definition STORE_POLICY : string := "zitadel-setup".
Definition ZITADEL_SA : string := "gibson-zitadel".
Definition COMPONENT : string := "app.kubernetes.io/component".
Definition ESCROW : string := "iam-admin-pat-escrow".

(** ** Reading the render *)

Definition has_kind (k : string) (d : val) : result bool := x <- get d "kind" ;; Ok (py_eq x (VStr k)).
(** The documents of a kind whose name passes a test. *)
Definition of_kind (k : string) (test : val → result bool) (docs : list val) : result (list val) :=
  filterM (λ d, andR (has_kind k d) (n <- meta_name d ;; test n)) docs.
Definition is_name (s : string) (n : val) : result bool := Ok (py_eq n (VStr s)).

Definition wave (d : val) : result Z :=
  m <- item d "metadata" ;; a <- get_dict m "annotations" ;;
  w <- get a "argocd.argoproj.io/sync-wave" ;;
  if is_none w then Ok 0%Z else py_int w.

Definition targets (target : string) (d : val) : result bool :=
  andR (has_kind "ExternalSecret" d)
       (s <- item d "spec" ;; t <- get_default s "target" (VDict []) ;; n <- get t "name" ;;
        Ok (py_eq n (VStr target))).
Definition es_for_target (docs : list val) (target : string) : result (option val) :=
  firstM (λ d, hit <- targets target d ;; Ok (if hit : bool then Some d else None)) docs.

Definition pod_spec (d : val) : result val :=
  s <- item d "spec" ;; t <- item s "template" ;; item t "spec".
(** [d["spec"]["template"]["metadata"].get("labels") or {}] *)
Definition template_labels (d : val) : result val :=
  s <- item d "spec" ;; t <- item s "template" ;; m <- item t "metadata" ;; get_dict m "labels".

Definition zitadel_jobs (docs : list val) : result (list val) := of_kind "Job" (str_in "zitadel") docs.

Definition script_of (c : val) : result string :=
  a <- or_empty c "command" ;; b <- or_empty c "args" ;; l <- added a b ;;
  words <- mapR (λ x, match x with VStr s => Ok s | _ => Raise TypeError end) l ;;
  Ok (str_join " " words).

(** The containers and the init containers of a workload. *)
Definition containers_of (d : val) : result (list val) :=
  s <- pod_spec d ;; cs <- get_default s "containers" (VList []) ;; ics <- or_empty s "initContainers" ;;
  added cs ics.

(** A dict that a comprehension builds, [{k: v for ...}], by its items. *)
Definition vdict_items {A} (l : list (val * A)) : list (val * A) :=
  omap (λ k, (λ x, (k, x)) <$> vdict_get k l) (dedup_vals l.*1).
Definition by_name {A} (f : val → result A) (l : list val) : result (list (val * A)) :=
  flatM (λ c, n <- item c "name" ;; x <- f c ;; vdict_item n x) l.

(** ** The waves and the ExternalSecrets *)

Section check.
Context (yaml_load : string → result val).

(** The FirstInstance block of each Zitadel config file in a ConfigMap. *)
Definition first_instance_of (docs : list val) : result (list (string * val)) :=
  flatM (λ d,
    hit <- andR (has_kind "ConfigMap" d) (n <- meta_name d ;; str_in "zitadel" n) ;;
    if negb hit then Ok [] else
    data <- get_dict d "data" ;; kvs <- items data ;;
    flatM (λ '(k, v),
      match v with
      | VStr text =>
          if contains "FirstInstance" text then
            cfg <- yaml_load text ;;
            n <- meta_name d ;;
            fi <- get_dict (por cfg (VDict [])) "FirstInstance" ;;
            Ok [(cat [py_str n; "/"; k], fi)]
          else Ok []
      | _ => Ok []
      end) kvs) docs.

Definition when (b : bool) (message : list string) : list string := if b then [cat message] else [].

(** The (key, property) pairs that an ExternalSecret reads. *)
Definition remote_refs (es : val) : result (list (val * val)) :=
  s <- item es "spec" ;; data <- get_default s "data" (VList []) ;; l <- py_iter data ;;
  flatM (λ x, r <- item x "remoteRef" ;; k <- item r "key" ;; r <- item x "remoteRef" ;; p <- get r "property" ;;
              if hashable k && hashable p then Ok [(k, p)] else Raise TypeError) l.
Definition reads_property (refs : list (val * val)) (key property : string) : bool :=
  existsb (λ r, py_eq r.1 (VStr key) && py_eq r.2 (VStr property)) refs.

(** 1. One ExternalSecret writer of one token Secret, from the right key. *)
Definition judge_entry (docs : list val) (e : entry) : result (list string) :=
  found <- es_for_target docs (e_target e) ;;
  match found with
  | None => Ok [cat ["no ExternalSecret targets the Secret "; e_target e;
                     ": nothing writes it from OpenBao, so a restore cannot bring it back"]]
  | Some es =>
      s <- item es "spec" ;; t <- item s "target" ;; policy <- get t "creationPolicy" ;;
      refs <- remote_refs es ;;
      template <- get_dict t "template" ;; tmpl <- get_dict template "data" ;;
      missing <- filterM (λ k, notR (str_in k tmpl))
                   (e_data_key e :: List.filter (λ p, negb (str_eqb p "pat")) (e_props e)) ;;
      Ok (when (negb (py_eq policy (VStr "Owner")))
            ["the ExternalSecret "; e_target e; " must use creationPolicy Owner: it is the one writer of the Secret (charts#407, ADR-0014)"]
          ++ map (λ p, cat ["the ExternalSecret "; e_target e; " does not read property "; p; " of "; e_store_key e])
               (List.filter (λ p, negb (reads_property refs (e_store_key e) p)) (e_props e))
          ++ map (λ k, cat ["the ExternalSecret "; e_target e; " does not write the data key "; repr_str k; ", which its consumer reads"])
               missing)
  end.

Definition judge_iam_admin (docs : list val) : result (list string) :=
  found <- es_for_target docs "iam-admin" ;;
  Ok (when (bool_decide (is_Some found))
        ["an ExternalSecret writes the Secret iam-admin: the machine key of iam-admin is deleted (ADR-0171)"]).

(** 2. The waves. *)
Definition setup_jobs (docs : list val) : result (list val) := of_kind "Job" (is_name SETUP_JOB) docs.

Definition judge_login_wave (setup : list val) (lc : option val) : result (list string) :=
  match setup, lc with
  | job :: _, Some lc =>
      sw <- wave job ;; lw <- wave lc ;;
      Ok (when (negb ((sw <? lw)%Z && (lw <? 0)%Z))
            ["the ExternalSecret login-client (wave "; str_of_int lw; ") must come after the setup Job (wave "; str_of_int sw;
             ") and BEFORE wave 0: earlier it is Degraded on a fresh install, at 0 or later a restore deadlocks"])
  | _, _ => Ok []
  end.
(** [min(l)] *)
Definition min_of (z : Z) (l : list Z) : Z := foldl Z.min z l.
Definition judge_pat_wave (pat : option val) (ops : list val) : result (list string) :=
  match pat, ops with
  | Some pat, _ :: _ =>
      pw <- wave pat ;; ws <- mapR wave ops ;;
      let low := match ws with w :: ws => min_of w ws | [] => 0%Z end in
      Ok (when (pw <? low)%Z
            ["the ExternalSecret iam-admin-pat (wave "; str_of_int pw; ") is ahead of the platform-operator (wave "; str_of_int low;
             ") that writes its key: a fresh install never ends"])
  | _, _ => Ok []
  end.
Definition judge_waves (docs setup : list val) : result (list string) :=
  lc <- es_for_target docs "login-client" ;;
  a <- judge_login_wave setup lc ;;
  pat <- es_for_target docs "iam-admin-pat" ;;
  ops <- of_kind "Deployment" (λ n, s <- as_str n ;; Ok (endswith s "-platform-operator")) docs ;;
  b <- judge_pat_wave pat ops ;;
  Ok (a ++ b).

(** ** What the Zitadel Jobs may do *)

(** 3. No block of FirstInstance.Org outside the steps file. *)
Definition judge_config (docs : list val) : result (list string) :=
  blocks <- first_instance_of docs ;;
  flatM (λ '(name, fi),
    if startswith name (cat [STEPS_CONFIGMAP; "/"]) then Ok [] else
    org <- get_dict fi "Org" ;;
    flatM (λ block, b <- get_truthy org block ;;
      Ok (when b [name; " holds FirstInstance.Org."; block;
                  ": the upstream chart then starts a kubectl container that writes a Secret, a second writer (charts#407)"]))
      ["Machine"; "LoginClient"]) blocks.

(** 4. No container of a Zitadel Job calls the Kubernetes API, and no role is
    bound to the Zitadel ServiceAccount. *)
Definition judge_container (j c : val) : result (list string) :=
  s <- script_of c ;;
  if negb (contains "kubectl" s) then Ok [] else
  n <- item c "name" ;; jn <- meta_name j ;;
  let who := cat ["the container "; py_str n; " of Job "; py_str jn; " runs "] in
  Ok [if contains "create secret" s
      then cat [who; "`kubectl create secret`: a Secret writer outside its ExternalSecret (charts#407)"]
      else cat [who; "kubectl: no Zitadel container calls the Kubernetes API"]].
Definition judge_jobs (docs : list val) : result (list string) :=
  jobs <- zitadel_jobs docs ;;
  flatM (λ j, cs <- containers_of j ;; flatM (judge_container j) cs) jobs.

Definition is_zitadel_sa (s : val) : result bool :=
  andR (has_kind "ServiceAccount" s) (n <- get s "name" ;; Ok (py_eq n (VStr ZITADEL_SA))).
Definition judge_binding (b : val) : result (list string) :=
  kind <- get b "kind" ;;
  if negb (in_tuple kind ["RoleBinding"; "ClusterRoleBinding"]) then Ok [] else
  subjects <- get_list b "subjects" ;;
  hit <- anyM is_zitadel_sa subjects ;;
  if negb hit then Ok [] else
  k <- item b "kind" ;; n <- meta_name b ;; r <- item b "roleRef" ;; rk <- item r "kind" ;; rn <- item r "name" ;;
  Ok [cat [py_str k; " "; py_str n; " gives the ServiceAccount "; ZITADEL_SA; " the "; py_str rk; " "; py_str rn;
           ": the Zitadel Deployment runs as that account, so it gets no grant"]].

(** 5. The setup Job mints the PAT from the steps file. *)
Definition no_pat : list string :=
  ["no steps file "; STEPS_CONFIGMAP;
   "/steps.yaml creates FirstInstance.Org.LoginClient with a Pat: nothing mints the first login-client PAT"].
Definition judge_steps (docs : list val) : result (list string) :=
  steps <- of_kind "ConfigMap" (is_name STEPS_CONFIGMAP) docs ;;
  match steps with
  | [] => Ok [cat no_pat]
  | m :: _ =>
      data <- get_dict m "data" ;; x <- get data "steps.yaml" ;; text <- as_str (por x (VStr "")) ;;
      y <- yaml_load text ;; fi <- get_dict (por y (VDict [])) "FirstInstance" ;;
      org <- get_dict fi "Org" ;; lc <- get_dict org "LoginClient" ;;
      machine <- get_truthy org "Machine" ;; pat <- get_truthy lc "Pat" ;;
      Ok (when machine ["the steps file of "; STEPS_CONFIGMAP;
            " creates FirstInstance.Org.Machine: the platform-operator creates iam-admin and mints its PAT (gibson#794)"]
          ++ when (negb pat) no_pat)
  end.

(** [args[i] == "--steps" and args[i + 1] == path] for some [i] *)
Fixpoint passes_steps (args : val) (path : string) (i : nat) (l : list val) : result bool :=
  match l with
  | [] => Ok false
  | a :: l =>
      if py_eq a (VStr "--steps") && nonempty l
      then x <- index args (S i) ;; if py_eq x (VStr path) then Ok true else passes_steps args path (S i) l
      else passes_steps args path (S i) l
  end.

(** The setup container: it passes the mounted steps file, and Zitadel can
    write the PAT. *)
Definition judge_setup_container (vols : list (val * val)) (sc : val) : result (list string) :=
  args <- or_empty sc "args" ;;
  ms <- get_default sc "volumeMounts" (VList []) ;; l <- py_iter ms ;;
  mounts <- by_name (λ m, item m "mountPath") l ;;
  steps_vol <- filterM (λ nv, cm <- get_dict nv.2 "configMap" ;; n <- get cm "name" ;;
                              Ok (py_eq n (VStr STEPS_CONFIGMAP))) (vdict_items vols) ;;
  passes <- match steps_vol with
            | [] => Ok false
            | (n, _) :: _ =>
                al <- py_iter args ;;
                passes_steps args (cat [py_str (default (VStr "") (vdict_get n mounts)); "/steps.yaml"]) 0 al
            end ;;
  Ok (when (negb passes) ["the container "; SETUP_CONTAINER; " does not pass the mounted steps file of "; STEPS_CONFIGMAP;
                          " with --steps: Zitadel creates no login client"]
      ++ when (negb (existsb (py_eq (VStr "/login-client")) (vdict_items mounts).*2))
           ["the container "; SETUP_CONTAINER; " mounts nothing at /login-client: Zitadel cannot write the login-client PAT there"]).

(** ** The store sidecar *)

(** The names of the Secrets that the env of a container reads. *)
Definition env_secrets (c : val) : result (list val) :=
  env <- get_default c "env" (VList []) ;; l <- py_iter env ;;
  flatM (λ e,
    from <- get_dict e "valueFrom" ;; b <- get_truthy from "secretKeyRef" ;;
    if (b : bool) then v <- item e "valueFrom" ;; r <- item v "secretKeyRef" ;; n <- item r "name" ;; set_of [n]
    else Ok []) l.

(** The uid of a container: a zero counts as unset. *)
Definition uid (spec c : val) : result val :=
  sc <- get_dict c "securityContext" ;; u <- get sc "runAsUser" ;;
  if truthy u then Ok u else p <- get_dict spec "securityContext" ;; get p "runAsUser".

Definition judge_uid (spec store : val) (sc : option val) : result (list string) :=
  match sc with
  | None => Ok []
  | Some sc =>
      a <- uid spec store ;; b <- uid spec sc ;;
      Ok (when (negb (py_eq a b))
            ["the container "; STORE_CONTAINER; " runs as user "; py_str a; ", the container "; SETUP_CONTAINER; " as "; py_str b;
             ": Zitadel writes the PAT readable by its owner only"])
  end.

Definition judge_store (spec : val) (sc : option val) (store : val) : result (list string) :=
  s <- script_of store ;;
  restart <- get store "restartPolicy" ;;
  reads <- (if contains "/login-client/pat" s then
              ms <- get_default store "volumeMounts" (VList []) ;; l <- py_iter ms ;;
              paths <- mapR (λ m, item m "mountPath") l ;; Ok (existsb (py_eq (VStr "/login-client")) paths)
            else Ok false) ;;
  named <- env_secrets store ;;
  u <- judge_uid spec store sc ;;
  Ok (when (negb (py_eq restart (VStr "Always")))
        ["the init container "; STORE_CONTAINER;
         " must be a native sidecar (restartPolicy Always): it learns the end of the setup run from SIGTERM"]
      ++ when (negb (contains "trap finish TERM" s))
           ["the sidecar "; STORE_CONTAINER; " does not trap SIGTERM: it never checks the end of the setup run"]
      ++ when (negb (contains "/v1/secret/metadata/$KEY" s && contains "exit 1" s))
           ["the sidecar "; STORE_CONTAINER;
            " does not check the OpenBao metadata of the key when no PAT was minted: a lost first PAT passes as success"]
      ++ when (negb (contains (cat ["KEY="; LOGIN_KEY]) s && contains "/v1/secret/data/$KEY" s))
           ["the container "; STORE_CONTAINER; " does not write secret/data/"; LOGIN_KEY]
      ++ when (negb reads)
           ["the container "; STORE_CONTAINER; " does not read /login-client/pat from the volume that Zitadel writes"]
      ++ when (negb (set_eq named [STORE_AUTH_HOLDER]))
           ["the container "; STORE_CONTAINER; " must read exactly one Secret, the one that holds its OpenBao token (";
            str_of_int (Z.of_nat (length (dedup_vals named))); " named)"]
      ++ u).

Definition judge_sidecar (spec : val) (sc store : option val) : result (list string) :=
  match store with
  | None => Ok [cat ["the Job "; SETUP_JOB; " has no init container "; STORE_CONTAINER;
                     ": the minted login-client PAT reaches no store"]]
  | Some store => judge_store spec sc store
  end.

(** ** OpenBao: the token, the policy and the network *)

Definition openbao_sets (docs : list val) : result (list val) :=
  filterM (λ d, andR (has_kind "StatefulSet" d)
                     (l <- template_labels d ;; c <- get l COMPONENT ;; Ok (py_eq c (VStr "openbao")))) docs.

Definition mints (bao : list val) : result bool :=
  anyM (λ b, cs <- containers_of b ;;
             anyM (λ c, s <- script_of c ;; Ok (contains (cat [STORE_AUTH_HOLDER; ":"; STORE_POLICY]) s)) cs) bao.

(** The policy text of one script: from the call that writes it up to its
    [|| return 1], or all but the last character. *)
Definition policy_of (t : string) : option string :=
  let call := cat ["vault_write_policy "; String dquote ("$tok" +:+ String dquote " "); STORE_POLICY; " "] in
  '(_, b) ← split1 call t;
  let r := call +:+ b in
  Some (match split1 "|| return 1" r with
        | Some (p, _) => p
        | None => str_slice 0 (String.length r - 1) r
        end).
(** The policy of the last script that writes one. *)
Definition last_policy (bao : list val) : result (option string) :=
  foldM (λ pol b, cs <- containers_of b ;;
    foldM (λ pol c, t <- script_of c ;;
                    Ok (match policy_of t with Some p => Some p | None => pol end)) pol cs) None bao.

Definition policy_line (path caps : string) : string :=
  cat ["path "; String dquote (path +:+ String dquote ""); " { capabilities = ["; caps; "] }"].
Definition quote (s : string) : string := String dquote (s +:+ String dquote "").
Definition want : list string :=
  [policy_line (cat ["secret/data/"; LOGIN_KEY]) (cat [quote "create"; ", "; quote "update"]);
   policy_line (cat ["secret/metadata/"; LOGIN_KEY]) (quote "read")].
Definition policy_paths (pol : string) : list string :=
  map (λ ln, strip (rstrip_char squote (strip ln)))
    (List.filter (λ ln, startswith (strip ln) "path ") (splitlines pol)).
Definition judge_policy (pol : option string) : list string :=
  match pol with
  | None => [cat ["openbao-auto-init writes no policy "; STORE_POLICY]]
  | Some p =>
      let paths := policy_paths p in
      when (negb (bool_decide (sorted_strs paths = sorted_strs want)))
        ["the policy "; STORE_POLICY; " must be exactly: write "; LOGIN_KEY;
         " and read its metadata, never its value; it is "; str_of_strs paths]
  end.

(** 6. The network half: the setup pod reaches OpenBao on 8200. *)
Definition judge_network (docs bao : list val) (job : val) : result (list string) :=
  rules <- Cilium.rules docs (VStr NS) ;;
  l <- template_labels job ;;
  src <- Cilium.endpoint (VStr NS) l ;;
  dst <- mapR (λ b, l <- template_labels b ;; Cilium.endpoint (VStr NS) l) bao ;;
  ok <- match dst with [] => Ok false | d :: _ => Cilium.reaches rules src d (Some 8200%Z) end ;;
  Ok (when (negb ok) ["the network policy does not let the Job "; SETUP_JOB;
                      " reach OpenBao on 8200: the login-client PAT reaches no store"]).

(** 7. The escrow hook stays deleted. *)
Definition is_escrow (d : val) : result bool :=
  m <- item d "metadata" ;; n <- get m "name" ;;
  orR (Ok (py_eq n (VStr ESCROW)))
      (s <- get_dict d "spec" ;; t <- get_default s "template" (VDict []) ;;
       m <- get_default t "metadata" (VDict []) ;; l <- get_dict m "labels" ;; c <- get l COMPONENT ;;
       Ok (py_eq c (VStr ESCROW))).
Definition judge_escrow (docs : list val) : result (list string) :=
  found <- firstM (λ d, b <- is_escrow d ;; Ok (if b : bool then Some d else None)) docs ;;
  match found with
  | None => Ok []
  | Some d =>
      k <- item d "kind" ;;
      Ok [cat [py_str k; " iam-admin-pat-escrow renders: the copy hook is a second writer of the token Secrets (charts#407)"]]
  end.

(** ** The check *)

(** What the setup Job, its sidecar and OpenBao must be. *)
Definition judge_setup (docs : list val) (job : val) : result (list string) :=
  spec <- pod_spec job ;;
  cs <- get_default spec "containers" (VList []) ;; cl <- py_iter cs ;; containers <- by_name Ok cl ;;
  ics <- get_list spec "initContainers" ;; inits <- by_name Ok ics ;;
  vs <- get_default spec "volumes" (VList []) ;; vl <- py_iter vs ;; vols <- by_name Ok vl ;;
  let sc := vdict_get (VStr SETUP_CONTAINER) containers in
  a <- match sc with Some c => judge_setup_container vols c | None => Ok [] end ;;
  b <- judge_sidecar spec sc (vdict_get (VStr STORE_CONTAINER) inits) ;;
  bao <- openbao_sets docs ;;
  minted <- mints bao ;;
  pol <- last_policy bao ;;
  n <- judge_network docs bao job ;;
  e <- judge_escrow docs ;;
  Ok (a ++ b
      ++ when (negb minted) ["openbao-auto-init does not mint "; STORE_AUTH_HOLDER; " with policy "; STORE_POLICY;
                             " (JOB_TOKENS): the store container has no token"]
      ++ judge_policy pol ++ n ++ e).

Definition check (docs : list val) : result (list string) :=
  entries <- flatM (judge_entry docs) ZITADEL_ENTRIES ;;
  iam <- judge_iam_admin docs ;;
  setup <- setup_jobs docs ;;
  waves <- judge_waves docs setup ;;
  config <- judge_config docs ;;
  jobs <- judge_jobs docs ;;
  bindings <- flatM judge_binding docs ;;
  steps <- judge_steps docs ;;
  let head := entries ++ iam ++ waves ++ config ++ jobs ++ bindings ++ steps in
  match setup with
  | [] => Ok (head ++ [cat ["no Job "; SETUP_JOB; " renders"]])
  | job :: _ => rest <- judge_setup docs job ;; Ok (head ++ rest)
  end.

(** [main], on the documents of the render that are not empty *)
Definition main (docs : list val) : result Z :=
  bad <- check (List.filter truthy docs) ;; Ok (if nonempty bad then 1%Z else 0%Z).
End check.

(** ** What the guard promises *)

Lemma when_nil b m : when b m = [] ↔ b = false.
Proof. by destruct b. Qed.

Lemma of_kind_elem k test docs l d :
  of_kind k test docs = Ok l → d ∈ l ↔ d ∈ docs ∧ has_kind k d = Ok true ∧ ∃ n, meta_name d = Ok n ∧ test n = Ok true.
Proof.
  intros H. rewrite (filterM_Ok _ _ _ H), andR_true. split.
  - intros (? & ? & (n & ? & ?)%bind_Ok). eauto.
  - intros (? & ? & n & E & ?). split_and!; [done..|]. by rewrite E.
Qed.

Lemma es_for_target_Some docs target es :
  es_for_target docs target = Ok (Some es) → es ∈ docs ∧ targets target es = Ok true.
Proof.
  intros (d & Hd & H)%firstM_Some. apply bind_Ok in H as ([] & Hit & [= ->]). done.
Qed.
Lemma es_for_target_None docs target :
  es_for_target docs target = Ok None → ∀ d, d ∈ docs → targets target d = Ok false.
Proof.
  intros H d Hd. pose proof (proj1 (firstM_None _ _) H d Hd) as Hn. clear H. rename Hn into H.
  by apply bind_Ok in H as ([] & Hit & [=]).
Qed.

Section clean.
Context (yaml_load : string → result val).

(** The parts of a clean check. *)
Lemma check_nil docs :
  check yaml_load docs = Ok [] →
  flatM (judge_entry docs) ZITADEL_ENTRIES = Ok [] ∧ judge_iam_admin docs = Ok [] ∧
  judge_jobs docs = Ok [] ∧ flatM judge_binding docs = Ok [] ∧ judge_config yaml_load docs = Ok [] ∧
  ∃ job setup, setup_jobs docs = Ok (job :: setup) ∧
    judge_waves docs (job :: setup) = Ok [] ∧ judge_setup docs job = Ok [].
Proof.
  unfold check. intros H. apply bind_Ok in H as (entries & E1 & H). apply bind_Ok in H as (iam & E2 & H).
  apply bind_Ok in H as (setup & E3 & H). apply bind_Ok in H as (waves & E4 & H).
  apply bind_Ok in H as (config & E5 & H). apply bind_Ok in H as (jobs & E6 & H).
  apply bind_Ok in H as (bindings & E7 & H). apply bind_Ok in H as (steps & E8 & H).
  destruct setup as [|job setup].
  - injection H as H. by apply app_eq_nil in H as [_ [=]].
  - apply bind_Ok in H as (rest & E9 & H). injection H as H.
    apply app_eq_nil in H as [H ->]. apply app_eq_nil in H as [-> H]. apply app_eq_nil in H as [-> H].
    apply app_eq_nil in H as [-> H]. apply app_eq_nil in H as [-> H]. apply app_eq_nil in H as [-> H].
    apply app_eq_nil in H as [-> ->]. split_and!; [done..|]. by exists job, setup.
Qed.

(** The ExternalSecret [es] is the Owner of its Secret and reads each property
    of [e] from its store key. *)
Definition owns (es : val) (e : entry) : Prop :=
  fld (fld (fld es "spec") "target") "creationPolicy" = VStr "Owner" ∧
  ∀ p, p ∈ e_props e → ∃ l x, py_iter (fld (fld es "spec") "data") = Ok l ∧ x ∈ l ∧
    fld (fld x "remoteRef") "key" = VStr (e_store_key e) ∧ fld (fld x "remoteRef") "property" = VStr p.

Lemma get_default_list v k w l : get_default v k (VList []) = Ok w → py_iter w = Ok l → l ≠ [] → w = fld v k.
Proof.
  unfold get_default, fld. destruct v; try done. destruct (alist_get k d) as [x|] eqn:E; cbn; intros [= <-]; [done|].
  by intros [= <-].
Qed.

Lemma remote_refs_elem es refs key property :
  remote_refs es = Ok refs → reads_property refs key property = true →
  ∃ l x, py_iter (fld (fld es "spec") "data") = Ok l ∧ x ∈ l ∧
    fld (fld x "remoteRef") "key" = VStr key ∧ fld (fld x "remoteRef") "property" = VStr property.
Proof.
  unfold remote_refs. intros H Hr. apply bind_Ok in H as (s & ->%item_fld & H).
  apply bind_Ok in H as (data & Hd & H). apply bind_Ok in H as (l & Hl & H).
  unfold reads_property in Hr. apply existsb_elem_of in Hr as ([k p] & Hin & [Hk Hp]%andb_true_iff).
  apply py_eq_str_r in Hk. apply py_eq_str_r in Hp. cbn [fst snd] in *. subst k p.
  apply (flatM_elem _ _ _ H) in Hin as (x & r & Hx & Hxr & Hin).
  assert (l ≠ []) as Hne by (intros ->; by apply elem_of_nil in Hx).
  rewrite (get_default_list _ _ _ _ Hd Hl Hne) in Hl. exists l, x. split; [done|]. split; [done|].
  apply bind_Ok in Hxr as (r1 & ->%item_fld & Hxr). apply bind_Ok in Hxr as (k & ->%item_fld & Hxr).
  apply bind_Ok in Hxr as (r2 & ->%item_fld & Hxr). apply bind_Ok in Hxr as (p & ->%get_Ok & Hxr).
  case_match; [|done]. injection Hxr as <-. apply list_elem_of_singleton in Hin. by injection Hin as <- <-.
Qed.

Lemma judge_entry_nil docs e :
  judge_entry docs e = Ok [] → ∃ es, es ∈ docs ∧ targets (e_target e) es = Ok true ∧ owns es e.
Proof.
  unfold judge_entry. intros H. apply bind_Ok in H as ([es|] & Hf & H); [|done].
  apply es_for_target_Some in Hf as [Hin Ht]. exists es. split; [done|]. split; [done|].
  apply bind_Ok in H as (s & ->%item_fld & H). apply bind_Ok in H as (t & ->%item_fld & H).
  apply bind_Ok in H as (policy & ->%get_Ok & H). apply bind_Ok in H as (refs & Hrefs & H).
  apply bind_Ok in H as (template & _ & H). apply bind_Ok in H as (tmpl & _ & H).
  apply bind_Ok in H as (missing & _ & H). injection H as H.
  apply app_eq_nil in H as [H1 H]. apply app_eq_nil in H as [H2 _].
  apply when_nil, negb_false_iff, py_eq_str_r in H1. split; [done|]. intros p Hp.
  eapply remote_refs_elem; [done|]. destruct (reads_property refs (e_store_key e) p) eqn:E; [done|exfalso].
  apply map_eq_nil in H2. apply (not_elem_of_nil p). rewrite <- H2.
  apply list_elem_of_In, filter_In. split; [by apply list_elem_of_In|]. by rewrite E.
Qed.

(** When the check is clean, each of the two token Secrets is the target
    of an ExternalSecret of the render that is its Owner and reads each
    property from the key of OpenBao that holds it, and no ExternalSecret
    writes the deleted Secret iam-admin. *)
Theorem clean_tokens_have_an_owner docs e :
  check yaml_load docs = Ok [] → e ∈ ZITADEL_ENTRIES →
  (∃ es, es ∈ docs ∧ targets (e_target e) es = Ok true ∧ owns es e) ∧
  ∀ d, d ∈ docs → targets "iam-admin" d = Ok false.
Proof.
  intros (H1 & H2 & _)%check_nil He. rewrite flatM_nil in H1. split; [by apply judge_entry_nil, H1|].
  apply es_for_target_None. unfold judge_iam_admin in H2. apply bind_Ok in H2 as ([d|] & E & H2); [done|exact E].
Qed.

(** *** No grant and no writer beside the ExternalSecrets *)

Lemma judge_container_nil j c : judge_container j c = Ok [] → ∃ s, script_of c = Ok s ∧ contains "kubectl" s = false.
Proof.
  unfold judge_container. intros (s & Hs & H)%bind_Ok. exists s. split; [done|].
  destruct (contains "kubectl" s); [|done]. cbn [negb] in H. by ok_inv.
Qed.

Lemma judge_binding_nil b :
  judge_binding b = Ok [] → in_tuple (fld b "kind") ["RoleBinding"; "ClusterRoleBinding"] = true →
  ∃ l, get_list b "subjects" = Ok l ∧ ∀ s, s ∈ l → is_zitadel_sa s = Ok false.
Proof.
  unfold judge_binding. intros (kind & ->%get_Ok & H)%bind_Ok Hk. rewrite Hk in H. cbn [negb] in H.
  apply bind_Ok in H as (l & Hl & H). apply bind_Ok in H as (hit & Hh & H). exists l. split; [done|].
  destruct hit; cbn [negb] in H; [by ok_inv|]. by rewrite anyM_false in Hh.
Qed.

(** When the check is clean, no role is bound to the Zitadel
    ServiceAccount, under which the internet-facing Deployment runs, and no
    container of a Zitadel Job runs kubectl, so neither writes a Secret. *)
Theorem clean_zitadel_has_no_grant docs d :
  check yaml_load docs = Ok [] → d ∈ docs →
  (in_tuple (fld d "kind") ["RoleBinding"; "ClusterRoleBinding"] = true →
   ∃ l, get_list d "subjects" = Ok l ∧ ∀ s, s ∈ l → is_zitadel_sa s = Ok false) ∧
  (has_kind "Job" d = Ok true → (∃ n, meta_name d = Ok n ∧ str_in "zitadel" n = Ok true) →
   ∃ cs, containers_of d = Ok cs ∧ ∀ c, c ∈ cs → ∃ s, script_of c = Ok s ∧ contains "kubectl" s = false).
Proof.
  intros (_ & _ & H3 & H4 & _)%check_nil Hd. rewrite flatM_nil in H4. split.
  - by apply judge_binding_nil, H4.
  - intros Hk Hn. unfold judge_jobs in H3. apply bind_Ok in H3 as (jobs & Hj & H3). rewrite flatM_nil in H3.
    assert (d ∈ jobs) as Hin by (by apply (of_kind_elem _ _ _ _ _ Hj)).
    specialize (H3 _ Hin). apply bind_Ok in H3 as (cs & Hcs & H3). exists cs. split; [done|].
    intros c Hc. rewrite flatM_nil in H3. by apply (judge_container_nil d), H3.
Qed.

(** *** The path of the first PAT *)

Lemma judge_setup_nil docs job :
  judge_setup docs job = Ok [] →
  ∃ bao pol, openbao_sets docs = Ok bao ∧ mints bao = Ok true ∧ last_policy bao = Ok (Some pol) ∧
    policy_paths pol ≡ₚ want ∧ judge_network docs bao job = Ok [].
Proof.
  unfold judge_setup. intros H.
  repeat match type of H with rbind _ _ = Ok _ => apply bind_Ok in H as (? & ? & H) end.
  injection H as H. apply app_eq_nil in H as [_ H]. apply app_eq_nil in H as [_ H].
  apply app_eq_nil in H as [Hm H]. apply app_eq_nil in H as [Hp H]. apply app_eq_nil in H as [-> ->].
  apply when_nil, negb_false_iff in Hm. subst.
  match goal with E : last_policy _ = Ok ?o |- _ => destruct o as [pol|] end; [|done].
  eexists _, pol. split_and!; [done..| |done].
  apply when_nil, negb_false_iff, bool_decide_eq_true in Hp.
  rewrite <- (merge_sort_Permutation String.le (policy_paths pol)), <- (merge_sort_Permutation String.le want).
  unfold sorted_strs in Hp. by rewrite Hp.
Qed.

(** When the check is clean, the first login-client PAT reaches its
    store.  There is a setup Job, and the ExternalSecret of login-client comes
    after it and before wave 0; an OpenBao pod mints the token of the store
    container with a policy that is exactly to write the key and to read its
    metadata; and the network policies allow the flow from the setup pod to
    OpenBao on 8200. *)
Theorem clean_first_pat_reaches_openbao docs :
  check yaml_load docs = Ok [] →
  ∃ job es sw ew bao pol rules l src l' dst,
    job ∈ docs ∧ meta_name job = Ok (VStr SETUP_JOB) ∧
    es ∈ docs ∧ targets "login-client" es = Ok true ∧
    wave job = Ok sw ∧ wave es = Ok ew ∧ (sw < ew < 0)%Z ∧
    openbao_sets docs = Ok bao ∧ mints bao = Ok true ∧
    last_policy bao = Ok (Some pol) ∧ policy_paths pol ≡ₚ want ∧
    Cilium.rules docs (VStr NS) = Ok rules ∧
    template_labels job = Ok l ∧ Cilium.endpoint (VStr NS) l = Ok src ∧
    (∃ b, b ∈ bao ∧ template_labels b = Ok l' ∧ Cilium.endpoint (VStr NS) l' = Ok dst) ∧
    Cilium.reaches rules src dst (Some 8200%Z) = Ok true.
Proof.
  intros (H1 & _ & _ & _ & _ & job & setup & Hs & Hw & Hset)%check_nil.
  apply judge_setup_nil in Hset as (bao & pol & Hbao & Hm & Hpol & Hp & Hn).
  rewrite flatM_nil in H1. specialize (H1 (Entry "login-client" "pat" "gibson-zitadel-login-client-pat" ["pat"])).
  specialize (H1 ltac:(right; left)). unfold judge_entry in H1. apply bind_Ok in H1 as ([es|] & Hes & H1); [clear H1|done].
  unfold judge_waves in Hw. cbn [e_target] in Hes. rewrite Hes in Hw. cbn [rbind] in Hw.
  apply bind_Ok in Hw as (a & Ha & Hw). apply bind_Ok in Hw as (pat & _ & Hw). apply bind_Ok in Hw as (ops & _ & Hw).
  apply bind_Ok in Hw as (b & _ & Hw). injection Hw as Hw. apply app_eq_nil in Hw as [-> _].
  apply bind_Ok in Ha as (sw & Hsw & Ha). apply bind_Ok in Ha as (ew & Hew & Ha). injection Ha as Ha.
  apply when_nil, negb_false_iff, andb_true_iff in Ha as [Ha1%Z.ltb_lt Ha2%Z.ltb_lt].
  apply es_for_target_Some in Hes as [Hes Ht].
  assert (job ∈ docs ∧ meta_name job = Ok (VStr SETUP_JOB)) as [Hjob Hname].
  { apply (of_kind_elem _ _ _ _ job) in Hs as [Hs _]. destruct Hs as (? & _ & n & Hn' & Hx); [left|].
    injection Hx as Hx. apply py_eq_str_r in Hx as ->. done. }
  unfold judge_network in Hn. apply bind_Ok in Hn as (rules & Hr & Hn). apply bind_Ok in Hn as (l & Hl & Hn).
  apply bind_Ok in Hn as (src & Hsrc & Hn). apply bind_Ok in Hn as (dst & Hdst & Hn).
  apply bind_Ok in Hn as (ok & Hok & Hn). injection Hn as Hn. apply when_nil, negb_false_iff in Hn as ->.
  destruct dst as [|d dst]; [done|].
  destruct (mapR_elem _ _ _ d Hdst ltac:(left)) as (b' & Hb & Hd). apply bind_Ok in Hd as (l' & Hl' & Hd).
  exists job, es, sw, ew, bao, pol, rules, l, src, l', d. split_and!; try done. by exists b'.
Qed.
End clean.

(** *** A clean render *)

Definition meta (name : string) (wave : string) : string * val :=
  ("metadata", VDict [("name", VStr name); ("annotations", str_dict [("argocd.argoproj.io/sync-wave", wave)])]).
Definition token_secret (name target key wave : string) (props : list string) : val :=
  VDict [("kind", VStr "ExternalSecret"); meta name wave;
    ("spec", VDict [("target", VDict [("name", VStr target); ("creationPolicy", VStr "Owner");
                                      ("template", VDict [("data", str_dict (map (λ p, (p, p)) props))])]);
                    ("data", VList (map (λ p, VDict [("remoteRef", str_dict [("key", key); ("property", p)])]) props))])].
Definition workload (kind name wave : string) (labels : list (string * string)) (spec : list (string * val)) : val :=
  VDict [("kind", VStr kind); meta name wave;
    ("spec", VDict [("template", VDict [("metadata", VDict [("labels", str_dict labels)]); ("spec", VDict spec)])])].
Definition mount (name path : string) : val := str_dict [("name", name); ("mountPath", path)].
Definition store_script : string :=
  cat ["KEY="; LOGIN_KEY; "; trap finish TERM; put /v1/secret/data/$KEY /login-client/pat || get /v1/secret/metadata/$KEY || exit 1"].
Definition setup_job : val :=
  workload "Job" SETUP_JOB "-3" [("app", "setup")]
    [("containers", VList [VDict [("name", VStr SETUP_CONTAINER); ("args", strs ["--steps"; "/steps/steps.yaml"]);
                                  ("volumeMounts", VList [mount "steps" "/steps"; mount "pat" "/login-client"])]]);
     ("initContainers", VList [VDict [("name", VStr STORE_CONTAINER); ("restartPolicy", VStr "Always");
        ("args", strs [store_script]); ("volumeMounts", VList [mount "pat" "/login-client"]);
        ("env", VList [VDict [("name", VStr "T"); ("valueFrom",
           VDict [("secretKeyRef", str_dict [("name", STORE_AUTH_HOLDER); ("key", "token")])])]])]]);
     ("volumes", VList [VDict [("name", VStr "steps"); ("configMap", str_dict [("name", STEPS_CONFIGMAP)])];
                        VDict [("name", VStr "pat"); ("emptyDir", VDict [])]])].
Definition openbao : val :=
  workload "StatefulSet" "openbao" "-9" [(COMPONENT, "openbao")]
    [("containers", VList [VDict [("name", VStr "bao"); ("args", strs [cat
       ["JOB_TOKENS="; STORE_AUTH_HOLDER; ":"; STORE_POLICY; newline; "vault_write_policy "; quote "$tok"; " "; STORE_POLICY; " '";
        newline; str_join newline want; "' || return 1"]])]])].
Definition selected (app : string) : val := VDict [("matchLabels", str_dict [("app", app)])].
Definition flow_policy : val :=
  VDict [("kind", VStr "CiliumNetworkPolicy"); meta "p" "-20";
    ("specs", VList [VDict [("endpointSelector", selected "setup");
                            ("egress", VList [VDict [("toEntities", strs ["cluster"])]])];
                     VDict [("endpointSelector", VDict [("matchLabels", str_dict [(COMPONENT, "openbao")])]);
                            ("ingress", VList [VDict [("fromEndpoints", VList [selected "setup"])]])]])].
Definition steps_map : val :=
  VDict [("kind", VStr "ConfigMap"); meta STEPS_CONFIGMAP "-4"; ("data", str_dict [("steps.yaml", "FirstInstance")])].
(** The YAML of the steps file. *)
Definition fixture_yaml (text : string) : result val :=
  Ok (VDict [("FirstInstance", VDict [("Org", VDict [("LoginClient", VDict [("Pat", str_dict [("ExpirationDate", "2029")])])])])]).

Definition clean_docs : list val :=
  [token_secret "login-client" "login-client" LOGIN_KEY "-2" ["pat"];
   token_secret "iam-admin-pat" "iam-admin-pat" "gibson-zitadel-iam-admin-pat" "1" ["pat"; "userId"];
   workload "Deployment" "gibson-platform-operator" "0" [("app", "op")] [("containers", VList [])];
   steps_map; setup_job; openbao; flow_policy].

Lemma clean_docs_check : check fixture_yaml clean_docs = Ok [].
Proof. vm_compute. reflexivity. Qed.

Lemma clean_tokens_have_an_owner_witness :
  check fixture_yaml clean_docs = Ok [] ∧
  ∃ es, es ∈ clean_docs ∧ targets "login-client" es = Ok true ∧
        owns es (Entry "login-client" "pat" "gibson-zitadel-login-client-pat" ["pat"]).
Proof.
  split; [exact clean_docs_check|].
  apply (clean_tokens_have_an_owner fixture_yaml clean_docs (Entry "login-client" "pat" "gibson-zitadel-login-client-pat" ["pat"])
           clean_docs_check). right. left.
Defined.

Lemma clean_zitadel_has_no_grant_witness :
  ∃ cs, containers_of setup_job = Ok cs ∧ ∀ c, c ∈ cs → ∃ s, script_of c = Ok s ∧ contains "kubectl" s = false.
Proof.
  apply (clean_zitadel_has_no_grant fixture_yaml clean_docs setup_job clean_docs_check).
  - do 4 right. left.
  - vm_compute. reflexivity.
  - exists (VStr SETUP_JOB). split; vm_compute; reflexivity.
Defined.

Lemma clean_first_pat_reaches_openbao_witness :
  ∃ job, job ∈ clean_docs ∧ meta_name job = Ok (VStr SETUP_JOB).
Proof.
  destruct (clean_first_pat_reaches_openbao fixture_yaml clean_docs clean_docs_check)
    as (job & es & sw & ew & bao & pol & rules & l & src & l' & dst & Hj & Hn & _).
  exists job. split; [exact Hj|exact Hn].
Defined.

(** The check reads the first ExternalSecret of a Secret only: a second writer
    of the same Secret, of any policy and key, passes. *)
Fact second_writer_is_not_seen :
  check fixture_yaml (clean_docs ++ [token_secret "rogue" "login-client" "another-key" "-2" ["pat"]]) = Ok [].
Proof. vm_compute. reflexivity. Qed.
