(* ===== verification/RegexParse.v ===== *)
(** * The text of a pattern of Python's [re]

    A guard that reads patterns from a config compiles them at run time.  The
    parser covers literals, escapes, classes, groups, alternation, anchors, the
    quantifiers with their lazy forms, and a leading [(?i)].  Lookaround, back
    references and named groups are outside it: they give [ReError], as a text
    that is no pattern does.  The patterns of [fnmatch] are at the end. *)
From S2P Require Import Prelude PyStr Regex.
From Stdlib Require Import Ascii.

Definition swap_case (c : ascii) : ascii :=
  let n := nat_of_ascii c in
  if (97 <=? n) && (n <=? 122) then ascii_of_nat (n - 32)
  else if (65 <=? n) && (n <=? 90) then ascii_of_nat (n + 32) else c.
(** A class of characters under the ignore-case flag. *)
Definition ignoring (ci : bool) (f : ascii → bool) : ascii → bool :=
  if ci then λ c, f c || f (swap_case c) else f.

Definition is_alnum (c : ascii) : bool := is_alpha c || is_digit c.

(** The class of an escape, also inside brackets. *)
Definition escape_class (c : ascii) : option (ascii → bool) :=
  if Ascii.eqb c "d" then Some is_digit
  else if Ascii.eqb c "D" then Some (λ d, negb (is_digit d))
  else if Ascii.eqb c "w" then Some is_word
  else if Ascii.eqb c "W" then Some (λ d, negb (is_word d))
  else if Ascii.eqb c "s" then Some is_space
  else if Ascii.eqb c "S" then Some (λ d, negb (is_space d))
  else if Ascii.eqb c "n" then Some is_newline
  else if Ascii.eqb c "t" then Some (Ascii.eqb "009")
  else if is_alnum c then None
  else Some (Ascii.eqb c).

Definition in_range (a b c : ascii) : bool :=
  (nat_of_ascii a <=? nat_of_ascii c) && (nat_of_ascii c <=? nat_of_ascii b).

(** The items of a class after its opening bracket, up to the closing one. *)
Fixpoint parse_items (n : nat) (s : string) : option ((ascii → bool) * string) :=
  match n, s with
  | S _, String "]" s => Some (λ _, false, s)
  | S n, String "\" (String c s) =>
      f ← escape_class c; '(g, s) ← parse_items n s; Some (λ d, f d || g d, s)
  | S n, String a (String "-" (String b s')) =>
      if Ascii.eqb b "]" then '(g, s) ← parse_items n (String b s'); Some (λ d, Ascii.eqb a d || Ascii.eqb "-" d || g d, s)
      else if Ascii.eqb b "\" then None
      else '(g, s) ← parse_items n s'; Some (λ d, in_range a b d || g d, s)
  | S n, String a s => '(g, s) ← parse_items n s; Some (λ d, Ascii.eqb a d || g d, s)
  | _, _ => None
  end.
Definition parse_class (n : nat) (ci : bool) (s : string) : option (regex * string) :=
  match s with
  | String "^" (String "]" _) | String "]" _ => None
  | String "^" s => '(f, s) ← parse_items n s; Some (RChr (λ c, negb (ignoring ci f c)), s)
  | s => '(f, s) ← parse_items n s; Some (RChr (ignoring ci f), s)
  end.

(** The digits at the start of a text. *)
Fixpoint digits (s : string) : string * string :=
  match s with
  | String c s' => if is_digit c then let '(a, b) := digits s' in (String c a, b) else ("", s)
  | "" => ("", s)
  end.
Definition parse_nat (s : string) : option (nat * string) :=
  let '(a, b) := digits s in z ← int_of_digits a; Some (Z.to_nat z, b).

(** At most [n] more copies. *)
Fixpoint up_to (n : nat) (a : regex) : regex :=
  match n with O => REps | S n => ROpt (RCat a (up_to n a)) end.

(** The quantifier after an atom. *)
Definition quantified (a : regex) (s : string) : option (regex * string) :=
  match s with
  | String "*" (String "?" s) => Some (RLazy a, s)
  | String "+" (String "?" s) => Some (RCat a (RLazy a), s)
  | String "?" (String "?" s) => Some (RAlt REps a, s)
  | String "*" s => Some (RStar a, s)
  | String "+" s => Some (RPlus a, s)
  | String "?" s => Some (ROpt a, s)
  | String "{" s =>
      '(n, s) ← parse_nat s;
      match s with
      | String "}" s => Some (RRep n a, s)
      | String "," (String "}" s) => Some (RCat (RRep n a) (RStar a), s)
      | String "," s =>
          '(m, s) ← parse_nat s;
          match s with String "}" s => if n <=? m then Some (RCat (RRep n a) (up_to (m - n) a), s) else None | _ => None end
      | _ => None
      end
  | s => Some (a, s)
  end.
(** No second quantifier may follow. *)
Definition quantifier_ahead (s : string) : bool :=
  match s with String c _ => in_chars "*+?{" c | "" => false end.

Definition literal (ci : bool) (c : ascii) : regex := RChr (ignoring ci (Ascii.eqb c)).

(** The text up to a closing parenthesis or the end: the pattern, the number
    of the next group, and the rest.  Each call takes one step of [n]. *)
Fixpoint parse_alt (n : nat) (ci : bool) (g : nat) (s : string) : option (regex * nat * string) :=
  match n with
  | O => None
  | S n =>
      '(a, g, s) ← parse_seq n ci g s;
      match s with
      | String "|" s => '(b, g, s) ← parse_alt n ci g s; Some (RAlt a b, g, s)
      | _ => Some (a, g, s)
      end
  end
with parse_seq (n : nat) (ci : bool) (g : nat) (s : string) : option (regex * nat * string) :=
  match n with
  | O => None
  | S n =>
      match s with
      | "" | String "|" _ | String ")" _ => Some (REps, g, s)
      | _ =>
          '(a, g, s) ←
            match s with
            | String "(" (String "?" (String ":" s)) =>
                '(a, g, s) ← parse_alt n ci g s;
                match s with String ")" s => Some (a, g, s) | _ => None end
            | String "(" (String "?" _) => None
            | String "(" s =>
                '(a, g', s) ← parse_alt n ci (S g) s;
                match s with String ")" s => Some (RGroup g a, g', s) | _ => None end
            | String "[" s => '(a, s) ← parse_class n ci s; Some (a, g, s)
            | String "." s => Some (RAny, g, s)
            | String "^" s => Some (RBegin, g, s)
            | String "$" s => Some (REnd, g, s)
            | String "\" (String "b" s) => Some (RWordB, g, s)
            | String "\" (String c s) => f ← escape_class c; Some (RChr (ignoring ci f), g, s)
            | String c s => if in_chars "*+?{\" c then None else Some (literal ci c, g, s)
            | "" => None
            end;
          '(a, s) ← quantified a s;
          if quantifier_ahead s then None else
          '(b, g, s) ← parse_seq n ci g s;
          Some (RCat a b, g, s)
      end
  end.

(** [re.compile(s)] *)
Definition parse_regex (s : string) : option regex :=
  let '(ci, s) := match drop_prefix "(?i)" s with Some s => (true, s) | None => (false, s) end in
  '(a, _, s) ← parse_alt (S (S (2 * String.length s))) ci 1 s;
  match s with "" => Some a | _ => None end.

(** [re.fullmatch(pattern, s) is not None] *)
Definition re_fullmatch_text (pattern s : string) : result bool :=
  match parse_regex pattern with
  | Some r => Ok (match re_fullmatch r s with Some _ => true | None => false end)
  | None => Raise ReError
  end.

Example parse_ex1 : re_fullmatch_text "(?i)^(?:PATCH|PUT)$" "pAtch" = Ok true.
Proof. vm_compute. reflexivity. Qed.
Example parse_ex2 : map (re_fullmatch_text "^/(?:v2|v2beta)/users/[^/]+/?$") ["/v2/users/3/"; "/v2/users/3/email"; "/v2beta/users/x"]
  = [Ok true; Ok false; Ok true].
Proof. vm_compute. reflexivity. Qed.
Example parse_ex3 : map (re_fullmatch_text "a{2,3}(b|[c-e0]*?)\.\d+") ["aab.1"; "aaacd0.42"; "a.1"; "aaaab.1"]
  = [Ok true; Ok true; Ok false; Ok false].
Proof. vm_compute. reflexivity. Qed.
Example parse_ex4 : map parse_regex ["a)"; "(a"; "*a"; "a**"; "(?=a)"] = [None; None; None; None; None].
Proof. vm_compute. reflexivity. Qed.
Example parse_ex5 : map (re_fullmatch_text "") [""; "a"] = [Ok true; Ok false].
Proof. vm_compute. reflexivity. Qed.

(** ** [fnmatch.fnmatch] *)

Definition any : regex := RChr (λ _, true).
(** The characters between the brackets of a class, with its ranges *)
Fixpoint class_items (s : string) (c : ascii) : bool :=
  match s with
  | "" => false
  | String a t =>
      match t with
      | String d (String b r) =>
          if Ascii.eqb d "-" then ((nat_of_ascii a <=? nat_of_ascii c) && (nat_of_ascii c <=? nat_of_ascii b)) || class_items r c
          else Ascii.eqb a c || class_items t c
      | _ => Ascii.eqb a c || class_items t c
      end
  end.
(** A class after its open bracket: its test, and the pattern after it. A
    bracket that is the first character of a class does not close it. *)
Definition char_class (s : string) : option ((ascii → bool) * string) :=
  let '(neg, s) := match s with String "!" r => (true, r) | _ => (false, s) end in
  let '(first, s) := match s with String "]" r => ("]", r) | _ => ("", s) end in
  match split1 "]" s with
  | Some (stuff, r) => Some ((λ c, xorb neg (class_items (first +:+ stuff) c)), r)
  | None => None
  end.
Fixpoint translate (n : nat) (pat : string) : list regex :=
  match n, pat with
  | O, _ | _, "" => []
  | S n, String c s =>
      if Ascii.eqb c "*" then RStar any :: translate n s
      else if Ascii.eqb c "?" then any :: translate n s
      else if Ascii.eqb c "[" then
        match char_class s with
        | Some (f, r) => RChr f :: translate n r
        | None => RLit c :: translate n s
        end
      else RLit c :: translate n s
  end.
Definition fnmatch (name pat : string) : bool :=
  bool_decide (is_Some (re_fullmatch (RSeq (translate (String.length pat) pat)) name)).
Example fnmatch_ex : map (fnmatch "files/g/a.conf") ["files/g/*.conf"; "files/*"; "files/?/[!b-z].conf"; "files/g"; "[f]iles/g/[]a].con[ef"; "files/g/[b-z].conf"]
  = [true; true; true; false; false; false].
Proof. vm_compute. reflexivity. Qed.
