(* ===== verification/EdgeRoutes.v ===== *)
(** * scripts/check-edge-zitadel-routes.py: what the Envoy edge sends to Zitadel

    The guard reads the routes of the rendered edge config and plays requests
    against them the way Envoy picks a route: the first match wins.  The text
    of a config map is parsed by [yaml_load], an argument.  A route with a match
    field that the matcher does not know raises [Blind]. *)
From S2P Require Import Prelude PyStr PyVal RegexParse.

Definition ZITADEL_CLUSTERS : list string := ["zitadel_upstream"; "zitadel_login"].
Definition APP_VHOST : string * string := ("public_routes", "app").
Definition API_FAMILIES : list string := ["/auth/v1/"; "/v2/"; "/v2beta/"].
Definition ADMIN_PREFIXES : list string := ["/ui/console"; "/admin/v1/"; "/management/v1/"; "/zitadel."].

(** A request: its method, its path and its headers. *)
Record request := Request { q_method : string; q_path : string; q_headers : list (string * string) }.

Definition MUST_BLOCK : list request :=
  [Request "PUT" "/auth/v1/users/me/username" [];
   Request "PUT" "/auth/v1/users/me/email" [];
   Request "POST" "/auth/v1/users/me/email" [];
   Request "PUT" "/auth/v1/users/me/email/" [];
   Request "POST" "/v2/users/312345678901234567/email" [];
   Request "PUT" "/v2/users/human/312345678901234567" [];
   Request "PATCH" "/v2/users/312345678901234567" [];
   Request "PATCH" "/v2/users/312345678901234567/" [];
   Request "patch" "/v2/users/312345678901234567" [];
   Request "POST" "/v2beta/users/312345678901234567/email" [];
   Request "PUT" "/v2beta/users/312345678901234567" [];
   Request "PUT" "/auth/v1/users/me/e%6Dail" [];
   Request "POST" "/v2/users/312345678901234567" [("x-http-method-override", "PATCH")]].
Definition MUST_ROUTE : list request :=
  [Request "GET" "/auth/v1/users/me" [];
   Request "GET" "/auth/v1/users/me/email" [];
   Request "POST" "/auth/v1/policies/passwords/complexity" [];
   Request "POST" "/v2/users/human" [];
   Request "POST" "/v2/users/new" [];
   Request "GET" "/v2/users/312345678901234567" [];
   Request "DELETE" "/v2/users/312345678901234567" [];
   Request "POST" "/v2/users/312345678901234567/password" [];
   Request "GET" "/oauth/v2/keys" [];
   Request "GET" "/.well-known/openid-configuration" []].
(** A sign-in request, and the cluster it must reach. *)
Definition SIGN_IN : list (request * string) :=
  [(Request "GET" "/ui/v2/login/loginname" [], "zitadel_login");
   (Request "POST" "/ui/v2/login/loginname" [], "zitadel_login");
   (Request "GET" "/ui/login/device" [], "zitadel_upstream");
   (Request "GET" "/oauth/v2/authorize" [], "zitadel_upstream");
   (Request "POST" "/oauth/v2/token" [], "zitadel_upstream");
   (Request "POST" "/oauth/v2/device_authorization" [], "zitadel_upstream");
   (Request "GET" "/oidc/v1/userinfo" [], "zitadel_upstream");
   (Request "GET" "/oidc/v1/end_session" [], "zitadel_upstream");
   (Request "GET" "/idps/callback" [], "zitadel_upstream");
   (Request "POST" "/saml/v2/SSO" [], "zitadel_upstream")].
Definition MUST_NOT_ROUTE : list request :=
  [Request "GET" "/ui/console" [];
   Request "GET" "/ui/console/" [];
   Request "GET" "/ui/console/assets/environment.json" [];
   Request "GET" "/admin/v1/policies/login" [];
   Request "POST" "/admin/v1/members/_search" [];
   Request "POST" "/management/v1/users/_search" [];
   Request "GET" "/management/v1/info" [];
   Request "POST" "/zitadel.admin.v1.AdminService/GetLoginPolicy" [];
   Request "POST" "/zitadel.management.v1.ManagementService/ListOrgMembers" [];
   Request "POST" "/zitadel.auth.v1.AuthService/GetMyUser" [];
   Request "POST" "/zitadel.user.v2.UserService/SetEmail" [];
   Request "POST" "/zitadel.user.v2.UserService/ListUsers" []].
Definition EDGE_NOT_FOUND : string := "direct:404".

(** ** The matcher *)

(** [s.startswith(v)], [s.endswith(v)] and [re.fullmatch(v, s)] on a value *)
Definition on_str {A} (f : string → result A) (v : val) : result A :=
  match v with VStr s => f s | _ => Raise TypeError end.
Definition fullmatch_v (v : val) (s : string) : result bool := on_str (λ p, re_fullmatch_text p s) v.

(** [f"{what} {sorted(v)}"] of a [Blind] *)
Definition blind {A} (what : string) (l : list val) : result A :=
  l <- sort_vals l ;; Raise (Blind (cat [what; " "; py_repr (VList l)])).

Definition string_matches (sm : val) (value : option string) : result bool :=
  match value with
  | None => Ok false
  | Some value =>
      b <- str_in "exact" sm ;;
      if (b : bool) then x <- item sm "exact" ;; Ok (py_eq (VStr value) x) else
      b <- str_in "prefix" sm ;;
      if (b : bool) then x <- item sm "prefix" ;; on_str (λ p, Ok (startswith value p)) x else
      b <- str_in "suffix" sm ;;
      if (b : bool) then x <- item sm "suffix" ;; on_str (λ p, Ok (endswith value p)) x else
      b <- str_in "safe_regex" sm ;;
      if (b : bool) then x <- item sm "safe_regex" ;; r <- item x "regex" ;; fullmatch_v r value else
      l <- py_iter sm ;; blind "string_match" l
  end.

Definition opt_val (o : option string) : val := from_option VStr VNone o.

Definition header_matches (h : val) (headers : list (string * string)) : result bool :=
  n <- item h "name" ;; name <- as_str n ;;
  let value := alist_get (lower name) headers in
  present <- str_in "present_match" h ;;
  got <- (if (present : bool) then x <- item h "present_match" ;; Ok (Bool.eqb (bool_decide (is_Some value)) (truthy x))
          else
          b <- str_in "string_match" h ;;
          if (b : bool) then x <- item h "string_match" ;; string_matches x value else
          b <- str_in "exact_match" h ;;
          if (b : bool) then x <- item h "exact_match" ;; Ok (py_eq (opt_val value) x) else
          l <- py_iter h ;; blind "header match" l) ;;
  inv <- get_truthy h "invert_match" ;;
  Ok (negb (Bool.eqb got inv)).

Definition known : list string := ["prefix"; "path"; "safe_regex"; "headers"; "path_separated_prefix"].

(** The path matcher of a route. *)
Definition path_matches (m : val) (path : string) : result bool :=
  b <- str_in "prefix" m ;;
  if (b : bool) then x <- item m "prefix" ;; on_str (λ p, Ok (startswith path p)) x else
  b <- str_in "path" m ;;
  if (b : bool) then x <- item m "path" ;; Ok (py_eq (VStr path) x) else
  b <- str_in "path_separated_prefix" m ;;
  if (b : bool) then x <- item m "path_separated_prefix" ;;
                     on_str (λ p, Ok (str_eqb path p || startswith path (cat [p; "/"]))) x else
  b <- str_in "safe_regex" m ;;
  if (b : bool) then x <- item m "safe_regex" ;; r <- item x "regex" ;; fullmatch_v r path else
  Raise (Blind "route match with no path matcher").

(** The headers a route sees: the method, and each header in lower case. *)
Definition seen_headers (q : request) : list (string * string) :=
  foldl (λ d kv, alist_set (lower kv.1) kv.2 d) [(":method", q_method q)] (q_headers q).

Definition route_matches (m : val) (q : request) : result bool :=
  keys <- set_keys m ;;
  let extra := List.filter (λ k, negb (in_tuple k known)) keys in
  if nonempty extra then blind "route match" extra else
  ok <- path_matches m (q_path q) ;;
  if negb ok then Ok false else
  hs <- get_list m "headers" ;;
  allM (λ h, header_matches h (seen_headers q)) hs.

(** What a route that matches does: a cluster name, "direct:<status>" or
    "redirect". *)
Definition action (r : val) : result val :=
  b <- str_in "direct_response" r ;;
  if (b : bool) then x <- item r "direct_response" ;; s <- get x "status" ;; Ok (VStr (cat ["direct:"; py_str s])) else
  b <- str_in "redirect" r ;;
  if (b : bool) then Ok (VStr "redirect") else
  route <- get_dict r "route" ;; get_default route "cluster" (VStr "?").

(** What Envoy does with the request in this virtual host. *)
Definition outcome (vhost : val) (q : request) : result val :=
  routes <- get_list vhost "routes" ;;
  found <- firstM (λ r, m <- get_dict r "match" ;; b <- route_matches m q ;;
                        if (b : bool) then a <- action r ;; Ok (Some a) else Ok None) routes ;;
  Ok (default (VStr "none") found).

Definition where_of (rc vhost : val) : result string :=
  a <- get rc "name" ;; b <- get vhost "name" ;; Ok (cat [py_str a; "/"; py_str b]).
Definition route_key (rc vhost m : val) : result string :=
  kind <- firstM (λ k, b <- str_in k m ;; Ok (if b : bool then Some k else None))
            ["prefix"; "path"; "path_separated_prefix"] ;;
  w <- where_of rc vhost ;;
  match kind with
  | Some k => x <- item m k ;; Ok (cat [w; " "; k; ":"; py_str x])
  | None =>
      b <- str_in "safe_regex" m ;;
      if (b : bool) then x <- item m "safe_regex" ;; r <- item x "regex" ;; Ok (cat [w; " safe_regex:"; py_str r])
      else l <- py_iter m ;; l <- sort_vals l ;; Ok (cat [w; " "; py_repr (VList l)])
  end.

(** ** The audit *)

(** The listeners of an Envoy config. *)
Definition listeners_of (cfg : val) : result (list val) :=
  s <- get_default cfg "static_resources" (VDict []) ;; l <- get_default s "listeners" (VList []) ;; py_iter l.

(** The HTTP connection managers with an inline route config.  The source yields
    them one by one; here the list is built first. *)
Definition connection_managers (cfg : val) : result (list val) :=
  ls <- listeners_of cfg ;;
  flatM (λ listener, cs <- get_default listener "filter_chains" (VList []) ;; cs <- py_iter cs ;;
    flatM (λ chain, fs <- get_default chain "filters" (VList []) ;; fs <- py_iter fs ;;
      flatM (λ f, tc <- get_dict f "typed_config" ;; rc <- get tc "route_config" ;;
                  Ok (if is_none rc then [] else [tc])) fs) cs) ls.

(** One route to Zitadel: its key, and what is wrong with it. *)
Definition judge_route (cm : string) (listed rc vh r : val) : result (list (string * list string)) :=
  route <- get_dict r "route" ;; cluster <- get route "cluster" ;;
  if negb (in_tuple cluster ZITADEL_CLUSTERS) then Ok [] else
  m <- get_dict r "match" ;;
  key <- route_key rc vh m ;;
  is_listed <- str_in key listed ;;
  named <- firstM (λ k, b <- str_in k m ;; if (b : bool) then x <- item m k ;; Ok (Some (py_str x)) else Ok None)
             ["prefix"; "path"; "path_separated_prefix"] ;;
  let admin := existsb (startswith (default "" named)) ADMIN_PREFIXES in
  Ok [(key, (if is_listed then [] else [cat [cm; ": unlisted route to "; py_str cluster; ": "; repr_str key]])
            ++ (if admin then [cat [cm; ": "; repr_str key; " sends the admin surface of Zitadel to "; py_str cluster;
                                    "; it has no public route (ADR-0093)"]] else []))].

(** What the requests that are played against a virtual host have shown so
    far: the findings, whether an API path reaches Zitadel, and whether it is
    the virtual host of the app. *)
Record played := Played { y_bad : list string; y_api : bool; y_app : bool }.
Definition add (l : list string) (y : played) : played := Played (y_bad y ++ l) (y_api y) (y_app y).

(** The body of the [try]: an exception leaves what was played before it. *)
Fixpoint run (steps : list (played → result played)) (y : played) : played * option exn :=
  match steps with
  | [] => (y, None)
  | f :: steps => match f y with Ok y' => run steps y' | Raise e => (y, Some e) end
  end.

Section vhost.
(** The config map, the name of the virtual host in messages, and it. *)
Context (cm w : string) (vh : val).

Definition shown (q : request) : string := cat [cm; ": "; w; ": "; q_method q; " "; q_path q].
Definition is_cluster (v : val) (s : string) : bool := py_eq v (VStr s).

Definition play_block (q : request) (y : played) : result played :=
  got <- outcome vh q ;;
  let hs := match q_headers q with
            | [] => "" | l => cat [" "; py_repr (str_dict l)] end in
  Ok (add (if is_cluster got "zitadel_upstream" then [cat [shown q; hs; " reaches Zitadel; it must get a 403"]] else []) y).
Definition play_admin (is_app : bool) (q : request) (y : played) : result played :=
  got <- outcome vh q ;;
  Ok (add (if in_tuple got ZITADEL_CLUSTERS
           then [cat [shown q; " reaches "; py_str got; "; the admin surface of Zitadel has no public route (ADR-0093)"]]
           else if is_app && negb (is_cluster got EDGE_NOT_FOUND)
           then [cat [shown q; " is an admin call and must get the 404 of the edge, got "; py_str got]]
           else []) y).
Definition play_family (fam : string) (y : played) : result played :=
  got <- outcome vh (Request "POST" (cat [fam; "x"]) []) ;;
  Ok (if is_cluster got "zitadel_upstream" then Played (y_bad y) true (y_app y) else y).
Definition play_route (q : request) (y : played) : result played :=
  got <- outcome vh q ;;
  Ok (add (if is_cluster got "zitadel_upstream" then []
           else [cat [shown q; " must reach Zitadel for the sign-in flow, got "; py_str got]]) y).
Definition play_sign_in (qw : request * string) (y : played) : result played :=
  got <- outcome vh qw.1 ;;
  Ok (add (if is_cluster got qw.2 then []
           else [cat [shown qw.1; " must reach "; qw.2; " for the sign-in flow, got "; py_str got]]) y).

Definition plays (is_app : bool) : list (played → result played) :=
  map play_block MUST_BLOCK ++ map (play_admin is_app) MUST_NOT_ROUTE ++ map play_family API_FAMILIES
  ++ if is_app then (λ y, Ok (Played (y_bad y) (y_api y) true)) :: map play_route MUST_ROUTE ++ map play_sign_in SIGN_IN
     else [].
End vhost.

(** One virtual host: what was played, and the keys of its Zitadel routes. *)
Definition judge_vhost (cm : string) (listed rc vh : val) : result (played * list string) :=
  routes <- get_list vh "routes" ;;
  rs <- flatM (judge_route cm listed rc vh) routes ;;
  w <- where_of rc vh ;;
  rn <- get rc "name" ;; vn <- get vh "name" ;;
  let is_app := py_eq rn (VStr APP_VHOST.1) && py_eq vn (VStr APP_VHOST.2) in
  let '(y, e) := run (plays cm w vh is_app) (Played (concat rs.*2) false false) in
  match e with
  | None => Ok (y, rs.*1)
  | Some (Blind m) =>
      Ok (add [cat [cm; ": "; w; ": a route uses "; m; ", which this guard does not model; teach the matcher before you use it"]] y, rs.*1)
  | Some e => Raise e
  end.

(** What the audit has found so far. *)
Record audited := Audited { a_bad : list string; a_seen : list string; a_app : bool }.

(** One connection manager: a route config that sends API paths to Zitadel
    normalizes them. *)
Definition judge_manager (cm : string) (listed : val) (a : audited) (hcm : val) : result audited :=
  rc <- item hcm "route_config" ;;
  vhs <- get_list rc "virtual_hosts" ;;
  ys <- mapR (judge_vhost cm listed rc) vhs ;;
  rn <- get rc "name" ;;
  flags <- (if existsb (λ y, y_api y.1) ys then
              flatM (λ field, x <- get hcm field ;;
                Ok (if is_true x then [] else
                    [cat [cm; ": route config "; py_repr rn; " sends Zitadel API paths to Zitadel without "; field; ": true"]]))
                ["normalize_path"; "merge_slashes"]
            else Ok []) ;;
  Ok (Audited (a_bad a ++ concat (map (λ y, y_bad y.1) ys) ++ flags) (a_seen a ++ concat (map snd ys))
        (a_app a || existsb (λ y, y_app y.1) ys)).

Section audit.
Context (yaml_load : string → result val).

(** The config maps that hold an Envoy config with the edge listener. *)
Definition envoy_configs (docs : list val) : result (list (val * val)) :=
  flatM (λ d,
    kind <- get d "kind" ;;
    if negb (py_eq kind (VStr "ConfigMap")) then Ok [] else
    data <- get_dict d "data" ;; kvs <- items data ;;
    flatM (λ kv,
      match kv.2 with
      | VStr text =>
          if negb (contains "static_resources" text) then Ok [] else
          cfg <- yaml_load text ;; ls <- listeners_of cfg ;;
          edge <- anyM (λ l, n <- get l "name" ;; Ok (py_eq n (VStr "edge_tls"))) ls ;;
          if (edge : bool) then n <- meta_name d ;; Ok [(n, cfg)] else Ok []
      | _ => Ok []
      end) kvs) docs.

Definition ALLOWLIST : string := "helm/gibson/edge-zitadel-routes.yaml".

(** The findings, and the keys of the Zitadel routes of the render. *)
Definition audit (docs : list val) (allow : val) : result (list string * list string) :=
  configs <- envoy_configs docs ;;
  if negb (nonempty configs) then
    Ok (["no Envoy edge config (a listener named edge_tls) in the render: this guard is blind"], [])
  else
  listed <- get_dict allow "routes" ;;
  a <- foldM (λ a cc, hcms <- connection_managers cc.2 ;; foldM (judge_manager (py_str cc.1) listed) a hcms)
         (Audited [] [] false) configs ;;
  keys <- py_iter listed ;; keys <- sort_vals keys ;;
  let stale := List.filter (λ k, negb (existsb (λ s, py_eq k (VStr s)) (a_seen a))) keys in
  Ok (a_bad a
      ++ (if a_app a then [] else
          [cat ["no virtual host "; repr_str APP_VHOST.2; " in route config "; repr_str APP_VHOST.1; ": this guard is blind"]])
      ++ map (λ k, cat ["stale entry in "; ALLOWLIST; " (no render produces it): "; py_repr k]) stale,
      a_seen a).

Definition load_allowlist (path : string) (data : val) : result val :=
  let data := por data (VDict []) in
  routes <- get_dict data "routes" ;; kvs <- items routes ;;
  _ <- mapR (λ kv,
         why <- (if is_dict kv.2 then x <- get kv.2 "why" ;; Ok (strip (py_str (por x (VStr "")))) else Ok "") ;;
         if str_eqb why "" then Raise (SystemExit (cat [path; ": route "; repr_str kv.1; " must say why it is public (why:)"]))
         else Ok ()) kvs ;;
  Ok data.

(** [main], without [--print] and [--live] *)
Definition main (docs : list val) (path : string) (data : val) : result Z :=
  allow <- load_allowlist path data ;;
  '(bad, _) <- audit (List.filter truthy docs) allow ;;
  Ok (if nonempty bad then 1%Z else 0%Z).
End audit.

(** ** The fixtures and the self-test

    The self-test of the script edits the render of the chart.  [golden_edge]
    is the public route config of the golden render, with the parts of a route
    that the guard reads, and [golden_allow] is edge-zitadel-routes.yaml. *)

Definition path_match (kind path : string) : val := str_dict [(kind, path)].
Definition regex_match (r : string) : list (string * val) := [("safe_regex", str_dict [("regex", r)])].
Definition to_cluster (m : val) (cluster : string) : val :=
  VDict [("match", m); ("route", str_dict [("cluster", cluster)])].
Definition answer (m : val) (status : Z) : val :=
  VDict [("match", m); ("direct_response", VDict [("status", VInt status)])].
Definition header_is (name : string) (l : list (string * val)) : string * val :=
  ("headers", VList [VDict (("name", VStr name) :: l)]).
Definition zitadel (prefix : string) : val := to_cluster (path_match "prefix" prefix) "zitadel_upstream".

Definition app_routes : list val :=
  [VDict [("match", path_match "path" "/device"); ("redirect", str_dict [("path_redirect", "/ui/v2/login/device")])];
   zitadel "/ui/login/";
   answer (VDict (regex_match "^/(?:ui/console|management/v1/|admin/v1/|zitadel\.).*$")) 404;
   to_cluster (path_match "prefix" "/ui/") "zitadel_login";
   zitadel "/.well-known/openid-configuration"; zitadel "/oauth/"; zitadel "/oidc/"; zitadel "/idps/"; zitadel "/saml/";
   answer (VDict (regex_match "^/(?:auth/v1/|v2/|v2beta/).*%.*$")) 403;
   answer (VDict (regex_match "^/(?:auth/v1/|v2/|v2beta/).*$"
                  ++ [header_is "x-http-method-override" [("present_match", VBool true)]])) 403;
   answer (VDict (regex_match "^/auth/v1/users/me/(?:username|email)/?$"
                  ++ [header_is ":method" [("string_match", str_dict [("exact", "GET")]); ("invert_match", VBool true)]])) 403;
   answer (VDict (regex_match "^/(?:v2|v2beta)/users/[^/]+/email/?$")) 403;
   answer (VDict (regex_match "^/v2/users/human/[^/]+/?$")) 403;
   answer (VDict (regex_match "^/(?:v2|v2beta)/users/[^/]+/?$"
                  ++ [header_is ":method" [("string_match", VDict (regex_match "(?i)^(?:PATCH|PUT)$"))]])) 403;
   zitadel "/auth/v1/"; zitadel "/v2/"; zitadel "/v2beta/"; zitadel "/assets/";
   to_cluster (VDict [("prefix", VStr "/signup"); header_is ":method" [("string_match", str_dict [("exact", "POST")])]])
     "gibson_dashboard";
   to_cluster (path_match "prefix" "/") "gibson_dashboard"].

Definition vhost (name : string) (routes : list val) : val :=
  VDict [("name", VStr name); ("routes", VList routes)].
Definition golden_edge : val :=
  VDict [("normalize_path", VBool true); ("merge_slashes", VBool true);
    ("route_config", VDict [("name", VStr "public_routes"); ("virtual_hosts", VList
       [vhost "app" app_routes;
        vhost "docs" [to_cluster (path_match "prefix" "/") "gibson_docs_svc"];
        vhost "apex" [VDict [("match", path_match "prefix" "/"); ("redirect", str_dict [("host_redirect", "app")])]];
        vhost "misdirected" [answer (path_match "prefix" "/") 421]])])].
Definition config_with (hcm : val) : val :=
  VDict [("static_resources", VDict [("listeners", VList [VDict [("name", VStr "edge_tls");
    ("filter_chains", VList [VDict [("filters", VList [VDict [("typed_config", hcm)]])]])]])])].
Definition edge_docs : list val :=
  [VDict [("kind", VStr "ConfigMap"); ("metadata", str_dict [("name", "gibson-envoy")]);
          ("data", str_dict [("envoy.yaml", "static_resources")])]].
Definition listed_keys : list string :=
  map (cat ∘ cons "public_routes/app prefix:" ∘ (λ p, [p]))
    ["/ui/login/"; "/ui/"; "/.well-known/openid-configuration"; "/oauth/"; "/oidc/"; "/idps/"; "/saml/"; "/auth/v1/";
     "/v2/"; "/v2beta/"; "/assets/"].
Definition allow_of (keys : list string) : val :=
  VDict [("routes", VDict (map (λ k, (k, str_dict [("why", "fixture")])) keys))].
Definition golden_allow : val := allow_of listed_keys.
(** The audit of an edge with one connection manager. *)
Definition audit_edge (hcm allow : val) : result (list string * list string) :=
  audit (λ _, Ok (config_with hcm)) edge_docs allow.

(** *** The edits *)

Definition on_routes (f : list val → list val) (hcm : val) : val :=
  edit [K "route_config"; K "virtual_hosts"; I 0; K "routes"]
    (λ v, match v with VList l => VList (f l) | _ => v end) hcm.
Definition has_key (k : string) (r : val) : bool := match str_in k r with Ok b => b | Raise _ => false end.
Definition status_404 (r : val) : bool := py_eq (fld (fld r "direct_response") "status") (VInt 404).
Definition is_block (needle : string) (r : val) : bool :=
  let m := fld r "match" in
  has_key "direct_response" r && contains needle (py_str (por (fld m "safe_regex") (fld m "path"))).

Definition _drop (needle : string) : val → val := on_routes (List.filter (λ r, negb (is_block needle r))).
Definition _move_blocks_last : val → val :=
  on_routes (λ l, List.filter (λ r, negb (has_key "direct_response" r)) l ++ List.filter (has_key "direct_response") l).
Definition _add_route (prefix cluster : string) : val → val :=
  on_routes (cons (to_cluster (path_match "prefix" prefix) cluster)).
Definition _drop_admin_404 : val → val := on_routes (List.filter (λ r, negb (status_404 r))).
Definition _admin_404_last : val → val :=
  on_routes (λ l, List.filter (λ r, negb (status_404 r)) l ++ List.filter status_404 l).
Definition _block_sign_in (prefix : string) : val → val :=
  on_routes (cons (answer (path_match "prefix" prefix) 404)).
Definition _block_all_v2 : val → val := on_routes (cons (answer (path_match "prefix" "/v2/") 403)).
Definition _no_normalize (hcm : val) : val := dict_without hcm "normalize_path".
Definition _unknown_match : val → val :=
  on_routes (cons (answer (VDict [("prefix", VStr "/"); ("query_parameters", VList [str_dict [("name", "x")]])]) 403)).

Definition FIXTURES_THAT_MUST_FAIL : list (string * (val → val)) :=
  [("an unlisted route sends /system/v1/ to Zitadel", _add_route "/system/v1/" "zitadel_upstream");
   ("an unlisted route sends /debug/ to the Zitadel login", _add_route "/debug/" "zitadel_login");
   ("the auth REST 403 route is missing", _drop "users/me/");
   ("the v2 email 403 route is missing", _drop "/email/?$");
   ("the percent-sign 403 route is missing", _drop "%");
   ("the method-override 403 route is missing", _drop "^/(?:auth/v1/|v2/|v2beta/).*$");
   ("the 403 routes come after the Zitadel routes", _move_blocks_last);
   ("a 403 on all of /v2/ also blocks signup", _block_all_v2);
   ("a 404 on /oauth/ blocks the sign-in flow", _block_sign_in "/oauth/");
   ("a 404 on /ui/v2/ blocks the sign-in pages", _block_sign_in "/ui/v2/");
   ("a 404 on /idps/ blocks the identity-provider callback", _block_sign_in "/idps/");
   ("the 404 route for the admin surface is missing", _drop_admin_404);
   ("the 404 route for the admin surface comes after the /ui/ route", _admin_404_last);
   ("the public route config does not normalize paths", _no_normalize);
   ("a route uses a match field the guard does not model", _unknown_match)].
Definition ADMIN_ROUTES_THAT_MUST_FAIL : list (string * string) :=
  [("/ui/console", "zitadel_upstream"); ("/admin/v1/", "zitadel_upstream"); ("/management/v1/", "zitadel_upstream");
   ("/zitadel.", "zitadel_upstream"); ("/zitadel.user.v2.UserService/", "zitadel_upstream");
   ("/ui/console/", "zitadel_login")].

Definition findings (hcm allow : val) : result (list string) := rmap fst (audit_edge hcm allow).
Definition admin_fixture (pc : string * string) : result bool :=
  got <- findings (_add_route pc.1 pc.2 golden_edge) (allow_of (listed_keys ++ [cat ["public_routes/app prefix:"; pc.1]])) ;;
  Ok (existsb (contains "admin surface") got && negb (existsb (contains "unlisted") got)).
Definition broken_fixture (f : string * (val → val)) : result bool :=
  got <- findings (f.2 golden_edge) golden_allow ;; Ok (nonempty got).

Definition selftest : result Z :=
  got <- findings golden_edge golden_allow ;;
  if nonempty got then Ok 1%Z else
  admin <- allM admin_fixture ADMIN_ROUTES_THAT_MUST_FAIL ;;
  if negb admin then Ok 1%Z else
  broken <- allM broken_fixture FIXTURES_THAT_MUST_FAIL ;;
  if negb broken then Ok 1%Z else
  stale <- findings golden_edge (allow_of (listed_keys ++ ["public_routes/app prefix:/gone/"])) ;;
  if negb (existsb (λ x, startswith x "stale entry") stale) then Ok 1%Z else
  '(blind, _) <- audit (λ _, Raise ValueError) [] golden_allow ;;
  Ok (if nonempty blind then 0%Z else 1%Z).

Lemma edgeroutes_selftest : selftest = Ok 0%Z.
Proof. vm_compute. reflexivity. Qed.

(** ** What the guard promises *)

(** *** The first route that matches wins *)

Definition route_hit (q : request) (r : val) (b : bool) : Prop :=
  ∃ m, get_dict r "match" = Ok m ∧ route_matches m q = Ok b.

Lemma firstM_split {A B} (f : A → result (option B)) l v :
  firstM f l = Ok (Some v) →
  ∃ l1 x l2, l = l1 ++ x :: l2 ∧ (∀ y, y ∈ l1 → f y = Ok None) ∧ f x = Ok (Some v).
Proof.
  induction l as [|x l IH]; cbn [firstM]; [done|]. intros H. destruct (f x) as [o|] eqn:E; [|done]. cbn [rbind] in H.
  destruct o as [w|].
  - injection H as ->. exists [], x, l. split_and!; [done|intros y Hy; by apply elem_of_nil in Hy|done].
  - destruct (IH H) as (l1 & y & l2 & -> & H1 & H2). exists (x :: l1), y, l2. split_and!; [done| |done].
    intros z [->|Hz]%elem_of_cons; auto.
Qed.

(** [outcome] picks the first route that matches the request, as Envoy
    does: what it returns is the action of a route that matches when no route
    before it does, or "none" when no route matches at all. *)
Theorem outcome_is_first_match (vh : val) (q : request) (a : val) (routes : list val) :
  get_list vh "routes" = Ok routes → outcome vh q = Ok a →
  (∃ before r rest, routes = before ++ r :: rest ∧ (∀ x, x ∈ before → route_hit q x false) ∧
     route_hit q r true ∧ action r = Ok a) ∨
  ((∀ x, x ∈ routes → route_hit q x false) ∧ a = VStr "none").
Proof.
  intros Hr H. unfold outcome in H. rewrite Hr in H. cbn [rbind] in H.
  apply bind_Ok in H as (found & H & [= <-]).
  assert (∀ x, (m <- get_dict x "match" ;; b <- route_matches m q ;;
                if (b : bool) then a <- action x ;; Ok (Some a) else Ok None) = Ok None → route_hit q x false) as Hmiss.
  { intros x (m & Hm & Hx)%bind_Ok. apply bind_Ok in Hx as (b & Hb & Hx). exists m.
    destruct b; [by apply bind_Ok in Hx as (? & _ & [=])|done]. }
  destruct found as [v|]; [left|right].
  - apply firstM_split in H as (l1 & r & l2 & -> & H1 & H2). exists l1, r, l2. split_and!; [done|auto| |].
    + apply bind_Ok in H2 as (m & Hm & H2). apply bind_Ok in H2 as ([] & Hb & H2); [by exists m|done].
    + apply bind_Ok in H2 as (m & Hm & H2). apply bind_Ok in H2 as ([] & Hb & H2); [|done].
      by apply bind_Ok in H2 as (w & Hw & [= <-]).
  - split; [|done]. intros x Hx. apply Hmiss. by apply (proj1 (firstM_None _ _) H).
Qed.

(** *** The played requests *)

(** A step only adds findings. *)
Definition grows (f : played → result played) : Prop := ∀ y y', f y = Ok y' → ∃ l, y_bad y' = y_bad y ++ l.

Lemma run_grows steps y y' e : (∀ f, f ∈ steps → grows f) → run steps y = (y', e) → ∃ l, y_bad y' = y_bad y ++ l.
Proof.
  revert y. induction steps as [|f steps IH]; cbn [run]; intros y Hg H.
  - injection H as <- <-. exists []. by rewrite app_nil_r.
  - destruct (f y) as [y1|] eqn:E.
    + destruct (Hg f ltac:(left) y y1 E) as [l1 H1]. destruct (IH y1) as [l2 H2]; [intros; apply Hg; by right|done|].
      exists (l1 ++ l2). by rewrite H2, H1, app_assoc.
    + injection H as <- <-. exists []. by rewrite app_nil_r.
Qed.

Lemma run_clean steps y y' f :
  (∀ f, f ∈ steps → grows f) → run steps y = (y', None) → y_bad y' = [] → f ∈ steps →
  ∃ y1 y2, f y1 = Ok y2 ∧ y_bad y2 = [].
Proof.
  revert y. induction steps as [|g steps IH]; intros y Hg H Hb Hf; [by apply elem_of_nil in Hf|].
  cbn [run] in H. destruct (g y) as [y1|] eqn:E; [|done].
  assert (∀ f, f ∈ steps → grows f) as Hg' by (intros; apply Hg; by right).
  apply elem_of_cons in Hf as [->|Hf]; [|by eapply IH].
  exists y, y1. split; [done|]. destruct (run_grows _ _ _ _ Hg' H) as [l Hl]. rewrite Hb in Hl.
  by symmetry in Hl; apply app_eq_nil in Hl as [? _].
Qed.

Section plays.
Context (cm w : string) (vh : val).

Lemma play_grows is_app f : f ∈ plays cm w vh is_app → grows f.
Proof.
  unfold plays. rewrite !elem_of_app, !list_elem_of_fmap.
  intros [(q & -> & _)|[(q & -> & _)|[(fam & -> & _)|H]]].
  - intros y y' (got & _ & [= <-])%bind_Ok. by eexists.
  - intros y y' (got & _ & [= <-])%bind_Ok. by eexists.
  - intros y y' (got & _ & [= <-])%bind_Ok. exists []. rewrite app_nil_r. by case_match.
  - destruct is_app; [|by apply elem_of_nil in H]. apply elem_of_cons in H as [->|H].
    + intros y y' [= <-]. exists []. by rewrite app_nil_r.
    + apply elem_of_app in H. rewrite !list_elem_of_fmap in H. destruct H as [(q & -> & _)|(q & -> & _)].
      * intros y y' (got & _ & [= <-])%bind_Ok. by eexists.
      * intros y y' (got & _ & [= <-])%bind_Ok. by eexists.
Qed.

Lemma add_nil l y : y_bad (add l y) = [] → l = [].
Proof. intros H. by apply app_eq_nil in H as [_ H]. Qed.

(** What a virtual host does when nothing that was played is a finding. *)
Definition closed (vh : val) : Prop :=
  (∀ q, q ∈ MUST_BLOCK → ∃ a, outcome vh q = Ok a ∧ a ≠ VStr "zitadel_upstream") ∧
  ∀ q, q ∈ MUST_NOT_ROUTE → ∃ a, outcome vh q = Ok a ∧ a ≠ VStr "zitadel_upstream" ∧ a ≠ VStr "zitadel_login".
Definition serves (vh : val) : Prop :=
  (∀ q, q ∈ MUST_NOT_ROUTE → outcome vh q = Ok (VStr "direct:404")) ∧
  (∀ q, q ∈ MUST_ROUTE → outcome vh q = Ok (VStr "zitadel_upstream")) ∧
  ∀ q c, (q, c) ∈ SIGN_IN → outcome vh q = Ok (VStr c).

Lemma plays_clean is_app y y' :
  run (plays cm w vh is_app) y = (y', None) → y_bad y' = [] → closed vh ∧ (is_app = true → serves vh).
Proof.
  intros H Hb.
  assert (∀ f, f ∈ plays cm w vh is_app → ∃ y1 y2, f y1 = Ok y2 ∧ y_bad y2 = []) as Hs.
  { intros f Hf. eapply run_clean; [apply play_grows|done..]. }
  unfold plays in Hs. setoid_rewrite elem_of_app in Hs. setoid_rewrite elem_of_app in Hs. setoid_rewrite elem_of_app in Hs.
  assert (∀ q, q ∈ MUST_NOT_ROUTE → ∃ a, outcome vh q = Ok a ∧ a ≠ VStr "zitadel_upstream" ∧ a ≠ VStr "zitadel_login" ∧
                 (is_app = true → a = VStr "direct:404")) as Hadmin.
  { intros q Hq. destruct (Hs (play_admin cm w vh is_app q)) as (y1 & y2 & (a & Ha & [= <-])%bind_Ok & Hn);
      [right; left; by apply list_elem_of_fmap_2|].
    apply add_nil in Hn. exists a. split; [done|]. destruct (in_tuple a ZITADEL_CLUSTERS) eqn:E; [done|].
    split_and!; [by intros ->|by intros ->|]. intros ->. cbn [andb] in Hn. unfold is_cluster in Hn.
    destruct (py_eq a (VStr EDGE_NOT_FOUND)) eqn:E'; [by apply py_eq_str_r in E'|done]. }
  split; [split|intros ->; split_and!].
  - intros q Hq. destruct (Hs (play_block cm w vh q)) as (y1 & y2 & (a & Ha & [= <-])%bind_Ok & Hn);
      [left; by apply list_elem_of_fmap_2|].
    apply add_nil in Hn. exists a. split; [done|]. intros ->. done.
  - intros q Hq. destruct (Hadmin q Hq) as (a & ? & ? & ? & _). eauto.
  - intros q Hq. destruct (Hadmin q Hq) as (a & Ha & _ & _ & Hd). by rewrite Ha, Hd.
  - intros q Hq. destruct (Hs (play_route cm w vh q)) as (y1 & y2 & (a & Ha & [= <-])%bind_Ok & Hn);
      [do 3 right; apply elem_of_cons; right; apply elem_of_app; left; by apply list_elem_of_fmap_2|].
    apply add_nil in Hn. unfold is_cluster in Hn. destruct (py_eq a _) eqn:E; [|done]. apply py_eq_str_r in E as ->. done.
  - intros q c Hq. destruct (Hs (play_sign_in cm w vh (q, c))) as (y1 & y2 & (a & Ha & [= <-])%bind_Ok & Hn);
      [do 3 right; apply elem_of_cons; right; apply elem_of_app; right; by apply list_elem_of_fmap_2|].
    apply add_nil in Hn. unfold is_cluster in Hn. cbn [fst snd] in *.
    destruct (py_eq a _) eqn:E; [|done]. apply py_eq_str_r in E as ->. done.
Qed.
End plays.

(** *** One virtual host *)

Definition is_app_vhost (rc vh : val) : bool :=
  py_eq (fld rc "name") (VStr APP_VHOST.1) && py_eq (fld vh "name") (VStr APP_VHOST.2).

Lemma run_app cm w vh y y' e : run (plays cm w vh false) y = (y', e) → y_app y' = y_app y.
Proof.
  assert (∀ f, f ∈ plays cm w vh false → ∀ y y', f y = Ok y' → y_app y' = y_app y) as Hf.
  { intros f. unfold plays. rewrite !elem_of_app, !list_elem_of_fmap.
    intros [(q & -> & _)|[(q & -> & _)|[(fam & -> & _)|H]]]; [..|by apply elem_of_nil in H];
      intros z z' (got & _ & [= <-])%bind_Ok; [done..|by case_match]. }
  revert y Hf. generalize (plays cm w vh false). intros steps. induction steps as [|f steps IH]; intros y Hf H; [by injection H as <- <-|].
  cbn [run] in H. destruct (f y) as [y1|] eqn:E; [|by injection H as <- <-].
  rewrite (IH y1); [|intros; eapply Hf; [by right|done]|done]. eapply Hf; [left|done].
Qed.

(** A route to a Zitadel cluster, by its key. *)
Definition zitadel_route (rc vh r : val) (key : string) : Prop :=
  ∃ route m, get_dict r "route" = Ok route ∧ in_tuple (fld route "cluster") ZITADEL_CLUSTERS = true ∧
    get_dict r "match" = Ok m ∧ route_key rc vh m = Ok key.

Lemma judge_route_elem cm listed rc vh r l :
  judge_route cm listed rc vh r = Ok l → (∀ key bad, (key, bad) ∈ l → bad = []) →
  ∀ key, zitadel_route rc vh r key → str_in key listed = Ok true ∧ key ∈ l.*1.
Proof.
  unfold judge_route. intros H Hbad key (route & m & Hroute & Hc & Hm & Hkey).
  rewrite Hroute in H. cbn [rbind] in H. apply bind_Ok in H as (c & ->%get_Ok & H). rewrite Hc in H. cbn [negb] in H.
  rewrite Hm in H. cbn [rbind] in H. rewrite Hkey in H. cbn [rbind] in H.
  apply bind_Ok in H as (b & Hb & H). apply bind_Ok in H as (named & _ & H). injection H as <-.
  specialize (Hbad key _ (list_elem_of_here _ _)). apply app_eq_nil in Hbad as [Hbad _].
  split; [|left]. by destruct b.
Qed.

Lemma judge_vhost_clean cm listed rc vh y keys :
  judge_vhost cm listed rc vh = Ok (y, keys) → y_bad y = [] →
  closed vh ∧ (is_app_vhost rc vh = true → serves vh) ∧ (y_app y = true → is_app_vhost rc vh = true) ∧
  ∀ routes r key, get_list vh "routes" = Ok routes → r ∈ routes → zitadel_route rc vh r key →
    str_in key listed = Ok true ∧ key ∈ keys.
Proof.
  unfold judge_vhost. intros H Hy. apply bind_Ok in H as (routes & Hroutes & H).
  apply bind_Ok in H as (rs & Hrs & H). apply bind_Ok in H as (w & _ & H).
  apply bind_Ok in H as (rn & ->%get_Ok & H). apply bind_Ok in H as (vn & ->%get_Ok & H).
  fold (is_app_vhost rc vh) in H. set (app := is_app_vhost rc vh) in *.
  destruct (run _ _) as [y1 e] eqn:E.
  destruct e as [[]|]; try done.
  { injection H as <- _. exfalso. cbn in Hy. by apply app_eq_nil in Hy as [_ [=]]. }
  injection H as <- <-. destruct (plays_clean _ _ _ _ _ _ E Hy) as [Hc Hs]. split_and!; [done|done| |].
  - intros Ha. destruct app; [done|]. apply run_app in E. rewrite E in Ha. exact Ha.
  - intros routes' r key Hr' Hr Hz. rewrite Hroutes in Hr'. injection Hr' as <-.
    destruct (run_grows _ _ _ _ (play_grows cm w vh app) E) as [l Hl]. rewrite Hy in Hl. cbn in Hl.
    symmetry in Hl. apply app_eq_nil in Hl as [Hl _].
    destruct (flatM_Ok_elem _ _ _ _ Hrs Hr) as [lr Hlr].
    assert (∀ x, x ∈ lr → x ∈ rs) as Hin by (intros x Hx; apply (flatM_elem _ _ _ Hrs); eauto).
    destruct (judge_route_elem _ _ _ _ _ _ Hlr) with (key := key) as [Hb Hk]; [|done|].
    { intros k bad Hkb. rewrite concat_nil in Hl. apply Hl, list_elem_of_fmap. exists (k, bad). auto. }
    split; [done|]. apply list_elem_of_fmap in Hk as (x & -> & Hx). apply list_elem_of_fmap_2. auto.
Qed.

(** *** The audit *)

Section fold.
Context {A B : Type} (f : B → A → result B) (bad : B → list string).
Hypothesis Hgrow : ∀ s x t, f s x = Ok t → ∃ k, bad t = bad s ++ k.

Lemma foldM_grows l s s' : foldM f s l = Ok s' → ∃ k, bad s' = bad s ++ k.
Proof using Hgrow.
  revert s. induction l as [|x l IH]; cbn [foldM]; intros s H.
  - injection H as <-. exists []. by rewrite app_nil_r.
  - apply bind_Ok in H as (t & Ht & H). destruct (Hgrow _ _ _ Ht) as [k1 E1]. destruct (IH _ H) as [k2 E2].
    exists (k1 ++ k2). by rewrite E2, E1, app_assoc.
Qed.

(** The run of one element in a fold that ends without a finding. *)
Lemma foldM_clean l s s' x :
  foldM f s l = Ok s' → bad s' = [] → x ∈ l →
  ∃ s1 s2 l2, f s1 x = Ok s2 ∧ bad s2 = [] ∧ foldM f s2 l2 = Ok s'.
Proof using Hgrow.
  revert s. induction l as [|y l IH]; cbn [foldM]; intros s H Hb Hx; [by apply elem_of_nil in Hx|].
  apply bind_Ok in H as (t & Ht & H). apply elem_of_cons in Hx as [->|Hx]; [|by eapply IH].
  exists s, t, l. split_and!; [done| |done]. destruct (foldM_grows _ _ _ H) as [k E]. rewrite Hb in E.
  by symmetry in E; apply app_eq_nil in E as [-> _].
Qed.
End fold.

(** The element of a fold that sets a flag. *)
Lemma foldM_flag {A B} (f : B → A → result B) (flag : B → bool) l s s' :
  foldM f s l = Ok s' → flag s = false → flag s' = true →
  ∃ x s1 s2 l2, x ∈ l ∧ f s1 x = Ok s2 ∧ flag s1 = false ∧ flag s2 = true ∧ foldM f s2 l2 = Ok s'.
Proof.
  revert s. induction l as [|y l IH]; cbn [foldM]; intros s H Hs Hs'; [injection H as <-; congruence|].
  apply bind_Ok in H as (t & Ht & H). destruct (flag t) eqn:E.
  - exists y, s, t, l. split_and!; [left|done..].
  - destruct (IH _ H E Hs') as (x & s1 & s2 & l2 & ? & ? & ? & ? & ?). exists x, s1, s2, l2. split_and!; [by right|done..].
Qed.

Lemma judge_manager_grows cm listed a hcm b :
  judge_manager cm listed a hcm = Ok b → ∃ k, a_bad b = a_bad a ++ k.
Proof.
  unfold judge_manager. intros H. repeat match type of H with rbind _ _ = Ok _ => apply bind_Ok in H as (? & ? & H) end.
  injection H as <-. by eexists.
Qed.

Lemma judge_manager_clean cm listed a hcm b :
  judge_manager cm listed a hcm = Ok b → a_bad b = [] →
  ∃ rc vhs ys, item hcm "route_config" = Ok rc ∧ get_list rc "virtual_hosts" = Ok vhs ∧
    mapR (judge_vhost cm listed rc) vhs = Ok ys ∧ (∀ y, y ∈ ys → y_bad y.1 = []) ∧
    a_app b = a_app a || existsb (λ y, y_app y.1) ys ∧ a_seen b = a_seen a ++ concat (map snd ys).
Proof.
  unfold judge_manager. intros H Hb. apply bind_Ok in H as (rc & Hrc & H). apply bind_Ok in H as (vhs & Hvhs & H).
  apply bind_Ok in H as (ys & Hys & H). apply bind_Ok in H as (rn & _ & H). apply bind_Ok in H as (flags & _ & H).
  injection H as <-. cbn in Hb. apply app_eq_nil in Hb as [_ Hb]. apply app_eq_nil in Hb as [Hb _].
  exists rc, vhs, ys. split_and!; [done..| |done|done].
  intros y Hy. rewrite concat_nil in Hb. apply Hb. by apply (list_elem_of_fmap_2 (λ y : played * list string, y_bad y.1)).
Qed.

Lemma judge_manager_seen cm listed a hcm b :
  judge_manager cm listed a hcm = Ok b → ∃ k, a_seen b = a_seen a ++ k.
Proof.
  unfold judge_manager. intros H. repeat match type of H with rbind _ _ = Ok _ => apply bind_Ok in H as (? & ? & H) end.
  injection H as <-. by eexists.
Qed.

Section audit.
Context (yaml_load : string → result val) (docs : list val).

(** The virtual host [vh] of the route config [rc] is in an Envoy config of the
    render. *)
Definition edge_vhost (rc vh : val) : Prop :=
  ∃ configs cc hcms hcm vhs, envoy_configs yaml_load docs = Ok configs ∧ cc ∈ configs ∧
    connection_managers cc.2 = Ok hcms ∧ hcm ∈ hcms ∧ item hcm "route_config" = Ok rc ∧
    get_list rc "virtual_hosts" = Ok vhs ∧ vh ∈ vhs.

Let step listed := λ a (cc : val * val), hcms <- connection_managers cc.2 ;; foldM (judge_manager (py_str cc.1) listed) a hcms.

Lemma step_grows listed a cc b : step listed a cc = Ok b → ∃ k, a_bad b = a_bad a ++ k.
Proof.
  intros (hcms & _ & H)%bind_Ok. eapply (foldM_grows _ a_bad); [|exact H]. intros. by eapply judge_manager_grows.
Qed.
Lemma step_seen listed a cc b : step listed a cc = Ok b → ∃ k, a_seen b = a_seen a ++ k.
Proof.
  intros (hcms & _ & H)%bind_Ok. eapply (foldM_grows _ a_seen); [|exact H]. intros. by eapply judge_manager_seen.
Qed.

(** The parts of a clean audit. *)
Lemma audit_clean allow seen :
  audit yaml_load docs allow = Ok ([], seen) →
  ∃ listed configs a keys, get_dict allow "routes" = Ok listed ∧ envoy_configs yaml_load docs = Ok configs ∧
    foldM (step listed) (Audited [] [] false) configs = Ok a ∧ a_bad a = [] ∧ a_seen a = seen ∧ a_app a = true ∧
    (py_iter listed = Ok keys ∧ ∀ s, VStr s ∈ keys → s ∈ seen).
Proof.
  unfold audit. intros H. apply bind_Ok in H as (configs & Hc & H). destruct (nonempty configs); cbn [negb] in H; [|done].
  apply bind_Ok in H as (listed & Hl & H). apply bind_Ok in H as (a & Ha & H).
  apply bind_Ok in H as (keys & Hk & H). apply bind_Ok in H as (sorted & Hs & H). injection H as H Hseen.
  apply app_eq_nil in H as [Hbad H]. apply app_eq_nil in H as [Happ Hstale].
  exists listed, configs, a, keys. split_and!; try done; [by destruct (a_app a)|].
  intros s Hin. apply (sort_vals_str _ _ _ Hs) in Hin. apply map_eq_nil in Hstale.
  destruct (existsb (λ t, py_eq (VStr s) (VStr t)) (a_seen a)) eqn:E.
  - apply existsb_elem_of in E as (t & Ht & Et%py_eq_str_r). injection Et as ->. by subst.
  - exfalso. apply (not_elem_of_nil (VStr s)). rewrite <- Hstale. apply list_elem_of_In, filter_In.
    split; [by apply list_elem_of_In|]. by rewrite E.
Qed.

Lemma audit_vhost allow seen rc vh :
  audit yaml_load docs allow = Ok ([], seen) → edge_vhost rc vh →
  ∃ listed cm y keys, get_dict allow "routes" = Ok listed ∧ judge_vhost cm listed rc vh = Ok (y, keys) ∧
    y_bad y = [] ∧ ∀ k, k ∈ keys → k ∈ seen.
Proof.
  intros (listed & configs & a & keys & Hl & Hc & Ha & Hbad & Hseen & _)%audit_clean
    (configs' & cc & hcms & hcm & vhs & Hc' & Hcc & Hh & Hhcm & Hrc & Hvhs & Hvh).
  rewrite Hc in Hc'. injection Hc' as <-.
  destruct (foldM_clean _ a_bad (step_grows listed) _ _ _ _ Ha Hbad Hcc) as (a1 & a2 & rest & Hstep & Hb2 & Hrest).
  destruct (foldM_grows _ a_seen (step_seen listed) _ _ _ Hrest) as [k1 Hk1].
  apply bind_Ok in Hstep as (hcms' & Hh' & Hstep). rewrite Hh in Hh'. injection Hh' as <-.
  destruct (foldM_clean _ a_bad (judge_manager_grows (py_str cc.1) listed) _ _ _ _ Hstep Hb2 Hhcm)
    as (a3 & a4 & rest' & Hm & Hb4 & Hrest').
  destruct (foldM_grows _ a_seen (judge_manager_seen (py_str cc.1) listed) _ _ _ Hrest') as [k2 Hk2].
  destruct (judge_manager_clean _ _ _ _ _ Hm Hb4) as (rc' & vhs' & ys & Hrc' & Hvhs' & Hys & Hyb & _ & Hs4).
  rewrite Hrc in Hrc'. injection Hrc' as <-. rewrite Hvhs in Hvhs'. injection Hvhs' as <-.
  destruct (mapR_elem_2 _ _ _ _ Hys Hvh) as ([y ks] & Hin & Hj).
  exists listed, (py_str cc.1), y, ks. split_and!; [done..|by apply (Hyb (y, ks))|].
  intros k Hk. subst seen. rewrite Hk1, Hk2, Hs4, !elem_of_app. left. left. right.
  apply elem_of_concat. exists ks. split; [by apply (list_elem_of_fmap_2 snd _ (y, ks))|done].
Qed.


(** When the audit is clean, the allowlist is exact: the key of each route
    to a Zitadel cluster, in any virtual host of the edge, is listed, and each
    listed key is that of a route of the render. *)
Theorem clean_audit_lists_routes (allow : val) (seen : list string) :
  audit yaml_load docs allow = Ok ([], seen) →
  ∃ listed keys, get_dict allow "routes" = Ok listed ∧ py_iter listed = Ok keys ∧
    (∀ rc vh routes r key, edge_vhost rc vh → get_list vh "routes" = Ok routes → r ∈ routes →
       zitadel_route rc vh r key → str_in key listed = Ok true ∧ key ∈ seen) ∧
    ∀ s, VStr s ∈ keys → s ∈ seen.
Proof.
  intros H. destruct (audit_clean _ _ H) as (listed & configs & a & keys & Hl & _ & _ & _ & _ & _ & Hk & Hstale).
  exists listed, keys. split_and!; [done..| |done].
  intros rc vh routes r key Hv Hroutes Hr Hz.
  destruct (audit_vhost _ _ _ _ H Hv) as (listed' & cm & y & ks & Hl' & Hj & Hy & Hseen).
  rewrite Hl in Hl'. injection Hl' as <-.
  destruct (judge_vhost_clean _ _ _ _ _ _ Hj Hy) as (_ & _ & _ & Hroute).
  destruct (Hroute _ _ _ Hroutes Hr Hz) as [? ?]. auto.
Qed.
End audit.

(** *** The golden edge *)

Definition golden_yaml : string → result val := λ _, Ok (config_with golden_edge).

Lemma golden_audit : ∃ seen, audit golden_yaml edge_docs golden_allow = Ok ([], seen).
Proof. eexists. vm_compute. reflexivity. Qed.


Lemma clean_audit_lists_routes_witness :
  ∃ seen listed keys, audit golden_yaml edge_docs golden_allow = Ok ([], seen) ∧
    get_dict golden_allow "routes" = Ok listed ∧ py_iter listed = Ok keys ∧ ∀ s, VStr s ∈ keys → s ∈ seen.
Proof.
  destruct golden_audit as [seen H].
  destruct (clean_audit_lists_routes golden_yaml edge_docs golden_allow seen H) as (listed & keys & ? & ? & _ & ?).
  exists seen, listed, keys. split_and!; assumption.
Defined.

Lemma outcome_is_first_match_witness :
  let vh := vhost "app" app_routes in let q := Request "PATCH" "/v2/users/3" [] in
  outcome vh q = Ok (VStr "direct:403") ∧
  ∃ before r rest, app_routes = before ++ r :: rest ∧ (∀ x, x ∈ before → route_hit q x false) ∧
    route_hit q r true ∧ action r = Ok (VStr "direct:403").
Proof.
  assert (outcome (vhost "app" app_routes) (Request "PATCH" "/v2/users/3" []) = Ok (VStr "direct:403")) as E
    by (vm_compute; reflexivity).
  split; [exact E|].
  destruct (outcome_is_first_match (vhost "app" app_routes) (Request "PATCH" "/v2/users/3" []) (VStr "direct:403") app_routes
              eq_refl E) as [H|[_ H]]; [exact H|discriminate H].
Defined.

(** A route that names its cluster by [weighted_clusters] goes to Zitadel and
    is neither listed nor blind: the guard reads [cluster] only. *)
Definition weighted_route : val :=
  VDict [("match", path_match "prefix" "/ui/console");
         ("route", VDict [("weighted_clusters", VDict [("clusters", VList [str_dict [("name", "zitadel_upstream")]])])])].
Fact weighted_clusters_are_not_seen :
  findings (edit [K "route_config"; K "virtual_hosts"; I 1; K "routes"]
              (λ v, match v with VList l => VList (weighted_route :: l) | _ => v end) golden_edge) golden_allow = Ok [].
Proof. vm_compute. reflexivity. Qed.
