(* ===== verification/NamespacePolicy.v ===== *)
(** * scripts/check-namespace-policy.py: each namespace has a default deny

    A namespace that a render creates or puts pods in is covered by a
    clusterwide Cilium policy or a NetworkPolicy that denies all its traffic,
    or an exemption names it. *)
From S2P Require Import Prelude PyStr PyVal.

Definition RELEASE_NS : string := "gibson".
Definition POD_KINDS : list string := ["Deployment"; "StatefulSet"; "DaemonSet"; "Job"; "CronJob"; "Pod"].
Definition NS_LABEL : string := "k8s:io.kubernetes.pod.namespace".

(** The namespaces of the documents, with repetitions. *)
Definition namespaces (docs : list val) : result (list val) :=
  flatM (λ d,
    kind <- get d "kind" ;;
    if py_eq kind (VStr "Namespace") then n <- meta_name d ;; set_of [n] else
    pod <- in_set kind POD_KINDS ;;
    if pod : bool then n <- meta_namespace d RELEASE_NS ;; set_of [n] else Ok []) docs.

Definition KUBE_DNS : val := str_dict [(NS_LABEL, "kube-system"); ("k8s:k8s-app", "kube-dns")].

Definition dns_port (p : val) : result bool :=
  ks <- set_keys p ;;
  if negb (set_subset ks ["port"; "protocol"]) then Ok false else
  n <- get p "port" ;;
  if negb (str_eqb (py_str n) "53") then Ok false else
  proto <- get p "protocol" ;; Ok (in_tuple proto ["UDP"; "TCP"]).
(** A Cilium egress rule that reaches kube-dns on port 53 and nothing else. *)
Definition dns_only (rule : val) : result bool :=
  ks <- set_keys rule ;;
  if negb (set_subset ks ["toEndpoints"; "toPorts"]) then Ok false else
  peers <- get_list rule "toEndpoints" ;;
  if negb (nonempty peers) || existsb (λ p, negb (py_eq p (VDict [("matchLabels", KUBE_DNS)]))) peers
  then Ok false else
  tps <- get_list rule "toPorts" ;;
  ports <- flatM (λ tp, get_list tp "ports") tps ;;
  if nonempty ports then allM dns_port ports else Ok false.

(** The namespace that a selector selects, when it selects nothing else. *)
Definition only_namespace (sel ml : val) : result val :=
  sk <- set_keys sel ;;
  if negb (set_eq sk ["matchLabels"]) then Ok VNone else
  mk <- set_keys ml ;;
  if set_eq mk [NS_LABEL] then get ml NS_LABEL else Ok VNone.

Definition covered_by_cilium (spec : val) : result (list val) :=
  deny <- get_dict spec "enableDefaultDeny" ;;
  sel <- get_dict spec "endpointSelector" ;; ml <- get_dict sel "matchLabels" ;;
  ns <- only_namespace sel ml ;;
  if negb (truthy ns) then Ok [] else
  i <- get deny "ingress" ;; e <- get deny "egress" ;;
  if negb (is_true i && is_true e) then Ok [] else
  ins <- get_list spec "ingress" ;;
  if existsb (λ r, negb (py_eq r (VDict []))) ins then Ok [] else
  es <- get_list spec "egress" ;;
  dns <- allM dns_only es ;;
  if dns : bool then set_of [ns] else Ok [].

Definition covered_by_kubernetes (d spec : val) : result (list val) :=
  ps <- get spec "podSelector" ;;
  if negb (py_eq ps (VDict []) || is_none ps) then Ok [] else
  types <- get_list spec "policyTypes" ;; types <- set_of types ;;
  if negb (set_superset types ["Ingress"; "Egress"]) then Ok [] else
  i <- get spec "ingress" ;; e <- get spec "egress" ;;
  if truthy i || truthy e then Ok [] else
  n <- meta_namespace d RELEASE_NS ;; set_of [n].

(** The namespaces that a default deny covers. *)
Definition covered (docs : list val) : result (list val) :=
  flatM (λ d,
    spec <- get_dict d "spec" ;; kind <- get d "kind" ;;
    if py_eq kind (VStr "CiliumClusterwideNetworkPolicy") then covered_by_cilium spec
    else if py_eq kind (VStr "NetworkPolicy") then covered_by_kubernetes d spec
    else Ok []) docs.

Definition vmem (l : list val) (v : val) : bool := existsb (py_eq v) l.

(** The findings, and the exemptions that were used. *)
Definition judge (docs : list val) (exempt : list string) : result (list string * list val) :=
  let docs := List.filter is_dict docs in
  ns <- namespaces docs ;;
  cov <- covered docs ;;
  let open_ns := List.filter (λ n, negb (vmem cov n)) (dedup_vals ns) in
  bad <- sort_vals (List.filter (λ n, negb (in_tuple n exempt)) open_ns) ;;
  Ok (map (λ n, cat ["namespace "; py_str n; " has pods or is created, and no default deny covers it"]) bad,
      List.filter (λ n, in_tuple n exempt) open_ns).

(** The lines of the exemption file; [None] when the file does not exist. *)
Definition load_exempt (file : option (list string)) : list (string * string) :=
  foldl (λ out line,
    let line := strip (default "" (head (str_split line "#"))) in
    if str_eqb line "" then out else
    let '(name, _, reason) := str_partition line " " in
    alist_set name (strip reason) out) [] (default [] file).

(** The golden renders: the base name of each file and its documents. *)
Definition audit (goldens : list (string * list val)) (file : option (list string))
    : result (list string * nat) :=
  let exempt := load_exempt file in
  renders <- filterM (λ g, ns <- namespaces (List.filter is_dict g.2) ;; Ok (nonempty ns)) goldens ;;
  l <- mapR (λ g, v <- judge g.2 exempt.*1 ;; Ok (map (λ x, cat [g.1; ": "; x]) v.1, v.2)) renders ;;
  let used := concat l.*2 in
  let stale := List.filter (λ n, negb (vmem used (VStr n))) (sorted_set exempt.*1) in
  Ok (concat l.*1
      ++ map (λ n, cat ["stale exemption, delete the line: "; n; " ("; default "" (alist_get n exempt); ")"]) stale
      ++ (if nonempty renders then [] else ["no golden render holds a namespace with pods: this check is blind"]),
      length renders).

(** ** The self-test of the script *)
Definition pod (ns : string) : val :=
  VDict [("kind", VStr "Deployment"); ("metadata", str_dict [("name", "p"); ("namespace", ns)])].
Definition dns_to (peer : val) (ports : list val) : val :=
  VDict [("toEndpoints", VList [peer]); ("toPorts", VList [VDict [("ports", VList ports)]])].
Definition dns_ports : list val :=
  [str_dict [("port", "53"); ("protocol", "UDP")]; str_dict [("port", "53"); ("protocol", "TCP")]].
Definition kube_dns_peer : val := VDict [("matchLabels", KUBE_DNS)].
(** The [dns] rule, with the DNS rules that Cilium enforces on the ports. *)
Definition dns : val :=
  VDict [("toEndpoints", VList [kube_dns_peer]);
         ("toPorts", VList [VDict [("ports", VList dns_ports);
            ("rules", VDict [("dns", VList [str_dict [("matchPattern", "*")]])])]])].
Definition ccnp_sel (labels : list (string * string)) (e : bool) (ing eg : list val) : val :=
  VDict [("kind", VStr "CiliumClusterwideNetworkPolicy"); ("spec", VDict [
    ("endpointSelector", VDict [("matchLabels", str_dict labels)]);
    ("enableDefaultDeny", VDict [("ingress", VBool true); ("egress", VBool e)]);
    ("ingress", VList ing); ("egress", VList eg)])].
Definition ccnp (ns : string) (e : bool) (ing eg : list val) : val := ccnp_sel [(NS_LABEL, ns)] e ing eg.
Definition deny (ns : string) : val := ccnp ns true [VDict []] [dns].
Definition np_spec (types : list string) (more : list (string * val)) : val :=
  VDict [("kind", VStr "NetworkPolicy"); ("metadata", str_dict [("namespace", "b")]);
         ("spec", VDict ([("podSelector", VDict []); ("policyTypes", VList (map VStr types))] ++ more))].
Definition np (more : list (string * val)) : val := np_spec ["Ingress"; "Egress"] more.
Definition failing : list (list val) :=
  [[pod "a"];
   [VDict [("kind", VStr "Namespace"); ("metadata", str_dict [("name", "a")])]];
   [pod "a"; deny "b"];
   [pod "a"; ccnp "a" false [VDict []] [dns]];
   [pod "b"; np_spec ["Ingress"] []];
   [pod "b"; np [("egress", VList [VDict []])]];
   [pod "b"; np [("ingress", VList [VDict []])]];
   [pod "a"; ccnp "a" true [VDict []] [dns; VDict [("toEntities", VList [VStr "world"])]]];
   [pod "a"; ccnp "a" true [VDict [("fromEntities", VList [VStr "all"])]] [dns]];
   [pod "a"; ccnp "a" true [VDict []] [dns_to kube_dns_peer
      [VDict [("port", VStr "53"); ("endPort", VInt 65535); ("protocol", VStr "UDP")]]]];
   [pod "a"; ccnp_sel [(NS_LABEL, "a"); ("app", "x")] true [VDict []] [dns]];
   [pod "a"; ccnp "a" true [VDict []] [dns_to (VDict []) dns_ports]];
   [VDict [("kind", VStr "Job"); ("metadata", str_dict [("name", "j")])]]].
Definition selftest : result Z :=
  g <- judge [pod "a"; deny "a"; pod "b"; np []] [] ;;
  if nonempty g.1 then Ok 1%Z else
  bad <- anyM (λ docs, v <- judge docs [] ;; Ok (negb (length v.1 =? 1))) failing ;;
  if bad : bool then Ok 1%Z else
  e <- judge [pod "a"] ["a"] ;;
  Ok (if nonempty e.1 then 1 else 0)%Z.

Lemma namespacepolicy_selftest : selftest = Ok 0%Z.
Proof. vm_compute. reflexivity. Qed.

(** ** What the guard promises *)

(** An egress rule that opens DNS only: each peer is kube-dns, and each port is
    port 53, a single port, of UDP or TCP. *)
Definition opens_dns_only (rule : val) : Prop :=
  (∃ peers, get_list rule "toEndpoints" = Ok peers ∧ peers ≠ [] ∧
    ∀ p, p ∈ peers → py_eq p (VDict [("matchLabels", KUBE_DNS)]) = true) ∧
  ∃ tps ports, get_list rule "toPorts" = Ok tps ∧
    flatM (λ tp, get_list tp "ports") tps = Ok ports ∧ ports ≠ [] ∧
    ∀ p, p ∈ ports → py_str (fld p "port") = "53" ∧ in_tuple (fld p "protocol") ["UDP"; "TCP"] = true ∧
      fld p "endPort" = VNone.

(** The spec of a clusterwide policy that denies all the traffic of [ns]. *)
Definition cilium_denies (spec ns : val) : Prop :=
  let deny := por (fld spec "enableDefaultDeny") (VDict []) in
  let sel := por (fld spec "endpointSelector") (VDict []) in
  let ml := por (fld sel "matchLabels") (VDict []) in
  fld ml NS_LABEL = ns ∧ truthy ns = true ∧
  (∀ k, k ≠ "matchLabels" → fld sel k = VNone) ∧ (∀ k, k ≠ NS_LABEL → fld ml k = VNone) ∧
  fld deny "ingress" = VBool true ∧ fld deny "egress" = VBool true ∧
  (∃ ins, get_list spec "ingress" = Ok ins ∧ ∀ r, r ∈ ins → py_eq r (VDict []) = true) ∧
  ∃ es, get_list spec "egress" = Ok es ∧ ∀ e, e ∈ es → opens_dns_only e.

(** A NetworkPolicy that denies all the traffic of its namespace. *)
Definition kubernetes_denies (d ns : val) : Prop :=
  let spec := por (fld d "spec") (VDict []) in
  (fld spec "podSelector" = VNone ∨ py_eq (fld spec "podSelector") (VDict []) = true) ∧
  (∃ types, get_list spec "policyTypes" = Ok types ∧ VStr "Ingress" ∈ types ∧ VStr "Egress" ∈ types) ∧
  truthy (fld spec "ingress") = false ∧ truthy (fld spec "egress") = false ∧
  meta_namespace d RELEASE_NS = Ok ns.


Lemma subset_absent v ks l k :
  set_keys v = Ok ks → set_subset ks l = true → k ∉ l → fld v k = VNone.
Proof.
  unfold set_keys. intros (ks' & Hk & ->%set_of_Ok)%bind_Ok Hs Hn. destruct v as [| | | | |d]; try done. cbn.
  destruct (alist_get k d) as [x|] eqn:E; [|done]. exfalso. injection Hk as <-.
  unfold set_subset in Hs. rewrite forallb_elem_of in Hs. apply alist_elem in E.
  specialize (Hs (VStr k)). apply Hn. apply str_mem_elem, Hs.
  apply list_elem_of_In, in_map_iff. exists (k, x). by rewrite <- list_elem_of_In.
Qed.

Lemma dns_port_ok p : dns_port p = Ok true →
  py_str (fld p "port") = "53" ∧ in_tuple (fld p "protocol") ["UDP"; "TCP"] = true ∧ fld p "endPort" = VNone.
Proof.
  unfold dns_port. intros (ks & Hks & H)%bind_Ok. destruct (set_subset ks _) eqn:Es; [|done]. cbn [negb] in H.
  apply bind_Ok in H as (n & ->%get_Ok & H). destruct (str_eqb _ _) eqn:Ep; [|done]. cbn [negb] in H.
  apply bind_Ok in H as (pr & ->%get_Ok & H). injection H as H. split_and!; [by apply str_eqb_eq|done|].
  eapply subset_absent; [done..|]. rewrite !elem_of_cons, elem_of_nil. naive_solver.
Qed.

Lemma dns_only_ok rule : dns_only rule = Ok true → opens_dns_only rule.
Proof.
  unfold dns_only. intros (ks & _ & H)%bind_Ok. destruct (set_subset ks _); [|done]. cbn [negb] in H.
  apply bind_Ok in H as (peers & Hp & H). destruct (_ || _) eqn:E in H; [done|].
  apply orb_false_iff in E as [E1 E2]. apply bind_Ok in H as (tps & Ht & H).
  apply bind_Ok in H as (ports & Hports & H). destruct ports as [|p0 ports]; [done|]. cbn [nonempty] in H.
  rewrite allM_true in H. split.
  - exists peers. split_and!; [done|by intros ->|]. intros p Hin.
    destruct (py_eq p _) eqn:Eq; [done|]. rewrite <- not_true_iff_false in E2. destruct E2.
    apply existsb_elem_of. exists p. by rewrite Eq.
  - exists tps, (p0 :: ports). split_and!; [done..|]. intros p Hin. by apply dns_port_ok, H.
Qed.

Lemma only_namespace_ok sel ml n :
  only_namespace sel ml = Ok n → truthy n = true →
  fld ml NS_LABEL = n ∧ (∀ k, k ≠ "matchLabels" → fld sel k = VNone) ∧ ∀ k, k ≠ NS_LABEL → fld ml k = VNone.
Proof.
  unfold only_namespace. intros (sk & Hsk & H)%bind_Ok Ht.
  destruct (set_eq sk _) eqn:Es; cbn [negb] in H; [|by injection H as <-].
  apply bind_Ok in H as (mk & Hmk & H). destruct (set_eq mk _) eqn:Em; [|by injection H as <-].
  apply get_Ok in H as ->. apply andb_true in Es as [Es _]. apply andb_true in Em as [Em _].
  split_and!; [done|..]; intros k Hk; (eapply subset_absent; [done..|by rewrite list_elem_of_singleton]).
Qed.

Lemma covered_by_cilium_elem spec l ns : covered_by_cilium spec = Ok l → ns ∈ l → cilium_denies spec ns.
Proof.
  unfold covered_by_cilium. intros (deny & ->%por_dict_fld & H)%bind_Ok Hin.
  apply bind_Ok in H as (sel & ->%por_dict_fld & H). apply bind_Ok in H as (ml & ->%por_dict_fld & H).
  apply bind_Ok in H as (n & Hn & H). destruct (truthy n) eqn:Et; cbn [negb] in H;
    [|injection H as <-; by apply elem_of_nil in Hin].
  apply bind_Ok in H as (i & ->%get_Ok & H). apply bind_Ok in H as (e & ->%get_Ok & H).
  destruct (is_true _ && is_true _) eqn:Ed; cbn [negb] in H; [|injection H as <-; by apply elem_of_nil in Hin].
  apply andb_true in Ed as [Ei%is_true_eq Ee%is_true_eq]. apply bind_Ok in H as (ins & Hins & H).
  destruct (existsb _ ins) eqn:Ex; [injection H as <-; by apply elem_of_nil in Hin|].
  apply bind_Ok in H as (es & Hes & H). apply bind_Ok in H as (dns & Hdns & H).
  destruct dns; [|injection H as <-; by apply elem_of_nil in Hin].
  apply set_of_Ok in H as ->. apply list_elem_of_singleton in Hin as ->.
  apply only_namespace_ok in Hn as (Hml & Hsel & Hmls); [|done].
  unfold cilium_denies. split_and!; [done..| |].
  - exists ins. split; [done|]. intros r Hr. destruct (py_eq r _) eqn:Eq; [done|].
    rewrite <- not_true_iff_false in Ex. destruct Ex. apply existsb_elem_of. exists r. by rewrite Eq.
  - exists es. split; [done|]. rewrite allM_true in Hdns. intros e He. by apply dns_only_ok, Hdns.
Qed.


Lemma covered_by_kubernetes_elem d l ns :
  covered_by_kubernetes d (por (fld d "spec") (VDict [])) = Ok l → ns ∈ l → kubernetes_denies d ns.
Proof.
  unfold covered_by_kubernetes. intros (ps & ->%get_Ok & H)%bind_Ok Hin.
  destruct (py_eq _ _ || is_none _) eqn:Ep; cbn [negb] in H; [|injection H as <-; by apply elem_of_nil in Hin].
  apply bind_Ok in H as (types & Ht & H). apply bind_Ok in H as (ty & ->%set_of_Ok & H).
  destruct (set_superset types _) eqn:Es; cbn [negb] in H; [|injection H as <-; by apply elem_of_nil in Hin].
  apply bind_Ok in H as (i & ->%get_Ok & H). apply bind_Ok in H as (e & ->%get_Ok & H).
  destruct (truthy _ || truthy _) eqn:Et; [injection H as <-; by apply elem_of_nil in Hin|].
  apply orb_false_iff in Et as [Ei Ee]. apply bind_Ok in H as (n & Hn & H).
  apply set_of_Ok in H as ->. apply list_elem_of_singleton in Hin as ->.
  unfold kubernetes_denies. split_and!; [|exists types; split_and!; [done|..]; (eapply superset_elem; [done|set_solver])|done..].
  apply orb_true_iff in Ep as [Ep|Ep]; [by right|left]. by destruct (fld _ "podSelector").
Qed.

(** The render creates the namespace [n] or puts pods in it. *)
Definition uses_namespace (d : val) (n : string) : Prop :=
  fld d "kind" = VStr "Namespace" ∧ meta_name d = Ok (VStr n) ∨
  in_tuple (fld d "kind") POD_KINDS = true ∧ meta_namespace d RELEASE_NS = Ok (VStr n).

Lemma namespaces_finds docs ns d n :
  namespaces docs = Ok ns → d ∈ docs → uses_namespace d n → VStr n ∈ ns.
Proof.
  unfold namespaces. intros H Hd Hu. destruct (flatM_Ok_elem _ _ _ _ H Hd) as [r Hr].
  apply (flatM_elem _ _ _ H). exists d, r. split_and!; [done..|].
  apply bind_Ok in Hr as (kind & ->%get_Ok & Hr). destruct Hu as [[Hk Hn]|[Hk Hn]].
  - rewrite Hk, py_eq_refl_str, Hn in Hr. cbn [rbind] in Hr. apply set_of_Ok in Hr as ->. left.
  - apply in_tuple_true in Hk as (k & Hk & Hin). rewrite Hk in Hr.
    destruct (py_eq (VStr k) (VStr "Namespace")) eqn:E.
    { apply py_eq_str_r in E as [= ->]. apply str_mem_elem in Hin. by vm_compute in Hin. }
    unfold in_set in Hr. cbn [hashable rbind in_tuple] in Hr. rewrite (proj2 (str_mem_elem _ _) Hin) in Hr.
    rewrite Hn in Hr. cbn [rbind] in Hr. apply set_of_Ok in Hr as ->. left.
Qed.

(** A clean verdict means that each namespace has a default deny.  A
    namespace that the render creates or puts pods in is exempt, or a policy of
    the render denies all its traffic: a clusterwide Cilium policy that selects
    exactly this namespace, denies both directions, admits nobody and opens DNS
    only, or a NetworkPolicy of the namespace that selects each pod, covers both
    directions and has no rule. *)
Theorem clean_namespaces_are_denied (docs : list val) (exempt : list string) (used : list val)
    (d : val) (n : string)
    (Hclean : judge docs exempt = Ok ([], used)) (Hd : d ∈ docs) (Hdict : is_dict d = true)
    (Hn : uses_namespace d n) :
  n ∈ exempt ∨ ∃ p, p ∈ docs ∧
    (fld p "kind" = VStr "CiliumClusterwideNetworkPolicy" ∧ cilium_denies (por (fld p "spec") (VDict [])) (VStr n) ∨
     fld p "kind" = VStr "NetworkPolicy" ∧ kubernetes_denies p (VStr n)).
Proof.
  unfold judge in Hclean. set (ds := List.filter is_dict docs) in *.
  assert (∀ x, x ∈ ds ↔ x ∈ docs ∧ is_dict x = true) as Hds
    by (intros x; rewrite list_elem_of_In; unfold ds; rewrite filter_In; by rewrite <- list_elem_of_In).
  apply bind_Ok in Hclean as (ns & Hns & H). apply bind_Ok in H as (cov & Hcov & H).
  apply bind_Ok in H as (bad & Hbad & H). injection H as H _. apply map_eq_nil in H as ->.
  assert (VStr n ∈ ns) as Hin by (eapply namespaces_finds; [done| |done]; by apply Hds).
  destruct (decide (n ∈ exempt)) as [|Hne]; [by left|]. right.
  destruct (vmem cov (VStr n)) eqn:Ec.
  2: { exfalso. assert (VStr n ∈ @nil val) as Hx; [|by apply elem_of_nil in Hx].
       eapply sort_vals_str; [done|]. apply list_elem_of_In, filter_In. split.
       - apply filter_In. rewrite Ec. split; [|done]. by apply list_elem_of_In, dedup_str.
       - cbn [in_tuple]. apply str_mem_false in Hne. by rewrite Hne. }
  apply existsb_py_eq_str in Ec. apply (flatM_elem _ _ _ Hcov) in Ec as (p & r & Hp & Hr & Hx).
  exists p. split; [by apply Hds|]. apply bind_Ok in Hr as (spec & ->%por_dict_fld & Hr).
  apply bind_Ok in Hr as (kind & ->%get_Ok & Hr).
  destruct (py_eq _ (VStr "CiliumClusterwideNetworkPolicy")) eqn:E1; [|destruct (py_eq _ (VStr "NetworkPolicy")) eqn:E2].
  - left. apply py_eq_str_r in E1. split; [done|]. by eapply covered_by_cilium_elem.
  - right. apply py_eq_str_r in E2. split; [done|]. by eapply covered_by_kubernetes_elem.
  - injection Hr as <-. by apply elem_of_nil in Hx.
Qed.

Lemma clean_namespaces_are_denied_witness :
  judge [pod "a"; deny "a"] [] = Ok ([], []) ∧
  ("a" ∈ @nil string ∨ ∃ p, p ∈ [pod "a"; deny "a"] ∧
    (fld p "kind" = VStr "CiliumClusterwideNetworkPolicy" ∧ cilium_denies (por (fld p "spec") (VDict [])) (VStr "a") ∨
     fld p "kind" = VStr "NetworkPolicy" ∧ kubernetes_denies p (VStr "a"))).
Proof.
  assert (judge [pod "a"; deny "a"] [] = Ok ([], [])) as H by (vm_compute; reflexivity).
  split; [exact H|].
  apply (clean_namespaces_are_denied [pod "a"; deny "a"] [] [] (pod "a") "a" H);
    [left|reflexivity|right; split; reflexivity].
Defined.
