(* ===== verification/Webhooks.v ===== *)
(** * scripts/check-webhooks.py: each admission webhook is probed and fails closed

    Each webhook of the render at [failurePolicy: Fail] has a probe of the
    webhook gate with the address that the API server dials, each webhook is
    service-backed and fails closed, and a probe of another namespace can
    connect. *)
From S2P Require Import Prelude PyStr PyVal.
From Stdlib Require Import Ascii.
From stdpp Require Import sorting.

Definition ACCEPTED_IGNORE : list string :=
  ["vclusterfederatedtrustdomain.kb.io"; "vclusterspiffeid.kb.io"].
Definition PROFILES : list (list string) :=
  [["values-baseline.yaml"]; ["values-baseline.yaml"; "values-eks.yaml"];
   ["values-baseline.yaml"; "values-guest.yaml"]].
Definition WEBHOOK_KINDS : list string :=
  ["ValidatingWebhookConfiguration"; "MutatingWebhookConfiguration"].

(** ** The probes of the gate *)

Definition is_gate (d : val) : result bool :=
  k <- get d "kind" ;;
  if negb (py_eq k (VStr "Job")) then Ok false else
  n <- meta_name d ;; Ok (py_eq n (VStr "gibson-webhook-gate")).

(** One line [config|webhook|namespace|service|port|path]. *)
Definition probe_of_line (line : string) : result val :=
  match str_split (strip line) "|" with
  | [config; webhook; namespace; service; port; path] =>
      p <- py_int (VStr port) ;;
      Ok (VDict [("config", VStr config); ("webhook", VStr webhook); ("namespace", VStr namespace);
                 ("service", VStr service); ("port", VInt p); ("path", VStr path)])
  | _ => Raise ValueError
  end.

Definition probes_of_script (script : string) : result (list val) :=
  match split1 (cat ["<<'PROBES'"; newline]) script with
  | None => Raise IndexError
  | Some (_, after) =>
      let body := match split1 (cat [newline; "PROBES"]) after with Some (b, _) => b | None => after end in
      mapR probe_of_line (splitlines body)
  end.

Definition gate_probes (docs : list val) : result (list val) :=
  gate <- firstM (λ d, g <- is_gate d ;; Ok (if g : bool then Some d else None)) docs ;;
  match gate with
  | None => Raise (SystemExit "the render has no Job/gibson-webhook-gate: this guard cannot read the probes (this is NOT a pass)")
  | Some d =>
      s <- item d "spec" ;; t <- item s "template" ;; ts <- item t "spec" ;; cs <- item ts "containers" ;;
      c <- index cs 0 ;; args <- item c "args" ;; a <- index args 0 ;; script <- as_str a ;;
      probes_of_script script
  end.

(** ** The webhooks at Ignore *)

Definition is_webhook_config (d : val) : result bool := k <- get d "kind" ;; Ok (in_tuple k WEBHOOK_KINDS).

(** The names of the webhooks that a render installs at Ignore. *)
Definition ignored (docs : list val) : result (list val) :=
  flatM (λ d,
    c <- is_webhook_config d ;;
    if negb c then Ok [] else
    ws <- get_list d "webhooks" ;;
    flatM (λ w, fp <- get w "failurePolicy" ;;
      if py_eq fp (VStr "Ignore") then n <- get w "name" ;; set_of [n] else Ok []) ws) docs.

(** An accepted exception that no render uses. *)
Definition stale (seen : list val) (accepted : list string) : list string :=
  map (λ n, cat ["ACCEPTED_IGNORE names "; n; ", and no render installs that webhook at Ignore: delete the entry"])
    (List.filter (λ n, negb (existsb (py_eq (VStr n)) seen)) (sorted_set accepted)).

(** ** Reach: a probe of another namespace can connect *)

Definition gate_pod_labels (docs : list val) : result val :=
  o <- firstM (λ d,
    g <- is_gate d ;;
    if negb g then Ok None else
    s <- item d "spec" ;; t <- item s "template" ;; m <- item t "metadata" ;;
    labels <- get_dict m "labels" ;; Ok (Some labels)) docs ;;
  Ok (default (VDict []) o).

(** The target port of a Service port in the render, as a string. *)
Definition service_target (name namespace : val) (port : Z) (d : val) : result (option string) :=
  k <- get d "kind" ;;
  if negb (py_eq k (VStr "Service")) then Ok None else
  m <- item d "metadata" ;; n <- item m "name" ;;
  if negb (py_eq n name) then Ok None else
  ns <- get m "namespace" ;;
  if negb (py_eq ns namespace) then Ok None else
  s <- item d "spec" ;; ps <- get_list s "ports" ;;
  firstM (λ sp, x <- get sp "port" ;; z <- py_int x ;;
    if (z =? port)%Z then t <- get_default sp "targetPort" (VInt port) ;; Ok (Some (py_str t))
    else Ok None) ps.
Definition target_port (docs : list val) (name namespace : val) (port : Z) : result (option string) :=
  firstM (service_target name namespace port) docs.

(** A peer of the ingress rule that is the gate: its namespace and labels. *)
Definition peer_admits (release_ns labels peer : val) : result bool :=
  ml <- get_dict peer "matchLabels" ;;
  match ml with
  | VDict d =>
      let ns := default VNone (alist_get "k8s:io.kubernetes.pod.namespace" d) in
      if negb (py_eq ns release_ns) then Ok false else
      allM (λ '(k, v), x <- get labels k ;; Ok (py_eq x v)) (alist_del "k8s:io.kubernetes.pod.namespace" d)
  | _ => Raise TypeError
  end.
Definition rule_admits (release_ns labels : val) (port : string) (rule : val) : result bool :=
  tps <- get_list rule "toPorts" ;;
  ports <- flatM (λ tp, ps <- get_list tp "ports" ;;
                        mapR (λ pp, x <- get pp "port" ;; Ok (py_str x)) ps) tps ;;
  if negb (str_mem port ports) then Ok false else
  peers <- get_list rule "fromEndpoints" ;; anyM (peer_admits release_ns labels) peers.

(** A CiliumNetworkPolicy of [namespace] admits the pod on [port]. *)
Definition admits (docs : list val) (namespace release_ns labels : val) (port : string) : result bool :=
  anyM (λ d,
    k <- get d "kind" ;;
    if negb (py_eq k (VStr "CiliumNetworkPolicy")) then Ok false else
    m <- item d "metadata" ;; ns <- get m "namespace" ;;
    if negb (py_eq ns namespace) then Ok false else
    one <- get d "spec" ;; more <- list_field d "specs" ;;
    anyM (λ spec, rs <- get_list (por spec (VDict [])) "ingress" ;;
                  anyM (rule_admits release_ns labels port) rs) (one :: more)) docs.

(** [int(v.get("port") or 443)] *)
Definition port_or_443 (v : val) : result Z := x <- get v "port" ;; py_int (por x (VInt 443)).

Definition reach_probe (docs : list val) (release_ns labels p : val) : result (list string) :=
  n <- get p "namespace" ;;
  let ns := por n release_ns in
  if py_eq ns release_ns then Ok [] else
  config <- item p "config" ;; webhook <- item p "webhook" ;;
  let key := cat ["probe "; py_str config; "/"; py_str webhook] in
  e <- get labels "gibson.zeroroot.ai/egress-namespaces" ;;
  service <- item p "service" ;;
  port <- port_or_443 p ;;
  tp <- target_port docs service ns port ;;
  shown <- get p "port" ;;
  reached <- match tp with
    | None => Ok [cat [key; ": the render has no Service "; py_str ns; "/"; py_str service; " with port "; py_str shown]]
    | Some tp =>
        ok <- admits docs ns release_ns labels tp ;;
        Ok (if ok : bool then []
            else [cat [key; ": no CiliumNetworkPolicy in "; py_str ns; " admits the gate ("; py_str release_ns;
                       ", its labels) on port "; tp]])
    end ;;
  Ok ((if py_eq e (VStr "true") then []
       else [cat [key; " dials namespace "; py_str ns; ", and the gate pod has no egress-namespaces label"]])
      ++ reached).

Definition reach (docs probes : list val) (release_ns : val) : result (list string) :=
  labels <- gate_pod_labels docs ;; flatM (reach_probe docs release_ns labels) probes.

(** ** The verdict *)

(** What the API server or a probe dials: (service, namespace, port, path). *)
Definition dial : Type := val * val * Z * val.
Definition dial_eqb (a b : dial) : bool :=
  let '(s, n, p, t) := a in let '(s', n', p', t') := b in
  py_eq s s' && py_eq n n' && (p =? p')%Z && py_eq t t'.
(** A tuple is an element of a set only when its parts are hashable. *)
Definition hash_dial (a : dial) : result dial :=
  let '(s, n, _, t) := a in if hashable s && hashable n && hashable t then Ok a else Raise TypeError.
Definition dial_repr (a : dial) : string :=
  let '(s, n, p, t) := a in cat ["("; py_repr s; ", "; py_repr n; ", "; str_of_int p; ", "; py_repr t; ")"].

(** [sorted(dials)], for dials of strings; Python cannot compare the rest. *)
Definition dial_text (a : dial) : string * string * Z * string :=
  let '(s, n, p, t) := a in (py_str s, py_str n, p, py_str t).
Definition dial_leb (a b : dial) : bool :=
  let '(s, n, p, t) := dial_text a in let '(s', n', p', t') := dial_text b in
  if negb (str_eqb s s') then bool_decide (String.le s s')
  else if negb (str_eqb n n') then bool_decide (String.le n n')
  else if negb (p =? p')%Z then (p <? p')%Z else bool_decide (String.le t t').
Definition dial_le (a b : dial) : Prop := dial_leb a b = true.
#[global] Instance dial_le_dec : RelDecision dial_le.
Proof. intros a b. unfold dial_le. apply _. Defined.
Definition sort_dials (l : list dial) : result (list dial) :=
  match l with
  | [a] => Ok [a]
  | _ => if forallb (λ a : dial, let '(s, n, _, t) := a in is_str s && is_str n && is_str t) l
         then Ok (merge_sort dial_le l) else Raise TypeError
  end.

(** The dial of a service of a webhook or of a probe. *)
Definition dial_of (service : string) (release_ns v : val) : result dial :=
  s <- get v service ;; n <- get v "namespace" ;; p <- port_or_443 v ;; t <- get v "path" ;;
  Ok (s, por n release_ns, p, por t (VStr "/")).

(** A webhook of the render; no dial when it is url-backed. *)
Record hook := Hook { h_config : val; h_name : val; h_dial : option dial; h_policy : val }.

(** The findings of one webhook, and its hook. *)
Definition webhook_hook (release_ns : val) (accepted : list string) (cfg w : val)
    : result (list string * hook) :=
  name <- get w "name" ;;
  cc <- get_dict w "clientConfig" ;; svc <- get cc "service" ;;
  dial <- (if truthy svc then a <- dial_of "name" release_ns svc ;; Ok (Some a) else Ok None) ;;
  fp <- get w "failurePolicy" ;;
  let who := cat [py_str cfg; "/"; py_str name] in
  open <- (if py_eq fp (VStr "Fail") then Ok false else notR (in_set name accepted)) ;;
  Ok ((if truthy svc then []
       else [cat [who; ": url-backed (no clientConfig.service); the teardown sweep cannot clear it"]])
      ++ (if open : bool then [cat [who; ": failurePolicy "; py_repr fp; ", a fail-open admission webhook"]] else []),
      Hook cfg name dial fp).

Definition config_hooks (release_ns : val) (accepted : list string) (d : val)
    : result (list (list string * hook)) :=
  c <- is_webhook_config d ;;
  if negb c then Ok [] else
  cfg <- meta_name d ;; ws <- get_list d "webhooks" ;;
  mapR (webhook_hook release_ns accepted cfg) ws.

(** The findings of one probe, and the webhook it proves. *)
Definition judge_probe (release_ns : val) (hooks : list hook) (p : val)
    : result (list string * list (val * val * dial)) :=
  c <- get p "config" ;; w <- get p "webhook" ;;
  a <- dial_of "service" release_ns p ;;
  let who := cat ["probe "; py_str c; "/"; py_str w] in
  let candidates := List.filter (λ h, py_eq (h_config h) c && py_eq (h_name h) w) hooks in
  if negb (nonempty candidates) then Ok ([cat [who; " names a webhook the render does not install"]], []) else
  let dials := omap h_dial candidates in
  known <- mapR hash_dial dials ;;
  a <- hash_dial a ;;
  if negb (existsb (dial_eqb a) known) then
    sorted <- sort_dials dials ;;
    Ok ([cat [who; " dials "; dial_repr a; ", the API server dials [";
              str_join ", " (map dial_repr sorted); "]"]], [])
  else if hashable c && hashable w then Ok ([], [(c, w, a)]) else Raise TypeError.

Definition proved (probes : list (val * val * dial)) (h : hook) (a : dial) : bool :=
  existsb (λ '(c, w, b), py_eq (h_config h) c && py_eq (h_name h) w && dial_eqb a b) probes.

(** A hook at Fail whose dial no probe proves. *)
Definition judge_hook (probes : list (val * val * dial)) (h : hook) : result (list string) :=
  if negb (py_eq (h_policy h) (VStr "Fail")) then Ok [] else
  match h_dial h with
  | None => Ok []
  | Some a =>
      a <- hash_dial a ;;
      if negb (hashable (h_config h) && hashable (h_name h)) then Raise TypeError else
      Ok (if proved probes h a then []
          else [cat [py_str (h_config h); "/"; py_str (h_name h); " ("; py_str a.2;
                     "): failurePolicy Fail with no probe in webhookGate.probes; it would be activated unproved"]])
  end.

Definition judge (docs probes : list val) (release_ns : val) (accepted : list string) : result (list string) :=
  hs <- flatM (config_hooks release_ns accepted) docs ;;
  let hooks := map snd hs in
  ps <- mapR (judge_probe release_ns hooks) probes ;;
  unproved <- flatM (judge_hook (concat (map snd ps))) hooks ;;
  Ok (concat (map fst hs) ++ concat (map fst ps) ++ unproved).

(** [judge_all]: [render] is the documents that helm renders for a profile. *)
Section judge_all.
Context (render : list string → result (list val)).

Definition judge_profile (accepted : list string) (profile : list string)
    : result (list string * list val) :=
  docs <- render profile ;; probes <- gate_probes docs ;;
  seen <- ignored docs ;;
  a <- judge docs probes (VStr "gibson") accepted ;;
  b <- reach docs probes (VStr "gibson") ;;
  Ok (map (λ line, cat ["["; str_join "+" profile; "] "; line]) (a ++ b), seen).
Definition judge_all (accepted : list string) : result (list string) :=
  l <- mapR (judge_profile accepted) PROFILES ;;
  Ok (concat l.*1 ++ stale (concat l.*2) accepted).
End judge_all.

(** ** The self-test of the script, but its last case, which renders the chart *)
Definition webhook_doc (kind name hook fp : string) (client : list (string * val)) : val :=
  VDict [("apiVersion", VStr "admissionregistration.k8s.io/v1"); ("kind", VStr kind);
         ("metadata", str_dict [("name", name)]);
         ("webhooks", VList [VDict [("name", VStr hook); ("failurePolicy", VStr fp); ("clientConfig", VDict client)]])].
Definition svc_client (name : string) (port : list (string * val)) : list (string * val) :=
  [("service", VDict ([("name", VStr name); ("namespace", VStr "gibson")] ++ port ++ [("path", VStr "/validate")]))].
Definition FIXTURE : list val :=
  [webhook_doc "ValidatingWebhookConfiguration" "probed" "a.example.io" "Fail" (svc_client "a-svc" [("port", VInt 443)]);
   webhook_doc "ValidatingWebhookConfiguration" "unprobed" "b.example.io" "Fail" (svc_client "b-svc" []);
   webhook_doc "MutatingWebhookConfiguration" "urlbacked" "c.example.io" "Fail"
     [("url", VStr "https://elsewhere.example/mutate")];
   webhook_doc "ValidatingWebhookConfiguration" "open" "d.example.io" "Ignore" (svc_client "d-svc" [])].
Definition SPIRE_FIXTURE (fp : string) : list val :=
  [webhook_doc "ValidatingWebhookConfiguration" "spire-controller-manager-webhook" "vclusterspiffeid.kb.io" fp
     (svc_client "spire-webhook" [])].
Definition REACH_FIXTURE (labels : list (string * string)) (target : Z) : list val :=
  [VDict [("apiVersion", VStr "batch/v1"); ("kind", VStr "Job"); ("metadata", str_dict [("name", "gibson-webhook-gate")]);
          ("spec", VDict [("template", VDict [("metadata", VDict [("labels", str_dict labels)])])])];
   VDict [("apiVersion", VStr "v1"); ("kind", VStr "Service");
          ("metadata", str_dict [("name", "s-webhook"); ("namespace", "other")]);
          ("spec", VDict [("ports", VList [VDict [("port", VInt 443); ("targetPort", VInt target)]])])];
   VDict [("apiVersion", VStr "cilium.io/v2"); ("kind", VStr "CiliumNetworkPolicy");
          ("metadata", str_dict [("name", "s-operator"); ("namespace", "other")]);
          ("spec", VDict [("ingress", VList [VDict [
             ("fromEndpoints", VList [VDict [("matchLabels", str_dict
                [("k8s:io.kubernetes.pod.namespace", "gibson"); ("app.kubernetes.io/component", "webhook-gate")])]]);
             ("toPorts", VList [VDict [("ports", VList [str_dict [("port", "9443"); ("protocol", "TCP")]])]])]])])]].
Definition gate_labels (egress : bool) : list (string * string) :=
  ("app.kubernetes.io/component", "webhook-gate")
  :: if egress then [("gibson.zeroroot.ai/egress-namespaces", "true")] else [].
Definition REACH_PROBES : list val :=
  [VDict [("config", VStr "s"); ("webhook", VStr "s.example.io"); ("namespace", VStr "other");
          ("service", VStr "s-webhook"); ("port", VInt 443); ("path", VStr "/validate")]].
Definition fixture_probe (config hook service : string) (path : string) : val :=
  VDict [("config", VStr config); ("webhook", VStr hook); ("service", VStr service); ("port", VInt 443);
         ("path", VStr path)].
Definition FIXTURE_PROBES : list val :=
  [fixture_probe "probed" "a.example.io" "a-svc" "/validate"; fixture_probe "gone" "z.example.io" "z" "/"].

Definition selftest_cases : list (result bool) :=
  let gibson := VStr "gibson" in
  let want := ["unprobed/b.example.io (/validate): failurePolicy Fail with no probe";
               "urlbacked/c.example.io: url-backed"; "open/d.example.io: failurePolicy 'Ignore'";
               "probe gone/z.example.io names a webhook"] in
  let listed := ["vclusterspiffeid.kb.io"] in
  let spire := SPIRE_FIXTURE "Ignore" in
  let count n m := got <- m ;; Ok (length (A := string) got =? n) in
  [(got <- judge FIXTURE FIXTURE_PROBES gibson ACCEPTED_IGNORE ;;
    Ok ((length got =? 4) && forallb (λ w, existsb (λ g, startswith g w) got) want));
   (got <- judge (take 1 FIXTURE) [fixture_probe "probed" "a.example.io" "a-svc" "/wrong"] gibson ACCEPTED_IGNORE ;;
    Ok ((length got =? 2) && existsb (contains "dials") got && existsb (contains "no probe") got));
   (seen <- ignored spire ;; got <- judge spire [] gibson listed ;;
    Ok (negb (nonempty got) && negb (nonempty (stale seen listed))));
   count 1 (judge spire [] gibson []);
   (seen <- ignored spire ;; Ok (length (stale seen (listed ++ ["vgone.kb.io"])) =? 1));
   (seen <- ignored (SPIRE_FIXTURE "Fail") ;; Ok (length (stale seen listed) =? 1));
   count 0 (reach (REACH_FIXTURE (gate_labels true) 9443) REACH_PROBES gibson);
   count 1 (reach (REACH_FIXTURE (gate_labels false) 9443) REACH_PROBES gibson);
   count 1 (reach (take 2 (REACH_FIXTURE (gate_labels true) 9443)) REACH_PROBES gibson);
   count 1 (reach (REACH_FIXTURE (gate_labels true) 8443) REACH_PROBES gibson)].
Definition selftest : result Z :=
  oks <- mapR id selftest_cases ;; Ok (if forallb id oks then 0 else 1)%Z.

Lemma webhooks_selftest : selftest = Ok 0%Z.
Proof. vm_compute. reflexivity. Qed.

(** ** What the guard promises *)

(** *** Each webhook *)

(** The probe [p] proves the webhook [name] of the configuration [cfg]: it
    dials the address [a] that the API server dials. *)
Definition proves (release_ns : val) (cfg name : val) (a : dial) (p : val) : Prop :=
  ∃ b, dial_of "service" release_ns p = Ok b ∧ dial_eqb a b = true ∧
    py_eq cfg (fld p "config") = true ∧ py_eq name (fld p "webhook") = true.

Lemma judge_probe_proves release_ns hooks p bad l c w a :
  judge_probe release_ns hooks p = Ok (bad, l) → (c, w, a) ∈ l →
  c = fld p "config" ∧ w = fld p "webhook" ∧ dial_of "service" release_ns p = Ok a.
Proof.
  unfold judge_probe. intros (pc & ->%get_Ok & H)%bind_Ok Hin.
  apply bind_Ok in H as (pw & ->%get_Ok & H). apply bind_Ok in H as (b & Hb & H).
  destruct (nonempty _); cbn [negb] in H; [|injection H as <- <-; by apply elem_of_nil in Hin].
  apply bind_Ok in H as (known & _ & H). apply bind_Ok in H as (b' & Hb' & H).
  unfold hash_dial in Hb'. destruct b as [[[s n] q] t]. destruct (_ && _) in Hb'; [injection Hb' as <-|done].
  destruct (existsb _ known); cbn [negb] in H.
  - destruct (_ && _) in H; [|done]. injection H as <- <-. apply list_elem_of_singleton in Hin.
    by injection Hin as -> -> ->.
  - apply bind_Ok in H as (srt & _ & H). injection H as <- <-. by apply elem_of_nil in Hin.
Qed.

Lemma judge_hook_clean probes h :
  judge_hook probes h = Ok [] → h_policy h = VStr "Fail" →
  ∀ a, h_dial h = Some a → proved probes h a = true.
Proof.
  unfold judge_hook. intros H Hf a Ha. rewrite Hf, Ha in H. cbn [py_eq negb str_eqb] in H.
  change (negb (py_eq (VStr "Fail") (VStr "Fail"))) with false in H.
  apply bind_Ok in H as (a' & Hh & H). unfold hash_dial in Hh. destruct a as [[[s n] q] t].
  destruct (_ && _) in Hh; [injection Hh as <-|done]. destruct (negb _) in H; [done|].
  injection H as H. by apply if_nil_cons in H.
Qed.

(** A clean verdict means that no webhook is activated unproved.  Each
    webhook of each configuration of the render has a service, it fails closed
    or is an accepted exception, and when it fails closed a probe of the gate
    names it and dials the service, namespace, port and path that the API
    server dials. *)
Theorem clean_webhooks_are_proved (docs probes : list val) (release_ns : val) (accepted : list string)
    (d w : val) (ws : list val)
    (Hclean : judge docs probes release_ns accepted = Ok []) (Hd : d ∈ docs)
    (Hcfg : is_webhook_config d = Ok true) (Hws : get_list d "webhooks" = Ok ws) (Hw : w ∈ ws) :
  let cfg := fld (fld d "metadata") "name" in
  let name := fld w "name" in
  let svc := fld (por (fld w "clientConfig") (VDict [])) "service" in
  truthy svc = true ∧
  (fld w "failurePolicy" = VStr "Fail" ∨ in_tuple name accepted = true) ∧
  (fld w "failurePolicy" = VStr "Fail" →
    ∃ a p, dial_of "name" release_ns svc = Ok a ∧ p ∈ probes ∧ proves release_ns cfg name a p).
Proof.
  intros cfg name svc. unfold judge in Hclean. apply bind_Ok in Hclean as (hs & Hhs & H).
  apply bind_Ok in H as (ps & Hps & H). apply bind_Ok in H as (un & Hun & H). injection H as H.
  apply app_eq_nil in H as [H1 H]. apply app_eq_nil in H as [_ ->].
  destruct (flatM_Ok_elem _ _ _ _ Hhs Hd) as [r Hr]. pose proof Hr as Hr'. unfold config_hooks in Hr.
  rewrite Hcfg in Hr. cbn [rbind negb] in Hr. apply bind_Ok in Hr as (c & Hc & Hr).
  unfold meta_name in Hc. apply bind_Ok in Hc as (m & ->%item_fld & ->%item_fld). fold cfg in Hr.
  rewrite Hws in Hr. cbn [rbind] in Hr.
  destruct (mapR_elem_2 _ _ _ _ Hr Hw) as ([bad h] & Hin & Hh).
  assert ((bad, h) ∈ hs) as Hbh by (apply (flatM_elem _ _ _ Hhs); by exists d, r).
  assert (bad = []) as -> by by eapply concat_fst_nil.
  unfold webhook_hook in Hh. apply bind_Ok in Hh as (n & ->%get_Ok & Hh). fold name in Hh.
  apply bind_Ok in Hh as (cc & ->%por_dict_fld & Hh). apply bind_Ok in Hh as (s & ->%get_Ok & Hh). fold svc in Hh.
  apply bind_Ok in Hh as (dl & Hdl & Hh). apply bind_Ok in Hh as (fp & ->%get_Ok & Hh).
  apply bind_Ok in Hh as (op & Hop & Hh). injection Hh as Hbad <-.
  apply app_eq_nil in Hbad as [Hb1 Hb2]. apply if_nil_cons in Hb1. apply if_cons_nil in Hb2 as ->.
  split; [done|]. rewrite Hb1 in Hdl. apply bind_Ok in Hdl as (a & Ha & Hdl). injection Hdl as <-. split.
  - destruct (py_eq (fld w "failurePolicy") (VStr "Fail")) eqn:Ef; [left; by apply py_eq_str_r|]. right.
    apply notR_false in Hop. unfold in_set in Hop. by destruct (hashable name); [injection Hop as ->|].
  - intros Hf. rewrite flatM_nil in Hun.
    assert (judge_hook (concat (map snd ps)) (Hook cfg name (Some a) (fld w "failurePolicy")) = Ok []) as Hj.
    { apply Hun. apply list_elem_of_In, in_map_iff.
      exists ([], Hook cfg name (Some a) (fld w "failurePolicy")). split; [done|]. by apply list_elem_of_In. }
    pose proof (judge_hook_clean _ _ Hj Hf a eq_refl) as Hp. unfold proved in Hp.
    apply existsb_elem_of in Hp as ([[c w'] b] & Hcw & E). apply elem_of_concat in Hcw as (l & Hl & Hcw).
    apply list_elem_of_In, in_map_iff in Hl as ([bad l'] & <- & Hl%list_elem_of_In).
    destruct (mapR_elem _ _ _ _ Hps Hl) as (p & Hp & Hjp).
    destruct (judge_probe_proves _ _ _ _ _ _ _ _ Hjp Hcw) as (-> & -> & Hb).
    apply andb_true in E as [E Eb]. apply andb_true in E as [Ec Ew].
    exists a, p. split; [done|]. split; [done|]. by exists b.
Qed.

Definition webhook_of (d : val) : val := nth 0 (match get_list d "webhooks" with Ok l => l | Raise _ => [] end) VNone.
Definition probed_doc : val := nth 0 FIXTURE VNone.
Definition probed_probe : val := nth 0 FIXTURE_PROBES VNone.

Lemma clean_webhooks_are_proved_witness :
  judge [probed_doc] [probed_probe] (VStr "gibson") [] = Ok [] ∧
  ∃ a p, p ∈ [probed_probe] ∧ proves (VStr "gibson") (VStr "probed") (VStr "a.example.io") a p.
Proof.
  assert (judge [probed_doc] [probed_probe] (VStr "gibson") [] = Ok []) as H by (vm_compute; reflexivity).
  split; [exact H|].
  destruct (clean_webhooks_are_proved [probed_doc] [probed_probe] (VStr "gibson") [] probed_doc
    (webhook_of probed_doc) [webhook_of probed_doc] H) as (_ & _ & Hp);
    try (vm_compute; reflexivity); try left.
  destruct (Hp ltac:(vm_compute; reflexivity)) as (a & p & _ & Hin & Hpr).
  exists a, p. split; [exact Hin|exact Hpr].
Defined.

(** The list of accepted exceptions is exact.  The guard reports no stale
    exception when, and only when, each accepted webhook was seen at Ignore in
    a render. *)
Theorem stale_exceptions_exact (seen : list val) (accepted : list string) :
  stale seen accepted = [] ↔ ∀ n, n ∈ accepted → VStr n ∈ seen.
Proof.
  unfold stale. split.
  - intros H n Hn. apply map_eq_nil in H. apply existsb_py_eq_str.
    destruct (existsb (py_eq (VStr n)) seen) eqn:E; [done|].
    assert (n ∈ @nil string) as Hx; [|by apply elem_of_nil in Hx]. rewrite <- H.
    apply list_elem_of_In, filter_In. rewrite <- list_elem_of_In, sorted_set_elem, E. done.
  - intros H. destruct (List.filter _ _) as [|n l] eqn:E; [done|]. exfalso.
    assert (In n (n :: l)) as Hn by by left. rewrite <- E in Hn. apply filter_In in Hn as [Hn He].
    apply list_elem_of_In in Hn. rewrite sorted_set_elem in Hn. apply H, existsb_py_eq_str in Hn. by rewrite Hn in He.
Qed.

(** *** The lines of the gate script *)

(** A field of a probe line: no white space and no separator. *)
Definition field_char (c : ascii) : bool := negb (is_space c) && negb (Ascii.eqb c "|").


Lemma no_char (c : ascii) s : str_forallb (λ d, negb (Ascii.eqb d c)) s = true → contains (String c "") s = false.
Proof.
  induction s as [|d s IH]; [done|]. cbn [str_forallb contains]. intros [Hd Hs]%andb_true_iff.
  rewrite (IH Hs). unfold startswith. cbn. rewrite Ascii.eqb_sym. by destruct (Ascii.eqb d c).
Qed.

Lemma join_fields l : (∀ x, x ∈ l → str_forallb field_char x = true) →
  str_forallb (λ c, negb (is_space c)) (str_join "|" l) = true.
Proof.
  assert (∀ x, str_forallb field_char x = true → str_forallb (λ c, negb (is_space c)) x = true) as Hf.
  { intros x. apply str_forallb_impl. intros c. by intros [? _]%andb_true_iff. }
  induction l as [|x l IH]; [done|]. intros Hl. destruct l as [|y l]; [by apply Hf, Hl; left|].
  change "|" with (String "|" ""). rewrite str_join_cons, !str_forallb_app by done. rewrite IH, Hf; [done|..].
  - apply Hl. left.
  - intros z Hz. apply Hl. by right.
Qed.

(** A probe line reads back.  The line that joins the six fields of a probe
    with the separator parses to the probe, whatever the fields, as long as they
    hold no white space and no separator and the port is a number. *)
Theorem probe_line_reads_back (config webhook namespace service port path : string) (z : Z)
    (Hf : ∀ x, x ∈ [config; webhook; namespace; service; port; path] → str_forallb field_char x = true)
    (Hp : int_of_str port = Some z) :
  probe_of_line (str_join "|" [config; webhook; namespace; service; port; path]) =
  Ok (VDict [("config", VStr config); ("webhook", VStr webhook); ("namespace", VStr namespace);
             ("service", VStr service); ("port", VInt z); ("path", VStr path)]).
Proof.
  unfold probe_of_line. set (l := [config; webhook; namespace; service; port; path]) in *.
  assert (strip (str_join "|" l) = str_join "|" l) as ->.
  { unfold strip. pose proof (join_fields l Hf) as H. by rewrite rstrip_none, lstrip_none. }
  change "|" with (String "|" "").
  rewrite (str_split_join "|"%char l); [|done|].
  - cbn [l]. unfold py_int. by rewrite Hp.
  - intros x Hx. apply no_char. apply (str_forallb_impl field_char); [|by apply Hf].
    intros c. by intros [_ ?]%andb_true_iff.
Qed.

Lemma probe_line_reads_back_witness :
  probe_of_line "gibson|v.example.io||gibson-webhook|443|/validate" =
  Ok (VDict [("config", VStr "gibson"); ("webhook", VStr "v.example.io"); ("namespace", VStr "");
             ("service", VStr "gibson-webhook"); ("port", VInt 443); ("path", VStr "/validate")]).
Proof.
  apply (probe_line_reads_back "gibson" "v.example.io" "" "gibson-webhook" "443" "/validate" 443).
  - intros x Hx. rewrite !elem_of_cons, elem_of_nil in Hx.
    destruct Hx as [->|[->|[->|[->|[->|[->|[]]]]]]]; reflexivity.
  - reflexivity.
Defined.
