(* ===== verification/OpenfgaAuthn.v ===== *)
(** * scripts/check-openfga-authn.py: OpenFGA takes calls with its key only

    In each render with an OpenFGA Deployment: the server requires the
    preshared key and reads it from its Secret, OpenBao writes the Secret, and
    each client container mounts it. *)
From S2P Require Import Prelude PyStr PyVal.
From Stdlib Require Import Ascii.

Definition KEY_SECRET : string := "gibson-openfga-preshared-key".
Definition KEY_ENV : string := "GIBSON_FGA_KEY_DIR".
Definition ADDRESS_ENVS : list string := ["EXT_AUTHZ_FGA_ADDR"; "FGA_URL"; "GIBSON_AUTHZ_FGA_STORE_ID"].
Definition MIN_CLIENTS : nat := 5.
Definition WORKLOADS : list string := ["Deployment"; "StatefulSet"; "DaemonSet"; "Job"; "CronJob"; "Pod"].

Definition pod_spec (d : val) : result val :=
  kind <- get d "kind" ;;
  if py_eq kind (VStr "Pod") then get_dict d "spec"
  else if py_eq kind (VStr "CronJob") then
    s <- get_dict d "spec" ;; jt <- get_dict s "jobTemplate" ;; js <- get_dict jt "spec" ;;
    t <- get_dict js "template" ;; get_dict t "spec"
  else s <- get_dict d "spec" ;; t <- get_dict s "template" ;; get_dict t "spec".

Definition containers (d : val) : result (list val) :=
  spec <- pod_spec d ;; i <- list_field spec "initContainers" ;; c <- list_field spec "containers" ;;
  Ok (i ++ c).

Definition is_openfga_server (d : val) : result bool :=
  kind <- get d "kind" ;;
  if negb (py_eq kind (VStr "Deployment")) then Ok false else
  cs <- containers d ;;
  anyM (λ c, es <- get_list c "env" ;;
    anyM (λ e, n <- get e "name" ;; Ok (py_eq n (VStr "OPENFGA_DATASTORE_ENGINE"))) es) cs.

(** The env entries of a container by name; a later entry replaces an
    earlier one. *)
Definition env_map (c : val) : result (list (val * val)) :=
  es <- get_list c "env" ;; flatM (λ e, n <- get e "name" ;; vdict_item n e) es.
(** [env.get(k) or {}] *)
Definition env_get (env : list (val * val)) (k : string) : val :=
  por (default VNone (vdict_get (VStr k) env)) (VDict []).

Definition is_client (d c : val) : result bool :=
  env <- env_map c ;;
  if meets ADDRESS_ENVS env.*1 then Ok true else
  command <- list_field c "command" ;; args <- list_field c "args" ;;
  let script := str_join " " (map py_str (command ++ args)) in
  if contains "gibson-openfga" script && contains "/stores" script then Ok true else
  kind <- get d "kind" ;;
  if negb (py_eq kind (VStr "Deployment")) then Ok false else
  m <- item d "metadata" ;; n <- get_default m "name" (VStr "") ;;
  op <- str_in "platform-operator" n ;;
  if negb op then Ok false else
  cn <- get c "name" ;; in_set cn ["manager"; "platform-operator"].

(** The findings of one container of an OpenFGA server. *)
Definition server_findings (name : string) (c : val) : result (list string) :=
  env <- env_map c ;;
  if negb (existsb (py_eq (VStr "OPENFGA_DATASTORE_ENGINE")) env.*1) then Ok [] else
  method <- get (env_get env "OPENFGA_AUTHN_METHOD") "value" ;;
  let keys := env_get env "OPENFGA_AUTHN_PRESHARED_KEYS" in
  vf <- get_dict keys "valueFrom" ;; ref <- get_dict vf "secretKeyRef" ;;
  literal <- str_in "value" keys ;;
  key_bad <- (if literal : bool then Ok [cat [name; ": OPENFGA_AUTHN_PRESHARED_KEYS is a literal value"]] else
    n <- get ref "name" ;; k <- get ref "key" ;;
    Ok (if py_eq n (VStr KEY_SECRET) && py_eq k (VStr "keys") then []
        else [cat [name; ": OPENFGA_AUTHN_PRESHARED_KEYS reads "; py_str (por ref (VStr "nothing"));
                   ", not "; KEY_SECRET; "/keys"]])) ;;
  Ok ((if py_eq method (VStr "preshared") then []
       else [cat [name; ": OpenFGA runs with OPENFGA_AUTHN_METHOD="; py_repr method; ", not preshared"]])
      ++ key_bad).
Definition judge_server (name : string) (d : val) : result (list string) :=
  cs <- containers d ;; flatM (server_findings name) cs.

(** The volume mount [m] is the key Secret at the key directory. *)
Definition mounts_key (vols : list (val * val)) (keydir : string) (m : val) : result bool :=
  p <- get_default m "mountPath" (VStr "") ;; path <- as_str p ;;
  if negb (str_eqb (rstrip_char "/" path) (rstrip_char "/" keydir)) then Ok false else
  n <- get m "name" ;;
  if negb (hashable n) then Raise TypeError else
  secret <- get_dict (por (default VNone (vdict_get n vols)) (VDict [])) "secret" ;;
  s <- get secret "secretName" ;; Ok (py_eq s (VStr KEY_SECRET)).

Definition judge_client (name : string) (d c : val) : result (list string) :=
  env <- env_map c ;;
  keydir <- get (env_get env KEY_ENV) "value" ;;
  if negb (truthy keydir) then
    n <- get c "name" ;;
    Ok [cat [name; "/"; py_str n; ": an OpenFGA client with no "; KEY_ENV; "; OpenFGA refuses its calls"]]
  else
    spec <- pod_spec d ;; vs <- get_list spec "volumes" ;;
    vols <- flatM (λ v, n <- get v "name" ;; vdict_item n v) vs ;;
    ms <- get_list c "volumeMounts" ;;
    mounted <- anyM (λ m, p <- get_default m "mountPath" (VStr "") ;; _ <- as_str p ;;
                          dir <- as_str keydir ;; mounts_key vols dir m) ms ;;
    if mounted : bool then Ok [] else
    n <- get c "name" ;;
    Ok [cat [name; "/"; py_str n; ": "; KEY_ENV; "="; py_str keydir; " is not a mount of the Secret "; KEY_SECRET]].

(** [d] is the ExternalSecret that writes the key Secret from its OpenBao key. *)
Definition writes_key (d : val) : result bool :=
  kind <- get d "kind" ;;
  if negb (py_eq kind (VStr "ExternalSecret")) then Ok false else
  spec <- get_dict d "spec" ;; target <- get_dict spec "target" ;; n <- get target "name" ;;
  if negb (py_eq n (VStr KEY_SECRET)) then Ok false else
  data <- get_list spec "data" ;;
  anyM (λ x, r <- get_dict x "remoteRef" ;; k <- get r "key" ;; Ok (py_eq k (VStr KEY_SECRET))) data.

(** The client containers of one document, each with its findings. *)
Definition clients_of (d : val) : result (list (list string)) :=
  kind <- get d "kind" ;;
  w <- in_set kind WORKLOADS ;;
  if negb w then Ok [] else
  server <- is_openfga_server d ;;
  if server : bool then Ok [] else
  cs <- containers d ;;
  flatM (λ c,
    client <- is_client d c ;;
    if negb client then Ok [] else
    k <- item d "kind" ;; n <- meta_name d ;;
    bad <- judge_client (cat [py_str k; "/"; py_str n]) d c ;; Ok [bad]) cs.

(** Findings, the client count and whether the render holds OpenFGA. *)
Definition judge (docs : list val) : result (list string * nat * bool) :=
  let docs := List.filter (λ d, is_dict d && truthy (fld d "kind")) docs in
  servers <- filterM is_openfga_server docs ;;
  if negb (nonempty servers) then Ok ([], 0, false) else
  bad <- flatM (λ d, n <- meta_name d ;; judge_server (py_str n) d) servers ;;
  written <- anyM writes_key docs ;;
  clients <- flatM clients_of docs ;;
  let n := length clients in
  Ok (bad
      ++ (if written : bool then []
          else [cat ["no ExternalSecret writes "; KEY_SECRET; " from the OpenBao key "; KEY_SECRET]])
      ++ concat clients
      ++ (if n <? MIN_CLIENTS
          then [cat ["only "; str_of_int (Z.of_nat n); " OpenFGA clients found, want at least ";
                     str_of_int (Z.of_nat MIN_CLIENTS); ": this check is blind"]]
          else []), n, true).

(** The golden renders: the base name of each file and its documents. *)
Definition audit (goldens : list (string * list val)) : result (list string * nat * nat) :=
  l <- mapR (λ g, '(found, n, has) <- judge g.2 ;;
                  Ok (if has : bool then [(map (λ x, cat [g.1; ": "; x]) found, n)] else [])) goldens ;;
  let renders := concat l in
  Ok (concat renders.*1
      ++ (if nonempty renders then []
          else ["no golden render holds an OpenFGA Deployment: this check is blind"]),
      length renders, sum_list renders.*2).

(** ** The self-test of the script *)
Definition key_dir : string := "/etc/gibson/openfga-key".
Definition env_var (name value : string) : val := str_dict [("name", name); ("value", value)].
Definition workload (kind name cname : string) (env : list val) (args : list string) : val :=
  VDict [("kind", VStr kind); ("metadata", str_dict [("name", name)]);
    ("spec", VDict [("template", VDict [("spec", VDict [
      ("containers", VList [VDict ([("name", VStr cname); ("env", VList (env_var KEY_ENV key_dir :: env));
         ("volumeMounts", VList [str_dict [("name", "openfga-key"); ("mountPath", key_dir)]])]
         ++ if nonempty args then [("args", VList (map VStr args))] else [])]);
      ("volumes", VList [VDict [("name", VStr "openfga-key"); ("secret", str_dict [("secretName", KEY_SECRET)])]])])])])].
Definition server (method : string) (keys : list (string * val)) : val :=
  VDict [("kind", VStr "Deployment"); ("metadata", str_dict [("name", "gibson-openfga")]);
    ("spec", VDict [("template", VDict [("spec", VDict [("containers", VList [VDict [("name", VStr "openfga");
       ("env", VList [env_var "OPENFGA_DATASTORE_ENGINE" "postgres"; env_var "OPENFGA_AUTHN_METHOD" method;
          VDict (("name", VStr "OPENFGA_AUTHN_PRESHARED_KEYS") :: keys)])]])])])])].
Definition keys_from (secret : string) : list (string * val) :=
  [("valueFrom", VDict [("secretKeyRef", str_dict [("name", secret); ("key", "keys")])])].
Definition es : val :=
  VDict [("kind", VStr "ExternalSecret"); ("metadata", str_dict [("name", KEY_SECRET)]);
    ("spec", VDict [("target", str_dict [("name", KEY_SECRET)]);
       ("data", VList [VDict [("remoteRef", str_dict [("key", KEY_SECRET); ("property", "key")])]])])].
(** A render that passes: the server, the ExternalSecret and five clients. *)
Definition fixture : list val :=
  [server "preshared" (keys_from KEY_SECRET); es;
   workload "StatefulSet" "gibson" "gibson" [env_var "GIBSON_AUTHZ_FGA_STORE_ID" "s"] [];
   workload "Deployment" "gibson-ext-authz" "ext-authz" [env_var "EXT_AUTHZ_FGA_ADDR" "https://x"] [];
   workload "Deployment" "gibson-tenant-operator" "manager" [env_var "FGA_URL" "https://x"] [];
   workload "Deployment" "gibson-platform-operator" "manager" [] [];
   workload "Job" "gibson-fga-init" "fga-init" [] ["FGA=https://gibson-openfga:8080; fcurl ${FGA}/stores"]].

Definition pod_at : list place := [K "spec"; K "template"; K "spec"].
Definition no_key_dir : val → val :=
  edit (pod_at ++ [K "containers"; I 0; K "env"]) (λ v,
    match v with VList l => VList (List.filter (λ e, negb (py_eq (fld e "name") (VStr KEY_ENV))) l) | _ => v end).
(** The good render with the document at [i] changed. *)
Definition at_doc (i : nat) (f : val → val) : list val := alter f i fixture.
Definition failing : list (list val) :=
  [at_doc 0 (λ _, server "none" (keys_from KEY_SECRET));
   at_doc 0 (λ _, server "preshared" [("value", VStr "k")]);
   at_doc 0 (λ _, server "preshared" (keys_from "other"));
   delete 1 fixture;
   at_doc 2 no_key_dir; at_doc 3 no_key_dir; at_doc 6 no_key_dir;
   at_doc 4 (put (pod_at ++ [K "volumes"; I 0; K "secret"; K "secretName"]) (VStr "other"));
   at_doc 5 (put (pod_at ++ [K "containers"; I 0; K "volumeMounts"]) (VList []))].
Definition selftest : result Z :=
  '(found, n, _) <- judge fixture ;;
  if nonempty found || negb (n =? 5) then Ok 1%Z else
  bad <- anyM (λ docs, '(f, _, _) <- judge docs ;; Ok (negb (length f =? 1))) failing ;;
  if bad : bool then Ok 1%Z else
  '(short, _, _) <- judge (take 4 fixture) ;;
  Ok (if existsb (contains "blind") short then 0 else 1)%Z.

Lemma openfgaauthn_selftest : selftest = Ok 0%Z.
Proof. vm_compute. reflexivity. Qed.

(** ** What the guard promises *)

(** The container of a server takes calls with the key of the Secret only. *)
Definition requires_key (c : val) : Prop :=
  ∃ env, env_map c = Ok env ∧
    fld (env_get env "OPENFGA_AUTHN_METHOD") "value" = VStr "preshared" ∧
    let keys := env_get env "OPENFGA_AUTHN_PRESHARED_KEYS" in
    let ref := por (fld (por (fld keys "valueFrom") (VDict [])) "secretKeyRef") (VDict []) in
    str_in "value" keys = Ok false ∧ fld ref "name" = VStr KEY_SECRET ∧ fld ref "key" = VStr "keys".

(** The container [c] of the pod of [d] has the key directory, and a volume of
    the key Secret is mounted there. *)
Definition mounts_the_key (d c : val) : Prop :=
  ∃ env dir spec vs vols ms m path,
    env_map c = Ok env ∧ fld (env_get env KEY_ENV) "value" = VStr dir ∧ dir ≠ "" ∧
    pod_spec d = Ok spec ∧ get_list spec "volumes" = Ok vs ∧
    flatM (λ v, n <- get v "name" ;; vdict_item n v) vs = Ok vols ∧
    get_list c "volumeMounts" = Ok ms ∧ m ∈ ms ∧
    get_default m "mountPath" (VStr "") = Ok (VStr path) ∧ rstrip_char "/" path = rstrip_char "/" dir ∧
    fld (por (fld (por (default VNone (vdict_get (fld m "name") vols)) (VDict [])) "secret") (VDict [])) "secretName"
      = VStr KEY_SECRET.

Lemma server_findings_clean name c :
  server_findings name c = Ok [] →
  (∃ env, env_map c = Ok env ∧ VStr "OPENFGA_DATASTORE_ENGINE" ∉ env.*1) ∨ requires_key c.
Proof.
  unfold server_findings. intros (env & Henv & H)%bind_Ok.
  destruct (existsb _ env.*1) eqn:E; cbn [negb] in H.
  2: { left. exists env. split; [done|]. rewrite <- existsb_py_eq_str. by rewrite E. }
  right. apply bind_Ok in H as (method & ->%get_Ok & H). apply bind_Ok in H as (vf & ->%por_dict_fld & H).
  apply bind_Ok in H as (ref & ->%por_dict_fld & H). apply bind_Ok in H as (lit & Hlit & H).
  apply bind_Ok in H as (kb & Hkb & H). injection H as H. apply app_eq_nil in H as [H ->].
  apply if_nil_cons, py_eq_str_r in H. destruct lit; [done|].
  apply bind_Ok in Hkb as (n & ->%get_Ok & Hkb). apply bind_Ok in Hkb as (k & ->%get_Ok & Hkb).
  injection Hkb as Hkb. apply if_nil_cons, andb_true in Hkb as [Hn%py_eq_str_r Hk%py_eq_str_r].
  by exists env.
Qed.

Lemma mounts_key_ok vols dir m :
  mounts_key vols dir m = Ok true →
  ∃ path, get_default m "mountPath" (VStr "") = Ok (VStr path) ∧ rstrip_char "/" path = rstrip_char "/" dir ∧
    fld (por (fld (por (default VNone (vdict_get (fld m "name") vols)) (VDict [])) "secret") (VDict [])) "secretName"
      = VStr KEY_SECRET.
Proof.
  unfold mounts_key. intros (p & Hp & H)%bind_Ok. apply bind_Ok in H as (path & Hpath & H).
  destruct p; try done. injection Hpath as ->. destruct (str_eqb _ _) eqn:E; [|done]. cbn [negb] in H.
  apply str_eqb_eq in E. apply bind_Ok in H as (n & ->%get_Ok & H). destruct (hashable _); [|done].
  cbn [negb] in H. apply bind_Ok in H as (sec & ->%por_dict_fld & H). apply bind_Ok in H as (s & ->%get_Ok & H).
  injection H as H. exists path. split_and!; [done..|]. by apply py_eq_str_r.
Qed.

Lemma judge_client_clean name d c : judge_client name d c = Ok [] → mounts_the_key d c.
Proof.
  unfold judge_client. intros (env & Henv & H)%bind_Ok. apply bind_Ok in H as (kd & ->%get_Ok & H).
  destruct (truthy _) eqn:Et; cbn [negb] in H; [|ok_inv].
  apply bind_Ok in H as (spec & Hspec & H). apply bind_Ok in H as (vs & Hvs & H).
  apply bind_Ok in H as (vols & Hvols & H). apply bind_Ok in H as (ms & Hms & H).
  apply bind_Ok in H as (mounted & Hm & H). destruct mounted; [|ok_inv].
  apply anyM_true in Hm as (m & Hin & Hm). apply bind_Ok in Hm as (p & _ & Hm).
  apply bind_Ok in Hm as (s & _ & Hm). apply bind_Ok in Hm as (dir & Hdir & Hm).
  destruct (fld (env_get env KEY_ENV) "value") as [| | |dir'| |] eqn:Ek; try done. injection Hdir as ->.
  destruct (mounts_key_ok _ _ _ Hm) as (path & Hp & Hpd & Hs).
  exists env, dir, spec, vs, vols, ms, m, path. split_and!; try done.
  intros ->. done.
Qed.

(** A clean verdict on a render with OpenFGA means that it takes calls with
    its key only.  Each container of a server requires the preshared key and
    reads it from the key Secret, an ExternalSecret of the render writes that
    Secret, and each client container mounts it at its key directory; the guard
    found at least the five clients of the platform. *)
Theorem clean_openfga_requires_its_key (docs : list val) (n : nat)
    (Hclean : judge docs = Ok ([], n, true)) :
  MIN_CLIENTS ≤ n ∧
  (∃ e, e ∈ docs ∧ writes_key e = Ok true) ∧
  ∀ d, d ∈ docs → is_dict d = true → truthy (fld d "kind") = true →
    (is_openfga_server d = Ok true →
      ∃ cs, containers d = Ok cs ∧ ∀ c, c ∈ cs →
        (∃ env, env_map c = Ok env ∧ VStr "OPENFGA_DATASTORE_ENGINE" ∉ env.*1) ∨ requires_key c) ∧
    (is_openfga_server d = Ok false → in_tuple (fld d "kind") WORKLOADS = true →
      ∃ cs, containers d = Ok cs ∧ ∀ c, c ∈ cs → is_client d c = Ok true → mounts_the_key d c).
Proof.
  unfold judge in Hclean. set (ds := List.filter _ docs) in *.
  assert (∀ d, d ∈ ds ↔ d ∈ docs ∧ is_dict d = true ∧ truthy (fld d "kind") = true) as Hds.
  { intros d. rewrite list_elem_of_In. unfold ds. rewrite filter_In, andb_true_iff, <- list_elem_of_In. done. }
  apply bind_Ok in Hclean as (servers & Hs & H). destruct (nonempty servers); [|done]. cbn [negb] in H.
  apply bind_Ok in H as (bad & Hbad & H). apply bind_Ok in H as (written & Hw & H).
  apply bind_Ok in H as (clients & Hc & H). injection H as H <-.
  apply app_eq_nil in H as [-> H]. apply app_eq_nil in H as [H1 H]. apply app_eq_nil in H as [H2 H3].
  apply if_nil_cons in H1 as ->. apply if_cons_nil, Nat.ltb_ge in H3. split_and!; [done| |].
  - apply anyM_true in Hw as (e & He & Hw). exists e. split; [by apply Hds|done].
  - intros d Hd Hdict Hkind. assert (d ∈ ds) as Hin by by apply Hds. split.
    + intros Hserver. rewrite flatM_nil in Hbad.
      assert (d ∈ servers) as Hsrv by by apply (filterM_Ok _ _ _ Hs).
      specialize (Hbad d Hsrv). apply bind_Ok in Hbad as (nm & _ & Hbad). unfold judge_server in Hbad.
      apply bind_Ok in Hbad as (cs & Hcs & Hbad). exists cs. split; [done|]. rewrite flatM_nil in Hbad.
      intros c Hcin. by eapply server_findings_clean, Hbad.
    + intros Hserver Hwl. destruct (flatM_Ok_elem _ _ _ _ Hc Hin) as [r Hr]. pose proof Hr as Hr'.
      unfold clients_of in Hr. apply bind_Ok in Hr as (k & ->%get_Ok & Hr). unfold in_set in Hr.
      destruct (hashable _); [|done]. rewrite Hwl, Hserver in Hr. cbn [rbind negb] in Hr.
      apply bind_Ok in Hr as (cs & Hcs & Hr). exists cs. split; [done|]. intros c Hcin Hcl.
      destruct (flatM_Ok_elem _ _ _ _ Hr Hcin) as [q Hq]. pose proof Hq as Hq'. rewrite Hcl in Hq.
      cbn [rbind negb] in Hq. apply bind_Ok in Hq as (k & _ & Hq). apply bind_Ok in Hq as (nm & _ & Hq).
      apply bind_Ok in Hq as (b & Hb & Hq). injection Hq as <-.
      assert (b ∈ clients) as Hbc.
      { apply (flatM_elem _ _ _ Hc). exists d, r. split_and!; [done..|].
        apply (flatM_elem _ _ _ Hr). exists c, [b]. split_and!; [done..|left]. }
      rewrite concat_nil in H2. rewrite (H2 b Hbc) in Hb. by eapply judge_client_clean.
Qed.

Definition fga_client : val := nth 2 fixture VNone.

Lemma clean_openfga_requires_its_key_witness :
  judge fixture = Ok ([], 5, true) ∧
  ∃ cs, containers fga_client = Ok cs ∧
    ∀ c, c ∈ cs → is_client fga_client c = Ok true → mounts_the_key fga_client c.
Proof.
  assert (judge fixture = Ok ([], 5, true)) as H by (vm_compute; reflexivity). split; [exact H|].
  destruct (clean_openfga_requires_its_key fixture 5 H) as (_ & _ & Hall).
  apply (Hall fga_client); try (vm_compute; reflexivity). right; right; left.
Defined.
