(* ===== verification/DnsNames.v ===== *)
(** * scripts/check-dns-names.py: each pod resolves only the names it needs

    The DNS rules of the Cilium policies of a golden render: the default deny
    permits names of the cluster and the install, an egress-fqdn policy the
    names that it opens, and only the egress-internet policy each name. *)
From S2P Require Import Prelude PyStr PyVal.
From S2P Require Cilium.

Definition RELEASE_NS : string := "gibson".
Definition KINDS : list string := ["CiliumNetworkPolicy"; "CiliumClusterwideNetworkPolicy"].
Definition INTERNET : string := "gibson.zeroroot.ai/egress-internet".
Definition FQDN : string := "gibson.zeroroot.ai/egress-fqdn".
Definition CLUSTER : string := ".cluster.local".

Definition rules (doc : val) : result (list val) :=
  s <- get doc "spec" ;;
  head <- (if truthy s then x <- item doc "spec" ;; Ok [x] else Ok []) ;;
  tail <- get_list doc "specs" ;;
  Ok (head ++ tail).

Definition dns_names (rule : val) : result (list val) :=
  es <- get_list rule "egress" ;;
  flatM (λ e, tps <- get_list e "toPorts" ;;
    flatM (λ tp, r <- get_dict tp "rules" ;; get_list r "dns") tps) es.

(** The labels that a rule selects, each key without its source prefix. *)
Definition selector (rule : val) : result val :=
  s <- get_dict rule "endpointSelector" ;; ml <- get_dict s "matchLabels" ;; kvs <- items ml ;;
  Ok (VDict (foldl (λ out '(k, v), alist_set (Cilium.norm_key k) v out) [] kvs)).

Definition name_of (sel : val) : result val :=
  n <- get sel "matchName" ;;
  if truthy n then Ok n else p <- get sel "matchPattern" ;; Ok (por p (VStr "")).

Definition is_default_deny (doc : val) : result bool :=
  s <- get_dict doc "spec" ;; sel <- selector s ;;
  kind <- get doc "kind" ;;
  Ok (py_eq kind (VStr "CiliumClusterwideNetworkPolicy")
      && py_eq sel (VDict [("io.kubernetes.pod.namespace", VStr RELEASE_NS)])).

(** A DNS rule for each name, in a policy that does not select the internet. *)
Definition star_findings (name : string) (sel n : val) : result (list string) :=
  p <- get n "matchPattern" ;;
  if negb (py_eq p (VStr "*")) then Ok [] else
  i <- get sel INTERNET ;;
  Ok (if py_eq i (VStr "true") then []
      else [cat [name; ": a DNS rule permits each name, and the policy does not select "; INTERNET]]).

(** The domains of the install: the exact names outside the cluster. *)
Definition domains_of (names : list val) : result (list string) :=
  flatM (λ n,
    m <- get n "matchName" ;;
    if negb (truthy m) then Ok [] else
    s <- as_str m ;; Ok (if endswith s CLUSTER then [] else [s])) names.

Definition inside (domains : list string) (v : string) : bool :=
  endswith v CLUSTER || str_mem v domains || existsb (λ dom, str_eqb v (cat ["*."; dom])) domains.

Definition deny_findings (name : string) (names : list val) : result (list string) :=
  domains <- domains_of names ;;
  outside <- flatM (λ n,
    v <- name_of n ;; s <- as_str v ;;
    Ok (if inside domains s then []
        else [cat [name; ": the default deny permits "; repr_str s;
                   ", which is outside the cluster and the domain"]])) names ;;
  Ok ((if nonempty names then []
       else [cat [name; ": the default deny has no DNS rule, so no pod resolves a Service"]]) ++ outside).

(** (field, name) of an entry with a name *)
Definition NAME_FIELDS : list string := ["matchName"; "matchPattern"].
Definition named_fields (n : val) : result (list (string * val)) :=
  flatM (λ k, x <- get n k ;; Ok (if truthy x then [(k, x)] else [])) NAME_FIELDS.

Definition fqdn_findings (name : string) (names : list val) (r : val) : result (list string) :=
  allowed <- flatM named_fields names ;;
  _ <- set_of (map snd allowed) ;;
  es <- get_list r "egress" ;;
  flatM (λ e, fs <- get_list e "toFQDNs" ;;
    flatM (λ f,
      keys <- named_fields f ;;
      match keys with
      | [] => Ok []
      | (k, x) :: _ =>
          _ <- set_of [x] ;;
          Ok (if existsb (λ a, str_eqb a.1 k && py_eq a.2 x) allowed then []
              else [cat [name; ": opens "; py_str x;
                         " with no DNS rule that permits it, so the pod cannot resolve it"]])
      end) fs) es.

Definition rule_findings (deny : bool) (name : string) (r : val) : result (list string) :=
  names <- dns_names r ;; sel <- selector r ;;
  star <- flatM (star_findings name sel) names ;;
  denied <- (if deny then deny_findings name names else Ok []) ;;
  f <- get sel FQDN ;;
  opened <- (if truthy f then fqdn_findings name names r else Ok []) ;;
  Ok (star ++ denied ++ opened).

(** The findings of one document, and whether it is a default deny with a rule. *)
Definition judge_doc (d : val) : result (list string * bool) :=
  kind <- get d "kind" ;;
  if negb (in_tuple kind KINDS) then Ok ([], false) else
  m <- item d "metadata" ;; n <- item m "name" ;; ns <- get m "namespace" ;;
  if py_eq kind (VStr "CiliumNetworkPolicy") && negb (is_none ns || py_eq ns (VStr RELEASE_NS))
  then Ok ([], false) else
  deny <- is_default_deny d ;;
  if py_eq kind (VStr "CiliumClusterwideNetworkPolicy") && negb deny then Ok ([], false) else
  rs <- rules d ;;
  bad <- flatM (rule_findings deny (py_str n)) rs ;;
  Ok (bad, deny && nonempty rs).

Definition judge (docs : list val) : result (list string) :=
  l <- mapR judge_doc docs ;;
  Ok (concat l.*1
      ++ (if existsb id l.*2 then []
          else ["no default deny of the release namespace in the render: this check is blind"])).

(** ** What the guard promises *)

(** A document that the guard judges: a policy of the release namespace, or the
    clusterwide default deny. *)
Definition judged (d : val) : Prop :=
  fld d "kind" = VStr "CiliumNetworkPolicy" ∧
    (fld (fld d "metadata") "namespace" = VNone ∨ fld (fld d "metadata") "namespace" = VStr RELEASE_NS) ∨
  fld d "kind" = VStr "CiliumClusterwideNetworkPolicy" ∧ is_default_deny d = Ok true.

(** A rule with these DNS names and this selector permits a bare [*] only when
    it selects the pods with internet egress. *)
Definition star_is_internet (names : list val) (sel : val) : Prop :=
  ∀ n, n ∈ names → fld n "matchPattern" = VStr "*" → fld sel INTERNET = VStr "true".

(** Each DNS name of the default deny is of the cluster or of a domain of the
    install. *)
Definition names_inside (names : list val) : Prop :=
  names ≠ [] ∧ ∃ domains, domains_of names = Ok domains ∧
    ∀ n, n ∈ names → ∃ s, name_of n = Ok (VStr s) ∧ inside domains s = true.

(** Each host name that the rule opens has a DNS rule that permits it. *)
Definition opened_resolve (names : list val) (r : val) : Prop :=
  ∃ allowed es, flatM named_fields names = Ok allowed ∧ get_list r "egress" = Ok es ∧
    ∀ e, e ∈ es → ∃ fs, get_list e "toFQDNs" = Ok fs ∧
      ∀ f, f ∈ fs → named_fields f = Ok [] ∨
        ∃ k x rest y, named_fields f = Ok ((k, x) :: rest) ∧ (k, y) ∈ allowed ∧ py_eq y x = true.

Lemma as_str_Ok v s : as_str v = Ok s → v = VStr s.
Proof. destruct v; try done. by intros [= ->]. Qed.

Lemma deny_findings_clean name names : deny_findings name names = Ok [] → names_inside names.
Proof.
  unfold deny_findings. intros (domains & Hd & H)%bind_Ok. apply bind_Ok in H as (out & Ho & H).
  injection H as H. apply app_eq_nil in H as [H ->]. split; [by intros ->|].
  exists domains. split; [done|]. rewrite flatM_nil in Ho. intros n Hn. specialize (Ho n Hn).
  apply bind_Ok in Ho as (v & Hv & Ho). apply bind_Ok in Ho as (s & ->%as_str_Ok & Ho). injection Ho as Ho.
  exists s. split; [done|]. by apply if_nil_cons in Ho.
Qed.

Lemma fqdn_findings_clean name names r : fqdn_findings name names r = Ok [] → opened_resolve names r.
Proof.
  unfold fqdn_findings. intros (allowed & Ha & H)%bind_Ok. apply bind_Ok in H as (u & _ & H).
  apply bind_Ok in H as (es & Hes & H). exists allowed, es. split_and!; [done..|].
  rewrite flatM_nil in H. intros e He. specialize (H e He). apply bind_Ok in H as (fs & Hfs & H).
  exists fs. split; [done|]. rewrite flatM_nil in H. intros f Hf. specialize (H f Hf).
  apply bind_Ok in H as (keys & Hk & H). destruct keys as [|[k x] rest]; [by left|]. right.
  apply bind_Ok in H as (u' & _ & H). injection H as H. apply if_nil_cons, existsb_elem_of in H as ([k' y] & Hin & E).
  apply andb_true in E as [<-%str_eqb_eq E]. by exists k', x, rest, y.
Qed.

Lemma rule_findings_clean deny name r :
  rule_findings deny name r = Ok [] →
  ∃ names sel, dns_names r = Ok names ∧ selector r = Ok sel ∧ star_is_internet names sel ∧
    (deny = true → names_inside names) ∧ (truthy (fld sel FQDN) = true → opened_resolve names r).
Proof.
  unfold rule_findings. intros (names & Hn & H)%bind_Ok. apply bind_Ok in H as (sel & Hsel & H).
  apply bind_Ok in H as (star & Hstar & H). apply bind_Ok in H as (denied & Hden & H).
  apply bind_Ok in H as (f & ->%get_Ok & H). apply bind_Ok in H as (opened & Hop & H). injection H as H.
  apply app_eq_nil in H as [-> H]. apply app_eq_nil in H as [-> ->].
  exists names, sel. split_and!; [done..| | |].
  - intros n Hin Hp. rewrite flatM_nil in Hstar. specialize (Hstar n Hin). unfold star_findings in Hstar.
    apply bind_Ok in Hstar as (p & ->%get_Ok & Hstar). rewrite Hp, py_eq_refl_str in Hstar. cbn [negb] in Hstar.
    apply bind_Ok in Hstar as (i & ->%get_Ok & Hstar). injection Hstar as Hstar.
    by apply if_nil_cons, py_eq_str_r in Hstar.
  - intros ->. by eapply deny_findings_clean.
  - intros Ht. rewrite Ht in Hop. by eapply fqdn_findings_clean.
Qed.

(** The verdict of one document: what is judged is judged by its rules. *)
Lemma judge_doc_judged d bad b :
  judge_doc d = Ok (bad, b) → (judged d ∨ b = true) →
  ∃ deny rs name, judged d ∧ is_default_deny d = Ok deny ∧ rules d = Ok rs ∧
    flatM (rule_findings deny name) rs = Ok bad ∧ b = deny && nonempty rs.
Proof.
  intros Hd Hor. unfold judge_doc in Hd. apply bind_Ok in Hd as (k & ->%get_Ok & Hd).
  destruct (in_tuple (fld d "kind") KINDS) eqn:Ek; cbn [negb] in Hd.
  2: { injection Hd as _ <-. destruct Hor as [[[Hk _]|[Hk _]]|]; [by rewrite Hk in Ek..|done]. }
  apply bind_Ok in Hd as (m & ->%item_fld & Hd). apply bind_Ok in Hd as (n & _ & Hd).
  apply bind_Ok in Hd as (ns & ->%get_Ok & Hd).
  destruct (py_eq (fld d "kind") (VStr "CiliumNetworkPolicy") && _) eqn:En.
  { injection Hd as _ <-. apply andb_true in En as [En1 En2]. apply py_eq_str_r in En1.
    destruct Hor as [[[Hk [Hn|Hn]]|[Hk _]]|]; [by rewrite Hn in En2..|congruence|done]. }
  apply bind_Ok in Hd as (deny & Hdeny & Hd).
  destruct (py_eq (fld d "kind") (VStr "CiliumClusterwideNetworkPolicy") && negb deny) eqn:Ec.
  { injection Hd as _ <-. apply andb_true in Ec as [Ec1 Ec2]. apply py_eq_str_r in Ec1. apply negb_true_iff in Ec2.
    destruct Hor as [[[Hk _]|[Hk Hdd]]|]; [congruence..|done]. }
  apply bind_Ok in Hd as (rs & Hrs & Hd). apply bind_Ok in Hd as (bd & Hbd & Hd). injection Hd as <- <-.
  exists deny, rs, (py_str n). split_and!; [|done..]. unfold judged.
  apply in_tuple_true in Ek as (k & Hk & Hin). rewrite Hk in *. unfold KINDS in Hin.
  rewrite !elem_of_cons, elem_of_nil in Hin. destruct Hin as [->|[->|[]]].
  - left. split; [done|]. rewrite py_eq_refl_str in En. cbn [andb] in En. apply negb_false_iff, orb_true_iff in En as [En|En].
    + left. by destruct (fld (fld d "metadata") "namespace").
    + right. by apply py_eq_str_r.
  - right. split; [done|]. rewrite py_eq_refl_str in Ec. by destruct deny.
Qed.

(** A clean verdict means that no pod resolves more names than it needs.
    The render has a default deny of the release namespace with a rule; in each
    rule of each judged policy a DNS rule for every name is for the pods with
    internet egress only, the names of a default deny are of the cluster or of
    the install, and each host name that an egress-fqdn rule opens has a DNS
    rule that permits it. *)
Theorem clean_dns_names_are_needed (docs : list val) (Hclean : judge docs = Ok []) :
  (∃ d rs, d ∈ docs ∧ judged d ∧ is_default_deny d = Ok true ∧ rules d = Ok rs ∧ rs ≠ []) ∧
  ∀ d, d ∈ docs → judged d → ∃ deny rs, is_default_deny d = Ok deny ∧ rules d = Ok rs ∧
    ∀ r, r ∈ rs → ∃ names sel, dns_names r = Ok names ∧ selector r = Ok sel ∧
      star_is_internet names sel ∧ (deny = true → names_inside names) ∧
      (truthy (fld sel FQDN) = true → opened_resolve names r).
Proof.
  unfold judge in Hclean. apply bind_Ok in Hclean as (l & Hl & H). injection H as H.
  apply app_eq_nil in H as [H1 H2]. apply if_nil_cons, existsb_elem_of in H2 as (b & Hb & Eb). cbn in Eb. subst b.
  split.
  - apply list_elem_of_fmap in Hb as ([bad b] & Heq & Hin). cbn in Heq. subst b.
    destruct (mapR_elem _ _ _ _ Hl Hin) as (d & Hd & Hjd).
    destruct (judge_doc_judged d bad true Hjd (or_intror eq_refl)) as (deny & rs & name & Hjg & Hdd & Hrs & _ & E).
    symmetry in E. apply andb_true in E as [-> E]. exists d, rs. split_and!; [done..|by intros ->].
  - intros d Hd Hjg. destruct (mapR_elem_2 _ _ _ _ Hl Hd) as ([bad b] & Hin & Hjd).
    assert (bad = []) as -> by by eapply concat_fst_nil.
    destruct (judge_doc_judged d [] b Hjd (or_introl Hjg)) as (deny & rs & name & _ & Hdd & Hrs & Hf & _).
    exists deny, rs. split_and!; [done..|]. rewrite flatM_nil in Hf. intros r Hr.
    by eapply rule_findings_clean, Hf.
Qed.

(** A default deny that resolves the Services and the domain of the install. *)
Definition default_deny_doc : val :=
  VDict [("kind", VStr "CiliumClusterwideNetworkPolicy"); ("metadata", str_dict [("name", "default-deny")]);
         ("spec", VDict [
            ("endpointSelector", VDict [("matchLabels", str_dict [("k8s:io.kubernetes.pod.namespace", RELEASE_NS)])]);
            ("egress", VList [VDict [("toPorts", VList [VDict [("rules", VDict [("dns", VList [
               str_dict [("matchPattern", "*.svc.cluster.local")]; str_dict [("matchName", "app.example.com")];
               str_dict [("matchPattern", "*.app.example.com")]])])]])]])])].

Lemma clean_dns_names_are_needed_witness :
  judge [default_deny_doc] = Ok [] ∧
  ∃ d rs, d ∈ [default_deny_doc] ∧ judged d ∧ is_default_deny d = Ok true ∧ rules d = Ok rs ∧ rs ≠ [].
Proof.
  assert (judge [default_deny_doc] = Ok []) as H by (vm_compute; reflexivity). split; [exact H|].
  apply (clean_dns_names_are_needed [default_deny_doc] H).
Defined.

(** ** The goldens and the self-test *)

(** [all]: the documents of a golden *)
Definition load (all : list val) : list val := List.filter (λ d, is_dict d && truthy (fld d "metadata")) all.
(** [goldens]: the paths of the golden renders with their documents *)
Definition main (goldens : list (string * list val)) : result Z :=
  fails <- flatM (λ '(f, all), ms <- judge (load all) ;; Ok (map (λ m, cat [f; ": "; m]) ms)) goldens ;;
  Ok (if nonempty fails || negb (nonempty goldens) then 1%Z else 0%Z).

Definition has_dns (tp : val) : bool := truthy (fld (dict_fld tp "rules") "dns").
Definition list_of (v : val) : list val := match v with VList l => l | _ => [] end.
Definition on_list (f : list val → list val) (v : val) : val := match v with VList l => VList (f l) | _ => v end.
Definition edit_egress (f : list val → list val) : val → val := edit [K "spec"; K "egress"] (on_list f).
(** Each entry of [toPorts] of each egress rule *)
Definition edit_ports (f : val → val) : val → val :=
  edit_egress (map (λ e, if truthy (fld e "toPorts") then edit [K "toPorts"] (on_list (map f)) e else e)).
Definition star : val := str_dict [("matchPattern", "*")].
Definition opens_dns (e : val) : bool := existsb has_dns (list_of (fld e "toPorts")).
Definition deny_star : val → val :=
  edit_egress (edit_first opens_dns (edit [K "toPorts"] (on_list (edit_first has_dns (put [K "rules"; K "dns"; I 0] star))))).
Definition deny_outside : val → val :=
  edit_ports (λ tp, if has_dns tp then push [K "rules"; K "dns"] (str_dict [("matchPattern", "*.example.org")]) tp else tp).
Definition deny_none : val → val := edit_ports (λ tp, dict_without tp "rules").
Definition to_endpoints (e : val) : bool := match str_in "toEndpoints" e with Ok b => b | Raise _ => false end.
Definition group_no_dns : val → val := edit_egress (List.filter (λ e, negb (to_endpoints e))).
Definition group_star : val → val := edit_ports (λ tp, if has_dns tp then put [K "rules"; K "dns"] (VList [star]) tp else tp).
Definition on_deny (f : val → val) (d : val) : result val := b <- is_default_deny d ;; Ok (if (b : bool) then f d else d).
Definition on_group (f : val → val) (d : val) : result val :=
  s <- get_dict d "spec" ;; e <- get s "endpointSelector" ;; Ok (if contains FQDN (py_str e) then f d else d).
Definition edit_docs (base : list val) (fn : val → result val) : result (list val) :=
  mapR (λ d, k <- get d "kind" ;; if in_tuple k KINDS then fn d else Ok d) base.
Definition no_deny (base : list val) : result (list val) := filterM (λ d, notR (is_default_deny d)) base.
Definition selftest (all : list val) : result Z :=
  let base := load all in
  clean <- judge base ;;
  if nonempty clean then Ok 1%Z else
  passed <- anyM (λ edited, docs <- edited ;; found <- judge docs ;; Ok (negb (nonempty found)))
    (map (edit_docs base) [on_deny deny_star; on_deny deny_outside; on_deny deny_none; on_group group_no_dns; on_group group_star] ++ [no_deny base]) ;;
  Ok (if (passed : bool) then 1%Z else 0%Z).
(** A golden with a default deny and an egress group *)
Definition group_doc : val :=
  VDict [("kind", VStr "CiliumNetworkPolicy"); ("metadata", str_dict [("name", "egress-fqdn-mail"); ("namespace", RELEASE_NS)]);
         ("spec", VDict [
            ("endpointSelector", VDict [("matchLabels", str_dict [(FQDN, "mail")])]);
            ("egress", VList [
               VDict [("toEndpoints", VList [VDict []]); ("toPorts", VList [VDict [("rules", VDict [("dns", VList [
                  str_dict [("matchName", "smtp.example.com")]])])]])];
               VDict [("toFQDNs", VList [str_dict [("matchName", "smtp.example.com")]])]])])].
Definition golden : list val := [VNone; default_deny_doc; group_doc].
Lemma dnsnames_selftest : selftest golden = Ok 0%Z.
Proof. vm_compute. reflexivity. Qed.
Example golden_passes : main [("golden", golden)] = Ok 0%Z.
Proof. vm_compute. reflexivity. Qed.
