(* ===== verification/IpAddr.v ===== *)
(** * Python's [ipaddress]

    Addresses and networks of the two versions, as [ipaddress.ip_address] and
    [ipaddress.ip_network] read them from text: an address is a number of 32 or
    128 bits.  The end of the file says what membership in a network means. *)
From S2P Require Import Prelude PyStr.
From Stdlib Require Import Ascii.
#[local] Open Scope Z_scope.

Inductive version := V4 | V6.
#[global] Instance version_eq_dec : EqDecision version.
Proof. solve_decision. Defined.
Definition width (v : version) : Z := match v with V4 => 32 | V6 => 128 end.

Record address := Address { a_version : version; a_bits : Z }.
Record network := Network { n_version : version; n_bits : Z; n_prefix : Z }.

(** ** IPv4 *)

(** One decimal octet: at most three digits, no leading zero. *)
Definition parse_octet (s : string) : option Z :=
  if str_forallb is_digit s && (String.length s <=? 3)%nat
     && negb (startswith s "0" && (1 <? String.length s)%nat)
  then z ← int_of_digits s; if z <=? 255 then Some z else None
  else None.
Definition parse_v4 (s : string) : option Z :=
  match str_split s "." with
  | [a; b; c; d] =>
      a ← parse_octet a; b ← parse_octet b; c ← parse_octet c; d ← parse_octet d;
      Some (((a * 256 + b) * 256 + c) * 256 + d)
  | _ => None
  end.

(** ** IPv6 *)

Definition hex_digit (c : ascii) : option Z :=
  let n := nat_of_ascii c in
  if is_digit c then Some (Z.of_nat (n - 48))
  else if ((65 <=? n) && (n <=? 70))%nat then Some (Z.of_nat (n - 55))
  else if ((97 <=? n) && (n <=? 102))%nat then Some (Z.of_nat (n - 87))
  else None.
Fixpoint hex_value (acc : Z) (s : string) : option Z :=
  match s with
  | "" => Some acc
  | String c s => d ← hex_digit c; hex_value (acc * 16 + d) s
  end.
(** A group of at most four hexadecimal digits. *)
Definition parse_hextet (s : string) : option Z :=
  if negb (str_eqb s "") && (String.length s <=? 4)%nat then hex_value 0 s else None.

(** The number whose groups of 16 bits, first to last, are [l]. *)
Fixpoint hextets (acc : Z) (l : list string) : option Z :=
  match l with
  | [] => Some acc
  | s :: l => h ← parse_hextet s; hextets (acc * 65536 + h) l
  end.

(** A last part with a dot is an IPv4 address: two groups. *)
Definition v4_groups (s : string) : option (list string) :=
  if contains "." s then
    z ← parse_v4 s;
    let hex4 n := String (ascii_of_nat (Z.to_nat (if n <? 10 then 48 + n else 87 + n))) "" in
    let group n := hex4 (n / 4096) +:+ hex4 (n / 256 mod 16) +:+ hex4 (n / 16 mod 16) +:+ hex4 (n mod 16) in
    Some [group (z / 65536); group (z mod 65536)]
  else Some [s].

(** The inner empty parts of a split on [:], the place of [::]. *)
Fixpoint empty_at (i : nat) (l : list string) : list nat :=
  match l with
  | [] | [_] => []
  | s :: l => (if str_eqb s "" then [i] else []) ++ empty_at (S i) l
  end.

Definition parse_groups (parts : list string) : option Z :=
  let n := length parts in
  if (n <? 3)%nat || (9 <? n)%nat then None else
  match empty_at 1 (tl parts) with
  | [] =>
      if (n =? 8)%nat then hextets 0 parts else None
  | [i] =>
      let hi := if str_eqb (hd "" parts) "" then (i - 1)%nat else i in
      let lo := if str_eqb (List.last parts "") "" then (n - i - 2)%nat else (n - i - 1)%nat in
      if (str_eqb (hd "" parts) "" && negb (hi =? 0)%nat)
         || (str_eqb (List.last parts "") "" && negb (lo =? 0)%nat)
         || (8 <=? hi + lo)%nat
      then None
      else
        h ← hextets 0 (take hi parts);
        hextets (h * 65536 ^ Z.of_nat (8 - (hi + lo))) (drop (n - lo) parts)
  | _ => None
  end.

(** The text without its scope id, [addr%scope]. *)
Definition drop_scope (s : string) : option string :=
  match split1 "%" s with
  | None => Some s
  | Some (a, scope) => if str_eqb scope "" || contains "%" scope then None else Some a
  end.

Definition parse_v6 (s : string) : option Z :=
  s ← drop_scope s;
  if contains "/" s then None else
  let parts := str_split s ":" in
  if (length parts <? 3)%nat then None else
  groups ← v4_groups (List.last parts "");
  parse_groups (removelast parts ++ groups).

(** ** Addresses and networks *)

(** [ipaddress.ip_address(s)]; [None] is [ValueError]. *)
Definition ip_address (s : string) : option address :=
  match parse_v4 s with
  | Some z => Some (Address V4 z)
  | None => z ← parse_v6 s; Some (Address V6 z)
  end.

(** [ipaddress.ip_address(z)] of a number *)
Definition ip_of_int (z : Z) : option address :=
  if z <? 0 then None
  else if z <? 2 ^ 32 then Some (Address V4 z)
  else if z <? 2 ^ 128 then Some (Address V6 z) else None.

Definition netmask (w p : Z) : Z := 2 ^ w - 2 ^ (w - p).

(** The prefix length of a mask: a number, or a dotted netmask or hostmask of
    IPv4. *)
Definition parse_prefix (v : version) (s : string) : option Z :=
  match (if str_forallb is_digit s then int_of_digits s else None) with
  | Some p => if p <=? width v then Some p else None
  | None =>
      match v with
      | V6 => None
      | V4 =>
          z ← parse_v4 s;
          let lengths := seqZ 0 33 in
          match List.find (λ p, netmask 32 p =? z) lengths with
          | Some p => Some p
          | None => List.find (λ p, 2 ^ (32 - p) - 1 =? z) lengths
          end
      end
  end.

Definition network_of (v : version) (bits p : Z) : network :=
  Network v (Z.land bits (netmask (width v) p)) p.

(** [ipaddress.ip_network(s, strict=False)] *)
Definition ip_network (s : string) : option network :=
  match str_split s "/" with
  | [a] => x ← ip_address a; Some (network_of (a_version x) (a_bits x) (width (a_version x)))
  | [a; m] =>
      x ← ip_address a; p ← parse_prefix (a_version x) m; Some (network_of (a_version x) (a_bits x) p)
  | _ => None
  end.

(** [a in n] *)
Definition in_network (a : address) (n : network) : bool :=
  bool_decide (a_version a = n_version n)
  && (Z.land (a_bits a) (netmask (width (n_version n)) (n_prefix n)) =? n_bits n).

Example ip_v4_ex : map parse_v4 ["10.244.0.187"; "10.244.0"; "10.244.0.256"; "10.244.00.1"; "a.b.c.d"]
  = [Some 183763131; None; None; None; None].
Proof. vm_compute. reflexivity. Qed.
Example ip_v6_ex : map parse_v6 ["::1"; "2001:db8::ff"; "1:2:3:4:5:6:7:8"; "::"; "1::2::3"; ":1::2"; "::ffff:1.2.3.4"; "fe80::1%eth0"; "1:2:3:4:5:6:7::"; "::2:3:4:5:6:7:8:9"]
  = [Some 1; Some (0x20010db8000000000000000000000000 + 255);
     Some 0x00010002000300040005000600070008; Some 0; None; None; Some 0xffff01020304;
     Some 0xfe800000000000000000000000000001; Some 0x00010002000300040005000600070000; None].
Proof. vm_compute. reflexivity. Qed.
Example ip_network_ex :
  (λ n a, option_map n_prefix n) (ip_network "10.244.0.7/255.255.255.0") tt = Some 24 ∧
  match ip_network "10.244.0.7/24", ip_address "10.244.0.187", ip_address "10.244.1.1" with
  | Some n, Some a, Some b => in_network a n && negb (in_network b n)
  | _, _, _ => false
  end = true.
Proof. vm_compute. done. Qed.

(** ** Bounds

    What is read is a number of the width of its version. *)

Lemma hex_digit_bounds c d : hex_digit c = Some d → 0 ≤ d < 16.
Proof.
  unfold hex_digit, is_digit. set (n := nat_of_ascii c).
  destruct ((48 <=? n)%nat && (n <=? 57)%nat) eqn:E1;
    [apply andb_true in E1 as [?%Nat.leb_le ?%Nat.leb_le]; intros [= <-]; lia|].
  destruct ((65 <=? n)%nat && (n <=? 70)%nat) eqn:E2;
    [apply andb_true in E2 as [?%Nat.leb_le ?%Nat.leb_le]; intros [= <-]; lia|].
  destruct ((97 <=? n)%nat && (n <=? 102)%nat) eqn:E3; [|done].
  apply andb_true in E3 as [?%Nat.leb_le ?%Nat.leb_le]; intros [= <-]; lia.
Qed.

Lemma hex_value_bounds acc s z :
  0 ≤ acc → hex_value acc s = Some z → 0 ≤ z < (acc + 1) * 16 ^ Z.of_nat (String.length s).
Proof.
  revert acc. induction s as [|c s IH]; intros acc Ha; cbn [hex_value String.length].
  - intros [= <-]. rewrite Z.pow_0_r. lia.
  - intros (d & Hd%hex_digit_bounds & H)%bind_Some. apply IH in H as [H1 H2]; [|lia].
    split; [done|]. rewrite Nat2Z.inj_succ, Z.pow_succ_r by lia. nia.
Qed.

Lemma parse_hextet_bounds s z : parse_hextet s = Some z → 0 ≤ z < 65536.
Proof.
  unfold parse_hextet. destruct (_ && _) eqn:E; [|done]. apply andb_true in E as [_ Hl%Nat.leb_le].
  intros [H1 H2]%hex_value_bounds; [|lia]. split; [done|].
  assert (16 ^ Z.of_nat (String.length s) ≤ 16 ^ 4) by (apply Z.pow_le_mono_r; lia). lia.
Qed.

Lemma hextets_bounds acc l z :
  0 ≤ acc → hextets acc l = Some z →
  acc * 65536 ^ Z.of_nat (length l) ≤ z < (acc + 1) * 65536 ^ Z.of_nat (length l).
Proof.
  revert acc. induction l as [|s l IH]; intros acc Ha; cbn [hextets length].
  - intros [= <-]. rewrite Z.pow_0_r. lia.
  - intros (h & Hh%parse_hextet_bounds & H)%bind_Some. apply IH in H; [|lia].
    rewrite Nat2Z.inj_succ, Z.pow_succ_r by lia.
    assert (0 < 65536 ^ Z.of_nat (length l)) by (apply Z.pow_pos_nonneg; lia). nia.
Qed.

Lemma digits_value_nonneg s z : int_of_digits s = Some z → 0 ≤ z.
Proof.
  assert (∀ n acc s v, (String.length s ≤ n)%nat → 0 ≤ acc → digits_value acc s = Some v → 0 ≤ v) as H.
  { induction n as [|n IH]; intros acc t v Hn Ha; destruct t as [|c t]; cbn in *;
      [by intros [= <-]|lia|by intros [= <-]|].
    destruct (is_digit c); [apply IH; lia|]. destruct t as [|d t]; [done|].
    destruct (_ && _); [|done]. apply IH; cbn in *; lia. }
  destruct s as [|c s]; [done|]. unfold int_of_digits. destruct (is_digit c); [|done].
  by apply (H _ 0 _ _ (le_n _)).
Qed.

Lemma parse_octet_bounds s z : parse_octet s = Some z → 0 ≤ z ≤ 255.
Proof.
  unfold parse_octet. destruct (_ && _) eqn:E; [|done]. intros (z' & Hz & H)%bind_Some.
  destruct (Z.leb_spec z' 255) as [Hle|]; [|done]. injection H as <-. split; [|done].
  by apply digits_value_nonneg in Hz.
Qed.

Lemma parse_v4_bounds s z : parse_v4 s = Some z → 0 ≤ z < 2 ^ 32.
Proof.
  unfold parse_v4. destruct (str_split s ".") as [|a [|b [|c [|d [|]]]]]; try done.
  intros (x & ?%parse_octet_bounds & H)%bind_Some. apply bind_Some in H as (y & ?%parse_octet_bounds & H).
  apply bind_Some in H as (u & ?%parse_octet_bounds & H). apply bind_Some in H as (v & ?%parse_octet_bounds & H).
  injection H as <-. lia.
Qed.

Lemma empty_at_bounds i l j : j ∈ empty_at i l → (i ≤ j < i + length l - 1)%nat.
Proof.
  revert i. induction l as [|s l IH]; intros i; [by intros ?%elem_of_nil|].
  destruct l as [|t l]; [by intros ?%elem_of_nil|].
  change (empty_at i (s :: t :: l)) with ((if str_eqb s "" then [i] else []) ++ empty_at (S i) (t :: l)).
  intros [H|H]%elem_of_app.
  - destruct (str_eqb s ""); [apply list_elem_of_singleton in H as ->; cbn; lia|by apply elem_of_nil in H].
  - apply IH in H. cbn in *. lia.
Qed.

Lemma pow_65536 n : (n ≤ 8)%nat → 0 < 65536 ^ Z.of_nat n ∧ 65536 ^ Z.of_nat n * 65536 ^ Z.of_nat (8 - n) = 2 ^ 128.
Proof.
  intros Hn. split; [apply Z.pow_pos_nonneg; lia|]. rewrite <- Z.pow_add_r by lia.
  by replace (Z.of_nat n + Z.of_nat (8 - n)) with 8 by lia.
Qed.

Lemma parse_groups_bounds parts z : parse_groups parts = Some z → 0 ≤ z < 2 ^ 128.
Proof.
  unfold parse_groups. destruct (_ || _) eqn:En; [done|]. apply orb_false in En as [Hn1%Nat.ltb_ge Hn2%Nat.ltb_ge].
  destruct (empty_at 1 (tl parts)) as [|i [|]] eqn:Ee; [|..|done].
  - destruct (Nat.eqb_spec (length parts) 8) as [E|]; [|done]. intros H%hextets_bounds; [|lia].
    rewrite E in H. lia.
  - assert (1 ≤ i < length parts - 1)%nat as Hi.
    { assert (i ∈ empty_at 1 (tl parts)) as H%empty_at_bounds by (rewrite Ee; left).
      destruct parts; cbn in *; lia. }
    set (hi := if str_eqb (hd "" parts) "" then _ else _).
    set (lo := if str_eqb (List.last parts "") "" then _ else _).
    destruct (_ || _ || _) eqn:Eb; [done|]. apply orb_false in Eb as [_ Hhl%Nat.leb_gt].
    intros (h & Hh & H)%bind_Some. apply hextets_bounds in Hh as [Hh1 Hh2]; [|lia].
    assert (hi ≤ length parts ∧ lo ≤ length parts)%nat as [Hhi Hlo].
    { unfold hi, lo. destruct (str_eqb _ _), (str_eqb _ _); lia. }
    rewrite length_take, Nat.min_l in Hh1, Hh2 by done.
    set (g := (8 - (hi + lo))%nat) in *.
    assert (0 < 65536 ^ Z.of_nat g) by (apply Z.pow_pos_nonneg; lia).
    apply hextets_bounds in H as [H1 H2]; [|nia]. rewrite length_drop in H1, H2.
    replace (length parts - (length parts - lo))%nat with lo in H1, H2 by lia.
    assert (2 ^ 128 = 65536 ^ Z.of_nat hi * (65536 ^ Z.of_nat g * 65536 ^ Z.of_nat lo)) as ->.
    { rewrite <- !Z.pow_add_r by lia. by replace (Z.of_nat hi + (Z.of_nat g + Z.of_nat lo)) with 8 by lia. }
    assert (0 < 65536 ^ Z.of_nat lo) by (apply Z.pow_pos_nonneg; lia).
    set (A := 65536 ^ Z.of_nat hi) in *. set (B := 65536 ^ Z.of_nat g) in *. set (C := 65536 ^ Z.of_nat lo) in *.
    assert (h + 1 ≤ A) by lia. split; [nia|].
    assert (h * B + 1 ≤ A * B) by nia. nia.
Qed.

Lemma ip_address_bounds s a : ip_address s = Some a → 0 ≤ a_bits a < 2 ^ width (a_version a).
Proof.
  unfold ip_address. destruct (parse_v4 s) as [z|] eqn:E; [intros [= <-]; by apply parse_v4_bounds in E|].
  intros (z & Hz & [= <-])%bind_Some. unfold parse_v6 in Hz. apply bind_Some in Hz as (t & _ & Hz).
  destruct (contains "/" t); [done|]. cbv zeta in Hz. destruct (_ <? 3)%nat; [done|].
  apply bind_Some in Hz as (g & _ & Hz). by apply parse_groups_bounds in Hz.
Qed.

Lemma ip_of_int_bounds z a : ip_of_int z = Some a → 0 ≤ a_bits a < 2 ^ width (a_version a).
Proof.
  unfold ip_of_int. destruct (Z.ltb_spec z 0); [done|].
  destruct (Z.ltb_spec z (2 ^ 32)); [intros [= <-]; done|].
  destruct (Z.ltb_spec z (2 ^ 128)); [intros [= <-]; done|done].
Qed.

(** ** Membership

    An address is in a network when it is of the same version and agrees with it
    on the bits of the prefix. *)

Lemma land_netmask w p a :
  0 ≤ p ≤ w → 0 ≤ a < 2 ^ w → Z.land a (netmask w p) = a / 2 ^ (w - p) * 2 ^ (w - p).
Proof.
  intros Hp Ha. unfold netmask.
  assert (2 ^ w - 2 ^ (w - p) = Z.shiftl (Z.ones p) (w - p)) as ->.
  { rewrite Z.shiftl_mul_pow2, Z.ones_equiv by lia.
    replace (2 ^ w) with (2 ^ p * 2 ^ (w - p)) by (rewrite <- Z.pow_add_r by lia; f_equal; lia). lia. }
  rewrite <- Z.shiftr_div_pow2, <- Z.shiftl_mul_pow2 by lia.
  assert (Z.shiftr a (w - p) = Z.land (Z.shiftr a (w - p)) (Z.ones p)) as ->.
  { rewrite Z.land_ones, Z.shiftr_div_pow2 by lia. symmetry. apply Z.mod_small. split; [apply Z.div_pos; lia|].
    apply Z.div_lt_upper_bound; [lia|]. rewrite <- Z.pow_add_r by lia. replace (w - p + p) with w by lia. lia. }
  rewrite Z.shiftl_land. apply Z.bits_inj_iff'. intros n Hn. rewrite !Z.land_spec, !Z.shiftl_spec by lia.
  destruct (Z.ltb_spec n (w - p)).
  - rewrite !(Z.testbit_neg_r _ (n - (w - p))) by lia. by rewrite andb_false_r.
  - rewrite Z.shiftr_spec by lia. by replace (n - (w - p) + (w - p)) with n by lia.
Qed.

Lemma in_network_iff a v bits p :
  0 ≤ p ≤ width v → 0 ≤ bits < 2 ^ width v → 0 ≤ a_bits a < 2 ^ width (a_version a) →
  in_network a (network_of v bits p) = true ↔
    a_version a = v ∧ a_bits a / 2 ^ (width v - p) = bits / 2 ^ (width v - p).
Proof.
  intros Hp Hb Ha. unfold in_network, network_of. cbn. rewrite andb_true_iff, bool_decide_eq_true, Z.eqb_eq.
  split; intros [<- H]; (split; [done|]); rewrite !land_netmask in * by lia;
    [|by rewrite H]. assert (2 ^ (width (a_version a) - p) ≠ 0) by lia. nia.
Qed.

(** The two parts of the text of a network: its address, and its prefix. *)
Definition network_parts (s : string) : option (address * Z) :=
  match str_split s "/" with
  | [a] => x ← ip_address a; Some (x, width (a_version x))
  | [a; m] => x ← ip_address a; p ← parse_prefix (a_version x) m; Some (x, p)
  | _ => None
  end.

Lemma find_Some_in {A} (f : A → bool) l x : List.find f l = Some x → x ∈ l.
Proof. intros [? _]%List.find_some. by apply list_elem_of_In. Qed.

Lemma parse_prefix_range v s p : parse_prefix v s = Some p → 0 ≤ p ≤ width v.
Proof.
  unfold parse_prefix. destruct (if str_forallb is_digit s then _ else _) as [q|] eqn:E.
  - destruct (str_forallb is_digit s); [|done]. apply digits_value_nonneg in E.
    destruct (Z.leb_spec q (width v)); [intros [= <-]; lia|done].
  - destruct v; [|done]. intros (z & _ & H)%bind_Some. cbv zeta in H.
    assert (p ∈ seqZ 0 33) as Hp.
    { generalize (seqZ 0 33), H. clear. intros l H. destruct (List.find _ l) as [q|] eqn:E1.
      - injection H as <-. exact (find_Some_in _ _ _ E1).
      - exact (find_Some_in _ _ _ H). }
    apply elem_of_seqZ in Hp.
    cbn. lia.
Qed.

Lemma ip_network_parts s n :
  ip_network s = Some n →
  ∃ x p, network_parts s = Some (x, p) ∧ n = network_of (a_version x) (a_bits x) p ∧
    0 ≤ p ≤ width (a_version x) ∧ 0 ≤ a_bits x < 2 ^ width (a_version x).
Proof.
  unfold ip_network, network_parts. destruct (str_split s "/") as [|a [|m [|]]]; try done.
  - intros (x & Hx & [= <-])%bind_Some. rewrite Hx. exists x, (width (a_version x)).
    apply ip_address_bounds in Hx. split_and!; try done; try lia; by destruct (a_version x).
  - intros (x & Hx & H)%bind_Some. apply bind_Some in H as (p & Hp & [= <-]). rewrite Hx. cbn. rewrite Hp.
    exists x, p. apply parse_prefix_range in Hp. apply ip_address_bounds in Hx. split_and!; try done; lia.
Qed.
