(* ===== verification/WalContinuity.v ===== *)
(** * scripts/lib/wal-continuity.py: is the WAL archive of a base backup continuous?

    The check reads a listing of the bucket.  The segments of one timeline are
    numbered without a hole, and the check asks for each number from the first
    segment of the base backup to the newest one. *)
From stdpp Require Import sorting.
From S2P Require Import Prelude PyStr Regex.
From Stdlib Require Import Ascii.

(** The usage text, [__doc__] of the script. *)
Definition usage : string :=
"wal-continuity.py — is the CNPG WAL archive continuous? (deploy#1738)

Check 2 of zeroroot-ai/hosted scripts/backup-verify.sh, the gate inside a
preserve teardown
(ADR-0083, CONTEXT.md § Backup-verify). A base backup with a broken WAL
archive restores only to the instant it was taken, and it looks healthy the
whole time: the Backup CR says `completed`, the objects are in the bucket,
and the hole only surfaces when somebody replays.

A WAL segment file is named timeline(8) + logid(8) + segno(8) in upper-case
hex, optionally with a compression suffix barman appends. With the default
16 MiB segment size the segments of one timeline form the unbroken integer
sequence `logid * 256 + segno`. So continuity is arithmetic: take every
segment on the base backup's timeline, and require no missing index between
the backup's own beginWal and the newest archived segment.

Segments older than the backup are NOT required. The bucket lifecycle rule
expires old objects on its own schedule, and a backup only ever needs the
window from its own start forward.

Usage: wal-continuity.py <aws-s3-ls-output> <beginWal> <endWal>
       beginWal and endWal may be empty; then the oldest archived segment on
       the newest timeline stands in for beginWal.
Exit:  0 continuous, one summary line on stdout
       1 a gap, or nothing archived; the reason on stderr
".

(** ** Segment names *)

Definition is_hex_upper (c : ascii) : bool :=
  let n := nat_of_ascii c in is_digit c || ((65 <=? n) && (n <=? 70)).
(** [^[0-9A-F]{24}$] *)
Definition SEGMENT : regex := RSeq [RRep 24 (RChr is_hex_upper); REnd].
Definition is_segment (s : string) : bool :=
  match re_match SEGMENT s with Some _ => true | None => false end.

Definition COMPRESSION : list string := [".gz"; ".zst"; ".lz4"; ".snappy"; ".bz2"; ".xz"].

(** [int(s, 16)] on hexadecimal digits *)
Definition hex_digit (c : ascii) : option Z :=
  let n := nat_of_ascii c in
  if is_digit c then Some (Z.of_nat (n - 48))
  else if (65 <=? n) && (n <=? 70) then Some (Z.of_nat (n - 55))
  else if (97 <=? n) && (n <=? 102) then Some (Z.of_nat (n - 87))
  else None.
Fixpoint hex_value (acc : Z) (s : string) : option Z :=
  match s with
  | "" => Some acc
  | String c s => d ← hex_digit c; hex_value (acc * 16 + d)%Z s
  end.
Definition int16 (s : string) : result Z :=
  match s, hex_value 0 s with
  | "", _ => Raise ValueError
  | _, Some z => Ok z
  | _, None => Raise ValueError
  end.

(** [f"{z:X}"] of a number that is not negative: one digit per four bits. *)
Definition hex_char (d : Z) : ascii :=
  ascii_of_nat (Z.to_nat (if (d <? 10)%Z then d + 48 else d + 55)).
Fixpoint hex_go (n : nat) (z : Z) (s : string) : string :=
  let s := String (hex_char (z mod 16)) s in
  match n with
  | O => s
  | S n => if (z <? 16)%Z then s else hex_go n (z / 16) s
  end.
Definition str_of_hex (z : Z) : string := hex_go (Z.to_nat (Z.log2 z)) z "".

(** The position of a segment in its timeline's sequence. *)
Definition segment_index (name : string) : result Z :=
  a <- int16 (str_slice 8 16 name) ;; b <- int16 (str_slice 16 24 name) ;;
  Ok (a * 256 + b)%Z.

Definition timeline_of (name : string) : string := str_slice 0 8 name.

(** ** The listing *)

(** The name without the first compression suffix that it has. *)
Fixpoint strip_suffix (suffixes : list string) (name : string) : string :=
  match suffixes with
  | [] => name
  | suf :: l =>
      if endswith name suf
      then str_slice 0 (String.length name - String.length suf) name
      else strip_suffix l name
  end.

Definition line_name (line : string) : option string :=
  w ← last (split_ws line); Some (strip_suffix COMPRESSION (basename w)).

(** Every WAL segment name in the lines of the listing: a set, as the list of
    its elements in order. *)
Definition parse (lines : list string) : list string :=
  sorted_set (List.filter is_segment (omap line_name lines)).

(** ** The verdict *)

(** [max] of texts *)
Definition max_str (l : list string) : option string := last (sorted_strs l).

Definition max_int (x : Z) (l : list Z) : Z := foldl Z.max x l.

Definition timeline (names : list string) (begin_wal : string) : result string :=
  if is_segment begin_wal then Ok (timeline_of begin_wal)
  else match max_str (map timeline_of names) with Some t => Ok t | None => Raise ValueError end.

(** The label and name of an end of the base backup that is not archived. *)
Definition not_archived (names : list string) (begin_wal end_wal : string) : option (string * string) :=
  List.find (λ lw, negb (str_eqb lw.2 "") && negb (str_mem lw.2 names))
    [("beginWal", begin_wal); ("endWal", end_wal)].

(** The check of the sequence of one timeline, from the first segment on. *)
Definition judge_sequence (tl : string) (names on_timeline : list string) (oldest begin_wal : string)
    : result (Z * string) :=
  first <- segment_index (if str_mem begin_wal names then begin_wal else oldest) ;;
  present <- mapR segment_index on_timeline ;;
  top <- match present with x :: l => Ok (max_int x l) | [] => Raise ValueError end ;;
  let missing := List.filter (λ i, negb (existsb (Z.eqb i) present)) (seqZ first (top + 1 - first)) in
  Ok match missing with
     | i :: _ =>
         (1%Z, cat ["the WAL archive has "; str_of_int (Z.of_nat (length missing));
                    " gap(s) between the base backup and the newest segment on timeline "; tl;
                    ", the first at segment index 0x"; str_of_hex i; ": recovery stops at the hole"])
     | [] =>
         (0%Z, cat ["the WAL archive is continuous over "; str_of_int (top - first + 1);
                    " segment(s) on timeline "; tl; ", from ";
                    if str_eqb begin_wal "" then oldest else begin_wal; " to the newest segment"])
     end.

(** [main] after the listing is read: the exit status and the line that it
    prints. *)
Definition judge (names : list string) (begin_wal end_wal : string) : result (Z * string) :=
  match names with
  | [] => Ok (1%Z, "no WAL segment is archived at all: archive_command is not shipping, so the base backup can replay nothing")
  | _ =>
      tl <- timeline names begin_wal ;;
      let on_timeline := sorted_strs (List.filter (λ n, str_eqb (timeline_of n) tl) names) in
      match on_timeline with
      | [] => Ok (1%Z, cat ["no WAL segment on timeline "; tl; ", the timeline the base backup was taken on"])
      | oldest :: _ =>
          match not_archived names begin_wal end_wal with
          | Some (label, wal) =>
              Ok (1%Z, cat ["the base backup's "; label; " "; wal;
                            " is NOT archived: the backup cannot replay even its own window"])
          | None => judge_sequence tl names on_timeline oldest begin_wal
          end
      end
  end.

(** [lines_of] reads the lines of a file. *)
Definition main (lines_of : string → list string) (argv : list string) : result (Z * string) :=
  match argv with
  | [_; listing; begin_wal; end_wal] => judge (parse (lines_of listing)) begin_wal end_wal
  | _ => Ok (2%Z, usage)
  end.

Example segment_index_ex : segment_index "000000010000000A000000FF" = Ok 2815%Z.
Proof. vm_compute. reflexivity. Qed.
Example str_of_hex_ex : map str_of_hex [0; 9; 255; 4096; 2815]%Z = ["0"; "9"; "FF"; "1000"; "AFF"].
Proof. vm_compute. reflexivity. Qed.

(** ** What scripts/lib/wal-continuity.py promises *)

#[local] Arguments String.append !_ _ /.

(** *** Segment names *)

(** A segment name: 24 upper-case hexadecimal digits. *)
Definition segment_name (s : string) : Prop :=
  String.length s = 24%nat ∧ str_forallb is_hex_upper s = true.

Lemma step_segment s q :
  step SEGMENT (None, s) q ↔ ∃ t u p, segment_name t ∧ s = t +:+ u ∧ at_end u = true ∧ q = (p, u) ∧
    step (RRep 24 (RChr is_hex_upper)) (None, s) q.
Proof.
  change (step SEGMENT (None, s) q) with (step (RCat (RRep 24 (RChr is_hex_upper)) REnd) (None, s) q).
  rewrite step_cat_iff. split.
  - intros ([p u] & H & [-> Hu]%step_end_iff).
    pose proof H as (t & Hs & Hl & Hf)%step_rep_iff. cbn in Hs. by exists t, u, p.
  - intros (t & u & p & _ & _ & Hu & -> & H). exists (p, u). split; [done|]. by apply step_end_iff.
Qed.

Lemma is_segment_iff s :
  is_segment s = true ↔ ∃ t u, segment_name t ∧ s = t +:+ u ∧ at_end u = true.
Proof.
  unfold is_segment. assert ((match re_match SEGMENT s with Some _ => true | None => false end) = true
    ↔ is_Some (re_match SEGMENT s)) as ->.
  { destruct (re_match SEGMENT s); split; naive_solver. }
  rewrite re_match_iff. split.
  - intros [q (t & u & p & ? & ? & ? & _)%step_segment]. by exists t, u.
  - intros (t & u & Ht & -> & Hu). destruct Ht as [Hl Hf].
    destruct (step_rep is_hex_upper t None u Hf) as [p H]. rewrite Hl in H.
    exists (p, u). apply step_segment. by exists t, u, p.
Qed.

Lemma is_segment_no_space s :
  str_forallb (λ c, negb (is_space c)) s = true → is_segment s = true ↔ segment_name s.
Proof.
  intros Hs. rewrite is_segment_iff. split.
  - intros (t & u & Ht & -> & Hu). rewrite str_forallb_app in Hs. apply andb_true in Hs as [_ Hs].
    destruct u as [|c [|]]; [by rewrite append_nil_r| |done]. exfalso. cbn in *.
    rewrite andb_true_r in Hs. apply negb_true_iff in Hs. revert Hs. apply not_false_iff_true.
    unfold is_newline in Hu. apply Nat.eqb_eq in Hu. unfold is_space. by rewrite Hu.
  - intros Ht. exists s, "". by rewrite append_nil_r.
Qed.

(** *** The index of a segment *)

Lemma hex_value_total acc s :
  (0 ≤ acc)%Z → str_forallb is_hex_upper s = true → ∃ z, hex_value acc s = Some z ∧ (0 ≤ z)%Z.
Proof.
  revert acc. induction s as [|c s IH]; intros acc Hacc; cbn [hex_value str_forallb]; [by exists acc|].
  intros [Hc Hs]%andb_true. unfold hex_digit. unfold is_hex_upper in Hc.
  destruct (is_digit c); cbn in *; [apply IH; [lia|done]|]. rewrite Hc. apply IH; [lia|done].
Qed.

Lemma substring_forallb f n m s :
  str_forallb f s = true → str_forallb f (String.substring n m s) = true.
Proof.
  revert n m. induction s as [|c s IH]; intros [|n] [|m] H; try done; cbn in *;
    apply andb_true in H as [Hc Hs]; [rewrite Hc|..]; by apply IH.
Qed.

Lemma substring_length n m s :
  (n + m ≤ String.length s)%nat → String.length (String.substring n m s) = m.
Proof.
  revert n m. induction s as [|c s IH]; intros [|n] [|m] H; cbn in *; try lia.
  - f_equal. apply IH. lia.
  - apply IH. lia.
  - apply IH. lia.
Qed.

Lemma int16_total s : s ≠ "" → str_forallb is_hex_upper s = true → ∃ z, int16 s = Ok z ∧ (0 ≤ z)%Z.
Proof.
  intros Hne Hs. destruct (hex_value_total 0 s) as (z & Hz & ?); [done..|]. exists z.
  destruct s; [done|]. unfold int16. by rewrite Hz.
Qed.

Lemma segment_index_total n : segment_name n → ∃ i, segment_index n = Ok i.
Proof.
  intros [Hl Hf]. assert (∀ i j, (i < j)%nat → (j ≤ 24)%nat → ∃ z, int16 (str_slice i j n) = Ok z) as H.
  { intros i j Hij Hj. destruct (int16_total (str_slice i j n)) as (z & ? & _); [|by apply substring_forallb|by exists z].
    unfold str_slice. intros E. assert (String.length (String.substring i (j - i) n) = 0%nat) as E' by by rewrite E.
    rewrite substring_length in E'; lia. }
  unfold segment_index. destruct (H 8 16)%nat as [a ->]; [lia..|]. destruct (H 16 24)%nat as [b ->]; [lia..|].
  by eexists.
Qed.

(** *** The names of a listing *)

(** The names that the listing archives: a segment name, alone or with a
    compression suffix, at the end of the path in the last column of a line. *)
Definition archived (lines : list string) (n : string) : Prop :=
  segment_name n ∧ ∃ line w, line ∈ lines ∧ last (split_ws line) = Some w ∧
    (basename w = n ∨ ∃ suf, suf ∈ COMPRESSION ∧ basename w = n +:+ suf).

Lemma forallb_no_char f (c : ascii) s :
  f c = false → str_forallb f s = true → contains (String c "") s = false.
Proof.
  intros Hc. induction s as [|d s IH]; [done|]. cbn [str_forallb contains].
  intros [Hd Hs]%andb_true. rewrite IH by done. unfold startswith. cbn.
  destruct (Ascii.eqb_spec c d); [congruence|done].
Qed.

Lemma segment_no_dot n : segment_name n → contains "." n = false.
Proof. intros [_ H]. by apply (forallb_no_char is_hex_upper). Qed.

Lemma suffix_dot suf : suf ∈ COMPRESSION → ∃ x, suf = "." +:+ x ∧ contains "." x = false.
Proof. unfold COMPRESSION. rewrite !elem_of_cons, elem_of_nil. intros H. repeat destruct H as [->|H]; try done; by eexists. Qed.

(** A name has one suffix at most. *)
Lemma suffix_unique n t suf suf' :
  contains "." n = false → suf ∈ COMPRESSION → suf' ∈ COMPRESSION →
  n +:+ suf = t +:+ suf' → suf' = suf.
Proof.
  intros Hn (x & -> & Hx)%suffix_dot (y & -> & Hy)%suffix_dot E.
  apply (f_equal (λ s, str_split s ".")) in E. rewrite !(str_split_app ".") in E.
  rewrite (str_split_none "." n), (str_split_none "." x), (str_split_none "." y) in E by done.
  change [n] with ([] ++ [n]) in E. by apply app_inj_tail in E as [_ ->].
Qed.

Lemma substring_prefix s t : String.substring 0 (String.length s) (s +:+ t) = s.
Proof. induction s as [|c s IH]; cbn; [by destruct t|by f_equal]. Qed.

Lemma slice_suffix s t : str_slice 0 (String.length (s +:+ t) - String.length t) (s +:+ t) = s.
Proof.
  unfold str_slice. rewrite append_length.
  replace (String.length s + String.length t - String.length t - 0)%nat with (String.length s) by lia.
  apply substring_prefix.
Qed.

Lemma strip_suffix_inv l b n : strip_suffix l b = n → b = n ∨ ∃ suf, suf ∈ l ∧ b = n +:+ suf.
Proof.
  induction l as [|suf l IH]; cbn [strip_suffix]; [by left|].
  destruct (endswith b suf) eqn:E.
  - apply endswith_true in E as [t ->]. rewrite slice_suffix. intros <-. right. exists suf. split; [left|done].
  - intros [->|(s & ? & ?)]%IH; [by left|right]. exists s. split; [by right|done].
Qed.

Lemma strip_suffix_none l n :
  contains "." n = false → (∀ suf, suf ∈ l → suf ∈ COMPRESSION) → strip_suffix l n = n.
Proof.
  intros Hn Hl. induction l as [|suf l IH]; [done|]. cbn [strip_suffix].
  destruct (endswith n suf) eqn:E; [|apply IH; intros; apply Hl; by right]. exfalso.
  apply endswith_true in E as [t ->]. destruct (suffix_dot suf) as (x & -> & _); [apply Hl; left|].
  assert (contains "." (t +:+ "." +:+ x) = true) as Ht by (apply contains_true; by exists t, x). congruence.
Qed.

Lemma strip_suffix_app l n suf :
  contains "." n = false → (∀ s, s ∈ l → s ∈ COMPRESSION) → suf ∈ l → strip_suffix l (n +:+ suf) = n.
Proof.
  intros Hn Hl Hin. induction l as [|s l IH]; [by apply elem_of_nil in Hin|]. cbn [strip_suffix].
  destruct (endswith (n +:+ suf) s) eqn:E.
  - apply endswith_true in E as [t E]. pose proof (Hl _ Hin) as Hc.
    rewrite (suffix_unique n t suf s Hn Hc (Hl s (list_elem_of_here _ _)) E). apply slice_suffix.
  - apply elem_of_cons in Hin as [->|Hin].
    + exfalso. revert E. apply not_false_iff_true, endswith_true. by exists n.
    + apply IH; [intros; apply Hl; by right|done].
Qed.

Lemma rsplit1_Some sep s a b : rsplit1 sep s = Some (a, b) → s = a +:+ sep +:+ b.
Proof.
  revert a b. induction s as [|c s IH]; cbn [rsplit1]; intros a b.
  - destruct (drop_prefix sep "") eqn:E; cbn; [|done]. intros [= <- <-]. by apply drop_prefix_Some in E.
  - destruct (rsplit1 sep s) as [[a' b']|]; [intros [= <- <-]; cbn; f_equal; by apply IH|].
    destruct (drop_prefix sep (String c s)) eqn:E; cbn; [|done]. intros [= <- <-]. by apply drop_prefix_Some in E.
Qed.

Lemma basename_forallb f s : str_forallb f s = true → str_forallb f (basename s) = true.
Proof.
  unfold basename. destruct (rsplit1 "/" s) as [[a b]|] eqn:E; [|done].
  apply rsplit1_Some in E as ->. rewrite !str_forallb_app, !andb_true. by intros (_ & _ & ?).
Qed.

(** [parse] finds exactly the archived segments. *)
Lemma parse_archived lines n : n ∈ parse lines ↔ archived lines n.
Proof.
  unfold parse. rewrite sorted_set_elem, list_elem_of_In, List.filter_In, <- list_elem_of_In, list_elem_of_omap.
  unfold archived, line_name. split.
  - intros [(line & Hline & Hn) Hseg]. destruct (last (split_ws line)) as [w|] eqn:Hw; [|done].
    change (Some (strip_suffix COMPRESSION (basename w)) = Some n) in Hn. apply (inj Some) in Hn. pose proof (strip_suffix_inv _ _ _ Hn) as Hb. split; [|by exists line, w].
    apply last_Some_elem_of, split_ws_no_space, basename_forallb in Hw.
    apply is_segment_no_space; [|done].
    destruct Hb as [Hb|(suf & _ & Hb)]; rewrite Hb in Hw; [done|].
    rewrite str_forallb_app in Hw. by apply andb_true in Hw as [? _].
  - intros [Hseg (line & w & Hline & Hw & Hb)]. pose proof (segment_no_dot n Hseg) as Hd. split.
    + exists line. split; [done|]. rewrite Hw. change (Some (strip_suffix COMPRESSION (basename w)) = Some n). f_equal.
      destruct Hb as [->|(suf & Hsuf & ->)]; [by apply strip_suffix_none|by apply strip_suffix_app].
    + apply is_segment_iff. exists n, "". by rewrite append_nil_r.
Qed.

(** *** The verdict *)

Section verdict.
Context (A : string → Prop).

(** The first segment that recovery needs, and its timeline: the first segment
    of the base backup; without one, the oldest segment of the newest timeline. *)
Definition needs_from (begin_wal tl start : string) : Prop :=
  begin_wal ≠ "" ∧ A begin_wal ∧ start = begin_wal ∧ tl = timeline_of begin_wal ∨
  begin_wal = "" ∧ A start ∧ tl = timeline_of start ∧
    (∀ n, A n → (timeline_of n ≤ tl)%string) ∧
    (∀ n, A n → timeline_of n = tl → (start ≤ n)%string).

(** The archive [A] is continuous for a base backup: its two ends are archived,
    and so is each number of the timeline from its first segment to any
    archived one. *)
Definition continuous (begin_wal end_wal : string) : Prop :=
  (end_wal = "" ∨ A end_wal) ∧
  ∃ tl start first, needs_from begin_wal tl start ∧ segment_index start = Ok first ∧
    ∀ n i, A n → timeline_of n = tl → segment_index n = Ok i →
      ∀ j, (first ≤ j ≤ i)%Z → ∃ m, A m ∧ timeline_of m = tl ∧ segment_index m = Ok j.
End verdict.

Lemma max_int_spec x l :
  max_int x l ∈ x :: l ∧ ∀ y, y ∈ x :: l → (y ≤ max_int x l)%Z.
Proof.
  unfold max_int. revert x. induction l as [|z l IH]; intros x; cbn [foldl].
  - split; [left|]. intros y ->%list_elem_of_singleton. lia.
  - destruct (IH (Z.max x z)) as [H1 H2]. split.
    + apply elem_of_cons in H1 as [->|H1]; [|by do 2 right].
      destruct (Z.max_spec x z) as [[_ ->]|[_ ->]]; [right; left|left].
    + pose proof (H2 _ (list_elem_of_here _ _)). intros y [->|[->|Hy]%elem_of_cons]%elem_of_cons; [lia..|].
      apply H2. by right.
Qed.

Lemma sorted_head_least (l : list string) x k :
  sorted_strs l = x :: k → x ∈ l ∧ ∀ y, y ∈ l → (x ≤ y)%string.
Proof.
  intros E. assert (x ∈ sorted_strs l) as Hx by (rewrite E; left). split; [by apply sorted_strs_elem|].
  intros y Hy%sorted_strs_elem. pose proof (sorted_strs_sorted l) as Hs. rewrite E in Hy, Hs.
  apply elem_of_cons in Hy as [->|Hy]; [done|]. inversion Hs as [|? ? _ Hf]; subst.
  by eapply Forall_forall in Hf.
Qed.

Lemma max_str_greatest l t : max_str l = Some t → t ∈ l ∧ ∀ y, y ∈ l → (y ≤ t)%string.
Proof.
  unfold max_str. intros H. split; [by apply sorted_strs_elem, last_Some_elem_of|].
  intros y Hy%sorted_strs_elem.
  by destruct (sorted_last _ _ _ _ (sorted_strs_sorted l) H Hy) as [->|?].
Qed.

(** A verdict: the status is 0 exactly when [P] holds, and 1 when it does not. *)
Definition decides (m : result (Z * string)) (P : Prop) : Prop :=
  ∃ st msg, m = Ok (st, msg) ∧ (st = 0 ∧ P ∨ st = 1 ∧ ¬ P)%Z.

Lemma decides_iff m P Q : (P ↔ Q) → decides m P → decides m Q.
Proof. intros H (st & msg & -> & Hd). exists st, msg. split; [done|]. tauto. Qed.

Lemma decides_no m msg (P : Prop) : m = Ok (1%Z, msg) → (P → False) → decides m P.
Proof. intros -> HP. exists 1%Z, msg. split; [done|]. by right. Qed.

Lemma filter_nil_iff {B} (f : B → bool) (l : list B) :
  List.filter f l = [] ↔ ∀ x, x ∈ l → f x = false.
Proof.
  induction l as [|x l IH]; cbn.
  - split; [|done]. intros _ x Hx. by apply elem_of_nil in Hx.
  - destruct (f x) eqn:E; split; [done| | |].
    + intros H. specialize (H x (list_elem_of_here _ _)). congruence.
    + intros H y [->|Hy]%elem_of_cons; [done|]. by apply IH.
    + intros H. apply IH. intros y Hy. apply H. by right.
Qed.

(** The sequence check decides that no number is missing. *)
Lemma judge_sequence_decides tl names L oldest b start first :
  (∀ n, n ∈ L → segment_name n) → start ∈ L →
  (if str_mem b names then b else oldest) = start → segment_index start = Ok first →
  decides (judge_sequence tl names L oldest b)
    (∀ n i, n ∈ L → segment_index n = Ok i → ∀ j, (first ≤ j ≤ i)%Z → ∃ m, m ∈ L ∧ segment_index m = Ok j).
Proof.
  intros HL Hstart Eb Ei. unfold judge_sequence. rewrite Eb, Ei. cbn [rbind].
  assert (∃ present, mapR segment_index L = Ok present) as [present Hp].
  { clear -HL. induction L as [|n L IH]; cbn [mapR]; [by eexists|].
    destruct (segment_index_total n) as [i ->]; [apply HL; left|].
    destruct IH as [p ->]; [intros; apply HL; by right|]. by eexists. }
  rewrite Hp. cbn [rbind].
  assert (∀ j, j ∈ present ↔ ∃ m, m ∈ L ∧ segment_index m = Ok j) as Hpres.
  { intros j. split; [by eapply mapR_elem|]. intros (m & Hm & Ej).
    destruct (mapR_elem_2 _ _ _ _ Hp Hm) as (k & Hk & Ek). congruence. }
  destruct present as [|x l].
  { assert (first ∈ @nil Z) as []%elem_of_nil by (apply Hpres; by exists start). }
  cbn [rbind]. destruct (max_int_spec x l) as [Hin Hmax]. set (top := max_int x l) in *.
  set (missing := List.filter _ _).
  assert (missing = [] ↔ ∀ j, (first ≤ j ≤ top)%Z → j ∈ x :: l) as Hmiss.
  { unfold missing. rewrite filter_nil_iff. split; intros H j Hj.
    - assert (j ∈ seqZ first (top + 1 - first)) as Hs by (apply elem_of_seqZ; lia).
      apply H, negb_false_iff, existsb_elem_of in Hs as (k & ? & ->%Z.eqb_eq). done.
    - apply elem_of_seqZ in Hj. apply negb_false_iff, existsb_elem_of. exists j. split; [apply H; lia|].
      by apply Z.eqb_eq. }
  clearbody missing. unfold decides.
  destruct missing as [|k ks]; eexists _, _; (split; [reflexivity|]); [left|right]; (split; [done|]).
  - intros n i Hn Hi j Hj. apply Hpres, (proj1 Hmiss eq_refl). split; [lia|].
    assert (i ∈ x :: l) as Hil by (apply Hpres; by exists n). specialize (Hmax i Hil). lia.
  - intros H. apply (List.nil_cons (x := k) (l := ks)). symmetry. apply Hmiss. intros j Hj.
    apply Hpres in Hin as (n & Hn & Hi). apply Hpres. by eapply H.
Qed.

Lemma max_str_total l : l ≠ [] → ∃ t, max_str l = Some t.
Proof.
  intros Hne. unfold max_str. apply last_is_Some. destruct l as [|x l]; [done|]. intros H.
  assert (x ∈ sorted_strs (x :: l)) as Hx by (apply sorted_strs_elem; left).
  rewrite H in Hx. by apply elem_of_nil in Hx.
Qed.

Lemma timeline_total names b : names ≠ [] → ∃ tl, timeline names b = Ok tl.
Proof.
  intros Hne. unfold timeline. destruct (is_segment b); [by eexists|].
  destruct (max_str_total (map timeline_of names)) as [t ->]; [by destruct names|by eexists].
Qed.

Section judge.
Context (names : list string) (b e : string).
Hypothesis Hnames : ∀ n, n ∈ names → segment_name n.

Lemma on_timeline_elem tl n :
  n ∈ sorted_strs (List.filter (λ n, str_eqb (timeline_of n) tl) names) ↔ n ∈ names ∧ timeline_of n = tl.
Proof. by rewrite sorted_strs_elem, list_elem_of_In, List.filter_In, <- list_elem_of_In, str_eqb_eq. Qed.

Lemma not_archived_iff :
  not_archived names b e = None ↔ (b = "" ∨ b ∈ names) ∧ (e = "" ∨ e ∈ names).
Proof.
  assert (∀ w, (negb (str_eqb w "") && negb (str_mem w names)) = false ↔ w = "" ∨ w ∈ names) as H.
  { intros w. by rewrite <- negb_orb, negb_false_iff, orb_true_iff, str_eqb_eq, str_mem_elem. }
  unfold not_archived. cbn [List.find snd]. rewrite <- !H.
  destruct (negb (str_eqb b "") && _); [naive_solver|].
  destruct (negb (str_eqb e "") && _); naive_solver.
Qed.

(** What [timeline] picks when the start of the backup is archived or not given. *)
Lemma timeline_picks :
  names ≠ [] → b = "" ∨ b ∈ names →
  ∃ tl, timeline names b = Ok tl ∧
    ∀ tl' start, needs_from (.∈ names) b tl' start → tl' = tl.
Proof using Hnames.
  intros Hne Hb. unfold timeline. destruct Hb as [->|Hb].
  - assert (is_segment "" = false) as -> by (vm_compute; reflexivity).
    destruct (max_str_total (map timeline_of names)) as [t E]; [by destruct names|]. rewrite E. exists t. split; [done|]. apply max_str_greatest in E as [Ht Hmax].
    apply list_elem_of_fmap in Ht as (n & -> & Hn).
    intros tl start [[? _]|(_ & Hs & -> & Hg & _)]; [done|].
    apply (anti_symm String.le); [|by apply Hg]. apply Hmax, list_elem_of_fmap. by exists start.
  - assert (is_segment b = true) as ->.
    { apply is_segment_iff. exists b, "". rewrite append_nil_r. split; [by apply Hnames|done]. }
    exists (timeline_of b). split; [done|].
    intros tl start [(_ & _ & _ & ->)|[-> _]]; [done|]. by destruct (Hnames "" Hb).
Qed.

(** The start that [judge_sequence] takes is the one that recovery needs. *)
Lemma start_needed tl oldest k start :
  timeline names b = Ok tl → b = "" ∨ b ∈ names →
  sorted_strs (List.filter (λ n, str_eqb (timeline_of n) tl) names) = oldest :: k →
  (if str_mem b names then b else oldest) = start →
  needs_from (.∈ names) b tl start ∧ start ∈ oldest :: k.
Proof using Hnames.
  intros Htl Hb E Es. pose proof (sorted_head_least _ _ _ E) as [Hold Hleast]. rewrite <- E.
  rewrite on_timeline_elem. setoid_rewrite list_elem_of_In in Hleast. setoid_rewrite List.filter_In in Hleast.
  rewrite list_elem_of_In, List.filter_In, <- list_elem_of_In, str_eqb_eq in Hold.
  unfold timeline in Htl. destruct (str_mem b names) eqn:Em; subst start.
  - apply str_mem_elem in Em.
    assert (is_segment b = true) as Hs.
    { apply is_segment_iff. exists b, "". rewrite append_nil_r. split; [by apply Hnames|done]. }
    rewrite Hs in Htl. injection Htl as <-. split; [|done]. left. split_and!; [|done..].
    intros ->. by destruct (Hnames "" Em).
  - apply str_mem_false in Em. destruct Hb as [->|?]; [|done].
    assert (is_segment "" = false) as Hs by (vm_compute; reflexivity). rewrite Hs in Htl.
    destruct (max_str (map timeline_of names)) as [t|] eqn:Et; [|done]. injection Htl as ->.
    apply max_str_greatest in Et as [_ Hmax]. destruct Hold as [Ho1 Ho2]. split; [|done].
    right. split_and!; [done|done|done| |].
    + intros n Hn. apply Hmax, list_elem_of_fmap. by exists n.
    + intros n Hn Ht. apply Hleast. split; [by apply list_elem_of_In|by apply str_eqb_eq].
Qed.

Lemma needs_from_unique tl s s' :
  needs_from (.∈ names) b tl s → needs_from (.∈ names) b tl s' → s = s'.
Proof.
  intros [(? & _ & -> & _)|(? & H1 & H2 & _ & H3)] [(? & _ & -> & _)|(? & H1' & H2' & _ & H3')]; try done.
  apply (anti_symm String.le); [by apply H3|by apply H3'].
Qed.

Lemma continuous_ends :
  continuous (.∈ names) b e → (b = "" ∨ b ∈ names) ∧ (e = "" ∨ e ∈ names).
Proof. intros [He (tl & s & i & [(_ & H & _)|(H & _)] & _)]; split; auto. Qed.

Lemma judge_decides : decides (judge names b e) (continuous (.∈ names) b e).
Proof using Hnames.
  destruct (decide (names = [])) as [E|Hne].
  { rewrite E at 1. eapply decides_no; [done|]. intros (_ & tl & s & i & Hs & _). rewrite E in Hs.
    destruct Hs as [(_ & H & _)|(_ & H & _)]; by apply elem_of_nil in H. }
  assert (∀ m P, decides (match names with [] => Ok (1%Z, m) | _ :: _ => P end) (continuous (.∈ names) b e)
    ↔ decides P (continuous (.∈ names) b e)) as Hj by (intros m P; clear -Hne; by destruct names).
  apply Hj. clear Hj. destruct (timeline_total names b Hne) as [tl Htl]. rewrite Htl. cbn [rbind].
  destruct (sorted_strs _) as [|oldest k] eqn:Eon.
  { eapply decides_no; [done|]. intros Hc. pose proof (continuous_ends Hc) as [Hb _].
    destruct Hc as [_ (tl' & s & i & Hs & _)]. destruct (timeline_picks Hne Hb) as (t & Ht & Hpick).
    rewrite Htl in Ht. injection Ht as <-. pose proof (Hpick _ _ Hs) as ->.
    apply (not_elem_of_nil s). rewrite <- Eon. apply on_timeline_elem.
    destruct Hs as [(_ & ? & -> & ->)|(_ & ? & -> & _)]; done. }
  destruct (not_archived names b e) as [[label wal]|] eqn:Ena.
  { eapply decides_no; [done|]. intros Hc%continuous_ends%not_archived_iff. congruence. }
  apply not_archived_iff in Ena as [Hb He].
  set (start := if str_mem b names then b else oldest).
  destruct (start_needed tl oldest k start Htl Hb Eon eq_refl) as [Hneed Hin].
  assert (∀ n, n ∈ oldest :: k ↔ n ∈ names ∧ timeline_of n = tl) as Hon
    by (intros n; rewrite <- Eon; apply on_timeline_elem).
  destruct (segment_index_total start) as [first Hfirst]; [by apply Hnames, Hon|].
  eapply decides_iff; [|apply (judge_sequence_decides tl names (oldest :: k) oldest b start first);
    [intros n Hn; by apply Hnames, Hon|done..]].
  setoid_rewrite Hon. unfold continuous. split.
  - intros H. split; [done|]. exists tl, start, first. split_and!; [done..|].
    intros n i Hn Ht Hi j Hij. destruct (H n i (conj Hn Ht) Hi j Hij) as (m & [? ?] & ?). by exists m.
  - intros [_ (tl' & s & i0 & Hs & Hi0 & H)] n i [Hn Ht] Hi j Hij.
    destruct (timeline_picks Hne Hb) as (t & Ht' & Hpick). rewrite Htl in Ht'. injection Ht' as <-.
    pose proof (Hpick _ _ Hs) as ->. pose proof (needs_from_unique _ _ _ Hs Hneed) as ->.
    assert (i0 = first) as -> by congruence. destruct (H n i Hn Ht Hi j Hij) as (m & ? & ? & ?). by exists m.
Qed.
End judge.

Lemma continuous_ext A B b e : (∀ n, A n ↔ B n) → continuous A b e ↔ continuous B b e.
Proof. intros H. unfold continuous, needs_from. by setoid_rewrite H. Qed.

(** C33: [main] decides whether the WAL archive of a base backup is
    continuous.  On each listing and each pair of ends it raises no exception,
    its status is 0 or 1, and the status is 0 exactly when the ends of the
    backup are archived and each segment number of the timeline, from the
    first segment that recovery needs to any archived segment, is archived. *)
Theorem main_decides_continuity (lines_of : string → list string) (prog listing b e : string) :
  ∃ st msg, main lines_of [prog; listing; b; e] = Ok (st, msg) ∧ (st = 0 ∨ st = 1)%Z ∧
    (st = 0%Z ↔ continuous (archived (lines_of listing)) b e).
Proof.
  destruct (judge_decides (parse (lines_of listing)) b e) as (st & msg & H & Hd).
  { intros n [Hn _]%parse_archived. done. }
  exists st, msg. split; [exact H|].
  rewrite (continuous_ext _ _ b e (parse_archived (lines_of listing))) in Hd.
  destruct Hd as [[-> Hc]|[-> Hc]]; split; [by left|done|by right|]. by split.
Qed.

(** A listing with a hole and one without. *)
Example continuous_ex : ∃ m,
  main (λ _, ["2024-01-01 1 wals/000000010000000000000001.gz"; "2024-01-01 1 wals/000000010000000000000002"])
    ["wal"; "f"; "000000010000000000000001"; ""] = Ok (0%Z, m).
Proof. eexists. vm_compute. reflexivity. Qed.
Example hole_ex : ∃ m,
  main (λ _, ["2024-01-01 1 wals/000000010000000000000001.gz"; "2024-01-01 1 wals/000000010000000000000003"])
    ["wal"; "f"; "000000010000000000000001"; ""] = Ok (1%Z, m).
Proof. eexists. vm_compute. reflexivity. Qed.
