(* ===== verification/UpgradePair.v ===== *)
(** * scripts/resolve-upgrade-pair.py: the published version to upgrade from

    The tags of the registry, the order of versions as tuples of integers, and
    the choice of the two versions of the upgrade test. *)
From stdpp Require Import sorting.
From S2P Require Import Prelude PyStr PyVal Regex.
From Stdlib Require Import Ascii.

Definition REPO : string := "zeroroot-ai/charts/gibson".
Definition REGISTRY : string := "https://ghcr.io".
(** [^\d+\.\d+\.\d+$] *)
Definition SEMVER : regex :=
  RSeq [RPlus (RChr is_digit); RStr "."; RPlus (RChr is_digit); RStr "."; RPlus (RChr is_digit); REnd].
Definition is_semver (s : string) : bool :=
  match re_match SEMVER s with Some _ => true | None => false end.
Definition MIN_TAGS : nat := 20.

(** ** The order of versions *)

Definition int_text (s : string) : result Z :=
  match int_of_str s with Some z => Ok z | None => Raise ValueError end.
Definition key (v : string) : result (list Z) := mapR int_text (str_split v ".").

(** [a < b] on tuples of integers *)
Fixpoint key_ltb (a b : list Z) : bool :=
  match a, b with
  | _, [] => false
  | [], _ :: _ => true
  | x :: a, y :: b => (x <? y)%Z || ((x =? y)%Z && key_ltb a b)
  end.
Definition key_le (a b : list Z * string) : Prop := key_ltb b.1 a.1 = false.
#[global] Instance key_le_dec : RelDecision key_le.
Proof. intros a b. unfold key_le. apply _. Defined.

Definition with_key (v : string) : result (list Z * string) := k <- key v ;; Ok (k, v).

Section tags.
(** The order in which Python goes through a set. *)
Context (set_order : list string → list string).

(** [sorted({t for t in tags if SEMVER.match(t)}, key=key)], each tag with its key. *)
Definition published (tags : list string) : result (list (list Z * string)) :=
  kvs <- mapR with_key (set_order (List.filter is_semver tags)) ;; Ok (merge_sort key_le kvs).

(** The highest published version strictly below [to], by version order. *)
Definition previous (tags : list string) (to : string) : result (option string) :=
  sem <- published tags ;;
  below <- filterM (λ kv, k <- key to ;; Ok (key_ltb kv.1 k)) sem ;;
  Ok (snd <$> last below).

(** Why [frm] cannot be the version to upgrade from, or [None] when it can. *)
Definition named (tags : list string) (to frm : string) : result (option string) :=
  if negb (is_semver frm) then Ok (Some (cat ["--from "; frm; " is not a bare semver"]))
  else if negb (str_mem frm tags) then Ok (Some (cat ["--from "; frm; " is not a published version"]))
  else kf <- key frm ;; kt <- key to ;;
    Ok (if negb (key_ltb kf kt)
        then Some (cat ["--from "; frm; " is not below "; to; ": that is not an upgrade"])
        else None).

(** [max(sem, key=key)]: the first of the greatest. *)
Definition greatest (best : list Z * string) (kvs : list (list Z * string)) : list Z * string :=
  foldl (λ b kv, if key_ltb b.1 kv.1 then kv else b) best kvs.
Definition newest (sem : list string) : result string :=
  kvs <- mapR with_key sem ;;
  match kvs with kv :: l => Ok (greatest kv l).2 | [] => Raise ValueError end.

(** ** The registry *)

(** A page of the tag list: its tags, and its Link header, empty when absent. *)
Context (page : string → list string * string).

Definition next_rel : string := cat ["rel="; String dquote "next"; String dquote ""].
Definition next_url (link : string) : option string :=
  if contains next_rel link then
    let first := match str_split link ";" with x :: _ => x | [] => "" end in
    let nxt := lstrip_of (in_chars "<> ") (rstrip_of (in_chars "<> ") first) in
    Some (if startswith nxt "http" then nxt else cat [REGISTRY; nxt])
  else None.

(** The pages that are left to read, of at most 50. *)
Fixpoint tags_from (pages : nat) (url : string) : list string :=
  match pages with
  | O => []
  | S pages =>
      if str_eqb url "" then [] else
      let '(tags, link) := page url in
      tags ++ match next_url link with Some url => tags_from pages url | None => [] end
  end.
Definition all_tags : list string :=
  tags_from 50 (cat [REGISTRY; "/v2/"; REPO; "/tags/list?n=1000"]).

(** ** The run *)

(** [sys.argv[sys.argv.index(name) + 1]] *)
Fixpoint flag_value (name : string) (argv : list string) : option (result string) :=
  match argv with
  | [] => None
  | a :: l =>
      if str_eqb a name
      then Some match l with v :: _ => Ok v | [] => Raise IndexError end
      else flag_value name l
  end.

(** The exit status, the line that is printed, and the text that is appended to
    a file. *)
Record outcome := Outcome { status : Z; printed : string; appended : option (string * string) }.
Definition refuse (why : string) : outcome :=
  Outcome 1 (cat ["::error::resolve-upgrade-pair: "; why]) None.

Definition num (n : nat) : string := str_of_int (Z.of_nat n).

(** The version to upgrade from, or why there is none. *)
Definition choose_from (tags : list string) (to frm : string) : result (string + option string) :=
  if negb (str_eqb frm "") then
    why <- named tags to frm ;;
    Ok match why with Some w => inl w | None => inr (Some frm) end
  else prev <- previous tags to ;; Ok (inr prev).

Definition opt_flag (name : string) (argv : list string) : result (option string) :=
  match flag_value name argv with Some r => v <- r ;; Ok (Some v) | None => Ok None end.

(** [main], with the value of [GITHUB_OUTPUT]. *)
Definition main (argv : list string) (github_output : option string) : result outcome :=
  to <- opt_flag "--to" argv ;;
  let tags := all_tags in
  let sem := List.filter is_semver tags in
  if length sem <? MIN_TAGS then
    Ok (refuse (cat ["the registry returned only "; num (length sem); " semver tag(s) for "; REPO;
                     ", below the floor of "; num MIN_TAGS; ". That is a partial read, and a version pair from a partial read would upgrade across the wrong span. Refusing."]))
  else
  to <- match to with Some to => Ok to | None => newest sem end ;;
  frm <- opt_flag "--from" argv ;;
  choice <- choose_from tags to (default "" frm) ;;
  Ok match choice with
     | inl why => refuse why
     | inr None =>
         refuse (cat ["no published version below "; to; " in "; num (length sem);
                      " tag(s); there is nothing to upgrade FROM"])
     | inr (Some prev) =>
         Outcome 0 (cat ["upgrade path under test: "; prev; " -> "; to; "  ("; num (length sem);
                         " published versions)"])
           match github_output with
           | Some out => if str_eqb out "" then None
                         else Some (out, cat ["to="; to; newline; "from="; prev; newline])
           | None => None
           end
     end.

(** ** The self-test *)

Definition previous_cases : list (list string * string * option string) :=
  [(["0.9.0"; "0.10.0"; "0.10.1"], "0.10.1", Some "0.10.0");
   (["0.132.9"; "0.132.14"; "0.136.0"], "0.136.1", Some "0.136.0");
   (["0.132.9"; "0.132.14"], "0.136.1", Some "0.132.14");
   (["1.0.0"], "1.0.0", None);
   ([], "1.0.0", None)].

Definition named_cases : list (string * option string) :=
  [("0.136.2", None); ("0.136.6", Some "not below"); ("0.137.0", Some "not a published");
   ("9.9.9", Some "not a published"); ("latest", Some "not a bare semver")].

Definition previous_fails (c : list string * string * option string) : result bool :=
  got <- previous c.1.1 c.1.2 ;; Ok (negb (bool_decide (got = c.2))).

Definition named_fails (c : string * option string) : result bool :=
  got <- named ["0.136.2"; "0.136.5"; "0.136.6"; "latest"] "0.136.6" c.1 ;;
  Ok match got, c.2 with
     | None, None => false
     | Some g, Some want => negb (contains want g)
     | _, _ => true
     end.

Definition selftest : result Z :=
  a <- anyM previous_fails previous_cases ;;
  if a then Ok 1%Z else
  got <- previous ["latest"; "sha-abc1234"; "0.5.0"] "0.6.0" ;;
  if negb (bool_decide (got = Some "0.5.0")) then Ok 1%Z else
  b <- anyM named_fails named_cases ;;
  Ok (if b then 1%Z else 0%Z).
End tags.

Lemma upgradepair_selftest : selftest remove_dups = Ok 0%Z.
Proof. vm_compute. reflexivity. Qed.

Example newest_ex : newest ["0.9.0"; "0.10.0"; "0.10.0"] = Ok "0.10.0".
Proof. vm_compute. reflexivity. Qed.
Example next_url_ex :
  next_url (cat ["</v2/x/tags/list?n=1000&last=a>; "; next_rel]) = Some "https://ghcr.io/v2/x/tags/list?n=1000&last=a".
Proof. vm_compute. reflexivity. Qed.

(** ** What the guard promises *)

(** *** The order of versions

    One version is below another when they agree up to a number that is smaller,
    or when it is a proper prefix of the other. *)
Definition version_lt (a b : list Z) : Prop :=
  (∃ p x y u v, a = p ++ x :: u ∧ b = p ++ y :: v ∧ (x < y)%Z) ∨ (∃ x u, b = a ++ x :: u).

Lemma version_lt_cons x y a b :
  version_lt (x :: a) (y :: b) ↔ (x < y)%Z ∨ x = y ∧ version_lt a b.
Proof.
  unfold version_lt. split.
  - intros [(p & z & w & u & v & Ha & Hb & Hlt)|(z & u & Hb)].
    + destruct p as [|q p]; cbn in *; [injection Ha as -> ->; injection Hb as -> ->; by left|].
      injection Ha as -> ->. injection Hb as -> ->. right. split; [done|]. left. by exists p, z, w, u, v.
    + injection Hb as -> ->. right. split; [done|]. right. by exists z, u.
  - intros [Hlt|[-> [(p & z & w & u & v & -> & -> & Hlt)|(z & u & ->)]]].
    + left. by exists [], x, y, a, b.
    + left. by exists (y :: p), z, w, u, v.
    + right. by exists z, u.
Qed.

Lemma version_lt_nil_r a : ¬ version_lt a [].
Proof. intros [([|? ?] & ? & ? & ? & ? & _ & ? & _)|(? & ? & ?)]; destruct a; discriminate. Qed.

Lemma key_ltb_spec a b : key_ltb a b = true ↔ version_lt a b.
Proof.
  revert b. induction a as [|x a IH]; intros [|y b]; cbn [key_ltb].
  - split; [done|by intros ?%version_lt_nil_r].
  - split; [|done]. intros _. right. by exists y, b.
  - split; [done|by intros ?%version_lt_nil_r].
  - by rewrite orb_true_iff, andb_true_iff, Z.ltb_lt, Z.eqb_eq, IH, version_lt_cons.
Qed.

Lemma version_lt_irrefl a : ¬ version_lt a a.
Proof. induction a as [|x a IH]; [by intros ?%version_lt_nil_r|]. rewrite version_lt_cons. intros [?|[_ ?]]; [lia|done]. Qed.

Lemma version_lt_trans a b c : version_lt a b → version_lt b c → version_lt a c.
Proof.
  revert b c. induction a as [|x a IH]; intros [|y b] [|z c] H1 H2;
    try by (exfalso; eapply version_lt_nil_r).
  - right. by exists z, c.
  - rewrite version_lt_cons in *. destruct H1 as [?|[-> H1]], H2 as [?|[-> H2]];
      [left; lia|by left|by left|]. right. split; [done|by eapply IH].
Qed.

Lemma version_total a b : version_lt a b ∨ a = b ∨ version_lt b a.
Proof.
  revert b. induction a as [|x a IH]; intros [|y b].
  - by right; left.
  - left. right. by exists y, b.
  - do 2 right. right. by exists x, a.
  - rewrite !version_lt_cons. destruct (Z.lt_trichotomy x y) as [?|[->|?]]; [by do 2 left| |by do 2 right; left].
    destruct (IH b) as [?|[->|?]]; [by left; right|by right; left|by do 2 right; right].
Qed.

Lemma key_ltb_false a b : key_ltb b a = false ↔ ¬ version_lt b a.
Proof. by rewrite <- key_ltb_spec, not_true_iff_false. Qed.

#[global] Instance key_le_trans : Transitive key_le.
Proof.
  intros [a ?] [b ?] [c ?]. unfold key_le. cbn. rewrite !key_ltb_false. intros H1 H2 H.
  destruct (version_total b c) as [Hbc|[->|Hbc]]; [|done|done].
  by apply H1, (version_lt_trans _ c).
Qed.
#[global] Instance key_le_total : Total key_le.
Proof.
  intros [a ?] [b ?]. unfold key_le. cbn. rewrite !key_ltb_false.
  destruct (version_total a b) as [?|[->|?]]; [left|left; apply version_lt_irrefl|right];
    intros ?; by eapply version_lt_irrefl, version_lt_trans.
Qed.

Lemma StronglySorted_sublist {A} (R : A → A → Prop) (k l : list A) :
  k `sublist_of` l → StronglySorted R l → StronglySorted R k.
Proof.
  induction 1 as [|x k l Hkl IH|x k l Hkl IH]; intros Hs; [done|..]; inversion Hs as [|? ? Hl Hf]; subst.
  - constructor; [by apply IH|]. apply Forall_forall. intros y Hy. eapply Forall_forall; [exact Hf|].
    by eapply elem_of_sublist.
  - by apply IH.
Qed.

(** *** The choice of the versions *)

Lemma with_key_Ok v kv : with_key v = Ok kv ↔ key v = Ok kv.1 ∧ kv.2 = v.
Proof.
  unfold with_key. destruct (key v) as [k|] eqn:E; cbn; [|naive_solver].
  destruct kv as [k' v']. cbn. naive_solver.
Qed.

(** A published version, with its key. *)
Definition is_published (tags : list string) (k : list Z) (v : string) : Prop :=
  v ∈ tags ∧ is_semver v = true ∧ key v = Ok k.

Lemma mapR_with_key l kvs k v : mapR with_key l = Ok kvs → (k, v) ∈ kvs ↔ v ∈ l ∧ key v = Ok k.
Proof.
  intros H. split.
  - intros Hin. destruct (mapR_elem _ _ _ _ H Hin) as (v' & ? & [? <-]%with_key_Ok). done.
  - intros [Hin Hk]. destruct (mapR_elem_2 _ _ _ _ H Hin) as ([k' v'] & ? & [Hk' Hv]%with_key_Ok).
    cbn in *. congruence.
Qed.

Lemma elem_of_semver tags v : v ∈ List.filter is_semver tags ↔ v ∈ tags ∧ is_semver v = true.
Proof. by rewrite list_elem_of_In, List.filter_In, <- list_elem_of_In. Qed.

Lemma newest_greatest tags t :
  newest (List.filter is_semver tags) = Ok t →
  ∃ kt, is_published tags kt t ∧ ∀ v k, is_published tags k v → ¬ version_lt kt k.
Proof.
  unfold newest. intros (kvs & Hk & H)%bind_Ok. destruct kvs as [|kv l]; [done|]. injection H as Ht.
  assert (∀ b, let g := greatest b l in g ∈ b :: l ∧ ∀ y, y ∈ b :: l → ¬ version_lt g.1 y.1) as Hg.
  { clear. induction l as [|x l IH]; intros b; cbn.
    - split; [left|]. intros y ->%list_elem_of_singleton. apply version_lt_irrefl.
    - destruct (key_ltb b.1 x.1) eqn:E; [destruct (IH x) as [H1 H2]|destruct (IH b) as [H1 H2]];
        unfold greatest in *; cbn [foldl]; rewrite ?E.
      + apply key_ltb_spec in E. split; [by right|].
        intros y [->|Hy]%elem_of_cons; [|by apply H2].
        intros Hlt. apply (H2 x (list_elem_of_here _ _)). by eapply version_lt_trans.
      + apply key_ltb_false in E. split; [set_solver|].
        intros y [->|[->|Hy]%elem_of_cons]%elem_of_cons; [apply H2; left| |apply H2; by right].
        intros Hlt. apply (H2 b (list_elem_of_here _ _)).
        destruct (version_total b.1 x.1) as [?|[Hbx|Hxb]]; [done|by rewrite Hbx|by eapply version_lt_trans]. }
  destruct (Hg kv) as [Hin Hmax]. destruct (greatest kv l) as [kt t'] eqn:Eg. cbn in *. subst t'.
  exists kt. assert (∀ k v, is_published tags k v ↔ (k, v) ∈ kv :: l) as Hpub.
  { intros k v. rewrite (mapR_with_key _ _ _ _ Hk), elem_of_semver. unfold is_published. tauto. }
  split; [by apply Hpub|]. intros v k Hv%Hpub. by apply (Hmax _ Hv).
Qed.

Lemma named_spec tags to f :
  named tags to f = Ok None →
  ∃ kf kt, is_published tags kf f ∧ key to = Ok kt ∧ version_lt kf kt.
Proof.
  unfold named. destruct (is_semver f) eqn:Es; [|done]. destruct (str_mem f tags) eqn:Em; [|done]. cbn [negb].
  intros (kf & Hkf & H)%bind_Ok. apply bind_Ok in H as (kt & Hkt & H). injection H as H.
  destruct (key_ltb kf kt) eqn:E; [|done]. apply key_ltb_spec in E. apply str_mem_elem in Em.
  exists kf, kt. by split_and!.
Qed.

Lemma opt_flag_Ok name argv o : opt_flag name argv = Ok o → (o = None ↔ flag_value name argv = None).
Proof. unfold opt_flag. destruct (flag_value name argv) as [[]|]; naive_solver. Qed.
Section set_order.
Context (so : list string → list string).
Hypothesis Hso : ∀ l x, x ∈ so l ↔ x ∈ l.

Lemma published_spec tags kvs :
  published so tags = Ok kvs →
  StronglySorted key_le kvs ∧ ∀ k v, (k, v) ∈ kvs ↔ is_published tags k v.
Proof using Hso.
  unfold published. intros (l & Hl & H)%bind_Ok. injection H as <-.
  split; [apply (StronglySorted_merge_sort _)|]. intros k v.
  rewrite merge_sort_Permutation, (mapR_with_key _ _ _ _ Hl), Hso, elem_of_semver.
  unfold is_published. tauto.
Qed.

Lemma previous_spec tags to f :
  previous so tags to = Ok (Some f) →
  ∃ kf kt, is_published tags kf f ∧ key to = Ok kt ∧ version_lt kf kt ∧
    ∀ v k, is_published tags k v → version_lt k kt → ¬ version_lt kf k.
Proof using Hso.
  unfold previous. intros (sem & [Hs Hpub]%published_spec & H)%bind_Ok.
  apply bind_Ok in H as (below & Hb & H). injection H as Hlast.
  destruct (last below) as [[kf f']|] eqn:E; [|done]. injection Hlast as ->.
  assert (∀ k v, (k, v) ∈ below ↔ (k, v) ∈ sem ∧ ∃ kt, key to = Ok kt ∧ version_lt k kt) as Hbel.
  { intros k v. rewrite (filterM_Ok _ _ _ Hb). cbn. rewrite bind_Ok. f_equiv. f_equiv. intros kt.
    rewrite <- key_ltb_spec. split; intros [? H]; split; congruence. }
  pose proof (last_Some_elem_of _ _ E) as Hf. apply Hbel in Hf as [Hf%Hpub (kt & Hkt & Hlt)].
  exists kf, kt. split_and!; [done..|]. intros v k Hv%Hpub Hk.
  assert ((k, v) ∈ below) as Hin by (apply Hbel; split; [done|by exists kt]).
  pose proof (StronglySorted_sublist _ _ _ (filterM_sublist _ _ _ Hb) Hs) as Hsb.
  destruct (sorted_last _ _ _ _ Hsb E Hin) as [[= -> ->]|Hle]; [apply version_lt_irrefl|].
  unfold key_le in Hle. cbn in Hle. by apply key_ltb_false.
Qed.

End set_order.

(** A run that succeeds prints an upgrade.  The read of the tag list is not
    a partial one, the version to upgrade from is published and below the
    version under test; without [--to] the version under test is the newest
    published one, and without [--from] no published version lies between the
    two. *)
Theorem resolved_pair_is_an_upgrade (so : list string → list string)
    (page : string → list string * string) (argv : list string) (env : option string) (out : outcome)
    (Hso : ∀ l x, x ∈ so l ↔ x ∈ l)
    (Hmain : main so page argv env = Ok out) (Hstatus : status out = 0%Z) :
  let tags := all_tags page in
  MIN_TAGS ≤ length (List.filter is_semver tags) ∧
  ∃ from to kf kt,
    printed out = cat ["upgrade path under test: "; from; " -> "; to; "  (";
                       num (length (List.filter is_semver tags)); " published versions)"] ∧
    is_published tags kf from ∧ key to = Ok kt ∧ version_lt kf kt ∧
    (flag_value "--to" argv = None →
       is_published tags kt to ∧ ∀ v k, is_published tags k v → ¬ version_lt kt k) ∧
    (flag_value "--from" argv = None →
       ∀ v k, is_published tags k v → version_lt k kt → ¬ version_lt kf k).
Proof.
  cbv zeta. revert Hmain. unfold main. intros (oto & Hto & H)%bind_Ok.
  set (tags := all_tags page) in *. cbv zeta in H.
  destruct (length (List.filter is_semver tags) <? MIN_TAGS) eqn:El; [by injection H as <-|].
  split; [by apply Nat.ltb_ge in El|].
  apply bind_Ok in H as (to & Ht & H). apply bind_Ok in H as (ofrm & Hfrm & H).
  apply bind_Ok in H as (choice & Hc & H). injection H as <-.
  destruct choice as [why|[f|]]; [done| |done].
  assert (∃ kf kt, is_published tags kf f ∧ key to = Ok kt ∧ version_lt kf kt ∧
    (ofrm = None → ∀ v k, is_published tags k v → version_lt k kt → ¬ version_lt kf k))
    as (kf & kt & Hf & Hkt & Hlt & Hbest).
  { unfold choose_from in Hc. destruct (str_eqb (default "" ofrm) "") eqn:Ee; cbn [negb] in Hc.
    - apply bind_Ok in Hc as (prev & Hp & Hc). injection Hc as ->.
      apply previous_spec in Hp as (kf & kt & Hp); [|done]. exists kf, kt. naive_solver.
    - apply bind_Ok in Hc as (why & Hw & Hc). destruct why; [done|]. injection Hc as <-.
      apply named_spec in Hw as (kf & kt & Hw). exists kf, kt. destruct ofrm; [naive_solver|done]. }
  exists f, to, kf, kt. split_and!; [reflexivity|done..| |].
  - intros Hn. apply (opt_flag_Ok _ _ _ Hto) in Hn as ->. cbn in Ht.
    apply newest_greatest in Ht as (kt' & Hp & Hg).
    assert (kt' = kt) as -> by (destruct Hp as (_ & _ & Hk); congruence). done.
  - intros Hn. apply Hbest. by apply (opt_flag_Ok _ _ _ Hfrm).
Qed.

(** A registry of thirty releases on one page. *)
Definition one_page (_ : string) : list string * string :=
  ("latest" :: map (λ n, cat ["0."; num n; ".0"]) (seq 0 30), "").

Lemma resolved_pair_is_an_upgrade_witness :
  ∃ out, main remove_dups one_page ["resolve-upgrade-pair.py"] None = Ok out ∧
    MIN_TAGS ≤ length (List.filter is_semver (all_tags one_page)).
Proof.
  eexists. assert (main remove_dups one_page ["resolve-upgrade-pair.py"] None =
    Ok (Outcome 0 "upgrade path under test: 0.28.0 -> 0.29.0  (30 published versions)" None)) as H
    by (vm_compute; reflexivity).
  split; [exact H|].
  apply (resolved_pair_is_an_upgrade remove_dups one_page ["resolve-upgrade-pair.py"] None _
    (λ l x, elem_of_remove_dups l x) H eq_refl).
Defined.
