(* ===== verification/HubbleDrops.v ===== *)
(** * scripts/check-hubble-drops.py: no flow of the release is dropped by a policy

    The check reads Hubble flows.  A line is its parsed JSON, or [None] when it
    is blank or not JSON; the copy that [evidence_line] makes through JSON is
    the value itself.  The reads of the cluster are arguments. *)
From S2P Require Import Prelude PyStr PyVal IpAddr.
From Stdlib Require Import Ascii.

Definition POLICY_REASONS : list string := ["POLICY_DENIED"; "POLICY_DENY"; "AUTH_REQUIRED"].

(** The report of one flow. *)
Record finding := Finding {
  i_source : string; i_source_pod : val; i_destination : string; i_port : string;
  i_direction : val; i_reason : string; i_time : val; i_flags : string }.

(** ** Peers: what the check knows of the cluster *)

(** [pods] reads a pod of a live cluster, [None] when the read fails; it is
    absent when the check judges recorded flows.  [ports] holds the ports that
    a pod listens on, by namespace and name, and a live read adds to it. *)
Record peers := Peers {
  cidrs : list network;
  ports : list (string * list Z);
  live : option (string → string → option val);
  notices : list finding }.

(** [Peers(cidrs, ports, live)] *)
Definition make_peers (cidrs : list string) (ports : list (string * list Z))
    (live : option (string → string → option val)) : result peers :=
  ns <- mapR (λ c, match ip_network c with Some n => Ok n | None => Raise ValueError end) cidrs ;;
  Ok (Peers ns ports live []).

(** The container ports of a pod. *)
Definition pod_ports (pod : val) : result (list Z) :=
  spec <- get_dict pod "spec" ;; cs <- get_list spec "containers" ;;
  flatM (λ c, ps <- get_list c "ports" ;;
    flatM (λ p, has <- str_in "containerPort" p ;;
      if has then x <- item p "containerPort" ;; z <- py_int x ;; Ok [z] else Ok []) ps) cs.

Definition text_arg (v : val) : result string :=
  match v with VStr s => Ok s | _ => Raise TypeError end.

(** The ports of a pod that is not known yet: a read of the live cluster. *)
Definition learn (p : peers) (read : string → string → option val) (key : string) (namespace pod : val)
    : result peers :=
  ns <- text_arg namespace ;; name <- text_arg pod ;;
  got <- match read ns name with Some v => pod_ports v | None => Ok [] end ;;
  Ok (Peers (cidrs p) (alist_set key got (ports p)) (live p) (notices p)).

Definition listens (p : peers) (namespace pod : val) (port : Z) : result (bool * peers) :=
  let key := cat [py_str namespace; "/"; py_str pod] in
  p <- match alist_get key (ports p), live p with
       | None, Some read => learn p read key namespace pod
       | _, _ => Ok p
       end ;;
  Ok (existsb (Z.eqb port) (default [] (alist_get key (ports p))), p).

(** [ipaddress.ip_address(v)] *)
Definition address_of (v : val) : option address :=
  match v with
  | VStr s => ip_address s
  | VInt z => ip_of_int z
  | VBool b => ip_of_int (Z.b2z b)
  | _ => None
  end.

Definition in_pod_cidr (p : peers) (ip : val) : bool :=
  match address_of ip with
  | None => false
  | Some a => existsb (in_network a) (cidrs p)
  end.

(** ** A late reply to a peer that is gone *)

(** The TCP part of a flow, when the packet has flags and no SYN. *)
Definition late_tcp (flow : val) : result (option val) :=
  l4 <- get_dict flow "l4" ;; tcp <- get l4 "TCP" ;;
  if negb (is_dict tcp) then Ok None else
  flags <- get_dict tcp "flags" ;;
  if negb (truthy flags) then Ok None else
  syn <- get flags "SYN" ;;
  Ok (if truthy syn then None else Some tcp).

(** A destination outside each pod: the world entity. *)
Definition is_world (dst : val) : result bool :=
  pod <- get dst "pod_name" ;;
  if truthy pod then Ok false else
  labels <- get dst "labels" ;; str_in "reserved:world" (por labels (VList [])).

(** [int(tcp.get(k) or 0)] *)
Definition port_number (tcp : val) (k : string) : result Z :=
  x <- get tcp k ;; py_int (por x (VInt 0)).

(** The source pod listens on the source port: a server. *)
Definition from_server (p : peers) (src tcp : val) : result (bool * peers) :=
  pod <- get src "pod_name" ;;
  if negb (truthy pod) then Ok (false, p) else
  ns <- get_default src "namespace" (VStr "") ;; port <- port_number tcp "source_port" ;;
  listens p ns pod port.

Definition gone_peer (flow : val) (p : peers) : result (bool * peers) :=
  otcp <- late_tcp flow ;;
  match otcp with
  | None => Ok (false, p)
  | Some tcp =>
      src <- get_dict flow "source" ;; dst <- get_dict flow "destination" ;;
      world <- is_world dst ;;
      if negb world then Ok (false, p) else
      ips <- get_dict flow "IP" ;; ip <- get_default ips "destination" (VStr "") ;;
      if negb (in_pod_cidr p ip) then Ok (false, p) else
      dport <- port_number tcp "destination_port" ;;
      if (dport <? 32768)%Z then Ok (false, p) else from_server p src tcp
  end.

(** ** The report *)

Definition RESERVED : string := "reserved:".
Definition endpoint (e ip : val) : result string :=
  let e := por e (VDict []) in
  pod <- get e "pod_name" ;;
  if truthy pod then
    ns <- get_default e "namespace" (VStr "?") ;; Ok (cat [py_str ns; "/"; py_str pod])
  else
    names <- get_list e "labels" ;;
    reserved <- flatM (λ n, s <- as_str n ;;
      Ok match drop_prefix RESERVED s with Some rest => [rest] | None => [] end) names ;;
    Ok (cat [py_str (por ip (VStr "?"));
             match reserved with [] => "" | _ => cat [" ("; str_join "," reserved; ")"] end]).

Definition PROTOCOLS : list string := ["TCP"; "UDP"; "SCTP"].
Definition port_of (flow : val) : result string :=
  l4 <- get_dict flow "l4" ;;
  o <- firstM (λ proto, has <- str_in proto l4 ;;
         if has then
           x <- item l4 proto ;; port <- get_default (por x (VDict [])) "destination_port" (VStr "?") ;;
           Ok (Some (cat [py_str port; "/"; proto]))
         else Ok None) PROTOCOLS ;;
  match o with
  | Some s => Ok s
  | None => v4 <- str_in "ICMPv4" l4 ;;
            if v4 then Ok "icmp" else v6 <- str_in "ICMPv6" l4 ;; Ok (if v6 then "icmp" else "?")
  end.

(** The names of the TCP flags that are set. *)
Definition flags_of (flow : val) : result string :=
  l4 <- get_dict flow "l4" ;; tcp <- get_dict l4 "TCP" ;; flags <- get_dict tcp "flags" ;;
  kvs <- items flags ;;
  Ok (str_join "," (sorted_strs (map fst (List.filter (λ kv, truthy kv.2) kvs)))).

(** The object of a line without the [l7] of its flow. *)
Definition without_l7 (v : val) : result val :=
  match v with VDict d => Ok (VDict (alist_del "l7" d)) | _ => Raise AttributeError end.
Definition evidence_line (obj : val) : result val :=
  match obj with
  | VDict d =>
      match alist_get "flow" d with
      | Some flow => flow <- without_l7 flow ;; Ok (VDict (alist_set "flow" flow d))
      | None => without_l7 obj
      end
  | _ => Raise AttributeError
  end.

(** ** The drops of a policy *)

(** The reason of a policy drop of the namespace, or [None]. *)
Definition drop_reason (flow : val) (namespace : string) : result (option string) :=
  verdict <- get flow "verdict" ;;
  if negb (py_eq verdict (VStr "DROPPED")) then Ok None else
  r <- get flow "drop_reason_desc" ;;
  let reason := py_str (por r (VStr "")) in
  if negb (str_mem reason POLICY_REASONS) then Ok None else
  src <- get_dict flow "source" ;; dst <- get_dict flow "destination" ;;
  if str_eqb namespace "" then Ok (Some reason) else
  a <- get src "namespace" ;; b <- get dst "namespace" ;;
  Ok (if existsb (py_eq (VStr namespace)) [a; b] then Some reason else None).

Definition report (flow : val) (reason : string) : result finding :=
  src <- get_dict flow "source" ;; dst <- get_dict flow "destination" ;; ip <- get_dict flow "IP" ;;
  sip <- get_default ip "source" (VStr "") ;; source <- endpoint src sip ;;
  pod <- get_default src "pod_name" (VStr "") ;;
  dip <- get_default ip "destination" (VStr "") ;; destination <- endpoint dst dip ;;
  port <- port_of flow ;;
  direction <- get_default flow "traffic_direction" (VStr "?") ;;
  time <- get_default flow "time" (VStr "") ;;
  flags <- flags_of flow ;;
  Ok (Finding source pod destination port direction reason time flags).

(** What the loop over the lines builds. *)
Record found := Found { drops : list finding; evidence : list val; known : peers }.

Definition add_notice (i : finding) (p : peers) : peers :=
  Peers (cidrs p) (ports p) (live p) (notices p ++ [i]).

Definition drop_line (namespace : string) (f : found) (line : option val) : result found :=
  match line with
  | None => Ok f
  | Some obj =>
      flow <- get_default obj "flow" obj ;;
      o <- drop_reason flow namespace ;;
      match o with
      | None => Ok f
      | Some reason =>
          ev <- evidence_line obj ;;
          i <- report flow reason ;;
          '(gone, p) <- gone_peer flow (known f) ;;
          Ok (if (gone : bool)
              then Found (drops f) (evidence f ++ [ev]) (add_notice i p)
              else Found (drops f ++ [i]) (evidence f ++ [ev]) p)
      end
  end.

Definition policy_drops (lines : list (option val)) (namespace : string) (p : peers) : result found :=
  foldM (drop_line namespace) (Found [] [] p) lines.

Definition describe (d : finding) : string :=
  let flags := if str_eqb (i_flags d) "" then "" else cat [", TCP "; i_flags d] in
  cat [i_source d; " -> "; i_destination d; " port "; i_port d; " ("; py_str (i_direction d); ", ";
       i_reason d; flags; ", "; py_str (i_time d); ")"].

(** The forwarded flows from a pod whose name starts with [prefix], to the port. *)
Definition forwarded_line (prefix port : string) (line : option val) : result (list finding) :=
  match line with
  | Some (VDict d) =>
      flow <- get_dict (VDict d) "flow" ;;
      src <- get_dict flow "source" ;; dst <- get_dict flow "destination" ;;
      verdict <- get flow "verdict" ;;
      if negb (py_eq verdict (VStr "FORWARDED")) then Ok [] else
      pod <- get_default src "pod_name" (VStr "") ;;
      if negb (startswith (py_str pod) prefix) then Ok [] else
      p <- port_of flow ;;
      if negb (str_eqb p (cat [port; "/TCP"])) then Ok [] else
      ip <- get_dict flow "IP" ;;
      sip <- get_default ip "source" (VStr "") ;; source <- endpoint src sip ;;
      dip <- get_default ip "destination" (VStr "") ;; destination <- endpoint dst dip ;;
      direction <- get_default flow "traffic_direction" (VStr "?") ;;
      time <- get_default flow "time" (VStr "") ;;
      Ok [Finding source pod destination p direction "FORWARDED" time ""]
  | _ => Ok []
  end.
Definition forwarded (lines : list (option val)) (prefix port : string) : result (list finding) :=
  flatM (forwarded_line prefix port) lines.

(** [s.rpartition(":")] without the separator *)
Definition rpartition_colon (s : string) : string * string :=
  match rsplit1 ":" s with Some p => p | None => ("", s) end.
Definition isdigit (s : string) : bool := negb (str_eqb s "") && str_forallb is_digit s.

Definition from_pod (prefix : string) (d : finding) : result bool :=
  s <- as_str (i_source_pod d) ;; Ok (startswith s prefix).

Definition expected_drops (l : list finding) (spec direction : string) : result (list finding) :=
  let '(prefix, port) := rpartition_colon spec in
  let '(prefix, port) :=
    if str_eqb prefix "" || negb (isdigit port) then (spec, "") else (prefix, port) in
  filterM (λ d,
    b <- from_pod prefix d ;;
    Ok (b && (str_eqb port "" || str_eqb (i_port d) (cat [port; "/TCP"]))
          && (str_eqb direction "" || py_eq (i_direction d) (VStr direction)))) l.

(** ** The run

    [main] after the arguments are read: the lines of the flows are what
    [lines_of] or [live_flows] returns, and the outcome is the exit status, the
    lines that are printed, and the evidence. *)
Record options := Options {
  o_namespace : string; o_expect_drop : string; o_expect_forward : string; o_direction : string;
  o_recorded : bool; o_pod_cidr : list string; o_listen_port : list string }.
Record outcome := Outcome { status : Z; printed : list string; kept : list val }.

Definition expect_forward (o : options) (flows dropped : list (option val)) : result outcome :=
  let '(prefix, port) := rpartition_colon (o_expect_forward o) in
  if str_eqb prefix "" || negb (isdigit port)
  then Ok (Outcome 2 ["::error::--expect-forward takes <pod prefix>:<port>"] [])
  else
  p <- make_peers [] [] None ;;
  f <- policy_drops dropped (o_namespace o) p ;;
  drops <- filterM (from_pod prefix) (drops f) ;;
  let errors := map (λ d, cat ["::error::the caller was dropped: "; describe d]) drops in
  mine <- forwarded flows prefix port ;;
  Ok match mine with
     | [] => Outcome 1 (errors ++ [cat ["::error::no forwarded flow from a pod named "; prefix;
               "* to port "; port; ": the caller did not reach it, so the drop check cannot speak for this flow"]]) []
     | d :: _ =>
         match drops with
         | [] => Outcome 0 [cat ["  ✓ the caller reaches its port: "; describe d]] []
         | _ => Outcome 1 errors []
         end
     end.

(** The ports of [--listen-port]: [<namespace>/<pod>=<port>]. *)
Definition listen_ports (l : list string) : result (list (string * list Z)) :=
  foldM (λ acc lp,
    let '(k, _, v) := str_partition lp "=" in
    match int_of_str v with
    | Some z => Ok (alist_set k (default [] (alist_get k acc) ++ [z]) acc)
    | None => Raise ValueError
    end) [] l.

Section cluster.
(** The reads of a live cluster: the pod CIDRs of its nodes, and one pod. *)
Context (node_cidrs : list string) (read_pod : string → string → option val).

Definition peers_of (o : options) : result peers :=
  if o_recorded o then ports <- listen_ports (o_listen_port o) ;; make_peers (o_pod_cidr o) ports None
  else make_peers node_cidrs [] (Some read_pod).

Definition check_drops (o : options) (lines : list (option val)) : result outcome :=
  p <- peers_of o ;;
  f <- policy_drops lines (o_namespace o) p ;;
  let noticed := map (λ n, cat ["::notice::a late server reply to a pod address with no pod, not a policy finding: "; describe n])
                     (notices (known f)) in
  if negb (str_eqb (o_expect_drop o) "") then
    mine <- expected_drops (drops f) (o_expect_drop o) (o_direction o) ;;
    Ok match mine with
       | [] =>
           Outcome 1 (noticed ++ [cat ["::error::no policy drop that matches "; o_expect_drop o;
             " (<pod prefix>[:<port>]) ";
             if str_eqb (o_direction o) "" then "" else cat ["on the "; o_direction o; " side"];
             ": the policy did not refuse the fixture there, or Hubble did not record it. ";
             str_of_int (Z.of_nat (length (drops f))); " other policy drop(s)."]]) (evidence f)
       | _ => Outcome 0 (noticed ++ map (λ d, cat ["  ✓ the fixture is refused: "; describe d]) mine) (evidence f)
       end
  else
  Ok match drops f with
     | [] =>
         Outcome 0 (noticed ++ [cat ["  ✓ hubble-drops: "; str_of_int (Z.of_nat (length lines));
           " dropped flow(s) read, none of namespace "; o_namespace o; " dropped by a policy"]]) (evidence f)
     | l =>
         Outcome 1 (noticed ++ cat ["::error::"; str_of_int (Z.of_nat (length l)); " flow(s) of namespace ";
           o_namespace o; " were dropped by a network policy (ADR-0165 rule 4). Give the pod its network labels (gibson.netLabels):"]
           :: map (λ d, cat ["  "; describe d]) l) (evidence f)
     end.

Definition main (o : options) (flows dropped : list (option val)) : result outcome :=
  if negb (str_eqb (o_expect_forward o) "") then expect_forward o flows dropped else check_drops o dropped.
End cluster.

(** ** The fixtures and the self-test *)

Definition endpoints (ns pod label : string) : val :=
  VDict [("namespace", VStr ns); ("pod_name", VStr pod); ("labels", VList [VStr label])].
Definition pod_end (ns pod : string) : val := str_dict [("namespace", ns); ("pod_name", pod)].
Definition tcp_part (fields : list (string * val)) : val := VDict [("TCP", VDict fields)].
Definition in_flow (f : val) : val := VDict [("flow", f)].
(** [{**f, k: w, ...}] *)
Definition over (f : val) (l : list (string * val)) : val :=
  foldl (λ f kw, dict_with f kw.1 kw.2) f l.

Definition UNLABELED_TO_POSTGRES : val :=
  VDict [("time", VStr "2026-10-07T00:00:00Z"); ("verdict", VStr "DROPPED");
         ("drop_reason_desc", VStr "POLICY_DENIED"); ("traffic_direction", VStr "EGRESS");
         ("IP", str_dict [("source", "10.244.0.50"); ("destination", "10.244.0.20")]);
         ("l4", tcp_part [("source_port", VInt 40000); ("destination_port", VInt 5432)]);
         ("source", endpoints "gibson" "hubble-proof-unlabeled" "k8s:run=hubble-proof-unlabeled");
         ("destination", endpoints "gibson" "platform-postgres-1" "k8s:gibson.zeroroot.ai/datastore=postgres")].
Definition FORWARDED : val :=
  over UNLABELED_TO_POSTGRES [("verdict", VStr "FORWARDED"); ("drop_reason_desc", VStr "")].
Definition OTHER_DROP : val :=
  over UNLABELED_TO_POSTGRES [("drop_reason_desc", VStr "CT_MAP_INSERTION_FAILED")].
Definition OTHER_NAMESPACE : val :=
  over UNLABELED_TO_POSTGRES [("source", pod_end "tenant-a" "x"); ("destination", pod_end "tenant-b" "y")].

Definition outside_world : val := VDict [("labels", VList [VStr "reserved:world"])].
Definition ingress_flow : val :=
  over UNLABELED_TO_POSTGRES [("traffic_direction", VStr "INGRESS"); ("source", outside_world)].

Definition server_ports : list (string * list Z) := [("gibson/gibson-openfga-x", [8080%Z])].
Definition flag_set (l : list string) : val := VDict (map (λ k, (k, VBool true)) l).
Definition late_tcp_part (sport dport : Z) (flags : list string) : val :=
  tcp_part [("source_port", VInt sport); ("destination_port", VInt dport); ("flags", flag_set flags)].
Definition late : val :=
  over UNLABELED_TO_POSTGRES
    [("IP", str_dict [("source", "10.244.0.30"); ("destination", "10.244.0.187")]);
     ("l4", late_tcp_part 8080 60814 ["ACK"; "FIN"]);
     ("source", pod_end "gibson" "gibson-openfga-x"); ("destination", outside_world)].
Definition outside : val :=
  over late [("IP", str_dict [("source", "10.244.0.30"); ("destination", "203.0.113.5")]);
             ("l4", late_tcp_part 8080 443 ["ACK"; "PSH"])].

(** Each shape that is not a late reply, and the pod CIDRs that are known. *)
Definition late_cases : list (val * list string) :=
  let cidr := ["10.244.0.0/24"] in
  [(outside, cidr);
   (over late [("l4", late_tcp_part 8080 60814 ["SYN"])], cidr);
   (over late [("destination", endpoints "gibson" "gibson-x" "k8s:app=x")], cidr);
   (over late [("l4", late_tcp_part 8080 60814 [])], cidr);
   (over late [("l4", late_tcp_part 9999 60814 ["ACK"; "FIN"])], cidr);
   (over late [("l4", late_tcp_part 8080 5432 ["ACK"; "FIN"])], cidr);
   (late, [])].

(** [policy_drops] on flows, with the pod CIDRs and ports of fixture peers. *)
Definition drops_of (flows : list val) (ns : string) (cidrs : list string)
    (ports : list (string * list Z)) : result found :=
  p <- make_peers cidrs ports None ;; policy_drops (map (λ f, Some (in_flow f)) flows) ns p.

Definition trainer : val :=
  over FORWARDED [("l4", tcp_part [("destination_port", VInt 50051)]);
                  ("source", pod_end "tenant-primary" "belief-trainer-proof-x1");
                  ("destination", pod_end "gibson" "gibson-gibson-workloads-0")].
Definition trainer_forwarded (f : val) : result nat :=
  l <- forwarded [Some (in_flow f)] "belief-trainer-proof" "50051" ;; Ok (length l).
Definition not_trainer : list val :=
  [over trainer [("l4", tcp_part [("destination_port", VInt 50001)])];
   over trainer [("verdict", VStr "DROPPED")];
   over trainer [("source", pod_end "x" "other")]].

Definition runner_flow : val :=
  over UNLABELED_TO_POSTGRES [("l4", tcp_part [("destination_port", VInt 50001)]);
    ("source", pod_end "tenant-primary" "hubble-proof-connector-runner");
    ("destination", pod_end "gibson" "gibson-gibson-workloads-0")].
Definition as_ingress (d : finding) : finding :=
  Finding (i_source d) (i_source_pod d) (i_destination d) (i_port d) (VStr "INGRESS") (i_reason d)
    (i_time d) (i_flags d).
(** (drops, spec, direction) and the number of expected drops. *)
Definition expect_cases (runner : list finding) : list (list finding * string * string * nat) :=
  let spec := "hubble-proof-connector-runner:50001" in
  [(runner, spec, "", 1); (runner, "hubble-proof-connector-runner:50051", "", 0);
   (runner, "other:50001", "", 0); (runner, spec, "EGRESS", 1);
   (map as_ingress (take 1 runner), spec, "EGRESS", 0)].
Definition expect_fails (c : list finding * string * string * nat) : result bool :=
  let '(l, spec, dir, want) := c in
  got <- expected_drops l spec dir ;; Ok (negb (length got =? want)).

Definition with_l7 : val :=
  over outside [("l7", VDict [("http", VDict [("headers", VList [
     str_dict [("key", "Authorization"); ("value", "Bearer sekret-l7")]])])])].

(** The part of the self-test up to the late replies. *)
Definition selftest_drops : result bool :=
  others <- drops_of [FORWARDED; OTHER_DROP; OTHER_NAMESPACE] "gibson" [] [] ;;
  p <- make_peers [] [] None ;;
  got <- policy_drops (map (λ f, Some (in_flow f)) [FORWARDED; OTHER_DROP; OTHER_NAMESPACE; UNLABELED_TO_POSTGRES] ++ [None])
           "gibson" p ;;
  let named := match drops got with
    | [d] => forallb (λ want, contains want (describe d))
               ["gibson/hubble-proof-unlabeled"; "gibson/platform-postgres-1"; "5432/TCP"; "POLICY_DENIED"]
    | _ => false
    end in
  ing <- drops_of [ingress_flow] "gibson" [] [] ;;
  let world := match drops ing with [d] => contains "world" (i_source d) | _ => false end in
  Ok (match drops others with [] => true | _ => false end && named && world).

Definition selftest_late : result bool :=
  l <- drops_of [late] "gibson" ["10.244.0.0/24"] server_ports ;;
  let passed := (length (drops l) =? 0) && (length (notices (known l)) =? 1) in
  bad <- anyM (λ c, f <- drops_of [c.1] "gibson" c.2 server_ports ;; Ok (negb (length (drops f) =? 1))) late_cases ;;
  ev <- drops_of [late; outside] "gibson" ["10.244.0.0/24"] server_ports ;;
  l7 <- drops_of [with_l7] "gibson" ["10.244.0.0/24"] [] ;;
  clean <- allM (λ v, f <- item v "flow" ;; has <- str_in "l7" f ;;
                      Ok (negb has && negb (contains "sekret-l7" (py_repr v)))) (evidence l7) ;;
  Ok (passed && negb bad && (length (evidence ev) =? 2) && (length (evidence l7) =? 1) && clean).

Definition selftest_expect : result bool :=
  mine <- trainer_forwarded trainer ;;
  others <- anyM (λ f, n <- trainer_forwarded f ;; Ok (negb (n =? 0))) not_trainer ;;
  r <- drops_of [runner_flow] "tenant-primary" [] [] ;;
  bad <- anyM expect_fails (expect_cases (drops r)) ;;
  Ok ((mine =? 1) && negb others && negb bad).

Definition selftest : result Z :=
  a <- selftest_drops ;; b <- selftest_late ;; c <- selftest_expect ;;
  Ok (if a && b && c then 0%Z else 1%Z).

Lemma hubbledrops_selftest : selftest = Ok 0%Z.
Proof. vm_compute. reflexivity. Qed.

(** ** What the guard promises *)

(** *** Vocabulary *)

(** A flow that a policy dropped, to or from the namespace. *)
Definition policy_drop (ns : string) (flow : val) : Prop :=
  fld flow "verdict" = VStr "DROPPED" ∧
  (∃ r, fld flow "drop_reason_desc" = VStr r ∧ r ∈ POLICY_REASONS) ∧
  (ns = "" ∨ fld (fld flow "source") "namespace" = VStr ns ∨ fld (fld flow "destination") "namespace" = VStr ns).

Definition flow_of (obj : val) : val :=
  match obj with VDict d => default obj (alist_get "flow" d) | _ => obj end.

(** The pod listens on the port: by the ports that are given, or by a read of
    the live cluster. *)
Definition knows_port (p : peers) (key : string) (port : Z) : Prop :=
  ∃ l, port ∈ l ∧
    (alist_get key (ports p) = Some l ∨
     ∃ read ns pod, live p = Some read ∧ cat [ns; "/"; pod] = key ∧
       match read ns pod with Some v => pod_ports v = Ok l | None => l = [] end).

(** A late reply of a server: TCP with flags and no SYN, from a port that the
    source pod listens on, to an ephemeral port of the world entity at an
    address of the pods. *)
Definition late_reply (p : peers) (flow : val) : Prop :=
  let tcp := fld (fld flow "l4") "TCP" in
  let src := fld flow "source" in let dst := fld flow "destination" in
  is_dict tcp = true ∧ truthy (fld tcp "flags") = true ∧ truthy (fld (fld tcp "flags") "SYN") = false ∧
  truthy (fld dst "pod_name") = false ∧ str_in "reserved:world" (por (fld dst "labels") (VList [])) = Ok true ∧
  (∃ ip a n, get_default (por (fld flow "IP") (VDict [])) "destination" (VStr "") = Ok ip ∧
     address_of ip = Some a ∧ n ∈ cidrs p ∧ in_network a n = true) ∧
  (∃ z, port_number tcp "destination_port" = Ok z ∧ 32768 ≤ z)%Z ∧
  truthy (fld src "pod_name") = true ∧
  (∃ ns z, get_default (por src (VDict [])) "namespace" (VStr "") = Ok ns ∧
     port_number tcp "source_port" = Ok z ∧
     knows_port p (cat [py_str ns; "/"; py_str (fld src "pod_name")]) z).

(** *** Reading the fields *)

Lemma fld_por v k : fld (por v (VDict [])) k = fld v k.
Proof. destruct v as [|b|z|s|l|d]; cbn; try done; unfold por; cbn; repeat case_match; done. Qed.

Lemma get_default_flow obj w : get_default obj "flow" obj = Ok w → w = flow_of obj.
Proof. destruct obj; cbn; try done. by intros [= <-]. Qed.

(** *** The loop *)

(** What a run knows grows from what it was given: the ports that are added come
    from reads of the cluster. *)
Definition grown (p q : peers) : Prop :=
  cidrs q = cidrs p ∧ live q = live p ∧
  ∀ key l, alist_get key (ports q) = Some l → alist_get key (ports p) = Some l ∨
    ∃ read ns pod, live p = Some read ∧ cat [ns; "/"; pod] = key ∧
      match read ns pod with Some v => pod_ports v = Ok l | None => l = [] end.

Lemma grown_refl p : grown p p.
Proof. by split_and!; [..|left]. Qed.

Lemma alist_get_set {A} k k' (x : A) d :
  alist_get k' (alist_set k x d) = if str_eqb k' k then Some x else alist_get k' d.
Proof.
  destruct (str_eqb k' k) eqn:E; [apply str_eqb_eq in E as ->; apply alist_set_eq|].
  apply alist_set_ne. intros ->. by rewrite str_eqb_refl in E.
Qed.

Lemma text_arg_Ok v s : text_arg v = Ok s → v = VStr s.
Proof. destruct v; try done. by intros [= ->]. Qed.

Lemma listens_grown p q ns pod port b q' :
  grown p q → listens q ns pod port = Ok (b, q') →
  grown p q' ∧ notices q' = notices q ∧
  (b = true → knows_port p (cat [py_str ns; "/"; py_str pod]) port).
Proof.
  intros Hg. unfold listens. intros (q1 & H1 & H)%bind_Ok. injection H as Hb <-.
  set (key := cat [py_str ns; "/"; py_str pod]) in *.
  assert (grown p q1 ∧ notices q1 = notices q) as [Hg1 Hn1].
  { destruct (alist_get key (ports q)) eqn:Ek; [by injection H1 as <-|].
    destruct (live q) as [read|] eqn:El; [|by injection H1 as <-].
    unfold learn in H1. apply bind_Ok in H1 as (n & Hn & H1). apply bind_Ok in H1 as (m & Hm & H1).
    apply bind_Ok in H1 as (got & Hgot & H1). injection H1 as <-.
    destruct Hg as (Hc & Hl & Hp). split; [|done]. split_and!; [done|done|]. cbn [ports]. intros k l.
    rewrite alist_get_set. destruct (str_eqb k key) eqn:E; [|by apply Hp].
    apply str_eqb_eq in E as ->. intros [= ->]. right. exists read, n, m.
    apply text_arg_Ok in Hn as ->. apply text_arg_Ok in Hm as ->.
    split_and!; [congruence|done|]. destruct (read n m); [done|congruence]. }
  split_and!; [done|done|]. intros ->. apply existsb_elem_of in Hb as (z & Hz & <-%Z.eqb_eq).
  destruct (alist_get key (ports q1)) as [l|] eqn:Ek; cbn in Hz; [|by apply elem_of_nil in Hz].
  exists l. split; [done|]. by apply Hg1.
Qed.

Lemma gone_peer_grown p q flow b q' :
  grown p q → gone_peer flow q = Ok (b, q') → 
  grown p q' ∧ notices q' = notices q ∧ (b = true → late_reply p flow).
Proof.
  intros Hg. unfold gone_peer. intros (otcp & Ht & H)%bind_Ok.
  destruct otcp as [tcp|]; [|by injection H as <- <-].
  unfold late_tcp in Ht. apply bind_Ok in Ht as (l4 & ->%por_dict_fld & Ht).
  apply bind_Ok in Ht as (t & ->%get_Ok & Ht). rewrite fld_por in Ht.
  destruct (is_dict (fld (fld flow "l4") "TCP")) eqn:Hd; [|done]. cbn [negb] in Ht.
  apply bind_Ok in Ht as (fl & ->%por_dict_fld & Ht).
  destruct (truthy (por _ _)) eqn:Hf; [|done]. cbn [negb] in Ht.
  apply bind_Ok in Ht as (syn & ->%get_Ok & Ht). rewrite fld_por in Ht.
  destruct (truthy (fld (fld _ "flags") "SYN")) eqn:Hs; [done|]. injection Ht as <-.
  apply bind_Ok in H as (src & ->%por_dict_fld & H). apply bind_Ok in H as (dst & ->%por_dict_fld & H).
  apply bind_Ok in H as (world & Hw & H). destruct world; cbn [negb] in H; [|by injection H as <- <-].
  unfold is_world in Hw. apply bind_Ok in Hw as (dp & ->%get_Ok & Hw). rewrite fld_por in Hw.
  destruct (truthy (fld (fld flow "destination") "pod_name")) eqn:Hdp; [done|].
  apply bind_Ok in Hw as (labels & ->%get_Ok & Hw). rewrite fld_por in Hw.
  apply bind_Ok in H as (ips & ->%por_dict_fld & H). apply bind_Ok in H as (ip & Hip & H).
  destruct (in_pod_cidr q ip) eqn:Hin; cbn [negb] in H; [|by injection H as <- <-].
  apply bind_Ok in H as (dport & Hdport & H).
  destruct (Z.ltb_spec dport 32768); [by injection H as <- <-|].
  unfold from_server in H. apply bind_Ok in H as (pod & ->%get_Ok & H). rewrite fld_por in H.
  destruct (truthy (fld (fld flow "source") "pod_name")) eqn:Hsp; cbn [negb] in H; [|by injection H as <- <-].
  apply bind_Ok in H as (ns & Hns & H). apply bind_Ok in H as (sport & Hsport & H).
  destruct (listens_grown _ _ _ _ _ _ _ Hg H) as (Hg' & Hn' & Hk). split_and!; [done|done|]. intros ->.
  unfold in_pod_cidr in Hin. destruct (address_of ip) as [a|] eqn:Ea; [|done].
  apply existsb_elem_of in Hin as (n & Hn & Hin). destruct Hg as (Hc & _ & _). rewrite Hc in Hn.
  split_and!; try done.
  - unfold por in Hf. by destruct (truthy (fld (fld (fld flow "l4") "TCP") "flags")).
  - by exists ip, a, n.
  - by exists dport.
  - exists ns, sport. split_and!; [done..|]. by apply Hk.
Qed.

Lemma drop_reason_complete ns flow o :
  drop_reason flow ns = Ok o → policy_drop ns flow → is_Some o.
Proof.
  unfold drop_reason. intros (v & ->%get_Ok & H)%bind_Ok (Hv & (r & Hr & Hin) & Hns).
  rewrite Hv, py_eq_refl_str in H. cbn [negb] in H. apply bind_Ok in H as (r' & ->%get_Ok & H).
  rewrite Hr in H. cbv zeta in H. assert (por (VStr r) (VStr "") = VStr r) as E by (by destruct r).
  rewrite E in H. change (py_str (VStr r)) with r in H. rewrite (proj2 (str_mem_elem _ _) Hin) in H. cbn [negb] in H.
  apply bind_Ok in H as (src & ->%por_dict_fld & H). apply bind_Ok in H as (dst & ->%por_dict_fld & H).
  destruct (str_eqb ns "") eqn:En; [injection H as <-; by eexists|].
  apply bind_Ok in H as (a & ->%get_Ok & H). apply bind_Ok in H as (b & ->%get_Ok & H).
  rewrite !fld_por in H. assert (existsb (py_eq (VStr ns))
    [fld (fld flow "source") "namespace"; fld (fld flow "destination") "namespace"] = true) as Ee.
  { apply existsb_elem_of. destruct Hns as [->|[Hns|Hns]]; [done|..]; exists (VStr ns);
      (split; [rewrite Hns; set_solver|by apply py_eq_str]). }
  rewrite Ee in H. injection H as <-. by eexists.
Qed.

(** One line: what it adds to the findings and to the evidence. *)
Lemma drop_line_step p ns f obj f' :
  grown p (known f) → drop_line ns f (Some obj) = Ok f' →
  grown p (known f') ∧
  (drops f' = drops f ∧ (policy_drop ns (flow_of obj) → late_reply p (flow_of obj)) ∨
   ∃ i, drops f' = drops f ++ [i]) ∧
  (f' = f ∨ ∃ ev, evidence_line obj = Ok ev ∧ evidence f' = evidence f ++ [ev] ∧
    length (drops f') + length (notices (known f')) = S (length (drops f) + length (notices (known f)))).
Proof.
  intros Hg. unfold drop_line. intros (flow & ->%get_default_flow & H)%bind_Ok.
  apply bind_Ok in H as (o & Ho & H). destruct o as [reason|].
  2: { injection H as <-. split_and!; [done| |by left]. left. split; [done|].
       intros Hp. by destruct (drop_reason_complete _ _ _ Ho Hp). }
  apply bind_Ok in H as (ev & Hev & H). apply bind_Ok in H as (i & _ & H).
  apply bind_Ok in H as ([gone q] & Hgone & H). injection H as <-.
  destruct (gone_peer_grown _ _ _ _ _ Hg Hgone) as (Hgq & Hn & Hlate).
  destruct gone; cbn; rewrite ?Hn, ?length_app; cbn.
  - split_and!; [done|left; split; auto|]. right. exists ev. split_and!; [done..|lia].
  - split_and!; [done|right; by exists i|]. right. exists ev. split_and!; [done..|lia].
Qed.

Lemma loop_clean p ns lines f f' :
  grown p (known f) → foldM (drop_line ns) f lines = Ok f' → drops f' = drops f →
  ∀ obj, Some obj ∈ lines → policy_drop ns (flow_of obj) → late_reply p (flow_of obj).
Proof.
  assert (∀ lines f f', grown p (known f) → foldM (drop_line ns) f lines = Ok f' →
    drops f `prefix_of` drops f') as Hmono.
  { clear. induction lines as [|[obj|] lines IH]; intros f f' Hg; cbn [foldM];
      [by intros [= <-]| |by intros H; eapply IH].
    intros (g & Hg1 & H)%bind_Ok. destruct (drop_line_step _ _ _ _ _ Hg Hg1) as (Hgg & Hd & _).
    etrans; [|by eapply IH]. destruct Hd as [[-> _]|[i ->]]; [done|by eexists]. }
  revert f. induction lines as [|[o|] lines IH]; intros f Hg; cbn [foldM].
  - intros _ _ obj Hobj. by apply elem_of_nil in Hobj.
  - intros (g & Hg1 & H)%bind_Ok Hd. destruct (drop_line_step _ _ _ _ _ Hg Hg1) as (Hgg & Hdr & _).
    pose proof (Hmono _ _ _ Hgg H) as Hpre. rewrite Hd in Hpre.
    destruct Hdr as [[E Hlate]|[i E]].
    + intros obj [[= ->]|Hobj]%elem_of_cons; [exact Hlate|]. eapply IH; [exact Hgg|exact H|congruence|exact Hobj].
    + exfalso. rewrite E in Hpre. apply prefix_length in Hpre. rewrite length_app in Hpre. cbn in Hpre. lia.
  - intros H Hd obj [?|Hobj]%elem_of_cons; [done|]. by eapply IH.
Qed.

(** A run of the drop check that exits 0 proves that each policy drop of
    the namespace in the flows is a late reply of a server to a pod that is
    gone.  A packet that starts a connection, that goes to a live pod or to an
    address outside the pod CIDRs, or that does not leave a port the source pod
    listens on, is never passed over. *)
Theorem clean_run_drops_are_late (node_cidrs : list string) (read_pod : string → string → option val)
    (o : options) (lines : list (option val)) (p : peers) (out : outcome)
    (Hpeers : peers_of node_cidrs read_pod o = Ok p) (Hexpect : o_expect_drop o = "")
    (Hrun : check_drops node_cidrs read_pod o lines = Ok out) (Hstatus : status out = 0%Z) :
  ∀ obj, Some obj ∈ lines → policy_drop (o_namespace o) (flow_of obj) → late_reply p (flow_of obj).
Proof.
  unfold check_drops in Hrun. rewrite Hpeers, Hexpect in Hrun. cbn [rbind] in Hrun.
  apply bind_Ok in Hrun as (f & Hf & H). cbn [str_eqb negb String.eqb] in H. injection H as <-.
  destruct (drops f) eqn:Ed; [|done].
  by apply (loop_clean p _ lines (Found [] [] p) f); [apply grown_refl|exact Hf|].
Qed.

(** The options of a run on recorded flows of the fixtures. *)
Definition recorded : options :=
  Options "gibson" "" "" "" true ["10.244.0.0/24"] ["gibson/gibson-openfga-x=8080"].

Definition recorded_peers : peers :=
  Peers [network_of V4 183762944 24] [("gibson/gibson-openfga-x", [8080%Z])] None [].

Lemma clean_run_drops_are_late_witness :
  policy_drop "gibson" late ∧ late_reply recorded_peers late.
Proof.
  assert (policy_drop "gibson" late) as Hd.
  { split_and!; [vm_compute; reflexivity| |right; left; vm_compute; reflexivity].
    exists "POLICY_DENIED". split; [vm_compute; reflexivity|left]. }
  split; [exact Hd|].
  destruct (check_drops [] (λ _ _, None) recorded [Some (in_flow late)]) as [out|] eqn:E;
    [|exfalso; revert E; vm_compute; discriminate].
  assert (status out = 0%Z) as Hst by (revert E; vm_compute; intros [= <-]; reflexivity).
  assert (peers_of [] (λ _ _, None) recorded = Ok recorded_peers) as Hp by (vm_compute; reflexivity).
  exact (clean_run_drops_are_late [] (λ _ _, None) recorded [Some (in_flow late)] recorded_peers out
    Hp eq_refl E Hst (in_flow late) (list_elem_of_here _ _) Hd).
Defined.

(** *** The evidence *)

Lemma alist_del_eq {A} k (d : list (string * A)) : NoDup d.*1 → alist_get k (alist_del k d) = None.
Proof.
  induction d as [|[k' x] d IH]; cbn; [done|]. intros [Hk Hd]%NoDup_cons.
  destruct (str_eqb k k') eqn:E; [apply str_eqb_eq in E as ->; by apply alist_None|].
  cbn. rewrite E. by apply IH.
Qed.

Lemma alist_del_ne {A} k k' (d : list (string * A)) :
  k ≠ k' → alist_get k' (alist_del k d) = alist_get k' d.
Proof.
  intros Hne. induction d as [|[k'' x] d IH]; cbn; [done|].
  destruct (str_eqb k k'') eqn:E; cbn; [|by rewrite IH].
  apply str_eqb_eq in E as ->. destruct (str_eqb k' k'') eqn:E'; [|done].
  apply str_eqb_eq in E'. congruence.
Qed.

Lemma wf_dict_get d k v : wf_val (VDict d) → alist_get k d = Some v → wf_val v.
Proof.
  intros [_ H]. induction d as [|[k' x] d IH]; cbn in *; [done|]. destruct H as [Hx Hd].
  destruct (str_eqb k k'); [by intros [= <-]|by apply IH].
Qed.

(** The flow of the evidence is the flow of the line without its [l7]. *)
Definition stripped (obj ev : val) : Prop :=
  ∀ k, fld (flow_of ev) k = if str_eqb k "l7" then VNone else fld (flow_of obj) k.

Lemma without_l7_fld v w k :
  wf_val v → without_l7 v = Ok w → fld w k = if str_eqb k "l7" then VNone else fld v k.
Proof.
  destruct v as [| | | | |d]; try done. intros [Hd _] [= <-]. cbn. destruct (str_eqb k "l7") eqn:E.
  - apply str_eqb_eq in E as ->. by rewrite alist_del_eq.
  - rewrite alist_del_ne; [done|]. intros <-. by rewrite str_eqb_refl in E.
Qed.

Lemma evidence_line_stripped obj ev : wf_val obj → evidence_line obj = Ok ev → stripped obj ev.
Proof.
  intros Hwf. unfold evidence_line. destruct obj as [| | | | |d]; try done. unfold stripped, flow_of.
  destruct (alist_get "flow" d) as [flow|] eqn:E.
  - intros (w & Hw & [= <-])%bind_Ok k. rewrite alist_set_eq. cbn [default].
    apply without_l7_fld; [by eapply wf_dict_get|done].
  - intros H k. pose proof (without_l7_fld _ _ k Hwf H) as Hk. injection H as <-.
    rewrite alist_del_ne, E by done. exact Hk.
Qed.

(** The evidence holds one entry for each policy drop, reported or passed
    over, and each entry is the object of a line whose flow has lost its [l7]
    and nothing else: no request header reaches the artifact. *)
Theorem evidence_has_no_l7 (lines : list (option val)) (ns : string) (p : peers) (f : found)
    (Hwf : ∀ obj, Some obj ∈ lines → wf_val obj) (Hrun : policy_drops lines ns p = Ok f) :
  length (evidence f) + length (notices p) = length (drops f) + length (notices (known f)) ∧
  ∀ ev, ev ∈ evidence f → ∃ obj, Some obj ∈ lines ∧ stripped obj ev.
Proof.
  set (P := λ f, grown p (known f) ∧
    length (evidence f) + length (notices p) = length (drops f) + length (notices (known f)) ∧
    ∀ ev, ev ∈ evidence f → ∃ obj, Some obj ∈ lines ∧ stripped obj ev).
  enough (P f) as (_ & H1 & H2) by done.
  revert Hrun. apply foldM_inv; [split_and!; [apply grown_refl|done|by intros ? ?%elem_of_nil]|].
  intros s [obj|] t Hin (Hg & Hn & He) Hs; [|by injection Hs as <-].
  destruct (drop_line_step _ _ _ _ _ Hg Hs) as (Hgt & _ & [->|(ev & Hev & E & Hlen)]); [done|].
  split_and!; [done|rewrite E, length_app; cbn; lia|]. rewrite E.
  intros v [Hv| ->%list_elem_of_singleton]%elem_of_app; [by apply He|].
  exists obj. split; [done|]. by apply evidence_line_stripped; [apply Hwf|].
Qed.

Lemma evidence_has_no_l7_witness :
  ∃ f, policy_drops [Some (in_flow with_l7)] "gibson" (Peers [] [] None []) = Ok f ∧
    ∀ ev, ev ∈ evidence f → ∃ obj, Some obj ∈ [Some (in_flow with_l7)] ∧ stripped obj ev.
Proof.
  destruct (policy_drops [Some (in_flow with_l7)] "gibson" (Peers [] [] None [])) as [f|] eqn:E;
    [|exfalso; revert E; vm_compute; discriminate].
  exists f. split; [reflexivity|].
  refine (proj2 (evidence_has_no_l7 [Some (in_flow with_l7)] "gibson" (Peers [] [] None []) f _ E)).
  intros obj [= ->]%list_elem_of_singleton. cbn. repeat split; repeat constructor; set_solver.
Defined.

(** *** The pod CIDRs *)

(** The address is inside the text of a network: same version, and the same
    leading bits. *)
Definition inside_cidr (a : address) (cidr : string) : Prop :=
  ∃ base p, network_parts cidr = Some (base, p) ∧ a_version a = a_version base ∧
    (a_bits a / 2 ^ (width (a_version a) - p) = a_bits base / 2 ^ (width (a_version a) - p))%Z.

(** C37: the addresses and pod CIDRs are read within their width, and
    [in_pod_cidr] is true exactly for an address that agrees with one of the
    given CIDRs on the bits of its prefix. *)
Theorem in_pod_cidr_decides (texts : list string) (known_ports : list (string * list Z))
    (read : option (string → string → option val)) (p : peers)
    (Hp : make_peers texts known_ports read = Ok p) (ip : val) :
  (∀ a, address_of ip = Some a → (0 ≤ a_bits a < 2 ^ width (a_version a))%Z) ∧
  (in_pod_cidr p ip = true ↔ ∃ a cidr, address_of ip = Some a ∧ cidr ∈ texts ∧ inside_cidr a cidr).
Proof.
  assert (∀ a, address_of ip = Some a → (0 ≤ a_bits a < 2 ^ width (a_version a))%Z) as Hb.
  { intros a. destruct ip; try done; cbn; eauto using ip_address_bounds, ip_of_int_bounds. }
  split; [exact Hb|]. unfold make_peers in Hp. apply bind_Ok in Hp as (ns & Hns & Hp). injection Hp as <-.
  unfold in_pod_cidr. destruct (address_of ip) as [a|]; [|naive_solver]. specialize (Hb a eq_refl).
  cbn [cidrs]. rewrite existsb_elem_of.
  assert (∀ cidr n, ip_network cidr = Some n → in_network a n = true ↔ inside_cidr a cidr) as Hin.
  { intros cidr n (x & q & Hx & -> & Hq & Hbits)%ip_network_parts. rewrite in_network_iff by done.
    unfold inside_cidr. rewrite Hx. split.
    - intros [Hv E]. exists x, q. rewrite Hv. by split_and!.
    - intros (y & r & [= <- <-] & Hv & E). rewrite Hv in E. done. }
  split.
  - intros (n & Hn & Ha). destruct (mapR_elem _ _ _ _ Hns Hn) as (cidr & Hc & E).
    destruct (ip_network cidr) as [m|] eqn:Em; [|done]. injection E as ->.
    exists a, cidr. split_and!; [done..|]. by apply (Hin cidr n).
  - intros (a' & cidr & [= <-] & Hc & Ha). destruct (mapR_elem_2 _ _ _ _ Hns Hc) as (n & Hn & E).
    destruct (ip_network cidr) as [m|] eqn:Em; [|done]. injection E as ->.
    exists n. split; [done|]. by apply (Hin cidr n).
Qed.

Lemma in_pod_cidr_decides_witness :
  ∃ p, make_peers ["10.244.0.0/24"; "fd00::/64"] [] None = Ok p ∧ in_pod_cidr p (VStr "fd00::7") = true.
Proof.
  destruct (make_peers ["10.244.0.0/24"; "fd00::/64"] [] None) as [p|] eqn:E;
    [|exfalso; revert E; vm_compute; discriminate].
  exists p. split; [reflexivity|].
  apply (proj2 (in_pod_cidr_decides ["10.244.0.0/24"; "fd00::/64"] [] None p E (VStr "fd00::7"))).
  exists (Address V6 0xfd000000000000000000000000000007), "fd00::/64".
  split_and!; [vm_compute; reflexivity|set_solver|].
  exists (Address V6 0xfd000000000000000000000000000000), 64%Z.
  split_and!; vm_compute; reflexivity.
Defined.
