(* ===== verification/BumpDigest.v ===== *)
(** * scripts/bump-image-digest.py: re-pin an image across the charts

    A rewrite of text.  A file is the list of its lines, each with its line end;
    a pin is an image mapping of a values file, by the numbers of its lines.
    The registry is an argument, and the files are a map from path to text that
    each command reads and writes. *)
From S2P Require Import Prelude PyStr PyVal Regex.
From Stdlib Require Import Ascii.

Definition PIN_FILES : list string :=
  ["helm/gibson/values.yaml"; "helm/gibson-operators/values.yaml"; "helm/gibson-workloads/values.yaml"].
Definition REGISTRY : string := "ghcr.io/zeroroot-ai".

(** [sha256:[0-9a-f]{64}] *)
Definition is_hex (c : ascii) : bool :=
  is_digit c || (let n := nat_of_ascii c in (97 <=? n) && (n <=? 102)).
Definition DIGEST_RE : regex := RSeq [RStr "sha256:"; RRep 64 (RChr is_hex)].
Definition is_digest (s : string) : bool :=
  match re_fullmatch DIGEST_RE s with Some _ => true | None => false end.

Definition IMAGE_SIBLINGS : list string := ["tag"; "digest"; "pullPolicy"; "repository"].

(** One [repository:]-rooted image mapping in one file. *)
Record pin := Pin {
  p_path : string; p_image : string; p_repo_line : nat; p_tag_line : option nat; p_digest_line : option nat }.

(** ** The patterns *)

Definition spaces : regex := RStar (RChr is_space).
Definition name_char (c : ascii) : bool := is_word c || in_chars ".-" c.
Definition path_char (c : ascii) : bool := is_word c || in_chars "./-" c.
Definition quoted : regex := RChr (λ c, negb (Ascii.eqb c dquote)).

(** A [repository:] key at an indent, group 1, and an image of the registry,
    group 2, with or without quotes. *)
Definition REPOSITORY : regex :=
  RSeq [RGroup 1 spaces; RStr "repository:"; spaces; ROpt (RLit dquote);
        RGroup 2 (RSeq [RStr REGISTRY; RStr "/"; RPlus (RChr path_char)]);
        ROpt (RLit dquote); spaces; REnd].
(** An indent, group 1, a key, group 2, and a colon. *)
Definition KEY : regex := RSeq [RGroup 1 spaces; RGroup 2 (RPlus (RChr name_char)); RStr ":"].
(** The key, a colon, spaces, and a quoted value, group 1. *)
Definition value_re (key : string) : regex :=
  RSeq [RStr key; RStr ":"; spaces; RLit dquote; RGroup 1 (RStar quoted); RLit dquote].
(** The same text, with the part up to the value in group 1. *)
Definition assign_re (key : string) : regex :=
  RSeq [RGroup 1 (RSeq [RStr key; RStr ":"; spaces; RLit dquote]); RStar quoted; RGroup 2 (RLit dquote)].

(** The quoted value of [key] on a line. *)
Definition value_of (key line : string) : option string :=
  (λ m, group_text m 1) <$> re_search (value_re key) line.
(** [re.sub] of the quoted value of [key]. *)
Definition set_value (key new line : string) : string :=
  re_sub (assign_re key) (λ m, cat [group_text m 1; new; group_text m 2]) line.

(** ** Finding the pins *)

(** The block scan after the [repository:] line, which is at indent [base]:
    the lines of the sibling [tag] and [digest] keys. *)
Fixpoint scan_block (base : nat) (j : nat) (lines : list string) (tag digest : option nat)
    : option nat * option nat :=
  match lines with
  | [] => (tag, digest)
  | nxt :: lines =>
      if str_eqb (strip nxt) "" || startswith (lstrip_of is_space nxt) "#"
      then scan_block base (S j) lines tag digest else
      match re_match KEY nxt with
      | None => (tag, digest)
      | Some m =>
          let ind := String.length (group_text m 1) in
          let key := group_text m 2 in
          if (ind <? base) || negb (str_mem key IMAGE_SIBLINGS) then (tag, digest)
          else if base <? ind then scan_block base (S j) lines tag digest
          else if str_eqb key "repository" then (tag, digest)
          else if str_eqb key "tag" && bool_decide (tag = None)
          then scan_block base (S j) lines (Some j) digest
          else if str_eqb key "digest" && bool_decide (digest = None)
          then scan_block base (S j) lines tag (Some j)
          else scan_block base (S j) lines tag digest
      end
  end.

Fixpoint find_pins_from (i : nat) (lines : list string) (path : string) : list pin :=
  match lines with
  | [] => []
  | line :: lines =>
      match re_match REPOSITORY line with
      | None => []
      | Some m =>
          let repo := group_text m 2 in
          if startswith repo (cat [REGISTRY; "/mirror/"]) then [] else
          let '(tag, digest) := scan_block (String.length (group_text m 1)) (S i) lines None None in
          [Pin path (str_slice (S (String.length REGISTRY)) (String.length repo) repo) i tag digest]
      end ++ find_pins_from (S i) lines path
  end.
Definition find_pins (lines : list string) (path : string) : list pin := find_pins_from 0 lines path.

(** ** Rewriting a pin *)

Definition line_at (lines : list string) (i : nat) : result string :=
  match lines !! i with Some s => Ok s | None => Raise IndexError end.
(** The value of [key] on the line of a pin, when it has one. *)
Definition value_at (key : string) (lines : list string) (i : option nat) : result (option string) :=
  match i with Some i => line <- line_at lines i ;; Ok (value_of key line) | None => Ok None end.

(** [lines[i] = new], and whether that changes the line. *)
Definition put_line (lines : list string) (i : nat) (new : string) : result (bool * list string) :=
  old <- line_at lines i ;;
  Ok (if str_eqb new old then (false, lines) else (true, <[i := new]> lines)).

Definition in_quotes (s : string) : string := String dquote (s +:+ String dquote "").

(** [v.split("@", 1)[0]] *)
Definition before_at (v : string) : string :=
  match split1 "@" v with Some (a, _) => a | None => v end.

(** The separate-key shape: [digest] holds the sha, [tag] the provenance. *)
Definition rewrite_separate (lines : list string) (p : pin) (d : nat) (ref : option string) (digest : string)
    : result (bool * list string) :=
  old <- line_at lines d ;;
  '(c1, lines) <- put_line lines d (set_value "digest" digest old) ;;
  match ref, p_tag_line p with
  | Some ref, Some t =>
      if str_eqb ref "" then Ok (c1, lines) else
      old <- line_at lines t ;;
      '(c2, lines) <- put_line lines t (set_value "tag" ref old) ;;
      Ok ((c1 : bool) || (c2 : bool), lines)
  | _, _ => Ok (c1, lines)
  end.

(** The combined shape, [tag: "<ref>@<digest>"]; a bare tag is refused. *)
Definition rewrite_combined (lines : list string) (t : nat) (ref : option string) (digest : string)
    : result (bool * list string) :=
  old <- line_at lines t ;;
  match value_of "tag" old with
  | None => Ok (false, lines)
  | Some current =>
      if contains "@" current then
        let keep := match ref with
                    | Some r => if str_eqb r "" then before_at current else r
                    | None => before_at current end in
        let new := cat [keep; "@"; digest] in
        if str_eqb new current then Ok (false, lines)
        else Ok (true, <[t := str_replace old (in_quotes current) (in_quotes new)]> lines)
      else Ok (false, lines)
  end.

Definition rewrite_pin (lines : list string) (p : pin) (ref : option string) (digest : string)
    : result (bool * list string) :=
  tag <- value_at "tag" lines (p_tag_line p) ;;
  let combined := match tag with Some v => contains "@" v | None => false end in
  dig <- value_at "digest" lines (p_digest_line p) ;;
  let in_use := match dig with Some v => negb (str_eqb (strip v) "") | None => false end in
  match p_digest_line p with
  | Some d =>
      if in_use || negb combined then rewrite_separate lines p d ref digest
      else match p_tag_line p with
           | Some t => rewrite_combined lines t ref digest
           | None => Ok (false, lines)
           end
  | None =>
      match p_tag_line p with
      | Some t => rewrite_combined lines t ref digest
      | None => Ok (false, lines)
      end
  end.

(** The ref a pin names, independent of which shape it uses. *)
Definition current_ref (lines : list string) (p : pin) : result (option string) :=
  v <- value_at "tag" lines (p_tag_line p) ;;
  Ok match v with
     | Some v => if contains "@" v then Some (before_at v)
                 else if str_eqb v "" then None else Some v
     | None => None
     end.

(** ** Files *)

Definition files : Type := list (string * string).

(** [text.splitlines(keepends=True)], on the line ends of ASCII. *)
Definition is_line_end (c : ascii) : bool :=
  let n := nat_of_ascii c in ((10 <=? n) && (n <=? 13)) || ((28 <=? n) && (n <=? 30)).
Fixpoint lines_keep (s : string) : list string :=
  match s with
  | "" => []
  | String c s =>
      if is_line_end c then String c "" :: lines_keep s else
      match lines_keep s with
      | l :: ls => String c l :: ls
      | [] => [String c ""]
      end
  end.

Definition load (fs : files) (path : string) : option (list string) := lines_keep <$> alist_get path fs.
Definition store (path : string) (lines : list string) (fs : files) : files := alist_set path (cat lines) fs.

Record outcome := Outcome { status : Z; printed : list string; after : files }.

(** ** Re-pinning one image *)

(** [any(rewrite_pin(lines, p, ref, digest) for p in pins)]: [any] stops at the
    first pin that changes. *)
Fixpoint any_rewrite (lines : list string) (pins : list pin) (ref : option string) (digest : string)
    : result (bool * list string) :=
  match pins with
  | [] => Ok (false, lines)
  | p :: pins =>
      '(c, lines) <- rewrite_pin lines p ref digest ;;
      if (c : bool) then Ok (true, lines) else any_rewrite lines pins ref digest
  end.

Record progress := Progress { g_files : files; g_touched : list string; g_found : bool }.

Definition bump_file (image : string) (ref : option string) (digest : string) (g : progress) (path : string)
    : result progress :=
  match load (g_files g) path with
  | None => Ok g
  | Some lines =>
      let pins := List.filter (λ p, str_eqb (p_image p) image) (find_pins lines path) in
      match pins with
      | [] => Ok g
      | _ =>
          '(c, lines) <- any_rewrite lines pins ref digest ;;
          Ok (if (c : bool)
              then Progress (store path lines (g_files g)) (g_touched g ++ [path]) true
              else Progress (g_files g) (g_touched g) true)
      end
  end.

Definition cmd_bump (image : string) (ref : option string) (digest : string) (fs : files) : result outcome :=
  if negb (is_digest digest)
  then Ok (Outcome 1 [cat ["not a sha256 digest: "; repr_str digest]] fs) else
  g <- foldM (bump_file image ref digest) (Progress fs [] false) PIN_FILES ;;
  Ok (if negb (g_found g) then
        Outcome 2 [cat ["no pin for "; REGISTRY; "/"; image;
                        " in any chart values file (is it first-party, and is its chart listed in PIN_FILES?)"]] (g_files g)
      else Outcome 0 (map (λ t, cat ["[bump-image-digest] re-pinned "; image; " in "; t]) (g_touched g)
                      ++ match g_touched g with
                         | [] => [cat ["[bump-image-digest] "; image; " already at "; digest; " — nothing to do"]]
                         | _ => []
                         end) (g_files g)).

(** ** Re-resolving each pin *)

Section registry.
(** The content digest that the registry sends for an image and a ref, empty
    when it sends none; [ResolveError] when a request fails. *)
Context (registry : string → string → result string).

Definition resolve_digest (image ref : string) : result string :=
  d <- registry image ref ;;
  if is_digest d then Ok d
  else Raise (ResolveError (cat ["zeroroot-ai/"; image; ":"; ref; " returned no usable Docker-Content-Digest"])).

(** What the loop over the pins of a file builds: its lines, whether they
    changed, and the two reports. *)
Record resolving := Resolving {
  r_lines : list string; r_dirty : bool; r_drift : list string; r_failed : list string }.

Definition resolve_pin (path : string) (r : resolving) (p : pin) : result resolving :=
  ref <- current_ref (r_lines r) p ;;
  match ref with
  | None => Ok r
  | Some ref =>
      match resolve_digest (p_image p) ref with
      | Raise (ResolveError e) =>
          Ok (Resolving (r_lines r) (r_dirty r) (r_drift r) (r_failed r ++ [cat [p_image p; ":"; ref; " — "; e]]))
      | Raise e => Raise e
      | Ok digest =>
          '(c, lines) <- rewrite_pin (r_lines r) p None digest ;;
          Ok (if (c : bool)
              then Resolving lines true
                     (r_drift r ++ [cat [p_image p; " "; ref; " -> "; str_slice 0 19 digest; "… ("; path; ")"]])
                     (r_failed r)
              else Resolving lines (r_dirty r) (r_drift r) (r_failed r))
      end
  end.

Definition resolve_file (s : files * list string * list string) (path : string)
    : result (files * list string * list string) :=
  let '(fs, drift, failed) := s in
  match load fs path with
  | None => Ok s
  | Some lines =>
      r <- foldM (resolve_pin path) (Resolving lines false drift failed) (find_pins lines path) ;;
      Ok (if r_dirty r then store path (r_lines r) fs else fs, r_drift r, r_failed r)
  end.

Definition cmd_resolve_all (require : bool) (fs : files) : result outcome :=
  '(fs, drift, failed) <- foldM resolve_file (fs, [], []) PIN_FILES ;;
  let lines := map (λ d, cat ["[resolve-all] re-pinned "; d]) drift
               ++ map (λ f, cat ["[resolve-all] UNRESOLVED "; f]) failed in
  Ok (if nonempty failed && require then
        Outcome 1 (lines ++ ["[resolve-all] refusing to package: a first-party image could not be resolved to a digest, so the chart would not be an exact deployable (ADR-0072)."]) fs
      else Outcome 0 (lines ++ if negb (nonempty drift) && negb (nonempty failed)
                               then ["[resolve-all] every first-party pin already matches the registry"] else []) fs).

(** ** The list of the pins *)

(** [f"{s:n}"] *)
Definition pad (n : nat) (s : string) : string :=
  s +:+ String.concat "" (repeat " " (n - String.length s)).

Definition list_pin (lines : list string) (path : string) (p : pin) : result string :=
  val <- line_at lines (default (p_repo_line p) (p_tag_line p)) ;;
  more <- match p_digest_line p with
          | Some d => l <- line_at lines d ;; Ok (cat ["  +  "; strip l])
          | None => Ok "" end ;;
  Ok (cat [pad 26 (p_image p); " "; pad 44 path; " "; str_slice 0 88 (strip val +:+ more)]).

(** The lines that are printed before the first missing file, and that file. *)
Fixpoint list_files (paths : list string) (fs : files) : result (list string * option string) :=
  match paths with
  | [] => Ok ([], None)
  | path :: paths =>
      match load fs path with
      | None => Ok ([], Some path)
      | Some lines =>
          l <- mapR (list_pin lines path) (find_pins lines path) ;;
          '(k, missing) <- list_files paths fs ;;
          Ok (l ++ k, missing)
      end
  end.

Definition cmd_list (fs : files) : result outcome :=
  '(l, missing) <- list_files PIN_FILES fs ;;
  let header := cat [pad 26 "image"; " "; pad 44 "file"; " pin"] in
  Ok match missing with
     | Some path => Outcome 1 (header :: l ++ [cat ["  MISSING "; path]]) fs
     | None => Outcome 0 (header :: l) fs
     end.

(** ** The command line *)

Record options := Options {
  o_image : option string; o_ref : option string; o_digest : option string;
  o_list : bool; o_resolve_all : bool; o_require : bool }.

Definition main (o : options) (fs : files) : result outcome :=
  if o_list o then cmd_list fs
  else if o_resolve_all o then cmd_resolve_all (o_require o) fs
  else match o_image o, o_digest o with
       | Some image, Some digest =>
           if str_eqb image "" || str_eqb digest ""
           then Raise (SystemExit "--image and --digest are required (or use --list / --selftest)")
           else cmd_bump image (o_ref o) digest fs
       | _, _ => Raise (SystemExit "--image and --digest are required (or use --list / --selftest)")
       end.
End registry.

(** ** The self-test *)

Definition yaml_line (s : string) : string := s +:+ newline.
Definition quote_line (key v rest : string) : string := yaml_line (cat [key; ": "; in_quotes v; rest]).
Definition zeros (c : string) : string := cat ("sha256:" :: repeat c 64).

Definition SELFTEST_FIXTURE : list string :=
  [yaml_line "image:"; yaml_line "  # A long rationale block, the way gibson-workloads/values.yaml carries one,";
   yaml_line "  # so the scanner cannot rely on a line window."; yaml_line "  #"; yaml_line "  # More prose. And more.";
   yaml_line "  repository: ghcr.io/zeroroot-ai/gibson"; yaml_line "  # provenance note that must survive";
   quote_line "  tag" (cat ["sha-old@"; zeros "0"]) "  # trailing note"; yaml_line "  pullPolicy: IfNotPresent";
   yaml_line "docs:"; yaml_line "  image:"; yaml_line "    repository: ghcr.io/zeroroot-ai/docs-site";
   quote_line "    tag" "oldcommit" ""; quote_line "    digest" (zeros "1") "";
   yaml_line "mirrored:"; yaml_line "  image:"; yaml_line "    repository: ghcr.io/zeroroot-ai/mirror/kubectl";
   quote_line "    tag" "1.31.4" ""].

Definition pin_named (image : string) (pins : list pin) : result pin :=
  match List.find (λ p, str_eqb (p_image p) image) pins with
  | Some p => Ok p
  | None => Raise StopIteration
  end.
Definition holds (want : string) (lines : list string) (i : option nat) : result bool :=
  match i with Some i => l <- line_at lines i ;; Ok (contains want l) | None => Raise TypeError end.

(** The checks on the fixture. *)
Definition selftest_fixture : result (list bool) :=
  let lines := SELFTEST_FIXTURE in
  let pins := find_pins lines "fixture" in
  let new := zeros "a" in
  gib <- pin_named "gibson" pins ;;
  '(c1, lines) <- rewrite_pin lines gib (Some "sha-new") new ;;
  h1 <- holds (in_quotes (cat ["sha-new@"; new])) lines (p_tag_line gib) ;;
  h2 <- holds "# trailing note" lines (p_tag_line gib) ;;
  doc <- pin_named "docs-site" pins ;;
  '(c2, lines) <- rewrite_pin lines doc (Some "newcommit") new ;;
  h3 <- holds (cat ["digest: "; in_quotes new]) lines (p_digest_line doc) ;;
  h4 <- holds (cat ["tag: "; in_quotes "newcommit"]) lines (p_tag_line doc) ;;
  '(again, lines) <- rewrite_pin lines doc (Some "newcommit") new ;;
  let bare := [yaml_line "  repository: ghcr.io/zeroroot-ai/gibson"; quote_line "  tag" "main" ""] in
  b <- pin_named "gibson" (find_pins bare "f") ;;
  '(pinned, _) <- rewrite_pin bare b (Some "main") new ;;
  Ok [bool_decide (sorted_strs (map p_image pins) = ["docs-site"; "gibson"]);
      bool_decide (is_Some (p_tag_line gib)); c1; h1; h2; c2; h3; h4; negb again; negb pinned].

(** The checks on the files of the repository. *)
Definition selftest_tree (fs : files) : list bool :=
  let pins := concat (map (λ path, match load fs path with Some l => find_pins l path | None => [] end) PIN_FILES) in
  map (λ path, bool_decide (is_Some (load fs path))) PIN_FILES
  ++ [10 <=? length pins]
  ++ map (λ r, str_mem r (map p_image pins)) ["gibson"; "ext-authz"; "dashboard"; "docs-site"; "setec"].

Definition selftest (fs : files) : result Z :=
  checks <- selftest_fixture ;;
  Ok (if forallb id (checks ++ selftest_tree fs) then 0%Z else 1%Z).

Lemma bumpdigest_selftest_fixture : rmap (forallb id) selftest_fixture = Ok true.
Proof. vm_compute. reflexivity. Qed.

(** ** What the guard promises *)

#[local] Arguments String.append !_ _ /.

(** *** Only the lines of the pin change *)

Definition in_range (n : nat) (p : pin) : Prop :=
  p_repo_line p < n ∧ (∀ i, p_tag_line p = Some i → i < n) ∧ (∀ i, p_digest_line p = Some i → i < n).

(** The line [i] is the tag or the digest line of the pin. *)
Definition pin_line (p : pin) (i : nat) : Prop := p_tag_line p = Some i ∨ p_digest_line p = Some i.

(** [lines'] is [lines] but for lines of pins of [P]. *)
Definition same_but (P : pin → Prop) (lines lines' : list string) : Prop :=
  length lines' = length lines ∧
  ∀ i, lines' !! i ≠ lines !! i → ∃ p, P p ∧ pin_line p i.

Lemma same_but_refl P lines : same_but P lines lines.
Proof. split; [done|]. intros i H. by destruct H. Qed.

Lemma same_but_trans P a b c : same_but P a b → same_but P b c → same_but P a c.
Proof.
  intros [L1 H1] [L2 H2]. split; [congruence|]. intros i Hi.
  destruct (decide (b !! i = a !! i)) as [E|]; [|by apply H1]. apply H2. congruence.
Qed.

Lemma same_but_insert (P : pin → Prop) p lines i x :
  P p → pin_line p i → same_but P lines (<[i := x]> lines).
Proof.
  intros HP Hi. split; [by rewrite length_insert|]. intros j Hj.
  destruct (decide (i = j)) as [<-|Hne]; [by exists p|]. by rewrite list_lookup_insert_ne in Hj.
Qed.

Lemma line_at_Ok lines i : i < length lines → ∃ s, line_at lines i = Ok s ∧ lines !! i = Some s.
Proof. intros [s Hs]%lookup_lt_is_Some. exists s. unfold line_at. by rewrite Hs. Qed.

Lemma value_at_Ok key lines o :
  (∀ i, o = Some i → i < length lines) → ∃ v, value_at key lines o = Ok v.
Proof.
  intros H. destruct o as [i|]; [|by eexists]. destruct (line_at_Ok lines i) as (s & Hs & _); [by apply H|].
  unfold value_at. rewrite Hs. by eexists.
Qed.

(** A step of a rewrite: it ends, it changes only lines of the pin, and it says
    whether it changed any. *)
Definition rewrites (p : pin) (lines : list string) (m : result (bool * list string)) : Prop :=
  ∃ c lines', m = Ok (c, lines') ∧ same_but (eq p) lines lines' ∧ (c = false → lines' = lines).

Lemma put_line_rewrites p lines i new :
  i < length lines → pin_line p i → rewrites p lines (put_line lines i new).
Proof.
  intros Hi Hp. unfold put_line. destruct (line_at_Ok lines i Hi) as (old & -> & _). cbn [rbind].
  destruct (str_eqb new old); eexists _, _; (split; [reflexivity|]); (split; [|done]).
  - apply same_but_refl.
  - by eapply same_but_insert.
Qed.

Lemma rewrite_separate_rewrites lines p d ref digest :
  in_range (length lines) p → p_digest_line p = Some d → rewrites p lines (rewrite_separate lines p d ref digest).
Proof.
  intros (_ & Ht & Hd) Ed. unfold rewrite_separate. pose proof (Hd d Ed) as Hdl.
  destruct (line_at_Ok lines d Hdl) as (old & -> & _). cbn [rbind].
  destruct (put_line_rewrites p lines d (set_value "digest" digest old) Hdl (or_intror Ed))
    as (c1 & l1 & -> & Hs1 & Hc1). cbn [rbind].
  assert (rewrites p lines (Ok (c1, l1))) as Hone by (by eexists _, _).
  destruct ref as [r|]; [|done]. destruct (p_tag_line p) as [t|] eqn:Et; [|done].
  destruct (str_eqb r ""); [done|]. assert (t < length l1) as Htl by (destruct Hs1 as [-> _]; by apply Ht).
  destruct (line_at_Ok l1 t Htl) as (old' & -> & _). cbn [rbind].
  destruct (put_line_rewrites p l1 t (set_value "tag" r old') Htl (or_introl Et)) as (c2 & l2 & -> & Hs2 & Hc2).
  cbn [rbind]. eexists _, _. split; [reflexivity|]. split; [by eapply same_but_trans|].
  intros [-> ->]%orb_false. by rewrite Hc2, Hc1.
Qed.

Lemma rewrite_combined_rewrites lines p t ref digest :
  in_range (length lines) p → p_tag_line p = Some t → rewrites p lines (rewrite_combined lines t ref digest).
Proof.
  intros (_ & Ht & _) Et. unfold rewrite_combined.
  destruct (line_at_Ok lines t (Ht t Et)) as (old & -> & _). cbn [rbind].
  assert (rewrites p lines (Ok (false, lines))) as Hno
    by (eexists _, _; split; [reflexivity|]; split; [apply same_but_refl|done]).
  destruct (value_of "tag" old); [|done]. destruct (contains "@" _); [|done]. cbv zeta.
  destruct (str_eqb _ _); [done|]. eexists _, _. split; [reflexivity|]. split; [|done].
  eapply same_but_insert; [done|by left].
Qed.

Lemma rewrite_pin_rewrites lines p ref digest :
  in_range (length lines) p → rewrites p lines (rewrite_pin lines p ref digest).
Proof.
  intros Hr. pose proof Hr as (_ & Ht & Hd). unfold rewrite_pin.
  destruct (value_at_Ok "tag" lines (p_tag_line p) Ht) as [tag ->]. cbn [rbind]. cbv zeta.
  destruct (value_at_Ok "digest" lines (p_digest_line p) Hd) as [dig ->]. cbn [rbind].
  assert (rewrites p lines (Ok (false, lines))) as Hno
    by (eexists _, _; split; [reflexivity|]; split; [apply same_but_refl|done]).
  destruct (p_digest_line p) as [d|] eqn:Ed.
  - destruct (_ || _); [by apply rewrite_separate_rewrites|].
    destruct (p_tag_line p) eqn:Et; [by apply rewrite_combined_rewrites|done].
  - destruct (p_tag_line p) eqn:Et; [by apply rewrite_combined_rewrites|done].
Qed.

(** *** The pins that are found lie in the file *)

Lemma scan_block_range base j lines tag digest t d :
  scan_block base j lines tag digest = (t, d) →
  (∀ i, t = Some i → tag = Some i ∨ i < j + length lines) ∧
  (∀ i, d = Some i → digest = Some i ∨ i < j + length lines).
Proof.
  revert j tag digest. induction lines as [|nxt lines IH]; intros j tag digest; cbn [scan_block length].
  - intros [= -> ->]. split; intros i ->; by left.
  - assert (∀ tag' digest', scan_block base (S j) lines tag' digest' = (t, d) →
      (∀ i, tag' = Some i → tag = Some i ∨ i < j + S (length lines)) →
      (∀ i, digest' = Some i → digest = Some i ∨ i < j + S (length lines)) →
      (∀ i, t = Some i → tag = Some i ∨ i < j + S (length lines)) ∧
      (∀ i, d = Some i → digest = Some i ∨ i < j + S (length lines))) as Hstep.
    { intros tag' digest' H Htag Hdig. apply IH in H as [H1 H2]. split; intros i Hi.
      - destruct (H1 i Hi); [by apply Htag|right; lia].
      - destruct (H2 i Hi); [by apply Hdig|right; lia]. }
    assert ((tag, digest) = (t, d) → (∀ i, t = Some i → tag = Some i ∨ i < j + S (length lines)) ∧
      (∀ i, d = Some i → digest = Some i ∨ i < j + S (length lines))) as Hstop
      by (intros [= -> ->]; split; intros i ->; by left).
    assert (scan_block base (S j) lines tag digest = (t, d) → (∀ i, t = Some i → tag = Some i ∨ i < j + S (length lines)) ∧
      (∀ i, d = Some i → digest = Some i ∨ i < j + S (length lines))) as Hskip
      by (intros H; eapply Hstep; [exact H|by left..]).
    destruct (_ || _); [exact Hskip|]. destruct (re_match KEY nxt) as [m|]; [|exact Hstop]. cbv zeta.
    destruct (_ || _); [exact Hstop|]. destruct (_ <? _); [exact Hskip|].
    destruct (str_eqb _ "repository"); [exact Hstop|].
    destruct (_ && _); [intros H; eapply Hstep; [exact H| |by left]; intros i [= <-]; right; lia|].
    destruct (_ && _); [intros H; eapply Hstep; [exact H|by left|]; intros i [= <-]; right; lia|exact Hskip].
Qed.

Lemma find_pins_from_range i lines path p :
  p ∈ find_pins_from i lines path → in_range (i + length lines) p.
Proof.
  revert i. induction lines as [|line lines IH]; intros i; cbn [find_pins_from length];
    [by intros ?%elem_of_nil|].
  intros [H|H]%elem_of_app.
  2: { apply IH in H as (H1 & H2 & H3). split_and!; [lia|..]; intros j Hj; [apply H2 in Hj|apply H3 in Hj]; lia. }
  destruct (re_match REPOSITORY line) as [m|]; [|by apply elem_of_nil in H]. cbv zeta in H.
  destruct (startswith _ _); [by apply elem_of_nil in H|].
  destruct (scan_block _ _ _ _ _) as [t d] eqn:E. apply list_elem_of_singleton in H as ->.
  apply scan_block_range in E as [Ht Hd]. split_and!; cbn; [lia|..];
    intros j Hj; [apply Ht in Hj|apply Hd in Hj]; destruct Hj; [done|lia|done|lia].
Qed.

Lemma find_pins_range lines path p : p ∈ find_pins lines path → in_range (length lines) p.
Proof. apply (find_pins_from_range 0). Qed.

(** *** The files *)

Lemma same_but_mono (P Q : pin → Prop) a b : (∀ p, P p → Q p) → same_but P a b → same_but Q a b.
Proof. intros H [Hl Hs]. split; [done|]. intros i Hi. destruct (Hs i Hi) as (p & ? & ?). eauto. Qed.

Lemma any_rewrite_rewrites lines pins ref digest :
  (∀ p, p ∈ pins → in_range (length lines) p) →
  ∃ c lines', any_rewrite lines pins ref digest = Ok (c, lines') ∧ same_but (.∈ pins) lines lines'.
Proof.
  revert lines. induction pins as [|p pins IH]; intros lines Hr; cbn [any_rewrite].
  - eexists _, _. split; [reflexivity|apply same_but_refl].
  - destruct (rewrite_pin_rewrites lines p ref digest) as (c & l1 & -> & Hs & _); [apply Hr; left|].
    cbn [rbind]. assert (same_but (.∈ p :: pins) lines l1) as Hs1.
    { eapply same_but_mono; [|exact Hs]. intros q <-. left. }
    destruct c; [by eexists _, _|].
    destruct (IH l1) as (c & l2 & -> & Hs2); [destruct Hs as [-> _]; intros q Hq; apply Hr; by right|].
    eexists _, _. split; [reflexivity|]. eapply same_but_trans; [exact Hs1|].
    eapply same_but_mono; [|exact Hs2]. intros q Hq. by right.
Qed.

Section bump.
Context (image : string) (ref : option string) (digest : string).

(** The pins of the image in a file. *)
Definition pins_of (text path : string) (p : pin) : Prop :=
  p ∈ find_pins (lines_keep text) path ∧ p_image p = image.

(** The file at [path] is written again with some lines of its pins changed. *)
Definition repinned (fs fs' : files) (path : string) : Prop :=
  ∃ text lines', alist_get path fs = Some text ∧ alist_get path fs' = Some (cat lines') ∧
    same_but (pins_of text path) (lines_keep text) lines'.

Definition has_pin (fs : files) (path : string) : Prop :=
  ∃ text p, alist_get path fs = Some text ∧ pins_of text path p.

Lemma filter_image lines path p :
  p ∈ List.filter (λ p, str_eqb (p_image p) image) (find_pins lines path) ↔
    p ∈ find_pins lines path ∧ p_image p = image.
Proof. by rewrite list_elem_of_In, List.filter_In, <- list_elem_of_In, str_eqb_eq. Qed.

(** One file of the loop, when it was not written yet. *)
Lemma bump_file_step fs g path :
  alist_get path (g_files g) = alist_get path fs →
  ∃ g', bump_file image ref digest g path = Ok g' ∧
    (g_found g' = true ↔ g_found g = true ∨ has_pin fs path) ∧
    (g_files g' = g_files g ∨ g_found g' = true ∧ repinned fs (g_files g') path ∧
       ∀ q, q ≠ path → alist_get q (g_files g') = alist_get q (g_files g)).
Proof.
  intros Hg. unfold bump_file, load. rewrite Hg.
  destruct (alist_get path fs) as [text|] eqn:Et; cbn.
  2: { eexists. split; [reflexivity|]. split; [|by left]. split; [by left|]. intros [?|(? & ? & Hx & _)]; [done|congruence]. }
  set (pins := List.filter _ _).
  assert (∀ p, p ∈ pins ↔ pins_of text path p) as Hpins by (intros p; apply filter_image).
  assert (∀ p, p ∈ pins → in_range (length (lines_keep text)) p) as Hr.
  { intros p [Hp _]%Hpins. by eapply find_pins_range. }
  destruct (any_rewrite_rewrites (lines_keep text) pins ref digest Hr) as (c & l' & Ha & Hs).
  clearbody pins. destruct pins as [|p0 pins0].
  { eexists. split; [reflexivity|]. split; [|by left]. split; [by left|].
    intros [?|(t & p & Hx & Hp)]; [done|]. rewrite Et in Hx. injection Hx as <-. apply Hpins in Hp. by apply elem_of_nil in Hp. }
  rewrite Ha. cbn [rbind]. assert (has_pin fs path) as Hhas.
  { exists text, p0. split; [done|]. apply Hpins. left. }
  eexists. split; [reflexivity|]. destruct c; cbn; (split; [split; [intros _; by right|done]|]); [right|by left].
  split_and!; [done| |].
  - exists text, l'. split_and!; [done|apply alist_set_eq|]. eapply same_but_mono; [|exact Hs].
    intros p Hp. by apply Hpins.
  - intros q Hq. by apply alist_set_ne.
Qed.

Lemma bump_loop fs paths g :
  NoDup paths → (∀ path, path ∈ paths → alist_get path (g_files g) = alist_get path fs) →
  ∃ g', foldM (bump_file image ref digest) g paths = Ok g' ∧
    (g_found g' = true ↔ g_found g = true ∨ ∃ path, path ∈ paths ∧ has_pin fs path) ∧
    (g_found g' = false → g_files g' = g_files g) ∧
    (∀ path, path ∉ paths → alist_get path (g_files g') = alist_get path (g_files g)) ∧
    (∀ path, path ∈ paths → alist_get path (g_files g') = alist_get path fs ∨ repinned fs (g_files g') path).
Proof.
  revert g. induction paths as [|path paths IH]; intros g Hnd Hg; cbn [foldM].
  { exists g. split_and!; [done| |done|done|by intros ? ?%elem_of_nil].
    split; [by left|]. intros [?|(? & ?%elem_of_nil & _)]; done. }
  apply NoDup_cons in Hnd as [Hni Hnd].
  destruct (bump_file_step fs g path) as (g1 & -> & Hf1 & Hc1); [apply Hg; left|]. cbn [rbind].
  assert (∀ q, q ≠ path → alist_get q (g_files g1) = alist_get q (g_files g)) as Hother
    by (destruct Hc1 as [->|(_ & _ & H)]; [done|exact H]).
  destruct (IH g1 Hnd) as (g2 & Hg2 & Hf2 & Hsame & Hout & Hin).
  { intros q Hq. rewrite Hother; [apply Hg; by right|]. by intros ->. }
  exists g2. split_and!; [done| | | |].
  - rewrite Hf2, Hf1. setoid_rewrite elem_of_cons. naive_solver.
  - intros H. rewrite (Hsame H). destruct Hc1 as [->|(Hf & _ & _)]; [done|].
    exfalso. assert (g_found g2 = true) by (apply Hf2; by left). congruence.
  - intros q [Hq1 Hq2]%not_elem_of_cons. by rewrite Hout, Hother.
  - intros q [->|Hq]%elem_of_cons; [|by apply Hin]. unfold repinned. rewrite (Hout path Hni).
    destruct Hc1 as [->|(_ & Hr & _)]; [left; apply Hg; left|by right].
Qed.
End bump.


(** *** What a rewritten line says

    A line of the pin: spaces, a key, a quoted value, and the rest of the line,
    a comment for example, with no other quote. *)
Definition key_line (indent key gap v rest : string) : string :=
  indent +:+ key +:+ ":" +:+ gap +:+ in_quotes v +:+ rest.

Definition no_quote (s : string) : Prop := str_forallb (λ c, negb (Ascii.eqb c dquote)) s = true.
Definition blank (s : string) : Prop := str_forallb is_space s = true.

(** The character before a position after the text [t]. *)
Fixpoint last_char (p : option ascii) (t : string) : option ascii :=
  match t with "" => p | String c t => last_char (Some c) t end.

(** *** The matcher on the parts of a line *)

Lemma rmatch_str {X} w s p g (k : state → option X) :
  rmatch (RStr w) (State p (w +:+ s) g) k = k (State (last_char p w) s g).
Proof.
  revert p. induction w as [|c w IH]; intros p; [done|].
  cbn [RStr rmatch rest RLit]. change (String c w +:+ s) with (String c (w +:+ s)). cbn [rmatch rest RLit].
  rewrite Ascii.eqb_refl. apply IH.
Qed.

Lemma rmatch_lit {X} c s p g (k : state → option X) :
  rmatch (RLit c) (State p (String c s) g) k = k (State (Some c) s g).
Proof. cbn. by rewrite Ascii.eqb_refl. Qed.

(** A starred class takes a whole run of the class when what follows matches
    there. *)
Lemma rmatch_star {X} f t s p g (k : state → option X) x :
  str_forallb f t = true → is_none_or (λ c, negb (f c)) (head_char s) = true →
  k (State (last_char p t) s g) = Some x →
  rmatch (RStar (RChr f)) (State p (t +:+ s) g) k = Some x.
Proof.
  intros Ht Hs Hk. cbn [rmatch rest].
  assert (∀ n p, String.length (t +:+ s) ≤ n → k (State (last_char p t) s g) = Some x →
    star_loop (rmatch (RChr f)) k n (State p (t +:+ s) g) = Some x) as H; [|by apply H].
  clear p Hk. induction t as [|c t IH]; intros n p Hn Hk.
  - change ("" +:+ s) with s in *. destruct n as [|n]; cbn [star_loop]; [done|].
    cbn [rmatch rest]. destruct s as [|d s]; [done|]. cbn in Hs. apply negb_true_iff in Hs. by rewrite Hs.
  - cbn [str_forallb] in Ht. apply andb_true in Ht as [Hc Ht]. change (String c t +:+ s) with (String c (t +:+ s)) in *.
    destruct n as [|n]; [cbn in Hn; lia|]. cbn [star_loop rmatch rest groups]. rewrite Hc.
    assert (shorter (State (Some c) (t +:+ s) g) (State p (String c (t +:+ s)) g) = true) as ->
      by (apply shorter_true; cbn; lia).
    rewrite IH; [done|done|cbn in Hn; lia|done].
Qed.

(** A pattern that starts with the character [c] skips the spaces before it. *)
Lemma search_skip (c : ascii) r indent s before p :
  is_space c = false → (∀ p d t q, d ≠ c → ¬ step r (p, String d t) q) → blank indent →
  search_from r before p (indent +:+ String c s) =
  search_from r (before +:+ indent) (last_char p indent) (String c s).
Proof.
  intros Hc Hr. revert before p. induction indent as [|d indent IH]; intros before p Hi; [by rewrite append_nil_r|].
  unfold blank in Hi. cbn [str_forallb] in Hi. apply andb_true in Hi as [Hd Hi].
  change (String d indent +:+ String c s) with (String d (indent +:+ String c s)). cbn [search_from].
  assert (match_at r before p (String d (indent +:+ String c s)) = None) as ->.
  { unfold match_at. apply rmatch_none. intros q. apply Hr. congruence. }
  rewrite (IH _ _ Hi). by rewrite append_assoc.
Qed.

(** A match at a position is the result of a search from it. *)
Lemma search_here r before p s m : match_at r before p s = Some m → search_from r before p s = Some m.
Proof. destruct s; cbn [search_from]; by intros ->. Qed.

Lemma step_group_inv n a p q : step (RGroup n a) p q → step a p q.
Proof. by inversion 1. Qed.

Lemma step_head c w r p d t q : step (RCat (RStr (String c w)) r) (p, String d t) q → d = c.
Proof.
  intros ([p' s'] & H & _)%step_cat_iff. apply step_str_iff in H. by injection H as -> _.
Qed.

(** *** The value of a key line *)

(** No value to set in a text without quotes. *)
Lemma search_assign_none key rest before p :
  no_quote rest → search_from (assign_re key) before p rest = None.
Proof.
  intros Hrest. destruct (search_from _ _ _ _) as [m|] eqn:E; [|done]. exfalso.
  destruct (proj1 (search_from_iff (assign_re key) before p rest)) as ([p1 s1] & b & Hsuf & Hstep); [by eexists|].
  apply suffix_of_app in Hsuf as [u Hu]. unfold assign_re in Hstep. cbn [RSeq] in Hstep.
  apply step_cat_iff in Hstep as (q & H & _). apply step_group_inv in H.
  apply step_cat_iff in H as ([p2 s2] & H1%step_str_iff & H). apply step_cat_iff in H as ([p3 s3] & H2%step_str_iff & H).
  apply step_cat_iff in H as ([p4 s4] & (t & H3 & _)%step_star_iff & H). cbn [snd] in *.
  apply step_chr_iff in H as (c & t' & -> & Hc & _). apply Ascii.eqb_eq in Hc as <-.
  unfold no_quote in Hrest. rewrite Hu, H1, H2, H3, !str_forallb_app, !andb_true in Hrest.
  cbn [str_forallb] in Hrest. rewrite Ascii.eqb_refl in Hrest. cbn in Hrest. naive_solver.
Qed.

Section key_line.
Context (c0 : ascii) (w : string) (indent gap v rest : string).
Let key : string := String c0 w.
Hypothesis Hkey : is_space c0 = false.
Hypothesis Hindent : blank indent.
Hypothesis Hgap : blank gap.
Hypothesis Hv : no_quote v.
Hypothesis Hrest : no_quote rest.

(** The text of the line up to the value, and after it. *)
Let head : string := key +:+ ":" +:+ gap +:+ String dquote "".
Let line : string := key_line indent key gap v rest.

Lemma line_parts : line = indent +:+ key +:+ ":" +:+ gap +:+ String dquote (v +:+ String dquote rest).
Proof. unfold line, key_line, in_quotes. change (String dquote (v +:+ String dquote "") +:+ rest)
  with (String dquote ((v +:+ String dquote "") +:+ rest)). by rewrite append_assoc. Qed.

Lemma after_key_parts :
  key +:+ ":" +:+ gap +:+ String dquote (v +:+ String dquote rest) = head +:+ v +:+ String dquote rest.
Proof. unfold head. by rewrite !append_assoc. Qed.

Lemma match_assign before p :
  match_at (assign_re key) before p (head +:+ v +:+ String dquote rest) =
  Some (Found before (head +:+ v +:+ String dquote "") [(2, String dquote ""); (1, head)] (Some dquote) rest).
Proof using Hgap Hv.
  rewrite <- after_key_parts. unfold match_at, assign_re. cbn [RSeq].
  rewrite rmatch_cat, rmatch_group, rmatch_cat, rmatch_str, rmatch_cat, rmatch_str, rmatch_cat.
  apply rmatch_star; [done|done|]. rewrite rmatch_lit, rmatch_cat. cbn [prev Regex.rest groups].
  apply rmatch_star; [done|done|]. rewrite rmatch_group, rmatch_lit. cbn [prev Regex.rest groups].
  rewrite after_key_parts, consumed_app. change (String dquote rest) with (String dquote "" +:+ rest).
  rewrite consumed_app. rewrite <- !append_assoc, consumed_app. by rewrite !append_assoc.
Qed.

Lemma match_value before p :
  match_at (value_re key) before p (head +:+ v +:+ String dquote rest) =
  Some (Found before (head +:+ v +:+ String dquote "") [(1, v)] (Some dquote) rest).
Proof using Hgap Hv.
  rewrite <- after_key_parts. unfold match_at, value_re. cbn [RSeq].
  rewrite rmatch_cat, rmatch_str, rmatch_cat, rmatch_str, rmatch_cat.
  apply rmatch_star; [done|done|]. rewrite rmatch_cat, rmatch_lit, rmatch_cat, rmatch_group.
  apply rmatch_star; [done|done|]. cbn [prev Regex.rest groups]. rewrite rmatch_lit. cbn [prev Regex.rest groups].
  rewrite after_key_parts, consumed_app. change (String dquote rest) with (String dquote "" +:+ rest).
  rewrite <- !append_assoc, consumed_app. by rewrite !append_assoc.
Qed.

Lemma search_line r m :
  (∀ p d t q, d ≠ c0 → ¬ step r (p, String d t) q) →
  match_at r ("" +:+ indent) (last_char None indent) (head +:+ v +:+ String dquote rest) = Some m →
  search_from r "" None line = Some m.
Proof using Hkey Hindent.
  intros Hr Hm. rewrite line_parts, after_key_parts.
  change (head +:+ v +:+ String dquote rest)
    with (String c0 ((w +:+ ":" +:+ gap +:+ String dquote "") +:+ v +:+ String dquote rest)) in *.
  rewrite search_skip by done. by apply search_here.
Qed.

(** The value that the line holds. *)
Lemma value_of_line : value_of key line = Some v.
Proof using Hkey Hindent Hgap Hv.
  unfold value_of, re_search. erewrite search_line; [|intros p d t q Hne H|apply match_value]; [done|].
  by apply step_head in H.
Qed.

(** The line after the value is set. *)
Lemma set_value_line new : set_value key new line = key_line indent key gap new rest.
Proof using Hkey Hindent Hgap Hv Hrest.
  assert (search_from (assign_re key) "" None line =
    Some (Found ("" +:+ indent) (head +:+ v +:+ String dquote "") [(2, String dquote ""); (1, head)] (Some dquote) rest)) as Hs.
  { apply search_line; [|apply match_assign]. intros p d t q Hne H. unfold assign_re in H. cbn [RSeq] in H.
    apply step_cat_iff in H as (x & H%step_group_inv & _). by apply step_head in H. }
  unfold set_value, re_sub, re_finditer.
  assert (∃ n, String.length line = S n) as [n ->].
  { rewrite line_parts, !append_length. exists (String.length line - 1).
    rewrite line_parts, !append_length. cbn. lia. }
  cbn [finditer_from]. rewrite Hs. cbn [f_prev f_after].
  assert (finditer_from n (assign_re key) (Some dquote) rest = []) as ->
    by (destruct n; cbn [finditer_from]; [done|by rewrite search_assign_none]).
  cbn [last map f_before f_after group_text group]. unfold key_line, in_quotes, head, cat.
  cbn [String.concat]. change ("" +:+ indent) with indent.
  do 4 (cbn; rewrite ?append_assoc). done.
Qed.
End key_line.

(** *** Reading a pin back *)

Lemma split1_head (c : ascii) w a b :
  str_forallb (λ d, negb (Ascii.eqb d c)) a = true →
  split1 (String c w) (a +:+ String c w +:+ b) = Some (a, b).
Proof.
  induction a as [|d a IH]; cbn [str_forallb]; intros Ha.
  - change ("" +:+ String c w +:+ b) with (String c w +:+ b).
    assert (drop_prefix (String c w) (String c w +:+ b) = Some b) as H by (by apply drop_prefix_Some).
    revert H. change (String c w +:+ b) with (String c (w +:+ b)). cbn [split1]. by intros ->.
  - apply andb_true in Ha as [Hd Ha]. change (String d a +:+ String c w +:+ b) with (String d (a +:+ String c w +:+ b)).
    cbn [split1 drop_prefix]. rewrite negb_true_iff, Ascii.eqb_sym in Hd. rewrite Hd. by rewrite (IH Ha).
Qed.

Lemma split1_no_head (c : ascii) w a :
  str_forallb (λ d, negb (Ascii.eqb d c)) a = true → split1 (String c w) a = None.
Proof.
  induction a as [|d a IH]; cbn [str_forallb split1 drop_prefix]; [done|]. intros [Hd Ha]%andb_true.
  rewrite negb_true_iff, Ascii.eqb_sym in Hd. rewrite Hd. by rewrite (IH Ha).
Qed.

Lemma blank_no_quote s : blank s → no_quote s.
Proof.
  unfold blank, no_quote. induction s as [|c s IH]; [done|]. cbn [str_forallb]. intros [Hc Hs]%andb_true.
  rewrite (IH Hs), andb_true_r. apply negb_true_iff. destruct (Ascii.eqb_spec c dquote) as [->|]; done.
Qed.

Lemma no_quote_app s t : no_quote (s +:+ t) ↔ no_quote s ∧ no_quote t.
Proof. unfold no_quote. by rewrite str_forallb_app, andb_true. Qed.

(** [str.replace] of the quoted value of a key line. *)
Lemma replace_key_line indent key gap cur new rest :
  blank indent → no_quote key → blank gap → no_quote rest →
  str_replace (key_line indent key gap cur rest) (in_quotes cur) (in_quotes new)
  = key_line indent key gap new rest.
Proof.
  intros Hi Hk Hg Hr. unfold str_replace, str_split. set (pre := indent +:+ key +:+ ":" +:+ gap).
  assert (∀ v, key_line indent key gap v rest = pre +:+ in_quotes v +:+ rest) as E
    by (intros v; unfold key_line, pre; by rewrite !append_assoc).
  rewrite !E. assert (no_quote pre) as Hpre by (unfold pre; rewrite !no_quote_app; split_and!; try done; by apply blank_no_quote).
  assert (∃ n, String.length (pre +:+ in_quotes cur +:+ rest) = S (S n)) as [n ->].
  { exists (String.length pre + String.length cur + String.length rest).
    unfold in_quotes. rewrite !append_length. cbn. rewrite !append_length. cbn. lia. }
  pose proof (split1_head dquote (cur +:+ String dquote "") pre rest Hpre) as H1.
  pose proof (split1_no_head dquote (cur +:+ String dquote "") rest Hr) as H2.
  change (String dquote (cur +:+ String dquote "")) with (in_quotes cur) in H1, H2.
  cbn [str_splitn]. by rewrite H1, H2.
Qed.

Lemma before_at_keep a b : contains "@" a = false → before_at (a +:+ "@" +:+ b) = a.
Proof. intros H. unfold before_at. by rewrite (split1_app "@" a b H). Qed.
Lemma contains_at a b : contains "@" (a +:+ "@" +:+ b) = true.
Proof. apply contains_true. by exists a, b. Qed.
Lemma before_at_no_at v : contains "@" v = true → contains "@" (before_at v) = false.
Proof.
  intros H. unfold before_at. destruct (split1 "@" v) as [[a b]|] eqn:E; [by eapply split1_before|].
  apply split1_None in E. congruence.
Qed.

(** The ref that a combined pin keeps: the new one, or the one it has. *)
Definition kept (ref : option string) (current : string) : string :=
  match ref with Some r => if str_eqb r "" then before_at current else r | None => before_at current end.

(** The pin does not use its digest line. *)
Definition digest_unused (p : pin) (t : nat) (lines : list string) : Prop :=
  ∀ d, p_digest_line p = Some d → d ≠ t ∧ ∃ line, lines !! d = Some line ∧
    ∀ v, value_of "digest" line = Some v → strip v = "".

Section combined.
Context (lines : list string) (p : pin) (t : nat) (indent gap rest : string) (ref : option string) (digest : string).
Hypothesis Ht : p_tag_line p = Some t.
Hypothesis Hindent : blank indent.
Hypothesis Hgap : blank gap.
Hypothesis Hrest : no_quote rest.

Lemma rewrite_combined_line cur :
  lines !! t = Some (key_line indent "tag" gap cur rest) → no_quote cur → contains "@" cur = true →
  digest_unused p t lines →
  let new := kept ref cur +:+ "@" +:+ digest in
  rewrite_pin lines p ref digest =
    Ok (negb (str_eqb new cur), <[t := key_line indent "tag" gap new rest]> lines).
Proof using Ht Hindent Hgap Hrest.
  intros Hl Hc Hat Hd new. assert (value_of "tag" (key_line indent "tag" gap cur rest) = Some cur) as Hv
    by by apply (value_of_line "t" "ag").
  assert (line_at lines t = Ok (key_line indent "tag" gap cur rest)) as Hla by (unfold line_at; by rewrite Hl).
  assert (rewrite_combined lines t ref digest =
    Ok (negb (str_eqb new cur), <[t := key_line indent "tag" gap new rest]> lines)) as Hrc.
  { unfold rewrite_combined. rewrite Hla. cbn [rbind]. rewrite Hv, Hat. cbv zeta.
    change (cat _) with (kept ref cur +:+ "" +:+ "@" +:+ "" +:+ digest).
    change (kept ref cur +:+ "" +:+ "@" +:+ "" +:+ digest) with new.
    destruct (str_eqb new cur) eqn:E; cbn [negb].
    - apply str_eqb_eq in E. rewrite E. by rewrite list_insert_id.
    - by rewrite replace_key_line. }
  unfold rewrite_pin, value_at. rewrite Ht, Hla. cbn [rbind]. rewrite Hv, Hat.
  destruct (p_digest_line p) as [d|] eqn:Ed; [|exact Hrc].
  destruct (Hd d Ed) as (_ & line & Hdl & Hblank).
  unfold line_at at 1. rewrite Hdl. cbn [rbind].
  destruct (value_of "digest" line) as [v|]; [|exact Hrc]. rewrite (Hblank v eq_refl). exact Hrc.
Qed.
End combined.

(** A combined pin reads back.  After [rewrite_pin] its line holds the kept
    ref and the new digest, and the indent, the gap and the trailing comment as
    they were; [rewrite_pin] says whether the line changed; and a second
    application changes nothing. *)
Theorem rewrite_pin_reads_back (lines : list string) (p : pin) (t : nat)
    (indent gap rest cur : string) (ref : option string) (digest : string)
    (Ht : p_tag_line p = Some t) (Hline : lines !! t = Some (key_line indent "tag" gap cur rest))
    (Hindent : blank indent) (Hgap : blank gap) (Hrest : no_quote rest) (Hcur : no_quote cur)
    (Hat : contains "@" cur = true) (Hunused : digest_unused p t lines)
    (Href : ∀ r, ref = Some r → no_quote r ∧ contains "@" r = false) (Hdigest : no_quote digest) :
  let new := kept ref cur +:+ "@" +:+ digest in
  let lines' := <[t := key_line indent "tag" gap new rest]> lines in
  rewrite_pin lines p ref digest = Ok (negb (str_eqb new cur), lines') ∧
  value_at "tag" lines' (p_tag_line p) = Ok (Some new) ∧
  current_ref lines' p = Ok (Some (kept ref cur)) ∧
  rewrite_pin lines' p ref digest = Ok (false, lines').
Proof.
  intros new lines'. assert (no_quote (kept ref cur) ∧ contains "@" (kept ref cur) = false) as [Hk Hka].
  { assert (no_quote (before_at cur)) as Hb.
    { unfold before_at. destruct (split1 "@" cur) as [[a b]|] eqn:E; [|done].
      apply split1_Some in E as ->. by apply no_quote_app in Hcur as [? _]. }
    unfold kept. destruct ref as [r|]; [|by split; [|apply before_at_no_at]].
    destruct (str_eqb r ""); [by split; [|apply before_at_no_at]|by apply Href]. }
  assert (no_quote new) as Hn by (unfold new; rewrite !no_quote_app; done).
  assert (t < length lines) as Hlen by by eapply lookup_lt_Some.
  assert (lines' !! t = Some (key_line indent "tag" gap new rest)) as Hline'
    by by apply list_lookup_insert_eq.
  assert (value_at "tag" lines' (p_tag_line p) = Ok (Some new)) as Hval.
  { unfold value_at, line_at. rewrite Ht, Hline'. cbn. f_equal. by apply (value_of_line "t" "ag"). }
  split_and!; [by apply rewrite_combined_line|exact Hval| |].
  - unfold current_ref. rewrite Hval. cbn [rbind]. unfold new. by rewrite contains_at, before_at_keep.
  - assert (digest_unused p t lines') as Hun.
    { intros d Hd. destruct (Hunused d Hd) as (Hne & line & Hdl & Hb). split; [done|].
      exists line. split; [|done]. unfold lines'. by rewrite list_lookup_insert_ne. }
    rewrite (rewrite_combined_line lines' p t indent gap rest ref digest Ht Hindent Hgap Hrest new Hline' Hn
      (contains_at _ _) Hun).
    assert (kept ref new = kept ref cur) as ->.
    { unfold kept at 1. unfold new. rewrite before_at_keep by done. unfold kept. destruct ref as [r|]; [|done].
      by destruct (str_eqb r ""). }
    change (kept ref cur +:+ "@" +:+ digest) with new. rewrite str_eqb_refl. cbn [negb].
    unfold lines'. by rewrite list_insert_insert_eq.
Qed.

Lemma rewrite_pin_reads_back_witness :
  current_ref (<[7 := key_line "  " "tag" " " (cat ["v2@"; zeros "a"]) ("  # trailing note" +:+ newline)]> SELFTEST_FIXTURE)
    (Pin "fixture" "gibson" 5 (Some 7) None) = Ok (Some "v2").
Proof.
  refine (proj1 (proj2 (proj2 (rewrite_pin_reads_back SELFTEST_FIXTURE (Pin "fixture" "gibson" 5 (Some 7) None) 7
    "  " " " ("  # trailing note" +:+ newline) (cat ["sha-old@"; zeros "0"]) (Some "v2") (zeros "a")
    eq_refl _ _ _ _ _ _ _ _ _)))); try (vm_compute; reflexivity).
  - intros d [=].
  - intros r [= <-]. split; vm_compute; reflexivity.
Defined.

(** [any] stops at the first pin that changes: with two stale pins of an image
    in one file, a run re-pins the first, exits 0, and leaves the second at its
    old digest. *)
Definition two_pins : files :=
  [("helm/gibson/values.yaml", cat
     [yaml_line "a:"; yaml_line "  repository: ghcr.io/zeroroot-ai/gibson"; quote_line "  tag" (cat ["v1@"; zeros "0"]) "";
      yaml_line "b:"; yaml_line "  repository: ghcr.io/zeroroot-ai/gibson"; quote_line "  tag" (cat ["v1@"; zeros "0"]) ""])].

Theorem bump_leaves_the_second_pin :
  ∃ out lines, cmd_bump "gibson" None (zeros "a") two_pins = Ok out ∧ status out = 0%Z ∧
    load (after out) "helm/gibson/values.yaml" = Some lines ∧
    value_of "tag" (default "" (lines !! 2)) = Some (cat ["v1@"; zeros "a"]) ∧
    value_of "tag" (default "" (lines !! 5)) = Some (cat ["v1@"; zeros "0"]).
Proof. eexists _, _. split_and!; vm_compute; reflexivity. Qed.
