(* ===== verification/NoSecretArgv.v ===== *)
(** * scripts/check-no-secret-argv.py: no secret value on the argv of a process

    The scan splits shell text into lines and words the way a shell does, and
    judges each word, also inside each command substitution and each script of
    [sh -c].  A finding holds a path, a line number and a fixed label. *)
From S2P Require Import Prelude PyStr PyVal Regex.
From Stdlib Require Import Ascii.

Definition SENSITIVE : list string :=
  ["TOKEN"; "TOK"; "SECRET"; "SECRETS"; "PASSWORD"; "PASSWD"; "PASS"; "PW"; "PAT"; "SEED"; "JWT";
   "CREDENTIAL"; "CREDENTIALS"; "MASTERKEY"; "ROOT"; "MINTER"; "VALUE"; "VAL"; "BEARER"; "AUTH";
   "PRIV"; "PRIVATE"].
Definition KEY_KIND : list string :=
  ["SEAL"; "UNSEAL"; "API"; "PRIVATE"; "PRIV"; "MASTER"; "SIGNING"; "ENCRYPTION"; "ACCESS";
   "HMAC"; "AES"; "KEK"; "DEK"; "SSH"; "TLS"; "CLIENT"; "SESSION"; "WRAP"; "UNWRAP"].
Definition DATA_OPTS : list string :=
  ["-d"; "--data"; "--data-binary"; "--data-raw"; "--data-ascii"; "--data-urlencode"; "--json";
   "-F"; "--form"; "--form-string"].
Definition PW_OPTS : list string := ["--password"; "--token"; "--secret"; "--client-secret"; "--api-key"].

(** ** The patterns *)

Definition name_start (c : ascii) : bool := is_alpha c || Ascii.eqb c "_".
Definition name_char (c : ascii) : bool := name_start c || is_digit c.
Definition identifier : regex := RCat (RChr name_start) (RStar (RChr name_char)).
Definition sp : regex := RChr is_space.
Definition not_in (s : string) : regex := RStar (RChr (λ c, negb (in_chars s c || is_space c))).
Definition upper_under : regex := RStar (RChr (λ c, ((65 <=? nat_of_ascii c) && (nat_of_ascii c <=? 90)) || Ascii.eqb c "_")).

(** A word of a pattern that ignores case. *)
Fixpoint RStrI (s : string) : regex :=
  match s with
  | "" => REps
  | String c s => RCat (RChr (λ d, Ascii.eqb (lower_char c) (lower_char d))) (RStrI s)
  end.

Definition found_in (r : regex) (s : string) : bool :=
  match re_search r s with Some _ => true | None => false end.
Definition matches (r : regex) (s : string) : bool :=
  match re_match r s with Some _ => true | None => false end.

(** A credential header, in any case. *)
Definition CRED_HEADER : regex :=
  RSeq [RSpaces; ROneOf (map RStrI ["X-Vault-Token"; "Authorization"; "Cookie"; "X-Api-Key"; "PRIVATE-TOKEN"]);
        RSpaces; RStr ":"].
(** The name of a variable that is expanded, group 1. *)
Definition VAR : regex := RSeq [RStr "$"; ROpt (RStr "{"); RGroup 1 identifier].
(** A URL with a variable as its password. *)
Definition URL_PW : regex :=
  RSeq [RStr "://"; not_in "/@:"; RStr ":"; not_in "@/"; RStr "$"; not_in "@"; RStr "@"].
Definition CONNINFO_PW : regex := RSeq [RWordB; RStr "password=$"].
Definition ASSIGN_WORD : regex := RSeq [identifier; RStr "="].

(** A command that reads or makes a secret. *)
Definition TAINT_SOURCES : regex :=
  ROneOf [RSeq [RWordB; RStr "get"; RPlus sp; RStr "secret"; ROpt (RStr "s"); RWordB];
          RSeq [RStr "base64"; RPlus sp; ROneOf [RStr "-d"; RStr "--decode"]; RWordB];
          RStr "@base64d";
          RSeq [RWordB; ROneOf [RStr "bao"; RStr "vault"]; RPlus sp;
                ROneOf [RStr "read"; RSeq [RStr "kv"; RPlus sp; RStr "get"]]; RWordB];
          RSeq [RStr "openssl"; RPlus sp; RStr "rand"; RWordB];
          RSeq [RStr "/dev/"; ROpt (RStr "u"); RStr "random"];
          RSeq [RWordB; RStr "keyring_get"; RWordB];
          RStr "client_secret"; RStr "access_token"; RStr "refresh_token"; RStr "id_token"; RStr "client_token";
          RStr "X-Vault-Token";
          RSeq [RWordB; RStr "jq"; RWordB; RStar (RChr (not_chars "|;"));
                RChr (λ c, Ascii.eqb c squote || Ascii.eqb c dquote || is_space c); RStr ".token"; RWordB];
          RSeq [RWordB; RStr "gen_"; ROneOf [RStr "rand"; RStr "pw"]; RWordB];
          RSeq [RStr "$"; ROpt (RStr "{"); upper_under;
                ROneOf (map RStr ["MASTERKEY"; "PASSWORD"; "TOKEN"; "SECRET"; "SEAL_KEY"]); upper_under]].
(** A read of a field that holds no secret. *)
Definition NOT_SECRET_FIELD : regex :=
  ROneOf [RStr ".metadata.";
          RSeq [RStr ".data."; ROpt (RStr "["); ROpt (RLit dquote);
                ROneOf [RSeq [RStar (RChr is_word); RStr "_id"]; RStr "username"; RStr "user"; RStr "host"; RStr "port"; RStr "url"];
                RWordB]].
(** An assignment: the name, group 1, and the right-hand side, group 2. *)
Definition ASSIGN_LINE : regex :=
  RSeq [RSpaces; ROpt (RSeq [ROneOf [RStr "local"; RStr "export"; RStr "readonly"]; RPlus sp]);
        RGroup 1 identifier; RStr "="; RGroup 2 (RStar RAny); REnd].

(** ** Names and taint *)

Definition upper_char (c : ascii) : ascii :=
  let n := nat_of_ascii c in if (97 <=? n) && (n <=? 122) then ascii_of_nat (n - 32) else c.
Fixpoint upper (s : string) : string :=
  match s with "" => "" | String c s => String (upper_char c) (upper s) end.

Definition segments (name : string) : list string :=
  map upper (List.filter (λ x, negb (str_eqb x "")) (str_split name "_")).

(** The name says it holds a secret. *)
Definition sensitive_by_name (name : string) : bool :=
  let segs := segments name in
  existsb (λ x, str_mem x SENSITIVE) segs
  || (str_mem "KEY" segs && existsb (λ x, str_mem x KEY_KIND) segs).

Definition vars_of (s : string) : list string := map (λ m, group_text m 1) (re_finditer VAR s).

(** One assignment line: the variables that a secret reaches after it. *)
Definition taint_line (out : list string) (code : string) : list string :=
  match re_match ASSIGN_LINE code with
  | None => out
  | Some m =>
      let name := group_text m 1 in let rhs := group_text m 2 in
      if found_in NOT_SECRET_FIELD rhs then out
      else if found_in TAINT_SOURCES rhs || existsb (λ v, str_mem v out) (vars_of rhs) then out ++ [name]
      else out
  end.
(** The variables of a file that a secret reaches, by assignment: three passes. *)
Definition taint (lines : list (nat * string)) : list string :=
  let pass out := foldl taint_line out (map snd lines) in pass (pass (pass [])).

(** ** Lines and words *)

(** [q] is the open quote, [depth] the open [$(] and [prev] the character
    before. *)
Fixpoint strip_comment_from (q : option ascii) (depth : nat) (prev : option ascii) (s : string) : string :=
  match s with
  | "" => ""
  | String c s' =>
      let go q depth := String c (strip_comment_from q depth (Some c) s') in
      match q with
      | Some q0 =>
          if Ascii.eqb c q0 && (Ascii.eqb q0 squote || negb (bool_decide (prev = Some "\"%char)))
          then go None depth else go q depth
      | None =>
          if Ascii.eqb c squote || Ascii.eqb c dquote then go (Some c) depth
          else if Ascii.eqb c "(" && bool_decide (prev = Some "$"%char) then go None (S depth)
          else if Ascii.eqb c ")" && (0 <? depth) then go None (Nat.pred depth)
          else if Ascii.eqb c "#" && (depth =? 0)
                  && (is_none_or (λ d, Ascii.eqb d " " || Ascii.eqb d "009") prev)
                  && negb (startswith s "#{")
          then ""
          else go None depth
      end
  end.
Definition strip_comment (line : string) : string := strip_comment_from None 0 None line.

(** A line that ends in one backslash goes on with the next one. *)
Definition continues (s : string) : bool := endswith s "\" && negb (endswith s "\\").

Fixpoint logical_from (n : nat) (start : option nat) (buf : string) (raws : list string) : list (nat * string) :=
  match raws with
  | [] => if str_eqb buf "" then [] else [(default n start, buf)]
  | raw :: raws =>
      let first := default n start in
      let s := rstrip_of is_space raw in
      if continues s
      then logical_from (S n) (Some first)
             (buf +:+ strip_comment (str_slice 0 (String.length s - 1) s) +:+ " ") raws
      else (first, strip_comment (buf +:+ raw)) :: logical_from (S n) None "" raws
  end.
Definition logical_lines (text : string) : list (nat * string) :=
  logical_from 1 None "" (str_split text newline).

(** A word of its own, when there is one. *)
Definition flush (cur : string) (has : bool) : list string :=
  if negb (str_eqb cur "") || has then [cur] else [].
Definition snoc (s : string) (c : ascii) : string := s +:+ String c "".

(** The words of a line: quotes are removed, a command substitution stays in
    one word, and a control character ends a command. *)
Fixpoint words_from (cur : string) (has : bool) (q : option ascii) (depth : nat) (s : string) : list string :=
  match s with
  | "" => flush cur has
  | String c s' =>
      match q with
      | Some q0 =>
          if Ascii.eqb c q0 then words_from cur has None depth s'
          else words_from (snoc cur c) has q depth s'
      | None =>
          if 0 <? depth then
            words_from (snoc cur c) has None
              (if Ascii.eqb c "(" then S depth else if Ascii.eqb c ")" then Nat.pred depth else depth) s'
          else if Ascii.eqb c squote || Ascii.eqb c dquote then words_from cur true (Some c) depth s'
          else
            let plain :=
              if Ascii.eqb c " " || Ascii.eqb c "009" then flush cur has ++ words_from "" false None 0 s'
              else if in_chars ";|&()" c then flush cur has ++ String c "" :: words_from "" false None 0 s'
              else words_from (snoc cur c) true None 0 s' in
            match s' with
            | String d s'' =>
                if Ascii.eqb c "$" && Ascii.eqb d "("
                then words_from (cur +:+ "$(") true None 1 s'' else plain
            | "" => plain
            end
      end
  end.
Definition words (line : string) : list string := words_from "" false None 0 line.

(** The text up to the parenthesis that closes [depth] open ones, with it, and
    the text after it. *)
Fixpoint balanced (depth : nat) (s : string) : string * string :=
  match depth, s with
  | O, _ | _, "" => ("", s)
  | S d, String c s' =>
      let '(a, b) := balanced (if Ascii.eqb c "(" then S depth else if Ascii.eqb c ")" then d else depth) s' in
      (String c a, b)
  end.

(** [s[:-1]] *)
Definition drop_last (s : string) : string := str_slice 0 (String.length s - 1) s.

(** The text inside each outermost [$(...)] of a line; an open one loses its
    last character. *)
Fixpoint substitutions_from (n : nat) (code : string) : list string :=
  match n with
  | O => []
  | S n =>
      match split1 "$(" code with
      | None => []
      | Some (_, rest) => let '(a, b) := balanced 1 rest in drop_last a :: substitutions_from n b
      end
  end.
Definition substitutions (code : string) : list string := substitutions_from (String.length code) code.

(** ** The rules *)

Definition L_HEADER : string := "a credential header on the argv of curl (use -H @file)".
Definition L_BODY : string := "a secret in a curl body on the argv (use --data-binary @file or @-)".
Definition L_USER : string := "a password in curl --user on the argv".
Definition L_JQ : string := "a secret in a jq --arg on the argv (use --rawfile, stdin or env)".
Definition L_LITERAL : string := "a secret in kubectl --from-literal on the argv (use --from-file=NAME=/dev/stdin)".
Definition L_ENV : string := "a secret in an env NAME=VALUE word on the argv (use a shell assignment prefix or stdin)".
Definition L_PASSWORD : string := "a secret after a password option on the argv".
Definition L_PASS : string := "a secret in an openssl pass: argument on the argv".
Definition L_OPENSSL : string := "a key or password in an openssl option on the argv (use -pass env: or file:)".
Definition L_MYSQL : string := "a password in mysql -p on the argv (use MYSQL_PWD or an option file)".
Definition L_REDIS_ACL : string := "a password in a redis-cli ACL argument on the argv (use redis-cli -x and stdin)".
Definition L_REDIS : string := "a password in redis-cli -a on the argv (use REDISCLI_AUTH)".
Definition L_CYPHER : string := "a password in cypher-shell -p on the argv (use NEO4J_PASSWORD)".
Definition L_URL : string := "a password in a URL or conninfo on the argv".
Definition L_PATCH : string := "a secret in a kubectl patch on the argv".
Definition L_LOGIN : string := "a token on the argv of a bao or vault login".
Definition L_BAO : string := "a secret in a bao or vault NAME=VALUE word on the argv (use NAME=@file or -)".
Definition LABELS : list string :=
  [L_HEADER; L_BODY; L_USER; L_JQ; L_LITERAL; L_ENV; L_PASSWORD; L_PASS; L_OPENSSL; L_MYSQL; L_REDIS_ACL;
   L_REDIS; L_CYPHER; L_URL; L_PATCH; L_LOGIN; L_BAO].

Definition word_in (w : string) (code : string) : bool := found_in (RSeq [RWordB; RStr w; RWordB]) code.
Definition expands (s : string) : bool := contains "$" s.
(** [s.split("=", 1)] of a text with an [=] *)
Definition name_value (s : string) : string * string :=
  match split1 "=" s with Some p => p | None => (s, "") end.

Section line.
(** The variables that a secret reaches. *)
Context (tainted : list string).

Definition sensitive_name (name : string) : bool := str_mem name tainted || sensitive_by_name name.
Definition sensitive_word (word : string) : bool := existsb sensitive_name (vars_of word).

Definition label (b : bool) (l : string) : list string := if b then [l] else [].

Section word.
(** The line, the words before (the last first) and after one of its words. *)
Context (code : string) (first : string) (before : list string) (word : string) (after : list string).
Let nxt : string := hd "" after.
Definition is_curl : bool := found_in (RSeq [RStr "curl"; RWordB]) code.

Definition header_of : option string :=
  if str_mem word ["-H"; "--header"] then Some nxt
  else match drop_prefix "--header=" word with
       | Some h => Some h
       | None => if startswith word "-H" && (2 <? String.length word) && is_curl
                 then Some (str_slice 2 (String.length word) word) else None
       end.
Definition bad_header (hdr : string) : bool :=
  expands hdr && negb (startswith hdr "@") && (matches CRED_HEADER hdr || sensitive_word hdr).
Definition rule_header : list string :=
  match header_of with Some h => label (bad_header h) L_HEADER | None => [] end.

Definition at_file : regex := RSeq [RStar (RChr (λ c, is_alpha c || is_digit c || Ascii.eqb c "_")); RStr "@"].
Definition rule_body : list string :=
  label (str_mem word DATA_OPTS && is_curl && expands nxt && negb (startswith nxt "@") && negb (matches at_file nxt)) L_BODY
  ++ label (existsb (λ opt, startswith word (cat [opt; "="])) DATA_OPTS && is_curl && expands word) L_BODY.

Definition rule_user : list string :=
  label (is_curl && str_mem word ["-u"; "--user"]
         && match split1 ":" nxt with Some (_, pw) => expands pw | None => false end) L_USER.

Definition rule_jq : list string :=
  match after with
  | name :: val :: _ =>
      label (str_mem word ["--arg"; "--argjson"] && word_in "jq" code && expands val
             && (sensitive_by_name name || sensitive_word val
                 || found_in (RSeq [RStr "$"; ROpt (RStr "{"); RChr (λ c, is_digit c && negb (Ascii.eqb c "0"))]) val
                 || contains "$(" val)) L_JQ
  | _ => []
  end.

Definition rule_literal : list string :=
  match drop_prefix "--from-literal=" word with
  | None => []
  | Some lit =>
      label (expands lit
             && ((found_in (RSeq [RStr "create"; RPlus sp; RStr "secret"]) code && contains "$(" lit)
                 || sensitive_word lit || sensitive_by_name (name_value lit).1)) L_LITERAL
  end.

(** The words after [env]: the first that is no assignment and no option ends
    them, and the first secret is enough. *)
Fixpoint env_words (l : list string) : list string :=
  match l with
  | [] => []
  | a :: l =>
      if negb (matches ASSIGN_WORD a) then if startswith a "-" then env_words l else []
      else let '(name, val) := name_value a in
           if expands val && (sensitive_name name || sensitive_word val) then [L_ENV] else env_words l
  end.
Definition rule_env : list string :=
  if str_eqb word "env"
     && match before with [] => true | w :: _ => str_mem w [";"; "|"; "&"; "("; "--"; "exec"; "then"; "do"; "!"] end
  then env_words after else [].

Definition rule_password : list string :=
  label (str_mem word PW_OPTS && expands nxt) L_PASSWORD
  ++ label (existsb (λ opt, startswith word (cat [opt; "="])) PW_OPTS && expands word) L_PASSWORD
  ++ label (found_in (RSeq [RAlt RBegin (RChr (λ c, negb (is_alpha c))); RStr "pass:$"]) word) L_PASS.

Definition env_file_fd : regex := RSeq [ROneOf [RStr "env"; RStr "file"; RStr "fd"]; RStr ":"].
Definition dash_p : regex := RSeq [RStr "-p"; RStar RAny; RStr "$"].
Definition long_password : regex := RSeq [RStr "--password="; RStar RAny; RStr "$"].
Definition mysql : regex := RSeq [RWordB; ROneOf (map RStr ["mysql"; "mariadb"; "mysqldump"]); RWordB].
Definition rule_tools : list string :=
  label (str_mem word ["-K"; "-k"; "-pass"; "-passin"; "-passout"; "-kfile"] && expands nxt
         && word_in "openssl" code && negb (matches env_file_fd nxt)) L_OPENSSL
  ++ label (found_in mysql code && (matches dash_p word || matches long_password word)) L_MYSQL
  ++ label (word_in "redis-cli" code && matches (RStr ">$") word) L_REDIS_ACL
  ++ label (str_eqb word "-a" && expands nxt && word_in "redis-cli" code) L_REDIS
  ++ label (str_eqb word "-p" && expands nxt && word_in "cypher-shell" code) L_CYPHER.

(** A YAML key or a template action is not a command, and an assignment puts
    nothing on an argv. *)
Definition is_assignment : bool :=
  matches ASSIGN_WORD word
  && match before with [] => true | w :: _ => str_mem w [";"; "|"; "&"; "("; "export"; "local"; "readonly"] end.
Definition rule_url : list string :=
  label ((found_in URL_PW word || found_in CONNINFO_PW word)
         && negb (endswith first ":" || startswith first "{{") && negb is_assignment) L_URL.

Definition kubectl_patch : regex :=
  RSeq [RWordB; RStr "kubectl"; RWordB; RStar RAny; RWordB; RStr "patch"; RWordB].
Definition rule_patch : list string :=
  label (str_mem word ["-p"; "--patch"] && found_in kubectl_patch code && sensitive_word nxt) L_PATCH.

Definition rules : list string :=
  rule_header ++ rule_body ++ rule_user ++ rule_jq ++ rule_literal ++ rule_env ++ rule_password
  ++ rule_tools ++ rule_url ++ rule_patch.
End word.

Fixpoint walk (code first : string) (before : list string) (w : list string) : list string :=
  match w with
  | [] => []
  | word :: after => rules code first before word after ++ walk code first (word :: before) after
  end.

(** A bao or vault command: the subcommand, group 2, and the rest, group 3. *)
Definition BAO : regex :=
  RSeq [RAlt RBegin (RChr (λ c, is_space c || in_chars ";|&(" c)); RGroup 1 (ROneOf [RStr "bao"; RStr "vault"]); RPlus sp;
        RGroup 2 (ROneOf [RStr "login"; RStr "write"; RSeq [RStr "kv"; RPlus sp; RStr "put"]; RSeq [RStr "kv"; RPlus sp; RStr "patch"]]);
        RWordB; RGroup 3 (RStar RAny)].
Fixpoint bao_words (l : list string) : list string :=
  match l with
  | [] => []
  | r :: l =>
      if matches ASSIGN_WORD r then
        let '(name, val) := name_value r in
        if expands val && negb (startswith val "@") && (sensitive_name name || sensitive_word val) then [L_BAO]
        else bao_words l
      else bao_words l
  end.
Definition rule_bao (code : string) : list string :=
  match re_search BAO code with
  | None => []
  | Some m =>
      let rest := words (group_text m 3) in
      label (str_eqb (group_text m 2) "login" && existsb (λ r, expands r && negb (startswith r "-")) rest) L_LOGIN
      ++ bao_words rest
  end.

(** The labels without repetition, the first occurrence kept. *)
Fixpoint first_occurrences (seen l : list string) : list string :=
  match l with
  | [] => []
  | x :: l => if str_mem x seen then first_occurrences seen l else x :: first_occurrences (x :: seen) l
  end.

Definition own_findings (code : string) : list string :=
  match words code with
  | [] => []
  | first :: _ => first_occurrences [] (walk code first [] (words code) ++ rule_bao code)
  end.

(** The scripts of [sh -c '<script>'] on a line. *)
Definition is_shell_word : regex :=
  RSeq [RAlt RBegin (RStr "/"); ROpt (RStr "ba"); RStr "sh"; REnd].
Fixpoint scripts_of (w : list string) : list string :=
  match w with
  | shell :: (opt :: script :: _) as w' =>
      (if str_mem opt ["-c"; "-ec"; "-euc"] && found_in is_shell_word shell
       then map snd (logical_lines script) else []) ++ scripts_of w'
  | _ => []
  end.

(** The shell text inside a line. *)
Definition inner (code : string) : list string := substitutions code ++ scripts_of (words code).

(** The labels of a line and of the text inside it: each call is on a shorter
    text, so the length of the line bounds the depth. *)
Fixpoint line_findings (n : nat) (code : string) : result (list string) :=
  match n with
  | O => Raise OutOfFuel
  | S n =>
      foldM (λ out text, l <- line_findings n text ;;
                         Ok (out ++ List.filter (λ x, negb (str_mem x out)) l))
        (own_findings code) (inner code)
  end.
End line.

Definition num (n : nat) : string := str_of_int (Z.of_nat n).
Definition scan_text (path text : string) : result (list string) :=
  let lines := logical_lines text in
  let tainted := taint lines in
  flatM (λ nc, l <- line_findings tainted (S (String.length nc.2)) nc.2 ;;
               Ok (map (λ x, cat [path; ":"; num nc.1; ": "; x]) l)) lines.

(** ** Rendered pods *)

Definition POD_KINDS : list string :=
  ["Deployment"; "StatefulSet"; "DaemonSet"; "Job"; "CronJob"; "Pod"; "ReplicaSet"].

Definition pod_specs (doc : val) : result (list val) :=
  kind <- get doc "kind" ;;
  spec <- get_dict doc "spec" ;;
  if py_eq kind (VStr "Pod") then Ok [spec]
  else if py_eq kind (VStr "CronJob") then
    job <- get_dict spec "jobTemplate" ;;
    job_spec <- get_dict job "spec" ;;
    template <- get_default job_spec "template" (VDict []) ;;
    s <- get_dict template "spec" ;;
    Ok [s]
  else
    known <- in_set kind POD_KINDS ;;
    if (known : bool) then template <- get_dict spec "template" ;; s <- get_dict template "spec" ;; Ok [s]
    else Ok [].

Definition containers_of (spec : val) : result (list val) :=
  i <- or_empty spec "initContainers" ;; c <- or_empty spec "containers" ;; added i c.
Definition argv_of (c : val) : result (list string) :=
  a <- or_empty c "command" ;; b <- or_empty c "args" ;; l <- added a b ;; Ok (map py_str l).

(** The names of the env entries that read a Secret. *)
Definition reads_secret (e : val) : result bool :=
  if is_dict e then from <- get_dict e "valueFrom" ;; get_truthy from "secretKeyRef" else Ok false.
Definition secret_env (c : val) : result (list val) :=
  env <- get_list c "env" ;;
  flatM (λ e, b <- reads_secret e ;;
              if (b : bool) then n <- item e "name" ;; set_of [n] else Ok []) env.

(** [$(NAME)], not escaped by a second dollar sign. *)
Definition EXPANSION : regex :=
  RSeq [RNotBehind (Ascii.eqb "$"); RStr "$("; RGroup 1 identifier; RStr ")"].
Definition expansions (a : string) : list string := map (λ m, group_text m 1) (re_finditer EXPANSION a).

Definition container_findings (path : string) (doc c : val) : result (list string) :=
  secrets <- secret_env c ;;
  argv <- argv_of c ;;
  flatM (λ name,
      if existsb (py_eq (VStr name)) secrets then
        kind <- item doc "kind" ;;
        n <- meta_name doc ;;
        cname <- get c "name" ;;
        Ok [cat [path; ": "; py_str kind; "/"; py_str n; " container "; py_str cname; ": $("; name;
                 ") of a secretKeyRef env var in command or args"]]
      else Ok [])
    (concat (map expansions argv)).

(** The findings of one document and the number of its pods. *)
Definition doc_findings (path : string) (doc : val) : result (list string * nat) :=
  if negb (is_dict doc) then Ok ([], 0)
  else
    kind <- get doc "kind" ;;
    known <- in_set kind POD_KINDS ;;
    if negb known then Ok ([], 0)
    else
      specs <- pod_specs doc ;;
      out <- flatM (λ spec, cs <- containers_of spec ;; flatM (container_findings path doc) cs) specs ;;
      Ok (out, length specs).

Definition scan_render (path : string) (docs : list val) : result (list string * nat) :=
  foldM (λ acc doc, r <- doc_findings path doc ;; Ok (acc.1 ++ r.1, acc.2 + r.2)) ([], 0) docs.

(** ** The run *)

(** [s.replace(old, "")] *)
Definition without (old s : string) : string := cat (str_split s old).

(** The texts are the files of [text_files] with their paths under [root], the
    renders the golden files with their full paths. *)
Definition scan (root : string) (texts : list (string * string)) (renders : list (string * list val))
    : result (list string * nat * nat) :=
  findings <- flatM (λ pt, scan_text pt.1 pt.2) texts ;;
  '(more, pods) <- foldM (λ acc pd, r <- scan_render pd.1 pd.2 ;;
                                   Ok (acc.1 ++ map (without (cat [root; "/"])) r.1, acc.2 + r.2))
                     ([], 0) renders ;;
  Ok (findings ++ more, length texts, pods).

Definition main (root : string) (texts : list (string * string)) (renders : list (string * list val)) : result Z :=
  '(findings, files, pods) <- scan root texts renders ;;
  Ok (if (files =? 0) || (pods =? 0) then 1%Z else if nonempty findings then 1%Z else 0%Z).

(** ** The fixtures and the self-test

    A fixture is written with a backquote for each double quote and a caret for
    each newline; the fixtures hold neither character. *)

(** The name, the shell text, and whether a finding is wanted. *)
Definition CASES : list (string * string * bool) :=
  [("vault-token-header", "curl -sS -H `X-Vault-Token: $VAULT_TOKEN` `$BAO/v1/x`", true);
   ("positional-token-header", "c=$(curl -sS -X POST -H `X-Vault-Token: $1` \^  `$BAO/v1/x`)", true);
   ("bearer-header", "curl -H `Authorization: Bearer ${PAT}` https://x", true);
   ("header-variable", "TOKEN_HEADER=`X-Vault-Token: ${T}`^curl -H `$TOKEN_HEADER` x", true);
   ("header-equals", "curl --header=`Authorization: Bearer $tok` x", true);
   ("body-jq-arg", "curl -d `$(jq -nc --arg v `$VALUE` '{v:$v}')` x", true);
   ("body-urlencode", "curl --data-urlencode `client_secret=${client_secret}` x", true);
   ("curl-user", "curl -u `admin:$ADMIN_PASSWORD` x", true);
   ("jq-arg", "jq -n --arg p `$PASSWORD` '{p:$p}'", true);
   ("jq-argjson-positional", "c=$(jq -nc --argjson d `$3` '{data: $d}' | hcurl `$H` --data-binary @- x)", true);
   ("jq-arg-name", "jq -n --arg token `$x` '{t:$token}'", true);
   ("from-literal-create-secret", "kubectl create secret generic s --from-literal=`k=$(head -c 32 /dev/urandom)`", true);
   ("from-literal-name", "kubectl create configmap c --from-literal=lastKnownPassword=`$CURRENT_PASSWORD`", true);
   ("env-program", "kubectl exec -i p -- env `BAO_TOKEN=$BAO_ADMIN_TOKEN` sh -s", true);
   ("password-option", "mc admin user add x --password `$SECRET_KEY`", true);
   ("redis-cli-acl", "sh -c 'IFS= read -r n; REDISCLI_AUTH=`$p` exec redis-cli ACL SETUSER default `>$n`' x", true);
   ("ok-redis-cli-x", "sh -c 'IFS= read -r n; printf `>%s` `$n` | REDISCLI_AUTH=`$p` redis-cli -x ACL SETUSER default' x", false);
   ("redis-cli-a", "redis-cli -a `$REDIS_PASSWORD` ping", true);
   ("cypher-shell-p", "cypher-shell -u neo4j -p `${A#*/}` `RETURN 1`", true);
   ("ok-env-value-url", "              value: {{ printf `postgres://$(U):$(DB_PASSWORD)@%s` .h }}", false);
   ("url-password", "psql `postgres://app:${DB_PASSWORD}@db:5432/app` -c `select 1`", true);
   ("conninfo-password", "psql `host=db user=app password=$PGPASS` -c x", true);
   ("openssl-K", "bin_of `$c` | openssl enc -d -aes-256-cfb -K `$kh` -iv `$iv` -nopad", true);
   ("openssl-k", "openssl enc -aes-256-cbc -k `$x` -in f", true);
   ("openssl-passin", "openssl rsa -in k.pem -passin `$P`", true);
   ("ok-openssl-pass-env", "openssl rsa -in k.pem -passin env:KEY_PASS", false);
   ("mysql-p", "mysql -u root -p`$DB_ROOT` -e `select 1`", true);
   ("seal-key-name", "curl -d `x` -H `X-Seal: $UNSEAL_KEY` https://x", true);
   ("api-key-name", "jq -n --arg k `$API_KEY` '{k:$k}'", true);
   ("tainted-opaque-name", "kh=`$(kubectl get secret s -o jsonpath={.data.k} | base64 -d)`^jq -n --arg k `$kh` '{k:$k}'", true);
   ("tainted-propagates", "mk=`$ZITADEL_MASTERKEY`^kh=`$(printf %s `$mk` | od -An -tx1)`^foo --opt `$kh` | jq -n --arg h `$kh` '.'", true);
   ("ok-secret-id-field", "ORG=`$(kubectl get secret s -o jsonpath={.data.org_id} | base64 -d)`^curl -H `x-org: ${ORG}` x", false);
   ("ok-arg-name-tainted", "t=`$(cat /run/token)`^jq -n --arg t `$PERIOD` '{t:$t}'", false);
   ("ok-key-name", "jq -r --arg k `$KEYRING_KEY` '.data[$k]'", false);
   ("openssl-pass", "openssl enc -aes-256-cbc -pass `pass:$SEED` -in x", true);
   ("bao-write", "bao write auth/x/role/r secret_id=`$SECRET_ID`", true);
   ("bao-login", "bao login `$ROOT_TOKEN`", true);
   ("kubectl-patch", "kubectl patch secret s -p `{\`data\`:{\`v\`:\`$VALUE\`}}`", true);
   ("yaml-list-item", "                - curl -sS -H `X-Vault-Token: ${root}` `$A`", true);
   ("ok-header-file", "curl -sS -H `@$d/hdr` `$BAO/v1/x`", false);
   ("body-plain-name", "code=$(curl -sS -X POST -d `$body` `$BAO/v1/auth/jwt/login`)", true);
   ("kube-curl-body", "kube_curl -X POST --data-binary `$op_secret_body` `$KUBE_API/x`", true);
   ("ok-content-type", "curl -H `$CT` -H `Content-Type: application/json` x", false);
   ("ok-body-file", "curl --data-binary `@$d/body` x", false);
   ("ok-body-stdin", "printf '%s' `$body` | curl --data-binary @- x", false);
   ("ok-jq-rawfile", "jq -c --rawfile v `$d/value` '{v:$v}' cur.json", false);
   ("ok-jq-env", "V=`$VALUE` jq -n '{v: env.V}'", false);
   ("ok-jq-arg-name", "jq -r --arg k `$KEY` '.data[$k]'", false);
   ("ok-assign-prefix", "REDISCLI_AUTH=`$p` exec redis-cli --no-auth-warning PING", false);
   ("ok-env-name", "kubectl exec -i p -- env `SET_KEY=$KEY` sh -c `$S`", false);
   ("ok-url-assign", "export DSN=`postgres://app:${DB_PASSWORD}@db/app`", false);
   ("ok-from-file", "kubectl create secret generic s --from-file=k=/dev/stdin", false);
   ("ok-secret-version-literal", "kubectl create secret generic s --from-literal=lastProcessedVersion=`$CURRENT_VERSION`", false);
   ("ok-configmap-literal", "kubectl create configmap c --from-literal=Corefile=`$rewritten`", false);
   ("ok-comment", "# curl -H `X-Vault-Token: $VAULT_TOKEN` is what this replaced", false);
   ("ok-mkdir-p", "mkdir -p `$ROOT/x`", false)].

(** The finding repeats a line of the text. *)
Definition leaks (body g : string) : bool :=
  existsb (λ l, let l := strip l in (12 <? String.length l) && contains l g) (str_split body newline).

Definition case_ok (c : string * string * bool) : result bool :=
  let '(name, body, want) := c in
  let body := unquoted body in
  got <- scan_text name body ;;
  Ok (Bool.eqb (nonempty got) want && negb (existsb (leaks body) got)).

(** A rendered container with [$(SECRET_ENV)] in its args. *)
Definition RENDER : val :=
  VDict [("apiVersion", VStr "batch/v1"); ("kind", VStr "Job"); ("metadata", str_dict [("name", "j")]);
    ("spec", VDict [("template", VDict [("spec", VDict [("containers", VList [VDict
      [("name", VStr "c"); ("image", VStr "x");
       ("args", strs ["--token=$(API_TOKEN)"; "$(PLAIN)"; "$$(API_TOKEN)"]);
       ("env", VList [VDict [("name", VStr "API_TOKEN");
                             ("valueFrom", VDict [("secretKeyRef", str_dict [("name", "s"); ("key", "k")])])];
                      str_dict [("name", "PLAIN"); ("value", "x")]])]])])])])].
Definition render_ok : result bool :=
  '(got, pods) <- scan_render "render.yaml" [RENDER] ;; Ok ((length got =? 1) && (pods =? 1)).

(** A container of a values file that a subchart renders as it is. *)
Definition values (header : string) : string :=
  unquoted (cat
    ["zitadel:^  setupJob:^    extraContainers:^      - name: login-client-pat-store^";
     "        command: [bash, -ec]^        args:^          - |^";
     "            status=$(curl -sS -o /tmp/resp.json -w '%{http_code}' -X POST \^";
     "              "; header; " -H `Content-Type: application/json` \^";
     "              --data-binary @/tmp/body.json `$BAO_ADDR/v1/secret/data/$KEY`)^"]).
Definition values_ok (header : string) (want : bool) : result bool :=
  got <- scan_text "helm/gibson/values.yaml" (values header) ;; Ok (Bool.eqb (nonempty got) want).

Definition selftest : result Z :=
  cases <- mapR case_ok CASES ;;
  render <- render_ok ;;
  bad_header <- values_ok "-H `X-Vault-Token: $VAULT_TOKEN`" true ;;
  good_header <- values_ok "-H @/tmp/auth.hdr" false ;;
  Ok (if forallb id (cases ++ [render; bad_header; good_header]) then 0%Z else 1%Z).

Lemma nosecretargv_selftest : selftest = Ok 0%Z.
Proof. vm_compute. reflexivity. Qed.

(** ** scripts/check-no-secret-argv.py: the scan ends, sees nested shell text and repeats no secret *)

(** *** Each finding is a fixed label *)

Section labels.
Context (tainted : list string).

Lemma label_elem (b : bool) l x : x ∈ label b l → x = l.
Proof. unfold label. destruct b; set_solver. Qed.

Lemma env_words_elem l x : x ∈ env_words tainted l → x = L_ENV.
Proof.
  induction l as [|a l IH]; simpl; [set_solver|].
  repeat case_match; set_solver.
Qed.

Lemma bao_words_elem l x : x ∈ bao_words tainted l → x = L_BAO.
Proof.
  induction l as [|a l IH]; simpl; [set_solver|].
  repeat case_match; set_solver.
Qed.

Ltac in_labels :=
  repeat match goal with
  | H : _ ∈ _ ++ _ |- _ => apply elem_of_app in H as [H|H]
  | H : _ ∈ label _ _ |- _ => apply label_elem in H; subst
  | H : _ ∈ env_words _ _ |- _ => apply env_words_elem in H; subst
  | H : _ ∈ bao_words _ _ |- _ => apply bao_words_elem in H; subst
  | H : _ ∈ [] |- _ => apply not_elem_of_nil in H as []
  end; try (apply str_mem_elem; reflexivity).

Lemma rules_labels code first before word after x :
  x ∈ rules tainted code first before word after → x ∈ LABELS.
Proof.
  unfold rules. intros H. in_labels.
  - unfold rule_header in H. case_match; in_labels.
  - unfold rule_body in H. in_labels.
  - unfold rule_user in H. in_labels.
  - unfold rule_jq in H. repeat case_match; in_labels.
  - unfold rule_literal in H. case_match; in_labels.
  - unfold rule_env in H. case_match; in_labels.
  - unfold rule_password in H. in_labels.
  - unfold rule_tools in H. in_labels.
  - unfold rule_url in H. in_labels.
  - unfold rule_patch in H. in_labels.
Qed.

Lemma walk_elem code first before w x :
  x ∈ walk tainted code first before w ↔
  ∃ a word b, w = a ++ word :: b ∧ x ∈ rules tainted code first (rev a ++ before) word b.
Proof.
  revert before. induction w as [|word w IH]; intros before; simpl.
  - split; [set_solver|]. intros (a & word & b & E & _). by destruct a.
  - rewrite elem_of_app, IH. split.
    + intros [H|(a & y & b & -> & H)]; [by exists [], word, w|].
      exists (word :: a), y, b. split; [done|]. simpl. by rewrite <- app_assoc.
    + intros (a & y & b & E & H). destruct a as [|z a]; simplify_eq/=; [by left|right].
      exists a, y, b. split; [done|]. by rewrite <- app_assoc in H.
Qed.

Lemma first_occurrences_elem seen l x :
  x ∈ first_occurrences seen l ↔ x ∈ l ∧ x ∉ seen.
Proof.
  revert seen. induction l as [|y l IH]; intros seen; simpl; [set_solver|].
  destruct (str_mem y seen) eqn:E; rewrite ?elem_of_cons, IH.
  - apply str_mem_elem in E. set_solver.
  - apply str_mem_false in E. destruct (decide (x = y)); set_solver.
Qed.

Lemma first_occurrences_NoDup seen l : NoDup (first_occurrences seen l).
Proof.
  revert seen. induction l as [|y l IH]; intros seen; simpl; [constructor|].
  case_match; [done|]. constructor; [|done]. rewrite first_occurrences_elem. set_solver.
Qed.

Lemma own_findings_elem code x :
  x ∈ own_findings tainted code ↔
  words code ≠ [] ∧
  ((∃ a word b, words code = a ++ word :: b ∧
      x ∈ rules tainted code (hd "" (words code)) (rev a) word b) ∨
   x ∈ rule_bao tainted code).
Proof.
  unfold own_findings. destruct (words code) as [|first w] eqn:E; [set_solver|].
  rewrite first_occurrences_elem, elem_of_app, walk_elem. simpl.
  setoid_rewrite app_nil_r. set_solver.
Qed.

Lemma own_findings_labels code x : x ∈ own_findings tainted code → x ∈ LABELS.
Proof.
  rewrite own_findings_elem. intros [_ [(a & w & b & _ & H)|H]]; [by eapply rules_labels|].
  unfold rule_bao in H. case_match; in_labels.
Qed.
End labels.

(** *** The text inside a line is shorter than the line *)

Definition total (l : list string) : nat := sum_list_with String.length l.

Lemma total_elem x l : x ∈ l → String.length x ≤ total l.
Proof. apply sum_list_with_in. Qed.

Lemma substring_le n s : String.length (String.substring 0 n s) ≤ n.
Proof. revert s. induction n as [|n IH]; intros [|c s]; simpl; [lia..|]. specialize (IH s). lia. Qed.
Lemma drop_last_length s : String.length (drop_last s) ≤ String.length s - 1.
Proof. unfold drop_last, str_slice. etrans; [apply substring_le|lia]. Qed.

Lemma strip_comment_length q depth prev s :
  String.length (strip_comment_from q depth prev s) ≤ String.length s.
Proof.
  revert q depth prev. induction s as [|c s IH]; intros q depth prev; simpl; [lia|].
  repeat (case_match; simpl; try lia; try (apply le_n_S, IH)).
Qed.

Lemma rstrip_length f s : String.length (rstrip_of f s) ≤ String.length s.
Proof. induction s as [|c s IH]; simpl; [lia|]. repeat case_match; simpl in *; lia. Qed.

Lemma endswith_length s p : endswith s p = true → String.length p ≤ String.length s.
Proof. intros [t ->]%endswith_true. rewrite append_length. lia. Qed.

Lemma logical_from_length n start buf raws m c :
  (m, c) ∈ logical_from n start buf raws → String.length c ≤ String.length buf + total raws.
Proof.
  revert n start buf. induction raws as [|raw raws IH]; intros n start buf; cbn [logical_from].
  - case_match; [set_solver|]. intros [= -> ->]%list_elem_of_singleton. lia.
  - unfold total. cbn [sum_list_with]. fold (total raws).
    pose proof (rstrip_length is_space raw) as Hr.
    destruct (continues _) eqn:E.
    + intros H%IH. apply andb_true in E as [E _]. apply endswith_length in E.
      rewrite !append_length in H. cbn [String.length] in *.
      pose proof (strip_comment_length None 0 None (drop_last (rstrip_of is_space raw))) as Hs.
      pose proof (drop_last_length (rstrip_of is_space raw)).
      unfold strip_comment, drop_last in *. lia.
    + intros [[= -> ->]|H%IH]%elem_of_cons.
      * unfold strip_comment. etrans; [apply strip_comment_length|]. rewrite append_length. lia.
      * cbn [String.length] in H. lia.
Qed.

Lemma splitn_total n sep s : total (str_splitn n sep s) ≤ String.length s.
Proof.
  revert s. induction n as [|n IH]; intros s; cbn [str_splitn]; [unfold total; simpl; lia|].
  destruct (split1 sep s) as [[a b]|] eqn:E; [|unfold total; simpl; lia].
  apply split1_Some in E as ->. rewrite !append_length. specialize (IH b).
  unfold total in *. simpl. lia.
Qed.

Lemma logical_lines_length text m c : (m, c) ∈ logical_lines text → String.length c ≤ String.length text.
Proof. intros H%logical_from_length. pose proof (splitn_total (String.length text) newline text). simpl in H. unfold str_split in H. lia. Qed.

Lemma flush_total cur has : total (flush cur has) ≤ String.length cur.
Proof. unfold flush, total. case_match; simpl; lia. Qed.

Lemma total_app a b : total (a ++ b) = total a + total b.
Proof. apply sum_list_with_app. Qed.

Lemma words_from_total cur has q depth s :
  total (words_from cur has q depth s) ≤ String.length cur + String.length s.
Proof.
  revert cur has q depth. induction s as [s IH] using (induction_ltof1 _ String.length).
  unfold ltof in IH.
  intros cur has q depth. destruct s as [|c s]; cbn [words_from]; [pose proof (flush_total cur has); simpl; lia|].
  assert (∀ t cur has q depth, String.length t ≤ String.length s →
            total (words_from cur has q depth t) ≤ String.length cur + String.length t) as IH'.
  { intros t ? ? ? ? Ht. apply IH. simpl. lia. }
  assert (∀ cur, String.length (snoc cur c) = S (String.length cur)) as Hsnoc.
  { intros x. unfold snoc. rewrite append_length. simpl. lia. }
  clear IH. pose proof (flush_total cur has) as Hf.
  assert (∀ t, String.length (String t "") = 1) as H1 by done.
  repeat case_match; rewrite ?total_app; unfold total in Hf |- *; cbn [sum_list_with String.length] in *; fold (total (flush cur has)) in *;
    repeat match goal with
    | |- context [words_from ?c ?h ?q ?d ?t] =>
        pose proof (IH' t c h q d ltac:(simpl; lia)); generalize dependent (words_from c h q d t); intros
    end; rewrite ?append_length, ?Hsnoc in *; unfold total in *; cbn [String.length] in *; lia.
Qed.

Lemma balanced_length depth s a b :
  balanced depth s = (a, b) → String.length a + String.length b = String.length s.
Proof.
  revert depth a b. induction s as [|c s IH]; intros [|d] a b; cbn [balanced]; try (intros [= <- <-]; simpl; lia).
  destruct (balanced _ s) as [a' b'] eqn:E. intros [= <- <-]. apply IH in E. simpl. lia.
Qed.

Lemma substitutions_shorter n code t : t ∈ substitutions_from n code → String.length t < String.length code.
Proof.
  revert code. induction n as [|n IH]; intros code; cbn [substitutions_from]; [set_solver|].
  destruct (split1 "$(" code) as [[x rest]|] eqn:E; [|set_solver].
  apply split1_Some in E as ->. destruct (balanced 1 rest) as [a b] eqn:E.
  apply balanced_length in E. rewrite !append_length. cbn [String.length].
  intros [->|H%IH]%elem_of_cons; [pose proof (drop_last_length a)|]; lia.
Qed.

Lemma scripts_shorter w t : t ∈ scripts_of w → String.length t < total w.
Proof.
  induction w as [|shell w IH]; [set_solver|]. destruct w as [|opt [|script w]]; [set_solver..|].
  cbn [scripts_of] in *. rewrite elem_of_app. unfold total in *. cbn [sum_list_with] in *.
  intros [H|H%IH]; [|lia].
  case_match; [|set_solver].
  apply list_elem_of_fmap in H as ([m c] & -> & H%logical_lines_length). simpl.
  match goal with E : _ && _ = true |- _ => apply andb_true in E as [E _]; apply str_mem_elem in E end.
  assert (0 < String.length opt) by (destruct opt; [set_solver|simpl; lia]). lia.
Qed.

Lemma inner_shorter code t : t ∈ inner code → String.length t < String.length code.
Proof.
  intros [H|H]%elem_of_app; [by eapply substitutions_shorter|].
  apply scripts_shorter in H. pose proof (words_from_total "" false None 0 code). simpl in *. unfold words in H. lia.
Qed.

(** *** The findings of a line are those of the shell text nested in it *)

Inductive nested : string → string → Prop :=
  | nested_self code : nested code code
  | nested_inner code t u : t ∈ inner code → nested t u → nested code u.

Section nested_findings.
Context (tainted : list string).

Let step n := λ out text,
  l <- line_findings tainted n text ;; Ok (out ++ List.filter (λ x, negb (str_mem x out)) l).

Lemma new_elem (out l : list string) x :
  x ∈ out ++ List.filter (λ x, negb (str_mem x out)) l ↔ x ∈ out ∨ x ∈ l.
Proof.
  rewrite elem_of_app, !list_elem_of_In, filter_In, <- !list_elem_of_In, negb_true_iff, str_mem_false.
  destruct (decide (x ∈ out)); tauto.
Qed.

Lemma collect n texts out :
  (∀ t, t ∈ texts → ∃ l, line_findings tainted n t = Ok l) →
  ∃ out', foldM (step n) out texts = Ok out' ∧
    ∀ x, x ∈ out' ↔ x ∈ out ∨ ∃ t l, t ∈ texts ∧ line_findings tainted n t = Ok l ∧ x ∈ l.
Proof.
  revert out. induction texts as [|t texts IH]; intros out H; simpl; [exists out; set_solver|].
  destruct (H t) as [l E]; [left|]. 
  change (step n out t) with (l <- line_findings tainted n t ;; Ok (out ++ List.filter (λ x, negb (str_mem x out)) l)).
  rewrite E. simpl.
  destruct (IH (out ++ List.filter (λ x, negb (str_mem x out)) l)) as (out' & -> & Hout).
  { intros. apply H. by right. }
  exists out'. split; [done|]. intros x. rewrite Hout, new_elem. split.
  - intros [[?|?]|(u & k & ? & ? & ?)]; [by left|right; exists t, l; set_solver|right; exists u, k; set_solver].
  - intros [?|(u & k & Hu & Eu & ?)]; [tauto|]. apply elem_of_cons in Hu as [->|Hu]; [|right; by exists u, k].
    rewrite E in Eu. injection Eu as <-. tauto.
Qed.

Lemma line_findings_enough n code : String.length code < n →
  ∃ l, line_findings tainted n code = Ok l ∧
    ∀ x, x ∈ l ↔ ∃ t, nested code t ∧ x ∈ own_findings tainted t.
Proof.
  revert code. induction n as [|n IH]; intros code Hn; [lia|]. cbn [line_findings].
  assert (∀ t, t ∈ inner code → String.length t < n) as Hin by (intros t Ht%inner_shorter; lia).
  destruct (collect n (inner code) (own_findings tainted code)) as (l & E & Hl).
  { intros t Ht. destruct (IH t) as (k & ? & _); eauto. }
  exists l. split; [exact E|]. intros x. rewrite Hl. split.
  - intros [H|(t & k & Ht & Ek & Hx)]; [exists code; split; [constructor|done]|].
    destruct (IH t) as (k' & Ek' & Hk); [auto|]. rewrite Ek in Ek'. injection Ek' as <-. apply Hk in Hx as (u & ? & ?).
    exists u. split; [by econstructor|done].
  - intros (u & Hu & Hx). inversion Hu as [|? t ? Ht Hn']; subst; [by left|right].
    destruct (IH t) as (k & Ek & Hk); [auto|]. exists t, k. split_and!; [done..|]. apply Hk. eauto.
Qed.
End nested_findings.

Definition finding_of (path : string) (n : nat) (l : string) : string := cat [path; ":"; num n; ": "; l].

Lemma scan_text_spec path text :
  ∃ l, scan_text path text = Ok l ∧
    ∀ f, f ∈ l ↔ ∃ n code t x, (n, code) ∈ logical_lines text ∧ nested code t ∧
      x ∈ own_findings (taint (logical_lines text)) t ∧ f = finding_of path n x.
Proof.
  unfold scan_text. cbv zeta. generalize (taint (logical_lines text)) as tainted. intros tainted.
  assert (yields (flatM (λ nc, l <- line_findings tainted (S (String.length nc.2)) nc.2 ;;
                               Ok (map (finding_of path nc.1) l)) (logical_lines text))
            (λ f, ∃ nc, nc ∈ logical_lines text ∧ ∃ t x, nested nc.2 t ∧
                x ∈ own_findings tainted t ∧ f = finding_of path nc.1 x)) as (l & E & Hl).
  { apply yields_flatM. intros [n code] _. cbn [fst snd].
    destruct (line_findings_enough tainted (S (String.length code)) code) as (k & -> & Hk); [lia|].
    exists (map (finding_of path n) k). split; [done|]. intros f. cbn [fst snd]. rewrite list_elem_of_fmap.
    setoid_rewrite Hk. naive_solver. }
  exists l. split; [exact E|]. intros f. rewrite Hl. split.
  - intros ([n c] & ? & t & x & ? & ? & ->). by exists n, c, t, x.
  - intros (n & c & t & x & ? & ? & ? & ->). exists (n, c). split; [done|]. by exists t, x.
Qed.

(** *** What a clean text does not hold *)

Section exposed.
Context (tainted : list string).

(** Some ways to give a secret to a process on its argv: each asks for a word
    and what follows it in one command line. *)
Inductive exposed (code : string) : Prop :=
  (** a credential header, not read from a file *)
  | exposed_header a o hdr b :
      words code = a ++ o :: hdr :: b → o ∈ ["-H"; "--header"] →
      contains "$" hdr = true → startswith hdr "@" = false →
      is_Some (re_match CRED_HEADER hdr) ∨ (∃ v, v ∈ vars_of hdr ∧ (v ∈ tainted ∨ sensitive_by_name v = true)) →
      exposed code
  (** a request body of curl, not read from a file *)
  | exposed_body a o body b :
      words code = a ++ o :: body :: b → o ∈ DATA_OPTS → is_curl code = true →
      contains "$" body = true → startswith body "@" = false → re_match at_file body = None → exposed code
  (** the password of a user of curl *)
  | exposed_user a o user pw b :
      words code = a ++ o :: (user +:+ ":" +:+ pw) :: b → o ∈ ["-u"; "--user"] → is_curl code = true →
      contains ":" user = false → contains "$" pw = true → exposed code
  (** the value of an option for a password *)
  | exposed_password a o v b :
      words code = a ++ o :: v :: b → o ∈ PW_OPTS → contains "$" v = true → exposed code
  (** an assignment of the program env, after its options and assignments of
      names and values that are not secret *)
  | exposed_env a opts name val b :
      words code = a ++ "env" :: opts ++ (name +:+ "=" +:+ val) :: b →
      (a = [] ∨ ∃ a' w, a = a' ++ [w] ∧ w ∈ [";"; "|"; "&"; "("; "--"; "exec"; "then"; "do"; "!"]) →
      (∀ w, w ∈ opts → is_Some (re_match ASSIGN_WORD w) ∨ startswith w "-" = true) →
      contains "=" name = false → is_Some (re_match ASSIGN_WORD (name +:+ "=" +:+ val)) →
      contains "$" val = true → name ∈ tainted ∨ sensitive_by_name name = true → exposed code.

Lemma found_at code a word b x :
  words code = a ++ word :: b →
  x ∈ rules tainted code (hd "" (words code)) (rev a) word b → ∃ x, x ∈ own_findings tainted code.
Proof.
  intros E H. exists x. apply own_findings_elem. split; [rewrite E; by destruct a|]. left. by exists a, word, b.
Qed.

Lemma label_true (b : bool) l : b = true → l ∈ label b l.
Proof. intros ->. left. Qed.

Lemma sensitive_name_true v : sensitive_name tainted v = true ↔ v ∈ tainted ∨ sensitive_by_name v = true.
Proof. unfold sensitive_name. by rewrite orb_true_iff, str_mem_elem. Qed.
Lemma sensitive_word_true w :
  sensitive_word tainted w = true ↔ ∃ v, v ∈ vars_of w ∧ (v ∈ tainted ∨ sensitive_by_name v = true).
Proof. unfold sensitive_word. rewrite existsb_elem_of. by setoid_rewrite sensitive_name_true. Qed.
Lemma matches_true r s : matches r s = true ↔ is_Some (re_match r s).
Proof. unfold matches. destruct (re_match r s); [by split; eauto|]. split; [done|by intros [? ?]]. Qed.
Lemma matches_false r s : matches r s = false ↔ re_match r s = None.
Proof. unfold matches. by destruct (re_match r s). Qed.

Lemma env_words_found opts name val b :
  (∀ w, w ∈ opts → is_Some (re_match ASSIGN_WORD w) ∨ startswith w "-" = true) →
  contains "=" name = false → is_Some (re_match ASSIGN_WORD (name +:+ "=" +:+ val)) →
  contains "$" val = true → sensitive_name tainted name = true →
  L_ENV ∈ env_words tainted (opts ++ (name +:+ "=" +:+ val) :: b).
Proof.
  intros Hopts Hname Hmatch Hval Hs. induction opts as [|w opts IH]; cbn [app env_words].
  - apply matches_true in Hmatch. rewrite Hmatch. unfold name_value, expands.
    cbn [negb]. rewrite split1_app by done. rewrite Hval, Hs. left.
  - assert (L_ENV ∈ env_words tainted (opts ++ (name +:+ "=" +:+ val) :: b)) as IH'
      by (apply IH; intros; apply Hopts; by right).
    destruct (Hopts w) as [H|H]; [left| |].
    + apply matches_true in H. rewrite H. cbn [negb]. destruct (name_value w). case_match; [left|done].
    + rewrite H. case_match; [done|]. destruct (name_value w). case_match; [left|done].
Qed.

Lemma exposed_found code : exposed code → ∃ x, x ∈ own_findings tainted code.
Proof.
  intros [a o hdr b E Ho Hd Ha Hc|a o body b E Ho Hcurl Hd Ha Hf|a o user pw b E Ho Hcurl Hu Hd
         |a o v b E Ho Hd|a opts name val b E Hb Hopts Hn Hm Hd Hs].
  - eapply (found_at _ _ _ _ L_HEADER); [done|]. unfold rules, rule_header, header_of. cbn [hd].
    apply str_mem_elem in Ho. rewrite Ho. apply elem_of_app. left. apply label_true.
    unfold bad_header, expands. rewrite Hd, Ha. cbn. rewrite orb_true_iff, matches_true, sensitive_word_true. done.
  - eapply (found_at _ _ _ _ L_BODY); [done|]. unfold rules, rule_body. cbn [hd]. rewrite !elem_of_app. right. left. left.
    apply label_true. apply str_mem_elem in Ho. apply matches_false in Hf. unfold expands.
    by rewrite Ho, Hcurl, Hd, Ha, Hf.
  - eapply (found_at _ _ _ _ L_USER); [done|]. unfold rules, rule_user. cbn [hd]. rewrite !elem_of_app. do 2 right. left.
    apply label_true. apply str_mem_elem in Ho. unfold expands. by rewrite Ho, Hcurl, split1_app, Hd.
  - eapply (found_at _ _ _ _ L_PASSWORD); [done|]. unfold rules, rule_password. cbn [hd]. rewrite !elem_of_app. do 6 right. do 2 left.
    apply label_true. apply str_mem_elem in Ho. unfold expands. by rewrite Ho, Hd.
  - eapply (found_at _ _ _ _ L_ENV); [done|]. unfold rules, rule_env. rewrite !elem_of_app. do 5 right. left.
    rewrite str_eqb_refl. apply sensitive_name_true in Hs.
    assert (match rev a with [] => true
      | w :: _ => str_mem w [";"; "|"; "&"; "("; "--"; "exec"; "then"; "do"; "!"] end = true) as ->.
    { destruct Hb as [->|(a' & w & -> & Hw)]; [done|]. rewrite rev_app_distr. by apply str_mem_elem. }
    by apply env_words_found.
Qed.
End exposed.

(** *** The properties of the scan *)

(** The scan of any text ends without an error, whatever the depth of the
    command substitutions and scripts of [sh -c] in it, and it reports exactly
    the findings of each logical line and of each text nested in it. *)
Theorem scan_text_reads_nested_text path text :
  ∃ l, scan_text path text = Ok l ∧
    ∀ f, f ∈ l ↔ ∃ n code t x, (n, code) ∈ logical_lines text ∧ nested code t ∧
      x ∈ own_findings (taint (logical_lines text)) t ∧ f = finding_of path n x.
Proof. apply scan_text_spec. Qed.

(** A finding never repeats the text it is about: it is the path, the
    number of a line, and one of the fixed labels. *)
Theorem findings_repeat_no_text path text l f :
  scan_text path text = Ok l → f ∈ l →
  ∃ n x, n ∈ (logical_lines text).*1 ∧ x ∈ LABELS ∧ f = finding_of path n x.
Proof.
  intros E Hf. destruct (scan_text_spec path text) as (l' & E' & Hl). rewrite E in E'. injection E' as <-.
  apply Hl in Hf as (n & code & t & x & Hn & _ & Hx%own_findings_labels & ->).
  exists n, x. split_and!; [|done..]. apply list_elem_of_fmap. by exists (n, code).
Qed.

Lemma findings_repeat_no_text_witness :
  ∃ f, scan_text "a.sh" "x=$(curl --token $T)" = Ok [f] ∧
    ∃ n x, n ∈ (logical_lines "x=$(curl --token $T)").*1 ∧ x ∈ LABELS ∧ f = finding_of "a.sh" n x.
Proof.
  exists "a.sh:1: a secret after a password option on the argv".
  assert (scan_text "a.sh" "x=$(curl --token $T)"
          = Ok ["a.sh:1: a secret after a password option on the argv"]) as E by (vm_compute; reflexivity).
  split; [exact E|]. apply (findings_repeat_no_text _ _ _ _ E). left.
Defined.



(** *** Rendered pods *)

Definition is_identifier (s : string) : bool :=
  match s with "" => false | String c t => name_start c && str_forallb name_char t end.

Lemma step_identifier p s q :
  step identifier (p, s) q → ∃ name, s = name +:+ q.2 ∧ is_identifier name = true.
Proof.
  unfold identifier. rewrite step_cat_iff. intros (r & H1 & H2).
  apply step_chr_iff in H1 as (c & t & -> & Hc & ->).
  apply step_star_iff in H2 as (u & -> & Hu). exists (String c u). cbn. by rewrite Hc, Hu.
Qed.

Lemma expansion_match before p s m :
  match_at EXPANSION before p s = Some m →
  ∃ name v, s = "$(" +:+ name +:+ ")" +:+ v ∧ is_identifier name = true ∧
    group_text m 1 = name ∧ f_after m = v.
Proof.
  unfold match_at, EXPANSION. cbn [RSeq]. rewrite rmatch_cat. intros H.
  apply rmatch_sound in H as ([p1 s1 g1] & H1 & H).
  apply step_assertion in H1; [|done]. injection H1 as <- <-. cbn [core prev rest] in *.
  rewrite rmatch_cat in H. apply rmatch_sound in H as ([p2 s2 g2] & H2 & H).
  apply step_str_iff in H2. cbn [core prev rest snd] in *.
  rewrite rmatch_cat, rmatch_group in H.
  apply rmatch_sound in H as ([p3 s3 g3] & H3 & H). apply step_identifier in H3 as (name & H3 & Hn).
  cbn [core prev rest snd groups] in *. subst. rewrite consumed_app in H.
  cbn [RStr RLit rmatch rest prev groups] in H. destruct s3 as [|c v]; [done|].
  destruct (Ascii.eqb ")" c) eqn:Ec; [|done]. apply Ascii.eqb_eq in Ec as <-.
  cbn [rest prev groups] in H. injection H as <-. by exists name, v.
Qed.

Lemma identifier_step p name v :
  is_identifier name = true → ∃ q, step identifier (p, name +:+ v) (q, v).
Proof.
  destruct name as [|c t]; [done|]. cbn [is_identifier]. intros [Hc Ht]%andb_true_iff.
  destruct (step_star name_char t (Some c) v Ht) as [q Hq]. exists q.
  econstructor; [by apply step_chr|exact Hq].
Qed.

Lemma expansion_step p name v :
  p ≠ Some "$"%char → is_identifier name = true →
  ∃ q, step EXPANSION (p, "$(" +:+ name +:+ ")" +:+ v) (q, v).
Proof.
  intros Hp Hn. destruct (step_str "$(" p (name +:+ ")" +:+ v)) as [p1 H1].
  destruct (identifier_step p1 name (")" +:+ v) Hn) as [p2 H2].
  destruct (step_str ")" p2 v) as [p3 H3]. exists p3. unfold EXPANSION. cbn [RSeq].
  econstructor; [|econstructor; [exact H1|econstructor; [by constructor|exact H3]]].
  constructor. cbn [assertion]. destruct p as [d|]; [|done]. cbn [is_none_or].
  rewrite (proj2 (Ascii.eqb_neq "$" d)) by congruence. done.
Qed.

Lemma step_EXPANSION_iff p s q :
  step EXPANSION (p, s) q → ∃ name, s = "$(" +:+ name +:+ ")" +:+ q.2 ∧ is_identifier name = true.
Proof.
  unfold EXPANSION. cbn [RSeq]. rewrite step_cat_iff. intros (p1 & H1 & H).
  apply step_assertion in H1 as <-; [|done].
  apply step_cat_iff in H as ([p2 s2] & H2%step_str_iff & H).
  apply step_cat_iff in H as ([p3 s3] & H3 & H%step_str_iff).
  inversion H3; subst; [|done].
  match goal with H : step identifier _ _ |- _ => apply step_identifier in H as (name & -> & Hn) end.
  cbn [snd] in *. subst. by exists name.
Qed.

Lemma identifier_chars name c :
  is_identifier name = true → name_char c = false → contains (String c "") name = false.
Proof.
  assert (∀ s, str_forallb name_char s = true → name_char c = false → contains (String c "") s = false) as Hs.
  { intros s. induction s as [|d s IH]; [done|]. cbn [str_forallb contains]. intros [Hd Ht]%andb_true_iff Hc.
    rewrite IH by done. rewrite orb_false_r. unfold startswith. cbn.
    destruct (Ascii.eqb c d) eqn:E; [|done]. apply Ascii.eqb_eq in E. congruence. }
  intros H. apply Hs. destruct name as [|d t]; [done|]. cbn [is_identifier] in H. cbn [str_forallb].
  apply andb_true_iff in H as [Hd ->]. unfold name_char. by rewrite Hd.
Qed.

Lemma contains_char_app (c : ascii) a b :
  contains (String c "") (a +:+ b) = contains (String c "") a || contains (String c "") b.
Proof.
  induction a as [|d a IH]; [done|]. change (String d a +:+ b) with (String d (a +:+ b)). cbn [contains]. rewrite IH, orb_assoc. f_equal.
  unfold startswith. cbn. by destruct (Ascii.eqb c d).
Qed.

(** Two expansions at one position have one name. *)
Lemma expansion_unique name v name' v' :
  is_identifier name = true → is_identifier name' = true →
  name +:+ ")" +:+ v = name' +:+ ")" +:+ v' → name = name'.
Proof.
  intros Hn Hn' E. apply (f_equal (split1 ")")) in E.
  rewrite !split1_app in E by (by apply identifier_chars). by injection E.
Qed.

(** No expansion starts inside another. *)
Lemma no_dollar_inside name v u w :
  is_identifier name = true → "(" +:+ name +:+ ")" +:+ v = u +:+ "$" +:+ w → String.length w < String.length v.
Proof.
  intros Hn E. assert (contains "$" ("(" +:+ name +:+ ")") = false) as Hd.
  { rewrite !(contains_char_app "$"). by rewrite (identifier_chars name "$" Hn eq_refl). }
  rewrite <- append_assoc, <- append_assoc in E.
  assert (∀ a, contains "$" a = false → a +:+ v = u +:+ "$" +:+ w → String.length w < String.length v) as H.
  { clear. intros a. revert u. induction a as [|c a IH]; intros u Ha E.
    - change (v = u +:+ "$" +:+ w) in E. rewrite E, !append_length. simpl. lia.
    - cbn [contains] in Ha. apply orb_false_iff in Ha as [Hc Ha]. destruct u as [|d u]; injection E as -> E; [done|].
      by apply (IH u). }
  eapply H; [exact Hd|]. cbn in *. exact E.
Qed.

Lemma suffix_after u p t c :
  endswith (u) (String c "") = false → (u = "" → p ≠ Some c) →
  ∃ q, suffix_of (p, u +:+ t) (q, t) ∧ q ≠ Some c.
Proof.
  revert p. induction u as [|d u IH]; intros p Hu Hp; [exists p; split; [constructor|auto]|].
  cbn [endswith] in Hu. apply orb_false_iff in Hu as [Hd Hu].
  destruct (IH (Some d) Hu) as (q & ? & ?).
  - intros -> [= ->]. by rewrite str_eqb_refl in Hd.
  - exists q. split; [by apply suffix_next|done].
Qed.

Lemma expansions_complete u name v :
  endswith u "$" = false → is_identifier name = true → name ∈ expansions (u +:+ "$(" +:+ name +:+ ")" +:+ v).
Proof.
  intros Hu Hn. set (t := "$(" +:+ name +:+ ")" +:+ v).
  destruct (suffix_after u None t "$" Hu) as (p & Hp & Hd); [done|].
  destruct (expansion_step p name v Hd Hn) as [q Hq]. fold t in Hq.
  destruct (finditer_covers EXPANSION (String.length (u +:+ t)) None (u +:+ t) (p, t) (q, v))
    as (m & before & [p' s'] & Hm & Hat & Hs & Hl); [|done..|].
  { intros [x1 x2] y Hy. apply step_EXPANSION_iff in Hy as (n & -> & _). cbn [snd]. rewrite !append_length. simpl. lia. }
  apply list_elem_of_fmap. exists m. split; [|exact Hm].
  apply expansion_match in Hat as (name' & v' & E & Hn' & Hg & Hv). rewrite Hg. cbn [snd] in *. subst s' v'.
  apply suffix_of_app in Hs as [w Hw]. destruct w as [|c w].
  - unfold t in Hw. injection Hw as Hw. symmetry in Hw. by apply expansion_unique in Hw.
  - exfalso. injection Hw as <- Hw. unfold t in *.
    change ("(" +:+ name' +:+ ")" +:+ f_after m = w +:+ "$" +:+ "(" +:+ name +:+ ")" +:+ v) in Hw.
    apply no_dollar_inside in Hw; [|done]. rewrite !append_length in *. simpl in *. lia.
Qed.

(** The container [c] is in a pod of the document [d]. *)
Definition pod_container (d c : val) : Prop :=
  ∃ specs spec cs, pod_specs d = Ok specs ∧ spec ∈ specs ∧ containers_of spec = Ok cs ∧ c ∈ cs.

(** The env entry [name] of [c] reads a key of a Secret. *)
Definition env_reads_secret (c : val) (name : string) : Prop :=
  ∃ env e, get_list c "env" = Ok env ∧ e ∈ env ∧ reads_secret e = Ok true ∧ fld e "name" = VStr name.

(** The text [$(name)] is in [a], and no dollar sign is before it. *)
Definition expands_name (a name : string) : Prop :=
  ∃ u v, a = u +:+ "$(" +:+ name +:+ ")" +:+ v ∧ endswith u "$" = false ∧ is_identifier name = true.

Lemma secret_env_elem c l name : secret_env c = Ok l → env_reads_secret c name → VStr name ∈ l.
Proof.
  unfold secret_env. intros H (env & e & Henv & He & Hr & Hname). ok_inv.
  rewrite Henv in E. injection E as <-. apply (flatM_elem _ _ _ H).
  destruct (flatM_Ok_elem _ _ _ _ H He) as [r Hx]. exists e, r. split_and!; [done..|].
  rewrite Hr in Hx. cbn in Hx. apply bind_Ok in Hx as (n & En%item_fld & ->%set_of_Ok).
  rewrite En, Hname. left.
Qed.

Lemma container_findings_nil path d c argv a name :
  container_findings path d c = Ok [] → env_reads_secret c name →
  argv_of c = Ok argv → a ∈ argv → expands_name a name → False.
Proof.
  unfold container_findings. intros H Hs Hargv Ha (u & v & -> & Hu & Hn).
  apply bind_Ok in H as (l & El & H). apply (secret_env_elem _ _ _ El) in Hs.
  apply bind_Ok in H as (argv' & Ea & H). rewrite Hargv in Ea. injection Ea as <-.
  rewrite flatM_nil in H. specialize (H name).
  assert (existsb (py_eq (VStr name)) l = true) as Hl by (by apply existsb_py_eq_str).
  rewrite Hl in H. apply bind_Ok in H as (k & _ & H); [by ok_inv|].
  apply elem_of_concat. exists (expansions (u +:+ "$(" +:+ name +:+ ")" +:+ v)).
  split; [by apply list_elem_of_fmap_2|by apply expansions_complete].
Qed.

Lemma doc_findings_nil path d n c :
  doc_findings path d = Ok ([], n) → is_dict d = true → in_set (fld d "kind") POD_KINDS = Ok true →
  pod_container d c → container_findings path d c = Ok [].
Proof.
  unfold doc_findings. intros H Hd Hk (specs & spec & cs & Hspecs & Hspec & Hcs & Hc).
  rewrite Hd in H. cbn [negb] in H. apply bind_Ok in H as (k & ->%get_Ok & H). rewrite Hk in H.
  cbn [rbind negb] in H. rewrite Hspecs in H. cbn [rbind] in H. apply bind_Ok in H as (out & H & E).
  injection E as -> _. rewrite flatM_nil in H. specialize (H _ Hspec). cbn in H. rewrite Hcs in H.
  cbn [rbind] in H. rewrite flatM_nil in H. by apply H.
Qed.

Lemma scan_render_nil path docs n d :
  scan_render path docs = Ok ([], n) → d ∈ docs → ∃ m, doc_findings path d = Ok ([], m).
Proof.
  unfold scan_render. generalize ([] : list string, 0) at 1 as acc. revert n.
  induction docs as [|e docs IH]; intros n acc H Hd; [by apply elem_of_nil in Hd|].
  cbn [foldM] in H. apply bind_Ok in H as (acc' & Hacc & H). apply bind_Ok in Hacc as ([out m] & He & [= <-]).
  apply elem_of_cons in Hd as [->|Hd]; [|by eapply IH].
  enough (acc.1 ++ out = []) as [_ ->]%app_eq_nil by eauto.
  destruct (decide (acc.1 ++ out = [])) as [|Hne]; [done|exfalso].
  enough ((@nil string, n).1 ≠ []) by done. eapply (foldM_inv (λ s, s.1 ≠ [])); [|clear H; clear|exact H]; [exact Hne|].
  cbn. intros s x t _ Hs (r & _ & [= <-])%bind_Ok. cbn. by intros [? _]%app_eq_nil.
Qed.

(** When a rendered document has no finding, no word of the command or
    args of a container of its pods expands, by a [$(NAME)] that is not
    escaped, an env variable that reads a Secret. *)
Theorem clean_render_expands_no_secret path docs n d c argv a name :
  scan_render path docs = Ok ([], n) → d ∈ docs → is_dict d = true →
  in_set (fld d "kind") POD_KINDS = Ok true → pod_container d c →
  argv_of c = Ok argv → a ∈ argv → expands_name a name → ¬ env_reads_secret c name.
Proof.
  intros H Hd Hdict Hk Hc Hargv Ha Hx Hs. destruct (scan_render_nil _ _ _ _ H Hd) as [m Hm].
  eapply container_findings_nil; [by eapply doc_findings_nil|done..].
Qed.

Definition clean_container : val :=
  VDict [("name", VStr "c"); ("args", strs ["--user=$(NAME)"]);
         ("env", VList [str_dict [("name", "NAME"); ("value", "x")]])].
Definition clean_pod : val :=
  VDict [("kind", VStr "Pod"); ("metadata", str_dict [("name", "p")]);
         ("spec", VDict [("containers", VList [clean_container])])].

Lemma clean_render_expands_no_secret_witness :
  scan_render "r.yaml" [clean_pod] = Ok ([], 1) ∧ expands_name "--user=$(NAME)" "NAME" ∧
  ¬ env_reads_secret clean_container "NAME".
Proof.
  assert (scan_render "r.yaml" [clean_pod] = Ok ([], 1)) as E by (vm_compute; reflexivity).
  assert (expands_name "--user=$(NAME)" "NAME") as Hx by (by exists "--user=", "").
  split_and!; [exact E|exact Hx|].
  apply (clean_render_expands_no_secret "r.yaml" [clean_pod] 1 clean_pod clean_container
           ["--user=$(NAME)"] "--user=$(NAME)" "NAME" E); [left|done|vm_compute; reflexivity| |vm_compute; reflexivity|left|exact Hx].
  exists [VDict [("containers", VList [clean_container])]], (VDict [("containers", VList [clean_container])]), [clean_container].
  split_and!; [vm_compute; reflexivity|left|vm_compute; reflexivity|left].
Defined.

(** The kubelet reads two dollar signs as one and goes on, so it expands the
    name in [$$$(NAME)]; the pattern of the guard sees an escape there. *)
Fact triple_dollar_is_not_seen : expansions "$$$(TOKEN)" = [].
Proof. vm_compute. reflexivity. Qed.
