(* ===== verification/ValuesConsumed.v ===== *)
(** * scripts/check-values-consumed.py: no values key that no template reads

    The guard collects the value references of the template text of each chart
    as dotted chains, and asks that a chain consumes each key of values.yaml.
    A chart is its name, its Chart.yaml, its template files and its values; the
    walk over the files is I/O. *)
From S2P Require Import Prelude PyStr PyVal Regex.
From Stdlib Require Import Ascii.

Definition LIB_CHART : string := "gibson-common".

(** ** The patterns *)

Definition seg_start (c : ascii) : bool := is_alpha c || Ascii.eqb c "_".
Definition seg_char (c : ascii) : bool := seg_start c || is_digit c || Ascii.eqb c "-".
Definition SEG : regex := RCat (RChr seg_start) (RStar (RChr seg_char)).
(** One or more [.SEG] *)
Definition dotted : regex := RPlus (RCat (RStr ".") SEG).
Definition spaces1 : regex := RPlus (RChr is_space).
Definition in_dquotes (n : nat) : regex := RSeq [RLit dquote; RGroup n (RPlus (RChr (λ c, negb (Ascii.eqb c dquote)))); RLit dquote].
Definition values_ref : regex := RCat (ROpt (RStr "$")) (RStr ".Values").

Definition CHAIN : regex := RSeq [RStr ".Values"; RGroup 1 dotted].
(** [index .Values "a" "b"], with the names in group 1 *)
Definition quoted_name : regex := RSeq [RLit dquote; RPlus (RChr (λ c, negb (Ascii.eqb c dquote))); RLit dquote].
Definition INDEXED : regex :=
  RSeq [RStr "index"; spaces1; values_ref; spaces1; RGroup 1 (RPlus (RCat quoted_name RSpaces))].
Definition FREEFORM : regex :=
  RSeq [RAlt RBegin (RStr ".");
        ROneOf (map RStr ["annotations"; "labels"; "podAnnotations"; "podLabels"; "commonAnnotations"; "commonLabels";
                          "nodeSelector"; "extraEnv"; "extraArgs"; "extraVolumes"; "extraVolumeMounts"; "tolerations"]);
        RAlt (RStr ".") REnd].
Definition any_char : regex := RChr (λ _, true).
Definition TEMPLATE_COMMENT : regex :=
  RSeq [RStr "{{"; ROpt (RStr "-"); RSpaces; RStr "/*"; RLazy any_char; RStr "*/"; RSpaces; ROpt (RStr "-"); RStr "}}"].
Definition YAML_COMMENT : regex :=
  RSeq [RLineBegin; RStar (RChr (λ c, Ascii.eqb c " " || Ascii.eqb c "009")); RStr "#"; RStar RAny; RLineEnd].
(** A chain in parentheses, group 1, and the field access after it, group 2. *)
Definition PAREN : regex :=
  RSeq [RStr "("; RSpaces; RGroup 1 (RCat values_ref dotted);
        ROpt (RSeq [RSpaces; RStr "|"; RSpaces; RStr "default"; spaces1; ROpt (RStr "("); RStr "dict"; ROpt (RStr ")")]);
        RSpaces; RStr ")"; RGroup 2 dotted].
Definition EXACT : string := "=".
Definition TEST_ACTION : regex :=
  RSeq [RStr "{{"; ROpt (RStr "-"); RSpaces; ROpt (RCat (RStr "else") spaces1); RStr "if"; RWordB].
Definition ALL : string := "".
Definition index_first : list regex := [RStr "index"; spaces1; values_ref; spaces1].
Definition ALIAS : regex :=
  RSeq ([RStr "$"; RGroup 1 SEG; RSpaces; RStr ":="; RSpaces; ROpt (RStr "("); RSpaces] ++ index_first ++ [in_dquotes 2]).
Definition DIRECT : regex :=
  RSeq ([ROpt (RStr "("); RSpaces] ++ index_first ++ [in_dquotes 1; RSpaces; ROpt (RStr ")"); RGroup 2 dotted]).
Definition WITH_SUB : regex :=
  RSeq ([RStr "with"; spaces1; RPlus (RStr "("); RSpaces] ++ index_first ++ [in_dquotes 1]).
Definition INDEX_PATH : regex :=
  RSeq (index_first ++ [in_dquotes 1; RGroup 2 (RPlus (RCat spaces1 quoted_name))]).

Definition found_in (r : regex) (s : string) : bool := bool_decide (is_Some (re_search r s)).

(** ** The keys of a values file *)

(** [flatten]: each key below [prefix], dotted, with its value.  A dict keeps
    the last value of a key at the place of the first. *)
Definition child (prefix k : string) : string := if str_eqb prefix "" then k else cat [prefix; "."; k].
Definition element (prefix : string) (i : nat) : string := cat [prefix; "["; str_of_int (Z.of_nat i); "]"].
Definition update (d e : list (string * val)) : list (string * val) :=
  foldl (λ d kv, alist_set kv.1 kv.2 d) d e.
(** The two loops of [flatten], from the items so far *)
Section loops.
Context (flatten : val → string → list (string * val)) (prefix : string).
Fixpoint flatten_items (out d : list (string * val)) : list (string * val) :=
  match d with
  | [] => out
  | (k, v) :: d => let p := child prefix k in flatten_items (update (alist_set p v out) (flatten v p)) d
  end.
Fixpoint flatten_elems (out : list (string * val)) (i : nat) (l : list val) : list (string * val) :=
  match l with
  | [] => out
  | v :: l => flatten_elems (update out (flatten v (element prefix i))) (S i) l
  end.
End loops.
Fixpoint flatten (node : val) (prefix : string) : list (string * val) :=
  match node with
  | VDict d => flatten_items flatten prefix [] d
  | VList l => flatten_elems flatten prefix [] 0 l
  | _ => []
  end.

(** ** The text of the templates *)

Definition strip_comments (text : string) : string :=
  re_sub YAML_COMMENT (λ _, "") (re_sub TEMPLATE_COMMENT (λ _, "") text).
(** The files of a chart that hold templates. *)
Definition template_text (files : list string) : string := str_join newline (map strip_comments files).

(** One pass of [PAREN.sub(r"\1\2", text)] *)
Definition fold_once (text : string) : string := re_sub PAREN (λ m, group_text m 1 +:+ group_text m 2) text.
(** The passes until nothing folds: a pass that folds takes two parentheses
    away, so the length of the text bounds them. *)
Fixpoint fold_parens_from (n : nat) (text : string) : result string :=
  match n with
  | O => Raise OutOfFuel
  | S n => let folded := fold_once text in
           if str_eqb folded text then Ok text else fold_parens_from n folded
  end.
Definition fold_parens (text : string) : result string := fold_parens_from (S (String.length text)) text.

(** The offset of a match, from the text after it. *)
Definition m_end (text : string) (m : found) : nat := String.length text - String.length (f_after m).
Definition m_start (text : string) (m : found) : nat := m_end text m - String.length (f_text m).
(** [text[i:]] *)
Definition from (i : nat) (text : string) : string := str_slice i (String.length text) text.

(** The chain at [text[start:end]] is only tested, not read for its children. *)
Definition test_only (text : string) (start end_ : nat) : bool :=
  let nxt := str_slice end_ (S end_) text in
  if str_eqb nxt "." || str_eqb nxt "|" || startswith (lstrip_of is_space (from end_ text)) "|" then false
  else if endswith (rstrip_of is_space (str_slice (start - 8) start text)) "hasKey" then true
  else match rsplit1 "{{" (str_slice 0 start text) with
       | None => false
       | Some (a, b) =>
           negb (contains "}}" ("{{" +:+ b))
           && bool_decide (is_Some (re_match TEST_ACTION (from (String.length a) text)))
       end.

Definition lstrip_dots (s : string) : string := lstrip_of (Ascii.eqb ".") s.
(** The names between double quotes in a text, and the chain of them. *)
Definition names_in (s : string) : list string := map (λ m, group_text m 1) (re_finditer (in_dquotes 1) s).
Definition name_chain (s : string) : list string :=
  match names_in s with [] => [] | l => [str_join "." l] end.

Definition chains (text : string) : result (list string) :=
  text <- fold_parens text ;;
  Ok (map (λ m, let chain := lstrip_dots (group_text m 1) in
                if test_only text (m_start text m) (m_end text m) then chain +:+ EXACT else chain) (re_finditer CHAIN text)
      ++ concat (map (λ m, name_chain (group_text m 1)) (re_finditer INDEXED text))).

(** The (chart, chain) pairs that a text reads out of the values of a chart. *)
Definition alias_refs (text : string) (known : list string) (m : found) : list (string * string) :=
  let var := group_text m 1 in let chart := group_text m 2 in
  if negb (str_mem chart known) then [] else
  map (λ dm,
         let chain := lstrip_dots (group_text dm 1) in
         let rest := str_slice 0 40 (f_after dm) in
         let piped := startswith (lstrip_of is_space rest) "|" in
         (chart, if str_eqb rest "" || startswith rest "." || piped then chain else chain +:+ EXACT))
    (re_finditer (RSeq [RStr "$"; RStr var; RGroup 1 dotted]) text).
Definition cross_chart_refs (text : string) (known : list string) : list (string * string) :=
  concat (map (alias_refs text known) (re_finditer ALIAS text))
  ++ omap (λ m, if str_mem (group_text m 1) known then Some (group_text m 1, lstrip_dots (group_text m 2)) else None)
       (re_finditer DIRECT text)
  ++ concat (map (λ m, if str_mem (group_text m 1) known
                       then map (λ c, (group_text m 1, c)) (name_chain (group_text m 2)) else []) (re_finditer INDEX_PATH text))
  ++ omap (λ m, if str_mem (group_text m 1) known then Some (group_text m 1, ALL) else None) (re_finditer WITH_SUB text).

(** A chain that is a prefix of the key, or equal to it, consumes it. *)
Definition consumes (key r : string) : bool :=
  if str_eqb r "" then false
  else if endswith r EXACT then str_eqb key (str_slice 0 (String.length r - 1) r)
  else str_eqb key r || startswith key (r +:+ ".") || startswith key (r +:+ "[").
Definition consumed (key : string) (refs : list string) : bool :=
  str_mem ALL refs || existsb (consumes key) refs.

(** ** The scan *)

(** [load_exemptions] on the text of the file: the reason of each key. *)
Definition load_exemptions (text : string) : list (string * string) :=
  foldl (λ out line,
    let line := strip (hd "" (str_split line "#")) in
    if str_eqb line "" then out else
    let '(spec, _, reason) := str_partition line " " in alist_set (strip spec) (strip reason) out) [] (str_split text newline).

(** A chart of the tree: the dependencies of its Chart.yaml by alias or name,
    their conditions, the text of its templates, and its values. *)
Record chart := Chart {
  c_name : string; c_deps : list val; c_conds : list string; c_text : string; c_values : option val }.

Definition dep_key (dep : val) : result val :=
  a <- get dep "alias" ;; if truthy a then Ok a else get dep "name".
Definition dep_conds (dep : val) : result (list string) :=
  c <- get dep "condition" ;;
  Ok (if truthy c
      then List.filter (λ c, negb (str_eqb c "")) (map strip (str_split (py_str c) ","))
      else []).
(** [charts], for one chart *)
Definition chart_of (name : string) (meta : val) (files : list string) (values : option val) : result chart :=
  deps <- get_list (por meta (VDict [])) "dependencies" ;;
  parts <- mapR (λ dep, k <- dep_key dep ;;
                        ks <- (if truthy k then set_of [k] else Ok []) ;;
                        cs <- dep_conds dep ;; Ok (ks, cs)) deps ;;
  Ok (Chart name (concat parts.*1) (concat parts.*2) (template_text files) values).

Definition in_deps (c : chart) (top : string) : bool := existsb (py_eq (VStr top)) (c_deps c).

(** What the scan has found. *)
Inductive verdict := Fine | Exempt (spec : string) | Bad (message : string).

Section scan.
Context (cs : list chart) (exempt : list (string * string)).

Definition known : list string := map c_name cs.
Definition lib_text : string :=
  match find (λ c, str_eqb (c_name c) LIB_CHART) cs with Some c => c_text c | None => "" end.
(** The chains in scope of a chart: those of its templates, of the library
    chart and of its conditions, and what the other charts read out of it. *)
Definition refs_of (c : chart) : result (list string) :=
  own <- chains (c_text c) ;; lib <- chains lib_text ;;
  Ok (own ++ lib ++ c_conds c
      ++ concat (map (λ o, if str_eqb (c_name o) (c_name c) then [] else
                           omap (λ r, if str_eqb r.1 (c_name c) then Some r.2 else None)
                             (cross_chart_refs (c_text o) known)) cs)).
(** [refs_by_chart] *)
Definition refs_by_chart : result (list (string * list string)) :=
  mapR (λ c, r <- refs_of c ;; Ok (c_name c, r)) cs.
Definition all_leaves : list string :=
  map f_text (re_finditer SEG (str_join newline (map c_text cs))).

Definition judged (spec message : string) : verdict :=
  match alist_get spec exempt with Some _ => Exempt spec | None => Bad message end.

(** The part of a key before its first dot, and before its first bracket. *)
Definition first_part (sep s : string) : string := hd "" (str_split s sep).
Definition last_part (sep s : string) : string := List.last (str_split s sep) "".

(** A top-level key names a dependency or a chart, or a chain starts with it. *)
Definition judge_top (c : chart) (refs : list string) (top : string) : verdict :=
  let tops := map (λ r, first_part "." (rstrip_char "=" r)) refs in
  if in_deps c top || str_mem top known || str_eqb top "global" || str_mem top tops || found_in FREEFORM top then Fine
  else judged (cat [c_name c; ":"; top])
         (cat [c_name c; ":"; top; " (whole top-level block: names no dependency in "; c_name c;
               "/Chart.yaml and no template reads it)"]).
Definition judge_tops (refs : list (string * list string)) (c : chart) : list (string * verdict) :=
  match c_values c with
  | Some v =>
      match por v (VDict []) with
      | VDict d => map (λ top, (top, judge_top c (default [] (alist_get (c_name c) refs)) top)) (sorted_keys d)
      | _ => []
      end
  | None => []
  end.

(** The chart and the key below it that a key of [c] is looked up at, [None]
    when an upstream chart reads it. *)
Definition lookup_at (c : chart) (top key : string) : option (string * string) :=
  if in_deps c top then
    if str_mem top known then
      let k := from (S (String.length top)) key in if str_eqb k "" then None else Some (top, k)
    else None
  else Some (c_name c, key).

Definition judge_key (refs : list (string * list string)) (leaves dead : list string) (c : chart) (key : string) (v : val)
    : verdict :=
  let top := first_part "[" (first_part "." key) in
  let leaf := first_part "[" (last_part "." key) in
  if is_dict v || is_list v || found_in FREEFORM key || str_mem top dead then Fine else
  match lookup_at c top key with
  | None => Fine
  | Some (target, k) =>
      if negb (bool_decide (is_Some (re_fullmatch SEG leaf)))
         || consumed k (default [] (alist_get target refs)) || str_mem leaf leaves
      then Fine
      else judged (cat [c_name c; ":"; key]) (cat [c_name c; ":"; key; " = "; py_repr v])
  end.
Definition judge_keys (refs : list (string * list string)) (leaves dead : list string) (c : chart) : list verdict :=
  match c_values c with
  | Some v =>
      let flat := flatten (por v (VDict [])) "" in
      map (λ key, judge_key refs leaves dead c key (default VNone (alist_get key flat))) (sorted_keys flat)
  | None => []
  end.

Definition bad_of (l : list verdict) : list string := omap (λ v, match v with Bad m => Some m | _ => None end) l.
Definition used_of (l : list verdict) : list string := omap (λ v, match v with Exempt s => Some s | _ => None end) l.
(** The tops that are reported whole, so their leaves are not. *)
Definition dead_tops (l : list (string * verdict)) : list string :=
  omap (λ tv, match tv.2 with Bad _ => Some tv.1 | _ => None end) l.

(** [scan]: what nothing reads, and the exemptions that nothing used. *)
Definition scan : result (list string * list string) :=
  refs <- refs_by_chart ;;
  let leaves := all_leaves in
  let tops := map (judge_tops refs) cs in
  let keys := concat (map (λ '(c, t), judge_keys refs leaves (dead_tops t) c) (zip cs tops)) in
  let all := (concat tops).*2 ++ keys in
  Ok (bad_of all,
      sorted_strs (omap (λ '(s, reason),
        if str_mem s (used_of all) then None
        else Some (cat [s; "  ("; if str_eqb reason "" then "no reason given" else reason; ")"])) exempt)).

Definition main : result Z :=
  '(bad, stale) <- scan ;; Ok (if nonempty bad || nonempty stale then 1%Z else 0%Z).
End scan.

(** ** The self-test

    The two charts that [selftest] writes, as the records the scan reads, and
    its two scans.  The scan of the repository's own tree is not here. *)

Definition t_common : result chart :=
  chart_of "gibson-common" (VDict [("name", VStr "gibson-common")])
    [unquoted "{{- define `c.h` -}}{{ .Values.viaLibrary }}{{- end -}}"] (Some (VDict [])).

Definition t_meta : val :=
  VDict [("name", VStr "x");
         ("dependencies", VList [VDict [("name", VStr "upstream")];
                                 VDict [("name", VStr "gibson-common")];
                                 VDict [("name", VStr "seam"); ("condition", VStr "gatedSeam.enabled")]])].
Definition t_values : val :=
  VDict [("read", VStr "r");
         ("deep", VDict [("nested", VDict [("leaf", VStr "v")])]);
         ("viaLibrary", VStr "l");
         ("dashed-key", VDict [("inner", VStr "d")]);
         ("dead", VStr "x");
         ("live", VDict [("used", VStr "u"); ("deadChild", VStr "unreadLeafXyz")]);
         ("upstream", VDict [("whatever", VInt 1)]);
         ("annotations", VDict [("unused.example.com/x", VStr "1")]);
         ("gatedSeam", VDict [("enabled", VBool true)]);
         ("onlyInComment", VDict [("ignoredKnobQrs", VStr "")]);
         ("paren", VDict [("read", VStr "p"); ("unreadSiblingQrs", VStr "")]);
         ("tested", VDict [("svc", VDict [("ip", VStr "1")]); ("unreadTestedQrs", VStr "")])].
Definition t_template : string := unquoted (cat
  ["a: {{ .Values.read }}^";
   "b: {{ toYaml .Values.deep }}^";
   "c: {{ include `c.h` . }}^";
   "d: {{ index .Values `dashed-key` `inner` }}^";
   "e: {{ .Values.live.used }}^";
   "{{- /* .Values.onlyInComment.ignoredKnobQrs is intentionally ignored */ -}}^";
   "# ignoredKnobQrs: a YAML comment is not a reader either^";
   "f: {{ .Values.onlyInComment.other | default `` }}^";
   "g: {{ ((.Values.paren).read) | default `` }}^";
   "{{- if and (hasKey .Values `tested`) .Values.tested -}}^";
   "{{- if hasKey .Values.tested `svc` }}h: {{ ((.Values.tested | default dict).svc).ip }}{{ end -}}^";
   "{{- end -}}^"]).
Definition t_x : result chart := chart_of "x" t_meta [t_template] (Some t_values).

Definition want : list string :=
  ["x:dead (whole top-level block: names no dependency in x/Chart.yaml and no template reads it)";
   "x:live.deadChild = 'unreadLeafXyz'";
   "x:onlyInComment.ignoredKnobQrs = ''";
   "x:paren.unreadSiblingQrs = ''";
   "x:tested.unreadTestedQrs = ''"].
Definition t_exemptions : string := unquoted (cat
  ["x:dead set by an operator at install time^";
   "x:live.deadChild set by an operator at install time^";
   "x:onlyInComment.ignoredKnobQrs set by an operator at install time^";
   "x:paren.unreadSiblingQrs set by an operator at install time^";
   "x:tested.unreadTestedQrs set by an operator at install time^";
   "x:gone.away this target no longer exists^"]).

(** [selftest], up to the scan of the repository's own tree *)
Definition selftest : result Z :=
  common <- t_common ;; x <- t_x ;;
  let cs := [common; x] in
  '(bad, stale) <- scan cs [] ;;
  if negb (bool_decide (sorted_strs bad = sorted_strs want)) then Ok 1%Z else
  if nonempty stale then Ok 1%Z else
  '(bad, stale) <- scan cs (load_exemptions t_exemptions) ;;
  if nonempty bad then Ok 1%Z else
  if negb (bool_decide (length stale = 1)) || negb (startswith (hd "" stale) "x:gone.away") then Ok 1%Z else
  Ok 0%Z.

Lemma valuesconsumed_selftest : selftest = Ok 0%Z.
Proof. vm_compute. reflexivity. Qed.

(** ** What the guard promises

    [fold_parens] always ends, with a text that holds no chain in parentheses;
    [flatten] gives the paths of a value; a chain reads the keys below it; and
    a clean scan gives each key of a values file a reader or a reason. *)

(** *** The passes over parentheses *)

Lemma step_length_le r p q : step r p q → (String.length q.2 ≤ String.length p.2)%nat.
Proof. intros H%step_suffix. by apply suffix_of_length. Qed.

(** The two groups leave both parentheses out. *)
Lemma paren_groups_shorter before p s m :
  match_at PAREN before p s = Some m →
  (String.length (group_text m 1 +:+ group_text m 2) < String.length (f_text m))%nat.
Proof.
  intros H. unfold match_at, PAREN in H. cbn [RSeq] in H.
  next_part H s1 H1. next_part H s2 H2. next_part H s3 H3. next_part H s4 H4. next_part H s5 H5.
  next_part H s6 H6. next_part H s7 H7. injection H as <-.
  apply step_str_iff in H1, H6. apply (f_equal String.length) in H1, H6. simpl in H1, H6.
  apply step_length_le in H2, H3, H4, H5, H7. unfold group_text, group. cbn -[Regex.consumed] in *.
  rewrite append_length in H1, H6 |- *. rewrite !length_consumed. simpl in H1, H6.
  lia.
Qed.

Lemma fold_once_shrinks text :
  (fold_once text = text ∧ re_search PAREN text = None) ∨ (String.length (fold_once text) < String.length text)%nat.
Proof. apply re_sub_shrinks. intros before p s m. apply paren_groups_shorter. Qed.

(** What the passes of [fold_parens] can reach *)
Inductive folds : string → string → Prop :=
  | folds_done text : folds text text
  | folds_pass text text' : folds (fold_once text) text' → folds text text'.

(** [fold_parens] returns on each text, after finitely many passes, and
    the text it returns holds no chain in parentheses with a field after it,
    so one more pass changes nothing. *)
Theorem fold_parens_total text :
  ∃ text', fold_parens text = Ok text' ∧ folds text text' ∧ fold_once text' = text' ∧ re_search PAREN text' = None.
Proof.
  assert (∀ n text, (String.length text < n)%nat →
            ∃ text', fold_parens_from n text = Ok text' ∧ folds text text' ∧ fold_once text' = text'
                     ∧ re_search PAREN text' = None) as H; [|apply H; lia].
  clear text. induction n as [|n IH]; intros text Hn; [lia|]. cbn [fold_parens_from].
  destruct (str_eqb (fold_once text) text) eqn:E.
  - apply str_eqb_eq in E. destruct (fold_once_shrinks text) as [[??]|Hl]; [|rewrite E in Hl; lia].
    exists text. split_and!; [done|constructor|done..].
  - destruct (fold_once_shrinks text) as [[E' _]|Hl]; [by rewrite E', str_eqb_refl in E|].
    destruct (IH (fold_once text)) as (text' & ? & ? & ? & ?); [lia|].
    exists text'. split_and!; [done|by constructor|done..].
Qed.

(** *** The paths of a value *)

(** [at_path v prefix key w]: the node [v], at [prefix], holds [w] at [key]. *)
Inductive at_path : val → string → string → val → Prop :=
  | path_key d prefix k v : (k, v) ∈ d → at_path (VDict d) prefix (child prefix k) v
  | path_in d prefix k v key w : (k, v) ∈ d → at_path v (child prefix k) key w → at_path (VDict d) prefix key w
  | path_elem l prefix i v key w : l !! i = Some v → at_path v (element prefix i) key w → at_path (VList l) prefix key w.

(** A dict of the loop: its keys are apart, its items come from [P], and it
    has each key that [Q] names. *)
Definition holds_items (out : list (string * val)) (P : string → val → Prop) (Q : string → Prop) : Prop :=
  NoDup out.*1 ∧ (∀ k w, (k, w) ∈ out → P k w) ∧ (∀ k, Q k → k ∈ out.*1).

Lemma holds_weaken out P Q R : (∀ k, R k → Q k) → holds_items out P Q → holds_items out P R.
Proof. intros H (? & ? & HQ). split_and!; eauto. Qed.
Lemma holds_nil P : holds_items [] P (λ _, False).
Proof. split_and!; [constructor|by intros ? ? ?%elem_of_nil|done]. Qed.
Lemma holds_set out P Q k x :
  P k x → holds_items out P Q → holds_items (alist_set k x out) P (λ k', k' = k ∨ Q k').
Proof.
  intros Hk (Hd & HP & HQ). split_and!; [by apply alist_set_NoDup| |].
  - intros k' w [[= -> ->]|?]%alist_set_elem; [done|by apply HP].
  - intros k'. rewrite alist_set_keys. naive_solver.
Qed.
Lemma holds_update out e P Q :
  (∀ k w, (k, w) ∈ e → P k w) → holds_items out P Q → holds_items (update out e) P (λ k, k ∈ e.*1 ∨ Q k).
Proof.
  unfold update. revert out Q. induction e as [|[k x] e IH]; intros out Q He Ho; cbn [foldl fst snd].
  - eapply holds_weaken; [|exact Ho]. intros k [H%elem_of_nil|H]; done.
  - eapply holds_weaken; [|apply (IH _ (λ k', k' = k ∨ Q k'))].
    + intros k'. change (((k, x) :: e).*1) with (k :: e.*1). rewrite elem_of_cons. naive_solver.
    + intros k' w Hw. apply He. by right.
    + apply holds_set; [apply He; left|done].
Qed.

Definition paths_of (v : val) : Prop :=
  ∀ prefix, holds_items (flatten v prefix) (at_path v prefix) (λ key, ∃ w, at_path v prefix key w).

Lemma flatten_items_holds all prefix d out Q :
  d ⊆ all → Forall (λ kv, paths_of kv.2) d → holds_items out (at_path (VDict all) prefix) Q →
  holds_items (flatten_items flatten prefix out d) (at_path (VDict all) prefix)
    (λ key, Q key ∨ ∃ w, at_path (VDict d) prefix key w).
Proof.
  revert out Q. induction d as [|[k v] d IH]; intros out Q Hd Hp Ho; cbn [flatten_items].
  - eapply holds_weaken; [|exact Ho]. intros key [H|[w H]]; [done|].
    inversion H; subst; match goal with H : _ ∈ [] |- _ => by apply elem_of_nil in H end.
  - apply Forall_cons in Hp as [Hv Hp]. destruct (Hv (child prefix k)) as (_ & HP & HQ).
    assert ((k, v) ∈ all) as Hk by (apply Hd; left).
    eapply holds_weaken; [|apply IH; [intros x Hx; apply Hd; by right|done|apply holds_update; [|apply holds_set; [|exact Ho]]]].
    + intros key [?|[w H]]; [naive_solver|]. inversion H as [? ? k' v' Hin|? ? k' v' ? ? Hin Hw|]; subst.
      * apply elem_of_cons in Hin as [[= -> ->]|Hin]; [naive_solver|]. right. exists w. by constructor.
      * apply elem_of_cons in Hin as [[= -> ->]|Hin]; [left; left; apply HQ; by exists w|].
        right. exists w. by eapply path_in.
    + intros key w Hw. eapply path_in; [done|by apply HP].
    + by constructor.
Qed.

Lemma flatten_elems_holds all prefix l i out Q :
  (∀ j v, l !! j = Some v → all !! (i + j) = Some v) → Forall paths_of l →
  holds_items out (at_path (VList all) prefix) Q →
  holds_items (flatten_elems flatten prefix out i l) (at_path (VList all) prefix)
    (λ key, Q key ∨ ∃ j v w, l !! j = Some v ∧ at_path v (element prefix (i + j)) key w).
Proof.
  revert i out Q. induction l as [|v l IH]; intros i out Q Hl Hp Ho; cbn [flatten_elems].
  - eapply holds_weaken; [|exact Ho]. intros key [H|(? & ? & ? & [=] & _)]. done.
  - apply Forall_cons in Hp as [Hv Hp]. destruct (Hv (element prefix i)) as (_ & HP & HQ).
    eapply holds_weaken; [|apply IH; [|done|apply holds_update; [|exact Ho]]].
    + intros key [?|([|j] & x & w & Hj & Hw)]; [naive_solver| |].
      * injection Hj as ->. rewrite Nat.add_0_r in Hw. left. left. apply HQ. by exists w.
      * right. exists j, x, w. split; [done|]. by replace (S i + j) with (i + S j) by lia.
    + intros j x Hx. replace (S i + j) with (i + S j) by lia. by apply Hl.
    + intros key w Hw. eapply path_elem; [|by apply HP]. rewrite <- (Nat.add_0_r i). by apply Hl.
Qed.

Lemma flatten_holds v : paths_of v.
Proof.
  induction v as [|b|z|s|l IH|d IH] using val_nested_ind; intros prefix;
    try (eapply holds_weaken; [|apply holds_nil]; intros key [w H]; by inversion H).
  - eapply holds_weaken; [|apply (flatten_elems_holds l prefix l 0 [] (λ _, False)); [done|exact IH|apply holds_nil]].
    intros key [w H]. right. inversion H; subst. eauto.
  - eapply holds_weaken; [|apply (flatten_items_holds d prefix d [] (λ _, False)); [done|exact IH|apply holds_nil]].
    intros key H. by right.
Qed.

Lemma flatten_keys v prefix key : key ∈ (flatten v prefix).*1 ↔ ∃ w, at_path v prefix key w.
Proof.
  destruct (flatten_holds v prefix) as (_ & HP & HQ). split; [|apply HQ].
  intros ([k w] & -> & H)%list_elem_of_fmap. exists w. by apply HP.
Qed.

(** [flatten] is the table of the paths of a value: each key is there
    once, with a value that the path leads to, and each path is there. *)
Theorem flatten_is_the_paths v prefix :
  NoDup (flatten v prefix).*1 ∧
  (∀ key w, alist_get key (flatten v prefix) = Some w → at_path v prefix key w) ∧
  (∀ key, key ∈ (flatten v prefix).*1 ↔ ∃ w, at_path v prefix key w).
Proof.
  destruct (flatten_holds v prefix) as (Hd & HP & _). split_and!; [done| |].
  - intros key w H%alist_elem. by apply HP.
  - intros key. apply flatten_keys.
Qed.

(** *** The keys that a chain reads *)

(** [reads r key]: the chain [r] reads the key. The chain of a [with] reads all
    keys, a chain that is only tested reads itself, and another chain reads
    itself and what is below it. *)
Inductive reads : string → string → Prop :=
  | reads_all key : reads ALL key
  | reads_exact key : reads (key +:+ EXACT) key
  | reads_self r : endswith r EXACT = false → reads r r
  | reads_below r c t : r ≠ "" → endswith r EXACT = false → c = "."%char ∨ c = "["%char → reads r (r +:+ String c t).

Lemma drop_exact key : str_slice 0 (String.length (key +:+ EXACT) - 1) (key +:+ EXACT) = key.
Proof. unfold str_slice. rewrite Nat.sub_0_r. apply (consumed_app key EXACT). Qed.

Lemma consumes_reads key r : (r = ALL ∨ consumes key r = true) ↔ reads r key.
Proof.
  unfold consumes. split.
  - intros [->|H]; [constructor|]. destruct (str_eqb r "") eqn:Er; [done|].
    assert (r ≠ "") as Hr by (intros ->; by rewrite str_eqb_refl in Er).
    destruct (endswith r EXACT) eqn:Ee.
    + apply endswith_true in Ee as [t ->]. rewrite drop_exact, str_eqb_eq in H. subst key. constructor.
    + rewrite !orb_true_iff, str_eqb_eq, !startswith_true in H.
      destruct H as [[->|[t ->]]|[t ->]]; [by constructor|rewrite append_assoc; apply reads_below; auto..].
  - intros H. destruct (str_eqb r "") eqn:Er; [left; by apply str_eqb_eq|right].
    inversion H as [|k|r' He|r' c t Hr He Hc]; subst.
    + by rewrite str_eqb_refl in Er.
    + rewrite (proj2 (endswith_true _ _)), drop_exact by eauto. by apply str_eqb_eq.
    + rewrite He, str_eqb_refl. done.
    + rewrite He, !orb_true_iff, !startswith_true. destruct Hc as [->| ->]; [left; right|right];
        exists t; by rewrite append_assoc.
Qed.

(** [consumed] holds exactly of the keys that one of the chains reads. *)
Lemma consumed_decides key refs : consumed key refs = true ↔ ∃ r, r ∈ refs ∧ reads r key.
Proof.
  unfold consumed. rewrite orb_true_iff, str_mem_elem, existsb_elem_of. split.
  - intros [H|(r & Hr & H)]; [exists ALL|exists r]; (split; [done|apply consumes_reads; auto]).
  - intros (r & Hr & [->|H]%consumes_reads); [by left|right; eauto].
Qed.

(** *** The scan *)

Definition key_top (key : string) : string := first_part "[" (first_part "." key).
Definition key_leaf (key : string) : string := first_part "[" (last_part "." key).
Definition chains_of (refs : list (string * list string)) (name : string) : list string := default [] (alist_get name refs).

Lemma alist_is_some {A} k (d : list (string * A)) : is_Some (alist_get k d) ↔ k ∈ d.*1.
Proof. rewrite <- not_eq_None_Some, alist_None. destruct (decide (k ∈ d.*1)); naive_solver. Qed.

Section clean.
Context (cs : list chart) (exempt : list (string * string)).

(** Why a scalar key of the chart [c] needs no report *)
Inductive honoured (refs : list (string * list string)) (c : chart) (key : string) : Prop :=
  | by_upstream : in_deps c (key_top key) = true → key_top key ∉ known cs → honoured refs c key
  | by_subchart : in_deps c (key_top key) = true → from (S (String.length (key_top key))) key = "" → honoured refs c key
  | by_reader target k r : lookup_at cs c (key_top key) key = Some (target, k) →
      r ∈ chains_of refs target → reads r k → honoured refs c key
  | by_mention : key_leaf key ∈ all_leaves cs → honoured refs c key
  | by_odd_name : re_fullmatch SEG (key_leaf key) = None → honoured refs c key
  | by_exemption : cat [c_name c; ":"; key] ∈ exempt.*1 → honoured refs c key.

(** Why a top-level key needs no report *)
Inductive addressed (refs : list (string * list string)) (c : chart) (top : string) : Prop :=
  | to_dependency : in_deps c top = true → addressed refs c top
  | to_chart : top ∈ known cs → addressed refs c top
  | to_global : top = "global" → addressed refs c top
  | to_chain r : r ∈ chains_of refs (c_name c) → first_part "." (rstrip_char "=" r) = top → addressed refs c top
  | to_free_form : found_in FREEFORM top = true → addressed refs c top
  | to_exemption : cat [c_name c; ":"; top] ∈ exempt.*1 → addressed refs c top.

Lemma judged_cases spec message :
  (judged exempt spec message = Exempt spec ∧ spec ∈ exempt.*1) ∨ judged exempt spec message = Bad message.
Proof.
  unfold judged. destruct (alist_get spec exempt) as [r|] eqn:E; [left|by right].
  split; [done|]. apply alist_is_some. by exists r.
Qed.

Lemma judge_top_cases refs c top :
  (judge_top cs exempt c (chains_of refs (c_name c)) top = Fine ∧ addressed refs c top) ∨
  (judge_top cs exempt c (chains_of refs (c_name c)) top = Exempt (cat [c_name c; ":"; top]) ∧ addressed refs c top) ∨
  ∃ message, judge_top cs exempt c (chains_of refs (c_name c)) top = Bad message.
Proof.
  unfold judge_top. destruct (_ || _) eqn:E.
  - left. split; [done|]. rewrite !orb_true_iff, !str_mem_elem, str_eqb_eq in E.
    destruct E as [[[[E|E]|E]|E]|E]; [by constructor 1|by constructor 2|by constructor 3| |by constructor 5].
    apply list_elem_of_fmap in E as (r & -> & Hr). by apply (to_chain _ _ _ r).
  - right. destruct (judged_cases (cat [c_name c; ":"; top])
      (cat [c_name c; ":"; top; " (whole top-level block: names no dependency in "; c_name c;
            "/Chart.yaml and no template reads it)"])) as [[-> ?]| ->]; [left|right; by eexists].
    split; [done|by constructor 6].
Qed.

Lemma judge_key_cases refs dead c key v :
  is_dict v = false → is_list v = false → found_in FREEFORM key = false → key_top key ∉ dead →
  (judge_key cs exempt refs (all_leaves cs) dead c key v = Fine ∧ honoured refs c key) ∨
  (judge_key cs exempt refs (all_leaves cs) dead c key v = Exempt (cat [c_name c; ":"; key]) ∧ honoured refs c key) ∨
  ∃ message, judge_key cs exempt refs (all_leaves cs) dead c key v = Bad message.
Proof.
  intros Hd Hl Hf Ht. unfold judge_key. cbv zeta.
  change (first_part "[" (first_part "." key)) with (key_top key).
  change (first_part "[" (last_part "." key)) with (key_leaf key).
  rewrite Hd, Hl, Hf, (proj2 (str_mem_false _ _) Ht). cbn [orb].
  destruct (lookup_at cs c (key_top key) key) as [[target k]|] eqn:E.
  - destruct (_ || _) eqn:Eb.
    + left. split; [done|]. rewrite !orb_true_iff, str_mem_elem, consumed_decides in Eb.
      destruct Eb as [[Eb|(r & ? & ?)]|?]; [|by eapply by_reader|by constructor 4].
      constructor 5. apply negb_true_iff, bool_decide_eq_false in Eb. by apply eq_None_not_Some.
    + right. destruct (judged_cases (cat [c_name c; ":"; key]) (cat [c_name c; ":"; key; " = "; py_repr v]))
        as [[-> ?]| ->]; [left|right; by eexists]. split; [done|by constructor 6].
  - left. split; [done|]. unfold lookup_at in E. destruct (in_deps c (key_top key)) eqn:Ei; [|done].
    destruct (str_mem (key_top key) (known cs)) eqn:Ek.
    + destruct (str_eqb (from (S (String.length (key_top key))) key) "") eqn:Ef; [|done].
      apply by_subchart; [done|by apply str_eqb_eq].
    + apply by_upstream; [done|by apply str_mem_false].
Qed.

Lemma bad_of_nil l message : bad_of l = [] → Bad message ∉ l.
Proof.
  intros H Hin. assert (message ∈ bad_of l) as Hm; [|by rewrite H in Hm; apply elem_of_nil in Hm].
  apply list_elem_of_omap. by exists (Bad message).
Qed.

(** The verdicts of [scan], of the tops and of the keys below them *)
Definition top_verdicts (refs : list (string * list string)) (c : chart) : list verdict := (judge_tops cs exempt refs c).*2.
Definition key_verdicts (refs : list (string * list string)) (c : chart) : list verdict :=
  judge_keys cs exempt refs (all_leaves cs) (dead_tops (judge_tops cs exempt refs c)) c.

Lemma zip_map_self {A B C} (g : A → B) (h : A → B → C) (l : list A) :
  map (λ '(x, y), h x y) (zip l (map g l)) = map (λ x, h x (g x)) l.
Proof. induction l as [|x l IH]; [done|]. cbn. by rewrite IH. Qed.

Lemma scan_Ok bad stale :
  scan cs exempt = Ok (bad, stale) →
  ∃ refs all, refs_by_chart cs = Ok refs ∧ bad = bad_of all ∧
    (∀ v, v ∈ all ↔ ∃ c, c ∈ cs ∧ (v ∈ top_verdicts refs c ∨ v ∈ key_verdicts refs c)) ∧
    (∀ spec reason, (spec, reason) ∈ exempt → spec ∉ used_of all → stale ≠ []).
Proof.
  unfold scan. intros (v & E & H)%bind_Ok. cbv zeta in H. rewrite (zip_map_self _ (λ c t, judge_keys cs exempt v (all_leaves cs) (dead_tops t) c)) in H.
  injection H as <- <-. eexists v, _. split_and!; [done|reflexivity| |].
  - intros x. rewrite elem_of_app, elem_of_concat, list_elem_of_fmap. unfold top_verdicts, key_verdicts. split.
    + intros [([t y] & -> & (ts & Hts & Hy)%elem_of_concat)|(l & (c & -> & Hc)%list_elem_of_fmap & Hx)].
      * apply list_elem_of_fmap in Hts as (c & -> & Hc). exists c. split; [done|]. left.
        apply list_elem_of_fmap. by exists (t, y).
      * exists c. auto.
    + intros (c & Hc & [([t y] & -> & Hy)%list_elem_of_fmap|Hx]).
      * left. exists (t, y). split; [done|]. apply elem_of_concat. exists (judge_tops cs exempt v c).
        split; [|done]. apply list_elem_of_fmap. by exists c.
      * right. eexists. split; [|exact Hx]. apply list_elem_of_fmap. by exists c.
  - intros spec reason Hs Hu H. set (l := omap _ exempt) in H.
    assert (cat [spec; "  ("; if str_eqb reason "" then "no reason given" else reason; ")"] ∈ l) as Hl.
    { apply list_elem_of_omap. exists (spec, reason). split; [done|]. by rewrite (proj2 (str_mem_false _ _) Hu). }
    apply sorted_strs_elem in Hl. rewrite H in Hl. by apply elem_of_nil in Hl.
Qed.
End clean.

Section clean_scan.
Context (cs : list chart) (exempt : list (string * string)) (refs : list (string * list string)).
Hypothesis Hbad : ∀ c message, c ∈ cs →
  (Bad message ∉ top_verdicts cs exempt refs c) ∧ (Bad message ∉ key_verdicts cs exempt refs c).

Lemma clean_tops c v d top :
  c ∈ cs → c_values c = Some v → por v (VDict []) = VDict d → top ∈ d.*1 → addressed cs exempt refs c top.
Proof using Hbad.
  intros Hc Hv Hd Ht. destruct (judge_top_cases cs exempt refs c top) as [[_ ?]|[[_ ?]|[message Hm]]]; [done..|].
  destruct (Hbad c message Hc) as [[] _]. unfold top_verdicts, judge_tops. rewrite Hv, Hd.
  apply list_elem_of_fmap. exists (top, Bad message). split; [done|]. apply list_elem_of_fmap. exists top.
  split; [unfold chains_of in Hm; by rewrite Hm|]. by apply sorted_set_elem.
Qed.

Lemma clean_dead_tops c : c ∈ cs → dead_tops (judge_tops cs exempt refs c) = [].
Proof using Hbad.
  intros Hc. destruct (dead_tops _) as [|t l] eqn:E; [done|]. exfalso.
  assert (t ∈ dead_tops (judge_tops cs exempt refs c)) as ([t' y] & Ht & Hy)%list_elem_of_omap by (rewrite E; left).
  destruct y as [| |message]; try discriminate Hy. destruct (Hbad c message Hc) as [[] _].
  apply list_elem_of_fmap. by exists (t', Bad message).
Qed.

Lemma clean_keys c v key w :
  c ∈ cs → c_values c = Some v → alist_get key (flatten (por v (VDict [])) "") = Some w →
  is_dict w = false → is_list w = false → found_in FREEFORM key = false → honoured cs exempt refs c key.
Proof using Hbad.
  intros Hc Hv Hk Hd Hl Hf.
  destruct (judge_key_cases cs exempt refs [] c key w Hd Hl Hf) as [[_ ?]|[[_ ?]|[message Hm]]];
    [by intros ?%elem_of_nil|done..|].
  destruct (Hbad c message Hc) as [_ []]. unfold key_verdicts, judge_keys. rewrite Hv, clean_dead_tops by done.
  apply list_elem_of_fmap. exists key. rewrite Hk. split; [done|]. apply sorted_set_elem, alist_is_some. by exists w.
Qed.
End clean_scan.

(** What an exemption that is in use names: a key of the values of a chart. *)
Definition names_key (cs : list chart) (spec : string) : Prop :=
  ∃ c v key, c ∈ cs ∧ c_values c = Some v ∧ key ∈ (flatten (por v (VDict [])) "").*1 ∧ spec = cat [c_name c; ":"; key].

Lemma judged_exempt exempt spec message s : judged exempt spec message = Exempt s → s = spec.
Proof. unfold judged. destruct (alist_get spec exempt); congruence. Qed.

Lemma key_exemption cs exempt refs c s :
  c ∈ cs → Exempt s ∈ key_verdicts cs exempt refs c → names_key cs s.
Proof.
  intros Hc H. unfold key_verdicts, judge_keys in H. destruct (c_values c) as [v|] eqn:Ev; [|by apply elem_of_nil in H].
  apply list_elem_of_fmap in H as (key & H & Hk). exists c, v, key. split_and!; [done..|apply sorted_set_elem; exact Hk|].
  unfold judge_key in H. cbv zeta in H. destruct (_ || _) in H; [done|].
  destruct (lookup_at _ _ _ _) as [[??]|] in H; [|done]. destruct (_ || _) in H; [done|].
  by apply eq_sym, judged_exempt in H.
Qed.
Lemma top_exemption cs exempt refs c s :
  c ∈ cs → Exempt s ∈ top_verdicts cs exempt refs c → names_key cs s.
Proof.
  intros Hc ([t x] & Hx & H)%list_elem_of_fmap. cbn [snd] in Hx. subst x. unfold judge_tops in H.
  destruct (c_values c) as [v|] eqn:Ev; [|by apply elem_of_nil in H].
  destruct (por v (VDict [])) as [| | | | |d] eqn:Ed; try by apply elem_of_nil in H.
  apply list_elem_of_fmap in H as (key & [= <- H] & Hk). exists c, v, t. rewrite Ed. split_and!; [done..| |].
  - apply sorted_set_elem, list_elem_of_fmap in Hk as ([t' w] & -> & Hk). apply flatten_keys. exists w.
    by apply (path_key d "").
  - unfold judge_top in H. cbv zeta in H. destruct (_ || _) in H; [done|]. by apply eq_sym, judged_exempt in H.
Qed.


Definition w_chart : chart :=
  Chart "x" [] [] "a: {{ .Values.live.used }}"
    (Some (VDict [("live", VDict [("used", VStr "u")]); ("gone", VStr "x")])).
