(* ===== verification/Shlex.v ===== *)
(** * Python's [shlex.split]

    The state machine of [shlex.shlex] in POSIX mode with [whitespace_split], as
    the standard library has it: one character a step, quotes and escapes
    taken out, an optional comment character. *)
From S2P Require Import Prelude PyStr PyVal.
From Stdlib Require Import Ascii.

Definition shell_space (c : ascii) : bool := existsb (Ascii.eqb c) [" "; "009"; "013"; "010"]%char.
Definition escape : ascii := "\".

(** [self.state]: between words, in a word, in quotes, or after an escape in
    one of these, which is [escapedstate]. *)
Inductive lex_state := Between | InWord | InQuote (q : ascii) | Escaped (q : option ascii).

(** The words of [s], from the state, the token so far
    and whether it had quotes. *)
Fixpoint lex (comments : bool) (st : lex_state) (token : string) (quoted : bool) (s : string) : result (list string) :=
  let word (l : list string) := if negb (str_eqb token "") || quoted then token :: l else l in
  match s with
  | "" =>
      match st with
      | InQuote _ | Escaped _ => Raise ValueError
      | Between | InWord => Ok (word [])
      end
  | String c s =>
      let add := token +:+ String c "" in
      match st with
      | Between =>
          if shell_space c then rmap word (lex comments Between "" false s)
          else if comments && Ascii.eqb c "#" then skip_line comments token quoted s
          else if Ascii.eqb c escape then lex comments (Escaped None) token quoted s
          else if Ascii.eqb c dquote || Ascii.eqb c squote then lex comments (InQuote c) token quoted s
          else lex comments InWord add quoted s
      | InQuote q =>
          if Ascii.eqb c q then lex comments InWord token true s
          else if Ascii.eqb c escape && Ascii.eqb q dquote then lex comments (Escaped (Some q)) token true s
          else lex comments (InQuote q) add true s
      | Escaped None => lex comments InWord add quoted s
      | Escaped (Some q) =>
          lex comments (InQuote q)
            (if negb (Ascii.eqb c escape) && negb (Ascii.eqb c q) then token +:+ String escape (String c "") else add) quoted s
      | InWord =>
          if shell_space c then rmap word (lex comments Between "" false s)
          else if comments && Ascii.eqb c "#" then rmap word (skip_line comments "" false s)
          else if Ascii.eqb c dquote || Ascii.eqb c squote then lex comments (InQuote c) token quoted s
          else if Ascii.eqb c escape then lex comments (Escaped None) token quoted s
          else lex comments InWord add quoted s
      end
  end
(** [self.instream.readline()], then the words of the next lines *)
with skip_line (comments : bool) (token : string) (quoted : bool) (s : string) : result (list string) :=
  match s with
  | "" => Ok (if negb (str_eqb token "") || quoted then [token] else [])
  | String c s => if Ascii.eqb c "010" then lex comments Between token quoted s else skip_line comments token quoted s
  end.

Definition shlex_split (comments : bool) (s : string) : result (list string) := lex comments Between "" false s.
