(* ===== verification/SecretReads.v ===== *)
(** * scripts/check-secret-reads-granted.py: the Secrets that a container reads

    The guard finds each [kubectl get secret] in the scripts of the pods,
    resolves its name and namespace to literals, and asks the RBAC evaluator of
    OwnerCreds.v whether the ServiceAccount of the pod may do it. *)
From S2P Require Import Prelude PyStr PyVal Rbac OwnerCreds OwnerCredsSpec Regex Shlex.
From Stdlib Require Import Ascii.

(** ** The text of a script *)

Definition name_start (c : ascii) : bool := is_alpha c || Ascii.eqb c "_".
(** [[A-Za-z_]\w*] and [[A-Za-z_][\w-]*] *)
Definition NAME : regex := RCat (RChr name_start) (RStar (RChr is_word)).
Definition FUNC : regex := RCat (RChr name_start) (RStar (RChr (λ c, is_word c || Ascii.eqb c "-"))).
Definition spaces1 : regex := RPlus (RChr is_space).
Definition any_char : regex := RChr (λ _, true).
Definition no_char (c : ascii) : regex := RChr (λ d, negb (Ascii.eqb d c)).

Definition VAR : regex :=
  RSeq [RBegin; RStr "$"; RAlt (RSeq [RStr "{"; RGroup 1 NAME; RStr "}"]) (RGroup 2 NAME); REnd].
Definition in_double : regex :=
  RSeq [RLit dquote; RStar (RAlt (RChr (λ c, negb (Ascii.eqb c dquote || Ascii.eqb c escape))) (RCat (RLit escape) RAny)); RLit dquote].
Definition in_single : regex := RSeq [RLit squote; RStar (no_char squote); RLit squote].
Definition bare_value : regex := RStar (RChr (λ c, negb (is_space c || in_chars ";|&()" c))).
Definition ASSIGN : regex :=
  RSeq [RAlt RBegin (RChr (λ c, is_space c || in_chars ";(" c));
        ROpt (ROneOf (map (λ w, RCat (RStr w) spaces1) ["local"; "export"; "readonly"]));
        RGroup 1 NAME; RStr "="; RGroup 2 (ROneOf [in_double; in_single; bare_value])].

Definition text_of (l : list val) : result (list string) :=
  mapR (λ v, match v with VStr s => Ok s | _ => Raise TypeError end) l.
(** A backslash before the end of a line joins it to the next. *)
Definition script_of (c : val) : result string :=
  a <- or_empty c "command" ;; b <- or_empty c "args" ;; l <- added a b ;; words <- text_of l ;;
  Ok (re_sub (RSeq [RLit escape; RStr newline; RSpaces]) (λ _, " ") (str_join newline words)).

Definition last_char (s : string) : option ascii := String.get (String.length s - 1) s.
Definition is_quote (c : ascii) : bool := Ascii.eqb c dquote || Ascii.eqb c squote.
Definition unquote (tok : string) : string :=
  match tok with
  | String a (String _ _) =>
      if bool_decide (last_char tok = Some a) && is_quote a then str_slice 1 (String.length tok - 1) tok else tok
  | _ => tok
  end.

(** ** The resolver *)

(** A rule for a variable: the source of a value that it can take. *)
Inductive rule :=
  | RArray (items : string)
  | RArg (func : string) (n : nat)
  | RField (var : string) (sep : ascii) (i : nat)
  | RValue (raw : string)
  | RWords (words : string).

Definition group_or (m : found) (i j : nat) : string := default (group_text m j) (group m i).

Definition digit_value (s : string) : nat :=
  match s with String c _ => nat_of_ascii c - 48 | "" => 0 end.
Definition char_of (s : string) : ascii := match s with String c _ => c | "" => " " end.

(** The rule of one assignment in the function [func] *)
Definition assign_rule (func : option string) (val : string) : option rule :=
  let raw := match val with String c _ => if is_quote c then unquote val else val | "" => unquote val end in
  if str_eqb raw "" then None else
  match re_fullmatch (RSeq [RStr "$"; ROpt (RStr "{"); RGroup 1 (RChr is_digit); ROpt (RStr "}")]) raw, func with
  | Some m, Some f => Some (RArg f (digit_value (group_text m 1)))
  | _, _ =>
      match re_fullmatch (RSeq [RStr "${"; RGroup 1 NAME; RStr "%%"; RGroup 2 RAny; RStr "*}"]) raw with
      | Some m => Some (RField (group_text m 1) (char_of (group_text m 2)) 0)
      | None => Some (RValue raw)
      end
  end.

(** [for NAME in WORDS] *)
Definition FOR : regex :=
  RSeq [RWordB; RStr "for"; spaces1; RGroup 1 NAME; spaces1; RStr "in"; spaces1;
        RGroup 2 (RCat RAny (RLazy RAny)); ROpt (RStr ";"); RSpaces; ROpt (RStr "do"); RSpaces; REnd].
Definition remove_suffix (s suffix : string) : string :=
  if endswith s suffix then str_slice 0 (String.length s - String.length suffix) s else s.
Definition for_rules (s : string) : list (string * rule) :=
  match re_search FOR s with
  | Some m => [(group_text m 1, RWords (strip (remove_suffix (rstrip_of (in_chars "; ") (group_text m 2)) " do")))]
  | None => []
  end.

(** [IFS=SEP read -r NAMES <<< SOURCE] *)
Definition READ : regex :=
  let quote := ROpt (RChr is_quote) in let word_or_space := RChr (λ c, is_word c || is_space c) in
  RSeq [RStr "IFS="; quote; RGroup 1 RAny; quote; spaces1; RStr "read"; spaces1; ROpt (RCat (RStr "-r") spaces1);
        RGroup 2 (RCat word_or_space (RLazy word_or_space)); RSpaces; RStr "<<<"; RSpaces;
        RGroup 3 (RPlus (RChr (λ c, negb (is_space c))))].
Definition read_rules (s : string) : list (string * rule) :=
  match re_search READ s with
  | Some m =>
      match re_match VAR (unquote (group_text m 3)) with
      | Some v => imap (λ i n, (n, RField (group_or v 1 2) (char_of (group_text m 1)) i)) (split_ws (group_text m 2))
      | None => []
      end
  | None => []
  end.

(** The function that a line is in, with the depth of its braces *)
Definition DEFINES : regex :=
  RSeq [RBegin; RGroup 1 FUNC; RSpaces; RStr "()"; RSpaces; RStr "{"].
Definition in_func (state : option (string * Z)) (s : string) : option (string * Z) :=
  let state := match re_match DEFINES s with Some m => Some (group_text m 1, 0%Z) | None => state end in
  (λ '(f, depth), (f, depth + Z.of_nat (str_count "{" s) - Z.of_nat (str_count "}" s))%Z) <$> state.
Definition after_line (state : option (string * Z)) (s : string) : option (string * Z) :=
  match state with
  | Some (_, depth) => if (depth <=? 0)%Z && endswith s "}" then None else state
  | None => None
  end.
(** One line of the loop of [_parse] *)
Definition parse_line (acc : list (string * rule) * option (string * Z)) (line : string)
    : list (string * rule) * option (string * Z) :=
  let s := strip line in
  let state := in_func acc.2 s in
  (acc.1
   ++ omap (λ m, (λ r, (group_text m 1, r)) <$> assign_rule (fst <$> state) (group_text m 2)) (re_finditer ASSIGN line)
   ++ for_rules s ++ read_rules s,
   after_line state s).
(** [_parse]: the rules of each variable, in the order of the script *)
Definition ARRAY : regex :=
  RSeq [RLineBegin; RSpaces; RGroup 1 NAME; RStr "=("; RGroup 2 (RLazy any_char); RStr ")"; RSpaces; RLineEnd].
Definition parse (script : string) : list (string * rule) :=
  (foldl parse_line (map (λ m, (group_text m 1, RArray (group_text m 2))) (re_finditer ARRAY script), None)
     (splitlines script)).1.

(** The arguments of the calls of a function *)
Definition calls (script func : string) : list (list string) :=
  omap (λ line,
    let s := strip line in
    if startswith s (func +:+ " ") || str_eqb s func then
      match shlex_split false s with Ok l => Some (tail l) | Raise _ => None end
    else None) (splitlines script).

(** A set of values, or [None] for a token that does not resolve *)
Definition resolved : Type := option (list string).

Section resolver.
Context (script : string) (env : list (string * string)).

Definition rules : list (string * rule) := parse script.
Definition rules_of (name : string) : list rule := omap (λ r, if str_eqb r.1 name then Some r.2 else None) rules.

(** The union over a loop that stops with [None] *)
Fixpoint union_of {A} (f : A → result resolved) (l : list A) : result resolved :=
  match l with
  | [] => Ok (Some [])
  | x :: l => got <- f x ;;
              match got with
              | None => Ok None
              | Some xs => rmap (option_map (app xs)) (union_of f l)
              end
  end.

(** [args[n - 1]], which is the last one for [$0] *)
Definition nth_arg (args : list string) (n : nat) : result (option string) :=
  if length args <? n then Ok None else
  match n with
  | O => match last args with Some a => Ok (Some a) | None => Raise IndexError end
  | S n => Ok (args !! n)
  end.
Definition ITEMS : regex := RSeq [RStr "${"; RGroup 1 NAME; RStr "[@]}"].

(** [_rule], where [values] resolves the tokens that the rule names *)
Definition rule_values (values : string → result resolved) (r : rule) : result resolved :=
  match r with
  | RValue raw => values raw
  | RArg f n =>
      union_of (λ args, a <- nth_arg args n ;; match a with Some a => values a | None => Ok None end) (calls script f)
  | RArray items => rmap Some (shlex_split true items)
  | RWords words =>
      ws <- shlex_split false words ;;
      union_of (λ w,
        match re_fullmatch ITEMS w with
        | Some m => values ("$" +:+ group_text m 1)
        | None => if startswith w "$" then rmap (option_map (λ l, concat (map split_ws l))) (values w)
                  else Ok (Some [w])
        end) ws
  | RField var sep i =>
      src <- values ("$" +:+ var) ;;
      Ok (match src with
          | Some l => mapM (λ s, str_split s (String sep "") !! i) l
          | None => None
          end)
  end.

(** [values]: every literal that a token can take.  A variable is not resolved
    through itself, so each call in depth names a further variable of the
    script. *)
Fixpoint values_from (n : nat) (seen : list string) (token : string) : result resolved :=
  let tok := unquote token in
  if negb (contains "$" tok) then Ok (Some [tok]) else
  match re_match VAR tok with
  | None => Ok None
  | Some v =>
      let name := group_or v 1 2 in
      if str_mem name seen then Ok None else
      match n with
      | O => Raise OutOfFuel
      | S n =>
          let own := match alist_get name env with Some x => [x] | None => [] end in
          got <- union_of (rule_values (values_from n (name :: seen))) (rules_of name) ;;
          Ok (match got with
              | Some l => match own ++ l with [] => None | out => Some out end
              | None => None
              end)
      end
  end.
Definition values (token : string) : result resolved := values_from (S (S (length rules))) [] token.
End resolver.

(** ** The reads *)

(** (verb, name token or None, namespace token or None) *)
Definition read : Type := string * option string * option string.

(** The positional words and the namespace of a [kubectl] call *)
Definition takes_value : list string := ["-o"; "--output"; "-l"; "--selector"; "--field-selector"].
Fixpoint kubectl_args (ns : option string) (raw : list string) : option string * list string :=
  match raw with
  | [] => (ns, [])
  | t :: raw' =>
      let next ns := kubectl_args ns raw' in
      let other :=
        if startswith t "--namespace=" || startswith t "-n=" then next (Some (str_partition t "=").2)
        else if negb (startswith t "-") then let '(ns', rest) := next ns in (ns', t :: rest)
        else match raw' with
             | _ :: raw'' => if str_mem t takes_value then kubectl_args ns raw'' else next ns
             | [] => next ns
             end in
      match raw' with
      | v :: raw'' => if str_mem t ["-n"; "--namespace"] then kubectl_args (Some v) raw'' else other
      | [] => other
      end
  end.

Definition RAW_WORD : regex :=
  ROneOf [RSeq [RLit dquote; RStar (no_char dquote); RLit dquote]; in_single; RPlus (RChr (λ c, negb (is_space c)))].
Definition KUBECTL : regex :=
  RSeq [RWordB; RStr "kubectl"; RWordB; RGroup 1 (RStar (RChr (λ c, negb (in_chars "|;&)<>" c || is_newline c))))].

(** The read of one call, from the text after [kubectl] *)
Definition call_read (text : string) : option read :=
  let toks := match shlex_split false text with Ok l => l | Raise _ => split_ws text end in
  let raw := map f_text (re_finditer RAW_WORD text) in
  if negb (str_mem "get" toks) then None else
  let '(ns, rest) := kubectl_args None raw in
  match rest with
  | verb :: res :: more =>
      if negb (str_eqb verb "get") then None else
      let '(kind, _, slash_name) := str_partition (unquote res) "/" in
      if negb (str_mem kind ["secret"; "secrets"]) then None
      else if negb (str_eqb slash_name "") then Some ("get", Some slash_name, ns)
      else match more with
           | name :: _ => Some ("get", Some name, ns)
           | [] => Some ("list", None, ns)
           end
  | _ => None
  end.
Definition secret_reads (script : string) : list read :=
  omap (λ m, call_read (group_text m 1)) (re_finditer KUBECTL script).

(** ** The grants *)

(** A subject is the ServiceAccount [sa_name] of [sa_ns]. *)
Definition is_subject (sa_ns sa_name : string) (bns default_ns : val) (s : val) : result bool :=
  k <- get s "kind" ;; if negb (py_eq k (VStr "ServiceAccount")) then Ok false else
  n <- get s "name" ;; if negb (py_eq n (VStr sa_name)) then Ok false else
  ns <- get s "namespace" ;; Ok (py_eq (por (por ns bns) default_ns) (VStr sa_ns)).

Definition binding_grants (rs : roles) (sa_ns sa_name verb : string) (ns : val) (name : option string) (default_ns d : val)
    : result bool :=
  kind <- get d "kind" ;;
  if negb (in_tuple kind ["RoleBinding"; "ClusterRoleBinding"]) then Ok false else
  bns <- binding_ns kind d default_ns ;;
  if negb (is_none bns) && negb (py_eq bns ns) then Ok false else
  ss <- get_list d "subjects" ;;
  hit <- anyM (is_subject sa_ns sa_name bns default_ns) ss ;;
  if negb hit then Ok false else
  ref <- get_dict d "roleRef" ;; o <- find_rules rs ref bns ;;
  any_rule (por (default VNone o) (VList [])) (λ r, rule_allows r verb name).

Definition can (docs : list val) (sa verb : string) (ns : val) (name : option string) (default_ns : val) : result bool :=
  rs <- role_rules docs default_ns ;;
  let '(sa_ns, _, sa_name) := str_partition sa "/" in
  anyM (binding_grants rs sa_ns sa_name verb ns name default_ns) docs.

(** ** The check *)

(** [if tok]: a token that is there and is not empty *)
Definition some_token (t : option string) : option string :=
  match t with Some s => if str_eqb s "" then None else Some s | None => None end.

(** [{e["name"]: e["value"] for e in ... if isinstance(e.get("value"), str)}],
    the part with string keys *)
Definition literal_env (c : val) : result (list (string * string)) :=
  es <- get_list c "env" ;;
  kvs <- flatM (λ e, v <- get e "value" ;;
           match v with
           | VStr s => n <- item e "name" ;; _ <- set_of [n] ;;
                       Ok (match n with VStr k => [(k, s)] | _ => [] end)
           | _ => Ok []
           end) es ;;
  Ok (rev kvs).

(** The findings of one read, in the container [c] *)
Definition judge_read (docs : list val) (default_ns pod_ns : val) (sa who script : string) (env : list (string * string))
    (c : val) (r : read) : result (list string) :=
  let '(verb, name_tok, ns_tok) := r in
  namespaces <- (match some_token ns_tok with
                 | Some t => rmap (option_map (λ l, map VStr (sorted_set l))) (values script env t)
                 | None => _ <- set_of [pod_ns] ;; Ok (Some [pod_ns])
                 end) ;;
  names <- (match some_token name_tok with
            | Some t => rmap (option_map (λ l, map Some (sorted_set l))) (values script env t)
            | None => Ok (Some [None])
            end) ;;
  match namespaces, names with
  | Some namespaces, Some names =>
      flatM (λ ns, flatM (λ name,
        ok <- can docs sa verb ns name default_ns ;;
        if ok : bool then Ok [] else
        n <- item c "name" ;;
        let target := match name with Some s => if str_eqb s "" then "secrets" else "secret/" +:+ s | None => "secrets" end in
        Ok [cat [who; " container "; py_str n; " runs `kubectl "; verb; " "; target; " -n "; py_str ns;
                 "`, and ServiceAccount "; sa; " may not"]]) names) namespaces
  | _, _ =>
      n <- item c "name" ;;
      Ok [cat [who; " container "; py_str n; ": cannot resolve the Secret read `kubectl get secret ";
               default "" (some_token name_tok); " -n "; default (py_str pod_ns) (some_token ns_tok); "` to literal names"]]
  end.

(** The namespace, the ServiceAccount and the name of a workload *)
Definition pod_account (d ps default_ns : val) : result (val * string) :=
  m <- item d "metadata" ;; n <- get m "namespace" ;;
  let pod_ns := por n default_ns in
  a <- get ps "serviceAccountName" ;;
  name <- (if truthy a then Ok a else b <- get ps "serviceAccount" ;; Ok (por b (VStr "default"))) ;;
  Ok (pod_ns, cat [py_str pod_ns; "/"; py_str name]).
Definition who_of (d : val) : result string :=
  k <- item d "kind" ;; n <- meta_name d ;; Ok (cat [py_str k; "/"; py_str n]).
Definition judge_container (docs : list val) (default_ns pod_ns : val) (sa who : string) (c : val) : result (list string) :=
  script <- script_of c ;; env <- literal_env c ;;
  flatM (judge_read docs default_ns pod_ns sa who script env c) (secret_reads script).
Definition judge_doc (docs : list val) (default_ns d : val) : result (list string) :=
  ps <- pod_spec d ;;
  if is_none ps then Ok [] else
  '(pod_ns, sa) <- pod_account d ps default_ns ;; who <- who_of d ;;
  ics <- or_empty ps "initContainers" ;; cs <- or_empty ps "containers" ;; l <- added ics cs ;;
  flatM (judge_container docs default_ns pod_ns sa who) l.
Definition check (docs : list val) (default_ns : val) : result (list string) :=
  flatM (judge_doc docs default_ns) docs.

(** [main] over the renders, from the findings so far *)
Definition main (renders : list (list val)) : result Z :=
  out <- foldM (λ out docs, l <- check docs (VStr NS) ;;
                 Ok (out ++ List.filter (λ x, negb (str_mem x out)) l)) [] renders ;;
  Ok (if nonempty out then 1%Z else 0%Z).

(** ** The self-test

    The fixture, as the documents that its YAML gives, and the edits of its
    text.  The renders of the repository are not here. *)

(** The script of the init container, and the one of the container *)
Definition wait_script : string := unquoted (cat
  ["name=`redis-pw`^";
   "ns=`gibson`^";
   "until kubectl get secret -n `${ns}` `${name}` \^";
   "    -o jsonpath='{.data.p}' | grep -q .; do sleep 2; done^"]).
Definition run_script : string := unquoted (cat
  ["has() { local ns=`$1` name=`$2`; kubectl -n `$ns` get secret `$name` >/dev/null; }^";
   "has gibson `$ONE`^";
   "ENTRIES=`b:x c:y`^";
   "for e in $ENTRIES; do^";
   "  S=${e%%:*}^";
   "  kubectl -n gibson get secret `$S` -o json^";
   "done^"]).

Definition metadata : string * val := ("metadata", VDict [("name", VStr "op"); ("namespace", VStr "gibson")]).
Definition FIXTURE (names : list string) (wait run : string) : list val :=
  [VDict [("kind", VStr "ServiceAccount"); metadata];
   VDict [("kind", VStr "Role"); metadata;
          ("rules", VList [VDict [("apiGroups", strs [""]); ("resources", strs ["secrets"]);
                                  ("resourceNames", strs names); ("verbs", strs ["get"])]])];
   VDict [("kind", VStr "RoleBinding"); metadata;
          ("roleRef", VDict [("kind", VStr "Role"); ("name", VStr "op")]);
          ("subjects", VList [VDict [("kind", VStr "ServiceAccount"); ("name", VStr "op"); ("namespace", VStr "gibson")]])];
   VDict [("kind", VStr "Deployment"); metadata;
          ("spec", VDict [("template", VDict [("spec", VDict
             [("serviceAccountName", VStr "op");
              ("initContainers", VList [VDict [("name", VStr "wait"); ("image", VStr "x");
                                               ("command", strs ["/bin/bash"; "-c"]); ("args", strs [wait])]]);
              ("containers", VList [VDict [("name", VStr "c"); ("image", VStr "x");
                                           ("env", VList [VDict [("name", VStr "ONE"); ("value", VStr "a")]]);
                                           ("args", strs [run])]])])])])]].
Definition all_names : list string := ["redis-pw"; "a"; "b"; "c"].
Definition base : list val := FIXTURE all_names wait_script run_script.

Definition edited (old new : string) : list val :=
  FIXTURE all_names (str_replace wait_script (unquoted old) (unquoted new)) (str_replace run_script (unquoted old) (unquoted new)).
Definition cases : list (list val) :=
  [FIXTURE ["a"; "b"; "c"] wait_script run_script;
   edited "has gibson `$ONE`" "has gibson `other`";
   edited "ENTRIES=`b:x c:y`" "ENTRIES=`b:x d:y`";
   edited "ns=`gibson`" "ns=`tenant-a`";
   edited "kubectl -n gibson get secret `$S` -o json" "kubectl -n gibson get secrets -o json";
   edited "S=${e%%:*}" "S=$(echo `$e` | cut -d: -f1)"].

(** [selftest], up to the renders of the repository *)
Definition selftest : result Z :=
  l <- check base (VStr NS) ;;
  if nonempty l then Ok 1%Z else
  missed <- anyM (λ docs, l <- check docs (VStr NS) ;; Ok (negb (nonempty l))) cases ;;
  Ok (if missed : bool then 1%Z else 0%Z).

Lemma secretreads_selftest : selftest = Ok 0%Z.
Proof. vm_compute. reflexivity. Qed.

(** ** What the guard promises

    [values] ends, and gives exactly the literals that the rules of the script
    allow a token; [can] finds a binding and a rule; and after a clean check each
    Secret that a container may name with kubectl is granted to its
    ServiceAccount. *)

(** *** [values] ends *)

Definition ends {A} (m : result A) : Prop := m ≠ Raise OutOfFuel.

Lemma ends_bind {A B} (m : result A) (f : A → result B) :
  ends m → (∀ a, m = Ok a → ends (f a)) → ends (rbind m f).
Proof. unfold ends. destruct m; cbn; [eauto|]. intros H _ E. apply H. congruence. Qed.
Lemma ends_rmap {A B} (f : A → B) (m : result A) : ends m → ends (rmap f m).
Proof. unfold ends. destruct m; cbn; congruence. Qed.
Lemma ends_Ok {A} (a : A) : ends (Ok a).
Proof. done. Qed.

Lemma lex_ends comments s :
  (∀ st token quoted, ends (lex comments st token quoted s)) ∧ (∀ token quoted, ends (skip_line comments token quoted s)).
Proof.
  induction s as [|c s [IHl IHs]]; (split; [intros st|]; intros token quoted).
  - destruct st; cbn [lex]; done.
  - done.
  - destruct st as [| |q|[q|]]; cbn [lex]; repeat case_match; auto using ends_rmap.
  - cbn [skip_line]. case_match; auto.
Qed.
Lemma shlex_ends comments s : ends (shlex_split comments s).
Proof. apply lex_ends. Qed.

Lemma union_of_ends {A} (f : A → result resolved) l : (∀ x, x ∈ l → ends (f x)) → ends (union_of f l).
Proof.
  induction l as [|x l IH]; intros H; [done|]. cbn [union_of]. apply ends_bind; [apply H; left|].
  intros [xs|] _; [|done]. apply ends_rmap, IH. intros y Hy. apply H. by right.
Qed.
Lemma nth_arg_ends args n : ends (nth_arg args n).
Proof. unfold nth_arg. destruct (_ <? _); [done|]. destruct n; [by destruct (last args)|done]. Qed.

Lemma rule_values_ends script values r : (∀ t, ends (values t)) → ends (rule_values script values r).
Proof.
  intros Hv. destruct r as [items|f n|var sep i|raw|words]; cbn [rule_values].
  - apply ends_rmap, shlex_ends.
  - apply union_of_ends. intros args _. apply ends_bind; [apply nth_arg_ends|]. by intros [a|] _.
  - apply ends_bind; [done|]. done.
  - done.
  - apply ends_bind; [apply shlex_ends|]. intros ws _. apply union_of_ends. intros w _.
    destruct (re_fullmatch ITEMS w); [done|]. destruct (startswith w "$"); [by apply ends_rmap|done].
Qed.

Lemma rules_of_elem script name r : r ∈ rules_of script name ↔ (name, r) ∈ rules script.
Proof.
  unfold rules_of. rewrite list_elem_of_omap. split.
  - intros ([k r'] & Hk & H). cbn in H. destruct (str_eqb k name) eqn:E; [|done]. apply str_eqb_eq in E as ->. congruence.
  - intros H. exists (name, r). split; [done|]. cbn. by rewrite str_eqb_refl.
Qed.

(** A name in depth is one of the script's variables, and each is there once. *)
Lemma values_from_ends script env n seen token :
  NoDup seen → seen ⊆ (rules script).*1 → (length (rules script) < n + length seen)%nat →
  ends (values_from script env n seen token).
Proof.
  revert seen token. induction n as [|n IH]; intros seen token Hd Hs Hn.
  - apply (NoDup_submseteq seen) in Hs; [|done]. apply submseteq_length in Hs. rewrite length_fmap in Hs. lia.
  - cbn [values_from]. destruct (negb _); [done|]. destruct (re_match VAR _) as [v|]; [|done].
    destruct (str_mem (group_or v 1 2) seen) eqn:Em; [done|]. apply str_mem_false in Em.
    set (name := group_or v 1 2) in *.
    apply ends_bind; [|intros [l|] _; [by destruct (_ ++ l)|done]]. apply union_of_ends. intros r Hr.
    apply rule_values_ends. intros t. apply IH.
    + by constructor.
    + apply rules_of_elem in Hr. intros x [->|Hx]%elem_of_cons; [|by apply Hs].
      apply list_elem_of_fmap. by exists (name, r).
    + cbn. lia.
Qed.

(** [values] ends on each script and token: the depth that [values] gives
    its recursion is enough, whatever cycles the assignments have. *)
Theorem values_ends script env token : values script env token ≠ Raise OutOfFuel.
Proof.
  apply values_from_ends; [constructor|apply list_subseteq_nil|simpl; lia].
Qed.

(** *** What a token can be *)

Section meaning.
Context (script : string) (env : list (string * string)).

(** The variable that a token is, [$NAME] or [${NAME}] *)
Definition variable (token name : string) : Prop :=
  contains "$" (unquote token) = true ∧ ∃ m, re_match VAR (unquote token) = Some m ∧ name = group_or m 1 2.

(** [takes token v]: the token can be [v] when the script runs: a literal, a
    literal of the env, or a value that a rule of the variable gives. *)
Inductive takes : string → string → Prop :=
  | takes_literal token : contains "$" (unquote token) = false → takes token (unquote token)
  | takes_env token name v : variable token name → alist_get name env = Some v → takes token v
  | takes_rule token name r v : variable token name → (name, r) ∈ rules script → gives r v → takes token v
with gives : rule → string → Prop :=
  | gives_value raw v : takes raw v → gives (RValue raw) v
  | gives_arg f n args a v :
      args ∈ calls script f → nth_arg args n = Ok (Some a) → takes a v → gives (RArg f n) v
  | gives_item items ws v : shlex_split true items = Ok ws → v ∈ ws → gives (RArray items) v
  | gives_each words ws w m v :
      shlex_split false words = Ok ws → w ∈ ws → re_fullmatch ITEMS w = Some m →
      takes ("$" +:+ group_text m 1) v → gives (RWords words) v
  | gives_split words ws w g v :
      shlex_split false words = Ok ws → w ∈ ws → re_fullmatch ITEMS w = None → startswith w "$" = true →
      takes w g → v ∈ split_ws g → gives (RWords words) v
  | gives_word words ws w :
      shlex_split false words = Ok ws → w ∈ ws → re_fullmatch ITEMS w = None → startswith w "$" = false →
      gives (RWords words) w
  | gives_field var sep i s v :
      takes ("$" +:+ var) s → str_split s (String sep "") !! i = Some v → gives (RField var sep i) v.

(** The loop gives a set when each step does. *)
Lemma union_of_Some {A} (f : A → result resolved) l out :
  union_of f l = Ok (Some out) →
  (∀ x, x ∈ l → ∃ xs, f x = Ok (Some xs)) ∧ ∀ v, v ∈ out ↔ ∃ x xs, x ∈ l ∧ f x = Ok (Some xs) ∧ v ∈ xs.
Proof.
  revert out. induction l as [|x l IH]; intros out; cbn [union_of].
  - intros [= <-]. split; [by intros ? ?%elem_of_nil|]. intros v. split; [by intros ?%elem_of_nil|].
    by intros (? & ? & ?%elem_of_nil & _).
  - intros (got & Hx & H)%bind_Ok. destruct got as [xs|]; [|done].
    apply rmap_Ok in H as ([out'|] & Hl & H); [|done]. injection H as <-.
    destruct (IH _ Hl) as [Ha Hv]. split.
    + intros y [->|Hy]%elem_of_cons; eauto.
    + intros v. rewrite elem_of_app, Hv. split.
      * intros [?|(y & ys & ? & ? & ?)]; [exists x, xs|exists y, ys]; (split_and!; [|done..]); [left|by right].
      * intros (y & ys & [->|Hy]%elem_of_cons & Hf & Hin); [left|right; eauto]. congruence.
Qed.

(** What [values] is worth below a depth *)
Definition exact (values : string → result resolved) : Prop :=
  ∀ token l, values token = Ok (Some l) → ∀ v, v ∈ l ↔ takes token v.

Lemma arg_values_exact values f n l :
  exact values → rule_values script values (RArg f n) = Ok (Some l) → ∀ v, v ∈ l ↔ gives (RArg f n) v.
Proof.
  intros Hx H v. destruct (union_of_Some _ _ _ H) as [Ha Hv]. rewrite Hv. split.
  - intros (args & xs & Hin & E & Hxs). apply bind_Ok in E as ([a|] & En & E); [|done].
    eapply gives_arg; [done|done|]. by eapply Hx.
  - inversion 1 as [|? ? args a ? Hin En Ht| | | | |]; subst. destruct (Ha args Hin) as [xs E]. exists args, xs.
    split_and!; [done..|]. rewrite En in E. by apply (Hx _ _ E).
Qed.

Lemma word_values_exact values words l :
  exact values → rule_values script values (RWords words) = Ok (Some l) → ∀ v, v ∈ l ↔ gives (RWords words) v.
Proof.
  intros Hx (ws & Ews & H)%bind_Ok v. destruct (union_of_Some _ _ _ H) as [Ha Hv]. rewrite Hv. split.
  - intros (w & xs & Hin & E & Hxs). destruct (re_fullmatch ITEMS w) as [m|] eqn:Em.
    + eapply gives_each; [done..|]. by eapply Hx.
    + destruct (startswith w "$") eqn:Es.
      * apply rmap_Ok in E as ([g|] & Eg & E); [|done]. injection E as <-.
        apply elem_of_concat in Hxs as (k & (y & -> & Hy)%list_elem_of_fmap & Hk).
        eapply gives_split; [done..| |done]. by eapply Hx.
      * injection E as <-. apply list_elem_of_singleton in Hxs as ->. by eapply gives_word.
  - intros Hg. assert (∃ w, w ∈ ws ∧ ∀ xs, (match re_fullmatch ITEMS w with
        | Some m => values ("$" +:+ group_text m 1)
        | None => if startswith w "$" then rmap (option_map (λ l, concat (map split_ws l))) (values w)
                  else Ok (Some [w]) end) = Ok (Some xs) → v ∈ xs) as (w & Hw & Hin).
    { inversion Hg as [| | |? ws' w m ? E Hin Em Ht|? ws' w g ? E Hin Em Es Ht Hs|? ws' w E Hin Em Es|]; subst;
        replace ws' with ws in Hin by congruence.
      - exists w. split; [done|]. intros xs. rewrite Em. intros E'. by apply (Hx _ _ E').
      - exists w. split; [done|]. intros xs. rewrite Em, Es. intros ([y|] & Ey & Hy)%rmap_Ok; [|done].
        injection Hy as <-. apply elem_of_concat. exists (split_ws g). split; [|done].
        apply list_elem_of_fmap. exists g. split; [done|]. by apply (Hx _ _ Ey).
      - exists v. split; [done|]. intros xs. rewrite Em, Es. intros [= <-]. by left. }
    destruct (Ha w Hw) as [xs E]. exists w, xs. split_and!; [done..|by apply Hin].
Qed.

Lemma rule_values_exact values r l :
  exact values → rule_values script values r = Ok (Some l) → ∀ v, v ∈ l ↔ gives r v.
Proof.
  intros Hx H v. destruct r as [items|f n|var sep i|raw|words].
  - apply rmap_Ok in H as (ws & E & [= ->]). split; [by eapply gives_item|]. inversion 1; subst. congruence.
  - by eapply arg_values_exact.
  - apply bind_Ok in H as ([src|] & E & H); [|done]. injection H as H. apply mapM_Some in H. split.
    + intros Hv. apply list_elem_of_lookup in Hv as [j Hj]. destruct (Forall2_lookup_r _ _ _ _ _ H Hj) as (s & Hs & Hf).
      eapply gives_field; [|done]. apply (Hx _ _ E). by eapply list_elem_of_lookup_2.
    + inversion 1 as [| | | | | |? ? ? s ? Ht Hf]; subst. apply (Hx _ _ E), list_elem_of_lookup in Ht as [j Hj].
      destruct (Forall2_lookup_l _ _ _ _ _ H Hj) as (v' & Hv & Hf'). eapply list_elem_of_lookup_2.
      rewrite Hv. congruence.
  - split; [intros; constructor; by apply (Hx _ _ H)|]. inversion 1; subst. by apply (Hx _ _ H).
  - by eapply word_values_exact.
Qed.

Lemma values_from_exact n seen : exact (values_from script env n seen).
Proof.
  revert seen. induction n as [|n IH]; intros seen token l; cbn [values_from];
    (destruct (contains "$" (unquote token)) eqn:Ec; cbn [negb];
      [|intros [= <-] v; rewrite list_elem_of_singleton; split;
        [intros ->; by constructor|by inversion 1 as [|? ? ? [??]|? ? ? ? [??]]; subst; congruence]]);
    (destruct (re_match VAR (unquote token)) as [m|] eqn:Em; [|done]); (destruct (str_mem _ _); [done|]); [done|].
  intros (got & Hg & H)%bind_Ok v. destruct got as [k|]; [|done]. set (name := group_or m 1 2) in *.
  assert (variable token name) as Hvar by (split; [done|]; by exists m).
  assert (∀ name', variable token name' → name' = name) as Hname by (intros ? [_ (? & ? & ->)]; subst name; congruence).
  destruct (union_of_Some _ _ _ Hg) as [Ha Hv].
  assert (l = (match alist_get name env with Some x => [x] | None => [] end) ++ k) as ->
    by (destruct (_ ++ k); [done|congruence]).
  rewrite elem_of_app, Hv. split.
  - intros [Ho|(r & xs & Hr & E & Hin)].
    + destruct (alist_get name env) as [x|] eqn:Ex; [|by apply elem_of_nil in Ho].
      apply list_elem_of_singleton in Ho as ->. by eapply takes_env.
    + apply rules_of_elem in Hr. eapply takes_rule; [done..|]. by eapply (rule_values_exact _ _ _ (IH _)).
  - inversion 1 as [? Hc|? name' ? Hn He|? name' r ? Hn Hr Hgv]; subst; [congruence| |]; apply Hname in Hn as ->.
    + left. rewrite He. by left.
    + right. apply rules_of_elem in Hr. destruct (Ha r Hr) as [xs E]. exists r, xs. split_and!; [done..|].
      by eapply (rule_values_exact _ _ _ (IH _)).
Qed.
Lemma values_exact : exact (values script env).
Proof. apply values_from_exact. Qed.
End meaning.

(** *** Grants *)

(** RBAC lets the ServiceAccount use [verb] on the Secret in [ns]: a binding
    that reaches [ns] names it, and the bound role has a rule for the Secret. *)
Inductive granted (docs : list val) (default_ns : val) (sa_ns sa_name verb : string) (ns : val) (name : option string) : Prop :=
  | Granted d rs bns ss s rules l r :
      role_rules docs default_ns = Ok rs → d ∈ docs →
      in_tuple (fld d "kind") ["RoleBinding"; "ClusterRoleBinding"] = true →
      binding_ns (fld d "kind") d default_ns = Ok bns → bns = VNone ∨ py_eq bns ns = true →
      get_list d "subjects" = Ok ss → s ∈ ss →
      fld s "kind" = VStr "ServiceAccount" → fld s "name" = VStr sa_name →
      por (por (fld s "namespace") bns) default_ns = VStr sa_ns →
      find_rules rs (por (fld d "roleRef") (VDict [])) bns = Ok (Some rules) →
      py_iter (por rules (VList [])) = Ok l → r ∈ l → rule_allows r verb name = Ok true →
      (∀ prs : list policy_rule, rules = rules_val prs → ∃ pr, pr ∈ prs ∧ reads_secret pr verb name) →
      granted docs default_ns sa_ns sa_name verb ns name.

Lemma is_subject_true sa_ns sa_name bns dns s :
  is_subject sa_ns sa_name bns dns s = Ok true →
  fld s "kind" = VStr "ServiceAccount" ∧ fld s "name" = VStr sa_name ∧ por (por (fld s "namespace") bns) dns = VStr sa_ns.
Proof.
  unfold is_subject. intros (k & ->%get_Ok & H)%bind_Ok.
  destruct (py_eq (fld s "kind") _) eqn:Ek; [|done]. apply bind_Ok in H as (n & ->%get_Ok & H).
  destruct (py_eq (fld s "name") _) eqn:En; [|done]. apply bind_Ok in H as (w & ->%get_Ok & H).
  injection H as H. by apply py_eq_str_r in Ek, En, H.
Qed.

Lemma typed_rule rules l r verb name (prs : list policy_rule) :
  rules = rules_val prs → py_iter (por rules (VList [])) = Ok l → r ∈ l → rule_allows r verb name = Ok true →
  ∃ pr, pr ∈ prs ∧ reads_secret pr verb name.
Proof.
  intros -> Hl Hr Ha. unfold rules_val in Hl. rewrite iter_por_list in Hl. injection Hl as <-.
  apply list_elem_of_fmap in Hr as (pr & -> & Hpr). exists pr. split; [done|].
  by apply (computes_true _ _ (rule_allows_computes pr verb name)).
Qed.

Lemma can_granted docs sa verb ns name dns :
  can docs sa verb ns name dns = Ok true →
  granted docs dns (str_partition sa "/").1.1 (str_partition sa "/").2 verb ns name.
Proof.
  unfold can. intros (rs & Ers & H)%bind_Ok. destruct (str_partition sa "/") as [[sa_ns sep] sa_name].
  apply anyM_true in H as (d & Hd & H). unfold binding_grants in H.
  apply bind_Ok in H as (kind & ->%get_Ok & H). destruct (in_tuple (fld d "kind") _) eqn:Ek; [|done].
  apply bind_Ok in H as (bns & Hbns & H). destruct (negb (is_none bns) && _) eqn:En; [done|].
  apply bind_Ok in H as (ss & Hss & H). apply bind_Ok in H as (hit & Hhit & H). destruct hit; [|done].
  apply anyM_true in Hhit as (s & Hs & (? & ? & ?)%is_subject_true).
  apply bind_Ok in H as (ref & ->%por_dict_fld & H). apply bind_Ok in H as (o & Ho & H).
  unfold any_rule in H. apply bind_Ok in H as (l & Hl & H). apply anyM_true in H as (r & Hr & Ha).
  destruct o as [rules|]; [|injection Hl as <-; by apply elem_of_nil in Hr].
  eapply (Granted _ _ _ _ _ _ _ d rs bns ss s rules l r); try done.
  - apply andb_false_iff in En as [En|En]; apply negb_false_iff in En; [left; by destruct bns|by right].
  - intros prs Hp. by eapply typed_rule.
Qed.

(** *** A clean check *)

(** The workload [d] runs a container with the script and the literal env. *)
Inductive runs (default_ns d : val) : val → string → string → list (string * string) → Prop :=
  | Runs ps pod_ns sa ics cs l c script env :
      pod_spec d = Ok ps → is_none ps = false → pod_account d ps default_ns = Ok (pod_ns, sa) →
      or_empty ps "initContainers" = Ok ics → or_empty ps "containers" = Ok cs → added ics cs = Ok l → c ∈ l →
      script_of c = Ok script → literal_env c = Ok env → runs default_ns d pod_ns sa script env.

(** The namespaces and the names that the tokens of a read can mean *)
Definition means_ns (script : string) (env : list (string * string)) (pod_ns : val) (t : option string) (ns : val) : Prop :=
  match some_token t with Some t => ∃ v, takes script env t v ∧ ns = VStr v | None => ns = pod_ns end.
Definition means_name (script : string) (env : list (string * string)) (t name : option string) : Prop :=
  match some_token t with Some t => ∃ v, takes script env t v ∧ name = Some v | None => name = None end.

Lemma values_nonempty script env token l : values script env token = Ok (Some l) → ∃ v, v ∈ l.
Proof.
  unfold values. cbn [values_from]. destruct (negb _); [intros [= <-]; eexists; by left|].
  destruct (re_match VAR _); [|done]. destruct (str_mem _ _); [done|].
  intros ([k|] & _ & H)%bind_Ok; [|done]. destruct (_ ++ k) as [|x k'] eqn:E; [done|]. injection H as <-.
  exists x. left.
Qed.

Lemma resolved_list {A} (f : string → A) script env t l :
  rmap (option_map (λ l, map f (sorted_set l))) (values script env t) = Ok (Some l) →
  (∃ v, takes script env t v) ∧ ∀ v, takes script env t v → f v ∈ l.
Proof.
  intros ([k|] & E & H)%rmap_Ok; [|done]. injection H as <-. split.
  - destruct (values_nonempty _ _ _ _ E) as [v Hv]. exists v. by apply (values_exact script env t k E).
  - intros v Hv. apply list_elem_of_fmap. exists v. split; [done|]. apply sorted_set_elem.
    by apply (values_exact script env t k E).
Qed.

Lemma clean_read docs dns pod_ns sa who script env c verb nt st :
  judge_read docs dns pod_ns sa who script env c (verb, nt, st) = Ok [] →
  (∃ ns, means_ns script env pod_ns st ns) ∧ (∃ name, means_name script env nt name) ∧
  ∀ ns name, means_ns script env pod_ns st ns → means_name script env nt name →
    granted docs dns (str_partition sa "/").1.1 (str_partition sa "/").2 verb ns name.
Proof.
  unfold judge_read. intros (nss & Hns & H)%bind_Ok. apply bind_Ok in H as (names & Hnames & H).
  destruct nss as [nss|]; [|by ok_inv]. destruct names as [names|]; [|by ok_inv].
  assert ((∃ ns, means_ns script env pod_ns st ns) ∧ ∀ ns, means_ns script env pod_ns st ns → ns ∈ nss) as [Hn1 Hn2].
  { unfold means_ns. destruct (some_token st) as [t|].
    - apply resolved_list in Hns as [[v Hv] Hall]. split; [by exists (VStr v), v|]. intros ? (w & Hw & ->). auto.
    - ok_inv. split; [by eexists|]. intros ? ->. left. }
  assert ((∃ name, means_name script env nt name) ∧ ∀ name, means_name script env nt name → name ∈ names) as [Hm1 Hm2].
  { unfold means_name. destruct (some_token nt) as [t|].
    - apply resolved_list in Hnames as [[v Hv] Hall]. split; [by exists (Some v), v|]. intros ? (w & Hw & ->). auto.
    - ok_inv. split; [by eexists|]. intros ? ->. left. }
  split_and!; [done..|]. intros ns name Hmn Hmm. apply can_granted.
  assert (flatM (λ name, ok <- can docs sa verb ns name dns ;;
        if ok : bool then Ok [] else
        n <- item c "name" ;;
        let target := match name with Some s => if str_eqb s "" then "secrets" else "secret/" +:+ s | None => "secrets" end in
        Ok [cat [who; " container "; py_str n; " runs `kubectl "; verb; " "; target; " -n "; py_str ns;
                 "`, and ServiceAccount "; sa; " may not"]]) names = Ok []) as Hf by exact (proj1 (flatM_nil _ _) H ns (Hn2 _ Hmn)).
  pose proof (proj1 (flatM_nil _ _) Hf name (Hm2 _ Hmm)) as (ok & Hok & Hf')%bind_Ok.
  destruct ok; [done|]. apply bind_Ok in Hf' as (? & _ & [=]).
Qed.

(** C3: after a clean check, each kubectl read of a Secret in a container
    resolves to namespaces and names, and for each namespace and name that its
    tokens can mean, RBAC grants the ServiceAccount of the pod that read. *)
Theorem clean_reads_are_granted docs dns d pod_ns sa script env verb nt st :
  check docs dns = Ok [] → d ∈ docs → runs dns d pod_ns sa script env → (verb, nt, st) ∈ secret_reads script →
  (∃ ns, means_ns script env pod_ns st ns) ∧ (∃ name, means_name script env nt name) ∧
  ∀ ns name, means_ns script env pod_ns st ns → means_name script env nt name →
    granted docs dns (str_partition sa "/").1.1 (str_partition sa "/").2 verb ns name.
Proof.
  intros Hc Hd [ps pod_ns' sa' ics cs l c script' env' Hps Hn Hacc Hics Hcs Hl Hin Hs He] Hr.
  pose proof (proj1 (flatM_nil _ _) Hc d Hd) as H. unfold judge_doc in H. rewrite Hps in H. cbn [rbind] in H.
  rewrite Hn, Hacc in H. cbn [rbind] in H. apply bind_Ok in H as (who & _ & H). rewrite Hics, Hcs in H. cbn [rbind] in H.
  rewrite Hl in H. cbn [rbind] in H. pose proof (proj1 (flatM_nil _ _) H c Hin) as Hj. unfold judge_container in Hj.
  rewrite Hs, He in Hj. cbn [rbind] in Hj. eapply clean_read. exact (proj1 (flatM_nil _ _) Hj _ Hr).
Qed.

(** The init container of the fixture *)
Definition w_doc : val := List.nth 3 base VNone.
Definition w_pod : val := fld (fld (fld w_doc "spec") "template") "spec".
Definition w_containers : list val := match added (fld w_pod "initContainers") (fld w_pod "containers") with Ok l => l | _ => [] end.
Definition w_container : val := List.nth 0 w_containers VNone.
Definition w_script : string := match script_of w_container with Ok s => s | _ => "" end.
Definition w_token (name : string) : string := unquoted (cat ["`${"; name; "}`"]).

Lemma w_token_takes name v : values w_script [] (w_token name) = Ok (Some [v]) → takes w_script [] (w_token name) v.
Proof. intros H. apply (values_exact _ _ _ _ H). left. Qed.

Lemma clean_reads_are_granted_witness :
  check base (VStr NS) = Ok [] ∧ granted base (VStr NS) "gibson" "op" "get" (VStr "gibson") (Some "redis-pw").
Proof.
  assert (check base (VStr NS) = Ok []) as Hc by (vm_compute; reflexivity). split; [exact Hc|].
  destruct (clean_reads_are_granted base (VStr NS) w_doc (VStr "gibson") "gibson/op" w_script []
              "get" (Some (w_token "name")) (Some (w_token "ns"))) as (_ & _ & H).
  - exact Hc.
  - do 3 right. left.
  - apply (Runs _ _ w_pod _ _ (fld w_pod "initContainers") (fld w_pod "containers") w_containers w_container);
      try (vm_compute; reflexivity). left.
  - vm_compute. left.
  - apply H.
    + exists "gibson". split; [apply w_token_takes; vm_compute; reflexivity|reflexivity].
    + exists "redis-pw". split; [apply w_token_takes; vm_compute; reflexivity|reflexivity].
Defined.

(** C18: a token that [values] resolves has at least one value, and its values
    are exactly those that the assignments, loops, reads and calls of the
    script and the literal env of the container allow it. *)
Theorem values_are_what_tokens_take script env token l :
  values script env token = Ok (Some l) → l ≠ [] ∧ ∀ v, v ∈ l ↔ takes script env token v.
Proof.
  intros H. split; [|by apply values_exact].
  destruct (values_nonempty _ _ _ _ H) as [v Hv]. intros ->. by apply elem_of_nil in Hv.
Qed.
Lemma values_are_what_tokens_take_witness : takes w_script [] (w_token "ns") "gibson".
Proof.
  destruct (values_are_what_tokens_take w_script [] (w_token "ns") ["gibson"]) as [_ H]; [vm_compute; reflexivity|].
  apply H. left.
Defined.
