(* ===== verification/JwtPayload.v ===== *)
(** * scripts/check-edge-jwt-payload-unforgeable.py: who writes x-jwt-payload

    The guard reads the filters of the rendered edge and asks that jwt_authn
    strips the header of a client on each path before ext_authz reads it.  The
    text of a config map is parsed by [yaml_load], an argument. *)
From S2P Require Import Prelude PyStr PyVal EdgeRoutes.

Definition TRUSTED_HEADER : string := "x-jwt-payload".
Definition JWT : string := "envoy.filters.http.jwt_authn".
Definition EXT_AUTHZ : string := "envoy.filters.http.ext_authz".
Definition HCM : string := "envoy.filters.network.http_connection_manager".

(** ** The filters of a config *)

(** (label, typed_config) of each HTTP connection manager.  The source yields
    them one by one; here the list is built first. *)
Definition labelled (listener f : val) : result (list (string * val)) :=
  n <- get f "name" ;;
  if negb (py_eq n (VStr HCM)) then Ok [] else
  tc <- get_dict f "typed_config" ;;
  l <- get_default listener "name" (VStr "?") ;; s <- get_default tc "stat_prefix" (VStr "?") ;;
  Ok [(cat [py_str l; "/"; py_str s], tc)].
Definition connection_managers (cfg : val) : result (list (string * val)) :=
  ls <- listeners_of cfg ;;
  flatM (λ listener, cs <- get_default listener "filter_chains" (VList []) ;; cs <- py_iter cs ;;
    flatM (λ chain, fs <- get_default chain "filters" (VList []) ;; fs <- py_iter fs ;;
      flatM (labelled listener) fs) cs) ls.

(** ** The requirements *)

(** [f] of the value of [k] in a dict *)
Fixpoint at_key {A} (f : val → A) (k : string) (d : list (string * val)) : option A :=
  match d with
  | [] => None
  | (k', v) :: d => if str_eqb k k' then Some (f v) else at_key f k d
  end.
Definition empty_requirement (where_ : string) : string :=
  cat [where_; ": empty requirement (allow-all: x-jwt-payload is not stripped)"].
Definition nth_place (where_ : string) (i : nat) : string := cat [where_; "["; str_of_int (Z.of_nat i); "]"].
(** The findings of [n] elements that are strings, which are no requirements *)
Definition no_requirements (where_ : string) (n : nat) : list string :=
  map (λ i, empty_requirement (nth_place where_ i)) (seq 0 n).
(** The findings of each element of [l], from the place [i] *)
Fixpoint each_from (f : val → string → result (list string)) (where_ : string) (i : nat) (l : list val) : result (list string) :=
  match l with
  | [] => Ok []
  | v :: l => a <- f v (nth_place where_ i) ;; b <- each_from f where_ (S i) l ;; Ok (a ++ b)
  end.
(** The requirements of [(req[key] or {}).get("requirements") or []], judged *)
Definition inner_findings (f : val → string → result (list string)) (where_ key : string) (v : val) : result (list string) :=
  let at_ := cat [where_; "."; key] in
  let none := [cat [where_; ": "; key; " with no requirements"]] in
  if negb (truthy v) then Ok none else
  match v with
  | VDict d =>
      match at_key (λ inner,
        if negb (truthy inner) then Ok none else
        match inner with
        | VList l => each_from f at_ 0 l
        | VStr s => Ok (no_requirements at_ (String.length s))
        | VDict d => Ok (no_requirements at_ (length d))
        | _ => Raise TypeError
        end) "requirements" d with
      | Some r => r
      | None => Ok none
      end
  | _ => Raise AttributeError
  end.
Fixpoint requirement_findings (req : val) (where_ : string) {struct req} : result (list string) :=
  match req with
  | VDict ((_ :: _) as d) =>
      let judge key := default (Ok []) (at_key (λ v, inner_findings requirement_findings where_ key v) key d) in
      a <- judge "requires_any" ;; b <- judge "requires_all" ;; Ok (a ++ b)
  | _ => Ok [empty_requirement where_]
  end.

(** ** The audit *)

(** [True] when the scope turns ext_authz off and each route answers locally *)
Definition answers_locally (r : val) : result bool :=
  a <- orR (str_in "direct_response" r) (str_in "redirect" r) ;;
  if (a : bool) then notR (str_in "route" r) else Ok false.
Definition _sealed (scope : val) (routes : list val) : result bool :=
  t <- get_dict scope "typed_per_filter_config" ;; ea <- get_dict t EXT_AUTHZ ;;
  local <- allM answers_locally routes ;;
  off <- get_truthy ea "disabled" ;; Ok (off && nonempty routes && local).
Definition overrides (scope : val) : result bool :=
  t <- get_dict scope "typed_per_filter_config" ;; str_in JWT t.

Definition judge_provider (where_ : string) (kv : string * val) : result (list string) :=
  x <- get kv.2 "forward_payload_header" ;; h <- as_str (por x (VStr "")) ;;
  let header := lower h in
  Ok (if str_eqb header TRUSTED_HEADER then [] else
      [cat [where_; ": provider "; kv.1; " forwards its payload to "; repr_str (if str_eqb header "" then "nothing" else header);
            ", not "; repr_str TRUSTED_HEADER; ", so a route that requires it leaves a client's "; TRUSTED_HEADER; " in place"]]).
Definition judge_rule (where_ : string) (ir : nat * val) : result (list string) :=
  req <- get ir.2 "requires" ;; m <- get ir.2 "match" ;;
  requirement_findings req (cat [where_; ": rule "; str_of_int (Z.of_nat ir.1); " "; py_str m]).
Definition judge_last (where_ : string) (rules : list val) : result (list string) :=
  match last rules with
  | None => Ok []
  | Some r =>
      x <- get r "match" ;;
      Ok (if py_eq (por x (VDict [])) (VDict [("prefix", VStr "/")]) then [] else
          [cat [where_; ": the last jwt_authn rule is "; py_str x; ", not prefix "; String dquote "/"; String dquote ", ";
                "so some path meets no verifier"]])
  end.
(** The findings of a jwt_authn filter *)
Definition judge_jwt (where_ : string) (jwt : val) : result (list string) :=
  ps <- get_dict jwt "providers" ;;
  kvs <- items ps ;;
  bad_providers <- flatM (judge_provider where_) kvs ;;
  bad_keys <- flatM (λ key, b <- get_truthy jwt key ;;
    Ok (if (b : bool) then [cat [where_; ": jwt_authn uses "; key; ", which this guard cannot judge"]] else []))
    ["requirement_map"; "filter_state_rules"] ;;
  rs <- get_list jwt "rules" ;;
  bad_rules <- flatM (judge_rule where_) (imap pair rs) ;;
  bad_last <- judge_last where_ rs ;;
  Ok ((if truthy ps then [] else [cat [where_; ": jwt_authn has no providers"]]) ++ bad_providers ++ bad_keys
      ++ (if nonempty rs then [] else [cat [where_; ": jwt_authn has no rules, so no path meets a verifier"]])
      ++ bad_rules ++ bad_last).

Definition judge_route (where_ : string) (vh r : val) : result (list string) :=
  o <- overrides r ;;
  if negb o then Ok [] else
  s <- _sealed r [r] ;;
  if (s : bool) then Ok [] else
  m <- get r "match" ;; n <- get vh "name" ;;
  Ok [cat [where_; ": route "; py_str m; " in "; py_str n; " overrides jwt_authn and can still reach ext_authz or an upstream"]].
Definition judge_vhost (where_ : string) (vh : val) : result (list string) :=
  routes <- get_list vh "routes" ;;
  o <- overrides vh ;;
  whole <- (if negb o then Ok [] else
            s <- _sealed vh routes ;;
            if (s : bool) then Ok [] else
            n <- get vh "name" ;;
            Ok [cat [where_; ": virtual host "; py_str n; " overrides jwt_authn and can still reach ext_authz or an upstream"]]) ;;
  each <- flatM (judge_route where_ vh) routes ;; Ok (whole ++ each).

(** [names.index(x)], of a name that is in the list *)
Fixpoint index_of (x : string) (names : list val) : nat :=
  match names with
  | [] => 0
  | n :: names => if py_eq n (VStr x) then 0 else S (index_of x names)
  end.
Definition has_name (x : string) (names : list val) : bool := existsb (λ n, py_eq n (VStr x)) names.

(** One connection manager: [None] when it does not run ext_authz *)
Definition judge_manager (cm : string) (lt : string * val) : result (option (list string)) :=
  let '(label, tc) := lt in
  filters <- get_list tc "http_filters" ;;
  names <- mapR (λ h, get h "name") filters ;;
  if negb (has_name EXT_AUTHZ names) then Ok None else
  let where_ := cat [cm; ": "; label] in
  if negb (has_name JWT names) || (index_of EXT_AUTHZ names <? index_of JWT names) then
    Ok (Some [cat [where_; ": ext_authz runs without jwt_authn before it"]])
  else
  f <- (fs <- item tc "http_filters" ;; index fs (index_of JWT names)) ;;
  jwt <- get_dict f "typed_config" ;;
  bad <- judge_jwt where_ jwt ;;
  rc <- get_dict tc "route_config" ;; vhs <- get_list rc "virtual_hosts" ;;
  hosts <- flatM (judge_vhost where_) vhs ;; Ok (Some (bad ++ hosts)).

Section audit.
Context (yaml_load : string → result val).

(** The config maps with a config of the edge *)
Definition edge_config (d : val) (value : val) : result (list (string * val)) :=
  a <- str_in "static_resources" value ;; if negb a then Ok [] else
  b <- str_in "http_connection_manager" value ;; if negb b then Ok [] else
  cfg <- match value with VStr text => yaml_load text | _ => Raise AttributeError end ;;
  ls <- listeners_of cfg ;;
  edge <- anyM (λ l, n <- get l "name" ;; Ok (py_eq n (VStr "edge_tls"))) ls ;;
  if (edge : bool) then n <- meta_name d ;; Ok [(py_str n, cfg)] else Ok [].
Definition envoy_configs (docs : list val) : result (list (string * val)) :=
  flatM (λ d,
    kind <- get d "kind" ;;
    if negb (py_eq kind (VStr "ConfigMap")) then Ok [] else
    _ <- meta_name d ;; data <- get_dict d "data" ;; kvs <- items data ;;
    flatM (λ kv, edge_config d kv.2) kvs) docs.

(** The findings of one config: it runs ext_authz somewhere. *)
Definition judge_config (cc : string * val) : result (list string) :=
  hcms <- connection_managers cc.2 ;;
  l <- mapR (judge_manager cc.1) hcms ;;
  Ok (concat (omap id l)
      ++ (if nonempty (omap id l) then [] else [cat [cc.1; ": no connection manager runs ext_authz: this guard is blind"]])).
Definition audit (docs : list val) : result (list string) :=
  configs <- envoy_configs docs ;;
  if negb (nonempty configs) then
    Ok ["no Envoy edge config (a listener named edge_tls) in the render: this guard is blind"]
  else flatM judge_config configs.

Definition main (docs : list val) : result Z :=
  bad <- audit (List.filter truthy docs) ;; Ok (if nonempty bad then 1%Z else 0%Z).
End audit.

(** ** The self-test

    The clean connection manager, the edits of its [typed_config], and the
    config map that holds it.  [yaml.safe_dump] and [yaml.safe_load] are the
    identity on the config, so the parser gives the edited config back. *)

Definition prefix (p : string) : val := str_dict [("prefix", p)].
Definition to_header (h : string) : val := str_dict [("forward_payload_header", h)].
Definition requires (r : list (string * val)) : string * val := ("requires", VDict r).
Definition provider (p : string) : val := str_dict [("provider_name", p)].

Definition _clean : val :=
  VDict [("stat_prefix", VStr "api_ingress");
    ("route_config", VDict [("name", VStr "api_routes"); ("virtual_hosts", VList
       [VDict [("name", VStr "api"); ("routes", VList
          [VDict [("match", prefix "/"); ("route", str_dict [("cluster", "daemon")])]])]])]);
    ("http_filters", VList
       [VDict [("name", VStr JWT); ("typed_config", VDict
          [("providers", VDict [("zitadel_dashboard", to_header TRUSTED_HEADER); ("zitadel_s2s", to_header TRUSTED_HEADER)]);
           ("rules", VList
              [VDict [("match", prefix "/gibson.identity.v1.IdentityService/");
                      requires [("requires_any", VDict [("requirements", VList
                        [provider "zitadel_dashboard"; VDict [("allow_missing_or_failed", VDict [])]])])]];
               VDict [("match", prefix "/"); ("requires", provider "zitadel_s2s")]])])];
        VDict [("name", VStr EXT_AUTHZ); ("typed_config", VDict [])];
        VDict [("name", VStr "envoy.filters.http.router"); ("typed_config", VDict [])]])].

Definition off : val := VDict [("disabled", VBool true)].
Definition _misdirected (ext_authz_off : bool) : val :=
  VDict [("name", VStr "misdirected"); ("domains", strs ["*"]);
    ("typed_per_filter_config", VDict ((JWT, off) :: (if ext_authz_off then [(EXT_AUTHZ, off)] else [])));
    ("routes", VList [VDict [("match", prefix "/"); ("direct_response", VDict [("status", VInt 421)])]])].

(** [_docs] of the connection manager: its config map and the config in it *)
Definition _docs : list val :=
  [VDict [("kind", VStr "ConfigMap"); ("metadata", str_dict [("name", "gibson-envoy")]);
          ("data", str_dict [("envoy.yaml", "# http_connection_manager static_resources")])]].
Definition config (tc : val) : val :=
  VDict [("static_resources", VDict [("listeners", VList [VDict [("name", VStr "edge_tls");
    ("filter_chains", VList [VDict [("filters", VList
       [VDict [("name", VStr HCM); ("typed_config", tc)]])]])]])])].
Definition audit_of (tc : val) : result (list string) := audit (λ _, Ok (config tc)) _docs.

(** *** The edits *)

Definition jwt_path : list place := [K "http_filters"; I 0; K "typed_config"].
Definition vhosts : list place := [K "route_config"; K "virtual_hosts"].
Definition on_list (f : list val → list val) (v : val) : val := match v with VList l => VList (f l) | _ => v end.
Definition per_filter (l : list (string * val)) : val → val := λ v, dict_with v "typed_per_filter_config" (VDict l).

Definition cases : list (val → val) :=
  [edit [K "http_filters"] (on_list (@rev val));
   edit [K "http_filters"] (on_list (@tail val));
   put (jwt_path ++ [K "providers"; K "zitadel_s2s"; K "forward_payload_header"]) (VStr "x-other");
   pop (jwt_path ++ [K "providers"; K "zitadel_s2s"]) "forward_payload_header";
   put (jwt_path ++ [K "rules"; I 0; K "requires"]) (VDict []);
   pop (jwt_path ++ [K "rules"; I 0]) "requires";
   push (jwt_path ++ [K "rules"; I 0; K "requires"; K "requires_any"; K "requirements"]) (VDict []);
   edit (jwt_path ++ [K "rules"]) (on_list (@removelast val));
   put (jwt_path ++ [K "requirement_map"]) (VDict [("x", provider "zitadel_s2s")]);
   edit (vhosts ++ [I 0; K "routes"; I 0]) (per_filter [(JWT, off)]);
   edit (vhosts ++ [I 0]) (per_filter [(JWT, off)]);
   edit (vhosts ++ [I 0]) (per_filter [(JWT, off); (EXT_AUTHZ, off)]);
   push vhosts (_misdirected false)].

Definition selftest : result Z :=
  missed <- anyM (λ f, l <- audit_of (f _clean) ;; Ok (negb (nonempty l))) cases ;;
  if (missed : bool) then Ok 1%Z else
  clean <- audit_of _clean ;; if nonempty clean then Ok 1%Z else
  sealed <- audit_of (push vhosts (_misdirected true) _clean) ;; if nonempty sealed then Ok 1%Z else
  blind <- audit (λ _, Ok VNone) [] ;;
  Ok (if nonempty blind then 0%Z else 1%Z).

Lemma jwtpayload_selftest : selftest = Ok 0%Z.
Proof. vm_compute. reflexivity. Qed.

(** ** What the guard promises

    The verifiers of Envoy's jwt_authn as the docstring of the script states
    them, on a typed config: which headers the verifier of a path strips.  A
    clean audit strips the trusted header on each path that meets ext_authz. *)

(** *** The typed config and its verifiers *)

Inductive requirement :=
  | AllowAll
  | ByProvider (p : string)
  | ByAudiences (p : string) (audiences : list string)
  | AnyOf (l : list requirement)
  | AllOf (l : list requirement)
  | AllowMissing
  | AllowMissingOrFailed.

(** Induction with the hypothesis at each element of a list *)
Section requirement_ind.
Context (P : requirement → Prop) (Hall : P AllowAll) (Hp : ∀ p, P (ByProvider p)) (Ha : ∀ p l, P (ByAudiences p l))
  (Hany : ∀ l, Forall P l → P (AnyOf l)) (Heach : ∀ l, Forall P l → P (AllOf l))
  (Hm : P AllowMissing) (Hf : P AllowMissingOrFailed).
Fixpoint requirement_nested_ind (r : requirement) : P r :=
  let go := fix go (l : list requirement) : Forall P l :=
    match l with [] => Forall_nil_2 _ | x :: l => Forall_cons_2 _ _ _ (requirement_nested_ind x) (go l) end in
  match r with
  | AllowAll => Hall
  | ByProvider p => Hp p
  | ByAudiences p l => Ha p l
  | AnyOf l => Hany l (go l)
  | AllOf l => Heach l (go l)
  | AllowMissing => Hm
  | AllowMissingOrFailed => Hf
  end.
End requirement_ind.

Fixpoint requirement_val (r : requirement) : val :=
  match r with
  | AllowAll => VDict []
  | ByProvider p => str_dict [("provider_name", p)]
  | ByAudiences p l => VDict [("provider_and_audiences", VDict [("provider_name", VStr p); ("audiences", strs l)])]
  | AnyOf l => VDict [("requires_any", VDict [("requirements", VList (map requirement_val l))])]
  | AllOf l => VDict [("requires_all", VDict [("requirements", VList (map requirement_val l))])]
  | AllowMissing => VDict [("allow_missing", VDict [])]
  | AllowMissingOrFailed => VDict [("allow_missing_or_failed", VDict [])]
  end.

(** A config: the forward header of each provider, and the rules, a match and
    a requirement each. *)
Record jwt_config := JwtConfig {
  j_providers : list (string * string);
  j_rules : list (val * option requirement) }.
Definition rule_val (mr : val * option requirement) : val :=
  VDict (("match", mr.1) :: match mr.2 with Some r => [("requires", requirement_val r)] | None => [] end).
Definition jwt_val (j : jwt_config) : val :=
  VDict [("providers", VDict (map (λ ph, (ph.1, to_header ph.2)) (j_providers j)));
         ("rules", VList (map rule_val (j_rules j)))].

Section envoy.
Context (matches : val → string → bool) (j : jwt_config).

(** [strips r h]: the verifier of [r] removes the header [h] of a client before
    it checks a token.  A verifier of one provider removes the header of that
    provider; one that allows a missing token removes those of all providers;
    the first verifier of a list always runs; the empty one removes nothing. *)
Inductive strips : requirement → string → Prop :=
  | strips_provider p h : (p, h) ∈ j_providers j → strips (ByProvider p) (lower h)
  | strips_audiences p l h : (p, h) ∈ j_providers j → strips (ByAudiences p l) (lower h)
  | strips_any r l h : strips r h → strips (AnyOf (r :: l)) h
  | strips_all r l h : strips r h → strips (AllOf (r :: l)) h
  | strips_missing p h : (p, h) ∈ j_providers j → strips AllowMissing (lower h)
  | strips_failed p h : (p, h) ∈ j_providers j → strips AllowMissingOrFailed (lower h).

(** The first rule that matches a path gives its verifier. *)
Definition rule_of (path : string) : option (val * option requirement) :=
  find (λ mr, matches mr.1 path) (j_rules j).
(** The path meets a verifier that removes the header. *)
Definition stripped (path h : string) : Prop := ∃ m r, rule_of path = Some (m, Some r) ∧ strips r h.

(** Envoy refuses a requirement of a provider that the config does not have. *)
Inductive declared : requirement → Prop :=
  | declared_all : declared AllowAll
  | declared_provider p : p ∈ (j_providers j).*1 → declared (ByProvider p)
  | declared_audiences p l : p ∈ (j_providers j).*1 → declared (ByAudiences p l)
  | declared_any l : Forall declared l → declared (AnyOf l)
  | declared_each l : Forall declared l → declared (AllOf l)
  | declared_missing : declared AllowMissing
  | declared_failed : declared AllowMissingOrFailed.
End envoy.

(** *** A clean filter *)

Lemma at_key_get {A} (f : val → A) k d : at_key f k d = f <$> alist_get k d.
Proof. induction d as [|[k' v] d IH]; [done|]. cbn. by destruct (str_eqb k k'). Qed.

Lemma each_from_nil f w i l : each_from f w i l = Ok [] → ∀ v l', l = v :: l' → f v (nth_place w i) = Ok [].
Proof.
  intros H v l' ->. cbn [each_from] in H. apply bind_Ok in H as (a & Ha & H). apply bind_Ok in H as (b & _ & H).
  injection H as H. apply app_eq_nil in H as [-> _]. exact Ha.
Qed.

Lemma clean_inner key v w :
  key = "requires_any" ∨ key = "requires_all" →
  requirement_findings (VDict [(key, v)]) w = Ok [] → inner_findings requirement_findings w key v = Ok [].
Proof.
  intros Hk H. destruct Hk as [-> | ->]; cbn -[inner_findings] in H.
  - apply bind_Ok in H as (a & Ha & H). rewrite Ha. injection H as H. by rewrite app_nil_r in H; subst.
  - apply bind_Ok in H as (a & Ha & H). rewrite Ha. by injection H as ->.
Qed.

Lemma clean_list key (l : list requirement) w :
  key = "requires_any" ∨ key = "requires_all" →
  requirement_findings (VDict [(key, VDict [("requirements", VList (map requirement_val l))])]) w = Ok [] →
  ∃ r l' w', l = r :: l' ∧ requirement_findings (requirement_val r) w' = Ok [].
Proof.
  intros Hk H%clean_inner; [|done]. destruct l as [|r l]; [discriminate H|].
  exists r, l, (nth_place (cat [w; "."; key]) 0). split; [done|].
  change (each_from requirement_findings (cat [w; "."; key]) 0 (requirement_val r :: map requirement_val l) = Ok []) in H.
  by eapply each_from_nil.
Qed.

(** A requirement without a finding strips the header that all providers use. *)
Lemma clean_requirement (j : jwt_config) h :
  (∀ p x, (p, x) ∈ j_providers j → lower x = h) → j_providers j ≠ [] →
  ∀ r w, declared j r → requirement_findings (requirement_val r) w = Ok [] → strips j r h.
Proof.
  intros Hh Hne.
  assert (∀ p, p ∈ (j_providers j).*1 → ∃ x, (p, x) ∈ j_providers j ∧ h = lower x) as Hp.
  { intros p ([p' x] & -> & Hx)%list_elem_of_fmap. exists x. split; [done|]. symmetry. by eapply Hh. }
  assert (∃ p x, (p, x) ∈ j_providers j ∧ h = lower x) as (p0 & x0 & Hx0 & ->).
  { destruct (j_providers j) as [|[p x] l]; [done|]. exists p, x. split; [left|]. symmetry. eapply Hh. left. }
  induction r as [|p|p auds|l IH|l IH| |] using requirement_nested_ind; intros w Hd H.
  - done.
  - inversion Hd as [|? Hin| | | | |]; subst. destruct (Hp _ Hin) as (x & Hx & ->). by constructor.
  - inversion Hd as [| |? ? Hin| | | |]; subst. destruct (Hp _ Hin) as (x & Hx & ->). by constructor.
  - apply clean_list in H as (r & l' & w' & -> & H); [|by left]. inversion Hd as [| | |? Hf| | |]; subst.
    apply Forall_cons in Hf as [Hr _], IH as [IH _]. apply strips_any. by eapply IH.
  - apply clean_list in H as (r & l' & w' & -> & H); [|by right]. inversion Hd as [| | | |? Hf| |]; subst.
    apply Forall_cons in Hf as [Hr _], IH as [IH _]. apply strips_all. by eapply IH.
  - by eapply strips_missing.
  - by eapply strips_failed.
Qed.

Lemma clean_provider w p h : judge_provider w (p, to_header h) = Ok [] → lower h = TRUSTED_HEADER.
Proof.
  unfold judge_provider. intros H.
  assert ((if str_eqb (lower h) TRUSTED_HEADER then [] else
      [cat [w; ": provider "; p; " forwards its payload to "; repr_str (if str_eqb (lower h) "" then "nothing" else lower h);
            ", not "; repr_str TRUSTED_HEADER; ", so a route that requires it leaves a client's "; TRUSTED_HEADER; " in place"]]) = [])
    as Hl by (destruct h; injection H as H; exact H).
  destruct (str_eqb (lower h) TRUSTED_HEADER) eqn:E; [by apply str_eqb_eq|done].
Qed.

Lemma clean_rule w i m o : judge_rule w (i, rule_val (m, o)) = Ok [] → ∃ r w', o = Some r ∧ requirement_findings (requirement_val r) w' = Ok [].
Proof.
  destruct o as [r|]; [|discriminate]. intros H. eexists r, _. split; [done|].
  unfold judge_rule in H. cbn -[requirement_findings] in H. exact H.
Qed.

Lemma imap_pair_elem {A} (l : list A) x : x ∈ l → ∃ i, (i, x) ∈ imap pair l.
Proof.
  intros [i Hi]%list_elem_of_lookup. exists i. apply list_elem_of_lookup. exists i. by rewrite list_lookup_imap, Hi.
Qed.

Lemma find_last {A} (p : A → bool) (l : list A) x : last l = Some x → p x = true → is_Some (find p l).
Proof.
  intros [l' ->]%last_Some Hp. induction l' as [|y l' IH]; cbn; [rewrite Hp; by eexists|]. destruct (p y); [by eexists|done].
Qed.
Lemma find_elem {A} (p : A → bool) (l : list A) x : find p l = Some x → x ∈ l ∧ p x = true.
Proof. intros [Hin Hp]%find_some. split; [by apply list_elem_of_In|done]. Qed.

Lemma jwt_clean_strips w (matches : val → string → bool) j path :
  (∀ m p, py_eq m (prefix "/") = true → matches m p = true) →
  Forall (λ mr, from_option (declared j) True mr.2) (j_rules j) →
  judge_jwt w (jwt_val j) = Ok [] → stripped matches j path TRUSTED_HEADER.
Proof.
  intros Hslash Hdecl H. unfold judge_jwt in H. apply bind_Ok in H as (ps & Hps & H).
  apply bind_Ok in H as (kvs & Hkvs & H). apply bind_Ok in H as (bp & Hbp & H). apply bind_Ok in H as (bk & _ & H).
  apply bind_Ok in H as (rs & Hrs & H). apply bind_Ok in H as (br & Hbr & H). apply bind_Ok in H as (bl & Hbl & H).
  injection H as H. apply app_eq_nil in H as [H1 H]. apply app_eq_nil in H as [-> H]. apply app_eq_nil in H as [_ H].
  apply app_eq_nil in H as [H2 H]. apply app_eq_nil in H as [-> ->].
  assert (ps = VDict (map (λ ph, (ph.1, to_header ph.2)) (j_providers j))) as ->.
  { unfold get_dict in Hps. cbn in Hps. destruct (j_providers j); by injection Hps as <-. }
  injection Hkvs as <-.
  assert (rs = map rule_val (j_rules j)) as ->.
  { unfold get_list in Hrs. cbn in Hrs. destruct (j_rules j); by injection Hrs as <-. }
  destruct (find_last (λ mr, matches mr.1 path) (j_rules j)) with (x := default (VNone, None) (last (j_rules j)))
    as [[m o] Hf].
  { destruct (last (j_rules j)) as [x|] eqn:E; [done|]. apply last_None in E. by rewrite E in H2. }
  { destruct (last (j_rules j)) as [[m o]|] eqn:E; [|apply last_None in E; by rewrite E in H2].
    apply Hslash. unfold judge_last in Hbl.
    change (map rule_val (j_rules j)) with (rule_val <$> j_rules j) in Hbl. rewrite fmap_last, E in Hbl. cbn -[py_eq] in Hbl.
    unfold por in Hbl. destruct (truthy m) eqn:Et; [|discriminate Hbl].
    destruct (py_eq m (VDict [("prefix", VStr "/")])) eqn:Em; [exact Em|done]. }
  destruct (find_elem _ _ _ Hf) as [Hin Hm].
  destruct (imap_pair_elem (map rule_val (j_rules j)) (rule_val (m, o))) as [i Hi].
  { apply list_elem_of_fmap. by exists (m, o). }
  apply (proj1 (flatM_nil _ _) Hbr), clean_rule in Hi as (r & w' & -> & Hr).
  exists m, r. split; [exact Hf|]. eapply clean_requirement; [| |by apply (proj1 (Forall_forall _ _) Hdecl _ Hin)|done].
  - intros p x Hx. eapply clean_provider, (proj1 (flatM_nil _ _) Hbp). apply list_elem_of_fmap. by exists (p, x).
  - intros Hn. by rewrite Hn in H1.
Qed.

(** *** A clean audit *)

(** The scope turns ext_authz off and each of its routes answers locally. *)
Definition closed (scope : val) (routes : list val) : Prop :=
  truthy (fld (por (fld (por (fld scope "typed_per_filter_config") (VDict [])) EXT_AUTHZ) (VDict [])) "disabled") = true ∧
  routes ≠ [] ∧
  ∀ r, r ∈ routes → (str_in "direct_response" r = Ok true ∨ str_in "redirect" r = Ok true) ∧ str_in "route" r = Ok false.

Lemma answers_locally_true r :
  answers_locally r = Ok true →
  (str_in "direct_response" r = Ok true ∨ str_in "redirect" r = Ok true) ∧ str_in "route" r = Ok false.
Proof.
  unfold answers_locally. intros (a & Ha & H)%bind_Ok. destruct a; [|done]. apply notR_true in H. split; [|done].
  unfold orR in Ha. apply bind_Ok in Ha as (b & Hb & Ha). destruct b; auto.
Qed.

Lemma sealed_closed scope routes : _sealed scope routes = Ok true → closed scope routes.
Proof.
  unfold _sealed. intros (t & ->%por_dict_fld & H)%bind_Ok. apply bind_Ok in H as (ea & ->%por_dict_fld & H).
  apply bind_Ok in H as (local & Hl & H). apply bind_Ok in H as (off & Ho & H). injection H as H.
  apply andb_true_iff in H as [[-> Hr]%andb_true_iff ->]. split_and!.
  - unfold get_truthy in Ho. apply bind_Ok in Ho as (x & ->%get_Ok & Ho). by injection Ho.
  - by destruct routes.
  - intros r Hin. apply answers_locally_true. by apply (proj1 (allM_true _ _) Hl).
Qed.

Lemma clean_vhost w vh routes :
  judge_vhost w vh = Ok [] → get_list vh "routes" = Ok routes →
  (overrides vh = Ok true → closed vh routes) ∧ (∀ r, r ∈ routes → overrides r = Ok true → closed r [r]).
Proof.
  unfold judge_vhost. intros H Hr. rewrite Hr in H. cbn [rbind] in H. apply bind_Ok in H as (o & Ho & H).
  apply bind_Ok in H as (whole & Hw & H). apply bind_Ok in H as (each & He & H). injection H as H.
  apply app_eq_nil in H as [-> ->]. split.
  - intros Ho'. replace o with true in Hw by congruence. cbn [negb] in Hw. apply bind_Ok in Hw as ([] & Hs & Hw).
    + by apply sealed_closed.
    + by ok_inv.
  - intros r Hin Ho'. pose proof (proj1 (flatM_nil _ _) He r Hin) as Hj. unfold judge_route in Hj.
    rewrite Ho' in Hj. cbn [rbind negb] in Hj. apply bind_Ok in Hj as ([] & Hs & Hj); [by apply sealed_closed|by ok_inv].
Qed.

(** jwt_authn with the config [jwt] runs before each ext_authz filter. *)
Inductive jwt_before (tc jwt : val) : Prop :=
  | Before filters i f :
      get_list tc "http_filters" = Ok filters → filters !! i = Some f → fld f "name" = VStr JWT →
      (∀ k g, filters !! k = Some g → fld g "name" = VStr EXT_AUTHZ → (i < k)%nat) →
      jwt = por (fld f "typed_config") (VDict []) → jwt_before tc jwt.

Lemma index_of_lookup x names : has_name x names = true → names !! index_of x names = Some (VStr x).
Proof.
  unfold has_name. induction names as [|n names IH]; cbn; [done|]. destruct (py_eq n (VStr x)) eqn:E; [|done].
  intros _. by apply py_eq_str_r in E as ->.
Qed.
Lemma index_of_first x names k : names !! k = Some (VStr x) → (index_of x names ≤ k)%nat.
Proof.
  revert k. induction names as [|n names IH]; intros [|k]; cbn [index_of lookup list_lookup]; intros H; try done.
  - injection H as ->. by rewrite py_eq_refl_str.
  - destruct (py_eq n (VStr x)); [lia|]. apply IH in H. lia.
Qed.

Lemma names_lookup filters names k g :
  mapR (λ h, get h "name") filters = Ok names → filters !! k = Some g → names !! k = Some (fld g "name").
Proof.
  intros Hm%mapR_Ok Hk. destruct (Forall2_lookup_l _ _ _ _ _ Hm Hk) as (n & Hn & Hg). by apply get_Ok in Hg as ->.
Qed.
Lemma names_lookup_2 filters names k n :
  mapR (λ h, get h "name") filters = Ok names → names !! k = Some n → ∃ g, filters !! k = Some g ∧ fld g "name" = n.
Proof.
  intros Hm%mapR_Ok Hk. destruct (Forall2_lookup_r _ _ _ _ _ Hm Hk) as (g & Hg & H). exists g. by apply get_Ok in H as ->.
Qed.

(** The filters of a manager are a list when one of them has a name. *)
Lemma filters_list tc filters names fs x :
  get_list tc "http_filters" = Ok filters → mapR (λ h, get h "name") filters = Ok names → has_name x names = true →
  item tc "http_filters" = Ok fs → fs = VList filters.
Proof.
  unfold get_list. intros (y & ->%get_Ok & Hf)%bind_Ok Hm Hx ->%item_fld.
  unfold por in Hf. destruct (truthy (fld tc "http_filters")) eqn:Et.
  - destruct (fld tc "http_filters") as [| | |s|l|d]; cbn in Hf; try discriminate; [|by injection Hf as ->|].
    + destruct s as [|c s]; [done|]. injection Hf as <-. discriminate Hm.
    + destruct d as [|[k v] d]; [done|]. injection Hf as <-. discriminate Hm.
  - injection Hf as <-. injection Hm as <-. discriminate Hx.
Qed.

Lemma clean_manager cm label tc filters g :
  judge_manager cm (label, tc) = Ok (Some []) → get_list tc "http_filters" = Ok filters →
  g ∈ filters → fld g "name" = VStr EXT_AUTHZ →
  ∃ jwt w vhs, jwt_before tc jwt ∧ judge_jwt w jwt = Ok [] ∧
    get_list (por (fld tc "route_config") (VDict [])) "virtual_hosts" = Ok vhs ∧ ∀ vh, vh ∈ vhs → judge_vhost w vh = Ok [].
Proof.
  unfold judge_manager. intros H Hf Hg Hn. rewrite Hf in H. cbn [rbind] in H.
  apply bind_Ok in H as (names & Hm & H). destruct (negb (has_name EXT_AUTHZ names)); [done|].
  destruct (negb (has_name JWT names) || _) eqn:E; [by ok_inv|]. apply orb_false_iff in E as [Ej%negb_false_iff El%Nat.ltb_ge].
  apply bind_Ok in H as (f & Hi & H). apply bind_Ok in Hi as (fs & Hfs & Hi).
  rewrite (filters_list _ _ _ _ _ Hf Hm Ej Hfs) in Hi. cbn [index] in Hi.
  destruct (filters !! index_of JWT names) as [f'|] eqn:Ef; [|done]. injection Hi as ->.
  apply bind_Ok in H as (jwt & Hjwt & H). apply por_dict_fld in Hjwt. apply bind_Ok in H as (bad & Hbad & H).
  apply bind_Ok in H as (rc & ->%por_dict_fld & H). apply bind_Ok in H as (vhs & Hvhs & H).
  apply bind_Ok in H as (hosts & Hh & H). injection H as H. apply app_eq_nil in H as [-> ->].
  pose proof (names_lookup _ _ _ _ Hm Ef) as Hj. rewrite (index_of_lookup _ _ Ej) in Hj. injection Hj as Hj.
  exists jwt, (cat [cm; ": "; label]), vhs. split_and!; [|done|done|exact (proj1 (flatM_nil _ _) Hh)].
  eapply (Before _ _ filters (index_of JWT names) f); [done|done|done| |done].
  intros k g' Hk Hg'. pose proof (names_lookup _ _ _ _ Hm Hk) as Hkn. rewrite Hg' in Hkn.
  pose proof (index_of_first _ _ _ Hkn). assert (index_of JWT names ≠ k) as Hne; [|lia].
  intros <-. rewrite (index_of_lookup _ _ Ej) in Hkn. discriminate Hkn.
Qed.

(** C32: on a clean audit, each connection manager of the edge that runs
    ext_authz runs jwt_authn before it, and the verifier of each path removes
    the x-jwt-payload header of the client, whatever way Envoy matches paths,
    as long as the prefix "/" matches each.  A virtual host or route that
    overrides jwt_authn turns ext_authz off and answers locally. *)
Theorem clean_edge_strips_identity yaml_load docs configs cm cfg hcms label tc filters g :
  audit yaml_load docs = Ok [] → envoy_configs yaml_load docs = Ok configs → (cm, cfg) ∈ configs →
  connection_managers cfg = Ok hcms → (label, tc) ∈ hcms → get_list tc "http_filters" = Ok filters →
  g ∈ filters → fld g "name" = VStr EXT_AUTHZ →
  ∃ jwt vhs, jwt_before tc jwt ∧
    (∀ (matches : val → string → bool) j path,
       (∀ m p, py_eq m (prefix "/") = true → matches m p = true) →
       Forall (λ mr, from_option (declared j) True mr.2) (j_rules j) →
       jwt = jwt_val j → stripped matches j path TRUSTED_HEADER) ∧
    get_list (por (fld tc "route_config") (VDict [])) "virtual_hosts" = Ok vhs ∧
    (∀ vh routes, vh ∈ vhs → get_list vh "routes" = Ok routes →
       (overrides vh = Ok true → closed vh routes) ∧ (∀ r, r ∈ routes → overrides r = Ok true → closed r [r])).
Proof.
  unfold audit. intros H Hc Hin Hm Ht Hf Hg Hn. rewrite Hc in H. cbn [rbind] in H.
  destruct (nonempty configs); [|done]. cbn [negb] in H. pose proof (proj1 (flatM_nil _ _) H _ Hin) as Hj.
  unfold judge_config in Hj. cbn [fst snd] in Hj. rewrite Hm in Hj. cbn [rbind] in Hj.
  apply bind_Ok in Hj as (l & Hl & Hj). injection Hj as Hj. apply app_eq_nil in Hj as [Hj _].
  destruct (mapR_elem_2 _ _ _ _ Hl Ht) as (o & Ho & Hjm).
  assert (o = Some []) as ->.
  { destruct o as [bad|].
    - f_equal. apply (proj1 (concat_nil _) Hj). apply list_elem_of_omap. by exists (Some bad).
    - exfalso. unfold judge_manager in Hjm. rewrite Hf in Hjm. cbn [rbind] in Hjm.
      apply bind_Ok in Hjm as (names & Hnames & Hjm). assert (has_name EXT_AUTHZ names = true) as Hh.
      { apply existsb_elem_of. destruct (mapR_elem_2 _ _ _ _ Hnames Hg) as (n & Hin' & Hgn). exists n.
        apply get_Ok in Hgn as ->. split; [done|]. by apply py_eq_str_r. }
      rewrite Hh in Hjm. cbn [negb] in Hjm. destruct (_ || _) in Hjm; [done|]. by ok_inv. }
  destruct (clean_manager _ _ _ _ _ Hjm Hf Hg Hn) as (jwt & w & vhs & Hb & Hjwt & Hv & Hvh).
  exists jwt, vhs. split_and!; [done| |done|].
  - intros matches j path Hslash Hd ->. by eapply jwt_clean_strips.
  - intros vh routes Hin' Hr. eapply clean_vhost; [by apply Hvh|done].
Qed.

(** The clean edge of the self-test, as a typed config *)
Definition w_jwt : jwt_config :=
  JwtConfig [("zitadel_dashboard", TRUSTED_HEADER); ("zitadel_s2s", TRUSTED_HEADER)]
    [(prefix "/gibson.identity.v1.IdentityService/", Some (AnyOf [ByProvider "zitadel_dashboard"; AllowMissingOrFailed]));
     (prefix "/", Some (ByProvider "zitadel_s2s"))].
Definition w_matches (m : val) (p : string) : bool := match fld m "prefix" with VStr s => startswith p s | _ => false end
  || py_eq m (prefix "/").
Definition w_filters : list val := match fld _clean "http_filters" with VList l => l | _ => [] end.

Lemma w_before jwt : jwt_before _clean jwt → jwt = jwt_val w_jwt.
Proof.
  intros [filters i f Hf Hi Hn _ ->]. assert (filters = w_filters) as -> by (injection Hf as <-; reflexivity).
  destruct i as [|[|[|i]]]; try discriminate Hi; injection Hi as <-; try discriminate Hn. reflexivity.
Qed.

Lemma clean_edge_strips_identity_witness :
  audit_of _clean = Ok [] ∧ stripped w_matches w_jwt "/any" TRUSTED_HEADER.
Proof.
  assert (audit_of _clean = Ok []) as Hc by (vm_compute; reflexivity). split; [exact Hc|].
  destruct (clean_edge_strips_identity (λ _, Ok (config _clean)) _docs [("gibson-envoy", config _clean)]
     "gibson-envoy" (config _clean) [("edge_tls/api_ingress", _clean)] "edge_tls/api_ingress" _clean w_filters
     (List.nth 1 w_filters VNone)) as (jwt & vhs & Hb & H & _).
  - exact Hc.
  - vm_compute. reflexivity.
  - left.
  - vm_compute. reflexivity.
  - left.
  - vm_compute. reflexivity.
  - right. left.
  - reflexivity.
  - apply (H w_matches w_jwt "/any").
    + intros m p Hm. unfold w_matches. rewrite Hm. apply orb_true_r.
    + repeat constructor; vm_compute; repeat constructor.
    + by apply w_before.
Defined.
