(* ===== verification/MisdirectedAuthority.v ===== *)
(** * scripts/check-edge-misdirected-authority.py: coalesced requests get 421

    The guard reads the TLS chains of the rendered edge and asks that each one
    answers a request for a host that is not its own with 421.  The config maps
    are found as in EdgeRoutes.v; the live mode is not modelled. *)
From S2P Require Import Prelude PyStr PyVal EdgeRoutes.

Definition LISTENER : string := "edge_tls".
Definition STATUS : Z := 421.
Definition JWT_AUTHN : string := "envoy.filters.http.jwt_authn".
Definition EXT_AUTHZ : string := "envoy.filters.http.ext_authz".
Definition JWT_PER_ROUTE : string := "type.googleapis.com/envoy.extensions.filters.http.jwt_authn.v3.PerRouteConfig".
Definition EXT_AUTHZ_PER_ROUTE : string := "type.googleapis.com/envoy.extensions.filters.http.ext_authz.v3.ExtAuthzPerRoute".

(** A chain of the edge: its index, its match and its HTTP connection manager *)
Record edge_chain := EdgeChain { e_index : nat; e_match : val; e_hcm : val }.

(** [edge_chains]; the source yields them one by one, here the list is built
    first. *)
Definition chain_of (i : nat) (chain f : val) : result (list edge_chain) :=
  tc <- get_dict f "typed_config" ;; rc <- get tc "route_config" ;;
  if is_none rc then Ok [] else m <- get_dict chain "filter_chain_match" ;; Ok [EdgeChain i m tc].
Definition listener_chains (listener : val) : result (list edge_chain) :=
  n <- get listener "name" ;;
  if negb (py_eq n (VStr LISTENER)) then Ok [] else
  cs <- get_default listener "filter_chains" (VList []) ;; cs <- py_iter cs ;;
  flatM (λ ic, fs <- get_default ic.2 "filters" (VList []) ;; fs <- py_iter fs ;;
               flatM (chain_of ic.1 ic.2) fs) (imap pair cs).
Definition edge_chains (cfg : val) : result (list edge_chain) :=
  ls <- listeners_of cfg ;; flatM listener_chains ls.

Definition filter_names (hcm : val) : result (list val) :=
  fs <- get_list hcm "http_filters" ;; names <- mapR (λ f, get f "name") fs ;; set_of names.
(** The virtual hosts with the domain [*] *)
Definition wildcard_vhosts (hcm : val) : result (list val) :=
  rc <- item hcm "route_config" ;; vhs <- get_list rc "virtual_hosts" ;;
  filterM (λ v, ds <- get v "domains" ;; str_in "*" (por ds (VList []))) vhs.

(** ** The audit *)

Definition judge_route (where_ : string) (r : val) : result (list string) :=
  m <- get r "match" ;;
  up <- orR (str_in "route" r) (str_in "redirect" r) ;;
  dr <- get_dict r "direct_response" ;; s <- get dr "status" ;;
  Ok ((if py_eq m (str_dict [("prefix", "/")]) then [] else
         [cat [where_; ": the misdirected route must match every path (prefix '/'), got "; py_repr m]])
      ++ (if (up : bool) then
            [cat [where_; ": the misdirected route must not route or redirect; a '*' virtual host that ";
                  "reaches an upstream is an unauthenticated route (deploy#1204)"]] else [])
      ++ (if py_eq s (VInt STATUS) then [] else
            [cat [where_; ": the misdirected route must answer "; str_of_int STATUS; ", got "; py_repr s]])).
Definition judge_filter (where_ : string) (filters : list val) (per : val) (nt : string * string) : result (list string) :=
  let '(name, typ) := nt in
  if negb (existsb (py_eq (VStr name)) filters) then Ok [] else
  cfg <- get_dict per name ;; t <- get cfg "@type" ;;
  disabled <- (if negb (py_eq t (VStr typ)) then Ok false else d <- get cfg "disabled" ;; Ok (is_true d)) ;;
  Ok (if (disabled : bool) then [] else
      [cat [where_; ": the chain runs "; name; ", so the misdirected virtual host must disable it (";
            typ; " with disabled: true), or a coalesced request gets 401 instead of "; str_of_int STATUS]]).
Definition audit_vhost (where_ : string) (vh : val) (filters : list val) : result (list string) :=
  ds <- get vh "domains" ;;
  rs <- get_list vh "routes" ;;
  bad <- flatM (judge_route where_) rs ;;
  per <- get_dict vh "typed_per_filter_config" ;;
  fs <- flatM (judge_filter where_ filters per) [(JWT_AUTHN, JWT_PER_ROUTE); (EXT_AUTHZ, EXT_AUTHZ_PER_ROUTE)] ;;
  Ok ((if py_eq ds (strs ["*"]) then [] else
         [cat [where_; ": the misdirected virtual host must match exactly ['*'], got "; py_repr ds]])
      ++ (if length rs =? 1 then [] else
            [cat [where_; ": the misdirected virtual host must have exactly one route, got "; str_of_int (Z.of_nat (length rs))]])
      ++ bad ++ fs).

(** One chain: its findings, and whether browsers can reach it *)
Definition judge_chain (cm : string) (c : edge_chain) : result (list string * bool) :=
  rc <- item (e_hcm c) "route_config" ;; name <- get rc "name" ;;
  let where_ := cat [cm; ": "; LISTENER; " chain "; str_of_int (Z.of_nat (e_index c)); " ("; py_str name; ")"] in
  wild <- wildcard_vhosts (e_hcm c) ;;
  restricted <- get_truthy (e_match c) "source_prefix_ranges" ;;
  if (restricted : bool) then
    Ok ([cat [where_; ": a source-restricted chain came back; the in-cluster chain is deleted (charts#163, ADR-0092)"]], false)
  else
  match wild with
  | [vh] => fs <- filter_names (e_hcm c) ;; bad <- audit_vhost where_ vh fs ;; Ok (bad, true)
  | _ => Ok ([cat [where_; ": a browser-facing chain must carry exactly one '*' virtual host that answers ";
                   str_of_int STATUS; " to a coalesced request, got "; str_of_int (Z.of_nat (length wild))]], true)
  end.

Section audit.
Context (yaml_load : string → result val).

Definition envoy_configs : list val → result (list (val * val)) := EdgeRoutes.envoy_configs yaml_load.

Definition audit (docs : list val) : result (list string) :=
  configs <- envoy_configs docs ;;
  if negb (nonempty configs) then
    Ok [cat ["no Envoy edge config (a listener named "; LISTENER; ") in the render: this guard is blind"]]
  else
  l <- flatM (λ cc, cs <- edge_chains cc.2 ;; mapR (judge_chain (py_str cc.1)) cs) configs ;;
  let public_chains := length (List.filter snd l) in
  Ok (concat l.*1
      ++ (if public_chains <? 2 then
            [cat ["fewer than two browser-facing chains on "; LISTENER; " ("; str_of_int (Z.of_nat public_chains);
                  "): this guard is blind"]] else [])).

(** [main], without [--live] *)
Definition main (docs : list val) : result Z :=
  bad <- audit (List.filter truthy docs) ;; Ok (if nonempty bad then 1%Z else 0%Z).
End audit.

(** ** The self-test

    The script edits its own render.  Here an edge with an api chain and a
    public chain stands for it, in the shape that the chart renders, and the
    edits are those of the script.  The edits run on the parsed config, which
    [yaml.safe_dump] and the parser of the audit give back. *)

Definition disabled (typ : string) : val := VDict [("@type", VStr typ); ("disabled", VBool true)].
Definition misdirected : val :=
  VDict [("name", VStr "misdirected"); ("domains", strs ["*"]);
         ("routes", VList [VDict [("match", str_dict [("prefix", "/")]); ("direct_response", VDict [("status", VInt STATUS)])]]);
         ("typed_per_filter_config", VDict [(JWT_AUTHN, disabled JWT_PER_ROUTE); (EXT_AUTHZ, disabled EXT_AUTHZ_PER_ROUTE)])].
Definition hcm (name : string) (filters : list string) : val :=
  VDict [("route_config", VDict [("name", VStr name); ("virtual_hosts", VList
            [VDict [("name", VStr "host"); ("domains", strs [name]);
                    ("routes", VList [VDict [("match", str_dict [("prefix", "/")]); ("route", str_dict [("cluster", "daemon")])]])];
             misdirected])]);
         ("http_filters", VList (map (λ f, str_dict [("name", f)]) filters))].
Definition config_of (chains : list (val * val)) : val :=
  VDict [("static_resources", VDict [("listeners", VList [VDict [("name", VStr LISTENER); ("filter_chains", VList
    (map (λ mh, VDict [("filter_chain_match", mh.1); ("filters", VList [VDict [("typed_config", mh.2)]])]) chains))]])])].
Definition docs : list val :=
  [VDict [("kind", VStr "ConfigMap"); ("metadata", str_dict [("name", "gibson-envoy")]);
          ("data", str_dict [("envoy.yaml", "static_resources")])]].

Definition edge : list (val * val) :=
  [(VDict [], hcm "api_routes" [JWT_AUTHN; EXT_AUTHZ]); (VDict [], hcm "public_routes" [])].
Definition audit_edge (chains : list (val * val)) : result (list string) := audit (λ _, Ok (config_of chains)) docs.

(** *** The edits of the script *)

Definition on_chain (route_config : val) (f : val → val) : list (val * val) → list (val * val) :=
  map (λ mh, if py_eq (fld (fld mh.2 "route_config") "name") route_config then (mh.1, f mh.2) else mh).
Definition vhosts : list place := [K "route_config"; K "virtual_hosts"].
Definition is_wild (v : val) : bool := match str_in "*" (fld v "domains") with Ok b => b | Raise _ => false end.
Definition on_list (f : list val → list val) (v : val) : val := match v with VList l => VList (f l) | _ => v end.
(** [_wild(hcm)], edited in place *)
Definition _wild (f : val → val) : val → val := edit vhosts (on_list (edit_first is_wild f)).
Definition _drop_vhost : val → val := edit vhosts (on_list (List.filter (λ v, negb (is_wild v)))).
Definition _wrong_status : val → val := _wild (put [K "routes"; I 0; K "direct_response"; K "status"] (VInt 404)).
Definition _routes_upstream : val → val :=
  _wild (edit [K "routes"; I 0] (λ r, dict_with (dict_without r "direct_response") "route" (str_dict [("cluster", "gibson_dashboard")]))).
Definition _narrow_match : val → val := _wild (put [K "routes"; I 0; K "match"] (str_dict [("prefix", "/connectors/")])).
Definition _extra_route : val → val :=
  _wild (push [K "routes"] (VDict [("match", str_dict [("prefix", "/x")]); ("direct_response", VDict [("status", VInt STATUS)])])).
Definition _keep_jwt : val → val := _wild (pop [K "typed_per_filter_config"] JWT_AUTHN).
Definition _keep_ext_authz : val → val := _wild (pop [K "typed_per_filter_config"] EXT_AUTHZ).
Definition _restrict_source (chains : list (val * val)) : list (val * val) :=
  match chains with
  | (m, h) :: chains =>
      (dict_with m "source_prefix_ranges" (VList [VDict [("address_prefix", VStr "10.0.0.0"); ("prefix_len", VInt 8)]]), h) :: chains
  | [] => []
  end.

Definition cases (api_rc public_rc : val) : list ((list (val * val) → list (val * val)) * string) :=
  [(on_chain api_rc _drop_vhost, "exactly one '*'");
   (on_chain public_rc _drop_vhost, "exactly one '*'");
   (on_chain api_rc _wrong_status, cat ["must answer "; str_of_int STATUS]);
   (on_chain public_rc _routes_upstream, "must not route");
   (on_chain api_rc _narrow_match, "every path");
   (on_chain public_rc _extra_route, "exactly one route");
   (on_chain api_rc _keep_jwt, JWT_AUTHN);
   (on_chain api_rc _keep_ext_authz, EXT_AUTHZ);
   (_restrict_source, "source-restricted")].
(** The route configs of the chains that browsers reach, with jwt_authn or
    without it *)
Definition public_configs (with_jwt : bool) (cfg : val) : result (list val) :=
  cs <- edge_chains cfg ;;
  flatM (λ c, names <- filter_names (e_hcm c) ;; r <- get_truthy (e_match c) "source_prefix_ranges" ;;
              if Bool.eqb (existsb (py_eq (VStr JWT_AUTHN)) names) with_jwt && negb r
              then rc <- item (e_hcm c) "route_config" ;; n <- item rc "name" ;; Ok [n] else Ok []) cs.
Definition selftest : result Z :=
  api <- public_configs true (config_of edge) ;; public <- public_configs false (config_of edge) ;;
  match api, public with
  | api_rc :: _, public_rc :: _ =>
      clean <- audit_edge edge ;;
      ok <- allM (λ fn, l <- audit_edge (fn.1 edge) ;; Ok (existsb (contains fn.2) l)) (cases api_rc public_rc) ;;
      Ok (if nonempty clean || negb ok then 1%Z else 0%Z)
  | _, _ => Ok 1%Z
  end.

Lemma misdirected_selftest : selftest = Ok 0%Z.
Proof. vm_compute. reflexivity. Qed.

(** ** What the guard promises

    On a clean audit the virtual host that takes the misdirected requests of a
    chain answers each request with 421, by the route matcher of EdgeRoutes.v,
    and the filters that would answer first are off there. *)

(** *** One virtual host *)

Lemma prefix_slash m : py_eq m (str_dict [("prefix", "/")]) = true → m = str_dict [("prefix", "/")].
Proof.
  destruct m as [| | | | |d]; try done. intros H. destruct d as [|[k x] [|? d]]; try discriminate H.
  assert (str_eqb k "prefix" = true ∧ py_eq x (VStr "/") = true) as [->%str_eqb_eq ->%py_eq_str_r]; [|done].
  change ((match (if str_eqb k "prefix" then Some (VStr "/") else None) with Some y => py_eq x y | None => false end) && true = true) in H.
  rewrite andb_true_r in H. by destruct (str_eqb k "prefix").
Qed.
Lemma is_421 s : py_eq s (VInt STATUS) = true → s = VInt STATUS.
Proof.
  destruct s as [| |z| | |]; cbn; try done; [destruct b; done|]. intros H%Z.eqb_eq. by rewrite H.
Qed.

(** The one thing that the virtual host does *)
Definition answers_421 (vh : val) : Prop :=
  ∀ q, startswith (q_path q) "/" = true → outcome vh q = Ok (VStr "direct:421").

Lemma clean_route w r :
  judge_route w r = Ok [] →
  fld r "match" = str_dict [("prefix", "/")] ∧ str_in "route" r = Ok false ∧ str_in "redirect" r = Ok false ∧
  fld (fld r "direct_response") "status" = VInt STATUS ∧ str_in "direct_response" r = Ok true.
Proof.
  unfold judge_route. intros (m & Em & H)%bind_Ok. pose proof (get_Ok _ _ _ Em) as ->.
  destruct r as [| | | | |d]; try discriminate Em. apply bind_Ok in H as (up & Hup & H).
  apply bind_Ok in H as (dr & ->%por_dict_fld & H). apply bind_Ok in H as (s & ->%get_Ok & H). injection H as H.
  apply app_eq_nil in H as [H1%if_nil_cons H]. apply app_eq_nil in H as [H2%if_cons_nil H3%if_nil_cons]. subst up.
  apply orR_false in Hup as [Hr Hd]. apply prefix_slash in H1. apply is_421 in H3.
  change (fld (VDict d) "match" = str_dict [("prefix", "/")]) in H1.
  assert (fld (fld (VDict d) "direct_response") "status" = VInt STATUS ∧ str_in "direct_response" (VDict d) = Ok true) as [??]; [|done].
  change (fld (VDict d) "direct_response") with (default VNone (alist_get "direct_response" d)).
  unfold str_in. unfold por in H3. destruct (alist_get "direct_response" d) as [x|]; cbn [default] in *; [|discriminate H3].
  change (id x) with x in *. by destruct (truthy x); [|discriminate H3].
Qed.

Lemma route_answers r q :
  fld r "match" = str_dict [("prefix", "/")] → fld (fld r "direct_response") "status" = VInt STATUS →
  str_in "direct_response" r = Ok true → startswith (q_path q) "/" = true →
  (m <- get_dict r "match" ;; b <- route_matches m q ;; if (b : bool) then a <- action r ;; Ok (Some a) else Ok None)
  = Ok (Some (VStr "direct:421")).
Proof.
  intros Hm Hs Hd Hq. destruct r as [| | | | |d]; try done.
  unfold get_dict at 1. rewrite get_dict_fld, Hm. cbn [rbind].
  assert (route_matches (por (str_dict [("prefix", "/")]) (VDict [])) q = Ok true) as ->.
  { assert (path_matches (por (str_dict [("prefix", "/")]) (VDict [])) (q_path q) = Ok true) as Hp
      by (change (Ok (startswith (q_path q) "/") = Ok true); by rewrite Hq).
    unfold route_matches. rewrite Hp. reflexivity. }
  cbn [rbind]. unfold action. rewrite Hd. cbn [rbind].
  assert (item (VDict d) "direct_response" = Ok (fld (VDict d) "direct_response")) as ->.
  { unfold str_in in Hd. cbn. by destruct (alist_get "direct_response" d). }
  cbn [rbind]. destruct (fld (VDict d) "direct_response") as [| | | | |e] eqn:E; try discriminate Hs.
  rewrite get_dict_fld, Hs. reflexivity.
Qed.

Lemma host_answers vh r :
  get_list vh "routes" = Ok [r] → fld r "match" = str_dict [("prefix", "/")] →
  fld (fld r "direct_response") "status" = VInt STATUS → str_in "direct_response" r = Ok true → answers_421 vh.
Proof.
  intros Hr Hm Hs Hd q Hq. unfold outcome. rewrite Hr. cbn [rbind firstM]. by rewrite route_answers.
Qed.

(** *** A clean audit *)

(** A filter that the chain runs is off in the virtual host. *)
Definition off_if_run (hcm vh : val) (name typ : string) : Prop :=
  ∀ f fs, get_list hcm "http_filters" = Ok fs → f ∈ fs → fld f "name" = VStr name →
    let cfg := por (fld (por (fld vh "typed_per_filter_config") (VDict [])) name) (VDict []) in
    fld cfg "@type" = VStr typ ∧ fld cfg "disabled" = VBool true.

(** The chain has one virtual host for each other host name, and it answers 421. *)
Inductive misdirects (c : edge_chain) : Prop :=
  | Misdirects vh :
      wildcard_vhosts (e_hcm c) = Ok [vh] → fld vh "domains" = strs ["*"] → answers_421 vh →
      (∀ routes r, get_list vh "routes" = Ok routes → r ∈ routes →
         str_in "route" r = Ok false ∧ str_in "redirect" r = Ok false) →
      off_if_run (e_hcm c) vh JWT_AUTHN JWT_PER_ROUTE → off_if_run (e_hcm c) vh EXT_AUTHZ EXT_AUTHZ_PER_ROUTE →
      misdirects c.

Lemma only_star ds : py_eq ds (strs ["*"]) = true → ds = strs ["*"].
Proof.
  destruct ds as [| | | |l|]; try done. destruct l as [|x [|y l]]; [done| |].
  - intros H. assert (py_eq x (VStr "*") = true) as ->%py_eq_str_r; [|done].
    change (py_eq x (VStr "*") && true = true) in H. by rewrite andb_true_r in H.
  - intros H. change (py_eq x (VStr "*") && false = true) in H. by rewrite andb_false_r in H.
Qed.

Lemma clean_filter w filters per name typ :
  judge_filter w filters per (name, typ) = Ok [] → existsb (py_eq (VStr name)) filters = true →
  fld (por (fld per name) (VDict [])) "@type" = VStr typ ∧ fld (por (fld per name) (VDict [])) "disabled" = VBool true.
Proof.
  unfold judge_filter. intros H Hn. rewrite Hn in H. cbn [negb] in H.
  apply bind_Ok in H as (cfg & ->%por_dict_fld & H). apply bind_Ok in H as (t & ->%get_Ok & H).
  apply bind_Ok in H as (dis & Hd & H). destruct dis; [|done].
  destruct (py_eq (fld _ "@type") _) eqn:Et; cbn [negb] in Hd; [|done]. apply py_eq_str_r in Et as ->.
  apply bind_Ok in Hd as (x & ->%get_Ok & Hd). injection Hd as Hd. apply is_true_eq in Hd as ->. done.
Qed.

Lemma filter_run hcm fs f name filters :
  get_list hcm "http_filters" = Ok fs → f ∈ fs → fld f "name" = VStr name → filter_names hcm = Ok filters →
  existsb (py_eq (VStr name)) filters = true.
Proof.
  unfold filter_names. intros Hfs Hf Hn H. rewrite Hfs in H. cbn [rbind] in H.
  apply bind_Ok in H as (names & Hm & ->%set_of_Ok). apply existsb_py_eq_str.
  destruct (mapR_elem_2 _ _ _ _ Hm Hf) as (n & Hin & Hg). apply get_Ok in Hg as ->. by rewrite <- Hn.
Qed.

Lemma clean_vhost_misdirects w vh hcm filters :
  audit_vhost w vh filters = Ok [] → filter_names hcm = Ok filters →
  fld vh "domains" = strs ["*"] ∧ answers_421 vh ∧
  (∀ routes r, get_list vh "routes" = Ok routes → r ∈ routes → str_in "route" r = Ok false ∧ str_in "redirect" r = Ok false) ∧
  off_if_run hcm vh JWT_AUTHN JWT_PER_ROUTE ∧ off_if_run hcm vh EXT_AUTHZ EXT_AUTHZ_PER_ROUTE.
Proof.
  unfold audit_vhost. intros (ds & ->%get_Ok & H)%bind_Ok Hn. apply bind_Ok in H as (rs & Hrs & H).
  apply bind_Ok in H as (bad & Hbad & H). apply bind_Ok in H as (per & ->%por_dict_fld & H).
  apply bind_Ok in H as (fs & Hfs & H). injection H as H.
  apply app_eq_nil in H as [H1%if_nil_cons H]. apply app_eq_nil in H as [H2%if_nil_cons H].
  apply app_eq_nil in H as [-> ->]. apply Nat.eqb_eq in H2.
  destruct rs as [|r [|? ?]]; try discriminate H2.
  destruct (clean_route _ _ (proj1 (flatM_nil _ _) Hbad r (list_elem_of_here _ _))) as (Hm & Hr & Hd & Hs & Hdr).
  assert (∀ name typ, (name, typ) ∈ [(JWT_AUTHN, JWT_PER_ROUTE); (EXT_AUTHZ, EXT_AUTHZ_PER_ROUTE)] → off_if_run hcm vh name typ) as Hoff.
  { intros name typ Hin f fs Hf Hfin Hname. eapply clean_filter; [exact (proj1 (flatM_nil _ _) Hfs _ Hin)|by eapply filter_run]. }
  split_and!; [by apply only_star|by eapply host_answers| |apply Hoff; left|apply Hoff; right; left].
  intros routes r' Hroutes Hin. replace routes with [r] in Hin by congruence. by apply list_elem_of_singleton in Hin as ->.
Qed.

Lemma judge_chain_clean cm c b :
  judge_chain cm c = Ok ([], b) → b = true ∧ truthy (fld (e_match c) "source_prefix_ranges") = false ∧ misdirects c.
Proof.
  unfold judge_chain. intros (rc & Hrc & H)%bind_Ok. apply bind_Ok in H as (name & Hname & H).
  apply bind_Ok in H as (wild & Hw & H). apply bind_Ok in H as (restricted & Hr & H). destruct restricted; [by ok_inv|].
  unfold get_truthy in Hr. apply bind_Ok in Hr as (x & ->%get_Ok & Hr). injection Hr as Hr.
  destruct wild as [|vh [|? ?]]; [by ok_inv| |by ok_inv].
  apply bind_Ok in H as (fs & Hfs & H). apply bind_Ok in H as (bad & Hbad & H). injection H as -> <-.
  destruct (clean_vhost_misdirects _ _ _ _ Hbad Hfs) as (? & ? & ? & ? & ?). split_and!; [done..|]. by apply (Misdirects _ vh).
Qed.

(** The loop over the configs gives a verdict for each chain. *)
Lemma chains_judged (configs : list (val * val)) l :
  flatM (λ cc, cs <- edge_chains cc.2 ;; mapR (judge_chain (py_str cc.1)) cs) configs = Ok l →
  ∃ k, flatM (λ cc, edge_chains cc.2) configs = Ok k ∧ length k = length l ∧
    ∀ cm cfg cs c, (cm, cfg) ∈ configs → edge_chains cfg = Ok cs → c ∈ cs → ∃ v, v ∈ l ∧ judge_chain (py_str cm) c = Ok v.
Proof.
  revert l. induction configs as [|[cm cfg] configs IH]; cbn [flatM]; intros l H.
  - injection H as <-. exists []. split_and!; [done..|]. by intros ? ? ? ? ?%elem_of_nil.
  - cbn [snd fst] in *. apply bind_Ok in H as (l1 & H1 & H). apply bind_Ok in H1 as (cs & Hcs & Hm).
    apply bind_Ok in H as (l2 & Hl2 & H). injection H as <-. destruct (IH _ Hl2) as (k & Hk & Hlen & Hall).
    exists (cs ++ k). rewrite Hcs, Hk. cbn [rbind]. split_and!; [done| |].
    + rewrite !length_app, Hlen. apply mapR_Ok, Forall2_length in Hm. lia.
    + intros cm' cfg' cs' c [[= -> ->]|Hin]%elem_of_cons Hcs' Hc.
      * replace cs' with cs in Hc by congruence. destruct (mapR_elem_2 _ _ _ _ Hm Hc) as (v & Hv & Hj).
        exists v. split; [|done]. apply elem_of_app. by left.
      * destruct (Hall _ _ _ _ Hin Hcs' Hc) as (v & Hv & Hj). exists v. split; [|done]. apply elem_of_app. by right.
Qed.

(** On a clean audit, no chain of the edge is restricted by source, there
    are at least two, and each one has exactly one virtual host for "*", which
    answers each path with 421 by the matcher that the Zitadel guard plays
    requests on, never routes or redirects, and turns off the jwt_authn and
    ext_authz filters that the chain runs. *)
Theorem clean_edge_misdirects yaml_load docs configs :
  audit yaml_load docs = Ok [] → envoy_configs yaml_load docs = Ok configs →
  (∀ cm cfg cs c, (cm, cfg) ∈ configs → edge_chains cfg = Ok cs → c ∈ cs →
     truthy (fld (e_match c) "source_prefix_ranges") = false ∧ misdirects c) ∧
  ∃ l, flatM (λ cc, edge_chains cc.2) configs = Ok l ∧ (2 ≤ length l)%nat.
Proof.
  unfold audit. intros H Hc. rewrite Hc in H. cbn [rbind] in H. destruct (nonempty configs); [|done]. cbn [negb] in H.
  apply bind_Ok in H as (l & Hl & H). injection H as H. apply app_eq_nil in H as [Hbad Hn%if_cons_nil%Nat.ltb_ge].
  destruct (chains_judged _ _ Hl) as (k & Hk & Hlen & Hall). split.
  - intros cm cfg cs c Hin Hcs Hcin. destruct (Hall _ _ _ _ Hin Hcs Hcin) as ([bad b] & Hv & Hj).
    rewrite (concat_fst_nil _ _ _ Hbad Hv) in Hj. by apply judge_chain_clean in Hj as (_ & ? & ?).
  - exists k. split; [done|]. rewrite Hlen. pose proof (List.filter_length_le snd l). lia.
Qed.

Lemma clean_edge_misdirects_witness :
  audit_edge edge = Ok [] ∧
  ∀ c, c ∈ [EdgeChain 0 (VDict []) (hcm "api_routes" [JWT_AUTHN; EXT_AUTHZ]); EdgeChain 1 (VDict []) (hcm "public_routes" [])] → misdirects c.
Proof.
  assert (audit_edge edge = Ok []) as Hc by (vm_compute; reflexivity). split; [exact Hc|]. intros c Hin.
  destruct (clean_edge_misdirects (λ _, Ok (config_of edge)) docs [(VStr "gibson-envoy", config_of edge)]) as [H _].
  - exact Hc.
  - vm_compute. reflexivity.
  - destruct (H (VStr "gibson-envoy") (config_of edge) _ c (list_elem_of_here _ _) eq_refl Hin) as [_ ?]. done.
Defined.
