(* ===== verification/AccessLog.v ===== *)
(** * scripts/check-edge-access-log-no-credentials.py: no credential in a log

    The guard reads each format string below an [access_log] key of the rendered
    Envoy configs, and asks that no operator of it writes a credential header or
    the query of a path.  The parser of the config maps is an argument. *)
From S2P Require Import Prelude PyStr PyVal Regex.
From Stdlib Require Import Ascii.

Definition MAX_TRUNCATION : Z := 8.
Definition NEVER : list string := ["cookie"; "set-cookie"].
Definition CREDENTIAL : list string := ["authorization"; "proxy-authorization"; "x-api-key"].
Definition CREDENTIAL_SUFFIXES : list string := ["-token"; "-secret"].

(** ** The operators *)

Definition not_paren : regex := RStar (RChr (λ c, negb (Ascii.eqb c ")"))).
Definition digits : regex := RPlus (RChr is_digit).
Definition OPERATOR : regex :=
  RSeq [RStr "%"; RGroup 1 (ROneOf (map RStr ["REQ"; "RESP"; "TRAILER"])); RStr "("; RGroup 2 not_paren; RStr ")";
        ROpt (RCat (RStr ":") (RGroup 3 digits)); RStr "%"].

(** A literal under the ignore-case flag *)
Fixpoint RStrI (s : string) : regex :=
  match s with "" => REps | String c s => RCat (RChr (λ d, Ascii.eqb (lower_char d) (lower_char c))) (RStrI s) end.
(** [(?!NQ)[^)]*] before a closing parenthesis: nothing, or text whose first
    character is no [N], or an [N] without a [Q] after it *)
Definition not_nq : regex :=
  ROneOf [RSeq [RChr (λ c, negb (Ascii.eqb c ")" || Ascii.eqb (lower_char c) "n")); not_paren];
          RSeq [RStrI "N"; RNotAhead (λ c, Ascii.eqb (lower_char c) "q"); not_paren];
          REps].
Definition truncation : regex := ROpt (RCat (RStr ":") digits).
Definition PATH_WITH_QUERY : regex :=
  RAlt (RSeq [RStrI "%REQ("; RSpaces; RStrI ":PATH"; RSpaces; ROpt (RCat (RStr "?") not_paren); RStr ")"; truncation; RStr "%"])
       (RSeq [RStrI "%PATH"; ROpt (RSeq [RStr "("; not_nq; RStr ")"]); truncation; RStr "%"]).

(** ** The strings of the access logs *)

(** The loops over the items of a dict and of a list *)
Fixpoint over_items {A} (f : string → val → list A) (d : list (string * val)) : list A :=
  match d with [] => [] | (k, v) :: d => f k v ++ over_items f d end.
Fixpoint over_list {A} (f : nat → val → list A) (i : nat) (l : list val) : list A :=
  match l with [] => [] | v :: l => f i v ++ over_list f (S i) l end.

Fixpoint _strings (node : val) (path : string) : list (string * string) :=
  match node with
  | VDict d => over_items (λ k v, _strings v (cat [path; "."; k])) d
  | VList l => over_list (λ i v, _strings v (cat [path; "["; str_of_int (Z.of_nat i); "]"])) 0 l
  | VStr s => [(path, s)]
  | _ => []
  end.
Fixpoint access_log_strings (node : val) (path : string) : list (string * string) :=
  match node with
  | VDict d => over_items (λ k v, if str_eqb k "access_log" then _strings v path else access_log_strings v path) d
  | VList l => over_list (λ _ v, access_log_strings v path) 0 l
  | _ => []
  end.

(** ** The audit *)

Definition is_credential (name : string) : bool :=
  let n := lower name in
  str_mem n CREDENTIAL || str_mem n NEVER || existsb (endswith n) CREDENTIAL_SUFFIXES.

Definition judge_name (where_ kind : string) (trunc : option string) (name : string) : result (list string) :=
  let name := strip name in
  if negb (is_credential name) then Ok [] else
  if str_mem (lower name) NEVER then
    Ok [cat [where_; ": logs "; kind; "("; name; "); a cookie header is never logged, truncated or not"]]
  else match trunc with
  | None =>
      Ok [cat [where_; ": logs the whole "; kind; "("; name; ") header; truncate it to at most "; str_of_int MAX_TRUNCATION;
               " characters (:"; str_of_int MAX_TRUNCATION; ") so only the scheme word is kept"]]
  | Some t =>
      match int_of_str t with
      | None => Raise ValueError
      | Some n =>
          Ok (if (MAX_TRUNCATION <? n)%Z then
                [cat [where_; ": logs "; kind; "("; name; "):"; t; "; "; t; " characters reach into the credential, at most ";
                      str_of_int MAX_TRUNCATION; " is the scheme word"]]
              else [])
      end
  end.
Definition judge_operator (where_ : string) (m : found) : result (list string) :=
  flatM (judge_name where_ (group_text m 1) (group m 3)) (str_split (group_text m 2) "?").
Definition judge_string (where_ : string) (ps : string * string) : result (list string) :=
  let where_ := cat [where_; " "; ps.1] in
  ops <- flatM (judge_operator where_) (re_finditer OPERATOR ps.2) ;;
  Ok ((if bool_decide (is_Some (re_search PATH_WITH_QUERY ps.2)) then
         [cat [where_; ": logs the request path with its query string; log %PATH(NQ)% so a query token never reaches the log"]]
       else []) ++ ops).

Section audit.
Context (yaml_load : string → result val).

(** (ConfigMap name, data key, parsed config) of each Envoy config *)
Definition envoy_configs (docs : list val) : result (list (val * string * val)) :=
  flatM (λ d,
    kind <- get d "kind" ;;
    if negb (py_eq kind (VStr "ConfigMap")) then Ok [] else
    data <- get_dict d "data" ;; kvs <- items data ;;
    flatM (λ kv,
      match kv.2 with
      | VStr text =>
          if contains "static_resources" text then n <- meta_name d ;; cfg <- yaml_load text ;; Ok [(n, kv.1, cfg)] else Ok []
      | _ => Ok []
      end) kvs) docs.

Definition audit (docs : list val) : result (list string) :=
  configs <- envoy_configs docs ;;
  if negb (nonempty configs) then Ok ["no Envoy config in the render: this guard is blind"] else
  bad <- flatM (λ '(cm, key, cfg), flatM (judge_string (cat [py_str cm; "/"; key])) (access_log_strings cfg "access_log")) configs ;;
  let logs := concat (map (λ '(cm, key, cfg), access_log_strings cfg "access_log") configs) in
  Ok (bad ++ (if nonempty logs then [] else ["no access_log in any rendered Envoy config: this guard is blind"])).

Definition main (docs : list val) : result Z :=
  bad <- audit (List.filter truthy docs) ;; Ok (if nonempty bad then 1%Z else 0%Z).
End audit.

(** ** The self-test

    The script plants a field in the access log of its own render.  Here a
    config with one access log in the shape that the chart renders stands for
    it; the fields and the verdicts are those of the script. *)

(** [next] of a search in the values of a dict, or in the elements of a list *)
Fixpoint first_some {A B} (f : A → option B) (l : list A) : option B :=
  match l with [] => None | x :: l => match f x with Some y => Some y | None => first_some f l end end.
(** [_first_json_format]: the first one, as the place of it *)
Fixpoint _first_json_format (cfg : val) : option (list place) :=
  match cfg with
  | VDict d =>
      first_some (λ kv, if str_eqb kv.1 "json_format" && is_dict kv.2 then Some [K kv.1]
                        else cons (K kv.1) <$> _first_json_format kv.2) d
  | VList l =>
      (fix go i l := match l with
                     | [] => None
                     | v :: l => match _first_json_format v with Some p => Some (I i :: p) | None => go (S i) l end
                     end) 0 l
  | _ => None
  end.
Definition _plant (field value : string) (cfg : val) : val :=
  match _first_json_format cfg with Some p => put (p ++ [K field]) (VStr value) cfg | None => cfg end.

Definition edge : val :=
  VDict [("static_resources", VDict [("listeners", VList [VDict [("name", VStr "edge_tls");
    ("access_log", VList [VDict [("name", VStr "envoy.access_loggers.stdout");
       ("typed_config", VDict [("log_format", VDict [("json_format",
          str_dict [("method", "%REQ(:METHOD)%"); ("path", "%PATH(NQ:ORIG)%"); ("authz", "%REQ(AUTHORIZATION):6%");
                    ("status", "%RESPONSE_CODE%")])])])]])]])])].
Definition docs : list val :=
  [VDict [("kind", VStr "ConfigMap"); ("metadata", str_dict [("name", "gibson-envoy")]);
          ("data", str_dict [("envoy.yaml", "static_resources")])]].
Definition audit_of (cfg : val) : result (list string) := audit (λ _, Ok cfg) docs.

Definition cases : list (string * string * string) :=
  [("authz", "%REQ(AUTHORIZATION)%", "whole");
   ("authz", "%REQ(AUTHORIZATION):64%", "reach into");
   ("authz", "%REQ(authorization)%", "whole");
   ("authz", "%REQ(X-REQUEST-ID?AUTHORIZATION)%", "whole");
   ("cookie", "%REQ(COOKIE):4%", "never logged");
   ("cookie", "%RESP(SET-COOKIE)%", "never logged");
   ("tok", "%REQ(X-CSRF-TOKEN)%", "whole");
   ("key", "%REQ(X-API-KEY):32%", "reach into");
   ("path", "%REQ(:PATH)%", "query string");
   ("path", "%PATH(WQ:ORIG)%", "query string");
   ("path", "%PATH%", "query string")].
Definition passes : list (string * string) :=
  [("authz", "%REQ(AUTHORIZATION):6%"); ("ua", "%REQ(USER-AGENT)%"); ("path", "%PATH(NQ:ORIG)%")].

Definition selftest : result Z :=
  clean <- audit_of edge ;;
  ok1 <- allM (λ '(f, v, needle), l <- audit_of (_plant f v edge) ;; Ok (existsb (contains needle) l)) cases ;;
  ok2 <- allM (λ '(f, v), l <- audit_of (_plant f v edge) ;; Ok (negb (nonempty l))) passes ;;
  Ok (if nonempty clean || negb ok1 || negb ok2 then 1%Z else 0%Z).

Lemma accesslog_selftest : selftest = Ok 0%Z.
Proof. vm_compute. reflexivity. Qed.

(** ** What the guard promises

    The guard reads each string below an [access_log] key, and on a clean audit
    a line of the log holds at most eight characters of a credential header, no
    cookie, and no query. *)

(** *** The strings that the guard reads *)

(** [within v s]: the string [s] is in the value [v]. *)
Inductive within : val → string → Prop :=
  | within_str s : within (VStr s) s
  | within_item d k v s : (k, v) ∈ d → within v s → within (VDict d) s
  | within_elem l v s : v ∈ l → within v s → within (VList l) s.
(** [logged v s]: the string [s] is in the value of an [access_log] key of [v],
    the outermost one. *)
Inductive logged : val → string → Prop :=
  | logged_here d v s : ("access_log", v) ∈ d → within v s → logged (VDict d) s
  | logged_item d k v s : (k, v) ∈ d → k ≠ "access_log" → logged v s → logged (VDict d) s
  | logged_elem l v s : v ∈ l → logged v s → logged (VList l) s.

Lemma over_items_elem {A} (f : string → val → list A) d x : x ∈ over_items f d ↔ ∃ k v, (k, v) ∈ d ∧ x ∈ f k v.
Proof.
  induction d as [|[k v] d IH]; cbn [over_items].
  - split; [by intros ?%elem_of_nil|]. by intros (? & ? & ?%elem_of_nil & _).
  - rewrite elem_of_app, IH. setoid_rewrite elem_of_cons. split.
    + intros [?|(k' & v' & ? & ?)]; [by exists k, v; auto|by exists k', v'; auto].
    + intros (k' & v' & [[= -> ->]|?] & ?); [by left|right; eauto].
Qed.
Lemma over_list_elem {A} (f : nat → val → list A) i l x :
  x ∈ over_list f i l ↔ ∃ j v, l !! j = Some v ∧ x ∈ f (i + j)%nat v.
Proof.
  revert i. induction l as [|v l IH]; intros i; cbn [over_list].
  - split; [by intros ?%elem_of_nil|]. by intros (? & ? & [=] & _).
  - rewrite elem_of_app, IH. split.
    + intros [H|(j & w & Hj & H)]; [exists 0%nat, v; by rewrite Nat.add_0_r|exists (S j), w].
      split; [done|]. by rewrite Nat.add_succ_r.
    + intros ([|j] & w & Hj & H).
      * injection Hj as ->. rewrite Nat.add_0_r in H. by left.
      * right. exists j, w. split; [done|]. by rewrite Nat.add_succ_r in H.
Qed.

Lemma strings_within v : ∀ path s, (∃ p, (p, s) ∈ _strings v path) ↔ within v s.
Proof.
  induction v as [|b|z|t|l IH|d IH] using val_nested_ind; intros path s; cbn [_strings];
    try (split; [by intros [? ?%elem_of_nil]|by inversion 1]).
  - split; [intros [p [= _ ->]%list_elem_of_singleton]; constructor|]. inversion 1; subst. eexists. by left.
  - setoid_rewrite over_list_elem. rewrite Forall_forall in IH. split.
    + intros (p & j & v & Hj & Hp). apply list_elem_of_lookup_2 in Hj. eapply within_elem; [done|].
      eapply (IH _ Hj). by exists p.
    + inversion 1 as [| |? v ? Hv Hw]; subst. destruct (proj1 (list_elem_of_lookup _ _) Hv) as [j Hj].
      destruct (proj2 (IH _ Hv (cat [path; "["; str_of_int (Z.of_nat (0 + j)); "]"]) s) Hw) as [p Hp]. by exists p, j, v.
  - setoid_rewrite over_items_elem. rewrite Forall_forall in IH. split.
    + intros (p & k & v & Hin & Hp). eapply within_item; [done|]. eapply (IH _ Hin). by exists p.
    + inversion 1 as [|? k v ? Hin Hw|]; subst.
      destruct (proj2 (IH _ Hin (cat [path; "."; k]) s) Hw) as [p Hp]. by exists p, k, v.
Qed.

Lemma strings_logged v : ∀ path s, (∃ p, (p, s) ∈ access_log_strings v path) ↔ logged v s.
Proof.
  induction v as [|b|z|t|l IH|d IH] using val_nested_ind; intros path s; cbn [access_log_strings];
    try (split; [by intros [? ?%elem_of_nil]|by inversion 1]).
  - setoid_rewrite over_list_elem. rewrite Forall_forall in IH. split.
    + intros (p & j & v & Hj & Hp). apply list_elem_of_lookup_2 in Hj. eapply logged_elem; [done|].
      eapply (IH _ Hj). by exists p.
    + inversion 1 as [| |? v ? Hv Hw]; subst. destruct (proj1 (list_elem_of_lookup _ _) Hv) as [j Hj].
      destruct (proj2 (IH _ Hv path s) Hw) as [p Hp]. by exists p, j, v.
  - setoid_rewrite over_items_elem. rewrite Forall_forall in IH. split.
    + intros (p & k & v & Hin & Hp). destruct (str_eqb k "access_log") eqn:Ek.
      * apply str_eqb_eq in Ek as ->. eapply logged_here; [done|]. apply (strings_within v path s). by exists p.
      * eapply logged_item; [done|by intros ->|]. eapply (IH _ Hin). by exists p.
    + inversion 1 as [? v ? Hin Hw|? k v ? Hin Hk Hw|]; subst.
      * destruct (proj2 (strings_within v path s) Hw) as [p Hp]. by exists p, "access_log", v.
      * destruct (proj2 (IH _ Hin path s) Hw) as [p Hp]. exists p, k, v. split; [done|].
        destruct (str_eqb k "access_log") eqn:Ek; [by apply str_eqb_eq in Ek|done].
Qed.

(** *** A clean audit *)

(** What Envoy writes for the value of a header: all of it, or the first
    characters that the operator asks for *)
Definition written (trunc : option string) (value : string) : string :=
  match trunc with
  | None => value
  | Some t => str_slice 0 (Z.to_nat (default 0%Z (int_of_str t))) value
  end.

Lemma length_slice n s : (String.length (str_slice 0 n s) ≤ n)%nat.
Proof.
  unfold str_slice. rewrite Nat.sub_0_r. revert s. induction n as [|n IH]; intros [|c s]; cbn; try lia.
  specialize (IH s). lia.
Qed.

Lemma clean_name w kind trunc name value :
  judge_name w kind trunc name = Ok [] → is_credential (strip name) = true →
  (lower (strip name) ∉ NEVER) ∧ (String.length (written trunc value) ≤ Z.to_nat MAX_TRUNCATION)%nat.
Proof.
  unfold judge_name. intros H Hc. rewrite Hc in H. cbn [negb] in H.
  destruct (str_mem (lower (strip name)) NEVER) eqn:En; [done|]. apply str_mem_false in En. split; [done|].
  destruct trunc as [t|]; [|done]. cbn [written]. destruct (int_of_str t) as [n|]; [|done]. injection H as H%if_cons_nil.
  apply Z.ltb_ge in H. cbn [default]. etrans; [apply length_slice|]. cbn in *. lia.
Qed.

(** On a clean audit, no format string of an access log has an operator
    that writes the query of a path, and for each operator and each header that
    it can name, a credential header is no cookie and at most eight characters
    of its value, whatever the value is, come into the log. *)
Theorem clean_logs_hold_no_credential yaml_load docs configs cm key cfg s :
  audit yaml_load docs = Ok [] → envoy_configs yaml_load docs = Ok configs → (cm, key, cfg) ∈ configs → logged cfg s →
  re_search PATH_WITH_QUERY s = None ∧
  ∀ m name value, m ∈ re_finditer OPERATOR s → name ∈ str_split (group_text m 2) "?" → is_credential (strip name) = true →
    (lower (strip name) ∉ NEVER) ∧ (String.length (written (group m 3) value) ≤ Z.to_nat MAX_TRUNCATION)%nat.
Proof.
  unfold audit. intros H Hc Hin Hs. rewrite Hc in H. cbn [rbind] in H. destruct (nonempty configs); [|done]. cbn [negb] in H.
  apply bind_Ok in H as (bad & Hbad & H). injection H as H. apply app_eq_nil in H as [-> _].
  destruct (proj2 (strings_logged cfg "access_log" s) Hs) as [p Hp].
  pose proof (proj1 (flatM_nil _ _) (proj1 (flatM_nil _ _) Hbad _ Hin) _ Hp) as Hj.
  unfold judge_string in Hj. cbn [fst snd] in Hj. apply bind_Ok in Hj as (ops & Hops & Hj). injection Hj as Hj.
  apply app_eq_nil in Hj as [Hq%if_cons_nil ->]. apply bool_decide_eq_false in Hq. split; [by apply eq_None_not_Some|].
  intros m name value Hm Hname Hcred.
  pose proof (proj1 (flatM_nil _ _) (proj1 (flatM_nil _ _) Hops _ Hm) _ Hname) as Hn. by eapply clean_name.
Qed.

Lemma clean_logs_hold_no_credential_witness :
  audit_of edge = Ok [] ∧ (String.length (written (Some "6") "Bearer eyJhbGciOi") ≤ 8)%nat.
Proof.
  assert (audit_of edge = Ok []) as Hc by (vm_compute; reflexivity). split; [exact Hc|].
  destruct (clean_logs_hold_no_credential (λ _, Ok edge) docs [(VStr "gibson-envoy", "envoy.yaml", edge)]
    (VStr "gibson-envoy") "envoy.yaml" edge "%REQ(AUTHORIZATION):6%") as [_ H].
  - exact Hc.
  - vm_compute. reflexivity.
  - left.
  - eapply (logged_item _ "static_resources"); [left|done|]. eapply (logged_item _ "listeners"); [left|done|].
    eapply logged_elem; [left|]. eapply logged_here; [right; left|]. eapply within_elem; [left|].
    eapply (within_item _ "typed_config"); [right; left|]. eapply (within_item _ "log_format"); [left|].
    eapply (within_item _ "json_format"); [left|]. eapply (within_item _ "authz"); [do 2 right; left|]. constructor.
  - apply (H (Found "" "%REQ(AUTHORIZATION):6%" [(3, "6"); (2, "AUTHORIZATION"); (1, "REQ")] (Some "%"%char) "")
      "AUTHORIZATION" "Bearer eyJhbGciOi"); vm_compute; try reflexivity; left.
Defined.
