(* ===== verification/InstanceAdmin.v ===== *)
(** * scripts/check-instance-admin-roles-scoped.py: who may own the instance

    The guard holds the roles of the OIDC clients, in the values and in the
    rendered snapshots, the two entries of SystemAPIUsers, and the list of
    service accounts in the fga-init Job to what the platform allows. *)
From S2P Require Import Prelude PyStr PyVal Regex.
From Stdlib Require Import Ascii.

Definition INSTANCE_ADMIN_ROLES : list string :=
  ["IAM_OWNER"; "IAM_OWNER_VIEWER"; "IAM_ADMIN_IMPERSONATOR"; "IAM_END_USER_IMPERSONATOR"; "SYSTEM_OWNER"].
Definition BOOTSTRAP_OIDC_CLIENT_NAMES : list string := [].
Definition EXPECTED_SYSTEM_API_USERS : list string := ["gibson-system-bot"; "gibson-system-bot-b"].
Definition EXPECTED_SYSTEM_API_ROLES : list string := ["SYSTEM_OWNER"; "IAM_OWNER"].
Definition EXPECTED_PLATFORM_OPERATOR_SAS : list string := ["gibson-iam-admin"; "gibson-tenant-operator"].
Definition FGA_JOB_PATH : string := "helm/gibson-workloads/templates/fga-init/job.yaml".

(** The back-reference [\1] is the quote that group 1 took: one alternative
    per quote. *)
Definition quoted_with (q : ascii) : regex :=
  RSeq [RGroup 1 (RLit q); RGroup 2 (RLazy RAny); RLit q].
Definition REQUIRED_LINE_RE : regex :=
  RSeq [RLineBegin; RSpaces; RStr "REQUIRED="; RAlt (quoted_with squote) (quoted_with dquote); RSpaces; RLineEnd].

(** ** The lists below a key, at any depth *)
Fixpoint lists_under (key : string) (node : val) : list (list val) :=
  match node with
  | VDict d =>
      concat (map (λ kv, match kv.2 with
                         | VList l => if str_eqb kv.1 key then [l] else lists_under key kv.2
                         | _ => lists_under key kv.2
                         end) d)
  | VList l => concat (map (lists_under key) l)
  | _ => []
  end.
Definition _oidc_clients (node : val) : list (list val) := lists_under "oidcClients" node.
Definition _system_api_users (node : val) : list (list val) := lists_under "SystemAPIUsers" node.

(** [for i, x in enumerate(l)] *)
Definition enumerate {A} (l : list A) : list (nat * A) := imap pair l.

(** ** The OIDC clients *)

(** [sorted(set(roles) & INSTANCE_ADMIN_ROLES)] *)
Definition admin_roles (client : val) : result (list string) :=
  roles <- get_list client "roles" ;;
  roles <- set_of roles ;;
  Ok (sorted_set (omap (λ v, match v with
                             | VStr r => if str_mem r INSTANCE_ADMIN_ROLES then Some r else None
                             | _ => None
                             end) roles)).

(** The body of the loop over the clients; [what] tells the values from the
    render in the message. *)
Definition check_client (path what : string) (ic : nat * val) : result (list string) :=
  let '(i, client) := ic in
  if negb (is_dict client) then Ok [] else
  name <- get client "name" ;;
  let name := por name (VStr (cat ["entry #"; str_of_int (Z.of_nat i)])) in
  boot <- in_set name BOOTSTRAP_OIDC_CLIENT_NAMES ;;
  if boot then Ok [] else
  bad <- admin_roles client ;;
  Ok (if nonempty bad
      then [cat [path; ": "; what; "oidcClients["; py_str name; "] declares instance-administrator role(s) ";
                 str_of_strs bad]]
      else []).

Definition check_values (path : string) (values : val) : result (list string) :=
  flatM (λ clients, flatM (check_client path "") (enumerate clients)) (_oidc_clients values).

Definition check_rendered (path : string) (docs : list val) : result (list string) :=
  flatM (λ doc,
    if negb (is_dict doc) then Ok [] else
    kind <- get doc "kind" ;;
    if negb (py_eq kind (VStr "PlatformBootstrap")) then Ok [] else
    spec <- get_dict doc "spec" ;;
    clients <- get_list spec "oidcClients" ;;
    flatM (check_client path "rendered ") (enumerate clients)) docs.

(** ** The system API users *)

(** [list(roles) != EXPECTED_SYSTEM_API_ROLES] is [false] *)
Definition strs_are (l : list val) (s : list string) : bool := py_eq (VList l) (VList (map VStr s)).

Definition check_entry (path : string) (ue : string * val) : result (list string) :=
  let '(user, entry) := ue in
  entry <- item entry user ;;
  let entry := por entry (VDict []) in
  ms <- get entry "Memberships" ;;
  m <- index (por ms (VList [VDict []])) 0 ;;
  roles <- get (por m (VDict [])) "Roles" ;;
  let roles := por roles (VList []) in
  l <- py_iter roles ;;
  Ok (if strs_are l EXPECTED_SYSTEM_API_ROLES then []
      else [cat [path; ": "; user; " Memberships[0].Roles is "; py_str roles; ", expected exactly ";
                 str_of_strs EXPECTED_SYSTEM_API_ROLES]]).

Definition entry_names (entries : list val) : list string :=
  concat (map (λ e, match e with VDict d => d.*1 | _ => [] end) entries).

Definition check_entries (path : string) (entries : list val) : result (list string) :=
  if bool_decide (entry_names entries = EXPECTED_SYSTEM_API_USERS)
  then flatM (check_entry path) (zip EXPECTED_SYSTEM_API_USERS entries)
  else Ok [cat [path; ": SystemAPIUsers names "; str_of_strs (entry_names entries); ", expected exactly ";
                str_of_strs EXPECTED_SYSTEM_API_USERS]].

Definition check_system_api_users (path : string) (values : val) : result (list string) :=
  match _system_api_users values with
  | [] => Ok [cat [path; ": no SystemAPIUsers entry found (expected exactly "; str_of_strs EXPECTED_SYSTEM_API_USERS; ")"]]
  | lists => flatM (check_entries path) lists
  end.

(** ** The seed list of the fga-init Job *)

(** [text] is [None] when the file does not exist. *)
Definition check_fga_required_list (path : string) (text : option string) : list string :=
  match text with
  | None => [path +:+ ": not found"]
  | Some text =>
      match re_search REQUIRED_LINE_RE text with
      | None => [path +:+ ": no REQUIRED='...' line found for the platform_operator seed allowlist"]
      | Some m =>
          let got := split_ws (group_text m 2) in
          let extra := sorted_set (List.filter (λ s, negb (str_mem s EXPECTED_PLATFORM_OPERATOR_SAS)) got) in
          let missing := sorted_set (List.filter (λ s, negb (str_mem s got)) EXPECTED_PLATFORM_OPERATOR_SAS) in
          let detail := (if nonempty extra then ["unexpected: " +:+ str_of_strs extra] else []) ++
                        (if nonempty missing then ["missing: " +:+ str_of_strs missing] else []) in
          if nonempty extra || nonempty missing
          then [cat [path; ": platform_operator REQUIRED allowlist is "; str_of_strs (sorted_set got); " (";
                     str_join ", " detail; ")"]]
          else []
      end
  end.

(** ** The run: the values files, the text of the Job, the snapshots by name *)
Record tree := Tree {
  values_baseline : val;
  values_yaml : val;
  fga_job : option string;
  goldens : list (string * list val) }.

Definition problems (t : tree) : result (list string) :=
  a <- check_values "helm/gibson/values-baseline.yaml" (values_baseline t) ;;
  b <- check_system_api_users "helm/gibson/values.yaml" (values_yaml t) ;;
  let c := check_fga_required_list FGA_JOB_PATH (fga_job t) in
  let d := if nonempty (goldens t) then [] else ["no rendered snapshots under helm/testdata/golden to check"] in
  e <- flatM (λ '(g, docs), check_rendered g docs) (goldens t) ;;
  Ok (a ++ b ++ c ++ d ++ e).
Definition main (t : tree) : result Z :=
  p <- problems t ;; Ok (if nonempty p then 1%Z else 0%Z).

(** ** The self-test *)

Definition client_of (name : string) (roles : list string) : val := VDict [("name", VStr name); ("roles", strs roles)].
Definition _sysuser (name : string) (roles : list string) : val :=
  VDict [(name, VDict [("Memberships",
    VList [VDict [("MemberType", VStr "System");
                  ("Roles", strs (if nonempty roles then roles else ["SYSTEM_OWNER"; "IAM_OWNER"]))]])])].
Definition _values_fixture (clients system_api_users : option (list val)) : val :=
  let d := [("platformBootstrap", VDict (match clients with Some c => [("oidcClients", VList c)] | None => [] end))] in
  VDict (match system_api_users with
         | Some u => d ++ [("zitadel", VDict [("config", VDict [("SystemAPIUsers", VList u)])])]
         | None => d
         end).

Definition cases : list (list val * bool) :=
  [([client_of "gibson-daemon" ["IAM_ORG_MANAGER"]; client_of "gibson-dashboard" []], true);
   ([client_of "gibson-daemon" ["IAM_OWNER"]], false);
   ([client_of "gibson-tenant-operator" ["IAM_ADMIN_IMPERSONATOR"]], false)].
Definition rendered : list (list val * bool) :=
  [([client_of "gibson-daemon" ["IAM_ORG_MANAGER"]], true); ([client_of "gibson-daemon" ["IAM_OWNER"]], false)].
Definition sysusers_cases : list (list val * bool) :=
  let a := _sysuser "gibson-system-bot" [] in let b := _sysuser "gibson-system-bot-b" [] in
  [([a; b], true); ([a; b; _sysuser "gibson-side-door" ["SYSTEM_OWNER"]], false); ([a], false);
   ([a; _sysuser "gibson-system-bot-b" ["SYSTEM_OWNER"; "IAM_OWNER"; "IAM_END_USER_IMPERSONATOR"]], false);
   ([_sysuser "gibson-system-bot" ["SYSTEM_OWNER"]; b], false);
   ([_sysuser "gibson-renamed-bot" []; b], false)].
Definition fga_cases : list (string * bool) :=
  [("REQUIRED='gibson-iam-admin gibson-tenant-operator'" +:+ newline, true);
   ("REQUIRED='gibson-iam-admin gibson-tenant-operator gibson-dashboard-service'" +:+ newline, false);
   ("REQUIRED='gibson-daemon gibson-tenant-operator'" +:+ newline, false)].

(** Each fixture gets the verdict it wants. *)
Definition verdicts {A} (f : A → result (list string)) (l : list (A * bool)) : result bool :=
  allM (λ '(x, want), p <- f x ;; Ok (Bool.eqb (negb (nonempty p)) want)) l.
Definition selftest : result Z :=
  a <- verdicts (λ c, check_values "p" (_values_fixture (Some c) None)) cases ;;
  if negb a then Ok 2%Z else
  b <- verdicts (λ c, check_rendered "p" [str_dict [("kind", "ConfigMap")];
         VDict [("kind", VStr "PlatformBootstrap"); ("spec", VDict [("oidcClients", VList c)])]]) rendered ;;
  if negb b then Ok 2%Z else
  c <- verdicts (λ u, check_system_api_users "p" (_values_fixture None (Some u))) sysusers_cases ;;
  if negb c then Ok 2%Z else
  d <- verdicts (λ t, Ok (check_fga_required_list "p" (Some t))) fga_cases ;;
  Ok (if d then 0%Z else 2%Z).

Lemma instanceadmin_selftest : selftest = Ok 0%Z.
Proof. vm_compute. reflexivity. Qed.

(** ** What a clean run of check-instance-admin-roles-scoped.py says

    The lists that the guard walks are those below the key at any depth; on a
    clean run no client in them holds an instance-administrator role, the system
    users are the two slots with their two roles, and the seed list is the one
    expected.  Two shapes of SystemAPIUsers that the guard does not look into
    are at the end. *)

(** *** The lists below a key *)
Inductive under (key : string) : val → list val → Prop :=
  | under_here d l : (key, VList l) ∈ d → under key (VDict d) l
  | under_item d k v l : (k, v) ∈ d → k ≠ key ∨ is_list v = false → under key v l → under key (VDict d) l
  | under_elem l v m : v ∈ l → under key v m → under key (VList l) m.

Lemma lists_under_iff key v l : l ∈ lists_under key v ↔ under key v l.
Proof.
  revert l. induction v as [|b|z|t|m IH|d IH] using val_nested_ind; intros l; cbn [lists_under];
    try (split; [by intros ?%elem_of_nil|by inversion 1]); rewrite Forall_forall in IH; rewrite elem_of_concat.
  - split.
    + intros (? & (v & -> & Hv)%list_elem_of_fmap & Hl). eapply under_elem; [done|]. by apply IH.
    + inversion 1 as [| |? v ? Hv Hl]; subst. exists (lists_under key v).
      split; [apply (list_elem_of_fmap_2 _ _ _ Hv)|by apply IH].
  - split.
    + intros (? & ([k v] & -> & Hv)%list_elem_of_fmap & Hl). cbn in Hl. specialize (IH _ Hv). cbn in IH.
      destruct v as [| | | |w|]; try (eapply under_item; [done|by right|by apply IH]).
      destruct (str_eqb k key) eqn:E.
      * apply str_eqb_eq in E as ->. apply list_elem_of_singleton in Hl as ->. by apply under_here.
      * eapply under_item; [done| |by apply IH]. left. intros ->. by rewrite str_eqb_refl in E.
    + inversion 1 as [? ? Hv|? k v ? Hv Hk Hl|]; subst.
      * eexists. split; [apply (list_elem_of_fmap_2 _ _ _ Hv)|]. cbn. rewrite str_eqb_refl. by left.
      * eexists. split; [apply (list_elem_of_fmap_2 _ _ _ Hv)|]. cbn. specialize (IH _ Hv). cbn in IH.
        apply IH in Hl. destruct v; try done. destruct (str_eqb k key) eqn:E; [|done].
        apply str_eqb_eq in E as ->. by destruct Hk.
Qed.

Lemma enumerate_elem {A} (l : list A) x : x ∈ l → ∃ i, (i, x) ∈ enumerate l.
Proof.
  intros [i Hi]%list_elem_of_lookup. exists i. apply list_elem_of_lookup. exists i.
  unfold enumerate. by rewrite list_lookup_imap, Hi.
Qed.

(** *** The clients *)

(** A client holds a role that administers the instance. *)
Definition is_admin (client : val) : Prop :=
  ∃ roles r, get_list client "roles" = Ok roles ∧ VStr r ∈ roles ∧ r ∈ INSTANCE_ADMIN_ROLES.

Lemma clean_client path what i client :
  check_client path what (i, client) = Ok [] → is_dict client = true → ¬ is_admin client.
Proof.
  unfold check_client. intros H Hd (roles & r & Hr & Hin & Ha). rewrite Hd in H. cbn [negb] in H.
  apply bind_Ok in H as (name & _ & H). apply bind_Ok in H as (boot & Hb & H).
  unfold in_set in Hb. destruct (hashable _); [|done]. injection Hb as <-.
  assert (∀ v, in_tuple v BOOTSTRAP_OIDC_CLIENT_NAMES = false) as E by (by intros []). rewrite E in H.
  apply bind_Ok in H as (bad & Hbad & H). unfold admin_roles in Hbad. rewrite Hr in Hbad. cbn [rbind] in Hbad.
  apply bind_Ok in Hbad as (rs & Hs & Hbad). unfold set_of in Hs. destruct (forallb _ _); [|done]. injection Hs as <-.
  injection Hbad as <-. injection H as H.
  assert (r ∈ sorted_set (omap (λ v, match v with
      VStr r => if str_mem r INSTANCE_ADMIN_ROLES then Some r else None | _ => None end) roles)) as Hm.
  { apply sorted_set_elem, list_elem_of_omap. exists (VStr r). split; [done|]. apply str_mem_elem in Ha. by rewrite Ha. }
  destruct (sorted_set _) as [|? ?]; [by apply elem_of_nil in Hm|done].
Qed.

Lemma clean_clients path what clients client :
  flatM (check_client path what) (enumerate clients) = Ok [] → client ∈ clients → is_dict client = true →
  ¬ is_admin client.
Proof.
  intros H [i Hi]%enumerate_elem. apply (clean_client path what i). by apply (proj1 (flatM_nil _ _) H).
Qed.

Lemma clean_values path values clients client :
  check_values path values = Ok [] → under "oidcClients" values clients → client ∈ clients → is_dict client = true →
  ¬ is_admin client.
Proof.
  intros H Hu%lists_under_iff. apply (clean_clients path ""). apply (proj1 (flatM_nil _ _) H _ Hu).
Qed.

Lemma clean_rendered path docs d spec clients client :
  check_rendered path docs = Ok [] → VDict d ∈ docs → fld (VDict d) "kind" = VStr "PlatformBootstrap" →
  get_dict (VDict d) "spec" = Ok spec → get_list spec "oidcClients" = Ok clients → client ∈ clients →
  is_dict client = true → ¬ is_admin client.
Proof.
  intros H Hd Hk Hs Hc. apply (clean_clients path "rendered "). pose proof (proj1 (flatM_nil _ _) H _ Hd) as Hj.
  cbn [is_dict negb] in Hj. rewrite get_dict_fld in Hj. cbn [rbind] in Hj.
  rewrite Hk, py_eq_str_str, str_eqb_refl in Hj. cbn [negb] in Hj. rewrite Hs in Hj. cbn [rbind] in Hj. rewrite Hc in Hj. done.
Qed.

(** *** The system users *)

(** The first membership of the entry has the two roles and no other. *)
Definition owns_the_instance (e : val) : Prop :=
  ∃ m ms, fld e "Memberships" = VList (m :: ms) ∧
    py_iter (fld m "Roles") = Ok (map VStr EXPECTED_SYSTEM_API_ROLES).

Lemma strs_are_eq l s : strs_are l s = true → l = map VStr s.
Proof.
  unfold strs_are. revert s. induction l as [|v l IH]; intros [|t s]; cbn; try done.
  intros [Hv Hl]%andb_true. apply py_eq_str_r in Hv as ->. f_equal. by apply IH.
Qed.

Lemma clean_entry path user entry e :
  check_entry path (user, entry) = Ok [] → item entry user = Ok e → owns_the_instance e.
Proof.
  unfold check_entry. intros H He. rewrite He in H. cbn [rbind] in H.
  apply bind_Ok in H as (ms & Hms & H). apply bind_Ok in H as (m & Hm & H). apply bind_Ok in H as (roles & Hr & H).
  apply bind_Ok in H as (l & Hl & H). injection H as H.
  destruct (strs_are l EXPECTED_SYSTEM_API_ROLES) eqn:E; [|done]. apply strs_are_eq in E as ->.
  apply get_Ok in Hr. assert (roles = fld m "Roles" ∧ truthy roles = true) as [-> Ht].
  { unfold por in *. destruct (truthy m) eqn:Em, (truthy roles) eqn:Er; subst; try done. }
  unfold por in Hl. rewrite Ht in Hl. apply get_Ok in Hms.
  assert (is_dict m = true) as Hd by (by destruct m).
  unfold por in Hm at 1. destruct (truthy ms) eqn:Em; [|injection Hm as <-; done].
  assert (ms = fld e "Memberships") as ->.
  { unfold por in Hms. destruct (truthy e); [done|]. by rewrite Hms in Em. }
  destruct (fld e "Memberships") as [| | |s|[|m' ms]|] eqn:Ef; try done.
  - cbn in Hm. destruct (String.get 0 s); [|done]. injection Hm as <-. done.
  - injection Hm as ->. by exists m, ms.
Qed.

(** One dict per entry, with one user each, as Zitadel reads them. *)
Definition one_user (v : val) : Prop := ∃ k e, v = VDict [(k, e)].

Lemma clean_users path u :
  check_entries path u = Ok [] → Forall one_user u →
  ∃ a b, u = [VDict [("gibson-system-bot", a)]; VDict [("gibson-system-bot-b", b)]] ∧
    owns_the_instance a ∧ owns_the_instance b.
Proof.
  unfold check_entries. destruct (bool_decide _) eqn:E; [|done]. apply bool_decide_eq_true in E. intros H Hu.
  destruct u as [|x [|y [|z u]]]; rewrite ?Forall_cons in Hu; destruct_and?;
    repeat match goal with Hx : one_user _ |- _ => destruct Hx as (? & ? & ->) end; try done.
  cbn in E. injection E as -> ->. pose proof (proj1 (flatM_nil _ _) H) as Hc.
  match goal with |- ∃ a b, [VDict [(_, ?x)]; VDict [(_, ?y)]] = _ ∧ _ => exists x, y end. split_and!; [done| |].
  - eapply (clean_entry path "gibson-system-bot"); [apply Hc; by left|done].
  - eapply (clean_entry path "gibson-system-bot-b"); [apply Hc; right; by left|done].
Qed.

(** *** The seed list *)
Lemma clean_fga path text :
  check_fga_required_list path text = [] →
  ∃ t m, text = Some t ∧ re_search REQUIRED_LINE_RE t = Some m ∧
    ∀ s, s ∈ split_ws (group_text m 2) ↔ s ∈ EXPECTED_PLATFORM_OPERATOR_SAS.
Proof.
  unfold check_fga_required_list. destruct text as [t|]; [|done]. destruct (re_search _ t) as [m|] eqn:E; [|done].
  intros H. exists t, m. split_and!; [done..|]. set (got := split_ws (group_text m 2)) in *.
  assert (∀ p l, nonempty (sorted_set (List.filter p l)) = false → ∀ s : string, s ∈ l → p s = false) as Hf.
  { intros p l Hn s Hs. destruct (p s) eqn:Ep; [|done].
    assert (s ∈ sorted_set (List.filter p l)) as Hin.
    { apply sorted_set_elem, list_elem_of_In, filter_In. split; [by apply list_elem_of_In|done]. }
    destruct (sorted_set (List.filter p l)); [by apply elem_of_nil in Hin|done]. }
  destruct (nonempty _ || nonempty _) eqn:En in H; [done|]. apply orb_false in En as [Hx Hm].
  intros s. split; intros Hs.
  - specialize (Hf _ _ Hx s Hs). apply negb_false_iff in Hf. by apply str_mem_elem.
  - specialize (Hf _ _ Hm s Hs). apply negb_false_iff in Hf. by apply str_mem_elem.
Qed.

(** *** The run *)

(** On a clean run no client that is a dict in any [oidcClients] list of the
    baseline values, or of a PlatformBootstrap of a snapshot, holds an
    instance-administrator role; the values have a SystemAPIUsers list, and each
    one whose entries name one user each is the two slots of the System API key
    in order, each with the two roles and no other; and the text of the fga-init
    Job names exactly the two service accounts in its REQUIRED line. *)
Theorem clean_tree_scopes_admin_roles t :
  problems t = Ok [] →
  (∀ clients client, under "oidcClients" (values_baseline t) clients → client ∈ clients → is_dict client = true →
     ¬ is_admin client) ∧
  (∀ g docs d spec clients client, (g, docs) ∈ goldens t → VDict d ∈ docs →
     fld (VDict d) "kind" = VStr "PlatformBootstrap" → get_dict (VDict d) "spec" = Ok spec →
     get_list spec "oidcClients" = Ok clients → client ∈ clients → is_dict client = true → ¬ is_admin client) ∧
  ((∃ u, under "SystemAPIUsers" (values_yaml t) u) ∧
   ∀ u, under "SystemAPIUsers" (values_yaml t) u → Forall one_user u →
     ∃ a b, u = [VDict [("gibson-system-bot", a)]; VDict [("gibson-system-bot-b", b)]] ∧
       owns_the_instance a ∧ owns_the_instance b) ∧
  (∃ text m, fga_job t = Some text ∧ re_search REQUIRED_LINE_RE text = Some m ∧
     ∀ s, s ∈ split_ws (group_text m 2) ↔ s ∈ EXPECTED_PLATFORM_OPERATOR_SAS).
Proof.
  unfold problems. intros H.
  apply bind_Ok in H as (a & Ha & H). apply bind_Ok in H as (b & Hb & H). apply bind_Ok in H as (e & He & H).
  injection H as H. repeat apply app_eq_nil in H as [? H]. subst. split_and!.
  - intros clients client. by apply (clean_values _ _ clients client Ha).
  - intros g docs d spec clients client Hg. apply (clean_rendered g). by apply (proj1 (flatM_nil _ _) He (g, docs)).
  - unfold check_system_api_users in Hb. destruct (_system_api_users (values_yaml t)) as [|u l] eqn:E; [done|].
    exists u. apply lists_under_iff. unfold _system_api_users in E. rewrite E. by left.
  - intros u Hu%lists_under_iff. unfold check_system_api_users in Hb. unfold _system_api_users in Hb.
    destruct (lists_under _ _) as [|u' l] eqn:E; [done|]. apply (clean_users "helm/gibson/values.yaml").
    exact (proj1 (flatM_nil _ _) Hb u Hu).
  - by apply (clean_fga FGA_JOB_PATH).
Qed.

Definition clean_tree : tree :=
  Tree (_values_fixture (Some [client_of "gibson-daemon" ["IAM_ORG_MANAGER"]]) None)
    (_values_fixture None (Some [_sysuser "gibson-system-bot" []; _sysuser "gibson-system-bot-b" []]))
    (Some ("REQUIRED='gibson-iam-admin gibson-tenant-operator'" +:+ newline))
    [("golden.yaml", [str_dict [("kind", "ConfigMap")]])].

Lemma clean_tree_scopes_admin_roles_witness :
  problems clean_tree = Ok [] ∧ ¬ is_admin (client_of "gibson-daemon" ["IAM_ORG_MANAGER"]).
Proof.
  assert (problems clean_tree = Ok []) as Hc by (vm_compute; reflexivity). split; [exact Hc|].
  destruct (clean_tree_scopes_admin_roles clean_tree Hc) as [H _].
  apply (H [client_of "gibson-daemon" ["IAM_ORG_MANAGER"]]); [|by left|reflexivity].
  eapply (under_item _ _ "platformBootstrap"); [by left|left; discriminate|].
  apply under_here. by left.
Defined.

(** *** What the guard does not look into *)

(** Both users in one entry: [zip] pairs one user with the one entry, so the
    roles of the second slot are not read. *)
Lemma one_entry_hides_the_second_slot path any :
  check_system_api_users path
    (VDict [("SystemAPIUsers",
       VList [VDict [("gibson-system-bot", fld (_sysuser "gibson-system-bot" []) "gibson-system-bot");
                     ("gibson-system-bot-b", any)]])]) = Ok [].
Proof. reflexivity. Qed.

(** A second membership of a user is not read. *)
Lemma second_membership_is_not_read path any :
  let m := VDict [("MemberType", VStr "System"); ("Roles", strs EXPECTED_SYSTEM_API_ROLES)] in
  let entry u := VDict [(u, VDict [("Memberships", VList [m; any])])] in
  check_system_api_users path
    (VDict [("SystemAPIUsers", VList [entry "gibson-system-bot"; entry "gibson-system-bot-b"])]) = Ok [].
Proof. reflexivity. Qed.

(** Roles written as one string: the set is that of its characters. *)
Lemma roles_as_a_string_pass path :
  check_values path
    (_values_fixture (Some [VDict [("name", VStr "gibson-daemon"); ("roles", VStr "IAM_OWNER")]]) None) = Ok [].
Proof. reflexivity. Qed.
