(* ===== verification/Json.v ===== *)
(** * [json.dumps] and [json.loads]

    The text of a value, ASCII only, with its keys sorted ([json_dumps]) or in
    the order of the dict ([json_text]); the value of a text; that no two values
    have one text; and the round trip: the text of a value parses to the value,
    and a parsed text has a value of which that holds. *)
From stdpp Require Import sorting.
From S2P Require Import Prelude PyStr PyVal.
From Stdlib Require Import Ascii.

Definition json_char (c : ascii) : string :=
  let n := nat_of_ascii c in
  if Ascii.eqb c dquote then String "\" (String dquote "")
  else if Ascii.eqb c "\" then "\\"
  else if n =? 10 then "\n" else if n =? 13 then "\r" else if n =? 9 then "\t"
  else if n =? 12 then "\f" else if n =? 8 then "\b"
  else if (n <? 32) || (126 <? n) then "\u00" +:+ hex_digit (n / 16) +:+ hex_digit (n mod 16)
  else String c "".
Fixpoint json_chars (s : string) : string :=
  match s with "" => "" | String c s => json_char c +:+ json_chars s end.
Definition json_str (s : string) : string := String dquote (json_chars s +:+ String dquote "").

Definition json_array (l : list string) : string := "[" +:+ str_join ", " l +:+ "]".

Definition key_le {A} (a b : string * A) : Prop := String.le a.1 b.1.
#[global] Instance key_le_dec {A} : RelDecision (@key_le A).
Proof. intros a b. unfold key_le. apply _. Defined.

Fixpoint json_dumps (v : val) : string :=
  match v with
  | VNone => "null"
  | VBool true => "true"
  | VBool false => "false"
  | VInt z => str_of_int z
  | VStr s => json_str s
  | VList l => json_array (map json_dumps l)
  | VDict d =>
      "{" +:+ str_join ", " (map (λ '(k, x), json_str k +:+ ": " +:+ x)
                               (merge_sort key_le (map (λ '(k, x), (k, json_dumps x)) d))) +:+ "}"
  end.

Example json_ex :
  json_dumps (VDict [("b", VList [VInt 1; VBool true; VNone]); ("a", VStr (String dquote "\"))])
  = unquoted "{`a`: `\`\\`, `b`: [1, true, null]}".
Proof. reflexivity. Qed.

(** ** [json.loads(s)]

    Recursive descent; a value and an element take a character in at most two
    steps, so twice the length of the text is fuel enough.  Numbers are the integers: text with a
    float, and an escape of a code point above ASCII, is [None] here. *)
Definition json_ws (c : ascii) : bool := let n := nat_of_ascii c in (n =? 32) || (n =? 9) || (n =? 10) || (n =? 13).
Definition skip_ws (s : string) : string := lstrip_of json_ws s.
Definition hex_value (c : ascii) : option nat :=
  let n := nat_of_ascii c in
  if (48 <=? n) && (n <=? 57) then Some (n - 48)
  else if (97 <=? n) && (n <=? 102) then Some (n - 87)
  else if (65 <=? n) && (n <=? 70) then Some (n - 55) else None.
Definition escape_value (c : ascii) : option ascii :=
  if Ascii.eqb c dquote || Ascii.eqb c "\" || Ascii.eqb c "/" then Some c
  else if Ascii.eqb c "n" then Some "010"%char else if Ascii.eqb c "r" then Some "013"%char
  else if Ascii.eqb c "t" then Some "009"%char else if Ascii.eqb c "f" then Some "012"%char
  else if Ascii.eqb c "b" then Some "008"%char else None.
(** The text up to the closing quote, and the text after it *)
Fixpoint parse_chars (s : string) : option (string * string) :=
  match s with
  | "" => None
  | String c s =>
      if Ascii.eqb c dquote then Some ("", s)
      else if Ascii.eqb c "\" then
        match s with
        | String "u" (String z0 (String z1 (String a (String b s)))) =>
            match hex_value z0, hex_value z1, hex_value a, hex_value b with
            | Some O, Some O, Some a, Some b =>
                if a <? 8 then prod_map (String (ascii_of_nat (16 * a + b))) id <$> parse_chars s else None
            | _, _, _, _ => None
            end
        | String e s =>
            match escape_value e with Some c => prod_map (String c) id <$> parse_chars s | None => None end
        | "" => None
        end
      else if nat_of_ascii c <? 32 then None
      else prod_map (String c) id <$> parse_chars s
  end.
Fixpoint take_digits (s : string) : string * string :=
  match s with
  | "" => ("", "")
  | String c t => if is_digit c then prod_map (String c) id (take_digits t) else ("", s)
  end.
Definition parse_int (s : string) : option (val * string) :=
  let '(sign, t) := match s with String "-" t => ((-1)%Z, t) | _ => (1%Z, s) end in
  let '(ds, r) := take_digits t in
  let float := match r with String c _ => Ascii.eqb c "." || Ascii.eqb c "e" || Ascii.eqb c "E" | "" => false end in
  let zeros := match ds with String "0" (String _ _) => true | _ => false end in
  if float || zeros then None
  else match int_of_digits ds with Some z => Some (VInt (sign * z), r) | None => None end.

Fixpoint parse_value (n : nat) (s : string) : option (val * string) :=
  match n with
  | O => None
  | S n =>
      match skip_ws s with
      | String c r =>
          if Ascii.eqb c dquote then prod_map VStr id <$> parse_chars r
          else if Ascii.eqb c "[" then
            match skip_ws r with
            | String "]" r => Some (VList [], r)
            | r => prod_map VList id <$> parse_elems n r
            end
          else if Ascii.eqb c "{" then
            match skip_ws r with
            | String "}" r => Some (VDict [], r)
            | r => prod_map VDict id <$> parse_items n [] r
            end
          else match drop_prefix "null" (String c r), drop_prefix "true" (String c r), drop_prefix "false" (String c r) with
               | Some r, _, _ => Some (VNone, r)
               | _, Some r, _ => Some (VBool true, r)
               | _, _, Some r => Some (VBool false, r)
               | _, _, _ => parse_int (String c r)
               end
      | "" => None
      end
  end
(** The elements of an array up to its bracket *)
with parse_elems (n : nat) (s : string) : option (list val * string) :=
  match n with
  | O => None
  | S n =>
      match parse_value n s with
      | Some (v, r) =>
          match skip_ws r with
          | String c r =>
              if Ascii.eqb c "]" then Some ([v], r)
              else if Ascii.eqb c "," then prod_map (cons v) id <$> parse_elems n r else None
          | "" => None
          end
      | None => None
      end
  end
(** The items of an object up to its brace; a later key replaces an earlier one. *)
with parse_items (n : nat) (d : list (string * val)) (s : string) : option (list (string * val) * string) :=
  match n with
  | O => None
  | S n =>
      match skip_ws s with
      | String c r =>
          if negb (Ascii.eqb c dquote) then None else
          match parse_chars r with
          | Some (k, r) =>
              match drop_prefix ":" (skip_ws r) with
              | Some r =>
                  match parse_value n r with
                  | Some (v, r) =>
                      match skip_ws r with
                      | String c r =>
                          if Ascii.eqb c "}" then Some (alist_set k v d, r)
                          else if Ascii.eqb c "," then parse_items n (alist_set k v d) r else None
                      | "" => None
                      end
                  | None => None
                  end
              | None => None
              end
          | None => None
          end
      | "" => None
      end
  end.
Definition json_loads (s : string) : result val :=
  match parse_value (2 * S (String.length s)) s with
  | Some (v, r) => if str_eqb (skip_ws r) "" then Ok v else Raise ValueError
  | None => Raise ValueError
  end.

Example loads_ex :
  json_loads (unquoted " {`a`: [1, -20,true, null ], `b`: `x\n\u0041`, `a`: {}} ")
  = Ok (VDict [("a", VDict []); ("b", VStr (cat ["x"; newline; "A"]))]).
Proof. reflexivity. Qed.

(** ** Text that gives its value back *)

(** No two values have texts of which one continues the other. *)
Definition unique {A} (enc : A → string) : Prop :=
  ∀ a b x y, enc a +:+ x = enc b +:+ y → a = b ∧ x = y.

Lemma unique_inj {A} (enc : A → string) a b : unique enc → enc a = enc b → a = b.
Proof. intros U H. by apply (U a b "" ""); rewrite H. Qed.

(** One character off a string literal, [None] at the closing quote *)
Definition unhex (c : ascii) : nat :=
  let n := nat_of_ascii c in if n <? 58 then n - 48 else n - 87.
Definition read_char (s : string) : option (ascii * string) :=
  match s with
  | String "\" (String "u" (String _ (String _ (String a (String b s))))) =>
      Some (ascii_of_nat (16 * unhex a + unhex b), s)
  | String "\" (String c s) =>
      Some ((if Ascii.eqb c "n" then "010" else if Ascii.eqb c "r" then "013" else if Ascii.eqb c "t" then "009"
             else if Ascii.eqb c "f" then "012" else if Ascii.eqb c "b" then "008" else c)%char, s)
  | String c s => if Ascii.eqb c dquote then None else Some (c, s)
  | "" => None
  end.

Lemma read_json_char c s : read_char (json_char c +:+ s) = Some (c, s).
Proof. destruct c as [[] [] [] [] [] [] [] []]; reflexivity. Qed.

Lemma json_str_unique : unique json_str.
Proof.
  intros s t x y H. unfold json_str in H. injection H as H. rewrite !append_assoc in H. revert t H.
  induction s as [|c s IH]; intros [|d t] H; cbn [json_chars] in H; rewrite ?append_assoc in H.
  - split; [done|]. by injection H.
  - pose proof (read_json_char d (json_chars t +:+ String dquote "" +:+ y)) as R. by rewrite <- H in R.
  - pose proof (read_json_char c (json_chars s +:+ String dquote "" +:+ x)) as R. by rewrite H in R.
  - pose proof (read_json_char c (json_chars s +:+ String dquote "" +:+ x)) as R. rewrite H, read_json_char in R.
    injection R as -> R. destruct (IH t) as [-> ->]; done.
Qed.

(** The text of the elements after the first, and the closing bracket *)
Fixpoint json_rest (l : list string) : string :=
  match l with [] => "]" | s :: l => ", " +:+ s +:+ json_rest l end.
Lemma json_array_cons s l : json_array (s :: l) = "[" +:+ s +:+ json_rest l.
Proof.
  unfold json_array. f_equal. revert s. induction l as [|t l IH]; intros s; [done|].
  change (str_join ", " (s :: t :: l)) with (s +:+ ", " +:+ str_join ", " (t :: l)).
  rewrite !append_assoc. by rewrite IH.
Qed.

Lemma json_rest_unique {A} (enc : A → string) :
  unique enc → unique (λ l, json_rest (map enc l)).
Proof.
  intros U l. induction l as [|a l IH]; intros [|b m] x y H; cbn [map json_rest] in H; rewrite ?append_assoc in H.
  - split; [done|]. by injection H.
  - done.
  - done.
  - injection H as H. rewrite ?append_assoc in H. apply U in H as [-> H]. apply IH in H as [-> ->]. done.
Qed.

(** An array gives its elements back when no element starts with the bracket
    that closes it. *)
Lemma json_array_unique {A} (enc : A → string) :
  unique enc → (∀ a, ∃ c s, enc a = String c s ∧ c ≠ "]"%char) → unique (λ l, json_array (map enc l)).
Proof.
  intros U Hc l m x y H. cbn beta in H.
  destruct l as [|a l], m as [|b m]; cbn [map] in H; rewrite ?json_array_cons, ?append_assoc in H.
  - split; [done|]. by injection H.
  - destruct (Hc b) as (c & s & E & Hne). rewrite E in H. by injection H as <- ?.
  - destruct (Hc a) as (c & s & E & Hne). rewrite E in H. by injection H as -> ?.
  - injection H as H. rewrite ?append_assoc in H. apply U in H as [-> H].
    apply (json_rest_unique enc U) in H as [-> ->]. done.
Qed.

(** ** [json.dumps(v)] and the round trip

    The items of a dict in their order. *)
Fixpoint json_text (v : val) : string :=
  match v with
  | VNone => "null"
  | VBool true => "true"
  | VBool false => "false"
  | VInt z => str_of_int z
  | VStr s => json_str s
  | VList l => json_array (map json_text l)
  | VDict d => "{" +:+ str_join ", " (map (λ kv, json_str kv.1 +:+ ": " +:+ json_text kv.2) d) +:+ "}"
  end.
Definition str_ascii (s : string) : bool := str_forallb (λ c, nat_of_ascii c <? 128) s.
(** ASCII strings, and no key twice *)
Inductive json_ok : val → Prop :=
  | ok_none : json_ok VNone
  | ok_bool b : json_ok (VBool b)
  | ok_int z : json_ok (VInt z)
  | ok_str s : str_ascii s = true → json_ok (VStr s)
  | ok_list l : Forall json_ok l → json_ok (VList l)
  | ok_dict d : NoDup d.*1 → Forall (λ kv, str_ascii kv.1 = true ∧ json_ok kv.2) d → json_ok (VDict d).

Lemma parse_json_char c s : (nat_of_ascii c <? 128) = true → parse_chars (json_char c +:+ s) = prod_map (String c) id <$> parse_chars s.
Proof. destruct c as [[] [] [] [] [] [] [] []]; intros H; try discriminate H; reflexivity. Qed.
Lemma parse_json_str s r : str_ascii s = true → parse_chars (json_chars s +:+ String dquote r) = Some (s, r).
Proof.
  induction s as [|c s IH]; cbn [json_chars]; [done|]. intros [Hc Hs]%andb_true_iff. rewrite append_assoc, parse_json_char by done.
  by rewrite IH.
Qed.

(** The digits of a number *)
Lemma is_digit_cases c : is_digit c = true → c ∈ ["0"; "1"; "2"; "3"; "4"; "5"; "6"; "7"; "8"; "9"]%char.
Proof. destruct c as [[] [] [] [] [] [] [] []]; intros H; try discriminate H; set_solver. Qed.
Lemma pretty_char n : (n < 10)%N → is_digit (pretty_N_char n) = true ∧ Z.of_nat (nat_of_ascii (pretty_N_char n) - 48) = Z.of_N n ∧
  (pretty_N_char n = "0"%char → n = 0%N).
Proof.
  intros H. assert (n = 0 ∨ n = 1 ∨ n = 2 ∨ n = 3 ∨ n = 4 ∨ n = 5 ∨ n = 6 ∨ n = 7 ∨ n = 8 ∨ n = 9)%N as Hn by lia.
  destruct_or! Hn; subst; split_and!; done.
Qed.
Lemma pretty_digits n : (0 < n)%N → ∀ s, ∃ c ds, pretty_N_go n s = String c ds +:+ s ∧ str_forallb is_digit (String c ds) = true ∧ c ≠ "0"%char ∧
  ∀ t, digits_value 0 (String c ds +:+ t) = digits_value (Z.of_N n) t.
Proof.
  induction (N.lt_wf_0 n) as [n _ IH]; intros Hn s. rewrite pretty_N_go_step by done.
  pose proof (pretty_char (n `mod` 10) ltac:(by apply N.mod_lt)) as (Hd & Hv & Hz). pose proof (N.div_mod n 10 ltac:(done)) as Hdm.
  destruct (decide (n `div` 10 = 0)%N) as [E|E].
  - rewrite E, pretty_N_go_0. exists (pretty_N_char (n `mod` 10)), "". split_and!; [done|cbn; by rewrite Hd| |].
    + intros H%Hz. lia.
    + intros t. change (String ?c "" +:+ t) with (String c t). cbn [digits_value]. rewrite Hd, Hv. apply (f_equal (λ z, digits_value z t)). lia.
  - assert (n `div` 10 < n)%N as Hlt by (by apply N.div_lt). assert (0 < n `div` 10)%N as Hpos by (by apply N.neq_0_lt_0).
    destruct (IH _ Hlt Hpos (String (pretty_N_char (n `mod` 10)) s)) as (c & ds & -> & Hall & Hc & Hval).
    exists c, (ds +:+ String (pretty_N_char (n `mod` 10)) ""). split_and!.
    + change (String c (ds +:+ ?x)) with (String c ds +:+ x). by rewrite append_assoc.
    + change (String c (ds +:+ ?x)) with (String c ds +:+ x). rewrite str_forallb_app, Hall. cbn. by rewrite Hd.
    + done.
    + intros t. change (String c (ds +:+ ?x)) with (String c ds +:+ x). rewrite append_assoc.
      change (String ?d "" +:+ t) with (String d t). rewrite Hval. cbn [digits_value]. rewrite Hd, Hv. apply (f_equal (λ z, digits_value z t)). lia.
Qed.

(** A text after a value: it ends, or the array or the object goes on. *)
Definition after (r : string) : Prop := r = "" ∨ ∃ c t, r = String c t ∧ c ∈ [","; "]"; "}"]%char.
Lemma take_digits_app ds r : str_forallb is_digit ds = true → after r → take_digits (ds +:+ r) = (ds, r).
Proof.
  intros Hd Hr. induction ds as [|c ds IH].
  - destruct Hr as [->|(c & t & -> & Hc)]; [done|]. cbn. rewrite !elem_of_cons in Hc. by destruct Hc as [->|[->|[->|Hc%elem_of_nil]]].
  - apply andb_true_iff in Hd as [Hc Hd]. change (String c ds +:+ r) with (String c (ds +:+ r)). cbn [take_digits]. by rewrite Hc, IH.
Qed.
Lemma parse_digits (sign : Z) ds r z : str_forallb is_digit ds = true → (∀ t, ds ≠ String "0" t ∨ t = "") → after r → int_of_digits ds = Some z →
  (let '(ds, r) := take_digits (ds +:+ r) in
   let float := match r with String c _ => Ascii.eqb c "." || Ascii.eqb c "e" || Ascii.eqb c "E" | "" => false end in
   let zeros := match ds with String "0" (String _ _) => true | _ => false end in
   if float || zeros then None else match int_of_digits ds with Some z => Some (VInt (sign * z), r) | None => None end) = Some (VInt (sign * z), r).
Proof.
  intros Hd Hz Hr Hv. rewrite take_digits_app by done. cbv zeta. rewrite Hv.
  assert (match r with String c _ => Ascii.eqb c "." || Ascii.eqb c "e" || Ascii.eqb c "E" | "" => false end = false) as ->.
  { destruct Hr as [->|(c & t & -> & Hc)]; [done|]. rewrite !elem_of_cons in Hc. by destruct Hc as [->|[->|[->|Hc%elem_of_nil]]]. }
  destruct ds as [|c [|c' ds]]; try done; [by destruct c as [[] [] [] [] [] [] [] []]|].
  destruct (Hz (String c' ds)) as [H|H]; [|done]. destruct c as [[] [] [] [] [] [] [] []]; done.
Qed.
Lemma parse_int_text z r : after r → parse_int (str_of_int z +:+ r) = Some (VInt z, r).
Proof.
  intros Hr. unfold str_of_int, pretty, pretty_Z. destruct z as [|p|p].
  - pose proof (parse_digits 1 "0" r 0 eq_refl ltac:(intros [|]; [by right|by left]) Hr eq_refl) as H. exact H.
  - unfold pretty, pretty_positive, pretty, pretty_N. destruct (decide _) as [|_]; [done|].
    destruct (pretty_digits (N.pos p) ltac:(done) "") as (c & ds & -> & Hd & Hc & Hv). rewrite append_nil_r.
    pose proof (Hv "") as Hv'. rewrite append_nil_r in Hv'.
    assert (int_of_digits (String c ds) = Some (Z.pos p)) as Hi.
    { apply andb_true_iff in Hd as [Hd _]. unfold int_of_digits. by rewrite Hd. }
    pose proof (parse_digits 1 (String c ds) r _ Hd ltac:(intros t; left; by injection 1) Hr Hi) as H. rewrite Z.mul_1_l in H.
    unfold parse_int. apply andb_true_iff in Hd as [Hd _]. apply is_digit_cases in Hd. rewrite !elem_of_cons in Hd.
    destruct_or! Hd; subst; try (by apply elem_of_nil in Hd); exact H.
  - unfold pretty, pretty_positive, pretty, pretty_N. destruct (decide _) as [|_]; [done|].
    destruct (pretty_digits (N.pos p) ltac:(done) "") as (c & ds & -> & Hd & Hc & Hv). rewrite append_nil_r.
    pose proof (Hv "") as Hv'. rewrite append_nil_r in Hv'.
    assert (int_of_digits (String c ds) = Some (Z.pos p)) as Hi.
    { apply andb_true_iff in Hd as [Hd _]. unfold int_of_digits. by rewrite Hd. }
    exact (parse_digits (-1) (String c ds) r _ Hd ltac:(intros t; left; by injection 1) Hr Hi).
Qed.

(** ** A text parses to its value *)

Definition heads : list ascii := ["n"; "t"; "f"; dquote; "["; "{"; "-"; "0"; "1"; "2"; "3"; "4"; "5"; "6"; "7"; "8"; "9"]%char.
Lemma int_head z : ∃ c t, str_of_int z = String c t ∧ c ∈ ["-"; "0"; "1"; "2"; "3"; "4"; "5"; "6"; "7"; "8"; "9"]%char.
Proof.
  unfold str_of_int, pretty, pretty_Z. destruct z as [|p|p]; try (eexists _, _; split; [reflexivity|]; set_solver).
  unfold pretty, pretty_positive, pretty, pretty_N. destruct (decide _) as [|_]; [done|].
  destruct (pretty_digits (N.pos p) ltac:(done) "") as (c & ds & -> & Hd & _ & _). rewrite append_nil_r. exists c, ds. split; [done|].
  apply andb_true_iff in Hd as [Hd%is_digit_cases _]. by right.
Qed.
Lemma json_head v : ∃ c t, json_text v = String c t ∧ c ∈ heads.
Proof.
  destruct v as [|[]|z|s|l|d]; cbn [json_text]; try (eexists _, _; split; [reflexivity|]; unfold heads; set_solver).
  destruct (int_head z) as (c & t & -> & Hc). exists c, t. split; [done|]. unfold heads. set_solver.
Qed.
#[local] Ltac head_cases Hc :=
  unfold heads in Hc; rewrite !elem_of_cons in Hc; destruct_or! Hc; subst; try (by apply elem_of_nil in Hc).
Lemma skip_head c t : c ∈ heads → skip_ws (String c t) = String c t.
Proof. intros Hc. head_cases Hc; reflexivity. Qed.
Lemma parse_value_blank n s : parse_value n (String " " s) = parse_value n s.
Proof. by destruct n. Qed.
Lemma parse_elems_blank n s : parse_elems n (String " " s) = parse_elems n s.
Proof. destruct n; [done|]. cbn [parse_elems]. by rewrite parse_value_blank. Qed.
Lemma parse_items_blank n d s : parse_items n d (String " " s) = parse_items n d s.
Proof. by destruct n. Qed.

(** The value of a text, with the fuel that its length gives *)
Definition reads_back (v : val) : Prop :=
  ∀ n r, 2 * String.length (json_text v) ≤ n → after r → parse_value n (json_text v +:+ r) = Some (v, r).

Lemma elems_back x l : reads_back x → Forall reads_back l → ∀ n r,
  2 * String.length (json_text x +:+ json_rest (map json_text l)) + 1 ≤ n →
  parse_elems n (json_text x +:+ json_rest (map json_text l) +:+ r) = Some (x :: l, r).
Proof.
  intros Hx Hl. revert x Hx. induction Hl as [|y l Hy Hl IH]; intros x Hx n r Hn; rewrite append_length in Hn; destruct n as [|n]; try lia; cbn [parse_elems].
  - rewrite Hx; [reflexivity|lia|]. right. eexists _, _. split; [reflexivity|]. set_solver.
  - rewrite Hx; [|lia|right; eexists _, _; split; [reflexivity|set_solver]]. cbn [map json_rest] in *.
    change ((", " +:+ ?a +:+ ?b) +:+ r) with (String "," (String " " ((a +:+ b) +:+ r))). cbn [skip_ws].
    change (skip_ws (String "," ?t)) with (String "," t). cbv iota beta. change (Ascii.eqb "," "]") with false. change (Ascii.eqb "," ",") with true. cbv iota.
    rewrite parse_elems_blank, append_assoc. rewrite (IH y Hy); [done|].
    change (", " +:+ ?a +:+ ?b) with (String "," (String " " (a +:+ b))) in Hn. cbn [String.length] in Hn. lia.
Qed.

Definition item_text (kv : string * val) : string := json_str kv.1 +:+ ": " +:+ json_text kv.2.
(** The items after the first, and the closing brace *)
Fixpoint object_rest (l : list string) : string :=
  match l with [] => "}" | s :: l => ", " +:+ s +:+ object_rest l end.
Lemma object_cons s l : str_join ", " (s :: l) +:+ "}" = s +:+ object_rest l.
Proof.
  revert s. induction l as [|t l IH]; intros s; [done|]. change (str_join ", " (s :: t :: l)) with (s +:+ ", " +:+ str_join ", " (t :: l)).
  rewrite !append_assoc. by rewrite IH.
Qed.
Lemma alist_set_new {A} k (x : A) d : k ∉ d.*1 → alist_set k x d = d ++ [(k, x)].
Proof.
  induction d as [|[k' y] d IH]; cbn [alist_set]; [done|]. intros H. change (k ∉ k' :: d.*1) in H. apply not_elem_of_cons in H as [Hne H].
  destruct (str_eqb k k') eqn:E; [by apply str_eqb_eq in E|]. cbn. by rewrite IH.
Qed.
Lemma items_back kv l : str_ascii kv.1 = true → reads_back kv.2 → Forall (λ kv, str_ascii kv.1 = true ∧ reads_back kv.2) l → ∀ n d r,
  NoDup (d ++ kv :: l).*1 → 2 * String.length (item_text kv +:+ object_rest (map item_text l)) + 1 ≤ n →
  parse_items n d (item_text kv +:+ object_rest (map item_text l) +:+ r) = Some (d ++ kv :: l, r).
Proof.
  intros Hk Hx Hl. revert kv Hk Hx. induction Hl as [|kv' l [Hk' Hx'] Hl IH]; intros [k x] Hk Hx n d r Hnd Hn; cbn [fst snd] in *;
    (assert (k ∉ d.*1) as Hkd by (rewrite fmap_app, NoDup_app in Hnd; intros H; apply (proj1 (proj2 Hnd) _ H); left));
    rewrite append_length in Hn; unfold item_text in Hn at 1; cbn [fst snd] in Hn;
    change (String.length (json_str k +:+ ": " +:+ json_text x)) with (S (String.length ((json_chars k +:+ String dquote "") +:+ ": " +:+ json_text x))) in Hn;
    rewrite !append_length in Hn; cbn [String.length] in Hn; destruct n as [|n]; try lia; unfold item_text at 1; cbn [fst snd];
    rewrite !append_assoc; change (json_str k +:+ ?s) with (String dquote ((json_chars k +:+ String dquote "") +:+ s)); rewrite append_assoc;
    change (String dquote "" +:+ ?s) with (String dquote s); cbn [parse_items]; rewrite skip_head by (unfold heads; set_solver);
    change (Ascii.eqb dquote dquote) with true; cbn [negb]; rewrite parse_json_str by done;
    change (drop_prefix ":" (skip_ws (": " +:+ ?s))) with (Some (String " " s)); cbv iota beta; rewrite parse_value_blank.
  - rewrite Hx; [|lia|right; eexists _, _; split; [reflexivity|set_solver]]. cbn. by rewrite alist_set_new.
  - rewrite Hx; [|lia|right; eexists _, _; split; [reflexivity|set_solver]]. cbn [map object_rest] in *.
    change ((", " +:+ ?a +:+ ?b) +:+ r) with (String "," (String " " ((a +:+ b) +:+ r))).
    change (skip_ws (String "," ?t)) with (String "," t). cbv iota beta. change (Ascii.eqb "," "}") with false. change (Ascii.eqb "," ",") with true. cbv iota.
    rewrite parse_items_blank, append_assoc, alist_set_new by done. rewrite (IH kv' Hk' Hx'); [by rewrite <- app_assoc|by rewrite <- app_assoc|].
    change (", " +:+ ?a +:+ ?b) with (String "," (String " " (a +:+ b))) in Hn. cbn [String.length] in Hn. lia.
Qed.

Lemma fuel_S v n : 2 * String.length (json_text v) ≤ n → ∃ m, n = S m.
Proof. destruct (json_head v) as (c & t & -> & _). destruct n as [|m]; [cbn; lia|by exists m]. Qed.
Lemma parse_value_int n z r : after r → parse_value (S n) (str_of_int z +:+ r) = Some (VInt z, r).
Proof.
  intros Hr. rewrite <- (parse_int_text z r Hr). destruct (int_head z) as (c & t & -> & Hc).
  rewrite !elem_of_cons in Hc. destruct_or! Hc; subst; try (by apply elem_of_nil in Hc); reflexivity.
Qed.
Lemma json_reads_back v : json_ok v → reads_back v.
Proof.
  intros H. induction v as [|b|z|s|l IH|d IH] using val_nested_ind; intros n r Hn Hr;
    pose proof (fuel_S _ _ Hn) as [m ->]; cbn [json_text] in *.
  - reflexivity.
  - by destruct b.
  - by apply parse_value_int.
  - inversion H; subst. unfold json_str. change (String dquote ?x +:+ r) with (String dquote (x +:+ r)). rewrite append_assoc.
    change (String dquote "" +:+ r) with (String dquote r). cbn [parse_value]. rewrite skip_head by (unfold heads; set_solver).
    change (Ascii.eqb dquote dquote) with true. cbv iota. by rewrite parse_json_str.
  - inversion H as [| | | |? Hl|]; subst. destruct l as [|x l]; [reflexivity|]. cbn [map] in *. rewrite json_array_cons in *.
    assert (Forall reads_back (x :: l)) as Hb.
    { apply Forall_forall. intros y Hy. rewrite Forall_forall in IH, Hl. by apply IH, Hl. }
    apply Forall_cons in Hb as [Hx Hb]. change ("[" +:+ ?a +:+ ?b) with (String "[" (a +:+ b)) in *. cbn [String.length] in Hn.
    change (String "[" ?a +:+ r) with (String "[" (a +:+ r)). rewrite append_assoc. cbn [parse_value]. rewrite skip_head by (unfold heads; set_solver).
    change (Ascii.eqb "[" dquote) with false. change (Ascii.eqb "[" "[") with true. cbv iota. pose proof (elems_back x l Hx Hb m r ltac:(lia)) as He.
    destruct (json_head x) as (c & t & Ex & Hc). rewrite Ex in He |- *. change (String c t +:+ ?y) with (String c (t +:+ y)) in *. rewrite skip_head by done.
    head_cases Hc; exact (f_equal (fmap (M:=option) (prod_map VList id)) He).
  - inversion H as [| | | | |? Hnd Hd]; subst. destruct d as [|[k x] d]; [reflexivity|].
    assert (Forall (λ kv, str_ascii kv.1 = true ∧ reads_back kv.2) ((k, x) :: d)) as Hb.
    { apply Forall_forall. intros y Hy. rewrite Forall_forall in IH, Hd. destruct (Hd y Hy) as [? ?]. split; [done|]. by apply IH. }
    apply Forall_cons in Hb as [[Hk Hx] Hb]. change (λ kv, json_str kv.1 +:+ ": " +:+ json_text kv.2) with item_text in *.
    cbn [map] in *. rewrite object_cons in *. change ("{" +:+ ?a +:+ ?b) with (String "{" (a +:+ b)) in *. cbn [String.length] in Hn.
    change (String "{" ?a +:+ r) with (String "{" (a +:+ r)). rewrite append_assoc. cbn [parse_value]. rewrite skip_head by (unfold heads; set_solver).
    change (Ascii.eqb "{" dquote) with false. change (Ascii.eqb "{" "[") with false. change (Ascii.eqb "{" "{") with true. cbv iota.
    exact (f_equal (fmap (M:=option) (prod_map VDict id)) (items_back (k, x) d Hk Hx Hb m [] r Hnd ltac:(lia))).
Qed.

Theorem json_loads_text v : json_ok v → json_loads (json_text v) = Ok v.
Proof.
  intros H. unfold json_loads. pose proof (json_reads_back v H (2 * S (String.length (json_text v))) "" ltac:(lia) ltac:(by left)) as Hb.
  rewrite append_nil_r in Hb. by rewrite Hb.
Qed.

(** ** What a text parses to *)

Lemma ascii_app s t : str_ascii (s +:+ t) = str_ascii s && str_ascii t.
Proof. apply str_forallb_app. Qed.
Lemma skip_ascii s : str_ascii s = true → str_ascii (skip_ws s) = true.
Proof.
  unfold skip_ws. induction s as [|c s IH]; [done|]. intros [Hc Hs]%andb_true_iff. cbn [lstrip_of]. destruct (json_ws c); [by apply IH|]. by apply andb_true_iff.
Qed.
Lemma take_digits_ascii s : str_ascii s = true → str_ascii (take_digits s).2 = true.
Proof.
  induction s as [|c s IH]; [done|]. intros [Hc Hs]%andb_true_iff. cbn [take_digits]. destruct (is_digit c).
  - specialize (IH Hs). by destruct (take_digits s).
  - by apply andb_true_iff.
Qed.
Lemma parse_int_ok s v r : str_ascii s = true → parse_int s = Some (v, r) → json_ok v ∧ str_ascii r = true.
Proof.
  unfold parse_int. intros Hs.
  assert (∀ sign t, str_ascii t = true → (let '(ds, r) := take_digits t in
    let float := match r with String c _ => Ascii.eqb c "." || Ascii.eqb c "e" || Ascii.eqb c "E" | "" => false end in
    let zeros := match ds with String "0" (String _ _) => true | _ => false end in
    if float || zeros then None else match int_of_digits ds with Some z => Some (VInt (sign * z), r) | None => None end) = Some (v, r) →
    json_ok v ∧ str_ascii r = true) as H.
  { intros sign t Ht. pose proof (take_digits_ascii t Ht) as Hr. destruct (take_digits t) as [ds r0]. cbv zeta. destruct (_ || _); [done|].
    destruct (int_of_digits ds); [|done]. intros [= <- <-]. split; [constructor|done]. }
  destruct s as [|c s]; [apply (H 1%Z); done|]. pose proof Hs as [_ Hs']%andb_true_iff.
  destruct c as [[] [] [] [] [] [] [] []]; solve [apply (H 1%Z _ Hs)|apply (H (-1)%Z _ Hs')].
Qed.

Lemma escape_ascii e c : (nat_of_ascii e <? 128) = true → escape_value e = Some c → (nat_of_ascii c <? 128) = true.
Proof. destruct e as [[] [] [] [] [] [] [] []]; intros H; try discriminate H; intros E; try discriminate E; injection E as <-; reflexivity. Qed.
Lemma hex_value_lt c n : hex_value c = Some n → (n < 16)%nat.
Proof. destruct c as [[] [] [] [] [] [] [] []]; intros E; try discriminate E; injection E as <-; apply Nat.ltb_lt; reflexivity. Qed.
Lemma parse_chars_ok s a r : str_ascii s = true → parse_chars s = Some (a, r) → str_ascii a = true ∧ str_ascii r = true.
Proof.
  remember (String.length s) as n eqn:En. revert s En a r. induction (lt_wf n) as [n _ IH]. intros s -> a r Hs H.
  assert (∀ c t a r, str_ascii t = true → (String.length t < String.length s)%nat → (nat_of_ascii c <? 128) = true →
    prod_map (String c) id <$> parse_chars t = Some (a, r) → str_ascii a = true ∧ str_ascii r = true) as Hrec.
  { intros c t a0 r0 Ht Hlt Hc H0. destruct (parse_chars t) as [[b r1]|] eqn:E; [|done]. injection H0 as <- <-.
    destruct (IH _ Hlt t eq_refl b r1 Ht E) as [Hb Hr]. split; [by apply andb_true_iff|done]. }
  destruct s as [|c s]; [done|]. apply andb_true_iff in Hs as [Hc Hs]. cbn [parse_chars] in H. destruct (Ascii.eqb c dquote); [by injection H as <- <-|].
  destruct (Ascii.eqb c "\").
  - destruct s as [|e s]; [done|]. apply andb_true_iff in Hs as [He Hs].
    assert ((match escape_value e with Some c => prod_map (String c) id <$> parse_chars s | None => None end) = Some (a, r) →
      str_ascii a = true ∧ str_ascii r = true) as Hesc.
    { destruct (escape_value e) as [c'|] eqn:Ee; [|done]. apply Hrec; [done|cbn; lia|by apply (escape_ascii e)]. }
    destruct e as [[] [] [] [] [] [] [] []]; try exact (Hesc H). destruct s as [|z0 [|z1 [|x [|y s]]]]; try exact (Hesc H). clear Hesc.
    destruct (hex_value z0) as [[|]|]; try done. destruct (hex_value z1) as [[|]|]; try done. destruct (hex_value x) as [hx|]; [|done].
    destruct (hex_value y) as [hy|] eqn:Ey; [|done]. apply hex_value_lt in Ey. destruct (Nat.ltb_spec hx 8) as [Hx|]; [|done].
    apply andb_true_iff in Hs as [_ Hs]. do 3 apply andb_true_iff in Hs as [_ Hs].
    refine (Hrec _ _ _ _ Hs _ _ H); [cbn; lia|]. rewrite nat_ascii_embedding by lia. apply Nat.ltb_lt. lia.
  - destruct (nat_of_ascii c <? 32); [done|]. apply (Hrec c s); [done|cbn; lia|done|done].
Qed.

Lemma drop_prefix_ascii p s t : str_ascii s = true → drop_prefix p s = Some t → str_ascii t = true.
Proof. intros Hs ->%drop_prefix_Some. rewrite ascii_app in Hs. by apply andb_true_iff in Hs as [_ ?]. Qed.
Definition items_ok (d : list (string * val)) : Prop := NoDup d.*1 ∧ Forall (λ kv, str_ascii kv.1 = true ∧ json_ok kv.2) d.
Lemma items_ok_set k v d : str_ascii k = true → json_ok v → items_ok d → items_ok (alist_set k v d).
Proof.
  intros Hk Hv [Hn Hd]. split; [by apply alist_set_NoDup|]. apply Forall_forall. intros [k' x] [[= -> ->]|Hin]%alist_set_elem; [done|].
  by apply (proj1 (Forall_forall _ _) Hd).
Qed.
(** What the three parsers give, with the text after it *)
Definition gives_value (n : nat) : Prop := ∀ s v r, str_ascii s = true → parse_value n s = Some (v, r) → json_ok v ∧ str_ascii r = true.
Definition gives_elems (n : nat) : Prop := ∀ s l r, str_ascii s = true → parse_elems n s = Some (l, r) → Forall json_ok l ∧ str_ascii r = true.
Definition gives_items (n : nat) : Prop :=
  ∀ d s d' r, str_ascii s = true → items_ok d → parse_items n d s = Some (d', r) → items_ok d' ∧ str_ascii r = true.
Lemma value_step n : gives_elems n → gives_items n → gives_value (S n).
Proof.
  intros IHl IHd s v r. intros Hs H. cbn [parse_value] in H. pose proof (skip_ascii s Hs) as Hk. destruct (skip_ws s) as [|c t]; [done|].
  pose proof Hk as [Hc Ht]%andb_true_iff. destruct (Ascii.eqb c dquote).
  { destruct (parse_chars t) as [[a r']|] eqn:E; [|done]. injection H as <- <-. apply parse_chars_ok in E as [? ?]; [|done]. by split; [constructor|]. }
  pose proof (skip_ascii t Ht) as Ht'. destruct (Ascii.eqb c "[").
  { assert (prod_map VList id <$> parse_elems n (skip_ws t) = Some (v, r) → json_ok v ∧ str_ascii r = true) as Hl.
    { destruct (parse_elems n (skip_ws t)) as [[l r']|] eqn:E; [|done]. intros [= <- <-]. apply IHl in E as [? ?]; [|done]. by split; [constructor|]. }
    destruct (skip_ws t) as [|b u]; [by apply Hl|]. destruct b as [[] [] [] [] [] [] [] []]; try exact (Hl H).
    injection H as <- <-. split; [by constructor|]. by apply andb_true_iff in Ht' as [_ ?]. }
  destruct (Ascii.eqb c "{").
  { assert (prod_map VDict id <$> parse_items n [] (skip_ws t) = Some (v, r) → json_ok v ∧ str_ascii r = true) as Hl.
    { destruct (parse_items n [] (skip_ws t)) as [[d r']|] eqn:E; [|done]. intros [= <- <-]. apply IHd in E as [[? ?] ?]; [|done|by split; constructor].
      by split; [constructor|]. }
    destruct (skip_ws t) as [|b u]; [by apply Hl|]. destruct b as [[] [] [] [] [] [] [] []]; try exact (Hl H).
    injection H as <- <-. split; [by constructor; constructor|]. by apply andb_true_iff in Ht' as [_ ?]. }
  destruct (drop_prefix "null" _) eqn:E1; [injection H as <- <-; split; [constructor|by apply (drop_prefix_ascii _ _ _ Hk E1)]|].
  destruct (drop_prefix "true" _) eqn:E2; [injection H as <- <-; split; [constructor|by apply (drop_prefix_ascii _ _ _ Hk E2)]|].
  destruct (drop_prefix "false" _) eqn:E3; [injection H as <- <-; split; [constructor|by apply (drop_prefix_ascii _ _ _ Hk E3)]|].
  by apply (parse_int_ok _ _ _ Hk).
Qed.
Lemma parsers_ok n : gives_value n ∧ gives_elems n ∧ gives_items n.
Proof.
  induction n as [|n (IHv & IHl & IHd)]; [by split_and!; intros ?|]. split_and!; [by apply value_step|..].
  - intros s l r Hs H. cbn [parse_elems] in H. destruct (parse_value n s) as [[v t]|] eqn:E; [|done]. apply IHv in E as [Hv Ht]; [|done].
    pose proof (skip_ascii t Ht) as Hk. destruct (skip_ws t) as [|c u]; [done|]. apply andb_true_iff in Hk as [_ Hu].
    destruct (Ascii.eqb c "]"); [injection H as <- <-; by split; [constructor|]|]. destruct (Ascii.eqb c ","); [|done].
    destruct (parse_elems n u) as [[l' r']|] eqn:E; [|done]. injection H as <- <-. apply IHl in E as [? ?]; [|done]. by split; [constructor|].
  - intros d s d' r Hs Hd H. cbn [parse_items] in H. pose proof (skip_ascii s Hs) as Hk. destruct (skip_ws s) as [|c t]; [done|].
    apply andb_true_iff in Hk as [_ Ht]. destruct (negb _); [done|]. destruct (parse_chars t) as [[k u]|] eqn:E; [|done].
    apply parse_chars_ok in E as [Hkey Hu]; [|done]. destruct (drop_prefix ":" _) as [w|] eqn:E; [|done].
    apply (drop_prefix_ascii _ _ _ (skip_ascii _ Hu)) in E. destruct (parse_value n w) as [[v x]|] eqn:Ev; [|done]. apply IHv in Ev as [Hv Hx]; [|done].
    pose proof (skip_ascii x Hx) as Hk. destruct (skip_ws x) as [|c' y]; [done|]. apply andb_true_iff in Hk as [_ Hy].
    pose proof (items_ok_set k v d Hkey Hv Hd) as Hd'. destruct (Ascii.eqb c' "}"); [by injection H as <- <-|]. destruct (Ascii.eqb c' ","); [|done].
    by apply (IHd _ _ _ _ Hy Hd' H).
Qed.
Lemma json_loads_ok s v : str_ascii s = true → json_loads s = Ok v → json_ok v.
Proof.
  unfold json_loads. intros Hs H. destruct (parse_value _ s) as [[w r]|] eqn:E; [|done]. destruct (str_eqb _ ""); [|done]. injection H as <-.
  by apply (proj1 (parsers_ok _)) in E as [? _].
Qed.
