(* ===== verification/PyFloat.v ===== *)
(** * Python floats: IEEE 754 binary64

    The format and the rounding of [SpecFloat] at 53 bits and exponents up to
    1024: the operations compute in the kernel.  [float(x)] of a number and of
    a text, the two formats that the guards print, and the comparisons. *)
From S2P Require Import Prelude PyStr PyVal Json.
From Stdlib Require Import Ascii SpecFloat.

Definition float : Type := spec_float.
Definition float_of_Z (z : Z) : float := binary_normalize 53 1024 z 0 false.
Definition fdiv : float → float → float := SFdiv 53 1024.
Definition fmul : float → float → float := SFmul 53 1024.
Definition fadd : float → float → float := SFadd 53 1024.
Definition f_zero : float := S754_zero false.
Definition f_truthy (x : float) : bool := match x with S754_zero _ => false | _ => true end.
Definition is_nan (x : float) : bool := match x with S754_nan => true | _ => false end.

(** ** [float(x)] *)

(** The double nearest to [m * 10^e], or to its opposite *)
Definition decimal (neg : bool) (m e : Z) : float :=
  match m with
  | Z.pos p =>
      if (0 <=? e)%Z then binary_normalize 53 1024 (cond_Zopp neg (m * 10 ^ e)) 0 false
      else fdiv (S754_finite neg p 0) (S754_finite false (Z.to_pos (10 ^ (- e))) 0)
  | _ => S754_zero neg
  end.
Definition sign_of (s : string) : bool * string :=
  match s with String "-" t => (true, t) | String "+" t => (false, t) | _ => (false, s) end.
(** An underscore is between two digits; [d]: the last character is a digit. *)
Fixpoint drop_underscores (d : bool) (s : string) : option string :=
  match s with
  | "" => Some ""
  | String c t =>
      if Ascii.eqb c "_"
      then match t with String c' _ => if d && is_digit c' then drop_underscores false t else None | "" => None end
      else String c <$> drop_underscores (is_digit c) t
  end.
Definition exponent_of (s : string) : option Z :=
  match s with
  | "" => Some 0%Z
  | String c t =>
      if Ascii.eqb c "e" || Ascii.eqb c "E" then
        let '(neg, t) := sign_of t in
        let '(ds, r) := take_digits t in
        if str_eqb r "" then (λ z : Z, if (neg : bool) then (- z)%Z else z) <$> int_of_digits ds else None
      else None
  end.
Definition unsigned_float (neg : bool) (s : string) : option float :=
  let '(ip, r) := take_digits s in
  let '(fp, r) := match r with String "." t => take_digits t | _ => ("", r) end in
  e ← exponent_of r; m ← int_of_digits (ip +:+ fp); Some (decimal neg m (e - Z.of_nat (String.length fp))).
Definition float_of_str (s : string) : option float :=
  s ← drop_underscores false (strip s);
  let '(neg, t) := sign_of s in
  if str_mem (lower t) ["inf"; "infinity"] then Some (S754_infinity neg)
  else if str_eqb (lower t) "nan" then Some S754_nan
  else unsigned_float neg t.
Definition py_float_Z (z : Z) : result float :=
  match float_of_Z z with S754_infinity _ => Raise OverflowError | x => Ok x end.
Definition py_float (v : val) : result float :=
  match v with
  | VBool b => py_float_Z (Z.b2z b)
  | VInt z => py_float_Z z
  | VStr s => match float_of_str s with Some x => Ok x | None => Raise ValueError end
  | _ => Raise TypeError
  end.

(** ** The formats [.0f] and [.3g] *)

(** The value of [m * 2^e] as a fraction *)
Definition fraction (m : positive) (e : Z) : Z * Z :=
  if (0 <=? e)%Z then (Z.pos m * 2 ^ e, 1)%Z else (Z.pos m, 2 ^ (- e))%Z.
Definition round_half_even (n d : Z) : Z :=
  let '(q, r) := Z.div_eucl n d in
  match (2 * r ?= d)%Z with Lt => q | Gt => (q + 1)%Z | Eq => if Z.even q then q else (q + 1)%Z end.
Definition show_special (x : float) : string :=
  match x with S754_nan => "nan" | S754_infinity neg => if neg then "-inf" else "inf" | S754_zero neg | S754_finite neg _ _ => if neg then "-0" else "0" end.
Definition minus (neg : bool) (s : string) : string := if neg then "-" +:+ s else s.
Definition show_0f (x : float) : string :=
  match x with
  | S754_finite neg m e => let '(n, d) := fraction m e in minus neg (str_of_int (round_half_even n d))
  | _ => show_special x
  end.
Definition digits10 (z : Z) : Z := Z.of_nat (String.length (str_of_int z)).
Definition scaled (n d e : Z) : Z * Z := if (0 <=? e)%Z then (n * 10 ^ e, d)%Z else (n, d * 10 ^ (- e))%Z.
(** The power of ten of the first digit of [n/d] *)
Definition exponent10 (n d : Z) : Z :=
  let e := (digits10 n - digits10 d)%Z in
  let '(a, b) := scaled n d (- e) in if (b <=? a)%Z then e else (e - 1)%Z.
Definition no_zeros (s : string) : string := rstrip_char "." (rstrip_char "0" s).
Definition zeros (n : nat) : string := cat (repeat "0" n).
(** Three digits and their power of ten, from 100 to 999 *)
Definition three_digits (n d : Z) : Z * Z :=
  let e := exponent10 n d in
  let '(a, b) := scaled n d (2 - e) in
  let q := round_half_even a b in if (q =? 1000)%Z then (100, e + 1)%Z else (q, e).
Definition show_3g (x : float) : string :=
  match x with
  | S754_finite neg m e =>
      let '(n, d) := fraction m e in
      let '(q, e) := three_digits n d in
      let s := str_of_int q in
      minus neg
        (if (e <? -4)%Z || (3 <=? e)%Z then
           let x := str_of_int (Z.abs e) in
           cat [no_zeros (cat [str_slice 0 1 s; "."; str_slice 1 3 s]); "e"; if (e <? 0)%Z then "-" else "+";
                if String.length x =? 1 then "0" +:+ x else x]
         else if (0 <=? e)%Z then no_zeros (cat [str_slice 0 (Z.to_nat e + 1) s; "."; str_slice (Z.to_nat e + 1) 3 s])
         else no_zeros (cat ["0."; zeros (Z.to_nat (- e - 1)); s]))
  | _ => show_special x
  end.

(** ** Comparison with an integer, which Python does without rounding *)
Definition compare_Z (z : Z) (x : float) : option comparison :=
  match x with
  | S754_nan => None
  | S754_infinity neg => Some (if neg then Gt else Lt)
  | S754_zero _ => Some (z ?= 0)%Z
  | S754_finite neg m e => let '(n, d) := fraction m e in Some (z * d ?= cond_Zopp neg n)%Z
  end.

(** ** Examples: the doubles are those of CPython *)
Example float_tenth : float_of_str "0.1" = Some (S754_finite false 7205759403792794 (-56)).
Proof. vm_compute. reflexivity. Qed.
Example float_texts :
  float_of_str " -1_0.5e1 " = float_of_str "-105" ∧ float_of_str "1__0" = None ∧ float_of_str "." = None ∧ float_of_str ".5" = float_of_str "5e-1" ∧
  float_of_str "1.2.3" = None ∧ float_of_str "1e400" = Some (S754_infinity false) ∧ float_of_str "+Infinity" = Some (S754_infinity false) ∧
  float_of_str "" = None ∧ float_of_str "1e" = None.
Proof. vm_compute. done. Qed.
Example float_overflow : py_float (VInt (10 ^ 400)) = Raise OverflowError ∧ is_ok (py_float (VInt (10 ^ 308))) = true.
Proof. vm_compute. done. Qed.
Example float_rounds : float_of_Z (2 ^ 53 + 1) = float_of_Z (2 ^ 53) ∧ float_of_Z (2 ^ 53 + 3) = float_of_Z (2 ^ 53 + 4).
Proof. vm_compute. done. Qed.
Example shows_3g :
  map show_3g [float_of_Z 10; float_of_Z 999; float_of_Z 1000; float_of_Z 12345; fdiv (float_of_Z 1) (float_of_Z 60);
               fdiv (float_of_Z 1) (float_of_Z 86400); fdiv (float_of_Z 2) (float_of_Z 3); fdiv (float_of_Z 5) (float_of_Z 2); f_zero; float_of_Z 4000]
  = ["10"; "999"; "1e+03"; "1.23e+04"; "0.0167"; "1.16e-05"; "0.667"; "2.5"; "0"; "4e+03"].
Proof. vm_compute. reflexivity. Qed.
Example shows_0f : map show_0f [fdiv (float_of_Z 5) (float_of_Z 2); fdiv (float_of_Z 7) (float_of_Z 2); fmul (decimal false 9 (-1)) (float_of_Z 1024)] = ["2"; "4"; "922"].
Proof. vm_compute. reflexivity. Qed.

(** ** The order of the doubles *)
Lemma SFleb_refl x : is_nan x = false → SFleb x x = true.
Proof.
  destruct x as [| | |[] m e]; try done; unfold SFleb; cbn; [by destruct s|..]; rewrite Z.compare_refl; change (Pos.compare_cont Eq m m) with (m ?= m)%positive;
    by rewrite Pos.compare_refl.
Qed.
(** A double as a point of a total order: its sign, exponent and mantissa *)
Definition rank (x : float) : Z * Z * Z :=
  match x with
  | S754_infinity true => (-2, 0, 0) | S754_finite true m e => (-1, - e, - Z.pos m) | S754_zero _ => (0, 0, 0)
  | S754_finite false m e => (1, e, Z.pos m) | S754_infinity false => (2, 0, 0) | S754_nan => (3, 0, 0)
  end%Z.
Definition rank_le (a b : Z * Z * Z) : Prop :=
  (a.1.1 < b.1.1 ∨ a.1.1 = b.1.1 ∧ (a.1.2 < b.1.2 ∨ a.1.2 = b.1.2 ∧ a.2 ≤ b.2))%Z.
Lemma SFleb_rank x y : is_nan x = false → is_nan y = false → SFleb x y = true ↔ rank_le (rank x) (rank y).
Proof.
  assert (∀ m n, Pos.compare_cont Eq m n = (m ?= n)%positive) as Hc by done.
  unfold rank_le, SFleb. destruct x as [[]|[]| |[] m e], y as [[]|[]| |[] n f]; intros Hx Hy; try done; cbn -[Z.opp Z.compare];
    try (split; [intros; lia|intros; try done; lia]).
  - rewrite Hc. destruct (Z.compare_spec e f); [destruct (Pos.compare_spec m n)|..]; cbn; split; intros H'; try done; lia.
  - rewrite Hc. destruct (Z.compare_spec e f); [destruct (Pos.compare_spec m n)|..]; cbn; split; intros H'; try done; lia.
Qed.
Lemma SFltb_SFleb x y : is_nan x = false → is_nan y = false → SFltb x y = negb (SFleb y x).
Proof.
  assert (∀ m n, Pos.compare_cont Eq m n = (m ?= n)%positive) as Hc by done.
  intros Hx Hy. unfold SFltb, SFleb. destruct x as [[]|[]| |[] m e], y as [[]|[]| |[] n f]; try done; cbn;
    change (PosDef.Pos.compare_cont Eq n m) with (n ?= m)%positive; change (PosDef.Pos.compare_cont Eq m n) with (m ?= n)%positive;
    rewrite (Z.compare_antisym e f), (Pos.compare_antisym n m); destruct (e ?= f)%Z; try done; by destruct (n ?= m)%positive.
Qed.
Lemma SFleb_trans x y z : is_nan y = false → SFleb x y = true → SFleb y z = true → SFleb x z = true.
Proof.
  intros Hy Hxy Hyz. assert (is_nan x = false) as Hx by (by destruct x). assert (is_nan z = false) as Hz by (by destruct y as [[]|[]| |[]], z).
  rewrite SFleb_rank in * by done. unfold rank_le in *. lia.
Qed.
(** [max(l)]: a later element replaces the maximum only when it is above it. *)
Definition fmax (x : float) (l : list float) : float := foldl (λ m x, if SFltb m x then x else m) x l.
Lemma fmax_upper l x y : (∀ z, z ∈ x :: l → is_nan z = false) → y ∈ x :: l → SFleb y (fmax x l) = true.
Proof.
  revert x y. induction l as [|z l IH]; intros x y Hn Hy.
  - apply list_elem_of_singleton in Hy as ->. apply SFleb_refl, Hn. left.
  - cbn. assert (is_nan x = false ∧ is_nan z = false) as [Hx Hz] by (split; apply Hn; set_solver).
    set (w := if SFltb x z then z else x). assert (is_nan w = false) as Hw by (unfold w; by destruct (SFltb x z)).
    assert (∀ t, t ∈ w :: l → is_nan t = false) as Hn' by (intros t [->|Ht]%elem_of_cons; [done|apply Hn; set_solver]).
    assert (SFleb x w = true ∧ SFleb z w = true) as [H1 H2].
    { unfold w. destruct (SFltb x z) eqn:E; rewrite SFltb_SFleb in E by done; split; try (by apply SFleb_refl).
      - rewrite SFleb_rank in * by done. apply negb_true_iff in E. destruct (decide (rank_le (rank x) (rank z))) as [|N]; [done|].
        exfalso. assert (SFleb z x = true); [|congruence]. apply SFleb_rank; [done..|]. unfold rank_le in *. lia.
      - by apply negb_false_iff in E. }
    apply elem_of_cons in Hy as [->|[->|Hy]%elem_of_cons].
    + apply (SFleb_trans _ w); [done..|]. apply IH; [done|left].
    + apply (SFleb_trans _ w); [done..|]. apply IH; [done|left].
    + apply IH; [done|by right].
Qed.

(** ** Integers below [2^53] are doubles *)
Lemma digits2_size m : digits2_pos m = Pos.size m.
Proof. induction m as [m IH|m IH|]; cbn; by rewrite ?IH. Qed.
Lemma iter_xO m d : Z.pos (Pos.iter xO m d) = (Z.pos m * 2 ^ Z.pos d)%Z ∧ digits2_pos (Pos.iter xO m d) = (digits2_pos m + d)%positive.
Proof.
  induction d as [|d [IH1 IH2]] using Pos.peano_ind; [cbn; lia|].
  rewrite Pos.iter_succ, Pos2Z.inj_succ, Z.pow_succ_r by lia. cbn [digits2_pos]. split; lia.
Qed.
Lemma round_exact m e : digits2_pos m = 53%positive → (-1074 ≤ e ≤ 971)%Z → binary_round_aux 53 1024 false (Z.pos m) e loc_Exact = S754_finite false m e.
Proof.
  intros Hm He. assert (∀ k, k = (fexp 53 1024 (Zdigits2 (Z.pos m) + e) - e)%Z → k = 0%Z) as Hf.
  { intros k ->. unfold fexp, emin. cbn [Zdigits2]. rewrite Hm. lia. }
  unfold binary_round_aux, shr_fexp, shr_record_of_loc. rewrite (Hf _ eq_refl). cbn [shr loc_of_shr_record round_nearest_even shr_m].
  rewrite (Hf _ eq_refl). cbn [shr shr_m]. by rewrite (proj2 (Z.leb_le e (1024 - 53)%Z)) by lia.
Qed.
(** The mantissa of 53 bits: nothing is rounded away. *)
Lemma float_of_pos m : (Z.pos m < 2 ^ 53)%Z → ∃ m' e, float_of_Z (Z.pos m) = S754_finite false m' e ∧ (e ≤ 0 ∧ Z.pos m' = Z.pos m * 2 ^ (- e))%Z.
Proof.
  intros Hm. pose proof (Pos.size_le m) as Hs. assert (Pos.size m ≤ 53)%positive as Hd.
  { assert (2 ^ Z.pos (Pos.size m) < 2 ^ 54)%Z as Hp%(Z.pow_lt_mono_r_iff 2); [|lia..].
    rewrite <- Pos2Z.inj_pow. change (2 ^ 54)%Z with (2 * 2 ^ 53)%Z. lia. }
  unfold float_of_Z, binary_normalize, binary_round. rewrite digits2_size.
  assert (fexp 53 1024 (Z.pos (Pos.size m) + 0) = Z.pos (Pos.size m) - 53)%Z as -> by (unfold fexp, emin; lia).
  unfold shl_align. destruct (Z.pos (Pos.size m) - 53 - 0)%Z as [|p|p] eqn:E; [|lia|].
  - exists m, 0%Z. split; [|lia]. apply round_exact; [rewrite digits2_size|]; lia.
  - destruct (iter_xO m p) as [Hv Hdig]. exists (Pos.iter xO m p), (Z.pos (Pos.size m) - 53)%Z. split_and!.
    + apply round_exact; [rewrite Hdig, digits2_size|]; lia.
    + lia.
    + rewrite Hv. do 2 f_equal. lia.
Qed.
(** Python compares such a double with an integer as the two integers. *)
Lemma compare_float_of_Z z m : (Z.pos m < 2 ^ 53)%Z → compare_Z z (float_of_Z (Z.pos m)) = Some (z ?= Z.pos m)%Z.
Proof.
  intros (m' & e & -> & He & Hm)%float_of_pos. unfold compare_Z, fraction. destruct (0 <=? e)%Z eqn:E; cbn [cond_Zopp].
  - apply Z.leb_le in E. assert (e = 0%Z) as -> by lia. rewrite Hm. by rewrite !Z.mul_1_r.
  - rewrite Hm. by rewrite <- (Zmult_compare_compat_r z (Z.pos m) (2 ^ (- e))) by lia.
Qed.

(** ** Products are numbers *)
Lemma shr_1_nonneg r : (0 ≤ shr_m r)%Z → (0 ≤ shr_m (shr_1 r))%Z.
Proof. destruct r as [[|[p|p|]|p] a b]; cbn; lia. Qed.
Lemma iter_shr_nonneg p r : (0 ≤ shr_m r)%Z → (0 ≤ shr_m (iter_pos shr_1 p r))%Z.
Proof. revert r. induction p as [p IH|p IH|]; intros r Hr; cbn; [apply IH, IH|apply IH, IH|]; by try apply shr_1_nonneg. Qed.
Lemma shr_fexp_nonneg m e l : (0 ≤ m)%Z → (0 ≤ shr_m (shr_fexp 53 1024 m e l).1)%Z.
Proof.
  intros Hm. unfold shr_fexp. assert (0 ≤ shr_m (shr_record_of_loc m l))%Z as Hr by (by destruct l as [|[]]).
  destruct (_ - _)%Z; cbn [shr fst]; [done|by apply iter_shr_nonneg|done].
Qed.
Lemma round_not_nan s m e l : (0 ≤ m)%Z → is_nan (binary_round_aux 53 1024 s m e l) = false.
Proof.
  intros Hm. unfold binary_round_aux. pose proof (shr_fexp_nonneg m e l Hm) as H1. destruct (shr_fexp 53 1024 m e l) as [r e1]. cbn [fst] in H1.
  assert (0 ≤ round_nearest_even (shr_m r) (loc_of_shr_record r))%Z as H2 by (unfold round_nearest_even; repeat case_match; lia).
  pose proof (shr_fexp_nonneg _ e1 loc_Exact H2) as H3. destruct (shr_fexp 53 1024 (round_nearest_even _ _) e1 loc_Exact) as [t e2]. cbn [fst] in H3.
  destruct (shr_m t); [done| |lia]. by destruct (_ <=? _)%Z.
Qed.
Lemma fmul_not_nan s m e y : is_nan y = false → is_nan (fmul (S754_finite s m e) y) = false.
Proof. destruct y as [| | |s' m' e']; try done. intros _. by apply round_not_nan. Qed.
