(* ===== verification/WorkloadRbac.v ===== *)
(** * scripts/check-workload-rbac.py: the grants to the ServiceAccounts

    A render's role bindings, each folded into a line with the digest of the
    rules of its role, and the allowlist of such lines. *)
From stdpp Require Import sorting.
From S2P Require Import Prelude PyStr PyVal Json Sha256.

(** ** The digest of the rules of a role *)

(** [sorted(r.get(k) or [])] *)
Definition sorted_field (r : val) (k : string) : result val :=
  l <- get_list r k ;; l <- py_sorted l ;; Ok (VList l).
Definition rule_norm (r : val) : result val :=
  g <- sorted_field r "apiGroups" ;;
  s <- sorted_field r "resources" ;;
  n <- sorted_field r "resourceNames" ;;
  v <- sorted_field r "verbs" ;;
  u <- sorted_field r "nonResourceURLs" ;;
  Ok (VDict [("apiGroups", g); ("resources", s); ("resourceNames", n); ("verbs", v); ("nonResourceURLs", u)]).

(** [norm.sort(key=lambda x: json.dumps(x, sort_keys=True))] *)
Definition text_le (a b : val) : Prop := String.le (json_dumps a) (json_dumps b).
#[global] Instance text_le_dec : RelDecision text_le.
Proof. intros a b. unfold text_le. apply _. Defined.

(** The text that is hashed *)
Definition digest_text (rules : val) : result string :=
  rs <- py_iter (por rules (VList [])) ;;
  norm <- mapR rule_norm rs ;;
  Ok (json_dumps (VList (merge_sort text_le norm))).
Definition rules_digest (rules : val) : result string :=
  t <- digest_text rules ;; Ok (str_slice 0 16 (sha256_hex t)).

(** ** The grants *)
Definition default_ns : string := "gibson".
Definition role_kinds : list string := ["Role"; "ClusterRole"].
Definition binding_kinds : list string := ["RoleBinding"; "ClusterRoleBinding"].

(** [d["metadata"].get("namespace") or default_ns], for the namespaced kind *)
Definition namespace_of (d : val) (namespaced : bool) : result val :=
  if namespaced
  then m <- item d "metadata" ;; n <- get m "namespace" ;; Ok (por n (VStr default_ns))
  else Ok (VStr "").

Definition role_entry (d : val) : result (list (tkey * string)) :=
  kind <- get d "kind" ;;
  if negb (in_tuple kind role_kinds) then Ok [] else
  ns <- namespace_of d (py_eq kind (VStr "Role")) ;;
  rules <- get d "rules" ;;
  digest <- rules_digest rules ;;
  m <- item d "metadata" ;;
  name <- item m "name" ;;
  key <- hash_tkey (kind, ns, name) ;;
  Ok [(key, digest)].

(** The line of a grant: the subject, the role, the scope. *)
Definition grant_line (subject_ns name ref_kind ref_name : val) (scope : string) : string :=
  cat [py_str subject_ns; "/"; py_str name; " -> "; py_str ref_kind; "/"; py_str ref_name; " "; scope].

Definition subject_line (kind : val) (bns ref s : val) : result (list string) :=
  sk <- get s "kind" ;;
  if negb (py_eq sk (VStr "ServiceAccount")) then Ok [] else
  ns <- get s "namespace" ;;
  name <- item s "name" ;;
  let scope := if py_eq kind (VStr "RoleBinding") then "in " +:+ py_str bns else "cluster-wide" in
  rk <- get ref "kind" ;;
  rn <- get ref "name" ;;
  Ok [grant_line (por ns (VStr default_ns)) name rk rn scope].

(** The lines of a binding with the digest of its role *)
Definition binding_grants (roles : list (tkey * string)) (d : val) : result (list (string * string)) :=
  kind <- get d "kind" ;;
  if negb (in_tuple kind binding_kinds) then Ok [] else
  ref <- get_dict d "roleRef" ;;
  bns <- namespace_of d (py_eq kind (VStr "RoleBinding")) ;;
  rk <- get ref "kind" ;;
  rn <- get ref "name" ;;
  digest <- tkey_get roles (rk, if py_eq rk (VStr "Role") then bns else VStr "", rn) ;;
  subjects <- get_list d "subjects" ;;
  lines <- flatM (subject_line kind bns ref) subjects ;;
  Ok (map (λ l, (l, default "external" digest)) lines).

(** [out[line] = digest] for each item in order *)
Definition dict_of {A} (l : list (string * A)) : list (string * A) :=
  foldl (λ acc kx, alist_set kx.1 kx.2 acc) [] l.

Definition grants (docs : list val) : result (list (string * string)) :=
  roles <- flatM role_entry docs ;;
  lines <- flatM (binding_grants roles) docs ;;
  Ok (dict_of lines).

(** ** The allowlist *)

Definition load_allowlist (data : val) : result (list (string * string)) :=
  g <- get_dict (por data (VDict [])) "grants" ;;
  l <- items g ;;
  Ok (map (λ '(k, v), (k, py_str v)) l).

Definition judge_grant (allowed : list (string * string)) (kd : string * string) : list string :=
  let '(k, digest) := kd in
  match alist_get k allowed with
  | None => [cat ["unlisted grant: "; repr_str k; ": "; digest]]
  | Some a =>
      if str_eqb a digest then []
      else [cat ["rules changed: "; repr_str k; ": allowlisted "; a; ", rendered "; digest]]
  end.
Definition judge (current allowed : list (string * string)) : list string :=
  concat (map (judge_grant allowed) (merge_sort pair_le current)) ++
  concat (map (λ k, match alist_get k current with
                    | Some _ => []
                    | None => ["stale allowlist entry (nothing renders it): " +:+ repr_str k]
                    end) (sorted_strs allowed.*1)).

(** ** The run, on the documents of the render and the parsed allowlist *)

Definition verdict (docs : list val) (data : val) : result (list string) :=
  cur <- grants (List.filter truthy docs) ;; allowed <- load_allowlist data ;; Ok (judge cur allowed).
Definition main (docs : list val) (data : val) : result Z :=
  got <- verdict docs data ;; Ok (if nonempty got then 1%Z else 0%Z).
(** [--print] *)
Definition printed (docs : list val) : result (list string) :=
  cur <- grants (List.filter truthy docs) ;;
  Ok (map (λ '(k, v), cat ["  "; repr_str k; ": "; v]) (merge_sort pair_le cur)).

(** ** The self-test; [live] is the verdict on the tree it ends with. *)

Definition FIXTURE : list val :=
  [VDict [("apiVersion", VStr "rbac.authorization.k8s.io/v1"); ("kind", VStr "Role");
          ("metadata", str_dict [("name", "reader"); ("namespace", "gibson")]);
          ("rules", VList [VDict [("apiGroups", strs [""]); ("resources", strs ["secrets"]); ("verbs", strs ["get"; "list"])]])];
   VDict [("apiVersion", VStr "rbac.authorization.k8s.io/v1"); ("kind", VStr "RoleBinding");
          ("metadata", str_dict [("name", "reader"); ("namespace", "gibson")]);
          ("roleRef", str_dict [("kind", "Role"); ("name", "reader")]);
          ("subjects", VList [str_dict [("kind", "ServiceAccount"); ("name", "app"); ("namespace", "gibson")]])]].

Definition one_starting (l : list string) (p : string) : bool :=
  match l with [x] => startswith x p | _ => false end.
Definition selftest (live : result (list string)) : result Z :=
  cur <- grants (List.filter truthy FIXTURE) ;;
  let key := "gibson/app -> Role/reader in gibson" in
  if negb (bool_decide (cur.*1 = [key])) then Ok 1%Z else
  if nonempty (judge cur cur) then Ok 1%Z else
  let wide := edit_first (λ _, true) (push [K "rules"; I 0; K "verbs"] (VStr "delete")) FIXTURE in
  widened <- grants wide ;;
  if negb (one_starting (judge widened cur) "rules changed") then Ok 1%Z else
  if negb (one_starting (judge widened []) "unlisted grant") then Ok 1%Z else
  if negb (one_starting (judge [] cur) "stale allowlist entry") then Ok 1%Z else
  live <- live ;;
  Ok (if nonempty live then 1%Z else 0%Z).

Lemma workloadrbac_selftest : selftest (Ok []) = Ok 0%Z.
Proof. vm_compute. reflexivity. Qed.

(** ** What the RBAC guard promises

    The allowlist and the render have the same grants, with the same digests;
    a grant is a subject of a binding; and a digest is that of the rules of the
    bound role, up to the order of the rules and of their fields. *)

(** *** A dict built by assignments *)
Lemma dict_of_snoc {A} (l : list (string * A)) kx : dict_of (l ++ [kx]) = alist_set kx.1 kx.2 (dict_of l).
Proof. unfold dict_of. by rewrite foldl_app. Qed.
Lemma dict_of_NoDup {A} (l : list (string * A)) : NoDup (dict_of l).*1.
Proof.
  induction l as [|kx l IH] using rev_ind; [constructor|]. rewrite dict_of_snoc. by apply alist_set_NoDup.
Qed.
Lemma dict_of_keys {A} (l : list (string * A)) k : k ∈ (dict_of l).*1 ↔ k ∈ l.*1.
Proof.
  induction l as [|kx l IH] using rev_ind; [done|].
  rewrite dict_of_snoc, alist_set_keys, IH, fmap_app, elem_of_app. cbn. set_solver.
Qed.
Lemma dict_of_elem {A} (l : list (string * A)) kx : kx ∈ dict_of l → kx ∈ l.
Proof.
  destruct kx as [k x]. induction l as [|[k' y] l IH] using rev_ind; [done|].
  rewrite dict_of_snoc, elem_of_app. intros [[= -> ->]|H]%alist_set_elem; [right; by left|left; by apply IH].
Qed.

Lemma alist_is_Some {A} k (l : list (string * A)) : is_Some (alist_get k l) ↔ k ∈ l.*1.
Proof.
  destruct (alist_get k l) as [x|] eqn:E.
  - split; [|eauto]. intros _. apply alist_elem in E. by apply (list_elem_of_fmap_2 fst) in E.
  - apply alist_None in E. split; [by intros []|done].
Qed.

(** *** The comparison *)
Lemma judge_clean_iff current allowed :
  NoDup current.*1 → judge current allowed = [] ↔ ∀ k, alist_get k current = alist_get k allowed.
Proof.
  intros Hd. unfold judge. split.
  - intros [Hg Hs]%app_eq_nil k. rewrite concat_nil in Hg, Hs. destruct (alist_get k current) as [x|] eqn:E.
    + assert (judge_grant allowed (k, x) = []) as Hj.
      { apply Hg, (list_elem_of_fmap_2 (judge_grant allowed) _ (k, x)). rewrite merge_sort_Permutation. by apply alist_elem. }
      unfold judge_grant in Hj. destruct (alist_get k allowed) as [a|]; [|done].
      destruct (str_eqb a x) eqn:Ea; [|done]. by apply str_eqb_eq in Ea as ->.
    + destruct (alist_get k allowed) as [a|] eqn:Ea; [|done]. exfalso.
      assert (k ∈ sorted_strs allowed.*1) as Hk by (apply sorted_strs_elem, alist_is_Some; eauto).
      specialize (Hs _ (list_elem_of_fmap_2 _ _ _ Hk)). cbn in Hs. by rewrite E in Hs.
  - intros H. apply app_nil. rewrite !concat_nil. split.
    + intros ? ([k x] & -> & Hin)%list_elem_of_fmap. rewrite merge_sort_Permutation in Hin.
      apply (alist_NoDup _ _ _ Hd) in Hin. unfold judge_grant. by rewrite <- H, Hin, str_eqb_refl.
    + intros ? (k & -> & Hin)%list_elem_of_fmap. apply sorted_strs_elem, alist_is_Some in Hin as [x Hx].
      by rewrite H, Hx.
Qed.

(** *** The grants of a render *)
Section grant.
Context (d : val).
Definition role_ref : val := por (fld d "roleRef") (VDict []).
Definition is_role_binding : bool := py_eq (fld d "kind") (VStr "RoleBinding").
Definition ns_of (b : bool) : val :=
  if b then por (fld (fld d "metadata") "namespace") (VStr default_ns) else VStr "".
Definition scope_of : string :=
  if is_role_binding then "in " +:+ py_str (ns_of true) else "cluster-wide".

(** The binding [d] gives a ServiceAccount the authority that the line names. *)
Definition is_grant (line : string) : Prop :=
  in_tuple (fld d "kind") binding_kinds = true ∧
  ∃ subjects s, get_list d "subjects" = Ok subjects ∧ s ∈ subjects ∧ fld s "kind" = VStr "ServiceAccount" ∧
    line = grant_line (por (fld s "namespace") (VStr default_ns)) (fld s "name")
             (fld role_ref "kind") (fld role_ref "name") scope_of.

(** The key under which the role of the binding is looked up, and the key of a
    role *)
Definition bound_key : tkey :=
  (fld role_ref "kind", if py_eq (fld role_ref "kind") (VStr "Role") then ns_of is_role_binding else VStr "",
   fld role_ref "name").
Definition own_key : tkey :=
  (fld d "kind", ns_of (py_eq (fld d "kind") (VStr "Role")), fld (fld d "metadata") "name").
Definition is_role : Prop := in_tuple (fld d "kind") role_kinds = true.
End grant.

(** [x] is the digest of a role of the render that the binding [d] names, or
    the render has no such role. *)
Definition digest_of (docs : list val) (d : val) (x : string) : Prop :=
  (∃ r, r ∈ docs ∧ is_role r ∧ tkey_eqb (own_key r) (bound_key d) = true ∧ rules_digest (fld r "rules") = Ok x) ∨
  x = "external" ∧ ∀ r, r ∈ docs → is_role r → tkey_eqb (own_key r) (bound_key d) = false.

Lemma namespace_Ok d b v : namespace_of d b = Ok v → v = ns_of d b.
Proof.
  unfold namespace_of, ns_of. destruct b; [|by intros [= <-]].
  intros (m & ->%item_fld & (n & ->%get_Ok & [= <-])%bind_Ok)%bind_Ok. done.
Qed.

Lemma role_entry_Ok r l :
  role_entry r = Ok l →
  (is_role r → ∃ x, l = [(own_key r, x)] ∧ rules_digest (fld r "rules") = Ok x) ∧ (¬ is_role r → l = []).
Proof.
  unfold role_entry, is_role. intros (kind & ->%get_Ok & H)%bind_Ok.
  destruct (in_tuple _ _) eqn:E; cbn [negb] in H; [|by injection H as <-]. split; [intros _|done].
  apply bind_Ok in H as (ns & ->%namespace_Ok & H). apply bind_Ok in H as (rules & ->%get_Ok & H).
  apply bind_Ok in H as (x & Hx & H). apply bind_Ok in H as (m & ->%item_fld & H).
  apply bind_Ok in H as (name & ->%item_fld & H). apply bind_Ok in H as (key & Hk & H). injection H as <-.
  unfold hash_tkey in Hk. destruct (hashable _ && _ && _); [|done]. injection Hk as <-. by exists x.
Qed.

Lemma subject_Ok d ref bns s ls :
  subject_line (fld d "kind") bns ref s = Ok ls → bns = ns_of d (is_role_binding d) → ref = role_ref d →
  ∀ line, line ∈ ls ↔ fld s "kind" = VStr "ServiceAccount" ∧
    line = grant_line (por (fld s "namespace") (VStr default_ns)) (fld s "name")
             (fld (role_ref d) "kind") (fld (role_ref d) "name") (scope_of d).
Proof.
  unfold subject_line. intros (sk & ->%get_Ok & H)%bind_Ok -> -> line.
  destruct (py_eq _ (VStr "ServiceAccount")) eqn:E; cbn [negb] in H.
  2: { injection H as <-. split; [by intros ?%elem_of_nil|]. intros [Hk _]. apply py_eq_str_r in Hk. congruence. }
  apply py_eq_str_r in E. apply bind_Ok in H as (ns & ->%get_Ok & H). apply bind_Ok in H as (name & ->%item_fld & H).
  apply bind_Ok in H as (rk & ->%get_Ok & H). apply bind_Ok in H as (rn & ->%get_Ok & H). injection H as <-.
  rewrite list_elem_of_singleton. unfold scope_of, is_role_binding.
  destruct (py_eq (fld d "kind") (VStr "RoleBinding")); naive_solver.
Qed.

Lemma binding_Ok roles d ls :
  binding_grants roles d = Ok ls →
  (∀ line, line ∈ ls.*1 ↔ is_grant d line) ∧
  (∀ lx, lx ∈ ls → ∃ o, tkey_get roles (bound_key d) = Ok o ∧ lx.2 = default "external" o).
Proof.
  unfold binding_grants, is_grant. intros (kind & ->%get_Ok & H)%bind_Ok.
  destruct (in_tuple _ _) eqn:E; cbn [negb] in H.
  2: { injection H as <-. split; [|by intros ? ?%elem_of_nil]. intros line. split; [by intros ?%elem_of_nil|by intros []]. }
  apply bind_Ok in H as (ref & Href & H). unfold get_dict in Href. apply bind_Ok in Href as (ref' & ->%get_Ok & Href).
  injection Href as <-. change (por (fld d "roleRef") (VDict [])) with (role_ref d) in H.
  apply bind_Ok in H as (bns & ->%namespace_Ok & H). apply bind_Ok in H as (rk & ->%get_Ok & H).
  apply bind_Ok in H as (rn & ->%get_Ok & H). apply bind_Ok in H as (o & Ho & H).
  apply bind_Ok in H as (subjects & Hs & H). apply bind_Ok in H as (lines & Hl & H). injection H as <-.
  split.
  - intros line. rewrite <- list_fmap_compose. change (_ <$> lines) with (map (λ l : string, l) lines). rewrite map_id.
    rewrite (flatM_elem _ _ _ Hl). split.
    + intros (s & ls & Hin & Hls & Hline). split; [done|]. exists subjects, s.
      by apply (subject_Ok d _ _ _ _ Hls) in Hline as [? ?].
    + intros (_ & subjects' & s & Hs' & Hin & Hk & ->). rewrite Hs in Hs'. injection Hs' as <-.
      destruct (flatM_Ok_elem _ _ _ _ Hl Hin) as [ls Hls]. exists s, ls. split_and!; [done..|].
      by apply (subject_Ok d _ _ _ _ Hls).
  - intros lx (l & -> & _)%list_elem_of_fmap. by exists o.
Qed.

Lemma tkey_get_Ok {A} (l : list (tkey * A)) k o :
  tkey_get l k = Ok o →
  match o with
  | Some x => ∃ k', (k', x) ∈ l ∧ tkey_eqb k' k = true
  | None => ∀ e, e ∈ l → tkey_eqb e.1 k = false
  end.
Proof.
  unfold tkey_get, hash_tkey. destruct (hashable _ && _ && _); [|done]. cbn [rbind]. intros [= <-].
  destruct (find _ (rev l)) as [[k' x]|] eqn:E; cbn.
  - apply find_some in E as [Hin E]. exists k'. split; [|done]. by apply list_elem_of_In, in_rev in Hin || apply list_elem_of_In, in_rev.
  - intros e He. apply (find_none _ _ E). apply in_rev. rewrite rev_involutive. by apply list_elem_of_In.
Qed.

Lemma roles_of docs roles :
  flatM role_entry docs = Ok roles →
  ∀ k x, (k, x) ∈ roles ↔ ∃ r, r ∈ docs ∧ is_role r ∧ k = own_key r ∧ rules_digest (fld r "rules") = Ok x.
Proof.
  intros H k x. rewrite (flatM_elem _ _ _ H). split.
  - intros (r & l & Hin & Hl & Hx). pose proof (role_entry_Ok _ _ Hl) as [H1 H2].
    destruct (decide (is_role r)) as [Hr|Hr]; [|rewrite (H2 Hr) in Hx; by apply elem_of_nil in Hx].
    destruct (H1 Hr) as (y & -> & Hy). apply list_elem_of_singleton in Hx as [= -> ->]. by exists r.
  - intros (r & Hin & Hr & -> & Hx). destruct (flatM_Ok_elem _ _ _ _ H Hin) as [l Hl]. exists r, l. split_and!; [done..|].
    destruct (proj1 (role_entry_Ok _ _ Hl) Hr) as (y & -> & Hy). rewrite Hy in Hx. injection Hx as ->. by left.
Qed.

Lemma digest_of_get docs roles d o :
  flatM role_entry docs = Ok roles → tkey_get roles (bound_key d) = Ok o → digest_of docs d (default "external" o).
Proof.
  intros Hr Ho%tkey_get_Ok. destruct o as [x|]; cbn.
  - destruct Ho as (k & Hin & Hk). apply (roles_of _ _ Hr) in Hin as (r & ? & ? & -> & ?). left. by exists r.
  - right. split; [done|]. intros r Hin Hrole. destruct (flatM_Ok_elem _ _ _ _ Hr Hin) as [l Hl].
    destruct (proj1 (role_entry_Ok _ _ Hl) Hrole) as (x & _ & Hx).
    apply (Ho (own_key r, x)), (roles_of _ _ Hr). by exists r.
Qed.

Lemma grants_Ok docs cur :
  grants docs = Ok cur →
  NoDup cur.*1 ∧
  (∀ line, line ∈ cur.*1 ↔ ∃ d, d ∈ docs ∧ is_grant d line) ∧
  (∀ line x, (line, x) ∈ cur → ∃ d, d ∈ docs ∧ is_grant d line ∧ digest_of docs d x).
Proof.
  unfold grants. intros (roles & Hr & (lines & Hl & [= <-])%bind_Ok)%bind_Ok.
  split; [apply dict_of_NoDup|]. pose proof (flatM_elem _ _ _ Hl) as He. split.
  - intros line. rewrite dict_of_keys, list_elem_of_fmap. split.
    + intros ([l x] & -> & (d & ls & Hin & Hls & Hx)%He). exists d. split; [done|].
      apply (binding_Ok _ _ _ Hls). by apply (list_elem_of_fmap_2 fst) in Hx.
    + intros (d & Hin & Hg). destruct (flatM_Ok_elem _ _ _ _ Hl Hin) as [ls Hls].
      destruct (binding_Ok _ _ _ Hls) as [Hb _]. rewrite <- Hb in Hg. apply list_elem_of_fmap in Hg as (lx & -> & Hx). exists lx. split; [done|].
      apply He. by exists d, ls.
  - intros line x (d & ls & Hin & Hls & Hx)%dict_of_elem%He. exists d.
    destruct (binding_Ok _ _ _ Hls) as [Hg Ho]. split_and!; [done|apply Hg; by apply (list_elem_of_fmap_2 fst) in Hx|].
    destruct (Ho _ Hx) as (o & Hk & E). cbn in E. subst x. by apply (digest_of_get docs roles).
Qed.

(** On a clean run the lines of the allowlist are exactly the grants of the
    render: one line for each subject of a binding that is a ServiceAccount and
    no line that nothing renders; and the digest on the line is that of the rules
    of a role of the render that the binding names, or [external] when the
    render has none. *)
Theorem clean_allowlist_is_the_render docs cur allowed :
  grants docs = Ok cur → judge cur allowed = [] →
  (∀ line, is_Some (alist_get line allowed) ↔ ∃ d, d ∈ docs ∧ is_grant d line) ∧
  (∀ line x, alist_get line allowed = Some x → ∃ d, d ∈ docs ∧ is_grant d line ∧ digest_of docs d x).
Proof.
  intros (Hd & Hk & Hx)%grants_Ok Hj. rewrite (judge_clean_iff _ _ Hd) in Hj. split.
  - intros line. by rewrite <- Hj, alist_is_Some, Hk.
  - intros line x. rewrite <- Hj. intros H%alist_elem. by apply Hx.
Qed.

Definition fixture_grants : list (string * string) := [("gibson/app -> Role/reader in gibson", "999125626bed4a06")].
Lemma clean_allowlist_is_the_render_witness :
  grants FIXTURE = Ok fixture_grants ∧ judge fixture_grants fixture_grants = [] ∧
  ∃ d, d ∈ FIXTURE ∧ is_grant d "gibson/app -> Role/reader in gibson".
Proof.
  assert (grants FIXTURE = Ok fixture_grants) as Hg by (vm_compute; reflexivity).
  assert (judge fixture_grants fixture_grants = []) as Hj by (vm_compute; reflexivity).
  split; [exact Hg|]. split; [exact Hj|].
  apply (clean_allowlist_is_the_render FIXTURE fixture_grants fixture_grants Hg Hj). eexists. reflexivity.
Defined.

(** ** The digest of the rules of a role

    The text that the RBAC guard hashes is the same for two lists of rules
    exactly when they are the same up to the order of the rules and of the
    entries of each field: a reorder does not move it, and any other edit does. *)

(** *** Sorting *)

Lemma sorted_strs_ext (l k : list string) : sorted_strs l = sorted_strs k ↔ l ≡ₚ k.
Proof.
  split; intros H.
  - rewrite <- (merge_sort_Permutation String.le l), <- (merge_sort_Permutation String.le k).
    unfold sorted_strs in H. by rewrite H.
  - apply (StronglySorted_unique String.le); [apply sorted_strs_sorted..|].
    unfold sorted_strs. by rewrite !merge_sort_Permutation.
Qed.

#[global] Instance text_le_trans : Transitive text_le.
Proof. intros a b c. unfold text_le. apply transitivity. Qed.
#[global] Instance text_le_total : Total text_le.
Proof. intros a b. apply (total String.le). Qed.

(** The texts of values sorted by text are the sorted texts. *)
Lemma sort_by_text (l : list val) : map json_dumps (merge_sort text_le l) = sorted_strs (map json_dumps l).
Proof.
  apply (StronglySorted_unique String.le); [|apply sorted_strs_sorted|].
  - assert (StronglySorted text_le (merge_sort text_le l)) as Hs by apply (StronglySorted_merge_sort _).
    induction Hs as [|v m Hs IH Hall]; constructor; [done|].
    change (Forall (String.le (json_dumps v)) (json_dumps <$> m)). by apply Forall_fmap.
  - unfold sorted_strs. rewrite (merge_sort_Permutation String.le). apply Permutation_map, merge_sort_Permutation.
Qed.

(** *** The text of a rule *)

(** The five fields of a rule, in the order of the text *)
Definition fields : Type := list string * list string * list string * list string * list string.
Definition normal (g : string → list string) : fields :=
  (sorted_strs (g "apiGroups"), sorted_strs (g "nonResourceURLs"), sorted_strs (g "resourceNames"),
   sorted_strs (g "resources"), sorted_strs (g "verbs")).
Definition normal_val (f : fields) : val :=
  let '(g, u, n, s, v) := f in
  VDict [("apiGroups", strs g); ("resources", strs s); ("resourceNames", strs n); ("verbs", strs v); ("nonResourceURLs", strs u)].
Definition names (l : list string) : string := json_array (map json_str l).
Definition rule_text (f : fields) : string :=
  let '(g, u, n, s, v) := f in
  unquoted "{`apiGroups`: " +:+ names g +:+ unquoted ", `nonResourceURLs`: " +:+ names u +:+
  unquoted ", `resourceNames`: " +:+ names n +:+ unquoted ", `resources`: " +:+ names s +:+
  unquoted ", `verbs`: " +:+ names v +:+ "}".

Lemma dumps_strs (l : list string) : json_dumps (strs l) = names l.
Proof. unfold strs, names. cbn [json_dumps]. f_equal. by rewrite <- list_fmap_compose. Qed.

Lemma dumps_normal f : json_dumps (normal_val f) = rule_text f.
Proof.
  destruct f as [[[[g u] n] s] v]. cbn [json_dumps normal_val map]. rewrite !dumps_strs.
  match goal with |- context [merge_sort key_le ?l] =>
    change (merge_sort key_le l) with [("apiGroups", names g); ("nonResourceURLs", names u);
      ("resourceNames", names n); ("resources", names s); ("verbs", names v)] end.
  cbn [map]. unfold rule_text. unfold str_join. cbn [String.concat].
  rewrite !append_assoc. reflexivity.
Qed.

Lemma append_inj_l (p x y : string) : p +:+ x = p +:+ y → x = y.
Proof. induction p as [|c p IH]; cbn; [done|]. intros [= H]. by apply IH. Qed.

Lemma names_unique : unique names.
Proof.
  apply (json_array_unique json_str); [apply json_str_unique|].
  intros s. exists dquote. eexists. split; [reflexivity|discriminate].
Qed.

Lemma rule_text_unique : unique rule_text.
Proof.
  intros [[[[g u] n] s] v] [[[[g' u'] n'] s'] v'] x y H. unfold rule_text in H. rewrite !append_assoc in H.
  do 5 (apply append_inj_l in H; apply names_unique in H as [-> H]). apply append_inj_l in H. done.
Qed.

(** *** The text of a list of rules *)

Definition FIELDS : list string := ["apiGroups"; "nonResourceURLs"; "resourceNames"; "resources"; "verbs"].
(** A rule as the API types it: each field is a list of strings or absent. *)
Definition has_fields (r : val) (g : string → list string) : Prop :=
  ∀ k, k ∈ FIELDS → get_list r k = Ok (map VStr (g k)).
(** The same rule up to the order of the entries *)
Definition same_rule (g h : string → list string) : Prop := ∀ k, k ∈ FIELDS → g k ≡ₚ h k.

Lemma rule_norm_fields r g : has_fields r g → rule_norm r = Ok (normal_val (normal g)).
Proof.
  intros H. assert (∀ k, k ∈ FIELDS → sorted_field r k = Ok (strs (sorted_strs (g k)))) as Hf.
  { intros k Hk. unfold sorted_field. rewrite (H k Hk). cbn [rbind]. by rewrite py_sorted_strs. }
  unfold rule_norm. rewrite !Hf by (unfold FIELDS; set_solver). reflexivity.
Qed.

Lemma digest_text_fields rs gs :
  Forall2 has_fields rs gs →
  digest_text (VList rs) = Ok (json_array (sorted_strs (map rule_text (map normal gs)))).
Proof.
  intros H. unfold digest_text. rewrite por_list_nil, py_iter_list. cbn [rbind].
  assert (mapR rule_norm rs = Ok (map normal_val (map normal gs))) as ->.
  { induction H as [|r g rs gs Hr H IH]; cbn; [done|]. by rewrite (rule_norm_fields _ _ Hr), IH. }
  cbn [rbind json_dumps]. rewrite sort_by_text. do 3 f_equal. rewrite (map_map normal_val).
  apply map_ext, dumps_normal.
Qed.

Lemma normal_same g h : normal g = normal h ↔ same_rule g h.
Proof.
  unfold normal, same_rule, FIELDS. split.
  - intros [= H1 H2 H3 H4 H5] k Hk. apply sorted_strs_ext in H1, H2, H3, H4, H5.
    repeat (apply elem_of_cons in Hk as [->|Hk]; [done|]). by apply elem_of_nil in Hk.
  - intros H. rewrite !(λ k Hk, proj2 (sorted_strs_ext _ _) (H k Hk)) by set_solver. reflexivity.
Qed.

(** An array of sorted rule texts determines the rules up to their order. *)
Lemma sorted_texts_inj (ns ms : list fields) :
  json_array (sorted_strs (map rule_text ns)) = json_array (sorted_strs (map rule_text ms)) → ns ≡ₚ ms.
Proof.
  assert (∀ l : list fields, ∃ l', sorted_strs (map rule_text l) = map rule_text l' ∧ l ≡ₚ l') as Hs.
  { intros l. apply Permutation_map_inv. unfold sorted_strs. apply (merge_sort_Permutation String.le). }
  destruct (Hs ns) as (ns' & -> & ->), (Hs ms) as (ms' & -> & ->). intros H.
  assert (ns' = ms') as ->; [|done]. revert H. apply (unique_inj (λ l, json_array (map rule_text l))).
  apply json_array_unique; [apply rule_text_unique|].
  intros [[[[g u] n] s] v]. eexists _, _. split; [reflexivity|discriminate].
Qed.

Lemma map_same gs hs : map normal gs = map normal hs ↔ Forall2 same_rule gs hs.
Proof.
  split.
  - revert hs. induction gs as [|g gs IH]; intros [|h hs]; cbn [map]; try done. intros H.
    apply (f_equal (λ l, (head l, tail l))) in H. cbn [head tail] in H. apply pair_equal_spec in H as [H1 H2].
    constructor; [apply normal_same; congruence|by apply IH].
  - induction 1 as [|g h gs hs H _ IH]; cbn; [done|]. apply normal_same in H. by rewrite H, IH.
Qed.

(** C20: for rules whose fields are lists of strings, the text whose SHA-256
    makes the digest of a role is the same for two lists of rules if and only if
    one is the other with the rules in another order and the entries of each
    field in another order: a reorder never moves the digest, and every other
    change of a rule, a verb more or an entry repeated, changes what is hashed. *)
Theorem digest_text_same_iff rs gs rs' gs' :
  Forall2 has_fields rs gs → Forall2 has_fields rs' gs' →
  digest_text (VList rs) = digest_text (VList rs') ↔ ∃ hs, hs ≡ₚ gs' ∧ Forall2 same_rule gs hs.
Proof.
  intros H H'. rewrite (digest_text_fields _ _ H), (digest_text_fields _ _ H'). split.
  - assert (∀ a b : string, Ok a = Ok b → a = b) as Hi by congruence.
    intros E%Hi. apply sorted_texts_inj, Permutation_map_inv in E as (hs & E & Hp).
    exists hs. split; [by symmetry|]. by apply map_same.
  - intros (hs & Hp & Hs%map_same). do 2 f_equal. rewrite Hs. apply sorted_strs_ext. by rewrite Hp.
Qed.

Definition rule_of (l : list (string * list string)) : val := VDict (map (prod_map id strs) l).
Definition field_of (l : list (string * list string)) (k : string) : list string := default [] (alist_get k l).
Lemma digest_text_same_iff_witness :
  let r := [("apiGroups", [""]); ("verbs", ["get"; "list"])] in
  let s := [("apiGroups", [""]); ("verbs", ["list"; "get"])] in
  let t := [("resources", ["pods"])] in
  digest_text (VList [rule_of r; rule_of t]) = digest_text (VList [rule_of t; rule_of s]).
Proof.
  intros r s t.
  apply (digest_text_same_iff _ [field_of r; field_of t] _ [field_of t; field_of s]).
  - repeat constructor; intros k Hk; repeat (apply elem_of_cons in Hk as [->|Hk]; [reflexivity|]); by apply elem_of_nil in Hk.
  - repeat constructor; intros k Hk; repeat (apply elem_of_cons in Hk as [->|Hk]; [reflexivity|]); by apply elem_of_nil in Hk.
  - exists [field_of s; field_of t]. split; [apply Permutation_swap|].
    repeat constructor; intros k Hk; repeat (apply elem_of_cons in Hk as [->|Hk]; [first [reflexivity|apply Permutation_swap]|]);
      by apply elem_of_nil in Hk.
Defined.
