(* ===== verification/SecretPlumbing.v ===== *)
(** * scripts/check-secret-plumbing.py: each Secret has a producer, and one writer

    The Secrets that the workloads of a render name, the ones that the render
    produces or a producer entry records, and the ones that a script of a
    workload writes with kubectl. *)
From stdpp Require Import sorting.
From S2P Require Import Prelude PyStr PyVal Regex.
From Stdlib Require Import Ascii.

Definition WORKLOADS : list string := ["Deployment"; "StatefulSet"; "DaemonSet"; "Job"; "CronJob"; "Pod"].

(** ** The references *)

(** The names that one item of a dict refers to: the two tests of the loop *)
Definition item_refs (k : string) (v : val) : list val :=
  (if str_mem k ["secretKeyRef"; "secretRef"] && is_dict v && truthy (fld v "name") then [fld v "name"] else []) ++
  (if str_eqb k "secretName" && is_str v then [v] else []).
(** The names in the order in which the walk meets them; a name that is no key
    of a dict raises where the names are collected. *)
Fixpoint references (o : val) : list val :=
  match o with
  | VDict d => concat (map (λ kv, item_refs kv.1 kv.2 ++ references kv.2) d)
  | VList l => concat (map references l)
  | _ => []
  end.

(** ** The Secrets that a script writes *)

Definition quoted_group : regex :=
  ROneOf [RSeq [RStr (String dquote ""); RPlus (RChr (λ c, negb (Ascii.eqb c dquote))); RStr (String dquote "")];
          RSeq [RStr "'"; RPlus (RChr (λ c, negb (Ascii.eqb c squote))); RStr "'"];
          RPlus (RChr (λ c, negb (is_space c)))].
Definition spaces : regex := RPlus (RChr is_space).
Definition lower_dash : regex := RPlus (RChr (λ c, is_lower c || Ascii.eqb c "-")).
Definition WRITE : regex :=
  RSeq [RStr "kubectl"; spaces;
        ROneOf [RSeq [RStr "create"; spaces; RStr "secret"; spaces; lower_dash];
                RSeq [RStr "patch"; spaces; RStr "secret"];
                RSeq [RStr "replace"; spaces; RStr "secret"]];
        spaces; RGroup 1 quoted_group].
Definition identifier : regex :=
  RCat (RChr (λ c, is_alpha c || Ascii.eqb c "_")) (RStar (RChr (λ c, is_alpha c || is_digit c || Ascii.eqb c "_"))).
Definition assigned_value : regex :=
  ROneOf [RSeq [RStr (String dquote ""); RStar (RChr (λ c, negb (Ascii.eqb c dquote))); RStr (String dquote "")];
          RSeq [RStr "'"; RStar (RChr (λ c, negb (Ascii.eqb c squote))); RStr "'"];
          RPlus (RChr (λ c, negb (is_space c)))].
Definition ASSIGN : regex :=
  RSeq [RLineBegin; RSpaces; ROpt (RSeq [RStr "export"; spaces]); RGroup 1 identifier; RStr "="; RGroup 2 assigned_value;
        RSpaces; RLineEnd].
Definition VARIABLE : regex :=
  RSeq [RStr "$"; ROpt (RStr "{"); RGroup 1 identifier; ROpt (RStr "}")].

(** [s.strip] of both quotes *)
Definition is_quote (c : ascii) : bool := Ascii.eqb c dquote || Ascii.eqb c squote.
Definition strip_quotes (s : string) : string := lstrip_of is_quote (rstrip_of is_quote s).

Definition pod_spec (d : val) : result val :=
  kind <- item d "kind" ;;
  if py_eq kind (VStr "CronJob") then
    s <- item d "spec" ;; j <- item s "jobTemplate" ;; s <- item j "spec" ;; t <- item s "template" ;; item t "spec"
  else if py_eq kind (VStr "Pod") then get_dict d "spec"
  else s <- item d "spec" ;; t <- item s "template" ;; item t "spec".

Definition script_of (c : val) : result string :=
  a <- or_empty c "command" ;; b <- or_empty c "args" ;; l <- added a b ;;
  Ok (str_join newline (map py_str l)).

(** [{e["name"]: e.get("value") for e in ... if "value" in e}] *)
Definition env_item (e : val) : result (list (val * val)) :=
  has <- str_in "value" e ;;
  if negb has then Ok [] else n <- item e "name" ;; v <- get e "value" ;; vdict_item n v.

(** The last assignment to a name wins. *)
Definition local_assignments (script : string) : list (val * val) :=
  map (λ m, (VStr (group_text m 1), VStr (strip_quotes (group_text m 2)))) (re_finditer ASSIGN script).

(** What one write of a Secret names: a name, or a text that has none *)
Inductive written := Name (n : val) | Unresolved (text : string).
Definition resolve (c : val) (local env : list (val * val)) (raw : string) : result written :=
  let unknown := n <- get c "name" ;; Ok (Unresolved (cat [py_str n; ": "; raw])) in
  match re_fullmatch VARIABLE raw with
  | Some m =>
      let var := VStr (group_text m 1) in
      let value := por (default VNone (vdict_get var local)) (default VNone (vdict_get var env)) in
      if truthy value
      then dollar <- str_in "$" value ;;
           if dollar : bool then unknown
           else if hashable value then Ok (Name value) else Raise TypeError
      else unknown
  | None => if contains "$" raw then unknown else Ok (Name (VStr raw))
  end.

Definition container_writes (c : val) : result (list written) :=
  script <- script_of c ;;
  envs <- get_list c "env" ;;
  env <- flatM env_item envs ;;
  mapR (λ m, resolve c (local_assignments script) env (strip_quotes (group_text m 1))) (re_finditer WRITE script).

Definition name_of (w : written) : option val := match w with Name n => Some n | _ => None end.
Definition text_of (w : written) : option string := match w with Unresolved t => Some t | _ => None end.

Definition written_secrets (d : val) : result (list val * list string) :=
  spec <- pod_spec d ;;
  a <- or_empty spec "initContainers" ;; b <- or_empty spec "containers" ;; cs <- added a b ;;
  ws <- flatM container_writes cs ;;
  Ok (distinct (omap name_of ws), omap text_of ws).

(** ** The judgements *)

Definition owner_of (d : val) : result string :=
  k <- item d "kind" ;; m <- item d "metadata" ;; n <- item m "name" ;; Ok (cat [py_str k; "/"; py_str n]).
Definition is_workload (d : val) : result bool := k <- get d "kind" ;; Ok (in_tuple k WORKLOADS).

(** [d["metadata"]["name"] not in str(entry)] *)
Definition name_in (d entry : val) : result bool :=
  m <- item d "metadata" ;; n <- item m "name" ;;
  match n with VStr n => Ok (contains n (py_str entry)) | _ => Raise TypeError end.

Definition judge_write (d producers : val) (owner : string) (name : val) : result (list string) :=
  entry <- get_v producers name ;;
  if is_none entry
  then Ok [cat ["unrecorded writer: "; owner; " writes Secret "; py_str name; ", which has no entry in secret-contract.yaml"]]
  else named <- name_in d entry ;;
       Ok (if named : bool then []
           else [cat ["unnamed writer: "; owner; " writes Secret "; py_str name;
                      ", and its secret-contract.yaml entry does not name it"]]).

Definition judge_writer (producers d : val) : result (list string) :=
  w <- is_workload d ;;
  if negb w then Ok [] else
  owner <- owner_of d ;;
  ws <- written_secrets d ;;
  names <- py_sorted ws.1 ;;
  a <- flatM (judge_write d producers owner) names ;;
  Ok (map (λ raw, cat ["unresolved writer: "; owner; " writes a Secret named "; raw;
                       ", and the guard cannot resolve the name"]) ws.2 ++ a).
Definition judge_writers (docs : list val) (producers : val) : result (list string) := flatM (judge_writer producers) docs.

Definition doc_name (d : val) : result val := m <- get_dict d "metadata" ;; get m "name".
(** [((d.get("spec") or {}).get("target") or {})] *)
Definition target_of (d : val) : result val := s <- get_dict d "spec" ;; get_dict s "target".

(** The writers of a document, with the Secret that each one writes *)
Definition doc_writers (d : val) : result (list (val * string)) :=
  k <- get d "kind" ;; n <- doc_name d ;;
  if py_eq k (VStr "Secret") then vdict_item n ("Secret/" +:+ py_str n)
  else if py_eq k (VStr "ExternalSecret") then
    target <- target_of d ;;
    name <- get target "name" ;;
    let name := por name n in
    w <- vdict_item name ("ExternalSecret/" +:+ py_str n) ;;
    policy <- get_default target "creationPolicy" (VStr "Owner") ;;
    Ok (w ++ (if py_eq policy (VStr "Owner") then []
              else [(name, cat ["a writer outside ExternalSecret/"; py_str n; " (creationPolicy "; py_str policy; ")"])]))
  else if py_eq k (VStr "Certificate") then
    s <- get_dict d "spec" ;; name <- get s "secretName" ;; vdict_item name ("Certificate/" +:+ py_str n)
  else if in_tuple k WORKLOADS then
    ws <- written_secrets d ;; Ok (map (λ name, (name, cat [py_str k; "/"; py_str n])) ws.1)
  else Ok [].

Definition writers_of (name : val) (ws : list (val * string)) : list string :=
  (List.filter (λ w, py_eq w.1 name) ws).*2.

Definition judge_one_writer (docs : list val) (shared : val) : result (list string) :=
  ws <- flatM doc_writers docs ;;
  names <- py_sorted_set ws.*1 ;;
  a <- flatM (λ name,
         known <- (if 1 <? length (writers_of name ws) then val_in name shared else Ok true) ;;
         Ok (if known : bool then []
             else [cat ["two writers: Secret "; py_str name; " is written by "; str_join ", " (writers_of name ws);
                        "; a Secret has exactly one writer"]])) names ;;
  keys <- py_iter shared ;;
  keys <- py_sorted keys ;;
  b <- flatM (λ name,
         if hashable name
         then Ok (if length (writers_of name ws) <? 2
                  then [cat ["stale sharedWriters entry: Secret "; py_str name; " has one writer now; delete the entry"]]
                  else [])
         else Raise TypeError) keys ;;
  Ok (a ++ b).

(** What the render produces, with the kind that produces it *)
Definition doc_rendered (d : val) : result (list (val * string)) :=
  k <- get d "kind" ;; n <- doc_name d ;;
  if py_eq k (VStr "Secret") then vdict_item n "Secret"
  else if py_eq k (VStr "ExternalSecret") then
    target <- target_of d ;; name <- get target "name" ;; vdict_item (por name n) "ExternalSecret"
  else if py_eq k (VStr "Certificate") then
    s <- get_dict d "spec" ;; name <- get s "secretName" ;; vdict_item name "Certificate"
  else Ok [].

Definition doc_refs (d : val) : result (list (val * string)) :=
  w <- is_workload d ;;
  if negb w then Ok [] else
  owner <- owner_of d ;; names <- set_of (references d) ;; Ok (map (λ n, (n, owner)) names).

Definition blank (v : val) : bool := str_eqb (strip (py_str v)) "".
(** [str(entry.get(k) or "").strip()] is not empty. *)
Definition states (entry : val) (k : string) : result bool :=
  x <- get entry k ;; Ok (negb (blank (por x (VStr "")))).
Definition judge_entry (ne : string * val) : result (list string) :=
  let '(name, entry) := ne in
  ok <- (if is_dict entry then andR (states entry "writer") (states entry "reason") else Ok false) ;;
  Ok (if ok : bool then []
      else [cat ["producer entry "; name; " must name its writer and a reason (writer:, reason:)"]]).

Definition key_sorted {A} (l : list (string * A)) : list (string * A) := merge_sort (λ a b, String.le a.1 b.1) l.

Definition judge (docs : list val) (producers : val) : result (list string) :=
  rendered <- flatM doc_rendered docs ;;
  refs <- flatM doc_refs docs ;;
  names <- py_sorted_set refs.*1 ;;
  a <- flatM (λ name,
         let r := match vdict_get name rendered with Some _ => true | None => false end in
         known <- (if r then Ok true else val_in name producers) ;;
         Ok (if known : bool then []
             else [cat ["dangling: "; py_str name; " (referenced by "; str_join ", " (sorted_set (writers_of name refs));
                        ") — nothing renders it and no producer is recorded"]])) names ;;
  entries <- items producers ;;
  let keys := sorted_strs entries.*1 in
  let b := concat (map (λ name,
             match vdict_get (VStr name) rendered with
             | Some kind => [cat ["stale producer entry: "; name; " is rendered by a "; kind;
                                  "; delete it from producers in secret-contract.yaml"]]
             | None => []
             end) keys) in
  c <- flatM judge_entry (key_sorted entries) ;;
  w <- judge_writers docs producers ;;
  Ok (a ++ b ++ c ++ w).

(** ** The run, on the render and the parsed secret-contract.yaml *)
Definition load_producers (data : val) : result val := get_dict (por data (VDict [])) "producers".
Definition load_shared (data : val) : result val := get_dict (por data (VDict [])) "sharedWriters".
Definition live (docs : list val) (data : val) : result (list string) :=
  p <- load_producers data ;; a <- judge docs p ;; s <- load_shared data ;; b <- judge_one_writer docs s ;; Ok (a ++ b).
Definition main (docs : list val) (data : val) : result Z :=
  got <- live (List.filter truthy docs) data ;; Ok (if nonempty got then 1%Z else 0%Z).

(** ** The self-test *)

Definition named_doc (kind name : string) : list (string * val) :=
  [("kind", VStr kind); ("metadata", str_dict [("name", name)])].
Definition key_ref (env name : string) : val :=
  VDict [("name", VStr env); ("valueFrom", VDict [("secretKeyRef", str_dict [("name", name); ("key", "k")])])].
Definition FIXTURE : list val :=
  [VDict (named_doc "Deployment" "app" ++ [("spec", VDict [("template", VDict [("spec", VDict
     [("containers", VList [VDict [("name", VStr "c");
         ("env", VList [key_ref "A" "rendered-secret"; key_ref "B" "minted-at-runtime"; key_ref "C" "typo-secret"])]]);
      ("volumes", VList [VDict [("name", VStr "tls"); ("secret", str_dict [("secretName", "cert-secret")])]])])])])]);
   VDict (named_doc "Secret" "rendered-secret");
   VDict (named_doc "Certificate" "cert" ++ [("spec", str_dict [("secretName", "cert-secret")])])].

(** The CronJob of [WRITER_FIXTURE], with the value of its variable *)
Definition WRITER_FIXTURE (state : string) : val :=
  VDict (named_doc "CronJob" "rotator" ++ [("spec", VDict [("jobTemplate", VDict [("spec", VDict [("template", VDict
    [("spec", VDict [("containers", VList [VDict [("name", VStr "c"); ("command", strs ["sh"; "-c"]);
       ("args", strs [unquoted (cat ["STATE=`"; state; "`^kubectl create secret generic `$STATE` -n gibson ";
                                     "--from-literal=v=1 --dry-run=client -o yaml \^  | kubectl apply -f -^"])])]])])])])])])]).

Definition producer (writer : string) : val := str_dict [("writer", writer); ("reason", "fixture")].
Definition external (name : string) (target : list (string * string)) : val :=
  VDict (named_doc "ExternalSecret" name ++ [("spec", VDict [("target", str_dict target)])]).
Definition two : list val :=
  [VDict (named_doc "Secret" "both"); external "both" [("name", "both")];
   external "shared" [("name", "shared"); ("creationPolicy", "Orphan")]; external "single" [("name", "single")]].
Definition names_only (l : list string) : val := VDict (map (λ n, (n, VDict [])) l).

Definition some_starts (l : list string) (p : string) : bool := existsb (λ x, startswith x p) l.
Definition some_has (l : list string) (p : string) : bool := existsb (contains p) l.

(** [live]: the verdict on the tree *)
Definition selftest (live : result (list string)) : result Z :=
  got <- judge FIXTURE (VDict [("minted-at-runtime", producer "an operator"); ("rendered-secret", producer "stale")]) ;;
  if negb (some_starts got "dangling: typo-secret" && some_starts got "stale producer entry: rendered-secret"
           && (length got =? 2)) then Ok 1%Z else
  got <- judge_one_writer two (VDict []) ;;
  if negb (some_has got "Secret both" && some_has got "Secret shared" && (length got =? 2)) then Ok 1%Z else
  got <- judge_one_writer two (names_only ["both"; "shared"]) ;;
  if nonempty got then Ok 1%Z else
  got <- judge_one_writer two (names_only ["both"; "shared"; "single"]) ;;
  if negb (some_has got "stale sharedWriters") then Ok 1%Z else
  got <- judge [] (VDict [("x", VStr "a bare string")]) ;;
  if negb (some_has got "must name its writer") then Ok 1%Z else
  live <- live ;;
  if nonempty live then Ok 1%Z else
  let writer := WRITER_FIXTURE "rotation-state" in
  a <- judge_writers [writer] (VDict []) ;;
  if negb (some_starts a "unrecorded writer") then Ok 1%Z else
  b <- judge_writers [writer] (VDict [("rotation-state", producer "some other job")]) ;;
  if negb (some_starts b "unnamed writer") then Ok 1%Z else
  c <- judge_writers [writer] (VDict [("rotation-state", producer "the CronJob rotator")]) ;;
  if nonempty c then Ok 1%Z else
  d <- judge_writers [WRITER_FIXTURE "$(pick)"] (VDict [("rotation-state", producer "rotator")]) ;;
  Ok (if some_starts d "unresolved writer" then 0%Z else 1%Z).

Lemma secretplumbing_selftest : selftest (Ok []) = Ok 0%Z.
Proof. vm_compute. reflexivity. Qed.

(** ** What a clean run of check-secret-plumbing.py says

    Each Secret that a workload names, at any depth of its document, is produced
    by the render or recorded with its writer; each one that a script writes is
    resolved and recorded; and no two documents write one Secret. *)

(** *** The references of a document *)
Inductive refers : val → string → Prop :=
  | refers_ref d k v n :
      (k, VDict v) ∈ d → k ∈ ["secretKeyRef"; "secretRef"] → fld (VDict v) "name" = VStr n → n ≠ "" → refers (VDict d) n
  | refers_name d n : ("secretName", VStr n) ∈ d → refers (VDict d) n
  | refers_item d k v n : (k, v) ∈ d → refers v n → refers (VDict d) n
  | refers_elem l v n : v ∈ l → refers v n → refers (VList l) n.

Lemma item_refs_iff k v n :
  VStr n ∈ item_refs k v ↔
  (∃ d, v = VDict d ∧ k ∈ ["secretKeyRef"; "secretRef"] ∧ fld v "name" = VStr n ∧ n ≠ "") ∨
  k = "secretName" ∧ v = VStr n.
Proof.
  unfold item_refs. rewrite elem_of_app. f_equiv.
  - destruct (str_mem k _ && is_dict v && truthy (fld v "name")) eqn:E.
    + apply andb_true in E as [[Hk Hd]%andb_true Ht]. apply str_mem_elem in Hk. rewrite list_elem_of_singleton. split.
      * intros H. destruct v; try done. exists d. split_and!; try done. intros ->. by rewrite <- H in Ht.
      * by intros (d & _ & _ & -> & _).
    + split; [by intros ?%elem_of_nil|]. intros (d & -> & Hk & Hn & Hne). rewrite Hn in E. apply str_mem_elem in Hk.
      rewrite Hk in E. cbn in E. destruct (str_eqb n "") eqn:En; [|done]. by apply str_eqb_eq in En.
  - destruct (str_eqb k "secretName") eqn:Ek; cbn [andb].
    + apply str_eqb_eq in Ek as ->. destruct v; cbn; rewrite ?list_elem_of_singleton; set_solver.
    + split; [by intros ?%elem_of_nil|]. by intros [-> _].
Qed.

Lemma references_iff o n : VStr n ∈ references o ↔ refers o n.
Proof.
  induction o as [|b|z|t|m IH|d IH] using val_nested_ind; cbn [references];
    try (split; [by intros ?%elem_of_nil|by inversion 1]); rewrite Forall_forall in IH; rewrite elem_of_concat.
  - split.
    + intros (? & (v & -> & Hv)%list_elem_of_fmap & Hn). eapply refers_elem; [done|]. by apply IH.
    + inversion 1 as [| | |? v ? Hv Hn]; subst. exists (references v).
      split; [apply (list_elem_of_fmap_2 _ _ _ Hv)|by apply IH].
  - split.
    + intros (? & ([k v] & -> & Hv)%list_elem_of_fmap & [Hn|Hn]%elem_of_app).
      * apply item_refs_iff in Hn as [(d' & Ed & Hk & Hf & Hne)|[Ek Ev]]; cbn in *; subst.
        -- by eapply refers_ref.
        -- by apply refers_name.
      * eapply refers_item; [done|]. by apply (IH _ Hv).
    + intros H. assert (∃ kv, kv ∈ d ∧ VStr n ∈ item_refs kv.1 kv.2 ++ references kv.2) as (kv & Hv & Hn).
      { inversion H as [? k v ? Hv ? Hf|? ? Hv|? k v ? Hv Hn|]; subst.
        - exists (k, VDict v). split; [done|]. apply elem_of_app. left. apply item_refs_iff. left. by exists v.
        - exists ("secretName", VStr n). split; [done|]. apply elem_of_app. left. apply item_refs_iff. by right.
        - exists (k, v). split; [done|]. apply elem_of_app. right. by apply (IH _ Hv). }
      eexists. split; [apply (list_elem_of_fmap_2 _ _ _ Hv)|done].
Qed.

(** *** The producers in a render *)
Section doc.
Context (d : val).
Definition nm : val := fld (por (fld d "metadata") (VDict [])) "name".
Definition spec_of : val := por (fld d "spec") (VDict []).
Definition tgt : val := por (fld spec_of "target") (VDict []).
(** The document [d] makes the Secret [n]. *)
Definition renders (n : string) : Prop :=
  fld d "kind" = VStr "Secret" ∧ nm = VStr n ∨
  fld d "kind" = VStr "ExternalSecret" ∧ por (fld tgt "name") nm = VStr n ∨
  fld d "kind" = VStr "Certificate" ∧ fld spec_of "secretName" = VStr n.
Definition workload : Prop := in_tuple (fld d "kind") WORKLOADS = true.
(** The document makes it, or a script of its pod writes it. *)
Definition writes (n : string) : Prop :=
  renders n ∨ workload ∧ ∃ ws, written_secrets d = Ok ws ∧ VStr n ∈ ws.1.
End doc.

Lemma doc_name_Ok d n : doc_name d = Ok n → n = nm d.
Proof. unfold doc_name. by intros (m & ->%por_dict_fld & ->%get_Ok)%bind_Ok. Qed.
Lemma target_Ok d t : target_of d = Ok t → t = tgt d.
Proof. unfold target_of. by intros (m & ->%por_dict_fld & ->%por_dict_fld)%bind_Ok. Qed.
Lemma vdict_item_Ok {A} k (x : A) l : vdict_item k x = Ok l → l = [(k, x)].
Proof. unfold vdict_item. destruct (hashable k); [by intros [= <-]|done]. Qed.

Lemma single_key {A} v (x : A) n : (∃ w, (VStr n, w) ∈ [(v, x)]) ↔ v = VStr n.
Proof. setoid_rewrite list_elem_of_singleton. split; [by intros (? & [= <- _])|intros ->; by exists x]. Qed.

Lemma kind_cases v :
  { v = VStr "Secret" } + { v = VStr "ExternalSecret" } + { v = VStr "Certificate" } +
  { py_eq v (VStr "Secret") = false ∧ py_eq v (VStr "ExternalSecret") = false ∧ py_eq v (VStr "Certificate") = false }.
Proof.
  destruct (py_eq v (VStr "Secret")) eqn:E1; [do 3 left; by apply py_eq_str_r|].
  destruct (py_eq v (VStr "ExternalSecret")) eqn:E2; [do 2 left; right; by apply py_eq_str_r|].
  destruct (py_eq v (VStr "Certificate")) eqn:E3; [left; right; by apply py_eq_str_r|right; done].
Qed.

Lemma renders_none d n :
  py_eq (fld d "kind") (VStr "Secret") = false ∧ py_eq (fld d "kind") (VStr "ExternalSecret") = false ∧
  py_eq (fld d "kind") (VStr "Certificate") = false → ¬ renders d n.
Proof. intros (E1 & E2 & E3) [[E _]|[[E _]|[E _]]]; rewrite E in *; done. Qed.

Lemma rendered_iff d l n : doc_rendered d = Ok l → (∃ k, (VStr n, k) ∈ l) ↔ renders d n.
Proof.
  unfold doc_rendered. intros (k & ->%get_Ok & (m & ->%doc_name_Ok & H)%bind_Ok)%bind_Ok. unfold renders.
  destruct (kind_cases (fld d "kind")) as [[[E|E]|E]|E].
  - rewrite E in *. cbn in H. apply vdict_item_Ok in H as ->. rewrite single_key. intuition congruence.
  - rewrite E in *. cbn in H. apply bind_Ok in H as (t & ->%target_Ok & H).
    apply bind_Ok in H as (x & ->%get_Ok & ->%vdict_item_Ok). rewrite single_key. intuition congruence.
  - rewrite E in *. cbn in H. apply bind_Ok in H as (s & ->%por_dict_fld & H).
    apply bind_Ok in H as (x & ->%get_Ok & ->%vdict_item_Ok). rewrite single_key. intuition congruence.
  - pose proof (renders_none d n E) as Hn. destruct E as (E1 & E2 & E3). rewrite E1, E2, E3 in H. injection H as <-.
    split; [by intros [? ?%elem_of_nil]|done].
Qed.

Lemma writers_iff d l n : doc_writers d = Ok l → (∃ w, (VStr n, w) ∈ l) ↔ writes d n.
Proof.
  unfold doc_writers. intros (k & ->%get_Ok & (m & ->%doc_name_Ok & H)%bind_Ok)%bind_Ok. unfold writes, renders, workload.
  destruct (kind_cases (fld d "kind")) as [[[E|E]|E]|E].
  - rewrite E in *. cbn in H. apply vdict_item_Ok in H as ->. rewrite single_key. split; [intuition congruence|]. intros [?|[? _]]; [intuition congruence|done].
  - rewrite E in *. cbn in H. apply bind_Ok in H as (t & ->%target_Ok & H).
    apply bind_Ok in H as (x & ->%get_Ok & H). apply bind_Ok in H as (w & ->%vdict_item_Ok & H).
    apply bind_Ok in H as (p & _ & H). injection H as <-.
    assert (por (fld (tgt d) "name") (nm d) = VStr n → ∃ w0, (VStr n, w0) ∈ [(por (fld (tgt d) "name") (nm d),
      "ExternalSecret/" +:+ py_str (nm d))]) as Hin by (by rewrite single_key).
    split.
    + intros (w & [[= Hw _]|Hw]%elem_of_cons); [intuition congruence|].
      destruct (py_eq p (VStr "Owner")); [by apply elem_of_nil in Hw|]. apply list_elem_of_singleton in Hw as [= Hn _]. intuition congruence.
    + intros [H|[H _]]; [|done]. destruct Hin as [w Hw]; [intuition congruence|]. exists w. apply list_elem_of_singleton in Hw. rewrite Hw. by left.
  - rewrite E in *. cbn in H. apply bind_Ok in H as (s & ->%por_dict_fld & H).
    apply bind_Ok in H as (x & ->%get_Ok & ->%vdict_item_Ok). rewrite single_key. split; [intuition congruence|]. intros [?|[? _]]; [intuition congruence|done].
  - pose proof (renders_none d n E) as Hn. unfold renders in Hn. destruct E as (E1 & E2 & E3). rewrite E1, E2, E3 in H.
    destruct (in_tuple (fld d "kind") WORKLOADS) eqn:Ew.
    + apply bind_Ok in H as (ws & Hws & H). injection H as <-. split.
      * intros (w & (v & [= -> _] & Hv)%list_elem_of_fmap). right. split; [done|]. by exists ws.
      * intros [?|(_ & ws' & Hws' & Hv)]; [done|]. rewrite Hws in Hws'. injection Hws' as <-.
        eexists. apply list_elem_of_fmap. by exists (VStr n).
    + injection H as <-. split; [by intros [? ?%elem_of_nil]|]. by intros [?|[? _]].
Qed.

(** *** One writer *)

Lemma filter_pos {A} (p : A → bool) l x : x ∈ l → p x = true → (1 ≤ length (List.filter p l))%nat.
Proof.
  intros Hx Hp. assert (x ∈ List.filter p l) as H by (rewrite list_elem_of_In, filter_In, <- list_elem_of_In; done).
  destruct (List.filter p l); [by apply elem_of_nil in H|cbn; lia].
Qed.

(** Two places of a list that each give an element of a kind give two. *)
Lemma flatM_two {A B} (f : A → result (list B)) (p : B → bool) l ws i j x y a b la lb :
  flatM f l = Ok ws → l !! i = Some x → l !! j = Some y → (i < j)%nat → f x = Ok la → f y = Ok lb →
  a ∈ la → b ∈ lb → p a = true → p b = true → (2 ≤ length (List.filter p ws))%nat.
Proof.
  revert i j ws. induction l as [|z l IH]; intros i j ws H Hi Hj Hlt Hx Hy Ha Hb Hpa Hpb; [done|]. cbn in H.
  apply bind_Ok in H as (r & Hr & H). apply bind_Ok in H as (k & Hk & H). injection H as <-.
  rewrite List.filter_app, length_app. destruct j as [|j]; [lia|]. cbn in Hj. destruct i as [|i]; cbn in Hi.
  - injection Hi as ->. rewrite Hx in Hr. injection Hr as <-.
    pose proof (filter_pos p la a Ha Hpa). enough (1 ≤ length (List.filter p k))%nat by lia.
    apply (filter_pos p k b); [|done]. apply (flatM_elem _ _ _ Hk). exists y, lb.
    split_and!; [by eapply list_elem_of_lookup_2|done..].
  - enough (2 ≤ length (List.filter p k))%nat by lia. apply (IH i j); try done. lia.
Qed.

Definition in_dict {A} (n : string) (d : list (string * A)) : Prop := is_Some (alist_get n d).
Lemma val_in_dict n d b : val_in (VStr n) (VDict d) = Ok b → b = true ↔ in_dict n d.
Proof.
  unfold in_dict. cbn. intros [= <-]. by destruct (alist_get n d).
Qed.

Lemma clean_one_writer docs shared i j d d' n :
  judge_one_writer docs (VDict shared) = Ok [] →
  docs !! i = Some d → docs !! j = Some d' → i ≠ j → writes d n → writes d' n → in_dict n shared.
Proof.
  unfold judge_one_writer. intros (ws & Hws & H)%bind_Ok.
  assert (∀ i j d d', docs !! i = Some d → docs !! j = Some d' → (i < j)%nat → writes d n → writes d' n →
    in_dict n shared) as Hw; [|intros Hi Hj Hne Hd Hd'; destruct (decide (i < j)%nat);
      [by apply (Hw i j d d')|apply (Hw j i d' d); [done..|lia|done|done]]].
  clear i j d d'. intros i j d d' Hi Hj Hlt Hd Hd'.
  apply bind_Ok in H as (names & Hn & H). apply bind_Ok in H as (a & Ha & H).
  apply bind_Ok in H as (keys & _ & H). apply bind_Ok in H as (keys' & _ & H). apply bind_Ok in H as (b & _ & H).
  injection H as H. apply app_eq_nil in H as [-> _].
  destruct (flatM_Ok_elem _ _ _ _ Hws (list_elem_of_lookup_2 _ _ _ Hi)) as [la Hla].
  destruct (flatM_Ok_elem _ _ _ _ Hws (list_elem_of_lookup_2 _ _ _ Hj)) as [lb Hlb].
  apply (writers_iff _ _ _ Hla) in Hd as [w Hw]. apply (writers_iff _ _ _ Hlb) in Hd' as [w' Hw'].
  assert (VStr n ∈ names) as Hin.
  { apply (sorted_set_strs _ _ _ Hn). apply (list_elem_of_fmap_2' fst _ (VStr n, w)); [|done].
    apply (flatM_elem _ _ _ Hws). exists d, la. split_and!; [by eapply list_elem_of_lookup_2|done..]. }
  pose proof (proj1 (flatM_nil _ _) Ha _ Hin) as Hk. cbn beta in Hk.
  assert (2 ≤ length (writers_of (VStr n) ws))%nat as Hlen.
  { unfold writers_of. rewrite length_fmap.
    eapply (flatM_two _ (λ w, py_eq w.1 (VStr n)) _ _ i j _ _ (VStr n, w) (VStr n, w')); [exact Hws|exact Hi|exact Hj|..];
      try done; cbn; apply str_eqb_refl. }
  assert ((1 <? length (writers_of (VStr n) ws))%nat = true) as E by (apply Nat.ltb_lt; lia). rewrite E in Hk.
  apply bind_Ok in Hk as (known & Hv & Hk). apply (val_in_dict n shared known Hv). by destruct known.
Qed.

(** *** Each reference has a producer *)

(** A producer entry that names its writer and a reason *)
Definition well_stated (entry : val) : Prop :=
  is_dict entry = true ∧ blank (por (fld entry "writer") (VStr "")) = false ∧ blank (por (fld entry "reason") (VStr "")) = false.

Lemma states_true entry k : states entry k = Ok true → blank (por (fld entry k) (VStr "")) = false.
Proof. unfold states. intros (x & ->%get_Ok & [= H])%bind_Ok. by apply negb_true_iff. Qed.

Lemma clean_entry_states name entry : judge_entry (name, entry) = Ok [] → well_stated entry.
Proof.
  unfold judge_entry, well_stated. intros (ok & Hok & H)%bind_Ok. destruct ok; [|done].
  destruct (is_dict entry); [|done]. apply andR_true in Hok as [?%states_true ?%states_true]. done.
Qed.

Lemma vdict_get_str {A} n (l : list (val * A)) : is_Some (vdict_get (VStr n) l) ↔ ∃ x, (VStr n, x) ∈ l.
Proof.
  unfold vdict_get. destruct (find _ (rev l)) as [[k x]|] eqn:E; cbn.
  - split; [intros _|eauto]. apply find_some in E as [Hin E]. apply py_eq_str_r in E. cbn in E. subst k.
    exists x. rewrite <- in_rev in Hin. by apply list_elem_of_In.
  - split; [by intros []|]. intros [x Hx].
    assert (py_eq (VStr n) (VStr n) = false) as Hf.
    { apply (find_none _ _ E (VStr n, x)). rewrite <- in_rev. by apply list_elem_of_In. }
    by rewrite py_eq_str_str, str_eqb_refl in Hf.
Qed.

Lemma doc_refs_elem d l n : doc_refs d = Ok l → workload d → refers d n → VStr n ∈ l.*1.
Proof.
  unfold doc_refs, is_workload, workload. intros H Hw Hr%references_iff.
  apply bind_Ok in H as (w & Hk & H). apply bind_Ok in Hk as (k & ->%get_Ok & [= <-]). rewrite Hw in H. cbn [negb] in H.
  apply bind_Ok in H as (owner & _ & H). apply bind_Ok in H as (names & Hs & H). injection H as <-.
  unfold set_of in Hs. destruct (forallb hashable _); [|done]. injection Hs as <-.
  apply list_elem_of_fmap. exists (VStr n, owner). split; [done|]. by apply (list_elem_of_fmap_2 (λ n, (n, owner))).
Qed.

Lemma rendered_get docs rendered n :
  flatM doc_rendered docs = Ok rendered →
  is_Some (vdict_get (VStr n) rendered) ↔ ∃ d, d ∈ docs ∧ renders d n.
Proof.
  intros H. rewrite vdict_get_str. setoid_rewrite (flatM_elem _ _ _ H). split.
  - intros (k & d & l & Hd & Hl & Hk). exists d. split; [done|]. apply (rendered_iff _ _ _ Hl). by exists k.
  - intros (d & Hd & Hr). destruct (flatM_Ok_elem _ _ _ _ H Hd) as [l Hl].
    rewrite <- (rendered_iff _ _ _ Hl) in Hr. destruct Hr as [k Hk]. by exists k, d, l.
Qed.

Lemma key_sorted_elem {A} (l : list (string * A)) x : x ∈ key_sorted l ↔ x ∈ l.
Proof. unfold key_sorted. by rewrite merge_sort_Permutation. Qed.

Lemma clean_judge docs ps :
  judge docs (VDict ps) = Ok [] →
  (∀ d n, d ∈ docs → workload d → refers d n → (∃ d', d' ∈ docs ∧ renders d' n) ∨ in_dict n ps) ∧
  (∀ n entry, (n, entry) ∈ ps → well_stated entry ∧ ¬ ∃ d, d ∈ docs ∧ renders d n) ∧
  judge_writers docs (VDict ps) = Ok [].
Proof.
  unfold judge. intros (rendered & Hr & H)%bind_Ok. apply bind_Ok in H as (refs & Hf & H).
  apply bind_Ok in H as (names & Hn & H). apply bind_Ok in H as (a & Ha & H).
  cbn [items rbind] in H. apply bind_Ok in H as (c & Hc & H). apply bind_Ok in H as (w & Hw & H).
  injection H as H. apply app_eq_nil in H as [-> H]. apply app_eq_nil in H as [Hb H]. apply app_eq_nil in H as [-> ->].
  split_and!; [| |done].
  - intros d n Hd Hwk Href. destruct (flatM_Ok_elem _ _ _ _ Hf Hd) as [l Hl].
    assert (VStr n ∈ names) as Hin.
    { apply (sorted_set_strs _ _ _ Hn). pose proof (doc_refs_elem _ _ _ Hl Hwk Href) as Hx.
      apply list_elem_of_fmap in Hx as (x & Ex & Hx). apply list_elem_of_fmap. exists x. split; [done|].
      apply (flatM_elem _ _ _ Hf). by exists d, l. }
    pose proof (proj1 (flatM_nil _ _) Ha _ Hin) as Hk. cbn beta in Hk.
    destruct (vdict_get (VStr n) rendered) eqn:E; [left; by apply (rendered_get _ _ n Hr)|].
    right. apply bind_Ok in Hk as (b & Hv & Hk). apply (val_in_dict _ _ _ Hv). by destruct b.
  - intros n entry Hin. split.
    + apply (clean_entry_states n). by apply (proj1 (flatM_nil _ _) Hc), key_sorted_elem.
    + rewrite <- (rendered_get _ _ n Hr). intros [k Hk]. rewrite concat_nil in Hb.
      assert (n ∈ sorted_strs ps.*1) as Hs by (apply sorted_strs_elem; by apply (list_elem_of_fmap_2 fst) in Hin).
      specialize (Hb _ (list_elem_of_fmap_2 _ _ _ Hs)). cbn beta in Hb. by rewrite Hk in Hb.
Qed.

Lemma clean_writer ps d :
  judge_writer (VDict ps) d = Ok [] → workload d →
  ∃ names, written_secrets d = Ok (names, []) ∧
    ∀ n, VStr n ∈ names → ∃ entry w, alist_get n ps = Some entry ∧ fld (fld d "metadata") "name" = VStr w ∧
      contains w (py_str entry) = true.
Proof.
  unfold judge_writer, is_workload, workload. intros H Hw.
  apply bind_Ok in H as (b & Hk & H). apply bind_Ok in Hk as (k & ->%get_Ok & [= <-]). rewrite Hw in H. cbn [negb] in H.
  apply bind_Ok in H as (owner & _ & H). apply bind_Ok in H as ([names un] & Hws & H). cbn [fst snd] in H.
  apply bind_Ok in H as (sorted & Hs & H). apply bind_Ok in H as (a & Ha & H). injection H as H.
  apply app_eq_nil in H as [Hu ->]. destruct un; [|done]. exists names. split; [done|]. intros n Hin.
  apply py_sorted_elem in Hs. rewrite Hs in Hin. pose proof (proj1 (flatM_nil _ _) Ha _ Hin) as Hj.
  unfold judge_write in Hj. apply bind_Ok in Hj as (entry & He & Hj). cbn in He. injection He as He.
  destruct (alist_get n ps) as [e|]; cbn in He; subst entry; [|done].
  destruct (is_none e); [done|]. apply bind_Ok in Hj as (nd & Hn & Hj). destruct nd; [|done].
  unfold name_in in Hn. apply bind_Ok in Hn as (m & ->%item_fld & Hn). apply bind_Ok in Hn as (nm' & ->%item_fld & Hn).
  destruct (fld (fld d "metadata") "name") as [| | |w| |] eqn:E; try done. injection Hn as Hn. by exists e, w.
Qed.


Definition plumbed : list val :=
  FIXTURE ++ [VDict (named_doc "Secret" "typo-secret"); WRITER_FIXTURE "rotation-state"].
Definition plumbed_producers : list (string * val) :=
  [("minted-at-runtime", producer "an operator"); ("rotation-state", producer "the CronJob rotator")].
