(* ===== verification/IdentityAdmission.v ===== *)
(** * scripts/check-identity-admission-covers.py: no identity without admission

    The identities that a render registers (ClusterSPIFFEID) and the two lists
    of each admission policy that decides on an identity claim. *)
From S2P Require Import Prelude PyStr PyVal Regex Json.
From Stdlib Require Import Ascii.

Definition UNPROTECTED_ON_PURPOSE : list string := ["platform/helm-test"; "platform/e2e-runner"; "platform/e2e-member"].
Definition FIRST_PARTY : list string := ["platform/"; "plugin/"].
Definition SUBCHART_WITH_WORKLOAD : list string := ["-default"; "-oidc-discovery-provider"; "-test-keys"].

Definition bracketed (i : nat) : regex :=
  RGroup i (RSeq [RStr "["; RStar (RChr (λ c, negb (Ascii.eqb c "]"))); RStr "]"]).
Definition LISTS : regex :=
  RSeq [RStr "variables.component in "; bracketed 1; RSpaces; RStr "||"; RSpaces; RStr "variables.sa in "; bracketed 2].

(** ** The policies *)

(** [set(json.loads(t))] *)
Definition json_set (t : string) : result (list val) := v <- json_loads t ;; set_keys v.

Record lists := Lists { policy_name : val; components : list val; accounts : list val }.

Definition variable_lists (d var : val) : result (list lists) :=
  e <- get_default var "expression" (VStr "") ;;
  match re_search LISTS (py_str e) with
  | Some m =>
      meta <- item d "metadata" ;; n <- item meta "name" ;;
      c <- json_set (group_text m 1) ;; s <- json_set (group_text m 2) ;;
      Ok [Lists n c s]
  | None => Ok []
  end.
Definition doc_lists (d : val) : result (list lists) :=
  kind <- get d "kind" ;;
  if negb (py_eq kind (VStr "ValidatingAdmissionPolicy")) then Ok [] else
  spec <- get_dict d "spec" ;; vars <- get_list spec "variables" ;; flatM (variable_lists d) vars.
Definition policy_lists (docs : list val) : result (list lists) := flatM doc_lists docs.

(** ** The identities *)

Definition has_prefix (s : string) (ps : list string) : bool := existsb (startswith s) ps.
Definition has_suffix (s : string) (ps : list string) : bool := existsb (endswith s) ps.

(** [str(spec.get("spiffeIDTemplate", "")).split("/", 3)[-1]] *)
Definition path_of (spec : val) : result string :=
  t <- get_default spec "spiffeIDTemplate" (VStr "") ;;
  Ok (default "" (last (str_splitn 3 "/" (py_str t)))).

Definition is_csid (d : val) : result bool := k <- get d "kind" ;; Ok (py_eq k (VStr "ClusterSPIFFEID")).

Definition unowned_doc (d : val) : result (list string) :=
  c <- is_csid d ;;
  if negb c then Ok [] else
  spec <- get_dict d "spec" ;; path <- path_of spec ;;
  meta <- item d "metadata" ;; name <- item meta "name" ;;
  owned <- (if has_prefix path FIRST_PARTY then Ok true
            else n <- as_str name ;; Ok (has_suffix n SUBCHART_WITH_WORKLOAD)) ;;
  Ok (if owned : bool then []
      else [cat [py_str name; " registers "; path; ", and this chart deploys no workload for it"]]).
Definition unowned (docs : list val) : result (list string) := flatM unowned_doc docs.

(** The account of a selector template: the text after the first [k8s:sa:] *)
Definition selector_account (t : val) : result (list string) :=
  has <- str_in "k8s:sa:" t ;;
  if negb has then Ok [] else
  s <- as_str t ;; Ok [match split1 "k8s:sa:" s with Some (_, b) => b | None => s end].

Record identity := Identity { spiffe_path : string; component : val; service_accounts : list string }.

Definition identity_of (d : val) : result (list identity) :=
  c <- is_csid d ;;
  if negb c then Ok [] else
  spec <- get_dict d "spec" ;; path <- path_of spec ;;
  sel <- get_dict spec "podSelector" ;; labels <- get_dict sel "matchLabels" ;;
  comp <- get_default labels "app.kubernetes.io/component" (VStr "") ;;
  ts <- get_list spec "workloadSelectorTemplates" ;;
  sas <- flatM selector_account ts ;;
  Ok [Identity path comp sas].
Definition identities (docs : list val) : result (list identity) := flatM identity_of docs.

(** ** The judgement *)

(** [v in s], for a set [s] *)
Definition in_val_set (v : val) (s : list val) : result bool :=
  if hashable v then Ok (existsb (py_eq v) s) else Raise TypeError.

Definition judge_pair (i : identity) (p : lists) : result (list string) :=
  inn <- in_val_set (component i) (components p) ;;
  let path := spiffe_path i in
  Ok ((if inn : bool then []
       else [cat [path; ": component "; py_repr (component i); " is not in the protected components of "; py_str (policy_name p)]]) ++
      concat (map (λ sa,
        if existsb (py_eq (VStr sa)) (accounts p) then []
        else [cat [path; ": ServiceAccount "; repr_str sa; " is not in the protected ServiceAccounts of "; py_str (policy_name p)]])
        (service_accounts i)) ++
      (if nonempty (service_accounts i) then []
       else [path +:+ ": the identity has no k8s:sa: selector, so no ServiceAccount bounds it"])).

Definition is_checked (i : identity) : bool :=
  has_prefix (spiffe_path i) FIRST_PARTY && negb (str_mem (spiffe_path i) UNPROTECTED_ON_PURPOSE).

Definition judge (docs : list val) : result (list string * nat) :=
  policies <- policy_lists docs ;;
  ids <- identities docs ;;
  if negb (nonempty policies)
  then Ok (["the render holds no admission policy with the two protected lists: this check read nothing"], 0%nat) else
  if negb (existsb (λ i, has_prefix (spiffe_path i) FIRST_PARTY) ids)
  then Ok (["the render holds no first-party ClusterSPIFFEID: this check read nothing"], 0%nat) else
  u <- unowned docs ;;
  let checked := List.filter is_checked ids in
  out <- flatM (λ i, flatM (judge_pair i) policies) checked ;;
  Ok (u ++ out, length checked).

Definition stale_exceptions (seen_paths : list string) : list string :=
  map (λ p, p +:+ " is named as unprotected on purpose, and no render holds it")
    (sorted_set (List.filter (λ p, negb (str_mem p seen_paths)) UNPROTECTED_ON_PURPOSE)).

(** ** The run, on the baseline and on the render with the e2e gate on *)
Definition problems (docs gated : list val) : result (list string) :=
  found <- judge docs ;; ids <- identities docs ;;
  gated_found <- judge gated ;; gated_ids <- identities gated ;;
  Ok (map (λ f, "the baseline: " +:+ f) found.1 ++
      map (λ f, "the baseline with gibson.e2eRunner.enabled: " +:+ f) gated_found.1 ++
      stale_exceptions (map spiffe_path ids ++ map spiffe_path gated_ids)).
Definition main (docs gated : list val) : result Z :=
  p <- problems (List.filter truthy docs) (List.filter truthy gated) ;; Ok (if nonempty p then 1%Z else 0%Z).

(** ** The self-test *)
Definition POLICY_FIXTURE : val :=
  VDict [("kind", VStr "ValidatingAdmissionPolicy"); ("metadata", str_dict [("name", "fixture-platform-identity")]);
         ("spec", VDict [("variables", VList [str_dict [("name", "claimsPlatformIdentity");
            ("expression", unquoted "variables.component in [`daemon`,`plugin`] || variables.sa in [`gibson`,`gibson-plugin-acme`]")]])])].
Definition csid_of (name template : string) (rest : list (string * val)) : val :=
  VDict [("kind", VStr "ClusterSPIFFEID"); ("metadata", str_dict [("name", name)]);
         ("spec", VDict (("spiffeIDTemplate", VStr template) :: rest))].
Definition csid (path comp : string) (sa : option string) : val :=
  csid_of (str_replace path "/" "-") ("spiffe://example.test/" +:+ path)
    [("podSelector", VDict [("matchLabels", str_dict [("app.kubernetes.io/component", comp)])]);
     ("workloadSelectorTemplates", strs ("k8s:ns:gibson" :: match sa with Some s => ["k8s:sa:" +:+ s] | None => [] end))].
Definition good : list val :=
  [POLICY_FIXTURE; csid "platform/daemon" "daemon" (Some "gibson"); csid "plugin/acme" "plugin" (Some "gibson-plugin-acme");
   csid "platform/helm-test" "helm-test" (Some "gibson-helm-test")].
Definition cases : list val :=
  [csid "platform/new" "new" (Some "gibson"); csid "plugin/other" "plugin" (Some "gibson-plugin-other");
   csid "platform/daemon2" "daemon" None].
Definition spike : val := csid_of "gibson-gibson-spike-pilot" "spiffe://example.test/spike/pilot/role/superuser" [].
Definition kept : val := csid_of "gibson-gibson-default" "spiffe://example.test/ns/x/sa/y" [].

Definition selftest : result Z :=
  r <- judge good ;;
  if nonempty r.1 || negb (r.2 =? 2) then Ok 1%Z else
  ok <- allM (λ doc, r <- judge [POLICY_FIXTURE; doc] ;; Ok (length r.1 =? 1)) cases ;;
  if negb ok then Ok 1%Z else
  a <- judge (good ++ [spike]) ;; b <- judge (good ++ [kept]) ;;
  if negb (length a.1 =? 1) || nonempty b.1 then Ok 1%Z else
  c <- judge [csid "platform/daemon" "daemon" (Some "gibson")] ;;
  if negb (nonempty c.1) then Ok 1%Z else
  if nonempty (stale_exceptions UNPROTECTED_ON_PURPOSE) then Ok 1%Z else
  if negb (bool_decide (stale_exceptions (List.filter (λ p, negb (str_eqb p "platform/e2e-member")) UNPROTECTED_ON_PURPOSE)
           = ["platform/e2e-member is named as unprotected on purpose, and no render holds it"])) then Ok 1%Z
  else Ok 0%Z.

Lemma identityadmission_selftest : selftest = Ok 0%Z.
Proof. vm_compute. reflexivity. Qed.

(** ** What a clean run of check-identity-admission-covers.py says

    Each identity that the chart registers is protected by every admission
    policy, is exempt by name, or belongs to a subchart with a workload. *)

(** *** The documents *)

Definition spec_of (d : val) : val := por (fld d "spec") (VDict []).
(** The policy document [d] has a variable whose expression holds the lists. *)
Definition protects (d : val) (comps sas : list val) : Prop :=
  fld d "kind" = VStr "ValidatingAdmissionPolicy" ∧
  ∃ vars var e m, get_list (spec_of d) "variables" = Ok vars ∧ var ∈ vars ∧
    get_default var "expression" (VStr "") = Ok e ∧ re_search LISTS (py_str e) = Some m ∧
    json_set (group_text m 1) = Ok comps ∧ json_set (group_text m 2) = Ok sas.
(** The document [d] registers the SPIFFE ID path [p]. *)
Definition registers (d : val) (p : string) : Prop :=
  fld d "kind" = VStr "ClusterSPIFFEID" ∧ path_of (spec_of d) = Ok p.
Definition first_party (p : string) : Prop := ∃ x, x ∈ FIRST_PARTY ∧ startswith p x = true.
(** The label that the pods of the identity have, and a selector template of it *)
Definition component_of (d : val) : val :=
  default (VStr "") (match por (fld (por (fld (spec_of d) "podSelector") (VDict [])) "matchLabels") (VDict []) with
                     | VDict l => alist_get "app.kubernetes.io/component" l | _ => None end).
Definition selects_account (d : val) (sa : string) : Prop :=
  ∃ ts s a, get_list (spec_of d) "workloadSelectorTemplates" = Ok ts ∧ VStr s ∈ ts ∧ split1 "k8s:sa:" s = Some (a, sa).

Lemma get_dict_por v k w : get_dict v k = Ok w → w = por (fld v k) (VDict []).
Proof. unfold get_dict. by intros (x & ->%get_Ok & [= <-])%bind_Ok. Qed.

Lemma has_prefix_true s ps : has_prefix s ps = true ↔ ∃ x, x ∈ ps ∧ startswith s x = true.
Proof. unfold has_prefix. by rewrite existsb_elem_of. Qed.

Lemma is_csid_Ok d b : is_csid d = Ok b → b = true ↔ fld d "kind" = VStr "ClusterSPIFFEID".
Proof. unfold is_csid. intros (k & ->%get_Ok & [= <-])%bind_Ok. apply py_eq_str_r. Qed.

Lemma doc_lists_protects d l :
  doc_lists d = Ok l → ∀ comps sas, protects d comps sas → ∃ p, p ∈ l ∧ components p = comps ∧ accounts p = sas.
Proof.
  unfold doc_lists. intros (k & ->%get_Ok & H)%bind_Ok comps sas (Hk & vars & var & e & m & Hv & Hin & He & Hm & H1 & H2).
  rewrite Hk, py_eq_str_str, str_eqb_refl in H. cbn [negb] in H. apply bind_Ok in H as (spec & ->%get_dict_por & H).
  change (por (fld d "spec") (VDict [])) with (spec_of d) in H. rewrite Hv in H. cbn [rbind] in H.
  destruct (flatM_Ok_elem _ _ _ _ H Hin) as [r Hr]. pose proof Hr as Hr'. unfold variable_lists in Hr.
  rewrite He in Hr. cbn [rbind] in Hr. rewrite Hm in Hr.
  apply bind_Ok in Hr as (meta & _ & Hr). apply bind_Ok in Hr as (n & _ & Hr). rewrite H1, H2 in Hr. cbn [rbind] in Hr.
  injection Hr as <-. exists (Lists n comps sas). split_and!; [|done..].
  apply (flatM_elem _ _ _ H). exists var, [Lists n comps sas]. split_and!; [done|done|by left].
Qed.

Lemma accounts_Ok ts sas :
  flatM selector_account ts = Ok sas → ∀ sa, sa ∈ sas ↔ ∃ s a, VStr s ∈ ts ∧ split1 "k8s:sa:" s = Some (a, sa).
Proof.
  intros H sa. rewrite (flatM_elem _ _ _ H). split.
  - intros (t & r & Hin & Hr & Hsa). unfold selector_account in Hr. apply bind_Ok in Hr as (has & Hh & Hr).
    destruct has; [|injection Hr as <-; by apply elem_of_nil in Hsa]. cbn [negb] in Hr.
    apply bind_Ok in Hr as (s & Hs & Hr). destruct t; try done. injection Hs as ->. injection Hr as <-.
    apply list_elem_of_singleton in Hsa. cbn in Hh. injection Hh as Hh.
    destruct (split1 "k8s:sa:" s) as [[a b]|] eqn:E; [subst; by exists s, a|].
    apply split1_None in E. congruence.
  - intros (s & a & Hin & Hs). destruct (flatM_Ok_elem _ _ _ _ H Hin) as [r Hr]. exists (VStr s), r. split_and!; [done..|].
    unfold selector_account in Hr. cbn in Hr. destruct (contains "k8s:sa:" s) eqn:E.
    + cbn in Hr. injection Hr as <-. rewrite Hs. by left.
    + apply split1_None in E. congruence.
Qed.

Lemma identity_Ok d ids p :
  identity_of d = Ok ids → registers d p →
  ∃ sas, ids = [Identity p (component_of d) sas] ∧ ∀ sa, sa ∈ sas ↔ selects_account d sa.
Proof.
  unfold identity_of. intros (c & Hc & H)%bind_Ok [Hk Hp]. apply is_csid_Ok in Hc. rewrite (proj2 Hc Hk) in H. cbn [negb] in H.
  apply bind_Ok in H as (spec & ->%get_dict_por & H). fold (spec_of d) in H. rewrite Hp in H. cbn [rbind] in H.
  apply bind_Ok in H as (sel & ->%get_dict_por & H). apply bind_Ok in H as (labels & ->%get_dict_por & H).
  apply bind_Ok in H as (comp & Hcomp & H). apply bind_Ok in H as (ts & Hts & H). apply bind_Ok in H as (sas & Hsas & H).
  injection H as <-. exists sas. split.
  - do 2 f_equal. unfold component_of. destruct (por (fld (por _ _) "matchLabels") _); try done. by injection Hcomp as <-.
  - intros sa. rewrite (accounts_Ok _ _ Hsas). unfold selects_account. split.
    + intros (s & a & ? & ?). by exists ts, s, a.
    + intros (ts' & s & a & Hts' & ? & ?). rewrite Hts in Hts'. injection Hts' as <-. by exists s, a.
Qed.

(** *** The judgement *)

Lemma clean_pair i p :
  judge_pair i p = Ok [] →
  existsb (py_eq (component i)) (components p) = true ∧ service_accounts i ≠ [] ∧
  ∀ sa, sa ∈ service_accounts i → VStr sa ∈ accounts p.
Proof.
  unfold judge_pair. intros (inn & Hi & H)%bind_Ok. injection H as H.
  apply app_eq_nil in H as [H1 H]. apply app_eq_nil in H as [H2 H3]. split_and!.
  - unfold in_val_set in Hi. destruct (hashable _); [|done]. injection Hi as <-. by destruct (existsb (py_eq (component i)) (components p)).
  - by destruct (service_accounts i).
  - intros sa Hin. rewrite concat_nil in H2. specialize (H2 _ (list_elem_of_fmap_2 _ _ _ Hin)). cbn beta in H2.
    destruct (existsb (py_eq (VStr sa)) (accounts p)) eqn:E; [|done]. apply existsb_elem_of in E as (v & Hv & E).
    apply py_eq_str in E as ->. done.
Qed.

(** On a clean judgement of a render, the render has an admission policy
    with the two lists and a first-party identity, and the guard counts the
    identities it checks.  Each first-party identity that is not one of the three
    named exceptions has a ServiceAccount selector, and in every such policy its
    component is in the list of components and each of its ServiceAccounts in the
    list of accounts.  Each other identity has the name of a subchart identity
    that has a workload. *)
Theorem clean_identities_are_admitted docs n :
  judge docs = Ok ([], n) →
  (∃ d comps sas, d ∈ docs ∧ protects d comps sas) ∧
  (∀ d p, d ∈ docs → registers d p → first_party p → (p ∉ UNPROTECTED_ON_PURPOSE) →
     (∃ sa, selects_account d sa) ∧
     ∀ d' comps sas, d' ∈ docs → protects d' comps sas →
       existsb (py_eq (component_of d)) comps = true ∧ ∀ sa, selects_account d sa → VStr sa ∈ sas) ∧
  (∀ d p, d ∈ docs → registers d p → ¬ first_party p →
     ∃ name x, fld (fld d "metadata") "name" = VStr name ∧ x ∈ SUBCHART_WITH_WORKLOAD ∧ endswith name x = true).
Proof.
  unfold judge. intros (ps & Hps & H)%bind_Ok. apply bind_Ok in H as (ids & Hids & H).
  destruct (nonempty ps) eqn:En; [|done]. cbn [negb] in H.
  destruct (existsb (λ i, has_prefix (spiffe_path i) FIRST_PARTY) ids) eqn:Ef; [|done]. cbn [negb] in H.
  apply bind_Ok in H as (u & Hu & H). apply bind_Ok in H as (out & Hout & H). injection H as H _.
  apply app_eq_nil in H as [-> ->]. split_and!.
  - destruct ps as [|p ps]; [done|].
    destruct (proj1 (flatM_elem _ _ _ Hps p) (list_elem_of_here _ _)) as (d & l & Hd & Hl & Hp).
    exists d, (components p), (accounts p). split; [done|]. revert Hl Hp. clear. unfold doc_lists, protects.
    intros (k & ->%get_Ok & H)%bind_Ok Hp. destruct (py_eq _ _) eqn:Ek; [|injection H as <-; by apply elem_of_nil in Hp].
    apply py_eq_str_r in Ek. split; [done|]. cbn [negb] in H. apply bind_Ok in H as (spec & ->%get_dict_por & H).
    apply bind_Ok in H as (vars & Hv & H). apply (flatM_elem _ _ _ H) in Hp as (var & r & Hin & Hr & Hp).
    unfold variable_lists in Hr. apply bind_Ok in Hr as (e & He & Hr).
    destruct (re_search LISTS _) as [m|] eqn:Em; [|injection Hr as <-; by apply elem_of_nil in Hp].
    apply bind_Ok in Hr as (meta & _ & Hr). apply bind_Ok in Hr as (nm & _ & Hr).
    apply bind_Ok in Hr as (c & Hc & Hr). apply bind_Ok in Hr as (s & Hs & Hr). injection Hr as <-.
    apply list_elem_of_singleton in Hp as ->. by exists vars, var, e, m.
  - intros d p Hd Hreg Hfp Hno. destruct (flatM_Ok_elem _ _ _ _ Hids Hd) as [is1 His].
    destruct (identity_Ok _ _ _ His Hreg) as (sas & -> & Hsas). set (i := Identity p (component_of d) sas) in *.
    assert (i ∈ List.filter is_checked ids) as Hi.
    { rewrite list_elem_of_In, filter_In, <- list_elem_of_In. split.
      - apply (flatM_elem _ _ _ Hids). exists d, [i]. split_and!; [done|done|by left].
      - unfold is_checked. apply andb_true. split; [by apply has_prefix_true|].
        apply negb_true_iff. by apply str_mem_false. }
    pose proof (proj1 (flatM_nil _ _) (proj1 (flatM_nil _ _) Hout _ Hi)) as Hj. split.
    + destruct ps as [|q ps]; [done|]. destruct (clean_pair i q) as (_ & Hne & _); [apply Hj; by left|].
      cbn in Hne. destruct sas as [|sa sas]; [done|]. exists sa. apply Hsas. by left.
    + intros d' comps sas' Hd' Hpr. destruct (flatM_Ok_elem _ _ _ _ Hps Hd') as [l Hl].
      destruct (doc_lists_protects _ _ Hl _ _ Hpr) as (q & Hq & <- & <-).
      destruct (clean_pair i q) as (Hc & _ & Ha).
      { apply Hj, (flatM_elem _ _ _ Hps). by exists d', l. }
      split; [done|]. intros sa Hsa%Hsas. by apply Ha.
  - intros d p Hd [Hk Hp] Hfp. pose proof (proj1 (flatM_nil _ _) Hu _ Hd) as Hj. unfold unowned_doc in Hj.
    apply bind_Ok in Hj as (c & Hc & Hj). apply is_csid_Ok in Hc. rewrite (proj2 Hc Hk) in Hj. cbn [negb] in Hj.
    apply bind_Ok in Hj as (spec & ->%get_dict_por & Hj). fold (spec_of d) in Hj. rewrite Hp in Hj. cbn [rbind] in Hj.
    apply bind_Ok in Hj as (meta & ->%item_fld & Hj). apply bind_Ok in Hj as (name & ->%item_fld & Hj).
    destruct (has_prefix p FIRST_PARTY) eqn:E; [by apply has_prefix_true in E|].
    apply bind_Ok in Hj as (owned & Ho & Hj). apply bind_Ok in Ho as (nm & Hn & Ho).
    assert (owned = has_suffix nm SUBCHART_WITH_WORKLOAD) as -> by congruence.
    destruct (fld (fld d "metadata") "name") eqn:Ename; try done. injection Hn as ->.
    destruct (has_suffix nm SUBCHART_WITH_WORKLOAD) eqn:Es; [|done]. unfold has_suffix in Es.
    apply existsb_elem_of in Es as (x & Hx & Es). by exists nm, x.
Qed.

Lemma clean_identities_are_admitted_witness :
  judge good = Ok ([], 2%nat) ∧ ∃ sa, selects_account (csid "platform/daemon" "daemon" (Some "gibson")) sa.
Proof.
  assert (judge good = Ok ([], 2%nat)) as Hj by (vm_compute; reflexivity). split; [exact Hj|].
  destruct (clean_identities_are_admitted good 2 Hj) as (_ & H & _).
  apply (H (csid "platform/daemon" "daemon" (Some "gibson")) "platform/daemon").
  - right. left.
  - split; reflexivity.
  - exists "platform/". split; [left|reflexivity].
  - intros Hin. repeat (apply elem_of_cons in Hin as [Hin|Hin]; [discriminate|]). by apply elem_of_nil in Hin.
Defined.
