(* ===== verification/PostgresLogins.v ===== *)
(** * scripts/check-postgres-logins-wave.py: the order of the database logins

    The sync waves of the ExternalSecrets that read a database login, against
    the Postgres cluster, the setup Jobs, the engine gate, and the hook Jobs
    that mount what they write. *)
From S2P Require Import Prelude PyStr PyVal Regex.
From Stdlib Require Import Ascii.

Definition WAVE : string := "argocd.argoproj.io/sync-wave".

(** [(obj.get("metadata") or {}).get("annotations") or {}] *)
Definition annotations (obj : val) : result val := m <- get_dict obj "metadata" ;; get_dict m "annotations".

Definition wave (obj : val) : result Z :=
  ann <- annotations obj ;;
  w <- get_default ann WAVE (VStr "0") ;;
  Ok (default 0%Z (int_of_str (strip_char dquote (py_str w)))).

(** [((job.get("spec") or {}).get("template") or {}).get("spec") or {}] *)
Definition pod_of (job : val) : result val :=
  s <- get_dict job "spec" ;; t <- get_dict s "template" ;; get_dict t "spec".

(** A name that is set is added to the set of names. *)
Definition add_name (n : val) : result (list val) :=
  if truthy n then (if hashable n then Ok [n] else Raise TypeError) else Ok [].
Definition volume_name (v : val) : result (list val) := s <- get_dict v "secret" ;; n <- get s "secretName" ;; add_name n.
Definition env_name (e : val) : result (list val) :=
  f <- get_dict e "valueFrom" ;; r <- get_dict f "secretKeyRef" ;; n <- get r "name" ;; add_name n.
Definition env_from_name (ef : val) : result (list val) := r <- get_dict ef "secretRef" ;; n <- get r "name" ;; add_name n.
Definition container_names (c : val) : result (list val) :=
  env <- get_list c "env" ;; a <- flatM env_name env ;;
  from <- get_list c "envFrom" ;; b <- flatM env_from_name from ;; Ok (a ++ b).
Definition secret_names (job : val) : result (list val) :=
  spec <- pod_of job ;;
  vols <- get_list spec "volumes" ;; a <- flatM volume_name vols ;;
  x <- or_empty spec "containers" ;; y <- or_empty spec "initContainers" ;; cs <- added x y ;;
  b <- flatM container_names cs ;; Ok (a ++ b).

(** ** The objects of the rule *)

Definition login_source (src : val) : result bool :=
  r <- get_dict src "sourceRef" ;; g <- get_dict r "generatorRef" ;;
  n <- get_default g "name" (VStr "") ;; s <- as_str n ;; Ok (startswith s "postgres-login-").
(** An ExternalSecret, once for each login that it reads *)
Definition login_of (d : val) : result (list val) :=
  if negb (py_eq (fld d "kind") (VStr "ExternalSecret")) then Ok [] else
  spec <- get_dict d "spec" ;; srcs <- get_list spec "dataFrom" ;;
  hits <- filterM login_source srcs ;; Ok (map (λ _, d) hits).

Definition metadata_name (d : val) : result val := m <- item d "metadata" ;; item m "name".
Definition is_cluster (d : val) : result bool :=
  if py_eq (fld d "kind") (VStr "Cluster")
  then a <- get_default d "apiVersion" (VStr "") ;;
       Ok (str_eqb (default "" (head (str_split (py_str a) "/"))) "postgresql.cnpg.io")
  else Ok false.
Definition is_setup (d : val) : result bool :=
  if py_eq (fld d "kind") (VStr "Job")
  then n <- metadata_name d ;; s <- as_str n ;; Ok (endswith s "-postgres-setup") else Ok false.
Definition is_gate (d : val) : result bool :=
  if py_eq (fld d "kind") (VStr "Job")
  then n <- metadata_name d ;; Ok (py_eq n (VStr "postgres-logins-gate")) else Ok false.
Definition is_hook (d : val) : result bool :=
  if py_eq (fld d "kind") (VStr "Job")
  then ann <- annotations d ;; str_in "argocd.argoproj.io/hook" ann else Ok false.

Definition engine_item (i : val) : result bool := k <- get i "key" ;; Ok (py_eq k (VStr "pg-engine")).
Definition engine_volume (v : val) : result bool :=
  s <- get_dict v "secret" ;; n <- get s "secretName" ;;
  if py_eq n (VStr "gibson-openbao-pg-logins")
  then s <- get_dict v "secret" ;; l <- get_list s "items" ;; anyM engine_item l
  else Ok false.
Definition judge_gate (g : val) : result (list string) :=
  spec <- pod_of g ;; vols <- get_list spec "volumes" ;;
  mounts <- anyM engine_volume vols ;;
  Ok (if mounts : bool then []
      else ["Job/postgres-logins-gate mounts no pg-engine key of Secret gibson-openbao-pg-logins: it does not wait for the database engine"]).

(** [max(l)] of a list that is not empty *)
Definition max_of (l : list Z) : Z := match l with [] => 0%Z | z :: l => foldl Z.max z l end.

Definition judge_job (name target : val) (w : Z) (j : val) : result (list string) :=
  names <- secret_names j ;;
  hit <- (if hashable target then Ok (existsb (py_eq target) names) else Raise TypeError) ;;
  if negb hit then Ok [] else
  wj <- wave j ;;
  if negb (wj <? w)%Z then Ok [] else
  jn <- metadata_name j ;;
  Ok [cat ["ExternalSecret/"; py_str name; " is at wave "; str_of_int w; ", after Job/"; py_str jn; " (wave "; str_of_int wj;
           ") that mounts "; py_str target; ": the Job waits for a Secret that a later wave makes"]].

Definition judge_login (floor : Z) (jobs : list val) (es : val) : result (list string) :=
  w <- wave es ;;
  name <- metadata_name es ;;
  spec <- get_dict es "spec" ;; t <- get_dict spec "target" ;; target <- get_default t "name" name ;;
  let early := if (w <=? floor)%Z
    then [cat ["ExternalSecret/"; py_str name; " is at wave "; str_of_int w;
               ", not after the Postgres cluster, the setup Jobs and the engine gate (wave "; str_of_int floor;
               "): the engine or the owner role does not exist yet"]]
    else [] in
  late <- flatM (judge_job name target w) jobs ;;
  Ok (early ++ late).

Definition judge_lease (d : val) : result (list string) :=
  if negb (py_eq (fld d "kind") (VStr "VaultDynamicSecret")) then Ok [] else
  spec <- get_dict d "spec" ;; p <- get_default spec "path" (VStr "") ;;
  if negb (startswith (py_str p) "database/creds/") then Ok [] else
  spec <- item d "spec" ;; prov <- get_dict spec "provider" ;; auth <- get_dict prov "auth" ;;
  token <- str_in "tokenSecretRef" auth ;;
  if token : bool then Ok [] else
  n <- metadata_name d ;; p <- item spec "path" ;;
  Ok [cat ["VaultDynamicSecret/"; py_str n; " reads "; py_str p;
           " without tokenSecretRef: the lease dies with the token that External Secrets revokes after the read"]].

Definition judge (docs : list val) : result (list string) :=
  let docs := List.filter is_dict docs in
  logins <- flatM login_of docs ;;
  if negb (nonempty logins) then Ok ["no ExternalSecret reads a postgres-login generator in the render"] else
  before <- filterM (λ d, orR (is_cluster d) (is_setup d)) docs ;;
  if negb (nonempty before) then Ok ["no Postgres Cluster and no postgres-setup Job in the render"] else
  gates <- filterM is_gate docs ;;
  if negb (nonempty gates)
  then Ok ["no Job postgres-logins-gate in the render: the login ExternalSecrets would ask the OpenBao database engine before it issues logins, and a from-zero Argo sync spends its retries there (hosted#627)"] else
  gate_out <- flatM judge_gate gates ;;
  waves <- mapR wave (before ++ gates) ;;
  jobs <- filterM is_hook docs ;;
  out <- flatM (judge_login (max_of waves) jobs) logins ;;
  leases <- flatM judge_lease docs ;;
  Ok (gate_out ++ out ++ leases).

Definition main (goldens : list (list val)) : result Z :=
  bad <- flatM (λ docs, judge (List.filter truthy docs)) goldens ;; Ok (if nonempty bad then 1%Z else 0%Z).

(** ** The self-test, on a golden in the shape of the render *)

Definition at_wave (name w : string) : val :=
  VDict [("name", VStr name); ("annotations", str_dict [(WAVE, w); ("argocd.argoproj.io/hook", "Sync")])].
Definition job (name w : string) (pod : list (string * val)) : val :=
  VDict [("kind", VStr "Job"); ("metadata", at_wave name w);
         ("spec", VDict [("template", VDict [("spec", VDict pod)])])].
Definition login_es (name : string) : val :=
  VDict [("kind", VStr "ExternalSecret"); ("metadata", at_wave name "-5");
         ("spec", VDict [("target", str_dict [("name", name)]);
            ("dataFrom", VList [VDict [("sourceRef", VDict [("generatorRef", str_dict [("name", "postgres-login-zitadel")])])]])])].
Definition golden : list val :=
  [VDict [("kind", VStr "Cluster"); ("apiVersion", VStr "postgresql.cnpg.io/v1"); ("metadata", at_wave "gibson-pg" "-7")];
   job "gibson-postgres-setup" "-6" [];
   job "postgres-logins-gate" "-6" [("volumes", VList [VDict [("name", VStr "mark");
     ("secret", VDict [("secretName", VStr "gibson-openbao-pg-logins"); ("items", VList [str_dict [("key", "pg-engine")]])])]])];
   login_es "zitadel-postgres-credentials";
   job "zitadel-init" "-4" [("containers", VList [VDict [("envFrom",
     VList [VDict [("secretRef", str_dict [("name", "zitadel-postgres-credentials")])]])]])];
   VDict [("kind", VStr "VaultDynamicSecret"); ("metadata", str_dict [("name", "postgres-login-zitadel")]);
          ("spec", VDict [("path", VStr "database/creds/zitadel");
             ("provider", VDict [("auth", VDict [("tokenSecretRef", str_dict [("name", "t")])])])])]].

Definition set_wave (w : string) : val → val := put [K "metadata"; K "annotations"; K WAVE] (VStr w).
Definition all_named (n : string) (f : val → val) (docs : list val) : list val :=
  map (λ d, if named n d then f d else d) docs.
Definition _set_gate_wave (docs : list val) (w : string) : list val :=
  map (λ d, if is_kind "Job" d && named "postgres-logins-gate" d then set_wave w d else d) docs.
Definition _gate_without_mark (docs : list val) : list val :=
  map (λ d, if is_kind "Job" d && named "postgres-logins-gate" d
            then put [K "spec"; K "template"; K "spec"; K "volumes"] (VList []) d else d) docs.

Definition fails_with (docs : list val) (want : string) : result bool :=
  got <- judge docs ;; Ok (nonempty got && existsb (contains want) got).
Definition only_fails_with (docs : list val) (want : string) : result bool :=
  got <- judge docs ;; Ok (nonempty got && forallb (contains want) got).
Definition selftest : result Z :=
  got <- judge golden ;;
  if nonempty got then Ok 2%Z else
  let es w := all_named "zitadel-postgres-credentials" (set_wave w) golden in
  early <- only_fails_with (es "-8") "not after the Postgres cluster" ;;
  late <- only_fails_with (es "0") "waits for a Secret" ;;
  if negb (early && late) then Ok 2%Z else
  got <- judge (edit_first (is_kind "VaultDynamicSecret")
           (put [K "spec"; K "provider"; K "auth"] (VDict [("kubernetes", str_dict [("role", "eso-reader")])])) golden) ;;
  if negb ((length got =? 1) && existsb (contains "tokenSecretRef") got) then Ok 2%Z else
  a <- fails_with (List.filter (λ d, negb (is_kind "Job" d && named "postgres-logins-gate" d)) golden) "no Job postgres-logins-gate" ;;
  b <- fails_with (_set_gate_wave golden "-5") "not after the Postgres cluster" ;;
  c <- fails_with (_gate_without_mark golden) "does not wait for the database engine" ;;
  Ok (if a && b && c then 0%Z else 2%Z).

Lemma postgreslogins_selftest : selftest = Ok 0%Z.
Proof. vm_compute. reflexivity. Qed.

(** ** What a clean run of check-postgres-logins-wave.py says

    Each database login is written after the cluster, the setup Jobs and the
    engine gate, and not after a hook Job that needs it; the gate waits for the
    engine; a leased path is read with a token of its own. *)

(** *** The objects *)

(** The ExternalSecret reads a database login. *)
Definition reads_login (es : val) : Prop :=
  fld es "kind" = VStr "ExternalSecret" ∧
  ∃ spec srcs src, get_dict es "spec" = Ok spec ∧ get_list spec "dataFrom" = Ok srcs ∧ src ∈ srcs ∧ login_source src = Ok true.
(** What the logins need: the cluster, a setup Job, the engine gate *)
Definition is_ground (d : val) : Prop := is_cluster d = Ok true ∨ is_setup d = Ok true ∨ is_gate d = Ok true.
(** The Secret that the ExternalSecret writes *)
Definition target_is (es n : val) : Prop :=
  ∃ name spec t, metadata_name es = Ok name ∧ get_dict es "spec" = Ok spec ∧ get_dict spec "target" = Ok t ∧
    get_default t "name" name = Ok n.
(** The pod of the gate mounts the key that the engine writes last. *)
Definition waits_for_engine (g : val) : Prop :=
  ∃ spec vols v, pod_of g = Ok spec ∧ get_list spec "volumes" = Ok vols ∧ v ∈ vols ∧ engine_volume v = Ok true.
(** The generator reads a leased path; it has a token of its own. *)
Definition leased (d : val) : Prop :=
  fld d "kind" = VStr "VaultDynamicSecret" ∧
  ∃ spec p, get_dict d "spec" = Ok spec ∧ get_default spec "path" (VStr "") = Ok p ∧ startswith (py_str p) "database/creds/" = true.
Definition has_token (d : val) : Prop :=
  ∃ spec prov auth, item d "spec" = Ok spec ∧ get_dict spec "provider" = Ok prov ∧ get_dict prov "auth" = Ok auth ∧
    str_in "tokenSecretRef" auth = Ok true.

Lemma in_dicts d docs : d ∈ List.filter is_dict docs ↔ d ∈ docs ∧ is_dict d = true.
Proof. by rewrite !list_elem_of_In, filter_In. Qed.

Lemma setup_no_cluster d : is_setup d = Ok true → is_cluster d = Ok false.
Proof.
  unfold is_setup, is_cluster. destruct (py_eq (fld d "kind") (VStr "Job")) eqn:E; [|done]. intros _.
  apply py_eq_str_r in E. by rewrite E.
Qed.

Lemma login_of_elem docs logins es :
  flatM login_of docs = Ok logins → es ∈ logins ↔ es ∈ docs ∧ reads_login es.
Proof.
  intros H. rewrite (flatM_elem _ _ _ H). split.
  - intros (d & l & Hd & Hl & Hin). unfold login_of in Hl.
    destruct (py_eq _ _) eqn:E; [|injection Hl as <-; by apply elem_of_nil in Hin]. apply py_eq_str_r in E. cbn [negb] in Hl.
    apply bind_Ok in Hl as (spec & Hs & Hl). apply bind_Ok in Hl as (srcs & Hr & Hl).
    apply bind_Ok in Hl as (hits & Hh & Hl). injection Hl as <-. apply list_elem_of_fmap in Hin as (s & -> & Hin).
    apply (filterM_Ok _ _ _ Hh) in Hin as [? ?]. split; [done|]. split; [done|]. by exists spec, srcs, s.
  - intros (Hd & Hk & spec & srcs & s & Hs & Hr & Hin & Ht). destruct (flatM_Ok_elem _ _ _ _ H Hd) as [l Hl].
    exists es, l. split_and!; [done..|]. unfold login_of in Hl. rewrite Hk, py_eq_str_str, str_eqb_refl in Hl.
    cbn [negb] in Hl. rewrite Hs in Hl. cbn [rbind] in Hl. rewrite Hr in Hl. cbn [rbind] in Hl.
    apply bind_Ok in Hl as (hits & Hh & Hl). injection Hl as <-.
    apply list_elem_of_fmap. exists s. split; [done|]. by apply (filterM_Ok _ _ _ Hh).
Qed.

Lemma foldl_max_ge l z : (z ≤ foldl Z.max z l)%Z ∧ ∀ x, x ∈ l → (x ≤ foldl Z.max z l)%Z.
Proof.
  revert z. induction l as [|y l IH]; intros z; cbn; [split; [lia|by intros x ?%elem_of_nil]|].
  destruct (IH (Z.max z y)) as [Hz Hl]. split; [lia|]. intros x [->|Hx]%elem_of_cons; [lia|by apply Hl].
Qed.
Lemma max_of_ge l x : x ∈ l → (x ≤ max_of l)%Z.
Proof.
  destruct l as [|z l]; [by intros ?%elem_of_nil|]. destruct (foldl_max_ge l z) as [H1 H2].
  intros [->|Hx]%elem_of_cons; [done|by apply H2].
Qed.

(** *** The judgements of one object *)

Lemma clean_gate g : judge_gate g = Ok [] → waits_for_engine g.
Proof.
  unfold judge_gate. intros (spec & Hs & H)%bind_Ok. apply bind_Ok in H as (vols & Hv & H).
  apply bind_Ok in H as (b & Hb & H). destruct b; [|done]. apply anyM_true in Hb as (v & Hin & Hv').
  by exists spec, vols, v.
Qed.

Lemma clean_login fl jobs es :
  judge_login fl jobs es = Ok [] →
  ∃ w, wave es = Ok w ∧ (fl < w)%Z ∧
    ∀ j t names, j ∈ jobs → target_is es t → secret_names j = Ok names → existsb (py_eq t) names = true →
      ∃ wj, wave j = Ok wj ∧ (w ≤ wj)%Z.
Proof.
  unfold judge_login. intros (w & Hw & H)%bind_Ok. apply bind_Ok in H as (name & Hn & H).
  apply bind_Ok in H as (spec & Hs & H). apply bind_Ok in H as (t & Ht & H). apply bind_Ok in H as (target & Htg & H).
  apply bind_Ok in H as (late & Hl & H). injection H as H. apply app_eq_nil in H as [He ->].
  exists w. destruct (w <=? fl)%Z eqn:E; [done|]. apply Z.leb_gt in E. split_and!; [done|done|].
  intros j t' names Hj (name' & spec' & t2 & Hn' & Hs' & Ht' & Hd) Hns Hin.
  assert (name' = name ∧ spec' = spec) as [-> ->] by (split; congruence).
  assert (t2 = t) as -> by congruence. assert (t' = target) as -> by congruence.
  pose proof (proj1 (flatM_nil _ _) Hl _ Hj) as H. unfold judge_job in H. rewrite Hns in H. cbn [rbind] in H.
  destruct (hashable target); [|done]. cbn [rbind] in H. rewrite Hin in H. cbn [negb] in H.
  apply bind_Ok in H as (wj & Hwj & H). exists wj. split; [done|]. destruct (wj <? w)%Z eqn:Elt; [|by apply Z.ltb_ge].
  cbn [negb] in H. by apply bind_Ok in H as (jn & _ & H).
Qed.

Lemma clean_lease d : judge_lease d = Ok [] → leased d → has_token d.
Proof.
  unfold judge_lease, leased, has_token. intros H (Hk & spec & p & Hs & Hp & Hpre).
  rewrite Hk, py_eq_str_str, str_eqb_refl in H. cbn [negb] in H. rewrite Hs in H. cbn [rbind] in H. rewrite Hp in H.
  cbn [rbind] in H. rewrite Hpre in H. cbn [negb] in H. apply bind_Ok in H as (spec' & Hi & H).
  apply bind_Ok in H as (prov & Hpr & H). apply bind_Ok in H as (auth & Ha & H). apply bind_Ok in H as (token & Ht & H).
  exists spec', prov, auth. split_and!; [done..|]. destruct token; [done|].
  apply bind_Ok in H as (n & _ & H). by apply bind_Ok in H as (q & _ & H).
Qed.

(** On a clean render there is a login and an engine gate; each gate mounts
    the mark of the engine; each ExternalSecret that reads a database login is in
    a later wave than the Postgres cluster, each setup Job and each gate, and in
    no later wave than a hook Job whose pod reads the Secret it writes; and each
    generator of a leased path has its own token. *)
Theorem clean_logins_are_in_order docs :
  judge docs = Ok [] →
  let dicts := List.filter is_dict docs in
  (∃ es, es ∈ dicts ∧ reads_login es) ∧
  (∃ g, g ∈ dicts ∧ is_gate g = Ok true) ∧
  (∀ g, g ∈ dicts → is_gate g = Ok true → waits_for_engine g) ∧
  (∀ es, es ∈ dicts → reads_login es →
     ∃ w, wave es = Ok w ∧
       (∀ d, d ∈ dicts → is_ground d → ∃ wd, wave d = Ok wd ∧ (wd < w)%Z) ∧
       (∀ j t names, j ∈ dicts → is_hook j = Ok true → target_is es t → secret_names j = Ok names →
          existsb (py_eq t) names = true → ∃ wj, wave j = Ok wj ∧ (w ≤ wj)%Z)) ∧
  (∀ d, d ∈ dicts → leased d → has_token d).
Proof.
  unfold judge. set (dicts := List.filter is_dict docs). cbn zeta. intros (logins & Hl & H)%bind_Ok.
  destruct (nonempty logins) eqn:En; [|done]. cbn [negb] in H. apply bind_Ok in H as (before & Hb & H).
  destruct (nonempty before); [|done]. cbn [negb] in H. apply bind_Ok in H as (gates & Hg & H).
  destruct (nonempty gates) eqn:Eg; [|done]. cbn [negb] in H. apply bind_Ok in H as (gout & Hgo & H).
  apply bind_Ok in H as (waves & Hw & H). apply bind_Ok in H as (jobs & Hj & H). apply bind_Ok in H as (out & Ho & H).
  apply bind_Ok in H as (leases & Hle & H). injection H as H. apply app_eq_nil in H as [-> H]. apply app_eq_nil in H as [-> ->].
  split_and!.
  - destruct logins as [|es l]; [done|]. exists es. apply (login_of_elem _ _ _ Hl). by left.
  - destruct gates as [|g l]; [done|]. exists g. apply (filterM_Ok _ _ _ Hg). by left.
  - intros g Hin Hgate. apply clean_gate, (proj1 (flatM_nil _ _) Hgo). by apply (filterM_Ok _ _ _ Hg).
  - intros es Hin Hr. destruct (clean_login (max_of waves) jobs es) as (w & Hwe & Hlt & Hjobs).
    { apply (proj1 (flatM_nil _ _) Ho). by apply (login_of_elem _ _ _ Hl). }
    exists w. split_and!; [done| |].
    + intros d Hd Hgr. assert (d ∈ before ++ gates) as Hbg.
      { rewrite elem_of_app, (filterM_Ok _ _ _ Hb), (filterM_Ok _ _ _ Hg).
        destruct Hgr as [E|[E|E]]; [left|left|right]; (split; [done|]); unfold orR; [by rewrite E| |done].
        by rewrite (setup_no_cluster _ E). }
      destruct (mapR_elem_2 _ _ _ _ Hw Hbg) as (wd & Hin' & Hwd). exists wd. split; [done|].
      pose proof (max_of_ge _ _ Hin'). lia.
    + intros j t names Hjd Hh. apply Hjobs. by apply (filterM_Ok _ _ _ Hj).
  - intros d Hd. apply clean_lease. by apply (proj1 (flatM_nil _ _) Hle).
Qed.

Lemma clean_logins_are_in_order_witness :
  judge golden = Ok [] ∧ ∃ w, wave (login_es "zitadel-postgres-credentials") = Ok w ∧ (-6 < w)%Z.
Proof.
  assert (judge golden = Ok []) as Hj by (vm_compute; reflexivity). split; [exact Hj|].
  destruct (clean_logins_are_in_order golden Hj) as (_ & _ & _ & H & _).
  destruct (H (login_es "zitadel-postgres-credentials")) as (w & Hw & Hd & _).
  - apply in_dicts. split; [do 3 right; left|reflexivity].
  - split; [reflexivity|]. eexists _, _, _. split; [reflexivity|]. split; [reflexivity|]. split; [left|reflexivity].
  - exists w. split; [exact Hw|].
    destruct (Hd (job "gibson-postgres-setup" "-6" [])) as (wd & Hwd & Hlt).
    + apply in_dicts. split; [right; left|reflexivity].
    + right. left. reflexivity.
    + vm_compute in Hwd. injection Hwd as <-. exact Hlt.
Defined.
