(* ===== verification/Reloader.v ===== *)
(** * scripts/check-reloader-namespaced.py: what Reloader may read and roll

    The template of Reloader holds no cluster-scoped grant on secrets, and in a
    render the workloads with a reload annotation are the ones that its Role may
    patch. *)
From stdpp Require Import sorting.
From S2P Require Import Prelude PyStr PyVal Regex.
From Stdlib Require Import Ascii.

(** ** The template, with its actions removed *)

Definition any_char : regex := RChr (λ _, true).
Definition GOTMPL : regex := RSeq [RStr "{{"; RLazy any_char; RStr "}}"].

Definition judge_rule (name r : val) : result (list string) :=
  res <- get r "resources" ;;
  hit <- str_in "secrets" (por res (VList [])) ;;
  Ok (if hit : bool then [cat ["ClusterRole/"; py_str name; " grants secrets cluster-wide"]] else []).

(** [(d.get("spec") or {}).get("template", {}).get("spec", {}).get("containers") or []] *)
Definition containers_of (d : val) : result (list val) :=
  s <- get_dict d "spec" ;; t <- get_default s "template" (VDict []) ;; p <- get_default t "spec" (VDict []) ;;
  get_list p "containers".
Definition env_names (c : val) : result (list val) := env <- get_list c "env" ;; mapR (λ e, get e "name") env.

Definition judge_doc (d : val) : result (list string) :=
  kind <- get d "kind" ;;
  meta <- get_dict d "metadata" ;; name <- get meta "name" ;;
  a <- (if py_eq kind (VStr "ClusterRole") then rules <- get_list d "rules" ;; flatM (judge_rule name) rules else Ok []) ;;
  let b := if py_eq kind (VStr "ClusterRoleBinding")
           then [cat ["ClusterRoleBinding/"; py_str name; ": the reloader needs no cluster-scoped binding"]] else [] in
  c <- (if py_eq kind (VStr "Deployment")
        then cs <- containers_of d ;; envs <- flatM env_names cs ;;
             Ok (if existsb (py_eq (VStr "KUBERNETES_NAMESPACE")) envs then []
                 else [cat ["Deployment/"; py_str name;
                            " does not set KUBERNETES_NAMESPACE, so Reloader watches every namespace"]])
        else Ok []) ;;
  Ok (a ++ b ++ c).

Section violations.
Context (safe_load_all : string → result (list val)).
Definition violations (text : string) : result (list string) :=
  docs <- safe_load_all (re_sub GOTMPL (λ _, "") text) ;; flatM judge_doc (List.filter truthy docs).
End violations.

(** ** The rollouts *)

Definition NS : string := "gibson".
Definition KINDS : list (string * string) := [("Deployment", "deployments"); ("StatefulSet", "statefulsets")].
Definition kind_names : list string := KINDS.*1.

(** [k.endswith(...)] of an annotation key *)
Definition reload_key (k : val) : result bool :=
  s <- as_str k ;; Ok (endswith s "reloader.stakater.com/reload" || endswith s "reloader.stakater.com/auto").
Definition keys_of (m : val) : result (list val) := a <- get_dict m "annotations" ;; py_iter a.
Definition annotated (d : val) : result bool :=
  meta <- get_dict d "metadata" ;;
  spec <- get_dict d "spec" ;; t <- get_dict spec "template" ;; tmpl <- get_dict t "metadata" ;;
  a <- keys_of meta ;; b <- keys_of tmpl ;; anyM reload_key (a ++ b).

(** [d.get("kind") in KINDS]: a dict hashes the kind first. *)
Definition in_kinds (kind : val) : result bool := in_set kind kind_names.

(** The workloads, as pairs of the kind and the name *)
Definition wanted (d : val) : result (list (string * val)) :=
  kind <- get d "kind" ;;
  known <- in_kinds kind ;;
  if negb known then Ok [] else
  meta <- item d "metadata" ;; ns <- get meta "namespace" ;;
  if negb (py_eq (por ns (VStr NS)) (VStr NS)) then Ok [] else
  hit <- annotated d ;;
  if negb hit then Ok [] else
  name <- item meta "name" ;;
  if hashable name then Ok [(py_str kind, name)] else Raise TypeError.

Definition may_patch (r : val) : result bool :=
  let has v := vs <- get r "verbs" ;; str_in v (por vs (VList [])) in
  orR (has "patch") (orR (has "update") (has "*")).

(** [res in (r.get("resources") or [])] *)
Definition lists_resource (r : val) (res : string) : result bool := rs <- get r "resources" ;; str_in res (por rs (VList [])).
(** [{(kind, n) for n in names}] *)
Definition named_of (kind : string) (names : val) : result (list (string * val)) :=
  l <- py_iter names ;; l <- set_of l ;; Ok (map (pair kind) l).
(** What one rule lets Reloader patch: the names, or every object of a resource *)
Definition rule_patches (r : val) : result (list (string * val) + string) :=
  ok <- may_patch r ;;
  if negb ok then Ok (inl []) else
  ns <- get r "resourceNames" ;;
  let names := por ns (VList []) in
  foldM (λ acc kr,
    match acc with
    | inr res => Ok (inr res)
    | inl have =>
        let '(kind, res) := kr in
        hit <- lists_resource r res ;;
        if negb hit then Ok (inl have)
        else if negb (truthy names) then Ok (inr res)
        else l <- named_of kind names ;; Ok (inl (have ++ l))
    end) (inl []) KINDS.

Definition is_reloader_role (d : val) : result bool :=
  kind <- get d "kind" ;;
  if negb (py_eq kind (VStr "Role")) then Ok false else
  m <- item d "metadata" ;; n <- item m "name" ;; Ok (py_eq n (VStr "reloader")).

Definition patches_of (acc : list (string * val) + string) (r : val) : result (list (string * val) + string) :=
  match acc with
  | inr res => Ok (inr res)
  | inl have => p <- rule_patches r ;; Ok (match p with inl l => inl (have ++ l) | inr res => inr res end)
  end.
(** The names of all the Roles, or the first resource that a rule does not bound *)
Definition role_patches (acc : list (string * val) + string) (d : val) : result (list (string * val) + string) :=
  match acc with
  | inr res => Ok (inr res)
  | inl _ =>
      ok <- is_reloader_role d ;;
      if negb ok then Ok acc else rules <- get_list d "rules" ;; foldM patches_of acc rules
  end.

Definition pair_eqb (a b : string * val) : bool := str_eqb a.1 b.1 && py_eq a.2 b.2.
Definition pair_in (a : string * val) (l : list (string * val)) : bool := existsb (pair_eqb a) l.
(** [sorted(a - b)]: by kind, then by name *)
Definition names_of_kind (k : string) (l : list (string * val)) : list val := (List.filter (λ x, str_eqb x.1 k) l).*2.
Definition sorted_diff (a b : list (string * val)) : result (list (string * val)) :=
  let l := List.filter (λ x, negb (pair_in x b)) a in
  flatM (λ k, ns <- py_sorted_set (names_of_kind k l) ;; Ok (map (pair k) ns)) kind_names.

Definition rollout_mismatch (docs : list val) : result (list string) :=
  want <- flatM wanted docs ;;
  have <- foldM role_patches (inl []) docs ;;
  match have with
  | inr res => Ok [cat ["the reloader Role may patch every "; res; "; name them (reloader.rollouts)"]]
  | inl have =>
      a <- sorted_diff want have ;; b <- sorted_diff have want ;;
      Ok (map (λ '(k, n), cat [k; "/"; py_str n;
              " carries a reload annotation, and the reloader Role may not patch it (add it to reloader.rollouts)"]) a ++
          map (λ '(k, n), cat ["the reloader Role may patch "; k; "/"; py_str n;
              ", which carries no reload annotation (remove it from reloader.rollouts)"]) b)
  end.

Definition PROFILES : list (list string) := [[]; ["values-eks.yaml"]; ["values-guest.yaml"]].
Section main.
Context (safe_load_all : string → result (list val)) (render : list string → list val).
Definition profile_name (p : list string) : string := match p with [] => "baseline" | f :: _ => f end.
Definition main (target : string) : result Z :=
  v <- violations safe_load_all target ;;
  r <- flatM (λ prof, l <- rollout_mismatch (List.filter is_dict (render prof)) ;;
                      Ok (map (λ x, cat ["("; profile_name prof; ") "; x]) l)) PROFILES ;;
  Ok (if nonempty (v ++ r) then 1%Z else 0%Z).
End main.

(** ** The self-tests *)

(** [BAD] has no action; it loads as these two documents. *)
Definition BAD : list val :=
  [VDict [("apiVersion", VStr "rbac.authorization.k8s.io/v1"); ("kind", VStr "ClusterRole"); ("metadata", str_dict [("name", "reloader")]);
          ("rules", VList [VDict [("apiGroups", strs [""]); ("resources", strs ["secrets"; "configmaps"]);
                                  ("verbs", strs ["list"; "get"; "watch"])]])];
   VDict [("apiVersion", VStr "apps/v1"); ("kind", VStr "Deployment"); ("metadata", str_dict [("name", "reloader")]);
          ("spec", VDict [("template", VDict [("spec", VDict [("containers", VList [VDict [("name", VStr "reloader");
             ("args", strs ["--reload-strategy=annotations"])]])])])])]].

Definition gibson_meta (name : string) (rest : list (string * val)) : val :=
  VDict ([("name", VStr name); ("namespace", VStr "gibson")] ++ rest).
Definition reload (s : string) : list (string * val) :=
  [("annotations", str_dict [("secret.reloader.stakater.com/reload", s)])].
Definition one_container : string * val := ("spec", VDict [("containers", VList [str_dict [("name", "c")]])]).
Definition role_doc (rules : list val) : val :=
  VDict [("apiVersion", VStr "rbac.authorization.k8s.io/v1"); ("kind", VStr "Role"); ("metadata", gibson_meta "reloader" []);
         ("rules", VList rules)].
Definition patch_rule (names : option (list string)) : val :=
  VDict ([("apiGroups", strs ["apps"]); ("resources", strs ["deployments"])] ++
         match names with Some n => [("resourceNames", strs n)] | None => [] end ++ [("verbs", strs ["patch"])]).
Definition ROLLOUT_FIXTURE_BASE : list val :=
  [VDict [("apiVersion", VStr "apps/v1"); ("kind", VStr "Deployment"); ("metadata", gibson_meta "web" (reload "web-tls"));
          ("spec", VDict [("template", VDict [one_container])])];
   role_doc [VDict [("apiGroups", strs ["apps"]); ("resources", strs ["deployments"; "statefulsets"]);
                    ("verbs", strs ["list"; "get"; "watch"])]; patch_rule (Some ["web"])]].
Definition ROLLOUT_FIXTURES_THAT_MUST_FAIL : list (list val) :=
  [[VDict [("apiVersion", VStr "apps/v1"); ("kind", VStr "StatefulSet"); ("metadata", gibson_meta "db" []);
           ("spec", VDict [("template", VDict [("metadata", VDict (reload "db-pw")); one_container])])]];
   [role_doc [patch_rule None]];
   [role_doc [patch_rule (Some ["web"; "operator"])]]].

(** [live]: the verdicts on the renders *)
Definition selftest_rollouts (live : result bool) : result Z :=
  got <- rollout_mismatch ROLLOUT_FIXTURE_BASE ;;
  if nonempty got then Ok 1%Z else
  caught <- allM (λ extra,
    let docs := List.filter (λ d, negb (is_kind "Role" d && existsb (is_kind "Role") extra)) ROLLOUT_FIXTURE_BASE ++ extra in
    l <- rollout_mismatch docs ;; Ok (nonempty l)) ROLLOUT_FIXTURES_THAT_MUST_FAIL ;;
  if negb caught then Ok 1%Z else
  clean <- live ;; Ok (if clean : bool then 0%Z else 1%Z).
(** [target]: the findings in the shipped template *)
Definition selftest (target : result (list string)) (live : result bool) : result Z :=
  v <- violations (λ _, Ok BAD) "" ;;
  if negb (existsb (contains "cluster-wide") v && existsb (contains "KUBERNETES_NAMESPACE") v) then Ok 1%Z else
  t <- target ;;
  if nonempty t then Ok 1%Z else selftest_rollouts live.

Lemma reloader_selftest : selftest (Ok []) (Ok true) = Ok 0%Z.
Proof. vm_compute. reflexivity. Qed.
Example gotmpl_ex : re_sub GOTMPL (λ _, "") "a: {{ .x }}b{{- y }" = "a: b{{- y }".
Proof. reflexivity. Qed.

(** ** What a clean run of check-reloader-namespaced.py says

    Reloader may patch the workloads that ask for it and no other, by name; its
    template grants nothing cluster-wide and sets the namespace it watches. *)

(** *** Folds that stop at the first unbounded resource *)
Section stop.
Context {A : Type} (f : list (string * val) + string → A → result (list (string * val) + string)).
Hypothesis stays : ∀ res x, f (inr res) x = Ok (inr res).

Lemma fold_stays res l : foldM f (inr res) l = Ok (inr res).
Proof using stays. induction l as [|x l IH]; cbn; [done|]. by rewrite stays. Qed.

(** What the fold gives, when each step adds the pairs of [P] *)
Lemma fold_adds (P : A → string * val → Prop) h0 l h :
  (∀ x acc acc', x ∈ l → f (inl acc) x = Ok (inl acc') → ∀ kn, kn ∈ acc' ↔ kn ∈ acc ∨ P x kn) →
  foldM f (inl h0) l = Ok (inl h) →
  (∀ kn, kn ∈ h ↔ kn ∈ h0 ∨ ∃ x, x ∈ l ∧ P x kn) ∧ (∀ x, x ∈ l → ∃ acc acc', f (inl acc) x = Ok (inl acc')).
Proof using stays.
  revert h0. induction l as [|x l IH]; cbn; intros h0 Hstep H; [injection H as <-; split; [set_solver|by intros ? ?%elem_of_nil]|].
  apply bind_Ok in H as (s & Hs & H). destruct s as [h1|res]; [|by rewrite fold_stays in H].
  destruct (IH h1) as [H1 H2]; [intros; eapply Hstep; [by right|done]|done|]. split.
  - intros kn. rewrite H1, (Hstep x h0 h1); [|by left|done]. setoid_rewrite elem_of_cons. naive_solver.
  - intros y [->|Hy]%elem_of_cons; [by exists h0, h1|by apply H2].
Qed.
End stop.

(** *** What Reloader may patch *)

(** A rule lets Reloader patch the object [n] of the kind [k] by its name. *)
Definition rule_grants (r : val) (k : string) (n : val) : Prop :=
  may_patch r = Ok true ∧ ∃ res names l, (k, res) ∈ KINDS ∧ lists_resource r res = Ok true ∧
    get r "resourceNames" = Ok names ∧ truthy names = true ∧ py_iter names = Ok l ∧ n ∈ l.
(** A rule that patches a resource names its objects. *)
Definition bounded (r : val) : Prop :=
  may_patch r = Ok true → ∀ k res, (k, res) ∈ KINDS → lists_resource r res = Ok true → truthy (fld r "resourceNames") = true.

Definition patch_step (r names : val) (acc : list (string * val) + string) (kr : string * string) :
    result (list (string * val) + string) :=
  match acc with
  | inr res => Ok (inr res)
  | inl have =>
      let '(kind, res) := kr in
      hit <- lists_resource r res ;;
      if negb hit then Ok (inl have)
      else if negb (truthy names) then Ok (inr res)
      else l <- named_of kind names ;; Ok (inl (have ++ l))
  end.

Lemma named_of_elem k names l kn : named_of k names = Ok l → kn ∈ l ↔ kn.1 = k ∧ ∃ m, py_iter names = Ok m ∧ kn.2 ∈ m.
Proof.
  unfold named_of. intros (m & Hm & H)%bind_Ok. apply bind_Ok in H as (m' & Hs & H). injection H as <-.
  unfold set_of in Hs. destruct (forallb hashable m); [|done]. injection Hs as <-. rewrite list_elem_of_fmap. split.
  - intros (n & -> & Hn). split; [done|]. by exists m.
  - destruct kn as [k' n]. cbn. intros [-> (m' & Hm' & Hn)]. rewrite Hm in Hm'. injection Hm' as <-. by exists n.
Qed.

Lemma step_adds r names kr acc acc' :
  patch_step r names (inl acc) kr = Ok (inl acc') →
  (∀ kn, kn ∈ acc' ↔ kn ∈ acc ∨ kn.1 = kr.1 ∧ lists_resource r kr.2 = Ok true ∧ truthy names = true ∧
     ∃ l, py_iter names = Ok l ∧ kn.2 ∈ l) ∧
  (lists_resource r kr.2 = Ok true → truthy names = true).
Proof.
  destruct kr as [k res]. cbn. intros (hit & Hh & H)%bind_Ok. rewrite Hh. destruct hit; cbn [negb] in H.
  2: { injection H as <-. split; [naive_solver|done]. }
  destruct (truthy names); cbn [negb] in H; [|done]. split; [|done].
  apply bind_Ok in H as (l & Hl & H). injection H as <-. intros kn. rewrite elem_of_app, (named_of_elem _ _ _ _ Hl).
  naive_solver.
Qed.

Lemma rule_patches_Ok r p :
  rule_patches r = Ok (inl p) → (∀ k n, (k, n) ∈ p ↔ rule_grants r k n) ∧ bounded r.
Proof.
  unfold rule_patches, rule_grants, bounded. intros (ok & Hok & H)%bind_Ok. rewrite Hok. destruct ok; cbn [negb] in H.
  2: { injection H as <-. split; [|done]. intros k n. split; [by intros ?%elem_of_nil|by intros [? _]]. }
  apply bind_Ok in H as (ns & Hns & H).
  change (foldM (patch_step r (por ns (VList []))) (inl []) KINDS = Ok (inl p)) in H.
  assert (∀ n, truthy (por n (VList [])) = truthy n) as Ht by (intros n; unfold por; by destruct (truthy n) eqn:E).
  destruct (fold_adds (patch_step r (por ns (VList []))) (λ _ _, eq_refl)
    (λ kr kn, kn.1 = kr.1 ∧ lists_resource r kr.2 = Ok true ∧ truthy (por ns (VList [])) = true ∧
       ∃ l, py_iter (por ns (VList [])) = Ok l ∧ kn.2 ∈ l) [] KINDS p) as [H1 H2]; [|done|].
  { intros kr acc acc' _ Hs. apply (step_adds _ _ _ _ _ Hs). }
  split.
  - intros k n. rewrite H1, Ht. split.
    + intros [?%elem_of_nil|([k' res] & Hin & Hk & Hl & Htr & l & Hi & Hn)]; [done|]. cbn in *. subst k'. split; [done|].
      exists res, ns, l. split_and!; try done. unfold por in Hi. by rewrite Htr in Hi.
    + intros (_ & res & names & l & Hin & Hl & Hn & Htr & Hi & Hn'). right. exists (k, res).
      rewrite Hns in Hn. injection Hn as <-. split_and!; try done. exists l. split; [|done]. unfold por. by rewrite Htr.
  - intros _ k res Hin Hl. apply get_Ok in Hns as <-. destruct (H2 _ Hin) as (acc & acc' & Hs).
    rewrite <- Ht. by apply (step_adds _ _ _ _ _ Hs).
Qed.

(** *** The Roles of a render *)

Definition reloader_rule (docs : list val) (r : val) : Prop :=
  ∃ d rules, d ∈ docs ∧ is_reloader_role d = Ok true ∧ get_list d "rules" = Ok rules ∧ r ∈ rules.

Lemma patches_adds acc acc' r :
  patches_of (inl acc) r = Ok (inl acc') → (∀ kn, kn ∈ acc' ↔ kn ∈ acc ∨ rule_grants r kn.1 kn.2) ∧ bounded r.
Proof.
  unfold patches_of. intros (p & Hp & H)%bind_Ok. destruct p as [l|]; [|done]. injection H as <-.
  destruct (rule_patches_Ok _ _ Hp) as [H1 H2]. split; [|done]. intros [k n]. by rewrite elem_of_app, H1.
Qed.

Lemma role_adds acc acc' d :
  role_patches (inl acc) d = Ok (inl acc') →
  (∀ kn, kn ∈ acc' ↔ kn ∈ acc ∨ ∃ r, reloader_rule [d] r ∧ rule_grants r kn.1 kn.2) ∧ (∀ r, reloader_rule [d] r → bounded r).
Proof.
  unfold role_patches, reloader_rule. intros (ok & Hok & H)%bind_Ok. destruct ok; cbn [negb] in H.
  2: { injection H as <-. split.
       - intros kn. split; [by left|]. intros [?|(r & (d' & rules & ->%list_elem_of_singleton & Hd & _) & _)]; [done|congruence].
       - intros r (d' & rules & ->%list_elem_of_singleton & Hd & _). congruence. }
  apply bind_Ok in H as (rules & Hr & H).
  destruct (fold_adds patches_of (λ _ _, eq_refl) (λ r kn, rule_grants r kn.1 kn.2) acc rules acc') as [H1 H2]; [|done|].
  { intros r a a' _ Hs. apply (patches_adds _ _ _ Hs). }
  split.
  - intros kn. rewrite H1. f_equiv. split.
    + intros (r & Hin & Hg). exists r. split; [|done]. exists d, rules. split_and!; [by left|done..].
    + intros (r & (d' & rules' & ->%list_elem_of_singleton & _ & Hr' & Hin) & Hg).
      rewrite Hr in Hr'. injection Hr' as <-. by exists r.
  - intros r (d' & rules' & ->%list_elem_of_singleton & _ & Hr' & Hin). rewrite Hr in Hr'. injection Hr' as <-.
    destruct (H2 _ Hin) as (a & a' & Hs). apply (patches_adds _ _ _ Hs).
Qed.

Lemma all_roles docs have :
  foldM role_patches (inl []) docs = Ok (inl have) →
  (∀ k n, (k, n) ∈ have ↔ ∃ r, reloader_rule docs r ∧ rule_grants r k n) ∧ (∀ r, reloader_rule docs r → bounded r).
Proof.
  intros H.
  destruct (fold_adds role_patches (λ _ _, eq_refl) (λ d kn, ∃ r, reloader_rule [d] r ∧ rule_grants r kn.1 kn.2) [] docs have)
    as [H1 H2]; [|done|].
  { intros d a a' _ Hs. apply (role_adds _ _ _ Hs). }
  split.
  - intros k n. rewrite H1. split.
    + intros [?%elem_of_nil|(d & Hd & r & (d' & rules & ->%list_elem_of_singleton & ? & ? & ?) & Hg)]; [done|].
      exists r. split; [|done]. by exists d, rules.
    + intros (r & (d & rules & Hd & ? & ? & ?) & Hg). right. exists d. split; [done|]. exists r. split; [|done].
      exists d, rules. split_and!; [by left|done..].
  - intros r (d & rules & Hd & ? & ? & ?). destruct (H2 _ Hd) as (a & a' & Hs). apply (role_adds _ _ _ Hs).
    exists d, rules. split_and!; [by left|done..].
Qed.

(** *** The annotated workloads *)

(** A workload of the release namespace asks to be rolled. *)
Definition asks (docs : list val) (k : string) (n : val) : Prop :=
  ∃ d ns, d ∈ docs ∧ fld d "kind" = VStr k ∧ k ∈ kind_names ∧ get (fld d "metadata") "namespace" = Ok ns ∧
    py_eq (por ns (VStr NS)) (VStr NS) = true ∧ annotated d = Ok true ∧ n = fld (fld d "metadata") "name".

Lemma wanted_Ok docs want :
  flatM wanted docs = Ok want → ∀ k n, (k, n) ∈ want ↔ asks docs k n.
Proof.
  intros H k n. rewrite (flatM_elem _ _ _ H). unfold asks. split.
  - intros (d & l & Hd & Hl & Hin). unfold wanted in Hl. apply bind_Ok in Hl as (kind & ->%get_Ok & Hl).
    apply bind_Ok in Hl as (known & Hk & Hl). destruct known; [|injection Hl as <-; by apply elem_of_nil in Hin].
    cbn [negb] in Hl. apply bind_Ok in Hl as (meta & ->%item_fld & Hl). apply bind_Ok in Hl as (ns & Hns & Hl).
    destruct (py_eq _ _) eqn:Ens; [|injection Hl as <-; by apply elem_of_nil in Hin]. cbn [negb] in Hl.
    apply bind_Ok in Hl as (hit & Hh & Hl). destruct hit; [|injection Hl as <-; by apply elem_of_nil in Hin]. cbn [negb] in Hl.
    apply bind_Ok in Hl as (name & ->%item_fld & Hl). destruct (hashable _); [|done]. injection Hl as <-.
    apply list_elem_of_singleton in Hin as [= -> ->]. unfold in_kinds, in_set in Hk.
    destruct (hashable (fld d "kind")); [|done]. assert (in_tuple (fld d "kind") kind_names = true) as Ht by congruence.
    exists d, ns. destruct (fld d "kind") as [| | |s| |]; try done. apply str_mem_elem in Ht. done.
  - intros (d & ns & Hd & Hk & Hin & Hns & Hnn & Ha & ->). destruct (flatM_Ok_elem _ _ _ _ H Hd) as [l Hl].
    exists d, l. split_and!; [done..|]. unfold wanted in Hl. apply bind_Ok in Hl as (kind & ->%get_Ok & Hl).
    rewrite Hk in Hl. apply bind_Ok in Hl as (known & Hkn & Hl).
    assert (known = true) as ->.
    { unfold in_kinds, in_set in Hkn. cbn [hashable] in Hkn. apply str_mem_elem in Hin.
      assert (known = str_mem k kind_names) as -> by (by injection Hkn as <-). done. }
    cbn [negb] in Hl. apply bind_Ok in Hl as (meta & ->%item_fld & Hl). rewrite Hns in Hl. cbn [rbind] in Hl.
    rewrite Hnn in Hl. cbn [negb] in Hl. rewrite Ha in Hl. cbn [rbind negb] in Hl.
    apply bind_Ok in Hl as (name & ->%item_fld & Hl). destruct (hashable _); [|done]. injection Hl as <-. by left.
Qed.

Lemma diff_nil a b k n :
  sorted_diff a b = Ok [] → k ∈ kind_names → (k, VStr n) ∈ a → (k, VStr n) ∈ b.
Proof.
  unfold sorted_diff. intros H Hk Hin. pose proof (proj1 (flatM_nil _ _) H _ Hk) as Hs. cbn beta in Hs.
  apply bind_Ok in Hs as (ns & Hns & Hs). injection Hs as Hs. destruct ns; [|done].
  destruct (pair_in (k, VStr n) b) eqn:E.
  - unfold pair_in in E. apply existsb_elem_of in E as ([k' m] & Hb & E). unfold pair_eqb in E.
    apply andb_true in E as [E1%str_eqb_eq E2%py_eq_str]. cbn in E1, E2. by subst.
  - exfalso. assert (VStr n ∈ @nil val) as Hx; [|by apply elem_of_nil in Hx].
    apply (sorted_set_strs _ _ _ Hns). unfold names_of_kind. apply (list_elem_of_fmap_2' snd _ (k, VStr n)); [|done].
    rewrite !list_elem_of_In, !filter_In, <- list_elem_of_In. rewrite E. split_and!; [done|done|apply str_eqb_refl].
Qed.

Lemma grants_kind r k n : rule_grants r k n → k ∈ kind_names.
Proof. intros (_ & res & _ & _ & Hin & _). by apply (list_elem_of_fmap_2 fst) in Hin. Qed.



(** *** The template *)

Section template.
Context (safe_load_all : string → result (list val)).

(** The documents of the template, without its actions, hold no cluster-wide
    grant on secrets and no cluster-scoped binding, and each Deployment sets the
    namespace that Reloader watches. *)
Lemma clean_template_is_namespaced text docs d :
  violations safe_load_all text = Ok [] → safe_load_all (re_sub GOTMPL (λ _, "") text) = Ok docs →
  d ∈ docs → truthy d = true →
  fld d "kind" ≠ VStr "ClusterRoleBinding" ∧
  (fld d "kind" = VStr "ClusterRole" → ∀ rules r, get_list d "rules" = Ok rules → r ∈ rules →
     str_in "secrets" (por (fld r "resources") (VList [])) = Ok false) ∧
  (fld d "kind" = VStr "Deployment" → ∃ cs envs, containers_of d = Ok cs ∧ flatM env_names cs = Ok envs ∧
     VStr "KUBERNETES_NAMESPACE" ∈ envs).
Proof.
  unfold violations. intros H Hl Hd Ht. rewrite Hl in H. cbn [rbind] in H.
  assert (d ∈ List.filter truthy docs) as Hin by (rewrite list_elem_of_In, filter_In, <- list_elem_of_In; done).
  pose proof (proj1 (flatM_nil _ _) H _ Hin) as Hj. unfold judge_doc in Hj.
  apply bind_Ok in Hj as (k & ->%get_Ok & Hj). apply bind_Ok in Hj as (meta & _ & Hj).
  apply bind_Ok in Hj as (name & _ & Hj). apply bind_Ok in Hj as (a & Ha & Hj). apply bind_Ok in Hj as (c & Hc & Hj).
  injection Hj as Hj. apply app_eq_nil in Hj as [-> Hj]. apply app_eq_nil in Hj as [Hb ->]. split_and!.
  - intros E. by rewrite E in Hb.
  - intros E rules r Hr Hrin. rewrite E, py_eq_str_str, str_eqb_refl, Hr in Ha. cbn [rbind] in Ha.
    pose proof (proj1 (flatM_nil _ _) Ha _ Hrin) as Hx. unfold judge_rule in Hx.
    apply bind_Ok in Hx as (res & ->%get_Ok & Hx). apply bind_Ok in Hx as (hit & Hh & Hx). by destruct hit.
  - intros E. rewrite E, py_eq_str_str, str_eqb_refl in Hc. apply bind_Ok in Hc as (cs & Hcs & Hc).
    apply bind_Ok in Hc as (envs & He & Hc). exists cs, envs. split_and!; [done..|].
    destruct (existsb _ envs) eqn:Ex; [|done]. apply existsb_elem_of in Ex as (v & Hv & Ev). by apply py_eq_str in Ev as ->.
Qed.
End template.
