(* ===== verification/OptionalReferences.v ===== *)
(** * scripts/check-optional-references.py: each optional input has a reason

    The optional references and the empty defaults in the text of the templates,
    comments stripped, against the allowlist of cases with their reasons. *)
From stdpp Require Import sorting.
From S2P Require Import Prelude PyStr PyVal Regex.
From Stdlib Require Import Ascii.

Definition any_char : regex := RChr (λ _, true).
Definition TEMPLATE_COMMENT : regex :=
  RSeq [RStr "{{"; ROpt (RStr "-"); RSpaces; RStr "/*"; RLazy any_char; RStr "*/"; RSpaces; ROpt (RStr "-"); RStr "}}"].
Definition blank_char (c : ascii) : bool := Ascii.eqb c " " || Ascii.eqb c "009".
Definition blanks : regex := RStar (RChr blank_char).
Definition YAML_COMMENT : regex := RSeq [RLineBegin; blanks; RStr "#"; RStar RAny; RLineEnd].
Definition OPTIONAL : regex :=
  RSeq [RLineBegin; RGroup 1 blanks; RStr "optional:"; blanks; RStr "true"; RWordB].
Definition EMPTY_DEFAULT : regex :=
  RSeq [RStr "|"; RSpaces; RStr "default"; RPlus (RChr is_space); RStr (unquoted "``")].
Definition ACTION : regex := RSeq [RStr "{{"; RLazy any_char; RStr "}}"].

(** The newlines of a comment stay, so that the lines keep their numbers. *)
Definition newlines (n : nat) : string := cat (replicate n newline).
Definition newline_char : ascii := "010".
Definition strip_comments (text : string) : string :=
  re_sub YAML_COMMENT (λ _, "")
    (re_sub TEMPLATE_COMMENT (λ m, newlines (str_count newline_char (f_text m))) text).

(** [text.count("\n", 0, m.start())] *)
Definition line_index (text : string) (m : found) : nat :=
  str_count newline_char (str_slice 0 (String.length text - String.length (f_after m) - String.length (f_text m)) text).

(** ** The reference block of a line *)

Definition indent_of (line : string) : nat := String.length line - String.length (lstrip_of is_space line).
Definition is_quote (c : ascii) : bool := Ascii.eqb c dquote || Ascii.eqb c squote.
(** The text after the first colon, without white space and quotes around it *)
Definition field_value (text : string) : string :=
  match split1 ":" text with
  | Some (_, v) => lstrip_of is_quote (rstrip_of is_quote (strip v))
  | None => ""
  end.
Definition is_name_field (text : string) : bool := startswith text "name:" || startswith text "secretName:".
(** The name and the key so far: the first one that a line gives stays. *)
Definition read_field (text : string) (nk : string * string) : string * string :=
  let '(name, key) := nk in
  (if str_eqb name "" && is_name_field text then field_value text else name,
   if str_eqb key "" && startswith text "key:" then field_value text else key).
Definition bare (line : string) : string := lstrip_of (in_chars "- ") (strip line).

(** The lines above, from the nearest: the kind is on the first line of a
    smaller indent. *)
Fixpoint look_up (above : list string) (indent : nat) (nk : string * string) : string * string * string :=
  match above with
  | [] => (nk, "")
  | line :: above =>
      if str_eqb (strip line) "" then look_up above indent nk else
      let text := bare line in
      let nk := if indent_of line =? indent then read_field text nk else nk in
      if indent_of line <? indent then (nk, default "" (head (str_splitn 1 ":" text)))
      else look_up above indent nk
  end.
(** The lines below, while they are of the block *)
Fixpoint look_down (below : list string) (indent : nat) (nk : string * string) : string * string :=
  match below with
  | [] => nk
  | line :: below =>
      if negb (str_eqb (strip line) "") && (indent_of line =? indent)
      then look_down below indent (read_field (strip line) nk) else nk
  end.
Definition ref_of (lines : list string) (i indent : nat) : string :=
  let '(nk, kind) := look_up (rev (take i lines)) indent ("", "") in
  let '(name, key) := look_down (drop (S i) lines) indent nk in
  cat [kind; " "; name; if str_eqb key "" then "" else "/" +:+ key].

(** ** The cases *)

(** [out.setdefault(key, where)] *)
Definition setdefault {A} (k : string) (x : A) (d : list (string * A)) : list (string * A) :=
  match alist_get k d with Some _ => d | None => d ++ [(k, x)] end.

Definition place (rel : string) (i : nat) : string := cat [rel; ":"; str_of_int (Z.of_nat (S i))].
Definition optional_cases (rel text : string) : list (string * string) :=
  map (λ m, let i := line_index text m in
            (cat [rel; " optional "; ref_of (str_split text newline) i (String.length (group_text m 1))], place rel i))
    (re_finditer OPTIONAL text).
Definition default_cases (rel text : string) : list (string * string) :=
  map (λ a, (cat [rel; " default "; str_join " " (split_ws (f_text a))], place rel (line_index text a)))
    (List.filter (λ a, bool_decide (is_Some (re_search EMPTY_DEFAULT (f_text a)))) (re_finditer ACTION text)).
Definition file_cases (rel raw : string) : list (string * string) :=
  let text := strip_comments raw in optional_cases rel text ++ default_cases rel text.
(** [files]: the templates with their text, in the order of the walk *)
Definition cases (files : list (string * string)) : list (string * string) :=
  foldl (λ out kx, setdefault kx.1 kx.2 out) [] (concat (map (λ '(rel, raw), file_cases rel raw) files)).

(** ** The allowlist *)

Definition check_case (path : string) (kv : string * val) : result unit :=
  if str_eqb (strip (py_str (por kv.2 (VStr "")))) ""
  then Raise (SystemExit (cat [path; ": case "; repr_str kv.1; " must state its reason"])) else Ok tt.
(** [data] is [None] when there is no file. *)
Definition load (path : string) (data : option val) : result (list (string * val)) :=
  let data := por (default VNone data) (VDict []) in
  entries <- get_dict data "cases" ;;
  l <- items entries ;;
  _ <- mapR (check_case path) l ;; Ok l.

Definition audit {A} (found : list (string * string)) (allowed : list (string * A)) : list string :=
  concat (map (λ '(key, where_), if str_mem key allowed.*1 then []
                                 else [cat [where_; ": no reason recorded for: "; repr_str key]])
            (merge_sort pair_le found)) ++
  concat (map (λ key, if str_mem key found.*1 then []
                      else ["stale entry in scripts/.optional-references.yaml (no template has it): " +:+ repr_str key])
            (sorted_strs allowed.*1)) ++
  (if nonempty found then [] else ["found no case at all: this guard is blind"]).

Definition main (files : list (string * string)) (path : string) (data : option val) : result Z :=
  allowed <- load path data ;; Ok (if nonempty (audit (cases files) allowed) then 1%Z else 0%Z).
(** [--print]: the cases by place *)
Definition where_le (a b : string * string) : Prop := String.le a.2 b.2.
#[global] Instance where_le_dec : RelDecision where_le.
Proof. intros a b. unfold where_le. apply _. Defined.
Definition printed (files : list (string * string)) : list string :=
  map (λ '(k, w), cat [w; String "009" ""; k]) (merge_sort where_le (cases files)).

(** ** The self-test *)
Definition FIXTURE : string := unquoted (cat
  ["{{- /* optional: true in a comment is not a case */ -}}^env:^  - name: A^    valueFrom:^      secretKeyRef:^";
   "        name: some-secret^        key: token^        optional: true^  - name: B^";
   "    value: {{ .Values.b | default `` | quote }}^  # optional: true in a YAML comment is not a case^volumes:^";
   "  - name: v^    secret:^      secretName: other-secret^      optional: true^"]).
Definition fx : string := str_join "/" ["helm"; "c"; "templates"; "a.yaml"].
Definition gone : string := str_join "/" ["helm"; "c"; "templates"; "gone.yaml"].
Definition want : list string :=
  [fx +:+ " optional secretKeyRef some-secret/token"; fx +:+ " optional secret other-secret";
   fx +:+ unquoted " default {{ .Values.b | default `` | quote }}"].

Definition selftest : Z :=
  let found := cases [(fx, FIXTURE)] in
  let full := map (λ k, (k, "fixture")) want in
  if negb (forallb (λ k, str_mem k want) found.*1 && forallb (λ k, str_mem k found.*1) want) then 1%Z else
  if nonempty (audit found full) then 1%Z else
  if negb (length (audit found (alist_del (fx +:+ " optional secret other-secret") full)) =? 1) then 1%Z else
  if negb (existsb (contains "stale") (audit found (full ++ [(gone +:+ " default x", "r")]))) then 1%Z else
  if nonempty (audit [] (@nil (string * string))) then 0%Z else 1%Z.

Lemma optionalreferences_selftest : selftest = 0%Z.
Proof. vm_compute. reflexivity. Qed.

(** ** What a clean run of check-optional-references.py says

    The cases of the templates and the entries of the allowlist are the same
    keys, and each entry states a reason. *)

(** *** The cases of a tree *)

Lemma setdefault_keys {A} k (x : A) d k' : k' ∈ (setdefault k x d).*1 ↔ k' = k ∨ k' ∈ d.*1.
Proof.
  unfold setdefault. destruct (alist_get k d) eqn:E.
  - apply alist_elem in E. apply (list_elem_of_fmap_2 fst) in E. cbn in E. naive_solver.
  - rewrite fmap_app, elem_of_app. cbn. rewrite list_elem_of_singleton. naive_solver.
Qed.

Lemma fold_setdefault_keys {A} (l d : list (string * A)) k :
  k ∈ (foldl (λ out kx, setdefault kx.1 kx.2 out) d l).*1 ↔ k ∈ d.*1 ∨ k ∈ l.*1.
Proof.
  revert d. induction l as [|kx l IH]; intros d; cbn.
  - split; [by left|]. by intros [?|?%elem_of_nil].
  - rewrite IH, setdefault_keys, elem_of_cons. naive_solver.
Qed.

(** The key [k] is that of a case of the template [rel] with the text [raw]: an
    optional reference, or an action with an empty default. *)
Inductive case_of (rel raw : string) : string → Prop :=
  | case_optional m :
      m ∈ re_finditer OPTIONAL (strip_comments raw) →
      case_of rel raw (cat [rel; " optional "; ref_of (str_split (strip_comments raw) newline)
        (line_index (strip_comments raw) m) (String.length (group_text m 1))])
  | case_default a :
      a ∈ re_finditer ACTION (strip_comments raw) → is_Some (re_search EMPTY_DEFAULT (f_text a)) →
      case_of rel raw (cat [rel; " default "; str_join " " (split_ws (f_text a))]).

Lemma file_cases_keys rel raw k : k ∈ (file_cases rel raw).*1 ↔ case_of rel raw k.
Proof.
  unfold file_cases, optional_cases, default_cases. rewrite fmap_app, elem_of_app, !list_elem_of_fmap. split.
  - intros [(kx & -> & (m & -> & Hm)%list_elem_of_fmap)|(kx & -> & (a & -> & Ha)%list_elem_of_fmap)].
    + by constructor.
    + rewrite list_elem_of_In, filter_In, <- list_elem_of_In in Ha. destruct Ha as [Ha Hd].
      apply bool_decide_eq_true in Hd. by constructor.
  - destruct 1 as [m Hm|a Ha Hd]; [left|right]; eexists; (split; [|apply list_elem_of_fmap; eexists; split; [reflexivity|]]).
    + reflexivity.
    + done.
    + reflexivity.
    + rewrite list_elem_of_In, filter_In, <- list_elem_of_In. split; [done|]. by apply bool_decide_eq_true.
Qed.

Lemma cases_keys files k : k ∈ (cases files).*1 ↔ ∃ rel raw, (rel, raw) ∈ files ∧ case_of rel raw k.
Proof.
  unfold cases. rewrite fold_setdefault_keys. split.
  - intros [?%elem_of_nil|(kx & -> & (l & ([rel raw] & -> & Hin)%list_elem_of_fmap & Hk)%elem_of_concat)%list_elem_of_fmap]; [done|].
    exists rel, raw. split; [done|]. apply file_cases_keys. by apply list_elem_of_fmap_2.
  - intros (rel & raw & Hin & (kx & -> & Hk)%file_cases_keys%list_elem_of_fmap). right. apply list_elem_of_fmap.
    exists kx. split; [done|].
    apply elem_of_concat. exists (file_cases rel raw). split; [|done].
    by apply (list_elem_of_fmap_2 (λ '(rel, raw), file_cases rel raw) _ (rel, raw)).
Qed.

(** *** The audit *)
Lemma audit_clean_iff {A} (found : list (string * string)) (allowed : list (string * A)) :
  audit found allowed = [] ↔ found ≠ [] ∧ ∀ k, k ∈ found.*1 ↔ k ∈ allowed.*1.
Proof.
  unfold audit. split.
  - intros [H1 [H2 H3]%app_eq_nil]%app_eq_nil. rewrite concat_nil in H1, H2. split; [by destruct found|]. intros k. split.
    + intros ([k' w] & -> & Hin)%list_elem_of_fmap. cbn. destruct (str_mem k' allowed.*1) eqn:E; [by apply str_mem_elem|].
      assert ((k', w) ∈ merge_sort pair_le found) as Hs by (by rewrite merge_sort_Permutation).
      specialize (H1 _ (list_elem_of_fmap_2 _ _ _ Hs)). cbn in H1. by rewrite E in H1.
    + intros Hk. destruct (str_mem k found.*1) eqn:E; [by apply str_mem_elem|].
      assert (k ∈ sorted_strs allowed.*1) as Hs by (by apply sorted_strs_elem).
      specialize (H2 _ (list_elem_of_fmap_2 _ _ _ Hs)). cbn in H2. by rewrite E in H2.
  - intros [Hne H]. apply app_nil. split; [|apply app_nil; split]; [rewrite concat_nil..|by destruct found].
    + intros ? ([k w] & -> & Hin)%list_elem_of_fmap. rewrite merge_sort_Permutation in Hin.
      apply (list_elem_of_fmap_2 fst) in Hin. cbn in Hin. rewrite H in Hin. apply str_mem_elem in Hin. by rewrite Hin.
    + intros ? (k & -> & Hin)%list_elem_of_fmap. rewrite sorted_strs_elem in Hin. rewrite <- H in Hin. apply str_mem_elem in Hin.
      by rewrite Hin.
Qed.

(** *** The loader *)

Definition states_reason (v : val) : Prop := strip (py_str (por v (VStr ""))) ≠ "".
Lemma loaded_reasons path data l : load path data = Ok l → ∀ k v, (k, v) ∈ l → states_reason v.
Proof.
  unfold load. intros (entries & _ & (l' & _ & (u & Hu & [= <-])%bind_Ok)%bind_Ok)%bind_Ok k v Hin.
  destruct (mapR_elem_2 _ _ _ _ Hu Hin) as (x & _ & Hx). unfold check_case in Hx. cbn [fst snd] in Hx.
  destruct (str_eqb _ "") eqn:E; [done|]. unfold states_reason. intros E'. by rewrite E' in E.
Qed.

(** When the allowlist loads and the audit of a tree is clean, the tree has a
    case, each optional reference and each action with an empty default of a
    template has an entry under its key that states a reason, and each entry is
    the key of a case; and an audit of keys with reasons is clean only then. *)
Theorem clean_audit_has_reasons files path data allowed :
  load path data = Ok allowed →
  audit (cases files) allowed = [] ↔
  (∃ rel raw k, (rel, raw) ∈ files ∧ case_of rel raw k) ∧
  (∀ rel raw k, (rel, raw) ∈ files → case_of rel raw k → ∃ v, (k, v) ∈ allowed ∧ states_reason v) ∧
  (∀ k v, (k, v) ∈ allowed → ∃ rel raw, (rel, raw) ∈ files ∧ case_of rel raw k).
Proof.
  intros Hl. rewrite audit_clean_iff. pose proof (loaded_reasons _ _ _ Hl) as Hr. split.
  - intros [Hne H]. split_and!.
    + destruct (cases files) as [|[k w] c] eqn:E; [done|].
      destruct (proj1 (cases_keys files k)) as (rel & raw & ? & ?); [rewrite E; by left|]. by exists rel, raw, k.
    + intros rel raw k Hin Hc. assert (k ∈ allowed.*1) as Hk by (apply H, cases_keys; by exists rel, raw).
      apply list_elem_of_fmap in Hk as ([k' v] & -> & Hv). exists v. split; [done|by eapply Hr].
    + intros k v Hin. apply cases_keys, H. by apply (list_elem_of_fmap_2 fst) in Hin.
  - intros ((rel & raw & k & Hin & Hc) & H1 & H2). split.
    + assert (k ∈ (cases files).*1) as Hk by (apply cases_keys; by exists rel, raw).
      intros E. rewrite E in Hk. by apply elem_of_nil in Hk.
    + intros k'. rewrite cases_keys. split.
      * intros (rel' & raw' & Hin' & Hc'). destruct (H1 _ _ _ Hin' Hc') as (v & Hv & _).
        by apply (list_elem_of_fmap_2 fst) in Hv.
      * intros ([k2 v] & -> & Hv)%list_elem_of_fmap. by eapply H2.
Qed.

Lemma clean_audit_has_reasons_witness :
  let data := VDict [("cases", str_dict (map (λ k, (k, "fixture")) want))] in
  load ".optional-references.yaml" (Some data) = Ok (map (λ k, (k, VStr "fixture")) want) ∧
  ∃ v, (fx +:+ " optional secret other-secret", v) ∈ map (λ k, (k, VStr "fixture")) want ∧ states_reason v.
Proof.
  intros data.
  assert (load ".optional-references.yaml" (Some data) = Ok (map (λ k, (k, VStr "fixture")) want)) as Hl
    by (vm_compute; reflexivity).
  split; [exact Hl|].
  destruct (proj1 (clean_audit_has_reasons [(fx, FIXTURE)] _ _ _ Hl)) as (_ & H & _); [vm_compute; reflexivity|].
  apply (H fx FIXTURE); [by left|]. apply file_cases_keys. vm_compute. right. left.
Defined.
