(* ===== verification/PipeGrepQ.v ===== *)
(** * scripts/check-no-pipe-grep-q.py: no pipe into grep -q under pipefail

    The shell texts of the repository: scripts, with the ones that a pipefail
    script sources, the run steps of the workflows, and the strings of the
    rendered objects. *)
From S2P Require Import Prelude PyStr PyVal Regex.
From Stdlib Require Import Ascii.

Definition letters : regex := RStar (RChr is_alpha).
Definition PIPE_GREP_Q : regex :=
  RSeq [RStr "|"; RSpaces; ROpt (RChr (in_chars "ef")); RStr "grep"; RWordB; RLazy (RChr (not_chars "|;&")); RChr is_space;
        RGroup 1 (ROneOf [RSeq [RStr "-"; letters; RStr "q"; letters]; RStr "--quiet"; RStr "--silent"]); RWordB].
Definition LABEL : string :=
  unquoted "pipes into grep -q under pipefail (use grep -q ... <<<`$x` or [ -n `$(... | grep ...)` ])".
Definition PIPEFAIL : regex := RSeq [RWordB; RStr "pipefail"; RWordB].

(** ** The lines of a text *)

Definition blank (c : ascii) : bool := Ascii.eqb c " " || Ascii.eqb c "009".
(** The loop over the characters: the open quote and the character before *)
Fixpoint strip_from (q prev : option ascii) (s : string) : string :=
  match s with
  | "" => ""
  | String c s =>
      match q with
      | Some d => String c (strip_from (if Ascii.eqb c d then None else q) (Some c) s)
      | None =>
          if Ascii.eqb c squote || Ascii.eqb c dquote then String c (strip_from (Some c) (Some c) s)
          else if Ascii.eqb c "#" && is_none_or blank prev then ""
          else String c (strip_from None (Some c) s)
      end
  end.
Definition strip_comment (line : string) : string := strip_from None None line.

Fixpoint logical_from (n : nat) (start : option nat) (buf : string) (raws : list string) : list (nat * string) :=
  match raws with
  | [] => match start with Some k => if str_eqb buf "" then [] else [(k, buf)] | None => [] end
  | raw :: raws =>
      let first := default n start in
      let s := rstrip_of is_space raw in
      if endswith s "\"
      then logical_from (S n) (Some first)
             (buf +:+ strip_comment (str_slice 0 (String.length s - 1) s) +:+ " ") raws
      else (first, strip_comment (buf +:+ raw)) :: logical_from (S n) None "" raws
  end.
Definition logical_lines (text : string) : list (nat * string) :=
  logical_from 1 None "" (str_split text newline).

Definition searches (r : regex) (s : string) : bool := bool_decide (is_Some (re_search r s)).
Definition sets_pipefail (text : string) : bool := existsb (λ l, searches PIPEFAIL l.2) (logical_lines text).

(** The number of each line that pipes into grep -q; the label is fixed. *)
Definition judge (text : string) (pipefail : bool) : list nat :=
  if negb pipefail && negb (sets_pipefail text) then []
  else (List.filter (λ l, searches PIPE_GREP_Q l.2) (logical_lines text)).*1.

(** ** The scripts *)

(** [first]: the first line of the file, [None] when it cannot be read *)
Definition is_shell (path : string) (first : option string) : bool :=
  endswith path ".sh" ||
  match first with
  | None => false
  | Some l => startswith l "#!" && (contains "bash" l || searches (RSeq [RWordB; RStr "sh"; RWordB]) l)
  end.

Definition name_chars : regex := RPlus (RChr (λ c, is_alpha c || is_digit c || in_chars "_.-" c)).
Definition SOURCE_LINE : regex :=
  RSeq [RLineBegin; RSpaces; RAlt (RStr "source") (RStr "."); RPlus (RChr is_space); RLazy RAny;
        RGroup 1 (RCat name_chars (RStr ".sh")); RWordB].
(** The file names that the lines of a text source *)
Definition sources_of (text : string) : list string :=
  omap (λ l, (λ m, group_text m 1) <$> re_match SOURCE_LINE l.2) (logical_lines text).

Definition add_name (names : list string) (n : string) : list string := if str_mem n names then names else names ++ [n].
Definition text_step (names : list string) (pt : string * string) : list string :=
  if sets_pipefail pt.2 || str_mem (basename pt.1) names then foldl add_name names (sources_of pt.2) else names.
(** One turn of the loop *)
Definition pass (texts : list (string * string)) (names : list string) : list string := foldl text_step names texts.
(** The loop ends at the first turn that adds no name. *)
Fixpoint close_names (n : nat) (texts : list (string * string)) (names : list string) : result (list string) :=
  match n with
  | O => Raise OutOfFuel
  | S n =>
      let names' := pass texts names in
      if length names' =? length names then Ok names' else close_names n texts names'
  end.
Definition all_sources (texts : list (string * string)) : list string := concat (map (λ pt, sources_of pt.2) texts).
Definition sourced_by_pipefail (texts : list (string * string)) : result (list string) :=
  close_names (S (length (all_sources texts))) texts [].

Definition line_text (where_ : string) (ln : nat) : string := cat [where_; str_of_int (Z.of_nat ln); ": "; LABEL].

Definition scan_texts (rel : string → string) (texts : list (string * string)) : result (list string) :=
  sourced <- sourced_by_pipefail texts ;;
  Ok (concat (map (λ p,
        match alist_get p texts with
        | Some t => map (line_text (rel p +:+ ":")) (judge t (str_mem (basename p) sourced))
        | None => []
        end) (sorted_strs texts.*1))).

(** [files]: each file of the walk with its first line and its text *)
Definition shell_texts (files : list (string * option string * string)) : list (string * string) :=
  omap (λ f, let '(p, first, text) := f in if is_shell p first then Some (p, text) else None) files.
Definition scan_scripts (rel : string → string) (files : list (string * option string * string)) : result (list string * nat) :=
  out <- scan_texts rel (shell_texts files) ;; Ok (out, length (shell_texts files)).

(** ** The workflows *)

Fixpoint bash_shell (shells : list val) : result bool :=
  match shells with
  | [] => Ok false
  | s :: shells =>
      if truthy s then t <- as_str s ;;
                       match split_ws (strip t) with w :: _ => Ok (str_eqb w "bash") | [] => Raise IndexError end
      else bash_shell shells
  end.

(** [((x.get("defaults") or {}).get("run") or {}).get("shell")] *)
Definition default_shell (x : val) : result val := d <- get_dict x "defaults" ;; r <- get_dict d "run" ;; get r "shell".

(** The findings of a step, and the one that it counts for *)
Definition scan_step (rel jname : string) (jdef wdef : val) (istep : nat * val) : result (list string * nat) :=
  let '(i, step) := istep in
  run <- get step "run" ;;
  match run with
  | VStr run =>
      shell <- get step "shell" ;;
      pf <- bash_shell [shell; jdef; wdef] ;;
      out <- mapR (λ ln, name <- get step "name" ;;
                         Ok (line_text (cat [rel; ": job "; jname; " step ";
                                             py_str (por name (VInt (Z.of_nat i))); " line "]) ln)) (judge run pf) ;;
      Ok (out, 1%nat)
  | _ => Ok ([], 0%nat)
  end.
Definition total (l : list (list string * nat)) : list string * nat := (concat l.*1, sum_list l.*2).
Definition scan_job (rel : string) (wdef : val) (job : string * val) : result (list string * nat) :=
  let '(jname, j) := job in
  let j := por j (VDict []) in
  jdef <- default_shell j ;;
  steps <- get_list j "steps" ;;
  l <- mapR (scan_step rel jname jdef wdef) (imap pair steps) ;; Ok (total l).
Definition scan_workflow (rel : string) (wf : val) : result (list string * nat) :=
  let wf := por wf (VDict []) in
  wdef <- default_shell wf ;;
  jobs <- get_dict wf "jobs" ;; js <- items jobs ;;
  l <- mapR (scan_job rel wdef) js ;; Ok (total l).
(** [wfs]: the files of the workflows directory in order, parsed *)
Definition is_yaml (name : string) : bool := endswith name ".yml" || endswith name ".yaml".
Definition scan_workflows (wfs : list (string * val)) : result (list string * nat) :=
  l <- mapR (λ '(name, wf), scan_workflow (".github/workflows/" +:+ name) wf) (List.filter (λ f, is_yaml f.1) wfs) ;;
  Ok (total l).

(** ** The rendered strings *)

Definition strings_in (where_ : string) (v : val) : list (string * string) :=
  match v with VList l => omap (λ a, match a with VStr s => Some (where_, s) | _ => None end) l | _ => [] end.
Fixpoint walk (node : val) : list (string * string) :=
  match node with
  | VDict d =>
      let where_ := "container " +:+ py_str (default VNone (alist_get "name" d)) in
      strings_in where_ (default VNone (alist_get "command" d)) ++ strings_in where_ (default VNone (alist_get "args" d)) ++
      concat (map (λ kv, walk kv.2) d)
  | VList l => concat (map walk l)
  | _ => []
  end.
Definition strings_of (doc : val) : result (list (string * string)) :=
  kind <- get doc "kind" ;;
  data <- (if py_eq kind (VStr "ConfigMap")
           then d <- get_dict doc "data" ;; l <- items d ;;
                Ok (omap (λ '(k, v), match v with VStr s => Some ("data " +:+ k, s) | _ => None end) l)
           else Ok []) ;;
  spec <- get_dict doc "spec" ;;
  Ok (data ++ walk spec).

Definition scan_doc (name : string) (doc : val) : result (list string * nat) :=
  if negb (is_dict doc) then Ok ([], 0%nat) else
  ss <- strings_of doc ;;
  out <- flatM (λ ws, mapR (λ ln,
           kind <- get doc "kind" ;; m <- get_dict doc "metadata" ;; n <- get m "name" ;;
           Ok (line_text (cat ["helm/testdata/golden/"; name; ": "; py_str kind; "/"; py_str n; " "; ws.1; " line "]) ln))
           (judge ws.2 false)) ss ;;
  Ok (out, length ss).
Definition scan_golden (goldens : list (string * list val)) : result (list string * nat) :=
  l <- mapR (λ '(name, docs), l <- mapR (scan_doc name) docs ;; Ok (total l))
         (List.filter (λ g, endswith g.1 ".yaml") goldens) ;;
  Ok (total l).

(** ** The run *)
Record tree := Tree {
  script_files : list (string * option string * string);
  workflow_files : list (string * val);
  golden_files : list (string * list val) }.
Definition main (rel : string → string) (t : tree) : result Z :=
  s <- scan_scripts rel (script_files t) ;;
  w <- scan_workflows (workflow_files t) ;;
  g <- scan_golden (golden_files t) ;;
  if ((s.2 `min` w.2) `min` g.2)%nat =? 0 then Ok 1%Z
  else Ok (if nonempty (s.1 ++ w.1 ++ g.1) then 1%Z else 0%Z).

(** ** The self-test *)
Definition CASES : list (string * bool * bool) :=
  map (λ '(t, pf, want), (unquoted t, pf, want))
  [("set -euo pipefail^if printf `%s` `$log` | grep -q `migration failed`; then exit 1; fi^", false, true);
   ("set -o pipefail^kubectl get nodes -o json | grep -Eq k3s && echo k3s^", false, true);
   ("set -eo pipefail^curl -s x | grep --quiet ok || exit 1^", false, true);
   ("set -euo pipefail^if printf `%s` `$x` \^  | grep -q y; then :; fi^", false, true);
   ("if printf `%s` `$log` | grep -q bad; then exit 1; fi^", true, true);
   ("set -euo pipefail^if grep -q `migration failed` <<<`$log`; then exit 1; fi^", false, false);
   ("set -euo pipefail^[ -n `$(kubectl get x | grep y)` ]^", false, false);
   ("set -eu^if printf `%s` `$x` | grep -q y; then :; fi^", false, false);
   ("set -euo pipefail^# printf ... | grep -q is what this replaced^", false, false);
   ("set -euo pipefail^if printf `%s` `$x` | egrep -q `a|b`; then :; fi^", false, true);
   ("set -euo pipefail^n=`$(printf `%s` `$x` | grep -c y || true)`^", false, false)].
Definition wf_of (run : string) : val :=
  let step name rest := VDict (("name", VStr name) :: rest ++ [("run", VStr run)]) in
  VDict [("jobs", VDict [("j", VDict [("runs-on", VStr "x");
     ("steps", VList [step "a" [("shell", VStr "bash")]; step "b" []])])])].
(** The [texts] of the self-test; the pattern of its second script holds a
    caret, which a dollar sign replaces here. *)
Definition texts : list (string * string) :=
  map (prod_map id unquoted)
  [("/s/main.sh", "#!/usr/bin/env bash^set -euo pipefail^source `${DIR}/lib/probe.sh`^");
   ("/s/lib/probe.sh", "# shellcheck shell=bash^is_ip() { if printf `%s` `$1` | grep -qE `$[0-9.]+$`; then return 0; fi; }^");
   ("/s/other.sh", "#!/usr/bin/env bash^set -eu^. `$(dirname `$0`)/lib/plain.sh`^");
   ("/s/up.sh", "#!/usr/bin/env bash^set -euo pipefail^. `$(dirname `$0`)/lib/hosts.sh`^");
   ("/s/lib/hosts.sh", "h() { kubectl get cm | grep -q x; }^");
   ("/s/lib/plain.sh", "f() { printf x | grep -q x; }^")].

Definition selftest : result Z :=
  let ok := forallb (λ '(text, pf, want), Bool.eqb (nonempty (judge text pf)) want) CASES in
  w <- scan_workflow "w.yml" (wf_of (unquoted "if printf x | grep -q y; then :; fi^")) ;;
  let ok2 := match w with ([g], 2%nat) => contains "step a" g | _ => false end in
  s <- scan_texts id texts ;;
  let ok3 := bool_decide (map (λ g, (str_partition g ":").1.1) s = ["/s/lib/hosts.sh"; "/s/lib/probe.sh"]) in
  Ok (if (ok && ok2 && ok3) then 0%Z else 1%Z).

Lemma pipegrepq_selftest : selftest = Ok 0%Z.
Proof. vm_compute. reflexivity. Qed.

(** ** The names that a pipefail script sources *)

(** The least set of names with this rule: a text that sets pipefail, or whose
    own name is in the set, gives the names that it sources. *)
Inductive sourced (texts : list (string * string)) : string → Prop :=
  | Sourced_text p t n : (p, t) ∈ texts → sets_pipefail t = true → n ∈ sources_of t → sourced texts n
  | Sourced_script p t n : (p, t) ∈ texts → sourced texts (basename p) → n ∈ sources_of t → sourced texts n.

Lemma add_name_prefix names n : names `prefix_of` add_name names n.
Proof. unfold add_name. destruct (str_mem n names); [done|by apply prefix_app_r]. Qed.
Lemma text_step_prefix names pt : names `prefix_of` text_step names pt.
Proof. unfold text_step. destruct (_ || _); [|done]. apply foldl_prefix, add_name_prefix. Qed.
Lemma pass_prefix texts names : names `prefix_of` pass texts names.
Proof. apply foldl_prefix, text_step_prefix. Qed.

Lemma add_name_elem names n x : x ∈ add_name names n ↔ x ∈ names ∨ x = n.
Proof.
  unfold add_name. destruct (str_mem n names) eqn:E.
  - apply str_mem_elem in E. split; [by left|]. by intros [?| ->].
  - rewrite elem_of_app, list_elem_of_singleton. done.
Qed.
Lemma add_names_elem l names x : x ∈ foldl add_name names l ↔ x ∈ names ∨ x ∈ l.
Proof.
  revert names. induction l as [|n l IH]; intros names; cbn [foldl]; [set_solver|].
  rewrite IH, add_name_elem. set_solver.
Qed.

(** What holds of the names of each turn *)
Record names_ok (texts : list (string * string)) (names : list string) : Prop := {
  names_nodup : NoDup names;
  names_sourced n : n ∈ names → sourced texts n;
  names_sources n : n ∈ names → n ∈ all_sources texts }.

Lemma add_name_ok texts names n :
  names_ok texts names → sourced texts n → n ∈ all_sources texts → names_ok texts (add_name names n).
Proof.
  intros [H1 H2 H3] Hn Ha. split.
  - unfold add_name. destruct (str_mem n names) eqn:E; [done|]. apply NoDup_app. split_and!; [done| |apply NoDup_singleton].
    intros x Hx ->%list_elem_of_singleton. apply str_mem_elem in Hx. congruence.
  - intros x [?| ->]%add_name_elem; auto.
  - intros x [?| ->]%add_name_elem; auto.
Qed.
Lemma text_step_ok texts names pt :
  pt ∈ texts → names_ok texts names → names_ok texts (text_step names pt).
Proof.
  intros Hin Hok. unfold text_step. destruct (_ || _) eqn:E; [|done].
  apply (foldl_inv (names_ok texts)); [done|]. intros s n Hn Hs. destruct pt as [p t]. cbn in *.
  apply add_name_ok; [done| |].
  - apply orb_true_iff in E as [E|E]; [by apply (Sourced_text _ p t)|]. apply (Sourced_script _ p t); [done| |done].
    apply (names_sourced _ _ Hok). by apply str_mem_elem.
  - apply elem_of_concat. exists (sources_of t). split; [|done]. by apply list_elem_of_fmap_2' with (p, t).
Qed.
Lemma pass_ok texts names : names_ok texts names → names_ok texts (pass texts names).
Proof. intros H. apply (foldl_inv (names_ok texts)); [done|]. intros s pt. apply text_step_ok. Qed.

(** A turn that adds no name has followed every text. *)
Lemma pass_closed texts names p t n :
  pass texts names = names → (p, t) ∈ texts → sets_pipefail t = true ∨ basename p ∈ names → n ∈ sources_of t → n ∈ names.
Proof.
  intros Hp Hin Hact Hn. apply list_elem_of_split in Hin as (l1 & l2 & ->).
  unfold pass in Hp. rewrite foldl_app in Hp. cbn [foldl] in Hp.
  set (a := foldl text_step names l1) in *.
  assert (names `prefix_of` a) as H1 by apply foldl_prefix, text_step_prefix.
  assert (text_step a (p, t) `prefix_of` names) as H2 by (rewrite <- Hp; apply foldl_prefix, text_step_prefix).
  assert (n ∈ text_step a (p, t)) as H.
  { unfold text_step. cbn [fst snd]. replace (_ || _) with true; [apply add_names_elem; by right|].
    symmetry. apply orb_true_iff. destruct Hact as [Ha|Ha]; [by left|right]. apply str_mem_elem. by eapply elem_of_prefix. }
  by eapply elem_of_prefix.
Qed.

Lemma close_names_ok texts n names :
  names_ok texts names → (length (all_sources texts) < n + length names)%nat →
  ∃ names', close_names n texts names = Ok names' ∧ names_ok texts names' ∧ pass texts names' = names'.
Proof.
  revert names. induction n as [|n IH]; intros names Hok Hn; cbn [close_names].
  - pose proof (submseteq_length _ _ (NoDup_submseteq _ (all_sources texts) (names_nodup _ _ Hok) (names_sources _ _ Hok))). lia.
  - destruct (pass_prefix texts names) as [k Hk]. destruct (length (pass texts names) =? length names) eqn:E.
    + apply Nat.eqb_eq in E. rewrite Hk, length_app in E. destruct k; [|cbn in E; lia].
      rewrite app_nil_r in Hk. rewrite Hk. by exists names.
    + apply Nat.eqb_neq in E. rewrite Hk, length_app in E. destruct k as [|y k]; [cbn in E; lia|].
      apply IH; [by apply pass_ok|]. rewrite Hk, length_app. cbn [length]. lia.
Qed.

Lemma sourced_by_pipefail_ok texts :
  ∃ names, sourced_by_pipefail texts = Ok names ∧ NoDup names ∧ ∀ n, n ∈ names ↔ sourced texts n.
Proof.
  destruct (close_names_ok texts (S (length (all_sources texts))) []) as (names & H & Hok & Hp); [|cbn; lia|].
  { split; [apply NoDup_nil_2|set_solver|set_solver]. }
  exists names. split; [done|]. split; [apply Hok|]. intros n. split; [apply Hok|].
  induction 1 as [p t n Hin Hs Hn|p t n Hin _ IH Hn]; (eapply pass_closed; [exact Hp|exact Hin| |exact Hn]); auto.
Qed.

(** C19: [sourced_by_pipefail] of check-no-pipe-grep-q.py ends on each set of
    scripts, and the names that it gives are exactly the least set that the
    rule of [sourced] closes: a script whose code sets pipefail, or that such
    a script sources through any number of scripts, gives each file name that
    its lines source.  Each name is given once. *)
Theorem sourced_names_are_the_closure texts :
  ∃ names, sourced_by_pipefail texts = Ok names ∧ NoDup names ∧ ∀ n, n ∈ names ↔ sourced texts n.
Proof. apply sourced_by_pipefail_ok. Qed.

(** ** What a line with a finding holds *)

Definition word_head (s : string) : bool := is_some_and is_word (head_char s).
Definition quiet_flag (flag : string) : Prop :=
  flag = "--quiet" ∨ flag = "--silent" ∨
  ∃ a b, flag = "-" +:+ a +:+ "q" +:+ b ∧ str_forallb is_alpha a = true ∧ str_forallb is_alpha b = true.
(** A line that pipes into grep, egrep or fgrep with a quiet flag, where the
    text before the flag ends no command *)
Definition pipes_quietly (c : string) : Prop :=
  ∃ before sp pre mid ws flag after,
    c = before +:+ "|" +:+ sp +:+ pre +:+ "grep" +:+ mid +:+ String ws (flag +:+ after) ∧
    str_forallb is_space sp = true ∧ pre ∈ ["e"; "f"; ""] ∧ str_forallb (not_chars "|;&") mid = true ∧
    word_head mid = false ∧ is_space ws = true ∧ quiet_flag flag ∧ word_head after = false.

Lemma space_no_word c : is_space c = true → is_word c = false.
Proof. destruct c as [[] [] [] [] [] [] [] []]; vm_compute; congruence. Qed.
Lemma alpha_word c : is_alpha c = true → is_word c = true.
Proof. destruct c as [[] [] [] [] [] [] [] []]; vm_compute; congruence. Qed.

(** Letters after a letter leave a letter before the position. *)
Lemma step_letters t c s :
  is_word c = true → str_forallb is_alpha t = true →
  ∃ d, is_word d = true ∧ step letters (Some c, t +:+ s) (Some d, s).
Proof.
  revert c. induction t as [|e t IH]; intros c Hc; [exists c; split; [done|constructor]|].
  cbn. intros [He Ht]%andb_true_iff. destruct (IH e (alpha_word _ He) Ht) as (d & Hd & H). exists d. split; [done|].
  change (String e t +:+ s) with (String e (t +:+ s)).
  eapply step_star_cons; [by apply step_chr| |exact H]. cbn [snd String.length]. lia.
Qed.

Ltac literal := repeat (eapply step_cat; [apply step_chr; reflexivity|]).

Lemma step_flag p flag after : quiet_flag flag → word_head after = false →
  ∃ q, step (RCat (RGroup 1 (ROneOf [RSeq [RStr "-"; letters; RStr "q"; letters]; RStr "--quiet"; RStr "--silent"])) RWordB)
         (p, flag +:+ after) q.
Proof.
  intros Hf Ha. assert (∀ d, is_word d = true → step RWordB (Some d, after) (Some d, after)) as Hend.
  { intros d Hd. constructor. unfold word_head in Ha. cbn. by rewrite Hd, Ha. }
  destruct Hf as [->|[->|(a & b & -> & H1 & H2)]].
  - eexists. eapply step_cat; [apply step_group, step_alt_r, step_alt_l; literal; constructor|by apply Hend].
  - eexists. eapply step_cat; [apply step_group, step_alt_r, step_alt_r; literal; constructor|by apply Hend].
  - destruct (step_star is_alpha a (Some "-"%char) ("q" +:+ b +:+ after) H1) as [p1 S1].
    destruct (step_letters b "q" after eq_refl H2) as (d & Hd & S2).
    replace (("-" +:+ a +:+ "q" +:+ b) +:+ after) with ("-" +:+ a +:+ "q" +:+ b +:+ after) by by rewrite !append_assoc.
    eexists. eapply step_cat; [apply step_group, step_alt_l; cbn [RSeq RStr]|by apply Hend].
    eapply step_cat; [eapply step_cat; [by apply step_chr|constructor]|].
    eapply step_cat; [exact S1|].
    eapply step_cat; [eapply step_cat; [by apply step_chr|constructor]|exact S2].
Qed.

Lemma pipes_quietly_found c : pipes_quietly c → searches PIPE_GREP_Q c = true.
Proof.
  intros (before & sp & pre & mid & ws & flag & after & -> & Hsp & Hpre & Hmid & Hw & Hws & Hf & Ha).
  apply bool_decide_eq_true. unfold re_search, is_Some. apply search_from_iff.
  set (tail := String ws (flag +:+ after)).
  destruct (app_suffix_of before None ("|" +:+ sp +:+ pre +:+ "grep" +:+ mid +:+ tail)) as [p0 H0].
  destruct (step_star is_space sp (Some "|"%char) (pre +:+ "grep" +:+ mid +:+ tail) Hsp) as [p1 H1].
  assert (∃ p2, step (ROpt (RChr (in_chars "ef"))) (p1, pre +:+ "grep" +:+ mid +:+ tail) (p2, "grep" +:+ mid +:+ tail)) as [p2 H2].
  { unfold ROpt. repeat (apply elem_of_cons in Hpre as [->|Hpre]); [..|by apply elem_of_nil in Hpre];
      [eexists; apply step_alt_l; by apply step_chr..|eexists; apply step_alt_r; constructor]. }
  destruct (step_lazy (not_chars "|;&") mid (Some "p"%char) tail Hmid) as [p3 H3].
  destruct (step_flag (Some ws) flag after Hf Ha) as [q H4].
  exists (p0, "|" +:+ sp +:+ pre +:+ "grep" +:+ mid +:+ tail), q. split; [exact H0|].
  unfold PIPE_GREP_Q. cbn [RSeq].
  eapply step_cat; [eapply step_cat; [by apply step_chr|constructor]|].
  eapply step_cat; [exact H1|]. eapply step_cat; [exact H2|].
  eapply step_cat; [cbn [RStr]; literal; constructor|].
  eapply step_cat; [constructor|].
  { clear -Hw Hws. cbn [assertion]. subst tail. destruct mid as [|c mid]; unfold word_head in Hw; simpl in *;
      [by rewrite (space_no_word _ Hws)|by rewrite Hw]. }
  eapply step_cat; [exact H3|]. eapply step_cat; [by apply step_chr|exact H4].
Qed.

(** ** The findings of a clean run *)

(** No line of the text, with its continued lines joined and its comments
    gone, pipes into a quiet grep. *)
Definition no_quiet_pipe (text : string) : Prop :=
  ∀ n c, (n, c) ∈ logical_lines text → ¬ pipes_quietly c.

Lemma judge_nil text pf : judge text pf = [] → pf = true ∨ sets_pipefail text = true → no_quiet_pipe text.
Proof.
  unfold judge. intros H Hact n c Hin Hc. replace (negb pf && negb (sets_pipefail text)) with false in H.
  2:{ destruct Hact as [-> | ->]; [done|by rewrite andb_false_r]. }
  apply fmap_nil_inv in H. assert ((n, c) ∈ List.filter (λ l, searches PIPE_GREP_Q l.2) (logical_lines text)) as Hf.
  { apply list_elem_of_In, filter_In. split; [by apply list_elem_of_In|by apply pipes_quietly_found]. }
  rewrite H in Hf. by apply elem_of_nil in Hf.
Qed.

(** A loop of scans that gives no finding has none in any turn. *)
Lemma mapR_total {A} (f : A → result (list string * nat)) l r n x :
  mapR f l = Ok r → Ok (total r) = Ok ([], n) → x ∈ l → ∃ n, f x = Ok ([], n).
Proof.
  intros H Ht Hx. assert (concat r.*1 = []) as Hr by (unfold total in Ht; congruence). destruct (mapR_elem_2 _ _ _ _ H Hx) as ([out n0] & Hin & Hf).
  exists n0. rewrite Hf. by rewrite (concat_fst_nil _ _ _ Hr Hin).
Qed.

(** A step of a workflow that runs a text, and whether its shell is bash: the
    one of the step, else of the job, else of the workflow *)
Inductive runs_step (wf : val) (run : string) (pf : bool) : Prop :=
  | Runs_step wdef jobs js jname j jdef steps step shell :
      default_shell (por wf (VDict [])) = Ok wdef →
      get_dict (por wf (VDict [])) "jobs" = Ok jobs → items jobs = Ok js → (jname, j) ∈ js →
      default_shell (por j (VDict [])) = Ok jdef → get_list (por j (VDict [])) "steps" = Ok steps → step ∈ steps →
      get step "run" = Ok (VStr run) → get step "shell" = Ok shell → bash_shell [shell; jdef; wdef] = Ok pf →
      runs_step wf run pf.

Lemma scan_workflow_nil rel wf n run pf :
  scan_workflow rel wf = Ok ([], n) → runs_step wf run pf → judge run pf = [].
Proof.
  intros H [wdef jobs js jname j jdef steps step shell Hw Hj Hi Hin Hd Hs Hst Hrun Hsh Hpf].
  unfold scan_workflow in H. rewrite Hw in H. cbn [rbind] in H. rewrite Hj in H. cbn [rbind] in H.
  rewrite Hi in H. cbn [rbind] in H. apply bind_Ok in H as (r & Hr & H).
  destruct (mapR_total _ _ _ _ (jname, j) Hr H Hin) as [n1 H1].
  cbn [scan_job] in H1. rewrite Hd in H1. cbn [rbind] in H1. rewrite Hs in H1. cbn [rbind] in H1.
  apply bind_Ok in H1 as (r1 & Hr1 & H1).
  apply list_elem_of_lookup in Hst as [i Hst].
  destruct (mapR_total _ _ _ _ (i, step) Hr1 H1) as [n2 H2].
  { apply list_elem_of_lookup. exists i. by rewrite list_lookup_imap, Hst. }
  cbn [scan_step] in H2. rewrite Hrun in H2. cbn [rbind] in H2. rewrite Hsh in H2. cbn [rbind] in H2.
  rewrite Hpf in H2. cbn [rbind] in H2. apply bind_Ok in H2 as (out & Hout & H2).
  destruct (judge run pf) as [|ln l]; [done|]. cbn [mapR] in Hout.
  apply bind_Ok in Hout as (y & _ & Hout). apply bind_Ok in Hout as (ys & _ & Hout). congruence.
Qed.

Lemma scan_doc_nil name doc n ss w text :
  scan_doc name doc = Ok ([], n) → is_dict doc = true → strings_of doc = Ok ss → (w, text) ∈ ss → judge text false = [].
Proof.
  unfold scan_doc. intros H Hd Hss Hin. rewrite Hd in H. cbn [negb] in H. rewrite Hss in H. cbn [rbind] in H.
  apply bind_Ok in H as (out & Hout & H). injection H as -> _.
  pose proof (proj1 (flatM_nil _ _) Hout _ Hin) as H. cbn [snd] in H.
  destruct (judge text false) as [|ln l]; [done|]. cbn [mapR] in H.
  apply bind_Ok in H as (y & _ & H). apply bind_Ok in H as (ys & _ & H). congruence.
Qed.

Lemma scan_texts_nil rel texts p text :
  scan_texts rel texts = Ok [] → alist_get p texts = Some text →
  sets_pipefail text = true ∨ sourced texts (basename p) → no_quiet_pipe text.
Proof.
  intros H Hp Hact. apply bind_Ok in H as (names & Hn & H). injection H as H.
  destruct (sourced_by_pipefail_ok texts) as (names' & Hc & _ & Hiff). rewrite Hc in Hn. injection Hn as ->.
  apply (judge_nil _ (str_mem (basename p) names)).
  - apply (proj1 (concat_nil _)) with (l := map (line_text (rel p +:+ ":")) (judge text (str_mem (basename p) names))) in H;
      [by apply fmap_nil_inv in H|].
    apply list_elem_of_fmap. exists p. rewrite Hp. split; [done|].
    rewrite sorted_strs_elem. apply alist_elem in Hp. by apply (list_elem_of_fmap_2 fst _ (p, text)).
  - destruct Hact as [?|Hs]; [by right|left]. apply str_mem_elem. by apply Hiff.
Qed.

(** C5: when [main] of check-no-pipe-grep-q.py exits 0, no shell text that
    runs with pipefail pipes into grep -q, --quiet or --silent: not a script
    whose code sets pipefail or that such a script sources, through any number
    of scripts; not a run step of a workflow whose shell is bash or whose text
    sets pipefail; and not a command, argument or config value of a render
    whose text sets it.  The lines are those of the text with its continued
    lines joined and its comments gone. *)
Theorem clean_main_pipes_nowhere rel t :
  main rel t = Ok 0%Z →
  (∀ p text, alist_get p (shell_texts (script_files t)) = Some text →
     sets_pipefail text = true ∨ sourced (shell_texts (script_files t)) (basename p) → no_quiet_pipe text) ∧
  (∀ name wf run pf, (name, wf) ∈ workflow_files t → is_yaml name = true → runs_step wf run pf →
     pf = true ∨ sets_pipefail run = true → no_quiet_pipe run) ∧
  (∀ name docs doc ss w text, (name, docs) ∈ golden_files t → endswith name ".yaml" = true → doc ∈ docs →
     is_dict doc = true → strings_of doc = Ok ss → (w, text) ∈ ss → sets_pipefail text = true → no_quiet_pipe text).
Proof.
  unfold main. intros H. apply bind_Ok in H as ([s ns] & Hs & H). apply bind_Ok in H as ([w nw] & Hw & H).
  apply bind_Ok in H as ([g ng] & Hg & H). cbn [fst snd] in H.
  destruct (_ =? 0); [done|]. destruct (nonempty _) eqn:E; [done|].
  assert (s = [] ∧ w = [] ∧ g = []) as (-> & -> & ->) by (destruct s, w, g; done). clear H E.
  split_and!.
  - intros p text Hp Hact. apply bind_Ok in Hs as (out & Ho & Hs). injection Hs as -> _. by eapply scan_texts_nil.
  - intros name wf run pf Hin Hy Hr Hact. apply bind_Ok in Hw as (l & Hl & Hw).
    destruct (mapR_total _ _ _ _ (name, wf) Hl Hw) as [n H].
    { apply list_elem_of_In, filter_In. split; [by apply list_elem_of_In|done]. }
    by eapply judge_nil; [eapply scan_workflow_nil|].
  - intros name docs doc ss w text Hin Hy Hd Hdict Hss Hw' Hp. apply bind_Ok in Hg as (l & Hl & Hg).
    destruct (mapR_total _ _ _ _ (name, docs) Hl Hg) as [n H].
    { apply list_elem_of_In, filter_In. split; [by apply list_elem_of_In|done]. }
    apply bind_Ok in H as (r & Hr & H). destruct (mapR_total _ _ _ _ doc Hr H Hd) as [n' H'].
    eapply judge_nil; [by eapply scan_doc_nil|by right].
Qed.

Definition good_tree : tree :=
  Tree [("/r/scripts/main.sh", None, unquoted "set -euo pipefail^grep -q x <<<`$y`^")]
       [("w.yml", wf_of (unquoted "grep -q x <<<`$y`^"))]
       [("g.yaml", [VDict [("kind", VStr "ConfigMap"); ("data", str_dict [("run.sh", "set -o pipefail")])]])].
Lemma clean_main_pipes_nowhere_witness :
  main id good_tree = Ok 0%Z ∧ ¬ pipes_quietly (unquoted "grep -q x <<<`$y`") ∧
  (∀ run pf, runs_step (wf_of (unquoted "grep -q x <<<`$y`^")) run pf → pf = true → no_quiet_pipe run).
Proof.
  assert (main id good_tree = Ok 0%Z) as H by (vm_compute; reflexivity). split; [exact H|].
  destruct (clean_main_pipes_nowhere id good_tree H) as (H1 & H2 & _). split.
  - apply (H1 "/r/scripts/main.sh" (unquoted "set -euo pipefail^grep -q x <<<`$y`^") eq_refl (or_introl eq_refl) 2%nat).
    vm_compute. right; left.
  - intros run pf Hr Hpf. apply (H2 "w.yml" _ run pf (list_elem_of_here _ _) eq_refl Hr). by left.
Defined.
