(* ===== verification/AlertSeries.v ===== *)
(** * scripts/check-alert-series-scraped.py: each series an alert reads is scraped

    The series of the alert expressions, the pods that serve them, and the
    scrape objects that read a pod on a port.  What a clean judgement says is at
    the end. *)
From S2P Require Import Prelude PyStr PyVal Regex.
From Stdlib Require Import Ascii.

Definition RELEASE_NS : string := "gibson".
Definition LABEL : string := "gibson.zeroroot.ai/metrics-port".
Definition COMPONENT : string := "app.kubernetes.io/component".
Definition POD_KINDS : list string := ["Deployment"; "StatefulSet"; "DaemonSet"].
Definition PRODUCERS : list (string * string) :=
  [("dashboard_", "dashboard"); ("extauthz_", "ext-authz"); ("gibson_tenant_operator_", "tenant-operator");
   ("gibson_connector_", "connector-operator"); ("gibson_audit_", "daemon"); ("envoy_", "envoy")].
Definition EXTERNAL : list (string * string) :=
  [("kube_", "kube-state-metrics of the cluster monitoring stack, outside the release (ADR-0087)")].
Definition PROMQL_WORDS : list string := split_ws (str_join " "
  ["by without on ignoring group_left group_right and or unless bool offset";
   "sum min max avg count stddev stdvar topk bottomk quantile count_values group";
   "rate irate increase delta idelta deriv predict_linear resets changes";
   "abs ceil floor round exp ln log2 log10 sqrt clamp clamp_min clamp_max sgn";
   "histogram_quantile histogram_count histogram_sum vector scalar time timestamp";
   "absent absent_over_time label_replace label_join sort sort_desc";
   "avg_over_time min_over_time max_over_time sum_over_time count_over_time";
   "quantile_over_time stddev_over_time last_over_time present_over_time";
   "day_of_month day_of_week hour minute month year days_in_month";
   "atan2 sin cos tan asin acos atan sinh cosh tanh asinh acosh atanh deg rad pi";
   "inf nan"]).

(** ** The series of an expression *)

Definition quote : string := String dquote "".
Definition NAMED : regex :=
  RSeq [RStr "__name__"; RSpaces; RStr "="; RSpaces; RStr quote; RGroup 1 (RPlus (RChr (not_chars quote))); RStr quote].
Definition QUOTED : regex :=
  RSeq [RStr quote; RStar (RAlt (RCat (RStr "\") RAny) (RChr (not_chars (quote +:+ "\")))); RStr quote].
Definition BRACES : regex := RSeq [RStr "{"; RStar (RChr (not_chars "}")); RStr "}"].
Definition BRACKETS : regex := RSeq [RStr "["; RStar (RChr (not_chars "]")); RStr "]"].
Definition GROUPING : regex :=
  RSeq [RWordB; RGroup 1 (ROneOf (map RStr ["by"; "without"; "on"; "ignoring"; "group_left"; "group_right"]));
        RSpaces; RStr "("; RStar (RChr (not_chars ")")); RStr ")"].
Definition name_start (c : ascii) : bool := is_alpha c || in_chars "_:" c.
Definition name_char (c : ascii) : bool := name_start c || is_digit c.
Definition NAME : regex :=
  RSeq [RNotBehind (λ c, is_word c || in_chars "." c); RGroup 1 (RCat (RChr name_start) (RStar (RChr name_char)));
        RSpaces; ROpt (RGroup 2 (RStr "("))].

Definition drop_all (r : regex) (s : string) : string := re_sub r (λ _, "") s.
(** The expression with its strings, matchers, ranges and groupings removed *)
Definition bare (expr : string) : string :=
  drop_all GROUPING (drop_all BRACKETS (drop_all BRACES (drop_all QUOTED expr))).
Definition is_series (m : found) : bool :=
  negb (bool_decide (is_Some (group m 2)) || str_mem (lower (group_text m 1)) PROMQL_WORDS).
(** [series], as the list of the set *)
Definition series (expr : val) : list string :=
  let s := py_str expr in
  map (λ m, group_text m 1) (List.filter is_series (re_finditer NAME (bare s))) ++
  map (λ m, group_text m 1) (re_finditer NAMED s).

(** ** Pods and their scrape objects *)

Definition ns_of (d : val) : result val := meta_namespace d RELEASE_NS.
(** [all(labels.get(k) == v for k, v in l)] *)
Definition labels_match (labels : val) (l : list (string * val)) : result bool :=
  allM (λ kv, x <- get labels kv.1 ;; Ok (py_eq x kv.2)) l.
Definition selects (sel labels : val) : result bool :=
  ml <- get_dict (por sel (VDict [])) "matchLabels" ;;
  if negb (truthy ml) then Ok false else l <- items ml ;; labels_match labels l.

Record pod := Pod { pod_name : val; pod_ns : val; pod_labels : val; pod_containers : val }.
Definition pods (docs : list val) : result (list pod) :=
  flatM (λ d,
    kind <- get d "kind" ;; known <- in_set kind POD_KINDS ;;
    if negb known then Ok [] else
    spec <- item d "spec" ;; t <- get_dict spec "template" ;;
    name <- meta_name d ;; ns <- ns_of d ;;
    tm <- get_dict t "metadata" ;; labels <- get_dict tm "labels" ;;
    ts <- get_dict t "spec" ;; cs <- get ts "containers" ;;
    Ok [Pod name ns labels (por cs (VList []))]) docs.

(** The match of one port of a container against a name or number *)
Definition port_is (ref p : val) : result bool :=
  n <- get p "name" ;; c <- get p "containerPort" ;;
  Ok (py_eq ref n || py_eq ref c || str_eqb (py_str ref) (py_str c)).
Definition port_number (containers ref : val) : result (option Z) :=
  cs <- py_iter containers ;;
  firstM (λ c, ps <- get_list c "ports" ;;
    firstM (λ p, hit <- port_is ref p ;;
      if negb hit then Ok None else c <- item p "containerPort" ;; n <- py_int c ;; Ok (Some n)) ps) cs.
Definition found_port (containers ref : val) : result (list Z) :=
  n <- port_number containers ref ;;
  Ok (match n with Some z => if (z =? 0)%Z then [] else [z] | None => [] end).

(** The monitor [m] looks for targets in the namespace [ns]. *)
Definition looks_in (ns m : val) : result bool :=
  spec <- get_dict m "spec" ;; nsel <- get_dict spec "namespaceSelector" ;;
  orR (get_truthy nsel "any")
      (names <- get nsel "matchNames" ;;
       if truthy names then val_in ns names else own <- ns_of m ;; Ok (py_eq ns own)).
Definition pod_monitor_ports (labels containers m : val) : result (list Z) :=
  kind <- get m "kind" ;;
  if negb (py_eq kind (VStr "PodMonitor")) then Ok [] else
  spec <- get_dict m "spec" ;; sel <- get spec "selector" ;; hit <- selects sel labels ;;
  if negb hit then Ok [] else
  spec <- item m "spec" ;; eps <- get_list spec "podMetricsEndpoints" ;;
  flatM (λ ep, a <- get ep "port" ;;
               ref <- (if truthy a then Ok a else get ep "targetPort") ;; found_port containers ref) eps.
(** The Service [s] sends to the pod. *)
Definition serves (ns labels s : val) : result bool :=
  kind <- get s "kind" ;;
  if negb (py_eq kind (VStr "Service")) then Ok false else
  sns <- ns_of s ;;
  if negb (py_eq sns ns) then Ok false else
  spec <- get_dict s "spec" ;; ssel <- get_dict spec "selector" ;;
  if negb (truthy ssel) then Ok false else l <- items ssel ;; labels_match labels l.
Definition service_ports (s : val) : result (list (val * val)) :=
  spec <- get_dict s "spec" ;; ps <- get_list spec "ports" ;;
  flatM (λ p, n <- get p "name" ;; vdict_item n p) ps.
Definition endpoint_ports (containers : val) (sports : list (val * val)) (ep : val) : result (list Z) :=
  k <- get ep "port" ;;
  if negb (hashable k) then Raise TypeError else
  match vdict_get k sports with
  | None | Some VNone => Ok []
  | Some sp => p <- get sp "port" ;; ref <- get_default sp "targetPort" p ;; found_port containers ref
  end.
Definition service_monitor_ports (ns labels containers m s : val) : result (list Z) :=
  ok <- serves ns labels s ;;
  if negb ok then Ok [] else
  spec <- get_dict m "spec" ;; sel <- get spec "selector" ;;
  smeta <- get_dict s "metadata" ;; slabels <- get_dict smeta "labels" ;;
  hit <- selects sel slabels ;;
  if negb hit then Ok [] else
  sports <- service_ports s ;;
  spec <- item m "spec" ;; eps <- get_list spec "endpoints" ;;
  flatM (endpoint_ports containers sports) eps.
Definition monitor_ports (docs : list val) (ns labels containers m : val) : result (list Z) :=
  ok <- looks_in ns m ;;
  if negb ok then Ok [] else
  a <- pod_monitor_ports labels containers m ;;
  kind <- get m "kind" ;;
  b <- (if py_eq kind (VStr "ServiceMonitor")
        then flatM (service_monitor_ports ns labels containers m) docs else Ok []) ;;
  Ok (a ++ b).
Definition scraped_ports (docs : list val) (ns labels containers : val) : result (list Z) :=
  flatM (monitor_ports docs ns labels containers) docs.

(** ** The judgement *)

(** What the rules give: a recorded name, or a series with the rule that reads it *)
Definition entry : Type := val + string * val.
Definition rule_entries (r : val) : result (list entry) :=
  rec <- get r "record" ;;
  a <- (if truthy rec then if hashable rec then Ok [inl rec] else Raise TypeError else Ok []) ;;
  e <- get_default r "expr" (VStr "") ;;
  b <- mapR (λ s, al <- get r "alert" ;; let by_ := por al rec in
                  if hashable by_ then Ok (inr (s, by_)) else Raise TypeError) (series e) ;;
  Ok (a ++ b).
Definition doc_entries (d : val) : result (list entry) :=
  kind <- get d "kind" ;;
  if negb (py_eq kind (VStr "PrometheusRule")) then Ok [] else
  spec <- get_dict d "spec" ;; gs <- get_list spec "groups" ;;
  flatM (λ g, rs <- get_list g "rules" ;; flatM rule_entries rs) gs.
Definition recorded (l : list entry) : list val := omap (λ e, match e with inl v => Some v | _ => None end) l.
Definition wanted (l : list entry) : list (string * val) := omap (λ e, match e with inr w => Some w | _ => None end) l.
(** [wanted[name]] *)
Definition readers (name : string) (l : list (string * val)) : list val :=
  (List.filter (λ w, str_eqb w.1 name) l).*2.
Definition joined (l : list val) : result string :=
  s <- mapR (λ v, match v with VStr s => Ok s | _ => Raise TypeError end) l ;; Ok (str_join ", " s).

Definition external (name : string) : bool := existsb (λ p, startswith name p.1) EXTERNAL.
Definition producer (name : string) : option string := snd <$> find (λ p, startswith name p.1) PRODUCERS.

(** The pod is scraped on the port that its label opens. *)
Definition open_scrape (docs : list val) (p : pod) : result (list bool) :=
  ns <- scraped_ports docs (pod_ns p) (pod_labels p) (pod_containers p) ;;
  mapR (λ n, l <- get (pod_labels p) LABEL ;; Ok (str_eqb (py_str l) (str_of_int n))) ns.
Definition judge_series (docs : list val) (all_pods : list pod) (want : list (string * val)) (name : string) :
    result (list string) :=
  vs <- py_sorted_set (readers name want) ;; rules <- joined vs ;;
  if external name then Ok [] else
  match producer name with
  | None => Ok [cat [name; " ("; rules; "): no producer is known. Name its pod in PRODUCERS, or delete the rule"]]
  | Some comp =>
      targets <- filterM (λ p, c <- get (pod_labels p) COMPONENT ;; Ok (py_eq c (VStr comp))) all_pods ;;
      match targets with
      | [] => Ok [cat [name; " ("; rules; "): no pod with "; COMPONENT; "="; comp; " in the render"]]
      | _ =>
          oks <- flatM (open_scrape docs) targets ;;
          Ok (if existsb id oks then [] else
              [cat [name; " ("; rules; "): no scrape object reads the "; comp; " pod on the port that its ";
                    LABEL; " label opens to the scraper"]])
      end
  end.
Definition judge (docs : list val) : result (list string) :=
  let docs := List.filter is_dict docs in
  es <- flatM doc_entries docs ;;
  ps <- pods docs ;;
  flatM (judge_series docs ps (wanted es))
        (List.filter (λ s, negb (existsb (py_eq (VStr s)) (recorded es))) (sorted_set (wanted es).*1)).

(** [goldens]: the name and the documents of each golden render, in order *)
Definition has_rules (docs : list val) : result bool :=
  anyM (λ d, k <- get d "kind" ;; Ok (py_eq k (VStr "PrometheusRule"))) docs.
Definition audit (goldens : list (string * list val)) : result (list string * nat) :=
  l <- mapR (λ '(f, docs),
         let docs := List.filter is_dict docs in
         has <- has_rules docs ;;
         if negb has then Ok ([], 0%nat) else
         bad <- judge docs ;; Ok (map (λ x, cat [basename f; ": "; x]) bad, 1%nat)) goldens ;;
  let bad := concat l.*1 in let seen := sum_list l.*2 in
  Ok (bad ++ (if seen =? 0 then ["no golden render holds a PrometheusRule: this check is blind"] else []), seen).
Definition main (goldens : list (string * list val)) : result Z :=
  r <- audit goldens ;; Ok (if nonempty r.1 then 1%Z else 0%Z).

(** ** The self-test *)

Definition rules_of (l : list (list (string * string))) : val :=
  VDict [("kind", VStr "PrometheusRule"); ("spec", VDict [("groups", VList [VDict [("rules", VList (map str_dict l))]])])].
Definition rule (expr : string) : val := rules_of [[("alert", "A"); ("expr", expr)]].
Definition a_pod (comp : string) (label : bool) : val :=
  VDict [("kind", VStr "Deployment"); ("metadata", str_dict [("name", comp)]);
    ("spec", VDict [("template", VDict
      [("metadata", VDict [("labels", str_dict ([(COMPONENT, comp); ("app", comp)] ++ if label then [(LABEL, "9464")] else []))]);
       ("spec", VDict [("containers", VList [VDict [("name", VStr "c");
          ("ports", VList [VDict [("name", VStr "metrics"); ("containerPort", VInt 9464)]])]])])])])].
Definition svc (comp : string) : val :=
  VDict [("kind", VStr "Service"); ("metadata", VDict [("name", VStr comp); ("labels", str_dict [("app", comp)])]);
    ("spec", VDict [("selector", str_dict [("app", comp)]);
       ("ports", VList [VDict [("name", VStr "metrics"); ("port", VInt 1); ("targetPort", VStr "metrics")]])])].
Definition sm (comp port : string) : val :=
  VDict [("kind", VStr "ServiceMonitor"); ("metadata", str_dict [("name", comp)]);
    ("spec", VDict [("selector", VDict [("matchLabels", str_dict [("app", comp)])]);
                    ("endpoints", VList [str_dict [("port", port)]])])].
Definition in_other (m : val) : val := dict_with m "metadata" (str_dict [("name", "d"); ("namespace", "other")]).
Definition expr : string :=
  unquoted "sum(rate(dashboard_signin_total{result=`error`}[5m])) by (result) / on() group_left vector(1) > 0.1".
Definition good : list val :=
  [rule expr; a_pod "dashboard" true; svc "dashboard"; sm "dashboard" "metrics";
   rule "kube_statefulset_status_replicas_ready < 1";
   rules_of [[("record", "slo:x"); ("expr", "rate(dashboard_signin_total[5m])")]; [("alert", "B"); ("expr", "slo:x > 1")]]].
Definition any_ns : list val :=
  [rule expr; a_pod "dashboard" true; svc "dashboard";
   edit [K "spec"] (λ s, dict_with s "namespaceSelector" (VDict [("any", VBool true)])) (in_other (sm "dashboard" "metrics"))].
Definition failing : list (list val) :=
  [[rule expr; a_pod "dashboard" true];
   [rule expr; a_pod "dashboard" true; svc "dashboard"; sm "dashboard" "health"];
   [rule expr; a_pod "dashboard" false; svc "dashboard"; sm "dashboard" "metrics"];
   [rule "gibson_sandbox_health < 1"];
   [rule "extauthz_x_total > 0"];
   [rule expr; a_pod "dashboard" true; svc "dashboard"; in_other (sm "dashboard" "metrics")];
   [rule (unquoted "rate({__name__=`gibson_sandbox_health`}[5m]) > 0")]].
Definition selftest : result Z :=
  if negb (bool_decide (sorted_set (series (VStr expr)) = ["dashboard_signin_total"])) then Ok 1%Z else
  a <- judge good ;; if nonempty a then Ok 1%Z else
  b <- judge any_ns ;; if nonempty b then Ok 1%Z else
  bad <- anyM (λ docs, l <- judge docs ;; Ok (negb (length l =? 1))) failing ;;
  Ok (if bad : bool then 1%Z else 0%Z).

Lemma alertseries_selftest : selftest = Ok 0%Z.
Proof. vm_compute. reflexivity. Qed.

(** ** What a clean judgement says *)

Definition dict_docs (docs : list val) : list val := List.filter is_dict docs.
(** A rule of the render *)
Definition rule_of (docs : list val) (r : val) : Prop :=
  ∃ d g gs rs, d ∈ dict_docs docs ∧ fld d "kind" = VStr "PrometheusRule" ∧
    get_list (dict_fld d "spec") "groups" = Ok gs ∧ g ∈ gs ∧ get_list g "rules" = Ok rs ∧ r ∈ rs.
(** A pod of the render, with the fields that the guard reads *)
Definition pod_of (docs : list val) (p : pod) : Prop :=
  ∃ d k, d ∈ dict_docs docs ∧ fld d "kind" = VStr k ∧ k ∈ POD_KINDS ∧
    pod_ns p = por (fld (dict_fld d "metadata") "namespace") (VStr RELEASE_NS) ∧
    pod_labels p = dict_fld (dict_fld (dict_fld (fld d "spec") "template") "metadata") "labels" ∧
    pod_containers p = por (fld (dict_fld (dict_fld (fld d "spec") "template") "spec") "containers") (VList []).

(** The labels hold each pair of a selector that is not empty. *)
Definition picks (sel labels : val) : Prop :=
  ∃ l, sel = VDict l ∧ l ≠ [] ∧ ∀ k v, (k, v) ∈ l → py_eq (fld labels k) v = true.
Definition port_at (containers ref : val) (n : Z) : Prop := port_number containers ref = Ok (Some n) ∧ n ≠ 0%Z.
(** A scrape object of the render reads the pod on the port [n]: a PodMonitor
    that selects it, or a ServiceMonitor that selects a Service that sends to
    it and that has the port of the endpoint. *)
Inductive scraped (docs : list val) (p : pod) (n : Z) : Prop :=
  | By_pod_monitor m ep eps :
      m ∈ dict_docs docs → looks_in (pod_ns p) m = Ok true → fld m "kind" = VStr "PodMonitor" →
      picks (dict_fld (por (fld (dict_fld m "spec") "selector") (VDict [])) "matchLabels") (pod_labels p) →
      get_list (fld m "spec") "podMetricsEndpoints" = Ok eps → ep ∈ eps →
      port_at (pod_containers p) (por (fld ep "port") (fld ep "targetPort")) n → scraped docs p n
  | By_service_monitor m s ep eps sports sp :
      m ∈ dict_docs docs → looks_in (pod_ns p) m = Ok true → fld m "kind" = VStr "ServiceMonitor" →
      s ∈ dict_docs docs → fld s "kind" = VStr "Service" →
      py_eq (por (fld (dict_fld s "metadata") "namespace") (VStr RELEASE_NS)) (pod_ns p) = true →
      picks (dict_fld (dict_fld s "spec") "selector") (pod_labels p) →
      picks (dict_fld (por (fld (dict_fld m "spec") "selector") (VDict [])) "matchLabels")
            (dict_fld (dict_fld s "metadata") "labels") →
      service_ports s = Ok sports → get_list (fld m "spec") "endpoints" = Ok eps → ep ∈ eps →
      vdict_get (fld ep "port") sports = Some sp →
      (∃ ref, get_default sp "targetPort" (fld sp "port") = Ok ref ∧ port_at (pod_containers p) ref n) →
      scraped docs p n.

Lemma labels_match_picks labels l : labels_match labels l = Ok true → l ≠ [] → picks (VDict l) labels.
Proof.
  intros H Hl. exists l. split_and!; [done|done|]. intros k v Hin.
  pose proof (proj1 (allM_true _ _) H _ Hin) as Hx. apply bind_Ok in Hx as (x & ->%get_Ok & Hx). cbn in Hx. congruence.
Qed.
Lemma truthy_items v l : truthy v = true → items v = Ok l → v = VDict l ∧ l ≠ [].
Proof. destruct v; cbn; try done. intros H [= ->]. split; [done|]. by intros ->. Qed.
Lemma selects_picks sel labels :
  selects sel labels = Ok true → picks (dict_fld (por sel (VDict [])) "matchLabels") labels.
Proof.
  unfold selects. intros (ml & ->%get_dict_is & H)%bind_Ok. destruct (truthy _) eqn:E; [|done]. cbn [negb] in H.
  apply bind_Ok in H as (l & Hl & H). destruct (truthy_items _ _ E Hl) as [-> Hne]. by apply labels_match_picks.
Qed.
Lemma found_port_at containers ref l n : found_port containers ref = Ok l → n ∈ l → port_at containers ref n.
Proof.
  unfold found_port. intros (o & Ho & H)%bind_Ok Hn. destruct o as [z|]; [|injection H as <-; by apply elem_of_nil in Hn].
  destruct (z =? 0)%Z eqn:E; injection H as <-; [by apply elem_of_nil in Hn|]. apply list_elem_of_singleton in Hn as ->.
  split; [done|]. by apply Z.eqb_neq.
Qed.

Lemma serves_picks ns labels s : serves ns labels s = Ok true →
  fld s "kind" = VStr "Service" ∧ py_eq (por (fld (dict_fld s "metadata") "namespace") (VStr RELEASE_NS)) ns = true ∧
  picks (dict_fld (dict_fld s "spec") "selector") labels.
Proof.
  unfold serves. intros (k & ->%get_Ok & H)%bind_Ok. destruct (py_eq _ (VStr "Service")) eqn:E; [|done].
  apply py_eq_str_r in E. cbn [negb] in H. apply bind_Ok in H as (sns & Hns & H).
  unfold ns_of, meta_namespace in Hns. apply bind_Ok in Hns as (me & ->%get_dict_is & Hns).
  apply bind_Ok in Hns as (n & ->%get_Ok & [= <-]). destruct (py_eq _ ns) eqn:En; [|done]. cbn [negb] in H.
  apply bind_Ok in H as (sp & ->%get_dict_is & H). apply bind_Ok in H as (ss & ->%get_dict_is & H).
  destruct (truthy _) eqn:Et; [|done]. cbn [negb] in H. apply bind_Ok in H as (l & Hl & H).
  destruct (truthy_items _ _ Et Hl) as [-> Hne]. split_and!; [done|done|by apply labels_match_picks].
Qed.

Lemma por_or (a b v w : val) : (if truthy a then Ok a else Ok b) = Ok w → w = por a b.
Proof. unfold por. destruct (truthy a); congruence. Qed.

Lemma pod_monitor_scrapes docs p m l n :
  m ∈ dict_docs docs → looks_in (pod_ns p) m = Ok true →
  pod_monitor_ports (pod_labels p) (pod_containers p) m = Ok l → n ∈ l → scraped docs p n.
Proof.
  intros Hm Hlook H Hn. unfold pod_monitor_ports in H. apply bind_Ok in H as (k & ->%get_Ok & H).
  destruct (py_eq _ _) eqn:E; cbn [negb] in H; [|injection H as <-; by apply elem_of_nil in Hn]. apply py_eq_str_r in E.
  apply bind_Ok in H as (sp & ->%get_dict_is & H). apply bind_Ok in H as (sel & ->%get_Ok & H).
  apply bind_Ok in H as ([] & Hs & H); cbn [negb] in H; [|injection H as <-; by apply elem_of_nil in Hn].
  apply bind_Ok in H as (sp & ->%item_fld & H). apply bind_Ok in H as (eps & Heps & H).
  apply (flatM_elem _ _ _ H) in Hn as (ep & r & Hep & Hr & Hin).
  apply bind_Ok in Hr as (a & ->%get_Ok & Hr). apply bind_Ok in Hr as (ref & Href & Hr).
  assert (ref = por (fld ep "port") (fld ep "targetPort")) as ->.
  { unfold por. destruct (truthy _); [congruence|by apply get_Ok]. }
  eapply (By_pod_monitor _ _ _ m); try done; [by apply selects_picks|]. by eapply found_port_at.
Qed.

Lemma service_monitor_scrapes docs p m s l n :
  m ∈ dict_docs docs → looks_in (pod_ns p) m = Ok true → fld m "kind" = VStr "ServiceMonitor" → s ∈ dict_docs docs →
  service_monitor_ports (pod_ns p) (pod_labels p) (pod_containers p) m s = Ok l → n ∈ l → scraped docs p n.
Proof.
  intros Hm Hlook Hk Hs H Hn. unfold service_monitor_ports in H.
  apply bind_Ok in H as ([] & Hsv & H); cbn [negb] in H; [|injection H as <-; by apply elem_of_nil in Hn].
  apply serves_picks in Hsv as (Hsk & Hns & Hp).
  apply bind_Ok in H as (sp & ->%get_dict_is & H). apply bind_Ok in H as (sel & ->%get_Ok & H).
  apply bind_Ok in H as (sm & ->%get_dict_is & H). apply bind_Ok in H as (sl & ->%get_dict_is & H).
  apply bind_Ok in H as ([] & Hsel & H); cbn [negb] in H; [|injection H as <-; by apply elem_of_nil in Hn].
  apply bind_Ok in H as (sports & Hsp & H). apply bind_Ok in H as (sp & ->%item_fld & H).
  apply bind_Ok in H as (eps & Heps & H). apply (flatM_elem _ _ _ H) in Hn as (ep & r & Hep & Hr & Hin).
  unfold endpoint_ports in Hr. apply bind_Ok in Hr as (k & ->%get_Ok & Hr). destruct (hashable _); [|done]. cbn [negb] in Hr.
  destruct (vdict_get _ _) as [sp|] eqn:E; [|injection Hr as <-; by apply elem_of_nil in Hin].
  assert (∃ ref, get_default sp "targetPort" (fld sp "port") = Ok ref ∧ port_at (pod_containers p) ref n) as Hport.
  { destruct sp; try (injection Hr as <-; by apply elem_of_nil in Hin);
      apply bind_Ok in Hr as (pp & ->%get_Ok & Hr); apply bind_Ok in Hr as (ref & Href & Hr);
      (exists ref; split; [exact Href|by eapply found_port_at]). }
  eapply (By_service_monitor _ _ _ m s ep); try done. by apply selects_picks.
Qed.

Lemma scraped_ports_sound docs p l n :
  scraped_ports (dict_docs docs) (pod_ns p) (pod_labels p) (pod_containers p) = Ok l → n ∈ l → scraped docs p n.
Proof.
  intros H Hn. apply (flatM_elem _ _ _ H) in Hn as (m & r & Hm & Hr & Hin). clear H.
  unfold monitor_ports in Hr. apply bind_Ok in Hr as ([] & Hlook & H); cbn [negb] in H;
    [|injection H as <-; by apply elem_of_nil in Hin].
  apply bind_Ok in H as (a & Ha & H). apply bind_Ok in H as (k & ->%get_Ok & H).
  apply bind_Ok in H as (b & Hb & [= <-]). apply elem_of_app in Hin as [Hin|Hin]; [by eapply pod_monitor_scrapes|].
  destruct (py_eq _ _) eqn:E; [|injection Hb as <-; by apply elem_of_nil in Hin]. apply py_eq_str_r in E.
  apply (flatM_elem _ _ _ Hb) in Hin as (s & r & Hs & Hr & Hin'). by eapply (service_monitor_scrapes _ _ m s).
Qed.

Lemma pods_are docs l p : pods (dict_docs docs) = Ok l → p ∈ l → pod_of docs p.
Proof.
  intros H Hp. apply (flatM_elem _ _ _ H) in Hp as (d & r & Hd & Hr & Hin). clear H.
  apply bind_Ok in Hr as (k & ->%get_Ok & H). apply bind_Ok in H as (b & Hb & H).
  unfold in_set in Hb. destruct (hashable _); [|done]. injection Hb as <-.
  destruct (in_tuple _ _) eqn:E; cbn [negb] in H; [|injection H as <-; by apply elem_of_nil in Hin].
  apply in_tuple_true in E as (s & Es & Hs).
  apply bind_Ok in H as (spec & ->%item_fld & H). apply bind_Ok in H as (t & ->%get_dict_is & H).
  apply bind_Ok in H as (name & _ & H). apply bind_Ok in H as (ns & Hns & H).
  unfold ns_of, meta_namespace in Hns. apply bind_Ok in Hns as (me & ->%get_dict_is & Hns).
  apply bind_Ok in Hns as (n & ->%get_Ok & [= <-]).
  apply bind_Ok in H as (tm & ->%get_dict_is & H). apply bind_Ok in H as (labels & ->%get_dict_is & H).
  apply bind_Ok in H as (ts & ->%get_dict_is & H). apply bind_Ok in H as (cs & ->%get_Ok & [= <-]).
  apply list_elem_of_singleton in Hin as ->. by exists d, s.
Qed.

(** A rule that a clean judgement reads gives its series and its record. *)
Lemma entries_of docs es r : flatM doc_entries (dict_docs docs) = Ok es → rule_of docs r →
  ∃ e, get_default r "expr" (VStr "") = Ok e ∧ (∀ s, s ∈ series e → s ∈ (wanted es).*1).
Proof.
  intros H (d & g & gs & rs & Hd & Hk & Hgs & Hg & Hrs & Hr).
  destruct (flatM_Ok_elem _ _ _ _ H Hd) as [l Hl]. pose proof (flatM_elem _ _ _ H) as Hes.
  pose proof Hl as H1. unfold doc_entries in H1. apply bind_Ok in H1 as (k & ->%get_Ok & H1). rewrite Hk in H1. cbn in H1.
  apply bind_Ok in H1 as (sp & ->%get_dict_is & H1). rewrite Hgs in H1. cbn [rbind] in H1.
  destruct (flatM_Ok_elem _ _ _ _ H1 Hg) as [l2 Hl2]. pose proof (flatM_elem _ _ _ H1) as Hes1.
  pose proof Hl2 as H2. cbn beta in H2. rewrite Hrs in H2. cbn [rbind] in H2.
  destruct (flatM_Ok_elem _ _ _ _ H2 Hr) as [l3 Hl3]. pose proof (flatM_elem _ _ _ H2) as Hes2.
  pose proof Hl3 as H3. unfold rule_entries in H3. apply bind_Ok in H3 as (rec & _ & H3).
  apply bind_Ok in H3 as (a & _ & H3). apply bind_Ok in H3 as (e & He & H3). apply bind_Ok in H3 as (b & Hb & [= H3]).
  exists e. split; [done|]. intros s Hs. destruct (mapR_elem_2 _ _ _ _ Hb Hs) as (x & Hx & Hxs).
  apply bind_Ok in Hxs as (al & _ & Hxs). destruct (hashable _); [|done].
  injection Hxs as Hxs. apply list_elem_of_fmap. eexists (s, _). split; [done|].
  apply list_elem_of_omap. exists x. split; [|by rewrite <- Hxs].
  apply Hes. exists d, l. split_and!; [done|done|]. apply Hes1. exists g, l2. split_and!; [done|by cbn; rewrite Hrs|].
  apply Hes2. exists r, l3. split_and!; [done|done|]. rewrite <- H3. apply elem_of_app. by right.
Qed.
Lemma recorded_is docs es v : flatM doc_entries (dict_docs docs) = Ok es → v ∈ recorded es →
  ∃ r, rule_of docs r ∧ fld r "record" = v.
Proof.
  intros H (x & Hx & Hv)%list_elem_of_omap. destruct x as [w|]; [|done]. injection Hv as ->.
  apply (flatM_elem _ _ _ H) in Hx as (d & l & Hd & Hl & Hx).
  unfold doc_entries in Hl. apply bind_Ok in Hl as (k & ->%get_Ok & Hl).
  destruct (py_eq _ _) eqn:E; cbn [negb] in Hl; [|injection Hl as <-; by apply elem_of_nil in Hx]. apply py_eq_str_r in E.
  apply bind_Ok in Hl as (sp & ->%get_dict_is & Hl). apply bind_Ok in Hl as (gs & Hgs & Hl).
  apply (flatM_elem _ _ _ Hl) in Hx as (g & l2 & Hg & Hl2 & Hx). apply bind_Ok in Hl2 as (rs & Hrs & Hl2).
  apply (flatM_elem _ _ _ Hl2) in Hx as (r & l3 & Hr & Hl3 & Hx).
  exists r. split; [by exists d, g, gs, rs|]. unfold rule_entries in Hl3.
  apply bind_Ok in Hl3 as (rec & Hrec & Hl3). apply bind_Ok in Hl3 as (a & Ha & Hl3).
  apply bind_Ok in Hl3 as (e & _ & Hl3). apply bind_Ok in Hl3 as (b & Hb & [= <-]).
  apply elem_of_app in Hx as [Hx|Hx].
  - destruct (truthy rec); [|injection Ha as <-; by apply elem_of_nil in Hx]. destruct (hashable rec); [|done].
    injection Ha as <-. apply list_elem_of_singleton in Hx. apply get_Ok in Hrec. congruence.
  - destruct (mapR_elem _ _ _ _ Hb Hx) as (s & _ & Hs). apply bind_Ok in Hs as (al & _ & Hs).
    cbn zeta in Hs. destruct (hashable (por al rec)); congruence.
Qed.

(** C9: a clean judgement of check-alert-series-scraped.py means that each
    alert can fire.  Each series that an expression of a rule reads is recorded
    by a rule of the render, or comes from outside the release, or has a known
    producer: a pod of the render has the label of that producer, a PodMonitor
    or a ServiceMonitor with a Service scrapes this pod on a container port,
    and the metrics-port label of the pod names that port, which is the port
    that the network rule opens to the scraper. *)
Theorem clean_alerts_are_scraped docs :
  judge docs = Ok [] →
  ∀ r s, rule_of docs r → (∃ e, get_default r "expr" (VStr "") = Ok e ∧ s ∈ series e) →
  (∃ r', rule_of docs r' ∧ fld r' "record" = VStr s) ∨ external s = true ∨
  ∃ comp p n, producer s = Some comp ∧ pod_of docs p ∧ fld (pod_labels p) COMPONENT = VStr comp ∧
    scraped docs p n ∧ py_str (fld (pod_labels p) LABEL) = str_of_int n.
Proof.
  unfold judge. intros H r s Hr (e & He & Hs). fold (dict_docs docs) in H.
  apply bind_Ok in H as (es & Hes & H). apply bind_Ok in H as (ps & Hps & H).
  destruct (entries_of _ _ _ Hes Hr) as (e' & He' & Hw). rewrite He in He'. injection He' as <-. specialize (Hw s Hs).
  destruct (existsb (py_eq (VStr s)) (recorded es)) eqn:Erec.
  { left. apply existsb_py_eq_str in Erec. by apply (recorded_is _ _ _ Hes). }
  right. assert (judge_series (dict_docs docs) ps (wanted es) s = Ok []) as Hj.
  { apply (proj1 (flatM_nil _ _) H). apply list_elem_of_In, filter_In. split; [|by rewrite Erec].
    by apply list_elem_of_In, sorted_set_elem. }
  unfold judge_series in Hj. apply bind_Ok in Hj as (vs & _ & Hj). apply bind_Ok in Hj as (rules & _ & Hj).
  destruct (external s); [by left|right]. destruct (producer s) as [comp|] eqn:Ep; [|done].
  apply bind_Ok in Hj as (targets & Ht & Hj).
  assert (∃ oks, flatM (open_scrape (dict_docs docs)) targets = Ok oks ∧ existsb id oks = true) as (oks & Hoks & Hex).
  { destruct targets; [done|]. apply bind_Ok in Hj as (oks & Hoks & Hj). exists oks. split; [done|].
    by destruct (existsb id oks). }
  apply existsb_elem_of in Hex as (b & Hb & Hbt). unfold id in Hbt. subst b.
  apply (flatM_elem _ _ _ Hoks) in Hb as (p & l & Hp & Hl & Hb).
  apply (filterM_Ok _ _ _ Ht) in Hp as [Hp Hc]. apply bind_Ok in Hc as (c & ->%get_Ok & Hc).
  injection Hc as Hc%py_eq_str_r.
  unfold open_scrape in Hl. apply bind_Ok in Hl as (ns & Hns & Hl).
  destruct (mapR_elem _ _ _ _ Hl Hb) as (n & Hn & Hlab). apply bind_Ok in Hlab as (lab & ->%get_Ok & [= Hlab]).
  exists comp, p, n. split_and!; [done|by eapply pods_are|done|by eapply scraped_ports_sound|by apply str_eqb_eq].
Qed.
Lemma clean_alerts_are_scraped_witness :
  judge good = Ok [] ∧
  ((∃ r, rule_of good r ∧ fld r "record" = VStr "dashboard_signin_total") ∨
   ∃ p n, pod_of good p ∧ fld (pod_labels p) COMPONENT = VStr "dashboard" ∧ scraped good p n).
Proof.
  assert (judge good = Ok []) as H by (vm_compute; reflexivity). split; [exact H|].
  destruct (clean_alerts_are_scraped good H (str_dict [("alert", "A"); ("expr", expr)]) "dashboard_signin_total")
    as [Hr|[Hr|(comp & p & n & H1 & H2 & H3 & H4 & _)]].
  - exists (rule expr). eexists _, _, _. split_and!; [left|reflexivity|reflexivity|left|reflexivity|left].
  - exists (VStr expr). split; [reflexivity|]. vm_compute. left.
  - by left.
  - discriminate Hr.
  - right. exists p, n. vm_compute in H1. injection H1 as <-. split_and!; [exact H2|exact H3|exact H4].
Defined.
