(* ===== verification/EnvConsumed.v ===== *)
(** * scripts/check-env-consumed.py: each injected env var is read

    The reader sets, the two expansions that also read a var, the containers of
    the golden renders, and the exemptions.  What a clean run says is at the
    end.  [yaml.safe_dump] is an argument; a golden file is its text with the
    documents that [yaml.safe_load_all] reads from it. *)
From stdpp Require Import sorting.
From S2P Require Import Prelude PyStr PyVal Regex Json.
From Stdlib Require Import Ascii.

Definition NEVER_INJECTED : list (string * string) :=
  [("GIBSON_IDENTITY_FRESHNESS_SKEW_SEC",
    cat ["the anti-replay bound on the Envoy->daemon hop. Widening it widens the ";
         "window in which a captured allow-decision header set replays. It is one ";
         "named constant in zeroroot-ai/sdk auth/headers.go and nothing else"])].
Definition IMAGE_SERVICE : list (string * string) :=
  [("gibson", "gibson"); ("ext-authz", "gibson"); ("tenant-operator", "gibson"); ("platform-operator", "gibson");
   ("connector-operator", "gibson"); ("gibson-bootstrap-runner", "gibson"); ("internal-authz-registry", "gibson");
   ("spiffe-jwks-exporter", "gibson"); ("dashboard", "dashboard"); ("setec", "setec"); ("setec-frontend", "setec");
   ("setec-node-agent", "setec"); ("setec-launcher", "setec"); ("setec-disk-builder", "setec");
   ("setec-device-plugin", "setec"); ("docs-site", "docs-site")].
Definition UNGOVERNED : list string := ["zitadel-login"].
Definition RUNTIME_CONSUMED : list string :=
  ["NODE_OPTIONS"; "NODE_EXTRA_CA_CERTS"; "NODE_ENV"; "SSL_CERT_DIR"; "SSL_CERT_FILE"; "CURL_CA_BUNDLE";
   "AUTH_TRUST_HOST"; "GODEBUG"; "GOMAXPROCS"; "GOGC"; "GOTRACEBACK"; "TZ"; "HOME"; "PATH"; "HOSTNAME"; "LANG"; "LC_ALL"].

(** [FIRST_PARTY.match(img)], as its group 1: the greedy class after the
    prefix, unless [mirror/] follows the prefix *)
Definition image_char (c : ascii) : bool := is_lower c || is_digit c || Ascii.eqb c "-".
Fixpoint take_while (f : ascii → bool) (s : string) : string :=
  match s with "" => "" | String c s => if f c then String c (take_while f s) else "" end.
Definition FIRST_PARTY (img : string) : option string :=
  match drop_prefix "ghcr.io/zeroroot-ai/" img with
  | None => None
  | Some s => if startswith s "mirror/" then None
              else let name := take_while image_char s in if str_eqb name "" then None else Some name
  end.

Definition is_upper (c : ascii) : bool := is_alpha c && negb (is_lower c).
Definition upper_char (c : ascii) : bool := is_upper c || is_digit c || Ascii.eqb c "_".
Definition upper_name : regex := RCat (RChr is_upper) (RStar (RChr upper_char)).
Definition any_char : regex := RChr (λ _, true).
Definition HELM_COMMENT : regex :=
  RSeq [RStr "{{"; ROpt (RStr "-"); RSpaces; RStr "/*"; RLazy any_char; RStr "*/"; RSpaces; ROpt (RStr "-"); RStr "}}"].
Definition EXPANSION : regex :=
  RAlt (RSeq [RStr "${"; RGroup 1 upper_name; RStr "}"]) (RSeq [RStr "$("; RGroup 2 upper_name; RStr ")"]).
(** The names of one of the two groups in [EXPANSION.findall(text)] *)
Definition expansions (i : nat) (text : string) : list string :=
  List.filter (λ s, negb (str_eqb s "")) (map (λ m, group_text m i) (re_finditer EXPANSION text)).

(** ** The inputs *)

(** The lines of a list file, without comments and blank lines *)
Definition list_lines (text : string) : list string :=
  List.filter (λ l, negb (str_eqb l "")) (map (λ l, strip (hd "" (str_split l "#"))) (splitlines text)).
Definition load_exemptions (text : option string) : list (string * string) :=
  match text with
  | None => []
  | Some text => foldl (λ out line, let '(spec, _, reason) := str_partition line " " in
                                    alist_set (strip spec) (strip reason) out) [] (list_lines text)
  end.
(** [files]: the reader files in order, by name *)
Definition SUFFIX : string := "-env-readers.txt".
Definition readers (files : list (string * string)) : list (string * list string) :=
  omap (λ f, if endswith f.1 SUFFIX
             then Some (str_slice 0 (String.length f.1 - String.length SUFFIX) f.1, list_lines f.2) else None) files.

Definition decomment (text : string) : string :=
  str_join newline (map (λ line, if startswith (lstrip_of is_space line) "#" then "" else line)
                        (str_split (re_sub HELM_COMMENT (λ _, "") text) newline)).
(** A file of the walk: the parts of its directory below [helm], its name and
    its text.  The walk skips [testdata] and each [charts] directory. *)
Definition chart_file : Type := list string * string * string.
Definition scanned (f : chart_file) : bool :=
  let '(parts, name, _) := f in
  negb (str_eqb (hd "" parts) "testdata" || str_mem "charts" parts) &&
  existsb (endswith name) [".yaml"; ".yml"; ".tpl"; ".txt"; ".json"].
Definition golden_file : Type := string * option (list val).
Definition expansion_refs (files : list chart_file) (golden : list golden_file) : list string :=
  concat (map (λ t, expansions 1 (decomment t)) ((List.filter scanned files).*2 ++ golden.*1)).

(** ** The containers *)

(** Every dict of the document with a key [containers] or [initContainers] *)
Fixpoint pod_specs (node : val) : list val :=
  match node with
  | VDict d =>
      (if bool_decide (is_Some (alist_get "containers" d)) || bool_decide (is_Some (alist_get "initContainers" d))
       then [node] else []) ++ concat (map (λ kv, pod_specs kv.2) d)
  | VList l => concat (map pod_specs l)
  | _ => []
  end.
Definition _pod_specs (doc : val) : list val := pod_specs doc.

Record container := Container { c_image : string; c_name : val; c_env : list string; c_subs : list string }.

Section dump.
Context (safe_dump : val → string).

Definition container_expansions (c : val) : result (list string) :=
  env <- get c "env" ;; Ok (expansions 2 (safe_dump (por env (VList [])))).
(** The names of the dicts of an env list *)
Definition env_name (e : val) : option string := match fld e "name" with VStr n => Some n | _ => None end.
Definition env_names (env : list val) : list string := omap env_name env.
Definition container_of (c : val) : result (list container) :=
  if negb (is_dict c) then Ok [] else
  img <- get c "image" ;;
  match img with
  | VStr img =>
      env <- get_list c "env" ;; name <- get c "name" ;; subs <- container_expansions c ;;
      Ok [Container img (por name (VStr "<unnamed>")) (env_names env) subs]
  | _ => Ok []
  end.
Definition spec_containers (spec : val) : result (list container) :=
  flatM (λ key, l <- get_list spec key ;; flatM container_of l) ["containers"; "initContainers"].
Definition containers (golden : list golden_file) : result (list container) :=
  flatM (λ g, match g.2 with
              | None => Ok []
              | Some docs => flatM (λ d, flatM spec_containers (_pod_specs d)) (List.filter is_dict docs)
              end) golden.

(** ** The judgement *)

(** What is said of one var of a container *)
Inductive verdict := Fine | Exempt (spec : string) | Bad (spec message : string).
Definition judge_name (allowed expanded : list string) (exempt : list (string * string)) (image svc : string)
    (c : container) (n : string) : verdict :=
  let spec := cat [image; ":"; n] in
  match alist_get n NEVER_INJECTED with
  | Some why => Bad spec (cat [n; " is injected into the "; py_str (c_name c); " container of "; image;
                               ", and it must never be injected: "; why])
  | None =>
      if str_mem n allowed || str_mem n expanded || str_mem n (c_subs c) || str_mem n RUNTIME_CONSUMED then Fine
      else match alist_get spec exempt with
           | Some _ => Exempt spec
           | None => Bad spec (cat [n; " is injected into the "; py_str (c_name c); " container of "; image; " and the ";
                                    svc; " source never reads it"])
           end
  end.
(** The notes and the verdicts of one container *)
Definition judge_container (reader : list (string * list string)) (expanded : list string)
    (exempt : list (string * string)) (c : container) : list string * list verdict :=
  match FIRST_PARTY (c_image c) with
  | None => ([], [])
  | Some image =>
      match alist_get image IMAGE_SERVICE with
      | None =>
          (if str_mem image UNGOVERNED then []
           else [cat [image; ": first-party image with no reader set; add it to ";
                      "IMAGE_SERVICE in scripts/gen-env-readers.py or to UNGOVERNED"]], [])
      | Some svc =>
          match default [] (alist_get svc reader) with
          | [] => ([cat [svc; ": no vendored reader set; run `make env-contract-sync`"]], [])
          | allowed => ([], map (judge_name allowed expanded exempt image svc c) (c_env c))
          end
      end
  end.

Record tree := Tree {
  reader_files : list (string * string);
  chart_files : list chart_file;
  golden_files : list golden_file;
  exempt_file : option string }.

Definition failures (vs : list verdict) : list (string * string) :=
  foldl (λ out v, match v with Bad s m => alist_set s m out | _ => out end) [] vs.
Definition used (vs : list verdict) : list string := omap (λ v, match v with Exempt s => Some s | _ => None end) vs.
Definition stale_line (s reason : string) : string :=
  cat [s; "  ("; if str_eqb reason "" then "no reason given" else reason; ")"].
(** The failures, the stale exemptions and the notes *)
Definition violations (t : tree) : result (list string * list string * list string) :=
  let reader := readers (reader_files t) in
  let expanded := expansion_refs (chart_files t) (golden_files t) in
  let exempt := load_exemptions (exempt_file t) in
  cs <- containers (golden_files t) ;;
  let l := map (judge_container reader expanded exempt) cs in
  let vs := concat l.*2 in
  let fail := failures vs in
  Ok (omap (λ k, alist_get k fail) (sorted_strs fail.*1),
      sorted_strs (omap (λ e, if str_mem e.1 (used vs) then None else Some (stale_line e.1 e.2)) exempt),
      sorted_set (concat l.*1)).
Definition main (t : tree) : result Z :=
  '(fail, stale, notes) <- violations t ;;
  Ok (if nonempty fail || nonempty stale || nonempty notes then 1%Z else 0%Z).
End dump.

(** ** The self-test

    The two trees that [selftest] writes, up to the scan of the repository's
    own tree.  [json_dumps] stands for [yaml.safe_dump]. *)

Definition indented (l : list string) : string :=
  cat (map (λ s, cat [s; newline]) (["apiVersion: apps/v1"; "kind: Deployment"; "spec:"; "  template:"; "    spec:"; "      containers:"] ++ l)).
(** The text of one container, and its document *)
Definition fixture_container : Type := string * string * list (string * string).
Definition container_text (c : fixture_container) : list string :=
  let '(name, image, env) := c in
  ["        - name: " +:+ name; "          image: " +:+ image; "          env:"] ++
  concat (map (λ kv, ["            - name: " +:+ kv.1; "              value: " +:+ kv.2]) env).
Definition container_val (c : fixture_container) : val :=
  let '(name, image, env) := c in
  VDict [("name", VStr name); ("image", VStr image);
         ("env", VList (map (λ kv, str_dict [("name", kv.1); ("value", kv.2)]) env))].
Definition golden_of (cs : list fixture_container) : golden_file :=
  (indented (concat (map container_text cs)),
   Some [VDict [("apiVersion", VStr "apps/v1"); ("kind", VStr "Deployment");
      ("spec", VDict [("template", VDict [("spec", VDict [("containers", VList (map container_val cs))])])])]]).

Definition daemon_env (extra : list (string * string)) : list (string * string) :=
  [("GIBSON_READS_THIS", "a"); ("GIBSON_EXPANDED", "b"); ("GIBSON_SUBSTITUTED", "c"); ("GIBSON_DEAD", "d")] ++ extra ++
  [("NODE_OPTIONS", "--max-old-space-size=1"); ("DSN", "postgres://u:$(GIBSON_SUBSTITUTED)@h/db")].
Definition r_yaml (extra : list (string * string)) : golden_file :=
  golden_of [("daemon", "ghcr.io/zeroroot-ai/gibson:v1", daemon_env extra);
             ("upstream", "docker.io/library/redis:7", [("THIRD_PARTY_ONLY", "e")]);
             ("fork", "ghcr.io/zeroroot-ai/zitadel-login:v1", [("ZITADEL_WHATEVER", "f")])].
Definition p_yaml : golden_file := golden_of [("plugin", "ghcr.io/zeroroot-ai/acme-plugin:v1", [("PLUGIN_UNREAD", "x")])].
Definition never : string := hd "" NEVER_INJECTED.*1.
Definition cm_yaml : chart_file := (["x"; "templates"], "cm.yaml", unquoted "data:^  conf: |^    password: ${GIBSON_EXPANDED}^").
Definition fixture (readers : string) (golden : list golden_file) (exempt : option string) : tree :=
  Tree [("gibson-env-readers.txt", unquoted readers)] [cm_yaml] golden (unquoted <$> exempt).
Definition comment_tree : tree :=
  Tree [("gibson-env-readers.txt", unquoted "# gen^GIBSON_READS_THIS^")]
    [(["x"; "templates"], "cm.yaml", unquoted (cat
       ["# NO SECRET here: its only consumer was ${GIBSON_COMMENT_ONLY} and it is gone.^";
        "{{- /* and ${GIBSON_HELM_COMMENT} in a Helm comment block */ -}}^";
        "data:^  conf: |^    real: ${GIBSON_REALLY_EXPANDED}^"]))]
    [golden_of [("holder", "ghcr.io/zeroroot-ai/gibson:v1",
        [("GIBSON_READS_THIS", "a"); ("GIBSON_COMMENT_ONLY", "b"); ("GIBSON_HELM_COMMENT", "c");
         ("GIBSON_REALLY_EXPANDED", "d"); ("GIBSON_CROSS_CONTAINER", "e")]);
       ("referencer", "ghcr.io/zeroroot-ai/gibson:v1", [("DSN", "postgres://u:$(GIBSON_CROSS_CONTAINER)@h/db")])]]
    None.
Definition some_has (x : string) (l : list string) : bool := existsb (contains x) l.

Definition gen : string := "# gen^GIBSON_READS_THIS^DSN^".
Definition exempted : string := "gibson:GIBSON_DEAD tracked in a follow-up^gibson:GONE_AWAY target no longer fails^".
Definition selftest : result Z :=
  let run := violations json_dumps in
  a <- run (fixture gen [p_yaml; r_yaml []] None) ;;
  b <- run (fixture gen [r_yaml []] None) ;;
  c <- run (fixture gen [r_yaml []] (Some exempted)) ;;
  d <- run (fixture (cat [gen; never; "^"]) [r_yaml [(never, "60")]]
              (Some (cat [exempted; "gibson:"; never; " silenced, which must not work^"]))) ;;
  e <- run comment_tree ;;
  let ok :=
    existsb (λ n, startswith n "acme-plugin:") a.2 &&
    match b with ([f], [], []) => contains "GIBSON_DEAD" f | _ => false end &&
    match c with ([], [s], _) => startswith s "gibson:GONE_AWAY" | _ => false end &&
    existsb (λ f, contains never f && contains "must never be injected" f) d.1.1 &&
    forallb (λ n, some_has n e.1.1) ["GIBSON_COMMENT_ONLY"; "GIBSON_HELM_COMMENT"; "GIBSON_CROSS_CONTAINER"] &&
    negb (some_has "GIBSON_REALLY_EXPANDED" e.1.1) in
  Ok (if ok : bool then 0%Z else 1%Z).

Lemma envconsumed_selftest : selftest = Ok 0%Z.
Proof. vm_compute. reflexivity. Qed.

(** ** The image and the expansions, without patterns *)

(** The image is published by the project under [name], and is no mirror. *)
Definition first_party (img name : string) : Prop :=
  ∃ rest, img = "ghcr.io/zeroroot-ai/" +:+ name +:+ rest ∧ name ≠ "" ∧ str_forallb image_char name = true ∧
    is_some_and image_char (head_char rest) = false ∧ startswith (name +:+ rest) "mirror/" = false.

Lemma take_while_spec f s :
  ∃ rest, s = take_while f s +:+ rest ∧ str_forallb f (take_while f s) = true ∧ is_some_and f (head_char rest) = false.
Proof.
  induction s as [|c s (rest & Hs & Hf & Hr)]; [by exists ""|]. cbn [take_while]. destruct (f c) eqn:E.
  - exists rest. cbn [str_forallb]. rewrite E, Hf. split_and!; [|done|done].
    change (String c (take_while f s) +:+ rest) with (String c (take_while f s +:+ rest)). by rewrite <- Hs.
  - exists (String c s). split_and!; [done|done|done].
Qed.
Lemma take_while_app f name rest :
  str_forallb f name = true → is_some_and f (head_char rest) = false → take_while f (name +:+ rest) = name.
Proof.
  intros Hn Hr. induction name as [|c name IH]; simpl in *.
  - destruct rest as [|c rest]; simpl in *; [done|by rewrite Hr].
  - apply andb_true_iff in Hn as [-> Hn]. f_equal. by apply IH.
Qed.
Lemma FIRST_PARTY_iff img name : FIRST_PARTY img = Some name ↔ first_party img name.
Proof.
  unfold FIRST_PARTY. split.
  - destruct (drop_prefix _ img) as [s|] eqn:E; [|done]. apply drop_prefix_Some in E as ->.
    destruct (startswith s "mirror/") eqn:Em; [done|]. destruct (str_eqb _ "") eqn:En; [done|]. intros [= <-].
    destruct (take_while_spec image_char s) as (rest & Hs & Hf & Hr). exists rest. rewrite <- Hs.
    split_and!; [done| |done|done|done]. intros H. rewrite H in En. done.
  - intros (rest & -> & Hn & Hf & Hr & Hm). rewrite (proj2 (drop_prefix_Some _ _ _) eq_refl), Hm, take_while_app by done.
    destruct (str_eqb name "") eqn:E; [by apply str_eqb_eq in E|done].
Qed.

(** A text expands a name as [${name}] or as [$(name)]. *)
Definition holds_ref (open close name text : string) : Prop := ∃ a b, text = a +:+ open +:+ name +:+ close +:+ b.

Lemma step_upper_name p s q : step upper_name (p, s) q → ∃ name, s = name +:+ q.2 ∧ str_forallb upper_char name = true.
Proof.
  unfold upper_name. rewrite step_cat_iff. intros (r & H1 & H2). apply step_chr_iff in H1 as (c & t & -> & Hc & ->).
  apply step_star_iff in H2 as (u & -> & Hu). exists (String c u). split; [done|]. cbn. rewrite Hu.
  unfold upper_char. by rewrite Hc.
Qed.
(** One branch of the pattern: its group is the text between the brackets. *)
Lemma bracket_match {X} open close i st (k : state → option X) x :
  rmatch (RSeq [RStr open; RGroup i upper_name; RStr close]) st k = Some x →
  ∃ name v p', rest st = open +:+ name +:+ close +:+ v ∧ str_forallb upper_char name = true ∧
    k (State p' v ((i, name) :: groups st)) = Some x.
Proof.
  cbn [RSeq]. rewrite rmatch_cat. intros H. destruct st as [p s g].
  apply rmatch_sound_groups in H as ([p1 s1 g1] & H1 & G1 & H). rewrite rmatch_cat, rmatch_group in H.
  apply rmatch_sound_groups in H as ([p2 s2 g2] & H2 & G2 & H).
  apply rmatch_sound_groups in H as ([p3 s3 g3] & H3 & G3 & H). unfold core in *. cbn [prev rest groups] in *.
  apply step_str_iff in H1, H3. cbn [snd] in *.
  destruct (step_upper_name _ _ _ H2) as (name & Hname & Hup). cbn [snd] in Hname.
  exists name, s3, p3. split; [by rewrite H1, Hname, H3|]. split; [done|].
  rewrite G1 in G2 by apply no_group_str. rewrite G2, Hname, consumed_app in * by done. by rewrite G3 in H by apply no_group_str.
Qed.

Lemma expansion_groups before p s m : match_at EXPANSION before p s = Some m →
  ∃ name v, str_forallb upper_char name = true ∧ ((s = "${" +:+ name +:+ "}" +:+ v ∧ group_text m 1 = name ∧ group_text m 2 = "") ∨
            (s = "$(" +:+ name +:+ ")" +:+ v ∧ group_text m 1 = "" ∧ group_text m 2 = name)).
Proof.
  unfold match_at, EXPANSION. intros H. apply rmatch_alt in H as [H|H]; apply bracket_match in H as (name & v & p' & Hs & Hn & H); cbn [rest] in Hs;
    injection H as <-; exists name, v; (split; [done|]); [by left|by right].
Qed.

Lemma expansions_sound text name :
  (name ∈ expansions 1 text → holds_ref "${" "}" name text ∧ str_forallb upper_char name = true) ∧
  (name ∈ expansions 2 text → holds_ref "$(" ")" name text).
Proof.
  assert (∀ i, name ∈ expansions i text → name ≠ "" ∧ ∃ before a m, suffix_of (None, text) a ∧
    match_at EXPANSION before a.1 a.2 = Some m ∧ group_text m i = name) as H.
  { intros i Hi. unfold expansions in Hi. apply list_elem_of_In, filter_In in Hi as [Hi Hne].
    apply list_elem_of_In, list_elem_of_fmap in Hi as (m & -> & Hm). split.
    - intros E. by rewrite E in Hne.
    - apply finditer_match in Hm as (before & a & Ha & Hm). by exists before, a, m. }
  split; intros Hi; apply H in Hi as (Hne & before & [q t] & m & Ha & Hm & Hg); apply suffix_of_app in Ha as [u Hu];
    apply expansion_groups in Hm as (nm & v & Hnm & [(Ht & H1 & H2)|(Ht & H1 & H2)]); cbn [snd] in Ht;
    try congruence; [split; [|congruence]|]; exists u, v; rewrite Hu, Ht; congruence.
Qed.

(** ** A reference lies in a line *)

Lemma app_within (x b y t : string) (c : ascii) :
  contains (String c "") x = false → x +:+ b = y +:+ String c t → ∃ b', y = x +:+ b'.
Proof.
  revert y. induction x as [|d x IH]; intros y Hx H; [by exists y|].
  destruct y as [|e y]; cbn in H; injection H as -> H.
  - exfalso. revert Hx. cbn. unfold startswith. cbn. by rewrite Ascii.eqb_refl.
  - cbn in Hx. apply orb_false_iff in Hx as [_ Hx]. destruct (IH y Hx H) as [b' ->]. by exists b'.
Qed.
Lemma app_split (a x b y t : string) (c : ascii) :
  contains (String c "") x = false → a +:+ x +:+ b = y +:+ String c t →
  (∃ b', y = a +:+ x +:+ b') ∨ (∃ a', t = a' +:+ x +:+ b).
Proof.
  intros Hx. revert y. induction a as [|d a IH]; intros y H.
  - left. by eapply app_within.
  - destruct y as [|e y]; cbn in H; injection H as -> H; [by right; exists a|].
    destruct (IH y H) as [[b' ->]|Ha]; [by left; exists b'|by right].
Qed.
Lemma ref_in_line l open close name : contains newline (open +:+ name +:+ close) = false → l ≠ [] →
  holds_ref open close name (str_join newline l) → ∃ line, line ∈ l ∧ holds_ref open close name line.
Proof.
  intros Hx Hl (a & b & H). revert a H. induction l as [|y [|z l] IH]; intros a H; [done|exists y; split; [left|by exists a, b]|].
  change (str_join newline (y :: z :: l)) with (y +:+ newline +:+ str_join newline (z :: l)) in H. symmetry in H.
  replace (a +:+ open +:+ name +:+ close +:+ b) with (a +:+ (open +:+ name +:+ close) +:+ b) in H by by rewrite !append_assoc.
  apply (app_split _ _ _ _ _ _ Hx) in H as [[b' ->]|[a' Ha]].
  - eexists. split; [left|]. exists a, b'. by rewrite !append_assoc.
  - destruct (IH ltac:(done) a') as (line & Hin & Hr); [by rewrite Ha, !append_assoc|]. exists line. split; [by right|done].
Qed.
Lemma upper_no_newline name : str_forallb upper_char name = true → contains newline (name +:+ "}") = false.
Proof.
  induction name as [|c name IH]; [done|]. intros [Hc Hn]%andb_true_iff.
  change (startswith (String c (name +:+ "}")) newline || contains newline (name +:+ "}") = false).
  rewrite (IH Hn), orb_false_r. unfold startswith, newline. cbn [drop_prefix].
  destruct (Ascii.eqb "010" c) eqn:E; [|done]. by apply Ascii.eqb_eq in E as <-.
Qed.
(** A name that the rest of a chart file or a render expands stands in a line
    that is no comment, in the text without its Helm comments. *)
Lemma decomment_ref text name : str_forallb upper_char name = true → holds_ref "${" "}" name (decomment text) →
  ∃ line, line ∈ str_split (re_sub HELM_COMMENT (λ _, "") text) newline ∧
    startswith (lstrip_of is_space line) "#" = false ∧ holds_ref "${" "}" name line.
Proof.
  intros Hx H. apply ref_in_line in H as (line & Hl & Hr); [| |].
  - apply list_elem_of_fmap in Hl as (raw & -> & Hraw). destruct (startswith _ "#") eqn:E; [|by exists raw].
    exfalso. destruct Hr as (a & b & H). destruct a; [|done]. done.
  - change (contains newline (name +:+ "}") = false). by apply upper_no_newline.
  - intros H'. by apply fmap_nil_inv, str_split_pos in H'.
Qed.

(** ** The containers of a render *)

Definition has_key (k : string) (v : val) : Prop := ∃ d x, v = VDict d ∧ alist_get k d = Some x.
(** A container of a pod spec of a render, wherever the pod spec is *)
Definition pod_container (t : tree) (c : val) : Prop :=
  ∃ text docs d spec key l, (text, Some docs) ∈ golden_files t ∧ d ∈ docs ∧ is_dict d = true ∧ inside d spec ∧
    (has_key "containers" spec ∨ has_key "initContainers" spec) ∧ key ∈ ["containers"; "initContainers"] ∧
    get_list spec key = Ok l ∧ c ∈ l ∧ is_dict c = true.

Lemma pod_specs_complete d spec :
  inside d spec → has_key "containers" spec ∨ has_key "initContainers" spec → spec ∈ _pod_specs d.
Proof.
  intros H Hk. unfold _pod_specs. induction H as [v|v d k x Hx _ IH|v l x Hx _ IH].
  - destruct Hk as [(d & x & -> & Hd)|(d & x & -> & Hd)]; cbn [pod_specs]; apply elem_of_app; left;
      rewrite Hd; cbn; rewrite ?orb_true_r; left.
  - cbn [pod_specs]. apply elem_of_app. right. apply elem_of_concat. exists (pod_specs x). split; [|by apply IH].
    apply list_elem_of_fmap. by exists (k, x).
  - cbn [pod_specs]. apply elem_of_concat. exists (pod_specs x). split; [|by apply IH]. by apply list_elem_of_fmap_2.
Qed.

Section clean.
Context (safe_dump : val → string) (t : tree).

Lemma containers_complete cs c img :
  containers safe_dump (golden_files t) = Ok cs → pod_container t c → fld c "image" = VStr img →
  ∃ env, get_list c "env" = Ok env ∧
    Container img (por (fld c "name") (VStr "<unnamed>")) (env_names env)
              (expansions 2 (safe_dump (por (fld c "env") (VList [])))) ∈ cs.
Proof.
  intros H (text & docs & d & spec & key & l & Hg & Hd & Hdd & Hin & Hk & Hkey & Hl & Hc & Hcd) Himg.
  unfold containers in H. pose proof (flatM_elem _ _ _ H) as E1.
  destruct (flatM_Ok_elem _ _ _ _ H Hg) as [l1 H1]. cbn [snd] in H1. pose proof (flatM_elem _ _ _ H1) as E2.
  assert (d ∈ List.filter is_dict docs) as Hd' by (apply list_elem_of_In, filter_In; split; [by apply list_elem_of_In|done]).
  destruct (flatM_Ok_elem _ _ _ _ H1 Hd') as [l2 H2]. pose proof (flatM_elem _ _ _ H2) as E3.
  pose proof (pod_specs_complete _ _ Hin Hk) as Hs.
  destruct (flatM_Ok_elem _ _ _ _ H2 Hs) as [l3 H3]. pose proof H3 as H3'. unfold spec_containers in H3'.
  pose proof (flatM_elem _ _ _ H3') as E4. destruct (flatM_Ok_elem _ _ _ _ H3' Hkey) as [l4 H4]. pose proof H4 as H4'.
  cbn beta in H4'. rewrite Hl in H4'. cbn [rbind] in H4'. pose proof (flatM_elem _ _ _ H4') as E5.
  destruct (flatM_Ok_elem _ _ _ _ H4' Hc) as [l5 H5]. pose proof H5 as H5'. unfold container_of in H5'.
  rewrite Hcd in H5'. cbn [negb] in H5'. apply bind_Ok in H5' as (im & ->%get_Ok & H5'). rewrite Himg in H5'.
  apply bind_Ok in H5' as (env & Henv & H5'). apply bind_Ok in H5' as (nm & ->%get_Ok & H5').
  apply bind_Ok in H5' as (subs & Hsubs & [= <-]). apply bind_Ok in Hsubs as (e & ->%get_Ok & [= <-]).
  exists env. split; [done|]. apply E1. exists (text, Some docs), l1. split_and!; [done|done|].
  apply E2. exists d, l2. split_and!; [done|done|]. apply E3. exists spec, l3. split_and!; [done|done|].
  apply E4. exists key, l4. split_and!; [done|done|]. apply E5. exists c, [Container img (por (fld c "name") (VStr "<unnamed>")) (env_names env)
              (expansions 2 (safe_dump (por (fld c "env") (VList []))))]. split_and!; [done|done|left].
Qed.

Lemma failures_keys vs s : s ∈ (failures vs).*1 ↔ ∃ m, Bad s m ∈ vs.
Proof.
  unfold failures. assert (∀ out, s ∈ (foldl (λ out v, match v with Bad s m => alist_set s m out | _ => out end) out vs).*1 ↔
    s ∈ out.*1 ∨ ∃ m, Bad s m ∈ vs) as H; [|rewrite H; set_solver].
  induction vs as [|v vs IH]; intros out; cbn [foldl]; [set_solver|]. rewrite IH. setoid_rewrite elem_of_cons.
  destruct v as [| |s' m']; [naive_solver..|]. rewrite alist_set_keys. naive_solver.
Qed.
Lemma violations_nil cs :
  containers safe_dump (golden_files t) = Ok cs → violations safe_dump t = Ok ([], [], []) →
  let l := map (judge_container (readers (reader_files t)) (expansion_refs (chart_files t) (golden_files t))
                                (load_exemptions (exempt_file t))) cs in
  (∀ x, x ∈ l → x.1 = []) ∧ (∀ s m, Bad s m ∉ concat l.*2) ∧
  (∀ e, e ∈ load_exemptions (exempt_file t) → e.1 ∈ used (concat l.*2)).
Proof.
  intros Hcs H l. unfold violations in H. rewrite Hcs in H. cbn [rbind] in H. injection H as Hf Hs Hn.
  fold l in Hf, Hs, Hn. clearbody l. split_and!.
  - intros x Hx. rewrite sorted_set_nil in Hn. apply (proj1 (concat_nil _) Hn). by apply list_elem_of_fmap_2.
  - intros s m Hin. assert (s ∈ (failures (concat l.*2)).*1) as Hk by (apply failures_keys; by exists m).
    destruct (alist_get s (failures (concat l.*2))) as [y|] eqn:E; [|by apply alist_None in E].
    assert (y ∈ omap (λ k, alist_get k (failures (concat l.*2))) (sorted_strs (failures (concat l.*2)).*1)) as Hy.
    { apply list_elem_of_omap. exists s. split; [by apply sorted_strs_elem|done]. }
    rewrite Hf in Hy. by apply elem_of_nil in Hy.
  - intros e He. destruct (str_mem e.1 (used (concat l.*2))) eqn:E; [by apply str_mem_elem|]. exfalso.
    assert (stale_line e.1 e.2 ∈ sorted_strs (omap (λ e, if str_mem e.1 (used (concat l.*2)) then None
                                else Some (stale_line e.1 e.2)) (load_exemptions (exempt_file t)))) as Hin.
    { apply sorted_strs_elem, list_elem_of_omap. exists e. split; [done|]. by rewrite E. }
    rewrite Hs in Hin. by apply elem_of_nil in Hin.
Qed.
End clean.

(** ** What a clean run says *)

(** A chart file or a render expands the name in a line that is no comment. *)
Definition expanded_in_chart (t : tree) (n : string) : Prop :=
  ∃ text line, ((∃ f, f ∈ chart_files t ∧ scanned f = true ∧ text = f.2) ∨ text ∈ (golden_files t).*1) ∧
    line ∈ str_split (re_sub HELM_COMMENT (λ _, "") text) newline ∧
    startswith (lstrip_of is_space line) "#" = false ∧ holds_ref "${" "}" n line.
(** Something reads the var [n] of the container [c]: the source of its
    service, a chart file, another var of the container, or the runtime. *)
Definition is_read (safe_dump : val → string) (t : tree) (allowed : list string) (c : val) (n : string) : Prop :=
  n ∈ allowed ∨ expanded_in_chart t n ∨ holds_ref "$(" ")" n (safe_dump (por (fld c "env") (VList []))) ∨ n ∈ RUNTIME_CONSUMED.

Lemma expansion_refs_sound t n : n ∈ expansion_refs (chart_files t) (golden_files t) → expanded_in_chart t n.
Proof.
  unfold expansion_refs. intros (l & Hl & Hn)%elem_of_concat. apply list_elem_of_fmap in Hl as (text & -> & Ht).
  apply expansions_sound in Hn as [Hr Hup]. apply decomment_ref in Hr as (line & H1 & H2 & H3); [|done].
  exists text, line. split_and!; [|done..]. apply elem_of_app in Ht as [Ht|Ht]; [left|by right].
  apply list_elem_of_fmap in Ht as (f & -> & Hf). apply list_elem_of_In, filter_In in Hf as [Hf Hs].
  exists f. split_and!; [by apply list_elem_of_In|done|done].
Qed.

(** The exemption is for a var of a container of the render that nothing reads. *)
Definition silences (safe_dump : val → string) (t : tree) (spec : string) : Prop :=
  ∃ cs k image n svc allowed, containers safe_dump (golden_files t) = Ok cs ∧ k ∈ cs ∧ first_party (c_image k) image ∧
    n ∈ c_env k ∧ spec = cat [image; ":"; n] ∧ alist_get image IMAGE_SERVICE = Some svc ∧
    alist_get svc (readers (reader_files t)) = Some allowed ∧
    (n ∉ allowed) ∧ (n ∉ expansion_refs (chart_files t) (golden_files t)) ∧ (n ∉ c_subs k) ∧ (n ∉ RUNTIME_CONSUMED).

Lemma used_silences safe_dump t cs spec :
  containers safe_dump (golden_files t) = Ok cs →
  spec ∈ used (concat (map (judge_container (readers (reader_files t)) (expansion_refs (chart_files t) (golden_files t))
                                            (load_exemptions (exempt_file t))) cs).*2) → silences safe_dump t spec.
Proof.
  intros Hcs (v & Hv & Hs)%list_elem_of_omap. destruct v as [|s|]; [done| |done]. injection Hs as ->.
  apply elem_of_concat in Hv as (vs & Hvs & Hv). apply list_elem_of_fmap in Hvs as (x & -> & Hx).
  apply list_elem_of_fmap in Hx as (k & -> & Hk). unfold judge_container in Hv.
  destruct (FIRST_PARTY (c_image k)) as [image|] eqn:Ef; [|by apply elem_of_nil in Hv].
  destruct (alist_get image IMAGE_SERVICE) as [svc|] eqn:Es; [|by apply elem_of_nil in Hv].
  destruct (alist_get svc (readers (reader_files t))) as [[|a allowed]|] eqn:Er; try (by apply elem_of_nil in Hv).
  cbn [default snd] in Hv. apply list_elem_of_fmap in Hv as (n & Hn & Hnk). unfold judge_name in Hn.
  destruct (alist_get n NEVER_INJECTED); [done|]. destruct (_ || _) eqn:E; [done|].
  destruct (alist_get _ (load_exemptions _)); [|done]. injection Hn as ->.
  assert (∀ l, str_mem n l = false → n ∉ l) as Hmem by (intros l Hl Hin; apply str_mem_elem in Hin; congruence).
  rewrite !orb_false_iff in E. destruct E as (((E1 & E2) & E3) & E4).
  exists cs, k, image, n, svc, (a :: allowed). split_and!; auto. by apply FIRST_PARTY_iff.
Qed.


Definition clean_tree : tree :=
  fixture (cat [gen; "GIBSON_DEAD^"]) [golden_of [("daemon", "ghcr.io/zeroroot-ai/gibson:v1", daemon_env [("GIBSON_LATE", "x")])]]
          (Some "gibson:GIBSON_LATE its reader is in review^").
Definition daemon : val := container_val ("daemon", "ghcr.io/zeroroot-ai/gibson:v1", daemon_env [("GIBSON_LATE", "x")]).
