(* ===== verification/SecretContract.v ===== *)
(** * scripts/check-secret-contract.py: the secret contract, in both directions

    The contract, the keys that the ExternalSecrets of the renders read, the
    keys that the seed table mints, the Secrets that the renders mount and the
    targets of the Makefile; the five assertions and their exemptions.  What a
    consistent contract means is at the end. *)
From S2P Require Import Prelude PyStr PyVal.
From S2P Require EnvConsumed.
From Stdlib Require Import Ascii.

Definition HOSTED : list string := ["gitops:"; "staging:"].
Definition CONTRACT : string := "helm/gibson/secret-contract.yaml".

(** ** The inputs *)

(** The function has the text of the one of check-env-consumed.py. *)
Definition load_exemptions : option string → list (string * string) := EnvConsumed.load_exemptions.

Definition seed_keys (file : option string) : list string :=
  match file with
  | None => []
  | Some text => map (λ l, hd "" (split_ws l)) (EnvConsumed.list_lines text)
  end.

Definition last_segment (k : string) : string := match rsplit1 "/" k with Some (_, b) => b | None => k end.
(** The keys of [spec.data] and of [spec.dataFrom] of an ExternalSecret *)
Definition entry_keys (field : string) (e : val) : result (list val) :=
  r <- get_dict e field ;; k <- get r "key" ;; Ok (if truthy k then [k] else []).
Definition doc_keys (d : val) : result (list (string * val)) :=
  if negb (is_dict d) then Ok [] else
  kind <- get d "kind" ;;
  if negb (py_eq kind (VStr "ExternalSecret")) then Ok [] else
  m <- get_dict d "metadata" ;; n <- get m "name" ;;
  let name := por n (VStr "<unnamed>") in
  spec <- get_dict d "spec" ;;
  data <- get_list spec "data" ;; a <- flatM (entry_keys "remoteRef") data ;;
  from <- get_list spec "dataFrom" ;; b <- flatM (entry_keys "extract") from ;;
  mapR (λ k, s <- as_str k ;; if hashable name then Ok (last_segment s, name) else Raise TypeError) (a ++ b).
(** [_remote_ref_keys], as pairs of a key and a holder *)
Definition _remote_ref_keys (docs : list val) : result (list (string * val)) := flatM doc_keys docs.

Definition name_str (v : val) : list string :=
  match v with VStr s => if str_eqb s "" then [] else [s] | _ => [] end.
Definition secrets_name (e : val) : list string :=
  if is_dict e then match fld e "name" with VStr s => [s] | _ => [] end else [].
Fixpoint walk (node : val) : list string :=
  match node with
  | VDict d =>
      concat (map (λ kv,
        let k := kv.1 in let v := kv.2 in
        if str_mem k ["secretName"; "existingSecret"] && is_str v && truthy v then name_str v
        else if str_mem k ["secretKeyRef"; "secretRef"] && is_dict v then name_str (fld v "name")
        else if str_eqb k "secret" && is_dict v then name_str (por (fld v "secretName") (fld v "name"))
        else if str_eqb k "secrets" && is_list v
             then match v with VList l => concat (map secrets_name l) | _ => [] end
        else walk v) d)
  | VList l => concat (map walk l)
  | _ => []
  end.
Definition _mounted_names (docs : list val) : list string := concat (map walk (List.filter is_dict docs)).

Definition target_of (line : string) : option string :=
  match line with
  | "" => None
  | String c _ =>
      if is_space c || startswith line "." || startswith line "#" then None else
      let head := if contains ":" line then strip (hd "" (str_split line ":")) else "" in
      if str_eqb head "" || contains "=" head || contains " " head then None else Some head
  end.
Definition make_targets (file : option string) : list string :=
  match file with None => [] | Some text => omap target_of (str_split text newline) end.

Definition _consumers (e : val) : result (list string) := l <- get_list e "consumers" ;; Ok (map py_str l).

(** ** The assertions *)

(** An entry of the contract, by name; a name is a value that can be a key. *)
Definition named_entry (e : val) : result (list (val * val)) :=
  n <- get e "name" ;; if truthy n then n <- item e "name" ;; vdict_item n e else Ok [].
Definition backend_of (contract : val) : result (list (val * val)) :=
  l <- get_list contract "secrets" ;; flatM named_entry l.
Definition opprod_of (contract : val) : result (list (val * val)) :=
  l <- get_list contract "operator_produced" ;; flatM (λ e, if is_dict e then named_entry e else Ok []) l.
Definition producers_of (contract : val) : result (list val) := p <- get_dict contract "producers" ;; set_keys p.
(** [sorted(d.items())], by the keys, which are distinct *)
Definition sorted_items (l : list (val * val)) : result (list (val * val)) :=
  ks <- py_sorted (distinct l.*1) ;; Ok (omap (λ k, pair k <$> vdict_get k l) ks).
Definition in_keys (name : val) (keys : list string) : bool := in_tuple name keys.

Record report := Report { r_assertion : string; r_name : val; r_msg : string }.
Definition r_spec (r : report) : string := cat [r_assertion r; ":"; py_str (r_name r)].

Section assertions.
Context (declared : list val) (seeded : list string) (consumed : list (string * val)) (mounted targets : list string).

Definition is_declared (key : string) : bool := existsb (py_eq (VStr key)) declared.
Definition holders (key : string) : list val := (List.filter (λ r, str_eqb r.1 key) consumed).*2.
Definition forward (key : string) : result (list report) :=
  if is_declared key then Ok [] else
  hs <- py_sorted_set (holders key) ;;
  Ok [Report "forward" (VStr key) (cat [key; ": consumed by ExternalSecret "; py_repr (VList hs); " and declared by nothing in ";
                                        CONTRACT; ", so the install depends on a key no producer owns"])].
Definition producer (ne : val * val) : result (list report) :=
  p <- get ne.2 "producer" ;;
  Ok (if py_eq p (VStr "openbao-seeder") && negb (in_keys ne.1 seeded)
      then [Report "producer" ne.1 (cat [py_str ne.1; ": says producer: openbao-seeder, but openbao-seed-keys.txt does not mint it"])]
      else []).
Definition viceversa (key : string) : list report :=
  if is_declared key then []
  else [Report "viceversa" (VStr key) (cat [key; ": minted by the OpenBao seed table and declared by nothing in "; CONTRACT])].

Definition gates_of (cons : list string) : list string := omap (drop_prefix "chart-gate:") cons.
(** A consumer that another repository or a running program holds *)
Definition elsewhere (c : string) : bool := startswith c "runtime:" || existsb (startswith c) HOSTED.
Definition consumer (ne : val * val) : result (list report) :=
  if in_keys ne.1 consumed.*1 then Ok [] else
  cons <- _consumers ne.2 ;;
  let gates := gates_of cons in
  match List.filter (λ g, negb (str_mem g targets)) gates with
  | g :: _ =>
      Ok [Report "consumer" ne.1 (cat [py_str ne.1; ": declares chart-gate:"; g; ", and the Makefile has no `make "; g;
                                       "` target. The marker claims a proof that does not exist."])]
  | [] =>
      Ok (if nonempty gates || existsb elsewhere cons then []
          else [Report "consumer" ne.1 (cat [py_str ne.1; ": declares consumers "; str_of_strs cons;
                                             " and no rendered ExternalSecret reads it"])])
  end.
Definition opprod (ne : val * val) : result (list report) :=
  if in_keys ne.1 consumed.*1 || in_keys ne.1 mounted then Ok [] else
  cons <- _consumers ne.2 ;;
  Ok (if existsb elsewhere cons then []
      else [Report "opprod" ne.1 (cat [py_str ne.1; ": listed under operator_produced and referenced by nothing"])]).
End assertions.

Record tree := Tree {
  contract_file : val;
  golden : list val;
  seed_file : option string;
  makefile : option string;
  exempt_file : option string }.

(** The entries under [secrets] and [operator_produced], and the names under
    [producers] *)
Record tables := Tables { backend : list (val * val); ops : list (val * val); prods : list val }.
Definition tables_of (contract : val) : result tables :=
  let contract := por contract (VDict []) in
  b <- backend_of contract ;; o <- opprod_of contract ;; p <- producers_of contract ;; Ok (Tables b o p).
Definition declared (c : tables) : list val := (backend c).*1 ++ (ops c).*1 ++ prods c.
(** What the five assertions report, before the exemptions *)
Definition reports (t : tree) (c : tables) (consumed : list (string * val)) : result (list report) :=
  let seeded := seed_keys (seed_file t) in
  a <- flatM (forward (declared c) consumed) (sorted_set consumed.*1) ;;
  bs <- sorted_items (backend c) ;;
  b <- flatM (producer seeded) bs ;;
  let v := concat (map (viceversa (declared c)) (sorted_set seeded)) in
  d <- flatM (consumer consumed (make_targets (makefile t))) bs ;;
  os <- sorted_items (ops c) ;;
  e <- flatM (opprod consumed (_mounted_names (golden t))) os ;;
  Ok (a ++ b ++ v ++ d ++ e).
Definition exempted (exempt : list (string * string)) (r : report) : bool := bool_decide (is_Some (alist_get (r_spec r) exempt)).
Definition violations (t : tree) : result (list string * list string) :=
  c <- tables_of (contract_file t) ;;
  consumed <- _remote_ref_keys (golden t) ;;
  let seeded := seed_keys (seed_file t) in
  if negb (nonempty consumed) || negb (nonempty seeded)
  then Ok ([cat ["[blind] the golden renders hold "; str_of_int (Z.of_nat (length (sorted_set consumed.*1)));
                 " ExternalSecret keys and the seed table "; str_of_int (Z.of_nat (length (sorted_set seeded)));
                 " keys: this check read nothing"]], [])
  else
    let exempt := load_exemptions (exempt_file t) in
    rs <- reports t c consumed ;;
    let used := map r_spec (List.filter (exempted exempt) rs) in
    Ok (map (λ r, cat ["["; r_assertion r; "] "; r_msg r]) (List.filter (λ r, negb (exempted exempt r)) rs),
        sorted_strs (omap (λ e, if str_mem e.1 used then None else Some (EnvConsumed.stale_line e.1 e.2)) exempt)).
Definition main (t : tree) : result Z :=
  '(fail, stale) <- violations t ;; Ok (if nonempty fail || nonempty stale then 1%Z else 0%Z).

(** ** The self-test, up to the check of the repository's own tree *)

Definition entry (name prod : string) (consumers : list string) : val :=
  VDict [("name", VStr name); ("producer", VStr prod); ("consumers", strs consumers)].
Definition _es (name key : string) : val :=
  VDict [("apiVersion", VStr "external-secrets.io/v1"); ("kind", VStr "ExternalSecret"); ("metadata", str_dict [("name", name)]);
         ("spec", VDict [("data", VList [VDict [("secretKey", VStr "x"); ("remoteRef", str_dict [("key", key)])]])])].
Definition _fixture (contract : val) (seed : string) (docs : list val) (targets : list string) (exempt : option string) : tree :=
  Tree contract docs (Some (unquoted seed)) (Some (cat (map (λ t, unquoted (cat [t; ": ## fixture^	@true^"])) targets)))
       (unquoted <$> exempt).
Definition one (exempt : option string) : tree :=
  _fixture (VDict
    [("secrets", VList
       [entry "seeded-and-read" "openbao-seeder" ["chart:x/good"]; entry "claims-seeder" "openbao-seeder" ["chart:x/good"];
        entry "no-consumer" "openbao-seeder" []; entry "runtime-only" "operator" ["runtime:something"];
        entry "window-only" "operator-supplied" ["chart-gate:cg-rotation-window"];
        entry "hosted-only" "operator-supplied" ["gitops:arc"]]);
     ("operator_produced", VList [entry "opprod-unused" "cert-manager" []])])
    "seeded-and-read key:pw^no-consumer key:pw^undeclared-seed key:pw^"
    [_es "good" "seeded-and-read"; _es "rogue" "never-declared"; _es "reads" "claims-seeder"] ["cg-rotation-window"] exempt.
Definition blind : tree := _fixture (VDict [("secrets", VList [])]) "" [] ["cg-rotation-window"] None.
Definition gate : tree :=
  _fixture (VDict [("secrets", VList [entry "ghost-gate" "operator-supplied" ["chart-gate:no-such-target"]])])
    "seeded-and-read key:pw^" [_es "good" "seeded-and-read"] [] None.
Definition assertion_of (f : string) : string := default "" (drop_prefix "[" (hd "" (str_split f "]"))).
Definition selftest : result Z :=
  a <- violations (one None) ;;
  b <- violations blind ;;
  g <- violations gate ;;
  x <- violations (one (Some (cat
    ["forward:never-declared tracked in a follow-up^"; "producer:claims-seeder tracked in a follow-up^";
     "viceversa:undeclared-seed tracked in a follow-up^"; "opprod:opprod-unused tracked in a follow-up^";
     "consumer:no-consumer tracked in a follow-up^"; "forward:gone-away target no longer fails^"]))) ;;
  let ok :=
    bool_decide (sorted_strs (map assertion_of a.1) = ["consumer"; "forward"; "opprod"; "producer"; "viceversa"]) &&
    negb (nonempty a.2) &&
    negb (existsb (λ f, contains "window-only" f || contains "hosted-only" f || contains "runtime-only" f) a.1) &&
    existsb (λ f, startswith f "[blind]") b.1 &&
    existsb (λ f, contains "ghost-gate" f && contains "no `make no-such-target`" f) g.1 &&
    match x with ([], [s]) => startswith s "forward:gone-away" | _ => false end in
  Ok (if ok : bool then 0%Z else 1%Z).

Lemma secretcontract_selftest : selftest = Ok 0%Z.
Proof. vm_compute. reflexivity. Qed.

(** ** What the renders read and mount *)

(** An ExternalSecret of the render reads the key: it is the last segment of
    the remote key of an entry. *)
Definition reads_key (docs : list val) (key : string) : Prop :=
  ∃ d field sub l e k, d ∈ docs ∧ is_dict d = true ∧ fld d "kind" = VStr "ExternalSecret" ∧
    (field, sub) ∈ [("data", "remoteRef"); ("dataFrom", "extract")] ∧
    get_list (dict_fld d "spec") field = Ok l ∧ e ∈ l ∧ fld (dict_fld e sub) "key" = VStr k ∧ k ≠ "" ∧ key = last_segment k.

Lemma entry_keys_elem field l ks v : flatM (entry_keys field) l = Ok ks →
  v ∈ ks ↔ ∃ e, e ∈ l ∧ v = fld (dict_fld e field) "key" ∧ truthy v = true.
Proof.
  intros H. rewrite (flatM_elem _ _ _ H v). split.
  - intros (e & r & He & Hr & Hv). apply bind_Ok in Hr as (x & ->%get_dict_is & Hr). apply bind_Ok in Hr as (k & ->%get_Ok & [= <-]).
    destruct (truthy _) eqn:E; [|by apply elem_of_nil in Hv]. apply list_elem_of_singleton in Hv as ->. by exists e.
  - intros (e & He & -> & Hv). destruct (flatM_Ok_elem _ _ _ _ H He) as [r Hr]. exists e, r. split_and!; [done|done|].
    apply bind_Ok in Hr as (x & ->%get_dict_is & Hr). apply bind_Ok in Hr as (k & ->%get_Ok & [= <-]). rewrite Hv. left.
Qed.

Lemma doc_keys_elem d l key : doc_keys d = Ok l → key ∈ l.*1 ↔ reads_key [d] key.
Proof.
  unfold doc_keys. intros H. split.
  - intros Hk. destruct (is_dict d) eqn:Ed; cbn [negb] in H; [|injection H as <-; by apply elem_of_nil in Hk].
    apply bind_Ok in H as (kind & ->%get_Ok & H). destruct (py_eq _ _) eqn:E; cbn [negb] in H;
      [|injection H as <-; by apply elem_of_nil in Hk]. apply py_eq_str_r in E.
    apply bind_Ok in H as (m & _ & H). apply bind_Ok in H as (n & _ & H). apply bind_Ok in H as (sp & ->%get_dict_is & H).
    apply bind_Ok in H as (data & Hdata & H). apply bind_Ok in H as (a & Ha & H).
    apply bind_Ok in H as (from & Hfrom & H). apply bind_Ok in H as (b & Hb & H).
    apply list_elem_of_fmap in Hk as ([key' name] & -> & Hk). destruct (mapR_elem _ _ _ _ H Hk) as (k & Hin & Hr).
    apply bind_Ok in Hr as (s & Hs & Hr). destruct k; try discriminate Hs. injection Hs as ->.
    destruct (hashable _); [|done]. injection Hr as <- _. cbn [fst].
    apply elem_of_app in Hin as [Hin|Hin]; [apply (entry_keys_elem _ _ _ _ Ha) in Hin|apply (entry_keys_elem _ _ _ _ Hb) in Hin];
      destruct Hin as (e & He & Hv & Ht); assert (s ≠ "") as Hne by (by intros ->).
    + exists d, "data", "remoteRef", data, e, s. split_and!; [left|done|done|left|done|done|done|done|done].
    + exists d, "dataFrom", "extract", from, e, s. split_and!; [left|done|done|right; left|done|done|done|done|done].
  - intros (d' & field & sub & r & e & k & Hd & Hdd & Hkind & Hf & Hr & He & Hk & Hne & ->).
    apply list_elem_of_singleton in Hd as ->. rewrite Hdd in H. cbn [negb] in H.
    apply bind_Ok in H as (kind & ->%get_Ok & H). rewrite Hkind in H. cbn in H.
    apply bind_Ok in H as (m & _ & H). apply bind_Ok in H as (n & _ & H). apply bind_Ok in H as (sp & ->%get_dict_is & H).
    apply bind_Ok in H as (data & Hdata & H). apply bind_Ok in H as (a & Ha & H).
    apply bind_Ok in H as (from & Hfrom & H). apply bind_Ok in H as (b & Hb & H).
    assert (VStr k ∈ a ++ b) as Hin.
    { assert (truthy (VStr k) = true) as Ht by (by destruct k). apply elem_of_app.
      repeat (apply elem_of_cons in Hf as [[= -> ->]|Hf]); [left|right|by apply elem_of_nil in Hf];
        [apply (entry_keys_elem _ _ _ _ Ha)|apply (entry_keys_elem _ _ _ _ Hb)]; exists e; rewrite Hk;
        (split_and!; [congruence|done|done]). }
    destruct (mapR_elem_2 _ _ _ _ H Hin) as ([key name] & Hy & Hr'). apply list_elem_of_fmap. exists (key, name). split; [|done].
    cbn in Hr'. destruct (hashable _); [|done]. by injection Hr' as <- _.
Qed.

Lemma remote_ref_keys_elem docs l key : _remote_ref_keys docs = Ok l → key ∈ l.*1 ↔ reads_key docs key.
Proof.
  intros H. split.
  - intros ([k n] & -> & Hin)%list_elem_of_fmap. apply (flatM_elem _ _ _ H) in Hin as (d & r & Hd & Hr & Hin).
    assert (k ∈ r.*1) as Hk by (apply list_elem_of_fmap; by exists (k, n)).
    apply (doc_keys_elem _ _ _ Hr) in Hk as (d' & f & s & r' & e & k' & Hd' & Hk). apply list_elem_of_singleton in Hd' as ->.
    by exists d, f, s, r', e, k'.
  - intros (d & f & s & r' & e & k' & Hd & Hk). destruct (flatM_Ok_elem _ _ _ _ H Hd) as [r Hr].
    assert (key ∈ r.*1) as Hin by (apply (doc_keys_elem _ _ _ Hr); exists d, f, s, r', e, k'; split; [left|done]).
    apply list_elem_of_fmap in Hin as ([k n] & -> & Hin). apply list_elem_of_fmap. exists (k, n). split; [done|].
    apply (flatM_elem _ _ _ H). by exists d, r.
Qed.

(** A field of a render names a Secret, by the key of the field. *)
Inductive names_secret : string → val → string → Prop :=
  | Name_plain k s : k ∈ ["secretName"; "existingSecret"] → names_secret k (VStr s) s
  | Name_ref k d s : k ∈ ["secretKeyRef"; "secretRef"] → fld (VDict d) "name" = VStr s → names_secret k (VDict d) s
  | Name_volume d s : por (fld (VDict d) "secretName") (fld (VDict d) "name") = VStr s → names_secret "secret" (VDict d) s
  | Name_list l e s : e ∈ l → is_dict e = true → fld e "name" = VStr s → names_secret "secrets" (VList l) s.
Definition mounts (docs : list val) (s : string) : Prop :=
  ∃ d m k v, d ∈ docs ∧ is_dict d = true ∧ inside d (VDict m) ∧ (k, v) ∈ m ∧ names_secret k v s.

Lemma name_str_elem v s : s ∈ name_str v → v = VStr s.
Proof.
  destruct v; cbn; try by intros ?%elem_of_nil. destruct (str_eqb _ _); [by intros ?%elem_of_nil|].
  by intros ->%list_elem_of_singleton.
Qed.
Lemma walk_sound node s : s ∈ walk node →
  ∃ m k v, inside node (VDict m) ∧ (k, v) ∈ m ∧ names_secret k v s.
Proof.
  induction node as [| | | |l IH|d IH] using val_nested_ind; cbn [walk]; try by intros ?%elem_of_nil.
  - intros (r & Hr & Hs)%elem_of_concat. apply list_elem_of_fmap in Hr as (x & -> & Hx).
    rewrite Forall_forall in IH. destruct (IH _ Hx Hs) as (m & k & v & Hi & Hm). exists m, k, v.
    split; [by eapply Inside_elem|done].
  - intros (r & Hr & Hs)%elem_of_concat. apply list_elem_of_fmap in Hr as ([k v] & -> & Hx). cbn [fst snd] in Hs.
    rewrite Forall_forall in IH. specialize (IH _ Hx). cbn [snd] in IH.
    assert (names_secret k v s → ∃ m k v, inside (VDict d) (VDict m) ∧ (k, v) ∈ m ∧ names_secret k v s) as Here.
    { intros Hn. exists d, k, v. split_and!; [constructor|done|done]. }
    destruct (str_mem k ["secretName"; "existingSecret"] && is_str v && truthy v) eqn:E1.
    { rewrite !andb_true_iff, str_mem_elem in E1. destruct E1 as [[Hk _] _]. apply name_str_elem in Hs as ->. by apply Here, Name_plain. }
    destruct (str_mem k ["secretKeyRef"; "secretRef"] && is_dict v) eqn:E2.
    { rewrite andb_true_iff, str_mem_elem in E2. destruct E2 as [Hk Hv]. destruct v; try done.
      apply name_str_elem in Hs. by apply Here, Name_ref. }
    destruct (str_eqb k "secret" && is_dict v) eqn:E3.
    { apply andb_true_iff in E3 as [->%str_eqb_eq Hv]. destruct v; try done. apply name_str_elem in Hs. by apply Here, Name_volume. }
    destruct (str_eqb k "secrets" && is_list v) eqn:E4.
    { apply andb_true_iff in E4 as [->%str_eqb_eq Hv]. destruct v; try done.
      apply elem_of_concat in Hs as (r & Hr & Hs). apply list_elem_of_fmap in Hr as (e & -> & He). unfold secrets_name in Hs.
      destruct (is_dict e) eqn:Ed; [|by apply elem_of_nil in Hs]. destruct (fld e "name") eqn:Ef; try by apply elem_of_nil in Hs.
      apply list_elem_of_singleton in Hs as ->. by apply Here, (Name_list _ e). }
    destruct (IH Hs) as (m & k' & v' & Hi & Hm). exists m, k', v'. split; [by eapply Inside_key|done].
Qed.
Lemma mounted_sound docs s : s ∈ _mounted_names docs → mounts docs s.
Proof.
  unfold _mounted_names. intros (r & Hr & Hs)%elem_of_concat. apply list_elem_of_fmap in Hr as (d & -> & Hd).
  apply list_elem_of_In, filter_In in Hd as [Hd Hdd]. apply walk_sound in Hs as (m & k & v & H).
  exists d, m, k, v. split; [by apply list_elem_of_In|done].
Qed.

(** ** The consistent contract *)

(** An entry of a table, by its name: the last one of the name *)
Definition entry_of (l : list (val * val)) (name : string) (e : val) : Prop := vdict_get (VStr name) l = Some e.
(** A consumer of an entry that no ExternalSecret reads: at least one target of
    the Makefile or a consumer elsewhere, and each target it names exists *)
Definition has_consumer (targets : list string) (e : val) : Prop :=
  ∃ cons, _consumers e = Ok cons ∧ (∀ g, g ∈ gates_of cons → g ∈ targets) ∧
    (gates_of cons ≠ [] ∨ ∃ c, c ∈ cons ∧ elsewhere c = true).

Lemma sorted_items_elem l k name e : sorted_items l = Ok k → entry_of l name e → (VStr name, e) ∈ k.
Proof.
  intros (ks & Hks & [= <-])%bind_Ok He. apply list_elem_of_omap. exists (VStr name). split.
  - apply py_sorted_elem in Hks. rewrite <- Hks, distinct_elem. unfold entry_of, vdict_get in He.
    destruct (find _ (rev l)) as [[n e']|] eqn:E; [|done]. apply find_some in E as [Hin Hn].
    apply py_eq_str_r in Hn. cbn in Hn. subst n. rewrite <- in_rev in Hin. apply list_elem_of_fmap. exists (VStr name, e').
    split; [done|by apply list_elem_of_In].
  - unfold entry_of in He. by rewrite He.
Qed.
Lemma drop_nil_filter {A} (p : A → bool) l : List.filter (λ x, negb (p x)) l = [] → ∀ x, x ∈ l → p x = true.
Proof.
  intros H x Hx. destruct (p x) eqn:E; [done|]. assert (x ∈ List.filter (λ x, negb (p x)) l) as Hin.
  { apply list_elem_of_In, filter_In. split; [by apply list_elem_of_In|by rewrite E]. }
  rewrite H in Hin. by apply elem_of_nil in Hin.
Qed.
Lemma consumer_nil consumed targets name e r : consumer consumed targets (VStr name, e) = Ok r →
  name ∈ consumed.*1 ∨ has_consumer targets e ∨ ∃ m, r = [Report "consumer" (VStr name) m].
Proof.
  unfold consumer. cbn [fst snd in_keys in_tuple]. destruct (str_mem name _) eqn:E; [left; by apply str_mem_elem|].
  intros (cons & Hc & H)%bind_Ok. right. cbn zeta in H. destruct (List.filter _ _) as [|g l] eqn:Eg.
  - destruct (nonempty _ || _) eqn:En; injection H as <-; [left|right; by eexists]. exists cons. split_and!; [done| |].
    + intros g Hg. apply str_mem_elem. by apply (drop_nil_filter (λ g, str_mem g targets) _ Eg).
    + apply orb_true_iff in En as [En|En]; [left; by destruct (gates_of cons)|right].
      apply existsb_elem_of in En as (c & Hc' & Hs). by exists c.
  - injection H as <-. right. by eexists.
Qed.
Lemma opprod_nil consumed mounted name e r : opprod consumed mounted (VStr name, e) = Ok r →
  name ∈ consumed.*1 ∨ name ∈ mounted ∨ (∃ cons c, _consumers e = Ok cons ∧ c ∈ cons ∧ elsewhere c = true) ∨
  ∃ m, r = [Report "opprod" (VStr name) m].
Proof.
  unfold opprod. cbn [fst snd in_keys in_tuple]. destruct (str_mem name consumed.*1) eqn:E; [left; by apply str_mem_elem|].
  destruct (str_mem name mounted) eqn:E2; [right; left; by apply str_mem_elem|]. cbn [orb].
  intros (cons & Hc & H)%bind_Ok. do 2 right. destruct (existsb _ _) eqn:En; injection H as <-; [left|right; by eexists].
  apply existsb_elem_of in En as (c & Hc' & Hs). by exists cons, c.
Qed.

(** An exemption for a report *)
Definition excused (t : tree) (assertion : string) (name : string) : Prop :=
  is_Some (alist_get (cat [assertion; ":"; name]) (load_exemptions (exempt_file t))).

Lemma contract_nil t : violations t = Ok ([], []) →
  ∃ c consumed rs, tables_of (contract_file t) = Ok c ∧ _remote_ref_keys (golden t) = Ok consumed ∧
    reports t c consumed = Ok rs ∧ consumed ≠ [] ∧ seed_keys (seed_file t) ≠ [] ∧
    (∀ a n m, Report a (VStr n) m ∈ rs → excused t a n) ∧
    (∀ e, e ∈ load_exemptions (exempt_file t) → ∃ r, r ∈ rs ∧ r_spec r = e.1).
Proof.
  unfold violations. intros (c & Hc & H)%bind_Ok. apply bind_Ok in H as (consumed & Hcon & H).
  destruct (negb _ || negb _) eqn:E; [done|]. apply orb_false_iff in E as [E1%negb_false_iff E2%negb_false_iff].
  apply bind_Ok in H as (rs & Hrs & H). injection H as Hf Hs.
  exists c, consumed, rs. split_and!; [done|done|done|by intros ->|by intros Hn; rewrite Hn in E2| |].
  - intros a n m Hin. apply fmap_nil_inv in Hf. apply (drop_nil_filter _ _ Hf) in Hin. by apply bool_decide_eq_true in Hin.
  - intros e He. set (used := map r_spec _) in Hs. destruct (str_mem e.1 used) eqn:E.
    + apply str_mem_elem, list_elem_of_fmap in E as (r & -> & Hr). apply list_elem_of_In, filter_In in Hr as [Hr _].
      exists r. split; [by apply list_elem_of_In|done].
    + exfalso. assert (EnvConsumed.stale_line e.1 e.2 ∈ sorted_strs (omap (λ e, if str_mem e.1 used then None
          else Some (EnvConsumed.stale_line e.1 e.2)) (load_exemptions (exempt_file t)))) as Hin.
      { apply sorted_strs_elem, list_elem_of_omap. exists e. split; [done|]. by rewrite E. }
      rewrite Hs in Hin. by apply elem_of_nil in Hin.
Qed.

Lemma flatM_report {A} (f : A → result (list report)) l rs x r :
  flatM f l = Ok rs → x ∈ l → (∀ y, f x = Ok y → r ∈ y) → r ∈ rs.
Proof.
  intros H Hx Hr. destruct (flatM_Ok_elem _ _ _ _ H Hx) as [y Hy]. apply (flatM_elem _ _ _ H). exists x, y.
  split_and!; [done|done|by apply Hr].
Qed.

(** C11: when check-secret-contract.py reports nothing, the contract is
    consistent in both directions, and the check read something.  Each backend
    key that an ExternalSecret of a render reads is declared.  Each entry whose
    producer is the seeder is minted by the seed table, and each minted key is
    declared.  Each backend entry is read by an ExternalSecret or has a consumer
    elsewhere, and each gate it names is a target of the Makefile.  Each Secret
    that an operator produces is read, mounted, or used elsewhere.  Else an
    exemption names the assertion and the entry, and each exemption names a
    failure that is there. *)
Theorem contract_is_consistent t :
  violations t = Ok ([], []) →
  ∃ c, tables_of (contract_file t) = Ok c ∧
    ((∃ key, reads_key (golden t) key) ∧ seed_keys (seed_file t) ≠ []) ∧
    (∀ key, reads_key (golden t) key → VStr key ∈ declared c ∨ excused t "forward" key) ∧
    (∀ name e, entry_of (backend c) name e → fld e "producer" = VStr "openbao-seeder" →
       name ∈ seed_keys (seed_file t) ∨ excused t "producer" name) ∧
    (∀ key, key ∈ seed_keys (seed_file t) → VStr key ∈ declared c ∨ excused t "viceversa" key) ∧
    (∀ name e, entry_of (backend c) name e →
       reads_key (golden t) name ∨ has_consumer (make_targets (makefile t)) e ∨ excused t "consumer" name) ∧
    (∀ name e, entry_of (ops c) name e →
       reads_key (golden t) name ∨ mounts (golden t) name ∨
       (∃ cons x, _consumers e = Ok cons ∧ x ∈ cons ∧ elsewhere x = true) ∨ excused t "opprod" name) ∧
    (∀ spec reason, (spec, reason) ∈ load_exemptions (exempt_file t) →
       ∃ consumed rs r, reports t c consumed = Ok rs ∧ r ∈ rs ∧ r_spec r = spec).
Proof.
  intros (c & consumed & rs & Hc & Hcon & Hrs & Hne & Hseed & Hok & Hused)%contract_nil.
  pose proof (λ key, remote_ref_keys_elem _ _ key Hcon) as Hkeys. exists c. split; [done|].
  pose proof Hrs as H. unfold reports in H.
  apply bind_Ok in H as (a & Ha & H). apply bind_Ok in H as (bs & Hbs & H). apply bind_Ok in H as (b & Hb & H).
  apply bind_Ok in H as (d & Hd & H). apply bind_Ok in H as (os & Hos & H). apply bind_Ok in H as (e & He & [= <-]).
  split_and!.
  - destruct consumed as [|[key n] l]; [done|]. exists key. apply Hkeys. left.
  - done.
  - intros key Hk. destruct (is_declared (declared c) key) eqn:E; [left; by apply existsb_py_eq_str|right].
    apply Hkeys in Hk. assert (key ∈ sorted_set consumed.*1) as Hin by by apply sorted_set_elem.
    destruct (flatM_Ok_elem _ _ _ _ Ha Hin) as [r Hr]. pose proof Hr as Hr'. unfold forward in Hr'. rewrite E in Hr'.
    apply bind_Ok in Hr' as (hs & _ & [= <-]). eapply Hok, elem_of_app. left. apply (flatM_elem _ _ _ Ha).
    eexists key, _. split_and!; [done|exact Hr|left].
  - intros name x Hx Hp. pose proof (sorted_items_elem _ _ _ _ Hbs Hx) as Hin.
    destruct (str_mem name (seed_keys (seed_file t))) eqn:E; [left; by apply str_mem_elem|right].
    eapply Hok, elem_of_app. right. apply elem_of_app. left. eapply flatM_report; [exact Hb|exact Hin|].
    intros y (p & ->%get_Ok & Hy)%bind_Ok. cbn [fst snd] in Hy. rewrite Hp in Hy. cbn in Hy. rewrite E in Hy.
    injection Hy as <-. left.
  - intros key Hk. destruct (is_declared (declared c) key) eqn:E; [left; by apply existsb_py_eq_str|right].
    eapply Hok, elem_of_app. right. apply elem_of_app. right. apply elem_of_app. left. apply elem_of_concat.
    exists (viceversa (declared c) key). split; [|unfold viceversa; rewrite E; left].
    apply list_elem_of_fmap. exists key. split; [done|]. by apply sorted_set_elem.
  - intros name x Hx. pose proof (sorted_items_elem _ _ _ _ Hbs Hx) as Hin.
    destruct (flatM_Ok_elem _ _ _ _ Hd Hin) as [r Hr]. destruct (consumer_nil _ _ _ _ _ Hr) as [Hr'|[Hr'|[m ->]]].
    + left. by apply Hkeys.
    + right. by left.
    + do 2 right. eapply Hok, elem_of_app. right. apply elem_of_app. right. apply elem_of_app. right.
      apply elem_of_app. left. eapply flatM_report; [exact Hd|exact Hin|]. intros y Hy. rewrite Hr in Hy. injection Hy as <-. left.
  - intros name x Hx. pose proof (sorted_items_elem _ _ _ _ Hos Hx) as Hin.
    destruct (flatM_Ok_elem _ _ _ _ He Hin) as [r Hr]. destruct (opprod_nil _ _ _ _ _ Hr) as [Hr'|[Hr'|[Hr'|[m ->]]]].
    + left. by apply Hkeys.
    + right. left. by apply mounted_sound.
    + right. right. by left.
    + do 3 right. eapply Hok. do 4 (apply elem_of_app; right). eapply flatM_report; [exact He|exact Hin|].
      intros y Hy. rewrite Hr in Hy. injection Hy as <-. left.
  - intros spec reason Hin. destruct (Hused _ Hin) as (r & Hr & Hs). eexists consumed, _, r. split_and!; [exact Hrs|exact Hr|exact Hs].
Qed.

Definition clean_tree : tree :=
  _fixture (VDict
    [("secrets", VList [entry "seeded" "openbao-seeder" []; entry "gated" "operator-supplied" ["chart-gate:window"]]);
     ("operator_produced", VList [entry "made" "cert-manager" ["runtime:x"]])])
    "seeded key:pw^late key:pw^" [_es "good" "seeded"] ["window"] (Some "viceversa:late its entry is in review^").
Lemma contract_is_consistent_witness :
  violations clean_tree = Ok ([], []) ∧
  ∃ c, tables_of (contract_file clean_tree) = Ok c ∧
    (VStr "late" ∈ declared c ∨ excused clean_tree "viceversa" "late") ∧
    ∃ consumed rs r, reports clean_tree c consumed = Ok rs ∧ r ∈ rs ∧ r_spec r = "viceversa:late".
Proof.
  assert (violations clean_tree = Ok ([], [])) as H by (vm_compute; reflexivity). split; [exact H|].
  destruct (contract_is_consistent clean_tree H) as (c & Hc & _ & _ & _ & H3 & _ & _ & H6). exists c. split_and!.
  - exact Hc.
  - apply H3. vm_compute. right; left.
  - apply (H6 _ "its entry is in review"). vm_compute. left.
Defined.
