(* ===== verification/AirgapImages.v ===== *)
(** * airgap/generate-image-list.py: the images an air-gapped install mirrors

    The images of every rendered profile, the catalog of the pinned release, and
    the two files that list them.  [helm], the GitHub API and the YAML parser are
    arguments; the files of the repository are a state that a run changes.  What
    a run writes, and what [--check] accepts, is at the end. *)
From stdpp Require Import sorting.
From S2P Require Import Prelude PyStr PyVal Regex Json.
From Stdlib Require Import Ascii.

(** ** [base64.b64decode] of the standard library *)

(** The value of a character of the alphabet *)
Definition b64_value (c : ascii) : option nat :=
  let n := nat_of_ascii c in
  if (65 <=? n) && (n <=? 90) then Some (n - 65)
  else if (97 <=? n) && (n <=? 122) then Some (n - 71)
  else if (48 <=? n) && (n <=? 57) then Some (n + 4)
  else if n =? 43 then Some 62 else if n =? 47 then Some 63 else None.
(** The loop over the characters: the position in the group of four, the bits
    that are left of the character before, and the number of pads.  A character
    outside of the alphabet is skipped; a group that ends early is an error. *)
Fixpoint b64_loop (quad left pads : nat) (s : string) : result string :=
  match s with
  | "" => if quad =? 0 then Ok "" else Raise ValueError
  | String c s =>
      if Ascii.eqb c "=" then
        if (2 <=? quad) && (4 <=? quad + S pads) then Ok ""
        else b64_loop quad left (if 2 <=? quad then S pads else pads) s
      else match b64_value c with
           | None => b64_loop quad left pads s
           | Some v =>
               match quad with
               | 0 => b64_loop 1 v 0 s
               | 1 => rmap (String (ascii_of_nat (left * 4 + v / 16))) (b64_loop 2 (v mod 16) 0 s)
               | 2 => rmap (String (ascii_of_nat (left * 16 + v / 4))) (b64_loop 3 (v mod 4) 0 s)
               | _ => rmap (String (ascii_of_nat (left * 64 + v))) (b64_loop 0 0 0 s)
               end
           end
  end%nat.
Definition b64decode (s : string) : result string := b64_loop 0 0 0 s.

(** ** The tables *)

Definition quote : string := String dquote "".
Definition text_of (l : list string) : string := cat (map (λ s, s +:+ newline) l).
Definition GIBSON_REPO : string := "zeroroot-ai/gibson".
Definition GIBSON_CATALOG_DIR : string := "internal/platform/componentcatalog/manifests".
Definition DEP_CHARTS : list string := ["helm/gibson-operators"; "helm/gibson-workloads"; "helm/gibson"; "helm/gibson-velero"].
Definition BASELINE : string := "helm/gibson/values-baseline.yaml".
Definition INPUTS : string := "helm/testdata/render-inputs/gibson.yaml".
Definition PROFILES : list (string * list string) :=
  [("self-hosted", [BASELINE; INPUTS]); ("eks", [BASELINE; INPUTS; "helm/gibson/values-eks.yaml"]);
   ("guest", [BASELINE; INPUTS; "helm/gibson/values-guest.yaml"])].
Definition NOTES : list (string * list (string * string)) :=
  [("ghcr.io/zeroroot-ai/gibson", [("role", "daemon (run/execute + platform RPCs)")]);
   ("ghcr.io/zeroroot-ai/dashboard", [("role", "web UI (Next.js)")]);
   ("ghcr.io/zeroroot-ai/ext-authz", [("role", "Envoy ext_authz (auth edge — DO NOT replace with Istio AuthZ)")]);
   ("ghcr.io/zeroroot-ai/tenant-operator", [("role", "tenant operator")]);
   ("ghcr.io/zeroroot-ai/platform-operator", [("role", "platform operator (Zitadel OIDC apps, FGA aggregate root)")]);
   ("ghcr.io/zeroroot-ai/docs-site", [("role", "customer documentation site")]);
   ("ghcr.io/zeroroot-ai/zitadel-login", [("role", "branded Login V2 fork (thin fork of ghcr.io/zitadel/zitadel-login)")]);
   ("ghcr.io/zeroroot-ai/setec", [("role", "setec microVM operator (untrusted-exec boundary)")]);
   ("ghcr.io/zeroroot-ai/setec-frontend", [("role", "setec frontend (daemon dispatch endpoint)")]);
   ("ghcr.io/zeroroot-ai/setec-launcher", [("role", "setec launcher (Firecracker machine of each sandbox)")]);
   ("ghcr.io/zeroroot-ai/setec-disk-builder", [("role", "setec disk builder (signed image disks)")]);
   ("ghcr.io/zeroroot-ai/setec-device-plugin", [("role", "setec KVM device plugin")]);
   ("ghcr.io/zeroroot-ai/setec-node-agent", [("role", "setec node agent (snapshots, off by default)")]);
   ("ghcr.io/zeroroot-ai/billing", [("role", "closed Stripe entitlements provider (OPTIONAL — bypassable on-prem)"); ("hardening", "closed seam; federal/air-gap typically disables billing (no-op provider)")]);
   ("ghcr.io/zeroroot-ai/mirror/envoy", [("role", "edge proxy (auth chain)")]);
   ("ghcr.io/zeroroot-ai/mirror/ratelimit", [("role", "shared per-client edge quota service")]);
   ("ghcr.io/zeroroot-ai/mirror/coraza-proxy-wasm", [("role", "Edge WAF module: Coraza + OWASP CRS as an Envoy WASM filter")]);
   ("ghcr.io/zeroroot-ai/mirror/alpine-k8s", [("role", "kubectl/curl/jq job + init tooling")]);
   ("ghcr.io/zeroroot-ai/mirror/kubectl", [("role", "kubectl for hook Jobs and helm tests")]);
   ("ghcr.io/zeroroot-ai/mirror/alpine", [("role", "shell base for init containers")]);
   ("ghcr.io/zeroroot-ai/mirror/busybox", [("role", "shell base for wait-for init containers")]);
   ("ghcr.io/zeroroot-ai/mirror/curl", [("role", "probe/wait-for tooling")]);
   ("ghcr.io/zeroroot-ai/mirror/neo4j", [("role", "graph store of each tenant data plane (the tenant operator deploys it, TENANT_NEO4J_IMAGE)")]);
   ("ghcr.io/zeroroot-ai/mirror/bitnami-postgresql", [("role", "psql client for setup Jobs")]);
   ("ghcr.io/zeroroot-ai/mirror/redis", [("role", "redis CLI for setup Jobs and helm tests")]);
   ("ghcr.io/zeroroot-ai/mirror/redis-stack-server", [("role", "Redis (RediSearch catalog/vector store)")]);
   ("ghcr.io/zeroroot-ai/mirror/redis-exporter", [("role", "Redis metrics exporter")]);
   ("ghcr.io/zeroroot-ai/mirror/openfga", [("role", "OpenFGA authz")]);
   ("ghcr.io/zeroroot-ai/mirror/openbao", [("role", "OpenBao (per-tenant secrets / static seal)")]);
   ("ghcr.io/zeroroot-ai/mirror/wait4x", [("role", "zitadel login readiness init container")]);
   ("ghcr.io/zeroroot-ai/mirror/aws-cli", [("role", "Redis backup CronJob")]);
   ("ghcr.io/zeroroot-ai/mirror/jaeger-all-in-one", [("role", "tracing (optional)")]);
   ("ghcr.io/zeroroot-ai/mirror/prometheus", [("role", "metrics (optional)")]);
   ("ghcr.io/zeroroot-ai/mirror/grafana", [("role", "dashboards (optional)")]);
   ("ghcr.io/zeroroot-ai/mirror/loki", [("role", "logs (optional)")]);
   ("ghcr.io/zeroroot-ai/mirror/promtail", [("role", "log shipping (optional)")]);
   ("ghcr.io/zeroroot-ai/mirror/stripe-mock", [("role", "Stripe mock"); ("hardening", "DEV/TEST ONLY — exclude from a federal mirror")]);
   ("ghcr.io/zeroroot-ai/mirror/mailpit", [("role", "SMTP capture"); ("hardening", "DEV/TEST ONLY — exclude from a federal mirror")]);
   ("ghcr.io/zeroroot-ai/gibson-executor", [("role", "tool runner: one image hosting every CLI parser (nmap, nuclei, trivy, ...)")]);
   ("ghcr.io/zeroroot-ai/cve-triage", [("role", "CVE triage agent")]);
   ("ghcr.io/zeroroot-ai/zerocool-agent", [("role", "zerocool sandbox agent (opencode)")]);
   ("ghcr.io/zeroroot-ai/zerocool-claude-agent", [("role", "zerocool sandbox agent (Claude Code)"); ("hardening", "needs api.anthropic.com or a claude.ai login at run time; no in-perimeter option")]);
   ("ghcr.io/stackloklabs/osv-mcp/server", [("role", "OSV MCP server (connector: osv)")]);
   ("ghcr.io/zitadel/zitadel", [("role", "Zitadel IdP (core)")]);
   ("ghcr.io/spiffe/spire-server", [("role", "SPIRE server (SVID issuance)")]);
   ("ghcr.io/spiffe/spire-agent", [("role", "SPIRE agent")]);
   ("ghcr.io/spiffe/spire-controller-manager", [("role", "SPIRE controller manager")]);
   ("ghcr.io/spiffe/spiffe-helper", [("role", "SVID sidecar helper")]);
   ("ghcr.io/spiffe/spiffe-csi-driver", [("role", "SPIFFE workload API CSI driver")]);
   ("ghcr.io/spiffe/oidc-discovery-provider", [("role", "SPIRE OIDC discovery (JWKS for OpenBao)")]);
   ("ghcr.io/stakater/reloader", [("role", "configmap/secret reloader")]);
   ("ghcr.io/cloudnative-pg/cloudnative-pg", [("role", "CloudNativePG operator")]);
   ("registry.k8s.io/sig-storage/csi-node-driver-registrar", [("role", "CSI node driver registrar (spire csi-driver dependency)")]);
   ("docker.io/smallstep/step-cli", [("role", "spire chart helm-test hook"); ("hardening", "helm test only — not a runtime workload")]);
   ("busybox", [("role", "spire chart helm-test hook"); ("hardening", "helm test only — not a runtime workload")]);
   ("cgr.dev/chainguard/bash", [("role", "spire chart helm-test hook"); ("hardening", "helm test only — not a runtime workload")]);
   ("cgr.dev/chainguard/min-toolkit-debug", [("role", "spire chart helm-test hook"); ("hardening", "helm test only — not a runtime workload")])].
Definition MUTABLE_TAGS : list string := ["latest"; "main"; "master"; "edge"; "stable"].
Definition EXCLUSIONS : string := text_of
  ["# DELIBERATELY ABSENT — checked, not forgotten:";
   "#";
   "#   ghcr.io/zeroroot-ai/{billing,www}";
   "#       SaaS-only. They ship in helm/saas-overlay/*, which an air-gapped";
   "#       install does not deploy — it deploys the umbrella chart only. billing";
   "#       is the closed seam and is bypassable on-prem (no-op provider); www is";
   "#       absent from any self-hosted install by design.";
   "#";
   "#   ghcr.io/zeroroot-ai/internal-authz-registry";
   "#       An OCI artifact, not a runtime image, and the air-gap path does not";
   "#       fetch it: the default path reads the registry from the daemon over";
   "#       mTLS, and an air-gapped install uses sdk.bypassRegistryValidation +";
   "#       sdk.embeddedRegistry (a mounted ConfigMap)."].
Definition HEADER_TXT : string := text_of
  ["# Flat air-gap mirror list for the Gibson umbrella chart.";
   "#";
   "# GENERATED — do not hand-edit. Regenerate with:";
   "#     ./airgap/generate-image-list.py";
   "# CI (`airgap-image-list`) fails the build when this file is stale, because a";
   "# hand-maintained copy of a rendered artifact always drifts, and it drifts";
   "# invisibly: the failure lands in a disconnected customer environment";
   "# (deploy#1171).";
   "#";
   "# Derived from `helm template` over EVERY ci/ profile (staging, saas,";
   "# self-hosted), so the list is a superset — a mirror that omits an image";
   "# because one profile does not use it breaks the next profile.";
   "#";
   "# Digests are NOT resolved here. Almost every image is private now";
   "# (ghcr.io/zeroroot-ai/*, mirror included), so pinning needs registry auth:";
   "# run `./resolve-digests.sh` after `docker login ghcr.io` at mirror time.";
   "#";
   "# The dispatchTime group is not rendered by the chart: it is read from the";
   "# daemon's component catalog (zeroroot-ai/gibson, see gibson-catalog.ref),";
   "# because setec pulls those images at dispatch time, not at install time.";
   "#";
   "# Mirror loop. `cosign copy` moves the signature alongside the image, which";
   "# `crane copy` does not, so an air-gapped verifier can still check it:";
   cat ["#   while read -r img; do [ "; quote; "${img#\#}"; quote; " = "; quote; "$img"; quote; " ] || continue"];
   cat ["#     cosign copy "; quote; "$img"; quote; " "; quote; "registry.il.example.mil/${img#*/}"; quote; "; done < images.txt"];
   "#"] +:+ EXCLUSIONS.
Definition HEADER_YAML : string := text_of
  ["---";
   "# Structured air-gap image manifest for the Gibson umbrella chart.";
   "#";
   "# GENERATED — do not hand-edit. Regenerate with:";
   "#     ./airgap/generate-image-list.py";
   "# CI (`airgap-image-list`) fails the build when this file is stale";
   "# (deploy#1171).";
   "#";
   "# `role` and `hardening` are prose and cannot be derived from a render, so they";
   "# come from the NOTES table in the generator. The SET of images is derived: an";
   "# image with no note still appears here, with an empty role, which reads as a";
   "# prompt rather than as a silent omission.";
   "#";
   "# digest: intentionally empty. Almost every image is private, so pinning needs";
   "# registry auth — run ./resolve-digests.sh at mirror time.";
   "#";
   "# The dispatchTime group is not rendered by the chart: it is read from the";
   "# daemon's component catalog (zeroroot-ai/gibson, see gibson-catalog.ref),";
   "# because setec pulls those images at dispatch time, not at install time.";
   "#"] +:+ EXCLUSIONS.
Definition SECTION_TITLES : list (string * string) :=
  [("firstParty", "First-party platform images (private; ELv2 + the closed billing seam).");
   ("mirrored", str_join newline ["Re-mirrored upstreams under ghcr.io/zeroroot-ai/mirror (private)."; "# Upstream sources live in zeroroot-ai/.github :: mirror-list.yaml — mirror"; "# from there when standing up a fresh pull-through mirror."]);
   ("thirdParty", str_join newline ["Third-party images pulled directly by subcharts (public upstream)."; "# The SPIRE/SPIFFE entries ARE the platform auth edge preserved by this"; "# package — they are not replaced by Istio."]);
   ("dispatchTime", str_join newline ["Dispatch-time images (private first-party plus one public upstream)."; "# Named by the daemon's component catalog, pulled by setec when a mission"; "# dispatches a tool, an agent or a connector. Absent from every render."])].
Definition GROUP_ORDER : list string := ["firstParty"; "mirrored"; "thirdParty"; "dispatchTime"].

(** ** The references *)

Definition IMAGE_LINE_RX : regex :=
  RSeq [RPlus (RChr is_space); ROpt (RCat (RStr "-") (RPlus (RChr is_space))); RAlt (RStr "image") (RStr "customImage"); RStr ":";
        RSpaces; ROpt (RStr quote); RGroup 1 (RPlus (RChr (λ c, negb (is_space c) && negb (Ascii.eqb c dquote)))); ROpt (RStr quote);
        RSpaces; REnd].
Definition MIRROR : string := "ghcr.io/zeroroot-ai/mirror/".
Definition FIRST_PARTY : string := "ghcr.io/zeroroot-ai/".

(** The text before the first character of the class *)
Fixpoint until (f : ascii → bool) (s : string) : string :=
  match s with "" => "" | String c s => if f c then "" else String c (until f s) end.
Definition repo_of (ref : string) : string := if startswith ref "sha256" then ref else until (in_chars ":@") ref.
Definition tag_of (ref : string) : string :=
  let body := until (Ascii.eqb "@") ref in
  match rsplit1 ":" body with Some (_, tail) => if contains "/" tail then "" else tail | None => "" end.
Definition classify (repo : string) : string :=
  if startswith repo FIRST_PARTY && negb (startswith repo MIRROR) then "firstParty"
  else if startswith repo MIRROR then "mirrored" else "thirdParty".

(** [found.setdefault(repo_of(ref), set()).add(ref)] *)
Definition by_repo : Type := list (string * list string).
Definition add_ref (found : by_repo) (ref : string) : by_repo :=
  let old := default [] (alist_get (repo_of ref) found) in
  alist_set (repo_of ref) (if str_mem ref old then old else old ++ [ref]) found.
Definition line_ref (line : string) : option string := (λ m, group_text m 1) <$> re_match IMAGE_LINE_RX line.
(** The references of the [image:] lines of a text *)
Definition line_images (text : string) : list string := omap line_ref (splitlines text).
Definition templated (ref : string) : bool := contains "{{" ref.

(** [ENV_IMAGE_NAME_RX], [ARG_IMAGE_RX] and [IMAGE_REF_RX] match from the start *)
Definition ENV_IMAGE_NAME_RX : regex :=
  RSeq [RPlus (RChr (λ c, (is_alpha c && negb (is_lower c)) || is_digit c || Ascii.eqb c "_")); RStr "_IMAGE"; REnd].
Definition ARG_IMAGE_RX : regex :=
  RSeq [RStr "--"; RPlus (RChr (λ c, is_lower c || is_digit c || Ascii.eqb c "-")); RStr "-image=";
        RGroup 1 (RPlus (RChr (λ c, negb (is_space c)))); REnd].
Definition hex_digit_char (c : ascii) : bool := is_digit c || let n := nat_of_ascii c in (97 <=? n) && (n <=? 102).
Definition IMAGE_REF_RX : regex :=
  RSeq [RStr "ghcr.io/"; RPlus (RChr (λ c, negb (is_space c) && not_chars ":@" c));
        ROpt (RCat (RStr ":") (RPlus (RChr (λ c, negb (is_space c) && not_chars "@" c))));
        ROpt (RCat (RStr "@sha256:") (RRep 64 (RChr hex_digit_char))); REnd].
Definition matches (r : regex) (s : string) : bool := bool_decide (is_Some (re_match r s)).

(** What one node of a document names *)
Definition env_ref (node : val) : list string :=
  match fld node "name", fld node "value" with
  | VStr name, VStr value => if matches ENV_IMAGE_NAME_RX name && matches IMAGE_REF_RX value then [value] else []
  | _, _ => []
  end.
Definition arg_ref (item : val) : list string :=
  match item with
  | VStr s => match re_match ARG_IMAGE_RX s with
              | Some m => if matches IMAGE_REF_RX (group_text m 1) then [group_text m 1] else []
              | None => []
              end
  | _ => []
  end.
Definition node_refs (node : val) : list string :=
  match node with VDict _ => env_ref node | VList l => concat (map arg_ref l) | _ => [] end.
Definition children (node : val) : list val := match node with VDict d => d.*2 | VList l => l | _ => [] end.
(** [while stack]: the stack with its top first; the source pops the last one *)
Fixpoint walk_stack (n : nat) (stack : list val) (refs : list string) : result (list string) :=
  match stack with
  | [] => Ok refs
  | node :: stack =>
      match n with
      | O => Raise OutOfFuel
      | S n => walk_stack n (rev (children node) ++ stack) (refs ++ node_refs node)
      end
  end.
Fixpoint nodes (v : val) : nat :=
  match v with
  | VDict d => S (sum_list (map (λ kv, nodes kv.2) d))
  | VList l => S (sum_list (map nodes l))
  | _ => 1
  end.

Definition GIBSON_IMAGE_REPO : string := "ghcr.io/zeroroot-ai/gibson".
Definition RELEASE_TAG_RX : regex :=
  let num := RPlus (RChr is_digit) in RSeq [RStr "v"; num; RStr "."; num; RStr "."; num; REnd].
Definition pinned_gibson_tag (found : by_repo) : result string :=
  let tags := sorted_set (map tag_of (default [] (alist_get GIBSON_IMAGE_REPO found))) in
  if negb (nonempty tags)
  then Raise (SystemExit (cat ["the render pins no "; GIBSON_IMAGE_REPO; " image, so no catalog release is known"])) else
  let bad := sorted_strs (map (λ t, if str_eqb t "" then "(no tag)" else t) (List.filter (λ t, negb (matches RELEASE_TAG_RX t)) tags)) in
  if nonempty bad
  then Raise (SystemExit (cat [GIBSON_IMAGE_REPO; " is pinned by "; str_of_strs bad; ", not by a release tag vX.Y.Z: ";
                               "the catalog is read at the pinned release only"])) else
  match tags with
  | [t] => Ok t
  | _ => Raise (SystemExit (cat [GIBSON_IMAGE_REPO; " is pinned at "; str_of_strs tags; " across the profiles: ";
                                 "the catalog has one release, so the pin must be one tag"]))
  end.
Definition catalog_ref_problems (committed : string) (pinned_tag : string) (pinned_commit : val) : list string :=
  if py_eq (VStr committed) pinned_commit then []
  else [cat ["airgap/gibson-catalog.ref is "; committed; ", and the chart pins gibson "; pinned_tag; " at "; py_str pinned_commit;
             ": the dispatch-time images must come from the catalog of the pinned release, never from another commit such as gibson main"]].

(** ** The two lists *)

Definition groups_type : Type := list (string * list string).
Definition note_of (ref : string) : list (string * string) := default [] (alist_get (repo_of ref) NOTES).
Definition group_of (kind : string) (groups : groups_type) : list string := default [] (alist_get kind groups).
Definition chart_ref (version : val) : string := cat ["ghcr.io/zeroroot-ai/charts/gibson:"; py_str version].
Definition title_of (kind : string) : string := "# " +:+ default "" (alist_get kind SECTION_TITLES).

Definition txt_entry (ref : string) : list string :=
  match alist_get "hardening" (note_of ref) with Some h => ["# " +:+ h; ref] | None => [ref] end.
(** The [replace] of the title puts back the text that it takes out. *)
Definition txt_group (groups : groups_type) (kind : string) : list string :=
  match group_of kind groups with [] => [] | refs => title_of kind :: concat (map txt_entry refs) ++ [""] end.
Definition finished (l : list string) : string := rstrip_of is_space (str_join newline l) +:+ newline.
Definition build_txt (version : val) (groups : groups_type) : string :=
  finished ([HEADER_TXT; ""; "# Helm OCI chart (the deployable artifact)"; chart_ref version; ""] ++
            concat (map (txt_group groups) GROUP_ORDER)).

Definition hardening_of (ref : string) : string :=
  let h := default "" (alist_get "hardening" (note_of ref)) in
  if (str_mem (tag_of ref) MUTABLE_TAGS || str_eqb (tag_of ref) "") && negb (contains "@sha256:" ref) && negb (contains "MUTABLE" h)
  then let shown := if str_eqb (tag_of ref) "" then "latest (no tag given)" else tag_of ref in
       let mutable := cat ["MUTABLE TAG `:"; shown; "` — a federal build MUST pin a digest"] in
       if str_eqb h "" then mutable else cat [h; "; "; mutable]
  else h.
Definition yaml_entry (ref : string) : list string :=
  ["  - ref: " +:+ ref; "    digest: " +:+ quote +:+ quote;
   cat ["    role: "; quote; default "" (alist_get "role" (note_of ref)); quote]] ++
  (if str_eqb (hardening_of ref) "" then [] else [cat ["    hardening: "; quote; hardening_of ref; quote]]).
Definition yaml_group (groups : groups_type) (kind : string) : list string :=
  match group_of kind groups with
  | [] => []
  | refs => ""%string :: title_of kind :: (kind +:+ ":") :: concat (map yaml_entry refs)
  end.
Definition build_yaml (version : val) (groups : groups_type) (catalog_ref : val) : string :=
  finished ([HEADER_YAML; ""; "chart:"; "  - ref: " +:+ chart_ref version; "    digest: " +:+ quote +:+ quote;
             "    role: umbrella-helm-chart"; ""; "# The gibson commit whose component catalog the dispatchTime group is";
             "# derived from (airgap/gibson-catalog.ref)."; "gibsonCatalogRef: " +:+ py_str catalog_ref] ++
            concat (map (yaml_group groups) GROUP_ORDER)).

(** [groups.setdefault(kind, []).extend(refs)] *)
Definition extend (groups : groups_type) (kind : string) (refs : list string) : groups_type :=
  alist_set kind (group_of kind groups ++ refs) groups.
Definition groups_from (found catalog : by_repo) : groups_type :=
  let g := foldl (λ g e, extend g (classify e.1) (sorted_strs e.2)) [] found in
  let g := foldl (λ g e, extend g "dispatchTime" (sorted_strs e.2)) g catalog in
  map (prod_map id sorted_set) g.

(** ** The run *)

Record files := Files { manifest : string; catalog_ref_file : option string; images_txt : option string; images_yaml : option string }.
Definition read_text (f : option string) : result string := match f with Some t => Ok t | None => Raise OSError end.

Section run.
Context (run : list string → result string) (github_get : string → result string)
        (safe_load_all : string → result (list val)).

Definition chart_version (fs : files) : result val := v <- json_loads (manifest fs) ;; item v ".".
Definition build_dependencies : result unit :=
  rmap (λ _, tt) (mapR (λ chart, run ["scripts/helm-dep-update.sh"; chart]) DEP_CHARTS).

Definition env_images (rendered : string) : result (list string) :=
  docs <- safe_load_all rendered ;;
  flatM (λ doc, walk_stack (nodes doc) [doc] []) (List.filter is_dict docs).
(** The references of one render: its [image:] lines that are no template, then
    the ones that a workload starts from an env var or a flag *)
Definition rendered_refs (out : string) : result (list string) :=
  e <- env_images out ;; Ok (List.filter (λ r, negb (templated r)) (line_images out) ++ e).
Definition profile_command (values : list string) : list string :=
  ["helm"; "template"; "gibson"; "helm/gibson"] ++ concat (map (λ v, ["--values"; v]) values) ++ ["--namespace"; "gibson"; "--include-crds"].
Definition velero_command : list string :=
  ["helm"; "template"; "gibson-velero"; "helm/gibson-velero"; "--namespace"; "gibson";
   "--values"; "helm/testdata/render-inputs/gibson-velero.yaml"; "--include-crds"].
Definition commands : list (list string) := map (λ p, profile_command p.2) PROFILES ++ [velero_command].
Definition render_images : result by_repo :=
  foldM (λ found cmd, out <- run cmd ;; refs <- rendered_refs out ;; Ok (foldl add_ref found refs)) [] commands.

Definition tag_commit (tag : string) : result val :=
  body <- github_get (cat ["/repos/"; GIBSON_REPO; "/commits/"; tag]) ;; data <- json_loads body ;; item data "sha".
Definition catalog_path (name ref : val) : string :=
  cat ["/repos/"; GIBSON_REPO; "/contents/"; GIBSON_CATALOG_DIR; "/"; py_str name; "?ref="; py_str ref].
Definition catalog_entry (ref entry : val) : result (list string) :=
  name <- item entry "name" ;; n <- as_str name ;;
  if negb (endswith n ".yaml") then Ok [] else
  body <- github_get (catalog_path name ref) ;; raw <- json_loads body ;;
  content <- item raw "content" ;; c <- as_str content ;; text <- b64decode c ;; Ok (line_images text).
Definition catalog_images (ref : val) : result by_repo :=
  body <- github_get (cat ["/repos/"; GIBSON_REPO; "/contents/"; GIBSON_CATALOG_DIR; "?ref="; py_str ref]) ;;
  listing <- json_loads body ;; entries <- py_iter listing ;;
  refs <- flatM (catalog_entry ref) entries ;;
  match foldl add_ref [] refs with
  | [] => Raise (SystemExit (cat ["no image references found in "; GIBSON_REPO; "@"; py_str ref; ":"; GIBSON_CATALOG_DIR]))
  | found => Ok found
  end.

Definition HEX40 : regex := RRep 40 (RChr hex_digit_char).
Definition committed_catalog_ref (fs : files) : result string :=
  match catalog_ref_file fs with
  | None => Raise (SystemExit "airgap/gibson-catalog.ref is missing; run without --check to create it")
  | Some text =>
      let ref := strip text in
      if bool_decide (is_Some (re_fullmatch HEX40 ref)) then Ok ref
      else Raise (SystemExit (cat ["airgap/gibson-catalog.ref must hold one 40-hex commit sha, got "; repr_str ref]))
  end.

Definition generate (fs : files) (found : by_repo) (catalog_ref : val) : result (string * string) :=
  version <- chart_version fs ;; catalog <- catalog_images catalog_ref ;;
  let groups := groups_from found catalog in
  Ok (build_txt version groups, build_yaml version groups catalog_ref).

(** The part of [main] before it reads or writes a file: the images, the pinned
    tag and its commit *)
Definition pinned (skip_deps : bool) : result (by_repo * string * val) :=
  _ <- (if skip_deps then Ok tt else build_dependencies) ;;
  found <- render_images ;; tag <- pinned_gibson_tag found ;; commit <- tag_commit tag ;; Ok (found, tag, commit).
Definition main_check (skip_deps : bool) (fs : files) : result Z :=
  '(found, tag, commit) <- pinned skip_deps ;;
  committed <- committed_catalog_ref fs ;;
  if nonempty (catalog_ref_problems committed tag commit) then Ok 1%Z else
  want <- generate fs found commit ;;
  txt <- read_text (images_txt fs) ;; yml <- read_text (images_yaml fs) ;;
  Ok (if str_eqb txt want.1 && str_eqb yml want.2 then 0%Z else 1%Z).
(** A run without [--check]: the files after it, also when it stops *)
Definition main_write (skip_deps : bool) (fs : files) : files * result Z :=
  match pinned skip_deps with
  | Raise e => (fs, Raise e)
  | Ok (found, _, commit) =>
      match commit with
      | VStr sha =>
          let fs := Files (manifest fs) (Some (sha +:+ newline)) (images_txt fs) (images_yaml fs) in
          match generate fs found commit with
          | Raise e => (fs, Raise e)
          | Ok (txt, yml) => (Files (manifest fs) (catalog_ref_file fs) (Some txt) (Some yml), Ok 0%Z)
          end
      | _ => (fs, Raise TypeError)
      end
  end.
Definition main (check skip_deps : bool) (fs : files) : files * result Z :=
  if check then (fs, main_check skip_deps fs) else main_write skip_deps fs.
End run.

(** ** The self-test *)

Definition sha_of (head : string) : string := head +:+ cat (replicate 32 "0").
Definition digest_a : string := "@sha256:" +:+ cat (replicate 64 "a").
Definition gibson_refs (l : list string) : by_repo := [(GIBSON_IMAGE_REPO, map (λ s, GIBSON_IMAGE_REPO +:+ s) l)].
Definition refused (found : by_repo) : bool := match pinned_gibson_tag found with Raise (SystemExit _) => true | _ => false end.
Definition selftest : Z :=
  let tag := "v0.160.2" in let main_sha := sha_of "6507c43f" in let tag_sha := sha_of "071ec72d" in
  let ok :=
    bool_decide (pinned_gibson_tag (gibson_refs [cat [":"; tag; digest_a]]) = Ok tag) &&
    refused (gibson_refs [":v0.160.1"; ":v0.160.2"]) && refused (gibson_refs [digest_a]) && refused (gibson_refs [":main"]) &&
    refused [] &&
    negb (nonempty (catalog_ref_problems tag_sha tag (VStr tag_sha))) &&
    nonempty (catalog_ref_problems main_sha tag (VStr tag_sha)) in
  if ok then 0%Z else 1%Z.
Lemma airgap_selftest : selftest = 0%Z.
Proof. vm_compute. reflexivity. Qed.

(** ** The walk over a document *)

Lemma sum_list_app (a b : list nat) : sum_list (a ++ b) = (sum_list a + sum_list b)%nat.
Proof. induction a as [|x a IH]; cbn; [done|]. rewrite IH. lia. Qed.
Lemma nodes_pos v : (1 ≤ nodes v)%nat.
Proof. destruct v; cbn; lia. Qed.
Lemma sum_nodes_rev l : sum_list (map nodes (rev l)) = sum_list (map nodes l).
Proof. rewrite map_rev. induction (map nodes l) as [|x k IH]; cbn; [done|]. rewrite sum_list_app. cbn. lia. Qed.
Lemma nodes_children v : nodes v = S (sum_list (map nodes (children v))).
Proof. destruct v; cbn; try done. f_equal. f_equal. induction d as [|kv d IH]; cbn; [done|]. by rewrite IH. Qed.

(** A node below another one is that node or is below a child of it. *)
Lemma inside_children v x : inside v x ↔ x = v ∨ ∃ y, y ∈ children v ∧ inside y x.
Proof.
  split.
  - destruct 1 as [|x d k y Hy H|x l y Hy H]; [by left| |]; right; exists y; (split; [|done]); cbn; [|done].
    apply list_elem_of_fmap. by exists (k, y).
  - intros [->|(y & Hy & H)]; [constructor|]. destruct v; cbn in Hy; try by apply elem_of_nil in Hy.
    + by eapply Inside_elem.
    + apply list_elem_of_fmap in Hy as ([k y'] & -> & Hy). by eapply Inside_key.
Qed.

Lemma walk_stack_ok n stack refs : (sum_list (map nodes stack) ≤ n)%nat →
  ∃ out, walk_stack n stack refs = Ok out ∧
    ∀ r, r ∈ out ↔ r ∈ refs ∨ ∃ v x, v ∈ stack ∧ inside v x ∧ r ∈ node_refs x.
Proof.
  revert stack refs. induction n as [|n IH]; intros [|v stack] refs Hn.
  - exists refs. split; [done|]. set_solver.
  - cbn in Hn. pose proof (nodes_pos v). lia.
  - exists refs. split; [done|]. set_solver.
  - cbn [walk_stack]. destruct (IH (rev (children v) ++ stack) (refs ++ node_refs v)) as (out & Hout & Hiff).
    { cbn in Hn. rewrite nodes_children in Hn. rewrite map_app, sum_list_app, sum_nodes_rev. lia. }
    exists out. split; [done|]. intros r. rewrite Hiff, elem_of_app. split.
    + intros [[Hr|Hr]|(y & x & Hy & Hx & Hr)]; [by left| |].
      * right. exists v, v. split_and!; [left|constructor|done].
      * right. apply elem_of_app in Hy as [Hy|Hy].
        -- exists v, x. split_and!; [left| |done]. apply inside_children. right. exists y. split; [|done].
           apply list_elem_of_In. apply in_rev. by apply list_elem_of_In.
        -- exists y, x. split_and!; [by right|done|done].
    + intros [Hr|(y & x & Hy & Hx & Hr)]; [by left; left|].
      apply elem_of_cons in Hy as [->|Hy]; [|right; exists y, x; split_and!; [apply elem_of_app; by right|done|done]].
      apply inside_children in Hx as [->|(z & Hz & Hx)]; [by left; right|]. right. exists z, x. split_and!; [|done|done].
      apply elem_of_app. left. apply list_elem_of_In, in_rev. rewrite rev_involutive. by apply list_elem_of_In.
Qed.

(** ** The lines of a list *)

Definition lines (s : string) : list string := str_split s newline.
(** The lines that name an image: not blank, and no comment *)
Definition is_listed (line : string) : bool := negb (str_eqb line "") && negb (startswith line "#").
Definition listed (txt : string) : list string := List.filter is_listed (splitlines txt).
(** No white space at the end *)
Definition tidy (line : string) : bool := str_eqb (rstrip_of is_space line) line.

Lemma rstrip_cons f c s : rstrip_of f (String c s) =
  match rstrip_of f s with "" => if f c then "" else String c "" | t => String c t end.
Proof. done. Qed.
Lemma rstrip_space f x c : f c = true → rstrip_of f (x +:+ String c "") = rstrip_of f x.
Proof.
  intros Hc. induction x as [|d x IH]; [simpl; by rewrite Hc|].
  change (String d x +:+ String c "") with (String d (x +:+ String c "")). by rewrite !rstrip_cons, IH.
Qed.
Lemma rstrip_newline x : rstrip_of is_space (x +:+ newline) = rstrip_of is_space x.
Proof. by apply rstrip_space. Qed.
Lemma rstrip_tidy x l : tidy l = true → l ≠ "" → rstrip_of is_space (x +:+ l) = x +:+ l.
Proof.
  intros Hl%str_eqb_eq Hne. induction x as [|d x IH]; [done|].
  change (String d x +:+ l) with (String d (x +:+ l)). rewrite rstrip_cons, IH.
  destruct (x +:+ l) eqn:E; [|done]. destruct x; [by destruct l|done].
Qed.

Lemma lines_app s t : lines (s +:+ newline +:+ t) = lines s ++ lines t.
Proof. apply (str_split_app "010"). Qed.
Lemma lines_join L : L ≠ [] → lines (str_join newline L) = concat (map lines L).
Proof.
  induction L as [|s [|t L] IH]; [done| |]; intros _; [cbn; by rewrite app_nil_r|].
  change (str_join newline (s :: t :: L)) with (s +:+ newline +:+ str_join newline (t :: L)).
  rewrite lines_app, IH by done. done.
Qed.
Lemma splitlines_end s : s ≠ "" → splitlines (s +:+ newline) = lines s.
Proof.
  intros Hs. unfold splitlines. destruct (s +:+ newline) eqn:E; [destruct s; done|]. rewrite <- E.
  replace (endswith (s +:+ newline) newline) with true.
  - change (str_split (s +:+ newline) newline) with (lines (s +:+ newline +:+ "")). rewrite lines_app.
    change (lines "") with [""]. by rewrite removelast_last.
  - symmetry. apply endswith_true. by exists s.
Qed.

(** Stripping the end of a text takes no line that names an image. *)
Lemma listed_rstrip s : forallb tidy (lines s) = true →
  List.filter is_listed (lines (rstrip_of is_space s)) = List.filter is_listed (lines s).
Proof.
  intros Hs. assert (s = str_join newline (lines s)) as Hj by (symmetry; apply str_join_split).
  pose proof (str_split_no_more "010" s : ∀ x, x ∈ lines s → contains newline x = false) as Hn.
  remember (lines s) as ls eqn:E. rewrite Hj. clear Hj E s.
  assert (∀ ls, ls ≠ [] → (∀ x, x ∈ ls → contains newline x = false) → lines (str_join newline ls) = ls) as Hl.
  { intros k Hk Hx. by apply (str_split_join "010"). }
  induction ls as [|l ls IH] using rev_ind; [done|]. rewrite forallb_app in Hs.
  apply andb_true_iff in Hs as [Hs [Ht _]%andb_true_iff]. destruct (decide (l = "")) as [->|Hne].
  - rewrite List.filter_app. cbn [List.filter is_listed str_eqb]. rewrite app_nil_r.
    destruct ls as [|a ls]; [done|]. rewrite (str_join_app "010" : ∀ l k, _ → _ → str_join newline (l ++ k) = _) by done.
    change (str_join newline [""]) with "". change (newline +:+ "") with newline.
    rewrite rstrip_newline. apply IH; [done|]. intros x Hx. apply Hn, elem_of_app. by left.
  - rewrite <- (Hl (ls ++ [l])) at 2; [|by destruct ls|done]. f_equal. f_equal.
    destruct ls as [|a ls]; [by apply (rstrip_tidy "")|].
    rewrite (str_join_app "010" : ∀ l k, _ → _ → str_join newline (l ++ k) = _) by done.
    change (str_join newline [l]) with l. rewrite <- append_assoc. by apply rstrip_tidy.
Qed.

(** ** What a list names *)

Definition no_space (s : string) : bool := str_forallb (λ c, negb (is_space c)) s.
(** A reference that the patterns can give: no white space, up to a newline at
    the end, where Python's [$] also matches *)
Definition plain (r : string) : Prop := r ≠ "" ∧ no_space r = true.
Definition ref_ok (r : string) : Prop := plain r ∨ ∃ r', plain r' ∧ r = r' +:+ newline.
(** The reference as a line *)
Definition bare (r : string) : string := rstrip_of is_space r.
Definition comment (line : string) : bool := startswith line "#".
(** The text holds comments and blank lines only. *)
Definition remark (s : string) : bool := forallb (λ l, tidy l && negb (is_listed l)) (lines s).

Lemma no_space_tidy s : no_space s = true → tidy s = true.
Proof.
  intros H. apply str_eqb_eq. induction s as [|c s IH]; [done|]. cbn in H. apply andb_true_iff in H as [Hc Hs].
  rewrite rstrip_cons, (IH Hs). destruct s; [|done]. by destruct (is_space c).
Qed.
Lemma no_space_no_newline s : no_space s = true → contains newline s = false.
Proof.
  induction s as [|c s IH]; [done|]. intros [Hc Hs]%andb_true_iff.
  change (startswith (String c s) newline || contains newline s = false). rewrite (IH Hs), orb_false_r.
  unfold startswith, newline. cbn [drop_prefix]. destruct (Ascii.eqb "010" c) eqn:E; [|done].
  by apply Ascii.eqb_eq in E as <-.
Qed.
Lemma lines_plain r : no_space r = true → lines r = [r].
Proof. intros H. apply (str_split_none "010"). by apply no_space_no_newline. Qed.

Lemma lines_ref r : ref_ok r → forallb tidy (lines r) = true ∧
  List.filter is_listed (lines r) = (if comment (bare r) then [] else [bare r]) ∧ plain (bare r).
Proof.
  assert (∀ r, plain r → is_listed r = negb (comment r)) as Hl.
  { intros r' [Hne _]. unfold is_listed. destruct (str_eqb r' "") eqn:E; [by apply str_eqb_eq in E|done]. }
  intros [Hp|(r' & Hp & ->)]; pose proof (no_space_tidy _ (proj2 Hp)) as Ht; pose proof Ht as Ht'; apply str_eqb_eq in Ht'.
  - unfold bare. rewrite lines_plain, Ht' by apply Hp. cbn [forallb List.filter]. rewrite Ht, Hl by done.
    split_and!; [done|by destruct (comment r)|done].
  - unfold bare. rewrite rstrip_newline, Ht'. change (r' +:+ newline) with (r' +:+ newline +:+ ""). rewrite lines_app, lines_plain by apply Hp.
    cbn [forallb List.filter app]. rewrite Ht, Hl by done. split_and!; [done|by destruct (comment r')|done].
Qed.
Lemma remark_lines s : remark s = true → forallb tidy (lines s) = true ∧ List.filter is_listed (lines s) = [].
Proof.
  unfold remark. induction (lines s) as [|l k IH]; [done|]. cbn. intros [[-> Hl%negb_true_iff]%andb_true_iff Hk]%andb_true_iff.
  rewrite Hl. by apply IH.
Qed.

(** The text of the parts, when each part is tidy *)
Lemma listed_finished L : L ≠ [] → rstrip_of is_space (str_join newline L) ≠ "" →
  (∀ s, s ∈ L → forallb tidy (lines s) = true) →
  listed (finished L) = concat (map (λ s, List.filter is_listed (lines s)) L).
Proof.
  intros HL Hne Ht. unfold listed, finished. rewrite splitlines_end by done.
  rewrite listed_rstrip; rewrite lines_join by done.
  - clear. induction L as [|s L IH]; [done|]. cbn. by rewrite List.filter_app, IH.
  - clear Hne HL. induction L as [|s L IH]; [done|]. cbn. rewrite forallb_app, Ht by left. apply IH.
    intros t Hin. apply Ht. by right.
Qed.

Definition hardening_notes : list string := omap (λ e, alist_get "hardening" e.2) NOTES.
Lemma notes_are_remarks ref h : alist_get "hardening" (note_of ref) = Some h → remark ("# " +:+ h) = true.
Proof.
  assert (forallb (λ h, remark ("# " +:+ h)) hardening_notes = true) as H by (vm_compute; reflexivity).
  unfold note_of. destruct (alist_get (repo_of ref) NOTES) as [n|] eqn:E; cbn; [|done]. intros Hh.
  rewrite forallb_elem_of in H. apply H, list_elem_of_omap. exists (repo_of ref, n). split; [by apply alist_elem|done].
Qed.
Lemma titles_are_remarks kind : kind ∈ GROUP_ORDER → remark (title_of kind) = true.
Proof.
  assert (forallb (λ k, remark (title_of k)) GROUP_ORDER = true) as H by (vm_compute; reflexivity).
  rewrite forallb_elem_of in H. apply H.
Qed.

Definition listing (groups : groups_type) : list string := concat (map (λ k, group_of k groups) GROUP_ORDER).
(** The lines of the references, without those that read as comments *)
Definition ref_lines (refs : list string) : list string := List.filter (λ l, negb (comment l)) (map bare refs).

(** The parts of a list: remarks, and references on lines of their own *)
Definition part (s : string) (named : list string) : Prop :=
  forallb tidy (lines s) = true ∧ List.filter is_listed (lines s) = named.
Lemma part_remark s : remark s = true → part s [].
Proof. apply remark_lines. Qed.
Lemma part_ref r : ref_ok r → part r (ref_lines [r]).
Proof. intros (H1 & H2 & _)%lines_ref. split; [done|]. rewrite H2. unfold ref_lines. cbn. by destruct (comment (bare r)). Qed.

Lemma parts_entry ref : ref_ok ref → ∃ named, Forall2 part (txt_entry ref) named ∧ concat named = ref_lines [ref].
Proof.
  intros Hr. unfold txt_entry. destruct (alist_get "hardening" (note_of ref)) as [h|] eqn:E.
  - exists [[]; ref_lines [ref]]. split; [|cbn; by rewrite app_nil_r].
    repeat constructor; [by apply part_remark, (notes_are_remarks ref)..|by apply part_ref|by apply part_ref].
  - exists [ref_lines [ref]]. split; [|cbn; by rewrite app_nil_r]. repeat constructor; by apply part_ref.
Qed.
Lemma ref_lines_app a b : ref_lines (a ++ b) = ref_lines a ++ ref_lines b.
Proof. unfold ref_lines. by rewrite map_app, List.filter_app. Qed.
Lemma parts_entries refs : (∀ r, r ∈ refs → ref_ok r) →
  ∃ named, Forall2 part (concat (map txt_entry refs)) named ∧ concat named = ref_lines refs.
Proof.
  induction refs as [|r refs IH]; intros Hr; [exists []; by split; [constructor|]|].
  destruct (parts_entry r) as (n1 & H1 & E1); [apply Hr; left|].
  destruct IH as (n2 & H2 & E2); [intros x Hx; apply Hr; by right|].
  exists (n1 ++ n2). split; [by apply Forall2_app|]. by rewrite concat_app, E1, E2, <- (ref_lines_app [r]).
Qed.
Lemma parts_group groups kind : kind ∈ GROUP_ORDER → (∀ r, r ∈ group_of kind groups → ref_ok r) →
  ∃ named, Forall2 part (txt_group groups kind) named ∧ concat named = ref_lines (group_of kind groups).
Proof.
  intros Hk Hr. unfold txt_group. destruct (group_of kind groups) as [|r refs] eqn:E; [exists []; by split; [constructor|]|].
  destruct (parts_entries (r :: refs) Hr) as (n & H & En). exists ([] :: n ++ [[]]). split.
  - constructor; [by apply part_remark, titles_are_remarks|]. apply Forall2_app; [done|]. repeat constructor; by apply part_remark.
  - cbn [concat]. rewrite concat_app, En. cbn. by rewrite app_nil_r.
Qed.
Lemma parts_groups groups kinds : kinds ⊆ GROUP_ORDER → (∀ k r, k ∈ GROUP_ORDER → r ∈ group_of k groups → ref_ok r) →
  ∃ named, Forall2 part (concat (map (txt_group groups) kinds)) named ∧
    concat named = ref_lines (concat (map (λ k, group_of k groups) kinds)).
Proof.
  intros Hk Hr. induction kinds as [|k kinds IH]; [exists []; by split; [constructor|]|].
  destruct (parts_group groups k) as (n1 & H1 & E1); [set_solver|intros r; apply Hr; set_solver|].
  destruct IH as (n2 & H2 & E2); [set_solver|]. exists (n1 ++ n2). split; [by apply Forall2_app|].
  cbn [map concat]. by rewrite concat_app, E1, E2, ref_lines_app.
Qed.

Lemma rstrip_head f c s : f c = false → rstrip_of f (String c s) ≠ "".
Proof. intros Hc. rewrite rstrip_cons. destruct (rstrip_of f s); [by rewrite Hc|done]. Qed.
Lemma chart_ref_plain version : no_space (py_str version) = true → part (chart_ref version) [chart_ref version].
Proof.
  intros Hv. assert (no_space (chart_ref version) = true) as Hn.
  { unfold chart_ref, no_space. change (cat _) with ("ghcr.io/zeroroot-ai/charts/gibson:" +:+ py_str version).
    rewrite str_forallb_app. by apply andb_true_iff. }
  split; rewrite lines_plain by done; [cbn [forallb]; by rewrite no_space_tidy|done].
Qed.

(** The lines of images.txt that name an image are the chart and, group by
    group, the references. *)
Lemma listed_build_txt version groups :
  no_space (py_str version) = true → (∀ k r, k ∈ GROUP_ORDER → r ∈ group_of k groups → ref_ok r) →
  listed (build_txt version groups) = chart_ref version :: ref_lines (listing groups).
Proof.
  intros Hv Hr. destruct (parts_groups groups GROUP_ORDER) as (named & H & E); [done|done|].
  assert (Forall2 part [HEADER_TXT; ""; "# Helm OCI chart (the deployable artifact)"; chart_ref version; ""]
            [[]; []; []; [chart_ref version]; []]) as Hh.
  { repeat constructor; try (by apply chart_ref_plain); by apply part_remark; vm_compute. }
  pose proof (Forall2_app Hh H) as Hall. clear Hh H. unfold build_txt.
  set (L := _ ++ concat _) in *.
  rewrite listed_finished.
  - assert (concat (map (λ s, List.filter is_listed (lines s)) L) = concat ([[]; []; []; [chart_ref version]; []] ++ named)) as ->.
    { clear -Hall. induction Hall as [|s n L' named' [_ Hs] _ IH]; [done|]. cbn. by rewrite Hs, IH. }
    rewrite concat_app. cbn. by rewrite E.
  - done.
  - assert (∃ h, HEADER_TXT = String "#" h) as [h Eh] by (vm_compute; eexists; reflexivity).
    unfold L. cbn [app]. rewrite Eh. by apply rstrip_head.
  - intros s Hs. clear -Hall Hs. induction Hall as [|s' n L' named' [Ht _] _ IH]; [by apply elem_of_nil in Hs|].
    apply elem_of_cons in Hs as [->|Hs]; [done|by apply IH].
Qed.

(** ** The references that reach a list *)

Definition refs_in (found : by_repo) : list string := concat found.*2.

Lemma refs_in_get found k r :
  r ∈ refs_in found ↔ r ∈ default [] (alist_get k found) ∨ r ∈ refs_in (alist_del k found).
Proof.
  unfold refs_in. induction found as [|[k' x] found IH]; cbn; [set_solver|].
  destruct (str_eqb k k') eqn:E; cbn; rewrite elem_of_app; [done|]. rewrite IH. set_solver.
Qed.
Lemma refs_in_set found k x r : r ∈ refs_in (alist_set k x found) ↔ r ∈ x ∨ r ∈ refs_in (alist_del k found).
Proof.
  unfold refs_in. induction found as [|[k' y] found IH]; cbn; [set_solver|].
  destruct (str_eqb k k') eqn:E; cbn; rewrite !elem_of_app; [done|]. rewrite IH. set_solver.
Qed.
Lemma add_ref_elem found ref r : r ∈ refs_in (add_ref found ref) ↔ r ∈ refs_in found ∨ r = ref.
Proof.
  unfold add_ref. rewrite refs_in_set, (refs_in_get found (repo_of ref)).
  destruct (str_mem ref _) eqn:E; [apply str_mem_elem in E|]; set_solver.
Qed.
Lemma add_refs_elem refs found r : r ∈ refs_in (foldl add_ref found refs) ↔ r ∈ refs_in found ∨ r ∈ refs.
Proof.
  revert found. induction refs as [|x refs IH]; intros found; cbn [foldl]; [set_solver|]. rewrite IH, add_ref_elem. set_solver.
Qed.

Definition in_groups (g : groups_type) (r : string) : Prop := ∃ k, k ∈ GROUP_ORDER ∧ r ∈ group_of k g.
Lemma extend_elem g kind refs r : kind ∈ GROUP_ORDER → in_groups (extend g kind refs) r ↔ in_groups g r ∨ r ∈ refs.
Proof.
  intros Hk. unfold in_groups, extend, group_of. split.
  - intros (k & Hin & Hr). destruct (decide (kind = k)) as [->|Hne].
    + rewrite alist_set_eq in Hr. cbn in Hr. apply elem_of_app in Hr as [Hr|Hr]; [left; by exists k|by right].
    + rewrite alist_set_ne in Hr by done. left. by exists k.
  - intros [(k & Hin & Hr)|Hr].
    + exists k. split; [done|]. destruct (decide (kind = k)) as [->|Hne].
      * rewrite alist_set_eq. cbn. apply elem_of_app. by left.
      * by rewrite alist_set_ne.
    + exists kind. split; [done|]. rewrite alist_set_eq. cbn. apply elem_of_app. by right.
Qed.
Lemma extends_elem (kind : string * list string → string) found g r : (∀ e, kind e ∈ GROUP_ORDER) →
  in_groups (foldl (λ g e, extend g (kind e) (sorted_strs e.2)) g found) r ↔ in_groups g r ∨ r ∈ refs_in found.
Proof.
  intros Hk. revert g. induction found as [|e found IH]; intros g; cbn [foldl]; [set_solver|].
  rewrite IH, extend_elem, sorted_strs_elem by done. unfold refs_in. cbn. rewrite elem_of_app. set_solver.
Qed.
Lemma classify_group repo : classify repo ∈ GROUP_ORDER.
Proof. unfold classify. destruct (_ && _); [left|]. destruct (startswith _ _); [right; left|right; right; left]. Qed.
Lemma group_of_sorted k g : group_of k (map (prod_map id sorted_set) g) = sorted_set (group_of k g).
Proof.
  unfold group_of. induction g as [|[k' x] g IH]; cbn; [done|]. by destruct (str_eqb k k').
Qed.
Lemma groups_from_elem found catalog r :
  in_groups (groups_from found catalog) r ↔ r ∈ refs_in found ∨ r ∈ refs_in catalog.
Proof.
  unfold groups_from. set (g := foldl _ _ catalog). transitivity (in_groups g r).
  - unfold in_groups. split; intros (k & Hk & Hr); exists k; (split; [done|]);
      rewrite group_of_sorted, sorted_set_elem in *; done.
  - unfold g. rewrite (extends_elem (λ _, "dispatchTime")) by (intros; do 3 right; left).
    rewrite (extends_elem (λ e, classify e.1)) by (intros; apply classify_group).
    assert (¬ in_groups [] r) as Hn by (intros (k & _ & Hr); by apply elem_of_nil in Hr). naive_solver.
Qed.
Lemma listing_elem g r : r ∈ listing g ↔ in_groups g r.
Proof.
  unfold listing, in_groups. rewrite elem_of_concat. split.
  - intros (l & Hl & Hr). apply list_elem_of_fmap in Hl as (k & -> & Hk). by exists k.
  - intros (k & Hk & Hr). exists (group_of k g). split; [|done]. by apply (list_elem_of_fmap_2 (λ k, group_of k g)).
Qed.
Lemma ref_lines_elem refs l : l ∈ ref_lines refs ↔ ∃ r, r ∈ refs ∧ l = bare r ∧ comment l = false.
Proof.
  unfold ref_lines. rewrite list_elem_of_In, filter_In, <- list_elem_of_In, list_elem_of_fmap, negb_true_iff. naive_solver.
Qed.

(** ** The shape of a reference *)

Lemma line_ref_plain line r : line_ref line = Some r → plain r.
Proof.
  unfold line_ref. destruct (re_match IMAGE_LINE_RX line) as [m|] eqn:H; [|done]. intros [= <-].
  unfold re_match, match_at, IMAGE_LINE_RX in H. cbn [RSeq] in H.
  next_part H s1 L1. next_part H s2 L2. next_part H s3 L3. next_part H s4 L4. next_part H s5 L5. next_part H s6 L6.
  next_part H s7 L7. next_part H s8 L8. next_part H s9 L9. next_part H s10 L10. injection H as <-.
  apply step_plus_iff in L7 as (t & -> & Hne & Ht). unfold group_text, group. cbn -[Regex.consumed].
  rewrite consumed_app. split; [done|]. revert Ht. apply forallb_weaken. by intros c [-> _]%andb_true_iff.
Qed.
Lemma arg_ref_plain item r : r ∈ arg_ref item → plain r.
Proof.
  unfold arg_ref. destruct item as [| | |s| |]; try by intros ?%elem_of_nil.
  destruct (re_match ARG_IMAGE_RX s) as [m|] eqn:H; [|by intros ?%elem_of_nil].
  destruct (matches _ _); [|by intros ?%elem_of_nil]. intros ->%list_elem_of_singleton.
  unfold re_match, match_at, ARG_IMAGE_RX in H. cbn [RSeq] in H.
  next_part H s1 L1. next_part H s2 L2. next_part H s3 L3. next_part H s4 L4. next_part H s5 L5. injection H as <-.
  apply step_plus_iff in L4 as (t & -> & Hne & Ht). unfold group_text, group. cbn -[Regex.consumed].
  by rewrite consumed_app.
Qed.

Lemma no_space_app a b : no_space (a +:+ b) = no_space a && no_space b.
Proof. apply str_forallb_app. Qed.

Lemma image_ref_ok s : matches IMAGE_REF_RX s = true → ref_ok s.
Proof.
  unfold matches. rewrite bool_decide_eq_true, re_match_iff. intros [q H]. unfold IMAGE_REF_RX in H. cbn [RSeq] in H.
  apply step_cat_iff in H as ([p1 s1] & H1%step_str_iff & H). apply step_cat_iff in H as ([p2 s2] & H2 & H).
  apply step_plus_iff in H2 as (name & Hname & _ & Hn). apply step_cat_iff in H as ([p3 s3] & H3 & H).
  apply step_cat_iff in H as ([p4 s4] & H4 & H). apply step_end_iff in H as [_ Hend]. cbn [snd] in *.
  assert (∃ tag, s2 = tag +:+ s3 ∧ no_space tag = true) as (tag & -> & Htag).
  { apply step_opt_iff in H3 as [H3|[= -> ->]]; [|by exists ""].
    apply step_cat_iff in H3 as ([p5 s5] & H5%step_str_iff & H6). apply step_plus_iff in H6 as (t & Ht & _ & Hs). cbn [snd] in *.
    exists (":" +:+ t). split; [by rewrite H5, Ht|]. unfold no_space. rewrite str_forallb_app. cbn. revert Hs. apply forallb_weaken.
    by intros c [-> _]%andb_true_iff. }
  assert (∃ dig, s3 = dig +:+ s4 ∧ no_space dig = true) as (dig & -> & Hdig).
  { apply step_opt_iff in H4 as [H4|[= -> ->]]; [|by exists ""].
    apply step_cat_iff in H4 as ([p5 s5] & H5%step_str_iff & H6). apply step_rep_iff in H6 as (t & Ht & _ & Hs). cbn [snd] in *.
    exists ("@sha256:" +:+ t). split; [by rewrite H5, Ht|]. unfold no_space. rewrite str_forallb_app.
    cbn. revert Hs. apply forallb_weaken. by intros [[] [] [] [] [] [] [] []]; vm_compute. }
  assert (no_space name = true) as Hname' by (revert Hn; apply forallb_weaken; by intros c [-> _]%andb_true_iff).
  subst s1. assert (plain ("ghcr.io/" +:+ name +:+ tag +:+ dig)) as Hp.
  { split; [done|]. unfold no_space in *. rewrite !str_forallb_app. cbn. by rewrite Hname', Htag, Hdig. }
  destruct s4 as [|c [|]]; [|cbn in Hend|done].
  - left. rewrite append_nil_r in H1. by rewrite H1.
  - right. exists ("ghcr.io/" +:+ name +:+ tag +:+ dig). split; [done|]. rewrite H1, !append_assoc.
    unfold is_newline in Hend. apply Nat.eqb_eq in Hend. unfold newline. do 4 f_equal.
    by rewrite <- (Ascii.ascii_nat_embedding c), Hend.
Qed.
Lemma node_refs_ok x r : r ∈ node_refs x → ref_ok r.
Proof.
  unfold node_refs. destruct x; try by intros ?%elem_of_nil.
  - intros (l' & Hl & Hr)%elem_of_concat. apply list_elem_of_fmap in Hl as (i & -> & _). left. by eapply arg_ref_plain.
  - unfold env_ref. destruct (fld _ "name"); try by intros ?%elem_of_nil. destruct (fld _ "value"); try by intros ?%elem_of_nil.
    destruct (_ && _) eqn:E; [|by intros ?%elem_of_nil]. intros ->%list_elem_of_singleton.
    apply andb_true_iff in E as [_ E]. by apply image_ref_ok.
Qed.

Lemma add_refs_get found refs k r :
  r ∈ default [] (alist_get k (foldl add_ref found refs)) ↔ r ∈ default [] (alist_get k found) ∨ r ∈ refs ∧ repo_of r = k.
Proof.
  assert (∀ found ref, r ∈ default [] (alist_get k (add_ref found ref)) ↔
            r ∈ default [] (alist_get k found) ∨ r = ref ∧ repo_of r = k) as Hone.
  { clear. intros found ref. unfold add_ref. destruct (decide (repo_of ref = k)) as [<-|Hne].
    - rewrite alist_set_eq. cbn. destruct (str_mem ref _) eqn:E; [apply str_mem_elem in E|]; set_solver.
    - rewrite alist_set_ne by done. split; [by left|]. intros [?|[-> ?]]; done. }
  revert found. induction refs as [|x refs IH]; intros found; cbn [foldl]; [set_solver|]. rewrite IH, Hone. set_solver.
Qed.

(** The pinned tag is a release tag, and each gibson image has it. *)
Lemma pinned_tag_ok found tag : pinned_gibson_tag found = Ok tag →
  matches RELEASE_TAG_RX tag = true ∧ ∀ r, r ∈ default [] (alist_get GIBSON_IMAGE_REPO found) → tag_of r = tag.
Proof.
  unfold pinned_gibson_tag. set (tags := sorted_set _). destruct (negb (nonempty tags)); [done|].
  destruct (nonempty (sorted_strs _)) eqn:E; [done|]. destruct tags as [|t [|u l]] eqn:Et; [done| |done]. intros [= <-]. split.
  - destruct (matches RELEASE_TAG_RX t) eqn:Em; [done|]. cbn [List.filter] in E. by rewrite Em in E.
  - intros r Hr. assert (tag_of r ∈ tags) as Hin by (apply sorted_set_elem; by apply list_elem_of_fmap_2).
    rewrite Et in Hin. by apply list_elem_of_singleton in Hin.
Qed.

Section spec.
Context (run : list string → result string) (github_get : string → result string)
        (safe_load_all : string → result (list val)).

(** A render of a profile, or of Velero, names the image: in an [image:] line
    that is no template, or in an env var or flag of a document. *)
Definition named_by_render (ref : string) : Prop :=
  ∃ cmd out, cmd ∈ commands ∧ run cmd = Ok out ∧
    ((∃ line, line ∈ splitlines out ∧ line_ref line = Some ref ∧ templated ref = false) ∨
     (∃ docs d node, safe_load_all out = Ok docs ∧ d ∈ docs ∧ is_dict d = true ∧ inside d node ∧ ref ∈ node_refs node)).
(** A manifest of the component catalog at a commit names the image. *)
Definition named_by_catalog (commit : val) (ref : string) : Prop :=
  ∃ body listing entries entry l,
    github_get (cat ["/repos/"; GIBSON_REPO; "/contents/"; GIBSON_CATALOG_DIR; "?ref="; py_str commit]) = Ok body ∧
    json_loads body = Ok listing ∧ py_iter listing = Ok entries ∧ entry ∈ entries ∧
    catalog_entry github_get commit entry = Ok l ∧ ref ∈ l.

Lemma env_images_elem out e r : env_images safe_load_all out = Ok e →
  r ∈ e ↔ ∃ docs d node, safe_load_all out = Ok docs ∧ d ∈ docs ∧ is_dict d = true ∧ inside d node ∧ r ∈ node_refs node.
Proof.
  intros (docs & Hdocs & H)%bind_Ok. rewrite (flatM_elem _ _ _ H).
  assert (∀ d l, walk_stack (nodes d) [d] [] = Ok l → r ∈ l ↔ ∃ node, inside d node ∧ r ∈ node_refs node) as Hw.
  { intros d l Hl. destruct (walk_stack_ok (nodes d) [d] []) as (out' & Hout & Hiff); [cbn; lia|].
    rewrite Hl in Hout. injection Hout as <-. rewrite Hiff. split.
    - intros [Hr|(v & x & Hv & Hx & Hr)]; [by apply elem_of_nil in Hr|]. apply list_elem_of_singleton in Hv as ->. by exists x.
    - intros (x & Hx & Hr). right. exists d, x. split_and!; [left|done|done]. }
  split.
  - intros (d & l & Hd & Hl & Hr). apply list_elem_of_In, filter_In in Hd as [Hd Hdd]. apply (Hw _ _ Hl) in Hr as (node & Hr).
    exists docs, d, node. split_and!; [done|by apply list_elem_of_In|done|apply Hr|apply Hr].
  - intros (docs' & d & node & Hdocs' & Hd & Hdd & Hr). rewrite Hdocs in Hdocs'. injection Hdocs' as <-.
    assert (d ∈ List.filter is_dict docs) as Hin by (apply list_elem_of_In, filter_In; split; [by apply list_elem_of_In|done]).
    destruct (flatM_Ok_elem _ _ _ _ H Hin) as [l Hl]. exists d, l. split_and!; [done|done|]. apply (Hw _ _ Hl). by exists node.
Qed.
Lemma rendered_refs_elem out refs r : rendered_refs safe_load_all out = Ok refs →
  r ∈ refs ↔ (∃ line, line ∈ splitlines out ∧ line_ref line = Some r ∧ templated r = false) ∨
    (∃ docs d node, safe_load_all out = Ok docs ∧ d ∈ docs ∧ is_dict d = true ∧ inside d node ∧ r ∈ node_refs node).
Proof.
  clear run github_get. intros (e & He & [= <-])%bind_Ok. rewrite elem_of_app, (env_images_elem _ _ _ He).
  rewrite list_elem_of_In, filter_In, <- list_elem_of_In, negb_true_iff. unfold line_images. rewrite list_elem_of_omap. naive_solver.
Qed.
Lemma render_step_elem cmds found found' r k :
  foldM (λ found cmd, out <- run cmd ;; refs <- rendered_refs safe_load_all out ;; Ok (foldl add_ref found refs)) found cmds = Ok found' →
  let named := ∃ cmd out refs, cmd ∈ cmds ∧ run cmd = Ok out ∧ rendered_refs safe_load_all out = Ok refs ∧ r ∈ refs in
  (r ∈ refs_in found' ↔ r ∈ refs_in found ∨ named) ∧
  (r ∈ default [] (alist_get k found') ↔ r ∈ default [] (alist_get k found) ∨ repo_of r = k ∧ named).
Proof.
  clear github_get. revert found. induction cmds as [|cmd cmds IH]; intros found; cbn [foldM].
  - intros [= <-]. split; [|split; [by left|]]; try (split; [by left|]); intros [?|?]; try done; set_solver.
  - intros (f1 & H1 & H)%bind_Ok. apply bind_Ok in H1 as (out & Hout & H1). apply bind_Ok in H1 as (refs & Hrefs & [= <-]).
    destruct (IH _ H) as [IH1 IH2]. cbn. rewrite IH1, IH2, add_refs_elem, add_refs_get. clear IH IH1 IH2 H.
    assert ((∃ c o rs, c ∈ cmd :: cmds ∧ run c = Ok o ∧ rendered_refs safe_load_all o = Ok rs ∧ r ∈ rs) ↔
            r ∈ refs ∨ ∃ c o rs, c ∈ cmds ∧ run c = Ok o ∧ rendered_refs safe_load_all o = Ok rs ∧ r ∈ rs) as ->.
    { setoid_rewrite elem_of_cons. split; [|naive_solver]. intros (c & o & rs & [->|Hc] & Ho & Hrs & Hr); [left; congruence|right; naive_solver]. }
    naive_solver.
Qed.
Lemma render_images_elem found r k : render_images run safe_load_all = Ok found →
  (r ∈ refs_in found ↔ named_by_render r) ∧ (r ∈ default [] (alist_get k found) ↔ repo_of r = k ∧ named_by_render r).
Proof.
  clear github_get. unfold render_images. intros H. destruct (render_step_elem _ _ _ r k H) as [H1 H2]. rewrite H1, H2.
  assert ((∃ cmd out refs, cmd ∈ commands ∧ run cmd = Ok out ∧ rendered_refs safe_load_all out = Ok refs ∧ r ∈ refs) ↔ named_by_render r) as ->.
  { split.
    - intros (cmd & out & refs & Hc & Ho & Hrefs & Hr). exists cmd, out. split_and!; [done|done|]. by apply (rendered_refs_elem _ _ _ Hrefs).
    - intros (cmd & out & Hc & Ho & Hr). assert (∃ refs, rendered_refs safe_load_all out = Ok refs) as [refs Hrefs].
      { clear -H Hc Ho. revert H. generalize ([] : by_repo). induction commands as [|c cs IH]; intros f; [by apply elem_of_nil in Hc|].
        cbn [foldM]. intros (f1 & H1 & H)%bind_Ok. apply elem_of_cons in Hc as [->|Hc]; [|by eapply IH].
        rewrite Ho in H1. cbn [rbind] in H1. apply bind_Ok in H1 as (refs & Hrefs & _). by exists refs. }
      exists cmd, out, refs. split_and!; [done|done|done|]. by apply (rendered_refs_elem _ _ _ Hrefs). }
  unfold refs_in. cbn. rewrite !elem_of_nil. naive_solver.
Qed.
Lemma catalog_images_elem commit catalog r : catalog_images github_get commit = Ok catalog →
  r ∈ refs_in catalog ↔ named_by_catalog commit r.
Proof.
  intros (body & Hb & H)%bind_Ok. apply bind_Ok in H as (listing & Hl & H). apply bind_Ok in H as (entries & He & H).
  apply bind_Ok in H as (refs & Hrefs & H). assert (catalog = foldl add_ref [] refs) as ->.
  { by destruct (foldl add_ref [] refs); [|injection H as <-]. }
  rewrite add_refs_elem, (flatM_elem _ _ _ Hrefs). split.
  - intros [Hr|(e & l & Hin & Hel & Hr)]; [by apply elem_of_nil in Hr|]. by exists body, listing, entries, e, l.
  - intros (body' & listing' & entries' & e & l & Hb' & Hl' & He' & Hin & Hel & Hr). right. exists e, l.
    rewrite Hb in Hb'. injection Hb' as <-. rewrite Hl in Hl'. injection Hl' as <-. rewrite He in He'. injection He' as <-. done.
Qed.
End spec.

(** ** What a check accepts *)

Lemma named_ok run safe_load_all ref : named_by_render run safe_load_all ref → ref_ok ref.
Proof.
  intros (cmd & out & _ & _ & [(line & _ & H & _)|(docs & d & node & _ & _ & _ & _ & H)]); [left; by eapply line_ref_plain|by eapply node_refs_ok].
Qed.
Lemma catalog_ok github_get commit ref : named_by_catalog github_get commit ref → ref_ok ref.
Proof.
  intros (body & listing & entries & entry & l & _ & _ & _ & _ & H & Hr). left. unfold catalog_entry in H.
  apply bind_Ok in H as (name & _ & H). apply bind_Ok in H as (n & _ & H). destruct (endswith n ".yaml"); cbn [negb] in H;
    [|injection H as <-; by apply elem_of_nil in Hr].
  apply bind_Ok in H as (b & _ & H). apply bind_Ok in H as (raw & _ & H). apply bind_Ok in H as (c & _ & H).
  apply bind_Ok in H as (s & _ & H). apply bind_Ok in H as (text & _ & [= <-]).
  apply list_elem_of_omap in Hr as (line & _ & Hr). by eapply line_ref_plain.
Qed.

Lemma generate_lists run github_get safe_load_all fs found commit want :
  render_images run safe_load_all = Ok found → generate github_get fs found commit = Ok want →
  ∃ version, chart_version fs = Ok version ∧ (no_space (py_str version) = true →
    ∀ line, line ∈ listed want.1 ↔ line = chart_ref version ∨
      comment line = false ∧ ∃ ref, line = bare ref ∧ (named_by_render run safe_load_all ref ∨ named_by_catalog github_get commit ref)).
Proof.
  intros Hf (version & Hv & H)%bind_Ok. apply bind_Ok in H as (catalog & Hc & [= <-]). cbn [fst].
  exists version. split; [done|]. intros Hns line.
  assert (∀ r, in_groups (groups_from found catalog) r ↔ named_by_render run safe_load_all r ∨ named_by_catalog github_get commit r) as Hin.
  { intros r. rewrite groups_from_elem. destruct (render_images_elem _ _ _ r "" Hf) as [-> _].
    by rewrite (catalog_images_elem _ _ _ r Hc). }
  rewrite listed_build_txt; [|done|].
  - rewrite elem_of_cons, ref_lines_elem. setoid_rewrite listing_elem. setoid_rewrite Hin. naive_solver.
  - intros k r Hk Hr. destruct (proj1 (Hin r)) as [Hn|Hn]; [by exists k|by eapply named_ok|by eapply catalog_ok].
Qed.

(** C12: when generate-image-list.py --check exits 0, the committed catalog ref
    is the commit of the release tag that every gibson image of the renders
    has, and the lines of images.txt that are no comment are exactly the chart
    and the images that a render of a profile or of Velero names, or that the
    component catalog names at that commit.  So no image is missing from the
    mirror, and none is extra.  A version of the chart holds no white space. *)
Theorem check_lists_every_image run github_get safe_load_all skip fs :
  main_check run github_get safe_load_all skip fs = Ok 0%Z →
  (∀ v, chart_version fs = Ok v → no_space (py_str v) = true) →
  ∃ txt version sha tag, images_txt fs = Some txt ∧ chart_version fs = Ok version ∧
    committed_catalog_ref fs = Ok sha ∧ tag_commit github_get tag = Ok (VStr sha) ∧ matches RELEASE_TAG_RX tag = true ∧
    (∀ ref, named_by_render run safe_load_all ref → repo_of ref = GIBSON_IMAGE_REPO → tag_of ref = tag) ∧
    ∀ line, line ∈ listed txt ↔ line = chart_ref version ∨
      comment line = false ∧ ∃ ref, line = bare ref ∧ (named_by_render run safe_load_all ref ∨ named_by_catalog github_get (VStr sha) ref).
Proof.
  unfold main_check. intros H Hns. apply bind_Ok in H as ([[found tag] commit] & Hp & H).
  unfold pinned in Hp. apply bind_Ok in Hp as (u & _ & Hp). apply bind_Ok in Hp as (f & Hf & Hp).
  apply bind_Ok in Hp as (t & Ht & Hp). apply bind_Ok in Hp as (c & Hc & [= <- <- <-]).
  apply bind_Ok in H as (sha & Hsha & H). destruct (nonempty _) eqn:E; [done|].
  assert (c = VStr sha) as ->.
  { unfold catalog_ref_problems in E. destruct (py_eq (VStr sha) c) eqn:Eq; [by apply py_eq_str in Eq|done]. }
  apply bind_Ok in H as (want & Hw & H). apply bind_Ok in H as (txt & Htxt & H). apply bind_Ok in H as (yml & _ & H).
  destruct (str_eqb txt want.1 && _) eqn:Eq; [|done]. apply andb_true_iff in Eq as [->%str_eqb_eq _].
  destruct (generate_lists _ _ _ _ _ _ _ Hf Hw) as (version & Hv & Hl).
  destruct (pinned_tag_ok _ _ Ht) as [Hrel Htag].
  exists want.1, version, sha, t. split_and!; try done.
  - destruct (images_txt fs); [|done]. injection Htxt as ->. done.
  - intros ref Hn Hrepo. apply Htag. by apply (render_images_elem _ _ _ ref GIBSON_IMAGE_REPO Hf).
  - apply Hl. by apply Hns.
Qed.

Lemma hex40_strip sha : is_Some (re_fullmatch HEX40 sha) → strip (sha +:+ newline) = sha.
Proof.
  rewrite fullmatch_iff. intros (p & H). apply step_rep_iff in H as (t & Ht & _ & Hs). cbn in Ht. rewrite append_nil_r in Ht. subst t.
  assert (no_space sha = true) as Hn.
  { revert Hs. apply forallb_weaken. by intros [[] [] [] [] [] [] [] []]; vm_compute. }
  unfold strip. rewrite rstrip_newline. pose proof (no_space_tidy _ Hn) as Ht. apply str_eqb_eq in Ht. rewrite Ht.
  destruct sha as [|c s]; [done|]. cbn in Hn |- *. by destruct (is_space c).
Qed.

(** C13: what generate-image-list.py writes, its check accepts.  After a run
    without --check that exits 0, with the same renders, catalog and tags, a run
    with --check on the files that it left exits 0, and it changes no file.  The
    commit of a tag is 40 hex digits, as the GitHub API documents. *)
Theorem check_accepts_what_is_written run github_get safe_load_all skip fs fs' :
  (∀ tag v, tag_commit github_get tag = Ok v → ∃ sha, v = VStr sha ∧ is_Some (re_fullmatch HEX40 sha)) →
  main run github_get safe_load_all false skip fs = (fs', Ok 0%Z) →
  main run github_get safe_load_all true skip fs' = (fs', Ok 0%Z) ∧ manifest fs' = manifest fs.
Proof.
  intros Hgh. unfold main, main_write, main_check. intros H.
  destruct (pinned run github_get safe_load_all skip) as [[[found tag] commit]|e] eqn:Hp; [|done].
  assert (tag_commit github_get tag = Ok commit) as Hc.
  { unfold pinned in Hp. apply bind_Ok in Hp as (u & _ & Hp). apply bind_Ok in Hp as (f & Hf & Hp).
    apply bind_Ok in Hp as (t & Ht & Hp). apply bind_Ok in Hp as (c & Hc & [= <- <- <-]). done. }
  destruct (Hgh _ _ Hc) as (sha & -> & Hsha). set (fs1 := Files _ _ _ _) in H.
  destruct (generate github_get fs1 found (VStr sha)) as [[txt yml]|e] eqn:Hg; [|done]. injection H as <-. split; [|done].
  f_equal. cbn [rbind]. unfold committed_catalog_ref at 1. cbn [catalog_ref_file fs1].
  rewrite (hex40_strip _ Hsha), bool_decide_eq_true_2 by done. cbn [rbind].
  unfold catalog_ref_problems at 1. rewrite py_eq_refl_str. cbn [nonempty].
  match goal with |- context [generate github_get ?f found (VStr sha)] =>
    change (generate github_get f found (VStr sha)) with (generate github_get fs1 found (VStr sha)) end.
  rewrite Hg.
  cbn [rbind read_text images_txt images_yaml fst snd]. by rewrite !str_eqb_refl.
Qed.

(** ** An example *)

Definition ex_sha : string := cat (replicate 40 "a").
Definition ex_run (cmd : list string) : result string :=
  Ok (unquoted "spec:^  - image: `ghcr.io/zeroroot-ai/gibson:v0.160.2`^    customImage: quay.io/x/{{ .tag }}^").
Definition ex_docs (text : string) : result (list val) :=
  Ok [VDict [("env", VList [str_dict [("name", "TENANT_NEO4J_IMAGE"); ("value", "ghcr.io/zeroroot-ai/mirror/neo4j:5")]]);
             ("args", VList [VStr "--launcher-image=ghcr.io/zeroroot-ai/setec-launcher:v1"])]].
Definition ex_github (path : string) : result string :=
  Ok (unquoted
    (if contains "/commits/" path then cat ["{`sha`: `"; ex_sha; "`}"]
     else if contains "/a.yaml" path
     then "{`content`: `c3BlYzoKICBpbWFnZTogZ2hjci5pby96ZXJvcm9vdC1haS9jdmUtdHJpYWdlOnYxCg==`}"
     else "[{`name`: `a.yaml`}, {`name`: `README.md`}]")).
Definition ex_files : files := Files (unquoted "{`.`: `0.110.4`}") None None None.
Definition ex_listed : list string :=
  match images_txt (main ex_run ex_github ex_docs false true ex_files).1 with Some txt => listed txt | None => [] end.
Example ex_lists : ex_listed =
  ["ghcr.io/zeroroot-ai/charts/gibson:0.110.4"; "ghcr.io/zeroroot-ai/gibson:v0.160.2"; "ghcr.io/zeroroot-ai/setec-launcher:v1";
   "ghcr.io/zeroroot-ai/mirror/neo4j:5"; "ghcr.io/zeroroot-ai/cve-triage:v1"].
Proof. vm_compute. reflexivity. Qed.

Definition ex_after : files := (main ex_run ex_github ex_docs false true ex_files).1.
Lemma ex_tag_commit tag v : tag_commit ex_github tag = Ok v → ∃ sha, v = VStr sha ∧ is_Some (re_fullmatch HEX40 sha).
Proof.
  unfold tag_commit, ex_github. assert (∀ a b p, contains p (a +:+ p +:+ b) = true) as Hc.
  { intros a b p. apply contains_true. by exists a, b. }
  change (cat ["/repos/"; GIBSON_REPO; "/commits/"; tag]) with ("/repos/zeroroot-ai/gibson" +:+ "/commits/" +:+ tag).
  rewrite Hc. cbn [rbind]. intros H. exists ex_sha. vm_compute in H. injection H as <-. split; [reflexivity|]. vm_compute. by eexists.
Qed.
Lemma check_accepts_what_is_written_witness :
  main ex_run ex_github ex_docs false true ex_files = (ex_after, Ok 0%Z) ∧
  main ex_run ex_github ex_docs true true ex_after = (ex_after, Ok 0%Z).
Proof.
  assert (main ex_run ex_github ex_docs false true ex_files = (ex_after, Ok 0%Z)) as H by (vm_compute; reflexivity).
  split; [exact H|]. apply (check_accepts_what_is_written _ _ _ _ ex_files _ ex_tag_commit H).
Defined.
Lemma check_lists_every_image_witness :
  main_check ex_run ex_github ex_docs true ex_after = Ok 0%Z ∧
  ∃ txt, images_txt ex_after = Some txt ∧
    ∀ ref, named_by_render ex_run ex_docs ref → comment (bare ref) = false → bare ref ∈ listed txt.
Proof.
  assert (main_check ex_run ex_github ex_docs true ex_after = Ok 0%Z) as H by (vm_compute; reflexivity). split; [exact H|].
  destruct (check_lists_every_image _ _ _ _ _ H) as (txt & version & sha & tag & Htxt & _ & _ & _ & _ & _ & Hl).
  - intros v Hv. vm_compute in Hv. injection Hv as <-. vm_compute. reflexivity.
  - exists txt. split; [exact Htxt|]. intros ref Hr Hc. apply Hl. right. split; [exact Hc|]. exists ref. split; [reflexivity|left; exact Hr].
Defined.
