(* ===== verification/XtraceSecrets.v ===== *)
(** * scripts/check-xtrace-secrets.py: a script that handles a secret turns xtrace off

    The lines of each shell script, what handles a sensitive value, and the
    [set] commands before and after it. *)
From stdpp Require Import sorting.
From S2P Require Import Prelude PyStr PyVal Regex.
From S2P Require PipeGrepQ.
From Stdlib Require Import Ascii.

Definition spaces1 : regex := RPlus (RChr is_space).
Definition searches (r : regex) (s : string) : bool := bool_decide (is_Some (re_search r s)).

Definition SOURCES : list (string * regex) :=
  [("a Secret read", RSeq [RWordB; RStr "get"; spaces1; RStr "secret"; ROpt (RStr "s"); RWordB]);
   ("a base64 decode", RAlt (RSeq [RStr "base64"; spaces1; RAlt (RStr "-d") (RStr "--decode"); RWordB]) (RStr "@base64d"));
   ("an OpenBao or Vault read",
     RSeq [RWordB; RAlt (RStr "bao") (RStr "vault"); spaces1; RAlt (RStr "read") (RSeq [RStr "kv"; spaces1; RStr "get"]); RWordB]);
   ("random bytes", RAlt (RSeq [RStr "openssl"; spaces1; RStr "rand"; RWordB]) (RSeq [RStr "/dev/"; ROpt (RStr "u"); RStr "random"]));
   ("a keyring member", RSeq [RWordB; RStr "keyring_get"; RWordB]);
   ("a credential field", ROneOf (map RStr ["client_secret"; "access_token"; "refresh_token"; "id_token"; "X-Vault-Token"; ".auth.client_token"]));
   ("a jq read of .token",
     RSeq [RWordB; RStr "jq"; RWordB; RStar (RChr (not_chars "|;"));
           RChr (λ c, Ascii.eqb c squote || Ascii.eqb c dquote || is_space c); RStr ".token"; RWordB]);
   ("stdin", RSeq [RStr "$("; RSpaces; RStr "cat"; RSpaces; RChr (in_chars ";)")])].

Definition name_chars : regex := RSeq [RChr (λ c, is_alpha c || Ascii.eqb c "_"); RStar (RChr is_word)].
(** The pattern has [re.I]: it is matched on the lower-case name. *)
Definition NAME_SEGMENT : regex :=
  RSeq [RBegin; RGroup 1 (ROneOf [RStr "pat"; RStr "token"; RStr "secret"; RStr "password"; RStr "passwd"; RStr "pw"; RStr "pass"; RStr "seed";
                                  RStr "key"; RCat (RStr "credential") (ROpt (RStr "s"))]); REnd].
Definition ASSIGN : regex :=
  RSeq [RBegin; RSpaces;
        ROpt (RCat (ROneOf [RStr "local"; RStr "export"; RStr "readonly";
                            RCat (RStr "declare") (RStar (RSeq [spaces1; RStr "-"; RPlus (RChr is_word)]))]) spaces1);
        RGroup 1 name_chars; RStr "="; RGroup 2 (RStar RAny); REnd].
Definition READ : regex :=
  RSeq [ROneOf [RBegin; RCat (RChr (in_chars ";&|")) RSpaces;
                RSeq [RWordB; RStr "IFS="; RStar (RChr (λ c, negb (is_space c))); spaces1]];
        RStr "read"; spaces1; RStar (RSeq [RStr "-"; RPlus (RChr is_word); spaces1]);
        RGroup 1 (RCat (RChr (λ c, is_alpha c || Ascii.eqb c "_")) (RStar (RChr (λ c, is_word c || Ascii.eqb c " "))))].
Definition XOFF : regex :=
  RSeq [RBegin; RStr "set"; spaces1; RGroup 1 (RAlt (RStr "+x") (RSeq [RStr "+o"; spaces1; RStr "xtrace"])); RSpaces; REnd].
Definition TOPSET : regex := RSeq [RBegin; RStr "set"; RChr is_space].
Definition ANYSET : regex :=
  RSeq [ROneOf [RCat RBegin RSpaces; RCat (RChr (in_chars ";&|{(")) RSpaces;
                RSeq [RWordB; ROneOf [RStr "then"; RStr "do"; RStr "else"]; spaces1]];
        RStr "set"; spaces1; RGroup 1 (RStar (RChr (not_chars ";&|)}")))].

Definition flagged_name (name : string) : bool :=
  existsb (λ s, bool_decide (is_Some (re_match NAME_SEGMENT (lower s)))) (List.filter (λ s, negb (str_eqb s "")) (str_split name "_")).

(** [first]: the first line of the file, [None] when it cannot be read *)
Definition is_shell (path : string) (first : option string) : bool :=
  endswith path ".sh" ||
  match first with
  | None => false
  | Some l => startswith l "#!" && (contains "bash" l || searches (RSeq [RWordB; RStr "sh"; RWordB]) l)
  end.

(** The loop is the one of check-no-pipe-grep-q.py. *)
Definition strip_comment (line : string) : string := PipeGrepQ.strip_from None None line.

(** The loop of [logical_lines]: [start] and [buf] are the variables of the
    source, [n] the number of the next physical line. *)
Fixpoint lines_from (n : nat) (start : option nat) (buf : string) (raws : list string) : list (nat * string) :=
  match raws with
  | [] => if str_eqb buf "" then [] else [(default n start, strip_comment buf)]
  | raw :: raws =>
      let first := default n start in
      if endswith raw "\"
      then lines_from (S n) (Some first) (buf +:+ str_slice 0 (String.length raw - 1) raw +:+ " ") raws
      else (first, strip_comment (buf +:+ raw)) :: lines_from (S n) None "" raws
  end.
Definition logical_lines (text : string) : list (nat * string) := lines_from 1 None "" (str_split text newline).

(** The label of a line that handles a sensitive value *)
Definition handled (code : string) : option string :=
  match find (λ s, searches s.2 code) SOURCES with
  | Some (label, _) => Some label
  | None =>
      let assigned := match re_match ASSIGN code with
                      | Some m => if (contains "$(" (group_text m 2) || contains "`" (group_text m 2)) && flagged_name (group_text m 1)
                                  then Some ("the variable " +:+ group_text m 1) else None
                      | None => None
                      end in
      match assigned with
      | Some l => Some l
      | None => match re_search READ code with
                | Some r => match List.filter flagged_name (split_ws (group_text r 1)) with
                            | v :: _ => Some ("the variable " +:+ v)
                            | [] => None
                            end
                | None => None
                end
      end
  end.
Definition handling_lines (lines : list (nat * string)) : list (nat * string) :=
  omap (λ l, pair l.1 <$> handled l.2) lines.

Definition flag_x : regex := RSeq [RStr "-"; RStar (RChr is_alpha); RStr "x"; RStar (RChr is_alpha)].
Fixpoint xtrace_words (words : list string) : bool :=
  match words with
  | [] => false
  | w :: ws =>
      bool_decide (is_Some (re_fullmatch flag_x w)) ||
      (str_eqb w "-o" && match ws with v :: _ => str_eqb v "xtrace" || startswith v "xtrace" | [] => false end) ||
      xtrace_words ws
  end.
Definition xtrace_on (args : string) : bool := xtrace_words (split_ws args).

Definition is_topset (code : string) : bool := bool_decide (is_Some (re_match TOPSET code)).
Definition is_xoff (code : string) : bool := bool_decide (is_Some (re_match XOFF code)).
Definition num (n : nat) : string := str_of_int (Z.of_nat n).

(** The findings on the [set] command that turns xtrace off *)
Definition judge_off (where_ : string) (first : nat) (lines : list (nat * string)) : list string :=
  let sets := map (λ l, (l.1, strip l.2)) (List.filter (λ l, is_topset l.2) lines) in
  let xoff := (List.filter (λ l, is_xoff l.2) sets).*1 in
  match xoff, sets with
  | [], _ => [where_ +:+ ", and the script has no top-level `set +x`"]
  | x :: _, (s, _) :: _ =>
      if negb (s =? x) then [cat [where_; ", and its first top-level set command (line "; num s; ") is not `set +x`"]]
      else if first <? x then [cat [where_; " before its `set +x` at line "; num x]]
      else []
  | _ :: _, [] => []
  end.
Definition judge_on (path : string) (first : nat) (lines : list (nat * string)) : list string :=
  concat (map (λ l, omap (λ m, if xtrace_on (group_text m 1)
                              then Some (cat [path; ":"; num l.1; " turns xtrace on again, and the script handles a sensitive value (line ";
                                              num first; ")"])
                              else None) (re_finditer ANYSET l.2)) lines).
Definition check_file (path text : string) : list string :=
  let lines := logical_lines text in
  match handling_lines lines with
  | [] => []
  | (first, label) :: _ =>
      judge_off (cat [path; ":"; num first; " handles a sensitive value ("; label; ")"]) first lines ++ judge_on path first lines
  end.

(** [files]: each file of the walk in order, with its first line and its text *)
Definition scan (files : list (string * option string * string)) : list string * nat :=
  let shells := List.filter (λ f, is_shell f.1.1 f.1.2) files in
  (concat (map (λ f, check_file f.1.1 f.2) shells),
   length (List.filter (λ f, nonempty (handling_lines (logical_lines f.2))) shells)).

Definition main (files : list (string * option string * string)) : Z :=
  let '(findings, n) := scan files in
  if n =? 0 then 1%Z else if nonempty findings then 1%Z else 0%Z.

(** ** The self-test *)
Definition OFF : string := unquoted "#!/usr/bin/env bash^set +x^set -euo pipefail^".
(** A backquote in a fixture; [unquoted] reads one as a quote. *)
Definition bt : string := "`".
Definition CASES : list (string * (string * bool)) :=
  [("leak-secret-read.sh", (unquoted "#!/usr/bin/env bash^set -euo pipefail^PAT=`$(kubectl get secret iam-admin-pat -o jsonpath={.data.pat} | base64 -d)`^", true));
   ("leak-name.sh", (unquoted "#!/usr/bin/env bash^set -eu^DAEMON_CLIENT_SECRET=`$(cat /run/x)`^", true));
   ("leak-name-token-id.sh", (unquoted "#!/usr/bin/env bash^set -eu^TOKEN_ID=`$(curl -s x)`^", true));
   ("leak-name-key-name.sh", (unquoted "#!/usr/bin/env bash^set -eu^KEY_NAME=`$(curl -s x)`^", true));
   ("leak-read.sh", (unquoted "#!/bin/sh^set -e^IFS= read -r password^", true));
   ("leak-late-off.sh", (unquoted "#!/usr/bin/env bash^TOKEN=`$(curl -s x | jq -r .access_token)`^set +x^", true));
   ("leak-off-not-first.sh", (unquoted "#!/usr/bin/env bash^set -euo pipefail^set +x^FGA_KEY=`$(kubectl get secret k -o json)`^", true));
   ("leak-stdin.sh", (unquoted "#!/usr/bin/env bash^set -eu^VALUE=`$(cat; printf x)`^", true));
   ("leak-noext", (unquoted "#!/usr/bin/env bash^SEED=`$(head -c 32 /dev/urandom | base64)`^", true));
   ("leak-helper-body.sh", (unquoted "#!/usr/bin/env bash^set -eu^get_it() {^  kubectl get secret s -o json^}^V=`$(get_it)`^", true));
   ("leak-read-file.sh", (unquoted "#!/usr/bin/env bash^set -eu^kubectl get secret s -o jsonpath={.data.v} > /tmp/v^read -r v < /tmp/v^", true));
   ("leak-heredoc.sh", (unquoted "#!/usr/bin/env bash^set -eu^v=$(cat <<EOF^$(vault read -field=v secret/x)^EOF^)^", true));
   ("leak-herestring.sh", (unquoted "#!/usr/bin/env bash^set -eu^read -r v <<< `$(bao kv get -field=v secret/x)`^", true));
   ("leak-mapfile.sh", (unquoted "#!/usr/bin/env bash^set -eu^mapfile -t vs < <(kubectl get secret s -o json | jq -r .data[])^", true));
   ("leak-backticks.sh", (unquoted "#!/usr/bin/env bash^set -eu^v=" +:+ bt +:+ "kubectl get secret s -o json" +:+ bt +:+ newline, true));
   ("leak-split-line.sh", (unquoted "#!/usr/bin/env bash^set -eu^v=`$(kubectl get \^  secret s -o json)`^", true));
   ("leak-id-token.sh", (unquoted "#!/usr/bin/env bash^set -eu^t=`$(curl -s x | jq -r .id_token)`^", true));
   ("leak-jq-token.sh", (unquoted "#!/usr/bin/env bash^set -eu^t=`$(curl -s x | jq -r .token)`^", true));
   ("leak-on-set-x.sh", (OFF +:+ unquoted "PAT=`$(kubectl get secret p -o json)`^set -x^", true));
   ("leak-on-euxo.sh", (OFF +:+ unquoted "PAT=`$(kubectl get secret p -o json)`^set -euxo pipefail^", true));
   ("leak-on-o-xtrace.sh", (OFF +:+ unquoted "PAT=`$(kubectl get secret p -o json)`^set -o xtrace^", true));
   ("leak-on-in-function.sh", (OFF +:+ unquoted "debug() {^    set -x^}^PAT=`$(kubectl get secret p -o json)`^", true));
   ("leak-on-after-semicolon.sh", (OFF +:+ unquoted "PAT=`$(kubectl get secret p -o json)`; set -x^", true));
   ("ok-off-first.sh", (unquoted "#!/usr/bin/env bash^# reads a PAT^set +x^set -euo pipefail^PAT=`$(kubectl get secret p -o jsonpath={.data.pat} | base64 -d)`^", false));
   ("ok-o-xtrace.sh", (unquoted "#!/usr/bin/env bash^set +o xtrace^OPENBAO_SEAL_KEY=`$(keyring_get OPENBAO_SEAL_KEY)`^", false));
   ("ok-off-and-set-e-later.sh", (OFF +:+ unquoted "PAT=`$(kubectl get secret p -o json)`^set +e^set -e^", false));
   ("ok-no-value.sh", (unquoted "#!/usr/bin/env bash^set -euo pipefail^set -x^DOMAIN=`$(kubectl get configmap d -o jsonpath={.data.domain})`^# PAT=`$(kubectl get secret p)` is only a comment^", false));
   ("ok-python.py", (unquoted "#!/usr/bin/env python3^PAT = `$(kubectl get secret x)`^", false))].

(** The files of the temporary directory, in the order of the walk *)
Definition case_files : list (string * option string * string) :=
  map (λ name, let body := from_option fst "" (alist_get name CASES) in ("/t/" +:+ name, head (str_split body newline), body))
    (sorted_strs CASES.*1).
Definition case_ok (c : string * (string * bool)) : bool :=
  let '(name, (body, want)) := c in
  let p := "/t/" +:+ name in
  let got := if is_shell p (head (str_split body newline)) then check_file p body else [] in
  Bool.eqb (nonempty got) want &&
  negb (existsb (λ g, existsb (λ l, (12 <? String.length (strip l)) && contains (strip l) g) (str_split body newline)) got).
Definition selftest : Z :=
  let '(findings, n) := scan case_files in
  let files_with_findings := length (sorted_set (map (λ f, (str_partition f ":").1.1) findings)) in
  if forallb case_ok CASES && (files_with_findings =? length (List.filter (λ c, c.2.2) CASES)) then 0%Z else 1%Z.

Lemma xtrace_selftest : selftest = 0%Z.
Proof. vm_compute. reflexivity. Qed.

(** ** The words of a command *)

Definition all_space (s : string) : Prop := str_forallb is_space s = true.
Lemma split_ws_spaces a y : all_space a → split_ws (a +:+ y) = split_ws y.
Proof.
  unfold all_space. induction a as [|c a IH]; [done|]. cbn [str_forallb]. intros [Hc Ha]%andb_true_iff.
  change (String c a +:+ y) with (String c (a +:+ y)). cbn [split_ws]. rewrite Hc. auto.
Qed.
Lemma split_ws_word d x : is_space d = false → split_ws (String d x) ≠ [].
Proof. intros Hd. cbn [split_ws]. rewrite Hd. destruct x as [|e x]; [done|]. destruct (is_space e); [done|]. by destruct (split_ws _). Qed.
Lemma split_ws_word_ends c d s : is_space c = false → is_space d = true →
  split_ws (String c (String d s)) = String c "" :: split_ws (String d s).
Proof. intros Hc Hd. cbn [split_ws]. by rewrite Hc, Hd. Qed.
Lemma split_ws_word_goes c d s : is_space c = false → is_space d = false →
  split_ws (String c (String d s)) = match split_ws (String d s) with w :: l => String c w :: l | [] => [String c ""] end.
Proof. intros Hc Hd. set (t := String d s). cbn [split_ws]. rewrite Hc. unfold t at 1. by rewrite Hd. Qed.
Lemma split_ws_app x a y : all_space a → a ≠ "" → split_ws (x +:+ a +:+ y) = split_ws x ++ split_ws y.
Proof.
  intros Ha Hne. induction x as [|c x IH]; [exact (split_ws_spaces a y Ha)|].
  change (String c x +:+ a +:+ y) with (String c (x +:+ a +:+ y)). destruct (is_space c) eqn:Ec.
  { cbn [split_ws]. by rewrite Ec. }
  destruct x as [|d x].
  - destruct a as [|e a]; [done|]. unfold all_space in Ha. cbn [str_forallb] in Ha. apply andb_true_iff in Ha as [He Ha].
    change ("" +:+ String e a +:+ y) with (String e (a +:+ y)). rewrite (split_ws_word_ends c e) by done.
    change (String e (a +:+ y)) with (String e a +:+ y). rewrite split_ws_spaces by (unfold all_space; cbn; by rewrite He).
    cbn [split_ws]. by rewrite Ec.
  - change (String d x +:+ a +:+ y) with (String d (x +:+ a +:+ y)) in *. destruct (is_space d) eqn:Ed.
    + rewrite !split_ws_word_ends by done. by rewrite IH.
    + rewrite !split_ws_word_goes, IH by done. destruct (split_ws (String d x)) eqn:E; [by apply split_ws_word in E|done].
Qed.

(** ** The [set] commands of a line *)

Definition separator (c : ascii) : bool := in_chars ";&|{(" c.
Definition in_command (c : ascii) : bool := not_chars ";&|)}" c.
(** A [set] command at the start of a line, or after one of [; & | { (], with
    its arguments up to the end of the command *)
Definition set_command (c args : string) : Prop :=
  ∃ before sep l a r,
    c = before +:+ sep +:+ l +:+ "set" +:+ a +:+ args +:+ r ∧
    ((before = "" ∧ sep = "") ∨ ∃ ch, sep = String ch "" ∧ separator ch = true) ∧
    all_space l ∧ all_space a ∧ a ≠ "" ∧ str_forallb in_command args = true ∧ is_some_and in_command (head_char r) = false.
(** The arguments that turn xtrace on *)
Definition asks_xtrace (args : string) : Prop :=
  (∃ w1 w2, "-" +:+ w1 +:+ "x" +:+ w2 ∈ split_ws args ∧ str_forallb is_alpha w1 = true ∧ str_forallb is_alpha w2 = true) ∨
  (∃ l k w, split_ws args = l ++ "-o" :: ("xtrace" +:+ w) :: k).
Definition turns_on (c : string) : Prop := ∃ args, set_command c args ∧ asks_xtrace args.

(** What is before the word [set] of a match *)
Definition lead (pre : string) : Prop :=
  all_space pre ∨
  (∃ c l, pre = String c l ∧ separator c = true ∧ all_space l) ∨
  (∃ c l, pre = String c l ∧ in_chars "tde" c = true ∧ str_forallb (λ c, negb (separator c)) l = true).

Definition LEAD : regex :=
  ROneOf [RCat RBegin RSpaces; RCat (RChr (in_chars ";&|{(")) RSpaces;
          RSeq [RWordB; ROneOf [RStr "then"; RStr "do"; RStr "else"]; spaces1]].
Lemma space_no_separator t : all_space t → str_forallb (λ c, negb (separator c)) t = true.
Proof. apply forallb_weaken. by intros [[] [] [] [] [] [] [] []]; vm_compute. Qed.
Lemma space_in_command t : all_space t → str_forallb in_command t = true.
Proof. apply forallb_weaken. by intros [[] [] [] [] [] [] [] []]; vm_compute. Qed.

Lemma lead_cases p s q : step LEAD (p, s) q → ∃ pre, s = pre +:+ q.2 ∧ lead pre.
Proof.
  unfold LEAD. cbn [ROneOf RSeq]. intros H. inversion H as [| | |? ? ? ? H1|? ? ? ? H1| | | | | |? ? ? E]; subst; [|clear H|done].
  - apply step_cat_iff in H1 as (a & Ha & Hb). inversion Ha; subst. apply step_star_iff in Hb as (t & -> & Ht). exists t. split; [done|by left].
  - inversion H1 as [| | |? ? ? ? H|? ? ? ? H| | | | | |? ? ? E]; subst; [| |done].
    + apply step_cat_iff in H as (a & Ha & Hb). apply step_chr_iff in Ha as (c & t & -> & Hc & ->).
      apply step_star_iff in Hb as (l & -> & Hl). exists (String c l). split; [done|]. right; left. by exists c, l.
    + apply step_cat_iff in H as (a & Ha & H). inversion Ha; subst. apply step_cat_iff in H as ([p1 s1] & Hk & Hs).
      apply step_plus_iff in Hs as (l & -> & _ & Hl).
      assert (∃ kw, kw ∈ ["then"; "do"; "else"] ∧ s = kw +:+ l +:+ q.2) as (kw & Hkw & ->).
      { inversion Hk as [| | |? ? ? ? H|? ? ? ? H| | | | | |? ? ? E]; subst; [|clear Hk|done].
        - apply (step_str_iff "then") in H. exists "then". split; [left|exact H].
        - inversion H as [| | |? ? ? ? H2|? ? ? ? H2| | | | | |? ? ? E]; subst; [| |done].
          + apply (step_str_iff "do") in H2. exists "do". split; [set_solver|exact H2].
          + apply (step_str_iff "else") in H2. exists "else". split; [set_solver|exact H2]. }
      exists (kw +:+ l). split; [by rewrite append_assoc|]. right; right. apply space_no_separator in Hl.
      repeat (apply elem_of_cons in Hkw as [->|Hkw]); [..|by apply elem_of_nil in Hkw];
        (eexists _, _; split; [reflexivity|]; split; [reflexivity|]; simpl; exact Hl).
Qed.

Lemma any_match before p s m : match_at ANYSET before p s = Some m →
  ∃ pre sp g, s = pre +:+ "set" +:+ sp +:+ g +:+ f_after m ∧ lead pre ∧ all_space sp ∧ sp ≠ "" ∧
    str_forallb in_command g = true ∧ is_some_and in_command (head_char (f_after m)) = false ∧ group_text m 1 = g.
Proof.
  unfold match_at. change ANYSET with (RCat LEAD (RCat (RStr "set") (RCat spaces1 (RGroup 1 (RStar (RChr in_command)))))).
  intros H. next_part H s1 L1. next_part H s2 L2. next_part H s3 L3. rewrite rmatch_group in H.
  apply lead_cases in L1 as (pre & -> & Hlead). apply step_str_iff in L2. apply step_plus_iff in L3 as (sp & Hsp & Hne & Hs).
  cbn [snd] in *. subst s1 s2. destruct (span_ex in_command s3) as (g & r & -> & Hg & Hr).
  match type of H with rmatch _ (State ?q _ ?gs) (λ st, Some (@?K st)) = _ => destruct (rmatch_star_max in_command g q r gs K Hg Hr) as [p' E] end.
  rewrite E in H. injection H as <-. exists pre, sp, g. cbn [f_after rest]. split_and!; try done.
  unfold group_text, group. cbn. by rewrite consumed_app.
Qed.

Lemma set_command_step p sep l a args r :
  (sep = "" ∧ p = None ∨ ∃ ch, sep = String ch "" ∧ separator ch = true) → all_space l → all_space a → a ≠ "" → str_forallb in_command args = true →
  ∃ q, step ANYSET (p, sep +:+ l +:+ "set" +:+ a +:+ args +:+ r) q.
Proof.
  intros Hsep Hl Ha Hne Hargs.
  assert (∃ p1, step LEAD (p, sep +:+ l +:+ "set" +:+ a +:+ args +:+ r) (p1, "set" +:+ a +:+ args +:+ r)) as [p1 H1].
  { destruct Hsep as [[-> ->]|(ch & -> & Hch)].
    - destruct (step_star is_space l None ("set" +:+ a +:+ args +:+ r) Hl) as [p1 H]. exists p1. apply step_alt_l.
      eapply step_cat; [by constructor|exact H].
    - destruct (step_star is_space l (Some ch) ("set" +:+ a +:+ args +:+ r) Hl) as [p1 H]. exists p1. apply step_alt_r, step_alt_l.
      eapply step_cat; [by apply step_chr|exact H]. }
  destruct (step_str "set" p1 (a +:+ args +:+ r)) as [p2 H2].
  assert (∃ p3, step spaces1 (p2, a +:+ args +:+ r) (p3, args +:+ r)) as [p3 H3].
  { destruct a as [|c a]; [done|]. unfold all_space in Ha. cbn [str_forallb] in Ha. apply andb_true_iff in Ha as [Hc Ha].
    destruct (step_star is_space a (Some c) (args +:+ r) Ha) as [p3 H]. exists p3. eapply step_cat; [by apply step_chr|exact H]. }
  destruct (step_star in_command args p3 r Hargs) as [p4 H4]. exists (p4, r).
  change ANYSET with (RCat LEAD (RCat (RStr "set") (RCat spaces1 (RGroup 1 (RStar (RChr in_command)))))).
  eapply step_cat; [exact H1|]. eapply step_cat; [exact H2|]. eapply step_cat; [exact H3|]. by apply step_group.
Qed.

Lemma ANYSET_takes_text x y : step ANYSET x y → (String.length y.2 < String.length x.2)%nat.
Proof.
  change ANYSET with (RCat LEAD (RCat (RStr "set") (RCat spaces1 (RGroup 1 (RStar (RChr in_command)))))).
  rewrite step_cat_iff. intros (a & H1 & H). apply step_cat_iff in H as ([p b] & H2 & H3). destruct a as [pa sa].
  apply step_str_iff in H2. apply step_suffix, suffix_of_length in H1, H3. cbn [snd] in *. subst sa. rewrite append_length in H1. cbn in H1. lia.
Qed.

(** The word [set] after what is before it *)
Lemma set_head pre l sp rest' rest :
  all_space pre → all_space l → pre +:+ "set" +:+ sp +:+ rest' = l +:+ "set" +:+ rest → sp +:+ rest' = rest.
Proof.
  intros Hp Hl E. destruct (span_unique is_space pre l ("set" +:+ sp +:+ rest') ("set" +:+ rest) Hp Hl eq_refl eq_refl E) as [_ E']. simpl in E'. by injection E'.
Qed.
(** Two [set] commands at one position are the same. *)
Lemma same_command pre sp g r sep l a args r' :
  pre +:+ "set" +:+ sp +:+ g +:+ r = sep +:+ l +:+ "set" +:+ a +:+ args +:+ r' →
  lead pre → sep = "" ∨ (∃ ch, sep = String ch "" ∧ separator ch = true) → all_space l → sp +:+ g +:+ r = a +:+ args +:+ r'.
Proof.
  intros E Hlead Hsep Hl. destruct Hlead as [Hp|[(c & t & -> & Hc & Ht)|(c & t & -> & Hc & Ht)]].
  - destruct Hsep as [->|(ch & -> & Hch)]; [exact (set_head pre l _ _ _ Hp Hl E)|]. exfalso. destruct pre as [|d pre]; simpl in E; injection E as E1 E2.
    + by subst ch.
    + subst d. unfold all_space in Hp. cbn in Hp. apply andb_true_iff in Hp as [Hp _].
      revert Hp Hch. clear. destruct ch as [[] [] [] [] [] [] [] []]; vm_compute; congruence.
  - destruct Hsep as [->|(ch & -> & Hch)].
    + exfalso. destruct l as [|d l]; simpl in E; injection E as E1 E2.
      * by subst c.
      * subst d. unfold all_space in Hl. cbn in Hl. apply andb_true_iff in Hl as [Hd _].
        revert Hd Hc. clear. destruct c as [[] [] [] [] [] [] [] []]; vm_compute; congruence.
    + simpl in E. injection E as -> E. exact (set_head t l _ _ _ Ht Hl E).
  - exfalso. assert (∃ k, sep +:+ l +:+ "set" +:+ a +:+ args +:+ r' = String c k) as [k E'] by (eexists; symmetry; exact E).
    clear E. revert Hc E'. destruct Hsep as [->|(ch & -> & Hch)].
    + destruct l as [|d l]; simpl; intros Hc [= <- _]; [done|]. unfold all_space in Hl. cbn in Hl. apply andb_true_iff in Hl as [Hd _].
      revert Hd Hc. clear. destruct d as [[] [] [] [] [] [] [] []]; vm_compute; congruence.
    + simpl. intros Hc [= <- _]. revert Hch Hc. clear. destruct ch as [[] [] [] [] [] [] [] []]; vm_compute; congruence.
Qed.

Lemma lead_tail c pre : lead (String c pre) → str_forallb (λ c, negb (separator c)) pre = true.
Proof.
  intros [H|[(d & t & [= -> ->] & _ & H)|(d & t & [= -> ->] & _ & H)]]; [|by apply space_no_separator|done].
  apply space_no_separator in H. cbn in H. by apply andb_true_iff in H as [].
Qed.

(** Each [set] command of a line is found, with at least its arguments. *)
Lemma set_command_found c args : set_command c args →
  ∃ m pre, m ∈ re_finditer ANYSET c ∧ split_ws (group_text m 1) = pre ++ split_ws args.
Proof.
  intros (before & sep & l & a & r & -> & Hsep & Hl & Ha & Hne & Hargs & Hr).
  assert (∃ q, suffix_of (None, before +:+ sep +:+ l +:+ "set" +:+ a +:+ args +:+ r) (q, sep +:+ l +:+ "set" +:+ a +:+ args +:+ r) ∧
               (sep = "" ∧ q = None ∨ ∃ ch, sep = String ch "" ∧ separator ch = true)) as (q & Hq & Hs).
  { destruct Hsep as [[-> ->]|Hs]; [exists None; split; [constructor|by left]|].
    destruct (app_suffix_of before None (sep +:+ l +:+ "set" +:+ a +:+ args +:+ r)) as [q H]. exists q. split; [exact H|by right]. }
  destruct (set_command_step q sep l a args r Hs Hl Ha Hne Hargs) as [e He].
  destruct (finditer_covers ANYSET _ None _ _ _ ANYSET_takes_text (Nat.le_refl _) Hq He) as (m & bf & [p0 s0] & Hm & Hat & Hsuf & Hlen).
  exists m. cbn [fst snd] in Hat, Hlen. apply any_match in Hat as (pre & sp & g & Hs0 & Hlead & Hsp & Hspne & Hg & Hstop & Hgt).
  destruct (suffix_of_app _ _ _ _ Hsuf) as [u Hu]. rewrite Hu in Hs0. rewrite Hgt. destruct u as [|d u].
  - exists []. split; [exact Hm|]. symmetry in Hs0. apply same_command in Hs0; [|done|destruct Hs as [[-> _]|?]; [by left|by right]|done].
    rewrite <- !append_assoc in Hs0. apply (span_unique in_command) in Hs0 as [E _].
    + by rewrite <- (split_ws_spaces sp g Hsp), E, split_ws_spaces.
    + by rewrite str_forallb_app, Hg, (space_in_command _ Hsp).
    + by rewrite str_forallb_app, Hargs, (space_in_command _ Ha).
    + done.
    + done.
  - destruct Hs as [[-> ->]|(ch & -> & Hch)].
    { exfalso. apply suffix_none in Hsuf; [|done]. injection Hsuf as _ ->. apply (f_equal String.length) in Hu.
      rewrite (append_length (String d u)) in Hu. change (String.length (String d u)) with (S (String.length u)) in Hu. lia. }
    change (String d u +:+ String ch "" +:+ l +:+ "set" +:+ a +:+ args +:+ r) with (String d (u +:+ String ch (l +:+ "set" +:+ a +:+ args +:+ r))) in Hs0.
    set (w := l +:+ "set" +:+ a +:+ args +:+ r) in *.
    assert (∃ x, str_forallb (λ c, negb (separator c)) x = true ∧ x +:+ g +:+ f_after m = u +:+ String ch w) as (x & Hx & E).
    { destruct pre as [|c0 pre].
      - exists ("et" +:+ sp). apply space_no_separator in Hsp. split; [by simpl|]. simpl in Hs0. injection Hs0 as _ E. by rewrite append_assoc in *.
      - exists (pre +:+ "set" +:+ sp). apply lead_tail in Hlead. apply space_no_separator in Hsp. split; [by rewrite !str_forallb_app, Hlead, Hsp|].
        simpl in Hs0. injection Hs0 as _ E. rewrite !append_assoc. by simpl in *. }
    apply (class_within (λ c, negb (separator c))) in E as (b & -> & E); [|done|by rewrite Hch].
    apply cut_within in E as (g' & -> & E); [|exact Hlen]. rewrite str_forallb_app in Hg. apply andb_true_iff in Hg as [_ Hg].
    cbn [str_forallb] in Hg. apply andb_true_iff in Hg as [_ Hg]. unfold w in E.
    replace (l +:+ "set" +:+ a +:+ args +:+ r) with ((l +:+ "set" +:+ a +:+ args) +:+ r) in E by by rewrite !append_assoc.
    apply (span_unique in_command) in E as [<- _]; [| |done|done|done].
    2:{ rewrite !str_forallb_app, Hargs, (space_in_command _ Hl), (space_in_command _ Ha). done. }
    exists (split_ws (b +:+ String ch (l +:+ "set"))). split; [exact Hm|]. rewrite <- (split_ws_app _ a args Ha Hne). f_equal. rewrite append_assoc.
    change (String ch (l +:+ "set") +:+ a +:+ args) with (String ch ((l +:+ "set") +:+ a +:+ args)). by rewrite append_assoc.
Qed.

Lemma xtrace_words_app l k : xtrace_words k = true → xtrace_words (l ++ k) = true.
Proof. intros H. induction l as [|w l IH]; [done|]. change ((w :: l) ++ k) with (w :: (l ++ k)). cbn [xtrace_words]. rewrite IH. apply orb_true_r. Qed.
Lemma asks_xtrace_found ws args : asks_xtrace args → xtrace_words (ws ++ split_ws args) = true.
Proof.
  intros H. apply xtrace_words_app. destruct H as [(w1 & w2 & Hin & H1 & H2)|(l & k & w & ->)].
  - apply list_elem_of_split in Hin as (l & k & ->). apply xtrace_words_app. cbn [xtrace_words].
    apply orb_true_iff. left. apply orb_true_iff. left. apply bool_decide_eq_true, fullmatch_iff.
    destruct (step_star is_alpha w1 (Some "-"%char) ("x" +:+ w2) H1) as [p1 S1].
    destruct (step_star is_alpha w2 (Some "x"%char) "" H2) as [p2 S2]. rewrite append_nil_r in S2. exists p2.
    unfold flag_x. cbn [RSeq]. eapply step_cat; [eapply step_cat; [by apply step_chr|constructor]|].
    eapply step_cat; [exact S1|]. eapply step_cat; [eapply step_cat; [by apply step_chr|constructor]|exact S2].
  - apply xtrace_words_app. cbn [xtrace_words]. apply orb_true_iff. left. apply orb_true_iff. right.
    rewrite str_eqb_refl. cbn [andb]. apply orb_true_iff. right. apply startswith_true. by exists w.
Qed.

(** ** The line that turns xtrace off *)

(** A line at the first column that turns xtrace off, and nothing else *)
Definition turns_off (c : string) : Prop :=
  ∃ a flag b, c = "set" +:+ a +:+ flag +:+ b ∧ all_space a ∧ a ≠ "" ∧ all_space b ∧
    (flag = "+x" ∨ ∃ d, flag = "+o" +:+ d +:+ "xtrace" ∧ all_space d ∧ d ≠ "").

Lemma lstrip_ex s : ∃ l, all_space l ∧ s = l +:+ lstrip_of is_space s.
Proof.
  induction s as [|c s (l & Hl & E)]; [by exists ""|]. cbn [lstrip_of]. destruct (is_space c) eqn:Ec; [|by exists ""].
  exists (String c l). split; [unfold all_space in *; cbn; by rewrite Ec|exact (f_equal (String c) E)].
Qed.
Lemma rstrip_ex s : ∃ r, all_space r ∧ s = rstrip_of is_space s +:+ r.
Proof.
  induction s as [|c s (r & Hr & E)]; [by exists ""|]. cbn [rstrip_of]. destruct (rstrip_of is_space s) as [|d t] eqn:Es.
  - change ("" +:+ r) with r in E. subst s. destruct (is_space c) eqn:Ec; [|by exists r].
    exists (String c r). unfold all_space in *. cbn. by rewrite Ec.
  - exists r. split; [done|]. exact (f_equal (String c) E).
Qed.
Lemma all_space_app a b : all_space a → all_space b → all_space (a +:+ b).
Proof. unfold all_space. rewrite str_forallb_app. intros -> ->. done. Qed.

Lemma xoff_turns_off c : is_topset c = true → is_xoff (strip c) = true → turns_off c.
Proof.
  unfold is_topset, is_xoff. intros Ht%bool_decide_eq_true Hx%bool_decide_eq_true. apply re_match_iff in Ht as [q1 Ht], Hx as [q2 Hx].
  assert (∃ t, c = "set" +:+ t) as [t Hc].
  { unfold TOPSET in Ht. cbn [RSeq] in Ht. apply step_cat_iff in Ht as (a & Ha & Ht). inversion Ha; subst.
    apply step_cat_iff in Ht as ([p b] & Hb & _). apply (step_str_iff "set") in Hb. by exists b. }
  destruct (rstrip_ex c) as (r & Hr & E1). destruct (lstrip_ex (rstrip_of is_space c)) as (l & Hl & E2).
  change (lstrip_of is_space (rstrip_of is_space c)) with (strip c) in E2. rewrite E2 in E1.
  unfold XOFF in Hx. cbn [RSeq] in Hx. apply step_cat_iff in Hx as (x & Hb & Hx). apply (step_assertion RBegin) in Hb; [subst x|done].
  apply step_cat_iff in Hx as ([p1 s1] & H1 & Hx). apply (step_str_iff "set") in H1. cbn [snd] in H1.
  apply step_cat_iff in Hx as ([p2 s2] & H2 & Hx). apply step_plus_iff in H2 as (a & -> & Hane & Ha).
  apply step_cat_iff in Hx as ([p3 s3] & H3 & Hx). apply step_cat_iff in Hx as ([p4 s4] & H4 & H5).
  apply step_star_iff in H4 as (b & -> & Hb). cbn [snd] in *. apply step_end_iff in H5 as [_ He].
  assert (all_space s4) as Hs4.
  { destruct s4 as [|e [|f s4]]; [done| |done]. cbn [at_end] in He. clear -He. unfold all_space. cbn. rewrite andb_true_r.
    revert He. destruct e as [[] [] [] [] [] [] [] []]; vm_compute; congruence. }
  assert (l = "") as ->.
  { destruct l as [|e l]; [done|]. rewrite Hc in E1. simpl in E1. injection E1 as <- _. by unfold all_space in Hl. }
  change ("" +:+ strip c) with (strip c) in E1. rewrite H1 in E1.
  assert (∃ flag, s2 = flag +:+ b +:+ s4 ∧ (flag = "+x" ∨ ∃ d, flag = "+o" +:+ d +:+ "xtrace" ∧ all_space d ∧ d ≠ "")) as (flag & -> & Hf).
  { inversion H3 as [| | | | | | | | |? ? ? ? Hg|? ? ? E]; subst; [|done]. inversion Hg as [| | |? ? ? ? H|? ? ? ? H| | | | | |? ? ? E]; subst; [| |done].
    - apply (step_str_iff "+x") in H. exists "+x". split; [exact H|by left].
    - apply step_cat_iff in H as ([p5 s5] & H5 & H). apply (step_str_iff "+o") in H5. cbn [snd] in H5. subst s2.
      apply step_cat_iff in H as ([p6 s6] & H6 & H). apply step_plus_iff in H6 as (d & -> & Hdne & Hd). cbn [snd] in *.
      apply (step_str_iff "xtrace") in H. cbn [snd] in H. subst s6. exists ("+o" +:+ d +:+ "xtrace").
      split; [by rewrite !append_assoc|]. right. by exists d. }
  exists a, flag, (b +:+ s4 +:+ r). split; [rewrite E1; by rewrite !append_assoc|]. split_and!; [done|done| |done].
  by apply all_space_app; [|apply all_space_app].
Qed.

(** ** A line that handles a value is not the one that turns xtrace off *)

Definition off_char (c : ascii) : bool := in_chars "setxorac+" c || is_space c.
Lemma turns_off_chars c : turns_off c → str_forallb off_char c = true.
Proof.
  assert (∀ t, all_space t → str_forallb off_char t = true) as Hs.
  { intros t. apply forallb_weaken. intros x Hx. unfold off_char. by rewrite Hx, orb_true_r. }
  intros (a & flag & b & -> & Ha & _ & Hb & Hf). rewrite !str_forallb_app, (Hs _ Ha), (Hs _ Hb).
  destruct Hf as [->|(d & -> & Hd & _)]; [done|]. by rewrite !str_forallb_app, (Hs _ Hd).
Qed.
Lemma needs_search r c : needs off_char r = true → is_Some (re_search r c) → str_forallb off_char c = false.
Proof.
  intros Hn Hs. unfold re_search, is_Some in Hs. apply search_from_iff in Hs as ([q t] & b & Hs & H). apply step_needs with (ok := off_char) in H; [|done].
  apply suffix_of_app in Hs as [u ->]. rewrite str_forallb_app. cbn [snd] in H. by rewrite H, andb_false_r.
Qed.
Lemma handled_not_off c : is_Some (handled c) → ¬ turns_off c.
Proof.
  intros H Hoff. apply turns_off_chars in Hoff. assert (str_forallb off_char c = false) as E; [|congruence]. clear Hoff.
  unfold handled in H. destruct (find _ SOURCES) as [[label r]|] eqn:Ef.
  - apply find_some in Ef as [Hin Hr]. cbn [snd] in Hr. apply bool_decide_eq_true in Hr. eapply needs_search; [|exact Hr].
    assert (forallb (λ s, needs off_char s.2) SOURCES = true) as Hall by (vm_compute; reflexivity).
    rewrite forallb_forall in Hall. by apply (Hall (label, r)).
  - clear Ef. destruct (re_match ASSIGN c) as [m|] eqn:Em.
    + assert (is_Some (re_match ASSIGN c)) as Hs by (by eexists). apply re_match_iff in Hs as [q Hq].
      apply step_needs with (ok := off_char) in Hq; [exact Hq|vm_compute; reflexivity].
    + destruct (re_search READ c) as [r|] eqn:Er; [|by destruct H].
      apply (needs_search READ); [vm_compute; reflexivity|by eexists].
Qed.

(** ** The numbers of the lines *)

Lemma lines_from_sorted n start buf raws :
  (default n start ≤ n)%nat →
  StronglySorted lt (lines_from n start buf raws).*1 ∧ Forall (λ k, (default n start ≤ k)%nat) (lines_from n start buf raws).*1.
Proof.
  revert n start buf. induction raws as [|raw raws IH]; intros n start buf Hn; cbn [lines_from].
  - destruct (str_eqb buf ""); cbn; split; repeat constructor.
  - destruct (endswith raw "\").
    + destruct (IH (S n) (Some (default n start)) (buf +:+ str_slice 0 (String.length raw - 1) raw +:+ " ")) as [H1 H2]; [cbn; lia|]. by cbn in *.
    + destruct (IH (S n) None "") as [H1 H2]; [cbn; lia|]. cbn in *. split.
      * constructor; [exact H1|]. eapply Forall_impl; [exact H2|]. intros k Hk. cbn in Hk. lia.
      * constructor; [lia|]. eapply Forall_impl; [exact H2|]. intros k Hk. cbn in Hk. lia.
Qed.
Lemma logical_lines_sorted text : StronglySorted lt (logical_lines text).*1.
Proof. apply lines_from_sorted. done. Qed.

Section sorted.
Context {A : Type}.
Implicit Types l : list (nat * A).
(** Two lines of one number are the same, and a smaller number is before. *)
Lemma sorted_before l pre n (c : A) post k x :
  StronglySorted lt l.*1 → l = pre ++ (n, c) :: post → (k, x) ∈ l → (k ≤ n)%nat → (k, x) = (n, c) ∨ (k, x) ∈ pre.
Proof.
  intros Hs -> [H|[H|H]%elem_of_cons]%elem_of_app Hk; [by right|by left|exfalso].
  rewrite fmap_app in Hs. apply StronglySorted_app_1_r in Hs. cbn in Hs. apply StronglySorted_inv in Hs as [_ Hs].
  rewrite Forall_forall in Hs. assert (k ∈ post.*1) as Hin by (by apply (list_elem_of_fmap_2 fst _ (k, x))).
  apply Hs in Hin. lia.
Qed.
(** The head of a filtered list is its smallest number. *)
Lemma filter_head_le (f : nat * A → bool) l k x n c :
  StronglySorted lt l.*1 → head (List.filter f l) = Some (k, x) → (n, c) ∈ l → f (n, c) = true → (k ≤ n)%nat.
Proof.
  intros Hs Hh Hin Hf. induction l as [|[m y] l IH]; [by apply elem_of_nil in Hin|]. cbn [List.filter] in Hh.
  cbn in Hs. apply StronglySorted_inv in Hs as [Hs Hall]. rewrite Forall_forall in Hall.
  destruct (f (m, y)) eqn:E.
  - injection Hh as -> ->. apply elem_of_cons in Hin as [[= -> ->]|Hin]; [done|].
    assert (n ∈ l.*1) as Hn by (by apply (list_elem_of_fmap_2 fst _ (n, c))). apply Hall in Hn. lia.
  - apply elem_of_cons in Hin as [[= -> ->]|Hin]; [congruence|]. by apply IH.
Qed.
End sorted.

Lemma number_unique {A} (l : list (nat * A)) k x y :
  StronglySorted lt l.*1 → (k, x) ∈ l → (k, y) ∈ l → x = y.
Proof.
  intros Hs Hx Hy. apply list_elem_of_split in Hx as (pre & post & E).
  destruct (sorted_before l pre k x post k y Hs E Hy) as [[= ->]|H]; [done|done|]. exfalso.
  rewrite E, fmap_app in Hs. pose proof (StronglySorted_app_1_elem_of _ _ _ k k Hs) as Hlt.
  assert (k < k)%nat; [|lia]. apply Hlt; [by apply (list_elem_of_fmap_2 fst _ (k, y))|left].
Qed.

Lemma handling_filter lines :
  (handling_lines lines).*1 = (List.filter (λ l, bool_decide (is_Some (handled l.2))) lines).*1.
Proof.
  induction lines as [|[n c] lines IH]; [done|]. unfold handling_lines in *. cbn [omap list_omap List.filter snd fst].
  destruct (handled c) as [label|] eqn:E; cbn; rewrite IH; done.
Qed.

(** The line that turns xtrace off, in a script with no finding *)
Lemma judge_off_nil w first lines : StronglySorted lt lines.*1 → judge_off w first lines = [] →
  ∃ k code, (k, code) ∈ lines ∧ turns_off code ∧ (k ≤ first)%nat.
Proof.
  intros Hs. unfold judge_off. set (sets := map _ _).
  destruct ((List.filter (λ l, is_xoff l.2) sets).*1) as [|x xs] eqn:Ex; [done|].
  destruct sets as [|[s t] rest] eqn:Es; [done|]. destruct (s =? x) eqn:Esx; [|done]. apply Nat.eqb_eq in Esx as <-.
  cbn [negb]. destruct (first <? s) eqn:Ef; [done|]. apply Nat.ltb_ge in Ef. intros _.
  assert (s ∈ (List.filter (λ l, is_xoff l.2) ((s, t) :: rest)).*1) as Hin by (rewrite Ex; left).
  apply list_elem_of_fmap in Hin as ([s' t'] & Heq & Hin). cbn in Heq. subst s'.
  apply list_elem_of_In, filter_In in Hin as [Hin Hxoff]. cbn [snd] in Hxoff. rewrite <- Es in Hin. unfold sets in Hin.
  apply in_map_iff in Hin as ([k code] & [= -> <-] & Hin). apply filter_In in Hin as [Hin Htop]. cbn [snd] in Htop.
  exists s, code. split_and!; [by apply list_elem_of_In|by apply xoff_turns_off|done].
Qed.

Lemma judge_on_nil path first lines n c : judge_on path first lines = [] → (n, c) ∈ lines → ¬ turns_on c.
Proof.
  intros H Hin (args & Hset & Hasks). apply set_command_found in Hset as (m & pre & Hm & Hws).
  unfold judge_on in H. eapply concat_nil in H; [|by apply (list_elem_of_fmap_2 _ _ _ Hin)]. cbn [fst snd] in H.
  assert (xtrace_on (group_text m 1) = true) as Hx by (unfold xtrace_on; rewrite Hws; by apply asks_xtrace_found).
  apply list_elem_of_split in Hm as (l1 & l2 & E). rewrite E, omap_app in H. apply app_nil in H as [_ H].
  cbn [omap list_omap] in H. by rewrite Hx in H.
Qed.

(** ** A run of the lines *)

(** The states of xtrace after the first lines of a script that started with
    it on or off: a line that turns it off does so, a line with a command that
    turns it on may do so, and each other line keeps it. *)
Inductive traced (start : bool) : list string → bool → Prop :=
  | Traced_start : traced start [] start
  | Traced_off cs c b : traced start cs b → turns_off c → traced start (cs ++ [c]) false
  | Traced_on cs c b : traced start cs b → turns_on c → traced start (cs ++ [c]) true
  | Traced_keep cs c b : traced start cs b → ¬ turns_off c → traced start (cs ++ [c]) b.

Lemma traced_off start cs b c :
  traced start cs b → (∀ d, d ∈ cs → ¬ turns_on d) → c ∈ cs → turns_off c → b = false.
Proof.
  intros H Hon. revert c. induction H as [|cs c b H IH Hc|cs c b H IH Hc|cs c b H IH Hc]; intros d Hd Hoff.
  - by apply elem_of_nil in Hd.
  - done.
  - exfalso. apply (Hon c); [|done]. apply elem_of_app. right. left.
  - apply elem_of_app in Hd as [Hd|Hd%list_elem_of_singleton]; [|by subst d].
    eapply IH; [|exact Hd|done]. intros e He. apply Hon, elem_of_app. by left.
Qed.


Definition good_text : string := OFF +:+ unquoted "PAT=`$(kubectl get secret p -o json)`^set +e^set -e^".
