(* ===== verification/ChartDeps.v ===== *)
(** * scripts/check-chart-deps-fresh.py: the vendored charts are those of the sources

    The files of the repository are a state; the guard records a digest of the
    sources of a chart in a stamp, and compares it later.  The listing of
    scripts/chart-dep-srcs.sh is an argument. *)
From stdpp Require Import gmap sorting.
From S2P Require Import Prelude PyStr PyVal Regex Sha256.
From Stdlib Require Import Ascii.

(** The files under the root, by their path *)
Abbreviation tree := (gmap string string) (only parsing).

Definition STAMP_NAME : string := ".charts.stamp".
Definition CHARTS : list string := ["gibson-operators"; "gibson-workloads"; "gibson-crds"; "gibson"; "gibson-velero"].
Definition STAMP_HEADER : string :=
  cat ["# chart-deps stamp — written by `make chart-deps`; gitignored build output."; newline;
       "# Records the digest of the sources helm/<chart>/charts/*.tgz was packaged"; newline;
       "# from. Do not edit by hand: see scripts/check-chart-deps-fresh.py."; newline].

Definition chart_dir (chart : string) : string := "helm/" +:+ chart.
Definition read_text (t : tree) (path : string) : result string :=
  match t !! path with Some s => Ok s | None => Raise OSError end.
Definition nul : string := String "000" "".

(** ** The declared dependencies *)

Definition key_char (c : ascii) : bool := is_alpha c || is_digit c || in_chars "_.-" c.
Definition _DEP_NAME : regex :=
  RSeq [RBegin; RSpaces; RStr "-"; RPlus (RChr is_space); RStr "name:"; RSpaces;
        ROpt (RChr (λ c, Ascii.eqb c dquote || Ascii.eqb c squote)); RGroup 1 (RPlus (RChr key_char))].
Definition DEPENDENCIES : regex := RSeq [RBegin; RStr "dependencies:"; RSpaces; REnd].
Definition TOP_KEY : regex := RSeq [RBegin; RPlus (RChr key_char); RSpaces; RStr ":"].
Definition matches (r : regex) (s : string) : bool := bool_decide (is_Some (re_match r s)).

(** The loop over the lines; [inside] is the variable of the source. *)
Fixpoint deps_from (inside : bool) (lines : list string) : list string :=
  match lines with
  | [] => []
  | line :: lines =>
      if negb inside then deps_from (matches DEPENDENCIES line) lines
      else if matches TOP_KEY line then []
      else match re_match _DEP_NAME line with
           | Some m => group_text m 1 :: deps_from true lines
           | None => deps_from true lines
           end
  end.
Definition declared_deps (t : tree) (dir : string) : result (list string) :=
  text <- read_text t (dir +:+ "/Chart.yaml") ;; Ok (deps_from false (splitlines text)).

(** The names in a directory: the first part of each path below it *)
Definition entries (t : tree) (dir : string) : list string :=
  omap (λ p, head (str_split p "/")) (omap (λ kv, drop_prefix (dir +:+ "/") kv.1) (map_to_list t)).
(** [charts.glob(f"{dep}-*.tgz")] *)
Definition is_tarball (dep name : string) : bool :=
  match drop_prefix (dep +:+ "-") name with Some r => endswith r ".tgz" | None => false end.
Definition missing_tarballs (t : tree) (dir : string) : result (list string) :=
  deps <- declared_deps t dir ;;
  Ok (List.filter (λ dep, negb (existsb (is_tarball dep) (entries t (dir +:+ "/charts")))) deps).

Section guard.
(** [chart-dep-srcs.sh <dir>] in a tree: exit code, stdout and stderr *)
Context (srcs_script : tree → string → Z * string * string).

Definition source_files (chart : string) (t : tree) : result (list string) :=
  let '(code, out, err) := srcs_script t (chart_dir chart) in
  if negb (code =? 0)%Z then Raise (GuardBroken (cat ["chart-dep-srcs.sh failed for "; chart; ":"; newline; strip err])) else
  let files := List.filter (λ ln, negb (str_eqb (strip ln) "")) (splitlines out) in
  if nonempty files then Ok files
  else Raise (GuardBroken (cat ["chart-dep-srcs.sh listed NO sources for "; chart;
                                " — an empty prerequisite list would make the stamp permanently 'fresh'"])).

(** What the digest of one file adds to the hash *)
Definition source_entry (rel content : string) : string := cat [rel; nul; sha256_hex content; newline].
Definition sources_text (chart : string) (t : tree) : result string :=
  files <- source_files chart t ;;
  l <- mapR (λ rel, c <- read_text t rel ;; Ok (source_entry rel c)) (sorted_strs files) ;; Ok (cat l).
Definition sources_digest (chart : string) (t : tree) : result string :=
  text <- sources_text chart t ;; Ok (sha256_hex text).

Definition stamp_path (chart : string) : string := cat [chart_dir chart; "/"; STAMP_NAME].
Definition stamp_text (chart digest : string) : string :=
  cat [STAMP_HEADER; "chart: "; chart; newline; "sources-sha256: "; digest; newline].
Definition write_stamp (chart : string) (t : tree) : result tree :=
  missing <- missing_tarballs t (chart_dir chart) ;;
  if nonempty missing
  then Raise (GuardBroken (cat [chart; ": `helm dependency update` left no tarball for "; str_join ", " missing;
                                " — refusing to stamp a build that did not happen"]))
  else digest <- sources_digest chart t ;; Ok (<[stamp_path chart := stamp_text chart digest]> t).

Definition digest_line (line : string) : option string :=
  if startswith line "sources-sha256:" then (λ p, strip p.2) <$> split1 ":" line else None.
Definition stamp_digest (t : tree) (chart : string) : option string :=
  match t !! stamp_path chart with
  | None => None
  | Some text => head (omap digest_line (splitlines text))
  end.

Definition verify (chart : string) (t : tree) : result (option string) :=
  let dir := chart_dir chart in
  match t !! (dir +:+ "/Chart.yaml") with
  | None => Raise (GuardBroken (dir +:+ "/Chart.yaml not found"))
  | Some _ =>
      match stamp_digest t chart with
      | None => Ok (Some (cat [chart; ": no "; STAMP_NAME; " — charts/*.tgz was never built here"]))
      | Some recorded =>
          missing <- missing_tarballs t dir ;;
          if nonempty missing
          then Ok (Some (cat [chart; ": stamped, but charts/ has no tarball for "; str_join ", " missing;
                              " — the vendored dependency is gone"]))
          else
            actual <- sources_digest chart t ;;
            Ok (if str_eqb actual recorded then None
                else Some (cat [chart; ": subchart sources changed since charts/*.tgz was packaged (stamped ";
                                str_slice 0 12 recorded; ", now "; str_slice 0 12 actual; ")"]))
      end
  end.

(** The handler of [GuardBroken] in [main] *)
Definition guarded {A} (m : result A) (k : A → Z) : result Z :=
  match m with Ok x => Ok (k x) | Raise (GuardBroken _) => Ok 2%Z | Raise e => Raise e end.
(** [main] with its parsed arguments: the files after it, and the exit code *)
Definition main (charts : list string) (write : option string) (t : tree) : tree * result Z :=
  match write with
  | Some c =>
      let m := write_stamp c t in
      (match m with Ok t' => t' | Raise _ => t end, guarded m (λ _, 0%Z))
  | None =>
      let wanted := if nonempty charts then charts else CHARTS in
      if existsb (λ c, negb (str_mem c CHARTS)) wanted then (t, Ok 2%Z)
      else (t, guarded (mapR (λ c, verify c t) wanted) (λ rs, if existsb (λ r, bool_decide (is_Some r)) rs then 1%Z else 0%Z))
  end.

(** ** The self-test *)

Definition _MIN_CHART (name : string) : string := unquoted (cat ["apiVersion: v2^name: "; name; "^version: 0.1.0^"]).
(** The tree without its copy of the listing script, which is an argument here *)
Definition _synthetic_repo : tree :=
  list_to_map
    [("helm/lib/Chart.yaml", _MIN_CHART "lib");
     ("helm/lib/templates/_helpers.tpl", unquoted "{{- define `lib.name` -}}lib{{- end -}}^");
     ("helm/parent/Chart.yaml",
       _MIN_CHART "parent" +:+ unquoted "dependencies:^  - name: lib^    version: `0.1.0`^    repository: `file://../lib`^");
     ("helm/parent/charts/lib-0.1.0.tgz", "packaged")].
(** One case: true when it fails *)
Definition _case (want_stale : bool) (fn : tree → tree) : result bool :=
  t <- write_stamp "parent" _synthetic_repo ;;
  reason <- verify "parent" (fn t) ;;
  Ok (negb (Bool.eqb (bool_decide (is_Some reason)) want_stale)).
Definition case_list : list (bool * (tree → tree)) :=
  [(false, id);
   (true, <["helm/lib/templates/_helpers.tpl" := unquoted "{{- define `lib.name` -}}CHANGED{{- end -}}^"]>);
   (true, <["helm/lib/templates/extra.yaml" := unquoted "kind: ConfigMap^"]>);
   (true, λ t, <["helm/parent/Chart.yaml" := default "" (t !! "helm/parent/Chart.yaml") +:+
                   unquoted "  - name: other^    version: `0.1.0`^    repository: `file://../lib`^"]> t);
   (true, delete "helm/parent/charts/lib-0.1.0.tgz");
   (true, delete (stamp_path "parent"));
   (false, <["helm/parent/templates/cm.yaml" := unquoted "kind: ConfigMap^"]>)].
(** The charts of the repository that declare a dependency *)
Definition discovered (repo : tree) : list string :=
  omap (λ kv, match drop_prefix "helm/" kv.1 with
              | Some q =>
                  let rel := if str_eqb q "Chart.yaml" then Some "."
                             else if endswith q "/Chart.yaml" then Some (str_slice 0 (String.length q - 11) q) else None in
                  match rel with
                  | Some rel => if str_mem "charts" (str_split rel "/") then None
                                else if nonempty (deps_from false (splitlines kv.2)) then Some rel else None
                  | None => None
                  end
              | None => None
              end) (map_to_list repo).
Definition selftest (repo : tree) : result Z :=
  failed <- mapR (λ c, _case c.1 c.2) case_list ;;
  Ok (if existsb id failed || negb (bool_decide (sorted_set (discovered repo) = sorted_set CHARTS)) then 2%Z else 0%Z).
End guard.

(** An instance of the listing, for charts whose dependencies are siblings and
    have none of their own: Chart.yaml, and each file of a dependency but those
    that chart-dep-srcs.sh leaves out *)
Definition file_deps (text : string) : list string :=
  omap (λ l, match split1 "file://../" l with
             | Some (_, r) => Some ("helm/" +:+ rstrip_char dquote r)
             | None => None
             end) (splitlines text).
Definition chart_files (t : tree) (dir : string) : list string :=
  List.filter (λ p, startswith p (dir +:+ "/") && negb (startswith p (dir +:+ "/charts/")) &&
                    negb (str_mem (basename p) ["Chart.lock"; STAMP_NAME])) (map_to_list t).*1.
Definition flat_srcs (t : tree) (dir : string) : Z * string * string :=
  match t !! (dir +:+ "/Chart.yaml") with
  | None => (1%Z, "", dir +:+ "/Chart.yaml not found")
  | Some text =>
      (0%Z, cat (map (λ p, p +:+ newline)
                   (sorted_set ((dir +:+ "/Chart.yaml") :: concat (map (chart_files t) (file_deps text))))), "")
  end.
Definition repo_fixture : tree :=
  list_to_map (map (λ c, ("helm/" +:+ c +:+ "/Chart.yaml", unquoted "apiVersion: v2^dependencies:^  - name: x^")) CHARTS).
Lemma chartdeps_selftest : selftest flat_srcs repo_fixture = Ok 0%Z.
Proof. vm_compute. reflexivity. Qed.

(** ** The digest of a file in the text that is hashed *)

Definition hex_digit_char (c : ascii) : bool := is_digit c || in_chars "abcdef" c.
Lemma hex_char_hex n : (n < 16)%N → hex_digit_char (hex_char n) = true.
Proof.
  intros H. assert (n = 0 ∨ n = 1 ∨ n = 2 ∨ n = 3 ∨ n = 4 ∨ n = 5 ∨ n = 6 ∨ n = 7 ∨ n = 8 ∨ n = 9 ∨ n = 10 ∨ n = 11 ∨ n = 12 ∨ n = 13 ∨ n = 14 ∨ n = 15)%N
    as Hn by lia. clear H. repeat (destruct Hn as [-> | Hn]; [reflexivity|]). by subst n.
Qed.
Lemma sha256_hex_chars s : str_forallb hex_digit_char (sha256_hex s) = true.
Proof.
  unfold sha256_hex. generalize (foldl compress H256 (blocks (length (words (pad (bytes_of s))) / 16) (words (pad (bytes_of s))))).
  intros h. assert (∀ l, Forall (λ n, n < 256)%N l → str_forallb hex_digit_char (foldr hex_byte "" l) = true) as Hf.
  { intros l. induction 1 as [|n l Hn _ IH]; [done|]. cbn [foldr hex_byte str_forallb]. rewrite IH, !hex_char_hex; [done|..].
    - by apply N.mod_lt.
    - apply N.Div0.div_lt_upper_bound. lia. }
  apply Hf. clear Hf. induction h as [|x h IH]; [constructor|]. cbn [flat_map]. apply Forall_app. split; [|exact IH].
  repeat constructor; by apply N.mod_lt.
Qed.
Lemma hex_text_plain f s : (∀ c, hex_digit_char c = true → f c = true) → str_forallb f (sha256_hex s) = true.
Proof. intros H. eapply forallb_weaken; [exact H|apply sha256_hex_chars]. Qed.

Lemma append_cancel (a b c : string) : a +:+ b = a +:+ c → b = c.
Proof. induction a as [|x a IH]; [done|]. intros [= E]. auto. Qed.
(** The last NUL of a line is the one before the digest. *)
Lemma last_mark (f : ascii → bool) m a b c d :
  str_forallb f b = true → str_forallb f d = true → f m = false → a +:+ String m b = c +:+ String m d → a = c ∧ b = d.
Proof.
  intros Hb Hd Hm. revert c. induction a as [|x a IH]; intros c E; destruct c as [|y c]; simpl in E.
  - by injection E.
  - injection E as <- E. rewrite E, str_forallb_app in Hb. cbn in Hb. by rewrite Hm, andb_false_r in Hb.
  - injection E as -> E. rewrite <- E, str_forallb_app in Hd. cbn in Hd. by rewrite Hm, andb_false_r in Hd.
  - injection E as -> E. by destruct (IH c E) as [-> ->].
Qed.

Definition no_newline (c : ascii) : bool := negb (Ascii.eqb c "010").
Lemma source_entry_eq rel c : source_entry rel c = (rel +:+ String "000" (sha256_hex c)) +:+ newline.
Proof. rewrite append_assoc. reflexivity. Qed.
Lemma source_entry_inj rel c x rel' c' x' :
  str_forallb no_newline rel = true → str_forallb no_newline rel' = true →
  source_entry rel c +:+ x = source_entry rel' c' +:+ x' → rel = rel' ∧ sha256_hex c = sha256_hex c' ∧ x = x'.
Proof.
  intros Hr Hr'. rewrite !source_entry_eq, !(append_assoc _ newline). intros E.
  assert (∀ s, str_forallb no_newline (sha256_hex s) = true ∧ str_forallb (λ c, negb (Ascii.eqb c "000")) (sha256_hex s) = true) as Hhex.
  { intros s. split; apply hex_text_plain; intros [[] [] [] [] [] [] [] []]; vm_compute; congruence. }
  apply (span_unique no_newline) in E as [E Hx]; [| | |done|done].
  - apply append_cancel in Hx as ->. apply (last_mark (λ c, negb (Ascii.eqb c "000"))) in E as [-> ->]; [done|apply Hhex|apply Hhex|done].
  - rewrite str_forallb_app. cbn [str_forallb]. by rewrite Hr, (proj1 (Hhex c)).
  - rewrite str_forallb_app. cbn [str_forallb]. by rewrite Hr', (proj1 (Hhex c')).
Qed.

(** The text that is hashed tells each path and each digest. *)
Lemma entries_inj (l k : list (string * string)) :
  (∀ p, p ∈ l → str_forallb no_newline p.1 = true) → (∀ p, p ∈ k → str_forallb no_newline p.1 = true) →
  cat (map (λ p, source_entry p.1 p.2) l) = cat (map (λ p, source_entry p.1 p.2) k) →
  map (λ p, (p.1, sha256_hex p.2)) l = map (λ p, (p.1, sha256_hex p.2)) k.
Proof.
  assert (∀ rel c x, "" ≠ source_entry rel c +:+ x) as Hne.
  { intros rel c x E. rewrite source_entry_eq, !append_assoc in E. by destruct rel. }
  revert k. induction l as [|[p c] l IH]; intros [|[q d] k] Hl Hk; cbn [map fst snd]; rewrite ?cat_cons; intros E.
  - done.
  - by apply Hne in E.
  - symmetry in E. by apply Hne in E.
  - apply source_entry_inj in E as (-> & Hc & E); [|apply (Hl (p, c)); left|apply (Hk (q, d)); left].
    rewrite Hc. f_equal. apply IH; [intros; apply Hl; by right|intros; apply Hk; by right|done].
Qed.

(** ** What the stamp keeps *)

Lemma chart_yaml_not_stamp c : stamp_path c ≠ chart_dir c +:+ "/Chart.yaml".
Proof. intros E. unfold stamp_path in E. rewrite !cat_cons in E. by apply append_cancel in E. Qed.

Lemma entries_elem t dir x : x ∈ entries t dir ↔ ∃ p s r, t !! p = Some s ∧ p = (dir +:+ "/") +:+ r ∧ head (str_split r "/") = Some x.
Proof.
  unfold entries. rewrite list_elem_of_omap. split.
  - intros (r & Hr & Hx). apply list_elem_of_omap in Hr as ([p s] & Hp & Hr). apply elem_of_map_to_list in Hp. cbn in Hr.
    apply drop_prefix_Some in Hr. exists p, s, r. done.
  - intros (p & s & r & Hp & Hr & Hx). exists r. split; [|done]. apply list_elem_of_omap. exists (p, s).
    split; [by apply elem_of_map_to_list|]. by apply drop_prefix_Some.
Qed.
(** A file that is not below a directory does not change its tarballs. *)
Lemma missing_stamp t c text :
  missing_tarballs (<[stamp_path c := text]> t) (chart_dir c) = missing_tarballs t (chart_dir c).
Proof.
  unfold missing_tarballs, declared_deps, read_text. rewrite lookup_insert_ne by apply chart_yaml_not_stamp.
  destruct (t !! _) as [yaml|]; [|done]. cbn [rbind]. f_equal. apply filter_ext. intros dep. f_equal. apply eq_true_iff_eq.
  rewrite !existsb_exists.
  assert (∀ x, x ∈ entries (<[stamp_path c := text]> t) (chart_dir c +:+ "/charts") ↔ x ∈ entries t (chart_dir c +:+ "/charts")) as He.
  { intros x. rewrite !entries_elem.
    assert (∀ r, stamp_path c ≠ ((chart_dir c +:+ "/charts") +:+ "/") +:+ r) as Hne.
    { intros r E. unfold stamp_path in E. rewrite !cat_cons, !append_assoc in E. by apply append_cancel in E. }
    split; intros (p & s & r & Hp & -> & Hx); exists (((chart_dir c +:+ "/charts") +:+ "/") +:+ r), s, r;
      rewrite lookup_insert_ne in * by apply Hne; done. }
  split; intros (x & Hx & Hf); exists x; (split; [|done]); apply list_elem_of_In, He, list_elem_of_In; done.
Qed.

Lemma mapR_ext_elem {A B} (f g : A → result B) l : (∀ x, x ∈ l → f x = g x) → mapR f l = mapR g l.
Proof.
  induction l as [|x l IH]; intros H; [done|]. cbn [mapR]. rewrite (H x) by left. destruct (g x); [|done]. cbn [rbind].
  rewrite IH; [done|]. intros; apply H; by right.
Qed.

Lemma digest_line_none line : startswith line "sources-sha256:" = false → digest_line line = None.
Proof. unfold digest_line. by intros ->. Qed.
Lemma strip_digest s : strip (" " +:+ sha256_hex s) = sha256_hex s.
Proof.
  assert (str_forallb (λ c, negb (is_space c)) (sha256_hex s) = true) as H.
  { apply hex_text_plain. intros [[] [] [] [] [] [] [] []]; vm_compute; congruence. }
  unfold strip. change (rstrip_of is_space (" " +:+ sha256_hex s)) with
    (match rstrip_of is_space (sha256_hex s) with "" => "" | t => String " " t end).
  rewrite (rstrip_none is_space) by done. destruct (sha256_hex s) as [|c h]; [done|].
  change (lstrip_of is_space (String " " (String c h))) with (lstrip_of is_space (String c h)). by apply lstrip_none.
Qed.
Definition header_lines : list string :=
  ["# chart-deps stamp — written by `make chart-deps`; gitignored build output.";
   "# Records the digest of the sources helm/<chart>/charts/*.tgz was packaged";
   "# from. Do not edit by hand: see scripts/check-chart-deps-fresh.py."].
Lemma no_newline_iff s : contains newline s = false ↔ str_forallb no_newline s = true.
Proof.
  split.
  - intros H. induction s as [|c s IH]; [done|]. cbn [contains] in H. apply orb_false_iff in H as [Hc H].
    cbn [str_forallb]. rewrite (IH H), andb_true_r. unfold no_newline. destruct (Ascii.eqb_spec c "010"); [by subst c|done].
  - intros H. destruct (contains newline s) eqn:E; [|done]. exfalso. apply contains_true in E as (a & b & ->).
    rewrite !str_forallb_app in H. apply andb_true_iff in H as [_ H]. done.
Qed.
Lemma hex_no_newline s : contains newline (sha256_hex s) = false.
Proof. apply no_newline_iff, hex_text_plain. intros [[] [] [] [] [] [] [] []]; vm_compute; congruence. Qed.
Lemma splitlines_join l : l ≠ [] → str_join newline l ≠ "" → (∀ x, x ∈ l → contains newline x = false) →
  splitlines (str_join newline l +:+ newline) = l.
Proof.
  intros Hl Hne Hn. unfold splitlines. destruct (str_join newline l +:+ newline) eqn:E; [by destruct (str_join newline l)|]. rewrite <- E.
  replace (endswith (str_join newline l +:+ newline) newline) with true by (symmetry; apply endswith_true; eauto).
  change (str_join newline l +:+ newline) with (str_join newline l +:+ newline +:+ ""). unfold newline at 2 3.
  rewrite str_split_app. unfold newline. rewrite (str_split_join "010") by done. change (str_split "" _) with [""]. by rewrite removelast_last.
Qed.
Lemma stamp_lines c d : contains newline c = false → contains newline d = false →
  splitlines (stamp_text c d) = header_lines ++ ["chart: " +:+ c; "sources-sha256: " +:+ d].
Proof.
  intros Hc Hd.
  assert (stamp_text c d = str_join newline (header_lines ++ ["chart: " +:+ c; "sources-sha256: " +:+ d]) +:+ newline) as ->.
  { unfold stamp_text, STAMP_HEADER, header_lines, str_join. cbn [app String.concat]. rewrite !cat_cons, !append_assoc. reflexivity. }
  apply splitlines_join; [done|done|]. intros x Hx. unfold header_lines in Hx. cbn [app] in Hx.
  repeat (apply elem_of_cons in Hx as [->|Hx]; [first [by vm_compute|done]|]). by apply elem_of_nil in Hx.
Qed.
Lemma stamp_reads_back c s : contains newline c = false →
  head (omap digest_line (splitlines (stamp_text c (sha256_hex s)))) = Some (sha256_hex s).
Proof.
  intros Hc. rewrite stamp_lines by (done || apply hex_no_newline).
  change (omap digest_line (header_lines ++ ["chart: " +:+ c; "sources-sha256: " +:+ sha256_hex s]))
    with (omap digest_line ["sources-sha256: " +:+ sha256_hex s]).
  change (omap digest_line ["sources-sha256: " +:+ sha256_hex s]) with [strip (" " +:+ sha256_hex s)]. cbn [head]. by rewrite strip_digest.
Qed.

(** ** The stamp and the check *)

Section stamp.
Context (srcs : tree → string → Z * string * string).

Lemma source_files_plain chart t files p : source_files srcs chart t = Ok files → p ∈ files → str_forallb no_newline p = true.
Proof.
  unfold source_files. destruct (srcs t (chart_dir chart)) as [[code out] err]. destruct (negb _); [done|].
  destruct (nonempty _); [|done]. intros [= <-] Hp. apply list_elem_of_In, filter_In in Hp as [Hp _]. apply list_elem_of_In in Hp.
  apply no_newline_iff. apply (str_split_no_more "010" out). unfold splitlines in Hp. destruct out as [|c out]; [by apply elem_of_nil in Hp|].
  destruct (endswith _ newline); [|done]. assert (∀ l : list string, p ∈ removelast l → p ∈ l) as Hr; [|by apply Hr].
  intros l. induction l as [|x [|y l] IH]; [done|by intros ?%elem_of_nil|]. cbn [removelast].
  intros [->|H]%elem_of_cons; [left|right; by apply IH].
Qed.

(** The files of a digest, with their contents *)
Definition reads_files (t : tree) (files : list string) (l : list (string * string)) : Prop :=
  l.*1 = sorted_strs files ∧ ∀ p, p ∈ l → t !! p.1 = Some p.2.
Lemma sources_text_entries chart t text : sources_text srcs chart t = Ok text →
  ∃ files l, source_files srcs chart t = Ok files ∧ reads_files t files l ∧ text = cat (map (λ p, source_entry p.1 p.2) l).
Proof.
  unfold sources_text. intros (files & Hf & H)%bind_Ok. apply bind_Ok in H as (es & Hes & [= <-]). exists files.
  assert (∃ l, l.*1 = sorted_strs files ∧ (∀ p, p ∈ l → t !! p.1 = Some p.2) ∧ es = map (λ p, source_entry p.1 p.2) l) as (l & ? & ? & ->).
  { clear Hf. revert es Hes. generalize (sorted_strs files) as ps. intros ps. induction ps as [|p ps IH]; intros es; cbn [mapR].
    - intros [= <-]. exists []. split_and!; [done|by intros ? ?%elem_of_nil|done].
    - intros (e & He & H)%bind_Ok. apply bind_Ok in H as (es' & Hes & [= <-]). destruct (IH _ Hes) as (l & <- & Hl & ->).
      apply bind_Ok in He as (c & Hc & [= <-]). exists ((p, c) :: l). split_and!; [done| |done].
      intros q [->|Hq]%elem_of_cons; [|by apply Hl]. unfold read_text in Hc. cbn. destruct (t !! p); [by injection Hc as ->|done]. }
  by exists l.
Qed.

Lemma verify_fresh_iff chart t : verify srcs chart t = Ok None ↔
  ∃ yaml digest, t !! (chart_dir chart +:+ "/Chart.yaml") = Some yaml ∧ stamp_digest t chart = Some digest ∧
    missing_tarballs t (chart_dir chart) = Ok [] ∧ sources_digest srcs chart t = Ok digest.
Proof.
  unfold verify. split.
  - destruct (t !! _) as [yaml|]; [|done]. destruct (stamp_digest t chart) as [d|]; [|done].
    intros (m & Hm & H)%bind_Ok. destruct m; [|done]. apply bind_Ok in H as (a & Ha & H). destruct (str_eqb a d) eqn:E; [|done].
    apply str_eqb_eq in E as ->. by exists yaml, d.
  - intros (yaml & d & -> & -> & -> & ->). cbn [rbind nonempty]. by rewrite str_eqb_refl.
Qed.

Lemma write_stamp_inv chart t t' : write_stamp srcs chart t = Ok t' →
  missing_tarballs t (chart_dir chart) = Ok [] ∧
  ∃ text, sources_text srcs chart t = Ok text ∧ t' = <[stamp_path chart := stamp_text chart (sha256_hex text)]> t.
Proof.
  unfold write_stamp. intros (m & Hm & H)%bind_Ok. destruct m; [|done]. apply bind_Ok in H as (d & Hd & [= <-]).
  split; [done|]. unfold sources_digest in Hd. apply bind_Ok in Hd as (text & Ht & [= <-]). by exists text.
Qed.
Lemma written_digest chart t text : contains newline chart = false →
  t !! stamp_path chart = Some (stamp_text chart (sha256_hex text)) → stamp_digest t chart = Some (sha256_hex text).
Proof. intros Hc Ht. unfold stamp_digest. rewrite Ht. by apply stamp_reads_back. Qed.
End stamp.

(** C15: [write_stamp] of check-chart-deps-fresh.py and [verify] agree: right
    after the stamp of a chart is written, the chart is fresh.  The stamp must
    be no source: chart-dep-srcs.sh gives the same listing with the stamp in
    the tree, and the stamp is not in it, which that script promises. *)
Theorem written_stamp_is_fresh srcs chart t t' :
  contains newline chart = false →
  srcs t' (chart_dir chart) = srcs t (chart_dir chart) →
  (∀ files, source_files srcs chart t = Ok files → stamp_path chart ∉ files) →
  write_stamp srcs chart t = Ok t' → verify srcs chart t' = Ok None.
Proof.
  intros Hc Hsrcs Hstamp Hw. apply write_stamp_inv in Hw as (Hm & text & Htext & ->). apply verify_fresh_iff.
  assert (is_Some (t !! (chart_dir chart +:+ "/Chart.yaml"))) as [yaml Hy].
  { unfold missing_tarballs, declared_deps, read_text in Hm. destruct (t !! _); [by eexists|done]. }
  exists yaml, (sha256_hex text). split_and!.
  - by rewrite lookup_insert_ne by apply chart_yaml_not_stamp.
  - apply written_digest; [done|]. by rewrite lookup_insert_eq.
  - by rewrite missing_stamp.
  - unfold sources_digest. replace (sources_text srcs chart _) with (@Ok string text); [done|]. symmetry. unfold sources_text in *.
    apply bind_Ok in Htext as (files & Hf & Htext). unfold source_files at 1. rewrite Hsrcs. fold (source_files srcs chart t). rewrite Hf. cbn [rbind].
    rewrite <- Htext. f_equal. apply mapR_ext_elem. intros rel Hrel. rewrite sorted_strs_elem in Hrel. unfold read_text.
    rewrite lookup_insert_ne; [done|]. intros <-. by apply (Hstamp files).
Qed.


Definition w_written : tree := match write_stamp flat_srcs "parent" _synthetic_repo with Ok t => t | Raise _ => ∅ end.
Lemma w_write : write_stamp flat_srcs "parent" _synthetic_repo = Ok w_written.
Proof. vm_compute. reflexivity. Qed.
Lemma written_stamp_is_fresh_witness : verify flat_srcs "parent" w_written = Ok None.
Proof.
  apply (written_stamp_is_fresh flat_srcs "parent" _synthetic_repo); [reflexivity|vm_compute; reflexivity| |apply w_write].
  intros files H. assert (files = ["helm/lib/Chart.yaml"; "helm/lib/templates/_helpers.tpl"; "helm/parent/Chart.yaml"]) as ->.
  { enough (source_files flat_srcs "parent" _synthetic_repo = Ok ["helm/lib/Chart.yaml"; "helm/lib/templates/_helpers.tpl"; "helm/parent/Chart.yaml"])
      as E by congruence. vm_compute. reflexivity. }
  apply (bool_decide_unpack _). vm_compute. exact Logic.I.
Defined.
