(* ===== verification/OrphanTemplates.v ===== *)
(** * scripts/check-orphan-templates.py: named templates and chart files that nothing uses

    The actions of a Helm template, the body of each [define] with its blocks
    balanced, the calls of the charts, and the files that templates read. *)
From stdpp Require Import sorting.
From S2P Require Import Prelude PyStr PyVal Regex RegexParse.
From Stdlib Require Import Ascii.

Definition quoted : regex := RGroup 1 (RPlus (RChr (λ c, negb (Ascii.eqb c dquote)))).
Definition dq : regex := RLit dquote.
Definition COMMENT : regex :=
  RSeq [RStr "{{"; ROpt (RStr "-"); RSpaces; RStr "/*"; RLazy (RChr (λ _, true)); RStr "*/"; RSpaces; ROpt (RStr "-"); RStr "}}"].
Definition DEFINE : regex := RSeq [RStr "{{"; ROpt (RStr "-"); RSpaces; RStr "define"; RPlus (RChr is_space); dq; quoted; dq].
Definition CALL : regex := RSeq [RWordB; RAlt (RStr "include") (RStr "template"); RPlus (RChr is_space); dq; quoted; dq].
Definition ACTION : regex := RSeq [RStr "{{"; ROpt (RStr "-"); RGroup 1 (RLazy (RChr (λ _, true))); ROpt (RStr "-"); RStr "}}"].
Definition OPENS : list string := ["if"; "range"; "with"; "define"; "block"].
Definition GLOB : regex := RSeq [RStr "Files.Glob"; RPlus (RChr is_space); dq; quoted; dq].

(** [COMMENT.sub("", text)] *)
Definition without_comments (text : string) : string := re_sub COMMENT (λ _, "") text.

(** ** The bodies of the defines *)

(** The first word of an action *)
Definition head_word (a : found) : string := default "" (head (split_ws (strip (group_text a 1)))).
(** The loop over the actions after a define, at a depth: the text up to the
    [end] that closes it. *)
Fixpoint body_to_end (depth : nat) (actions : list found) : option string :=
  match actions with
  | [] => None
  | a :: actions =>
      let go d := (λ b, f_before a +:+ f_text a +:+ b) <$> body_to_end d actions in
      if str_mem (head_word a) OPENS then go (S depth)
      else if str_eqb (head_word a) "end"
      then match depth with S (S d) => go (S d) | _ => Some (f_before a) end
      else go depth
  end.
Fixpoint bodies_from (actions : list found) : list (string * string) :=
  match actions with
  | [] => []
  | m :: actions =>
      match re_match DEFINE (f_text m) with
      | Some d => match body_to_end 1 actions with
                  | Some body => (group_text d 1, body) :: bodies_from actions
                  | None => bodies_from actions
                  end
      | None => bodies_from actions
      end
  end.
Definition _define_bodies (text : string) : list (string * string) := bodies_from (re_finditer ACTION text).
Definition _is_inert (body : string) : bool := str_eqb (strip (without_comments body)) "".

(** ** The templates of the tree *)

(** The files under the root in the order of the walk, with their texts *)
Definition files : Type := list (string * string).
Definition dirname (p : string) : string := match rsplit1 "/" p with Some (d, _) => d | None => "" end.
Definition is_template (p : string) : bool :=
  let rel := dirname p in
  (str_eqb rel "helm" || startswith rel "helm/") && negb (contains "/charts" rel || startswith rel "helm/testdata") && contains "/templates" rel &&
  (endswith p ".yaml" || endswith p ".yml" || endswith p ".tpl").
Definition setdefault (d : list (string * string)) (k v : string) : list (string * string) :=
  match alist_get k d with Some _ => d | None => d ++ [(k, v)] end.
Definition groups_of (r : regex) (text : string) : list string := map (λ m, group_text m 1) (re_finditer r text).

Record collected := Collected { defs : list (string * string); uses : list string; inert : list (string * string) }.
Definition collect_file (c : collected) (f : string * string) : collected :=
  let '(p, raw) := f in
  if negb (is_template p) then c else
  let text := without_comments raw in
  Collected (foldl (λ d n, setdefault d n p) (defs c) (groups_of DEFINE text)) (uses c ++ groups_of CALL text)
            (foldl (λ d n, setdefault d n p) (inert c) (List.filter (λ b, _is_inert b.2) (_define_bodies raw)).*1).
Definition collect (fs : files) : collected := foldl collect_file (Collected [] [] []) fs.

Definition shown (e : string * string) : string := cat [e.1; " (defined in "; e.2; ")"].
Definition sorted_items (d : list (string * string)) : list (string * string) := sorted_pairs d.
Definition orphans (fs : files) : list string :=
  let c := collect fs in map shown (List.filter (λ e, negb (str_mem e.1 (uses c))) (sorted_items (defs c))).
Definition inert_called (fs : files) : list string :=
  let c := collect fs in
  map shown (List.filter (λ e, str_mem e.1 (uses c) && str_mem e.1 (defs c).*1) (sorted_items (inert c))).

(** ** The files that no template reads *)

Definition FILES_NOT_RENDERED : list (string * string) :=
  [("gibson/files/branding/README.md", "explains the brand files to a maintainer");
   ("gibson-operators/files/plans.schema.json", "the JSON schema of files/plans.yaml, for editors")].

(** The charts with a file below [files], sorted *)
Definition chart_of (p : string) : option string :=
  match drop_prefix "helm/" p with
  | Some q => match split1 "/" q with
              | Some (chart, rel) => if startswith rel "files/" then Some chart else None
              | None => None
              end
  | None => None
  end.
Definition charts_with_files (fs : files) : list string := sorted_set (omap (λ f, chart_of f.1) fs).
Definition below (dir p : string) : option string := drop_prefix (dir +:+ "/") p.
(** The text of the templates of a chart, without comments *)
Definition templates_text (fs : files) (chart : string) : string :=
  cat (map (λ f, match below (cat ["helm/"; chart; "/templates"]) f.1 with
                 | Some _ => without_comments f.2 +:+ newline
                 | None => ""
                 end) fs).
Definition is_read (text rel : string) : bool :=
  contains (cat [String dquote ""; rel; String dquote ""]) text || existsb (fnmatch rel) (groups_of GLOB text).
(** The path of each file of a chart below [files], relative to the chart *)
Definition chart_files (fs : files) (chart : string) : list string :=
  omap (λ f, match below ("helm/" +:+ chart) f.1 with
             | Some rel => if startswith rel "files/" then Some rel else None
             | None => None
             end) fs.
Definition judge_file (allowed : list (string * string)) (chart text rel : string) : list string :=
  let key := cat [chart; "/"; rel] in
  let read := is_read text rel in
  if str_mem key allowed.*1
  then if read then ["stale entry in FILES_NOT_RENDERED: a template reads " +:+ key] else []
  else if read then [] else [cat ["helm/"; key; ": no template of "; chart; " reads it"]].
Definition unread_files (fs : files) (allowed : list (string * string)) : list string :=
  let charts := charts_with_files fs in
  let seen := concat (map (λ c, map (λ rel, cat [c; "/"; rel]) (chart_files fs c)) charts) in
  concat (map (λ c, let text := templates_text fs c in concat (map (judge_file allowed c text) (chart_files fs c))) charts) ++
  map (λ k, cat ["stale entry in FILES_NOT_RENDERED: helm/"; k; " does not exist"])
    (sorted_set (List.filter (λ k, negb (str_mem k seen)) allowed.*1)).

Definition main (fs : files) : Z :=
  let clean l := negb (nonempty (A := string) l) in
  if clean (orphans fs) && clean (inert_called fs) && clean (unread_files fs FILES_NOT_RENDERED) then 0%Z else 1%Z.

(** ** The self-test *)

Definition templates_fixture : files :=
  [("helm/x/templates/_helpers.tpl",
     unquoted (cat ["{{/* an example: {{- define `x.documented` -}} */}}^{{- define `x.used` -}}u{{- end -}}^{{- define `x.orphan` -}}o{{- end -}}^";
                    "{{- define `x.inert` -}}^{{- /* intentional no-op */ -}}^{{- end }}^";
                    "{{- define `x.inert.orphan` -}}^{{- /* nothing */ -}}^{{- end }}^";
                    "{{- define `x.nested` -}}^{{- if .Values.a -}}{{- with .Values.b -}}{{ fail `no` }}{{- end -}}{{- end -}}^{{- end }}^"]));
   ("helm/x/templates/a.yaml", unquoted "name: {{ include `x.used` . }}^{{- include `x.inert` . }}^{{- include `x.nested` . }}^")].
Definition files_fixture : files :=
  [("helm/c/templates/a.yaml",
     unquoted (cat ["{{ .Files.Get `files/read.yaml` }}^{{ range .Files.Glob `files/g/*.conf` }}{{ end }}^";
                    "{{/* .Files.Get `files/only-in-comment.yaml` */}}^"]));
   ("helm/c/files/read.yaml", "x"); ("helm/c/files/g/a.conf", "x"); ("helm/c/files/unread.yaml", "x");
   ("helm/c/files/only-in-comment.yaml", "x"); ("helm/c/files/doc.md", "x")].
Definition want_unread : list string :=
  ["helm/c/files/unread.yaml: no template of c reads it"; "helm/c/files/only-in-comment.yaml: no template of c reads it";
   "stale entry in FILES_NOT_RENDERED: a template reads c/files/read.yaml";
   "stale entry in FILES_NOT_RENDERED: helm/c/files/gone.md does not exist"].
(** [live]: the files of the repository *)
Definition selftest (live : files) : Z :=
  let clean l := negb (nonempty (A := string) l) in
  let ok1 := match orphans templates_fixture with [a; b] => startswith a "x.inert.orphan " && startswith b "x.orphan " | _ => false end in
  let ok2 := match inert_called templates_fixture with [a] => startswith a "x.inert " | _ => false end in
  let got := unread_files files_fixture [("c/files/doc.md", "fixture"); ("c/files/read.yaml", "fixture"); ("c/files/gone.md", "fixture")] in
  if ok1 && ok2 && clean (orphans live) && clean (inert_called live) && bool_decide (sorted_set got = sorted_set want_unread) &&
     clean (unread_files live FILES_NOT_RENDERED)
  then 0%Z else 1%Z.

(** A tree with the files that ship for a reader *)
Definition live_fixture : files := map (λ e, ("helm/" +:+ e.1, "x")) FILES_NOT_RENDERED.
Lemma orphantemplates_selftest : selftest live_fixture = 0%Z.
Proof. vm_compute. reflexivity. Qed.

(** ** The actions of a text *)

Lemma finditer_text r n p s :
  ∃ tail, s = cat (map (λ m, f_before m +:+ f_text m) (finditer_from n r p s)) +:+ tail.
Proof.
  revert p s. induction n as [|n IH]; intros p s; cbn [finditer_from]; [by exists s|].
  destruct (search_from r "" p s) as [m|] eqn:E; [|by exists s]. apply search_from_text in E. change ("" +:+ s) with s in E.
  destruct (IH (f_prev m) (f_after m)) as [tail Ht]. exists tail. cbn [map]. rewrite cat_cons, !append_assoc, <- Ht. exact E.
Qed.

Definition opens (a : found) : bool := str_mem (head_word a) OPENS.
Definition ends (a : found) : bool := str_eqb (head_word a) "end".
(** Actions with each block closed *)
Inductive balanced : list found → Prop :=
  | Balanced_nil : balanced []
  | Balanced_other a l : opens a = false → ends a = false → balanced l → balanced (a :: l)
  | Balanced_block o l e r : opens o = true → balanced l → opens e = false → ends e = true → balanced r → balanced (o :: l ++ e :: r).
(** Actions with [n] ends more than their blocks *)
Inductive closed : nat → list found → Prop :=
  | Closed_0 l : balanced l → closed 0 l
  | Closed_S n l e r : balanced l → opens e = false → ends e = true → closed n r → closed (S n) (l ++ e :: r).

Definition text_of (l : list found) : string := cat (map (λ m, f_before m +:+ f_text m) l).
Lemma text_of_cons a l : text_of (a :: l) = (f_before a +:+ f_text a) +:+ text_of l.
Proof. apply cat_cons. Qed.
Lemma text_of_app l k : text_of (l ++ k) = text_of l +:+ text_of k.
Proof. induction l as [|a l IH]; [done|]. cbn [app]. by rewrite !text_of_cons, IH, !append_assoc. Qed.

Lemma closed_other n a l : opens a = false → ends a = false → closed n l → closed n (a :: l).
Proof.
  intros Ho He. destruct 1 as [l H|n l e r H ? ? Hr]; [by constructor; constructor|].
  change (a :: l ++ e :: r) with ((a :: l) ++ e :: r). constructor; [by constructor|done..].
Qed.
Lemma closed_open n o l : opens o = true → closed (S n) l → closed n (o :: l).
Proof.
  intros Ho H. inversion H as [|n' b e r Hb He1 He2 Hr]; subst. destruct Hr as [r Hr|n r e' r' Hr ? ? Hr'].
  - constructor. by constructor.
  - change (o :: b ++ e :: r ++ e' :: r') with (o :: b ++ (e :: r) ++ e' :: r'). rewrite app_comm_cons, app_assoc.
    constructor; [|done..]. cbn [app]. by constructor.
Qed.

Lemma body_to_end_sound d l body : body_to_end (S d) l = Some body →
  ∃ inner e rest, l = inner ++ e :: rest ∧ closed d inner ∧ opens e = false ∧ ends e = true ∧ body = text_of inner +:+ f_before e.
Proof.
  revert d body. induction l as [|a l IH]; intros d body; [done|]. cbn [body_to_end].
  change (str_mem (head_word a) OPENS) with (opens a). change (str_eqb (head_word a) "end") with (ends a).
  assert (∀ d' b, closed d' = closed d' → (λ b, f_before a +:+ f_text a +:+ b) <$> body_to_end (S d') l = Some b →
    ∃ inner e rest, a :: l = (a :: inner) ++ e :: rest ∧ closed d' inner ∧ opens e = false ∧ ends e = true ∧ b = text_of (a :: inner) +:+ f_before e) as Hgo.
  { intros d' b _ H. apply fmap_Some in H as (b' & Hb & ->). destruct (IH _ _ Hb) as (inner & e & rest & -> & ? & ? & ? & ->).
    exists inner, e, rest. split_and!; try done. by rewrite text_of_cons, !append_assoc. }
  destruct (opens a) eqn:Eo; [|destruct (ends a) eqn:Ee].
  - intros H. destruct (Hgo (S d) body eq_refl H) as (inner & e & rest & ? & ? & ? & ? & ->). exists (a :: inner), e, rest.
    split_and!; try done. by apply closed_open.
  - destruct d as [|d].
    + intros [= <-]. exists [], a, l. split_and!; try done. constructor. constructor.
    + intros H. destruct (Hgo d body eq_refl H) as (inner & e & rest & ? & ? & ? & ? & ->). exists (a :: inner), e, rest.
      split_and!; try done. apply (Closed_S d [] a inner); [constructor|done..].
  - intros H. destruct (Hgo d body eq_refl H) as (inner & e & rest & ? & ? & ? & ? & ->). exists (a :: inner), e, rest.
    split_and!; try done. by apply closed_other.
Qed.
Lemma body_to_end_complete inner : balanced inner → ∀ d l,
  body_to_end (S d) (inner ++ l) = String.append (text_of inner) <$> body_to_end (S d) l.
Proof.
  induction 1 as [|a l Ho He _ IH|o l e r Ho _ IHl Heo Hee _ IHr]; intros d k; cbn [app body_to_end].
  - by destruct (body_to_end (S d) k).
  - change (str_mem (head_word a) OPENS) with (opens a). change (str_eqb (head_word a) "end") with (ends a). rewrite Ho, He, IH, text_of_cons.
    destruct (body_to_end (S d) k) as [b|]; [|done]. apply (f_equal Some). by rewrite !append_assoc.
  - change (str_mem (head_word o) OPENS) with (opens o). rewrite Ho, <- app_assoc, IHl. cbn [app body_to_end].
    change (str_mem (head_word e) OPENS) with (opens e). change (str_eqb (head_word e) "end") with (ends e). rewrite Heo, Hee, IHr, text_of_cons, text_of_app, text_of_cons.
    destruct (body_to_end (S d) k) as [b|]; [|done]. apply (f_equal Some). by rewrite !append_assoc.
Qed.
Lemma body_to_end_iff l body : body_to_end 1 l = Some body ↔
  ∃ inner e rest, l = inner ++ e :: rest ∧ balanced inner ∧ opens e = false ∧ ends e = true ∧ body = text_of inner +:+ f_before e.
Proof.
  split.
  - intros H. destruct (body_to_end_sound _ _ _ H) as (inner & e & rest & ? & Hc & ?). inversion Hc; subst. exists inner, e, rest. tauto.
  - intros (inner & e & rest & -> & Hb & Ho & He & ->). rewrite (body_to_end_complete inner Hb). cbn [body_to_end].
    change (str_mem (head_word e) OPENS) with (opens e). change (str_eqb (head_word e) "end") with (ends e). by rewrite Ho, He.
Qed.

Lemma bodies_from_elem l name body : (name, body) ∈ bodies_from l ↔
  ∃ before m rest d, l = before ++ m :: rest ∧ re_match DEFINE (f_text m) = Some d ∧ group_text d 1 = name ∧ body_to_end 1 rest = Some body.
Proof.
  induction l as [|m l IH]; cbn [bodies_from].
  - split; [by intros ?%elem_of_nil|]. by intros ([|] & ? & ? & ? & ? & _).
  - assert ((name, body) ∈ bodies_from l ↔ ∃ before m' rest d, m :: l = m :: before ++ m' :: rest ∧ re_match DEFINE (f_text m') = Some d ∧
              group_text d 1 = name ∧ body_to_end 1 rest = Some body) as IH'.
    { rewrite IH. split; intros (before & m' & rest & d & E & H); exists before, m', rest, d; (split; [|exact H]); [by f_equal|by injection E]. }
    assert (∀ P : Prop, ((∃ d, re_match DEFINE (f_text m) = Some d ∧ group_text d 1 = name ∧ body_to_end 1 l = Some body) ∨ (name, body) ∈ bodies_from l ↔ P) →
      ((name, body) ∈ match re_match DEFINE (f_text m) with Some d => match body_to_end 1 l with Some b => (group_text d 1, b) :: bodies_from l | None => bodies_from l end
                        | None => bodies_from l end ↔ P)) as Hstep.
    { intros P <-. destruct (re_match DEFINE (f_text m)) as [d|]; [destruct (body_to_end 1 l) as [b|]|].
      - rewrite elem_of_cons. split; [intros [[= -> ->]|?]; [left; by exists d|by right]|intros [(d' & [= <-] & <- & [= <-])|?]; [by left|by right]].
      - split; [by right|]. by intros [(? & _ & _ & [=])|?].
      - split; [by right|]. by intros [(? & [=] & _)|?]. }
    apply Hstep. rewrite IH'. split.
    + intros [(d & ? & ? & ?)|(before & m' & rest & d & E & H)]; [by exists [], m, l, d|]. exists (m :: before), m', rest, d. by rewrite E.
    + intros ([|m0 before] & m' & rest & d & E & H).
      * injection E as -> ->. left. by exists d.
      * injection E as -> ->. right. by exists before, m', rest, d.
Qed.

(** [_define_bodies] of check-orphan-templates.py gives the true bodies of
    the defines of a template: the text from a define action to the first
    [end] that closes it, where each if, range, with, define and block between
    them has its own end, and each such body. *)
Theorem define_bodies_are_balanced text name body :
  (name, body) ∈ _define_bodies text ↔
  ∃ before m inner e rest d,
    re_finditer ACTION text = before ++ m :: inner ++ e :: rest ∧ re_match DEFINE (f_text m) = Some d ∧ group_text d 1 = name ∧
    balanced inner ∧ opens e = false ∧ ends e = true ∧ body = text_of inner +:+ f_before e ∧
    ∃ x y, text = x +:+ f_text m +:+ body +:+ f_text e +:+ y.
Proof.
  unfold _define_bodies. rewrite bodies_from_elem. split.
  - intros (before & m & rest & d & E & Hd & Hn & Hb). apply body_to_end_iff in Hb as (inner & e & rest' & -> & Hbal & Ho & He & ->).
    exists before, m, inner, e, rest', d. split_and!; try done.
    destruct (finditer_text ACTION (String.length text) None text) as [tail Ht]. fold (re_finditer ACTION text) in Ht.
    change (text = text_of (re_finditer ACTION text) +:+ tail) in Ht. rewrite E in Ht.
    exists (text_of before +:+ f_before m), (text_of rest' +:+ tail).
    rewrite Ht at 1. rewrite text_of_app, text_of_cons, text_of_app, text_of_cons, !append_assoc. done.
  - intros (before & m & inner & e & rest & d & E & Hd & Hn & Hbal & Ho & He & -> & _). exists before, m, (inner ++ e :: rest), d.
    split_and!; try done. apply body_to_end_iff. by exists inner, e, rest.
Qed.

(** ** What a clean run proves *)

Lemma setdefault_names d k v n : n ∈ (setdefault d k v).*1 ↔ n ∈ d.*1 ∨ n = k.
Proof.
  unfold setdefault. destruct (alist_get k d) eqn:E; [|rewrite fmap_app, elem_of_app; cbn; by rewrite list_elem_of_singleton].
  split; [by left|]. intros [?| ->]; [done|]. apply alist_elem in E. by apply (list_elem_of_fmap_2 fst) in E.
Qed.
Lemma setdefaults_names ks d v n : n ∈ (foldl (λ d k, setdefault d k v) d ks).*1 ↔ n ∈ d.*1 ∨ n ∈ ks.
Proof.
  revert d. induction ks as [|k ks IH]; intros d; cbn [foldl]; [set_solver|]. rewrite IH, setdefault_names. set_solver.
Qed.

(** The names that the templates define and call, and the names of the defines
    whose body renders nothing *)
Definition named_in (names : string → list string) (fs : files) (n : string) : Prop :=
  ∃ p raw, (p, raw) ∈ fs ∧ is_template p = true ∧ n ∈ names raw.
Definition defined_names (raw : string) : list string := groups_of DEFINE (without_comments raw).
Definition called_names (raw : string) : list string := groups_of CALL (without_comments raw).
Definition inert_names (raw : string) : list string := (List.filter (λ b, _is_inert b.2) (_define_bodies raw)).*1.

Lemma named_in_cons names p raw fs n :
  named_in names ((p, raw) :: fs) n ↔ (is_template p = true ∧ n ∈ names raw) ∨ named_in names fs n.
Proof.
  unfold named_in. split.
  - intros (q & r & [[= -> ->]|H]%elem_of_cons & H1 & H2); [by left|right; by exists q, r].
  - intros [[H1 H2]|(q & r & H & H1 & H2)]; [exists p, raw|exists q, r]; (split; [|done]); [left|by right].
Qed.
Lemma collect_from fs : ∀ c n,
  (n ∈ (defs (foldl collect_file c fs)).*1 ↔ n ∈ (defs c).*1 ∨ named_in defined_names fs n) ∧
  (n ∈ uses (foldl collect_file c fs) ↔ n ∈ uses c ∨ named_in called_names fs n) ∧
  (n ∈ (inert (foldl collect_file c fs)).*1 ↔ n ∈ (inert c).*1 ∨ named_in inert_names fs n).
Proof.
  induction fs as [|[p raw] fs IH]; intros c n; cbn [foldl].
  - assert (∀ names, ¬ named_in names [] n) as Hn by (intros names (? & ? & ?%elem_of_nil & _); done).
    split_and!; (split; [by left|intros [?|?]; [done|by edestruct Hn]]).
  - destruct (IH (collect_file c (p, raw)) n) as (-> & -> & ->). rewrite !named_in_cons. unfold collect_file.
    destruct (is_template p); cbn [negb].
    + cbn [defs uses inert]. rewrite !setdefaults_names, elem_of_app. unfold defined_names, called_names, inert_names. tauto.
    + split_and!; (split; [intros [?|?]; auto|intros [?|[[? _]|?]]; auto; done]).
Qed.
Lemma collect_names fs n :
  (n ∈ (defs (collect fs)).*1 ↔ named_in defined_names fs n) ∧ (n ∈ uses (collect fs) ↔ named_in called_names fs n) ∧
  (n ∈ (inert (collect fs)).*1 ↔ named_in inert_names fs n).
Proof. unfold collect. destruct (collect_from fs (Collected [] [] []) n) as (-> & -> & ->). cbn. set_solver. Qed.


(** A file of a chart below [files], by its path relative to the chart *)
Definition chart_file (fs : files) (chart rel : string) : Prop :=
  rel ∈ chart_files fs chart ∧ contains "/" chart = false.

Lemma chart_files_listed fs chart rel : chart_file fs chart rel → chart ∈ charts_with_files fs.
Proof.
  intros [H Hc]. unfold charts_with_files. apply sorted_set_elem, list_elem_of_omap. unfold chart_files in H.
  apply list_elem_of_omap in H as ([p text] & Hp & Hm). exists (p, text). split; [done|]. cbn [fst] in *.
  unfold below in Hm. destruct (drop_prefix _ p) as [r|] eqn:E; [|done]. apply drop_prefix_Some in E as ->.
  destruct (startswith r "files/") eqn:Er; [|done]. injection Hm as ->.
  unfold chart_of. replace (drop_prefix "helm/" _) with (Some (chart +:+ "/" +:+ rel)).
  2:{ symmetry. apply drop_prefix_Some. by rewrite !append_assoc. }
  rewrite (split1_app "/" chart rel Hc). by rewrite Er.
Qed.

(** When [main] of check-orphan-templates.py exits 0, each name that a
    template defines is called by a template and none of its bodies is only
    comment and white space; each file of a chart is read by a template of the
    chart or is an entry of FILES_NOT_RENDERED; and no such entry is read or
    names a file that is gone. *)
Theorem clean_tree_uses_its_templates fs :
  main fs = 0%Z →
  (∀ n, named_in defined_names fs n → named_in called_names fs n) ∧
  (∀ n p raw body, named_in defined_names fs n → (p, raw) ∈ fs → is_template p = true → (n, body) ∈ _define_bodies raw →
     _is_inert body = false) ∧
  (∀ chart rel, chart_file fs chart rel →
     is_read (templates_text fs chart) rel = negb (str_mem (cat [chart; "/"; rel]) FILES_NOT_RENDERED.*1)) ∧
  (∀ key, key ∈ FILES_NOT_RENDERED.*1 → ∃ chart rel, key = cat [chart; "/"; rel] ∧ rel ∈ chart_files fs chart).
Proof.
  unfold main. intros H. destruct (orphans fs) eqn:Ho; [|done]. destruct (inert_called fs) eqn:Hi; [|done].
  destruct (unread_files fs FILES_NOT_RENDERED) eqn:Hu; [|done]. clear H.
  assert (∀ n, named_in defined_names fs n → named_in called_names fs n) as Hcalled.
  { intros n Hn. apply collect_names in Hn. apply list_elem_of_fmap in Hn as ([n' p] & -> & Hn). cbn [fst].
    apply fmap_nil_inv in Ho. apply collect_names. apply sorted_pairs_elem in Hn. apply (filter_nil_elem _ _ _ Ho) in Hn. cbn [fst] in Hn.
    apply negb_false_iff in Hn. by apply str_mem_elem. }
  split_and!; [done| | |].
  - intros n p raw body Hn Hin Ht Hb. apply not_true_is_false. intros Hinert.
    assert (n ∈ (inert (collect fs)).*1) as Hin'.
    { apply collect_names. exists p, raw. split_and!; [done|done|]. unfold inert_names. apply (list_elem_of_fmap_2 fst _ (n, body)).
      apply list_elem_of_In, filter_In. split; [by apply list_elem_of_In|done]. }
    apply list_elem_of_fmap in Hin' as ([n' q] & -> & Hin'). cbn [fst] in *. apply fmap_nil_inv in Hi. apply sorted_pairs_elem in Hin'.
    apply (filter_nil_elem _ _ _ Hi) in Hin'. cbn [fst] in Hin'.
    pose proof (proj2 (proj1 (proj2 (collect_names fs n'))) (Hcalled _ Hn)) as H1. apply str_mem_elem in H1.
    pose proof (proj2 (proj1 (collect_names fs n')) Hn) as H2. apply str_mem_elem in H2. by rewrite H1, H2 in Hin'.
  - intros chart rel Hf. pose proof (chart_files_listed _ _ _ Hf) as Hc. destruct Hf as [Hr _]. apply app_nil in Hu as [Hu _].
    eapply concat_nil in Hu; [|by apply (list_elem_of_fmap_2 _ _ _ Hc)]. cbn zeta in Hu.
    eapply concat_nil in Hu; [|by apply (list_elem_of_fmap_2 _ _ _ Hr)]. unfold judge_file in Hu.
    destruct (str_mem _ _), (is_read _ _); done.
  - intros key Hkey. apply app_nil in Hu as [_ Hu]. apply fmap_nil_inv in Hu. rewrite sorted_set_nil in Hu.
    apply (filter_nil_elem _ _ _ Hu) in Hkey. apply negb_false_iff, str_mem_elem, elem_of_concat in Hkey as (l & Hl & Hk).
    apply list_elem_of_fmap in Hl as (c & -> & _). apply list_elem_of_fmap in Hk as (rel & -> & Hrel). by exists c, rel.
Qed.

Definition good_tree : files :=
  ("helm/x/templates/_helpers.tpl", unquoted "{{- define `x.used` -}}u{{- end -}}^") ::
  ("helm/x/templates/a.yaml", unquoted "name: {{ include `x.used` . }}^") :: live_fixture.
Lemma clean_tree_uses_its_templates_witness :
  main good_tree = 0%Z ∧ named_in called_names good_tree "x.used" ∧
  ∃ chart rel, "gibson/files/branding/README.md" = cat [chart; "/"; rel] ∧ rel ∈ chart_files good_tree chart.
Proof.
  assert (main good_tree = 0%Z) as H by (vm_compute; reflexivity). split; [exact H|].
  destruct (clean_tree_uses_its_templates good_tree H) as (H1 & _ & _ & H4). split.
  - apply H1. eexists _, _. split; [left|]. split; [reflexivity|]. vm_compute. left.
  - apply H4. left.
Defined.
