(* ===== verification/OperatorRbac.v ===== *)
(** * scripts/check-operator-rbac-covers.py: an operator holds at least its own role

    The rules that a ServiceAccount holds at cluster scope in the render, and
    the grants of the generated role of an operator that they lack. *)
From S2P Require Import Prelude PyStr PyVal Rbac.

Definition OPERATORS : list (string * string) :=
  [("tenant", "gibson-tenant-operator"); ("connector", "gibson-connector-operator"); ("platform", "gibson-platform-operator")].

(** [x or default], as a list *)
Definition list_or (x : val) (dflt : list val) : result (list val) := py_iter (por x (VList dflt)).

Definition is_subject (sa : string) (s : val) : result bool :=
  andR (k <- get s "kind" ;; Ok (py_eq k (VStr "ServiceAccount"))) (n <- get s "name" ;; Ok (py_eq n (VStr sa))).
(** The items of [roles]; the last role of a name wins. *)
Definition role_items (docs : list val) : result (list (val * val)) :=
  flatM (λ d, k <- get d "kind" ;;
              if py_eq k (VStr "ClusterRole") then n <- meta_name d ;; rs <- get d "rules" ;; vdict_item n (por rs (VList [])) else Ok []) docs.
Definition binding_rules (roles : list (val * val)) (sa : string) (d : val) : result (list val) :=
  k <- get d "kind" ;;
  if negb (py_eq k (VStr "ClusterRoleBinding")) then Ok [] else
  ss <- get_list d "subjects" ;; bound <- anyM (is_subject sa) ss ;;
  if negb bound then Ok [] else
  ref <- item d "roleRef" ;; n <- item ref "name" ;;
  if hashable n then py_iter (default (VList []) (vdict_get n roles)) else Raise TypeError.
Definition cluster_rules (docs : list val) (sa : string) : result (list val) :=
  roles <- role_items docs ;; flatM (binding_rules roles sa) docs.

Definition has (rule : val) (key : string) (value : val) : result bool :=
  vs <- get rule key ;;
  let values := por vs (VList []) in orR (val_in value values) (str_in "*" values).
(** Whether a rule grants a verb on a resource of a group *)
Definition grants (g : val) (group res verb : val) : result bool :=
  andR (has g "apiGroups" group) (andR (has g "resources" res) (has g "verbs" verb)).
(** [itertools.product] of the three fields of a rule *)
Definition triples (groups resources verbs : list val) : list (val * val * val) :=
  concat (map (λ g, concat (map (λ r, map (λ v, (g, r, v)) verbs) resources)) groups).
Definition rule_triples (r : val) : result (list (val * val * val)) :=
  gs <- get r "apiGroups" ;; gs <- list_or gs [VStr ""] ;; rs <- get_list r "resources" ;; vs <- get_list r "verbs" ;;
  Ok (triples gs rs vs).
Definition missing (want_rules got_rules : list val) : result (list (val * val * val)) :=
  flatM (λ r, ts <- rule_triples r ;;
              flatM (λ '(group, res, verb), found <- anyM (λ g, grants g group res verb) got_rules ;;
                       Ok (if found : bool then [] else [(por group (VStr "core"), res, verb)])) ts) want_rules.

(** [docs]: the vendored role file of an operator, parsed *)
Definition want (docs : list val) : result (list val) :=
  flatM (λ d, if negb (truthy d) then Ok [] else
              k <- get d "kind" ;; if py_eq k (VStr "ClusterRole") then get_list d "rules" else Ok []) docs.

(** ** The report *)

(** [by]: the keys in order, each with its verbs *)
Definition add_gap (by_key : list (val * val * list val)) (gap : val * val * val) : result (list (val * val * list val)) :=
  let '(group, res, verb) := gap in
  if negb (hashable group && hashable res) then Raise TypeError else
  let same k := py_eq k.1 group && py_eq k.2 res in
  Ok (if existsb (λ e, same e.1) by_key then map (λ e, if same e.1 then (e.1, e.2 ++ [verb]) else e) by_key
      else by_key ++ [((group, res), [verb])]).
(** [sorted(by.items())]: by the group, then by the resource, which differ *)
Definition sorted_by (by_key : list (val * val * list val)) : result (list (val * val * list val)) :=
  groups <- py_sorted (distinct (map (λ e, e.1.1) by_key)) ;;
  flatM (λ g, let es := List.filter (λ e, py_eq e.1.1 g) by_key in
              rs <- py_sorted (map (λ e, e.1.2) es) ;;
              Ok (concat (map (λ r, List.filter (λ e, py_eq e.1.2 r) es) rs))) groups.
Definition tstr (v : val) : result string := match v with VStr s => Ok s | _ => Raise TypeError end.
Definition gap_problem (op sa : string) (e : val * val * list val) : result string :=
  verbs <- mapR tstr e.2 ;;
  Ok (cat [op; "-operator: its own role holds "; str_join "," verbs; " on "; py_str e.1.2; "."; py_str e.1.1;
           ", and the chart does not grant that to "; sa; " at cluster scope"]).
Definition operator_problems (docs : list val) (vendored : string → list val) (operator : string * string) : result (list string) :=
  let '(op, sa) := operator in
  want_rules <- want (vendored op) ;; got_rules <- cluster_rules docs sa ;;
  gaps <- missing want_rules got_rules ;;
  by_key <- foldM add_gap [] gaps ;; sorted <- sorted_by by_key ;; ps <- mapR (gap_problem op sa) sorted ;;
  Ok ((if nonempty want_rules then [] else [op +:+ "-operator: the vendored role holds no rule, so this check read nothing"]) ++
      (if nonempty got_rules then [] else [cat [op; "-operator: the render binds no ClusterRole to ServiceAccount "; sa]]) ++ ps).
(** [vendored]: the parsed role file of each operator *)
Definition main (docs : list val) (vendored : string → list val) : result Z :=
  problems <- flatM (operator_problems docs vendored) OPERATORS ;; Ok (if nonempty problems then 1%Z else 0%Z).

(** ** The self-test *)
Definition sa_fixture : string := "gibson-tenant-operator".
Definition rule_fixture (resources verbs : list string) : val :=
  VDict [("apiGroups", strs ["gibson.zeroroot.ai"]); ("resources", strs resources); ("verbs", strs verbs)].
Definition render (rules : list val) (binding role : string) : list val :=
  [VDict [("kind", VStr role); ("metadata", str_dict [("name", "r"); ("namespace", "gibson")]); ("rules", VList rules)];
   VDict [("kind", VStr binding); ("metadata", str_dict [("name", "b"); ("namespace", "gibson")]);
          ("roleRef", str_dict [("kind", role); ("name", "r")]);
          ("subjects", VList [str_dict [("kind", "ServiceAccount"); ("name", sa_fixture)]])]].
Definition want_fixture : list val := [rule_fixture ["oidcclients"] ["get"; "list"; "watch"]].
Definition full : list val := [rule_fixture ["oidcclients"] ["get"; "list"; "watch"; "create"]].
Definition cases : list (list val * nat) :=
  [(render [rule_fixture ["oidcclients"] ["get"; "list"]] "ClusterRoleBinding" "ClusterRole", 1%nat);
   (render [rule_fixture ["tenants"] ["get"; "list"; "watch"]] "ClusterRoleBinding" "ClusterRole", 3%nat);
   (render full "RoleBinding" "Role", 3%nat)].
Definition selftest : result Z :=
  let left docs := rules <- cluster_rules docs sa_fixture ;; missing want_fixture rules in
  clean <- left (render full "ClusterRoleBinding" "ClusterRole") ;;
  if nonempty clean then Ok 1%Z else
  bad <- filterM (λ c, got <- left c.1 ;; Ok (negb (length got =? c.2))) cases ;;
  Ok (if nonempty bad then 1%Z else 0%Z).
Lemma operatorrbac_selftest : selftest = Ok 0%Z.
Proof. vm_compute. reflexivity. Qed.

(** ** What no gap proves *)

(** A rule grants a verb on a resource of a group, whatever the names it is for. *)
Definition allows (r : policy_rule) (g res v : string) : Prop :=
  covers (pr_groups r) g ∧ covers (pr_resources r) res ∧ covers (pr_verbs r) v.

Lemma has_covers r key l x : get r key = Ok (strs l) → computes (has r key (VStr x)) (covers l x).
Proof.
  intros Hg. unfold has. rewrite Hg. cbn [rbind]. rewrite por_strs. change (val_in (VStr x) (strs l)) with (str_in x (strs l)).
  apply computes_or; [apply str_in_strs|intros _; apply str_in_strs].
Qed.
Lemma grants_allows r g res v :
  computes (grants (policy_rule_val r) (VStr g) (VStr res) (VStr v)) (allows r g res v).
Proof.
  apply computes_and; [by apply has_covers|intros _].
  apply computes_and; [by apply has_covers|intros _; by apply has_covers].
Qed.

Lemma triples_elem gs rs vs g r v : (g, r, v) ∈ triples gs rs vs ↔ g ∈ gs ∧ r ∈ rs ∧ v ∈ vs.
Proof.
  unfold triples. rewrite elem_of_concat. split.
  - intros (l & Hl & H). apply list_elem_of_fmap in Hl as (g' & -> & Hg). apply elem_of_concat in H as (k & Hk & H).
    apply list_elem_of_fmap in Hk as (r' & -> & Hr). by apply list_elem_of_fmap in H as (v' & [= -> -> ->] & Hv).
  - intros (Hg & Hr & Hv). eexists. split; [by apply (list_elem_of_fmap_2 _ _ _ Hg)|].
    apply elem_of_concat. eexists. split; [by apply (list_elem_of_fmap_2 _ _ _ Hr)|]. by apply (list_elem_of_fmap_2 _ _ _ Hv).
Qed.
Lemma rule_triples_typed w :
  rule_triples (policy_rule_val w) =
  Ok (triples (if nonempty (pr_groups w) then VStr <$> pr_groups w else [VStr ""]) (VStr <$> pr_resources w) (VStr <$> pr_verbs w)).
Proof. unfold rule_triples. destruct w as [[|] [|] [|] ?]; reflexivity. Qed.

(** What a wanted rule covers is in one of its fields by name or by the star. *)
Lemma covers_entry l x : covers l x → ∃ y, y ∈ l ∧ ∀ k, covers k y → covers k x.
Proof.
  intros [H|H]; [by exists x|]. exists "*". split; [done|]. intros k [Hk|Hk]; by right.
Qed.

Lemma missing_nil ws ks : missing (policy_rule_val <$> ws) (policy_rule_val <$> ks) = Ok [] →
  ∀ g res v, (∃ w, w ∈ ws ∧ allows w g res v) → ∃ k, k ∈ ks ∧ allows k g res v.
Proof.
  intros H g res v (w & Hw & Hg & Hr & Hv). unfold missing in H.
  apply (proj1 (flatM_nil _ _)) with (x := policy_rule_val w) in H; [|by apply list_elem_of_fmap_2].
  rewrite rule_triples_typed in H. cbn [rbind] in H.
  apply covers_entry in Hg as (g' & Hg' & Hg), Hr as (r' & Hr' & Hr), Hv as (v' & Hv' & Hv).
  apply (proj1 (flatM_nil _ _)) with (x := (VStr g', VStr r', VStr v')) in H.
  - apply bind_Ok in H as (found & Hf & H). destruct found; [|done]. apply anyM_true in Hf as (k & Hk & Hf).
    apply list_elem_of_fmap in Hk as (k' & -> & Hk). exists k'. split; [done|].
    apply (computes_true _ _ (grants_allows k' g' r' v')) in Hf as (H1 & H2 & H3). unfold allows. auto.
  - apply triples_elem. rewrite !elem_strs. split_and!; [|done|done]. destruct (pr_groups w); [by apply elem_of_nil in Hg'|]. by apply elem_strs.
Qed.

(** A rule that the ServiceAccount holds through a ClusterRoleBinding *)
Definition held_at_cluster (docs : list val) (sa : string) (rule : val) : Prop :=
  ∃ b subjects s role rules, b ∈ docs ∧ fld b "kind" = VStr "ClusterRoleBinding" ∧ py_iter (por (fld b "subjects") (VList [])) = Ok subjects ∧ s ∈ subjects ∧
    fld s "kind" = VStr "ServiceAccount" ∧ fld s "name" = VStr sa ∧
    role ∈ docs ∧ fld role "kind" = VStr "ClusterRole" ∧ py_eq (fld (fld role "metadata") "name") (fld (fld b "roleRef") "name") = true ∧
    py_iter (por (fld role "rules") (VList [])) = Ok rules ∧ rule ∈ rules.

Lemma role_items_elem docs l n rs : role_items docs = Ok l → (n, rs) ∈ l →
  ∃ role, role ∈ docs ∧ fld role "kind" = VStr "ClusterRole" ∧ fld (fld role "metadata") "name" = n ∧ rs = por (fld role "rules") (VList []).
Proof.
  intros H Hin. apply (flatM_elem _ _ _ H) in Hin as (d & r & Hd & Hr & Hin). exists d. apply bind_Ok in Hr as (k & ->%get_Ok & Hr).
  destruct (py_eq (fld d "kind") (VStr "ClusterRole")) eqn:Ek; [|injection Hr as <-; by apply elem_of_nil in Hin].
  apply py_eq_str_r in Ek. apply bind_Ok in Hr as (m & Hm & Hr). apply bind_Ok in Hr as (rules & ->%get_Ok & Hr).
  unfold vdict_item in Hr. destruct (hashable m); [|done]. injection Hr as <-. apply list_elem_of_singleton in Hin as [= -> ->].
  unfold meta_name in Hm. apply bind_Ok in Hm as (md & ->%item_fld & ->%item_fld). done.
Qed.
Lemma cluster_rules_held docs sa l rule : cluster_rules docs sa = Ok l → rule ∈ l → held_at_cluster docs sa rule.
Proof.
  unfold cluster_rules. intros (roles & Hroles & H)%bind_Ok Hin. apply (flatM_elem _ _ _ H) in Hin as (d & r & Hd & Hr & Hin).
  unfold binding_rules in Hr. apply bind_Ok in Hr as (k & ->%get_Ok & Hr).
  destruct (py_eq (fld d "kind") (VStr "ClusterRoleBinding")) eqn:Ek; [|injection Hr as <-; by apply elem_of_nil in Hin].
  apply py_eq_str_r in Ek. cbn [negb] in Hr. apply bind_Ok in Hr as (ss & Hss & Hr). apply bind_Ok in Hr as (bound & Hb & Hr).
  destruct bound; [|injection Hr as <-; by apply elem_of_nil in Hin]. cbn [negb] in Hr.
  apply bind_Ok in Hr as (ref & ->%item_fld & Hr). apply bind_Ok in Hr as (n & ->%item_fld & Hr). destruct (hashable _); [|done].
  destruct (vdict_get _ roles) as [rs|] eqn:Eg; [|injection Hr as <-; by apply elem_of_nil in Hin]. cbn [default] in Hr.
  apply vdict_get_elem in Eg as (n' & Hn & Heq). apply (role_items_elem _ _ _ _ Hroles) in Hn as (role & Hrole & Hk & <- & ->).
  apply anyM_true in Hb as (s & Hs & Hb). unfold is_subject, andR in Hb. apply bind_Ok in Hb as (b1 & Hb1 & Hb).
  destruct b1; [|done]. apply bind_Ok in Hb1 as (sk & ->%get_Ok & [= Hsk]). apply bind_Ok in Hb as (sn & ->%get_Ok & [= Hsn]).
  apply py_eq_str_r in Hsk, Hsn. unfold get_list in Hss.
  apply bind_Ok in Hss as (x & ->%get_Ok & Hss). by exists d, ss, s, role, r.
Qed.

(** A gap reaches the report. *)
Definition str_key (e : val * val * list val) : Prop := ∃ g r, e.1 = (VStr g, VStr r).
Lemma add_gap_kept gaps by_key by_key' : foldM add_gap by_key gaps = Ok by_key' →
  (∃ e, e ∈ by_key ∧ str_key e) → ∃ e, e ∈ by_key' ∧ str_key e.
Proof.
  intros H Hk. refine (foldM_inv (λ b, ∃ e, e ∈ b ∧ str_key e) _ _ _ _ Hk _ H). clear. intros b [[g r] v] b' _ (e & He & Hs).
  unfold add_gap. destruct (negb _); [done|]. intros [= <-]. destruct (existsb _ b).
  - eexists. split; [by apply (list_elem_of_fmap_2 _ _ _ He)|]. cbn. match goal with |- str_key (if ?c then _ else _) => by destruct c end.
  - exists e. split; [apply elem_of_app; by left|done].
Qed.
Lemma sorted_by_nil by_key : sorted_by by_key = Ok [] → (∃ e, e ∈ by_key ∧ str_key e) → False.
Proof.
  unfold sorted_by. intros (groups & Hg & H)%bind_Ok ([[g' r'] vs] & He & g & r & [= -> ->]).
  assert (VStr g ∈ groups) as Hin.
  { rewrite <- (py_sorted_elem _ _ Hg), distinct_elem. exact (list_elem_of_fmap_2 (λ e : val * val * list val, e.1.1) _ _ He). }
  apply (proj1 (flatM_nil _ _)) with (x := VStr g) in H; [|done].
  assert ((VStr g, VStr r, vs) ∈ List.filter (λ e, py_eq e.1.1 (VStr g)) by_key) as He'.
  { apply list_elem_of_In, filter_In. split; [by apply list_elem_of_In|apply py_eq_refl_str]. }
  apply bind_Ok in H as (rs & Hrs & [= H]).
  assert (VStr r ∈ rs) as Hr by (rewrite <- (py_sorted_elem _ _ Hrs); exact (list_elem_of_fmap_2 (λ e : val * val * list val, e.1.2) _ _ He')).
  assert ((VStr g, VStr r, vs) ∈ @nil (val * val * list val)) as Hn; [|by apply elem_of_nil in Hn].
  rewrite <- H. apply elem_of_concat. eexists. split.
  { exact (list_elem_of_fmap_2 (λ r, List.filter (λ e : val * val * list val, py_eq e.1.2 r) _) _ _ Hr). }
  apply list_elem_of_In, filter_In. split; [by apply list_elem_of_In|apply py_eq_refl_str].
Qed.
Lemma missing_typed ws got gap : missing (policy_rule_val <$> ws) got = Ok gap →
  ∀ t, t ∈ gap → ∃ g r v, t = (VStr g, VStr r, v).
Proof.
  unfold missing. intros H t Ht. apply (flatM_elem _ _ _ H) in Ht as (w' & l & Hw & Hl & Ht). apply list_elem_of_fmap in Hw as (w & -> & _).
  rewrite rule_triples_typed in Hl. cbn [rbind] in Hl. apply (flatM_elem _ _ _ Hl) in Ht as ([[g r] v] & l' & Hin & Hl' & Ht).
  apply triples_elem in Hin as (Hg & Hr & _). apply bind_Ok in Hl' as (found & _ & [= <-]). destruct found; [by apply elem_of_nil in Ht|].
  apply list_elem_of_singleton in Ht as ->. apply list_elem_of_fmap in Hr as (r' & -> & _).
  assert (∃ g', g = VStr g') as [g' ->].
  { destruct (pr_groups w); [apply list_elem_of_singleton in Hg as ->; by eexists|]. apply list_elem_of_fmap in Hg as (g' & -> & _). by eexists. }
  exists (if str_eqb g' "" then "core" else g'), r', v. unfold por. cbn [truthy]. by destruct g'.
Qed.
Lemma gaps_nil ws got gaps by_key : missing (policy_rule_val <$> ws) got = Ok gaps →
  foldM add_gap [] gaps = Ok by_key → sorted_by by_key = Ok [] → gaps = [].
Proof.
  intros Hm H Hs. destruct gaps as [|t gaps]; [done|exfalso]. destruct (missing_typed _ _ _ Hm t) as (g & r & v & ->); [left|].
  cbn [foldM] in H. apply bind_Ok in H as (b & Hb & H). apply (sorted_by_nil _ Hs). apply (add_gap_kept _ _ _ H).
  cbn in Hb. injection Hb as <-. eexists. split; [left|]. by exists g, r.
Qed.


Definition typed_fixture : policy_rule := PolicyRule ["gibson.zeroroot.ai"] ["oidcclients"] ["get"; "list"; "watch"] [].
Definition role_docs (rules : list val) (o : string * string) : list val :=
  [VDict [("kind", VStr "ClusterRole"); ("metadata", str_dict [("name", o.2)]); ("rules", VList rules)];
   VDict [("kind", VStr "ClusterRoleBinding"); ("metadata", str_dict [("name", o.2)]);
          ("roleRef", str_dict [("kind", "ClusterRole"); ("name", o.2)]);
          ("subjects", VList [str_dict [("kind", "ServiceAccount"); ("name", o.2)]])]].
Definition docs_fixture (r : policy_rule) : list val := concat (map (role_docs [policy_rule_val r]) OPERATORS).
Definition vendored_fixture (_ : string) : list val :=
  [VNone; VDict [("kind", VStr "ClusterRole"); ("rules", VList [policy_rule_val typed_fixture])]].

(** A rule of the chart that is for named objects only counts as the whole
    grant: [missing] does not read [resourceNames]. *)
Definition named_fixture : policy_rule := PolicyRule ["gibson.zeroroot.ai"] ["oidcclients"] ["get"; "list"; "watch"] ["one"].
Lemma resource_names_are_not_read : main (docs_fixture named_fixture) vendored_fixture = Ok 0%Z.
Proof. vm_compute. reflexivity. Qed.
