(* ===== verification/SeamConditions.v ===== *)
(** * scripts/check-seam-conditions.py: each dependency condition is a named seam

    The conditions of the dependencies of the charts against the list of
    seams, their defaults in the values of the chart, and the renders with the
    setec seam off. [helm] is an argument: what it gives on a command line. *)
From S2P Require Import Prelude PyStr PyVal Json.

Definition SEAMS : list (string * string * string * string) :=
  [("gibson", "cert-manager", "certManager.enabled", "operator seam: a cluster that runs cert-manager uses its own");
   ("gibson", "external-secrets", "externalSecrets.enabled", "operator seam: a cluster that runs External Secrets uses its own");
   ("gibson", "external-dns", "externalDns.enabled", "operator seam: a cluster that runs external-dns uses its own");
   ("gibson", "cloudnative-pg", "cnpg.enabled", "operator seam: a cluster that runs CloudNativePG uses its own");
   ("gibson-workloads", "setec", "setec.enabled", "fleet seam: off means gibson.sandbox.setec.address names a fleet outside this cluster");
   ("gibson-crds", "prometheus-operator-crds", "prometheus-operator-crds.enabled",
     "monitoring seam: a cluster that runs the Prometheus operator owns these CRDs")].
Definition seam_keys : list (string * string * string) := SEAMS.*1.
Definition SETEC_OFF : string := "gibson-workloads.setec.enabled".
Definition SETEC_REFUSAL : string := "validateSetecDispatch".
Definition SETEC_ADDRESS : string := "gibson-workloads.gibson.sandbox.setec.address".
Definition SETEC_SPIFFE_ID : string := "gibson-workloads.gibson.sandbox.setec.spiffeID".

(** ** The charts *)

(** The dependencies and the values of a chart; [None]: no values.yaml *)
Definition chart : Type := string * (val * val).
Definition load_chart (f : string * (val * option val)) : result chart :=
  let '(name, (meta, values)) := f in
  deps <- get (por meta (VDict [])) "dependencies" ;;
  Ok (name, (por deps (VList []), match values with Some v => por v (VDict []) | None => VDict [] end)).
(** [files]: the parsed Chart.yaml and values.yaml by directory, in order *)
Definition load_charts (files : list (string * (val * option val))) : result (list chart) := mapR load_chart files.

Fixpoint dig_parts (cur : val) (parts : list string) : val :=
  match parts with
  | [] => cur
  | part :: parts =>
      match cur with
      | VDict d => match alist_get part d with Some x => dig_parts x parts | None => VNone end
      | _ => VNone
      end
  end.
Definition dig (values : val) (dotted : string) : val := dig_parts values (str_split dotted ".").

Definition key_is (k : tkey) (s : string * string * string) : bool := tkey_eqb k (VStr s.1.1, VStr s.1.2, VStr s.2).
(** The findings of a dependency, and the key that it adds to [seen] *)
Definition dep_findings (name : string) (values dep : val) : result (list string * list tkey) :=
  cond <- get dep "condition" ;;
  if negb (truthy cond) then Ok ([], []) else
  n <- get dep "name" ;; key <- hash_tkey (VStr name, n, cond) ;;
  if negb (existsb (key_is key) seam_keys)
  then Ok ([cat [name; "/Chart.yaml: dependency "; py_repr n; " has condition "; py_repr cond;
                 ", and it is not a named seam. A seam selects whose service runs, never whether one runs (ADR-0087). ";
                 "Remove the condition, or name the seam in scripts/check-seam-conditions.py with its reason."]], [key])
  else
  c <- as_str cond ;;
  Ok (if is_true (dig values c) then []
      else [cat [name; "/values.yaml: the seam condition "; py_repr cond; " defaults to "; py_repr (dig values c);
                 ". Each seam defaults to true (ADR-0087)."]], [key]).
Definition findings_of (c : chart) : result (list (list string * list tkey)) :=
  let '(name, (deps, values)) := c in l <- py_iter deps ;; mapR (dep_findings name values) l.
Definition stale (key : string * string * string) : string :=
  cat ["SEAMS names "; key.1.1; "/"; key.1.2; " with condition "; repr_str key.2; ", and no Chart.yaml has it. Delete the stale entry."].
Definition chart_findings (charts : list chart) : result (list string) :=
  rs <- flatM findings_of charts ;;
  let seen := concat rs.*2 in
  Ok (concat rs.*1 ++ map stale (List.filter (λ k, negb (existsb (λ t, key_is t k) seen)) seam_keys)).

(** ** The renders with the seam off *)

Definition OUTSIDE_ADDRESS : string := "setec.fleet.example.com:443".
Definition OUTSIDE_SPIFFE_ID : string := "spiffe://fleet.example.com/platform/setec-frontend".
Definition OUTSIDE_BUNDLE_URL : string := "https://spire.fleet.example.com:8443".
Definition OUTSIDE_BUNDLE_ID : string := "spiffe://fleet.example.com/spire/server".
(** The name, the address, the spiffeID, whether the render must pass *)
Definition SETEC_CASES : list (string * string * string * bool) :=
  [("no endpoint", "", OUTSIDE_SPIFFE_ID, false);
   ("the in-chart frontend", "setec-frontend.setec-system.svc.cluster.local:50051", OUTSIDE_SPIFFE_ID, false);
   ("an outside fleet with no spiffeID", OUTSIDE_ADDRESS, "", false);
   ("a fleet outside this cluster", OUTSIDE_ADDRESS, OUTSIDE_SPIFFE_ID, true)].

(** The command line of the render *)
Definition setec_off_cmd (root address spiffe_id : string) : list string :=
  ["helm"; "template"; "gibson"; root +:+ "/helm/gibson"; "-f"; root +:+ "/helm/gibson/values-baseline.yaml";
   "-f"; root +:+ "/helm/testdata/render-inputs/gibson.yaml"; "--namespace"; "gibson"; "--set"; SETEC_OFF +:+ "=false";
   "--set-string"; cat [SETEC_ADDRESS; "="; address]; "--set-string"; cat [SETEC_SPIFFE_ID; "="; spiffe_id]] ++
  if str_eqb spiffe_id "" then [] else
  let fed := "gibson-workloads.gibson.sandbox.setec.federation" in
  ["--set-string"; cat [fed; ".bundleEndpointURL="; OUTSIDE_BUNDLE_URL]; "--set-string"; cat [fed; ".endpointSPIFFEID="; OUTSIDE_BUNDLE_ID];
   "--set-json"; cat [fed; ".trustDomainBundle="; json_str (json_text (VDict [("keys", VList [str_dict [("kty", "EC")]])]))]].
Definition render_setec_off (helm : list string → process) (root address spiffe_id : string) : process :=
  helm (setec_off_cmd root address spiffe_id).

Definition first_error (err : string) : string :=
  match find (λ l, startswith l "Error") (splitlines err) with
  | Some l => l
  | None => default "(no stderr)" (last (splitlines (strip err)))
  end.
Definition render_findings (case address : string) (want_pass : bool) (p : process) : list string :=
  if want_pass then
    if negb (returncode p =? 0)%Z
    then [cat [case; ": the render with "; SETEC_OFF; "=false and address "; repr_str address; " fails: "; first_error (stderr p);
               ". The seam must select an outside fleet (ADR-0087)."]]
    else if contains address (stdout p) then []
    else [cat [case; ": the render passes, but no rendered object carries the address "; repr_str address;
               ". The daemon would not dial the outside fleet."]]
  else if (returncode p =? 0)%Z
  then [cat [case; ": the render with "; SETEC_OFF; "=false and address "; repr_str address;
             " passes. It must refuse it: the daemon would dial a frontend that does not exist."]]
  else if contains SETEC_REFUSAL (stderr p) then []
  else [cat [case; ": the render fails, but not in "; SETEC_REFUSAL; ": "; first_error (stderr p); ". The check cannot prove the refusal."]].

Definition case_findings (helm : list string → process) (root : string) (c : string * string * string * bool) : list string :=
  let '(case, address, spiffe_id, want_pass) := c in
  render_findings case address want_pass (render_setec_off helm root address spiffe_id).
Definition main (files : list (string * (val * option val))) (helm : list string → process) (root : string) : result Z :=
  charts <- load_charts files ;;
  if negb (existsb (λ c, truthy c.2.1) charts) then Ok 1%Z else
  findings <- chart_findings charts ;;
  Ok (if nonempty (findings ++ concat (map (case_findings helm root) SETEC_CASES)) then 1%Z else 0%Z).

(** ** The self-test *)

(** Sets a value at the end of a path, with an empty dict for each key that is missing *)
Fixpoint set_path (parts : list string) (x v : val) : result val :=
  match parts, v with
  | [], _ => Ok x
  | [k], VDict d => Ok (VDict (alist_set k x d))
  | k :: parts, VDict d => y <- set_path parts x (default (VDict []) (alist_get k d)) ;; Ok (VDict (alist_set k y d))
  | _, _ => Raise AttributeError
  end.
Definition add_seam (full : list (string * (list val * val))) (key : string * string * string)
  : result (list (string * (list val * val))) :=
  let '(name, dep, cond) := key in
  let '(deps, values) := default ([], VDict []) (alist_get name full) in
  v <- set_path (str_split cond ".") (VBool true) values ;;
  Ok (alist_set name (deps ++ [str_dict [("name", dep); ("condition", cond)]], v) full).
Definition full_charts : result (list chart) :=
  full <- foldM add_seam [] seam_keys ;; Ok (map (λ e, (e.1, (VList e.2.1, e.2.2))) full).
Definition with_chart (name : string) (f : val * val → val * val) (charts : list chart) : list chart :=
  alist_set name (f (default (VList [], VDict []) (alist_get name charts))) charts.
Definition render_cases : list (string * string * bool * process * bool) :=
  [("c", "", false, Process 0 "" "", true); ("c", "", false, Process 1 "" "Error: other", true);
   ("c", "", false, Process 1 "" (cat ["Error: "; SETEC_REFUSAL; ": x"]), false);
   ("c", OUTSIDE_ADDRESS, true, Process 1 "" ("Error: " +:+ SETEC_REFUSAL), true);
   ("c", OUTSIDE_ADDRESS, true, Process 0 "kind: X" "", true);
   ("c", OUTSIDE_ADDRESS, true, Process 0 ("address: " +:+ OUTSIDE_ADDRESS) "", false)].
Definition selftest : result Z :=
  full <- full_charts ;;
  let cases :=
    [(full, false);
     (with_chart "gibson-velero" (λ _, (VList [str_dict [("name", "velero"); ("condition", "velero.enabled")]], VDict [])) full, true);
     (alist_del "gibson-crds" full, true);
     (with_chart "gibson" (λ c, (c.1, dict_with c.2 "certManager" (VDict [("enabled", VBool false)]))) full, true)] in
  failed <- anyM (λ c, fs <- chart_findings c.1 ;; Ok (negb (Bool.eqb (nonempty fs) c.2))) cases ;;
  let failed' := existsb (λ '(case, address, pass, p, want), negb (Bool.eqb (nonempty (render_findings case address pass p)) want)) render_cases in
  Ok (if failed || failed' then 1%Z else 0%Z).
Lemma seamconditions_selftest : selftest = Ok 0%Z.
Proof. vm_compute. reflexivity. Qed.

(** ** What a clean run proves *)

(** A path of keys leads from a value to one below it. *)
Inductive leads : val → list string → val → Prop :=
  | Leads_here v : leads v [] v
  | Leads_key d k x ks w : alist_get k d = Some x → leads x ks w → leads (VDict d) (k :: ks) w.

Lemma dig_leads v ks w : w ≠ VNone → dig_parts v ks = w → leads v ks w.
Proof.
  intros Hw. revert v. induction ks as [|k ks IH]; intros v; cbn [dig_parts]; [intros ->; constructor|].
  destruct v as [| | | | |d]; try (by intros <-). destruct (alist_get k d) as [x|] eqn:E; [|by intros <-]. intros H. econstructor; [done|by apply IH].
Qed.
Lemma key_is_true k s : key_is k s = true ↔ k = (VStr s.1.1, VStr s.1.2, VStr s.2).
Proof.
  destruct k as [[a b] c], s as [[x y] z]. unfold key_is, tkey_eqb. cbn [fst snd]. rewrite !andb_true_iff, !py_eq_str_r. naive_solver.
Qed.

(** A dependency of the charts states a condition. *)
Definition states (charts : list chart) (name : string) (dep cond : val) : Prop :=
  ∃ deps values l d, (name, (deps, values)) ∈ charts ∧ py_iter deps = Ok l ∧ d ∈ l ∧
    fld d "name" = dep ∧ fld d "condition" = cond ∧ truthy cond = true.

Lemma dep_clean name values d ks : dep_findings name values d = Ok ([], ks) →
  truthy (fld d "condition") = true →
  ∃ dep cond, fld d "name" = VStr dep ∧ fld d "condition" = VStr cond ∧ (name, dep, cond) ∈ seam_keys ∧
    leads values (str_split cond ".") (VBool true).
Proof.
  unfold dep_findings. intros (c & ->%get_Ok & H)%bind_Ok Ht. rewrite Ht in H. cbn [negb] in H.
  apply bind_Ok in H as (n & ->%get_Ok & H). apply bind_Ok in H as (key & Hk & H).
  unfold hash_tkey in Hk. destruct (_ && _); [|done]. injection Hk as <-. destruct (existsb _ seam_keys) eqn:E; [|done]. cbn [negb] in H.
  apply existsb_elem_of in E as ([[a dep] cond] & Hin & Hkey). apply key_is_true in Hkey as [= -> Hn Hc]. cbn [fst snd] in *.
  apply bind_Ok in H as (c & Hc' & [= H]). rewrite Hc in Hc'. injection Hc' as <-. exists dep, cond. split_and!; try done.
  apply dig_leads; [done|]. unfold dig in H. destruct (is_true _) eqn:Ei; [|done]. by apply is_true_eq.
Qed.
Lemma dep_key name values d fs ks key : dep_findings name values d = Ok (fs, ks) → key ∈ ks →
  key = (VStr name, fld d "name", fld d "condition") ∧ truthy (fld d "condition") = true.
Proof.
  unfold dep_findings. intros (c & ->%get_Ok & H)%bind_Ok Hin. destruct (truthy _) eqn:Ht; cbn [negb] in H; [|injection H as _ <-; by apply elem_of_nil in Hin].
  apply bind_Ok in H as (n & ->%get_Ok & H). apply bind_Ok in H as (k & Hk & H). unfold hash_tkey in Hk. destruct (_ && _); [|done]. injection Hk as <-.
  destruct (negb _); [injection H as _ <-|apply bind_Ok in H as (c & _ & [= _ <-])]; by apply list_elem_of_singleton in Hin as ->.
Qed.

Lemma case_clean helm root c : case_findings helm root c = [] →
  let '(_, address, spiffe_id, want_pass) := c in
  let p := render_setec_off helm root address spiffe_id in
  if want_pass then returncode p = 0%Z ∧ contains address (stdout p) = true
  else returncode p ≠ 0%Z ∧ contains SETEC_REFUSAL (stderr p) = true.
Proof.
  destruct c as [[[case address] spiffe] []]; cbn [case_findings]; unfold render_findings.
  - destruct (Z.eqb_spec (returncode (render_setec_off helm root address spiffe)) 0); [|done]. cbn [negb]. by destruct (contains _ _).
  - destruct (Z.eqb_spec (returncode (render_setec_off helm root address spiffe)) 0); [done|]. by destruct (contains _ _).
Qed.

(** When main of check-seam-conditions.py exits 0, the dependency
    conditions of the charts are exactly the named seams, each with the value
    true at its path in the values of its chart; and helm refuses each render
    with the setec seam off and no outside fleet in validateSetecDispatch,
    and renders the one that names an outside fleet with its address. *)
Theorem clean_seams_are_the_conditions files charts helm root :
  main files helm root = Ok 0%Z → load_charts files = Ok charts →
  (∀ name dep cond, states charts name dep cond ↔ ∃ d c, dep = VStr d ∧ cond = VStr c ∧ (name, d, c) ∈ seam_keys) ∧
  (∀ name deps values l d, (name, (deps, values)) ∈ charts → py_iter deps = Ok l → d ∈ l → truthy (fld d "condition") = true →
     ∃ c, fld d "condition" = VStr c ∧ leads values (str_split c ".") (VBool true)) ∧
  (∀ case address spiffe_id pass, (case, address, spiffe_id, pass) ∈ SETEC_CASES →
     let p := render_setec_off helm root address spiffe_id in
     if pass : bool then returncode p = 0%Z ∧ contains address (stdout p) = true
     else returncode p ≠ 0%Z ∧ contains SETEC_REFUSAL (stderr p) = true).
Proof.
  unfold main. intros H Hc. rewrite Hc in H. cbn [rbind] in H. destruct (negb _); [done|].
  apply bind_Ok in H as (findings & Hf & H). destruct (findings ++ _) eqn:E; [clear H|done]. apply app_eq_nil in E as [-> Hcases].
  unfold chart_findings in Hf. apply bind_Ok in Hf as (rs & Hrs & Hf%Ok_inj). apply app_eq_nil in Hf as [Hfs Hstale].
  assert (∀ name deps values l d, (name, (deps, values)) ∈ charts → py_iter deps = Ok l → d ∈ l →
    ∃ ks, dep_findings name values d = Ok ([], ks)) as Hdeps.
  { intros name deps values l d Hin Hl Hd. destruct (flatM_Ok_elem _ _ _ _ Hrs Hin) as (r & Hr). pose proof Hr as Hr'.
    cbn [findings_of] in Hr. rewrite Hl in Hr. cbn [rbind] in Hr. destruct (mapR_elem_2 _ _ _ _ Hr Hd) as ([fs ks] & Hy & Hdf).
    assert ((fs, ks) ∈ rs) as Hx by (apply (flatM_elem _ _ _ Hrs); by exists (name, (deps, values)), r).
    exists ks. by rewrite Hdf, (concat_fst_nil _ _ _ Hfs Hx). }
  split_and!.
  - intros name dep cond. split.
    + intros (deps & values & l & d & Hin & Hl & Hd & <- & <- & Ht). destruct (Hdeps _ _ _ _ _ Hin Hl Hd) as (ks & Hk).
      destruct (dep_clean _ _ _ _ Hk Ht) as (dep & cond & -> & -> & Hs & _). by exists dep, cond.
    + intros (d & c & -> & -> & Hs). apply map_eq_nil in Hstale.
      assert (existsb (λ t, key_is t (name, d, c)) (concat rs.*2) = true) as Hseen.
      { apply negb_false_iff. apply (filter_nil_elem _ _ _ Hstale Hs). }
      apply existsb_elem_of in Hseen as (t & Ht & Hk). apply key_is_true in Hk as ->.
      apply elem_of_concat in Ht as (ks & Hks & Ht). apply list_elem_of_fmap in Hks as ([fs ks'] & -> & Hx).
      apply (flatM_elem _ _ _ Hrs) in Hx as ([name' [deps values]] & r & Hin & Hr & Hx). cbn [findings_of] in Hr.
      apply bind_Ok in Hr as (l & Hl & Hr). destruct (mapR_elem _ _ _ _ Hr Hx) as (dep & Hd & Hdf).
      cbn [fst snd] in Ht. destruct (dep_key _ _ _ _ _ _ Hdf Ht) as [[= -> Hn Hcond] Htr]. rewrite <- Hcond in Htr.
      by exists deps, values, l, dep.
  - intros name deps values l d Hin Hl Hd Ht. destruct (Hdeps _ _ _ _ _ Hin Hl Hd) as (ks & Hk).
    destruct (dep_clean _ _ _ _ Hk Ht) as (dep & cond & _ & -> & _ & Hlead). by exists cond.
  - intros case address spiffe_id pass Hin. refine (case_clean helm root (case, address, spiffe_id, pass) _).
    apply (proj1 (concat_nil _) Hcases). by apply list_elem_of_fmap_2.
Qed.

(** A helm that refuses each address without a fleet *)
Definition good_helm (cmd : list string) : process :=
  if str_mem (cat [SETEC_ADDRESS; "="; OUTSIDE_ADDRESS]) cmd && negb (str_mem (SETEC_SPIFFE_ID +:+ "=") cmd)
  then Process 0 ("address: " +:+ OUTSIDE_ADDRESS) "" else Process 1 "" ("Error: " +:+ SETEC_REFUSAL).
Definition chart_file (name : string) (deps : list (string * string)) (values : val) : string * (val * option val) :=
  (name, (VDict [("dependencies", VList (map (λ d, str_dict [("name", d.1); ("condition", d.2)]) deps))], Some values)).
Definition enabled (keys : list string) : val := VDict (map (λ k, (k, VDict [("enabled", VBool true)])) keys).
Definition good_files : list (string * (val * option val)) :=
  [chart_file "gibson" [("cert-manager", "certManager.enabled"); ("external-secrets", "externalSecrets.enabled");
                        ("external-dns", "externalDns.enabled"); ("cloudnative-pg", "cnpg.enabled")]
     (enabled ["certManager"; "externalSecrets"; "externalDns"; "cnpg"]);
   ("gibson-common", (VDict [("name", VStr "gibson-common")], None));
   chart_file "gibson-crds" [("prometheus-operator-crds", "prometheus-operator-crds.enabled")] (enabled ["prometheus-operator-crds"]);
   chart_file "gibson-workloads" [("setec", "setec.enabled"); ("common", "")] (enabled ["setec"])].
Lemma clean_seams_are_the_conditions_witness :
  main good_files good_helm "/repo" = Ok 0%Z ∧
  ∃ charts, load_charts good_files = Ok charts ∧ states charts "gibson-workloads" (VStr "setec") (VStr "setec.enabled").
Proof.
  assert (main good_files good_helm "/repo" = Ok 0%Z) as H by (vm_compute; reflexivity). split; [exact H|].
  destruct (load_charts good_files) as [charts|] eqn:E; [|vm_compute in E; discriminate E]. exists charts. split; [reflexivity|].
  apply (proj1 (clean_seams_are_the_conditions good_files charts good_helm "/repo" H E)). eexists _, _. split_and!; [reflexivity..|].
  vm_compute. repeat constructor.
Defined.
