(* ===== verification/OpenbaoPolicies.v ===== *)
(** * scripts/check-openbao-policies.py: no policy of the store grants all of it

    The policies that the script of the openbao-auto-init sidecar writes, with
    their paths and capabilities, the tokens that need one, and the transit key
    of the render. *)
From S2P Require Import Prelude PyStr PyVal Regex.
From Stdlib Require Import Ascii.

Definition SUDO : list (string * string) :=
  [("sys/auth/kubernetes", "the seeder enables and reads the kubernetes auth mount");
   ("sys/auth/jwt", "the jwt init Job enables the mount; the tenant-operator reads it");
   ("sys/auth/approle", "the approle init Job enables the approle mount");
   ("auth/token/create", "the seeder mints no_parent tokens with policies it does not hold");
   ("tenant-*", "the tenant-operator administers each tenant namespace")].
Definition policy_char (c : ascii) : bool := is_alpha c || in_chars "$_-" c.
Definition POLICY : regex :=
  RSeq [RStr (unquoted "vault_write_policy `$tok` "); ROpt (RLit dquote); RGroup 1 (RPlus (RChr policy_char)); ROpt (RLit dquote);
        RStr " \"; RSpaces; RLit "010"; RSpaces; RLit squote; RGroup 2 (RLazy (RChr (λ _, true))); RLit squote].
Definition PATH : regex :=
  RSeq [RStr (unquoted "path `"); RGroup 1 (RPlus (RChr (λ c, negb (Ascii.eqb c dquote)))); RStr (unquoted "` { capabilities = [");
        RGroup 2 (RStar (RChr (not_chars "]"))); RStr "] }"].
Definition var_char (c : ascii) : bool := let n := nat_of_ascii c in ((65 <=? n) && (n <=? 90)) || (n =? 95).
Definition VAR : regex :=
  RSeq [RLineBegin; RSpaces; RGroup 1 (RPlus (RChr var_char)); RStr (unquoted "=`"); RGroup 2 (RStar (RChr (λ c, negb (Ascii.eqb c dquote))));
        RLit dquote; RSpaces; RLineEnd].

(** ** The script and the key of a render *)

Definition is_auto_init (c : val) : result bool := n <- get c "name" ;; Ok (py_eq n (VStr "openbao-auto-init")).
Definition container_script (c : val) : result string :=
  a <- get c "args" ;; b <- get c "command" ;; l <- added (por a (VList [])) (por b (VList [])) ;; Ok (str_join newline (map py_str l)).
Definition is_openbao (d : val) : result bool :=
  if negb (is_dict d) then Ok false else
  k <- get d "kind" ;;
  if negb (in_tuple k ["StatefulSet"; "Deployment"]) then Ok false else
  m <- get_dict d "metadata" ;; n <- get_default m "name" (VStr "") ;;
  match n with VStr n => Ok (endswith n "-openbao") | _ => Raise AttributeError end.
Definition doc_script (d : val) : result (option string) :=
  found <- is_openbao d ;;
  if negb found then Ok None else
  s <- item d "spec" ;; t <- item s "template" ;; p <- item t "spec" ;; cs <- get_list p "containers" ;;
  firstM (λ c, ours <- is_auto_init c ;; if (ours : bool) then rmap Some (container_script c) else Ok None) cs.
Definition script (docs : list val) : result string := rmap (default "") (firstM doc_script docs).

Definition bootstrap_key (d : val) : result (option val) :=
  if negb (is_dict d) then Ok None else
  k <- get d "kind" ;;
  if negb (py_eq k (VStr "PlatformBootstrap")) then Ok None else
  s <- get_dict d "spec" ;; t <- get_dict s "vaultTransit" ;; rmap Some (get t "keyName").
Definition transit_key (docs : list val) : result val := rmap (default VNone) (firstM bootstrap_key docs).

(** ** The judgment *)

Definition pair_of (m : found) : string * string := (group_text m 1, group_text m 2).
(** [dict(VAR.findall(text))] *)
Definition env_of (text : string) : list (string * string) :=
  foldl (λ env m, alist_set (group_text m 1) (group_text m 2) env) [] (re_finditer VAR text).
Definition policy_name (env : list (string * string)) (name : string) : string :=
  if startswith name "$" then default name (alist_get (lstrip_of (Ascii.eqb "$") name) env) else name.
(** The policies by name, each with its paths and their capabilities *)
Definition policies (text : string) : list (string * list (string * string)) :=
  let env := env_of text in
  foldl (λ pols m, alist_set (policy_name env (group_text m 1)) (map pair_of (re_finditer PATH (group_text m 2))) pols) []
    (re_finditer POLICY text).
Definition platform_policy (env : list (string * string)) : string := default "platform-operator" (alist_get "PLATFORM_POLICY" env).
Definition token_policies (env : list (string * string)) : list string :=
  [default "openbao-seeder" (alist_get "SEEDER_POLICY" env); platform_policy env] ++
  omap (λ p, snd <$> split1 ":" p) (split_ws (default "" (alist_get "JOB_TOKENS" env))).
Definition path_findings (name : string) (p : string * string) : list string :=
  let '(path, caps) := p in
  (if str_eqb path "*" then [cat ["policy "; name; unquoted " grants path `*`"]] else []) ++
  (if contains "sudo" caps && negb (str_mem path SUDO.*1)
   then [cat ["policy "; name; " grants sudo on "; path; ", which SUDO does not name"]] else []).
(** [sorted(pols.items())]: the names differ *)
Definition sorted_policies (pols : list (string * list (string * string))) : list (string * list (string * string)) :=
  omap (λ n, pair n <$> alist_get n pols) (sorted_keys pols).
Definition transit_keys (paths : list (string * string)) : list string := omap (λ p, drop_prefix "transit/keys/" p.1) paths.
Definition judge (text : string) (key : val) : list string :=
  if str_eqb text "" then ["no openbao-auto-init script in the render: this check is blind"] else
  let env := env_of text in
  let pols := policies text in
  let keys := transit_keys (default [] (alist_get (platform_policy env) pols)) in
  map (λ n, cat ["the token policy "; n; " has no body in the script"])
    (sorted_set (List.filter (λ n, negb (str_mem n pols.*1)) (token_policies env))) ++
  concat (map (λ p, concat (map (path_findings p.1) p.2)) (sorted_policies pols)) ++
  (if negb (is_none key) && negb (py_eq (strs keys) (VList [key]))
   then [cat ["the platform-operator policy grants transit keys "; str_of_strs keys; ", and PlatformBootstrap names "; py_str key]] else []).

(** [renders]: the golden renders, and the one with the issuer of the Vault *)
Definition judge_render (r : string * list val) : result (list string) :=
  text <- script r.2 ;; key <- transit_key r.2 ;; Ok (map (λ x, cat [r.1; ": "; x]) (judge text key)).
Definition render_cmd : list string :=
  ["helm"; "template"; "gibson"; "helm/gibson"; "--namespace"; "gibson"; "-f"; "helm/testdata/render-inputs/gibson.yaml";
   "-f"; "helm/gibson/values-baseline.yaml"; "--set"; "gibson-workloads.certManager.issuers.vault.enabled=true";
   "--set"; "gibson-workloads.certManager.issuers.vault.path=pki_int/sign/gibson";
   "--set"; "gibson-workloads.certManager.issuers.vault.auth.appRole.roleId=example-role-id"].
(** [helm]: the documents that a command line renders, or the end of its errors *)
Definition render_with_vault_issuer (helm : list string → string + list val) : result (list val) :=
  match helm render_cmd with
  | inl err => Raise (SystemExit ("the render with the vault issuer failed: " +:+ err))
  | inr docs => Ok docs
  end.
Definition main (golden : list (string * list val)) (helm : list string → string + list val) : result Z :=
  docs <- render_with_vault_issuer helm ;;
  bad <- flatM judge_render (golden ++ [("baseline with the vault issuer", docs)]) ;;
  Ok (if nonempty bad then 1%Z else 0%Z).

(** ** The self-test *)

Definition head_fixture : string :=
  unquoted "SEEDER_POLICY=`openbao-seeder`^PLATFORM_POLICY=`platform-operator`^JOB_TOKENS=`s-a:job-a`^".
Definition pol (name body : string) : string :=
  cat [unquoted "vault_write_policy `$tok` "; name; " \"; newline; "  '"; unquoted body; "' || return 1"; newline].
Definition seeder : string := pol (unquoted "`$SEEDER_POLICY`") "path `auth/token/create` { capabilities = [`create`, `sudo`] }".
Definition plat : string := pol (unquoted "`$PLATFORM_POLICY`") "path `transit/keys/k` { capabilities = [`read`] }".
Definition job : string := pol "job-a" "path `secret/data/x` { capabilities = [`read`] }".
Definition good : string := cat [head_fixture; seeder; plat; job].
Definition cases : list (string * string) :=
  [(cat [head_fixture; seeder; plat; job; pol "legacy" "path `*` { capabilities = [`read`] }"], "k");
   (cat [head_fixture; seeder; plat; pol "job-a" "path `secret/data/x` { capabilities = [`read`, `sudo`] }"], "k");
   (cat [head_fixture; seeder; plat], "k"); (good, "master-kek"); ("", "k")].
Definition selftest : Z :=
  if nonempty (judge good (VStr "k")) then 1%Z
  else if forallb (λ c, length (judge c.1 (VStr c.2)) =? 1) cases then 0%Z else 1%Z.
Lemma openbaopolicies_selftest : selftest = 0%Z.
Proof. vm_compute. reflexivity. Qed.

(** ** What a clean run proves *)

(** The script writes a body for a policy, and no other body for it after. *)
Definition writes (text name body : string) : Prop :=
  ∃ before m after, re_finditer POLICY text = before ++ m :: after ∧ policy_name (env_of text) (group_text m 1) = name ∧ body = group_text m 2 ∧
    ∀ m', m' ∈ after → policy_name (env_of text) (group_text m' 1) ≠ name.
(** A body grants capabilities on a path. *)
Definition grants (body path caps : string) : Prop := ∃ q, q ∈ re_finditer PATH body ∧ group_text q 1 = path ∧ group_text q 2 = caps.
(** The transit key that a body grants *)
Definition transit_key_of (body key : string) : Prop := ∃ caps, grants body ("transit/keys/" +:+ key) caps.

(** A dict that a loop fills holds the last value of a key. *)
Lemma foldl_alist_set {A B} (f : A → string) (g : A → B) l init k x :
  alist_get k (foldl (λ d a, alist_set (f a) (g a) d) init l) = Some x ↔
  (∃ before a after, l = before ++ a :: after ∧ f a = k ∧ g a = x ∧ ∀ b, b ∈ after → f b ≠ k) ∨
  (∀ a, a ∈ l → f a ≠ k) ∧ alist_get k init = Some x.
Proof.
  revert init. induction l as [|a l IH]; intros init; cbn [foldl].
  - split; [intros H; right; split; [by intros a ?%elem_of_nil|done]|]. intros [(before & a & after & E & _)|[_ H]]; [by destruct before|done].
  - rewrite IH. split.
    + intros [(before & b & after & -> & H)|[Hl H]]; [left; by exists (a :: before), b, after|].
      destruct (decide (f a = k)) as [E|E].
      * rewrite E, alist_set_eq in H. injection H as <-. left. by exists [], a, l.
      * rewrite alist_set_ne in H by done. right. split; [|done]. by intros b [->|Hb]%elem_of_cons; [|apply Hl].
    + intros [(before & b & after & E & Hk & Hx & Hn)|[Hl H]].
      * destruct before as [|c before]; injection E as -> ->; [|left; by exists before, b, after].
        right. split; [done|]. by rewrite Hk, alist_set_eq, Hx.
      * right. split; [intros b Hb; apply Hl; by right|]. rewrite alist_set_ne; [done|]. apply Hl. left.
Qed.
Lemma policies_get text name paths : alist_get name (policies text) = Some paths ↔
  ∃ body, writes text name body ∧ paths = map pair_of (re_finditer PATH body).
Proof.
  unfold policies.
  rewrite (foldl_alist_set (λ m, policy_name (env_of text) (group_text m 1)) (λ m, map pair_of (re_finditer PATH (group_text m 2)))). split.
  - intros [(before & m & after & E & Hn & Hp & Ha)|[_ H]]; [|done]. exists (group_text m 2). split; [|done]. by exists before, m, after.
  - intros (body & (before & m & after & E & Hn & -> & Ha) & ->). left. by exists before, m, after.
Qed.
Lemma pair_grants body p : p ∈ map pair_of (re_finditer PATH body) ↔ grants body p.1 p.2.
Proof.
  rewrite list_elem_of_fmap. destruct p as [path caps]. cbn [fst snd]. split.
  - intros (q & [= -> ->] & Hq). by exists q.
  - intros (q & Hq & <- & <-). by exists q.
Qed.

Lemma sorted_policies_elem pols n ps : alist_get n pols = Some ps → (n, ps) ∈ sorted_policies pols.
Proof.
  intros H. unfold sorted_policies. apply list_elem_of_omap. exists n. rewrite H. split; [|done].
  apply sorted_set_elem. apply alist_elem in H. by apply (list_elem_of_fmap_2 fst) in H.
Qed.
Lemma path_clean name p : path_findings name p = [] → p.1 ≠ "*" ∧ (contains "sudo" p.2 = true → p.1 ∈ SUDO.*1).
Proof.
  destruct p as [path caps]. cbn [path_findings fst snd]. intros [H1 H2]%app_eq_nil. split.
  - intros ->. done.
  - intros Hs. rewrite Hs in H2. destruct (str_mem path SUDO.*1) eqn:E; [by apply str_mem_elem|done].
Qed.

(** The policies that a script writes are narrow for the key of a render. *)
Record narrow (text : string) (key : val) : Prop := {
  n_script : text ≠ "";
  n_paths : ∀ name body path caps, writes text name body → grants body path caps →
    path ≠ "*" ∧ (contains "sudo" caps = true → path ∈ SUDO.*1);
  n_tokens : ∀ name, name ∈ token_policies (env_of text) → ∃ body, writes text name body;
  n_key : key ≠ VNone → ∃ body k, key = VStr k ∧ writes text (platform_policy (env_of text)) body ∧
    ∀ k', transit_key_of body k' ↔ k' = k }.

Lemma transit_keys_elem body k : k ∈ transit_keys (map pair_of (re_finditer PATH body)) ↔ transit_key_of body k.
Proof.
  unfold transit_keys, transit_key_of. rewrite list_elem_of_omap. split.
  - intros ([path caps] & Hp & E%drop_prefix_Some). apply pair_grants in Hp. cbn [fst snd] in *. subst path. by exists caps.
  - intros (caps & Hg). exists ("transit/keys/" +:+ k, caps). split; [by apply pair_grants|]. by apply drop_prefix_Some.
Qed.
Lemma strs_eq_one l key : py_eq (strs l) (VList [key]) = true → ∃ k, key = VStr k ∧ l = [k].
Proof.
  destruct l as [|a [|b l]]; [done| |]; destruct key as [| | |k| |]; try done.
  - change (str_eqb a k && true = true → ∃ k', VStr k = VStr k' ∧ [a] = [k']). rewrite andb_true_r. intros ->%str_eqb_eq. by exists k.
  - change (str_eqb a k && false = true → ∃ k', VStr k = VStr k' ∧ a :: b :: l = [k']). by rewrite andb_false_r.
Qed.

Lemma judge_narrow text key : judge text key = [] → narrow text key.
Proof.
  unfold judge. destruct (str_eqb text "") eqn:Et; [done|]. intros [Ht [Hp Hk]%app_eq_nil]%app_eq_nil. split.
  - intros ->. done.
  - intros name body path caps Hw Hg. apply (path_clean name (path, caps)).
    assert ((name, map pair_of (re_finditer PATH body)) ∈ sorted_policies (policies text)) as Hs.
    { apply sorted_policies_elem, policies_get. by exists body. }
    apply (proj1 (concat_nil _)) with (l := concat (map (path_findings name) (map pair_of (re_finditer PATH body)))) in Hp;
      [|exact (list_elem_of_fmap_2 (λ p, concat (map (path_findings p.1) p.2)) _ _ Hs)].
    apply (proj1 (concat_nil _) Hp). apply list_elem_of_fmap_2. by apply pair_grants.
  - intros name Hn. apply map_eq_nil in Ht. rewrite sorted_set_nil in Ht. apply (filter_nil_elem _ _ _ Ht), negb_false_iff, str_mem_elem in Hn.
    destruct (alist_get name (policies text)) as [ps|] eqn:E; [|by apply alist_None in E].
    apply policies_get in E as (body & Hw & _). by exists body.
  - intros Hne. destruct (is_none key) eqn:En; [by destruct key|]. cbn [negb andb] in Hk.
    destruct (py_eq (strs _) (VList [key])) eqn:E; [|done]. apply strs_eq_one in E as (k & -> & E).
    destruct (alist_get (platform_policy (env_of text)) (policies text)) as [ps|] eqn:Ea; [|done].
    apply policies_get in Ea as (body & Hw & ->). exists body, k. split_and!; [done..|]. intros k'. rewrite <- transit_keys_elem. change (transit_keys (map pair_of (re_finditer PATH body)) = [k]) in E. by rewrite E, list_elem_of_singleton.
Qed.


Definition good_docs (text : string) : list val :=
  [VDict [("kind", VStr "Deployment"); ("metadata", str_dict [("name", "gibson-openbao")]);
          ("spec", VDict [("template", VDict [("spec", VDict [("containers",
             VList [VDict [("name", VStr "openbao-auto-init"); ("args", strs [text])]])])])])];
   VDict [("kind", VStr "PlatformBootstrap"); ("spec", VDict [("vaultTransit", str_dict [("keyName", "k")])])]].

(** The check reads one spacing of a path statement: with another, path "*" passes. *)
Lemma other_spacing_is_not_read :
  judge (good +:+ pol "legacy" "path `*` {capabilities = [`read`]}") (VStr "k") = [].
Proof. vm_compute. reflexivity. Qed.
