(* ===== verification/AlertRunbooks.v ===== *)
(** * scripts/check-alert-runbooks.py: each alert names a runbook section that exists

    The alert rules of the published profiles and of the rule files, their
    runbook URLs, and the headings of the pages that the URLs name. [helm] and
    [page] are arguments: the documents of a render, and the text of a file. *)
From S2P Require Import Prelude PyStr PyVal Regex.
From Stdlib Require Import Ascii.

Definition BASE : string := "https://github.com/zeroroot-ai/charts/blob/main/".
Definition PROFILES : list (list string) :=
  [["values-baseline.yaml"]; ["values-baseline.yaml"; "values-eks.yaml"]; ["values-baseline.yaml"; "values-guest.yaml"]].
Definition CAPS : string := "monitoring.coreos.com/v1".

(** ** The sections of a page *)

Definition anchor_char (c : ascii) : bool := is_word c || in_chars "- " c.
Fixpoint keep (f : ascii → bool) (s : string) : string :=
  match s with "" => "" | String c s => if f c then String c (keep f s) else keep f s end.
Definition anchor (heading : string) : string := str_replace (keep anchor_char (lower (strip heading))) " " "-".
(** [#{1,6}] *)
Fixpoint hashes (n : nat) : regex := match n with O => REps | S n => ROpt (RCat (RLit "#") (hashes n)) end.
Definition HEADING : regex := RSeq [RLineBegin; RLit "#"; hashes 5; RPlus (RChr is_space); RGroup 1 (RPlus RAny); RLineEnd].
Definition anchors (text : string) : list string := map (λ m, anchor (group_text m 1)) (re_finditer HEADING text).

(** ** The rules *)

Definition group_rules (whr : string) (g : val) : result (list (string * val)) :=
  rs <- get_list g "rules" ;;
  flatM (λ r, is_alert <- str_in "alert" r ;;
              if (is_alert : bool) then a <- item r "alert" ;; Ok [(cat [whr; ": "; py_str a], r)] else Ok []) rs.
Definition doc_rules (whr : string) (d : val) : result (list (string * val)) :=
  if negb (truthy d) then Ok [] else
  k <- get d "kind" ;;
  if negb (py_eq k (VStr "PrometheusRule")) then Ok [] else
  s <- get_dict d "spec" ;; gs <- get_list s "groups" ;; flatM (group_rules whr) gs.
Definition rules_of (docs : list val) (whr : string) : result (list (string * val)) := flatM (doc_rules whr) docs.

Definition profile_cmd (profile : list string) : list string :=
  ["helm"; "template"; "gibson"; "helm/gibson"; "--namespace"; "gibson"; "--api-versions"; CAPS; "-f"; "helm/testdata/render-inputs/gibson.yaml"] ++
  concat (map (λ f, ["-f"; "helm/gibson/" +:+ f]) profile).
(** [alert_files]: the parsed rule files under helm/*/files/alerts, in order *)
Definition render_rules (helm : list string → result (list val)) (alert_files : list (string * list val)) : result (list (string * val)) :=
  a <- flatM (λ p, docs <- helm (profile_cmd p) ;; rules_of docs (str_join "+" p)) PROFILES ;;
  b <- flatM (λ f, rules_of f.2 f.1) alert_files ;; Ok (a ++ b).

(** ** The audit *)

(** [os.path.join(root, path)] *)
Definition join (root path : string) : string := if startswith path "/" then path else cat [root; "/"; path].
Definition url_of (r : val) : result string :=
  a <- get_dict r "annotations" ;; u <- get a "runbook_url" ;; Ok (py_str (por u (VStr ""))).
(** [page]: the text of a path, when it is a file *)
Definition rule_findings (page : string → option string) (root : string) (rule : string * val) : result (list string) :=
  let '(whr, r) := rule in
  url <- url_of r ;;
  if str_eqb url "" then Ok [whr +:+ ": no runbook_url annotation"] else
  match drop_prefix BASE url with
  | Some rel =>
      match split1 "#" rel with
      | Some (path, frag) =>
          match page (join root path) with
          | None => Ok [cat [whr; ": runbook page "; path; " does not exist"]]
          | Some text =>
              Ok (if str_mem frag (anchors text) then [] else [cat [whr; ": runbook page "; path; " has no section #"; frag]])
          end
      | None => Ok [cat [whr; ": runbook_url "; repr_str url; " is not a section of a page under "; BASE]]
      end
  | None => Ok [cat [whr; ": runbook_url "; repr_str url; " is not a section of a page under "; BASE]]
  end.
Definition audit (page : string → option string) (root : string) (rules : list (string * val)) : result (list string) :=
  if negb (nonempty rules) then Ok ["read 0 alert rules: this guard is blind"] else
  bad <- flatM (rule_findings page root) rules ;; Ok (sorted_set bad).
Definition main (helm : list string → result (list val)) (alert_files : list (string * list val))
    (page : string → option string) (root : string) : result Z :=
  rules <- render_rules helm alert_files ;; bad <- audit page root rules ;; Ok (if nonempty bad then 1%Z else 0%Z).

(** ** The self-test *)

Definition page_fixture (p : string) : option string :=
  if str_eqb p "/d/docs/runbooks/alerts/x.md" then Some (unquoted "# X^^## GoodAlert^^Steps.^") else None.
Definition rule_fixture (name : string) (url : option string) : string * val :=
  ("fixture: " +:+ name,
   VDict [("alert", VStr name);
          ("annotations", str_dict (("summary", "s") :: match url with Some u => [("runbook_url", u)] | None => [] end))]).
Definition good : string := BASE +:+ "docs/runbooks/alerts/x.md".
Definition cases : list (list (string * val) * nat) :=
  [([rule_fixture "GoodAlert" (Some (good +:+ "#goodalert"))], 0); ([rule_fixture "NoRunbook" None], 1);
   ([rule_fixture "Elsewhere" (Some "https://example.com/runbook#a")], 1);
   ([rule_fixture "NoPage" (Some (cat [BASE; "docs/runbooks/alerts/gone.md"; "#nopage"]))], 1);
   ([rule_fixture "NoSection" (Some (good +:+ "#nosection"))], 1); ([], 1)].
Definition selftest : result Z :=
  failed <- anyM (λ c, got <- audit page_fixture "/d" c.1 ;; Ok (negb (length got =? c.2))) cases ;;
  Ok (if failed : bool then 1%Z else 0%Z).
Lemma alertrunbooks_selftest : selftest = Ok 0%Z.
Proof. vm_compute. reflexivity. Qed.

(** ** What a clean run proves *)


(** A line of a page is a heading: at the start of a line, marks, white space, and the text. *)
Definition heading (text h : string) : Prop :=
  ∃ a marks ws b, text = a +:+ marks +:+ ws +:+ h +:+ b ∧ (a = "" ∨ ∃ a', a = a' +:+ newline) ∧ marks ≠ "" ∧ str_forallb (Ascii.eqb "#") marks = true ∧
    ws ≠ "" ∧ str_forallb is_space ws = true ∧ h ≠ "" ∧ str_forallb (λ c, negb (is_newline c)) h = true ∧
    is_none_or is_newline (head_char b) = true.

Lemma step_hashes n p q : step (hashes n) p q → ∃ t, p.2 = t +:+ q.2 ∧ str_forallb (Ascii.eqb "#") t = true.
Proof.
  revert p. induction n as [|n IH]; intros p; cbn [hashes].
  - intros ->%step_eps_iff. by exists "".
  - intros [(r & Hr & H)%step_cat_iff| ->]%step_opt_iff; [|by exists ""]. destruct p as [p s].
    apply step_chr_iff in Hr as (c & t & -> & Hc & ->). apply IH in H as (u & Hu & Hh). exists (String c u). cbn [snd] in *. subst t.
    split; [done|]. apply andb_true_iff. by split.
Qed.
Lemma heading_sound text m : m ∈ re_finditer HEADING text → heading text (group_text m 1).
Proof.
  intros H. apply finditer_match in H as (before & [p s] & Hs & Hm). apply suffix_of_last in Hs as (a & -> & Ha).
  unfold match_at in Hm. unfold HEADING in Hm. cbn [RSeq] in Hm. rewrite !rmatch_cat in Hm.
  apply rmatch_sound in Hm as (s0 & H0 & Hm). pose proof (step_line_begin _ _ H0) as [E0 Hline]. clear H0.
  rewrite rmatch_cat in Hm. apply rmatch_sound in Hm as (s1 & H1 & Hm). rewrite <- E0 in H1. clear s0 E0.
  rewrite rmatch_cat in Hm. apply rmatch_sound in Hm as (s2 & H2 & Hm).
  rewrite rmatch_cat in Hm. apply rmatch_sound in Hm as ([p3 r3 g3] & H3 & Hm).
  rewrite rmatch_cat, rmatch_group in Hm. apply rmatch_sound in Hm as (s4 & H4 & Hm).
  apply rmatch_sound_groups in Hm as (s5 & H5 & Hg & [= <-]). specialize (Hg eq_refl). cbn [groups] in Hg.
  apply step_chr_iff in H1 as (c & t & Hs & <-%Ascii.eqb_eq & E1). rewrite E1 in H2. apply step_hashes in H2 as (u & Hu & Hh).
  destruct (core s2) as [p2 r2]. cbn [snd] in Hu. apply step_plus_iff in H3 as (ws & Hws & Hne & Hsp). cbn in Hws.
  apply step_plus_iff in H4 as (h & Hh4 & Hhne & Hhl). cbn in Hh4.
  assert (group_text (Found before (consumed s (rest s5)) (groups s5) (prev s5) (rest s5)) 1 = h) as ->.
  { unfold group_text, group. cbn [f_groups]. rewrite Hg. cbn. rewrite Hh4. apply consumed_app. }
  cbn [snd core prev rest fst] in *. exists a, (String "#" u), ws, (rest s4). split_and!; try done.
  - by rewrite Hs, Hu, Hws, Hh4.
  - destruct Ha as [[-> ->]|(a' & c & -> & ->)]; [by left|right]. exists a'. f_equal. apply Nat.eqb_eq in Hline.
    by rewrite <- (ascii_nat_embedding c), Hline.
  - by destruct (step_line_end _ _ H5).
Qed.

(** A rule of a document fires an alert. *)
Definition alert_rule (docs : list val) (r : val) : Prop :=
  ∃ d gs g rs, d ∈ docs ∧ fld d "kind" = VStr "PrometheusRule" ∧
    py_iter (por (fld (dict_fld d "spec") "groups") (VList [])) = Ok gs ∧ g ∈ gs ∧
    py_iter (por (fld g "rules") (VList [])) = Ok rs ∧ r ∈ rs ∧ str_in "alert" r = Ok true.
(** The URL of a rule names a section of a page of the repository. *)
Definition has_section (page : string → option string) (root : string) (r : val) : Prop :=
  ∃ path text h, page (join root path) = Some text ∧ heading text h ∧ contains "#" path = false ∧
    url_of r = Ok (cat [BASE; path; "#"; anchor h]).

Lemma rules_of_alert docs whr rs r : rules_of docs whr = Ok rs → alert_rule docs r → ∃ n, (n, r) ∈ rs.
Proof.
  intros H (d & gs & g & l & Hd & Hk & Hgs & Hg & Hl & Hr & Ha). destruct (flatM_Ok_elem _ _ _ _ H Hd) as (ds & Hds). pose proof Hds as Hds'.
  unfold doc_rules in Hds. destruct (truthy d) eqn:Et; [|by destruct d as [| | | | |[|]]].
  cbn [negb] in Hds. apply bind_Ok in Hds as (k & ->%get_Ok & Hds). rewrite Hk, py_eq_refl_str in Hds. cbn [negb] in Hds.
  apply bind_Ok in Hds as (sp & ->%get_dict_is & Hds). apply bind_Ok in Hds as (gs' & Hgs'%get_list_is & Hds).
  rewrite Hgs in Hgs'. injection Hgs' as <-. destruct (flatM_Ok_elem _ _ _ _ Hds Hg) as (x & Hx). pose proof Hx as Hx'.
  unfold group_rules in Hx. apply bind_Ok in Hx as (l' & Hl'%get_list_is & Hx). rewrite Hl in Hl'. injection Hl' as <-.
  destruct (flatM_Ok_elem _ _ _ _ Hx Hr) as (y & Hy). pose proof Hy as Hy'. rewrite Ha in Hy. cbn [rbind] in Hy.
  apply bind_Ok in Hy as (n & _ & [= <-]). eexists. apply (flatM_elem _ _ _ H). exists d, ds. split_and!; [done..|].
  apply (flatM_elem _ _ _ Hds). exists g, x. split_and!; [done..|]. apply (flatM_elem _ _ _ Hx). eexists r, _. split_and!; [done..|]. left.
Qed.

Lemma rules_of_source docs whr rs x : rules_of docs whr = Ok rs → x ∈ rs → alert_rule docs x.2.
Proof.
  intros H Hx. apply (flatM_elem _ _ _ H) in Hx as (d & l & Hd & Hl & Hx). unfold doc_rules in Hl.
  destruct (negb _); [injection Hl as <-; by apply elem_of_nil in Hx|]. apply bind_Ok in Hl as (k & ->%get_Ok & Hl).
  destruct (py_eq (fld d "kind") _) eqn:Ek; cbn [negb] in Hl; [|injection Hl as <-; by apply elem_of_nil in Hx].
  apply py_eq_str_r in Ek. apply bind_Ok in Hl as (sp & ->%get_dict_is & Hl). apply bind_Ok in Hl as (gs & Hgs%get_list_is & Hl).
  apply (flatM_elem _ _ _ Hl) in Hx as (g & k & Hg & Hk & Hx). unfold group_rules in Hk. apply bind_Ok in Hk as (l' & Hl'%get_list_is & Hk).
  apply (flatM_elem _ _ _ Hk) in Hx as (r & y & Hr & Hy & Hx). apply bind_Ok in Hy as (b & Hb & Hy).
  destruct b; [|injection Hy as <-; by apply elem_of_nil in Hx]. apply bind_Ok in Hy as (n & _ & [= <-]).
  apply list_elem_of_singleton in Hx as ->. by exists d, gs, g, l'.
Qed.

Lemma rule_clean page root n r : rule_findings page root (n, r) = Ok [] → has_section page root r.
Proof.
  unfold rule_findings. intros (url & Hu & H)%bind_Ok. destruct (str_eqb url "") eqn:E; [done|].
  destruct (drop_prefix BASE url) as [rel|] eqn:Eb; [|done]. apply drop_prefix_Some in Eb.
  destruct (split1 "#" rel) as [[path frag]|] eqn:Es; [|done]. destruct (page (join root path)) as [text|] eqn:Ep; [|done].
  destruct (str_mem frag (anchors text)) eqn:Em; [|done]. apply str_mem_elem in Em. apply list_elem_of_fmap in Em as (m & -> & Hm).
  exists path, text, (group_text m 1). split_and!; [done|by apply heading_sound|exact (split1_before "#" _ _ _ Es)|].
  apply split1_Some in Es. by rewrite Hu, Eb, Es.
Qed.

(** When main of check-alert-runbooks.py exits 0, there is an alert rule,
    and the runbook URL of each one, in the render of each profile and in each
    rule file, is the address of a page of the repository with a heading whose
    anchor is the fragment. *)
Theorem clean_alerts_have_runbooks helm alert_files page root :
  main helm alert_files page root = Ok 0%Z →
  (∃ docs r, ((∃ p, p ∈ PROFILES ∧ helm (profile_cmd p) = Ok docs) ∨ docs ∈ alert_files.*2) ∧ alert_rule docs r) ∧
  ∀ docs r, (∃ p, p ∈ PROFILES ∧ helm (profile_cmd p) = Ok docs) ∨ docs ∈ alert_files.*2 → alert_rule docs r → has_section page root r.
Proof.
  unfold main. intros (rules & Hr & H)%bind_Ok. apply bind_Ok in H as (bad & Hb & H). destruct bad; [clear H|done].
  unfold audit in Hb. destruct rules as [|x rs]; [done|]. cbn [nonempty negb] in Hb. apply bind_Ok in Hb as (fs & Hf & Hb).
  injection Hb as Hb. rewrite sorted_set_nil in Hb. subst fs.
  unfold render_rules in Hr. apply bind_Ok in Hr as (a & Ha & Hr). apply bind_Ok in Hr as (b & Hb & Hr%Ok_inj). split.
  - assert (x ∈ a ++ b) as Hx by (rewrite Hr; left). apply elem_of_app in Hx as [Hx|Hx].
    + apply (flatM_elem _ _ _ Ha) in Hx as (p & l & Hp & Hl & Hx). apply bind_Ok in Hl as (docs & Hd & Hl).
      exists docs, x.2. split; [left; by exists p|by apply (rules_of_source _ _ _ _ Hl)].
    + apply (flatM_elem _ _ _ Hb) in Hx as (f & l & Hfin & Hl & Hx).
      exists f.2, x.2. split; [right; by apply list_elem_of_fmap_2|by apply (rules_of_source _ _ _ _ Hl)].
  - intros docs r Hdocs Hrule. assert (∃ n, (n, r) ∈ a ++ b) as (n & Hn).
    { destruct Hdocs as [(p & Hp & Hd)|(f & -> & Hfin)%list_elem_of_fmap].
      - destruct (flatM_Ok_elem _ _ _ _ Ha Hp) as (l & Hl). pose proof Hl as Hl'. rewrite Hd in Hl. cbn [rbind] in Hl.
        destruct (rules_of_alert _ _ _ _ Hl Hrule) as (n & Hn). exists n. apply elem_of_app. left.
        apply (flatM_elem _ _ _ Ha). by exists p, l.
      - destruct (flatM_Ok_elem _ _ _ _ Hb Hfin) as (l & Hl). destruct (rules_of_alert _ _ _ _ Hl Hrule) as (n & Hn).
        exists n. apply elem_of_app. right. apply (flatM_elem _ _ _ Hb). by exists f, l. }
    rewrite Hr in Hn. apply (rule_clean _ _ n). by apply (proj1 (flatM_nil _ _) Hf).
Qed.

Definition docs_fixture : list val :=
  [VNone; VDict [("kind", VStr "PrometheusRule");
                 ("spec", VDict [("groups", VList [VDict [("rules", VList [(rule_fixture "GoodAlert" (Some (good +:+ "#goodalert"))).2])]])])]].
Lemma clean_alerts_have_runbooks_witness :
  main (λ _, Ok docs_fixture) [("helm/gibson/files/alerts/a.yaml", docs_fixture)] page_fixture "/d" = Ok 0%Z ∧
  has_section page_fixture "/d" (rule_fixture "GoodAlert" (Some (good +:+ "#goodalert"))).2.
Proof.
  assert (main (λ _, Ok docs_fixture) [("helm/gibson/files/alerts/a.yaml", docs_fixture)] page_fixture "/d" = Ok 0%Z) as H
    by (vm_compute; reflexivity).
  split; [exact H|]. apply (proj2 (clean_alerts_have_runbooks _ _ _ _ H) docs_fixture); [right; left|].
  eexists _, _, _, _. split_and!; [right; left|vm_compute; reflexivity|vm_compute; reflexivity|left|vm_compute; reflexivity|left|vm_compute; reflexivity].
Defined.

(** White space after the marks runs over the end of the line, so the text
    below an empty heading counts as a section. *)
Lemma empty_heading_takes_the_next_line : anchors ("#" +:+ newline +:+ "not a heading") = ["not-a-heading"].
Proof. vm_compute. reflexivity. Qed.
