(* ===== verification/SecretStores.v ===== *)
(** * scripts/check-externalsecret-store-namespace.py: each ExternalSecret sits where its store serves it

    The stores of a render, the namespaces that their conditions admit, and the
    store that each ExternalSecret names. *)
From S2P Require Import Prelude PyStr PyVal Regex RegexParse.
From Stdlib Require Import Ascii.

Definition RELEASE_NS : string := "gibson".
Definition ns_of (d : val) : result val := meta_namespace d RELEASE_NS.

(** [re.search(pattern, s)], of values *)
Definition search_val (pattern s : val) : result bool :=
  match pattern, s with
  | VStr p, VStr s =>
      match parse_regex p with
      | Some r => Ok (match re_search r s with Some _ => true | None => false end)
      | None => Raise ReError
      end
  | _, _ => Raise TypeError
  end.
(** [d[k]] and [k in d], of a dict with any keys *)
Definition vdict_in {A} (k : val) (d : list (val * A)) : result bool :=
  if hashable k then Ok (match vdict_get k d with Some _ => true | None => false end) else Raise TypeError.
Definition label_is (labels : val) (kv : string * val) : result bool := x <- get labels kv.1 ;; Ok (py_eq x kv.2).
Definition selector_admits (sel ns : val) (ns_labels : list (val * val)) : result bool :=
  if negb (truthy sel) then Ok false else
  andR (vdict_in ns ns_labels) (kvs <- items sel ;; allM (label_is (default VNone (vdict_get ns ns_labels))) kvs).
Definition admits (cond ns : val) (ns_labels : list (val * val)) : result bool :=
  names <- get cond "namespaces" ;; listed <- val_in ns (por names (VList [])) ;;
  if (listed : bool) then Ok true else
  res <- get_list cond "namespaceRegexes" ;; matched <- anyM (λ r, search_val r ns) res ;;
  if (matched : bool) then Ok true else
  s <- get_dict cond "namespaceSelector" ;; sel <- get s "matchLabels" ;; selector_admits sel ns ns_labels.

(** ** The objects of a render *)

Definition of_kind (k : string) (docs : list val) : result (list val) :=
  filterM (λ d, x <- get d "kind" ;; Ok (py_eq x (VStr k))) docs.
Definition by_name (f : val → result val) (docs : list val) : result (list (val * val)) :=
  flatM (λ d, n <- meta_name d ;; x <- f d ;; vdict_item n x) docs.
Definition labels_of (d : val) : result val := m <- item d "metadata" ;; get_dict m "labels".
Definition local_store (d : val) : result (list (val * val)) :=
  ns <- ns_of d ;; n <- meta_name d ;; if hashable ns && hashable n then Ok [(ns, n)] else Raise TypeError.
Definition conditions (d : val) : result val := s <- get_dict d "spec" ;; get s "conditions".
Definition open_finding (stores : list (val * val)) (n : val) : result (list string) :=
  cs <- conditions (default VNone (vdict_get n stores)) ;;
  Ok (if truthy cs then [] else [cat ["ClusterSecretStore "; py_str n; " has no conditions, so it serves every namespace"]]).

(** Each source of an ExternalSecret is a generator. *)
Definition generator_only (spec : val) : result bool :=
  ref <- get spec "secretStoreRef" ;; data <- get spec "data" ;; from <- get spec "dataFrom" ;;
  if truthy ref || truthy data || negb (truthy from) then Ok false else
  fs <- py_iter from ;; allM (λ f, s <- get_dict f "sourceRef" ;; get_truthy s "generatorRef") fs.
Definition es_findings (stores local ns_labels : list (val * val)) (d : val) : result (list string) :=
  ns <- ns_of d ;; n <- meta_name d ;; spec <- get_dict d "spec" ;;
  let es := cat ["ExternalSecret "; py_str ns; "/"; py_str n] in
  gen <- generator_only spec ;;
  if (gen : bool) then Ok [] else
  ref <- get_dict spec "secretStoreRef" ;; kind <- get ref "kind" ;; store <- get ref "name" ;;
  if py_eq (por kind (VStr "SecretStore")) (VStr "SecretStore") then
    if negb (hashable ns && hashable store) then Raise TypeError
    else Ok (if existsb (λ e, py_eq e.1 ns && py_eq e.2 store) local then []
             else [cat [es; " names SecretStore "; py_str store; ", and no store of that name is in "; py_str ns]])
  else
    known <- vdict_in store stores ;;
    if negb known then Ok [cat [es; " names ClusterSecretStore "; py_str store; ", and the render has no such store"]] else
    cs <- conditions (default VNone (vdict_get store stores)) ;; l <- py_iter (por cs (VList [])) ;;
    served <- anyM (λ c, admits c ns ns_labels) l ;;
    Ok (if nonempty l && negb served
        then [cat [es; " is in namespace "; py_str ns; ", and ClusterSecretStore "; py_str store; " does not serve it"]] else []).
Definition judge (docs : list val) : result (list string) :=
  let docs := List.filter is_dict docs in
  css <- of_kind "ClusterSecretStore" docs ;; stores <- by_name Ok css ;;
  ss <- of_kind "SecretStore" docs ;; local <- flatM local_store ss ;;
  nss <- of_kind "Namespace" docs ;; ns_labels <- by_name labels_of nss ;;
  names <- py_sorted (distinct stores.*1) ;; bad <- flatM (open_finding stores) names ;;
  ess <- of_kind "ExternalSecret" docs ;; bad' <- flatM (es_findings stores local ns_labels) ess ;;
  Ok (bad ++ bad').

(** [golden]: the golden renders by file name, in order *)
Definition has_secret (docs : list val) : result bool := anyM (λ d, k <- get d "kind" ;; Ok (py_eq k (VStr "ExternalSecret"))) (List.filter is_dict docs).
Definition audit (golden : list (string * list val)) : result (list string * nat) :=
  seen <- filterM (λ r, has_secret r.2) golden ;;
  bad <- flatM (λ r, fs <- judge r.2 ;; Ok (map (λ x, cat [r.1; ": "; x]) fs)) seen ;;
  Ok (bad ++ (if nonempty seen then [] else ["no golden render holds an ExternalSecret: this check is blind"]), length seen).
Definition main (golden : list (string * list val)) : result Z :=
  r <- audit golden ;; Ok (if nonempty r.1 then 1%Z else 0%Z).

(** ** The self-test *)

Definition store_fixture (conds : option (list val)) : val :=
  VDict [("kind", VStr "ClusterSecretStore"); ("metadata", str_dict [("name", "s")]);
         ("spec", VDict (match conds with Some l => [("conditions", VList l)] | None => [] end))].
Definition es_fixture (ns ref kind : string) : val :=
  VDict [("kind", VStr "ExternalSecret"); ("metadata", str_dict [("name", "e"); ("namespace", ns)]);
         ("spec", VDict [("secretStoreRef", str_dict [("kind", kind); ("name", ref)])])].
Definition es (ns : string) : val := es_fixture ns "s" "ClusterSecretStore".
Definition names_cond (l : list string) : val := VDict [("namespaces", strs l)].
Definition gibson : list val := [names_cond ["gibson"]].
Definition regex_cond (r : string) : list val := [VDict [("namespaceRegexes", strs [r])]].
Definition sel_cond : list val := [VDict [("namespaceSelector", VDict [("matchLabels", str_dict [("a", "b")])])]].
Definition gen_es (data : list val) : val :=
  VDict [("kind", VStr "ExternalSecret"); ("metadata", str_dict [("name", "g"); ("namespace", "gibson")]);
         ("spec", VDict ((if nonempty data then [("data", VList data)] else []) ++
            [("dataFrom", VList [VDict [("sourceRef", VDict [("generatorRef", str_dict [("kind", "VaultDynamicSecret"); ("name", "v")])])]])]))].
Definition local_fixture (ns : string) : val :=
  VDict [("kind", VStr "SecretStore"); ("metadata", str_dict [("name", "l"); ("namespace", ns)])].
Definition passing : list (list val) :=
  [[store_fixture (Some gibson); es "gibson"];
   [store_fixture (Some [names_cond ["gibson"; "setec-system"]]); es "gibson"; es "setec-system"];
   [store_fixture (Some (regex_cond "setec-.*")); es "setec-system"];
   [store_fixture (Some (regex_cond "setec")); es "x-setec-system"];
   [store_fixture (Some sel_cond); es "x";
    VDict [("kind", VStr "Namespace"); ("metadata", VDict [("name", VStr "x"); ("labels", str_dict [("a", "b")])])]];
   [store_fixture (Some gibson); gen_es []]; [local_fixture "x"; es_fixture "x" "l" "SecretStore"]].
Definition failing : list (list val) :=
  [[store_fixture (Some gibson); es "setec-system"]; [store_fixture (Some (regex_cond "^gibson$")); es "gibson-x"];
   [store_fixture (Some sel_cond); es "x"]; [store_fixture None; es "gibson"];
   [store_fixture (Some gibson); es_fixture "gibson" "other" "ClusterSecretStore"];
   [store_fixture (Some gibson); gen_es [VDict [("secretKey", VStr "k"); ("remoteRef", str_dict [("key", "k")])]]];
   [local_fixture "y"; es_fixture "x" "l" "SecretStore"]].
Definition selftest : result Z :=
  a <- anyM (λ docs, fs <- judge docs ;; Ok (nonempty fs)) passing ;;
  b <- anyM (λ docs, fs <- judge docs ;; Ok (negb (length fs =? 1))) failing ;;
  Ok (if a || b then 1%Z else 0%Z).
Lemma secretstores_selftest : selftest = Ok 0%Z.
Proof. vm_compute. reflexivity. Qed.

(** ** What a clean run proves *)

(** The namespace of an object; the release sets it when the object does not. *)
Definition namespace (d : val) : val := por (fld (dict_fld d "metadata") "namespace") (VStr RELEASE_NS).
Definition name_of (d : val) : val := fld (fld d "metadata") "name".
Definition object (docs : list val) (kind : string) (name : val) (d : val) : Prop :=
  d ∈ docs ∧ is_dict d = true ∧ fld d "kind" = VStr kind ∧ py_eq (name_of d) name = true.
(** A pattern matches inside a text. *)
Definition matches (pattern s : string) : Prop :=
  ∃ r a b, parse_regex pattern = Some r ∧ suffix_of (None, s) a ∧ step r a b.
(** A condition of a store admits a namespace: by its name, by a pattern, or by
    the labels of a Namespace of the render. *)
Inductive admitted (docs : list val) (cond : val) (ns : string) : Prop :=
  | By_name : val_in (VStr ns) (por (fld cond "namespaces") (VList [])) = Ok true → admitted docs cond ns
  | By_pattern l p : py_iter (por (fld cond "namespaceRegexes") (VList [])) = Ok l → VStr p ∈ l → matches p ns → admitted docs cond ns
  | By_labels sel d : fld (dict_fld cond "namespaceSelector") "matchLabels" = VDict sel → sel ≠ [] → object docs "Namespace" (VStr ns) d →
      (∀ k v, (k, v) ∈ sel → py_eq (fld (dict_fld (fld d "metadata") "labels") k) v = true) → admitted docs cond ns.
(** The store that an ExternalSecret names serves its namespace. *)
Inductive served (docs : list val) (ns : string) (spec : val) : Prop :=
  | By_generator l : truthy (fld spec "secretStoreRef") = false → truthy (fld spec "data") = false →
      py_iter (fld spec "dataFrom") = Ok l → l ≠ [] →
      (∀ f, f ∈ l → truthy (fld (dict_fld f "sourceRef") "generatorRef") = true) → served docs ns spec
  | By_store d : object docs "SecretStore" (fld (dict_fld spec "secretStoreRef") "name") d → py_eq (namespace d) (VStr ns) = true →
      served docs ns spec
  | By_cluster d l c : object docs "ClusterSecretStore" (fld (dict_fld spec "secretStoreRef") "name") d →
      py_iter (fld (dict_fld d "spec") "conditions") = Ok l → c ∈ l → admitted docs c ns → served docs ns spec.

Lemma ns_of_is d n : ns_of d = Ok n → n = namespace d.
Proof. unfold ns_of, meta_namespace. by intros (m & ->%get_dict_is & (x & ->%get_Ok & [= <-])%bind_Ok)%bind_Ok. Qed.
Lemma of_kind_object k docs l d : of_kind k (List.filter is_dict docs) = Ok l → d ∈ l ↔ d ∈ docs ∧ is_dict d = true ∧ fld d "kind" = VStr k.
Proof.
  intros H. rewrite (filterM_Ok _ _ _ H), list_elem_of_In, filter_In, <- list_elem_of_In. split.
  - intros [[Hd Hi] (x & ->%get_Ok & [= Hk])%bind_Ok]. apply py_eq_str_r in Hk. done.
  - intros (Hd & Hi & Hk). split; [done|]. destruct d as [| | | | |d]; try done. rewrite get_dict_fld. cbn [rbind].
    by rewrite Hk, py_eq_refl_str.
Qed.
Lemma by_name_get f k docs objs l n x : of_kind k (List.filter is_dict docs) = Ok objs → by_name f objs = Ok l → vdict_get n l = Some x →
  ∃ d, object docs k n d ∧ f d = Ok x.
Proof.
  intros Ho Hl H. apply vdict_get_elem in H as (k' & Hin & He). apply (flatM_elem _ _ _ Hl) in Hin as (d & r & Hd & Hr & Hin).
  apply bind_Ok in Hr as (m & ->%meta_name_fld & Hr). apply bind_Ok in Hr as (y & Hy & Hr).
  unfold vdict_item in Hr. destruct (hashable _); [|done]. injection Hr as <-. apply list_elem_of_singleton in Hin as [= -> ->].
  exists d. split; [|done]. by apply (of_kind_object _ _ _ _ Ho) in Hd as (? & ? & ?).
Qed.
Lemma vdict_in_get {A} k (l : list (val * A)) : vdict_in k l = Ok true → is_Some (vdict_get k l).
Proof. unfold vdict_in. destruct (hashable k); [|done]. by destruct (vdict_get k l). Qed.

Lemma search_matches p ns : search_val p (VStr ns) = Ok true → ∃ t, p = VStr t ∧ matches t ns.
Proof.
  destruct p as [| | |t| |]; try done. cbn [search_val]. destruct (parse_regex t) as [r|] eqn:Ep; [|done].
  destruct (re_search r ns) as [m|] eqn:Es; [|done]. intros _. exists t. split; [done|].
  assert (∃ m, search_from r "" None ns = Some m) as (a & b & Ha & Hb)%search_from_iff by (by exists m). by exists r, a, b.
Qed.

(** Equality of the values that can be keys *)
Lemma py_eq_refl_key v : hashable v = true → py_eq v v = true.
Proof. destruct v; try done; intros _; cbn; [by destruct b|apply Z.eqb_refl|apply str_eqb_refl]. Qed.
Lemma py_eq_congr v a b : hashable a = true → py_eq a b = true → py_eq v a = py_eq v b.
Proof.
  destruct a as [|a|a|a| |]; try done; intros _; destruct b as [|b|b|b| |]; try done; cbn.
  - by intros ->%Bool.eqb_prop.
  - intros <-%Z.eqb_eq. destruct v as [|c| | | |]; try done; cbn; by destruct a, c.
  - intros ->%Z.eqb_eq. destruct v as [|c| | | |]; try done; cbn; by destruct b, c.
  - by intros ->%Z.eqb_eq.
  - by intros ->%str_eqb_eq.
Qed.
Lemma distinct_covers l x : x ∈ l → hashable x = true → ∃ y, y ∈ distinct l ∧ py_eq y x = true.
Proof.
  intros Hx Hh. induction l as [|v l IH]; [by apply elem_of_nil in Hx|]. cbn [distinct].
  apply elem_of_cons in Hx as [->|Hx]; [exists v; split; [left|by apply py_eq_refl_key]|]. destruct (IH Hx) as (y & Hy & He).
  destruct (py_eq v y) eqn:E.
  - exists v. split; [left|]. destruct (hashable y) eqn:Ehy; [by rewrite <- (py_eq_congr v y x)|]. by destruct y, x.
  - exists y. split; [right|done]. apply list_elem_of_In, filter_In. split; [by apply list_elem_of_In|]. by rewrite E.
Qed.
Lemma vdict_get_congr {A} a b (l : list (val * A)) : hashable a = true → py_eq a b = true → vdict_get a l = vdict_get b l.
Proof. intros Ha He. unfold vdict_get. f_equal. induction (rev l) as [|e k IH]; [done|]. cbn. rewrite IH. by rewrite (py_eq_congr e.1 a b). Qed.

Section a_render.
Context (docs css ss nss : list val) (stores local ns_labels : list (val * val)).
Hypotheses
  (Hcss : of_kind "ClusterSecretStore" (List.filter is_dict docs) = Ok css)
  (Hstores : by_name Ok css = Ok stores)
  (Hss : of_kind "SecretStore" (List.filter is_dict docs) = Ok ss)
  (Hlocal : flatM local_store ss = Ok local)
  (Hnss : of_kind "Namespace" (List.filter is_dict docs) = Ok nss)
  (Hlabels : by_name labels_of nss = Ok ns_labels).

Lemma admits_admitted c ns : admits c (VStr ns) ns_labels = Ok true → admitted docs c ns.
Proof using Hnss Hlabels.
  unfold admits. intros (names & ->%get_Ok & H)%bind_Ok. apply bind_Ok in H as (b & Hb & H).
  destruct b; [by apply By_name|]. apply bind_Ok in H as (res & Hres & H). apply bind_Ok in H as (b' & Hb' & H). destruct b'.
  { apply anyM_true in Hb' as (p & Hp & Hm). apply search_matches in Hm as (t & -> & Hm). unfold get_list in Hres.
    apply bind_Ok in Hres as (x & ->%get_Ok & Hres). by apply (By_pattern _ _ _ res t). }
  apply bind_Ok in H as (s & ->%get_dict_is & H). apply bind_Ok in H as (sel & ->%get_Ok & H). unfold selector_admits in H.
  destruct (truthy _) eqn:Et; [|done]. cbn [negb] in H. apply andR_true in H as [Hin H]. apply vdict_in_get in Hin as [labels Hg].
  rewrite Hg in H. cbn [default] in H. destruct (by_name_get _ _ _ _ _ _ _ Hnss Hlabels Hg) as (d & Hd & Hf).
  apply bind_Ok in H as (kvs & Hkvs & H). destruct (fld (dict_fld c "namespaceSelector") "matchLabels") as [| | | | |sel] eqn:Esel; try done.
  injection Hkvs as <-. apply (By_labels _ _ _ sel d); [done|by intros ->|done|]. intros k v Hkv.
  apply (proj1 (allM_true _ _) H) in Hkv. unfold label_is in Hkv. apply bind_Ok in Hkv as (x & ->%get_Ok & [= Hx]).
  unfold labels_of in Hf. by apply bind_Ok in Hf as (m & ->%item_fld & ->%get_dict_is).
Qed.

Lemma store_conditions names n x : py_sorted (distinct stores.*1) = Ok names → flatM (open_finding stores) names = Ok [] →
  vdict_get n stores = Some x → conditions x = Ok (fld (dict_fld x "spec") "conditions") ∧ truthy (fld (dict_fld x "spec") "conditions") = true.
Proof using Hstores.
  intros Hn Hopen Hg. pose proof Hg as (k & Hk & He)%vdict_get_elem.
  assert (hashable k = true) as Hh.
  { apply (flatM_elem _ _ _ Hstores) in Hk as (d & r & _ & Hr & Hin). apply bind_Ok in Hr as (m & _ & Hr). apply bind_Ok in Hr as (y & _ & Hr).
    unfold vdict_item in Hr. destruct (hashable m) eqn:Em; [|done]. injection Hr as <-. by apply list_elem_of_singleton in Hin as [= -> _]. }
  destruct (distinct_covers stores.*1 k) as (y & Hy & Hyk); [by apply (list_elem_of_fmap_2 fst _ _ Hk)|done|].
  rewrite (py_sorted_elem _ _ Hn) in Hy. apply (proj1 (flatM_nil _ _) Hopen) in Hy. unfold open_finding in Hy.
  assert (hashable y = true) as Hhy by (by destruct y, k).
  rewrite (vdict_get_congr y k), (vdict_get_congr k n), Hg in Hy by done. cbn [default] in Hy.
  apply bind_Ok in Hy as (cs & Hcs & Hy). pose proof Hcs as (s & ->%get_dict_is & ->%get_Ok)%bind_Ok. split; [done|].
  by destruct (truthy _).
Qed.

Lemma es_clean d names ns : es_findings stores local ns_labels d = Ok [] → namespace d = VStr ns →
  py_sorted (distinct stores.*1) = Ok names → flatM (open_finding stores) names = Ok [] → served docs ns (dict_fld d "spec").
Proof using All.
  intros H Hns Hnames Hopen. unfold es_findings in H. apply bind_Ok in H as (n & ->%ns_of_is & H). rewrite Hns in H.
  apply bind_Ok in H as (m & _ & H). apply bind_Ok in H as (spec & ->%get_dict_is & H). apply bind_Ok in H as (gen & Hgen & H). destruct gen.
  { clear H. unfold generator_only in Hgen. apply bind_Ok in Hgen as (ref & ->%get_Ok & Hgen). apply bind_Ok in Hgen as (data & ->%get_Ok & Hgen).
    apply bind_Ok in Hgen as (from & ->%get_Ok & Hgen). destruct (_ || _ || _) eqn:E; [done|]. rewrite !orb_false_iff in E. destruct E as [[E1 E2] E3%negb_false_iff].
    apply bind_Ok in Hgen as (fs & Hfs & Hgen). apply (By_generator _ _ _ fs); [done..| |].
    - intros ->. destruct (fld (dict_fld d "spec") "dataFrom") as [| | |s|l|l]; try done; cbn in Hfs; [by destruct s|by destruct l|by destruct l as [|[]]].
    - intros f Hf. apply (proj1 (allM_true _ _) Hgen) in Hf. apply bind_Ok in Hf as (s & ->%get_dict_is & Hf).
      unfold get_truthy in Hf. by apply bind_Ok in Hf as (x & ->%get_Ok & [= Hx]). }
  apply bind_Ok in H as (ref & ->%get_dict_is & H). apply bind_Ok in H as (kind & ->%get_Ok & H). apply bind_Ok in H as (store & ->%get_Ok & H).
  destruct (py_eq (por _ _) _) eqn:Ek.
  - destruct (negb _); [done|]. destruct (existsb _ local) eqn:E; [|done]. apply existsb_elem_of in E as ([ns' n'] & Hin & [E1 E2]%andb_true_iff).
    apply (flatM_elem _ _ _ Hlocal) in Hin as (x & r & Hx & Hr & Hin). unfold local_store in Hr.
    apply bind_Ok in Hr as (a & ->%ns_of_is & Hr). apply bind_Ok in Hr as (b & ->%meta_name_fld & Hr). destruct (_ && _); [|done].
    injection Hr as <-. apply list_elem_of_singleton in Hin as [= -> ->]. apply (of_kind_object _ _ _ _ Hss) in Hx as (? & ? & ?).
    by apply (By_store _ _ _ x).
  - apply bind_Ok in H as (known & Hknown & H). destruct known; [|done]. cbn [negb] in H. apply vdict_in_get in Hknown as [x Hx].
    rewrite Hx in H. change (default VNone (Some x)) with x in H. destruct (store_conditions _ _ _ Hnames Hopen Hx) as [Hc Ht]. rewrite Hc in H. cbn [rbind] in H.
    rewrite (truthy_por _ _ Ht) in H. apply bind_Ok in H as (l & Hl & H). apply bind_Ok in H as (b & Hb & H).
    destruct (by_name_get _ _ _ _ _ _ _ Hcss Hstores Hx) as (y & Hy & [= ->]). destruct b.
    + apply anyM_true in Hb as (c & Hcin & Hc'). apply (By_cluster _ _ _ x l c); [done..|by apply admits_admitted].
    + destruct l as [|c l]; [|done]. exfalso. destruct (fld _ "conditions") as [| | |s|l|l]; try done; cbn in Hl; [by destruct s|by destruct l|by destruct l as [|[]]].
Qed.
End a_render.


