(* ===== verification/HelperDocs.v ===== *)
(** * scripts/check-helper-docs.py: the documentation of a helper sits beside its define

    The comments and the defines at the top level of a template file, in order,
    and what must follow a comment. *)
From stdpp Require Import sorting.
From S2P Require Import Prelude PyStr PyVal Regex.
From Stdlib Require Import Ascii.

(** [.] with [re.S] *)
Definition any : regex := RChr (λ _, true).
Definition quoted : regex := RGroup 1 (RPlus (RChr (λ c, negb (Ascii.eqb c dquote)))).
Definition COMMENT : regex :=
  RSeq [RStr "{{"; ROpt (RStr "-"); RSpaces; RStr "/*"; RLazy any; RStr "*/"; RSpaces; ROpt (RStr "-"); RStr "}}"].
Definition ACTION : regex := RSeq [RStr "{{"; ROpt (RStr "-"); RGroup 1 (RLazy any); ROpt (RStr "-"); RStr "}}"].
Definition OPENER : regex :=
  RSeq [RBegin; RSpaces; ROneOf [RStr "if"; RStr "range"; RStr "with"; RStr "define"; RStr "block"]; RWordB].
Definition CLOSER : regex := RSeq [RBegin; RSpaces; RStr "end"; RSpaces; REnd].
Definition DEFINE : regex := RSeq [RBegin; RSpaces; RStr "define"; RPlus (RChr is_space); RLit dquote; quoted; RLit dquote].
Definition name_part : regex := RPlus (RChr (λ c, is_alpha c || is_digit c)).
Definition SUBJECT : regex := RSeq [RLineBegin; RSpaces; RGroup 1 (RSeq [RStr "gibson."; name_part; RStar (RCat (RLit ".") name_part)]); RWordB].

(** ** The items of a file *)

(** [it_name]: the name of a define; [None]: a comment *)
Record item := Item { it_name : option string; it_line : nat; it_text : string }.
Definition Comment (line : nat) (text : string) : item := Item None line text.
Definition Define (line : nat) (name : string) : item := Item (Some name) line "".
Definition is_define (i : item) : bool := bool_decide (is_Some (it_name i)).

Record event := Event { ev_comment : bool; ev_start : nat; ev_end : nat; ev_text : string }.

Definition lines_in (s : string) : nat := str_count "010" s.
(** The text without its last character *)
Definition but_last (s : string) : string := str_slice 0 (String.length s - 1) s.
(** The lines where each match starts and ends, from the line of the text *)
Fixpoint located (line : nat) (ms : list found) : list (nat * nat * found) :=
  match ms with
  | [] => []
  | m :: ms =>
      let start := line + lines_in (f_before m) in
      (start, start + lines_in (but_last (f_text m)), m) :: located (start + lines_in (f_text m)) ms
  end.
Fixpoint blank (s : string) : string :=
  match s with "" => "" | String c s => String (if is_newline c then c else " "%char) (blank s) end.
Definition masked (src : string) : string := re_sub COMMENT (λ m, blank (f_text m)) src.
Definition comment_events (src : string) : list event :=
  map (λ '(a, b, m), Event true a b (f_text m)) (located 0 (re_finditer COMMENT src)).
Definition action_events (text : string) : list event :=
  omap (λ '(a, b, m), if str_eqb (strip (group_text m 1)) "" then None else Some (Event false a b (group_text m 1)))
    (located 0 (re_finditer ACTION text)).

(** A stable sort by a key *)
Section sort.
Context {A : Type} (le : A → A → bool).
Fixpoint insert_stable (x : A) (l : list A) : list A :=
  match l with
  | [] => [x]
  | y :: l => if le y x then y :: insert_stable x l else x :: y :: l
  end.
Definition sort_stable (l : list A) : list A := foldl (λ k x, insert_stable x k) [] l.
End sort.
Definition ev_le (a b : event) : bool :=
  (ev_start a <? ev_start b) || ((ev_start a =? ev_start b) && (ev_end a <=? ev_end b)).
Definition it_le (a b : item) : bool := it_line a <=? it_line b.
Definition events (src : string) : list event := sort_stable ev_le (comment_events src ++ action_events (masked src)).

(** The loop over the events: the items so far, the depth, and the define that is open *)
Record scan := Scan { out : list item; depth : Z; pending : option item }.
Definition scan_event (s : scan) (e : event) : scan :=
  if ev_comment e
  then if (depth s =? 0)%Z then Scan (out s ++ [Comment (ev_start e) (ev_text e)]) (depth s) (pending s) else s
  else
    match re_match DEFINE (ev_text e), (depth s =? 0)%Z with
    | Some d, true => Scan (out s) 1 (Some (Define (ev_start e) (group_text d 1)))
    | _, _ =>
        match re_match OPENER (ev_text e) with
        | Some _ => Scan (out s) (depth s + 1) (pending s)
        | None =>
            match re_match CLOSER (ev_text e) with
            | Some _ =>
                match pending s, (depth s - 1 =? 0)%Z with
                | Some d, true => Scan (out s ++ [d]) (depth s - 1) None
                | _, _ => Scan (out s) (depth s - 1) (pending s)
                end
            | None => s
            end
        end
    end.
Definition scan_events (es : list event) : list item :=
  let s := foldl scan_event (Scan [] 0 None) es in out s ++ match pending s with Some d => [d] | None => [] end.
Definition parse (src : string) : list item := sort_stable it_le (scan_events (events src)).

(** ** What must follow a comment *)

Definition OPENING : regex := RSeq [RBegin; RSpaces; RStr "{{"; ROpt (RStr "-"); RSpaces; RStr "/*"].
Definition CLOSING : regex := RSeq [RStr "*/"; RSpaces; ROpt (RStr "-"); RStr "}}"; RSpaces; REnd].
Definition prose (text : string) : list string :=
  let t := re_sub CLOSING (λ _, "") (re_sub OPENING (λ _, "") text) in
  List.filter (λ l, negb (str_eqb (strip l) "")) (map (rstrip_of is_space) (str_split t newline)).
Fixpoint first_subject (lines : list string) : option string :=
  match lines with
  | [] => None
  | l :: lines => match re_match SUBJECT l with Some m => Some (group_text m 1) | None => first_subject lines end
  end.
Definition subject (text : string) : option string := first_subject (prose text).

Definition defines_name (s : string) (i : item) : bool := bool_decide (it_name i = Some s).
(** A define follows, at once or after one block. *)
Definition define_follows (after : list item) : bool :=
  match after with
  | a :: b :: _ => is_define a || is_define b
  | [a] => is_define a
  | [] => false
  end.
Definition first_words (text : string) : string :=
  match prose text with l :: _ => str_slice 0 56 (strip l) | [] => "" end.
Definition judge_item (defines : list string) (label : string) (i : item) (after : list item) : list string :=
  if is_define i then [] else
  let at_ := cat [label; ":"; str_of_int (Z.of_nat (S (it_line i)))] in
  let first := repr_str (first_words (it_text i)) in
  let shape :=
    match after with
    | [] => [cat [at_; ": last item in the file, and no define follows it — "; first]]
    | _ => if define_follows after then [] else [cat [at_; ": neither it nor the one block after it is followed by a define — "; first]]
    end in
  match subject (it_text i) with
  | Some s =>
      match head after with
      | Some next => if defines_name s next then shape
                     else if str_mem s defines then [cat [at_; ": documents "; s; ", whose define is elsewhere — "; first]]
                     else [cat [at_; ": documents "; s; ", which no define provides — "; first]]
      | None => if str_mem s defines then [cat [at_; ": documents "; s; ", whose define is elsewhere — "; first]]
                else [cat [at_; ": documents "; s; ", which no define provides — "; first]]
      end
  | None => shape
  end.
Fixpoint violations (items : list item) (defines : list string) (label : string) : list string :=
  match items with
  | [] => []
  | i :: after => judge_item defines label i after ++ violations after defines label
  end.

Definition define_names (items : list item) : list string := omap it_name items.
(** [tpls]: the template files by path, in order, with their texts *)
Definition check (tpls : list (string * string)) : list string :=
  let parsed := map (λ f, (f.1, parse f.2)) tpls in
  let defines := concat (map (λ f, define_names f.2) parsed) in
  concat (map (λ f, violations f.2 defines f.1) parsed).
Definition main (tpls : list (string * string)) : Z := if nonempty (check tpls) then 1%Z else 0%Z.

(** ** The self-test *)

Definition CLEAN : string :=
  unquoted (cat ["{{/*^";
    "gibson.one — a helper whose doc sits where it belongs.^";
    "*/}}^";
    "{{- define `gibson.one` -}}one{{- end -}}^";
    "^";
    "{{/* ===== Section ===== */}}^";
    "^";
    "{{/*^";
    "gibson.two — a banner above a doc above its define is the allowed shape.^";
    "*/}}^";
    "{{- define `gibson.two` -}}^";
    "{{- if .x }}^";
    "{{/* a comment inside a body explains the body and is not a header */}}^";
    "{{- end }}^";
    "two^";
    "{{- end -}}^"]).
Definition CLAUSE_A : string :=
  unquoted (cat ["{{/*^";
    "gibson.one — this doc names a helper the next define is not.^";
    "*/}}^";
    "{{- define `gibson.other` -}}x{{- end -}}^"]).
Definition CLAUSE_A_DEAD : string :=
  unquoted (cat ["{{/*^";
    "gibson.gone — this doc names a helper nothing defines.^";
    "*/}}^";
    "{{- define `gibson.one` -}}x{{- end -}}^"]).
Definition CLAUSE_B : string :=
  unquoted (cat ["{{/* Jaeger host */}}^";
    "^";
    "{{/* Prometheus host */}}^";
    "^";
    "{{/* Loki host */}}^";
    "^";
    "{{/* Vault host */}}^";
    "^";
    "{{- define `gibson.one` -}}x{{- end -}}^"]).
(** The defines that start a line *)
Definition RAW : regex := RSeq [RLineBegin; RStr "{{"; ROpt (RStr "-"); RSpaces; RStr "define"; RPlus (RChr is_space); RLit dquote].
Definition cases : list (string * nat) := [(CLEAN, 0); (CLAUSE_A, 1); (CLAUSE_A_DEAD, 1); (CLAUSE_B, 2)].
(** [tpls]: the template files of the repository *)
Definition selftest (tpls : list (string * string)) : Z :=
  let ok1 := forallb (λ '(src, want), let items := parse src in length (violations items (define_names items) "fixture") =? want) cases in
  let ok2 := forallb (λ f, length (List.filter is_define (parse f.2)) =? length (re_finditer RAW f.2)) tpls in
  if ok1 && ok2 && negb (nonempty (check tpls)) then 0%Z else 1%Z.
Definition live_fixture : list (string * string) := [("helm/gibson-common/templates/_a.tpl", CLEAN)].
Lemma helperdocs_selftest : selftest live_fixture = 0%Z.
Proof. vm_compute. reflexivity. Qed.

(** ** The top level of a file *)

Definition opens (e : event) : bool := negb (ev_comment e) && bool_decide (is_Some (re_match OPENER (ev_text e))).
Definition ends (e : event) : bool :=
  negb (ev_comment e) && negb (bool_decide (is_Some (re_match OPENER (ev_text e)))) && bool_decide (is_Some (re_match CLOSER (ev_text e))).
Definition names (e : event) (n : string) : Prop :=
  ev_comment e = false ∧ ∃ d, re_match DEFINE (ev_text e) = Some d ∧ group_text d 1 = n.
Definition undefined (e : event) : Prop := re_match DEFINE (ev_text e) = None.
(** Events with each block closed *)
Inductive balanced : list event → Prop :=
  | Balanced_nil : balanced []
  | Balanced_other e l : opens e = false → ends e = false → balanced l → balanced (e :: l)
  | Balanced_block o l e r : opens o = true → balanced l → ends e = true → balanced r → balanced (o :: l ++ e :: r).
(** The items of the top level: the comments outside of each block, and the
    defines that are not inside another block *)
Inductive top : list event → list item → Prop :=
  | Top_nil : top [] []
  | Top_comment e l k : ev_comment e = true → top l k → top (e :: l) (Comment (ev_start e) (ev_text e) :: k)
  | Top_other e l k : ev_comment e = false → undefined e → opens e = false → ends e = false → top l k → top (e :: l) k
  | Top_block o l e r k : undefined o → opens o = true → balanced l → ends e = true → top r k → top (o :: l ++ e :: r) k
  | Top_define o n l e r k : names o n → balanced l → ends e = true → top r k →
      top (o :: l ++ e :: r) (Define (ev_start o) n :: k).

Section sorted.
Context {A : Type} (le : A → A → bool) (le_total : ∀ x y, le x y = false → le y x = true)
  (le_trans : ∀ x y z, le x y = true → le y z = true → le x z = true).
Abbreviation R := (λ x y, le x y = true).

Lemma insert_stable_elem x l y : y ∈ insert_stable le x l ↔ y = x ∨ y ∈ l.
Proof using Type. clear le_total le_trans. induction l as [|z l IH]; cbn; [set_solver|]. destruct (le z x); set_solver. Qed.
Lemma insert_stable_sorted x l : StronglySorted R l → StronglySorted R (insert_stable le x l).
Proof using le_total le_trans.
  induction 1 as [|z l Hl IH Hz]; cbn; [by repeat constructor|]. destruct (le z x) eqn:E.
  - constructor; [done|]. apply Forall_forall. intros y Hy. apply insert_stable_elem in Hy as [->|Hy]; [done|].
    by apply (proj1 (Forall_forall _ _) Hz).
  - constructor; [by constructor|]. apply le_total in E. constructor; [done|].
    apply (Forall_impl _ _ _ Hz). intros y Hy. by apply (le_trans _ z).
Qed.
Lemma sort_stable_sorted l : StronglySorted R (sort_stable le l).
Proof using le_total le_trans. unfold sort_stable. apply foldl_inv; [constructor|]. intros k x _ Hk. by apply insert_stable_sorted. Qed.
Lemma insert_stable_last x l : (∀ y, y ∈ l → le y x = true) → insert_stable le x l = l ++ [x].
Proof using Type.
  induction l as [|z l IH]; intros H; [done|]. cbn. rewrite H by left. f_equal. apply IH. intros y Hy. apply H. by right.
Qed.
Lemma sort_stable_id l : StronglySorted R l → sort_stable le l = l.
Proof using Type.
  unfold sort_stable. intros H. change l with ([] ++ l) at 2. assert (∀ k, StronglySorted R (k ++ l) → foldl (λ k x, insert_stable le x k) k l = k ++ l) as Hk.
  { clear H. induction l as [|x l IH]; intros k Hk; [by rewrite app_nil_r|]. cbn [foldl]. rewrite insert_stable_last.
    - change (x :: l) with ([x] ++ l). rewrite app_assoc. apply IH. by rewrite <- app_assoc.
    - intros y Hy. apply StronglySorted_app in Hk as (Hk & _ & _). apply (Hk y x); [done|left]. }
  by apply Hk.
Qed.
End sorted.

(** ** [scan_events] reads the top level *)

Lemma scan_balanced l s : balanced l → (0 < depth s)%Z → foldl scan_event s l = s.
Proof.
  intros H. revert s. induction H as [|e l Ho He Hl IH|o l e r Ho Hl IHl He Hr IHr]; intros s Hd; [done| |].
  - cbn [foldl]. assert (scan_event s e = s) as ->; [|by apply IH]. unfold opens, ends in *. unfold scan_event.
    rewrite (proj2 (Z.eqb_neq (depth s) 0)) by lia. destruct (ev_comment e); [done|]. cbn [negb andb] in *.
    rewrite Ho in He. destruct (re_match OPENER _) eqn:E1; [done|]. destruct (re_match CLOSER _) eqn:E2; [done|]. by destruct (re_match DEFINE _).
  - cbn [foldl]. rewrite foldl_app. cbn [foldl]. assert (scan_event s o = Scan (out s) (depth s + 1) (pending s)) as ->.
    { unfold opens in Ho. unfold scan_event. rewrite (proj2 (Z.eqb_neq (depth s) 0)) by lia. destruct (ev_comment o); [done|]. cbn [negb andb] in *.
      destruct (re_match OPENER _) eqn:E1; [|done]. by destruct (re_match DEFINE _). }
    rewrite IHl by (cbn; lia). assert (scan_event (Scan (out s) (depth s + 1) (pending s)) e = s) as ->; [|by apply IHr].
    unfold ends in He. unfold scan_event. cbn [depth out pending]. rewrite (proj2 (Z.eqb_neq (depth s + 1) 0)) by lia.
    destruct (ev_comment e); [done|]. cbn [negb andb] in He. destruct (re_match OPENER _) eqn:E1; [done|].
    destruct (re_match CLOSER _) eqn:E2; [|done]. replace (depth s + 1 - 1)%Z with (depth s) by lia.
    rewrite (proj2 (Z.eqb_neq (depth s) 0)) by lia. destruct s as [o' d [p|]]; by destruct (re_match DEFINE _).
Qed.

(** The end of a block of the top level *)
Lemma scan_end o e p : ends e = true →
  scan_event (Scan o 1 p) e = Scan (o ++ match p with Some d => [d] | None => [] end) 0 None.
Proof.
  unfold ends, scan_event. cbn [depth out pending]. destruct (ev_comment e); [done|]. cbn [negb andb Z.eqb].
  destruct (re_match OPENER _) eqn:E1; [done|]. destruct (re_match CLOSER _) eqn:E2; [|done]. intros _.
  destruct p; destruct (re_match DEFINE _); cbn; by rewrite ?app_nil_r.
Qed.
Lemma scan_top es items o : top es items → foldl scan_event (Scan o 0 None) es = Scan (o ++ items) 0 None.
Proof.
  intros H. revert o. induction H as [|e l k He H IH|e l k He Hu Ho Hn H IH|b l e r k Hu Ho Hl He H IH|b n l e r k [Hc (d & Hd & Hn)] Hl He H IH]; intros o.
  - by rewrite app_nil_r.
  - cbn [foldl]. unfold scan_event at 2. rewrite He. cbn. rewrite IH. by rewrite <- app_assoc.
  - cbn [foldl]. assert (scan_event (Scan o 0 None) e = Scan o 0 None) as ->; [|apply IH]. unfold scan_event, opens, ends in *.
    unfold undefined in Hu. rewrite He, Hu in *. cbn [negb andb] in *. destruct (re_match OPENER _); [done|]. by destruct (re_match CLOSER _).
  - cbn [foldl]. rewrite foldl_app. cbn [foldl]. assert (scan_event (Scan o 0 None) b = Scan o 1 None) as ->.
    { unfold scan_event, opens in *. unfold undefined in Hu. rewrite Hu. destruct (ev_comment b); [done|]. by destruct (re_match OPENER _). }
    rewrite (scan_balanced l) by (done || cbn; lia). rewrite scan_end by done. rewrite app_nil_r. apply IH.
  - cbn [foldl]. rewrite foldl_app. cbn [foldl]. assert (scan_event (Scan o 0 None) b = Scan o 1 (Some (Define (ev_start b) n))) as ->.
    { unfold scan_event. by rewrite Hc, Hd, Hn. }
    rewrite (scan_balanced l) by (done || cbn; lia). rewrite scan_end by done. rewrite IH. by rewrite <- app_assoc.
Qed.

Lemma ev_le_total x y : ev_le x y = false → ev_le y x = true.
Proof.
  unfold ev_le. rewrite orb_false_iff, andb_false_iff, orb_true_iff, andb_true_iff, Nat.ltb_ge, Nat.ltb_lt, !Nat.eqb_eq, Nat.eqb_neq, Nat.leb_gt, Nat.leb_le. lia.
Qed.
Lemma ev_le_trans x y z : ev_le x y = true → ev_le y z = true → ev_le x z = true.
Proof. unfold ev_le. rewrite !orb_true_iff, !andb_true_iff, !Nat.ltb_lt, !Nat.eqb_eq, !Nat.leb_le. lia. Qed.
Lemma ev_le_start x y : ev_le x y = true → ev_start x ≤ ev_start y.
Proof. unfold ev_le. rewrite orb_true_iff, andb_true_iff, Nat.ltb_lt, Nat.eqb_eq. lia. Qed.

Lemma top_line es items i : top es items → i ∈ items → ∃ e, e ∈ es ∧ it_line i = ev_start e.
Proof.
  induction 1 as [|e l k He H IH|e l k He Hu Ho Hn H IH|b l e r k Hu Ho Hl He H IH|b n l e r k Hn Hl He H IH]; [by intros ?%elem_of_nil|..].
  - intros [->|Hi]%elem_of_cons; [exists e; split; [left|done]|]. destruct (IH Hi) as (x & ? & ?). exists x. split; [by right|done].
  - intros Hi. destruct (IH Hi) as (x & ? & ?). exists x. split; [by right|done].
  - intros Hi. destruct (IH Hi) as (x & ? & ?). exists x. split; [set_solver|done].
  - intros [->|Hi]%elem_of_cons; [exists b; split; [left|done]|]. destruct (IH Hi) as (x & ? & ?). exists x. split; [set_solver|done].
Qed.
Lemma top_sorted es items : top es items → StronglySorted (λ x y, ev_le x y = true) es → StronglySorted (λ x y, it_le x y = true) items.
Proof.
  assert (∀ e es items k, top es items → Forall (λ y, ev_le e y = true) es → it_line k = ev_start e → Forall (λ y, it_le k y = true) items) as Hf.
  { intros e es' items' k Ht Hall Hk. apply Forall_forall. intros i Hi. destruct (top_line _ _ _ Ht Hi) as (x & Hx & E).
    apply (proj1 (Forall_forall _ _) Hall), ev_le_start in Hx. apply Nat.leb_le. lia. }
  induction 1 as [|e l k He H IH|e l k He Hu Ho Hn H IH|b l e r k Hu Ho Hl He H IH|b n l e r k Hn Hl He H IH]; intros Hs.
  - constructor.
  - apply StronglySorted_inv in Hs as [Hs Hall]. constructor; [by apply IH|]. by apply (Hf e l).
  - apply StronglySorted_inv in Hs as [Hs _]. by apply IH.
  - apply StronglySorted_inv in Hs as [Hs _]. apply StronglySorted_app in Hs as (_ & _ & Hs). apply StronglySorted_inv in Hs as [Hs _]. by apply IH.
  - apply StronglySorted_inv in Hs as [Hs Hall]. apply StronglySorted_app in Hs as (_ & _ & Hs). apply StronglySorted_inv in Hs as [Hs _].
    apply Forall_app in Hall as [_ Hall]. apply Forall_cons in Hall as [_ Hall]. constructor; [by apply IH|]. by apply (Hf b r).
Qed.
Lemma parse_top src items : top (events src) items → parse src = items.
Proof.
  intros H. unfold parse. assert (scan_events (events src) = items) as ->.
  { unfold scan_events. rewrite (scan_top _ _ _ H). apply app_nil_r. }
  apply sort_stable_id. apply (top_sorted _ _ H). apply sort_stable_sorted; [apply ev_le_total|apply ev_le_trans].
Qed.

(** ** What a clean tree proves *)

(** A comment is above a define, or above one block that is above a define;
    and a comment about a helper is above the define of the helper. *)
Definition placed (c : item) (after : list item) : Prop :=
  define_follows after = true ∧ ∀ s, subject (it_text c) = Some s → ∃ next rest, after = next :: rest ∧ it_name next = Some s.

Lemma judge_placed defines label c after : it_name c = None → judge_item defines label c after = [] ↔ placed c after.
Proof.
  intros Hc. unfold judge_item, placed. unfold is_define at 1. rewrite Hc. cbn [bool_decide].
  destruct (bool_decide (is_Some None)) eqn:E; [apply bool_decide_eq_true in E; by destruct E|clear E].
  assert (∀ b b' : string, (match after with [] => [b] | _ => if define_follows after then [] else [b'] end) = [] ↔ define_follows after = true) as Hshape.
  { intros b b'. destruct after as [|x l]; [done|]. by destruct (define_follows _). }
  destruct (subject (it_text c)) as [s|] eqn:Es.
  - destruct after as [|next rest]; cbn [head]; [split; [by destruct (str_mem s defines)|by intros [? _]]|]. destruct (defines_name s next) eqn:En.
    + apply bool_decide_eq_true in En. rewrite (Hshape "" _). split; [|tauto]. intros H. split; [done|]. intros s' [= <-]. by exists next, rest.
    + apply bool_decide_eq_false in En. split; [by destruct (str_mem s defines)|]. intros [_ H]. by destruct (H s eq_refl) as (n & r & [= <- <-] & ?).
  - rewrite (Hshape _ _). naive_solver.
Qed.
Lemma violations_placed items defines label : violations items defines label = [] ↔
  ∀ before c after, items = before ++ c :: after → it_name c = None → placed c after.
Proof.
  induction items as [|i items IH]; cbn [violations].
  - split; [|done]. intros _ [|] c after E; discriminate E.
  - split.
    + intros [H1 H2]%app_eq_nil before c after E Hc. destruct before as [|b before]; injection E as -> ->; [by apply (judge_placed defines label)|].
      by apply (proj1 IH H2 before).
    + intros H. assert (judge_item defines label i items = []) as ->.
      { destruct (it_name i) eqn:Ei; [unfold judge_item, is_define; by rewrite Ei|]. apply judge_placed; [done|]. by apply (H []). }
      apply IH. intros before c after ->. by apply (H (i :: before)).
Qed.

(** C6: on template files whose blocks are closed, [parse] reads the top level
    of each file: its comments outside of each block and its defines. main of
    check-helper-docs.py exits 0 exactly when each such comment is above a
    define or above one block above a define, and each comment about a helper
    is directly above the define of that helper. *)
Theorem docs_sit_by_their_define tpls tops :
  (∀ p src, (p, src) ∈ tpls → top (events src) (tops src)) →
  main tpls = 0%Z ↔ ∀ p src before c after, (p, src) ∈ tpls → tops src = before ++ c :: after → it_name c = None → placed c after.
Proof.
  intros Htop. unfold main.
  assert (check tpls = [] ↔ ∀ p src before c after, (p, src) ∈ tpls → tops src = before ++ c :: after → it_name c = None → placed c after) as Hc.
  { unfold check. rewrite concat_nil, map_map. set (defines := concat _). split.
    - intros H p src before c after Hin E. apply (proj1 (violations_placed (parse src) defines p)) with before; [|by rewrite (parse_top _ _ (Htop _ _ Hin))].
      apply H. exact (list_elem_of_fmap_2 (λ x, violations (parse x.2) defines x.1) _ _ Hin).
    - intros H l Hl. apply list_elem_of_fmap in Hl as ([p src] & -> & Hin). cbn [fst snd].
      apply violations_placed. intros before c after E Hn. rewrite (parse_top _ _ (Htop _ _ Hin)) in E. by apply (H p src before). }
  rewrite <- Hc. by destruct (check tpls).
Qed.

Definition one_file : string := unquoted "{{/*^gibson.one -- a helper^*/}}^{{- define `gibson.one` -}}{{ .x }}{{- end -}}^".
Definition one_top (_ : string) : list item :=
  [Comment 0 (unquoted "{{/*^gibson.one -- a helper^*/}}"); Define 3 "gibson.one"].
Lemma docs_sit_by_their_define_witness :
  top (events one_file) (one_top one_file) ∧
  (main [("helm/a/templates/_a.tpl", one_file)] = 0%Z ↔
   ∀ p src before c after, (p, src) ∈ [("helm/a/templates/_a.tpl", one_file)] → one_top src = before ++ c :: after → it_name c = None → placed c after).
Proof.
  assert (top (events one_file) (one_top one_file)) as H.
  { vm_compute. apply (Top_comment (Event true _ _ _)); [reflexivity|].
    apply (Top_define (Event false 3 3 _) "gibson.one" [Event false _ _ _] (Event false _ _ _) []); [split; [reflexivity|]; eexists; split; reflexivity| |reflexivity|constructor].
    constructor; [reflexivity..|constructor]. }
  split; [exact H|]. apply (docs_sit_by_their_define [("helm/a/templates/_a.tpl", one_file)] one_top).
  intros p src Hin. apply list_elem_of_singleton in Hin. injection Hin as -> ->. exact H.
Defined.
