(* ===== verification/EdgeLive.v ===== *)
(** * scripts/check-edge-zitadel-routes.py --live: probes of the live edge

    The live mode sends requests through the edge with curl and judges the
    answers. It is a program over the effect [Curl], with curl as the world:
    [runs] is its meaning, on each sequence of commands and answers. *)
From S2P Require Import Prelude PyStr PyVal Json EdgeRoutes.
From Stdlib Require Import Ascii.

(** ** Programs that run commands *)

Inductive prog (A : Type) : Type :=
  | Ret (a : A)
  | Fails (e : exn)
  | Curl (args : list string) (k : process → prog A).
Arguments Ret {A} a.
Arguments Fails {A} e.
Arguments Curl {A} args k.
Fixpoint pbind {A B} (p : prog A) (f : A → prog B) : prog B :=
  match p with
  | Ret a => f a
  | Fails e => Fails e
  | Curl args k => Curl args (λ r, pbind (k r) f)
  end.
Notation "x <~ m ;; k" := (pbind m (λ x, k)) (at level 20, m at level 99, k at level 200, only parsing).
Definition lift {A} (r : result A) : prog A := match r with Ok a => Ret a | Raise e => Fails e end.
(** A loop that collects *)
Fixpoint each {A B} (f : A → prog (list B)) (l : list A) : prog (list B) :=
  match l with
  | [] => Ret []
  | x :: l => a <~ f x ;; b <~ each f l ;; Ret (a ++ b)
  end.

(** The commands with their answers, and the result *)
Definition trace : Type := list (list string * process).
Inductive runs {A} : prog A → trace → result A → Prop :=
  | Runs_ret a : runs (Ret a) [] (Ok a)
  | Runs_fails e : runs (Fails e) [] (Raise e)
  | Runs_curl args k r t x : runs (k r) t x → runs (Curl args k) ((args, r) :: t) x.
(** The run on a world that answers each command by a function of it *)
Fixpoint run_with {A} (world : list string → process) (p : prog A) : trace * result A :=
  match p with
  | Ret a => ([], Ok a)
  | Fails e => ([], Raise e)
  | Curl args k => let '(t, x) := run_with world (k (world args)) in ((args, world args) :: t, x)
  end.

(** ** The live mode *)

Definition EDGE_BODY : string := "forbidden".
Definition EDGE_NOT_FOUND_BODY : string := "not found".
Definition RENAME_BODIES : list (string * val) :=
  [("/auth/v1/users/me/email", str_dict [("email", "renamed-by-edge-probe@example.invalid")]);
   ("/auth/v1/users/me/username", str_dict [("userName", "renamed-by-edge-probe")])].

(** The environment that the script reads; [""] for a variable that is not set *)
Record environ := Environ { EDGE_URL : string; EDGE_RESOLVE : string; EDGE_INSECURE : string; ZITADEL_TOKEN : string }.
(** [os.environ.get("ZITADEL_TOKEN") or None] *)
Definition token_of (env : environ) : option string := if str_eqb (ZITADEL_TOKEN env) "" then None else Some (ZITADEL_TOKEN env).

Definition reads (method : string) : bool := str_mem method ["GET"; "HEAD"; "DELETE"].
Definition setdefault (k v : string) (d : list (string * string)) : list (string * string) :=
  match alist_get k d with Some _ => d | None => d ++ [(k, v)] end.
Definition headers_of (q : request) (token : option string) : list (string * string) :=
  let hdrs := q_headers q in
  let hdrs :=
    if startswith (q_path q) "/zitadel."
    then setdefault "connect-protocol-version" "1" (setdefault "content-type" "application/json" hdrs)
    else if negb (reads (q_method q)) then setdefault "content-type" "application/json" hdrs else hdrs in
  match token with Some t => alist_set "authorization" ("Bearer " +:+ t) hdrs | None => hdrs end.
Definition curl_args (env : environ) (q : request) (token : option string) : list string :=
  ["curl"; "-sS"; "--http1.1"; "--path-as-is"; "-X"; q_method q; "-D"; "-"; "-o"; "-"; "--max-time"; "20"] ++
  (if str_eqb (EDGE_RESOLVE env) "" then [] else ["--resolve"; EDGE_RESOLVE env]) ++
  (if str_eqb (EDGE_INSECURE env) "1" then ["-k"] else []) ++
  concat (map (λ kv, ["-H"; cat [kv.1; ": "; kv.2]]) (headers_of q token)) ++
  (if reads (q_method q) then [] else ["--data"; json_text (default (VDict []) (alist_get (q_path q) RENAME_BODIES))]) ++
  [rstrip_char "/" (EDGE_URL env) +:+ q_path q].

(** The status, the headers and the body of an answer *)
Definition answer : Type := Z * list (string * string) * string.
Definition header_line (d : list (string * string)) (line : string) : list (string * string) :=
  let '(k, _, v) := str_partition line ":" in alist_set (lower (strip k)) (strip v) d.
Definition read_answer (q : request) (url : string) (p : process) : result answer :=
  if negb (returncode p =? 0)%Z
  then Raise (SystemExit (cat ["PREFLIGHT: curl "; q_method q; " "; url; ": "; strip (stderr p); " (this is NOT a pass)"])) else
  let '(hd, _, body) := str_partition (stdout p) (newline +:+ newline) in
  match str_split hd newline with
  | [] => Raise IndexError
  | first :: lines =>
      match split_ws first !! 1 with
      | Some w => match int_of_str w with
                  | Some status => Ok (status, foldl header_line [] lines, body)
                  | None => Raise ValueError
                  end
      | None => Raise IndexError
      end
  end.
Definition curl (env : environ) (q : request) (token : option string) : prog answer :=
  Curl (curl_args env q token) (λ p, lift (read_answer q (rstrip_char "/" (EDGE_URL env) +:+ q_path q) p)).

Definition edge_refused (a : answer) : bool := let '(status, _, body) := a in (status =? 403)%Z && str_eqb (strip body) EDGE_BODY.

Definition WHOAMI : request := Request "GET" "/auth/v1/users/me" [].
Definition user_of (a : answer) : result (val * val) :=
  let '(status, _, body) := a in
  if negb (status =? 200)%Z
  then Raise (SystemExit (cat ["PREFLIGHT: GET /auth/v1/users/me with ZITADEL_TOKEN answered "; str_of_int status;
                               "; the token must be a tenant user's access token (this is NOT a pass)"])) else
  data <- json_loads body ;; user <- get_dict data "user" ;; name <- get_default user "userName" (VStr "") ;;
  human <- get_dict user "human" ;; email <- get_dict human "email" ;; address <- get_default email "email" (VStr "") ;;
  Ok (name, address).
Definition whoami (env : environ) (token : string) : prog (val * val) :=
  a <~ curl env WHOAMI (Some token) ;; lift (user_of a).
Definition same_user (a b : val * val) : bool := py_eq a.1 b.1 && py_eq a.2 b.2.

(** [method == method.upper()] *)
Definition is_upper_method (method : string) : bool := str_forallb (λ c, negb ((97 <=? nat_of_ascii c) && (nat_of_ascii c <=? 122))) method.
Definition shown (q : request) : string := cat [q_method q; " "; q_path q].
Definition routed (a : answer) : bool := let '(status, _, _) := a in negb (edge_refused a || (status =? 404)%Z || (500 <=? status)%Z).
Definition not_found (a : answer) : bool := let '(status, _, body) := a in (status =? 404)%Z && str_eqb (strip body) EDGE_NOT_FOUND_BODY.
Definition got (a : answer) : string := let '(status, _, body) := a in cat ["got "; str_of_int status; " "; repr_str (str_slice 0 80 (strip body))].
Definition probe (env : environ) (token : option string) (good : answer → bool) (finding : answer → string) (q : request) : prog (list string) :=
  a <~ curl env q token ;; Ret (if good a then [] else [finding a]).
Definition probe_block (env : environ) (q : request) : prog (list string) :=
  if negb (is_upper_method (q_method q)) then Ret [] else
  probe env (token_of env) edge_refused (λ a, cat [shown q; ": "; got a; ", want the edge's 403"]) q.
Definition probe_route (env : environ) (q : request) : prog (list string) :=
  probe env None routed (λ a, cat [shown q; ": got "; str_of_int a.1.1; ", want an answer from Zitadel"]) q.
Definition probe_no_route (env : environ) (q : request) : prog (list string) :=
  probe env (token_of env) not_found (λ a, cat [shown q; ": "; got a; ", want the edge's 404"]) q.
Definition renamed (before after : val * val) : list string :=
  if same_user after before then []
  else [cat ["the tenant user's username and email changed: "; py_repr (VList [before.1; before.2]); " -> "; py_repr (VList [after.1; after.2])]].
Definition live (env : environ) : prog Z :=
  if str_eqb (EDGE_URL env) ""
  then Fails (SystemExit "PREFLIGHT: set EDGE_URL to the app origin, for example https://app.gibson.local:30443") else
  before <~ match token_of env with Some t => u <~ whoami env t ;; Ret (Some u) | None => Ret None end ;;
  a <~ each (probe_block env) MUST_BLOCK ;; b <~ each (probe_route env) MUST_ROUTE ;; c <~ each (probe_no_route env) MUST_NOT_ROUTE ;;
  d <~ match token_of env, before with
       | Some t, Some u => u' <~ whoami env t ;; Ret (renamed u u')
       | _, _ => Ret []
       end ;;
  Ret (if nonempty (a ++ b ++ c ++ d) then 1%Z else 0%Z).

(** ** The runs of the live mode *)

Lemma runs_ret {A} (a : A) t b : runs (Ret a) t (Ok b) ↔ t = [] ∧ a = b.
Proof. split; [by inversion 1|]. intros [-> ->]. constructor. Qed.
Lemma runs_lift {A} (r : result A) t b : runs (lift r) t (Ok b) ↔ t = [] ∧ r = Ok b.
Proof. destruct r; cbn [lift]; [rewrite runs_ret; naive_solver|]. split; [by inversion 1|by intros [_ ?]]. Qed.
Lemma runs_bind {A B} (p : prog A) (f : A → prog B) t b :
  runs (pbind p f) t (Ok b) ↔ ∃ t1 t2 a, t = t1 ++ t2 ∧ runs p t1 (Ok a) ∧ runs (f a) t2 (Ok b).
Proof.
  split.
  - revert t. induction p as [a|e|args k IH]; intros t; cbn [pbind].
    + intros H. exists [], t, a. split_and!; [done|constructor|done].
    + by inversion 1.
    + inversion 1 as [| |? ? r t' ? H']; subst. apply IH in H' as (t1 & t2 & a & -> & H1 & H2).
      exists ((args, r) :: t1), t2, a. split_and!; [done|by constructor|done].
  - intros (t1 & t2 & a & -> & H1 & H2). remember (Ok a) as x eqn:Ex. revert Ex.
    induction H1 as [a'|e|args k r t1 x H1 IH]; intros Ex; [by injection Ex as ->|done|]. cbn. constructor. by apply IH.
Qed.
(** Each program has a run on each world. *)
Lemma runs_run_with {A} world (p : prog A) : runs p (run_with world p).1 (run_with world p).2.
Proof.
  induction p as [a|e|args k IH]; cbn; [constructor..|]. specialize (IH (world args)).
  destruct (run_with world (k (world args))) as [t x]. by constructor.
Qed.

Definition url_of (env : environ) (q : request) : string := rstrip_char "/" (EDGE_URL env) +:+ q_path q.
(** A command of the trace is a request, and its answer is as it must be. *)
Definition answers (env : environ) (q : request) (token : option string) (c : list string * process) (a : answer) : Prop :=
  c.1 = curl_args env q token ∧ read_answer q (url_of env q) c.2 = Ok a.
Definition passes (env : environ) (e : request * option string * (answer → bool)) (c : list string * process) : Prop :=
  let '(q, token, good) := e in ∃ a, answers env q token c a ∧ good a = true.
(** The probes, in order *)
Definition probes (env : environ) : list (request * option string * (answer → bool)) :=
  map (λ q, (q, token_of env, edge_refused)) (List.filter (λ q, is_upper_method (q_method q)) MUST_BLOCK) ++
  map (λ q, (q, None, routed)) MUST_ROUTE ++ map (λ q, (q, token_of env, not_found)) MUST_NOT_ROUTE.
(** The user of a token, in an answer of the trace *)
Definition tells_user (env : environ) (token : string) (c : list string * process) (u : val * val) : Prop :=
  ∃ a, answers env WHOAMI (Some token) c a ∧ user_of a = Ok u.

Lemma runs_curl env q token t a : runs (curl env q token) t (Ok a) ↔ ∃ c, t = [c] ∧ answers env q token c a.
Proof.
  unfold curl, answers. split.
  - inversion 1 as [| |? ? r t' ? H']; subst. apply runs_lift in H' as [-> H']. by exists (curl_args env q token, r).
  - intros ([args p] & -> & Ha & Hr). cbn in Ha. subst args. constructor. by apply runs_lift.
Qed.
Lemma runs_probe env token good f q t : runs (probe env token good f q) t (Ok []) ↔ ∃ c, t = [c] ∧ passes env (q, token, good) c.
Proof.
  unfold probe. rewrite runs_bind. unfold passes. split.
  - intros (t1 & t2 & a & -> & (c & -> & Hc)%runs_curl & [-> H]%runs_ret). exists c. split; [done|]. exists a. split; [done|]. by destruct (good a).
  - intros (c & -> & a & Ha & Hg). exists [c], [], a. split_and!; [done|apply runs_curl; by exists c|]. apply runs_ret. by rewrite Hg.
Qed.
(** A loop of probes that finds nothing *)
Lemma runs_each {A B} (f : A → prog (list B)) (R : A → trace → Prop) l t :
  (∀ x t, runs (f x) t (Ok []) ↔ R x t) → runs (each f l) t (Ok []) ↔ ∃ ts, t = concat ts ∧ Forall2 R l ts.
Proof.
  intros Hf. revert t. induction l as [|x l IH]; intros t; cbn [each].
  - rewrite runs_ret. split; [intros [-> _]; by exists []|]. by intros (ts & -> & ->%Forall2_nil_inv_l).
  - rewrite runs_bind. split.
    + intros (t1 & t2 & a & -> & H1 & H2). apply runs_bind in H2 as (t3 & t4 & b & -> & H2 & [-> H]%runs_ret).
      apply app_eq_nil in H as [-> ->]. apply Hf in H1. apply IH in H2 as (ts & -> & Hts). exists (t1 :: ts). rewrite app_nil_r. by split; [|constructor].
    + intros (ts & -> & Hts). apply Forall2_cons_inv_l in Hts as (t1 & ts' & H1 & H2 & ->). exists t1, (concat ts'), []. split_and!; [done|by apply Hf|].
      apply runs_bind. exists (concat ts'), [], []. split_and!; [by rewrite app_nil_r|apply IH; by exists ts'|by apply runs_ret].
Qed.
Lemma runs_probes env token good f l t :
  runs (each (λ q, probe env token good (f q) q) l) t (Ok []) ↔ Forall2 (passes env) (map (λ q, (q, token, good)) l) t.
Proof.
  rewrite (runs_each _ _ _ _ (λ q t, runs_probe env token good (f q) q t)). split.
  - intros (ts & -> & H). induction H as [|q t l ts (c & -> & Hc) H IH]; cbn; by constructor.
  - revert t. induction l as [|q l IH]; intros t; cbn [map].
    + intros ->%Forall2_nil_inv_l. by exists [].
    + intros (c & t' & Hc & H & ->)%Forall2_cons_inv_l. destruct (IH _ H) as (ts & -> & Hts). exists ([c] :: ts). split; [done|]. constructor; [by exists c|done].
Qed.
Lemma runs_blocks env t : runs (each (probe_block env) MUST_BLOCK) t (Ok []) ↔
  Forall2 (passes env) (map (λ q, (q, token_of env, edge_refused)) (List.filter (λ q, is_upper_method (q_method q)) MUST_BLOCK)) t.
Proof.
  rewrite (runs_each _ (λ q t, if is_upper_method (q_method q) then ∃ c, t = [c] ∧ passes env (q, token_of env, edge_refused) c else t = [])).
  2: { intros q t'. unfold probe_block. destruct (is_upper_method _); cbn [negb]; [apply runs_probe|]. rewrite runs_ret. naive_solver. }
  generalize MUST_BLOCK. intros l. split.
  - intros (ts & -> & H). induction H as [|q t l ts Hq H IH]; [constructor|]. cbn [List.filter concat]. destruct (is_upper_method (q_method q)).
    + destruct Hq as (c & -> & Hc). cbn. by constructor.
    + by rewrite Hq.
  - revert t. induction l as [|q l IH]; intros t; cbn [List.filter map].
    + intros ->%Forall2_nil_inv_l. by exists [].
    + destruct (is_upper_method (q_method q)) eqn:Eu.
      * intros (c & t' & Hc & H & ->)%Forall2_cons_inv_l. destruct (IH _ H) as (ts & -> & Hts). exists ([c] :: ts). split; [done|].
        constructor; [rewrite Eu; by exists c|done].
      * intros (ts & -> & Hts)%IH. exists ([] :: ts). split; [done|]. constructor; [by rewrite Eu|done].
Qed.

Lemma runs_whoami env token t u : runs (whoami env token) t (Ok u) ↔ ∃ c, t = [c] ∧ tells_user env token c u.
Proof.
  unfold whoami, tells_user. rewrite runs_bind. split.
  - intros (t1 & t2 & a & -> & (c & -> & Hc)%runs_curl & [-> H]%runs_lift). exists c. split; [done|by exists a].
  - intros (c & -> & a & Ha & Hu). exists [c], [], a. split_and!; [done|apply runs_curl; by exists c|by apply runs_lift].
Qed.

(** C31: a run of the live mode of check-edge-zitadel-routes.py exits 0 exactly
    when it asked, in order, for the user of the token, for each probe, and for
    the user again, and each answer was as it must be: the edge refused each
    rename, Zitadel answered each sign-in call, the edge gave its 404 for each
    admin call, and the two answers name the same user. Without a token the
    user is not asked for. *)
Theorem live_passes_iff env t :
  EDGE_URL env ≠ "" →
  runs (live env) t (Ok 0%Z) ↔
  ∃ before mid after, t = before ++ mid ++ after ∧ Forall2 (passes env) (probes env) mid ∧
    match token_of env with
    | None => before = [] ∧ after = []
    | Some token => ∃ c c' u u', before = [c] ∧ after = [c'] ∧ tells_user env token c u ∧ tells_user env token c' u' ∧ same_user u' u = true
    end.
Proof.
  intros Hurl. unfold live. destruct (str_eqb (EDGE_URL env) "") eqn:E; [by apply str_eqb_eq in E|]. clear E Hurl.
  set (first := match token_of env with Some t => _ | None => _ end). rewrite runs_bind. unfold probes. split.
  - intros (t1 & t2 & u & -> & H1 & H). apply runs_bind in H as (ta & t3 & a & -> & Ha & H). apply runs_bind in H as (tb & t4 & b & -> & Hb & H).
    apply runs_bind in H as (tc & t5 & c & -> & Hc & H). apply runs_bind in H as (td & t6 & d & -> & Hd & [-> H]%runs_ret).
    destruct (a ++ b ++ c ++ d) eqn:En; [clear H|done]. apply app_eq_nil in En as [-> En]. apply app_eq_nil in En as [-> En]. apply app_eq_nil in En as [-> ->].
    apply runs_blocks in Ha. apply (runs_probes env None routed) in Hb. apply (runs_probes env (token_of env) not_found) in Hc. exists t1, (ta ++ tb ++ tc), td. split_and!.
    + by rewrite app_nil_r, <- !app_assoc.
    + by repeat apply Forall2_app.
    + subst first. destruct (token_of env) as [token|].
      * apply runs_bind in H1 as (t7 & t8 & u0 & -> & (c & -> & Hc')%runs_whoami & [-> <-]%runs_ret).
        apply runs_bind in Hd as (t9 & t10 & u1 & -> & (c1 & -> & Hc1)%runs_whoami & [-> H]%runs_ret). exists c, c1, u0, u1.
        split_and!; try done. unfold renamed in H. by destruct (same_user u1 u0).
      * apply runs_ret in H1 as [-> <-], Hd as [-> _]. done.
  - intros (before & mid & after & -> & Hp & Hu). apply Forall2_app_inv_l in Hp as (ta & tbc & Ha & Hbc & ->).
    apply Forall2_app_inv_l in Hbc as (tb & tc & Hb & Hc & ->).
    assert (∃ u, runs first before (Ok u) ∧ runs (match token_of env, u with Some t, Some u => u' <~ whoami env t ;; Ret (renamed u u') | _, _ => Ret [] end) after (Ok []))
      as (u & H1 & Hd).
    { subst first. destruct (token_of env) as [token|].
      - destruct Hu as (c & c' & u & u' & -> & -> & Hc1 & Hc2 & Hs). exists (Some u). split.
        + apply runs_bind. exists [c], [], u. split_and!; [done|apply runs_whoami; by exists c|by apply runs_ret].
        + apply runs_bind. exists [c'], [], u'. split_and!; [done|apply runs_whoami; by exists c'|]. apply runs_ret. unfold renamed. by rewrite Hs.
      - destruct Hu as [-> ->]. exists None. split; by apply runs_ret. }
    exists before, ((ta ++ tb ++ tc) ++ after), u. split_and!; [done..|]. rewrite <- !app_assoc.
    apply runs_bind. exists ta, (tb ++ tc ++ after), []. split_and!; [done|by apply runs_blocks|].
    apply runs_bind. exists tb, (tc ++ after), []. split_and!; [done|by apply (runs_probes env None routed)|].
    apply runs_bind. exists tc, after, []. split_and!; [done|by apply (runs_probes env (token_of env) not_found)|].
    apply runs_bind. exists after, [], []. split_and!; [by rewrite app_nil_r|done|]. by apply runs_ret.
Qed.

(** An edge in the shape of the render, with a Zitadel behind it *)
Definition env_fixture : environ := Environ "https://app.gibson.local:30443/" "" "1" "t".
Definition reply (status body : string) : process :=
  Process 0 (cat ["HTTP/1.1 "; status; " x"; newline; "content-type: text/plain"; newline; newline; body]) "".
Definition good_edge (args : list string) : process :=
  let asks (e : request * option string * (answer → bool)) := bool_decide (curl_args env_fixture e.1.1 e.1.2 = args) in
  if bool_decide (curl_args env_fixture WHOAMI (Some "t") = args)
  then reply "200" (unquoted "{`user`: {`userName`: `u`, `human`: {`email`: {`email`: `u@example.com`}}}}")
  else if existsb (λ q, asks (q, Some "t", edge_refused)) MUST_BLOCK then reply "403" "forbidden"
  else if existsb (λ q, asks (q, Some "t", not_found)) MUST_NOT_ROUTE then reply "404" "not found"
  else reply "401" "".
Lemma live_passes_iff_witness :
  EDGE_URL env_fixture ≠ "" ∧
  ∃ t, runs (live env_fixture) t (Ok 0%Z) ∧ ∃ before mid after, t = before ++ mid ++ after ∧ Forall2 (passes env_fixture) (probes env_fixture) mid.
Proof.
  split; [discriminate|]. exists (run_with good_edge (live env_fixture)).1.
  assert (runs (live env_fixture) (run_with good_edge (live env_fixture)).1 (Ok 0%Z)) as H.
  { replace (Ok 0%Z) with ((run_with good_edge (live env_fixture)).2) by (vm_compute; reflexivity). apply runs_run_with. }
  split; [exact H|]. apply (live_passes_iff env_fixture) in H; [|discriminate]. destruct H as (before & mid & after & Ht & Hp & _).
  exists before, mid, after. split; [exact Ht|exact Hp].
Defined.
(** The edge that forwards a rename fails, and so does a rename that took effect. *)
Definition open_edge (args : list string) : process :=
  if str_mem "-k" args && str_mem "PUT" args then reply "200" "{}" else good_edge args.
Example open_edge_fails : (run_with open_edge (live env_fixture)).2 = Ok 1%Z.
Proof. vm_compute. reflexivity. Qed.
