(* ===== verification/BackupCoverage.v ===== *)
(** * scripts/check-backup-coverage.py: each datastore has a backup producer

    The databases and the volume claims of the umbrella render, against the
    scheduled backups of the render and the schedules of the Velero render. *)
From S2P Require Import Prelude PyStr PyVal RegexParse.

Definition ns_of (d : val) (dflt : string) : result val := meta_namespace d dflt.

(** The clusters that the scheduled backups name *)
Definition backup_of (d : val) : result val :=
  s <- item d "spec" ;; c <- get_default s "cluster" (VDict []) ;; n <- get c "name" ;; if hashable n then Ok n else Raise TypeError.
Definition fnmatch_val (ns pat : val) : result bool :=
  match ns, pat with VStr n, VStr p => Ok (fnmatch n p) | _, _ => Raise TypeError end.
Definition schedule_covers (ns s : val) : result bool :=
  sp <- item s "spec" ;; t <- get_dict sp "template" ;; inc <- get t "includedNamespaces" ;; fs <- get t "defaultVolumesToFsBackup" ;;
  if negb (truthy fs) then Ok false else
  pats <- py_iter (por inc (strs ["*"])) ;; anyM (fnmatch_val ns) pats.
Definition velero_covers (schedules : list val) (ns : val) : result bool := anyM (schedule_covers ns) schedules.

Definition shown (d : val) : result string :=
  k <- get d "kind" ;; m <- get_dict d "metadata" ;; n <- get m "name" ;; Ok (cat [py_str k; "/"; py_str n]).
Definition is_cluster (d : val) : result bool :=
  andR (kind_is "Cluster" d) (v <- get_default d "apiVersion" (VStr "") ;; Ok (startswith (py_str v) "postgresql.cnpg.io")).
Definition judge_cluster (scheduled : list val) (name : string) (d : val) : result (list string) :=
  s <- get_dict d "spec" ;; b <- get s "backup" ;; n <- meta_name d ;;
  if negb (hashable n) then Raise TypeError else
  Ok ((if truthy b then [] else [name +:+ ": no spec.backup (no WAL archiving to the durable bucket)"]) ++
      (if existsb (py_eq n) scheduled then [] else [name +:+ ": no ScheduledBackup names it (no daily base backup)"])).
Definition claims_of (d : val) : result (list val) := s <- get_dict d "spec" ;; vs <- get_list s "volumeClaimTemplates" ;; mapR meta_name vs.
Definition EXCLUDES : string := "backup.velero.io/backup-volumes-excludes".
Definition excluded_of (d : val) : result (list string) :=
  s <- item d "spec" ;; t <- get_dict s "template" ;; m <- get_dict t "metadata" ;; a <- get_dict m "annotations" ;;
  x <- get_default a EXCLUDES (VStr "") ;;
  match x with
  | VStr x => Ok (List.filter (λ w, negb (str_eqb w "")) (map strip (str_split x ",")))
  | _ => Raise AttributeError
  end.
Definition judge_claims (schedules : list val) (default_ns name : string) (d : val) : result (list string) :=
  claims <- claims_of d ;;
  if negb (nonempty claims) then Ok [] else
  ns <- ns_of d default_ns ;; covered <- velero_covers schedules ns ;;
  if negb covered then Ok [cat [name; " (ns "; py_str ns; "): no Velero Schedule with defaultVolumesToFsBackup includes its namespace"]] else
  excluded <- excluded_of d ;;
  flatM (λ c, bad <- in_set c excluded ;;
              Ok (if (bad : bool) then [cat [name; ": claim "; py_str c; " is in backup-volumes-excludes, so Velero never backs the data up"]] else [])) claims.
Definition judge_doc (schedules scheduled : list val) (default_ns : string) (d : val) : result (list string) :=
  name <- shown d ;; cluster <- is_cluster d ;; a <- (if (cluster : bool) then judge_cluster scheduled name d else Ok []) ;;
  sts <- kind_is "StatefulSet" d ;; b <- (if (sts : bool) then judge_claims schedules default_ns name d else Ok []) ;; Ok (a ++ b).
Definition judge (umbrella velero : list val) (default_ns : string) : result (list string) :=
  schedules <- filterM (kind_is "Schedule") velero ;;
  backups <- filterM (kind_is "ScheduledBackup") umbrella ;; scheduled <- mapR backup_of backups ;;
  flatM (judge_doc schedules scheduled default_ns) umbrella.
Definition main (umbrella velero : list val) : result Z :=
  got <- judge umbrella velero "gibson" ;; Ok (if nonempty got then 1%Z else 0%Z).

(** ** The self-test *)

Definition sts_fixture (name ns : string) (excludes : option string) : val :=
  VDict [("apiVersion", VStr "apps/v1"); ("kind", VStr "StatefulSet"); ("metadata", str_dict [("name", name); ("namespace", ns)]);
         ("spec", VDict [("volumeClaimTemplates", VList [VDict [("metadata", str_dict [("name", "data")])]]);
                         ("template", VDict [("metadata", VDict (match excludes with
                                                                 | Some x => [("annotations", str_dict [(EXCLUDES, x)])]
                                                                 | None => [] end))])])].
Definition cluster_fixture (name : string) (spec : list (string * val)) : val :=
  VDict [("apiVersion", VStr "postgresql.cnpg.io/v1"); ("kind", VStr "Cluster");
         ("metadata", str_dict [("name", name); ("namespace", "gibson")]); ("spec", VDict spec)].
Definition scheduled_fixture : val :=
  VDict [("apiVersion", VStr "postgresql.cnpg.io/v1"); ("kind", VStr "ScheduledBackup"); ("metadata", str_dict [("name", "pg-ok-daily")]);
         ("spec", VDict [("cluster", str_dict [("name", "pg-ok")])])].
Definition pg_ok : val := cluster_fixture "pg-ok" [("backup", VDict [("barmanObjectStore", VDict [])])].
Definition FIXTURE_UMBRELLA : list val :=
  [sts_fixture "backed" "gibson" (Some "tmp"); sts_fixture "excluded" "gibson" (Some "tmp,data"); sts_fixture "elsewhere" "nowhere" None;
   pg_ok; scheduled_fixture; cluster_fixture "pg-naked" []].
Definition schedule_fixture (extra : list (string * val)) (included : list string) : val :=
  VDict [("apiVersion", VStr "velero.io/v1"); ("kind", VStr "Schedule"); ("metadata", str_dict [("name", "hourly")]);
         ("spec", VDict [("template", VDict ([("includedNamespaces", strs included); ("defaultVolumesToFsBackup", VBool true)] ++ extra))])].
Definition FIXTURE_VELERO : list val := [schedule_fixture [] ["gibson"; "tenant-*"]].
Definition want : list string :=
  ["StatefulSet/excluded: claim data"; "StatefulSet/elsewhere (ns nowhere)"; "Cluster/pg-naked: no spec.backup"; "Cluster/pg-naked: no ScheduledBackup"].
(** [umbrella], [velero]: the renders of the repository *)
Definition selftest (umbrella velero : list val) : result Z :=
  got <- judge FIXTURE_UMBRELLA FIXTURE_VELERO "gibson" ;;
  if negb ((length got =? 4) && forallb (λ w, existsb (λ g, startswith g w) got) want) then Ok 1%Z else
  live <- judge umbrella velero "gibson" ;; Ok (if nonempty live then 1%Z else 0%Z).
Definition live_umbrella : list val := [sts_fixture "backed" "gibson" (Some "tmp"); pg_ok; scheduled_fixture].
Lemma backupcoverage_selftest : selftest live_umbrella FIXTURE_VELERO = Ok 0%Z.
Proof. vm_compute. reflexivity. Qed.

(** ** What a clean run proves *)

Definition namespace (d : val) (dflt : string) : val := por (fld (dict_fld d "metadata") "namespace") (VStr dflt).
(** A schedule backs the volumes of a namespace up. *)
Definition covers (s : val) (ns : string) : Prop :=
  let t := dict_fld (fld s "spec") "template" in
  fld s "kind" = VStr "Schedule" ∧ truthy (fld t "defaultVolumesToFsBackup") = true ∧
  ∃ pats p, py_iter (por (fld t "includedNamespaces") (strs ["*"])) = Ok pats ∧ VStr p ∈ pats ∧ fnmatch ns p = true.
Definition excludes_text (d : val) : val :=
  fld (dict_fld (dict_fld (dict_fld (fld d "spec") "template") "metadata") "annotations") EXCLUDES.
(** A datastore has its producer. *)
Record cluster_backed (umbrella : list val) (d : val) : Prop := {
  cb_archive : truthy (fld (dict_fld d "spec") "backup") = true;
  cb_base : ∃ b, b ∈ umbrella ∧ fld b "kind" = VStr "ScheduledBackup" ∧
    py_eq (fld (fld d "metadata") "name") (fld (fld (fld b "spec") "cluster") "name") = true }.
Record claims_backed (velero : list val) (d : val) (ns : string) (claims : list val) : Prop := {
  sb_schedule : ∃ s, s ∈ velero ∧ covers s ns;
  sb_not_excluded : ∀ c x, VStr c ∈ claims → c ≠ "" → excludes_text d = VStr x → c ∉ map strip (str_split x ",") }.

Lemma schedule_covers_true ns s : schedule_covers (VStr ns) s = Ok true → fld s "kind" = VStr "Schedule" → covers s ns.
Proof.
  unfold schedule_covers. intros (sp & ->%item_fld & H)%bind_Ok Hk. apply bind_Ok in H as (t & ->%get_dict_is & H).
  apply bind_Ok in H as (inc & ->%get_Ok & H). apply bind_Ok in H as (fs & ->%get_Ok & H). destruct (truthy _) eqn:Et; [|done]. cbn [negb] in H.
  apply bind_Ok in H as (pats & Hp & H). apply anyM_true in H as (p & Hin & H). destruct p as [| | |p| |]; try done. injection H as H.
  split_and!; [done..|]. by exists pats, p.
Qed.
Lemma get_default_fld v k w x y : get_default v k w = Ok x → fld v k = y → y ≠ VNone → x = y.
Proof.
  destruct v; try done. cbn. intros [= <-] <-. by destruct (alist_get k d).
Qed.

Lemma claims_clean schedules velero default_ns name d claims ns :
  (∀ s, s ∈ schedules → s ∈ velero ∧ fld s "kind" = VStr "Schedule") →
  judge_claims schedules default_ns name d = Ok [] → claims_of d = Ok claims → claims ≠ [] → namespace d default_ns = VStr ns →
  claims_backed velero d ns claims.
Proof.
  intros Hsch H Hc Hne Hns. unfold judge_claims in H. rewrite Hc in H. cbn [rbind] in H. destruct claims as [|c0 claims]; [done|]. cbn [nonempty negb] in H.
  apply bind_Ok in H as (n & Hn & H). unfold ns_of, meta_namespace in Hn. apply bind_Ok in Hn as (m & ->%get_dict_is & Hn).
  apply bind_Ok in Hn as (x & ->%get_Ok & [= <-]). unfold namespace in Hns. rewrite Hns in H. apply bind_Ok in H as (covered & Hcov & H).
  destruct covered; [|done]. cbn [negb] in H. unfold velero_covers in Hcov. apply anyM_true in Hcov as (s & Hs & Hcov).
  destruct (Hsch _ Hs) as [Hv Hk]. apply bind_Ok in H as (excluded & Hex & H). split.
  - exists s. split; [done|by apply schedule_covers_true].
  - intros c x Hcin Hcne Hx Hin. apply (proj1 (flatM_nil _ _) H) in Hcin. apply bind_Ok in Hcin as (b & Hb & Hcin). destruct b; [done|].
    unfold excluded_of in Hex. apply bind_Ok in Hex as (s' & ->%item_fld & Hex). apply bind_Ok in Hex as (t & ->%get_dict_is & Hex).
    apply bind_Ok in Hex as (m & ->%get_dict_is & Hex). apply bind_Ok in Hex as (a & ->%get_dict_is & Hex). apply bind_Ok in Hex as (y & Hy & Hex).
    rewrite (get_default_fld _ _ _ _ _ Hy Hx) in Hex by done. injection Hex as <-.
    unfold in_set in Hb. cbn in Hb. injection Hb as Hb. apply str_mem_false in Hb. apply Hb. apply list_elem_of_In, filter_In.
    split; [by apply list_elem_of_In|]. destruct (str_eqb c "") eqn:E; [by apply str_eqb_eq in E|done].
Qed.
Lemma cluster_clean backups umbrella scheduled name d :
  (∀ b, b ∈ backups → b ∈ umbrella ∧ fld b "kind" = VStr "ScheduledBackup") → mapR backup_of backups = Ok scheduled →
  judge_cluster scheduled name d = Ok [] → cluster_backed umbrella d.
Proof.
  intros Hb Hs H. unfold judge_cluster in H. apply bind_Ok in H as (s & ->%get_dict_is & H). apply bind_Ok in H as (b & ->%get_Ok & H).
  apply bind_Ok in H as (n & ->%meta_name_fld & H). destruct (negb _); [done|]. injection H as H. apply app_eq_nil in H as [H1 H2].
  split; [by destruct (truthy _)|]. destruct (existsb _ scheduled) eqn:E; [|done]. apply existsb_elem_of in E as (y & Hy & E).
  destruct (mapR_elem _ _ _ _ Hs Hy) as (x & Hx & Hbk). destruct (Hb _ Hx) as [Hu Hk]. exists x. split_and!; [done..|].
  unfold backup_of in Hbk. apply bind_Ok in Hbk as (sp & ->%item_fld & Hbk). apply bind_Ok in Hbk as (c & Hc & Hbk).
  apply bind_Ok in Hbk as (m & ->%get_Ok & Hbk). destruct (hashable _); [|done]. injection Hbk as <-.
  destruct (fld x "spec") as [| | | | |sp] eqn:Esp; try done. cbn in Hc. injection Hc as <-. revert E. cbn. destruct (alist_get "cluster" sp) as [c|]; [done|].
  cbn. by destruct (fld (fld d "metadata") "name").
Qed.

(** When main of check-backup-coverage.py exits 0, each CloudNativePG
    cluster of the render archives its log and a ScheduledBackup names it, and
    for each StatefulSet with volume claims a Schedule of the Velero render
    backs the volumes of its namespace up, and no claim is excluded. *)
Theorem clean_datastores_are_backed umbrella velero d :
  main umbrella velero = Ok 0%Z → d ∈ umbrella →
  (fld d "kind" = VStr "Cluster" → startswith (py_str (fld d "apiVersion")) "postgresql.cnpg.io" = true → cluster_backed umbrella d) ∧
  (∀ claims ns, fld d "kind" = VStr "StatefulSet" → claims_of d = Ok claims → claims ≠ [] → namespace d "gibson" = VStr ns →
     claims_backed velero d ns claims).
Proof.
  unfold main. intros (got & Hj & H)%bind_Ok Hd. destruct got; [clear H|done]. unfold judge in Hj.
  apply bind_Ok in Hj as (schedules & Hsch & Hj). apply bind_Ok in Hj as (backups & Hb & Hj). apply bind_Ok in Hj as (scheduled & Hs & Hj).
  apply (proj1 (flatM_nil _ _) Hj) in Hd. unfold judge_doc in Hd. apply bind_Ok in Hd as (name & _ & Hd). apply bind_Ok in Hd as (cl & Hcl & Hd).
  apply bind_Ok in Hd as (a & Ha & Hd). apply bind_Ok in Hd as (sts & Hsts & Hd). apply bind_Ok in Hd as (b & Hb' & [= Hd]). apply app_eq_nil in Hd as [-> ->]. split.
  - intros Hk Hv. destruct cl.
    + apply (cluster_clean backups _ scheduled name); [|done..]. intros x Hx. apply (filterM_Ok _ _ _ Hb) in Hx as [Hx Hk']. split; [done|by apply kind_is_true].
    + exfalso. unfold is_cluster, andR in Hcl. apply bind_Ok in Hcl as (k & Hk' & Hcl). destruct k; [|by apply kind_is_false in Hk'].
      apply bind_Ok in Hcl as (v & Hv' & [= Hcl]). destruct d as [| | | | |d]; try done. cbn in Hv'. injection Hv' as <-. unfold fld in Hv.
      destruct (alist_get "apiVersion" d) as [v|]; [|vm_compute in Hv; discriminate Hv].
      change (startswith (py_str v) "postgresql.cnpg.io" = true) in Hv. change (startswith (py_str v) "postgresql.cnpg.io" = false) in Hcl. congruence.
  - intros claims ns Hk Hc Hne Hns. destruct sts; [|by apply kind_is_false in Hsts].
    apply (claims_clean schedules _ "gibson" name); try done. intros x Hx. apply (filterM_Ok _ _ _ Hsch) in Hx as [Hx Hk']. split; [done|by apply kind_is_true].
Qed.
Lemma clean_datastores_are_backed_witness :
  main live_umbrella FIXTURE_VELERO = Ok 0%Z ∧ cluster_backed live_umbrella pg_ok ∧
  claims_backed FIXTURE_VELERO (sts_fixture "backed" "gibson" (Some "tmp")) "gibson" [VStr "data"].
Proof.
  assert (main live_umbrella FIXTURE_VELERO = Ok 0%Z) as H by (vm_compute; reflexivity). split_and!; [exact H|..].
  - apply (clean_datastores_are_backed _ _ pg_ok H); [right; left|reflexivity|reflexivity].
  - apply (clean_datastores_are_backed _ _ (sts_fixture "backed" "gibson" (Some "tmp")) H); [left|reflexivity|reflexivity|discriminate|reflexivity].
Defined.

(** A schedule that excludes the namespace counts as one that backs it up. *)
Lemma excluded_namespaces_are_not_read :
  main live_umbrella [schedule_fixture [("excludedNamespaces", strs ["gibson"])] ["*"]] = Ok 0%Z.
Proof. vm_compute. reflexivity. Qed.
