(* ===== verification/FgaSeeds.v ===== *)
(** * scripts/check-fga-init-seeds.py: the relations that fga-init seeds, and for whom

    The seed and prune calls of the script of each fga-init Job, with the
    variables and the loops that name the holders. *)
From S2P Require Import Prelude PyStr PyVal Regex.
From Stdlib Require Import Ascii.

Definition SIGNUP_SA : string := "gibson-dashboard-service".
Definition IAM_ADMIN_ENTRY : string := "gibson-iam-admin".

Definition upper_or_bar (c : ascii) : bool := let n := nat_of_ascii c in ((65 <=? n) && (n <=? 90)) || (n =? 95).
Definition spaces1 : regex := RPlus (RChr is_space).
(** [\S+], as a group *)
Definition word (i : nat) : regex := RGroup i (RPlus (RChr (λ c, negb (is_space c)))).
Definition ASSIGN : regex :=
  RSeq [RLineBegin; RSpaces; RGroup 1 (RPlus (RChr upper_or_bar)); RStr "='"; RGroup 2 (RStar (RChr (not_chars "'"))); RLit squote; RSpaces; RLineEnd].
Definition SEED : regex := RSeq [RLineBegin; RSpaces; RStr "seed_tuple"; spaces1; word 1; spaces1; word 2; RSpaces; RLineEnd].
Definition PRUNE : regex := RSeq [RLineBegin; RSpaces; RStr "prune_relation"; spaces1; word 1; RSpaces; RLineEnd].
Definition FOR : regex :=
  RSeq [RLineBegin; RSpaces; RStr "for"; spaces1; RGroup 1 (RPlus (RChr is_word)); spaces1; RStr "in"; spaces1; RLit "$"; RGroup 2 (RPlus (RChr is_word));
        RSpaces; ROpt (RLit ";"); RSpaces; RStr "do"; RSpaces; RLineEnd].

(** ** The Jobs and the users of a render *)

Definition container_script (d c : val) : result (list (val * string)) :=
  n <- get c "name" ;;
  if negb (py_eq n (VStr "fga-init")) then Ok [] else
  name <- meta_name d ;; args <- get_list c "args" ;; lines <- mapR (λ v, match v with VStr s => Ok s | _ => Raise TypeError end) args ;;
  Ok [(name, str_join newline lines)].
Definition doc_scripts (d : val) : result (list (val * string)) :=
  if negb (is_dict d) then Ok [] else
  k <- get d "kind" ;;
  if negb (py_eq k (VStr "Job")) then Ok [] else
  s <- item d "spec" ;; t <- item s "template" ;; p <- item t "spec" ;; cs <- get_list p "containers" ;; flatM (container_script d) cs.
Definition fga_init_scripts (docs : list val) : result (list (val * string)) := flatM doc_scripts docs.
Definition client_user (c : val) : result (list val) :=
  a <- get c "applicationType" ;;
  if negb (py_eq a (VStr "MACHINE_USER")) then Ok [] else n <- item c "name" ;; if hashable n then Ok [n] else Raise TypeError.
Definition doc_users (d : val) : result (list val) :=
  if negb (is_dict d) then Ok [] else
  k <- get d "kind" ;;
  if negb (py_eq k (VStr "PlatformBootstrap")) then Ok [] else s <- get_dict d "spec" ;; cs <- get_list s "oidcClients" ;; flatM client_user cs.
Definition machine_users (docs : list val) : result (list val) := flatM doc_users docs.

(** ** The seeds of a script *)

Definition env_of (script : string) : list (string * list string) :=
  foldl (λ env m, alist_set (group_text m 1) (split_ws (group_text m 2)) env) [] (re_finditer ASSIGN script).
Definition loop_vars (script : string) : list (string * string) :=
  foldl (λ env m, alist_set (group_text m 1) (group_text m 2) env) [] (re_finditer FOR script).
(** [s.strip("{}")] *)
Definition strip_braces (s : string) : string := lstrip_of (in_chars "{}") (rstrip_of (in_chars "{}") s).
Definition names_of (script arg : string) : list string :=
  match strip_char dquote arg with
  | String "$" rest =>
      let var := strip_braces rest in default [] (alist_get (default var (alist_get var (loop_vars script))) (env_of script))
  | name => [name]
  end.
Definition extend (k : string) (xs : list string) (d : list (string * list string)) : list (string * list string) :=
  alist_set k (default [] (alist_get k d) ++ xs) d.
Definition seeds (script : string) : list (string * list string) * list string :=
  (foldl (λ out m, extend (group_text m 1) (names_of script (group_text m 2)) out) [] (re_finditer SEED script),
   map (λ m, group_text m 1) (re_finditer PRUNE script)).

Definition judge (name script : string) (subjects : list val) : list string :=
  let '(held, pruned) := seeds script in
  let signup := default [] (alist_get "signup_service" held) in
  let operators := default [] (alist_get "platform_operator" held) in
  (if bool_decide (signup = [SIGNUP_SA]) then []
   else [cat [name; ": signup_service must be seeded for exactly "; SIGNUP_SA; ", got "; str_of_strs signup]]) ++
  (if nonempty operators then [] else [name +:+ ": platform_operator is seeded for nobody"]) ++
  (if str_mem SIGNUP_SA operators
   then [cat [name; ": platform_operator is seeded for "; SIGNUP_SA; "; the dashboard holds no cross-tenant relation (hosted#191)"]] else []) ++
  concat (map (λ e, if str_mem e.1 pruned then []
                    else [cat [name; ": "; e.1; " is seeded and never pruned; an old holder would keep the relation"]]) held) ++
  concat (map (λ e, concat (map (λ sa, if str_eqb sa IAM_ADMIN_ENTRY || existsb (py_eq (VStr sa)) subjects then []
                    else [cat [name; ": "; e.1; " is seeded for "; sa;
                               ", which is no MACHINE_USER OIDCClient and never appears in gibson-sa-identity-map"]]) e.2)) held).

(** [golden]: the golden renders by file name, in order *)
Definition file_findings (f : string * list val) : result (list (list string)) :=
  subjects <- machine_users f.2 ;; ss <- fga_init_scripts f.2 ;;
  Ok (map (λ s, map (λ x, cat [f.1; ": "; x]) (judge (py_str s.1) s.2 subjects)) ss).
Definition audit (golden : list (string * list val)) : result (list string * nat) :=
  fs <- flatM file_findings golden ;;
  Ok (concat fs ++ (if nonempty fs then [] else ["no golden render holds an fga-init Job: this check is blind"]), length fs).
Definition main (golden : list (string * list val)) : result Z := r <- audit golden ;; Ok (if nonempty r.1 then 1%Z else 0%Z).

(** ** The self-test *)

Definition script_fixture (signup operators : string) (prune : list string) : string :=
  str_join newline
    (["REQUIRED='" +:+ operators +:+ "'"; "SIGNUP_SERVICE_SA='" +:+ signup +:+ "'"; "for sa in $REQUIRED; do";
      unquoted "  seed_tuple platform_operator `$sa`"; "done"] ++
     (if str_mem "platform_operator" prune then ["prune_relation platform_operator"] else []) ++
     (if str_eqb signup "" then [] else [unquoted "seed_tuple signup_service `$SIGNUP_SERVICE_SA`"]) ++
     (if str_mem "signup_service" prune then ["prune_relation signup_service"] else [])).
Definition both : list string := ["platform_operator"; "signup_service"].
Definition operators_fixture : string := "gibson-iam-admin gibson-tenant-operator".
Definition good : string := script_fixture SIGNUP_SA operators_fixture both.
Definition subjects_fixture : list val := [VStr "gibson-tenant-operator"; VStr SIGNUP_SA].
Definition cases : list (string * list val * nat) :=
  [(script_fixture "" operators_fixture both, subjects_fixture, 1); (script_fixture "gibson-dashboard-sa" operators_fixture both, subjects_fixture, 2);
   (script_fixture SIGNUP_SA ("gibson-iam-admin " +:+ SIGNUP_SA) both, subjects_fixture, 1); (script_fixture SIGNUP_SA "" both, subjects_fixture, 1);
   (script_fixture SIGNUP_SA operators_fixture ["platform_operator"], subjects_fixture, 1);
   (script_fixture SIGNUP_SA operators_fixture ["signup_service"], subjects_fixture, 1); (good, [VStr SIGNUP_SA], 1)].
Definition selftest : Z :=
  if nonempty (judge "ok" good subjects_fixture) then 1%Z
  else if forallb (λ '(s, subs, n), length (judge "bad" s subs) =? n) cases then 0%Z else 1%Z.
Lemma fgaseeds_selftest : selftest = 0%Z.
Proof. vm_compute. reflexivity. Qed.

(** ** What a clean run proves *)

(** The script seeds a relation for a holder, and prunes a relation. *)
Definition seeded (script relation holder : string) : Prop :=
  ∃ m, m ∈ re_finditer SEED script ∧ group_text m 1 = relation ∧ holder ∈ names_of script (group_text m 2).
Definition pruned (script relation : string) : Prop := ∃ m, m ∈ re_finditer PRUNE script ∧ group_text m 1 = relation.

Lemma extend_get k xs d k' : alist_get k' (extend k xs d) =
  if str_eqb k k' then Some (default [] (alist_get k d) ++ xs) else alist_get k' d.
Proof.
  unfold extend. destruct (str_eqb k k') eqn:E; [apply str_eqb_eq in E as <-; apply alist_set_eq|].
  apply alist_set_ne. intros ->. by rewrite str_eqb_refl in E.
Qed.
Lemma seeds_get script r n : n ∈ default [] (alist_get r (seeds script).1) ↔ seeded script r n.
Proof.
  unfold seeds, seeded. cbn [fst].
  assert (∀ ms d, n ∈ default [] (alist_get r (foldl (λ out m, extend (group_text m 1) (names_of script (group_text m 2)) out) d ms)) ↔
    n ∈ default [] (alist_get r d) ∨ ∃ m, m ∈ ms ∧ group_text m 1 = r ∧ n ∈ names_of script (group_text m 2)) as H.
  { induction ms as [|m ms IH]; intros d; cbn [foldl].
    - split; [by left|]. intros [H|(m & H & _)]; [done|by apply elem_of_nil in H].
    - rewrite IH, extend_get. destruct (str_eqb (group_text m 1) r) eqn:E.
      + apply str_eqb_eq in E. rewrite E. change (default [] (Some ?x)) with x. rewrite elem_of_app. set_solver.
      + assert (group_text m 1 ≠ r) by (intros E'; by rewrite E', str_eqb_refl in E). set_solver. }
  rewrite H. cbn. rewrite elem_of_nil. tauto.
Qed.
Lemma seeds_keys script r l : (r, l) ∈ (seeds script).1 → alist_get r (seeds script).1 = Some l.
Proof.
  intros H. apply alist_NoDup; [|done]. unfold seeds. cbn [fst]. apply (foldl_inv (λ d, NoDup d.*1)); [constructor|].
  intros d m _ Hd. by apply alist_set_NoDup.
Qed.

(** The seeds of a script are as the platform needs them, for the machine users of its render. *)
Record well_seeded (script : string) (subjects : list val) : Prop := {
  ws_signup : ∀ n, seeded script "signup_service" n ↔ n = SIGNUP_SA;
  ws_operator : ∃ n, seeded script "platform_operator" n;
  ws_dashboard : ¬ seeded script "platform_operator" SIGNUP_SA;
  ws_pruned : ∀ r n, seeded script r n → pruned script r;
  ws_mapped : ∀ r n, seeded script r n → n = IAM_ADMIN_ENTRY ∨ VStr n ∈ subjects }.

Lemma judge_seeded name script subjects : judge name script subjects = [] → well_seeded script subjects.
Proof.
  pose proof (seeds_get script) as Hg. pose proof (seeds_keys script) as Hk. unfold judge. remember (seeds script) as hp eqn:Ehp.
  assert (∀ r, r ∈ hp.2 → pruned script r) as Hp.
  { intros r Hr. rewrite Ehp in Hr. cbn in Hr. apply list_elem_of_fmap in Hr as (m & -> & Hm). by exists m. }
  clear Ehp. destruct hp as [held prn]. cbn [fst snd] in *.
  intros [H1 [H2 [H3 [H4 H5]%app_eq_nil]%app_eq_nil]%app_eq_nil]%app_eq_nil.
  assert (∀ r n, seeded script r n → ∃ l, (r, l) ∈ held ∧ n ∈ l) as Hl.
  { intros r n Hs. apply Hg in Hs. destruct (alist_get r held) as [l|] eqn:E; [|by apply elem_of_nil in Hs]. exists l. split; [by apply alist_elem|done]. }
  split.
  - intros n. rewrite <- Hg. destruct (bool_decide _) eqn:E; [|done]. apply bool_decide_eq_true in E. rewrite E. apply list_elem_of_singleton.
  - destruct (default [] (alist_get "platform_operator" held)) as [|n l] eqn:E; [done|]. exists n. apply Hg. rewrite E. left.
  - rewrite <- Hg. destruct (str_mem SIGNUP_SA _) eqn:E; [done|]. by apply str_mem_false in E.
  - intros r n (l & Hin & _)%Hl. apply Hp. apply (concat_map_nil _ _ _ H4) in Hin. cbn [fst] in Hin.
    destruct (str_mem r prn) eqn:E; [by apply str_mem_elem|done].
  - intros r n (l & Hin & Hn)%Hl. apply (concat_map_nil _ _ _ H5) in Hin. apply (concat_map_nil _ _ _ Hin) in Hn.
    destruct (str_eqb n IAM_ADMIN_ENTRY) eqn:E; [left; by apply str_eqb_eq|right].
    cbn [orb] in Hn. destruct (existsb _ subjects) eqn:Es; [by apply existsb_py_eq_str|done].
Qed.

(** When main of check-fga-init-seeds.py exits 0, a golden render has an
    fga-init Job, and the script of each one seeds signup_service for exactly
    the dashboard, platform_operator for somebody and never for the dashboard,
    prunes each relation it seeds, and seeds only for the admin entry or a
    machine user of the same render. *)
Theorem clean_scripts_seed_their_holders golden :
  main golden = Ok 0%Z →
  (∃ f n s ss, f ∈ golden ∧ fga_init_scripts f.2 = Ok ss ∧ (n, s) ∈ ss) ∧
  ∀ f ss n s, f ∈ golden → fga_init_scripts f.2 = Ok ss → (n, s) ∈ ss →
    ∃ users, machine_users f.2 = Ok users ∧ well_seeded s users.
Proof.
  unfold main, audit. intros (r & (fs & Hfs & [= <-])%bind_Ok & H)%bind_Ok. cbn [fst] in H. destruct (concat fs ++ _) eqn:E; [clear H|done].
  apply app_eq_nil in E as [Hc Hne]. split.
  - destruct fs as [|x fs]; [done|]. assert (x ∈ x :: fs) as Hx by left. apply (flatM_elem _ _ _ Hfs) in Hx as (f & l & Hf & Hl & Hx).
    unfold file_findings in Hl. apply bind_Ok in Hl as (users & _ & Hl). apply bind_Ok in Hl as (ss & Hss & [= <-]).
    apply list_elem_of_fmap in Hx as ([n s] & _ & Hin). by exists f, n, s, ss.
  - intros f ss n s Hf Hss Hin. destruct (flatM_Ok_elem _ _ _ _ Hfs Hf) as (l & Hl). pose proof Hl as Hl'. unfold file_findings in Hl.
    apply bind_Ok in Hl as (users & Hu & Hl). rewrite Hss in Hl. cbn [rbind] in Hl. injection Hl as <-. exists users. split; [done|].
    apply (judge_seeded (py_str n)), (map_eq_nil (λ x, cat [f.1; ": "; x])). apply (proj1 (concat_nil _) Hc). apply (flatM_elem _ _ _ Hfs).
    eexists f, _. split_and!; [done..|]. exact (list_elem_of_fmap_2 (λ s, map (λ x, cat [f.1; ": "; x]) (judge (py_str s.1) s.2 users)) _ _ Hin).
Qed.

Definition docs_fixture : list val :=
  [VDict [("kind", VStr "Job"); ("metadata", str_dict [("name", "fga-init")]);
          ("spec", VDict [("template", VDict [("spec", VDict [("containers", VList [VDict [("name", VStr "fga-init"); ("args", strs [good])]])])])])];
   VDict [("kind", VStr "PlatformBootstrap");
          ("spec", VDict [("oidcClients", VList (map (λ n, str_dict [("name", n); ("applicationType", "MACHINE_USER")])
                                                    ["gibson-tenant-operator"; SIGNUP_SA]))])]].
Lemma clean_scripts_seed_their_holders_witness :
  main [("values-baseline.yaml", docs_fixture)] = Ok 0%Z ∧ ∃ users, machine_users docs_fixture = Ok users ∧ well_seeded good users.
Proof.
  assert (main [("values-baseline.yaml", docs_fixture)] = Ok 0%Z) as H by (vm_compute; reflexivity). split; [exact H|].
  apply (proj2 (clean_scripts_seed_their_holders _ H) ("values-baseline.yaml", docs_fixture) [(VStr "fga-init", good)] (VStr "fga-init")).
  - left.
  - vm_compute. reflexivity.
  - left.
Defined.
