(* ===== verification/ClaimedHost.v ===== *)
(** * scripts/check-zitadel-claimed-host.py: no claimed Zitadel host carries a port

    The places of a render where a client claims a host of Zitadel: variables,
    request headers, Envoy URIs and rewrites, the bootstrap, and curl calls. *)
From S2P Require Import Prelude PyStr PyVal Regex RegexParse.
From Stdlib Require Import Ascii.

Definition BASELINE : string := "helm/gibson/values-baseline.yaml".
Definition opt_quote : regex := ROpt (RLit dquote).
Definition JWKS_URI : regex :=
  RSeq [RStr "uri:"; RSpaces; opt_quote;
        RGroup 1 (RSeq [RStr "http"; ROpt (RLit "s"); RStr "://"; RGroup 2 (RPlus (RChr (λ c, negb (in_chars "/" c || Ascii.eqb c dquote || is_space c))));
                        RStr "/oauth/v2/keys"]); opt_quote].
Definition REQUEST_HEADERS : regex :=
  RSeq [RStr "CUSTOM_REQUEST_HEADERS="; opt_quote; RGroup 1 (RStar (RChr (λ c, negb (Ascii.eqb c dquote || is_newline c)))); opt_quote].
(** A literal in either case *)
Fixpoint RStrI (s : string) : regex := match s with "" => REps | String c s => RCat (literal true c) (RStrI s) end.
Definition CLAIM_HEADER : regex :=
  RSeq [RBegin; RGroup 1 (RAlt (RStrI "host") (RSeq [RStrI "x-zitadel-"; RPlus (RChr (ignoring true is_lower)); RStrI "-host"])); REnd].
Definition HOST_REWRITE : regex :=
  RSeq [RStr "host_rewrite_literal:"; RSpaces; opt_quote; RGroup 1 (RPlus (RChr (λ c, negb (Ascii.eqb c dquote || is_space c)))); opt_quote].
Definition CURL_HOST : regex := RSeq [RStr "-H"; RPlus (RChr is_space); RChr (λ c, Ascii.eqb c dquote || Ascii.eqb c squote); RStr "Host:"].
Definition HAS_PORT : regex := RSeq [RLit ":"; RPlus (RChr is_digit); REnd].

Definition has_port (s : string) : bool := found_in HAS_PORT s.

(** ** The claims of a document *)

(** Every string of a value, at any depth, and every env entry *)
Fixpoint strings (node : val) : list string :=
  match node with
  | VStr s => [s]
  | VDict d => concat (map (λ kv, strings kv.2) d)
  | VList l => concat (map strings l)
  | _ => []
  end.
Definition entry (node : val) : list (string * string) :=
  match fld node "name", fld node "value" with VStr n, VStr v => [(n, v)] | _, _ => [] end.
Fixpoint envs (node : val) : list (string * string) :=
  match node with
  | VDict d => entry (VDict d) ++ concat (map (λ kv, envs kv.2) d)
  | VList l => concat (map envs l)
  | _ => []
  end.

(** The findings of a place, and the surfaces that were read there *)
Definition read : Type := list string * list string.
Definition joined (l : list read) : read := (concat l.*1, concat l.*2).

Definition judge_bootstrap (whr : string) (doc : val) : result read :=
  k <- get doc "kind" ;;
  if negb (py_eq k (VStr "PlatformBootstrap")) then Ok ([], []) else
  s <- get_dict doc "spec" ;; z <- get_dict s "zitadel" ;; e <- get z "externalDomain" ;;
  let claimed := py_str (por e (VStr "")) in
  Ok (if str_eqb claimed "" || has_port claimed || contains "://" claimed
      then [cat [whr; ": spec.zitadel.externalDomain is "; repr_str claimed; "; it must be a bare host with no scheme and no port"]] else [], ["bootstrap"]).
Definition judge_env (whr : string) (e : string * string) : read :=
  if negb (str_eqb e.1 "ZITADEL_EXTERNAL_DOMAIN") then ([], []) else
  (if has_port e.2 then [cat [whr; ": ZITADEL_EXTERNAL_DOMAIN="; e.2; " carries a port"]] else [], ["env"]).
Definition bad_pair (pair : string) : bool :=
  let '(key, _, v) := str_partition pair ":" in
  match re_match CLAIM_HEADER (strip key) with Some _ => has_port (strip v) | None => false end.
Definition judge_headers (whr : string) (m : found) : read :=
  (concat (map (λ p, let '(key, _, v) := str_partition p ":" in
                     if bad_pair p then [cat [whr; ": CUSTOM_REQUEST_HEADERS claims "; strip key; ":"; strip v; ", which carries a port"]] else [])
             (str_split (group_text m 1) ",")), ["headers"]).
Definition judge_jwks (whr : string) (m : found) : read :=
  (if has_port (group_text m 2)
   then [cat [whr; ": the JWKS uri "; group_text m 1; " sends Host "; group_text m 2; ", which carries a port"]] else [], ["jwks"]).
Definition judge_rewrite (whr : string) (m : found) : read :=
  (if has_port (group_text m 1)
   then [cat [whr; ": an Envoy host_rewrite_literal claims "; group_text m 1; ", which carries a port"]] else [], ["rewrite"]).
Definition judge_text (whr text : string) : read :=
  joined (map (judge_headers whr) (re_finditer REQUEST_HEADERS text) ++ map (judge_jwks whr) (re_finditer JWKS_URI text) ++
          map (judge_rewrite whr) (re_finditer HOST_REWRITE text) ++
          [(if found_in CURL_HOST text
            then [whr +:+ unquoted ": a curl call forges -H `Host:`. Claim the host in the instance header from gibson.zitadel.env"] else [], [])]).
Definition judge_doc (doc : val) : result read :=
  if negb (truthy doc) then Ok ([], []) else
  k <- get doc "kind" ;; m <- get_dict doc "metadata" ;; n <- get m "name" ;;
  let whr := cat [py_str k; "/"; py_str n] in
  b <- judge_bootstrap whr doc ;;
  Ok (joined (b :: map (judge_env whr) (envs doc) ++ map (judge_text whr) (strings doc))).
Definition judge (docs : list val) : result read := rmap joined (mapR judge_doc docs).

(** ** The renders *)

Definition SURFACES : list string := ["env"; "headers"; "jwks"; "bootstrap"; "rewrite"].
Definition helm_cmd (extra : list string) : list string :=
  ["helm"; "template"; "gibson"; "helm/gibson"; "-f"; BASELINE; "-f"; "helm/testdata/render-inputs/gibson.yaml"; "--namespace"; "gibson"] ++ extra.
Definition nodeport : list string :=
  ["--set"; "gibson-workloads.envoy.service.type=NodePort"; "--set"; "gibson-workloads.envoy.service.nodePort=30443"].
Definition renders (profs : list string) : list (string * list string) :=
  [(BASELINE, []); (BASELINE +:+ " with a NodePort Envoy", nodeport)] ++ map (λ p, (p, ["-f"; p])) profs.
Definition judge_render (helm : list string → result (list val)) (r : string * list string) : result (list string) :=
  docs <- helm (helm_cmd r.2) ;; found <- judge docs ;;
  Ok (map (λ f, cat [r.1; ": "; f]) found.1 ++
      map (λ s, cat [r.1; ": the render holds no "; s; " surface, so this check read nothing there"])
        (List.filter (λ s, negb (str_mem s found.2)) SURFACES)).
(** [profs]: the shipped values files beside the baseline *)
Definition main (profs : list string) (helm : list string → result (list val)) : result Z :=
  if negb (nonempty profs) then Ok 1%Z else
  problems <- flatM (judge_render helm) (renders profs) ;; Ok (if nonempty problems then 1%Z else 0%Z).

(** ** The self-test *)

Record fixture := Fixture { f_env : string; f_hdr : string; f_jwks : string; f_pb : string; f_rewrite : string; f_curl : string }.
Definition FIXTURE (f : fixture) : list val :=
  [VDict [("kind", VStr "Deployment"); ("metadata", str_dict [("name", "fixture")]);
          ("spec", VDict [("template", VDict [("spec", VDict [("containers", VList [VDict [("name", VStr "c");
             ("env", VList [str_dict [("name", "ZITADEL_EXTERNAL_DOMAIN"); ("value", f_env f)]])]])])])])];
   VDict [("kind", VStr "PlatformBootstrap"); ("metadata", str_dict [("name", "fixture-pb")]);
          ("spec", VDict [("zitadel", str_dict [("externalDomain", f_pb f)])])];
   VDict [("kind", VStr "ConfigMap"); ("metadata", str_dict [("name", "fixture-cm")]);
          ("data", str_dict
             [("login", cat [unquoted "CUSTOM_REQUEST_HEADERS=`Host:"; f_hdr f; unquoted ",X-Zitadel-Public-Host:app.example.com`^"]);
              ("envoy", cat [unquoted "uri: `http://"; f_jwks f; unquoted "/oauth/v2/keys`^host_rewrite_literal: `"; f_rewrite f; unquoted "`^"]);
              ("script", cat ["curl -sS "; f_curl f; " http://gibson-zitadel:8080/management/v1/users"; newline])])]].
Definition app : string := "app.example.com".
Definition CLEAN : fixture := Fixture app app app app app (unquoted "-H `x-zitadel-instance-host: app.example.com`").
Definition bad : list fixture :=
  let p443 := app +:+ ":443" in let p30443 := app +:+ ":30443" in
  [Fixture p443 app app app app (f_curl CLEAN); Fixture app p30443 app app app (f_curl CLEAN); Fixture app app p443 app app (f_curl CLEAN);
   Fixture app app app app app (unquoted "-H `Host: app.example.com`"); Fixture app app app p30443 app (f_curl CLEAN);
   Fixture app app app app p30443 (f_curl CLEAN)].
Definition selftest : result Z :=
  clean <- judge (FIXTURE CLEAN) ;;
  if nonempty clean.1 || negb (forallb (λ s, str_mem s clean.2) SURFACES) then Ok 1%Z else
  failed <- anyM (λ f, found <- judge (FIXTURE f) ;; Ok (negb (length found.1 =? 1))) bad ;; Ok (if failed : bool then 1%Z else 0%Z).
Lemma claimedhost_selftest : selftest = Ok 0%Z.
Proof. vm_compute. reflexivity. Qed.

(** ** What a clean run proves *)

(** A text ends in a port; a line end may follow it. *)
Definition ported (s : string) : Prop :=
  ∃ a d t, s = a +:+ ":" +:+ d +:+ t ∧ d ≠ "" ∧ str_forallb is_digit d = true ∧ at_end t = true.
(** A text forges the Host header of a curl call. *)
Definition forges (s : string) : Prop :=
  ∃ a ws q b, s = a +:+ "-H" +:+ ws +:+ String q ("Host:" +:+ b) ∧ ws ≠ "" ∧ str_forallb is_space ws = true ∧ (q = dquote ∨ q = squote).

Lemma has_port_iff s : has_port s = true ↔ ported s.
Proof.
  unfold has_port. rewrite found_in_iff. unfold HAS_PORT. cbn [RSeq]. split.
  - intros ([p t] & b & (u & ->)%suffix_of_app & H). apply step_cat_iff in H as (q & H1 & H). apply step_chr_iff in H1 as (c & t' & -> & <-%Ascii.eqb_eq & ->).
    apply step_cat_iff in H as ([q1 t1] & (d & Hd & Hne & Hdd)%step_plus_iff & H). apply step_end_iff in H as [_ He]. cbn in Hd. subst t'.
    by exists u, d, t1.
  - intros (a & [|c d] & t & -> & Hne & Hd & He); [done|]. apply andb_true_iff in Hd as [Hc Hd].
    destruct (app_suffix_of a None (":" +:+ String c d +:+ t)) as [p Hp]. destruct (step_star is_digit d (Some c) t Hd) as [p2 Hs].
    exists (p, ":" +:+ String c d +:+ t), (p2, t). split; [done|]. apply step_cat_iff. exists (Some ":"%char, String c d +:+ t). split; [by constructor|].
    apply step_cat_iff. exists (p2, t). split; [|by apply step_end_iff]. apply step_cat_iff. exists (Some c, d +:+ t). split; [by constructor|done].
Qed.
Lemma forges_found s : forges s → found_in CURL_HOST s = true.
Proof.
  intros (a & [|c ws] & q & b & -> & Hne & Hw & Hq); [done|]. apply andb_true_iff in Hw as [Hc Hw]. rewrite found_in_iff.
  destruct (app_suffix_of a None ("-H" +:+ String c ws +:+ String q ("Host:" +:+ b))) as [p Hp].
  destruct (step_str "-H" p (String c ws +:+ String q ("Host:" +:+ b))) as [p1 H1].
  destruct (step_star is_space ws (Some c) (String q ("Host:" +:+ b)) Hw) as [p2 H2]. destruct (step_str "Host:" (Some q) b) as [p3 H3].
  eexists _, (p3, b). split; [exact Hp|]. apply step_cat_iff. eexists. split; [exact H1|].
  apply step_cat_iff. exists (p2, String q ("Host:" +:+ b)). split.
  { apply step_cat_iff. exists (Some c, ws +:+ String q ("Host:" +:+ b)). split; [by constructor|exact H2]. }
  apply step_cat_iff. exists (Some q, "Host:" +:+ b). split; [|exact H3]. constructor. by destruct Hq as [->| ->].
Qed.

Lemma strings_inside v t : inside v (VStr t) → t ∈ strings v.
Proof.
  intros H. remember (VStr t) as x eqn:Ex. induction H as [v|v d k x Hk H IH|v l x Hl H IH]; subst; cbn [strings]; [left| |].
  - apply elem_of_concat. eexists. split; [exact (list_elem_of_fmap_2 (λ kv : string * val, strings kv.2) _ _ Hk)|by apply IH].
  - apply elem_of_concat. eexists. split; [exact (list_elem_of_fmap_2 strings _ _ Hl)|by apply IH].
Qed.
Lemma envs_inside v e n x : inside v e → fld e "name" = VStr n → fld e "value" = VStr x → (n, x) ∈ envs v.
Proof.
  intros H Hn Hx. induction H as [v|v d k y Hk H IH|v l y Hl H IH]; cbn [envs].
  - destruct v as [| | | | |d]; try done. cbn [envs]. apply elem_of_app. left. unfold entry. rewrite Hn, Hx. left.
  - apply elem_of_app. right. apply elem_of_concat. eexists. split; [exact (list_elem_of_fmap_2 (λ kv : string * val, envs kv.2) _ _ Hk)|by apply IH].
  - apply elem_of_concat. eexists. split; [exact (list_elem_of_fmap_2 envs _ _ Hl)|by apply IH].
Qed.

(** A header of a list of request headers claims a host. *)
Definition claims_host (headers key value : string) : Prop :=
  ∃ pair sep, pair ∈ str_split headers "," ∧ str_partition pair ":" = (key, sep, value) ∧ is_Some (re_match CLAIM_HEADER (strip key)).
(** No place of a render claims a host with a port. *)
Record bare_hosts (docs : list val) : Prop := {
  bh_bootstrap : ∀ d, d ∈ docs → fld d "kind" = VStr "PlatformBootstrap" →
    let host := py_str (por (fld (dict_fld (dict_fld d "spec") "zitadel") "externalDomain") (VStr "")) in
    host ≠ "" ∧ ¬ ported host ∧ contains "://" host = false;
  bh_env : ∀ d e v, d ∈ docs → truthy d = true → inside d e → fld e "name" = VStr "ZITADEL_EXTERNAL_DOMAIN" → fld e "value" = VStr v → ¬ ported v;
  bh_headers : ∀ d t m k v, d ∈ docs → truthy d = true → inside d (VStr t) → m ∈ re_finditer REQUEST_HEADERS t →
    claims_host (group_text m 1) k v → ¬ ported (strip v);
  bh_jwks : ∀ d t m, d ∈ docs → truthy d = true → inside d (VStr t) → m ∈ re_finditer JWKS_URI t → ¬ ported (group_text m 2);
  bh_rewrite : ∀ d t m, d ∈ docs → truthy d = true → inside d (VStr t) → m ∈ re_finditer HOST_REWRITE t → ¬ ported (group_text m 1);
  bh_curl : ∀ d t, d ∈ docs → truthy d = true → inside d (VStr t) → ¬ forges t }.

Lemma not_ported s : has_port s = false → ¬ ported s.
Proof. intros H Hp%has_port_iff. congruence. Qed.
Lemma joined_clean l x : (joined l).1 = [] → x ∈ l → x.1 = [].
Proof. intros H Hx. unfold joined in H. cbn [fst] in H. apply (concat_map_nil _ _ _ H Hx). Qed.

Lemma doc_clean d s : judge_doc d = Ok ([], s) → truthy d = true →
  ∃ whr, (∃ s, judge_bootstrap whr d = Ok ([], s)) ∧ (∀ e, e ∈ envs d → (judge_env whr e).1 = []) ∧ (∀ t, t ∈ strings d → (judge_text whr t).1 = []).
Proof.
  unfold judge_doc. intros H Ht. rewrite Ht in H. cbn [negb] in H. apply bind_Ok in H as (k & _ & H). apply bind_Ok in H as (m & _ & H).
  apply bind_Ok in H as (n & _ & H). apply bind_Ok in H as ([b sb] & Hb & H%Ok_inj). set (whr := cat _) in *. exists whr.
  assert (∀ x, x ∈ ((b, sb) : read) :: map (judge_env whr) (envs d) ++ map (judge_text whr) (strings d) → x.1 = []) as Hall.
  { intros x Hx. refine (joined_clean _ _ _ Hx). by rewrite H. }
  split_and!.
  - exists sb. rewrite Hb. do 2 f_equal. apply (Hall (b, sb)). left.
  - intros e He. apply Hall. right. apply elem_of_app. left. by apply list_elem_of_fmap_2.
  - intros t Hin. apply Hall. right. apply elem_of_app. right. by apply list_elem_of_fmap_2.
Qed.
Lemma text_clean whr t : (judge_text whr t).1 = [] →
  (∀ m k v, m ∈ re_finditer REQUEST_HEADERS t → claims_host (group_text m 1) k v → has_port (strip v) = false) ∧
  (∀ m, m ∈ re_finditer JWKS_URI t → has_port (group_text m 2) = false) ∧
  (∀ m, m ∈ re_finditer HOST_REWRITE t → has_port (group_text m 1) = false) ∧ ¬ forges t.
Proof.
  intros H. unfold judge_text in H. assert (∀ x, x ∈ _ → x.1 = []) as Hall by (intros x Hx; exact (joined_clean _ _ H Hx)). clear H. split_and!.
  - intros m k v Hm (pair & sep & Hp & Hpart & Hs). assert ((judge_headers whr m).1 = []) as Hj.
    { apply Hall. apply elem_of_app. left. by apply list_elem_of_fmap_2. }
    unfold judge_headers in Hj. cbn [fst] in Hj. apply (concat_map_nil _ _ _ Hj) in Hp. rewrite Hpart in Hp. unfold bad_pair in Hp. rewrite Hpart in Hp.
    destruct Hs as [x Hs]. rewrite Hs in Hp. by destruct (has_port (strip v)).
  - intros m Hm. assert ((judge_jwks whr m).1 = []) as Hj.
    { apply Hall. apply elem_of_app. right. apply elem_of_app. left. by apply list_elem_of_fmap_2. }
    unfold judge_jwks in Hj. by destruct (has_port _).
  - intros m Hm. assert ((judge_rewrite whr m).1 = []) as Hj.
    { apply Hall. do 2 (apply elem_of_app; right). apply elem_of_app. left. by apply list_elem_of_fmap_2. }
    unfold judge_rewrite in Hj. by destruct (has_port _).
  - intros Hf%forges_found. rewrite Hf in Hall. specialize (Hall _ ltac:(do 3 (apply elem_of_app; right); left)). done.
Qed.

Lemma judge_bare docs s : judge docs = Ok ([], s) → bare_hosts docs.
Proof.
  unfold judge. intros (l & Hl & Hj)%rmap_Ok. assert (∀ d, d ∈ docs → ∃ sd, judge_doc d = Ok ([], sd)) as Hd.
  { intros d Hd. destruct (mapR_elem_2 _ _ _ _ Hl Hd) as ([x sd] & Hx & Hdoc). exists sd. rewrite Hdoc. do 2 f_equal.
    apply (joined_clean l (x, sd)); [by rewrite Hj|done]. }
  assert (∀ d t, d ∈ docs → truthy d = true → inside d (VStr t) → ∃ whr, (judge_text whr t).1 = []) as Htext.
  { intros d t Hin Ht Hi%strings_inside. destruct (Hd d Hin) as (sd & Hdoc). destruct (doc_clean _ _ Hdoc Ht) as (whr & _ & _ & H). exists whr. by apply H. }
  split.
  - intros d Hin Hk. assert (truthy d = true) as Ht by (by destruct d as [| | | | |[|]]). destruct (Hd d Hin) as (sd & Hdoc).
    destruct (doc_clean _ _ Hdoc Ht) as (whr & (sb & Hb) & _ & _). unfold judge_bootstrap in Hb. apply bind_Ok in Hb as (k & ->%get_Ok & Hb).
    rewrite Hk, py_eq_refl_str in Hb. cbn [negb] in Hb. apply bind_Ok in Hb as (x & ->%get_dict_is & Hb). apply bind_Ok in Hb as (y & ->%get_dict_is & Hb).
    apply bind_Ok in Hb as (z & ->%get_Ok & Hb%Ok_inj). destruct (_ || _ || _) eqn:E; [done|]. rewrite !orb_false_iff in E. destruct E as [[E1 E2] E3].
    split_and!; [|by apply not_ported|done]. intros E. by rewrite E in E1.
  - intros d e v Hin Ht Hi Hn Hv. destruct (Hd d Hin) as (sd & Hdoc). destruct (doc_clean _ _ Hdoc Ht) as (whr & _ & He & _).
    specialize (He _ (envs_inside _ _ _ _ Hi Hn Hv)). unfold judge_env in He. cbn [fst snd] in He. rewrite str_eqb_refl in He. cbn in He.
    apply not_ported. by destruct (has_port v).
  - intros d t m k v Hin Ht Hi Hm Hc. destruct (Htext _ _ Hin Ht Hi) as (whr & H). apply not_ported. by apply (proj1 (text_clean _ _ H) m k).
  - intros d t m Hin Ht Hi Hm. destruct (Htext _ _ Hin Ht Hi) as (whr & H). apply not_ported. by apply (proj1 (proj2 (text_clean _ _ H))).
  - intros d t m Hin Ht Hi Hm. destruct (Htext _ _ Hin Ht Hi) as (whr & H). apply not_ported. by apply (proj1 (proj2 (proj2 (text_clean _ _ H)))).
  - intros d t Hin Ht Hi. destruct (Htext _ _ Hin Ht Hi) as (whr & H). by apply (text_clean _ _ H).
Qed.

Lemma seen_bootstrap d f s : judge_doc d = Ok (f, s) → "bootstrap" ∈ s → fld d "kind" = VStr "PlatformBootstrap".
Proof.
  unfold judge_doc. destruct (negb (truthy d)); [intros [= _ <-] Hin; by apply elem_of_nil in Hin|].
  intros (k & _ & H)%bind_Ok Hin. apply bind_Ok in H as (m & _ & H). apply bind_Ok in H as (n & _ & H).
  apply bind_Ok in H as ([b sb] & Hb & H%Ok_inj). set (whr := cat _) in *. unfold joined in H.
  apply (f_equal snd) in H. cbn [snd] in H. subst s. apply elem_of_concat in Hin as (x & Hx & Hin).
  apply list_elem_of_fmap in Hx as (r & -> & [->|Hx]%elem_of_cons); cbn [snd] in Hin.
  - unfold judge_bootstrap in Hb. apply bind_Ok in Hb as (k' & ->%get_Ok & Hb). destruct (py_eq _ _) eqn:Ek; [by apply py_eq_str_r in Ek|].
    injection Hb as _ <-. by apply elem_of_nil in Hin.
  - exfalso. apply elem_of_app in Hx as [Hr|Hr].
    + apply list_elem_of_fmap in Hr as (e & -> & _). unfold judge_env in Hin. destruct (negb _); [by apply elem_of_nil in Hin|].
      by apply list_elem_of_singleton in Hin.
    + apply list_elem_of_fmap in Hr as (t & -> & _). unfold judge_text, joined in Hin. cbn [snd] in Hin.
      apply elem_of_concat in Hin as (y & Hy & Hin). apply list_elem_of_fmap in Hy as (z & -> & Hz). rewrite !elem_of_app in Hz.
      destruct Hz as [Hz|[Hz|[Hz|Hz]]]; [apply list_elem_of_fmap in Hz as (? & -> & _); by apply list_elem_of_singleton in Hin..|].
      apply list_elem_of_singleton in Hz as ->. by apply elem_of_nil in Hin.
Qed.

(** When main of check-zitadel-claimed-host.py exits 0, no place of a
    render, the baseline, the one with a NodePort Envoy and each shipped
    profile, claims a host of Zitadel with a port: no variable, no request
    header, no JWKS URI, no host rewrite of Envoy and no bootstrap, at any
    depth of the documents; and no text forges the Host header of a curl call. *)
Theorem clean_renders_claim_bare_hosts profs helm docs r :
  main profs helm = Ok 0%Z → r ∈ renders profs → helm (helm_cmd r.2) = Ok docs →
  bare_hosts docs ∧ (∃ d, d ∈ docs ∧ fld d "kind" = VStr "PlatformBootstrap").
Proof.
  unfold main. intros H Hr Hh. destruct (negb _); [done|]. apply bind_Ok in H as (ps & Hps & H). destruct ps; [clear H|done].
  apply (proj1 (flatM_nil _ _) Hps) in Hr. unfold judge_render in Hr. rewrite Hh in Hr. cbn [rbind] in Hr.
  apply bind_Ok in Hr as ([fs seen] & Hj & Hr%Ok_inj). apply app_eq_nil in Hr as [Hf Hs]. apply map_eq_nil in Hf. cbn [fst snd] in *. subst fs.
  split; [by apply (judge_bare _ seen)|]. apply map_eq_nil in Hs. assert (str_mem "bootstrap" seen = true) as Hb.
  { apply negb_false_iff. apply (filter_nil_elem _ _ _ Hs). do 3 right. left. }
  apply str_mem_elem in Hb. unfold judge in Hj. apply rmap_Ok in Hj as (l & Hl & Hj). unfold joined in Hj.
  assert ("bootstrap" ∈ concat l.*2) as Hb' by (by injection Hj as _ ->). apply elem_of_concat in Hb' as (x & Hx & Hin).
  apply list_elem_of_fmap in Hx as ([f s] & -> & Hx). cbn [snd] in Hin. destruct (mapR_elem _ _ _ _ Hl Hx) as (d & Hd & Hdoc). exists d. split; [done|].
  by apply (seen_bootstrap d f s).
Qed.
Lemma clean_renders_claim_bare_hosts_witness :
  main ["helm/gibson/values-eks.yaml"] (λ _, Ok (FIXTURE CLEAN)) = Ok 0%Z ∧ bare_hosts (FIXTURE CLEAN).
Proof.
  assert (main ["helm/gibson/values-eks.yaml"] (λ _, Ok (FIXTURE CLEAN)) = Ok 0%Z) as H by (vm_compute; reflexivity). split; [exact H|].
  apply (clean_renders_claim_bare_hosts _ _ _ (BASELINE, []) H); [left|reflexivity].
Defined.
