(* ===== verification/LoginToken.v ===== *)
(** * scripts/check-login-token-mounted.py: the login pod mounts the token file it reads

    The file that the dotenv of the login app names, the Secret volumes of the
    pod, and the keys that the ExternalSecret writes. *)
From S2P Require Import Prelude PyStr PyVal Regex.
From Stdlib Require Import Ascii.

Definition PROFILES : list (list string) :=
  [["values-baseline.yaml"]; ["values-baseline.yaml"; "values-eks.yaml"]; ["values-baseline.yaml"; "values-guest.yaml"]].
Definition SECRET : string := "login-client".
Definition TOKEN : regex :=
  RSeq [RLineBegin; RStr "ZITADEL_SERVICE_USER_TOKEN_FILE="; ROpt (RLit dquote);
        RGroup 1 (RPlus (RChr (λ c, negb (Ascii.eqb c dquote || is_newline c)))); ROpt (RLit dquote)].

Definition is_login (d : val) : result bool :=
  k <- get d "kind" ;;
  if negb (py_eq k (VStr "Deployment")) then Ok false else
  m <- get_dict d "metadata" ;; l <- get_dict m "labels" ;; n <- get l "app.kubernetes.io/name" ;; Ok (py_eq n (VStr "zitadel-login")).
Definition login_deployment (docs : list val) : result (option val) :=
  firstM (λ d, b <- is_login d ;; Ok (if (b : bool) then Some d else None)) docs.

(** The keys that the ExternalSecret of a Secret writes *)
Definition external_keys (name : string) (d : val) : result (option (list val)) :=
  k <- get d "kind" ;;
  if negb (py_eq k (VStr "ExternalSecret")) then Ok None else
  s <- get_dict d "spec" ;; target <- get_dict s "target" ;; n <- get target "name" ;;
  n <- (if truthy n then Ok n else meta_name d) ;;
  if negb (py_eq n (VStr name)) then Ok None else
  t <- get_dict target "template" ;; data <- get t "data" ;;
  if truthy data then l <- py_iter data ;; rmap Some (set_of l) else
  sp <- item d "spec" ;; l <- get_list sp "data" ;; ks <- mapR (λ x, get x "secretKey") l ;; rmap Some (set_of ks).
Definition secret_keys (docs : list val) (name : string) : result (list val) := rmap (default []) (firstM (external_keys name) docs).

(** The volume puts a key at a file name. *)
Definition projected (volume : val) (key filename : string) (keys : list val) : result bool :=
  s <- item volume "secret" ;; items <- get s "items" ;;
  if truthy items then
    its <- py_iter items ;;
    hit <- anyM (λ i, andR (k <- get i "key" ;; Ok (py_eq k (VStr key))) (p <- get i "path" ;; Ok (py_eq p (VStr filename)))) its ;;
    Ok (hit && existsb (py_eq (VStr key)) keys)
  else Ok (existsb (py_eq (VStr filename)) keys).

(** [os.path.dirname], [os.path.basename] *)
Definition dirname (p : string) : string :=
  match rsplit1 "/" p with
  | Some (d, _) => if str_forallb (Ascii.eqb "/") d then d +:+ "/" else rstrip_char "/" d
  | None => ""
  end.

(** The volumes of the pod with a field, by name *)
Definition volumes_with (field : string) (f : val → result val) (vs : list val) : result (list (val * val)) :=
  flatM (λ v, b <- str_in field v ;; if (b : bool) then n <- item v "name" ;; x <- f v ;; vdict_item n x else Ok []) vs.
Definition config_map_name (v : val) : result val := c <- item v "configMap" ;; item c "name".
Definition token_files (cms : list (val * val)) (d : val) : result (list string) :=
  k <- get d "kind" ;;
  if negb (py_eq k (VStr "ConfigMap")) then Ok [] else
  n <- meta_name d ;;
  if negb (existsb (λ e, match vdict_get e.1 cms with Some c => py_eq c n | None => false end) cms) then Ok [] else
  data <- get_dict d "data" ;; kvs <- items data ;;
  Ok (concat (map (λ kv, map (λ m, group_text m 1) (re_finditer TOKEN (py_str kv.2))) kvs)).
Definition mount_at (parent : string) (secrets : list (val * val)) (m : val) : result (list val) :=
  n <- get m "name" ;;
  if negb (hashable n) then Raise TypeError else
  match vdict_get n secrets with
  | Some v => p <- get_default m "mountPath" (VStr "") ;;
              match p with VStr p => Ok (if str_eqb (rstrip_char "/" p) parent then [v] else []) | _ => Raise AttributeError end
  | None => Ok []
  end.
Definition mounted_at (spec : val) (parent : string) (secrets : list (val * val)) : result (list val) :=
  cs <- get_list spec "containers" ;; flatM (λ c, ms <- get_list c "volumeMounts" ;; flatM (mount_at parent secrets) ms) cs.
Definition judge_volume (docs : list val) (path parent filename : string) (vol : val) : result (list string) :=
  s <- item vol "secret" ;; got <- get s "secretName" ;;
  if negb (py_eq got (VStr SECRET))
  then Ok [cat ["the volume at "; parent; " is the Secret "; py_repr got; ", want "; repr_str SECRET]] else
  keys <- secret_keys docs SECRET ;; ok <- projected vol filename filename keys ;;
  if (ok : bool) then Ok [] else
  ks <- py_sorted (distinct (List.filter truthy keys)) ;;
  Ok [cat ["the Secret "; repr_str SECRET; " puts no key "; repr_str filename; " at "; path; ": the ExternalSecret writes "; py_repr (VList ks)]].
Definition judge_path (docs : list val) (spec : val) (secrets : list (val * val)) (path : string) : result (list string) :=
  let parent := dirname path in
  mounted <- mounted_at spec parent secrets ;;
  if negb (nonempty mounted) then Ok [cat ["the login pod reads "; path; ", and no Secret volume is mounted at "; parent]] else
  flatM (judge_volume docs path parent (basename path)) mounted.
Definition findings (docs : list val) : result (list string) :=
  dep <- login_deployment docs ;;
  match dep with
  | None => Ok ["the render holds no zitadel-login Deployment: this guard is blind"]
  | Some dep =>
      s <- item dep "spec" ;; t <- item s "template" ;; spec <- item t "spec" ;; vs <- get_list spec "volumes" ;;
      secrets <- volumes_with "secret" Ok vs ;; cms <- volumes_with "configMap" config_map_name vs ;;
      files <- flatM (token_files cms) docs ;;
      if negb (nonempty files) then Ok ["the login dotenv ConfigMap names no ZITADEL_SERVICE_USER_TOKEN_FILE: this guard is blind"] else
      flatM (judge_path docs spec secrets) files
  end.

Definition render_cmd (values : list string) : list string :=
  ["helm"; "template"; "gibson"; "helm/gibson"; "--namespace"; "gibson"; "-f"; "helm/testdata/render-inputs/gibson.yaml"] ++
  concat (map (λ v, ["-f"; "helm/gibson/" +:+ v]) values).
Definition main (helm : list string → result (list val)) : result Z :=
  bad <- flatM (λ p, docs <- helm (render_cmd p) ;; fs <- findings docs ;; Ok (map (λ b, cat [str_join "+" p; ": "; b]) fs)) PROFILES ;;
  Ok (if nonempty bad then 1%Z else 0%Z).

(** ** The self-test *)

Definition es_fixture (data : list (string * string)) : val :=
  VDict [("kind", VStr "ExternalSecret"); ("metadata", str_dict [("name", "login-client")]);
         ("spec", VDict [("data", VList [VDict [("secretKey", VStr "pat");
                            ("remoteRef", str_dict [("key", "gibson-zitadel-login-client-pat"); ("property", "pat")])]]);
                         ("target", VDict [("name", VStr "login-client"); ("template", VDict [("data", str_dict data)])])])].
Definition dotenv : val :=
  VDict [("kind", VStr "ConfigMap"); ("metadata", str_dict [("name", "login-dotenv")]);
         ("data", str_dict [(".env", unquoted "ZITADEL_SERVICE_USER_TOKEN_FILE=`/login-client/pat`")])].
Definition env_mount : val := str_dict [("name", "env"); ("mountPath", "/.env-file/")].
Definition pat_mount (path : string) : val := str_dict [("name", "login-client"); ("mountPath", path)].
Definition env_volume : val := VDict [("name", VStr "env"); ("configMap", str_dict [("name", "login-dotenv")])].
Definition pat_volume (secret : string) (items : list (string * val)) : val :=
  VDict [("name", VStr "login-client"); ("secret", VDict (("secretName", VStr secret) :: items))].
Definition login (mounts volumes : list val) : val :=
  VDict [("kind", VStr "Deployment"); ("metadata", VDict [("name", VStr "login"); ("labels", str_dict [("app.kubernetes.io/name", "zitadel-login")])]);
         ("spec", VDict [("template", VDict [("spec", VDict [("containers", VList [VDict [("name", VStr "login"); ("volumeMounts", VList mounts)]]);
                                                               ("volumes", VList volumes)])])])].
Definition es_pat : val := es_fixture [("pat", "{{ .pat }}")].
Definition items_at (path : string) : list (string * val) := [("items", VList [str_dict [("key", "pat"); ("path", path)]])].
Definition mounts : list val := [env_mount; pat_mount "/login-client"].
Definition FIXTURE : list val := [es_pat; dotenv; login mounts [env_volume; pat_volume "login-client" []]].
Definition cases : list (list val) :=
  [[es_pat; dotenv; login [env_mount] [env_volume]];
   [es_pat; dotenv; login [env_mount; pat_mount "/elsewhere"] [env_volume; pat_volume "login-client" []]];
   [es_pat; dotenv; login mounts [env_volume; VDict [("name", VStr "login-client"); ("configMap", str_dict [("name", "x")])]]];
   [es_pat; dotenv; login mounts [env_volume; pat_volume "iam-admin-pat" []]];
   [es_fixture [("token", "{{ .pat }}")]; dotenv; login mounts [env_volume; pat_volume "login-client" []]];
   [es_pat; dotenv; login mounts [env_volume; pat_volume "login-client" (items_at "token")]];
   [es_pat; dotenv]].
Definition selftest : result Z :=
  a <- findings FIXTURE ;; b <- findings [es_pat; dotenv; login mounts [env_volume; pat_volume "login-client" (items_at "pat")]] ;;
  if nonempty a || nonempty b then Ok 1%Z else
  passed <- anyM (λ docs, fs <- findings docs ;; Ok (negb (nonempty fs))) cases ;; Ok (if passed : bool then 1%Z else 0%Z).
Lemma logintoken_selftest : selftest = Ok 0%Z.
Proof. vm_compute. reflexivity. Qed.

(** ** What a clean run proves *)

(** An ExternalSecret of the render writes a key of the Secret. *)
Definition writes (docs : list val) (name : string) (key : val) : Prop :=
  ∃ d target, d ∈ docs ∧ fld d "kind" = VStr "ExternalSecret" ∧ target = dict_fld (dict_fld d "spec") "target" ∧
    (fld target "name" = VStr name ∨ truthy (fld target "name") = false ∧ fld (fld d "metadata") "name" = VStr name) ∧
    let data := fld (dict_fld target "template") "data" in
    (∃ l, truthy data = true ∧ py_iter data = Ok l ∧ key ∈ l) ∨
    (∃ l x, truthy data = false ∧ py_iter (por (fld (fld d "spec") "data") (VList [])) = Ok l ∧ x ∈ l ∧ fld x "secretKey" = key).
(** A volume of the Secret puts a key at a file name. *)
Definition puts (v : val) (filename : string) : Prop :=
  let items := fld (fld v "secret") "items" in
  truthy items = true → ∃ l i, py_iter items = Ok l ∧ i ∈ l ∧ fld i "key" = VStr filename ∧ fld i "path" = VStr filename.
(** The pod mounts the token file: a container mounts a Secret volume at its
    directory, the Secret is the one of the login client, and its key of that
    name is written and put there. *)
Definition mounts_token (docs : list val) (spec : val) (path : string) : Prop :=
  ∃ v m, fld (fld v "secret") "secretName" = VStr SECRET ∧ puts v (basename path) ∧ writes docs SECRET (VStr (basename path)) ∧
    (∃ vs, py_iter (por (fld spec "volumes") (VList [])) = Ok vs ∧ v ∈ vs) ∧ py_eq (fld v "name") (fld m "name") = true ∧
    (∃ cs c ms, py_iter (por (fld spec "containers") (VList [])) = Ok cs ∧ c ∈ cs ∧
       py_iter (por (fld c "volumeMounts") (VList [])) = Ok ms ∧ m ∈ ms) ∧
    ∃ p, get_default m "mountPath" (VStr "") = Ok (VStr p) ∧ rstrip_char "/" p = dirname path.

Lemma secret_keys_written docs name keys k : secret_keys docs name = Ok keys → k ∈ keys → writes docs name k.
Proof.
  unfold secret_keys. intros (o & Ho & <-)%rmap_Ok Hk. destruct o as [ks|]; [|by apply elem_of_nil in Hk]. cbn in Hk.
  apply firstM_Some in Ho as (d & Hd & H). unfold external_keys in H. apply bind_Ok in H as (kd & ->%get_Ok & H).
  destruct (py_eq (fld d "kind") _) eqn:Ek; [|done]. apply py_eq_str_r in Ek. cbn [negb] in H.
  apply bind_Ok in H as (s & ->%get_dict_is & H). apply bind_Ok in H as (target & ->%get_dict_is & H). apply bind_Ok in H as (n & ->%get_Ok & H).
  apply bind_Ok in H as (n & Hn & H). destruct (py_eq n _) eqn:En; [|done]. apply py_eq_str_r in En as ->. cbn [negb] in H.
  exists d, (dict_fld (dict_fld d "spec") "target"). split_and!; [done..| |].
  - destruct (truthy (fld _ "name")) eqn:Et; [left; by injection Hn as ->|right; split; [done|]]. symmetry. by apply meta_name_fld.
  - apply bind_Ok in H as (t & ->%get_dict_is & H). apply bind_Ok in H as (data & ->%get_Ok & H).
    destruct (truthy (fld (dict_fld _ "template") "data")) eqn:Et.
    + left. apply bind_Ok in H as (l & Hl & H). apply rmap_Ok in H as (k' & ->%set_of_Ok & [= <-]). by exists l.
    + right. apply bind_Ok in H as (sp & ->%item_fld & H). apply bind_Ok in H as (l & Hl%get_list_is & H). apply bind_Ok in H as (k' & Hm & H).
      apply rmap_Ok in H as (k2 & ->%set_of_Ok & [= ->]). destruct (mapR_elem _ _ _ _ Hm Hk) as (x & Hx & ->%get_Ok). by exists l, x.
Qed.
Lemma projected_puts v f keys : projected v f f keys = Ok true → puts v f ∧ VStr f ∈ keys.
Proof.
  unfold projected, puts. intros (s & ->%item_fld & H)%bind_Ok. apply bind_Ok in H as (items & ->%get_Ok & H). destruct (truthy _) eqn:Et.
  - apply bind_Ok in H as (l & Hl & H). apply bind_Ok in H as (hit & Hh & [= [-> Hk]%andb_true_iff]). split; [|by apply existsb_py_eq_str].
    intros _. apply anyM_true in Hh as (i & Hi & Hh). apply andR_true in Hh as [H1 H2]. apply bind_Ok in H1 as (a & ->%get_Ok & [= H1]).
    apply bind_Ok in H2 as (b & ->%get_Ok & [= H2]). apply py_eq_str_r in H1, H2. by exists l, i.
  - injection H as H. split; [done|by apply existsb_py_eq_str].
Qed.
Lemma volumes_with_elem field f vs l n x : volumes_with field f vs = Ok l → vdict_get n l = Some x →
  ∃ v, v ∈ vs ∧ py_eq (fld v "name") n = true ∧ f v = Ok x.
Proof.
  intros H Hg. apply vdict_get_elem in Hg as (k & Hin & Hk). apply (flatM_elem _ _ _ H) in Hin as (v & r & Hv & Hr & Hin).
  apply bind_Ok in Hr as (b & _ & Hr). destruct b; [|injection Hr as <-; by apply elem_of_nil in Hin].
  apply bind_Ok in Hr as (m & ->%item_fld & Hr). apply bind_Ok in Hr as (y & Hy & Hr). unfold vdict_item in Hr. destruct (hashable _); [|done].
  injection Hr as <-. apply list_elem_of_singleton in Hin as [= -> ->]. by exists v.
Qed.

Lemma token_path_clean docs spec vs secrets path :
  get_list spec "volumes" = Ok vs → volumes_with "secret" Ok vs = Ok secrets → judge_path docs spec secrets path = Ok [] → mounts_token docs spec path.
Proof.
  intros Hvs Hsec H. unfold judge_path in H. apply bind_Ok in H as (mounted & Hm & H). destruct mounted as [|v mounted]; [done|]. cbn [nonempty negb] in H.
  assert (v ∈ v :: mounted) as Hv by left. pose proof (proj1 (flatM_nil _ _) H v Hv) as Hj. clear H.
  unfold judge_volume in Hj. apply bind_Ok in Hj as (s & ->%item_fld & Hj). apply bind_Ok in Hj as (got & ->%get_Ok & Hj).
  destruct (py_eq (fld (fld v "secret") "secretName") _) eqn:Es; [|done]. apply py_eq_str_r in Es. cbn [negb] in Hj.
  apply bind_Ok in Hj as (keys & Hk & Hj). apply bind_Ok in Hj as (ok & Hp & Hj). destruct ok.
  2: { apply bind_Ok in Hj as (ks & _ & Hj). done. }
  apply projected_puts in Hp as [Hputs Hkey]. unfold mounted_at in Hm. apply bind_Ok in Hm as (cs & Hcs%get_list_is & Hm).
  apply (flatM_elem _ _ _ Hm) in Hv as (c & l & Hc & Hl & Hv). apply bind_Ok in Hl as (ms & Hms%get_list_is & Hl).
  apply (flatM_elem _ _ _ Hl) in Hv as (m & l' & Hmin & Hl' & Hv). unfold mount_at in Hl'. apply bind_Ok in Hl' as (n & ->%get_Ok & Hl').
  destruct (negb _); [done|]. destruct (vdict_get _ secrets) as [w|] eqn:Eg; [|injection Hl' as <-; by apply elem_of_nil in Hv].
  apply bind_Ok in Hl' as (p & Hpath & Hl'). destruct p as [| | |p| |]; try done. injection Hl' as <-.
  destruct (str_eqb _ _) eqn:Ed; [|by apply elem_of_nil in Hv]. apply list_elem_of_singleton in Hv as ->. apply str_eqb_eq in Ed.
  destruct (volumes_with_elem _ _ _ _ _ _ Hsec Eg) as (x & Hx & Hn & [= ->]).
  exists w, m. split_and!; [done|done|by apply (secret_keys_written _ _ keys)| |done|by exists cs, c, ms|].
  - exists vs. split; [by apply get_list_is|done].
  - by exists p.
Qed.

(** When main of check-login-token-mounted.py exits 0, the render of each
    profile has a login Deployment, the config maps of its pod name a token
    file, and for each one they name a container mounts a volume of the Secret
    login-client at its directory, which puts a key of that file name there
    that an ExternalSecret of the render writes. *)
Theorem clean_login_mounts_its_token helm p docs :
  main helm = Ok 0%Z → p ∈ PROFILES → helm (render_cmd p) = Ok docs →
  ∃ dep, dep ∈ docs ∧ fld dep "kind" = VStr "Deployment" ∧
    fld (dict_fld (dict_fld dep "metadata") "labels") "app.kubernetes.io/name" = VStr "zitadel-login" ∧
    let spec := fld (fld (fld dep "spec") "template") "spec" in
    ∃ vs cms files, get_list spec "volumes" = Ok vs ∧ volumes_with "configMap" config_map_name vs = Ok cms ∧ flatM (token_files cms) docs = Ok files ∧
      files ≠ [] ∧ ∀ path, path ∈ files → mounts_token docs spec path.
Proof.
  unfold main. intros (bad & Hb & H)%bind_Ok Hp Hd. destruct bad; [clear H|done]. apply (proj1 (flatM_nil _ _) Hb) in Hp.
  rewrite Hd in Hp. cbn [rbind] in Hp. apply bind_Ok in Hp as (fs & Hf & Hp%Ok_inj). apply map_eq_nil in Hp as ->. unfold findings in Hf.
  apply bind_Ok in Hf as (o & Ho & Hf). destruct o as [dep|]; [|done]. unfold login_deployment in Ho. apply firstM_Some in Ho as (d & Hin & Ho).
  apply bind_Ok in Ho as (b & Hb' & Ho). destruct b; [|done]. injection Ho as ->. unfold is_login in Hb'. apply bind_Ok in Hb' as (k & ->%get_Ok & Hb').
  destruct (py_eq (fld dep "kind") _) eqn:Ek; [|done]. apply py_eq_str_r in Ek. cbn [negb] in Hb'. apply bind_Ok in Hb' as (m & ->%get_dict_is & Hb').
  apply bind_Ok in Hb' as (l & ->%get_dict_is & Hb'). apply bind_Ok in Hb' as (n & ->%get_Ok & [= Hn]). apply py_eq_str_r in Hn.
  exists dep. split_and!; [done..|]. apply bind_Ok in Hf as (s & ->%item_fld & Hf). apply bind_Ok in Hf as (t & ->%item_fld & Hf).
  apply bind_Ok in Hf as (spec & ->%item_fld & Hf). apply bind_Ok in Hf as (vs & Hvs & Hf). apply bind_Ok in Hf as (secrets & Hsec & Hf).
  apply bind_Ok in Hf as (cms & Hcms & Hf). apply bind_Ok in Hf as (files & Hfiles & Hf). exists vs, cms, files. split_and!; [done..| |].
  - by destruct files.
  - intros path Hpath. destruct files as [|f files]; [done|]. cbn [nonempty negb] in Hf. apply (token_path_clean _ _ vs secrets); [done..|].
    by apply (proj1 (flatM_nil _ _) Hf).
Qed.
Lemma clean_login_mounts_its_token_witness :
  main (λ _, Ok FIXTURE) = Ok 0%Z ∧
  mounts_token FIXTURE (fld (fld (fld (login mounts [env_volume; pat_volume "login-client" []]) "spec") "template") "spec") "/login-client/pat".
Proof.
  assert (main (λ _, Ok FIXTURE) = Ok 0%Z) as H by (vm_compute; reflexivity). split; [exact H|].
  destruct (clean_login_mounts_its_token _ ["values-baseline.yaml"] FIXTURE H) as (dep & Hin & Hk & Hl & vs & cms & files & Hvs & Hcms & Hfiles & _ & Hall); [left|reflexivity|].
  apply elem_of_cons in Hin as [->|Hin]; [vm_compute in Hk; discriminate Hk|]. apply elem_of_cons in Hin as [->|Hin]; [vm_compute in Hk; discriminate Hk|].
  apply list_elem_of_singleton in Hin as ->. apply Hall.
  assert (flatM (token_files cms) FIXTURE = Ok ["/login-client/pat"]) as E.
  { vm_compute in Hvs. injection Hvs as <-. vm_compute in Hcms. injection Hcms as <-. vm_compute. reflexivity. }
  rewrite E in Hfiles. injection Hfiles as <-. left.
Defined.
