(* ===== verification/InstanceHeaders.v ===== *)
(** * scripts/check-edge-strips-instance-headers.py: the edge removes the instance headers

    Every inline route config of the Envoy edge removes the headers by which a
    client could select a Zitadel instance. The YAML parser is an argument. *)
From S2P Require Import Prelude PyStr PyVal EdgeRoutes.

Definition REQUIRED : list string := ["x-zitadel-instance-host"; "x-zitadel-public-host"; "x-forwarded-host"; "forwarded"].

Section guard.
Context (yaml_load : string → result val).

Definition config_of (d value : val) : result (list (val * val)) :=
  name <- meta_name d ;; a <- str_in "static_resources" value ;; b <- (if (a : bool) then str_in "http_connection_manager" value else Ok false) ;;
  if negb b then Ok [] else
  cfg <- (match value with VStr text => yaml_load text | _ => Raise AttributeError end) ;;
  ls <- listeners_of cfg ;; edge <- anyM (λ l, n <- get l "name" ;; Ok (py_eq n (VStr "edge_tls"))) ls ;;
  Ok (if (edge : bool) then [(name, cfg)] else []).
Definition envoy_configs (docs : list val) : result (list (val * val)) :=
  flatM (λ d, k <- get d "kind" ;;
              if negb (py_eq k (VStr "ConfigMap")) then Ok [] else
              _ <- meta_name d ;; data <- get_dict d "data" ;; kvs <- items data ;; flatM (λ kv, config_of d kv.2) kvs) docs.

(** The inline route configs, each with the name of its listener *)
Definition list_of (v : val) (k : string) : result (list val) := l <- get_default v k (VList []) ;; py_iter l.
Definition filter_config (f : val) : result (list val) :=
  t <- get_dict f "typed_config" ;; rc <- get t "route_config" ;; Ok (if is_none rc then [] else [rc]).
Definition listener_configs (l : val) : result (list (val * val)) :=
  chains <- list_of l "filter_chains" ;;
  flatM (λ c, fs <- list_of c "filters" ;;
    flatM (λ f, rcs <- filter_config f ;; mapR (λ rc, n <- get_default l "name" (VStr "?") ;; Ok (n, rc)) rcs) fs) chains.
Definition route_configs (cfg : val) : result (list (val * val)) := ls <- listeners_of cfg ;; flatM listener_configs ls.

Definition removed_headers (rc : val) : result (list string) :=
  l <- get_list rc "request_headers_to_remove" ;; mapR (λ h, match h with VStr h => Ok (lower h) | _ => Raise AttributeError end) l.
Definition judge_config (cm : val) (lr : val * val) : result (list string) :=
  removed <- removed_headers lr.2 ;;
  let missing := List.filter (λ h, negb (str_mem h removed)) REQUIRED in
  if negb (nonempty missing) then Ok [] else
  n <- get lr.2 "name" ;;
  Ok [cat [py_str cm; ": listener "; py_str lr.1; ", route config "; py_repr n; " forwards "; str_of_strs missing]].
Definition judge_edge (c : val * val) : result (list string) :=
  rcs <- route_configs c.2 ;; bad <- flatM (judge_config c.1) rcs ;;
  Ok (bad ++ if nonempty rcs then [] else [py_str c.1 +:+ ": no inline route config found: this guard is blind"]).
Definition audit (docs : list val) : result (list string) :=
  configs <- envoy_configs docs ;;
  if negb (nonempty configs) then Ok ["no Envoy edge config (a listener named edge_tls) in the render: this guard is blind"]
  else flatM judge_edge configs.
Definition main (docs : list val) : result Z := bad <- audit docs ;; Ok (if nonempty bad then 1%Z else 0%Z).
End guard.

(** ** The self-test *)

Definition edge_config (remove : option (list string)) : val :=
  let rc := VDict ([("name", VStr "public_routes");
                    ("virtual_hosts", VList [VDict [("name", VStr "app"); ("domains", strs ["*"]); ("routes", VList [])]])] ++
                   match remove with Some l => [("request_headers_to_remove", strs l)] | None => [] end) in
  VDict [("static_resources", VDict [("listeners", VList [VDict [("name", VStr "edge_tls");
    ("filter_chains", VList [VDict [("filters", VList [VDict [("name", VStr "envoy.filters.network.http_connection_manager");
                                                              ("typed_config", VDict [("route_config", rc)])]])]])]])])].
(** The text of the config map is what the parser reads as the config. *)
Definition _fixture : list val :=
  [VDict [("kind", VStr "ConfigMap"); ("metadata", str_dict [("name", "gibson-envoy")]);
          ("data", str_dict [("envoy.yaml", "# http_connection_manager" +:+ newline +:+ "static_resources: {}")])]].
Definition findings (remove : option (list string)) : result bool := rmap nonempty (audit (λ _, Ok (edge_config remove)) _fixture).
(** [h.upper()], of the names of the headers *)
Definition upper_char (c : Ascii.ascii) : Ascii.ascii :=
  let n := Ascii.nat_of_ascii c in if (97 <=? n) && (n <=? 122) then Ascii.ascii_of_nat (n - 32) else c.
Fixpoint upper (s : string) : string := match s with "" => "" | String c s => String (upper_char c) (upper s) end.
Definition selftest : result Z :=
  a <- findings None ;; b <- findings (Some ["x-zitadel-instance-host"; "x-forwarded-host"]) ;; c <- findings (Some (map upper REQUIRED)) ;;
  d <- rmap nonempty (audit (λ _, Ok VNone) []) ;;
  Ok (if (a : bool) && (b : bool) && negb c && (d : bool) then 0%Z else 1%Z).
Lemma instanceheaders_selftest : selftest = Ok 0%Z.
Proof. vm_compute. reflexivity. Qed.

(** ** What a clean run proves *)

(** The elements of a list under a key, when it is there *)
Definition under (v : val) (k : string) (x : val) : Prop := ∃ l, list_of v k = Ok l ∧ x ∈ l.
(** A route config of a filter of a listener of the config *)
Definition inline (cfg rc : val) : Prop :=
  ∃ ls listener chain f, listeners_of cfg = Ok ls ∧ listener ∈ ls ∧ under listener "filter_chains" chain ∧ under chain "filters" f ∧
    rc = fld (dict_fld f "typed_config") "route_config" ∧ rc ≠ VNone.
(** The config maps of the edge, parsed *)
Definition edge_map (yaml_load : string → result val) (docs : list val) (cfg : val) : Prop :=
  ∃ configs n, envoy_configs yaml_load docs = Ok configs ∧ (n, cfg) ∈ configs.

Lemma route_configs_inline cfg l rc : route_configs cfg = Ok l → inline cfg rc → ∃ n, (n, rc) ∈ l.
Proof.
  unfold route_configs. intros H (ls & li & ch & f & Hls & Hli & (cs & Hcs & Hch) & (fs & Hfs & Hf) & -> & Hne).
  rewrite Hls in H. cbn [rbind] in H. destruct (flatM_Ok_elem _ _ _ _ H Hli) as (a & Ha). pose proof Ha as Ha'.
  unfold listener_configs in Ha. rewrite Hcs in Ha. cbn [rbind] in Ha. destruct (flatM_Ok_elem _ _ _ _ Ha Hch) as (b & Hb). pose proof Hb as Hb'.
  rewrite Hfs in Hb. cbn [rbind] in Hb. destruct (flatM_Ok_elem _ _ _ _ Hb Hf) as (c & Hc). pose proof Hc as Hc'.
  unfold filter_config in Hc. apply bind_Ok in Hc as (rcs & Hrcs & Hc). apply bind_Ok in Hrcs as (t & ->%get_dict_is & Hrcs).
  apply bind_Ok in Hrcs as (rc & ->%get_Ok & Hrcs%Ok_inj). destruct (is_none _) eqn:En; [by destruct (fld _ "route_config")|]. subst rcs.
  cbn [mapR] in Hc. apply bind_Ok in Hc as (y & Hy & Hc). apply bind_Ok in Hy as (n & _ & [= <-]). cbn in Hc. injection Hc as <-.
  exists n. apply (flatM_elem _ _ _ H). exists li, a. split_and!; [done..|]. apply (flatM_elem _ _ _ Ha). exists ch, b. split_and!; [done..|].
  apply (flatM_elem _ _ _ Hb). eexists f, _. split_and!; [done..|]. left.
Qed.

(** When main of check-edge-strips-instance-headers.py exits 0, the render
    has an edge config, and in each one every inline route config of a listener
    removes the four headers that select a Zitadel instance, in any case, and
    there is such a route config. *)
Theorem clean_edge_strips_instance_headers yaml_load docs :
  main yaml_load docs = Ok 0%Z →
  (∃ cfg, edge_map yaml_load docs cfg) ∧
  ∀ cfg, edge_map yaml_load docs cfg →
    (∃ l x, route_configs cfg = Ok l ∧ x ∈ l) ∧
    ∀ rc h, inline cfg rc → h ∈ REQUIRED →
      ∃ l x, py_iter (por (fld rc "request_headers_to_remove") (VList [])) = Ok l ∧ VStr x ∈ l ∧ lower x = h.
Proof.
  unfold main, audit. intros (bad & Hb & H)%bind_Ok. destruct bad; [clear H|done]. apply bind_Ok in Hb as (configs & Hc & Hb).
  destruct configs as [|[n0 c0] rest] eqn:Ec; [done|]. cbn [nonempty negb] in Hb. rewrite <- Ec in *. split.
  { exists c0, configs, n0. split; [done|]. rewrite Ec. left. }
  intros cfg (configs' & n & Hc' & Hin). rewrite Hc in Hc'. apply Ok_inj in Hc'. subst configs'.
  pose proof (proj1 (flatM_nil _ _) Hb _ Hin) as Hj. unfold judge_edge in Hj. apply bind_Ok in Hj as (rcs & Hrcs & Hj).
  apply bind_Ok in Hj as (out & Hout & Hj%Ok_inj). apply app_eq_nil in Hj as [-> Hne]. cbn [fst snd] in *. split.
  { destruct rcs as [|x rcs]; [done|]. exists (x :: rcs), x. split; [done|left]. }
  intros rc h Hrc Hh. destruct (route_configs_inline _ _ _ Hrcs Hrc) as (ln & Hrc').
  pose proof (proj1 (flatM_nil _ _) Hout _ Hrc') as Hj. unfold judge_config in Hj. apply bind_Ok in Hj as (removed & Hr & Hj).
  destruct (List.filter _ REQUIRED) as [|z zs] eqn:Ef; cbn [nonempty negb] in Hj.
  2: { apply bind_Ok in Hj as (nm & _ & [=]). }
  pose proof (filter_nil_elem _ _ _ Ef Hh) as Hm. apply negb_false_iff, str_mem_elem in Hm.
  unfold removed_headers in Hr. apply bind_Ok in Hr as (l & Hl & Hr). apply get_list_is in Hl. exists l.
  destruct (mapR_elem _ _ _ _ Hr Hm) as (v & Hv & Hlow). destruct v; try discriminate. apply Ok_inj in Hlow. eauto.
Qed.

Lemma clean_edge_strips_instance_headers_witness :
  let load := λ _, Ok (edge_config (Some (map upper REQUIRED))) in
  main load _fixture = Ok 0%Z ∧ ∃ cfg, edge_map load _fixture cfg.
Proof.
  cbv zeta. split; [vm_compute; reflexivity|]. apply clean_edge_strips_instance_headers. vm_compute. reflexivity.
Defined.
