(* ===== verification/ReloaderNames.v ===== *)
(** * scripts/check-reloader-names.py: each name of a Reloader annotation exists

    The names of the annotations of a workload and of its pod template, against
    the objects of the render and the producers of the secret contract. *)
From S2P Require Import Prelude PyStr PyVal.

Definition BASELINE : string := "helm/gibson/values-baseline.yaml".
Definition KEYS : list (string * string) :=
  [("secret.reloader.stakater.com/reload", "Secret"); ("configmap.reloader.stakater.com/reload", "ConfigMap")].
Definition helm_cmd (extra : list string) : list string :=
  ["helm"; "template"; "gibson"; "helm/gibson"; "-f"; BASELINE; "-f"; "helm/testdata/render-inputs/gibson.yaml"; "--namespace"; "gibson"] ++ extra.

(** The objects by kind and name *)
Definition names : Type := list (string * val).
Definition carried (d : val) : result names :=
  kind <- get d "kind" ;; m <- get_dict d "metadata" ;; name <- get m "name" ;;
  if negb (hashable kind) then Raise TypeError else
  let add k n := if hashable n then Ok [(k, n)] else Raise TypeError in
  if py_eq kind (VStr "Secret") then add "Secret" name
  else if py_eq kind (VStr "ConfigMap") then add "ConfigMap" name
  else if py_eq kind (VStr "ExternalSecret") then s <- get_dict d "spec" ;; t <- get_dict s "target" ;; n <- get t "name" ;; add "Secret" (por n name)
  else if py_eq kind (VStr "Certificate") then s <- get_dict d "spec" ;; n <- get s "secretName" ;; add "Secret" n
  else Ok [].
Definition rendered (docs : list val) : result names := flatM carried docs.
Definition has (l : names) (kind name : string) : bool := existsb (λ e, str_eqb e.1 kind && py_eq (VStr name) e.2) l.

(** The names that the annotations of an object give for a key *)
Definition listed (ann : val) (key : string) : result (list string) :=
  v <- get_default ann key (VStr "") ;; Ok (List.filter (λ n, negb (str_eqb n "")) (map strip (str_split (py_str v) ","))).
Definition message (whr kind n : string) : string :=
  cat [whr; ": the Reloader annotation names "; kind; " "; n; ", and no rendered object and no runtime producer has that name"].
Definition judge_key (have runtime : names) (whr : string) (ann : val) (e : string * string) : result (list string * nat) :=
  ns <- listed ann e.1 ;;
  Ok (map (message whr e.2) (List.filter (λ n, negb (has have e.2 n || has runtime e.2 n)) ns), length ns).
Definition annotations (d : val) : result (list val) :=
  meta <- get_dict d "metadata" ;; s <- get_dict d "spec" ;; t <- get_dict s "template" ;; pod <- get_dict t "metadata" ;;
  a <- get_dict meta "annotations" ;; b <- get_dict pod "annotations" ;; Ok [a; b].
Definition judge_doc (have runtime : names) (d : val) : result (list (list string * nat)) :=
  anns <- annotations d ;; k <- get d "kind" ;; m <- get_dict d "metadata" ;; n <- get m "name" ;;
  flatM (λ ann, mapR (judge_key have runtime (cat [py_str k; "/"; py_str n]) ann) KEYS) anns.
(** The findings, and how many names were read *)
Definition judge (docs : list val) (runtime : names) : result (list string * nat) :=
  have <- rendered docs ;; rs <- flatM (judge_doc have runtime) docs ;; Ok (sorted_set (concat rs.*1), sum_list rs.*2).

(** [contract]: the parsed secret contract *)
Definition producers (contract : val) (key kind : string) : result names :=
  p <- get_dict contract key ;; l <- py_iter p ;; s <- set_of l ;; Ok (map (pair kind) s).
Definition runtime_producers (contract : val) : result names :=
  let data := por contract (VDict []) in
  a <- producers data "producers" "Secret" ;; b <- producers data "configMapProducers" "ConfigMap" ;; Ok (a ++ b).

Definition renders (profiles : list string) : list (string * list string) := (BASELINE, []) :: map (λ p, (p, ["-f"; p])) profiles.
Definition helm_template (helm : list string → result (list val)) (extra : list string) : result (list val) :=
  docs <- helm (helm_cmd extra) ;; Ok (List.filter truthy docs).
Definition judge_render (helm : list string → result (list val)) (runtime : names) (r : string * list string) : result (list string) :=
  docs <- helm_template helm r.2 ;; found <- judge docs runtime ;;
  Ok ((if (found.2 =? 0)%nat then [r.1 +:+ ": the render holds no Reloader annotation, so this check read nothing"] else []) ++
      map (λ f, cat [r.1; ": "; f]) found.1).
(** [profiles]: the shipped values files beside the baseline *)
Definition main (contract : val) (profiles : list string) (helm : list string → result (list val)) : result Z :=
  runtime <- runtime_producers contract ;; problems <- flatM (judge_render helm runtime) (renders profiles) ;;
  Ok (if nonempty problems then 1%Z else 0%Z).

(** ** The self-test *)

Definition workload (key names : string) : val :=
  VDict [("kind", VStr "Deployment"); ("metadata", str_dict [("name", "w")]);
         ("spec", VDict [("template", VDict [("metadata", VDict [("annotations", str_dict [(key, names)])])])])].
Definition secret_key : string := "secret.reloader.stakater.com/reload".
Definition config_map_key : string := "configmap.reloader.stakater.com/reload".
Definition objs : list val :=
  [VDict [("kind", VStr "Secret"); ("metadata", str_dict [("name", "gibson-gibson-workloads-db-secrets")])];
   VDict [("kind", VStr "ExternalSecret"); ("metadata", str_dict [("name", "es")]); ("spec", VDict [("target", str_dict [("name", "from-es")])])];
   VDict [("kind", VStr "ConfigMap"); ("metadata", str_dict [("name", "cm")])]].
Definition runtime : names := [("Secret", VStr "minted-at-runtime"); ("ConfigMap", VStr "written-by-a-job")].
Definition good : list val :=
  objs ++ [workload secret_key "gibson-gibson-workloads-db-secrets,from-es,minted-at-runtime"; workload config_map_key "cm,written-by-a-job"].
Definition cases : list val := [workload secret_key "gibson-workloads-db-secrets"; workload secret_key "cm"; workload config_map_key "gone"].
Definition selftest : result Z :=
  r <- judge good runtime ;;
  if nonempty r.1 || negb (r.2 =? 5) then Ok 1%Z else
  failed <- anyM (λ w, r <- judge (objs ++ [w]) runtime ;; Ok (negb (length r.1 =? 1))) cases ;; Ok (if failed : bool then 1%Z else 0%Z).
Lemma reloadernames_selftest : selftest = Ok 0%Z.
Proof. vm_compute. reflexivity. Qed.

(** ** What a clean run proves *)

(** A document carries the object of a kind and a name. *)
Inductive carries (d : val) : string → val → Prop :=
  | carries_kind kind : kind ∈ ["Secret"; "ConfigMap"] → fld d "kind" = VStr kind → carries d kind (fld (dict_fld d "metadata") "name")
  | carries_target : fld d "kind" = VStr "ExternalSecret" →
      carries d "Secret" (por (fld (dict_fld (dict_fld d "spec") "target") "name") (fld (dict_fld d "metadata") "name"))
  | carries_certificate : fld d "kind" = VStr "Certificate" → carries d "Secret" (fld (dict_fld d "spec") "secretName").
(** A producer of the contract writes the object when the platform runs. *)
Definition produced (contract : val) (kind name : string) : Prop :=
  ∃ key l, (key, kind) ∈ [("producers", "Secret"); ("configMapProducers", "ConfigMap")] ∧
    py_iter (dict_fld (por contract (VDict [])) key) = Ok l ∧ VStr name ∈ l.
(** The annotations of an object, or of its pod template *)
Definition annotated (d ann : val) : Prop :=
  ann = dict_fld (dict_fld d "metadata") "annotations" ∨
  ann = dict_fld (dict_fld (dict_fld (dict_fld d "spec") "template") "metadata") "annotations".
(** A name in the comma list of an annotation *)
Definition names_of (ann : val) (key name : string) : Prop :=
  ∃ v part, get_default ann key (VStr "") = Ok v ∧ part ∈ str_split (py_str v) "," ∧ name = strip part ∧ name ≠ "".

Lemma carried_carries d l k n : carried d = Ok l → (k, n) ∈ l → carries d k n.
Proof.
  unfold carried. intros (kd & ->%get_Ok & H)%bind_Ok Hin. apply bind_Ok in H as (m & ->%get_dict_is & H). apply bind_Ok in H as (name & ->%get_Ok & H).
  destruct (negb _); [done|]. cbv zeta in H.
  destruct (py_eq _ (VStr "Secret")) eqn:E1; [|destruct (py_eq _ (VStr "ConfigMap")) eqn:E2; [|destruct (py_eq _ (VStr "ExternalSecret")) eqn:E3;
    [|destruct (py_eq _ (VStr "Certificate")) eqn:E4; [|injection H as <-; by apply elem_of_nil in Hin]]]].
  - destruct (hashable _); [|done]. injection H as <-. apply list_elem_of_singleton in Hin as [= -> ->]. apply py_eq_str_r in E1. constructor; [left|done].
  - destruct (hashable _); [|done]. injection H as <-. apply list_elem_of_singleton in Hin as [= -> ->]. apply py_eq_str_r in E2. constructor; [right; left|done].
  - apply bind_Ok in H as (s & ->%get_dict_is & H). apply bind_Ok in H as (t & ->%get_dict_is & H). apply bind_Ok in H as (x & ->%get_Ok & H).
    destruct (hashable _); [|done]. injection H as <-. apply list_elem_of_singleton in Hin as [= -> ->]. apply py_eq_str_r in E3. by constructor.
  - apply bind_Ok in H as (s & ->%get_dict_is & H). apply bind_Ok in H as (x & ->%get_Ok & H).
    destruct (hashable _); [|done]. injection H as <-. apply list_elem_of_singleton in Hin as [= -> ->]. apply py_eq_str_r in E4. by constructor.
Qed.
Lemma has_elem l kind name : has l kind name = true → (kind, VStr name) ∈ l.
Proof.
  unfold has. intros ([k v] & Hin & [Hk Hv]%andb_true_iff)%existsb_elem_of. cbn [fst snd] in *. apply str_eqb_eq in Hk as ->.
  by apply py_eq_str in Hv as ->.
Qed.
Lemma producers_elem data key kind l k n : producers data key kind = Ok l → (k, n) ∈ l → k = kind ∧ ∃ s, py_iter (dict_fld data key) = Ok s ∧ n ∈ s.
Proof.
  unfold producers. intros (p & ->%get_dict_is & H)%bind_Ok Hin. apply bind_Ok in H as (s & Hs & H). apply bind_Ok in H as (s' & ->%set_of_Ok & [= <-]).
  apply list_elem_of_fmap in Hin as (x & [= -> ->] & Hx). split; [done|]. by exists s.
Qed.
Lemma runtime_produced contract l kind name : runtime_producers contract = Ok l → (kind, VStr name) ∈ l → produced contract kind name.
Proof.
  unfold runtime_producers. intros (a & Ha & H)%bind_Ok Hin. apply bind_Ok in H as (b & Hb & [= <-]). apply elem_of_app in Hin as [Hin|Hin].
  - destruct (producers_elem _ _ _ _ _ _ Ha Hin) as (-> & s & Hs & Hn). exists "producers", s. split_and!; [left|done..].
  - destruct (producers_elem _ _ _ _ _ _ Hb Hin) as (-> & s & Hs & Hn). exists "configMapProducers", s. split_and!; [right; left|done..].
Qed.
Lemma annotations_elem d l ann : annotations d = Ok l → annotated d ann ↔ ann ∈ l.
Proof.
  unfold annotations. intros (m & ->%get_dict_is & H)%bind_Ok. apply bind_Ok in H as (s & ->%get_dict_is & H). apply bind_Ok in H as (t & ->%get_dict_is & H).
  apply bind_Ok in H as (p & ->%get_dict_is & H). apply bind_Ok in H as (a & ->%get_dict_is & H). apply bind_Ok in H as (b & ->%get_dict_is & [= <-]).
  unfold annotated. by rewrite elem_of_cons, list_elem_of_singleton.
Qed.
Lemma listed_elem ann key ns name : listed ann key = Ok ns → names_of ann key name ↔ name ∈ ns.
Proof.
  unfold listed, names_of. intros (v & -> & [= <-])%bind_Ok. rewrite list_elem_of_In, filter_In, <- list_elem_of_In, list_elem_of_fmap. split.
  - intros (v' & part & [= <-] & Hp & -> & Hne). split; [by exists part|]. destruct (str_eqb _ "") eqn:E; [by apply str_eqb_eq in E|done].
  - intros [(part & -> & Hp) Hne]. exists v, part. split_and!; [done..|]. intros E. by rewrite E in Hne.
Qed.
Lemma sum_pos l : sum_list l ≠ 0 → ∃ n, n ∈ l ∧ n ≠ 0.
Proof.
  induction l as [|[|n] l IH]; cbn; [done| |intros _; exists (S n); split; [left|done]]. intros (m & Hm & ?)%IH. exists m. split; [by right|done].
Qed.

Lemma judge_known docs runtime seen d ann key kind name :
  judge docs runtime = Ok ([], seen) → d ∈ docs → annotated d ann → (key, kind) ∈ KEYS → names_of ann key name →
  (∃ o, o ∈ docs ∧ carries o kind (VStr name)) ∨ (kind, VStr name) ∈ runtime.
Proof.
  unfold judge. intros (have & Hhave & H)%bind_Ok Hd Hann Hkey Hname. apply bind_Ok in H as (rs & Hrs & H). apply Ok_inj, pair_equal_spec in H as [H _].
  destruct (flatM_Ok_elem _ _ _ _ Hrs Hd) as (r & Hr). pose proof Hr as Hr'. unfold judge_doc in Hr.
  apply bind_Ok in Hr as (anns & Ha & Hr). apply bind_Ok in Hr as (k & _ & Hr). apply bind_Ok in Hr as (m & _ & Hr). apply bind_Ok in Hr as (n & _ & Hr).
  pose proof (proj1 (annotations_elem _ _ _ Ha) Hann) as Hin. destruct (flatM_Ok_elem _ _ _ _ Hr Hin) as (ps & Hps).
  destruct (mapR_elem_2 _ _ _ _ Hps Hkey) as (p & Hp & Hj). unfold judge_key in Hj. apply bind_Ok in Hj as (ns & Hns & [= <-]).
  pose proof (proj1 (listed_elem _ _ _ _ Hns) Hname) as Hnm. cbn [fst snd] in *.
  destruct (has have kind name || has runtime kind name) eqn:E.
  - apply orb_true_iff in E as [E|E]; [left|right; by apply has_elem]. apply has_elem in E. unfold rendered in Hhave.
    apply (flatM_elem _ _ _ Hhave) in E as (o & l & Ho & Hl & E). exists o. split; [done|]. by apply (carried_carries _ l).
  - exfalso. assert (message (cat [py_str k; "/"; py_str n]) kind name ∈ sorted_set (concat rs.*1)) as Hm; [|rewrite H in Hm; by apply elem_of_nil in Hm].
    apply sorted_set_elem, elem_of_concat. eexists. split; [|apply list_elem_of_fmap_2, list_elem_of_In, (filter_In (λ n, negb (has have kind n || has runtime kind n)));
      split; [by apply list_elem_of_In|by rewrite E]].
    apply list_elem_of_fmap. eexists (_, length ns). split; [reflexivity|]. apply (flatM_elem _ _ _ Hrs). exists d, r. split_and!; [done..|].
    apply (flatM_elem _ _ _ Hr). by exists ann, ps.
Qed.

Lemma judge_seen docs runtime out seen :
  judge docs runtime = Ok (out, seen) → seen ≠ 0 →
  ∃ d ann key kind name, d ∈ docs ∧ annotated d ann ∧ (key, kind) ∈ KEYS ∧ names_of ann key name.
Proof.
  unfold judge. intros (have & _ & H)%bind_Ok Hs. apply bind_Ok in H as (rs & Hrs & H). apply Ok_inj, pair_equal_spec in H as [_ <-].
  apply sum_pos in Hs as (n & Hn & Hne). apply list_elem_of_fmap in Hn as (p & -> & Hp).
  apply (flatM_elem _ _ _ Hrs) in Hp as (d & r & Hd & Hr & Hp). unfold judge_doc in Hr.
  apply bind_Ok in Hr as (anns & Ha & Hr). apply bind_Ok in Hr as (k & _ & Hr). apply bind_Ok in Hr as (m & _ & Hr). apply bind_Ok in Hr as (n & _ & Hr).
  apply (flatM_elem _ _ _ Hr) in Hp as (ann & ps & Hann & Hps & Hp). destruct (mapR_elem _ _ _ _ Hps Hp) as ([key kind] & Hkey & Hj).
  unfold judge_key in Hj. apply bind_Ok in Hj as (ns & Hns & [= <-]). cbn [fst snd] in *. destruct ns as [|name ns]; [done|].
  exists d, ann, key, kind, name. split_and!; [done|by apply (annotations_elem _ _ _ Ha)|done|]. apply (listed_elem _ _ _ _ Hns). left.
Qed.

(** When main of check-reloader-names.py exits 0, each render reads a name, and
    each name that an annotation of a workload or of its pod template gives is
    carried, in the kind the annotation is for, by an object of the same
    render, or a producer of the secret contract writes it. *)
Theorem clean_names_exist contract profiles helm r docs :
  main contract profiles helm = Ok 0%Z → r ∈ renders profiles → helm_template helm r.2 = Ok docs →
  (∃ d ann key kind name, d ∈ docs ∧ annotated d ann ∧ (key, kind) ∈ KEYS ∧ names_of ann key name) ∧
  ∀ d ann key kind name, d ∈ docs → annotated d ann → (key, kind) ∈ KEYS → names_of ann key name →
    (∃ o, o ∈ docs ∧ carries o kind (VStr name)) ∨ produced contract kind name.
Proof.
  unfold main. intros (runtime & Hrun & H)%bind_Ok Hr Hd. apply bind_Ok in H as (ps & Hps & H). destruct ps; [clear H|done].
  apply (proj1 (flatM_nil _ _) Hps) in Hr. unfold judge_render in Hr. rewrite Hd in Hr. cbn [rbind] in Hr.
  apply bind_Ok in Hr as ([out seen] & Hj & Hr%Ok_inj). cbn [fst snd] in Hr. apply app_eq_nil in Hr as [Hs Hf]. apply map_eq_nil in Hf as ->. split.
  - apply (judge_seen _ _ _ _ Hj). intros ->. done.
  - intros d ann key kind name Hin Hann Hkey Hname. destruct (judge_known _ _ _ _ _ _ _ _ Hj Hin Hann Hkey Hname) as [?|Hk]; [by left|right].
    by apply (runtime_produced _ runtime).
Qed.
Definition contract_fixture : val :=
  VDict [("producers", str_dict [("minted-at-runtime", "a")]); ("configMapProducers", str_dict [("written-by-a-job", "b")])].
Lemma clean_names_exist_witness :
  main contract_fixture ["helm/gibson/values-eks.yaml"] (λ _, Ok good) = Ok 0%Z ∧ produced contract_fixture "ConfigMap" "written-by-a-job".
Proof.
  assert (main contract_fixture ["helm/gibson/values-eks.yaml"] (λ _, Ok good) = Ok 0%Z) as H by (vm_compute; reflexivity). split; [exact H|].
  destruct (clean_names_exist _ _ _ (BASELINE, []) good H) as [_ Hall]; [left|reflexivity|].
  destruct (Hall (workload config_map_key "cm,written-by-a-job") (str_dict [(config_map_key, "cm,written-by-a-job")]) config_map_key "ConfigMap" "written-by-a-job")
    as [(o & Ho & Hc)|Hp]; [do 4 right; left|right; reflexivity|right; left| |exfalso|exact Hp].
  - exists (VStr "cm,written-by-a-job"), "written-by-a-job". split_and!; [reflexivity|right; left|reflexivity|discriminate].
  - unfold good, objs in Ho. cbn [app] in Ho. repeat (apply elem_of_cons in Ho as [->|Ho]; [inversion Hc; discriminate|]). by apply elem_of_nil in Ho.
Defined.
