(* ===== verification/CnpgSuperuser.v ===== *)
(** * scripts/check-cnpg-superuser-secret.py: one Secret sets the password of postgres

    The superuser Secret and the owner Secret of each CloudNativePG cluster, in
    the render of each profile, with and without a recovery backup. *)
From S2P Require Import Prelude PyStr PyVal.

Definition PROFILES : list (list string) := [[]; ["values-eks.yaml"]; ["values-guest.yaml"]].
Definition RECOVERY : list string :=
  ["--set"; "platformPostgres.recovery.backupID=20260101T000000"; "--set"; "platformPostgres.recovery.serverName=platform-postgres-old"].
Definition BOOTSTRAP_KINDS : list string := ["initdb"; "recovery"; "pg_basebackup"].
Definition render_cmd (extra sets : list string) : list string :=
  ["helm"; "template"; "gibson"; "helm/gibson"; "--namespace"; "gibson"; "-f"; "helm/testdata/render-inputs/gibson.yaml"; "-f";
   "helm/gibson/values-baseline.yaml"] ++ concat (map (λ f, ["-f"; "helm/gibson/" +:+ f]) extra) ++ sets.
(** [helm]: the parsed documents that a command line prints *)
Definition render (helm : list string → result (list val)) (extra sets : list string) : result (list val) :=
  docs <- helm (render_cmd extra sets) ;; Ok (List.filter is_dict docs).

Definition is_cluster (d : val) : result bool :=
  k <- get d "kind" ;;
  if negb (py_eq k (VStr "Cluster")) then Ok false else
  v <- get_default d "apiVersion" (VStr "") ;; Ok (startswith (py_str v) "postgresql.cnpg.io/").
Definition secret_or (v : val) (key suffix : string) (name : val) : result val :=
  s <- get_dict v key ;; n <- get s "name" ;; Ok (por n (VStr (py_str name +:+ suffix))).
Definition judge_kind (name superuser boot : val) (kind : string) : result (list string) :=
  b <- get boot kind ;;
  if is_none b then Ok [] else
  o <- get b "owner" ;;
  if negb (py_eq (por o (VStr "app")) (VStr "postgres")) then Ok [] else
  owner_secret <- secret_or b "secret" "-app" name ;;
  Ok (if py_eq owner_secret superuser then []
      else [cat ["Cluster/"; py_str name; ": bootstrap."; kind; ".owner is postgres, and its owner Secret "; py_str owner_secret;
                 " differs from the superuser Secret "; py_str superuser;
                 ". CNPG writes both to the role postgres, the owner Secret last, so the superuser Secret stops logging in. Set bootstrap."; kind;
                 ".secret.name to "; py_str superuser; "."]]).
Definition judge_cluster (d : val) : result (list string) :=
  cluster <- is_cluster d ;;
  if negb (cluster : bool) then Ok [] else
  name <- meta_name d ;; spec <- get_dict d "spec" ;; on <- get spec "enableSuperuserAccess" ;;
  if negb (truthy on) then Ok [] else
  superuser <- secret_or spec "superuserSecret" "-superuser" name ;; boot <- get_dict spec "bootstrap" ;;
  flatM (judge_kind name superuser boot) BOOTSTRAP_KINDS.
Definition violations (docs : list val) : result (list string) := flatM judge_cluster docs.

Definition profile_renders (helm : list string → result (list val)) (prof : list string) : result (list (string * list val)) :=
  let label := match prof with p :: _ => p | [] => "baseline" end in
  a <- render helm prof [] ;; b <- render helm prof RECOVERY ;; Ok [(label, a); (label +:+ "+recovery", b)].
Definition renders (helm : list string → result (list val)) : result (list (string * list val)) := flatM (profile_renders helm) PROFILES.
Definition judge_render (r : string * list val) : result (list string) :=
  got <- violations r.2 ;; Ok (map (λ x, cat ["("; r.1; ") "; x]) got).
Definition main (helm : list string → result (list val)) : result Z :=
  rs <- renders helm ;; got <- flatM judge_render rs ;; Ok (if nonempty got then 1%Z else 0%Z).

(** ** The self-test *)

Definition cluster_of (boot : list (string * val)) : val :=
  VDict [("apiVersion", VStr "postgresql.cnpg.io/v1"); ("kind", VStr "Cluster"); ("metadata", str_dict [("name", "pg")]);
         ("spec", VDict [("enableSuperuserAccess", VBool true); ("bootstrap", VDict boot)])].
Definition FIXTURE : val := cluster_of [("initdb", str_dict [("database", "postgres"); ("owner", "postgres")])].
Definition same_secret : val :=
  cluster_of [("initdb", VDict [("database", VStr "postgres"); ("owner", VStr "postgres"); ("secret", str_dict [("name", "pg-superuser")])])].
Definition FIXTURES_THAT_MUST_PASS : list val := [same_secret; cluster_of [("recovery", str_dict [("source", "old")])]].
Definition clusters_in (docs : list val) : result nat := l <- filterM (λ d, k <- get d "kind" ;; Ok (py_eq k (VStr "Cluster"))) docs ;; Ok (length l).
(** The findings of a render stop the test; else its clusters are counted. *)
Fixpoint seen_in (rs : list (string * list val)) (seen : nat) : result (option nat) :=
  match rs with
  | [] => Ok (Some seen)
  | r :: rs => n <- clusters_in r.2 ;; got <- violations r.2 ;; if nonempty got then Ok None else seen_in rs (seen + n)%nat
  end.
Definition selftest (helm : list string → result (list val)) : result Z :=
  bad <- violations [FIXTURE] ;;
  if negb (nonempty bad) then Ok 1%Z else
  failed <- anyM (λ d, got <- violations [d] ;; Ok (nonempty got)) FIXTURES_THAT_MUST_PASS ;;
  if (failed : bool) then Ok 1%Z else
  rs <- renders helm ;; seen <- seen_in rs 0 ;;
  Ok (match seen with Some (S _) => 0%Z | _ => 1%Z end).
Lemma cnpgsuperuser_selftest : selftest (λ _, Ok [same_secret]) = Ok 0%Z.
Proof. vm_compute. reflexivity. Qed.

(** ** What a clean run proves *)

(** The Secrets that CNPG writes into a new database, in order: each sets the
    password of a role. *)
Definition writes (d : val) (kind : string) : list (val * val) :=
  let spec := dict_fld d "spec" in let b := fld (dict_fld spec "bootstrap") kind in let name := py_str (fld (fld d "metadata") "name") in
  (if truthy (fld spec "enableSuperuserAccess")
   then [(VStr "postgres", por (fld (dict_fld spec "superuserSecret") "name") (VStr (name +:+ "-superuser")))] else []) ++
  [(por (fld b "owner") (VStr "app"), por (fld (dict_fld b "secret") "name") (VStr (name +:+ "-app")))].
(** The password of a role after the writes *)
Definition password (role : string) (ws : list (val * val)) : option val :=
  foldl (λ p w, if py_eq w.1 (VStr role) then Some w.2 else p) None ws.

Lemma secret_or_is v key suffix name x : secret_or v key suffix name = Ok x → x = por (fld (dict_fld v key) "name") (VStr (py_str name +:+ suffix)).
Proof. unfold secret_or. by intros (s & ->%get_dict_is & (n & ->%get_Ok & [= <-])%bind_Ok)%bind_Ok. Qed.

(** The name of the superuser Secret *)
Definition superuser_secret (d : val) : val :=
  por (fld (dict_fld (dict_fld d "spec") "superuserSecret") "name") (VStr (py_str (fld (fld d "metadata") "name") +:+ "-superuser")).

(** When main of check-cnpg-superuser-secret.py exits 0, then in each render of
    a profile, of each cluster with superuser access and a bootstrap of some
    kind, the password of the role postgres after the writes of CNPG is the one
    in the superuser Secret. *)
Theorem clean_clusters_keep_the_superuser helm prof sets docs d kind s :
  main helm = Ok 0%Z → prof ∈ PROFILES → sets ∈ [[]; RECOVERY] → render helm prof sets = Ok docs → d ∈ docs →
  is_cluster d = Ok true → truthy (fld (dict_fld d "spec") "enableSuperuserAccess") = true →
  kind ∈ BOOTSTRAP_KINDS → fld (dict_fld (dict_fld d "spec") "bootstrap") kind ≠ VNone → superuser_secret d = VStr s →
  password "postgres" (writes d kind) = Some (VStr s).
Proof.
  unfold main. intros (rs & Hrs & H)%bind_Ok Hprof Hsets Hdocs Hd Hc Hon Hkind Hb Hs. apply bind_Ok in H as (got & Hgot & H). destruct got; [clear H|done].
  assert (∃ l, (l, docs) ∈ rs) as (l & Hl).
  { destruct (flatM_Ok_elem _ _ _ _ Hrs Hprof) as (r & Hr). pose proof Hr as Hr'. unfold profile_renders in Hr.
    apply bind_Ok in Hr as (a & Ha & Hr). apply bind_Ok in Hr as (b & Hb' & Hr%Ok_inj).
    assert (∃ l, (l, docs) ∈ r) as (l & Hl).
    { subst r. apply elem_of_cons in Hsets as [->|Hsets]; [|apply list_elem_of_singleton in Hsets as ->].
      - rewrite Hdocs in Ha. injection Ha as <-. eexists. left.
      - rewrite Hdocs in Hb'. injection Hb' as <-. eexists. right. left. }
    exists l. apply (flatM_elem _ _ _ Hrs). by exists prof, r. }
  apply (proj1 (flatM_nil _ _) Hgot) in Hl. unfold judge_render in Hl. apply bind_Ok in Hl as (vs & Hv & Hl%Ok_inj). apply map_eq_nil in Hl as ->.
  apply (proj1 (flatM_nil _ _) Hv) in Hd. unfold judge_cluster in Hd. rewrite Hc in Hd. cbn [rbind negb] in Hd.
  apply bind_Ok in Hd as (name & ->%meta_name_fld & Hd). apply bind_Ok in Hd as (spec & ->%get_dict_is & Hd). apply bind_Ok in Hd as (on & ->%get_Ok & Hd).
  rewrite Hon in Hd. cbn [negb] in Hd. apply bind_Ok in Hd as (su & ->%secret_or_is & Hd). apply bind_Ok in Hd as (boot & ->%get_dict_is & Hd).
  apply (proj1 (flatM_nil _ _) Hd) in Hkind. unfold judge_kind in Hkind. apply bind_Ok in Hkind as (b & ->%get_Ok & Hk).
  destruct (is_none _) eqn:En; [by destruct (fld _ kind)|]. apply bind_Ok in Hk as (o & ->%get_Ok & Hk).
  unfold writes. cbv zeta. rewrite Hon. cbn [app]. fold (superuser_secret d) in *. rewrite Hs in *. unfold password. cbn [foldl fst snd].
  change (py_eq (VStr "postgres") (VStr "postgres")) with true. cbv iota.
  destruct (py_eq (por (fld _ "owner") _) _) eqn:Eo; cbn [negb] in Hk.
  - apply bind_Ok in Hk as (os & ->%secret_or_is & Hk%Ok_inj). f_equal. apply py_eq_str_r. by destruct (py_eq _ (VStr s)).
  - done.
Qed.
Lemma clean_clusters_keep_the_superuser_witness :
  main (λ _, Ok [same_secret]) = Ok 0%Z ∧ password "postgres" (writes same_secret "initdb") = Some (VStr "pg-superuser").
Proof.
  assert (main (λ _, Ok [same_secret]) = Ok 0%Z) as H by (vm_compute; reflexivity). split; [exact H|].
  apply (clean_clusters_keep_the_superuser _ [] [] [same_secret] _ _ _ H); [left|left|reflexivity|left|reflexivity|reflexivity|left|discriminate|reflexivity].
Defined.
(** The password that the rejected shape leaves *)
Example fixture_loses_the_superuser : password "postgres" (writes FIXTURE "initdb") = Some (VStr "pg-app").
Proof. reflexivity. Qed.
