(* ===== verification/VeleroBackup.v ===== *)
(** * scripts/lib/velero-backup-from-schedule.py: the Backup of a Schedule tick

    The program reads a Schedule in JSON and prints the Backup in JSON.  The
    text it prints parses to that Backup, by the round trip of Json.v. *)
From S2P Require Import Prelude PyStr PyVal Json.

Definition PRESERVE_LABEL : string := "gibson.zeroroot.ai/preserve-teardown".

Definition backup (name : string) (namespace schedule_name template : val) : val :=
  VDict [("apiVersion", VStr "velero.io/v1"); ("kind", VStr "Backup");
         ("metadata", VDict [("name", VStr name); ("namespace", namespace);
                             ("labels", VDict [("velero.io/schedule-name", schedule_name); (PRESERVE_LABEL, VStr "true")])]);
         ("spec", template)].
(** The exit status, and the text on the standard output *)
Definition main (argv : list string) (stdin : string) : result (Z * string) :=
  match argv with
  | [_; name] =>
      schedule <- json_loads stdin ;;
      m <- item schedule "metadata" ;; ns <- item m "namespace" ;; sn <- meta_name schedule ;;
      s <- item schedule "spec" ;; template <- item s "template" ;; Ok (0%Z, json_text (backup name ns sn template))
  | _ => Ok (2%Z, "")
  end.

(** An item of a parsed text is one. *)
Lemma json_ok_item v k x : json_ok v → item v k = Ok x → json_ok x.
Proof.
  destruct 1 as [| | | | |d Hn Hd]; cbn; try done. destruct (alist_get k d) as [y|] eqn:E; [|done]. intros [= <-]. apply alist_elem in E.
  apply (proj1 (Forall_forall _ _) Hd _ E).
Qed.
Lemma json_ok_backup name ns sn t : str_ascii name = true → json_ok ns → json_ok sn → json_ok t → json_ok (backup name ns sn t).
Proof.
  intros Hname Hns Hsn Ht. unfold backup.
  repeat (first [apply ok_dict; [cbn; repeat (apply NoDup_cons; split; [set_solver|]); apply NoDup_nil_2|]|apply Forall_cons; split|apply Forall_nil_2
                |split|apply ok_str|done]).
Qed.

(** C14: when the program exits 0 on an ASCII Schedule, the text that it prints
    parses to a Backup of the given name, in the namespace of the Schedule, with
    the two labels, and its spec is the template of the Schedule, unchanged. *)
Theorem backup_parses_back prog name stdin out :
  str_ascii name = true → str_ascii stdin = true → main [prog; name] stdin = Ok (0%Z, out) →
  ∃ schedule b, json_loads stdin = Ok schedule ∧ json_loads out = Ok b ∧
    fld b "kind" = VStr "Backup" ∧ fld b "spec" = fld (fld schedule "spec") "template" ∧
    let m := fld b "metadata" in
    fld m "name" = VStr name ∧ fld m "namespace" = fld (fld schedule "metadata") "namespace" ∧
    fld (fld m "labels") "velero.io/schedule-name" = fld (fld schedule "metadata") "name" ∧ fld (fld m "labels") PRESERVE_LABEL = VStr "true".
Proof.
  intros Hname Hstdin. cbn [main]. intros (schedule & Hs & H)%bind_Ok. pose proof (json_loads_ok _ _ Hstdin Hs) as Hok.
  apply bind_Ok in H as (m & Hm & H). apply bind_Ok in H as (ns & Hns & H). apply bind_Ok in H as (sn & Hsn & H).
  apply bind_Ok in H as (s & Hsp & H). apply bind_Ok in H as (t & Ht & H). apply Ok_inj, pair_equal_spec in H as [_ <-].
  exists schedule, (backup name ns sn t). split; [done|]. split.
  - apply json_loads_text, json_ok_backup; [done|eauto using json_ok_item|..|eauto using json_ok_item].
    unfold meta_name in Hsn. apply bind_Ok in Hsn as (m' & Hm' & Hsn). eauto using json_ok_item.
  - apply meta_name_fld in Hsn as ->. apply item_fld in Hm as ->, Hns as ->, Hsp as ->, Ht as ->. done.
Qed.

Definition schedule_fixture : string :=
  unquoted "{`apiVersion`: `velero.io/v1`, `kind`: `Schedule`, `metadata`: {`name`: `hourly`, `namespace`: `velero`}, `spec`: {`schedule`: `0 * * * *`, `template`: {`ttl`: `72h0m0s`, `includedNamespaces`: [`gibson`, `tenant-*`], `defaultVolumesToFsBackup`: true}}}^".
Lemma backup_parses_back_witness :
  ∃ out b, main ["velero-backup-from-schedule.py"; "teardown-1"] schedule_fixture = Ok (0%Z, out) ∧ json_loads out = Ok b ∧
    fld (fld b "spec") "includedNamespaces" = strs ["gibson"; "tenant-*"].
Proof.
  destruct (main ["velero-backup-from-schedule.py"; "teardown-1"] schedule_fixture) as [[z out]|] eqn:E; [|vm_compute in E; discriminate E].
  assert (z = 0%Z) as -> by (vm_compute in E; injection E as <- _; reflexivity).
  destruct (backup_parses_back "velero-backup-from-schedule.py" "teardown-1" schedule_fixture out) as (s & b & Hs & Hb & _ & Hspec & _);
    [reflexivity|vm_compute; reflexivity|exact E|].
  exists out, b. split; [reflexivity|]. split; [exact Hb|]. rewrite Hspec. vm_compute in Hs. injection Hs as <-. reflexivity.
Defined.
Example usage_exits_2 : main ["velero-backup-from-schedule.py"] schedule_fixture = Ok (2%Z, "").
Proof. reflexivity. Qed.
