(* ===== verification/ConnectorCreds.v ===== *)
(** * scripts/check-connector-creds-binding.py: who holds the Secret grant

    The tenant operator binds the Secret role to the ServiceAccount of the
    connector operator, in a tenant namespace only, and the daemon holds no rule
    on a tenant, a connector or a Secret. *)
From S2P Require Import Prelude PyStr PyVal.

Definition PROFILES : list string :=
  ["values-baseline.yaml"; "values-baseline.yaml -f helm/gibson/values-eks.yaml"; "values-baseline.yaml -f helm/gibson/values-guest.yaml"].
Definition CLUSTER_ROLE : string := "gibson-connector-creds".
Definition DAEMON_KINDS : list string := ["connectorinstances"; "secrets"; "tenants"].
Definition ENV_NAME : string := "CONNECTOR_OPERATOR_SERVICE_ACCOUNT_NAME".

Definition render_cmd (profile : string) : list string :=
  let words := split_ws profile in
  ["helm"; "template"; "gibson"; "helm/gibson"; "-f"; "helm/gibson/" +:+ default "" (head words)] ++
  (if contains "-f" profile then ["-f"; default "" (last words)] else []) ++ ["-f"; "helm/testdata/render-inputs/gibson.yaml"; "--namespace"; "gibson"].
(** [helm]: the parsed documents that a command line prints *)
Definition render (helm : list string → result (list val)) (profile : string) : result (list val) :=
  docs <- helm (render_cmd profile) ;; Ok (List.filter truthy docs).

Definition meta_of (d : val) : result val := get_default d "metadata" (VDict []).
Definition name_is (n : string) (d : val) : result bool := m <- meta_of d ;; x <- get m "name" ;; Ok (py_eq x (VStr n)).
Definition find (docs : list val) (kind name : string) : result (option val) :=
  firstM (λ d, b <- andR (kind_is kind d) (name_is name d) ;; Ok (if (b : bool) then Some d else None)) docs.
Definition is_daemon (d : val) : result bool :=
  andR (kind_is "StatefulSet" d)
    (m <- meta_of d ;; l <- get_default m "labels" (VDict []) ;; c <- get l "app.kubernetes.io/component" ;; Ok (py_eq c (VStr "daemon"))).
Definition pod_spec (d : val) : result val := s <- item d "spec" ;; t <- item s "template" ;; item t "spec".
Definition account (d : val) : result val := s <- pod_spec d ;; get s "serviceAccountName".
(** The values that a Deployment gives the variable; the last one counts. *)
Definition env_values (dep : val) : result (list val) :=
  s <- pod_spec dep ;; cs <- item s "containers" ;; cs <- py_iter cs ;;
  flatM (λ c, es <- get_default c "env" (VList []) ;; es <- py_iter es ;;
    flatM (λ e, n <- get e "name" ;; if py_eq n (VStr ENV_NAME) then v <- get e "value" ;; Ok [v] else Ok []) es) cs.

Definition judge_env (env_val co_sa : val) : list string :=
  if is_none env_val then ["tenant-operator Deployment has no CONNECTOR_OPERATOR_SERVICE_ACCOUNT_NAME env"]
  else if py_eq env_val co_sa then []
  else [cat ["CONNECTOR_OPERATOR_SERVICE_ACCOUNT_NAME="; py_repr env_val; " but the connector operator runs as "; py_repr co_sa]].
Definition judge_cluster_wide (d : val) : result (list string) :=
  hit <- andR (kind_is "ClusterRoleBinding" d) (r <- get_default d "roleRef" (VDict []) ;; n <- get r "name" ;; Ok (py_eq n (VStr CLUSTER_ROLE))) ;;
  if negb (hit : bool) then Ok [] else
  n <- meta_name d ;; Ok [cat ["ClusterRoleBinding "; py_str n; " binds "; CLUSTER_ROLE; " cluster-wide; the grant is per tenant namespace only"]].
Definition rules_of (role : val) : result (list val) := rs <- get_default role "rules" (VList []) ;; py_iter rs.
Definition rule_binds (r : val) : result bool :=
  let holds k x := l <- get_default r k (VList []) ;; str_in x l in
  andR (holds "resources" "clusterroles") (andR (holds "verbs" "bind") (holds "resourceNames" CLUSTER_ROLE)).
(** Each rule is read; one that binds is enough. *)
Definition can_bind (cr : option val) : result bool :=
  rs <- rules_of (default (VDict []) cr) ;; hits <- mapR rule_binds rs ;; Ok (existsb id hits).

(** The roles by kind and name; a later one replaces an earlier one. *)
Definition role_entry (d : val) : result (list (val * val * val)) :=
  k <- get d "kind" ;;
  if in_tuple k ["Role"; "ClusterRole"] then n <- meta_name d ;; if hashable n then Ok [(k, n, d)] else Raise TypeError else Ok [].
Definition role_of (roles : list (val * val * val)) (kind name : val) : option val :=
  foldl (λ o e, if py_eq e.1.1 kind && py_eq e.1.2 name then Some e.2 else o) None roles.
Definition names_account (sa s : val) : result bool :=
  andR (kind_is "ServiceAccount" s) (n <- get s "name" ;; Ok (py_eq n sa)).
Definition judge_rule (b daemon_sa r : val) : result (list string) :=
  l <- get_list r "resources" ;; rs <- set_of l ;;
  let hit := List.filter (λ k, existsb (py_eq (VStr k)) rs) DAEMON_KINDS in
  if negb (nonempty hit) then Ok [] else
  k <- item b "kind" ;; n <- meta_name b ;;
  Ok [cat [py_str k; " "; py_str n; " gives the daemon ServiceAccount "; py_repr daemon_sa; " rules on "; str_of_strs hit;
           "; the daemon holds no Kubernetes client (gibson#664)"]].
Definition judge_binding (roles : list (val * val * val)) (daemon_sa b : val) : result (list string) :=
  k <- get b "kind" ;;
  if negb (in_tuple k ["RoleBinding"; "ClusterRoleBinding"]) then Ok [] else
  ss <- get_list b "subjects" ;; named <- anyM (names_account daemon_sa) ss ;;
  if negb (named : bool) then Ok [] else
  ref <- get_default b "roleRef" (VDict []) ;; rk <- get ref "kind" ;; rn <- get ref "name" ;;
  if negb (hashable rk && hashable rn) then Raise TypeError else
  rs <- rules_of (por (default VNone (role_of roles rk rn)) (VDict [])) ;; flatM (judge_rule b daemon_sa) rs.

Definition judge (docs : list val) : result (list string) :=
  sets <- filterM is_daemon docs ;;
  match last sets with
  | None => Ok ["no StatefulSet with app.kubernetes.io/component=daemon in the render"]
  | Some ss =>
      daemon_sa <- account ss ;; co <- find docs "Deployment" "gibson-connector-operator" ;;
      match co with
      | None => Ok ["no Deployment gibson-connector-operator in the render"]
      | Some co =>
          co_sa <- account co ;; dep <- find docs "Deployment" "gibson-tenant-operator" ;;
          match dep with
          | None => Ok ["no Deployment gibson-tenant-operator in the render"]
          | Some dep =>
              vs <- env_values dep ;; role <- find docs "ClusterRole" CLUSTER_ROLE ;; wide <- flatM judge_cluster_wide docs ;;
              cr <- find docs "ClusterRole" "gibson-tenant-operator" ;; bind <- can_bind cr ;;
              roles <- flatM role_entry docs ;; held <- flatM (judge_binding roles daemon_sa) docs ;;
              Ok (judge_env (default VNone (last vs)) co_sa ++
                  match role with
                  | None => [cat ["ClusterRole "; CLUSTER_ROLE; " is not rendered; the operator's per-tenant RoleBinding would dangle"]]
                  | Some _ => []
                  end ++ wide ++
                  (if (bind : bool) then [] else [cat ["ClusterRole gibson-tenant-operator may not bind "; CLUSTER_ROLE; " (clusterroles/bind resourceNames)"]]) ++
                  held)
          end
      end
  end.
Definition main (helm : list string → result (list val)) : result Z :=
  bad <- flatM (λ p, docs <- render helm p ;; ms <- judge docs ;; Ok (map (λ m, cat [p; ": "; m]) ms)) PROFILES ;;
  Ok (if nonempty bad then 1%Z else 0%Z).

(** ** The self-test *)

Definition is_named (kind name : string) (d : val) : bool := is_kind kind d && named name d.
Definition edit_all (p : val → bool) (f : val → val) (docs : list val) : list val := map (λ d, if p d then f d else d) docs.
Definition renamed (docs : list val) : list val :=
  edit_all (is_named "Deployment" "gibson-connector-operator")
    (put [K "spec"; K "template"; K "spec"; K "serviceAccountName"] (VStr "gibson-renamed")) docs.
Definition daemon_account (docs : list val) : result val :=
  sets <- filterM is_daemon docs ;; match sets with ss :: _ => account ss | [] => Raise StopIteration end.
Definition tenants_read (daemon_sa : val) (resources : list string) : list val :=
  [VDict [("kind", VStr "ClusterRole"); ("metadata", str_dict [("name", "tenants-read")]);
          ("rules", VList [VDict [("apiGroups", strs ["gibson.zeroroot.ai"]); ("resources", strs resources); ("verbs", strs ["list"])]])];
   VDict [("kind", VStr "ClusterRoleBinding"); ("metadata", str_dict [("name", "tenants-read")]);
          ("roleRef", str_dict [("kind", "ClusterRole"); ("name", "tenants-read")]);
          ("subjects", VList [VDict [("kind", VStr "ServiceAccount"); ("name", daemon_sa); ("namespace", VStr "gibson")]])]].
Definition sneak : val :=
  VDict [("kind", VStr "ClusterRoleBinding"); ("metadata", str_dict [("name", "sneak")]); ("roleRef", str_dict [("name", CLUSTER_ROLE)])].
(** [l] without the role, in a rule on clusterroles *)
Definition drop_role (r : val) : val :=
  match fld r "resources" with
  | VList l => if existsb (py_eq (VStr "clusterroles")) l
               then edit [K "resourceNames"] (λ v, match v with
                                                   | VList ns => VList (List.filter (λ n, negb (py_eq n (VStr CLUSTER_ROLE))) ns)
                                                   | _ => VList [] end) r
               else r
  | _ => r
  end.
Definition nobind (docs : list val) : list val :=
  edit_all (is_named "ClusterRole" "gibson-tenant-operator")
    (edit [K "rules"] (λ v, match v with VList rs => VList (map drop_role rs) | _ => v end)) docs.
Definition one_finding (docs : list val) (text : string) : result bool :=
  got <- judge docs ;; Ok (match got with [g] => contains text g | _ => false end).
Definition selftest (helm : list string → result (list val)) : result Z :=
  docs <- render helm "values-baseline.yaml" ;; clean <- judge docs ;;
  if nonempty clean then Ok 1%Z else
  a <- one_finding (renamed docs) "runs as 'gibson-renamed'" ;;
  if negb (a : bool) then Ok 1%Z else
  sa <- daemon_account docs ;; b <- one_finding (docs ++ tenants_read sa ["tenants"]) "holds no Kubernetes client" ;;
  if negb (b : bool) then Ok 1%Z else
  c <- one_finding (docs ++ [sneak]) "cluster-wide" ;;
  if negb (c : bool) then Ok 1%Z else
  d <- one_finding (nobind docs) "may not bind" ;; Ok (if (d : bool) then 0%Z else 1%Z).

(** A render in the shape of the baseline *)
Definition workload (kind name sa : string) (labels : list (string * string)) (env : list val) : val :=
  VDict [("kind", VStr kind); ("metadata", VDict [("name", VStr name); ("labels", str_dict labels)]);
         ("spec", VDict [("template", VDict [("spec", VDict [("serviceAccountName", VStr sa);
                                                              ("containers", VList [VDict [("name", VStr "c"); ("env", VList env)]])])])])].
Definition baseline : list val :=
  [workload "StatefulSet" "gibson" "gibson-daemon" [("app.kubernetes.io/component", "daemon")] [];
   workload "Deployment" "gibson-connector-operator" "connector-operator" [] [];
   workload "Deployment" "gibson-tenant-operator" "tenant-operator" [] [str_dict [("name", ENV_NAME); ("value", "connector-operator")]];
   VDict [("kind", VStr "ClusterRole"); ("metadata", str_dict [("name", CLUSTER_ROLE)]); ("rules", VList [])];
   VDict [("kind", VStr "ClusterRole"); ("metadata", str_dict [("name", "gibson-tenant-operator")]);
          ("rules", VList [VDict [("resources", strs ["clusterroles"]); ("verbs", strs ["bind"]); ("resourceNames", strs [CLUSTER_ROLE])]])]].
Lemma connectorcreds_selftest : selftest (λ _, Ok baseline) = Ok 0%Z.
Proof. vm_compute. reflexivity. Qed.

(** ** What a clean run proves *)

(** The object of a kind and a name is the last one of the render. *)
Definition last_object (docs : list val) (kind name role : val) : Prop :=
  ∃ a b, docs = a ++ role :: b ∧ py_eq (fld role "kind") kind = true ∧ py_eq (fld (fld role "metadata") "name") name = true ∧
    ∀ d, d ∈ b → in_tuple (fld d "kind") ["Role"; "ClusterRole"] = true →
      py_eq (fld d "kind") kind && py_eq (fld (fld d "metadata") "name") name = false.
(** A binding gives a ServiceAccount the rules of a role. *)
Definition gives (docs : list val) (b sa role : val) : Prop :=
  b ∈ docs ∧ fld b "kind" ∈ [VStr "RoleBinding"; VStr "ClusterRoleBinding"] ∧
  (∃ l s, py_iter (por (fld b "subjects") (VList [])) = Ok l ∧ s ∈ l ∧ fld s "kind" = VStr "ServiceAccount" ∧ py_eq (fld s "name") sa = true) ∧
  in_tuple (fld role "kind") ["Role"; "ClusterRole"] = true ∧ truthy role = true ∧
  ∃ ref, get_default b "roleRef" (VDict []) = Ok ref ∧ last_object docs (fld ref "kind") (fld ref "name") role.
(** A rule of a role lists a resource by name. *)
Definition lists (role : val) (k : string) : Prop :=
  ∃ rs r l, rules_of role = Ok rs ∧ r ∈ rs ∧ py_iter (por (fld r "resources") (VList [])) = Ok l ∧ VStr k ∈ l.

Lemma named_role_entry d l : role_entry d = Ok l →
  l = if in_tuple (fld d "kind") ["Role"; "ClusterRole"] then [(fld d "kind", fld (fld d "metadata") "name", d)] else [].
Proof.
  unfold role_entry. intros (k & ->%get_Ok & H)%bind_Ok. destruct (in_tuple _ _); [|by injection H as <-].
  apply bind_Ok in H as (n & ->%meta_name_fld & H). destruct (hashable _); [by injection H as <-|done].
Qed.
Lemma role_of_last docs roles kind name role : flatM role_entry docs = Ok roles → last_object docs kind name role →
  in_tuple (fld role "kind") ["Role"; "ClusterRole"] = true → role_of roles kind name = Some role.
Proof.
  intros Hr (a & b & -> & Hk & Hn & Hb) Ht. rewrite flatM_app in Hr. apply bind_Ok in Hr as (ra & _ & Hr). apply bind_Ok in Hr as (rb & Hrb & [= <-]).
  cbn [flatM] in Hrb. apply bind_Ok in Hrb as (r0 & ->%named_role_entry & Hrb). rewrite Ht in Hrb. apply bind_Ok in Hrb as (r1 & Hr1 & [= <-]).
  unfold role_of. rewrite foldl_app. cbn [app foldl fst snd]. rewrite Hk, Hn. cbn [andb].
  apply (foldl_inv (λ o, o = Some role)); [done|]. intros o e He ->. apply (flatM_elem _ _ _ Hr1) in He as (d & l & Hd & ->%named_role_entry & He).
  destruct (in_tuple (fld d "kind") _) eqn:E; [|by apply elem_of_nil in He]. apply list_elem_of_singleton in He as ->. cbn [fst snd]. by rewrite (Hb d Hd E).
Qed.

(** The Secret grant is the one of the connector operator. *)
Record grant_in_place (docs : list val) (co_sa : val) : Prop := {
  gp_env : ∃ dep vs v, dep ∈ docs ∧ fld dep "kind" = VStr "Deployment" ∧ fld (fld dep "metadata") "name" = VStr "gibson-tenant-operator" ∧
    env_values dep = Ok vs ∧ last vs = Some v ∧ py_eq v co_sa = true;
  gp_role : ∃ d, d ∈ docs ∧ fld d "kind" = VStr "ClusterRole" ∧ fld (fld d "metadata") "name" = VStr CLUSTER_ROLE;
  gp_local : ∀ d ref, d ∈ docs → fld d "kind" = VStr "ClusterRoleBinding" → get_default d "roleRef" (VDict []) = Ok ref →
    fld ref "name" ≠ VStr CLUSTER_ROLE }.

Lemma name_is_true n d : name_is n d = Ok true → fld (fld d "metadata") "name" = VStr n.
Proof.
  unfold name_is, meta_of. intros (m & Hm & H)%bind_Ok. apply bind_Ok in H as (x & ->%get_Ok & [= H%py_eq_str_r]).
  destruct d as [| | | | |d]; try done. cbn in Hm. injection Hm as <-. cbn. by destruct (alist_get "metadata" d).
Qed.
Lemma find_Some docs kind name d : find docs kind name = Ok (Some d) →
  d ∈ docs ∧ fld d "kind" = VStr kind ∧ fld (fld d "metadata") "name" = VStr name.
Proof.
  unfold find. intros (x & Hx & H)%firstM_Some. apply bind_Ok in H as (b & Hb & H). destruct b; [|done]. injection H as ->.
  apply andR_true in Hb as [H1%kind_is_true H2%name_is_true]. done.
Qed.

Lemma judge_env_clean vs co_sa : judge_env (default VNone (last vs)) co_sa = [] → ∃ v, last vs = Some v ∧ py_eq v co_sa = true.
Proof.
  unfold judge_env. destruct (last vs) as [v|]; [|done]. change (default VNone (Some v)) with v. destruct (is_none v); [done|].
  destruct (py_eq v co_sa) eqn:E; [|done]. intros _. by exists v.
Qed.
Lemma cluster_wide_clean d ref : judge_cluster_wide d = Ok [] → fld d "kind" = VStr "ClusterRoleBinding" →
  get_default d "roleRef" (VDict []) = Ok ref → fld ref "name" ≠ VStr CLUSTER_ROLE.
Proof.
  unfold judge_cluster_wide. intros (hit & Hh & H)%bind_Ok Hk Hr Hn. destruct hit; [by apply bind_Ok in H as (n & _ & [=])|].
  unfold andR, kind_is in Hh. apply bind_Ok in Hh as (b & (x & ->%get_Ok & [= <-])%bind_Ok & Hh). rewrite Hk, py_eq_refl_str, Hr in Hh.
  cbn [rbind] in Hh. apply bind_Ok in Hh as (n & ->%get_Ok & [= Hh]). by rewrite Hn, py_eq_refl_str in Hh.
Qed.
Lemma binding_clean docs roles daemon_sa b role k :
  flatM role_entry docs = Ok roles → judge_binding roles daemon_sa b = Ok [] → gives docs b daemon_sa role → k ∈ DAEMON_KINDS → ¬ lists role k.
Proof.
  intros Hroles H (_ & Hkind & (l & s & Hl & Hs & Hsk & Hsn) & Ht & Htr & ref & Href & Hlast) Hk (rs & r & rl & Hrs & Hr & Hrl & Hin).
  unfold judge_binding in H. apply bind_Ok in H as (bk & ->%get_Ok & H).
  assert (in_tuple (fld b "kind") ["RoleBinding"; "ClusterRoleBinding"] = true) as E.
  { rewrite elem_of_cons, list_elem_of_singleton in Hkind. by destruct Hkind as [-> | ->]. }
  rewrite E in H. cbn [negb] in H. clear E Hkind. apply bind_Ok in H as (ss & Hss%get_list_is & H). rewrite Hl in Hss. injection Hss as <-.
  apply bind_Ok in H as (named & Hn & H). destruct named.
  2: { apply (proj1 (anyM_false _ _) Hn) in Hs. unfold names_account, andR, kind_is in Hs. apply bind_Ok in Hs as (x & (y & ->%get_Ok & [= <-])%bind_Ok & Hs).
       rewrite Hsk, py_eq_refl_str in Hs. apply bind_Ok in Hs as (n & ->%get_Ok & [= Hs]). congruence. }
  cbn [negb] in H. rewrite Href in H. cbn [rbind] in H. apply bind_Ok in H as (rk & ->%get_Ok & H). apply bind_Ok in H as (rn & ->%get_Ok & H).
  destruct (negb _); [done|]. rewrite (role_of_last docs roles _ _ role Hroles Hlast Ht) in H. change (default VNone (Some role)) with role in H.
  rewrite (truthy_por role _ Htr), Hrs in H. cbn [rbind] in H. apply (proj1 (flatM_nil _ _) H) in Hr. unfold judge_rule in Hr.
  apply bind_Ok in Hr as (l' & Hl'%get_list_is & Hr). rewrite Hrl in Hl'. injection Hl' as <-. apply bind_Ok in Hr as (s' & ->%set_of_Ok & Hr).
  destruct (List.filter _ DAEMON_KINDS) as [|z zs] eqn:Ef.
  - pose proof (filter_nil_elem _ _ _ Ef Hk) as Hf. cbv beta in Hf. by rewrite (proj2 (existsb_py_eq_str k rl) Hin) in Hf.
  - cbn [nonempty negb] in Hr. apply bind_Ok in Hr as (kk & _ & Hr). by apply bind_Ok in Hr as (n & _ & [=]).
Qed.

(** When main of check-connector-creds-binding.py exits 0, then in the render of
    each profile the tenant operator gives the grant to the ServiceAccount of
    the connector operator, the role is rendered and no ClusterRoleBinding
    binds it, and no binding gives the ServiceAccount of the daemon a role with
    a rule that lists tenants, connectors or Secrets. *)
Theorem clean_grants_stay_in_place helm p docs :
  main helm = Ok 0%Z → p ∈ PROFILES → render helm p = Ok docs →
  ∃ ss co daemon_sa co_sa,
    ss ∈ docs ∧ is_daemon ss = Ok true ∧ account ss = Ok daemon_sa ∧
    co ∈ docs ∧ fld co "kind" = VStr "Deployment" ∧ fld (fld co "metadata") "name" = VStr "gibson-connector-operator" ∧ account co = Ok co_sa ∧
    grant_in_place docs co_sa ∧ ∀ b role k, gives docs b daemon_sa role → k ∈ DAEMON_KINDS → ¬ lists role k.
Proof.
  unfold main. intros (bad & Hb & H)%bind_Ok Hp Hd. destruct bad; [clear H|done]. apply (proj1 (flatM_nil _ _) Hb) in Hp. rewrite Hd in Hp.
  cbn [rbind] in Hp. apply bind_Ok in Hp as (ms & Hj & Hp%Ok_inj). apply map_eq_nil in Hp as ->. unfold judge in Hj.
  apply bind_Ok in Hj as (sets & Hsets & Hj). destruct (last sets) as [ss|] eqn:Els; [|done]. apply bind_Ok in Hj as (daemon_sa & Hsa & Hj).
  apply bind_Ok in Hj as (co & Hco & Hj). destruct co as [co|]; [|done]. apply bind_Ok in Hj as (co_sa & Hcsa & Hj).
  apply bind_Ok in Hj as (dep & Hdep & Hj). destruct dep as [dep|]; [|done]. apply bind_Ok in Hj as (vs & Hvs & Hj).
  apply bind_Ok in Hj as (role & Hrole & Hj). apply bind_Ok in Hj as (wide & Hw & Hj). apply bind_Ok in Hj as (cr & _ & Hj).
  apply bind_Ok in Hj as (bind & _ & Hj). apply bind_Ok in Hj as (roles & Hroles & Hj). apply bind_Ok in Hj as (held & Hheld & Hj%Ok_inj).
  apply app_eq_nil in Hj as [He Hj]. apply app_eq_nil in Hj as [Hro Hj]. apply app_eq_nil in Hj as [-> Hj]. apply app_eq_nil in Hj as [_ ->].
  apply find_Some in Hco as (Hcin & Hck & Hcn), Hdep as (Hdin & Hdk & Hdn). exists ss, co, daemon_sa, co_sa.
  assert (ss ∈ sets) as Hss by (by apply last_Some_elem_of). apply (filterM_Ok _ _ _ Hsets) in Hss as [Hsin Hsd]. split_and!; try done.
  - split.
    + destruct (judge_env_clean _ _ He) as (v & ? & ?). by exists dep, vs, v.
    + destruct role as [r|]; [|done]. exists r. by apply find_Some.
    + intros d ref Hin. by apply cluster_wide_clean, (proj1 (flatM_nil _ _) Hw).
  - intros b r k Hg. apply (binding_clean docs roles daemon_sa b r k Hroles); [|done]. apply (proj1 (flatM_nil _ _) Hheld). apply Hg.
Qed.
Lemma clean_grants_stay_in_place_witness :
  main (λ _, Ok baseline) = Ok 0%Z ∧ ∃ co_sa, grant_in_place baseline co_sa.
Proof.
  assert (main (λ _, Ok baseline) = Ok 0%Z) as H by (vm_compute; reflexivity). split; [exact H|].
  destruct (clean_grants_stay_in_place (λ _, Ok baseline) "values-baseline.yaml" baseline H) as (ss & co & sa & co_sa & _ & _ & _ & _ & _ & _ & _ & Hg & _);
    [left|reflexivity|]. by exists co_sa.
Defined.

(** A rule on all resources passes. *)
Example all_resources_are_not_read : judge (baseline ++ tenants_read (VStr "gibson-daemon") ["*"]) = Ok [].
Proof. vm_compute. reflexivity. Qed.
