(* ===== verification/ProbeTimeouts.v ===== *)
(** * scripts/check-probe-timeouts.py: each probe states its timeout

    The probes of the workloads of the text that helm prints, document by
    document, and the vendored charts that are exempt, in both directions. *)
From stdpp Require Import sorting.
From S2P Require Import Prelude PyStr PyVal Regex.
From Stdlib Require Import Ascii.

Definition PROBES : list string := ["startupProbe"; "readinessProbe"; "livenessProbe"].
Definition PODDED : list string := ["Deployment"; "StatefulSet"; "DaemonSet"; "Job"].
Definition EXEMPT : list (string * string) :=
  [("cnpg", "cloudnative-pg 0.29.0 templates the probes inline and reads only webhook.{liveness,readiness}Probe.initialDelaySeconds and webhook.startupProbe.{failureThreshold,periodSeconds}");
   ("spire", "spire 0.28.4 (spire-agent, spire-server, spiffe-oidc-discovery-provider) defines no probe values at all");
   ("zitadel", "zitadel 9.34.1 reads enabled, initialDelaySeconds, periodSeconds and failureThreshold, and no timeout, for both zitadel and the login UI")].
Definition RENDER : list string :=
  ["helm"; "template"; "gibson"; "helm/gibson"; "-f"; "helm/gibson/values-baseline.yaml"; "-f"; "helm/testdata/render-inputs/gibson.yaml";
   "--namespace"; "gibson"; "--set"; "gibson-workloads.mailpit.enabled=true"].

Definition no_slash : regex := RPlus (RChr (λ c, negb (Ascii.eqb c "/"))).
Definition CHART : regex := RSeq [no_slash; RStr "/charts/"; RGroup 1 no_slash; RLit "/"].
Definition chart_of (source : string) : string :=
  match re_match CHART source with
  | Some m => if startswith (group_text m 1) "gibson-" then "" else group_text m 1
  | None => ""
  end.
Definition SOURCE : regex := RSeq [RStr "# Source: "; RGroup 1 (RPlus (RChr (λ c, negb (is_space c))))].
Definition source_of (chunk : string) : string := match re_search SOURCE chunk with Some m => group_text m 1 | None => "?" end.

(** The pods of a document, when its kind has any *)
Definition pod_of (doc kind : val) : result (option val) :=
  if py_eq kind (VStr "CronJob") then
    s <- item doc "spec" ;; j <- item s "jobTemplate" ;; s <- item j "spec" ;; t <- item s "template" ;; Ok (Some t)
  else if in_tuple kind PODDED then s <- item doc "spec" ;; t <- item s "template" ;; Ok (Some t)
  else if py_eq kind (VStr "Pod") then Ok (Some doc)
  else Ok None.
Definition probe_gap (source : string) (kind name c : val) (probe : string) : result (list (string * string)) :=
  p <- get (por c (VDict [])) probe ;;
  match p with
  | VDict d =>
      if match alist_get "timeoutSeconds" d with Some _ => true | None => false end then Ok [] else
      cn <- get_default c "name" (VStr "?") ;; Ok [(chart_of source, cat [py_str kind; "/"; py_str name; ":"; py_str cn; ":"; probe])]
  | _ => Ok []
  end.
Definition container_gaps (source : string) (kind name c : val) : result (list (string * string)) := flatM (probe_gap source kind name c) PROBES.
Definition pod_gaps (source : string) (kind name pod : val) : result (list (string * string)) :=
  spec <- get_dict pod "spec" ;; flatM (λ key, cs <- get_list spec key ;; flatM (container_gaps source kind name) cs) ["initContainers"; "containers"].
Definition doc_gaps (source : string) (doc : val) : result (list (string * string)) :=
  if negb (truthy doc) || negb (is_dict doc) then Ok [] else
  kind <- get doc "kind" ;; pod <- pod_of doc kind ;;
  match pod with
  | None => Ok []
  | Some pod => m <- get_dict doc "metadata" ;; name <- get_default m "name" (VStr "?") ;; pod_gaps source kind name pod
  end.

Section guard.
(** The document of a text, or [None] for a text that is no YAML *)
Context (yaml_load : string → option val).

Definition chunk_gaps (chunk : string) : result (list (string * string)) :=
  match yaml_load chunk with Some doc => doc_gaps (source_of chunk) doc | None => Ok [] end.
Definition gaps (rendered : string) : result (list (string * string)) :=
  flatM chunk_gaps (str_split rendered (newline +:+ "---" +:+ newline)).
Definition exempt (chart : string) : bool := str_mem chart EXEMPT.*1.
Definition judge (found : list (string * string)) : list string :=
  concat (map (λ g, if exempt g.1 then [] else
             [cat [g.2; " ("; if str_eqb g.1 "" then "this chart" else "vendored chart " +:+ g.1; ") declares no timeoutSeconds, so it runs on the 1-second default"]]) found) ++
  concat (map (λ e, if existsb (λ g, str_eqb g.1 e.1) found then [] else
             [cat ["EXEMPT names "; e.1; ", but every probe it renders now declares a timeoutSeconds. Delete the entry. It was exempt because: "; e.2]]) EXEMPT).
(** [helm]: what a command line prints *)
Definition main (helm : list string → result string) : result Z :=
  rendered <- helm RENDER ;; found <- gaps rendered ;; Ok (if nonempty (judge found) then 1%Z else 0%Z).

(** ** The self-test *)

Definition want : list (string * string) := [("", "Deployment/silent:app:readinessProbe"); ("", "Deployment/silent:wait:startupProbe")].
(** [fixture]: the text of the fixture *)
Definition selftest (fixture : string) (helm : list string → result string) : result Z :=
  found <- gaps ("# Source: gibson/templates/x.yaml" +:+ newline +:+ fixture) ;;
  let got := merge_sort pair_le found in
  if negb (bool_decide (got = want)) then Ok 1%Z else
  if negb (length (judge got) =? 2 + length EXEMPT) then Ok 1%Z else
  if nonempty (judge (map (λ e, (e.1, "Kind/n:c:readinessProbe")) EXEMPT)) then Ok 1%Z else
  rendered <- helm RENDER ;; live <- gaps rendered ;; Ok (if nonempty (judge live) then 1%Z else 0%Z).
End guard.

Definition probed (name : string) (probes : list (string * val)) : val := VDict (("name", VStr name) :: probes).
Definition silent : val := VDict [("httpGet", VDict [("path", VStr "/healthz"); ("port", VInt 8080)])].
Definition timed : val := VDict [("httpGet", VDict [("path", VStr "/healthz"); ("port", VInt 8080)]); ("timeoutSeconds", VInt 3)].
Definition deployment (name : string) (spec : list (string * val)) : val :=
  VDict [("apiVersion", VStr "apps/v1"); ("kind", VStr "Deployment"); ("metadata", str_dict [("name", name)]);
         ("spec", VDict [("template", VDict [("spec", VDict spec)])])].
Definition FIXTURE : val :=
  deployment "silent" [("containers", VList [probed "app" [("readinessProbe", silent); ("livenessProbe", timed)]]);
                       ("initContainers", VList [probed "wait" [("startupProbe", VDict [("tcpSocket", VDict [("port", VInt 9000)])])]])].
(** A render of four documents: three of the exempt charts, one of this chart *)
Definition chunk (source : string) : string := cat ["# Source: "; source; newline; "kind: Deployment"].
Definition live_sources : list string :=
  ["gibson/charts/cnpg/templates/a.yaml"; "gibson/charts/spire/templates/b.yaml"; "gibson/charts/zitadel/templates/c.yaml"; "gibson/templates/d.yaml"].
Definition live_text : string := str_join (newline +:+ "---" +:+ newline) (map chunk live_sources).
Definition live_load (text : string) : option val :=
  if str_eqb text (chunk "gibson/templates/d.yaml") then Some (deployment "ours" [("containers", VList [probed "c" [("livenessProbe", timed)]])])
  else if existsb (λ s, str_eqb text (chunk s)) live_sources
  then Some (deployment "vendored" [("containers", VList [probed "c" [("livenessProbe", silent)]])])
  else Some FIXTURE.
Lemma probetimeouts_selftest : selftest live_load "fixture" (λ _, Ok live_text) = Ok 0%Z.
Proof. vm_compute. reflexivity. Qed.

(** ** What a clean run proves *)

(** The pod template of a workload, or a Pod *)
Inductive pod_in (doc : val) : val → Prop :=
  | pod_cron : fld doc "kind" = VStr "CronJob" → pod_in doc (fld (fld (fld (fld doc "spec") "jobTemplate") "spec") "template")
  | pod_podded kind : kind ∈ PODDED → fld doc "kind" = VStr kind → pod_in doc (fld (fld doc "spec") "template")
  | pod_self : fld doc "kind" = VStr "Pod" → pod_in doc doc.
(** A container of a document, with one of its probes *)
Definition has_probe (doc : val) (probe : string) (p : list (string * val)) : Prop :=
  ∃ pod key cs c, pod_in doc pod ∧ key ∈ ["initContainers"; "containers"] ∧
    py_iter (por (fld (dict_fld pod "spec") key) (VList [])) = Ok cs ∧ c ∈ cs ∧ probe ∈ PROBES ∧ fld (por c (VDict [])) probe = VDict p.
(** A text of the render, with its document *)
Definition chunk_of (yaml_load : string → option val) (rendered chunk : string) (doc : val) : Prop :=
  chunk ∈ str_split rendered (newline +:+ "---" +:+ newline) ∧ yaml_load chunk = Some doc ∧ truthy doc = true ∧ is_dict doc = true.
(** A chart is vendored: its source is below charts, and its name is not ours. *)
Definition vendored (source chart : string) : Prop :=
  ∃ a r, source = a +:+ "/charts/" +:+ chart +:+ "/" +:+ r ∧ chart ≠ "" ∧ a ≠ "" ∧ str_forallb (λ c, negb (Ascii.eqb c "/")) (a +:+ chart) = true ∧
    startswith chart "gibson-" = false.

Lemma pod_of_in doc pod o : pod_in doc pod → pod_of doc (fld doc "kind") = Ok o → o = Some pod.
Proof.
  intros [Hk|kind Hin Hk|Hk] H; rewrite Hk in H.
  - unfold pod_of in H. cbn in H. apply bind_Ok in H as (s & ->%item_fld & H). apply bind_Ok in H as (j & ->%item_fld & H). apply bind_Ok in H as (s & ->%item_fld & H).
    by apply bind_Ok in H as (t & ->%item_fld & [= <-]).
  - assert (in_tuple (VStr kind) PODDED = true ∧ py_eq (VStr kind) (VStr "CronJob") = false) as [Ht Hc].
    { unfold PODDED in *. rewrite !elem_of_cons in Hin. destruct_or! Hin; subst; try done. by apply elem_of_nil in Hin. }
    unfold pod_of in H. rewrite Hc, Ht in H. apply bind_Ok in H as (s & ->%item_fld & H). by apply bind_Ok in H as (t & ->%item_fld & [= <-]).
  - by injection H as <-.
Qed.

Lemma chart_vendored source : chart_of source ≠ "" → vendored source (chart_of source).
Proof.
  unfold chart_of. destruct (re_match CHART source) as [m|] eqn:H; [|done]. destruct (startswith _ _) eqn:Eg; [done|]. intros _.
  unfold re_match, match_at, CHART in H. cbn [RSeq] in H.
  next_part H s1 L1. next_part H s2 L2. next_part H s3 L3. next_part H s4 L4. injection H as <-.
  apply step_plus_iff in L1 as (a & -> & Ha & Hsa). apply step_str_iff in L2 as ->. cbn [snd] in *.
  apply step_plus_iff in L3 as (c & -> & Hc & Hsc). apply step_chr_iff in L4 as (d & r & -> & <-%Ascii.eqb_eq & [= -> ->]).
  unfold group_text, group in *. cbn -[Regex.consumed str_forallb startswith] in *. rewrite consumed_app in *.
  exists a, r. split_and!; [done..| |done]. by rewrite str_forallb_app, Hsa, Hsc.
Qed.

Lemma judge_chart found g : judge found = [] → g ∈ found → exempt g.1 = true.
Proof.
  unfold judge. intros [H _]%app_eq_nil Hg. apply (concat_map_nil _ _ _ H) in Hg. by destruct (exempt g.1).
Qed.
Lemma judge_stale found e : judge found = [] → e ∈ EXEMPT → ∃ g, g ∈ found ∧ g.1 = e.1.
Proof.
  unfold judge. intros [_ H]%app_eq_nil He. apply (concat_map_nil _ _ _ H) in He.
  destruct (existsb _ found) eqn:E; [|done]. apply existsb_elem_of in E as (g & Hg & Heq%str_eqb_eq). by exists g.
Qed.
Lemma probe_gap_found source kind name c probe p l : probe_gap source kind name c probe = Ok l → fld (por c (VDict [])) probe = VDict p →
  "timeoutSeconds" ∉ p.*1 → ∃ ref, (chart_of source, ref) ∈ l.
Proof.
  unfold probe_gap. intros (x & ->%get_Ok & H)%bind_Ok Hp Hno. apply alist_None in Hno. rewrite Hp, Hno in H.
  apply bind_Ok in H as (cn & _ & [= <-]). eexists. left.
Qed.
Lemma doc_gap_found source doc l probe p : doc_gaps source doc = Ok l → truthy doc = true → is_dict doc = true → has_probe doc probe p →
  "timeoutSeconds" ∉ p.*1 → ∃ ref, (chart_of source, ref) ∈ l.
Proof.
  unfold doc_gaps. intros H Ht Hd (pod & key & cs & c & Hpod & Hkey & Hcs & Hc & Hprobe & Hp) Hno. rewrite Ht, Hd in H. cbn [negb orb] in H.
  apply bind_Ok in H as (kind & ->%get_Ok & H). apply bind_Ok in H as (o & Ho & H). apply (pod_of_in _ _ _ Hpod) in Ho as ->.
  apply bind_Ok in H as (m & _ & H). apply bind_Ok in H as (name & _ & H). unfold pod_gaps in H. apply bind_Ok in H as (spec & ->%get_dict_is & H).
  destruct (flatM_Ok_elem _ _ _ _ H Hkey) as (a & Ha). pose proof Ha as Ha'. unfold get_list in Ha. apply bind_Ok in Ha as (cs' & Hcs' & Ha).
  apply bind_Ok in Hcs' as (v & ->%get_Ok & Hcs'). rewrite Hcs in Hcs'. injection Hcs' as <-.
  destruct (flatM_Ok_elem _ _ _ _ Ha Hc) as (b & Hb). pose proof Hb as Hb'. unfold container_gaps in Hb.
  destruct (flatM_Ok_elem _ _ _ _ Hb Hprobe) as (g & Hg). destruct (probe_gap_found _ _ _ _ _ _ _ Hg Hp Hno) as (ref & Href). exists ref.
  apply (flatM_elem _ _ _ H). exists key, a. split_and!; [done..|]. apply (flatM_elem _ _ _ Ha). exists c, b. split_and!; [done..|].
  apply (flatM_elem _ _ _ Hb). by exists probe, g.
Qed.
Lemma gap_of_doc source doc l g : doc_gaps source doc = Ok l → g ∈ l → truthy doc = true ∧ is_dict doc = true ∧ g.1 = chart_of source.
Proof.
  unfold doc_gaps. destruct (truthy doc), (is_dict doc); cbn [negb orb]; try (intros [= <-] Hg; by apply elem_of_nil in Hg). intros H Hg. split_and!; [done..|].
  apply bind_Ok in H as (kind & _ & H). apply bind_Ok in H as (o & _ & H). destruct o as [pod|]; [|injection H as <-; by apply elem_of_nil in Hg].
  apply bind_Ok in H as (m & _ & H). apply bind_Ok in H as (name & _ & H). unfold pod_gaps in H. apply bind_Ok in H as (spec & _ & H).
  apply (flatM_elem _ _ _ H) in Hg as (key & a & _ & Ha & Hg). apply bind_Ok in Ha as (cs & _ & Ha).
  apply (flatM_elem _ _ _ Ha) in Hg as (c & b & _ & Hb & Hg). apply (flatM_elem _ _ _ Hb) in Hg as (probe & r & _ & Hr & Hg).
  unfold probe_gap in Hr. apply bind_Ok in Hr as (p & _ & Hr). destruct p as [| | | | |p]; try (injection Hr as <-; by apply elem_of_nil in Hg).
  destruct (alist_get _ p); [injection Hr as <-; by apply elem_of_nil in Hg|]. apply bind_Ok in Hr as (cn & _ & [= <-]).
  by apply list_elem_of_singleton in Hg as ->.
Qed.

(** When main of check-probe-timeouts.py exits 0, each probe of a container of a
    workload of the render states timeoutSeconds, or its document comes from an
    exempt vendored chart; and each exempt chart has a document in the render
    of which a probe states none. *)
Theorem clean_probes_state_a_timeout yaml_load helm rendered :
  main yaml_load helm = Ok 0%Z → helm RENDER = Ok rendered →
  (∀ chunk doc probe p, chunk_of yaml_load rendered chunk doc → has_probe doc probe p → "timeoutSeconds" ∉ p.*1 →
     chart_of (source_of chunk) ∈ EXEMPT.*1 ∧ vendored (source_of chunk) (chart_of (source_of chunk))) ∧
  ∀ chart, chart ∈ EXEMPT.*1 → ∃ chunk doc, chunk_of yaml_load rendered chunk doc ∧ chart_of (source_of chunk) = chart.
Proof.
  unfold main. intros H Hr. rewrite Hr in H. cbn [rbind] in H. apply bind_Ok in H as (found & Hf & H). destruct (judge found) eqn:Ej; [clear H|done].
  unfold gaps in Hf. split.
  - intros chunk doc probe p (Hin & Hy & Ht & Hd) Hp Hno. destruct (flatM_Ok_elem _ _ _ _ Hf Hin) as (l & Hl). pose proof Hl as Hl'.
    unfold chunk_gaps in Hl. rewrite Hy in Hl. destruct (doc_gap_found _ _ _ _ _ Hl Ht Hd Hp Hno) as (ref & Href).
    assert ((chart_of (source_of chunk), ref) ∈ found) as Hg by (apply (flatM_elem _ _ _ Hf); by exists chunk, l).
    apply (judge_chart _ _ Ej) in Hg. cbn [fst] in Hg. apply str_mem_elem in Hg. split; [done|]. apply chart_vendored.
    intros E. rewrite E in Hg. assert (str_mem "" EXEMPT.*1 = false) as Hs by (vm_compute; reflexivity). by apply str_mem_false in Hs.
  - intros chart Hc. apply list_elem_of_fmap in Hc as (e & -> & He). destruct (judge_stale _ _ Ej He) as (g & Hg & <-).
    apply (flatM_elem _ _ _ Hf) in Hg as (chunk & l & Hin & Hl & Hg). unfold chunk_gaps in Hl. destruct (yaml_load chunk) as [doc|] eqn:Ey.
    + destruct (gap_of_doc _ _ _ _ Hl Hg) as (Ht & Hd & E). by exists chunk, doc.
    + injection Hl as <-. by apply elem_of_nil in Hg.
Qed.
Lemma clean_probes_state_a_timeout_witness :
  main live_load (λ _, Ok live_text) = Ok 0%Z ∧
  ∃ chunk doc, chunk_of live_load live_text chunk doc ∧ chart_of (source_of chunk) = "spire".
Proof.
  assert (main live_load (λ _, Ok live_text) = Ok 0%Z) as H by (vm_compute; reflexivity). split; [exact H|].
  apply (clean_probes_state_a_timeout live_load (λ _, Ok live_text) live_text H); [reflexivity|right; left].
Defined.
