(* ===== verification/OpenbaoTls.v ===== *)
(** * scripts/check-openbao-tls.py: OpenBao serves TLS only, and each client verifies it

    The listener, the ports, the plaintext addresses of a text, the stores and
    the issuers, and the CA that a container which dials OpenBao trusts.  The
    YAML parser, the YAML printer and helm are arguments. *)
From S2P Require Import Prelude PyStr PyVal Regex Json.
From Stdlib Require Import Ascii.

Definition host_char (c : ascii) : bool := negb (is_space c || in_chars "'/" c || Ascii.eqb c dquote).
Definition tail_char (c : ascii) : bool := negb (is_space c || Ascii.eqb c squote || Ascii.eqb c dquote).
Definition plain_host (mark : string) : regex := RSeq [RStar (RChr host_char); RStr mark; RStar (RChr tail_char)].
Definition PLAIN : regex := RSeq [RStr "http://"; RAlt (plain_host "openbao") (plain_host ":8200")].
Definition TLS : regex :=
  RSeq [RStr "https://"; RAlt (RSeq [RStar (RChr host_char); RStr "openbao"; RStar (RChr host_char)]) (RStr "127.0.0.1"); RStr ":8200"].
Definition DISABLED : regex := RSeq [RStr "tls_disable"; RSpaces; RLit "="].
Definition POD_KINDS : list string := ["Deployment"; "StatefulSet"; "DaemonSet"; "Job"; "CronJob"; "Pod"].
Definition TRUST_ENV : list string := ["SSL_CERT_DIR"; "CURL_CA_BUNDLE"; "BAO_CACERT"].

(** ** The CA that a container trusts *)

Definition pod_spec (d : val) : result val :=
  spec <- get_dict d "spec" ;; k <- get d "kind" ;;
  if py_eq k (VStr "Pod") then Ok spec else
  spec <- (if py_eq k (VStr "CronJob") then j <- get_dict spec "jobTemplate" ;; get_dict j "spec" else Ok spec) ;;
  t <- get_dict spec "template" ;; get_dict t "spec".
Definition volume_secret (v : val) : result (list (val * val)) :=
  n <- get v "name" ;; s <- get_dict v "secret" ;; x <- get s "secretName" ;; vdict_item n (por x (VStr "")).
Definition is_ca (vols : list (val * val)) (m : val) : result bool :=
  n <- get m "name" ;;
  if negb (hashable n) then Raise TypeError else
  match default (VStr "") (vdict_get n vols) with VStr s => Ok (endswith s "-openbao-tls") | _ => Raise AttributeError end.
Definition ca_mounts (ps c : val) : result (list val) :=
  vs <- get_list ps "volumes" ;; vols <- flatM volume_secret vs ;; ms <- get_list c "volumeMounts" ;;
  flatM (λ m, b <- is_ca vols m ;; if (b : bool) then p <- item m "mountPath" ;; Ok [p] else Ok []) ms.

Definition env_item (e : val) : result (list (val * string)) :=
  b <- str_in "value" e ;; if (b : bool) then n <- item e "name" ;; v <- item e "value" ;; vdict_item n (py_str v) else Ok [].
Definition under_path (v p : string) : bool := existsb (λ part, str_eqb part p || startswith part (p +:+ "/")) (str_split v ":").
Definition path_hit (v : string) (p : val) : result bool :=
  if negb (truthy p) then Ok false else match p with VStr p => Ok (under_path v p) | _ => Raise TypeError end.
Definition env_trusts (last : list (val * string)) (paths : list val) (n : string) : result bool :=
  match vdict_get (VStr n) last with
  | Some v => if str_eqb v "" then Ok false else anyM (path_hit v) paths
  | None => Ok false
  end.
Definition count (n : val) (l : list val) : nat := length (List.filter (λ x, py_eq x n) l).
Definition trusts (c : val) (paths : list val) : result (bool * list val) :=
  es <- get_list c "env" ;; names <- mapR (λ e, item e "name") es ;; dup <- py_sorted_set (List.filter (λ n, 1 <? count n names) names) ;;
  last <- flatM env_item es ;; hits <- mapR (env_trusts last paths) TRUST_ENV ;; Ok (existsb id hits, dup).

(** ** The judgment of a render *)

Definition has_hcl (d : val) : result bool :=
  k <- get d "kind" ;;
  if negb (py_eq k (VStr "ConfigMap")) then Ok false else data <- get_dict d "data" ;; str_in "openbao.hcl" data.
Definition judge_listener (d : val) : result (list string) :=
  b <- has_hcl d ;;
  if negb (b : bool) then Ok [] else
  data <- item d "data" ;; l <- item data "openbao.hcl" ;;
  match l with
  | VStr listener =>
      let off := found_in DISABLED listener in
      let bare := negb (contains "tls_cert_file" listener) in
      if negb (off || bare) then Ok [] else
      n <- meta_name d ;;
      Ok ((if off then [cat ["ConfigMap "; py_str n; ": the listener sets tls_disable"]] else []) ++
          (if bare then [cat ["ConfigMap "; py_str n; ": the listener names no tls_cert_file"]] else []))
  | _ => Raise TypeError
  end.

Definition container_ports (c : val) : result (list val) :=
  n <- get c "name" ;;
  if negb (py_eq n (VStr "openbao")) then Ok [] else
  ps <- get_list c "ports" ;; flatM (λ p, a <- get p "name" ;; b <- get p "containerPort" ;; set_of [a; b]) ps.
Definition doc_ports (d : val) : result (list val) :=
  k <- get d "kind" ;; pod <- in_set k POD_KINDS ;;
  if negb (pod : bool) then Ok [] else
  m <- get_dict d "metadata" ;; n <- get_default m "name" (VStr "") ;;
  match n with
  | VStr n => if negb (endswith n "-openbao") then Ok [] else ps <- pod_spec d ;; cs <- get_list ps "containers" ;; flatM container_ports cs
  | _ => Raise AttributeError
  end.
Definition judge_port (d : val) (bao_ports : list val) (p : val) : result (list string) :=
  port <- get p "port" ;; t <- get_default p "targetPort" port ;;
  if negb (hashable t) then Raise TypeError else
  if existsb (py_eq t) bao_ports then Ok [] else
  n <- meta_name d ;; pn <- get p "name" ;; shown <- get p "targetPort" ;;
  Ok [cat ["Service "; py_str n; ": port "; py_str pn; " targets "; py_str shown; ", which the OpenBao container does not serve"]].
Definition judge_service (bao_ports : list val) (d : val) : result (list string) :=
  k <- get d "kind" ;;
  if negb (py_eq k (VStr "Service")) then Ok [] else
  n <- meta_name d ;;
  match n with
  | VStr n => if negb (endswith n "-openbao" && nonempty bao_ports) then Ok [] else
              s <- get_dict d "spec" ;; ps <- get_list s "ports" ;; flatM (judge_port d bao_ports) ps
  | _ => Raise AttributeError
  end.

Definition plain_addresses (text : string) : list string := sorted_set (map f_text (re_finditer PLAIN text)).
Definition judge_text (text : string) : list string := map (λ m, "a plaintext OpenBao address: " +:+ m) (plain_addresses text).

(** A client object that names OpenBao as its server, and no CA *)
Definition no_ca (v : val) (ca : string) : result bool :=
  s <- get_default v "server" (VStr "") ;;
  if negb (contains "openbao" (py_str s)) then Ok false else
  a <- get v ca ;; if truthy a then Ok false else b <- get v "caBundle" ;; Ok (negb (truthy b)).
Definition naked (d kind v : val) (ca : string) : result (list string) :=
  b <- no_ca v ca ;;
  if (b : bool) then n <- meta_name d ;; Ok [cat [py_str kind; " "; py_str n; ": dials OpenBao and names no CA"]] else Ok [].
Definition judge_client (d kind spec : val) : result (list string) :=
  a <- (if in_tuple kind ["ClusterSecretStore"; "SecretStore"; "VaultDynamicSecret"]
        then v <- get_dict spec "provider" ;; w <- get v "vault" ;; naked d kind (por w v) "caProvider" else Ok []) ;;
  b <- (if in_tuple kind ["ClusterIssuer"; "Issuer"] then v <- get_dict spec "vault" ;; naked d kind v "caBundleSecretRef" else Ok []) ;;
  Ok (a ++ b).

Section guard.
(** [yaml.safe_dump(v)], [yaml.safe_load_all(text)] *)
Context (dump : val → string) (load_all : string → result (list val)).

Definition body_of (c : val) : result string :=
  e <- get c "env" ;; k <- get c "command" ;; a <- get c "args" ;; Ok (dump (VDict [("env", e); ("command", k); ("args", a)])).
Definition dials (body : string) : bool := found_in TLS body.
Definition judge_container (d kind ps c : val) : result (list string) :=
  body <- body_of c ;; paths <- ca_mounts ps c ;; r <- trusts c paths ;; n <- meta_name d ;; cn <- get c "name" ;;
  let whr := cat [py_str kind; " "; py_str n; " container "; py_str cn] in
  Ok ((if nonempty r.2 then [cat [whr; ": sets "; py_repr (VList r.2); " more than once, and the kubelet keeps only the last"]] else []) ++
      (if dials body && negb r.1 then [whr +:+ ": dials OpenBao and does not trust the CA of the listener"] else [])).
Definition containers (ps : val) : result (list val) :=
  a <- or_empty ps "initContainers" ;; b <- or_empty ps "containers" ;; l <- added a b ;; Ok l.
Definition judge_doc (d : val) : result (list string) :=
  kind <- get d "kind" ;; spec <- get_dict d "spec" ;; a <- judge_client d kind spec ;;
  pod <- in_set kind POD_KINDS ;;
  if negb (pod : bool) then Ok a else
  ps <- pod_spec d ;; cs <- containers ps ;; b <- flatM (judge_container d kind ps) cs ;; Ok (a ++ b).
Definition judge (docs : list val) (text : string) : result (list string) :=
  a <- flatM judge_listener docs ;; ports <- flatM doc_ports docs ;; b <- flatM (judge_service ports) docs ;;
  c <- flatM judge_doc docs ;; Ok (a ++ b ++ judge_text text ++ c).

Definition script_findings (name text : string) : list string := map (λ m, cat [name; ": a plaintext OpenBao address: "; m]) (plain_addresses text).

(** ** The repository *)

Definition issuer_cmd : list string :=
  ["helm"; "template"; "gibson"; "helm/gibson"; "--namespace"; "gibson"; "-f"; "helm/testdata/render-inputs/gibson.yaml"; "-f";
   "helm/gibson/values-baseline.yaml"; "--set"; "gibson-workloads.certManager.issuers.vault.enabled=true"; "--set";
   "gibson-workloads.certManager.issuers.vault.path=pki_int/sign/gibson"; "--set";
   "gibson-workloads.certManager.issuers.vault.auth.appRole.roleId=example-role-id"].
Definition dicts_of (text : string) : result (list val) := docs <- load_all text ;; Ok (List.filter is_dict docs).
Definition render_with_vault_issuer (helm : list string → process) : result (list val * string) :=
  let r := helm issuer_cmd in
  if negb (returncode r =? 0)%Z then Raise (SystemExit ("the render with the vault issuer failed: " +:+ last_chars 400 (strip (stderr r)))) else
  docs <- dicts_of (stdout r) ;; Ok (docs, stdout r).
Definition judge_golden (f : string * string) : result (list (list string)) :=
  docs <- dicts_of f.2 ;; b <- anyM has_hcl docs ;;
  if negb (b : bool) then Ok [] else xs <- judge docs f.2 ;; Ok [map (λ x, cat [f.1; ": "; x]) xs].
Definition is_vault_issuer (d : val) : result bool :=
  k <- get d "kind" ;; if negb (py_eq k (VStr "ClusterIssuer")) then Ok false else s <- get_dict d "spec" ;; v <- get s "vault" ;; Ok (truthy v).
(** [golden], [values], [scripts]: the files by name, with their texts, in order *)
Definition audit (golden values scripts : list (string * string)) (helm : list string → process) : result (list string * nat) :=
  gs <- flatM judge_golden golden ;; r <- render_with_vault_issuer helm ;; issuer <- anyM is_vault_issuer r.1 ;; xs <- judge r.1 r.2 ;;
  Ok (concat gs ++ (if (issuer : bool) then [] else ["the render with the vault issuer holds no vault ClusterIssuer: this check is blind to it"]) ++
      map (λ x, "vault-issuer render: " +:+ x) xs ++ concat (map (λ f, script_findings f.1 f.2) values) ++
      (if nonempty scripts then [] else ["no operator script under scripts/: this check is blind to them"]) ++
      concat (map (λ f, script_findings f.1 f.2) scripts) ++
      (if nonempty gs then [] else ["no golden render holds the OpenBao ConfigMap: this check is blind"]), length gs).
Definition main (golden values scripts : list (string * string)) (helm : list string → process) : result Z :=
  r <- audit golden values scripts helm ;; Ok (if nonempty r.1 then 1%Z else 0%Z).
End guard.

(** ** The self-test *)

Definition line (l : list string) : string := str_join newline l +:+ newline.
Definition hcl_ok : string := line [unquoted "listener `tcp` {"; unquoted "  tls_cert_file = `/x`"; "}"].
Definition hcl_off : string := line [unquoted "listener `tcp` {"; unquoted "  tls_cert_file = `/x`"; "tls_disable = true"; "}"].
Definition hcl_bare : string := line [unquoted "listener `tcp` {"; "}"].
Definition cm (hcl : string) : val :=
  VDict [("kind", VStr "ConfigMap"); ("metadata", str_dict [("name", "bao")]); ("data", str_dict [("openbao.hcl", hcl)])].
Definition volume (name secret : string) : val := VDict [("name", VStr name); ("secret", str_dict [("secretName", secret)])].
Definition ca_vol : val := volume "openbao-ca" "gibson-openbao-tls".
Definition var (name value : string) : val := str_dict [("name", name); ("value", value)].
Definition ca_env : list val := [var "CURL_CA_BUNDLE" "/etc/gibson/openbao-ca/ca.crt"].
Definition client (addr : string) (env : list val) (vol : val) : val :=
  VDict [("name", VStr "c"); ("env", VList (var "BAO_ADDR" addr :: env));
         ("volumeMounts", VList [VDict [("name", fld vol "name"); ("mountPath", VStr "/etc/gibson/openbao-ca")]])].
Definition job_of (kind addr : string) (env : list val) (vol : val) : val :=
  let ps := VDict [("containers", VList [client addr env vol]); ("volumes", VList [vol])] in
  VDict [("kind", VStr kind); ("metadata", str_dict [("name", "j")]);
         ("spec", if str_eqb kind "Pod" then ps else VDict [("template", VDict [("spec", ps)])])].
Definition job (addr : string) : val := job_of "Job" addr ca_env ca_vol.
Definition https_port (rest : list (string * val)) : val := VList [VDict (("name", VStr "https") :: rest)].
Definition bao (port_name : string) : list val :=
  [VDict [("kind", VStr "StatefulSet"); ("metadata", str_dict [("name", "gibson-openbao")]);
          ("spec", VDict [("template", VDict [("spec", VDict [("containers", VList [VDict [("name", VStr "openbao");
             ("ports", https_port [("containerPort", VInt 8200)])]])])])])];
   VDict [("kind", VStr "Service"); ("metadata", str_dict [("name", "gibson-openbao")]);
          ("spec", VDict [("ports", https_port [("port", VInt 8200); ("targetPort", VStr port_name)])])]].
Definition addr : string := "https://gibson-openbao.gibson.svc:8200".
Definition dialer (kind name : string) (place : list (string * val) → val) (ca : list (string * val)) : val :=
  VDict [("kind", VStr kind); ("metadata", str_dict [("name", name)]); ("spec", place (("server", VStr addr) :: ca))].
Definition store (ca : bool) : val :=
  dialer "ClusterSecretStore" "s" (λ v, VDict [("provider", VDict [("vault", VDict v)])]) (if ca then [("caProvider", str_dict [("name", "x")])] else []).
Definition issuer (ca : bool) : val :=
  dialer "ClusterIssuer" "i" (λ v, VDict [("vault", VDict v)]) (if ca then [("caBundleSecretRef", str_dict [("name", "x")])] else []).
Definition cert_dir : val := var "SSL_CERT_DIR" "/etc/ssl/certs:/etc/gibson/openbao-ca".
Definition good : list val := [cm hcl_ok] ++ bao "https" ++ [job addr; store true; issuer true; job_of "Job" addr [cert_dir] ca_vol].
Definition failing : list (list val * nat) :=
  [([cm hcl_off], 1); ([cm hcl_bare], 1); (cm hcl_ok :: bao "http", 1); ([cm hcl_ok; job "http://gibson-openbao:8200"], 1);
   ([cm hcl_ok; job "http://127.0.0.1:8200"], 1); ([cm hcl_ok; store false], 1); ([cm hcl_ok; issuer false], 1);
   ([cm hcl_ok; job_of "Job" addr ca_env (volume "tls" "other")], 1);
   ([cm hcl_ok; job_of "Job" addr [cert_dir; var "SSL_CERT_DIR" "/etc/ssl/certs:/etc/ssl/fga-ca"] ca_vol], 2);
   ([cm hcl_ok; job_of "Pod" addr [] ca_vol], 1)].
Definition curl_line (scheme : string) : string :=
  line [cat [unquoted "curl -sS `"; scheme; unquoted "://127.0.0.1:8200/v1/secret/data/$K`"]].
(** The documents are printed as flow text, which YAML reads as well. *)
Definition dump_all (docs : list val) : string := str_join newline (map json_text docs).
Definition selftest (dump : val → string) : result Z :=
  g <- judge dump good (dump_all good) ;;
  if nonempty g then Ok 1%Z else
  missed <- anyM (λ '(docs, n), got <- judge dump docs (dump_all docs) ;; Ok (negb (length got =? n))) failing ;;
  if (missed : bool) then Ok 1%Z else
  if negb (nonempty (script_findings "set.sh" (curl_line "http"))) then Ok 1%Z else
  Ok (if nonempty (script_findings "set.sh" (curl_line "https")) then 1%Z else 0%Z).
Lemma openbaotls_selftest : selftest json_text = Ok 0%Z.
Proof. vm_compute. reflexivity. Qed.

(** ** What a clean run proves *)

(** A text holds a plaintext address of OpenBao. *)
Definition plaintext (s : string) : Prop :=
  ∃ a h mark b, s = a +:+ "http://" +:+ h +:+ mark +:+ b ∧ str_forallb host_char h = true ∧ mark ∈ ["openbao"; ":8200"].
(** A text dials OpenBao over TLS, by its name or on the loopback address. *)
Definition dials_openbao (s : string) : Prop :=
  ∃ a host b, s = a +:+ "https://" +:+ host +:+ ":8200" +:+ b ∧
    (host = "127.0.0.1" ∨ ∃ h t, host = h +:+ "openbao" +:+ t ∧ str_forallb host_char h = true ∧ str_forallb host_char t = true).
(** A listener turns TLS off. *)
Definition turned_off (s : string) : Prop := ∃ a ws b, s = a +:+ "tls_disable" +:+ ws +:+ "=" +:+ b ∧ str_forallb is_space ws = true.

Lemma plaintext_found s : plaintext s → found_in PLAIN s = true.
Proof.
  intros (a & h & mark & b & -> & Hh & Hm). rewrite found_in_iff.
  destruct (app_suffix_of a None ("http://" +:+ h +:+ mark +:+ b)) as [p Hp]. destruct (step_str "http://" p (h +:+ mark +:+ b)) as [p1 H1].
  destruct (step_star host_char h p1 (mark +:+ b) Hh) as [p2 H2]. destruct (step_str mark p2 b) as [p3 H3].
  exists (p, "http://" +:+ h +:+ mark +:+ b), (p3, b). split; [exact Hp|]. apply step_cat_iff. eexists. split; [exact H1|].
  assert (step (plain_host mark) (p1, h +:+ mark +:+ b) (p3, b)) as H.
  { apply step_cat_iff. eexists. split; [exact H2|]. apply step_cat_iff. eexists. split; [exact H3|constructor]. }
  rewrite !elem_of_cons in Hm. destruct Hm as [-> |[-> |Hm%elem_of_nil]]; [by apply step_alt_l|by apply step_alt_r|done].
Qed.
Lemma dials_found s : dials_openbao s → dials s = true.
Proof.
  intros (a & host & b & -> & Hh). change (found_in TLS (a +:+ "https://" +:+ host +:+ ":8200" +:+ b) = true). rewrite found_in_iff.
  destruct (app_suffix_of a None ("https://" +:+ host +:+ ":8200" +:+ b)) as [p Hp].
  destruct (step_str "https://" p (host +:+ ":8200" +:+ b)) as [p1 H1].
  assert (∃ p2, step (RAlt (RSeq [RStar (RChr host_char); RStr "openbao"; RStar (RChr host_char)]) (RStr "127.0.0.1")) (p1, host +:+ ":8200" +:+ b)
    (p2, ":8200" +:+ b)) as [p2 H2].
  { destruct Hh as [->|(h & t & -> & Hh & Ht)].
    - destruct (step_str "127.0.0.1" p1 (":8200" +:+ b)) as [p2 H2]. exists p2. by apply step_alt_r.
    - rewrite !append_assoc. destruct (step_star host_char h p1 ("openbao" +:+ t +:+ ":8200" +:+ b) Hh) as [p2 H2].
      destruct (step_str "openbao" p2 (t +:+ ":8200" +:+ b)) as [p3 H3]. destruct (step_star host_char t p3 (":8200" +:+ b) Ht) as [p4 H4].
      exists p4. apply step_alt_l, step_cat_iff. eexists. split; [exact H2|]. apply step_cat_iff. by eexists. }
  destruct (step_str ":8200" p2 b) as [p3 H3]. exists (p, "https://" +:+ host +:+ ":8200" +:+ b), (p3, b). split; [exact Hp|].
  apply step_cat_iff. eexists. split; [exact H1|]. apply step_cat_iff. by eexists.
Qed.
Lemma turned_off_found s : turned_off s → found_in DISABLED s = true.
Proof.
  intros (a & ws & b & -> & Hw). rewrite found_in_iff. destruct (app_suffix_of a None ("tls_disable" +:+ ws +:+ "=" +:+ b)) as [p Hp].
  destruct (step_str "tls_disable" p (ws +:+ "=" +:+ b)) as [p1 H1]. destruct (step_star is_space ws p1 ("=" +:+ b) Hw) as [p2 H2].
  exists (p, "tls_disable" +:+ ws +:+ "=" +:+ b), (Some "="%char, b). split; [exact Hp|]. apply step_cat_iff. eexists. split; [exact H1|].
  apply step_cat_iff. eexists. split; [exact H2|]. by constructor.
Qed.
Lemma plain_clean s : plain_addresses s = [] → ¬ plaintext s.
Proof.
  unfold plain_addresses. intros H Hp. assert (s ≠ "") as Hs by (intros ->; destruct Hp as ([|] & ? & ? & ? & ? & _); done).
  apply plaintext_found, not_false_iff_true in Hp. apply Hp, finditer_nil; [done|].
  destruct (re_finditer PLAIN s) as [|m ms] eqn:E; [done|]. assert (f_text m ∈ sorted_set (map f_text (m :: ms))) as Hm by (apply sorted_set_elem; left).
  rewrite H in Hm. by apply elem_of_nil in Hm.
Qed.

(** A container mounts the listener Secret at a path. *)
Definition mounts_ca (ps c : val) (p : string) : Prop :=
  ∃ vs v ms m secret, py_iter (por (fld ps "volumes") (VList [])) = Ok vs ∧ v ∈ vs ∧
    py_iter (por (fld c "volumeMounts") (VList [])) = Ok ms ∧ m ∈ ms ∧ py_eq (fld v "name") (fld m "name") = true ∧
    fld (dict_fld v "secret") "secretName" = VStr secret ∧ endswith secret "-openbao-tls" = true ∧ fld m "mountPath" = VStr p ∧ p ≠ "".
(** A variable that names the CA has a part at or under that path. *)
Definition trusts_ca (ps c : val) : Prop :=
  ∃ es e n p, py_iter (por (fld c "env") (VList [])) = Ok es ∧ e ∈ es ∧ n ∈ TRUST_ENV ∧ fld e "name" = VStr n ∧
    mounts_ca ps c p ∧ ∃ part, part ∈ str_split (py_str (fld e "value")) ":" ∧ (part = p ∨ startswith part (p +:+ "/") = true).
(** No variable of a container is set twice. *)
Definition env_once (c : val) : Prop :=
  ∀ es n, py_iter (por (fld c "env") (VList [])) = Ok es → count (VStr n) (map (λ e, fld e "name") es) ≤ 1.

Lemma existsb_id l : existsb id l = true ↔ true ∈ l.
Proof. rewrite existsb_elem_of. split; [by intros (x & ? & E); cbn in E; subst|by exists true]. Qed.
Lemma names_of_env es ns : mapR (λ e, item e "name") es = Ok ns → ns = map (λ e, fld e "name") es.
Proof. rewrite mapR_Ok. induction 1 as [|e n es ns ->%item_fld H IH]; [done|]. cbn. by rewrite <- IH. Qed.
Lemma no_dup names n : py_sorted_set (List.filter (λ n, 1 <? count n names) names) = Ok [] → count (VStr n) names ≤ 1.
Proof.
  intros H. destruct (Nat.le_gt_cases (count (VStr n) names) 1) as [|Hgt]; [done|]. exfalso.
  assert (VStr n ∈ List.filter (λ n, 1 <? count n names) names) as Hin.
  { apply list_elem_of_In, filter_In. split; [|by apply Nat.ltb_lt]. unfold count in Hgt.
    destruct (List.filter (λ x, py_eq x (VStr n)) names) as [|x l] eqn:E; [cbn in Hgt; lia|].
    assert (x ∈ x :: l) as Hx by left. rewrite <- E in Hx. apply list_elem_of_In, filter_In in Hx as [Hx Hn]. by apply py_eq_str_r in Hn as ->. }
  apply (sorted_set_strs _ _ _ H) in Hin. by apply elem_of_nil in Hin.
Qed.
Lemma ca_mounts_elem ps c paths p : ca_mounts ps c = Ok paths → VStr p ∈ paths → p ≠ "" → mounts_ca ps c p.
Proof.
  unfold ca_mounts. intros (vs & Hvs%get_list_is & H)%bind_Ok Hp Hne. apply bind_Ok in H as (vols & Hvols & H). apply bind_Ok in H as (ms & Hms%get_list_is & H).
  apply (flatM_elem _ _ _ H) in Hp as (m & l & Hm & Hl & Hp). apply bind_Ok in Hl as (b & Hb & Hl). destruct b; [|injection Hl as <-; by apply elem_of_nil in Hp].
  apply bind_Ok in Hl as (path & ->%item_fld & [= <-]). apply list_elem_of_singleton in Hp. unfold is_ca in Hb. apply bind_Ok in Hb as (n & ->%get_Ok & Hb).
  destruct (negb _); [done|]. destruct (vdict_get (fld m "name") vols) as [x|] eqn:Eg; [|done]. change (default (VStr "") (Some x)) with x in Hb.
  destruct x as [| | |s| |]; try done. injection Hb as Hb. apply vdict_get_elem in Eg as (k & Hin & Hk). apply (flatM_elem _ _ _ Hvols) in Hin as (v & r & Hv & Hr & Hin).
  unfold volume_secret in Hr. apply bind_Ok in Hr as (n & ->%get_Ok & Hr). apply bind_Ok in Hr as (sc & ->%get_dict_is & Hr). apply bind_Ok in Hr as (y & ->%get_Ok & Hr).
  unfold vdict_item in Hr. destruct (hashable (fld v "name")); [|done]. injection Hr as <-. apply list_elem_of_singleton in Hin as [= -> Hs].
  exists vs, v, ms, m, s. split_and!; try done. unfold por in Hs. destruct (truthy _) in Hs; [by symmetry|]. injection Hs as ->. done.
Qed.
Lemma trusts_clean ps c paths r : ca_mounts ps c = Ok paths → trusts c paths = Ok (r, []) → env_once c ∧ (r = true → trusts_ca ps c).
Proof.
  intros Hp H. unfold trusts in H. apply bind_Ok in H as (es & Hes%get_list_is & H). apply bind_Ok in H as (names & Hnames%names_of_env & H).
  apply bind_Ok in H as (dup & Hdup & H). apply bind_Ok in H as (last & Hlast & H). apply bind_Ok in H as (hits & Hhits & H). apply Ok_inj, pair_equal_spec in H as [<- ->].
  subst names. split.
  { intros es' n Hes'. rewrite Hes in Hes'. injection Hes' as <-. by apply no_dup. }
  intros Hh%existsb_id. destruct (mapR_elem _ _ _ _ Hhits Hh) as (n & Hn & Ht). unfold env_trusts in Ht.
  destruct (vdict_get (VStr n) last) as [v|] eqn:Eg; [|done]. destruct (str_eqb v ""); [done|]. apply anyM_true in Ht as (p & Hin & Ht).
  unfold path_hit in Ht. destruct (truthy p) eqn:Etp; [|done]. cbn [negb] in Ht. destruct p as [| | |p| |]; try done. injection Ht as Ht.
  apply vdict_get_elem in Eg as (k & Hin2 & Hkn). apply py_eq_str_r in Hkn as ->. apply (flatM_elem _ _ _ Hlast) in Hin2 as (e & l & He & Hl & Hk).
  unfold env_item in Hl. apply bind_Ok in Hl as (b & _ & Hl). destruct b; [|injection Hl as <-; by apply elem_of_nil in Hk].
  apply bind_Ok in Hl as (en & ->%item_fld & Hl). apply bind_Ok in Hl as (ev & ->%item_fld & Hl). unfold vdict_item in Hl.
  destruct (hashable (fld e "name")); [|done]. injection Hl as <-. apply list_elem_of_singleton in Hk as [= Hkk ->].
  exists es, e, n, p. split_and!; try done.
  - apply (ca_mounts_elem _ _ _ _ Hp Hin). by intros ->.
  - unfold under_path in Ht. apply existsb_elem_of in Ht as (part & Hpart & [->%str_eqb_eq|Ht]%orb_true_iff); [exists p; split; [done|by left]|].
    exists part. split; [done|by right].
Qed.

(** A client object that names OpenBao as its server names a CA. *)
Definition names_ca (v : val) (ca : string) : Prop :=
  ∀ s, get_default v "server" (VStr "") = Ok s → contains "openbao" (py_str s) = true →
    truthy (fld v ca) = true ∨ truthy (fld v "caBundle") = true.
(** OpenBao serves TLS only in a render, and each client of it verifies it. *)
Record tls_only (dump : val → string) (docs : list val) (text : string) : Prop := {
  to_listener : ∀ d l, d ∈ docs → fld d "kind" = VStr "ConfigMap" → fld (dict_fld d "data") "openbao.hcl" = VStr l →
    ¬ turned_off l ∧ contains "tls_cert_file" l = true;
  to_text : ¬ plaintext text;
  to_store : ∀ d kind, d ∈ docs → kind ∈ ["ClusterSecretStore"; "SecretStore"; "VaultDynamicSecret"] → fld d "kind" = VStr kind →
    let p := dict_fld (dict_fld d "spec") "provider" in names_ca (por (fld p "vault") p) "caProvider";
  to_issuer : ∀ d kind, d ∈ docs → kind ∈ ["ClusterIssuer"; "Issuer"] → fld d "kind" = VStr kind →
    names_ca (dict_fld (dict_fld d "spec") "vault") "caBundleSecretRef";
  to_container : ∀ d kind ps cs c, d ∈ docs → kind ∈ POD_KINDS → fld d "kind" = VStr kind → pod_spec d = Ok ps → containers ps = Ok cs → c ∈ cs →
    env_once c ∧ ∀ body, body_of dump c = Ok body → dials_openbao body → trusts_ca ps c }.

Lemma listener_clean d l : judge_listener d = Ok [] → fld d "kind" = VStr "ConfigMap" → fld (dict_fld d "data") "openbao.hcl" = VStr l →
  ¬ turned_off l ∧ contains "tls_cert_file" l = true.
Proof.
  unfold judge_listener. intros (b & Hb & H)%bind_Ok Hk Hl. unfold has_hcl in Hb. apply bind_Ok in Hb as (k & ->%get_Ok & Hb).
  rewrite Hk, py_eq_refl_str in Hb. cbn [negb] in Hb. apply bind_Ok in Hb as (data & ->%get_dict_is & Hb). destruct b.
  2: { destruct (dict_fld d "data") as [| | | | |dd] eqn:Ed; try discriminate Hl. cbn in Hb, Hl. by destruct (alist_get "openbao.hcl" dd). }
  cbn [negb] in H. apply bind_Ok in H as (data & ->%item_fld & H). apply bind_Ok in H as (x & ->%item_fld & H).
  assert (fld (fld d "data") "openbao.hcl" = VStr l) as Hx.
  { revert Hl. unfold dict_fld, por. by destruct (truthy (fld d "data")). }
  rewrite Hx in H. destruct (found_in DISABLED l) eqn:Ef, (contains "tls_cert_file" l) eqn:Ec; cbn [negb orb] in H;
    try (by apply bind_Ok in H as (n & _ & [=])). split; [|done]. intros Ht%turned_off_found. congruence.
Qed.
Lemma naked_clean d kind v ca : naked d kind v ca = Ok [] → names_ca v ca.
Proof.
  unfold naked. intros (b & Hb & H)%bind_Ok s Hs Hc. destruct b; [by apply bind_Ok in H as (n & _ & [=])|]. unfold no_ca in Hb. rewrite Hs in Hb.
  cbn [rbind] in Hb. rewrite Hc in Hb. cbn [negb] in Hb. apply bind_Ok in Hb as (a & ->%get_Ok & Hb). destruct (truthy (fld v ca)); [by left|right].
  apply bind_Ok in Hb as (x & ->%get_Ok & [= Hb]). by apply negb_false_iff in Hb.
Qed.
Lemma container_clean dump d kind ps c : judge_container dump d kind ps c = Ok [] →
  env_once c ∧ ∀ body, body_of dump c = Ok body → dials_openbao body → trusts_ca ps c.
Proof.
  unfold judge_container. intros (body & Hb & H)%bind_Ok. apply bind_Ok in H as (paths & Hp & H). apply bind_Ok in H as ([ok dup] & Ht & H).
  apply bind_Ok in H as (n & _ & H). apply bind_Ok in H as (cn & _ & H%Ok_inj). cbn [fst snd] in H. apply app_eq_nil in H as [Hd Hk].
  destruct dup; [|done]. destruct (trusts_clean _ _ _ _ Hp Ht) as [Hone Htr]. split; [done|]. intros body' Hb' Hdial%dials_found.
  rewrite Hb in Hb'. injection Hb' as <-. rewrite Hdial in Hk. destruct ok; [by apply Htr|done].
Qed.
Lemma in_tuple_elem kind l : kind ∈ l → in_tuple (VStr kind) l = true.
Proof. intros H. unfold in_tuple. apply existsb_elem_of. exists kind. split; [done|]. apply py_eq_refl_str. Qed.

Lemma judge_tls_only dump docs text : judge dump docs text = Ok [] → tls_only dump docs text.
Proof.
  unfold judge. intros (a & Ha & H)%bind_Ok. apply bind_Ok in H as (ports & _ & H). apply bind_Ok in H as (b & _ & H). apply bind_Ok in H as (c & Hc & H%Ok_inj).
  apply app_eq_nil in H as [-> H]. apply app_eq_nil in H as [-> H]. apply app_eq_nil in H as [Ht ->]. apply map_eq_nil in Ht.
  assert (∀ d, d ∈ docs → judge_client d (fld d "kind") (dict_fld d "spec") = Ok []) as Hdoc.
  { intros d Hd. pose proof (proj1 (flatM_nil _ _) Hc d Hd) as Hj. unfold judge_doc in Hj.
    apply bind_Ok in Hj as (k & ->%get_Ok & Hj). apply bind_Ok in Hj as (s & ->%get_dict_is & Hj). apply bind_Ok in Hj as (x & Hx & Hj). rewrite Hx. f_equal.
    apply bind_Ok in Hj as (pod & _ & Hj). destruct pod; [|by injection Hj]. cbn [negb] in Hj. apply bind_Ok in Hj as (ps & _ & Hj).
    apply bind_Ok in Hj as (cs & _ & Hj). apply bind_Ok in Hj as (y & _ & Hj%Ok_inj). by apply app_eq_nil in Hj as [-> _]. }
  split.
  - intros d l Hd. apply listener_clean. by apply (proj1 (flatM_nil _ _) Ha).
  - by apply plain_clean.
  - intros d kind Hd Hk Hkind. pose proof (Hdoc d Hd) as Hj. unfold judge_client in Hj. rewrite Hkind, (in_tuple_elem _ _ Hk) in Hj.
    apply bind_Ok in Hj as (x & Hx & Hj). apply bind_Ok in Hj as (y & _ & Hj%Ok_inj). apply app_eq_nil in Hj as [-> _].
    apply bind_Ok in Hx as (p & ->%get_dict_is & Hx). apply bind_Ok in Hx as (w & ->%get_Ok & Hx). by apply naked_clean in Hx.
  - intros d kind Hd Hk Hkind. pose proof (Hdoc d Hd) as Hj. unfold judge_client in Hj. rewrite Hkind, (in_tuple_elem _ _ Hk) in Hj.
    apply bind_Ok in Hj as (x & _ & Hj). apply bind_Ok in Hj as (y & Hy & Hj%Ok_inj). apply app_eq_nil in Hj as [_ ->].
    apply bind_Ok in Hy as (p & ->%get_dict_is & Hy). by apply naked_clean in Hy.
  - intros d kind ps cs c Hd Hk Hkind Hps Hcs Hin. pose proof (proj1 (flatM_nil _ _) Hc d Hd) as Hj. unfold judge_doc in Hj.
    apply bind_Ok in Hj as (k & ->%get_Ok & Hj). apply bind_Ok in Hj as (s & _ & Hj). apply bind_Ok in Hj as (x & _ & Hj).
    rewrite Hkind in Hj. unfold in_set in Hj. cbn [hashable] in Hj. rewrite (in_tuple_elem _ _ Hk), Hps in Hj. cbn [rbind negb] in Hj. rewrite Hcs in Hj.
    cbn [rbind] in Hj. apply bind_Ok in Hj as (y & Hy & Hj%Ok_inj). apply app_eq_nil in Hj as [_ ->]. apply (container_clean dump d (VStr kind)).
    by apply (proj1 (flatM_nil _ _) Hy).
Qed.

(** C24: when main of check-openbao-tls.py exits 0, OpenBao serves TLS only and each
    client verifies it in each golden render that holds the OpenBao config, of
    which there is one, and in the render with the vault issuer; and no values
    file and no operator script holds a plaintext address of OpenBao. *)
Theorem clean_openbao_is_tls_only dump load_all golden values scripts helm :
  main dump load_all golden values scripts helm = Ok 0%Z →
  (∃ f docs, f ∈ golden ∧ dicts_of load_all f.2 = Ok docs ∧ tls_only dump docs f.2) ∧
  (∀ f docs, f ∈ golden → dicts_of load_all f.2 = Ok docs → anyM has_hcl docs = Ok true → tls_only dump docs f.2) ∧
  (∃ docs, dicts_of load_all (stdout (helm issuer_cmd)) = Ok docs ∧ tls_only dump docs (stdout (helm issuer_cmd))) ∧
  ∀ f, f ∈ values ++ scripts → ¬ plaintext f.2.
Proof.
  unfold main, audit. intros (r & Hr & H)%bind_Ok. apply bind_Ok in Hr as (gs & Hgs & Hr). apply bind_Ok in Hr as (rd & Hrd & Hr).
  apply bind_Ok in Hr as (issuer & _ & Hr). apply bind_Ok in Hr as (xs & Hxs & [= <-]). cbn [fst] in H. destruct (concat gs ++ _) eqn:E; [clear H|done].
  apply app_eq_nil in E as [Hc E]. apply app_eq_nil in E as [_ E]. apply app_eq_nil in E as [Hx E]. apply app_eq_nil in E as [Hv E].
  apply app_eq_nil in E as [_ E]. apply app_eq_nil in E as [Hs Hne]. apply map_eq_nil in Hx as ->.
  assert (∀ f docs xs, judge_golden dump load_all f = Ok [xs] → xs = [] → dicts_of load_all f.2 = Ok docs → tls_only dump docs f.2) as Hg.
  { intros f docs ys Hj -> Hd. unfold judge_golden in Hj. rewrite Hd in Hj. cbn [rbind] in Hj. apply bind_Ok in Hj as (b & _ & Hj).
    destruct b; [|done]. cbn [negb] in Hj. apply bind_Ok in Hj as (zs & Hz & [= Hm]). apply map_eq_nil in Hm as ->. by apply judge_tls_only. }
  assert (∀ ys, ys ∈ gs → ys = []) as Hnil by (intros ys Hys; by apply (proj1 (concat_nil _) Hc)). split_and!.
  - destruct gs as [|ys gs]; [done|]. assert (ys ∈ ys :: gs) as Hy by left. pose proof (Hnil _ Hy) as Ey. apply (flatM_elem _ _ _ Hgs) in Hy as (f & l & Hf & Hl & Hin).
    pose proof Hl as Hl'. unfold judge_golden in Hl. apply bind_Ok in Hl as (docs & Hd & Hl). apply bind_Ok in Hl as (b & _ & Hl).
    destruct b; [|injection Hl as <-; by apply elem_of_nil in Hin]. cbn [negb] in Hl. apply bind_Ok in Hl as (zs & _ & [= <-]).
    apply list_elem_of_singleton in Hin as ->. exists f, docs. split_and!; [done..|]. by apply (Hg f docs _ Hl' Ey).
  - intros f docs Hf Hd Hb. destruct (flatM_Ok_elem _ _ _ _ Hgs Hf) as (l & Hl). pose proof Hl as Hl'. unfold judge_golden in Hl.
    rewrite Hd in Hl. cbn [rbind] in Hl. rewrite Hb in Hl. cbn [rbind negb] in Hl. apply bind_Ok in Hl as (zs & _ & [= <-]).
    refine (Hg f docs _ Hl' _ Hd). apply Hnil, (flatM_elem _ _ _ Hgs). eexists f, _. split_and!; [done..|left].
  - unfold render_with_vault_issuer in Hrd. cbv zeta in Hrd. destruct (negb _); [done|]. apply bind_Ok in Hrd as (docs & Hd & [= <-]).
    exists docs. split; [done|]. by apply judge_tls_only.
  - intros f [Hf|Hf]%elem_of_app; apply plain_clean; [apply (concat_map_nil _ _ _ Hv) in Hf|apply (concat_map_nil _ _ _ Hs) in Hf]; by apply map_eq_nil in Hf.
Qed.
Definition live_helm (args : list string) : process := Process 0 (dump_all good) "".
Definition live_all (text : string) : result (list val) := if str_eqb text (dump_all good) then Ok good else Ok [].
Lemma clean_openbao_is_tls_only_witness :
  main json_text live_all [("values-baseline.yaml", dump_all good)] [("values.yaml", "")] [("set.sh", curl_line "https")] live_helm = Ok 0%Z ∧
  ¬ plaintext (curl_line "https") ∧ tls_only json_text good (dump_all good).
Proof.
  assert (main json_text live_all [("values-baseline.yaml", dump_all good)] [("values.yaml", "")] [("set.sh", curl_line "https")] live_helm = Ok 0%Z)
    as H by (vm_compute; reflexivity).
  split; [exact H|]. destruct (clean_openbao_is_tls_only _ _ _ _ _ _ H) as (_ & Hg & _ & Hf). split.
  - apply (Hf ("set.sh", curl_line "https")). right. left.
  - apply (Hg ("values-baseline.yaml", dump_all good) good); [left|vm_compute; reflexivity|vm_compute; reflexivity].
Defined.
