(* ===== verification/SpireFederation.v ===== *)
(** * scripts/check-spire-federation.py: the install federates with an outside fleet

    The baseline render federates nothing; the fixture render federates the
    trust domain of the fleet both ways; and nine bad values fail the render,
    each with its own reason.  Helm and the YAML parser are arguments. *)
From S2P Require Import Prelude PyStr PyVal Regex.
From Stdlib Require Import Ascii.

Definition FIXTURE : string := "tests/fixtures/spire-federation/values.yaml".
Definition SETEC : string := "gibson-workloads.gibson.sandbox.setec.".
(** The label, the arguments of helm, and a text that the refusal holds *)
Definition REFUSED : list (string * list string * string) :=
  let fed := SETEC +:+ "federation." in
  [("a fleet in another domain with no bundle source", ["--set"; fed +:+ "bundleEndpointURL="], "set sandbox.setec.federation.bundleEndpointURL");
   ("a federation value with the fleet in the install domain", ["--set"; SETEC +:+ "spiffeID="], "the federation would do nothing");
   ("an endpoint ID outside the fleet domain", ["--set"; fed +:+ "endpointSPIFFEID=spiffe://other.example/spire/server"],
    "endpointSPIFFEID must be a SPIFFE ID in the fleet domain");
   ("the bundle endpoint on with no peer", ["--set-json"; "global.networkPolicy.spireBundleEndpointFrom.namespaces=[]"], "names no peer");
   ("an empty endpoint ID with the https_spiffe profile", ["--set-string"; fed +:+ "endpointSPIFFEID="],
    unquoted "must be a SPIFFE ID in the fleet domain `fleet.example.org` with the https_spiffe profile, got ``");
   ("no first bundle with the https_spiffe profile", ["--set-string"; fed +:+ "trustDomainBundle="],
    "trustDomainBundle is required with the https_spiffe profile");
   ("a first bundle that is not JSON", ["--set-string"; fed +:+ "trustDomainBundle=not-json"], "must be a SPIFFE bundle in JSON with at least one key");
   ("a first bundle with no key", ["--set-json"; fed +:+ unquoted "trustDomainBundle=`{\`keys\`:[]}`"],
    "must be a SPIFFE bundle in JSON with at least one key");
   ("the install domain as the fleet domain", ["--set-string"; SETEC +:+ "spiffeID=spiffe://{own}/ns/setec-fleet/sa/setec-frontend"],
    "the federation would do nothing")].

Definition render_cmd (extra : list string) (fixture : bool) : list string :=
  ["helm"; "template"; "gibson"; "helm/gibson"; "--namespace"; "gibson"; "-f"; "helm/gibson/values-baseline.yaml"; "-f";
   "helm/testdata/render-inputs/gibson.yaml"] ++ (if fixture then ["-f"; FIXTURE] else []) ++ extra.

Definition is_object (kind name : string) (d : val) : result bool :=
  k <- get d "kind" ;; if negb (py_eq k (VStr kind)) then Ok false else n <- meta_name d ;; Ok (py_eq n (VStr name)).
Definition find (docs : list val) (kind name : string) : result (list val) := filterM (is_object kind name) docs.
Definition DOMAIN : regex := RSeq [RBegin; RStr "spiffe://"; RGroup 1 (RPlus (RChr (λ c, negb (Ascii.eqb c "/"))))].
Definition domain_of (s : string) : string := match re_match DOMAIN s with Some m => group_text m 1 | None => "" end.
Definition domain (spiffe_id : val) : result string :=
  match por spiffe_id (VStr "") with VStr s => Ok (domain_of s) | _ => Raise TypeError end.

Record facts_of := Facts {
  f_daemon : list val; f_ftd : list val; f_svc : list val; f_ingress : list val; f_egress : list val; fleet_id : val; own : string }.
Section guard.
(** The document of a text, or [None] for a text that is no YAML; the documents of a render *)
Context (yaml_load : string → option val) (load_all : string → result (list val)).

(** The fleet that a text of a ConfigMap names *)
Definition fleet_of (v : val) : result (list val) :=
  match v with
  | VStr text =>
      match yaml_load text with
      | Some (VDict d) => s <- get_dict (VDict d) "sandbox" ;; t <- get_dict s "setec" ;; i <- get t "spiffe_id" ;; Ok (if truthy i then [i] else [])
      | _ => Ok []
      end
  | _ => Raise AttributeError
  end.
Definition fleets_in (d : val) : result (list val) :=
  k <- get d "kind" ;;
  if negb (py_eq k (VStr "ConfigMap")) then Ok [] else data <- get_dict d "data" ;; kvs <- items data ;; flatM fleet_of kvs.*2.
Definition facts (docs : list val) : result facts_of :=
  daemon <- find docs "ClusterSPIFFEID" "gibson-platform-daemon" ;;
  ftd <- find docs "ClusterFederatedTrustDomain" "gibson-setec-fleet" ;;
  svc <- find docs "Service" "gibson-server" ;; ingress <- find docs "CiliumNetworkPolicy" "gibson-spire-bundle-endpoint" ;;
  egress <- find docs "CiliumNetworkPolicy" "gibson-spire-fleet-bundle" ;; ids <- flatM fleets_in docs ;;
  own <- match daemon with
         | d :: _ => s <- item d "spec" ;; t <- item s "spiffeIDTemplate" ;; domain t
         | [] => Ok ""
         end ;;
  Ok (Facts daemon ftd svc ingress egress (default (VStr "") (last ids)) own).

Definition spec_ports (s : val) : result (list val) := sp <- item s "spec" ;; ps <- get_default sp "ports" (VList []) ;; py_iter ps.
Definition federation_port (s : val) : result bool :=
  ps <- spec_ports s ;; anyM (λ p, n <- get p "name" ;; Ok (py_eq n (VStr "federation"))) ps.
Definition note (b : bool) (text : string) : list string := if b then [text] else [].
Definition check_base (docs : list val) : result (list string) :=
  f <- facts docs ;;
  match f_daemon f with
  | [daemon] =>
      s <- item daemon "spec" ;; with' <- str_in "federatesWith" s ;; port <- anyM federation_port (f_svc f) ;;
      Ok (note with' "the baseline daemon registration has federatesWith" ++
          note (nonempty (f_ftd f)) "the baseline renders ClusterFederatedTrustDomain gibson-setec-fleet" ++
          note port "the baseline SPIRE Service has a federation port" ++
          note (nonempty (f_ingress f) || nonempty (f_egress f)) "the baseline renders a SPIRE federation policy")
  | _ => Ok ["the render holds no ClusterSPIFFEID gibson-platform-daemon"]
  end.

Definition NS : string := "k8s:io.kubernetes.pod.namespace".
(** The namespace and the port of each rule with endpoints *)
Definition rule_pair (peers : string) (r : val) : result (list (val * val)) :=
  es <- get r peers ;;
  if negb (truthy es) then Ok [] else
  es <- item r peers ;; e <- index es 0 ;; l <- item e "matchLabels" ;; ns <- get l NS ;;
  tp <- item r "toPorts" ;; t <- index tp 0 ;; ps <- item t "ports" ;; p <- index ps 0 ;; port <- item p "port" ;;
  if hashable ns && hashable port then Ok [(ns, port)] else Raise TypeError.
Definition policy_pairs (policy : val) (direction peers : string) : result (list (val * val)) :=
  s <- item policy "spec" ;; rs <- get_list s direction ;; flatM (rule_pair peers) rs.
Definition opens (got : list (val * val)) (port : string) : bool := existsb (pair_eqb (VStr "spire-fleet", VStr port)) got.
Definition check_policy (ps : list val) (direction peers port absent verb shown : string) : result (list string) :=
  match ps with
  | [policy] =>
      got <- policy_pairs policy direction peers ;;
      if opens got port then Ok [] else t <- show_pairs got ;; Ok [cat ["the "; verb; " "; t; ", not spire-fleet on "; shown]]
  | _ => Ok [absent]
  end.
Definition port_item (p : val) : result (list (val * val)) := n <- get p "name" ;; x <- get p "port" ;; vdict_item n x.
Definition check_fixture (docs : list val) : result (list string) :=
  f <- facts docs ;;
  match f_daemon f, f_ftd f, f_svc f with
  | [daemon], [ftd], [svc] =>
      want <- domain (fleet_id f) ;;
      if str_eqb want "" || str_eqb want (own f)
      then Ok [cat ["the daemon config names fleet "; py_repr (fleet_id f); ", not a fleet in another trust domain: the fixture tests nothing"]] else
      fs <- item ftd "spec" ;; td <- get fs "trustDomain" ;; fc <- get fs "className" ;; ds <- item daemon "spec" ;; dc <- get ds "className" ;;
      fw <- get ds "federatesWith" ;; ps <- spec_ports svc ;; ports <- flatM port_item ps ;;
      let port := default VNone (vdict_get (VStr "federation") ports) in
      a <- check_policy (f_ingress f) "ingress" "fromEndpoints" (py_str port) "no policy admits the peers on the bundle endpoint"
             "bundle endpoint policy admits" (py_str port) ;;
      b <- check_policy (f_egress f) "egress" "toEndpoints" "8443" "no policy opens the bundle endpoint of the fleet domain to the SPIRE server"
             "fleet bundle policy opens" "8443" ;;
      Ok (note (negb (py_eq td (VStr want)))
            (cat ["the ClusterFederatedTrustDomain is for "; py_repr td; ", and the daemon dials a fleet in "; repr_str want]) ++
          note (negb (py_eq fc dc)) "the ClusterFederatedTrustDomain and the daemon registration have two class names" ++
          note (negb (py_eq fw (strs [want]))) (cat ["the daemon federatesWith is "; py_str fw; ", want ["; repr_str want; "]"]) ++
          note (negb (existsb (λ e, py_eq e.1 (VStr "federation")) ports)) "the SPIRE Service has no federation port" ++ a ++ b)
  | d, t, s =>
      Ok [cat ["the fixture render holds "; str_of_int (Z.of_nat (length d)); " daemon registrations, "; str_of_int (Z.of_nat (length t));
               " ClusterFederatedTrustDomain gibson-setec-fleet and "; str_of_int (Z.of_nat (length s)); " SPIRE Services, want one each"]]
  end.

(** ** The renders *)

Definition render (helm : list string → process) (extra : list string) (fixture : bool) : result (option (list val) * string) :=
  let out := helm (render_cmd extra fixture) in
  if negb (returncode out =? 0)%Z then Ok (None, stderr out) else
  docs <- load_all (stdout out) ;; Ok (Some (List.filter is_dict docs), "").
Definition check_refused (helm : list string → process) (own : string) (r : string * list string * string) : result (list string) :=
  let '(label, extra, reason) := r in
  d <- render helm (map (λ x, str_replace x "{own}" own) extra) true ;;
  Ok (match d with
      | (Some _, _) => [cat ["FAILING FIXTURE: "; label; " rendered, and it must fail the render"]]
      | (None, err) => note (negb (contains reason err)) (cat ["FAILING FIXTURE: "; label; " failed the render for another reason than "; repr_str reason])
      end).
Definition main (helm : list string → process) : result Z :=
  base <- render helm [] false ;; fix' <- render helm [] true ;;
  match base.1, fix'.1 with
  | Some base, Some fix' =>
      a <- check_base base ;; b <- check_fixture fix' ;; f <- facts base ;; c <- flatM (check_refused helm (own f)) REFUSED ;;
      Ok (if nonempty (map (λ x, "baseline: " +:+ x) a ++ map (λ x, "fixture: " +:+ x) b ++ c) then 1%Z else 0%Z)
  | _, _ => Ok 1%Z
  end.

(** ** The self-test *)

Definition in_object (kind name : string) (d : val) : bool := is_kind kind d && named name d.
Definition edited (docs : list val) (kind name : string) (f : val → val) : list val := edit_first (in_object kind name) f docs.
Definition without (docs : list val) (name : string) : list val := List.filter (λ d, negb (named name d)) docs.
Definition failing (base fix' : list val) : list (result (list string)) :=
  [check_fixture (edited fix' "ClusterSPIFFEID" "gibson-platform-daemon" (pop [K "spec"] "federatesWith"));
   check_fixture (edited fix' "ClusterFederatedTrustDomain" "gibson-setec-fleet" (put [K "spec"; K "trustDomain"] (VStr "x.example")));
   check_fixture (without fix' "gibson-spire-fleet-bundle"); check_fixture (without fix' "gibson-spire-bundle-endpoint");
   check_base (edited base "ClusterSPIFFEID" "gibson-platform-daemon" (put [K "spec"; K "federatesWith"] (strs ["x.example"])))].
Definition selftest (base fix' : list val) : result Z :=
  fs <- mapR id (failing base fix') ;; a <- check_base base ;; b <- check_fixture fix' ;;
  Ok (if forallb nonempty fs && negb (nonempty a) && negb (nonempty b) then 0%Z else 1%Z).
End guard.

(** Renders in the shape of the two of the repository *)
Definition object (kind name : string) (spec : list (string * val)) : val :=
  VDict [("kind", VStr kind); ("metadata", str_dict [("name", name)]); ("spec", VDict spec)].
Definition daemon_fixture (rest : list (string * val)) : val :=
  object "ClusterSPIFFEID" "gibson-platform-daemon"
    ([("className", VStr "gibson"); ("spiffeIDTemplate", VStr "spiffe://gibson.example/ns/gibson/sa/daemon")] ++ rest).
Definition server_fixture (ports : list val) : val := object "Service" "gibson-server" [("ports", VList ports)].
Definition grpc : val := VDict [("name", VStr "grpc"); ("port", VInt 443)].
Definition config_fixture (text : string) : val :=
  VDict [("kind", VStr "ConfigMap"); ("metadata", str_dict [("name", "gibson-config")]); ("data", str_dict [("config.yaml", text)])].
Definition policy_fixture (name direction peers : string) (port : string) : val :=
  object "CiliumNetworkPolicy" name
    [(direction, VList [VDict [(peers, VList [VDict [("matchLabels", str_dict [(NS, "spire-fleet")])]]);
                               ("toPorts", VList [VDict [("ports", VList [str_dict [("port", port)]])]])]])].
Definition base_docs : list val := [daemon_fixture []; server_fixture [grpc]; config_fixture "none"].
Definition fixture_docs : list val :=
  [daemon_fixture [("federatesWith", strs ["fleet.example.org"])];
   object "ClusterFederatedTrustDomain" "gibson-setec-fleet" [("className", VStr "gibson"); ("trustDomain", VStr "fleet.example.org")];
   server_fixture [grpc; VDict [("name", VStr "federation"); ("port", VInt 8443)]]; config_fixture "fleet";
   policy_fixture "gibson-spire-bundle-endpoint" "ingress" "fromEndpoints" "8443";
   policy_fixture "gibson-spire-fleet-bundle" "egress" "toEndpoints" "8443"].
Definition config_load (text : string) : option val :=
  if str_eqb text "fleet"
  then Some (VDict [("sandbox", VDict [("setec", str_dict [("spiffe_id", "spiffe://fleet.example.org/ns/setec-fleet/sa/setec-frontend")])])])
  else Some VNone.
Lemma spirefederation_selftest : selftest config_load base_docs fixture_docs = Ok 0%Z.
Proof. vm_compute. reflexivity. Qed.

(** ** What a clean run proves *)

Definition the (docs : list val) (kind name : string) (d : val) : Prop := find docs kind name = Ok [d].
Definition absent (docs : list val) (kind name : string) : Prop :=
  ∀ d, d ∈ docs → fld d "kind" = VStr kind → fld (fld d "metadata") "name" ≠ VStr name.
(** A rule of a policy names the namespace of the fleet and a port. *)
Definition rule_for (policy : val) (direction peers port : string) : Prop :=
  ∃ rs r es tp ps e, py_iter (por (fld (fld policy "spec") direction) (VList [])) = Ok rs ∧ r ∈ rs ∧
    truthy (fld r peers) = true ∧ fld r peers = VList es ∧ es !! 0 = Some e ∧ fld (fld e "matchLabels") NS = VStr "spire-fleet" ∧
    fld r "toPorts" = VList tp ∧ ∃ t p, tp !! 0 = Some t ∧ fld t "ports" = VList ps ∧ ps !! 0 = Some p ∧ fld p "port" = VStr port.

Lemma domain_of_shape s : domain_of s ≠ "" → ∃ r, s = "spiffe://" +:+ domain_of s +:+ r ∧ str_forallb (λ c, negb (Ascii.eqb c "/")) (domain_of s) = true.
Proof.
  unfold domain_of. destruct (re_match DOMAIN s) as [m|] eqn:H; [|done]. intros _. unfold re_match, match_at, DOMAIN in H. cbn [RSeq] in H.
  next_part H s1 L1. next_part H s2 L2. next_part H s3 L3. injection H as <-.
  apply step_assertion in L1 as [= <- <-]; [|done]. apply step_str_iff in L2 as ->. cbn [snd] in *. apply step_plus_iff in L3 as (d & -> & Hd & Hs).
  unfold group_text, group. cbn -[Regex.consumed str_forallb]. rewrite consumed_app. by exists s3.
Qed.
Lemma fleet_find_elem docs kind name l d : find docs kind name = Ok l → d ∈ l → d ∈ docs ∧ fld d "kind" = VStr kind ∧ fld (fld d "metadata") "name" = VStr name.
Proof.
  unfold find. intros H Hd. apply (filterM_Ok _ _ _ H) in Hd as [Hin Hd]. unfold is_object in Hd. apply bind_Ok in Hd as (k & ->%get_Ok & Hd).
  destruct (py_eq _ _) eqn:E; [|done]. apply py_eq_str_r in E. cbn [negb] in Hd. apply bind_Ok in Hd as (n & ->%meta_name_fld & [= Hd%py_eq_str_r]). done.
Qed.
Lemma find_absent docs kind name : find docs kind name = Ok [] → absent docs kind name.
Proof.
  unfold find. intros H d Hd Hk Hn. assert (is_object kind name d ≠ Ok true) as Hno.
  { intros E. assert (d ∈ @nil val) as Hin by (by apply (filterM_Ok _ _ _ H)). by apply elem_of_nil in Hin. }
  destruct (filterM_total _ _ _ _ H Hd) as (b & Hb). rewrite Hb in Hno. destruct b; [done|]. unfold is_object in Hb.
  apply bind_Ok in Hb as (k & ->%get_Ok & Hb). rewrite Hk, py_eq_refl_str in Hb. cbn [negb] in Hb. apply bind_Ok in Hb as (n & ->%meta_name_fld & [= Hb]).
  by rewrite Hn, py_eq_refl_str in Hb.
Qed.
Lemma index_item v k x : ∀ e, index v 0 = Ok e → item e k = Ok x → ∃ l, v = VList l ∧ l !! 0 = Some e ∧ x = fld e k.
Proof.
  intros e He Hx. destruct v as [| | |s|l|]; try done; cbn in He.
  - destruct (String.get 0 s); [|done]. by injection He as <-.
  - destruct l as [|y l]; [done|]. injection He as ->. exists (e :: l). split_and!; [done..|]. by apply item_fld.
Qed.
Lemma rule_pair_for policy direction peers port got :
  policy_pairs policy direction peers = Ok got → opens got port = true → rule_for policy direction peers port.
Proof.
  unfold policy_pairs, opens. intros (s & ->%item_fld & H)%bind_Ok Ho. apply bind_Ok in H as (rs & Hrs%get_list_is & H).
  apply existsb_elem_of in Ho as ([ns pt] & Hin & [Hns Hpt]%andb_true_iff). cbn [fst snd] in *. apply py_eq_str in Hns as ->, Hpt as ->.
  apply (flatM_elem _ _ _ H) in Hin as (r & l & Hr & Hl & Hin). unfold rule_pair in Hl. apply bind_Ok in Hl as (es & ->%get_Ok & Hl).
  destruct (truthy (fld r peers)) eqn:Et; [|injection Hl as <-; by apply elem_of_nil in Hin]. cbn [negb] in Hl.
  apply bind_Ok in Hl as (es & ->%item_fld & Hl). apply bind_Ok in Hl as (e & He & Hl). apply bind_Ok in Hl as (ls & Hls & Hl).
  apply bind_Ok in Hl as (ns & ->%get_Ok & Hl). apply bind_Ok in Hl as (tp & ->%item_fld & Hl). apply bind_Ok in Hl as (t & Ht & Hl).
  apply bind_Ok in Hl as (ps & Hps & Hl). apply bind_Ok in Hl as (p & Hp & Hl). apply bind_Ok in Hl as (pt & Hpt & Hl).
  destruct (_ && _); [|done]. injection Hl as <-. apply list_elem_of_singleton in Hin as [= Hns Hport].
  destruct (index_item _ _ _ _ He Hls) as (es & Ees & Hes & ->). destruct (index_item _ _ _ _ Ht Hps) as (tp & Etp & Htp & ->).
  destruct (index_item _ _ _ _ Hp Hpt) as (ps & Eps & Hps' & ->). exists rs, r, es, tp, ps, e. split_and!; try done. by exists t, p.
Qed.
Lemma policy_clean ps direction peers port a v s : check_policy ps direction peers port a v s = Ok [] →
  ∃ policy, ps = [policy] ∧ rule_for policy direction peers port.
Proof.
  unfold check_policy. destruct ps as [|policy [|]]; try done. intros (got & Hg & H)%bind_Ok. exists policy. split; [done|].
  destruct (opens got port) eqn:E; [by apply (rule_pair_for _ _ _ _ got)|]. by apply bind_Ok in H as (t & _ & [=]).
Qed.
Lemma note_nil b t : note b t = [] → b = false.
Proof. by destruct b. Qed.
Lemma py_eq_strs1 v s : py_eq v (strs [s]) = true → v = strs [s].
Proof.
  destruct v as [| | | |[|x [|y l]]|]; try done.
  - change (py_eq (VList [x]) (strs [s])) with (py_eq x (VStr s) && true). by intros [->%py_eq_str_r _]%andb_true_iff.
  - change (py_eq (VList (x :: y :: l)) (strs [s])) with (py_eq x (VStr s) && false). by rewrite andb_false_r.
Qed.

(** The baseline render federates nothing. *)
Record base_closed (docs : list val) : Prop := {
  bc_daemon : ∃ d, the docs "ClusterSPIFFEID" "gibson-platform-daemon" d ∧ str_in "federatesWith" (fld d "spec") = Ok false;
  bc_ftd : absent docs "ClusterFederatedTrustDomain" "gibson-setec-fleet";
  bc_ports : ∀ s ps p, s ∈ docs → is_object "Service" "gibson-server" s = Ok true → spec_ports s = Ok ps → p ∈ ps → fld p "name" ≠ VStr "federation";
  bc_ingress : absent docs "CiliumNetworkPolicy" "gibson-spire-bundle-endpoint";
  bc_egress : absent docs "CiliumNetworkPolicy" "gibson-spire-fleet-bundle" }.
(** The fixture render federates the trust domain of the fleet both ways. *)
Record federated (yaml_load : string → option val) (docs : list val) : Prop := {
  fd_ways : ∃ f daemon ftd svc ingress egress want ports port,
    facts yaml_load docs = Ok f ∧ the docs "ClusterSPIFFEID" "gibson-platform-daemon" daemon ∧
    the docs "ClusterFederatedTrustDomain" "gibson-setec-fleet" ftd ∧ the docs "Service" "gibson-server" svc ∧
    the docs "CiliumNetworkPolicy" "gibson-spire-bundle-endpoint" ingress ∧ the docs "CiliumNetworkPolicy" "gibson-spire-fleet-bundle" egress ∧
    domain (fleet_id f) = Ok want ∧ want ≠ "" ∧ want ≠ own f ∧
    fld (fld ftd "spec") "trustDomain" = VStr want ∧ py_eq (fld (fld ftd "spec") "className") (fld (fld daemon "spec") "className") = true ∧
    fld (fld daemon "spec") "federatesWith" = strs [want] ∧
    spec_ports svc = Ok ports ∧ (∃ p, p ∈ ports ∧ fld p "name" = VStr "federation" ∧ fld p "port" = port) ∧
    rule_for ingress "ingress" "fromEndpoints" (py_str port) ∧ rule_for egress "egress" "toEndpoints" "8443" }.

Lemma facts_fields yaml_load docs f : facts yaml_load docs = Ok f →
  find docs "ClusterSPIFFEID" "gibson-platform-daemon" = Ok (f_daemon f) ∧ find docs "ClusterFederatedTrustDomain" "gibson-setec-fleet" = Ok (f_ftd f) ∧
  find docs "Service" "gibson-server" = Ok (f_svc f) ∧ find docs "CiliumNetworkPolicy" "gibson-spire-bundle-endpoint" = Ok (f_ingress f) ∧
  find docs "CiliumNetworkPolicy" "gibson-spire-fleet-bundle" = Ok (f_egress f).
Proof.
  unfold facts. intros (a & Ha & H)%bind_Ok. apply bind_Ok in H as (b & Hb & H). apply bind_Ok in H as (c & Hc & H). apply bind_Ok in H as (d & Hd & H).
  apply bind_Ok in H as (e & He & H). apply bind_Ok in H as (ids & _ & H). by apply bind_Ok in H as (o & _ & [= <-]).
Qed.
Lemma base_clean yaml_load docs : check_base yaml_load docs = Ok [] → base_closed docs.
Proof.
  unfold check_base. intros (f & Hf & H)%bind_Ok. destruct (facts_fields _ _ _ Hf) as (H1 & H2 & H3 & H4 & H5).
  destruct (f_daemon f) as [|daemon [|]]; try done. apply bind_Ok in H as (s & ->%item_fld & H). apply bind_Ok in H as (w & Hw & H).
  apply bind_Ok in H as (port & Hp & H%Ok_inj). apply app_eq_nil in H as [->%note_nil H]. apply app_eq_nil in H as [Hft%note_nil H].
  apply app_eq_nil in H as [->%note_nil Hpol%note_nil]. apply orb_false_iff in Hpol as [Hi He]. split.
  - by exists daemon.
  - apply find_absent. rewrite H2. by destruct (f_ftd f).
  - intros sv ps p Hs Hobj Hps Hin Hn. assert (sv ∈ f_svc f) as Hsv by (by apply (filterM_Ok _ _ _ H3)).
    apply (proj1 (anyM_false _ _) Hp) in Hsv. unfold federation_port in Hsv. rewrite Hps in Hsv. cbn [rbind] in Hsv.
    apply (proj1 (anyM_false _ _) Hsv) in Hin. apply bind_Ok in Hin as (n & ->%get_Ok & [= Hin]). by rewrite Hn, py_eq_refl_str in Hin.
  - apply find_absent. rewrite H4. by destruct (f_ingress f).
  - apply find_absent. rewrite H5. by destruct (f_egress f).
Qed.
Lemma port_found ps ports : flatM port_item ps = Ok ports → existsb (λ e, py_eq e.1 (VStr "federation")) ports = true →
  ∃ p, p ∈ ps ∧ fld p "name" = VStr "federation" ∧ fld p "port" = default VNone (vdict_get (VStr "federation") ports).
Proof.
  intros H E. assert (∃ x, vdict_get (VStr "federation") ports = Some x) as (x & Ex).
  { apply existsb_elem_of in E as (e & He & Hk). unfold vdict_get.
    destruct (List.find (λ e, py_eq e.1 (VStr "federation")) (rev ports)) as [y|] eqn:Ef; [by eexists|]. exfalso.
    apply list_elem_of_In, in_rev in He. pose proof (find_none _ _ Ef _ He) as Hn. cbn beta in Hn. congruence. }
  rewrite Ex. change (default VNone (Some x)) with x. apply vdict_get_elem in Ex as (k & Hin & Hk). apply py_eq_str_r in Hk as ->.
  apply (flatM_elem _ _ _ H) in Hin as (p & l & Hp & Hl & Hin). unfold port_item in Hl. apply bind_Ok in Hl as (n & ->%get_Ok & Hl).
  apply bind_Ok in Hl as (y & ->%get_Ok & Hl). unfold vdict_item in Hl. destruct (hashable (fld p "name")); [|done]. injection Hl as <-.
  apply list_elem_of_singleton in Hin as [= Hn ->]. by exists p.
Qed.
Lemma fixture_clean yaml_load docs : check_fixture yaml_load docs = Ok [] → federated yaml_load docs.
Proof.
  unfold check_fixture. intros (f & Hf & H)%bind_Ok. destruct (facts_fields _ _ _ Hf) as (H1 & H2 & H3 & H4 & H5).
  destruct (f_daemon f) as [|daemon [|]]; try done; destruct (f_ftd f) as [|ftd [|]]; try done; destruct (f_svc f) as [|svc [|]]; try done.
  apply bind_Ok in H as (want & Hw & H). destruct (str_eqb want "" || str_eqb want (own f)) eqn:Ew; [done|]. apply orb_false_iff in Ew as [Ew1 Ew2].
  apply bind_Ok in H as (fs & ->%item_fld & H). apply bind_Ok in H as (td & ->%get_Ok & H). apply bind_Ok in H as (fc & ->%get_Ok & H).
  apply bind_Ok in H as (ds & ->%item_fld & H). apply bind_Ok in H as (dc & ->%get_Ok & H). apply bind_Ok in H as (fw & ->%get_Ok & H).
  apply bind_Ok in H as (ps & Hps & H). apply bind_Ok in H as (ports & Hports & H). apply bind_Ok in H as (a & Ha & H). apply bind_Ok in H as (b & Hb & H%Ok_inj).
  apply app_eq_nil in H as [Htd%note_nil H]. apply app_eq_nil in H as [Hcl%note_nil H]. apply app_eq_nil in H as [Hfw%note_nil H].
  apply app_eq_nil in H as [Hpt%note_nil H]. apply app_eq_nil in H as [-> ->]. apply negb_false_iff in Htd, Hcl, Hfw, Hpt.
  apply policy_clean in Ha as (ingress & Hi & Hri), Hb as (egress & He & Hre). rewrite Hi in H4. rewrite He in H5.
  destruct (port_found _ _ Hports Hpt) as (p & Hp & Hn & Hport). split.
  exists f, daemon, ftd, svc, ingress, egress, want, ps, (fld p "port"). split_and!; try done.
  - intros ->. done.
  - intros ->. by rewrite str_eqb_refl in Ew2.
  - by apply py_eq_str_r.
  - by apply py_eq_strs1.
  - by exists p.
  - by rewrite Hport.
Qed.

(** When main of check-spire-federation.py exits 0, the baseline render
    federates nothing, the render of the fixture federates the trust domain of
    the fleet, which is not the domain of the install, both ways, and helm
    refuses each bad value, with the reason that the table names. *)
Theorem clean_fleet_federates yaml_load load_all helm :
  main yaml_load load_all helm = Ok 0%Z →
  ∃ base fix' f, render load_all helm [] false = Ok (Some base, "") ∧ render load_all helm [] true = Ok (Some fix', "") ∧
    base_closed base ∧ federated yaml_load fix' ∧ facts yaml_load base = Ok f ∧
    ∀ label extra reason, (label, extra, reason) ∈ REFUSED →
      let out := helm (render_cmd (map (λ x, str_replace x "{own}" (own f)) extra) true) in
      returncode out ≠ 0%Z ∧ contains reason (stderr out) = true.
Proof.
  unfold main. intros (bs & Hbs & H)%bind_Ok. apply bind_Ok in H as (fx & Hfx & H). destruct bs as [[base|] e1], fx as [[fix'|] e2]; try done. cbn [fst] in H.
  apply bind_Ok in H as (a & Ha & H). apply bind_Ok in H as (b & Hb & H). apply bind_Ok in H as (f & Hf & H). apply bind_Ok in H as (c & Hc & H).
  destruct (_ ++ _) eqn:E in H; [clear H|done]. apply app_eq_nil in E as [->%map_eq_nil E]. apply app_eq_nil in E as [->%map_eq_nil ->].
  exists base, fix', f. split_and!.
  - unfold render in Hbs |- *. destruct (negb _); [done|]. by apply bind_Ok in Hbs as (d & -> & [= <- <-]).
  - unfold render in Hfx |- *. destruct (negb _); [done|]. by apply bind_Ok in Hfx as (d & -> & [= <- <-]).
  - by apply (base_clean yaml_load).
  - by apply fixture_clean.
  - done.
  - intros label extra reason Hin. pose proof (proj1 (flatM_nil _ _) Hc _ Hin) as Hr. unfold check_refused in Hr. apply bind_Ok in Hr as (d & Hd & Hr).
    unfold render in Hd. cbv zeta in *. destruct (returncode _ =? 0)%Z eqn:Ez; cbn [negb] in Hd.
    + apply bind_Ok in Hd as (docs & _ & [= <-]). done.
    + injection Hd as <-. injection Hr as Hr%note_nil. apply negb_false_iff in Hr. split; [by apply Z.eqb_neq|done].
Qed.
(** A helm that renders the two renders, and refuses the rest with every reason *)
Definition live_helm (args : list string) : process :=
  if bool_decide (args = render_cmd [] false) then Process 0 "base" ""
  else if bool_decide (args = render_cmd [] true) then Process 0 "fixture" ""
  else Process 1 "" (str_join newline (map snd REFUSED)).
Definition live_all (text : string) : result (list val) := Ok (if str_eqb text "base" then base_docs else fixture_docs).
Lemma clean_fleet_federates_witness :
  main config_load live_all live_helm = Ok 0%Z ∧ ∃ docs, federated config_load docs.
Proof.
  assert (main config_load live_all live_helm = Ok 0%Z) as H by (vm_compute; reflexivity). split; [exact H|].
  destruct (clean_fleet_federates _ _ _ H) as (base & fix' & f & _ & _ & _ & Hf & _). by exists fix'.
Defined.
