(* ===== verification/CgRotation.v ===== *)
(** * scripts/check-cg-rotation-window.py: the signing-key set has its three slots

    The six files that the ExternalSecret projects, their six references, and
    the volume of the daemon.  Helm and the YAML printer are arguments. *)
From S2P Require Import Prelude PyStr PyVal Json.

Definition SECRET : string := "gibson-gibson-workloads-cg-signing-key".
Definition BACKEND : string := "gibson-cg-signing-key".
Definition PREVIOUS_BACKEND : string := "gibson-cg-signing-key-previous".
Definition MOUNT : string := "/etc/gibson/cg-signing-key".
Definition ENV_VAR : string := "GIBSON_CGJWT_SIGNING_KEY_DIR".
Definition NEXT_BACKEND : string := "gibson-cg-signing-key-next".
Definition render_cmd : list string :=
  ["helm"; "template"; "gibson"; "helm/gibson"; "-f"; "helm/gibson/values-baseline.yaml"; "-f"; "helm/testdata/render-inputs/gibson.yaml";
   "--namespace"; "gibson"].
(** [helm]: the parsed documents that a command line prints *)
Definition render (helm : list string → result (list val)) : result (list val) := docs <- helm render_cmd ;; Ok (List.filter truthy docs).

Definition is_external (d : val) : result bool :=
  andR (kind_is "ExternalSecret" d) (m <- get_dict d "metadata" ;; n <- get m "name" ;; Ok (py_eq n (VStr SECRET))).
Definition external_secret (docs : list val) : result (option val) :=
  firstM (λ d, b <- is_external d ;; Ok (if (b : bool) then Some d else None)) docs.

Definition want_files : list string := ["current.kid"; "current.key"; "next.kid"; "next.key"; "previous.kid"; "previous.key"].
Definition want_refs : list (string * string) :=
  concat (map (λ b, map (pair b) ["kid"; "key"]) [BACKEND; NEXT_BACKEND; PREVIOUS_BACKEND]).
Definition same_files (files : list string) : bool := forallb (λ f, str_mem f want_files) files && forallb (λ f, str_mem f files) want_files.
Definition ref_in (refs : list (val * val)) (w : string * string) : bool := existsb (pair_eqb (VStr w.1, VStr w.2)) refs.
Definition same_refs (refs : list (val * val)) : bool :=
  forallb (λ r, existsb (λ w, pair_eqb (VStr w.1, VStr w.2) r) want_refs) refs && forallb (ref_in refs) want_refs.
Definition files_of (es : val) : result (list string) :=
  s <- item es "spec" ;; t <- item s "target" ;; t <- item t "template" ;; d <- item t "data" ;; kvs <- items (por d (VDict [])) ;; Ok kvs.*1.
Definition entry_ref (e : val) : result (list (val * val)) :=
  r <- item e "remoteRef" ;; k <- item r "key" ;; r <- item e "remoteRef" ;; p <- item r "property" ;;
  if hashable k && hashable p then Ok [(k, p)] else Raise TypeError.
Definition data_of (es : val) : result (list val) := s <- item es "spec" ;; get_list s "data".
Definition placeholder (f : string) : string := str_replace f "." "_".
Definition judge_secret (es : val) : result (list string) :=
  files <- files_of es ;; data <- data_of es ;; refs <- flatM entry_ref data ;;
  a <- (if same_refs refs then Ok [] else
        got <- show_pairs refs ;; want <- show_pairs (map (prod_map VStr VStr) want_refs) ;;
        Ok [cat ["render: the ExternalSecret reads "; got; ", want "; want]]) ;;
  ks <- mapR (λ e, item e "secretKey") data ;; keys <- set_of ks ;;
  Ok ((if same_files files then [] else
       [cat ["render: the Secret projects "; str_of_strs (sorted_strs files); ", want "; str_of_strs (sorted_strs want_files)]]) ++ a ++
      concat (map (λ f, if existsb (py_eq (VStr (placeholder f))) keys then [] else
             [cat ["render: "; f; " is projected but no data entry provides "; placeholder f; ", so it renders empty in every state"]])
        (sorted_strs files))).

(** The volume of the pod, and the places that name its path *)
Definition volume_item (v : val) : result (list (val * val)) := n <- item v "name" ;; vdict_item n v.
Definition judge_volume (spec : val) : result (list string) :=
  vs <- get_list spec "volumes" ;; vols <- flatM volume_item vs ;;
  match vdict_get (VStr "cg-signing-key") vols with
  | None => Ok ["render: the daemon declares no cg-signing-key volume"]
  | Some v =>
      s <- get_dict v "secret" ;; n <- get s "secretName" ;;
      if negb (py_eq n (VStr SECRET)) then Ok [cat ["render: the cg-signing-key volume reads "; py_repr n; ", want "; repr_str SECRET]] else
      o <- get s "optional" ;;
      Ok (if truthy o then [] else
          ["render: the cg-signing-key volume is not optional, so an install whose backend has no such secret fails to start instead of degrading to the KEK"])
  end.
Definition judge_env (e : val) : result (list string) :=
  n <- item e "name" ;;
  if negb (py_eq n (VStr ENV_VAR)) then Ok [] else
  v <- get e "value" ;; Ok (if py_eq v (VStr MOUNT) then [] else [cat ["render: "; ENV_VAR; "="; py_repr v; ", want "; repr_str MOUNT]]).
Definition judge_mount (m : val) : result (list string) :=
  n <- item m "name" ;;
  if negb (py_eq n (VStr "cg-signing-key")) then Ok [] else
  p <- get m "mountPath" ;;
  Ok (if py_eq p (VStr MOUNT) then [] else
      [cat ["render: the cg-signing-key mountPath is "; py_repr p; ", want "; repr_str MOUNT; " — the loader reads "; ENV_VAR]]).
Definition judge_pod (sts : val) : result (list string) :=
  s <- item sts "spec" ;; t <- item s "template" ;; spec <- item t "spec" ;; a <- judge_volume spec ;; cs <- get_list spec "containers" ;;
  b <- flatM (λ c, es <- get_list c "env" ;; flatM judge_env es) cs ;; c <- flatM (λ c, ms <- get_list c "volumeMounts" ;; flatM judge_mount ms) cs ;;
  Ok (a ++ b ++ c).

Section guard.
(** [yaml.safe_dump(d)] *)
Context (dump : val → string).

Definition daemon (docs : list val) : result (option val) :=
  firstM (λ d, b <- kind_is "StatefulSet" d ;; Ok (if (b : bool) && contains ENV_VAR (dump d) then Some d else None)) docs.
Definition judge (docs : list val) : result (list string) :=
  es <- external_secret docs ;;
  match es with
  | None => Ok [cat ["render: no ExternalSecret/"; SECRET; " in the render"]]
  | Some es =>
      a <- judge_secret es ;; sts <- daemon docs ;;
      match sts with
      | None => Ok (a ++ [cat ["render: no StatefulSet sets "; ENV_VAR]])
      | Some sts => b <- judge_pod sts ;; Ok (a ++ b)
      end
  end.
Definition flag_left (values_text : string) : list string :=
  if contains "rotationWindow" values_text
  then ["values.yaml still declares gibson.cgSigningKey.rotationWindow: the slots are projected always"] else [].
(** [values]: the text of the values file *)
Definition main (helm : list string → result (list val)) (values : string) : result Z :=
  docs <- render helm ;; bad <- judge docs ;; Ok (if nonempty (bad ++ flag_left values) then 1%Z else 0%Z).

(** ** The self-test *)

Definition slot (name backend : string) : list (string * (string * string)) :=
  [(name +:+ ".kid", (backend, "kid")); (name +:+ ".key", (backend, "key"))].
Definition CURRENT : list (string * (string * string)) := slot "current" BACKEND.
Definition NEXT : list (string * (string * string)) := slot "next" NEXT_BACKEND.
Definition PREV : list (string * (string * string)) := slot "previous" PREVIOUS_BACKEND.
Definition ALL : list (string * (string * string)) := CURRENT ++ NEXT ++ PREV.
Definition fixture (files refs : list (string * (string * string))) (optional : bool) (env mount : string) : list val :=
  [VDict [("kind", VStr "ExternalSecret"); ("metadata", str_dict [("name", SECRET)]);
          ("spec", VDict [("target", VDict [("template", VDict [("data", str_dict (map (λ f, (f.1, "x")) files))])]);
                          ("data", VList (map (λ r, VDict [("secretKey", VStr (placeholder r.1));
                                                           ("remoteRef", str_dict [("key", r.2.1); ("property", r.2.2)])]) refs))])];
   VDict [("kind", VStr "StatefulSet"); ("metadata", str_dict [("name", "gibson")]);
          ("spec", VDict [("template", VDict [("spec", VDict [
             ("volumes", VList [VDict [("name", VStr "cg-signing-key"); ("secret", VDict [("secretName", VStr SECRET); ("optional", VBool optional)])]]);
             ("containers", VList [VDict [("name", VStr "gibson"); ("env", VList [str_dict [("name", ENV_VAR); ("value", env)]]);
                                          ("volumeMounts", VList [str_dict [("name", "cg-signing-key"); ("mountPath", mount)]])]])])])])]].
Definition correct : list val := fixture ALL ALL true MOUNT MOUNT.
Definition cases : list (list val * nat) :=
  [(correct, 0); (fixture (CURRENT ++ PREV) (CURRENT ++ PREV) true MOUNT MOUNT, 2); (fixture (CURRENT ++ NEXT) (CURRENT ++ NEXT) true MOUNT MOUNT, 2);
   (fixture ALL (CURRENT ++ NEXT) true MOUNT MOUNT, 3); (fixture ALL ALL false MOUNT MOUNT, 1); (fixture ALL ALL true "/elsewhere" MOUNT, 1)].
Definition selftest (helm : list string → result (list val)) (values : string) : result Z :=
  missed <- anyM (λ '(docs, n), got <- judge docs ;; Ok (negb (length got =? n))) cases ;;
  if (missed : bool) then Ok 1%Z else
  if negb (nonempty (flag_left (cat ["  cgSigningKey:"; newline; "    rotationWindow: false"; newline]))) then Ok 1%Z else
  docs <- render helm ;; live <- judge docs ;; Ok (if nonempty (live ++ flag_left values) then 1%Z else 0%Z).
End guard.
Lemma cgrotation_selftest : selftest json_text (λ _, Ok correct) "" = Ok 0%Z.
Proof. vm_compute. reflexivity. Qed.

(** ** What a clean run proves *)

Definition BACKENDS : list string := [BACKEND; NEXT_BACKEND; PREVIOUS_BACKEND].
(** The ExternalSecret projects the six files, reads the six references and no
    other, and each file has an entry. *)
Record key_set (es : val) (files : list string) (data : list val) : Prop := {
  ks_files : ∀ f, f ∈ files ↔ f ∈ want_files;
  ks_refs : ∀ b p, b ∈ BACKENDS → p ∈ ["kid"; "key"] →
    ∃ e, e ∈ data ∧ fld (fld e "remoteRef") "key" = VStr b ∧ fld (fld e "remoteRef") "property" = VStr p;
  ks_only : ∀ e, e ∈ data → ∃ b p, b ∈ BACKENDS ∧ p ∈ ["kid"; "key"] ∧ fld (fld e "remoteRef") "key" = VStr b ∧ fld (fld e "remoteRef") "property" = VStr p;
  ks_entries : ∀ f, f ∈ want_files → ∃ e, e ∈ data ∧ fld e "secretKey" = VStr (placeholder f) }.
(** The pod mounts the Secret, when there is one, where the loader reads it. *)
Record slots_mounted (spec : val) : Prop := {
  sm_volume : ∃ vs v, py_iter (por (fld spec "volumes") (VList [])) = Ok vs ∧ v ∈ vs ∧ fld v "name" = VStr "cg-signing-key" ∧
    fld (dict_fld v "secret") "secretName" = VStr SECRET ∧ truthy (fld (dict_fld v "secret") "optional") = true;
  sm_env : ∀ cs c es e, py_iter (por (fld spec "containers") (VList [])) = Ok cs → c ∈ cs → py_iter (por (fld c "env") (VList [])) = Ok es → e ∈ es →
    fld e "name" = VStr ENV_VAR → fld e "value" = VStr MOUNT;
  sm_mount : ∀ cs c ms m, py_iter (por (fld spec "containers") (VList [])) = Ok cs → c ∈ cs → py_iter (por (fld c "volumeMounts") (VList [])) = Ok ms → m ∈ ms →
    fld m "name" = VStr "cg-signing-key" → fld m "mountPath" = VStr MOUNT }.

Lemma same_files_iff files : same_files files = true → ∀ f, f ∈ files ↔ f ∈ want_files.
Proof.
  unfold same_files. intros [H1 H2]%andb_true_iff f. rewrite forallb_forall in H1, H2. split; intros Hf; apply list_elem_of_In in Hf.
  - by apply H1, str_mem_elem in Hf.
  - by apply H2, str_mem_elem in Hf.
Qed.
Lemma want_refs_iff b p : (b, p) ∈ want_refs ↔ b ∈ BACKENDS ∧ p ∈ ["kid"; "key"].
Proof.
  unfold want_refs. change ([BACKEND; NEXT_BACKEND; PREVIOUS_BACKEND]) with BACKENDS. rewrite elem_of_concat. split.
  - intros (l & (b' & -> & Hb)%list_elem_of_fmap & (p' & [= -> ->] & Hp)%list_elem_of_fmap). done.
  - intros [Hb Hp]. exists (map (pair b) ["kid"; "key"]). split; [by apply (list_elem_of_fmap_2 (λ b, map (pair b) ["kid"; "key"]))|].
    by apply (list_elem_of_fmap_2 (pair b)).
Qed.
Lemma entry_ref_elem data refs k p : flatM entry_ref data = Ok refs → (k, p) ∈ refs ↔
  ∃ e, e ∈ data ∧ fld (fld e "remoteRef") "key" = k ∧ fld (fld e "remoteRef") "property" = p.
Proof.
  intros H. assert (∀ e l, entry_ref e = Ok l → l = [(fld (fld e "remoteRef") "key", fld (fld e "remoteRef") "property")]) as He.
  { intros e l Hl. unfold entry_ref in Hl. apply bind_Ok in Hl as (r & ->%item_fld & Hl). apply bind_Ok in Hl as (k' & ->%item_fld & Hl).
    apply bind_Ok in Hl as (r & ->%item_fld & Hl). apply bind_Ok in Hl as (p' & ->%item_fld & Hl). destruct (_ && _); [by injection Hl as <-|done]. }
  rewrite (flatM_elem _ _ _ H). split.
  - intros (e & l & Hin & ->%He & [= -> ->]%list_elem_of_singleton). by exists e.
  - intros (e & Hin & <- & <-). destruct (flatM_Ok_elem _ _ _ _ H Hin) as (l & Hl). exists e, l. split_and!; [done..|]. rewrite (He _ _ Hl). left.
Qed.
Lemma secret_clean es : judge_secret es = Ok [] → ∃ files data, files_of es = Ok files ∧ data_of es = Ok data ∧ key_set es files data.
Proof.
  unfold judge_secret. intros (files & Hf & H)%bind_Ok. apply bind_Ok in H as (data & Hd & H). apply bind_Ok in H as (refs & Hr & H).
  apply bind_Ok in H as (a & Ha & H). apply bind_Ok in H as (ks & Hks & H). apply bind_Ok in H as (keys & ->%set_of_Ok & H%Ok_inj).
  apply app_eq_nil in H as [H1 H]. apply app_eq_nil in H as [-> H3]. destruct (same_files files) eqn:Ef; [|done].
  destruct (same_refs refs) eqn:Er; [|by apply bind_Ok in Ha as (g & _ & (w & _ & [=])%bind_Ok)]. apply andb_true_iff in Er as [Er1 Er2].
  rewrite forallb_forall in Er1, Er2. pose proof (same_files_iff _ Ef) as Hfiles. exists files, data. split_and!; [done..|]. split; [done| | |].
  - intros b p Hb Hp. assert ((b, p) ∈ want_refs) as Hw by (by apply want_refs_iff). apply list_elem_of_In in Hw. apply Er2 in Hw. unfold ref_in in Hw.
    apply existsb_elem_of in Hw as ([k q] & Hin & [Hk Hq]%andb_true_iff). cbn [fst snd] in *. apply py_eq_str in Hk as ->, Hq as ->.
    by apply (entry_ref_elem _ _ _ _ Hr) in Hin.
  - intros e He. assert ((fld (fld e "remoteRef") "key", fld (fld e "remoteRef") "property") ∈ refs) as Hin by (apply (entry_ref_elem _ _ _ _ Hr); by exists e).
    apply list_elem_of_In in Hin. apply Er1 in Hin. apply existsb_elem_of in Hin as ([b p] & Hw & [Hk Hq]%andb_true_iff). cbn [fst snd] in *.
    apply py_eq_str in Hk, Hq. apply want_refs_iff in Hw as [Hb Hp]. by exists b, p.
  - intros f Hw. apply Hfiles, sorted_strs_elem in Hw. apply (concat_map_nil _ _ _ H3) in Hw. destruct (existsb _ ks) eqn:E; [|done].
    apply existsb_py_eq_str in E. destruct (mapR_elem _ _ _ _ Hks E) as (e & He & Hk%item_fld). by exists e.
Qed.
Lemma pod_clean sts : judge_pod sts = Ok [] → slots_mounted (fld (fld (fld sts "spec") "template") "spec").
Proof.
  unfold judge_pod. intros (s & ->%item_fld & H)%bind_Ok. apply bind_Ok in H as (t & ->%item_fld & H). apply bind_Ok in H as (spec & ->%item_fld & H).
  apply bind_Ok in H as (a & Ha & H). apply bind_Ok in H as (cs & Hcs%get_list_is & H). apply bind_Ok in H as (b & Hb & H). apply bind_Ok in H as (c & Hc & H%Ok_inj).
  apply app_eq_nil in H as [-> H]. apply app_eq_nil in H as [-> ->]. set (spec := fld _ "spec") in *. split.
  - unfold judge_volume in Ha. apply bind_Ok in Ha as (vs & Hvs%get_list_is & Ha). apply bind_Ok in Ha as (vols & Hvols & Ha).
    destruct (vdict_get _ vols) as [v|] eqn:Eg; [|done]. apply vdict_get_elem in Eg as (k & Hin & Hk). apply py_eq_str_r in Hk as ->.
    apply (flatM_elem _ _ _ Hvols) in Hin as (v' & l & Hv & Hl & Hin). unfold volume_item in Hl. apply bind_Ok in Hl as (n & ->%item_fld & Hl).
    unfold vdict_item in Hl. destruct (hashable (fld v' "name")); [|done]. injection Hl as <-. apply list_elem_of_singleton in Hin as [= Hn ->].
    apply bind_Ok in Ha as (s & ->%get_dict_is & Ha). apply bind_Ok in Ha as (n & ->%get_Ok & Ha). destruct (py_eq _ (VStr SECRET)) eqn:Es; [|done].
    apply py_eq_str_r in Es. cbn [negb] in Ha. apply bind_Ok in Ha as (o & ->%get_Ok & Ha%Ok_inj). exists vs, v'. split_and!; try done. by destruct (truthy _).
  - intros cs' x es e Hcs' Hx Hes He Hn. rewrite Hcs in Hcs'. injection Hcs' as <-. apply (proj1 (flatM_nil _ _) Hb) in Hx.
    apply bind_Ok in Hx as (es' & Hes'%get_list_is & Hx). rewrite Hes in Hes'. injection Hes' as <-. apply (proj1 (flatM_nil _ _) Hx) in He.
    unfold judge_env in He. apply bind_Ok in He as (n & ->%item_fld & He). rewrite Hn, py_eq_refl_str in He. cbn [negb] in He.
    apply bind_Ok in He as (v & ->%get_Ok & He%Ok_inj). destruct (py_eq _ _) eqn:E; [by apply py_eq_str_r in E|done].
  - intros cs' x es e Hcs' Hx Hes He Hn. rewrite Hcs in Hcs'. injection Hcs' as <-. apply (proj1 (flatM_nil _ _) Hc) in Hx.
    apply bind_Ok in Hx as (es' & Hes'%get_list_is & Hx). rewrite Hes in Hes'. injection Hes' as <-. apply (proj1 (flatM_nil _ _) Hx) in He.
    unfold judge_mount in He. apply bind_Ok in He as (n & ->%item_fld & He). rewrite Hn, py_eq_refl_str in He. cbn [negb] in He.
    apply bind_Ok in He as (v & ->%get_Ok & He%Ok_inj). destruct (py_eq _ _) eqn:E; [by apply py_eq_str_r in E|done].
Qed.

(** When main of check-cg-rotation-window.py exits 0, the ExternalSecret of the
    signing keys projects the six files and reads the six references, the pod
    of a StatefulSet that names the variable mounts the Secret, which may be
    absent, where the variable points, and the values hold no rotation flag. *)
Theorem clean_key_set_is_mounted dump helm values docs :
  main dump helm values = Ok 0%Z → render helm = Ok docs →
  contains "rotationWindow" values = false ∧
  (∃ es files data, es ∈ docs ∧ fld es "kind" = VStr "ExternalSecret" ∧ files_of es = Ok files ∧ data_of es = Ok data ∧ key_set es files data) ∧
  ∃ sts, sts ∈ docs ∧ fld sts "kind" = VStr "StatefulSet" ∧ contains ENV_VAR (dump sts) = true ∧
    slots_mounted (fld (fld (fld sts "spec") "template") "spec").
Proof.
  unfold main. intros H Hd. rewrite Hd in H. cbn [rbind] in H. apply bind_Ok in H as (bad & Hj & H). destruct (bad ++ _) eqn:E; [clear H|done].
  apply app_eq_nil in E as [-> Hfl]. split; [unfold flag_left in Hfl; by destruct (contains _ values)|]. unfold judge in Hj.
  apply bind_Ok in Hj as (es & Hes & Hj). destruct es as [es|]; [|done]. apply bind_Ok in Hj as (a & Ha & Hj). apply bind_Ok in Hj as (sts & Hsts & Hj).
  destruct sts as [sts|]; [|by injection Hj as Hj%app_eq_nil; destruct Hj]. apply bind_Ok in Hj as (b & Hb & Hj%Ok_inj). apply app_eq_nil in Hj as [-> ->]. split.
  - destruct (secret_clean _ Ha) as (files & data & ? & ? & ?). exists es, files, data. unfold external_secret in Hes.
    apply firstM_Some in Hes as (d & Hin & He). apply bind_Ok in He as (x & Hx & He). destruct x; [|done]. injection He as ->.
    unfold is_external in Hx. apply andR_true in Hx as [Hk%kind_is_true _]. done.
  - exists sts. unfold daemon in Hsts. apply firstM_Some in Hsts as (d & Hin & He). apply bind_Ok in He as (x & Hx & He).
    destruct x; [|done]. destruct (contains ENV_VAR (dump d)) eqn:Ec; [|done]. injection He as ->. apply kind_is_true in Hx. split_and!; try done. by apply pod_clean.
Qed.
Lemma clean_key_set_is_mounted_witness :
  main json_text (λ _, Ok correct) "" = Ok 0%Z ∧ ∃ es files data, es ∈ correct ∧ key_set es files data.
Proof.
  assert (main json_text (λ _, Ok correct) "" = Ok 0%Z) as H by (vm_compute; reflexivity). split; [exact H|].
  destruct (clean_key_set_is_mounted json_text (λ _, Ok correct) "" correct H) as (_ & (es & files & data & Hin & _ & _ & _ & Hk) & _); [reflexivity|].
  by exists es, files, data.
Defined.

(** The files and the references are compared as two sets: a render in which
    two slots read the references of each other passes. *)
Definition swapped : list (string * (string * string)) := slot "current" NEXT_BACKEND ++ slot "next" BACKEND ++ PREV.
Example swapped_slots_pass : judge json_text (fixture ALL swapped true MOUNT MOUNT) = Ok [].
Proof. vm_compute. reflexivity. Qed.
