(* ===== verification/EdgeRateLimits.v ===== *)
(** * scripts/check-edge-rate-limits.py: the limiters of the edge enforce

    The local limits of the rendered Envoy configuration, the trust of the
    peer address, and the quota of each route against the fuse in front of it.
    Helm and the YAML parser are arguments; the rates are doubles. *)
From S2P Require Import Prelude PyStr PyVal Regex PyFloat.
From Stdlib Require Import Ascii SpecFloat.

Definition HTTP_LOCAL_RL : string := "envoy.extensions.filters.http.local_ratelimit".
Definition NETWORK_LOCAL_RL : string := "envoy.extensions.filters.network.local_ratelimit".
Definition FULL : val := VDict [("numerator", VInt 100); ("denominator", VStr "HUNDRED")].
Definition render_cmd : list string :=
  ["helm"; "template"; "gibson"; "helm/gibson"; "-f"; "helm/gibson/values-baseline.yaml"; "-f"; "helm/testdata/render-inputs/gibson.yaml";
   "--namespace"; "gibson"].
(** [helm]: the parsed documents that a command line prints *)
Definition render (helm : list string → result (list val)) : result (list val) := docs <- helm render_cmd ;; Ok (List.filter truthy docs).

(** ** The two configurations *)

Definition ends_with (name : val) (suffix : string) : result bool :=
  match name with VStr s => Ok (endswith s suffix) | _ => Raise AttributeError end.
Definition holds (name : val) (suffix key : string) (data : val) : result bool := andR (ends_with name suffix) (str_in key data).
(** [yaml_load]: the document of a text, or the exception of the parser *)
Definition configs (yaml_load : val → result val) (docs : list val) : result (val * val) :=
  foldM (λ '(envoy, quota) d,
    k <- get d "kind" ;;
    if negb (py_eq k (VStr "ConfigMap")) then Ok (envoy, quota) else
    data <- get_dict d "data" ;; m <- get_dict d "metadata" ;; name <- get_default m "name" (VStr "") ;;
    e <- holds name "-envoy" "envoy.yaml" data ;;
    envoy <- (if (e : bool) then t <- item data "envoy.yaml" ;; yaml_load t else Ok envoy) ;;
    q <- holds name "-ratelimit-config" "config.yaml" data ;;
    quota <- (if (q : bool) then t <- item data "config.yaml" ;; yaml_load t else Ok quota) ;;
    Ok (envoy, quota)) (VNone, VNone) docs.

(** ** Rates *)

Definition DURATION : regex := RSeq [RGroup 1 (RPlus (RChr (λ c, is_digit c || Ascii.eqb c "."))); RStr "s"].
Definition seconds (interval : val) : result float :=
  if is_dict interval then
    s <- get_default interval "seconds" (VInt 0) ;; s <- py_float s ;; n <- get_default interval "nanos" (VInt 0) ;; n <- py_float n ;;
    Ok (fadd s (fdiv n (float_of_Z (10 ^ 9))))
  else
    match re_fullmatch DURATION (py_str (por interval (VStr ""))) with
    | Some m => py_float (VStr (group_text m 1))
    | None => Ok f_zero
    end.
Definition UNIT_SECONDS : list (string * Z) := [("second", 1%Z); ("minute", 60%Z); ("hour", 3600%Z); ("day", 86400%Z)].
Definition rate_per_second (bucket : val) : result float :=
  top <- get bucket "max_tokens" ;; per_fill <- get_default bucket "tokens_per_fill" top ;;
  interval <- get bucket "fill_interval" ;; interval <- seconds interval ;;
  if truthy per_fill && f_truthy interval then p <- py_float per_fill ;; Ok (fdiv p interval) else Ok f_zero.

(** ** The nodes of a configuration *)

Fixpoint walk (path : list string) (node : val) : list (list string * val) :=
  match node with
  | VDict d => (path, node) :: concat (map (λ kv, walk (path ++ [kv.1]) kv.2) d)
  | VList l =>
      (fix go (i : nat) (l : list val) : list (list string * val) :=
        match l with [] => [] | v :: l => walk (path ++ [str_of_int (Z.of_nat i)]) v ++ go (S i) l end) 0 l
  | _ => []
  end.
Definition has_type (type : string) (cfg : val) : bool :=
  match cfg with VDict d => contains type (py_str (default (VStr "") (alist_get "@type" d))) | _ => false end.
Definition is_local_rl (cfg : val) : bool := has_type HTTP_LOCAL_RL cfg.
Definition is_network_rl (cfg : val) : bool := has_type NETWORK_LOCAL_RL cfg.
Definition is_hcm (n : val) : bool := match fld n "@type" with VStr t => contains "HttpConnectionManager" t | _ => false end.
Definition nodes_of (node : val) : list val := (walk [] node).*2.
Definition hcms (envoy : val) : list val := List.filter is_hcm (nodes_of envoy).

(** A route that sends descriptors, with its own limiter *)
Definition values_of (v : val) : result (list val) := kvs <- items v ;; Ok kvs.*2.
Definition route_with_actions (n : val) : result (list (val * option val)) :=
  r <- get n "route" ;;
  if negb (is_dict r) then Ok [] else
  l <- get r "rate_limits" ;;
  if negb (truthy l) then Ok [] else
  tpf <- get_dict n "typed_per_filter_config" ;; vs <- values_of tpf ;; Ok [(n, List.find is_local_rl vs)].
Definition action_value (action : val) : result (option val) :=
  gk <- get action "generic_key" ;;
  if negb (truthy gk) then Ok None else
  k <- get gk "descriptor_key" ;;
  if negb (py_eq k (VStr "route")) then Ok None else v <- get gk "descriptor_value" ;; Ok (Some v).
Definition descriptor_value (route : val) : result val :=
  r <- item route "route" ;; groups <- get_list r "rate_limits" ;;
  v <- firstM (λ g, actions <- get_list g "actions" ;; firstM action_value actions) groups ;; Ok (default VNone v).

(** ** The quota table *)

Fixpoint deepest (entry : val) : result (list val) :=
  match entry with
  | VDict d =>
      match alist_get "descriptors" (map (λ kv, (kv.1, (truthy kv.2,
              match kv.2 with VList l => flatM deepest l | VStr _ | VDict _ => Raise AttributeError | _ => Raise TypeError end))) d) with
      | Some (true, leaves) => leaves
      | _ => Ok [entry]
      end
  | _ => Raise AttributeError
  end.
Definition leaf_rate (leaf : val) : result (list float) :=
  rl <- get leaf "rate_limit" ;;
  if negb (truthy rl) then Ok [] else
  n <- get rl "requests_per_unit" ;;
  if negb (truthy n) then Ok [] else
  unit <- get rl "unit" ;;
  if negb (truthy unit) then Ok [] else
  u <- item rl "unit" ;;
  match alist_get (lower (py_str u)) UNIT_SECONDS with
  | Some per => x <- py_float n ;; Ok [fdiv x (float_of_Z per)]
  | None => Ok []
  end.
Definition route_rates (top : val) : result (list float) := leaves <- deepest top ;; flatM leaf_rate leaves.
Definition top_rate (top : val) : result (list (val * float)) :=
  k <- get top "key" ;;
  if negb (py_eq k (VStr "route")) then Ok [] else
  v <- get top "value" ;;
  if negb (truthy v) then Ok [] else
  rates <- route_rates top ;;
  match rates with [] => Ok [] | r :: rates => v <- item top "value" ;; vdict_item v (fmax r rates) end.
Definition quota_rates (quota : val) : result (list (val * float)) :=
  tops <- get_list (por quota (VDict [])) "descriptors" ;; flatM top_rate tops.

(** ** The judgement *)

Definition where_of (path : list string) : string := str_join "/" (drop (length path - 4) path).
Definition judge_field (where' : string) (node : val) (field : string) : result (list string) :=
  x <- get_dict node field ;; got <- get x "default_value" ;;
  Ok (if py_eq got FULL then [] else
      [cat ["local_ratelimit at "; where'; ": "; field; " is "; py_str got; ", want "; py_str FULL;
            " — it defaults to 0% when omitted, so the filter renders as configured and enforces nothing"]]).
Definition judge_local (n : list string * val) : result (list string) :=
  if is_local_rl n.2 then flatM (judge_field (where_of n.1) n.2) ["filter_enabled"; "filter_enforced"] else Ok [].
Definition judge_network (n : list string * val) : result (list string) :=
  if negb (is_network_rl n.2) then Ok [] else
  b <- get_dict n.2 "token_bucket" ;; r <- rate_per_second b ;;
  Ok (if f_truthy r then [] else
      [cat ["network local_ratelimit at "; where_of n.1; " has no usable token_bucket, so the connection-level fuse admits everything"]]).
Definition judge_trust (hcm : val) : result (list string) :=
  trusts <- get hcm "use_remote_address" ;;
  flatM (λ node,
    if negb (is_local_rl node) then Ok [] else
    ds <- get node "descriptors" ;;
    if negb (truthy ds) || truthy trusts then Ok [] else
    p <- get hcm "stat_prefix" ;;
    Ok [cat ["HCM "; py_repr p; ": a local_ratelimit carries descriptors while use_remote_address is unset, so the address comes from a client-supplied x-forwarded-for and every client shares one bucket"]])
    (nodes_of hcm).
Definition filter_rate (f : val) : result (option float) :=
  c <- get f "typed_config" ;;
  if negb (is_local_rl (por c (VDict []))) then Ok None else
  c <- item f "typed_config" ;; b <- get c "token_bucket" ;;
  if negb (truthy b) then Ok None else b <- item c "token_bucket" ;; r <- rate_per_second b ;; Ok (Some r).
Definition inherited_rate (hcm : val) : result (option float) := fs <- get_list hcm "http_filters" ;; firstM filter_rate fs.
(** The fuse of a route: its own bucket, or that of its connection manager *)
Definition fuse_of (inherited : option float) (own : option val) : result (option float) :=
  match own with
  | Some own => b <- get own "token_bucket" ;; if truthy b then b <- item own "token_bucket" ;; r <- rate_per_second b ;; Ok (Some r) else Ok inherited
  | None => Ok inherited
  end.
Definition judge_route (rates : list (val * float)) (inherited : option float) (route : val * option val) : result (list string) :=
  value <- descriptor_value route.1 ;;
  if is_none value then Ok [] else
  if negb (hashable value) then Raise TypeError else
  match vdict_get value rates with
  | None => Ok []
  | Some rate =>
      fuse <- fuse_of inherited route.2 ;;
      match fuse with
      | None => Ok []
      | Some fuse =>
          if negb (f_truthy fuse) || negb (SFleb fuse rate) then Ok [] else
          m <- get_dict route.1 "match" ;; a <- get m "prefix" ;; b <- get m "path" ;;
          Ok [cat ["route "; py_repr (por a b); " sends descriptor route="; py_str value; ": its quota is "; show_3g rate;
                   "/s and the local_ratelimit fuse in front of it is "; show_3g fuse; "/s, so the fuse trips first and the quota never applies"]]
      end
  end.
Definition judge_quota (rates : list (val * float)) (hcm : val) : result (list string) :=
  inherited <- inherited_rate hcm ;; flatM (λ n, rs <- route_with_actions n ;; flatM (judge_route rates inherited) rs) (nodes_of hcm).
Definition judge (envoy quota : val) : result (list string) :=
  if is_none envoy then Ok ["no rendered Envoy ConfigMap in the release"] else
  a <- flatM judge_local (walk [] envoy) ;; b <- flatM judge_network (walk [] envoy) ;; c <- flatM judge_trust (hcms envoy) ;;
  rates <- quota_rates quota ;; d <- flatM (judge_quota rates) (hcms envoy) ;;
  Ok (a ++ (if existsb is_local_rl (nodes_of envoy) then [] else ["the render contains no HTTP local_ratelimit at all, so the edge has no fuse"]) ++ b ++ c ++ d).
Definition main (yaml_load : val → result val) (helm : list string → result (list val)) : result Z :=
  docs <- render helm ;; '(envoy, quota) <- configs yaml_load docs ;; bad <- judge envoy quota ;; Ok (if nonempty bad then 1%Z else 0%Z).

(** ** The self-test *)

Definition bucket (max per_fill : Z) : val := VDict [("max_tokens", VInt max); ("tokens_per_fill", VInt per_fill); ("fill_interval", VStr "1s")].
Definition field_of (k : string) (v : val) : list (string * val) := if truthy v then [(k, v)] else [].
Definition percent (k : string) (v : val) : list (string * val) := if is_none v then [] else [(k, VDict [("default_value", v)])].
Definition _rl (enabled enforced bucket descriptors : val) : val :=
  VDict ([("@type", VStr "type.googleapis.com/envoy.extensions.filters.http.local_ratelimit.v3.LocalRateLimit"); ("stat_prefix", VStr "fixture")] ++
         percent "filter_enabled" enabled ++ percent "filter_enforced" enforced ++ field_of "token_bucket" bucket ++ field_of "descriptors" descriptors).
Definition _hcm (hcm_bucket route_rl : val) (trusts : bool) (hcm_rl : val) : val :=
  VDict ([("@type", VStr "type.googleapis.com/envoy.extensions.filters.network.http_connection_manager.v3.HttpConnectionManager");
          ("stat_prefix", VStr "fixture_ingress");
          ("route_config", VDict [("virtual_hosts", VList [VDict [("name", VStr "v"); ("routes", VList [
             VDict ([("match", str_dict [("prefix", "/x")]);
                     ("route", VDict [("rate_limits", VList [VDict [("actions", VList [
                        VDict [("generic_key", str_dict [("descriptor_key", "route"); ("descriptor_value", "x")])]])]])])] ++
                    (if truthy route_rl then [("typed_per_filter_config", VDict [("envoy.filters.http.local_ratelimit", route_rl)])] else []))])]])]);
          ("http_filters", VList [VDict [("name", VStr "envoy.filters.http.local_ratelimit");
             ("typed_config", if is_none hcm_rl then _rl FULL FULL (por hcm_bucket (bucket 100 100)) VNone else hcm_rl)]])] ++
         (if trusts then [("use_remote_address", VBool true)] else [])).
(** [network]: the filters that the fixture puts before the connection manager *)
Definition _envoy (network : list val) (hcm : val) : val :=
  VDict [("static_resources", VDict [("listeners", VList [VDict [("filter_chains", VList [VDict [("filters",
    VList (network ++ [VDict [("typed_config", hcm)]]))]])]])])].
Definition _with_network (bucket : list (string * val)) : val :=
  VDict [("name", VStr "envoy.filters.network.local_ratelimit");
         ("typed_config", VDict ([("@type", VStr (cat ["type.googleapis.com/"; NETWORK_LOCAL_RL; ".v3.LocalRateLimit"])); ("stat_prefix", VStr "conn")] ++
                                 match bucket with [] => [] | _ => [("token_bucket", VDict bucket)] end))].
Definition _quota (per_unit : Z) (unit' : string) : val :=
  VDict [("descriptors", VList [VDict [("key", VStr "route"); ("value", VStr "x");
    ("descriptors", VList [VDict [("key", VStr "masked_remote_address");
       ("rate_limit", VDict [("requests_per_unit", VInt per_unit); ("unit", VStr unit')])]])]])].
Definition clean_edge : val := _envoy [] (_hcm VNone VNone true VNone).
Definition cases : list (val * val * nat) :=
  let fuse n := _envoy [] (_hcm (bucket n n) VNone true VNone) in
  let with_rl trusts rl := _envoy [] (_hcm VNone VNone trusts rl) in
  let hundred := bucket 100 100 in
  [(clean_edge, _quota 1 "second", 0);
   (with_rl true (_rl VNone FULL hundred VNone), _quota 1 "second", 1);
   (with_rl true (_rl FULL (VDict [("numerator", VInt 0); ("denominator", VStr "HUNDRED")]) hundred VNone), _quota 1 "second", 1);
   (with_rl false (_rl FULL FULL hundred (VList [VDict [("entries", VList [str_dict [("key", "masked_remote_address")]])]])), _quota 1 "second", 1);
   (fuse 10%Z, _quota 10 "second", 1); (fuse 10%Z, _quota 600 "minute", 1);
   (_envoy [] (_hcm (bucket 4000 4000) (_rl FULL FULL (bucket 2 2) VNone) true VNone), _quota 5 "second", 1);
   (fuse 20%Z, _quota 600 "minute", 0);
   (_envoy [_with_network [("max_tokens", VInt 50); ("fill_interval", VStr "1s")]] (_hcm VNone VNone true VNone), _quota 1 "second", 0);
   (_envoy [_with_network []] (_hcm VNone VNone true VNone), _quota 1 "second", 1)].
Definition selftest (yaml_load : val → result val) (helm : list string → result (list val)) : result Z :=
  missed <- anyM (λ '(envoy, quota, n), got <- judge envoy quota ;; Ok (negb (length got =? n))) cases ;;
  if (missed : bool) then Ok 1%Z else main yaml_load helm.
(** A render whose two configurations are those of the clean fixture *)
Definition config_map (name key : string) : val :=
  VDict [("kind", VStr "ConfigMap"); ("metadata", str_dict [("name", name)]); ("data", str_dict [(key, name)])].
Definition live_docs : list val := [config_map "gibson-envoy" "envoy.yaml"; config_map "gibson-ratelimit-config" "config.yaml"].
Definition live_load (text : val) : result val := Ok (if py_eq text (VStr "gibson-envoy") then clean_edge else _quota 1 "second").
Lemma edgeratelimits_selftest : selftest live_load (λ _, Ok live_docs) = Ok 0%Z.
Proof. vm_compute. reflexivity. Qed.

(** ** What a clean run proves *)

Lemma walk_iff v path n : (∃ p, (p, n) ∈ walk path v) ↔ inside v n ∧ is_dict n = true.
Proof.
  revert path. induction v as [| | | |l IH|d IH] using val_nested_ind; intros path;
    try (split; [intros (p & []%elem_of_nil)|intros [Hi Hn]; inversion Hi; subst; done]).
  - cbn [walk]. match goal with |- context [?f 0 l] => set (go := f) end.
    assert (∀ i, (∃ p, (p, n) ∈ go i l) ↔ ∃ x, x ∈ l ∧ inside x n ∧ is_dict n = true) as Hg.
    { induction IH as [|x l Hx _ IHl]; intros i; cbn [go]; [set_solver|]. setoid_rewrite elem_of_app. setoid_rewrite elem_of_cons. split.
      - intros (p & [H|H]); [exists x; split; [by left|apply (Hx (path ++ [str_of_int (Z.of_nat i)])); by exists p]|].
        destruct (proj1 (IHl (S i))) as (y & Hy & ?); [by exists p|]. exists y. by split; [right|].
      - intros (y & [->|Hy] & H); [destruct (proj2 (Hx (path ++ [str_of_int (Z.of_nat i)])) H) as (p & ?); exists p; by left|].
        destruct (proj2 (IHl (S i))) as (p & ?); [by exists y|]. exists p. by right. }
    rewrite Hg. split; [intros (x & Hx & Hi & Hn); by split; [eapply Inside_elem|]|].
    intros [Hi Hn]. inversion Hi; subst; [done|]. eexists. by split_and!.
  - cbn [walk]. setoid_rewrite elem_of_cons. setoid_rewrite elem_of_concat. rewrite Forall_forall in IH. split.
    + intros (p & [[= -> ->]|(l & (kv & -> & Hkv)%list_elem_of_fmap & Hp)]); [by split; [constructor|]|].
      destruct (proj1 (IH kv Hkv (path ++ [kv.1]))) as [Hi Hn]; [by exists p|]. destruct kv as [k x]. by split; [eapply Inside_key|].
    + intros [Hi Hn]. inversion Hi as [|? ? k x Hkv Hx|]; subst; [exists path; by left|].
      destruct (proj2 (IH (k, x) Hkv (path ++ [k]))) as (p & Hp); [done|]. exists p. right. eexists. split; [|exact Hp].
      by apply (list_elem_of_fmap_2 (λ kv : string * val, walk (path ++ [kv.1]) kv.2) d (k, x)).
Qed.
Lemma nodes_of_iff v n : n ∈ nodes_of v ↔ inside v n ∧ is_dict n = true.
Proof.
  rewrite <- (walk_iff v []). unfold nodes_of. rewrite list_elem_of_fmap. split; [intros ([p m] & -> & H); by exists p|intros (p & H); by exists (p, n)].
Qed.
Lemma has_type_dict t n : has_type t n = true → is_dict n = true.
Proof. by destruct n. Qed.
Lemma hcm_dict n : is_hcm n = true → is_dict n = true.
Proof. by destruct n. Qed.
Lemma hcms_iff v h : h ∈ hcms v ↔ inside v h ∧ is_hcm h = true.
Proof.
  unfold hcms. rewrite list_elem_of_In, filter_In, <- list_elem_of_In, nodes_of_iff. split; [naive_solver|].
  intros [? H]. pose proof (hcm_dict _ H). naive_solver.
Qed.

(** The entries of a quota with no entries below them *)
Inductive leaf_of : val → val → Prop :=
  | leaf_self e : is_dict e = true → truthy (fld e "descriptors") = false → leaf_of e e
  | leaf_under e l x y : is_dict e = true → fld e "descriptors" = VList l → x ∈ l → leaf_of x y → leaf_of e y.
Definition leaves_are (e : val) : Prop := ∀ ls y, deepest e = Ok ls → y ∈ ls ↔ leaf_of e y.
Lemma deepest_leaves_in e : leaves_are e ∧ ∀ l x, e = VList l → x ∈ l → leaves_are x.
Proof.
  unfold leaves_are. induction e as [| | | |l IH|d IH] using val_nested_ind; try done; [split; [done|]; intros l' x [= ->] Hx; rewrite Forall_forall in IH; by apply IH|].
  split; [|done]. intros ls y. cbn [deepest].
  rewrite (alist_get_map (λ x, (truthy x, match x with VList l => flatM deepest l | VStr _ | VDict _ => Raise AttributeError | _ => Raise TypeError end)) "descriptors" d).
  assert (fld (VDict d) "descriptors" = default VNone (alist_get "descriptors" d)) as Hf by done.
  assert (truthy (fld (VDict d) "descriptors") = false → Ok [VDict d] = Ok ls → y ∈ ls ↔ leaf_of (VDict d) y) as Hself.
  { intros Hno [= <-]. rewrite list_elem_of_singleton. split; [intros ->; by constructor|].
    intros Hy. inversion Hy as [|? l' x' ? ? Hl Hx]; subst; [done|]. rewrite Hl in Hno. destruct l'; [by apply elem_of_nil in Hx|done]. }
  destruct (alist_get "descriptors" d) as [x|] eqn:E; cbn [fmap option_fmap option_map default] in *; [|by apply Hself; rewrite Hf].
  destruct (truthy x) eqn:Et; [clear Hself|by apply Hself; rewrite Hf].
  unfold id in Hf. destruct x as [| | | |l|]; try done. intros H. rewrite (flatM_elem _ _ _ H). rewrite Forall_forall in IH.
  assert (∀ x, x ∈ l → ∀ ls y, deepest x = Ok ls → y ∈ ls ↔ leaf_of x y) as IHl.
  { intros x Hx. by apply (proj2 (IH ("descriptors", VList l) (alist_elem _ _ _ E)) l x). }
  split; [intros (x & lx & Hx & Hlx & Hy); eapply leaf_under; [done..|]; by apply (IHl x Hx lx)|].
  intros Hy. inversion Hy as [? ? Hno|? l' x ? ? Hl Hx Hlf]; subst; [rewrite Hf in Hno; congruence|]. rewrite Hf in Hl. injection Hl as <-.
  destruct (flatM_Ok_elem _ _ _ _ H Hx) as (lx & Hlx). exists x, lx. split_and!; [done..|]. by apply (IHl x Hx lx).
Qed.
Lemma deepest_leaves e ls y : deepest e = Ok ls → y ∈ ls ↔ leaf_of e y.
Proof. apply deepest_leaves_in. Qed.

(** The last entry of the table for a descriptor value, which the code keeps *)
Record last_for (s : string) (top : val) (post : list val) : Prop := {
  lf_key : fld top "key" = VStr "route";
  lf_value : fld top "value" = VStr s;
  lf_last : ∀ t, t ∈ post → fld t "value" ≠ VStr s }.
(** A quota of an entry, in requests per second *)
Definition quota_of (top : val) (r : float) : Prop := ∃ leaf, leaf_of top leaf ∧ leaf_rate leaf = Ok [r].
Definition quota_tops (quota : val) : result (list val) := get_list (por quota (VDict [])) "descriptors".

Record edge_enforces (envoy quota : val) : Prop := {
  ee_full : ∀ n f, inside envoy n → is_local_rl n = true → f ∈ ["filter_enabled"; "filter_enforced"] → py_eq (fld (dict_fld n f) "default_value") FULL = true;
  ee_some : ∃ n, inside envoy n ∧ is_local_rl n = true;
  ee_network : ∀ n, inside envoy n → is_network_rl n = true → ∃ r, rate_per_second (dict_fld n "token_bucket") = Ok r ∧ f_truthy r = true;
  ee_trust : ∀ h n, inside envoy h → is_hcm h = true → inside h n → is_local_rl n = true → truthy (fld n "descriptors") = true →
    truthy (fld h "use_remote_address") = true;
  ee_quota : ∀ h n own s inherited fuse pre top post r,
    inside envoy h → is_hcm h = true → inside h n → route_with_actions n = Ok [(n, own)] → descriptor_value n = Ok (VStr s) → s ≠ "" →
    inherited_rate h = Ok inherited → fuse_of inherited own = Ok (Some fuse) → f_truthy fuse = true →
    quota_tops quota = Ok (pre ++ top :: post) → last_for s top post → (∀ r, quota_of top r → is_nan r = false) → quota_of top r → SFleb fuse r = false }.

Lemma leaf_rate_one leaf l : leaf_rate leaf = Ok l → l = [] ∨ ∃ r, l = [r].
Proof.
  unfold leaf_rate. intros (rl & _ & H)%bind_Ok. destruct (truthy rl); [|injection H as <-; by left]. apply bind_Ok in H as (n & _ & H).
  destruct (truthy n); [|injection H as <-; by left]. apply bind_Ok in H as (u & _ & H). destruct (truthy u); [|injection H as <-; by left].
  apply bind_Ok in H as (w & _ & H). destruct (alist_get _ _); [|injection H as <-; by left]. apply bind_Ok in H as (x & _ & [= <-]). right. by eexists.
Qed.
Lemma route_rates_elem top rs r : route_rates top = Ok rs → r ∈ rs ↔ quota_of top r.
Proof.
  unfold route_rates. intros (ls & Hls & H)%bind_Ok. rewrite (flatM_elem _ _ _ H). split.
  - intros (leaf & l & Hin & Hl & Hr). exists leaf. split; [by apply (deepest_leaves _ _ _ Hls)|].
    destruct (leaf_rate_one _ _ Hl) as [->|(x & ->)]; [by apply elem_of_nil in Hr|]. by apply list_elem_of_singleton in Hr as ->.
  - intros (leaf & Hin & Hl). exists leaf, [r]. split_and!; [by apply (deepest_leaves _ _ _ Hls)|done|left].
Qed.
Lemma top_rate_key t l k x : top_rate t = Ok l → (k, x) ∈ l → k = fld t "value".
Proof.
  unfold top_rate. intros (k' & _ & H)%bind_Ok Hin. destruct (py_eq _ _); [cbn [negb] in H|injection H as <-; by apply elem_of_nil in Hin].
  apply bind_Ok in H as (v & _ & H). destruct (truthy v); [cbn [negb] in H|injection H as <-; by apply elem_of_nil in Hin].
  apply bind_Ok in H as (rs & _ & H). destruct rs as [|r rs]; [injection H as <-; by apply elem_of_nil in Hin|].
  apply bind_Ok in H as (w & ->%item_fld & H). unfold vdict_item in H. destruct (hashable _); [|done]. injection H as <-.
  by apply list_elem_of_singleton in Hin as [= -> _].
Qed.
Lemma last_quota pre top post rates s r : flatM top_rate (pre ++ top :: post) = Ok rates → last_for s top post → s ≠ "" → quota_of top r →
  ∃ x xs, (∀ y, y ∈ x :: xs ↔ quota_of top y) ∧ vdict_get (VStr s) rates = Some (fmax x xs).
Proof.
  intros H [Hk Hv Hpost] Ht Hr. rewrite flatM_app in H. apply bind_Ok in H as (a & _ & H). apply bind_Ok in H as (b & Hb & [= <-]).
  cbn [flatM] in Hb. apply bind_Ok in Hb as (c & Hc & Hb). apply bind_Ok in Hb as (e & He & [= <-]).
  assert (vdict_get (VStr s) e = None) as Hno.
  { destruct (vdict_get (VStr s) e) as [x|] eqn:E; [|done]. apply vdict_get_elem in E as (k & Hin & Hkv%py_eq_str_r).
    apply (flatM_elem _ _ _ He) in Hin as (t & l & Htp & Hl & Hin). rewrite (top_rate_key _ _ _ _ Hl Hin) in Hkv. by apply Hpost in Hkv. }
  unfold top_rate in Hc. apply bind_Ok in Hc as (k & ->%get_Ok & Hc). rewrite Hk, py_eq_refl_str in Hc. cbn [negb] in Hc.
  apply bind_Ok in Hc as (w & ->%get_Ok & Hc). rewrite Hv in Hc. assert (truthy (VStr s) = true) as Ets by (by destruct s). rewrite Ets in Hc. cbn [negb] in Hc.
  apply bind_Ok in Hc as (rs & Hrs & Hc). pose proof (λ y, route_rates_elem _ _ y Hrs) as Hel. destruct rs as [|x xs]; [by apply Hel, elem_of_nil in Hr|].
  exists x, xs. split; [done|]. apply bind_Ok in Hc as (w & ->%item_fld & Hc). rewrite Hv in Hc. cbn in Hc. injection Hc as <-.
  rewrite !vdict_get_app, Hno. unfold vdict_get at 1. cbn -[py_eq]. by rewrite py_eq_refl_str.
Qed.

Lemma local_clean p n f : judge_local (p, n) = Ok [] → is_local_rl n = true → f ∈ ["filter_enabled"; "filter_enforced"] →
  py_eq (fld (dict_fld n f) "default_value") FULL = true.
Proof.
  unfold judge_local. cbn [fst snd]. intros H Hrl Hf. rewrite Hrl in H. apply (proj1 (flatM_nil _ _) H) in Hf. unfold judge_field in Hf.
  apply bind_Ok in Hf as (x & ->%get_dict_is & Hf). apply bind_Ok in Hf as (g & ->%get_Ok & Hf%Ok_inj). by destruct (py_eq _ _).
Qed.
Lemma network_clean p n : judge_network (p, n) = Ok [] → is_network_rl n = true → ∃ r, rate_per_second (dict_fld n "token_bucket") = Ok r ∧ f_truthy r = true.
Proof.
  unfold judge_network. cbn [fst snd]. intros H Hrl. rewrite Hrl in H. cbn [negb] in H. apply bind_Ok in H as (b & ->%get_dict_is & H).
  apply bind_Ok in H as (r & Hr & H%Ok_inj). exists r. split; [done|]. by destruct (f_truthy r).
Qed.
Lemma trust_clean h n : judge_trust h = Ok [] → inside h n → is_local_rl n = true → truthy (fld n "descriptors") = true → truthy (fld h "use_remote_address") = true.
Proof.
  unfold judge_trust. intros (t & ->%get_Ok & H)%bind_Ok Hn Hrl Hd. assert (n ∈ nodes_of h) as Hin by (apply nodes_of_iff; by pose proof (has_type_dict _ _ Hrl)).
  apply (proj1 (flatM_nil _ _) H) in Hin. rewrite Hrl in Hin. cbn [negb] in Hin. apply bind_Ok in Hin as (d & ->%get_Ok & Hin). rewrite Hd in Hin. cbn [negb orb] in Hin.
  destruct (truthy _); [done|]. by apply bind_Ok in Hin as (p & _ & [=]).
Qed.
Lemma route_clean rates h n own s inherited fuse rate : judge_quota rates h = Ok [] → inside h n → route_with_actions n = Ok [(n, own)] →
  descriptor_value n = Ok (VStr s) → inherited_rate h = Ok inherited → fuse_of inherited own = Ok (Some fuse) → f_truthy fuse = true →
  vdict_get (VStr s) rates = Some rate → SFleb fuse rate = false.
Proof.
  unfold judge_quota. intros (i & Hi & H)%bind_Ok Hn Hr Hs Hinh Hf Hft Hg. rewrite Hi in Hinh. injection Hinh as ->.
  assert (n ∈ nodes_of h) as Hin.
  { apply nodes_of_iff. split; [done|]. unfold route_with_actions in Hr. by destruct n. }
  apply (proj1 (flatM_nil _ _) H) in Hin. rewrite Hr in Hin. cbn [rbind flatM] in Hin. apply bind_Ok in Hin as (a & Ha & [= Hin]).
  rewrite app_nil_r in Hin. subst a. unfold judge_route in Ha. cbn [fst snd] in Ha. rewrite Hs in Ha. cbn [rbind is_none hashable negb] in Ha.
  rewrite Hg, Hf in Ha. cbn [rbind] in Ha. rewrite Hft in Ha. cbn [negb orb] in Ha. destruct (SFleb fuse rate); [|done]. cbn [negb] in Ha.
  apply bind_Ok in Ha as (m & _ & Ha). apply bind_Ok in Ha as (x & _ & Ha). by apply bind_Ok in Ha as (y & _ & [=]).
Qed.
Lemma edge_judge_clean envoy quota : judge envoy quota = Ok [] → edge_enforces envoy quota.
Proof.
  unfold judge. destruct (is_none envoy); [done|]. intros (a & Ha & H)%bind_Ok. apply bind_Ok in H as (b & Hb & H). apply bind_Ok in H as (c & Hc & H).
  apply bind_Ok in H as (rates & Hrates & H). apply bind_Ok in H as (d & Hd & H%Ok_inj). apply app_eq_nil in H as [-> H]. apply app_eq_nil in H as [Hs H].
  apply app_eq_nil in H as [-> H]. apply app_eq_nil in H as [-> ->].
  assert (∀ n, inside envoy n → is_dict n = true → ∃ p, (p, n) ∈ walk [] envoy) as Hw by (intros n ??; by apply walk_iff). split.
  - intros n f Hn Hrl. destruct (Hw n Hn (has_type_dict _ _ Hrl)) as (p & Hp). apply (proj1 (flatM_nil _ _) Ha) in Hp. by apply (local_clean p).
  - destruct (existsb _ _) eqn:E; [|done]. apply existsb_elem_of in E as (n & [Hn _]%nodes_of_iff & Hrl). by exists n.
  - intros n Hn Hrl. destruct (Hw n Hn (has_type_dict _ _ Hrl)) as (p & Hp). apply (proj1 (flatM_nil _ _) Hb) in Hp. by apply (network_clean p).
  - intros h n Hh Hhcm. assert (h ∈ hcms envoy) as Hin by (by apply hcms_iff). apply (proj1 (flatM_nil _ _) Hc) in Hin. by apply trust_clean.
  - clear Hs. intros h n own s inherited fuse pre top post r Hh Hhcm Hn Hr Hs Hne Hinh Hf Hft Htops Hlast Hnan Hq.
    assert (h ∈ hcms envoy) as Hin by (by apply hcms_iff). apply (proj1 (flatM_nil _ _) Hd) in Hin.
    unfold quota_rates in Hrates. fold (quota_tops quota) in Hrates. rewrite Htops in Hrates. cbn [rbind] in Hrates.
    destruct (last_quota _ _ _ _ _ _ Hrates Hlast Hne Hq) as (x & xs & Hel & Hg).
    pose proof (route_clean _ _ _ _ _ _ _ _ Hin Hn Hr Hs Hinh Hf Hft Hg) as Hno. destruct (SFleb fuse r) eqn:E; [|done]. exfalso.
    assert (SFleb fuse (fmax x xs) = true); [|congruence]. apply (SFleb_trans _ r); [by apply Hnan|done|].
    apply fmax_upper; [intros z Hz; apply Hnan, Hel, Hz|by apply Hel].
Qed.


(** A quota of NaN is below each fuse: the text of a number is read by [float]. *)
Example nan_quota_passes :
  judge clean_edge (VDict [("descriptors", VList [VDict [("key", VStr "route"); ("value", VStr "x");
    ("rate_limit", str_dict [("requests_per_unit", "nan"); ("unit", "second")])]])]) = Ok [].
Proof. vm_compute. reflexivity. Qed.
(** The table keeps the loosest quota of a route. *)
Example the_loosest_quota_is_kept :
  quota_rates (VDict [("descriptors", VList [VDict [("key", VStr "route"); ("value", VStr "x"); ("descriptors", VList (map (λ n,
    VDict [("key", VStr "k"); ("rate_limit", VDict [("requests_per_unit", VInt n); ("unit", VStr "second")])]) [1; 5]%Z))]])]) = Ok [(VStr "x", float_of_Z 5)].
Proof. vm_compute. reflexivity. Qed.
