(* ===== verification/NodeHeap.v ===== *)
(** * scripts/check-node-heap-tracks-limit.py: the heap of Node fits its limit

    The containers that run a Node image, their memory limits as MiB, and the
    heap flag between 50% and 90% of it.  Helm is an argument; the quantities
    are doubles. *)
From S2P Require Import Prelude PyStr PyVal Regex PyFloat.
From Stdlib Require Import Ascii SpecFloat.

Definition NODE_IMAGES : list string := ["ghcr.io/zeroroot-ai/dashboard"; "ghcr.io/zeroroot-ai/zitadel-login"].
Definition MIN_FRACTION : float := decimal false 50 (-2).
Definition MAX_FRACTION : float := decimal false 90 (-2).
Definition HEAP_FLAG : regex := RSeq [RStr "--max-old-space-size"; RChr (in_chars "= "); RGroup 1 (RPlus (RChr is_digit))].
Definition WORKLOADS : list string := ["Deployment"; "StatefulSet"; "DaemonSet"; "Job"; "CronJob"].
Definition render_cmd : list string :=
  ["helm"; "template"; "gibson"; "helm/gibson"; "-f"; "helm/gibson/values-baseline.yaml"; "-f"; "helm/testdata/render-inputs/gibson.yaml";
   "--namespace"; "gibson"].
(** [helm]: the parsed documents that a command line prints *)
Definition render (helm : list string → result (list val)) : result (list val) := docs <- helm render_cmd ;; Ok (List.filter truthy docs).

(** ** The Node containers *)

Definition pod_spec (doc : val) : result val :=
  spec <- get_dict doc "spec" ;; j <- str_in "jobTemplate" spec ;;
  spec <- (if (j : bool) then t <- item spec "jobTemplate" ;; get_dict t "spec" else Ok spec) ;;
  t <- get_dict spec "template" ;; get_dict t "spec".
Definition runs_node (c : val) : result bool :=
  image <- get c "image" ;;
  match por image (VStr "") with
  | VStr s => Ok (existsb (λ repo, startswith s (repo +:+ ":") || str_eqb s repo) NODE_IMAGES)
  | _ => Raise AttributeError
  end.
Definition node_container (kind name c : val) : result (list (string * val)) :=
  n <- runs_node c ;;
  if negb n then Ok [] else cn <- get c "name" ;; Ok [(cat [py_str kind; "/"; py_str name; " container "; py_str cn], c)].
Definition doc_containers (d : val) : result (list (string * val)) :=
  kind <- get d "kind" ;;
  if negb (in_tuple kind WORKLOADS) then Ok [] else
  m <- get_dict d "metadata" ;; name <- get_default m "name" (VStr "?") ;;
  spec <- pod_spec d ;; cs <- get_list spec "containers" ;; flatM (node_container kind name) cs.
Definition node_containers (docs : list val) : result (list (string * val)) := flatM doc_containers docs.

(** ** Quantities *)

Definition SUFFIXES : list (string * float) :=
  let M := float_of_Z 1048576 in
  [("Gi", float_of_Z 1024); ("Mi", float_of_Z 1); ("Ki", fdiv (float_of_Z 1) (float_of_Z 1024)); ("G", fdiv (float_of_Z (1000 ^ 3)) M);
   ("M", fdiv (float_of_Z (1000 ^ 2)) M); ("K", fdiv (float_of_Z 1000) M)].
Definition suffix_of_quantity (q : string) : option (string * float) := List.find (λ s, endswith q s.1) SUFFIXES.
Definition mib (quantity : val) : option float :=
  let q := strip (py_str quantity) in
  match suffix_of_quantity q with
  | Some (suffix, factor) => (λ x, fmul x factor) <$> float_of_str (str_slice 0 (String.length q - String.length suffix) q)
  | None => (λ x, fdiv x (float_of_Z 1048576)) <$> float_of_str q
  end.
Definition heap_of_env (e : val) : result (option Z) :=
  n <- get e "name" ;;
  if negb (py_eq n (VStr "NODE_OPTIONS")) then Ok None else
  v <- get e "value" ;;
  Ok (match re_search HEAP_FLAG (py_str (por v (VStr ""))) with Some m => int_of_digits (group_text m 1) | None => None end).
Definition heap_mib (c : val) : result (option Z) := es <- get_list c "env" ;; firstM heap_of_env es.

(** ** The audit *)

Definition limit_of (c : val) : result val := r <- get_dict c "resources" ;; l <- get_dict r "limits" ;; get l "memory".
Definition is_gt (o : option comparison) : bool := match o with Some Gt => true | _ => false end.
Definition is_lt (o : option comparison) : bool := match o with Some Lt => true | _ => false end.
Definition judge_heap (where' : string) (limit : val) (limit_mib : float) (heap : Z) : list string :=
  let low := fmul MIN_FRACTION limit_mib in
  let high := fmul MAX_FRACTION limit_mib in
  if is_gt (compare_Z heap high) then
    [cat [where'; ": heap ceiling "; str_of_int heap; "MiB is over 90% of the "; py_str limit; " limit ("; show_0f high;
          "MiB); the kernel kills the container before V8 reports anything"]]
  else if is_lt (compare_Z heap low) then
    [cat [where'; ": heap ceiling "; str_of_int heap; "MiB is under 50% of the "; py_str limit; " limit ("; show_0f low; "MiB); most of the bound is unreachable"]]
  else [].
Definition judge (w : string * val) : result (list string) :=
  let '(where', c) := w in
  limit <- limit_of c ;;
  if negb (truthy limit)
  then Ok [cat [where'; ": runs Node with no memory limit; one render can take the node, and there is no bound for the heap to fit inside"]] else
  match mib limit with
  | None => Ok [cat [where'; ": memory limit "; py_repr limit; " carries no unit this guard reads"]]
  | Some limit_mib =>
      heap <- heap_mib c ;;
      Ok (match heap with
          | None => [cat [where'; ": no --max-old-space-size in NODE_OPTIONS; Node will size its heap from the node's memory, not from this container's ";
                          py_str limit; " limit"]]
          | Some heap => judge_heap where' limit limit_mib heap
          end)
  end.
Definition audit (docs : list val) : result (list string) :=
  found <- node_containers docs ;;
  if negb (nonempty found) then Ok [cat ["no container in the render runs any of "; str_join ", " NODE_IMAGES; ": this guard is blind"]]
  else flatM judge found.
Definition main (helm : list string → result (list val)) : result Z :=
  docs <- render helm ;; bad <- audit docs ;; Ok (if nonempty bad then 1%Z else 0%Z).

(** ** The self-test *)

Definition has_job (d : val) : bool := match str_in "jobTemplate" (dict_fld d "spec") with Ok b => b | Raise _ => false end.
Definition pod_path (d : val) : list place :=
  (if has_job d then [K "spec"; K "jobTemplate"] else []) ++ [K "spec"; K "template"; K "spec"; K "containers"].
Definition edit_node (fn : val → val) (c : val) : val := if bool_decide (runs_node c = Ok true) then fn c else c.
Definition edit_list (fn : val → val) (v : val) : val := match v with VList l => VList (map fn l) | _ => v end.
Definition _edit (docs : list val) (fn : val → val) : list val :=
  map (λ d, if in_tuple (fld d "kind") WORKLOADS then edit (pod_path d) (edit_list (edit_node fn)) d else d) docs.
Definition _drop_limit (c : val) : val :=
  if is_dict (fld (fld c "resources") "limits") then pop [K "resources"; K "limits"] "memory" c else c.
Definition other_env (e : val) : bool := negb (py_eq (fld e "name") (VStr "NODE_OPTIONS")).
Definition kept_env (c : val) : list val := match fld c "env" with VList es => List.filter other_env es | _ => [] end.
Definition _drop_node_options (c : val) : val := dict_with c "env" (VList (kept_env c)).
Definition _set_heap (value : string) (c : val) : val :=
  dict_with c "env" (VList (str_dict [("name", "NODE_OPTIONS"); ("value", value)] :: kept_env c)).
Definition setdefault (k : string) (c : val) : val := match str_in k c with Ok true => c | _ => dict_with c k (VDict []) end.
Definition _set_limit (value : string) (c : val) : val :=
  put [K "resources"; K "limits"; K "memory"] (VStr value) (edit [K "resources"] (setdefault "limits") (setdefault "resources" c)).
Definition fails : list ((val → val) * string) :=
  [(_drop_limit, "no memory limit"); (_drop_node_options, "no --max-old-space-size"); (_set_heap "--enable-source-maps", "no --max-old-space-size");
   (_set_heap "--max-old-space-size=4096", "over 90%"); (_set_heap "--max-old-space-size=1024", "over 90%");
   (_set_heap "--max-old-space-size=128", "under 50%"); (_set_limit "8Gi", "under 50%"); (_set_limit "512Mi", "over 90%")].
Definition passes : list (val → val) :=
  [_set_heap "--max-old-space-size 768"; _set_heap "--enable-source-maps --max-old-space-size=768";
   λ c, _set_heap "--max-old-space-size=1536" (_set_limit "2Gi" c)].
Definition selftest (docs : list val) : result Z :=
  clean <- audit docs ;;
  missed <- anyM (λ '(fn, needle), found <- audit (_edit docs fn) ;; Ok (negb (existsb (contains needle) found))) fails ;;
  refused <- anyM (λ fn, found <- audit (_edit docs fn) ;; Ok (nonempty found)) passes ;;
  Ok (if nonempty clean || missed || refused then 1%Z else 0%Z).
(** A Deployment and a CronJob of the two images *)
Definition container (image : string) : val :=
  VDict [("name", VStr "app"); ("image", VStr image); ("resources", VDict [("limits", str_dict [("memory", "1Gi")])]);
         ("env", VList [str_dict [("name", "NODE_OPTIONS"); ("value", "--max-old-space-size=768")]])].
Definition pod (image : string) : val := VDict [("template", VDict [("spec", VDict [("containers", VList [container image])])])].
Definition live_docs : list val :=
  [VDict [("kind", VStr "Deployment"); ("metadata", str_dict [("name", "dashboard")]); ("spec", pod "ghcr.io/zeroroot-ai/dashboard:1.2.3")];
   VDict [("kind", VStr "CronJob"); ("metadata", str_dict [("name", "login")]);
          ("spec", VDict [("jobTemplate", VDict [("spec", pod "ghcr.io/zeroroot-ai/zitadel-login")])])]].
Lemma nodeheap_selftest : selftest live_docs = Ok 0%Z.
Proof. vm_compute. reflexivity. Qed.
Example quantities :
  map mib (map VStr ["1Gi"; " 512Mi "; "524288Ki"; "1G"; "536870912"; "1e3Mi"; "1Ti"; "Mi"]) =
  [Some (float_of_Z 1024); Some (float_of_Z 512); Some (float_of_Z 512); Some (fdiv (float_of_Z (10 ^ 9)) (float_of_Z (2 ^ 20)));
   Some (float_of_Z 512); Some (float_of_Z 1000); None; None].
Proof. vm_compute. reflexivity. Qed.

(** ** What a clean run proves *)

(** A container of a workload of the render *)
Inductive spec_of (d : val) : val → Prop :=
  | spec_plain : str_in "jobTemplate" (dict_fld d "spec") = Ok false → spec_of d (dict_fld (dict_fld (dict_fld d "spec") "template") "spec")
  | spec_cron : str_in "jobTemplate" (dict_fld d "spec") = Ok true →
      spec_of d (dict_fld (dict_fld (dict_fld (fld (dict_fld d "spec") "jobTemplate") "spec") "template") "spec").
Record node_in (docs : list val) (c : val) : Prop := {
  ni_pod : ∃ d kind spec cs, d ∈ docs ∧ fld d "kind" = VStr kind ∧ kind ∈ WORKLOADS ∧ spec_of d spec ∧
    py_iter (por (fld spec "containers") (VList [])) = Ok cs ∧ c ∈ cs;
  ni_image : ∃ image repo, fld c "image" = VStr image ∧ repo ∈ NODE_IMAGES ∧ (image = repo ∨ ∃ tag, image = repo +:+ ":" +:+ tag) }.
(** [z] is at most [x], and at least [x], as numbers *)
Definition at_most (z : Z) (x : float) : Prop :=
  match x with
  | S754_finite neg m e => (z * (fraction m e).2 ≤ cond_Zopp neg (fraction m e).1)%Z
  | S754_zero _ => (z ≤ 0)%Z
  | S754_infinity neg => neg = false
  | S754_nan => False
  end.
Definition at_least (z : Z) (x : float) : Prop :=
  match x with
  | S754_finite neg m e => (cond_Zopp neg (fraction m e).1 ≤ z * (fraction m e).2)%Z
  | S754_zero _ => (0 ≤ z)%Z
  | S754_infinity neg => neg = true
  | S754_nan => False
  end.
Record heap_fits (c : val) : Prop := {
  hf_bounds : ∃ limit_mib heap, mib (fld (dict_fld (dict_fld c "resources") "limits") "memory") = Some limit_mib ∧ heap_mib c = Ok (Some heap) ∧
    (is_nan limit_mib = true ∨ at_most heap (fmul MAX_FRACTION limit_mib) ∧ at_least heap (fmul MIN_FRACTION limit_mib)) }.

Lemma pod_spec_of d spec : pod_spec d = Ok spec → spec_of d spec.
Proof.
  unfold pod_spec. intros (s & ->%get_dict_is & H)%bind_Ok. apply bind_Ok in H as (j & Hj & H). apply bind_Ok in H as (s & Hs & H).
  apply bind_Ok in H as (t & ->%get_dict_is & ->%get_dict_is). destruct j.
  - apply bind_Ok in Hs as (t & ->%item_fld & ->%get_dict_is). by apply spec_cron.
  - injection Hs as <-. by apply spec_plain.
Qed.
Lemma spec_of_unique d a b : spec_of d a → spec_of d b → a = b.
Proof. intros [H|H] [G|G]; congruence. Qed.
Lemma repo_match s : existsb (λ repo, startswith s (repo +:+ ":") || str_eqb s repo) NODE_IMAGES = true ↔
  ∃ repo, repo ∈ NODE_IMAGES ∧ (s = repo ∨ ∃ tag, s = repo +:+ ":" +:+ tag).
Proof.
  rewrite existsb_elem_of. apply exist_proper; intros repo. apply and_iff_compat_l.
  rewrite orb_true_iff, startswith_true, str_eqb_eq. split.
  - intros [(t & ->) | ->]; [right; exists t; apply append_assoc|by left].
  - intros [-> | (t & ->)]; [by right|left]. exists t. symmetry. apply append_assoc.
Qed.
Lemma runs_node_iff c b : runs_node c = Ok b → b = true ↔
  ∃ image repo, fld c "image" = VStr image ∧ repo ∈ NODE_IMAGES ∧ (image = repo ∨ ∃ tag, image = repo +:+ ":" +:+ tag).
Proof.
  unfold runs_node. intros (v & ->%get_Ok & H)%bind_Ok. assert (existsb (λ repo, startswith "" (repo +:+ ":") || str_eqb "" repo) NODE_IMAGES = false) as Hno by done.
  destruct (fld c "image") as [|t|z|s|l|d] eqn:E.
  - injection H as <-. split; [done|by intros (? & ? & [=] & _)].
  - destruct t; [done|]. injection H as <-. split; [done|by intros (? & ? & [=] & _)].
  - unfold por in H. destruct (truthy _); [done|]. injection H as <-. split; [done|by intros (? & ? & [=] & _)].
  - assert (por (VStr s) (VStr "") = VStr s) as Hs by (by destruct s). rewrite Hs in H. apply Ok_inj in H as <-. rewrite repo_match. naive_solver.
  - destruct l; [|done]. injection H as <-. split; [done|by intros (? & ? & [=] & _)].
  - destruct d; [|done]. injection H as <-. split; [done|by intros (? & ? & [=] & _)].
Qed.
Lemma node_in_found docs found c : node_containers docs = Ok found → node_in docs c ↔ c ∈ found.*2.
Proof.
  unfold node_containers. intros H. setoid_rewrite list_elem_of_fmap. split.
  - intros [(d & kind & spec & cs & Hd & Hk & Hw & Hspec & Hcs & Hc) Himg]. destruct (flatM_Ok_elem _ _ _ _ H Hd) as (l & Hl). pose proof Hl as Hl'.
    unfold doc_containers in Hl. apply bind_Ok in Hl as (k & ->%get_Ok & Hl). rewrite Hk in Hl.
    assert (in_tuple (VStr kind) WORKLOADS = true) as Hin by (apply in_tuple_true; by exists kind). rewrite Hin in Hl. cbn [negb] in Hl.
    apply bind_Ok in Hl as (m & _ & Hl). apply bind_Ok in Hl as (name & _ & Hl). apply bind_Ok in Hl as (sp & Hsp%pod_spec_of & Hl).
    rewrite (spec_of_unique _ _ _ Hsp Hspec) in Hl. apply bind_Ok in Hl as (cs' & Hcs'%get_list_is & Hl). rewrite Hcs in Hcs'. injection Hcs' as <-.
    destruct (flatM_Ok_elem _ _ _ _ Hl Hc) as (lc & Hlc). pose proof Hlc as Hlc'. unfold node_container in Hlc. apply bind_Ok in Hlc as (n & Hn & Hlc).
    rewrite (proj2 (runs_node_iff _ _ Hn) Himg) in Hlc. apply bind_Ok in Hlc as (cn & _ & [= <-]). eexists (_, c). split; [done|].
    apply (flatM_elem _ _ _ H). exists d, l. split_and!; [done..|]. apply (flatM_elem _ _ _ Hl). eexists c, _. split_and!; [done..|left].
  - intros ([w x] & -> & Hx). cbn [snd]. apply (flatM_elem _ _ _ H) in Hx as (d & l & Hd & Hl & Hx). unfold doc_containers in Hl.
    apply bind_Ok in Hl as (k & ->%get_Ok & Hl). destruct (in_tuple _ _) eqn:Ek; [|injection Hl as <-; by apply elem_of_nil in Hx]. cbn [negb] in Hl.
    apply in_tuple_true in Ek as (kind & Hk & Hw). apply bind_Ok in Hl as (m & _ & Hl). apply bind_Ok in Hl as (name & _ & Hl).
    apply bind_Ok in Hl as (spec & Hspec%pod_spec_of & Hl). apply bind_Ok in Hl as (cs & Hcs%get_list_is & Hl).
    apply (flatM_elem _ _ _ Hl) in Hx as (c' & lc & Hc & Hlc & Hx). unfold node_container in Hlc. apply bind_Ok in Hlc as (n & Hn & Hlc).
    destruct n; [|injection Hlc as <-; by apply elem_of_nil in Hx]. apply bind_Ok in Hlc as (cn & _ & [= <-]). apply list_elem_of_singleton in Hx as [= -> ->].
    split; [by exists d, kind, spec, cs|by apply (runs_node_iff _ _ Hn)].
Qed.

Lemma compare_at_most z x : is_nan x = false → is_gt (compare_Z z x) = false → at_most z x.
Proof.
  destruct x as [s|[]| |s m e]; try done; cbn -[Z.compare].
  - intros _ H. destruct (Z.compare_spec z 0); try done; lia.
  - destruct (fraction m e) as [n d]. cbn [fst snd]. intros _ H. destruct (Z.compare_spec (z * d) (cond_Zopp s n)); try done; lia.
Qed.
Lemma compare_at_least z x : is_nan x = false → is_lt (compare_Z z x) = false → at_least z x.
Proof.
  destruct x as [s|[]| |s m e]; try done; cbn -[Z.compare].
  - intros _ H. destruct (Z.compare_spec z 0); try done; lia.
  - destruct (fraction m e) as [n d]. cbn [fst snd]. intros _ H. destruct (Z.compare_spec (z * d) (cond_Zopp s n)); try done; lia.
Qed.
Lemma judge_heap_fits w c : judge (w, c) = Ok [] → heap_fits c.
Proof.
  unfold judge. intros (limit & Hl & H)%bind_Ok. unfold limit_of in Hl. apply bind_Ok in Hl as (r & ->%get_dict_is & Hl).
  apply bind_Ok in Hl as (l & ->%get_dict_is & ->%get_Ok). destruct (truthy _); [|done]. cbn [negb] in H.
  destruct (mib _) as [x|] eqn:Em; [|done]. apply bind_Ok in H as (heap & Hh & H%Ok_inj). destruct heap as [heap|]; [|done].
  split. exists x, heap. split_and!; [done..|]. destruct (is_nan x) eqn:En; [by left|right]. unfold judge_heap in H.
  destruct (is_gt _) eqn:Eg; [done|]. destruct (is_lt _) eqn:El; [done|]. split.
  - apply compare_at_most; [|done]. by apply fmul_not_nan.
  - apply compare_at_least; [|done]. by apply fmul_not_nan.
Qed.

(** The bounds of a limit of 1Gi: 512 and 921 pass, 511 and 922 do not. *)
Example bounds_of_1Gi : map (λ h, nonempty (judge_heap "c" (VStr "1Gi") (float_of_Z 1024) h)) [511; 512; 921; 922]%Z = [true; false; false; true].
Proof. vm_compute. reflexivity. Qed.
