(* ===== verification/SmtpTlsMode.v ===== *)
(** * scripts/check-smtp-tls-mode.py: the SMTP transport is a named mode

    The renders of the three modes, of an unknown mode, and of the mode
    plaintext with and without a credential.  Helm and the YAML parser are
    arguments; an exit with a message is [SystemExit]. *)
From S2P Require Import Prelude PyStr PyVal.
From Stdlib Require Import Ascii.

Definition KEY : string := "global.email.smtp.tlsMode".
Definition SOURCE : string := "global.email.smtp.credentials.source".
Definition SMTP : list string :=
  ["global.email.provider=smtp"; "global.email.from=no-reply@example.test"; "global.email.fromName=Test";
   "global.email.smtp.host=smtp.example.test"; "global.email.smtp.port=587"].
Definition CRED : list string := [SOURCE +:+ "=secretStore"; "global.email.smtp.credentials.remoteKey=ses-smtp-credentials"].
Definition ANON : list string := [SOURCE +:+ "=none"].
Definition MODES : list string := ["starttls"; "implicit"; "plaintext"].
Definition PB_KIND : string := "PlatformBootstrap".
Definition fail {A} (msg : string) : result A := Raise (SystemExit ("check-smtp-tls-mode: " +:+ msg)).
(** [if cond: fail(msg)] *)
Definition fail_if (cond : bool) (msg : string) : result unit := if cond then fail msg else Ok tt.
Definition render_cmd (sets : list string) (smtp : bool) : list string :=
  ["helm"; "template"; "gibson"; "helm/gibson"; "-f"; "helm/gibson/values-baseline.yaml"; "-f"; "helm/testdata/render-inputs/gibson.yaml";
   "--namespace"; "gibson"] ++ concat (map (λ s, ["--set"; s]) ((if smtp then SMTP else []) ++ sets)).

Section guard.
Context (load_all : string → result (list val)) (helm : list string → process).

Definition render (sets : list string) (smtp : bool) : process := helm (render_cmd sets smtp).
Definition doc_mode (doc : val) : result (list string) :=
  if negb (truthy doc) then Ok [] else
  k <- get doc "kind" ;;
  if negb (py_eq k (VStr PB_KIND)) then Ok [] else
  s <- get_dict doc "spec" ;; z <- get_dict s "zitadel" ;; smtp <- get_dict z "smtp" ;;
  b <- str_in "tls" smtp ;;
  if (b : bool) then t <- item smtp "tls" ;; Ok [if is_false t then "plaintext" else "tls"] else Ok [].
Definition mode_env (stdout : string) : result (list string) := docs <- load_all stdout ;; flatM doc_mode docs.
Definition want (mode : string) : list string := [if str_eqb mode "plaintext" then "plaintext" else "tls"].
Definition with_mode (mode : string) (rest : list string) : list string := cat [KEY; "="; mode] :: rest.
Definition failed (p : process) : bool := negb (returncode p =? 0)%Z.

Definition check_mode (mode : string) : result unit :=
  let p := render (with_mode mode ANON) true in
  _ <- fail_if (failed p) (cat [repr_str mode; " is a valid mode and the render refused it:"; newline; last_chars 800 (stderr p)]) ;;
  got <- mode_env (stdout p) ;;
  fail_if (negb (bool_decide (got = want mode)))
    (cat ["with tlsMode="; repr_str mode; " the render sets the Zitadel SMTP tls of the "; PB_KIND; " to "; str_of_strs got; ", want exactly ";
          str_of_strs (want mode);
          ". One PlatformBootstrap reads this; more than one value or none means the Zitadel SMTP block and the mode have come apart."]).
Definition check_unknown : result unit :=
  let p := render (with_mode "tls" ANON) true in
  _ <- fail_if (negb (failed p))
    "tlsMode=tls rendered successfully. An unknown mode must fail the RENDER: the operator refuses it at startup, so letting it through turns a typo into a crash-looping pod instead of a failed deploy." ;;
  _ <- mapR (λ m, fail_if (negb (contains m (stderr p)))
    (cat ["the refusal for an unknown mode does not name "; repr_str m;
          ". With three modes a message that lists fewer is a coin toss that reads like a diagnosis."])) MODES ;;
  Ok tt.
Definition check_plaintext_with_username : result unit :=
  let p := render (with_mode "plaintext" CRED) true in
  _ <- fail_if (negb (failed p))
    "tlsMode=plaintext with a credential rendered successfully. The credential would cross the network in the clear, and net/smtp refuses PlainAuth over a cleartext non-localhost link, so the pair can never deliver mail — it must fail the render." ;;
  _ <- fail_if (negb (contains "credential" (stderr p)))
    (cat ["the refusal does not name the credential it is refusing: "; last_chars 300 (stderr p)]) ;;
  fail_if (negb (existsb (λ m, contains m (stderr p)) ["starttls"; "implicit"]))
    (cat ["the refusal names no encrypted alternative, so it says what is wrong and not what to do: "; last_chars 300 (stderr p)]).
Definition check_plaintext_without_username : result unit :=
  let p := render (with_mode "plaintext" ANON) true in
  _ <- fail_if (failed p)
    (cat ["tlsMode=plaintext with no username was refused. plaintext is a supported mode for an anonymous sink; refusing it outright leaves the in-cluster mailpit with no reachable transport, which is what gibson#574 fixed:";
          newline; last_chars 500 (stderr p)]) ;;
  got <- mode_env (stdout p) ;;
  fail_if (negb (bool_decide (got = ["plaintext"]))) (cat ["plaintext alone did not reach the "; PB_KIND; ": "; str_of_strs got]).
Definition selftest : result unit :=
  _ <- fail_if (negb (failed (render (with_mode "STARTTLS" ANON) true)))
    "selftest: the enum is case-insensitive, so the unknown-mode assertion cannot distinguish a typo" ;;
  got <- mode_env (stdout (render [] false)) ;;
  _ <- fail_if (nonempty got)
    (cat ["selftest: the shipped default (provider log) gives Zitadel no SMTP provider, so the "; PB_KIND;
          " must carry no SMTP tls setting, and it carries "; str_of_strs got]) ;;
  let p := render (with_mode "implicit" CRED) true in
  fail_if (failed p)
    (cat ["selftest: implicit WITH a username was refused, so the pair refusal is not specific to plaintext: "; last_chars 300 (stderr p)]).
(** [self]: the option --selftest *)
Definition main (self : bool) : result unit :=
  _ <- mapR check_mode MODES ;; _ <- check_unknown ;; _ <- check_plaintext_without_username ;; _ <- check_plaintext_with_username ;;
  if self then selftest else Ok tt.
End guard.

(** A helm that renders the three modes as the chart does, and refuses the rest *)
Definition bootstrap (tls : bool) : val :=
  VDict [("kind", VStr PB_KIND); ("spec", VDict [("zitadel", VDict [("smtp", VDict [("tls", VBool tls)])])])].
Definition live_helm (args : list string) : process :=
  let has mode rest := bool_decide (args = render_cmd (with_mode mode rest) true) in
  if has "plaintext" CRED then Process 1 "" "a credential needs starttls or implicit"
  else if has "plaintext" ANON then Process 0 "plaintext" ""
  else if has "starttls" ANON || has "implicit" ANON || has "implicit" CRED then Process 0 "tls" ""
  else if bool_decide (args = render_cmd [] false) then Process 0 "" ""
  else Process 1 "" "one of starttls, implicit and plaintext".
Definition live_all (text : string) : result (list val) :=
  Ok (if str_eqb text "" then [VNone] else [bootstrap (str_eqb text "tls")]).
Lemma smtptlsmode_selftest : main live_all live_helm true = Ok tt.
Proof. vm_compute. reflexivity. Qed.

(** ** What a clean run proves *)

(** The setting of a PlatformBootstrap that a mode reaches *)
Definition sets_tls (doc : val) (t : val) : Prop :=
  truthy doc = true ∧ fld doc "kind" = VStr PB_KIND ∧
  str_in "tls" (dict_fld (dict_fld (dict_fld doc "spec") "zitadel") "smtp") = Ok true ∧
  t = fld (dict_fld (dict_fld (dict_fld doc "spec") "zitadel") "smtp") "tls".
(** The render sets it once, and to [false] for plaintext only. *)
Record reaches_zitadel (load_all : string → result (list val)) (p : process) (plain : bool) : Prop := {
  rz_rendered : returncode p = 0%Z;
  rz_set : ∃ docs doc t, load_all (stdout p) = Ok docs ∧ doc ∈ docs ∧ sets_tls doc t;
  rz_all : ∀ docs doc t, load_all (stdout p) = Ok docs → doc ∈ docs → sets_tls doc t → t = VBool false ↔ plain = true }.
Record modes_hold (load_all : string → result (list val)) (helm : list string → process) : Prop := {
  mh_modes : ∀ mode, mode ∈ MODES → reaches_zitadel load_all (render helm (with_mode mode ANON) true) (str_eqb mode "plaintext");
  mh_unknown : let p := render helm (with_mode "tls" ANON) true in
    returncode p ≠ 0%Z ∧ ∀ m, m ∈ MODES → contains m (stderr p) = true;
  mh_pair : let p := render helm (with_mode "plaintext" CRED) true in
    returncode p ≠ 0%Z ∧ contains "credential" (stderr p) = true ∧
    (contains "starttls" (stderr p) = true ∨ contains "implicit" (stderr p) = true) }.

Lemma fail_if_Ok b msg u : fail_if b msg = Ok u → b = false.
Proof. by destruct b. Qed.
Lemma doc_mode_iff doc l m : doc_mode doc = Ok l → m ∈ l ↔ ∃ t, sets_tls doc t ∧ m = if is_false t then "plaintext" else "tls".
Proof.
  unfold doc_mode, sets_tls. destruct (truthy doc); cbn [negb]; [|intros [= <-]; split; [by intros ?%elem_of_nil|by intros (t & (? & _) & _)]].
  intros (k & ->%get_Ok & H)%bind_Ok. destruct (py_eq _ _) eqn:Ek; cbn [negb] in H.
  2: { injection H as <-. split; [by intros ?%elem_of_nil|]. intros (t & (_ & Hk & _) & _). by rewrite Hk, py_eq_refl_str in Ek. }
  apply py_eq_str_r in Ek. apply bind_Ok in H as (s & ->%get_dict_is & H). apply bind_Ok in H as (z & ->%get_dict_is & H).
  apply bind_Ok in H as (x & ->%get_dict_is & H). apply bind_Ok in H as (b & Hb & H). rewrite Hb. destruct b.
  - apply bind_Ok in H as (t & ->%item_fld & [= <-]). rewrite list_elem_of_singleton. split; [intros ->; by eexists|by intros (t & (_ & _ & _ & ->) & ->)].
  - injection H as <-. split; [by intros ?%elem_of_nil|by intros (t & (_ & _ & [=] & _) & _)].
Qed.
Lemma mode_reaches load_all helm mode u : check_mode load_all helm mode = Ok u →
  reaches_zitadel load_all (render helm (with_mode mode ANON) true) (str_eqb mode "plaintext").
Proof.
  unfold check_mode. cbv zeta. intros (u1 & Hrc%fail_if_Ok & H)%bind_Ok. apply bind_Ok in H as (got & Hg & Hw%fail_if_Ok).
  apply negb_false_iff, bool_decide_eq_true in Hw. subst got. unfold mode_env in Hg. apply bind_Ok in Hg as (docs & Hd & Hf). split.
  - unfold failed in Hrc. by apply negb_false_iff, Z.eqb_eq in Hrc.
  - assert ((if str_eqb mode "plaintext" then "plaintext" else "tls") ∈ want mode) as Hin by left.
    apply (flatM_elem _ _ _ Hf) in Hin as (doc & l & Hdoc & Hl & Hin). apply (doc_mode_iff _ _ _ Hl) in Hin as (t & Ht & _). by exists docs, doc, t.
  - intros docs' doc t Hd' Hdoc Ht. rewrite Hd in Hd'. injection Hd' as <-. destruct (flatM_Ok_elem _ _ _ _ Hf Hdoc) as (l & Hl).
    assert ((if is_false t then "plaintext" else "tls") ∈ want mode) as Hin.
    { apply (flatM_elem _ _ _ Hf). exists doc, l. split_and!; [done..|]. apply (doc_mode_iff _ _ _ Hl). by exists t. }
    apply list_elem_of_singleton in Hin. split.
    + intros ->. cbn in Hin. by destruct (str_eqb mode "plaintext").
    + intros Hp. rewrite Hp in Hin. apply is_false_eq. by destruct (is_false t).
Qed.

(** When main of check-smtp-tls-mode.py ends, each mode renders and reaches the
    PlatformBootstrap, an unknown mode is refused with the three names, and
    plaintext with a credential is refused with the reason and a way out. *)
Theorem clean_modes_reach_zitadel load_all helm self : main load_all helm self = Ok tt → modes_hold load_all helm.
Proof.
  unfold main. intros (us & Hm & H)%bind_Ok. apply bind_Ok in H as (u1 & Hu & H). apply bind_Ok in H as (u2 & _ & H). apply bind_Ok in H as (u3 & Hp & _). split.
  - intros mode Hin. destruct (mapR_elem_2 _ _ _ _ Hm Hin) as (u & _ & Hu'). by apply mode_reaches in Hu'.
  - unfold check_unknown in Hu. cbv zeta in Hu |- *. apply bind_Ok in Hu as (a & Ha%fail_if_Ok & Hu). apply bind_Ok in Hu as (b & Hb & _). split.
    + apply negb_false_iff in Ha. unfold failed in Ha. by apply negb_true_iff, Z.eqb_neq in Ha.
    + intros m Hin. destruct (mapR_elem_2 _ _ _ _ Hb Hin) as (u & _ & Hc%fail_if_Ok). by apply negb_false_iff.
  - unfold check_plaintext_with_username in Hp. cbv zeta in Hp |- *. apply bind_Ok in Hp as (a & Ha%fail_if_Ok & Hp).
    apply bind_Ok in Hp as (b & Hb%fail_if_Ok & Hc%fail_if_Ok). apply negb_false_iff in Ha, Hb, Hc. split_and!; [|done|].
    + unfold failed in Ha. by apply negb_true_iff, Z.eqb_neq in Ha.
    + apply existsb_elem_of in Hc as (m & Hin & Hm'). rewrite !elem_of_cons, elem_of_nil in Hin. naive_solver.
Qed.
Lemma clean_modes_reach_zitadel_witness : main live_all live_helm false = Ok tt ∧ modes_hold live_all live_helm.
Proof.
  assert (main live_all live_helm false = Ok tt) as H by (vm_compute; reflexivity). split; [exact H|].
  exact (clean_modes_reach_zitadel live_all live_helm false H).
Defined.
