(* ===== verification/EmailSmtp.v ===== *)
(** * scripts/check-email-smtp-external-secret.py: the SMTP credentials render

    The ExternalSecret of the SMTP credentials is off by default, off for a
    Secret of the operator, and on once, with the pair of properties.  Helm and
    the YAML parser are arguments; an exit with a message is [SystemExit]. *)
From S2P Require Import Prelude PyStr PyVal.
From Stdlib Require Import Ascii.

Definition SOURCE : string := "global.email.smtp.credentials.source".
Definition PROVIDER : string := "global.email.provider".
Definition BACKEND_KEY : string := "ses-smtp-credentials".
Definition SMTP_HOST : string := "email-smtp.us-east-1.amazonaws.com".
Definition SMTP_ON : list string :=
  [PROVIDER +:+ "=smtp"; "global.email.from=no-reply@example.test"; "global.email.fromName=Test"; "global.email.smtp.host=" +:+ SMTP_HOST;
   "global.email.smtp.port=587"; "global.email.smtp.tlsMode=starttls"; SOURCE +:+ "=secretStore";
   "global.email.smtp.credentials.remoteKey=" +:+ BACKEND_KEY].
Definition fail {A} (msg : string) : result A := Raise (SystemExit ("check-email-smtp-external-secret: " +:+ msg)).
Definition render_cmd (sets : list string) : list string :=
  ["helm"; "template"; "gibson"; "helm/gibson"; "-f"; "helm/gibson/values-baseline.yaml"; "-f"; "helm/testdata/render-inputs/gibson.yaml";
   "--namespace"; "gibson"] ++ concat (map (λ s, ["--set"; s]) sets).

(** An entry of the data of an ExternalSecret, with the key it reads *)
Definition reads_key (entry : val) : result bool := r <- get_dict entry "remoteRef" ;; k <- get r "key" ;; Ok (py_eq k (VStr BACKEND_KEY)).
Definition data_of (d : val) : result (list val) := s <- get_dict d "spec" ;; get_list s "data".
Definition reads_smtp (d : val) : result bool := andR (kind_is "ExternalSecret" d) (data <- data_of d ;; anyM reads_key data).
Definition smtp_external_secrets (docs : list val) : result (list val) := filterM reads_smtp docs.
Definition property_of (e : val) : result (list val) :=
  b <- reads_key e ;; if (b : bool) then r <- get_dict e "remoteRef" ;; p <- get r "property" ;; Ok [p] else Ok [].
Definition py_len (v : val) : result nat :=
  match v with VList l => Ok (length l) | VDict d => Ok (length d) | VStr s => Ok (String.length s) | _ => Raise TypeError end.
Definition OFF_FOUND (n names : string) : string :=
  cat ["with the shipped defaults, "; n; " ExternalSecret(s) already read "; BACKEND_KEY; ": "; names;
       ". This gate exists because the key has NO visible consumer by default — if one appears here, hosted's check-secret-contract should declare it as a plain chart: consumer and this gate is the wrong mechanism. Do not silence this; decide which it is."].

Section guard.
Context (load_all : string → result (list val)) (helm : list string → process).

Definition render (sets : list string) : result (list val) :=
  let p := helm (render_cmd sets) in
  if negb (returncode p =? 0)%Z
  then fail (cat ["render failed for "; if nonempty sets then str_join " " sets else "the shipped defaults"; ":"; newline; last_chars 1500 (stderr p)])
  else docs <- load_all (stdout p) ;; Ok (List.filter truthy docs).
Definition check_off : result unit :=
  docs <- render [] ;; found <- smtp_external_secrets docs ;;
  match found with
  | [] => Ok tt
  | _ => names <- mapR (λ d, m <- get_dict d "metadata" ;; get m "name") found ;; fail (OFF_FOUND (str_of_int (Z.of_nat (length found))) (py_str (VList names)))
  end.
Definition judge_target (es : val) : result val :=
  s <- get_dict es "spec" ;; target <- get_dict s "target" ;; p <- get target "creationPolicy" ;;
  if negb (py_eq p (VStr "Owner"))
  then fail (cat ["the target creationPolicy is "; py_repr p; ", want 'Owner'. Without it the Secret outlives the ExternalSecret and a rotation stops reaching the daemon with nothing reporting it."])
  else n <- get target "name" ;; if truthy n then Ok es else fail "the ExternalSecret names no target Secret, so nothing is written".
Definition check_on : result val :=
  docs <- render SMTP_ON ;; found <- smtp_external_secrets docs ;;
  match found with
  | [es] =>
      data <- data_of es ;; ps <- flatM property_of data ;; props <- py_sorted ps ;;
      if negb (py_eq (VList props) (strs ["password"; "username"]))
      then fail (cat ["the ExternalSecret reads "; BACKEND_KEY; " properties "; py_str (VList props);
                      ", want ['password', 'username']. An IAM-style SMTP credential is a pair, and half of one authenticates nothing."])
      else judge_target es
  | _ => fail (cat ["with "; SOURCE; "=secretStore and "; PROVIDER; "=smtp, "; str_of_int (Z.of_nat (length found)); " ExternalSecret(s) read "; BACKEND_KEY;
                    ", want exactly 1. The daemon's SMTP credentials come from this one object; mailer.RequireDelivering refuses to start the daemon without a delivering transport, so an absent one is a daemon that will not boot."])
  end.
Definition OPERATOR_SECRET : list string := SMTP_ON ++ [SOURCE +:+ "=secret"; "global.email.smtp.credentials.secretName=operator-smtp"].
Definition check_provider_alone : result unit :=
  docs <- render OPERATOR_SECRET ;; found <- smtp_external_secrets docs ;;
  if nonempty found
  then fail (cat [SOURCE; "=secret rendered the ExternalSecret. The operator creates that Secret, and a second writer of the credential is the shape this repository keeps finding."])
  else Ok tt.
Definition selftest : result unit :=
  docs <- render [] ;; found <- smtp_external_secrets docs ;;
  if nonempty found
  then fail "selftest: the shipped defaults already render the object, so the OFF state cannot be used as a negative fixture" else
  docs <- render SMTP_ON ;; found <- smtp_external_secrets docs ;;
  if negb (nonempty found)
  then fail "selftest: both conditions set and the object still does not render, so the OFF assertion has no positive fixture to be wrong about" else
  es <- check_on ;; s <- get_dict es "spec" ;; d <- get s "data" ;;
  n <- py_len (por d (VList [])) ;;
  if n <? 2 then fail "selftest: the rendered ExternalSecret has fewer than two data entries, so the pair assertion could not distinguish a half credential"
  else Ok tt.
Definition main : result unit := _ <- check_off ;; _ <- check_provider_alone ;; _ <- check_on ;; Ok tt.
End guard.

(** A helm that renders the object when both conditions are set *)
Definition entry (property : string) : val :=
  VDict [("secretKey", VStr property); ("remoteRef", str_dict [("key", BACKEND_KEY); ("property", property)])].
Definition smtp_secret : val :=
  VDict [("kind", VStr "ExternalSecret"); ("metadata", str_dict [("name", "email-smtp")]);
         ("spec", VDict [("target", str_dict [("name", "email-smtp"); ("creationPolicy", "Owner")]); ("data", VList [entry "username"; entry "password"])])].
Definition live_helm (args : list string) : process := Process 0 (if bool_decide (args = render_cmd SMTP_ON) then "on" else "") "".
Definition live_all (text : string) : result (list val) := Ok (if str_eqb text "on" then [VNone; smtp_secret] else [VNone]).
Lemma emailsmtp_selftest : selftest live_all live_helm = Ok tt.
Proof. vm_compute. reflexivity. Qed.

(** ** What a clean run proves *)

(** A document of a render reads the SMTP key of the backend. *)
Definition smtp_entry (d e : val) : Prop :=
  ∃ data, py_iter (por (fld (dict_fld d "spec") "data") (VList [])) = Ok data ∧ e ∈ data ∧ fld (dict_fld e "remoteRef") "key" = VStr BACKEND_KEY.
Definition reader (docs : list val) (d : val) : Prop := d ∈ docs ∧ fld d "kind" = VStr "ExternalSecret" ∧ ∃ e, smtp_entry d e.
Record one_pair (docs : list val) : Prop := {
  op_one : ∃ es, reader docs es ∧ (∀ d, reader docs d → d = es) ∧
    (∀ p, (∃ e, smtp_entry es e ∧ fld (dict_fld e "remoteRef") "property" = p) ↔ p = VStr "password" ∨ p = VStr "username") ∧
    fld (dict_fld (dict_fld es "spec") "target") "creationPolicy" = VStr "Owner" ∧ truthy (fld (dict_fld (dict_fld es "spec") "target") "name") = true }.

Lemma reads_key_iff e b : reads_key e = Ok b → b = true ↔ fld (dict_fld e "remoteRef") "key" = VStr BACKEND_KEY.
Proof. unfold reads_key. intros (r & ->%get_dict_is & H)%bind_Ok. apply bind_Ok in H as (k & ->%get_Ok & [= <-]). apply py_eq_str_r. Qed.
Lemma data_of_is d l : data_of d = Ok l → py_iter (por (fld (dict_fld d "spec") "data") (VList [])) = Ok l.
Proof. unfold data_of. by intros (s & ->%get_dict_is & H%get_list_is)%bind_Ok. Qed.
Lemma reads_smtp_iff d b : reads_smtp d = Ok b → b = true ↔ fld d "kind" = VStr "ExternalSecret" ∧ ∃ e, smtp_entry d e.
Proof.
  unfold reads_smtp, andR. intros (k & Hk & H)%bind_Ok. destruct k.
  - apply kind_is_true in Hk. apply bind_Ok in H as (data & Hd%data_of_is & H). destruct b.
    + split; [intros _|done]. split; [done|]. apply anyM_true in H as (e & He & Hr). exists e, data. by rewrite <- (reads_key_iff _ _ Hr).
    + split; [done|]. intros (_ & e & data' & Hd' & He & Hr). rewrite Hd in Hd'. injection Hd' as <-.
      pose proof (proj1 (anyM_false _ _) H _ He) as Hf. by apply (reads_key_iff _ _ Hf) in Hr.
  - apply kind_is_false in Hk. injection H as <-. split; [done|]. by intros [? _].
Qed.
Lemma readers docs found d : smtp_external_secrets docs = Ok found → d ∈ found ↔ reader docs d.
Proof.
  unfold smtp_external_secrets, reader. intros H. rewrite (filterM_Ok _ _ _ H). split.
  - intros [Hin Hr]. split; [done|]. by apply (reads_smtp_iff _ _ Hr).
  - intros [Hin Hr]. split; [done|]. destruct (filterM_total _ _ _ _ H Hin) as (b & Hb). rewrite Hb. f_equal. by apply (reads_smtp_iff _ _ Hb).
Qed.
Lemma no_reader docs d : smtp_external_secrets docs = Ok [] → ¬ reader docs d.
Proof. intros H Hr. apply (readers _ _ _ H) in Hr. by apply elem_of_nil in Hr. Qed.
Lemma pair_strs l s t : py_eq (VList l) (strs [s; t]) = true → l = [VStr s; VStr t].
Proof.
  destruct l as [|x [|y [|z l]]]; try done.
  - change (py_eq (VList [x]) (strs [s; t])) with (py_eq x (VStr s) && false). by rewrite andb_false_r.
  - change (py_eq (VList [x; y]) (strs [s; t])) with (py_eq x (VStr s) && (py_eq y (VStr t) && true)). by intros [->%py_eq_str_r [->%py_eq_str_r _]%andb_true_iff]%andb_true_iff.
  - change (py_eq (VList (x :: y :: z :: l)) (strs [s; t])) with (py_eq x (VStr s) && (py_eq y (VStr t) && false)). by rewrite !andb_false_r.
Qed.
Lemma properties data ps p : flatM property_of data = Ok ps → p ∈ ps ↔
  ∃ e, (e ∈ data ∧ fld (dict_fld e "remoteRef") "key" = VStr BACKEND_KEY) ∧ fld (dict_fld e "remoteRef") "property" = p.
Proof.
  intros H. rewrite (flatM_elem _ _ _ H). split.
  - intros (e & l & He & Hl & Hp). unfold property_of in Hl. apply bind_Ok in Hl as (b & Hb & Hl). destruct b; [|injection Hl as <-; by apply elem_of_nil in Hp].
    apply bind_Ok in Hl as (r & ->%get_dict_is & Hl). apply bind_Ok in Hl as (q & ->%get_Ok & [= <-]). apply list_elem_of_singleton in Hp as ->.
    exists e. split_and!; [done| |done]. by apply (reads_key_iff _ _ Hb).
  - intros (e & (He & Hk) & <-). destruct (flatM_Ok_elem _ _ _ _ H He) as (l & Hl). exists e, l. split_and!; [done..|]. unfold property_of in Hl.
    apply bind_Ok in Hl as (b & Hb & Hl). rewrite (proj2 (reads_key_iff _ _ Hb) Hk) in Hl.
    apply bind_Ok in Hl as (r & ->%get_dict_is & Hl). apply bind_Ok in Hl as (q & ->%get_Ok & [= <-]). left.
Qed.
Lemma on_pair load_all helm es : check_on load_all helm = Ok es → ∃ docs, render load_all helm SMTP_ON = Ok docs ∧ one_pair docs.
Proof.
  unfold check_on. intros (docs & Hd & H)%bind_Ok. apply bind_Ok in H as (found & Hf & H). destruct found as [|x [|]]; try done.
  apply bind_Ok in H as (data & Hdata%data_of_is & H). apply bind_Ok in H as (ps & Hps & H). apply bind_Ok in H as (props & Hsort & H).
  destruct (py_eq _ _) eqn:Eq; [|done]. cbn [negb] in H. apply pair_strs in Eq as ->. apply py_sorted_elem in Hsort.
  unfold judge_target in H. apply bind_Ok in H as (s & ->%get_dict_is & H). apply bind_Ok in H as (t & ->%get_dict_is & H). apply bind_Ok in H as (p & ->%get_Ok & H).
  destruct (py_eq _ _) eqn:Eo in H; [|done]. cbn [negb] in H. apply py_eq_str_r in Eo. apply bind_Ok in H as (n & ->%get_Ok & H).
  exists docs. split; [done|]. split. exists x. split_and!.
  - apply (readers _ _ _ Hf). left.
  - intros d Hr. apply (readers _ _ _ Hf) in Hr. by apply list_elem_of_singleton.
  - intros p. assert (p ∈ ps ↔ p = VStr "password" ∨ p = VStr "username") as <- by (rewrite Hsort, !elem_of_cons, elem_of_nil; naive_solver).
    rewrite (properties _ _ _ Hps). unfold smtp_entry. rewrite Hdata. naive_solver.
  - done.
  - by destruct (truthy _).
Qed.

(** When main of check-email-smtp-external-secret.py ends, no ExternalSecret
    reads the SMTP key by default or with a Secret of the operator; with both
    conditions one does, with the pair of properties and a Secret it owns. *)
Theorem clean_smtp_secret_is_one_pair load_all helm : main load_all helm = Ok tt →
  (∃ docs, render load_all helm [] = Ok docs ∧ ∀ d, ¬ reader docs d) ∧
  (∃ docs, render load_all helm OPERATOR_SECRET = Ok docs ∧ ∀ d, ¬ reader docs d) ∧
  ∃ docs, render load_all helm SMTP_ON = Ok docs ∧ one_pair docs.
Proof.
  unfold main. intros (u & Hoff & H)%bind_Ok. apply bind_Ok in H as (v & Halone & H). apply bind_Ok in H as (es & Hon & _). split_and!.
  - unfold check_off in Hoff. apply bind_Ok in Hoff as (docs & Hd & Hoff). apply bind_Ok in Hoff as (found & Hf & Hoff).
    destruct found; [|by apply bind_Ok in Hoff as (ns & _ & Hoff)]. exists docs. split; [done|]. intros d. by apply no_reader.
  - unfold check_provider_alone in Halone. apply bind_Ok in Halone as (docs & Hd & Ha). apply bind_Ok in Ha as (found & Hf & Ha).
    destruct found; [|done]. exists docs. split; [done|]. intros d. by apply no_reader.
  - by apply (on_pair _ _ es).
Qed.
Lemma clean_smtp_secret_is_one_pair_witness : main live_all live_helm = Ok tt ∧ ∃ docs, render live_all live_helm SMTP_ON = Ok docs ∧ one_pair docs.
Proof.
  assert (main live_all live_helm = Ok tt) as H by (vm_compute; reflexivity). split; [exact H|].
  exact (proj2 (proj2 (clean_smtp_secret_is_one_pair live_all live_helm H))).
Defined.
