(* ===== verification/NamespaceLabels.v ===== *)
(** * scripts/check-namespace-label-admission.py: a trusted label has one writer

    The namespace labels that a Cilium rule selects on, and the admission
    policies that limit who sets them.  The golden renders are arguments. *)
From S2P Require Import Prelude PyStr PyVal Regex Json.
From Stdlib Require Import Ascii.

Definition key_char (c : ascii) : bool := is_alpha c || is_digit c || in_chars "./_-" c.
Definition NS_LABEL : regex := RSeq [RStr "io.cilium.k8s.namespace.labels."; RGroup 1 (RPlus (RChr key_char))].
Definition SERVER_SET : list string := ["kubernetes.io/metadata.name"].
Definition POLICIES : list string := ["CiliumNetworkPolicy"; "CiliumClusterwideNetworkPolicy"].

Definition key_of (k : string) : list string := match re_search NS_LABEL k with Some m => [group_text m 1] | None => [] end.
Fixpoint keys_of (node : val) : list string :=
  match node with
  | VDict d => concat (map (λ kv, key_of kv.1 ++ keys_of kv.2) d)
  | VList l => concat (map keys_of l)
  | _ => []
  end.
Definition doc_keys (d : val) : result (list string) :=
  k <- get d "kind" ;;
  if negb (in_tuple k POLICIES) then Ok [] else s <- get d "spec" ;; ss <- get d "specs" ;; Ok (keys_of s ++ keys_of ss).
(** A set, in the order of the elements *)
Definition trusted_keys (docs : list val) : result (list string) :=
  ks <- flatM doc_keys docs ;; Ok (sorted_set (List.filter (λ k, negb (str_mem k SERVER_SET)) ks)).

(** The names of the policies with a Deny binding *)
Definition deny_name (d : val) : result (list val) :=
  b <- kind_is "ValidatingAdmissionPolicyBinding" d ;;
  if negb b then Ok [] else
  s <- get_dict d "spec" ;; a <- get s "validationActions" ;; deny <- str_in "Deny" (por a (VList [])) ;;
  if negb deny then Ok [] else s <- get_dict d "spec" ;; n <- get s "policyName" ;; set_of [n].
Definition rule_ops (r : val) : result (list val) :=
  rs <- get r "resources" ;; b <- str_in "namespaces" (por rs (VList [])) ;;
  if negb b then Ok [] else
  gs <- get r "apiGroups" ;; b <- str_in "" (por gs (VList [])) ;;
  if negb b then Ok [] else ops <- get r "operations" ;; set_keys (por ops (VList [])).
Definition expression_of (e : val) : result string := x <- get e "expression" ;; Ok (py_str (por x (VStr ""))).
Definition expressions (spec : val) : result (list string) :=
  vs <- get spec "validations" ;; ws <- get spec "variables" ;; es <- added (por vs (VList [])) (por ws (VList [])) ;; mapR expression_of es.
Definition quoted (key : string) : string := String dquote (key +:+ String dquote "").
Definition guard_name (deny : list val) (key : string) (d : val) : result (list val) :=
  b <- kind_is "ValidatingAdmissionPolicy" d ;;
  if negb b then Ok [] else
  spec <- get_dict d "spec" ;; mc <- get_dict spec "matchConstraints" ;; rs <- get_list mc "resourceRules" ;;
  ops <- flatM rule_ops rs ;; texts <- expressions spec ;; fp <- get spec "failurePolicy" ;;
  if set_superset ops ["CREATE"; "UPDATE"] && py_eq fp (VStr "Fail") && contains (quoted key) (str_join " " texts) then
    n <- meta_name d ;; b <- val_in n (VList deny) ;;
    if negb (hashable n) then Raise TypeError else if (b : bool) then Ok [n] else Ok []
  else Ok [].
Definition guards (docs : list val) (key : string) : result (list val) := deny <- flatM deny_name docs ;; flatM (guard_name deny key) docs.
Definition judge (docs : list val) : result (list string) :=
  keys <- trusted_keys docs ;;
  match keys with
  | [] => Ok ["no Cilium rule selects a namespace label: this check is blind"]
  | _ => flatM (λ key, gs <- guards docs key ;;
           Ok (if nonempty gs then [] else
               [cat ["the namespace label "; key; " selects peers in a network rule, and no ValidatingAdmissionPolicy with failurePolicy Fail and a Deny binding limits who sets it on a Namespace (CREATE and UPDATE)"]])) keys
  end.
(** [all]: the documents of a golden *)
Definition load (all : list val) : list val := List.filter (λ d, is_dict d && truthy (fld d "metadata")) all.
(** [goldens]: the paths of the golden renders with their documents *)
Definition main (goldens : list (string * list val)) : result Z :=
  fails <- flatM (λ '(f, all), ms <- judge (load all) ;; Ok (map (λ m, cat [f; ": "; m]) ms)) goldens ;;
  Ok (if nonempty fails || negb (nonempty goldens) then 1%Z else 0%Z).

(** ** The self-test *)

Section selftest.
(** [yaml.safe_dump(v)] and [yaml.safe_load(text)] *)
Context (dump : val → string) (yaml_load : string → result val).

Definition fence : string := "gibson-tenant-namespace-label".
Definition edit_docs (fn : val → result val) (base : list val) : result (list val) :=
  docs <- mapR (λ d, n <- meta_name d ;; if py_eq n (VStr fence) then fn d else Ok d) base ;; Ok (List.filter (λ d, is_none (fld d "_drop")) docs).
Definition on_kind (kind : string) (f : val → val) (d : val) : result val := k <- item d "kind" ;; Ok (if py_eq k (VStr kind) then f d else d).
Definition drop_doc (d : val) : result val := Ok (dict_with d "_drop" (VBool true)).
Definition warn : val → result val := on_kind "ValidatingAdmissionPolicyBinding" (put [K "spec"; K "validationActions"] (strs ["Warn"])).
Definition ignore : val → result val := on_kind "ValidatingAdmissionPolicy" (put [K "spec"; K "failurePolicy"] (VStr "Ignore")).
Definition create_only : val → result val :=
  on_kind "ValidatingAdmissionPolicy" (put [K "spec"; K "matchConstraints"; K "resourceRules"; I 0; K "operations"] (strs ["CREATE"])).
Definition replaced (v : val) : result val := yaml_load (str_replace (dump v) "gibson.zeroroot.ai/managed-by" "example.com/other").
Definition other_key (d : val) : result val :=
  k <- item d "kind" ;;
  if negb (py_eq k (VStr "ValidatingAdmissionPolicy")) then Ok d else
  s <- item d "spec" ;; w <- item s "variables" ;; w <- replaced w ;; v <- item s "validations" ;; v <- replaced v ;;
  Ok (put [K "spec"; K "validations"] v (put [K "spec"; K "variables"] w d)).
Definition no_policies (base : list val) : result (list val) := Ok (List.filter (λ d, negb (in_tuple (fld d "kind") POLICIES)) base).
Definition selftest (all : list val) : result Z :=
  let base := load all in
  clean <- judge base ;;
  if nonempty clean then Ok 1%Z else
  passed <- anyM (λ edited, docs <- edited ;; found <- judge docs ;; Ok (negb (nonempty found)))
    (map (λ fn, edit_docs fn base) [drop_doc; warn; ignore; create_only; other_key] ++ [no_policies base]) ;;
  Ok (if (passed : bool) then 1%Z else 0%Z).
End selftest.
(** A golden with one trusted label, its policy and its binding *)
Definition golden : list val :=
  [VNone;
   VDict [("kind", VStr "CiliumNetworkPolicy"); ("metadata", str_dict [("name", "daemon")]);
          ("spec", VDict [("ingress", VList [VDict [("fromEndpoints", VList [VDict [("matchLabels", str_dict
             [("k8s:io.cilium.k8s.namespace.labels.gibson.zeroroot.ai/managed-by", "tenant-operator")])]])]])])];
   VDict [("kind", VStr "ValidatingAdmissionPolicy"); ("metadata", str_dict [("name", fence)]);
          ("spec", VDict [("failurePolicy", VStr "Fail");
             ("matchConstraints", VDict [("resourceRules", VList [VDict
                [("apiGroups", strs [""]); ("resources", strs ["namespaces"]); ("operations", strs ["CREATE"; "UPDATE"])]])]);
             ("variables", VList [str_dict [("name", "label"); ("expression", "object.metadata.labels[" +:+ quoted "gibson.zeroroot.ai/managed-by" +:+ "]")]]);
             ("validations", VList [str_dict [("expression", "variables.label == oldObject.label")]])])];
   VDict [("kind", VStr "ValidatingAdmissionPolicyBinding"); ("metadata", str_dict [("name", fence)]);
          ("spec", VDict [("policyName", VStr fence); ("validationActions", strs ["Deny"])])]].
Lemma namespacelabels_selftest : selftest json_text json_loads golden = Ok 0%Z.
Proof. vm_compute. reflexivity. Qed.

(** ** What a clean run proves *)

(** A Cilium rule of the render selects on a namespace label. *)
Definition selects_label (docs : list val) (key : string) : Prop :=
  ∃ d part x k, d ∈ docs ∧ in_tuple (fld d "kind") POLICIES = true ∧ part ∈ ["spec"; "specs"] ∧
    inside (fld d part) (VDict x) ∧ k ∈ x.*1 ∧ key ∈ key_of k.
(** A rule of a policy matches Namespaces, on one operation among others. *)
Definition matches_namespaces (spec : val) (op : string) : Prop :=
  ∃ rs r ops, py_iter (por (fld (dict_fld spec "matchConstraints") "resourceRules") (VList [])) = Ok rs ∧ r ∈ rs ∧
    str_in "namespaces" (por (fld r "resources") (VList [])) = Ok true ∧ str_in "" (por (fld r "apiGroups") (VList [])) = Ok true ∧
    py_iter (por (fld r "operations") (VList [])) = Ok ops ∧ VStr op ∈ ops.
Definition has_expression (spec : val) (text : string) : Prop :=
  ∃ es e, added (por (fld spec "validations") (VList [])) (por (fld spec "variables") (VList [])) = Ok es ∧ e ∈ es ∧
    text = py_str (por (fld e "expression") (VStr "")).
(** An admission policy that fails closed holds the key, and a binding denies. *)
Record fenced (docs : list val) (key : string) : Prop := {
  fn_policy : ∃ d, d ∈ docs ∧ fld d "kind" = VStr "ValidatingAdmissionPolicy" ∧
    (∀ op, op ∈ ["CREATE"; "UPDATE"] → matches_namespaces (dict_fld d "spec") op) ∧
    fld (dict_fld d "spec") "failurePolicy" = VStr "Fail" ∧
    (∃ text, has_expression (dict_fld d "spec") text ∧ contains (quoted key) text = true) ∧
    ∃ b, b ∈ docs ∧ fld b "kind" = VStr "ValidatingAdmissionPolicyBinding" ∧
      str_in "Deny" (por (fld (dict_fld b "spec") "validationActions") (VList [])) = Ok true ∧
      py_eq (fld (fld d "metadata") "name") (fld (dict_fld b "spec") "policyName") = true }.

(** A text with no blank in two texts that a blank joins is in one of them. *)
Lemma prefix_before_blank p a b v : str_forallb (λ c, negb (Ascii.eqb c " ")) p = true → a +:+ " " +:+ b = p +:+ v → ∃ w, a = p +:+ w.
Proof.
  revert a. induction p as [|c p IH]; intros a Hp H; [by exists a|]. cbn [str_forallb] in Hp. apply andb_true in Hp as [Hc Hp].
  destruct a as [|d a]; cbn in H; injection H as <- H; [done|]. destruct (IH a Hp H) as (w & ->). by exists w.
Qed.
Lemma contains_blank p a b : str_forallb (λ c, negb (Ascii.eqb c " ")) p = true → contains p (a +:+ " " +:+ b) = true →
  contains p a = true ∨ contains p b = true.
Proof.
  intros Hp (u & v & H)%contains_true. revert u H. induction a as [|d a IH]; intros u H.
  - destruct u as [|c u].
    + destruct (prefix_before_blank p "" b v Hp H) as (w & Hw). left. apply contains_true. by exists "", w.
    + cbn in H. injection H as _ H. right. apply contains_true. by exists u, v.
  - destruct u as [|c u].
    + destruct (prefix_before_blank p (String d a) b v Hp H) as (w & Hw). left. apply contains_true. by exists "", w.
    + cbn in H. injection H as -> H. destruct (IH u H) as [(x & y & ->)%contains_true|]; [left|by right].
      apply contains_true. by exists (String c x), y.
Qed.
Lemma contains_join p l : str_forallb (λ c, negb (Ascii.eqb c " ")) p = true → p ≠ "" → contains p (str_join " " l) = true → ∃ x, x ∈ l ∧ contains p x = true.
Proof.
  intros Hp Hne. induction l as [|x l IH]; [by destruct p|]. destruct l as [|y l]; [intros H; exists x; split; [left|exact H]|].
  rewrite str_join_cons by done. intros [H|H]%contains_blank; [exists x; split; [left|done]| |done].
  destruct (IH H) as (z & Hz & ?). exists z. split; [by right|done].
Qed.
Lemma key_of_chars k key : key ∈ key_of k → str_forallb key_char key = true.
Proof.
  unfold key_of, re_search. destruct (search_from NS_LABEL "" None k) as [m|] eqn:H; [|by intros ?%elem_of_nil]. intros ->%list_elem_of_singleton.
  apply search_from_leftmost in H as (before & [p s] & _ & H & _). unfold match_at, NS_LABEL in H. cbn [RSeq fst snd] in H.
  next_part H s1 L1. next_part H s2 L2. injection H as <-.
  apply step_plus_iff in L2 as (d & -> & Hd & Hs). unfold group_text, group. cbn -[Regex.consumed str_forallb]. by rewrite consumed_app.
Qed.
Lemma quoted_no_blank key : str_forallb key_char key = true → str_forallb (λ c, negb (Ascii.eqb c " ")) (quoted key) = true.
Proof.
  intros H. change (quoted key) with (String dquote "" +:+ (key +:+ String dquote "")). rewrite !str_forallb_app.
  apply andb_true. split; [done|]. apply andb_true. split; [|done]. apply (str_forallb_impl key_char); [|done]. intros c Hc. by destruct (Ascii.eqb_spec c " ") as [->|].
Qed.
Lemma keys_of_iff v key : key ∈ keys_of v ↔ ∃ x k, inside v (VDict x) ∧ k ∈ x.*1 ∧ key ∈ key_of k.
Proof.
  induction v as [| | | |l IH|d IH] using val_nested_ind; cbn [keys_of]; try (split; [by intros ?%elem_of_nil|intros (x & k & Hi & _); by inversion Hi]).
  - rewrite elem_of_concat, Forall_forall in *. split.
    + intros (m & (v & -> & Hv)%list_elem_of_fmap & Hk). apply (IH v Hv) in Hk as (x & k & Hi & Hk). exists x, k. split; [by eapply Inside_elem|done].
    + intros (x & k & Hi & Hk). inversion Hi as [| |? ? v Hv Hi']; subst. exists (keys_of v). split; [by apply (list_elem_of_fmap_2 keys_of)|].
      apply (IH v Hv). by exists x, k.
  - rewrite elem_of_concat, Forall_forall in *. split.
    + intros (m & ([k v] & -> & Hv)%list_elem_of_fmap & [Hk|Hk]%elem_of_app); cbn [fst snd] in *.
      * exists d, k. split_and!; [constructor|by apply (list_elem_of_fmap_2 fst d (k, v))|done].
      * apply (IH (k, v) Hv) in Hk as (x & k' & Hi & Hk). exists x, k'. split; [by eapply Inside_key|done].
    + intros (x & k & Hi & Hk & Hkey). inversion Hi as [|? ? k' v Hv Hi'|]; subst.
      * apply list_elem_of_fmap in Hk as ([k' v] & -> & Hv). exists (key_of k' ++ keys_of v).
        split; [by apply (list_elem_of_fmap_2 (λ kv : string * val, key_of kv.1 ++ keys_of kv.2) _ (k', v))|]. by apply elem_of_app; left.
      * exists (key_of k' ++ keys_of v). split; [by apply (list_elem_of_fmap_2 (λ kv : string * val, key_of kv.1 ++ keys_of kv.2) _ (k', v))|].
        apply elem_of_app. right. apply (IH (k', v) Hv). by exists x, k.
Qed.
Lemma trusted_iff docs ks key : trusted_keys docs = Ok ks → key ∈ ks ↔ selects_label docs key ∧ key ∉ SERVER_SET.
Proof.
  unfold trusted_keys. intros (l & Hl & [= <-])%bind_Ok. rewrite sorted_set_elem, list_elem_of_In, filter_In, <- list_elem_of_In, negb_true_iff.
  rewrite <- not_true_iff_false, str_mem_elem. apply and_iff_compat_r. rewrite (flatM_elem _ _ _ Hl). unfold selects_label. split.
  - intros (d & r & Hd & Hr & Hk). unfold doc_keys in Hr. apply bind_Ok in Hr as (k & ->%get_Ok & Hr).
    destruct (in_tuple _ _) eqn:Ek; [|injection Hr as <-; by apply elem_of_nil in Hk]. cbn [negb] in Hr.
    apply bind_Ok in Hr as (s & ->%get_Ok & Hr). apply bind_Ok in Hr as (t & ->%get_Ok & [= <-]).
    apply elem_of_app in Hk as [Hk|Hk]; apply keys_of_iff in Hk as (x & k & ?); [exists d, "spec", x, k|exists d, "specs", x, k]; (split_and!; [done..|set_solver|naive_solver|naive_solver|naive_solver]).
  - intros (d & part & x & k & Hd & Hk & Hp & Hi). destruct (flatM_Ok_elem _ _ _ _ Hl Hd) as (r & Hr). exists d, r. split_and!; [done..|].
    unfold doc_keys in Hr. apply bind_Ok in Hr as (k' & ->%get_Ok & Hr). rewrite Hk in Hr. cbn [negb] in Hr.
    apply bind_Ok in Hr as (s & ->%get_Ok & Hr). apply bind_Ok in Hr as (t & ->%get_Ok & [= <-]). apply elem_of_app. rewrite !keys_of_iff.
    rewrite !elem_of_cons, elem_of_nil in Hp. destruct Hp as [->|[->|[]]]; [left|right]; by exists x, k.
Qed.
Lemma deny_name_elem d l v : deny_name d = Ok l → v ∈ l → fld d "kind" = VStr "ValidatingAdmissionPolicyBinding" ∧
  str_in "Deny" (por (fld (dict_fld d "spec") "validationActions") (VList [])) = Ok true ∧ v = fld (dict_fld d "spec") "policyName".
Proof.
  unfold deny_name. intros (b & Hb & H)%bind_Ok Hv. destruct b; [|injection H as <-; by apply elem_of_nil in Hv]. cbn [negb] in H.
  apply bind_Ok in H as (s & ->%get_dict_is & H). apply bind_Ok in H as (a & ->%get_Ok & H). apply bind_Ok in H as (deny & Hdeny & H).
  destruct deny; [|injection H as <-; by apply elem_of_nil in Hv]. cbn [negb] in H. apply bind_Ok in H as (s & ->%get_dict_is & H).
  apply bind_Ok in H as (n & ->%get_Ok & ->%set_of_Ok). apply list_elem_of_singleton in Hv. split_and!; [by apply kind_is_true|done..].
Qed.
Lemma rule_ops_elem r l op : rule_ops r = Ok l → VStr op ∈ l →
  str_in "namespaces" (por (fld r "resources") (VList [])) = Ok true ∧ str_in "" (por (fld r "apiGroups") (VList [])) = Ok true ∧
  ∃ ops, py_iter (por (fld r "operations") (VList [])) = Ok ops ∧ VStr op ∈ ops.
Proof.
  unfold rule_ops. intros (a & ->%get_Ok & H)%bind_Ok Hv. apply bind_Ok in H as (b & Hb & H). destruct b; [|injection H as <-; by apply elem_of_nil in Hv].
  cbn [negb] in H. apply bind_Ok in H as (g & ->%get_Ok & H). apply bind_Ok in H as (c & Hc & H). destruct c; [|injection H as <-; by apply elem_of_nil in Hv].
  cbn [negb] in H. apply bind_Ok in H as (o & ->%get_Ok & H). unfold set_keys in H. apply bind_Ok in H as (ops & Ho & ->%set_of_Ok).
  split_and!; [done..|]. by exists ops.
Qed.
Lemma guard_fences docs deny key d l : flatM deny_name docs = Ok deny → d ∈ docs → guard_name deny key d = Ok l → l ≠ [] → str_forallb key_char key = true → fenced docs key.
Proof.
  intros Hdeny Hd H Hl Hkey. unfold guard_name in H. apply bind_Ok in H as (b & Hb & H). destruct b; [|by injection H as <-]. cbn [negb] in H.
  apply kind_is_true in Hb. apply bind_Ok in H as (spec & ->%get_dict_is & H). apply bind_Ok in H as (mc & ->%get_dict_is & H).
  apply bind_Ok in H as (rs & Hrs%get_list_is & H). apply bind_Ok in H as (ops & Hops & H). apply bind_Ok in H as (texts & Ht & H).
  apply bind_Ok in H as (fp & ->%get_Ok & H). destruct (_ && _ && _) eqn:E; [|by injection H as <-].
  apply andb_true in E as [[Eo Ef%py_eq_str_r]%andb_true Ec]. apply bind_Ok in H as (n & ->%meta_name_fld & H). apply bind_Ok in H as (c & Hc & H).
  destruct (negb _); [done|]. destruct c; [|by injection H as <-]. split. exists d. split_and!; [done..| |done| |].
  - intros op Hop. pose proof (superset_elem _ _ _ Eo Hop) as Hin. apply (flatM_elem _ _ _ Hops) in Hin as (r & lo & Hr & Hlo & Hin).
    destruct (rule_ops_elem _ _ _ Hlo Hin) as (H1 & H2 & os & H3 & H4). by exists rs, r, os.
  - apply contains_join in Ec as (x & Hx & Hcx); [|by apply quoted_no_blank|by destruct key]. exists x. split; [|done]. unfold expressions in Ht.
    apply bind_Ok in Ht as (vs & ->%get_Ok & Ht). apply bind_Ok in Ht as (ws & ->%get_Ok & Ht). apply bind_Ok in Ht as (es & Hes & Ht).
    destruct (mapR_elem _ _ _ _ Ht Hx) as (e & He & Hex). unfold expression_of in Hex. apply bind_Ok in Hex as (y & ->%get_Ok & [= <-]). by exists es, e.
  - injection Hc as Hc. apply existsb_elem_of in Hc as (v & Hv & Eq). apply (flatM_elem _ _ _ Hdeny) in Hv as (b & lb & Hbin & Hlb & Hv).
    destruct (deny_name_elem _ _ _ Hlb Hv) as (H1 & H2 & ->). by exists b.
Qed.
Lemma labels_clean docs : judge docs = Ok [] → (∃ key, selects_label docs key) ∧ ∀ key, selects_label docs key → key ∉ SERVER_SET → fenced docs key.
Proof.
  unfold judge. intros (keys & Hk & H)%bind_Ok. destruct keys as [|k keys]; [done|]. split.
  - exists k. apply (trusted_iff _ _ _ Hk). left.
  - intros key Hs Hno. assert (key ∈ k :: keys) as Hin by (by apply (trusted_iff _ _ _ Hk)). apply (proj1 (flatM_nil _ _) H) in Hin.
    apply bind_Ok in Hin as (gs & Hg & Hin). destruct gs as [|g gs]; [done|]. unfold guards in Hg. apply bind_Ok in Hg as (deny & Hdeny & Hg).
    assert (g ∈ g :: gs) as Hgin by left. apply (flatM_elem _ _ _ Hg) in Hgin as (d & l & Hd & Hl & Hgl).
    apply (guard_fences _ _ _ _ _ Hdeny Hd Hl); [by intros ->; apply elem_of_nil in Hgl|]. destruct Hs as (?&?&?&?&?&?&?&?&?&?). by eapply key_of_chars.
Qed.

(** When main of check-namespace-label-admission.py exits 0, there is a golden,
    each one has a Cilium rule on a namespace label, and for each label that
    the API server does not set, a policy that fails closed names it in an
    expression, on CREATE and UPDATE of a Namespace, with a binding that
    denies. *)
Theorem clean_labels_are_fenced goldens : main goldens = Ok 0%Z →
  goldens ≠ [] ∧ ∀ f all, (f, all) ∈ goldens →
    (∃ key, selects_label (load all) key) ∧ ∀ key, selects_label (load all) key → key ∉ SERVER_SET → fenced (load all) key.
Proof.
  unfold main. intros (fails & Hf & H)%bind_Ok. destruct fails; [|done]. destruct goldens as [|g goldens]; [done|]. split; [done|].
  intros f all Hin. apply (proj1 (flatM_nil _ _) Hf) in Hin. apply bind_Ok in Hin as (ms & Hms & [= Hm]). apply map_eq_nil in Hm as ->. by apply labels_clean.
Qed.
Lemma clean_labels_are_fenced_witness : main [("golden", golden)] = Ok 0%Z ∧ fenced (load golden) "gibson.zeroroot.ai/managed-by".
Proof.
  assert (main [("golden", golden)] = Ok 0%Z) as H by (vm_compute; reflexivity). split; [exact H|].
  destruct (clean_labels_are_fenced _ H) as [_ Hg]. destruct (Hg "golden" golden) as [_ Hf]; [left|]. apply Hf.
  - apply (trusted_iff _ ["gibson.zeroroot.ai/managed-by"]); [vm_compute; reflexivity|left].
  - intros Hin. by apply list_elem_of_singleton in Hin.
Defined.
