(* ===== verification/SelfTests.v ===== *)
(** * The self-tests of the guards

    Each guard of the repository has a [--selftest] mode that feeds it fixtures
    and asks for a verdict on each.  The models of the guards run the same
    fixtures. *)
From S2P Require Import Prelude.
From S2P Require NetworkPeers KubectlRbac SecurePod DaemonCallers OwnerCreds.
From S2P Require MetricsPolicy PolicyType NamespacePolicy Webhooks OpenfgaAuthn.
From S2P Require UpgradePair HubbleDrops NoSecretArgv NetpolHooks EdgeRoutes ValuesConsumed SecretReads.
From S2P Require JwtPayload MisdirectedAuthority AccessLog.
From S2P Require InstanceAdmin WorkloadRbac.
From S2P Require SecretPlumbing.
From S2P Require IdentityAdmission PostgresLogins Reloader OptionalReferences.
From S2P Require PipeGrepQ.
From S2P Require AlertSeries.
From S2P Require EnvConsumed.
From S2P Require SecretContract.
From S2P Require AirgapImages.
From S2P Require XtraceSecrets VeleroDatapath.
From S2P Require ChartDeps.
From S2P Require OrphanTemplates OperatorRbac.
From S2P Require SeamConditions OpenbaoPolicies AlertRunbooks SecretStores HelperDocs.
From S2P Require BackupCoverage FgaSeeds ClaimedHost LoginToken InstanceHeaders ReloaderNames CnpgSuperuser.
From S2P Require ConnectorCreds ProbeTimeouts OpenbaoTls.
From S2P Require SpireFederation CgRotation.
From S2P Require EdgeRateLimits NodeHeap.
From S2P Require DnsNames SmtpTlsMode EmailSmtp NamespaceLabels.

